(* ===== verification/_CoqProject ===== *)
-Q . S2P
Prelude.v
Bus.v
FlatBus.v
Memory.v
MemoryBus.v
MemoryProofs.v
MemoryMap.v
MemoryLayout.v
MemoryAccess.v
MemoryTheorems.v
MemoryRam.v
MemoryDebug.v
CpuState.v
CpuAlu.v
CpuAluProofs.v
CpuMachine.v
CpuExc.v
CpuOps.v
CpuShiftProofs.v
CpuDecode.v
CpuStays.v
CpuDefined.v
CpuIsa.v
CpuRun.v
CpuUser.v
CpuFrame.v
CpuRestart.v
Scheduler.v
SchedulerProofs.v
SchedulerRun.v
SchedulerCpu.v
SchedulerCkpt.v
FloppyGcr.v
FloppyGcrProofs.v
Via.v
ViaProofs.v
ViaRun.v
ViaTheorems.v
Rtc.v
RtcProofs.v
Keyboard.v
KeyboardProofs.v
Plus.v
PlusTheorems.v
Pmmu.v
PmmuProofs.v
PmmuTlb.v
PmmuTheorems.v
PmmuExamples.v
Lisa.v
LisaProofs.v
LisaTheorems.v
Stdio.v
Rle.v
Checkpoint.v
CheckpointProofs.v
CheckpointTheorems.v
Storage.v
StorageProofs.v
StorageOps.v
StorageTheorems.v
StorageCkpt.v
StorageCkptProofs.v
StorageExamples.v
Image.v
Formats.v
Resources.v
FormatsProofs.v
ResourcesProofs.v
DonnBits.v
ImageProofs.v
Scsi.v
ScsiProofs.v
ScsiDriver.v
ScsiDriverProofs.v
ScsiCommandProofs.v
ScsiDriverTheorems.v
ScsiImage.v
ScsiExamples.v
FormatsTheorems.v
