(* ===== verification/Prelude.v ===== *)
(** * Granny Smith: a verification of the emulator's core

    Granny Smith emulates 68k Macintosh computers.  This development models,
    from the C sources under src/src/core and src/src/machines, the Motorola
    68000 interpreter, the memory map and the 68030 MMU, the scheduler, the
    devices of the Macintosh Plus around its VIA, the floppy track code, the SCSI
    bus with its drives, the disk images and checkpoint files, and the parsers of
    the file formats that are opened from outside, and proves what makes them
    correct.

    ** The program and the files

    - The CPU (cpu_internal.h, cpu_ops.h, cpu_decode.h, cpu_68000.c, cpu.c) is
      one function, cpu_run_68000: a loop that fetches an opcode, dispatches on
      it through nested switches to the OP_* macros, and stops when an
      instruction budget (a "sprint") is spent.
      CpuState models struct cpu and the status register; CpuAlu the arithmetic
      and flag macros; CpuMachine memory access, effective addresses and MOVEM;
      CpuExc exceptions, interrupts and write_sr; CpuOps the OP_* macros, as an
      inductive type of operations and an interpreter exec_op; CpuDecode the
      opcode switches; CpuRun the sprint loop with its prologue and epilogue.
      The C code's early exits ("continue") and its undefined expressions are
      outcomes of a small monad of this file ([M], [outcome]).
    - The memory map (memory.h, memory.c) translates guest addresses through a
      page table and four arrays of precomputed host addresses (the "SoA" fast
      path).  Memory models all of it: the inline accessors, the slow paths with
      devices, MMU, logpoints and lazily installed entries, the debugger's
      accessors, logpoints, device mappings, RAM/ROM population and the ROM
      loader.  Host pointers are 64-bit addresses into one host memory, so that
      two pages can alias the same bytes.  MemoryLayout adds the Macintosh Plus'
      plus_memory_layout_init (machines/compact/plus.c).
    - The 68030 MMU (mmu.c, mmu.h, the register moves of cpu_68030.c): Pmmu
      models transparent translation, the descriptor walk, the software TLB with
      its list of touched pages, the block cache, faults and invalidation.
    - The Lisa MMU (lisa_mmu.c): Lisa models the segment descriptors, the start
      and context latches, the special I/O space and the diagnostics.
    - The scheduler (scheduler.c): Scheduler models the event queue ordered by
      timestamps, the cycle accounts, the run loop that cuts the CPU's time into
      sprints, the speed settings and the checkpoint of the queue.
    - The Plus' devices: Via models via.c (timers, shift register, ports, control
      lines, interrupt flags), Rtc rtc.c (serial protocol and parameter RAM),
      Keyboard keyboard.c, and Plus the wiring of machines/compact/plus.c.
    - FloppyGcr models the sector and track code of floppy_gcr.c.
    - Disk images and checkpoints: Stdio has what the sources use of C files,
      every transfer of which may fail; Rle and Checkpoint model checkpoint.c
      (run-length code, the two formats, files inside a checkpoint), Storage and
      StorageCkpt storage.c (a base image, a delta file, a journal of preimages,
      and snapshots in checkpoints), Image image.c (DiskCopy files, opening,
      transfers, tags).
    - Host files: Formats models the AppleDouble container (appledouble.c), the
      MacRoman transcoder (macroman.c), Apple Data Compression (adc.c) and the
      partition map (image_apm.c, image_apm_io.c); Resources models resource
      forks (resource_fork.c), both decompressors of compressed resources
      (rsrc_dcmp.c), NDIF block maps (image_ndif.c) and the expansion of an NDIF
      image (image.c).  A buffer is a list of bytes, every access is checked, and
      an access outside of it is an outcome ([Bad]) that the theorems exclude.
    - The SCSI bus: Scsi models scsi.c and scsi_cdrom.c (the NCR 5380, the bus
      phases, the commands of hard disks and CD-ROM drives, the entry points of
      DMA engines) with the staging buffer as an array whose bounds are checked
      by the model, not assumed.  ScsiDriver is not in the sources: it is a host
      that talks to the registers as drivers do, and the abstract disk.

    ** Interfaces

    - Bus: [Bus] is what the CPU calls, [BusLaws] what it may rely on at every
      access, [RamLaws] what holds at addresses that are RAM.  The CPU's theorems
      are proved against it; MemoryBus and MemoryRam show that the memory map
      meets it, and FlatBus is the small instance the CPU's witnesses run on.
    - [Devices] are the device callbacks and [Mmu] the MMU as memory.c calls
      them, with [MmuLaws] for the facts that are used; PmmuProofs shows that the
      68030 MMU meets MmuLaws, LisaTheorems that the Lisa MMU does.
    - [Platform] and [PlatformLaws] are what the scheduler needs of the CPU and
      of event callbacks; SchedulerCpu runs the 68000 under it.
    - [Host] and [HostLaws] are the board around the VIA, [HasKeyboard] the
      keyboard on a board; Plus and PlusTheorems discharge them.
    - [Medium] is what a SCSI drive needs of an image and [MediumLaws] what it
      may rely on; ImageProofs shows that an image over the delta storage meets
      them.  [Build] says whether asserts are compiled in.
    - [Abi] gives the widths of long and size_t and [AbiOk] how they relate; the
      64-bit host and the 32-bit WebAssembly target are instances, and theorems
      that need more room ask for it.

    ** What the theorems show

    - CpuAluProofs, CpuShiftProofs: every arithmetic macro gives the mathematical
      result and the flags of the instruction set, at the three operand sizes,
      and after CMP the sixteen condition tests are the signed and unsigned
      comparisons; the register forms of the shifts and rotates are that many
      one-bit steps of the programmer's manual.  Where the C expression is
      undefined (DIVS of 0x80000000 by -1, V of ASL for a zero operand shifted
      out entirely) the theorems say exactly when.
    - CpuIsa: the decoder is the published opcode map: a table of bit patterns
      with their legal addressing modes agrees with it on all 65536 opcodes (but
      for the branches whose displacement byte is FF), and everything else is an
      illegal instruction exception.
    - CpuStays, CpuDefined, CpuRun: every instruction ends in one of the ways its
      form allows; a sprint terminates within its budget on any bus, ends at a
      faulting instruction, and executes no undefined C expression but the two
      named above.
    - CpuUser: user-mode code cannot change privileged state without taking an
      exception, and privileged instructions trap.
    - CpuFrame: writing SR, taking an exception and returning from it, and
      accepting interrupts, down to the bytes of the stack frame.
    - CpuRestart: instructions that write memory (LINK excepted) leave the
      address registers unchanged when they fault, so that they can be restarted.
    - MemoryProofs, MemoryMap, MemoryAccess, MemoryTheorems: reads and writes
      reach exactly the bytes the page table designates, by whichever path and
      across page boundaries; the fast path stays consistent with the page table
      in every reachable state; logpoints see every access; devices are
      dispatched with the right offset and removed again; unmapped addresses
      read as ones; RAM mirrors alias.
    - MemoryLayout: the Plus' memory layout at each of its 16 M addresses.
    - MemoryRam: the memory map refines the CPU's interface.
    - MemoryDebug: debugger reads agree with the CPU's and change nothing; wait
      states are converted to instruction slots without loss, and the E-clock
      penalty reaches the next edge exactly.
    - PmmuProofs, PmmuTlb, PmmuTheorems, PmmuExamples: the table search of the
      MC68030 is stated on its own, and the descriptor walk agrees with it
      wherever the tables use none of the features mmu.c leaves out (protection
      by table descriptors, limits, indirect descriptors, direct root pages); loads and stores through the software TLB give
      what that walk permits, whatever was cached before; an invalid or forbidden
      access faults; the TLB is consistent in every reachable state and empty
      after an invalidation.
    - LisaProofs, LisaTheorems: every access through the Lisa MMU has the result
      and the effect its descriptors prescribe, and a user program reaches no
      memory outside the segments of its context.
    - SchedulerProofs, SchedulerRun, SchedulerCpu, SchedulerCkpt: the queue stays
      ordered, an event is due at the cycle asked for, a run of n instructions
      terminates with exact cycle accounts and without failing an assertion,
      settings stay in range, and a checkpoint restores the queue.
    - ViaProofs, ViaRun, ViaTheorems: the VIA's registers and events agree in
      every reachable state; timer 1 interrupts at the cycle the data sheet says.
    - RtcProofs, KeyboardProofs, PlusTheorems: the clock's serial protocol is
      that of the documented chip, the keyboard's ring is a queue, and from
      power-up the devices together keep their invariant under any guest access.
    - FloppyGcrProofs: encoding a track and flushing it back is the identity.
    - Rle, CheckpointProofs, CheckpointTheorems: what is written to a checkpoint
      is read back, in either format; no file of another build is accepted, and
      no file at all makes the reader overrun a buffer where size_t has 64 bits.
    - StorageProofs, StorageOps, StorageTheorems: an image refines an array of
      blocks; after a crash at any point the last commit is found again.
      StorageCkptProofs: restoring a quick or a consolidated checkpoint brings
      back the disk as it was saved.
    - ImageProofs: an image is the array of bytes its blocks make up.
    - FormatsProofs, ResourcesProofs: whatever bytes they are given, the parsers
      of host files end and stay in their buffers; on well-formed input they
      return what the format says (AppleDouble files that were built, partition
      maps, resource forks, block maps, compressed chunks).  DonnBits: a description of the streams of
      compressed resources, and every stream decompresses to what it stands for.
      FormatsTheorems: opening an image is safe whatever lies beside it, and an
      NDIF image expands to its disk.
    - ScsiProofs: in a build with asserts no access of the guest, a
      DMA engine or the user makes the controller leave its buffer.
      ScsiDriverProofs, ScsiCommandProofs, ScsiDriverTheorems: every sequence of
      requests made through the registers is answered as by a disk, from
      arbitration to the message byte.  ScsiImage puts the layers together: a
      file of the host, opened and attached, is that disk.
    - SchedulerCpu, PlusTheorems, PmmuExamples, StorageExamples, ScsiExamples and
      FormatsTheorems also hold the inputs on which the code departs from its
      comments or its manual.

    ** Bounds and fuel

    run_loop takes fuel; a sprint of n instructions needs at most n iterations,
    since each consumes at least one (cpu_run_68000_total).  The run loop of the
    scheduler takes 512 iterations per instruction of its budget and three more,
    its queue loops MAX_SANE_EVENTS, the limit the code itself asserts
    (run_instructions_correct).  The block read of the debugger takes as many
    iterations as bytes, the flush of a track as many as the track has bytes, the
    run-length, ADC and DonnBits loops as many as their input has bytes, and a file is copied out
    of a checkpoint in size/8192 + 1 pieces: each iteration consumes at least one
    unit.  Transfers of an image take as many iterations as they have blocks.  All
    other recursion is structural.

    ** What is not modelled

    The 68030 instruction set beyond the MMU register moves and the FPU, the
    SCC, the floppy controllers, ADB, sound and video cards, the HFS and UFS
    readers, the network, the object tree and its expressions, the shell,
    archives and the other machines: subsystems of their own that nothing
    modelled here depends on, left for further components.  The platform front
    ends are I/O.  Of scsi.c the checkpoint block and the object tree are left
    out, of image.c the paths and the image list, of resource_fork.c the JSON
    description of a resource.
    Of memory.c, deletion, checkpoints, the object tree methods and the slow-path
    histogram (a diagnostic) are left out; of the device callbacks the model
    keeps the value, the new device state and the wait states they charge.  Of
    the scheduler and the drives, pacing against host time (doubles) is left
    out.  Memory allocation is taken to succeed, and so is flushing stdio's
    buffers.  The order in which C leaves the operands of PC + DISP16()
    unspecified is fixed to PC first.

    Natural next components: the serial controller, the floppy controllers, the
    file-system and archive readers and the expression parser.

    This file holds what the others share: fixed-width integers, the outcome
    monad with its invariants, tactics and hint databases. *)
From stdpp Require Export base list gmap zmap numbers.
From Stdlib Require Export ZArith Lia.

#[export] Set Default Goal Selector "!".
Global Open Scope Z_scope.

(** ** Fixed-width C integers

    A C integer of width [n] is a [Z]; an assignment to (or a cast to) an
    unsigned type is [wrap], a read through a signed type is [sx]. *)

Definition wrap (n x : Z) : Z := x mod 2 ^ n.
Definition u8 (x : Z) : Z := wrap 8 x.
Definition u16 (x : Z) : Z := wrap 16 x.
Definition u32 (x : Z) : Z := wrap 32 x.
Definition u64 (x : Z) : Z := wrap 64 x.

(** [(intn_t)x]: the two's-complement value of the low [n] bits. *)
Definition sx (n x : Z) : Z :=
  let y := wrap n x in if y <? 2 ^ (n - 1) then y else y - 2 ^ n.
Definition s8 (x : Z) : Z := sx 8 x.
Definition s16 (x : Z) : Z := sx 16 x.
Definition s32 (x : Z) : Z := sx 32 x.

(** C truth values: [truthy x] is [x != 0], [cbool b] the [int] of a test. *)
Definition truthy (x : Z) : bool := negb (x =? 0).
Definition cbool (b : bool) : Z := if b then 1 else 0.

Definition in_width (n x : Z) : Prop := 0 <= x < 2 ^ n.

(** Operand sizes of the 68k instruction set (the [bits] argument of the
    macros of cpu_ops.h). *)
Inductive size := B8 | B16 | B32.
#[global] Instance size_eq_dec : EqDecision size.
Proof. solve_decision. Defined.

Definition bits (s : size) : Z := match s with B8 => 8 | B16 => 16 | B32 => 32 end.
Definition bytes (s : size) : Z := match s with B8 => 1 | B16 => 2 | B32 => 4 end.
Definition trunc (s : size) (x : Z) : Z := wrap (bits s) x.
Definition signed (s : size) (x : Z) : Z := sx (bits s) x.

(** ** Tactics *)

(** Case analysis on every boolean comparison of the goal and context. *)
Ltac zbool :=
  repeat match goal with
  | H : context [Z.ltb ?a ?b] |- _ => destruct (Z.ltb_spec a b)
  | |- context [Z.ltb ?a ?b] => destruct (Z.ltb_spec a b)
  | H : context [Z.leb ?a ?b] |- _ => destruct (Z.leb_spec a b)
  | |- context [Z.leb ?a ?b] => destruct (Z.leb_spec a b)
  | H : context [Z.eqb ?a ?b] |- _ => destruct (Z.eqb_spec a b)
  | |- context [Z.eqb ?a ?b] => destruct (Z.eqb_spec a b)
  end.

(** The same on the goal only, dropping contradictory cases at every step. *)
Ltac zprune :=
  repeat (match goal with
  | |- context [Z.ltb ?a ?b] => destruct (Z.ltb_spec a b)
  | |- context [Z.leb ?a ?b] => destruct (Z.leb_spec a b)
  | |- context [Z.eqb ?a ?b] => destruct (Z.eqb_spec a b)
  end; try (exfalso; lia); cbn [andb orb negb]).

(** Evaluates the ground powers of two that [lia] would treat as atoms. *)
Ltac pow2 :=
  repeat match goal with
  | H : context [2 ^ Zpos ?p] |- _ =>
      let v := eval vm_compute in (2 ^ Zpos p) in change (2 ^ Zpos p) with v in H
  | |- context [2 ^ Zpos ?p] =>
      let v := eval vm_compute in (2 ^ Zpos p) in change (2 ^ Zpos p) with v
  end.

(** Linear arithmetic with division and remainder by constants. *)
Ltac dlia := pow2; Z.to_euclidean_division_equations; lia.

(** Enumerates a variable bounded by numerals in the context. *)
Ltac small_z x :=
  destruct x as [|x|x]; [| |exfalso; lia];
  [| repeat (destruct x as [x|x|]; try (exfalso; lia))];
  try (exfalso; lia).

(** Record update: [field_set eta proj v r] is [r] with the field [proj] set
    to [v], computed from the eta-expansion [eta] of the record. *)
Ltac field_set eta proj v r :=
  let e := eval hnf in (eta r) in
  match eval pattern (proj r) in e with
  | ?f _ => let t := eval cbv beta in (f v) in exact t
  end.

(** ** Generic lemmas *)

Create HintDb width.

Lemma wrap_range n x : 0 <= n -> 0 <= wrap n x < 2 ^ n.
Proof. intros. apply Z.mod_pos_bound. apply Z.pow_pos_nonneg; lia. Qed.

Lemma wrap_small n x : in_width n x -> wrap n x = x.
Proof. intros []. by apply Z.mod_small. Qed.

Lemma wrap_wrap n x : 0 <= n -> wrap n (wrap n x) = wrap n x.
Proof. intros. apply wrap_small, wrap_range, H. Qed.

Lemma wrap_add_l n x y : wrap n (wrap n x + y) = wrap n (x + y).
Proof. apply Zplus_mod_idemp_l. Qed.
Lemma wrap_add_r n x y : wrap n (x + wrap n y) = wrap n (x + y).
Proof. apply Zplus_mod_idemp_r. Qed.
Lemma wrap_sub_l n x y : wrap n (wrap n x - y) = wrap n (x - y).
Proof. apply Zminus_mod_idemp_l. Qed.

Lemma u8_range x : 0 <= u8 x < 256.
Proof. apply (wrap_range 8). lia. Qed.
Lemma u16_range x : 0 <= u16 x < 65536.
Proof. apply (wrap_range 16). lia. Qed.
Lemma u32_range x : 0 <= u32 x < 4294967296.
Proof. apply (wrap_range 32). lia. Qed.
Lemma u32_small x : in_width 32 x -> u32 x = x.
Proof. apply wrap_small. Qed.
Lemma trunc_range s x : in_width (bits s) (trunc s x).
Proof. apply wrap_range. by destruct s. Qed.
#[export] Hint Resolve u8_range u16_range u32_range trunc_range : width.

Lemma bits_pos s : 0 < bits s.
Proof. by destruct s. Qed.
Lemma pow_bits s : 2 ^ bits s = 2 * 2 ^ (bits s - 1).
Proof. by destruct s. Qed.
Lemma pow_bits_pos s : 0 < 2 ^ (bits s - 1).
Proof. by destruct s. Qed.

Lemma sx_range n x : 0 < n -> - 2 ^ (n - 1) <= sx n x < 2 ^ (n - 1).
Proof.
  intros Hn. pose proof (wrap_range n x ltac:(lia)) as Hw. unfold sx.
  assert (2 ^ n = 2 * 2 ^ (n - 1)) as E by (rewrite <-Z.pow_succ_r by lia; f_equal; lia).
  zbool; lia.
Qed.

Lemma sx_wrap n x : 0 <= n -> sx n (wrap n x) = sx n x.
Proof. intros. unfold sx. by rewrite wrap_wrap. Qed.

Lemma wrap_sx n x : 0 < n -> wrap n (sx n x) = wrap n x.
Proof.
  intros Hn. unfold sx. zbool; [by rewrite wrap_wrap by lia|].
  unfold wrap. rewrite <-(Z_mod_plus_full _ 1), Z.mul_1_l, Z.sub_add.
  apply Zmod_mod.
Qed.

Lemma truthy_cbool b : truthy (cbool b) = b.
Proof. by destruct b. Qed.
Create Rewrite HintDb width_rw.
#[export] Hint Rewrite truthy_cbool : width_rw.

Lemma truthy_true x : truthy x = true <-> x <> 0.
Proof. unfold truthy. zbool; naive_solver. Qed.

(** The most significant bit of an [n]-bit value is a comparison. *)
Lemma msb_spec n x : 0 < n -> in_width n x -> Z.testbit x (n - 1) = (2 ^ (n - 1) <=? x).
Proof.
  intros Hn [H0 H1]. rewrite Z.testbit_eqb by lia.
  assert (2 ^ n = 2 * 2 ^ (n - 1)) as E by (rewrite <-Z.pow_succ_r by lia; f_equal; lia).
  assert (0 < 2 ^ (n - 1)) by (apply Z.pow_pos_nonneg; lia).
  destruct (Z.leb_spec (2 ^ (n - 1)) x).
  - by rewrite <-(Z.div_unique_pos x (2 ^ (n - 1)) 1 (x - 2 ^ (n - 1))) by lia.
  - rewrite Z.div_small by lia. done.
Qed.

(** Shifting an in-width value down to its top bit leaves that bit. *)
Lemma shiftr_msb n x :
  0 < n -> in_width n x -> Z.shiftr x (n - 1) = cbool (Z.testbit x (n - 1)).
Proof.
  intros Hn Hx. rewrite msb_spec by done. destruct Hx as [H0 H1].
  rewrite Z.shiftr_div_pow2 by lia.
  assert (2 ^ n = 2 * 2 ^ (n - 1)) as E by (rewrite <-Z.pow_succ_r by lia; f_equal; lia).
  assert (0 < 2 ^ (n - 1)) by (apply Z.pow_pos_nonneg; lia).
  zbool; simpl.
  - symmetry; apply (Z.div_unique_pos _ _ _ (x - 2 ^ (n - 1))); lia.
  - apply Z.div_small; lia.
Qed.

(** Masking with the top bit tests it. *)
Lemma land_pow2 x i : 0 <= i -> Z.land x (2 ^ i) = if Z.testbit x i then 2 ^ i else 0.
Proof.
  intros Hi. apply Z.bits_inj'. intros k Hk.
  rewrite Z.land_spec, Z.pow2_bits_eqb by lia.
  destruct (Z.eqb_spec i k) as [->|].
  - rewrite andb_true_r. destruct (Z.testbit x k) eqn:E.
    + by rewrite Z.pow2_bits_true.
    + by rewrite Z.bits_0.
  - rewrite andb_false_r. destruct (Z.testbit x i).
    + by rewrite Z.pow2_bits_false.
    + by rewrite Z.bits_0.
Qed.

Lemma truthy_land_pow2 x i : 0 <= i -> truthy (Z.land x (2 ^ i)) = Z.testbit x i.
Proof.
  intros. rewrite land_pow2 by done. destruct (Z.testbit x i); [|done].
  apply truthy_true. apply Z.pow_nonzero; lia.
Qed.

Lemma truthy_land_1 x : truthy (Z.land x 1) = Z.testbit x 0.
Proof. by apply (truthy_land_pow2 x 0). Qed.

Lemma land_width n x y : 0 <= n -> in_width n y -> in_width n (Z.land x y).
Proof.
  intros Hn [H0 H1]. split; [apply Z.land_nonneg; by right|].
  rewrite <-(Z.mod_small y (2 ^ n)), <-Z.land_ones, Z.land_assoc, Z.land_ones by (done || lia).
  apply Z.mod_pos_bound. lia.
Qed.

Lemma bits_width n x : 0 <= n -> 0 <= x -> (forall i, n <= i -> Z.testbit x i = false) -> in_width n x.
Proof.
  intros Hn Hx H. split; [done|].
  assert (x = x mod 2 ^ n) as ->.
  { apply Z.bits_inj'. intros i Hi. destruct (Z.lt_ge_cases i n).
    - by rewrite Z.mod_pow2_bits_low.
    - rewrite Z.mod_pow2_bits_high by lia. auto. }
  apply Z.mod_pos_bound. apply Z.pow_pos_nonneg; lia.
Qed.

Lemma width_bits n x i : in_width n x -> 0 <= n <= i -> Z.testbit x i = false.
Proof.
  intros [H0 H1] Hi. rewrite <-(Z.mod_small x (2 ^ n)) by done.
  apply Z.mod_pow2_bits_high. lia.
Qed.

Lemma lor_width n x y : 0 <= n -> in_width n x -> in_width n y -> in_width n (Z.lor x y).
Proof.
  intros Hn Hx Hy. apply bits_width; [done|apply Z.lor_nonneg; split; [apply Hx|apply Hy]|].
  intros i Hi. by rewrite Z.lor_spec, !(width_bits n) by (done || lia).
Qed.

Lemma lxor_width n x y : 0 <= n -> in_width n x -> in_width n y -> in_width n (Z.lxor x y).
Proof.
  intros Hn Hx Hy.
  apply bits_width; [done|apply Z.lxor_nonneg; split; intros; [apply Hy|apply Hx]|].
  intros i Hi. by rewrite Z.lxor_spec, !(width_bits n) by (done || lia).
Qed.
#[export] Hint Resolve land_width lor_width lxor_width : width.

(** Packing two fields: the low one fits below the shift. *)
Lemma lor_shiftl_add n hi lo : 0 <= n -> in_width n lo -> Z.lor (Z.shiftl hi n) lo = hi * 2 ^ n + lo.
Proof.
  intros Hn Hlo. rewrite <-Z.shiftl_mul_pow2 by done.
  assert (Z.land (Z.shiftl hi n) lo = 0) as E.
  { apply Z.bits_inj'. intros i Hi. rewrite Z.land_spec, Z.bits_0.
    destruct (Z.lt_ge_cases i n).
    - by rewrite Z.shiftl_spec_low.
    - rewrite (width_bits n lo i) by (done || lia). apply andb_false_r. }
  by rewrite Z.add_nocarry_lxor, Z.lxor_lor by done.
Qed.

Lemma land_ones_mod x n : 0 <= n -> Z.land x (2 ^ n - 1) = x mod 2 ^ n.
Proof. intros. rewrite <-Z.land_ones by done. f_equal. by rewrite Z.ones_equiv, Z.sub_1_r. Qed.

Lemma wrap_testbit n x i : 0 <= n -> Z.testbit (wrap n x) i = (i <? n) && Z.testbit x i.
Proof.
  intros Hn. unfold wrap. destruct (Z.ltb_spec i n); simpl.
  - destruct (Z.lt_ge_cases i 0); [by rewrite !Z.testbit_neg_r|by apply Z.mod_pow2_bits_low].
  - apply Z.mod_pow2_bits_high. lia.
Qed.

Lemma shiftr_testbit x n i : 0 <= i -> Z.testbit (Z.shiftr x n) i = Z.testbit x (i + n).
Proof. apply Z.shiftr_spec. Qed.
Lemma shiftl_testbit x n i : Z.testbit (Z.shiftl x n) i = (0 <=? i) && Z.testbit x (i - n).
Proof.
  destruct (Z.leb_spec 0 i); simpl; [by apply Z.shiftl_spec|by rewrite Z.testbit_neg_r].
Qed.
Lemma shiftl_1_testbit n i : 0 <= n -> Z.testbit (Z.shiftl 1 n) i = (i =? n).
Proof.
  intros. rewrite Z.shiftl_1_l. rewrite Z.pow2_bits_eqb by done. apply Z.eqb_sym.
Qed.

(** ** Exhaustive checks

    [forall_bits n x f] tests [f] on every value whose binary writing is that
    of [x] followed by [n] more digits. *)
Fixpoint forall_bits (n : nat) (x : Z) (f : Z -> bool) : bool :=
  match n with
  | O => f x
  | S n => if forall_bits n (2 * x) f then forall_bits n (2 * x + 1) f else false
  end.

Lemma forall_bits_spec n f : forall x, forall_bits n x f = true ->
  forall y, x * 2 ^ Z.of_nat n <= y < (x + 1) * 2 ^ Z.of_nat n -> f y = true.
Proof.
  induction n as [|n IH]; intros x E y Hy; simpl in E.
  - simpl in Hy. by replace y with x by lia.
  - rewrite Nat2Z.inj_succ, Z.pow_succ_r in Hy by lia.
    destruct (forall_bits n (2 * x) f) eqn:E0; [|done].
    destruct (Z.lt_ge_cases y ((2 * x + 1) * 2 ^ Z.of_nat n)).
    + apply (IH _ E0). lia.
    + apply (IH _ E). lia.
Qed.

Lemma forall_bits_width n f x : forall_bits n 0 f = true -> in_width (Z.of_nat n) x -> f x = true.
Proof. intros E []. apply (forall_bits_spec n f 0 E). lia. Qed.

(** ** The state monad of the interpreter

    A C statement sequence over a state [S].  [Continue] is the [continue]
    that abandons the instruction in the decoder loop, [Undefined] marks the
    evaluation of an expression that has undefined behaviour in C. *)
Inductive outcome (A : Type) := Ret (a : A) | Continue | Undefined.
Arguments Ret {A} _.
Arguments Continue {A}.
Arguments Undefined {A}.

Definition M (S A : Type) : Type := S -> outcome A * S.

#[global] Instance M_ret S : MRet (M S) := fun A a s => (Ret a, s).
#[global] Instance M_bind S : MBind (M S) := fun A B f m s =>
  match m s with
  | (Ret a, s') => f a s'
  | (Continue, s') => (Continue, s')
  | (Undefined, s') => (Undefined, s')
  end.

Definition continue {S A} : M S A := fun s => (Continue, s).
Definition undefined {S A} : M S A := fun s => (Undefined, s).
Definition gets {S A} (f : S -> A) : M S A := fun s => (Ret (f s), s).
Definition modify {S} (f : S -> S) : M S unit := fun s => (Ret tt, f s).
Definition when {S} (b : bool) (m : M S unit) : M S unit := if b then m else mret tt.

(** The final state of a computation. *)
Definition final {S A} (m : M S A) (s : S) : S := (m s).2.

(** [stays R m]: every execution of [m] relates its initial and final states
    by [R]; closed under sequencing when [R] is a preorder. *)
Definition stays {S A} (R : S -> S -> Prop) (m : M S A) : Prop := forall s, R s (final m s).

Section Stays.
Context {S : Type} (R : S -> S -> Prop) `{!PreOrder R}.

Lemma stays_ret {A} (a : A) : stays R (mret a).
Proof. intros s. unfold final. simpl. reflexivity. Qed.
Lemma stays_gets {A} (f : S -> A) : stays R (gets f).
Proof. intros s. unfold final. simpl. reflexivity. Qed.
Lemma stays_continue {A} : stays R (@continue S A).
Proof. intros s. unfold final. simpl. reflexivity. Qed.
Lemma stays_undefined {A} : stays R (@undefined S A).
Proof. intros s. unfold final. simpl. reflexivity. Qed.
Lemma stays_modify f : (forall s, R s (f s)) -> stays R (modify f).
Proof. intros H s. apply H. Qed.
Lemma stays_bind {A B} (m : M S A) (f : A -> M S B) :
  stays R m -> (forall a, stays R (f a)) -> stays R (m ≫= f).
Proof.
  intros Hm Hf s. specialize (Hm s). unfold final in *. unfold mbind, M_bind.
  destruct (m s) as [[a| |] s']; simpl in *; [|done..].
  etrans; [exact Hm|apply Hf].
Qed.
Lemma stays_when b m : stays R m -> stays R (when b m).
Proof. destruct b; [done|]. intros _. apply stays_ret. Qed.
Lemma stays_if {A} (b : bool) (m1 m2 : M S A) :
  stays R m1 -> stays R m2 -> stays R (if b then m1 else m2).
Proof. by destruct b. Qed.
End Stays.
