(* ===== verification/Bus.v ===== *)
(** * The bus: what the memory layer promises to the CPU

    The CPU cores reach memory through the inline accessors of memory.h and
    share with the memory layer a handful of globals: the deferred bus error
    ([g_bus_error_*]), the counter of instructions left in the sprint
    ([*instructions], reached by the memory layer through
    [g_bus_error_instr_ptr] and [g_sprint_burndown_ptr]) and the active
    (supervisor or user) translation tables.  [Bus] is that interface,
    [BusLaws] what the CPU's theorems rely on; Memory.v provides both. *)
From S2P Require Import Prelude.

Class Bus (B : Type) := {
  (** memory_read_uint{8,16,32}, memory_write_uint{8,16,32} *)
  memory_read : size -> Z -> B -> Z * B;
  memory_write : size -> Z -> Z -> B -> B;
  (** g_bus_error_pending, _address, _rw (true = read), _fc, _is_pmmu *)
  bus_error_pending : B -> bool;
  bus_error_address : B -> Z;
  bus_error_rw : B -> bool;
  bus_error_fc : B -> Z;
  bus_error_is_pmmu : B -> bool;
  (** g_bus_error_pending = false *)
  clear_bus_error : B -> B;
  (** *instructions *)
  instructions : B -> Z;
  set_instructions : Z -> B -> B;
  (** g_active_read/write = supervisor ? g_supervisor_* : g_user_* *)
  set_active : bool -> B -> B;
  (** g_active_read && page < g_page_count && g_active_read[page] == 0 *)
  active_read_empty : Z -> B -> bool;
  (** g_last_user_crp = g_mmu->crp, when there is an MMU *)
  snapshot_user_crp : B -> B;
  (** system_reset_devices() *)
  system_reset_devices : B -> B;
}.

(** One bus operation seen from the decoder loop: it never adds
    instructions to the sprint, never withdraws a pending bus error, and a
    bus error it raises ends the sprint. *)
Record bus_step {B} `{Bus B} (b b' : B) : Prop := {
  step_instructions : instructions b' <= instructions b;
  step_pending : bus_error_pending b = true -> bus_error_pending b' = true;
  step_raise : bus_error_pending b' = true ->
               bus_error_pending b = true \/ instructions b' = 0;
}.

Class BusLaws (B : Type) `{Bus B} := {
  instructions_range : forall b, in_width 32 (instructions b);
  read_range : forall s a b, in_width (bits s) (memory_read s a b).1;
  read_step : forall s a b, bus_step b (memory_read s a b).2;
  write_step : forall s a v b, bus_step b (memory_write s a v b);
  set_active_step : forall x b, bus_step b (set_active x b);
  snapshot_step : forall b, bus_step b (snapshot_user_crp b);
  reset_step : forall b, bus_step b (system_reset_devices b);
  clear_pending : forall b, bus_error_pending (clear_bus_error b) = false;
  clear_instructions : forall b, instructions (clear_bus_error b) = instructions b;
  set_instructions_get : forall n b, in_width 32 n -> instructions (set_instructions n b) = n;
  set_instructions_pending : forall n b,
    bus_error_pending (set_instructions n b) = bus_error_pending b;
}.

Lemma bus_step_refl {B} `{Bus B} (b : B) : bus_step b b.
Proof. split; auto; lia. Qed.

#[global] Instance bus_step_preorder {B} `{BusLaws B} : PreOrder (@bus_step B _).
Proof.
  split.
  - exact bus_step_refl.
  - intros b1 b2 b3 [] []. pose proof (instructions_range b3) as [].
    split; [lia|auto|].
    intros. destruct step_raise1; [done| |by right].
    destruct step_raise0; [done|by left|right; lia].
Qed.

(** ** The part of the address space that behaves like memory

    [ram_byte b a] is the byte at address [a] when [a] is plain, writable,
    unaliased RAM.  The laws say that an access which lies in such bytes
    loads and stores them big-endian, raises no bus error and charges no
    instructions. *)
Class RamView (B : Type) := ram_byte : B -> Z -> option Z.

Definition load_be (m : Z -> option Z) (s : size) (a : Z) : option Z :=
  match s with
  | B8 => m a
  | B16 => x ← m a; y ← m (a + 1); Some (Z.lor (Z.shiftl x 8) y)
  | B32 => x ← m a; y ← m (a + 1); z ← m (a + 2); w ← m (a + 3);
           Some (Z.lor (Z.shiftl (Z.lor (Z.shiftl x 8) y) 16) (Z.lor (Z.shiftl z 8) w))
  end.

(** Byte [i] (from the most significant) of an operand of size [s]. *)
Definition be_byte (s : size) (v i : Z) : Z := u8 (Z.shiftr v (8 * (bytes s - 1 - i))).

Definition store_be (m : Z -> option Z) (s : size) (a v : Z) : Z -> option Z :=
  fun x => if (a <=? x) && (x <? a + bytes s) then Some (be_byte s v (x - a)) else m x.

Record same_ram {B} `{Bus B, RamView B} (b b' : B) : Prop := {
  same_bytes : forall x, ram_byte b' x = ram_byte b x;
  same_pending : bus_error_pending b' = bus_error_pending b;
  same_instructions : instructions b' = instructions b;
}.

Class RamLaws (B : Type) `{Bus B, RamView B} := {
  ram_byte_range : forall b x v, ram_byte b x = Some v -> in_width 8 v;
  ram_read : forall b s a v, load_be (ram_byte b) s a = Some v ->
    (memory_read s a b).1 = v /\ same_ram b (memory_read s a b).2;
  ram_write : forall b s a v, is_Some (load_be (ram_byte b) s a) ->
    (forall x, ram_byte (memory_write s a v b) x = store_be (ram_byte b) s a v x) /\
    bus_error_pending (memory_write s a v b) = bus_error_pending b /\
    instructions (memory_write s a v b) = instructions b;
  ram_active : forall x b, same_ram b (set_active x b);
}.

#[global] Instance same_ram_preorder {B} `{Bus B, RamView B} : PreOrder (@same_ram B _ _).
Proof.
  split; [by split|]. intros b1 b2 b3 [H1 ? ?] [H2 ? ?]. split; [|congruence..].
  intros x. by rewrite H2, H1.
Qed.

Lemma load_be_width m s a v :
  (forall x w, m x = Some w -> in_width 8 w) -> load_be m s a = Some v -> in_width (bits s) v.
Proof.
  intros Hm. assert (forall n x y, 0 <= n -> in_width n x -> in_width n y ->
    in_width (2 * n) (Z.lor (Z.shiftl x n) y)) as Hpack.
  { intros n x y Hn [] Hy. rewrite lor_shiftl_add by done. destruct Hy. unfold in_width.
    replace (2 * n) with (n + n) by lia. rewrite Z.pow_add_r by done. nia. }
  destruct s; simpl; [by apply Hm|..]; intros E; simplify_option_eq.
  - apply (Hpack 8); eauto; lia.
  - apply (Hpack 16); [lia|apply (Hpack 8)|apply (Hpack 8)]; eauto; lia.
Qed.

(** ** Loads after stores *)
Lemma be_byte_range sz v i : in_width 8 (be_byte sz v i).
Proof. apply u8_range. Qed.
Lemma be_byte_div sz v i : 0 <= i < bytes sz -> be_byte sz v i = (v / 2 ^ (8 * (bytes sz - 1 - i))) mod 256.
Proof. intros. unfold be_byte. rewrite Z.shiftr_div_pow2 by (destruct sz; simpl in *; lia). done. Qed.

(** The big-endian bytes of a value put it together again. *)
Lemma load_be_bytes m sz y v : in_width (bits sz) v ->
  (forall i, 0 <= i < bytes sz -> m (y + i) = Some (be_byte sz v i)) -> load_be m sz y = Some v.
Proof.
  intros Hv Hm.
  assert (m y = Some (be_byte sz v 0)) as E0.
  { rewrite <-(Hm 0) by (destruct sz; simpl; lia). f_equal. lia. }
  destruct sz; simpl in *; rewrite E0; simpl.
  - rewrite be_byte_div by (simpl; lia). f_equal. unfold in_width in *. simpl. dlia.
  - rewrite (Hm 1) by lia. simpl. rewrite lor_shiftl_add by (lia || apply be_byte_range).
    rewrite !be_byte_div by (simpl; lia). f_equal. unfold in_width in *. simpl. dlia.
  - rewrite (Hm 1), (Hm 2), (Hm 3) by lia. simpl.
    rewrite !(lor_shiftl_add 8), (lor_shiftl_add 16) by
      (lia || apply be_byte_range ||
       (pose proof (be_byte_range B32 v 2) as []; pose proof (be_byte_range B32 v 3) as [];
        unfold in_width in *; pow2; lia)).
    rewrite !be_byte_div by (simpl; lia). f_equal. unfold in_width in *. simpl. dlia.
Qed.

Lemma load_store_same m sz y v : in_width (bits sz) v -> load_be (store_be m sz y v) sz y = Some v.
Proof.
  intros Hv. apply load_be_bytes; [done|]. intros i Hi. unfold store_be.
  zprune. f_equal. f_equal. lia.
Qed.

Lemma load_be_ext (m m' : Z -> option Z) sz y :
  (forall x, y <= x < y + bytes sz -> m x = m' x) -> load_be m sz y = load_be m' sz y.
Proof.
  intros E. destruct sz; simpl in *; rewrite ?(E y), ?(E (y + 1)), ?(E (y + 2)), ?(E (y + 3)) by lia; done.
Qed.
