(* ===== verification/FlatBus.v ===== *)
(** * A flat RAM bus

    The smallest machine that meets the interface of Bus.v: 16 MB of RAM and a
    bus error everywhere else.  It shows that the laws the CPU's theorems rely
    on can hold together, and the witnesses run the interpreter on it. *)
From S2P Require Import Prelude Bus.

Record flat_t := mk_flat {
  flat_ram : Zmap Z;
  flat_pending : bool;
  flat_address : Z;
  flat_rw : bool;
  flat_instructions : Z;
}.

Definition flat_limit : Z := 0x1000000.
Definition flat_raise (a : Z) (rw : bool) (b : flat_t) : flat_t :=
  mk_flat (flat_ram b) true a rw 0.
Definition flat_get (b : flat_t) (a : Z) : Z := u8 (default 0 (flat_ram b !! a)).
Definition flat_byte (b : flat_t) (a : Z) : option Z :=
  if (0 <=? a) && (a <? flat_limit) then Some (flat_get b a) else None.
Definition flat_put (a v : Z) (b : flat_t) : flat_t :=
  mk_flat (<[a := v]> (flat_ram b)) (flat_pending b) (flat_address b) (flat_rw b)
    (flat_instructions b).
Definition flat_store (s : size) (a v : Z) (b : flat_t) : flat_t :=
  let at_ i b := flat_put (a + i) (be_byte s v i) b in
  match s with
  | B8 => at_ 0 b
  | B16 => at_ 0 (at_ 1 b)
  | B32 => at_ 0 (at_ 1 (at_ 2 (at_ 3 b)))
  end.

#[global] Instance flat_bus : Bus flat_t := {
  memory_read s a b :=
    match load_be (flat_byte b) s a with
    | Some v => (v, b)
    | None => (2 ^ bits s - 1, flat_raise a true b)
    end;
  memory_write s a v b :=
    match load_be (flat_byte b) s a with
    | Some _ => flat_store s a v b
    | None => flat_raise a false b
    end;
  bus_error_pending := flat_pending;
  bus_error_address := flat_address;
  bus_error_rw := flat_rw;
  bus_error_fc _ := 5;
  bus_error_is_pmmu _ := false;
  clear_bus_error b := mk_flat (flat_ram b) false (flat_address b) (flat_rw b) (flat_instructions b);
  instructions b := u32 (flat_instructions b);
  set_instructions n b := mk_flat (flat_ram b) (flat_pending b) (flat_address b) (flat_rw b) n;
  set_active _ b := b;
  active_read_empty _ _ := false;
  snapshot_user_crp b := b;
  system_reset_devices b := b;
}.
#[global] Instance flat_view : RamView flat_t := flat_byte.

Lemma flat_raise_step a rw b : bus_step b (flat_raise a rw b).
Proof. split; simpl; [apply u32_range|done|by right]. Qed.
Lemma flat_store_step s a v b : bus_step b (flat_store s a v b).
Proof. by destruct s; split; simpl; try lia; auto. Qed.

Lemma flat_byte_width b x v : flat_byte b x = Some v -> in_width 8 v.
Proof. unfold flat_byte. case_match; [|done]. intros [= <-]. apply u8_range. Qed.

#[global] Instance flat_laws : BusLaws flat_t.
Proof.
  split; try done; simpl.
  - intros b. apply u32_range.
  - intros s a b. destruct (load_be (flat_byte b) s a) eqn:E; simpl.
    + eapply load_be_width; [|exact E]. apply flat_byte_width.
    + destruct s; unfold in_width; simpl; lia.
  - intros s a b. destruct (load_be _ _ _); simpl; [apply bus_step_refl|apply flat_raise_step].
  - intros s a v b. destruct (load_be _ _ _); [apply flat_store_step|apply flat_raise_step].
  - intros x b. apply bus_step_refl.
  - intros b. apply bus_step_refl.
  - intros b. apply bus_step_refl.
  - intros n b Hn. by apply wrap_small.
Qed.

Lemma flat_byte_put a v b x :
  flat_byte (flat_put a v b) x =
  if (0 <=? x) && (x <? flat_limit) then if a =? x then Some (u8 v) else flat_byte b x else None.
Proof.
  unfold flat_byte, flat_get, flat_put. simpl. case_match; [|done].
  destruct (Z.eqb_spec a x) as [->|Hne].
  - by rewrite lookup_insert_eq.
  - by rewrite lookup_insert_ne.
Qed.

Lemma flat_byte_limit b x : is_Some (flat_byte b x) -> 0 <= x < flat_limit.
Proof. unfold flat_byte. zbool; simpl; intros [? ?]; done || lia. Qed.

Lemma flat_store_byte s a v b x : is_Some (load_be (flat_byte b) s a) ->
  flat_byte (flat_store s a v b) x = store_be (flat_byte b) s a v x.
Proof.
  intros [w Hw]. assert (0 <= a /\ a + bytes s <= flat_limit) as [H0 H1].
  { destruct s; simpl in *; simplify_option_eq;
      repeat match goal with E : flat_byte _ _ = Some _ |- _ =>
        pose proof (flat_byte_limit _ _ (ex_intro _ _ E)); clear E end; lia. }
  assert (forall i, u8 (be_byte s v i) = be_byte s v i) as Hu by (intros; by apply wrap_wrap).
  unfold store_be, flat_store.
  destruct s; rewrite ?flat_byte_put; rewrite ?Hu; simpl in *;
    unfold flat_byte; zprune; try done; f_equal; f_equal; lia.
Qed.

#[global] Instance flat_ram_laws : RamLaws flat_t.
Proof.
  split; simpl.
  - exact flat_byte_width.
  - intros b s a v E. unfold ram_byte, flat_view in E. rewrite E. by split.
  - intros b s a v E. unfold ram_byte, flat_view in *. destruct E as [w E]. rewrite E. split; [|by destruct s].
    intros x. by apply flat_store_byte.
  - done.
Qed.
