(* ===== verification/Memory.v ===== *)
(** * The memory map

    memory.h and memory.c: the page table, the four arrays of adjusted host
    addresses that the inline accessors index (the SoA fast path), the slow
    paths behind them, the debugger's accessors, memory logpoints, the device
    map and the RAM/ROM layout.  Pointers are 64-bit host addresses into one
    host memory, NULL is 0; pointer arithmetic wraps at 64 bits as uintptr_t
    does. *)
From S2P Require Import Prelude Bus.

Definition PAGE_SHIFT : Z := 12.
Definition MEM_PAGE_SIZE : Z := 4096.
Definition PAGE_MASK : Z := 0xFFF.

(** An interface registered by memory_map_add: the identity of the mapping's
    copy of it and the callbacks it was copied from. *)
Record dev_ref := mk_dev { dev_id : Z; dev_iface : Z }.

Record page_entry := mk_pe {
  host_base : Z;
  dev : option dev_ref;
  dev_context : Z;
  base_addr : Z;
  writable : bool;
}.
Definition empty_page : page_entry := mk_pe 0 None 0 0 false.

Record mapping := mk_mapping {
  map_id : Z; map_device : Z; map_addr : Z; map_size : Z; map_iface : Z;
}.

(** A call of the logpoint hook or of the value-trap hook. *)
Record hook_call := mk_hook { hook_addr : Z; hook_size : Z; hook_value : Z; hook_write : bool }.

(** The SoA arrays: g_supervisor_read, g_supervisor_write, g_user_read, g_user_write. *)
Record soa_t := mk_soa {
  supervisor_read : Zmap Z; supervisor_write : Zmap Z; user_read : Zmap Z; user_write : Zmap Z;
}.

(** g_bus_error_* *)
Record berr_t := mk_berr {
  be_pending : bool; be_address : Z; be_rw : bool; be_fc : Z; be_is_pmmu : bool;
}.

(** The sprint counters shared with the scheduler: [burndown] is the cell that
    the decoder's instructions, g_bus_error_instr_ptr and g_sprint_burndown_ptr
    all point to during a sprint. *)
Record sprint_t := mk_sprint {
  burndown : Z;
  io_penalty_remainder : Z;
  io_phantom_instructions : Z;
  io_cpi_x256 : Z;
  sprint_base_cycles : Z;
  sprint_frac_x256 : Z;
  sprint_total_slots : Z;
  esync_period_x256 : Z;
}.

(** Logpoints (per-page reference counts and the calls of the hook) and the
    value trap. *)
Record hooks_t := mk_hooks {
  logpoint_count : Zmap Z;
  logpoint_phys_count : Zmap Z;
  logpoint_log : list hook_call;
  trap_active : Z; trap_pa : Z; trap_value : Z; trap_size : Z;
  trap_log : list hook_call;
}.

(** struct memory *)
Record layout_t := mk_layout {
  mappings : list mapping; next_id : Z;
  image : Z; ram_size : Z; rom_size : Z; checksum : Z;
}.

(** All of it, with the host memory and the state of the device models ([D])
    and of the MMU ([T]). *)
Record mem_t (D T : Type) := mk_mem {
  host : Zmap Z;
  page_table : Zmap page_entry;
  address_mask : Z;
  page_count : Z;
  soa : soa_t;
  active_read : bool;   (* g_active_read == g_supervisor_read *)
  active_write : bool;  (* g_active_write == g_supervisor_write *)
  berr : berr_t;
  sprint : sprint_t;
  hooks : hooks_t;
  slowpath_count : Z;
  layout : layout_t;
  devices : D;
  mmu : T;
}.
Arguments mk_mem {D T} _ _ _ _ _ _ _ _ _ _ _ _ _ _.
Arguments host {D T} _.
Arguments page_table {D T} _.
Arguments address_mask {D T} _.
Arguments page_count {D T} _.
Arguments soa {D T} _.
Arguments active_read {D T} _.
Arguments active_write {D T} _.
Arguments berr {D T} _.
Arguments sprint {D T} _.
Arguments hooks {D T} _.
Arguments slowpath_count {D T} _.
Arguments layout {D T} _.
Arguments devices {D T} _.
Arguments mmu {D T} _.

Section Setters.
Context {D T : Type}.
Definition mem_eta (m : mem_t D T) : mem_t D T :=
  mk_mem (host m) (page_table m) (address_mask m) (page_count m) (soa m) (active_read m)
    (active_write m) (berr m) (sprint m) (hooks m) (slowpath_count m) (layout m) (devices m) (mmu m).
Definition set_host v (m : mem_t D T) : mem_t D T := ltac:(field_set mem_eta (@host D T) v m).
Definition set_page_table v (m : mem_t D T) : mem_t D T := ltac:(field_set mem_eta (@page_table D T) v m).
Definition set_soa v (m : mem_t D T) : mem_t D T := ltac:(field_set mem_eta (@soa D T) v m).
Definition set_active_read v (m : mem_t D T) : mem_t D T := ltac:(field_set mem_eta (@active_read D T) v m).
Definition set_active_write v (m : mem_t D T) : mem_t D T := ltac:(field_set mem_eta (@active_write D T) v m).
Definition set_berr v (m : mem_t D T) : mem_t D T := ltac:(field_set mem_eta (@berr D T) v m).
Definition set_sprint v (m : mem_t D T) : mem_t D T := ltac:(field_set mem_eta (@sprint D T) v m).
Definition set_hooks v (m : mem_t D T) : mem_t D T := ltac:(field_set mem_eta (@hooks D T) v m).
Definition set_slowpath_count v (m : mem_t D T) : mem_t D T :=
  ltac:(field_set mem_eta (@slowpath_count D T) v m).
Definition set_layout v (m : mem_t D T) : mem_t D T := ltac:(field_set mem_eta (@layout D T) v m).
Definition set_devices v (m : mem_t D T) : mem_t D T := ltac:(field_set mem_eta (@devices D T) v m).
Definition set_mmu v (m : mem_t D T) : mem_t D T := ltac:(field_set mem_eta (@mmu D T) v m).
End Setters.

(** ** Interfaces to the device models and to the MMU *)

(** What a callback charges: memory_io_penalty(c) or memory_io_esync_penalty(). *)
Inductive io_charge := io_cycles (c : Z) | io_esync.

(** A device callback: the interface, the device context, the offset in the
    mapping; it returns the value read, the penalties it charged, in order, and
    the new state. *)
Class Devices (D : Type) := {
  dev_read : size -> Z -> Z -> Z -> D -> Z * list io_charge * D;
  dev_write : size -> Z -> Z -> Z -> Z -> D -> list io_charge * D;
  (** system_reset_devices() *)
  dev_reset : D -> D;
}.

(** mmu.c and lisa_mmu.c as memory.c calls them.  The last argument of the
    booleans is the supervisor flag, the one before it (if any) the write flag. *)
Class Mmu (D T : Type) := {
  lisa_present : T -> bool;                                     (* g_lisa_mmu != NULL *)
  lisa_read : size -> Z -> bool -> mem_t D T -> Z * mem_t D T;
  lisa_write : size -> Z -> bool -> Z -> mem_t D T -> mem_t D T;
  lisa_debug_read : size -> Z -> bool -> mem_t D T -> Z * mem_t D T;
  lisa_debug_write : size -> Z -> bool -> Z -> mem_t D T -> bool * mem_t D T;
  mmu_enabled : T -> bool;                                      (* g_mmu && g_mmu->enabled *)
  mmu_translate_debug : Z -> bool -> mem_t D T -> Z;
  mmu_translate_checked : Z -> bool -> mem_t D T -> option Z;
  mmu_phys_to_host : Z -> mem_t D T -> Z;
  mmu_phys_is_writable : Z -> mem_t D T -> bool;
  mmu_check_tt : Z -> bool -> bool -> mem_t D T -> bool;
  mmu_handle_fault : Z -> bool -> bool -> mem_t D T -> bool * mem_t D T;
  mmu_snapshot_crp : T -> T;
  tlb_track_page : Z -> T -> T;
}.

(** A machine without any MMU: g_mmu == NULL and g_lisa_mmu == NULL. *)
#[global] Instance no_mmu {D} : Mmu D unit := {
  lisa_present _ := false;
  lisa_read _ _ _ m := (0, m);
  lisa_write _ _ _ _ m := m;
  lisa_debug_read _ _ _ m := (0, m);
  lisa_debug_write _ _ _ _ m := (false, m);
  mmu_enabled _ := false;
  mmu_translate_debug a _ _ := a;
  mmu_translate_checked a _ _ := Some a;
  mmu_phys_to_host _ _ := 0;
  mmu_phys_is_writable _ _ := false;
  mmu_check_tt _ _ _ _ := false;
  mmu_handle_fault _ _ _ m := (false, m);
  mmu_snapshot_crp t := t;
  tlb_track_page _ t := t;
}.

(** ** I/O wait states *)

(** memory_esync_penalty_cycles; [None] for the division by zero. *)
Definition memory_esync_penalty_cycles (now_cycles period_x256 : Z) : option Z :=
  if period_x256 =? 0 then None else
  let phase_x256 := u32 (u64 (Z.shiftl now_cycles 8) mod period_x256) in
  let pen_x256 := u32 (period_x256 - phase_x256) in
  Some (Z.shiftr (u32 (pen_x256 + 255)) 8).

Definition memory_io_penalty (extra_cycles : Z) (s : sprint_t) : sprint_t :=
  if io_cpi_x256 s =? 0 then s else
  let remainder := u32 (io_penalty_remainder s + u32 (Z.shiftl extra_cycles 8)) in
  let burn := remainder / io_cpi_x256 s in
  if 0 <? burn then
    mk_sprint (if burn <? u32 (burndown s) then u32 (burndown s) - burn else 0)
      (u32 (remainder - u32 (burn * io_cpi_x256 s))) (u32 (io_phantom_instructions s + burn))
      (io_cpi_x256 s) (sprint_base_cycles s) (sprint_frac_x256 s) (sprint_total_slots s) (esync_period_x256 s)
  else
    mk_sprint (burndown s) remainder (io_phantom_instructions s)
      (io_cpi_x256 s) (sprint_base_cycles s) (sprint_frac_x256 s) (sprint_total_slots s) (esync_period_x256 s).

(** memory_io_esync_penalty during a sprint (g_sprint_burndown_ptr set) *)
Definition memory_io_esync_penalty (s : sprint_t) : sprint_t :=
  if (io_cpi_x256 s =? 0) || (esync_period_x256 s =? 0) then s else
  let consumed := u32 (sprint_total_slots s - burndown s) in
  let now := u64 (sprint_base_cycles s +
                  Z.shiftr (u64 (consumed * io_cpi_x256 s + sprint_frac_x256 s)) 8) in
  match memory_esync_penalty_cycles now (esync_period_x256 s) with
  | Some c => memory_io_penalty c s
  | None => s
  end.

Definition apply_charge (c : io_charge) : sprint_t -> sprint_t :=
  match c with io_cycles c => memory_io_penalty c | io_esync => memory_io_esync_penalty end.

(** ** Host memory *)
Section Memory.
Context {D T : Type} `{Devices D} `{Mmu D T}.
#[local] Abbreviation mem := (mem_t D T).

Definition host_byte (m : mem) (p : Z) : Z := u8 (default 0 (host m !! u64 p)).

(** LOAD_BE8/16/32(p), STORE_BE8/16/32(p, v) *)
Definition LOAD_BE (s : size) (p : Z) (m : mem) : Z :=
  let b i := host_byte m (p + i) in
  match s with
  | B8 => b 0
  | B16 => Z.lor (Z.shiftl (b 0) 8) (b 1)
  | B32 => Z.lor (Z.shiftl (Z.lor (Z.shiftl (b 0) 8) (b 1)) 16) (Z.lor (Z.shiftl (b 2) 8) (b 3))
  end.
Definition host_put (p v : Z) (m : mem) : mem := set_host (<[u64 p := u8 v]> (host m)) m.
Definition STORE_BE (s : size) (p v : Z) (m : mem) : mem :=
  let at_ i m := host_put (p + i) (be_byte s v i) m in
  match s with
  | B8 => at_ 0 m
  | B16 => at_ 1 (at_ 0 m)
  | B32 => at_ 3 (at_ 2 (at_ 1 (at_ 0 m)))
  end.

(** ** Page lookups *)
Definition page_of (addr : Z) : Z := Z.shiftr addr PAGE_SHIFT.
Definition offset_of (addr : Z) : Z := Z.land addr PAGE_MASK.
Definition page_base (addr : Z) : Z := Z.land addr (u32 (Z.lnot PAGE_MASK)).
Definition pe_at (m : mem) (page : Z) : page_entry := default empty_page (page_table m !! page).
Definition logpoints_at (m : mem) (page : Z) : Z := default 0 (logpoint_count (hooks m) !! page).
Definition phys_logpoints_at (m : mem) (page : Z) : Z :=
  default 0 (logpoint_phys_count (hooks m) !! page).
Definition in_page (s : size) (addr : Z) : bool := offset_of addr <=? MEM_PAGE_SIZE - bytes s.
Definition mmu_on (m : mem) : bool := mmu_enabled (mmu m).

Definition soa_at (t : Zmap Z) (page : Z) : Z := default 0 (t !! page).
Definition active_read_at (m : mem) (page : Z) : Z :=
  soa_at (if active_read m then supervisor_read (soa m) else user_read (soa m)) page.
Definition active_write_at (m : mem) (page : Z) : Z :=
  soa_at (if active_write m then supervisor_write (soa m) else user_write (soa m)) page.

(** The adjusted host address of a page of the guest. *)
Definition adjusted (host_ptr page : Z) : Z := u64 (host_ptr - u32 (Z.shiftl page PAGE_SHIFT)).

(** ** Slow-path helpers *)
Definition can_lazy_install (page : Z) (pe : page_entry) (m : mem) : bool :=
  if mmu_on m then false
  else if (host_base pe =? 0) || (if dev pe is Some _ then true else false) then false
  else if truthy (logpoints_at m page) then false
  else true.

(** [Some (host, writable)] when a logpoint covers the access. *)
Definition logpoint_lookup (addr : Z) (m : mem) : option (Z * bool) :=
  let page := page_of addr in
  let logical_watched := truthy (logpoints_at m page) in
  let phys_addr := if mmu_on m then mmu_translate_debug addr (active_write m) m else addr in
  let phys_watched := mmu_on m && truthy (phys_logpoints_at m (page_of phys_addr)) in
  if negb logical_watched && negb phys_watched then None
  else if mmu_on m then
    let base := mmu_phys_to_host (page_base phys_addr) m in
    if base =? 0 then Some (0, false)
    else Some (u64 (base + offset_of phys_addr), mmu_phys_is_writable phys_addr m)
  else
    let pe := pe_at m page in
    Some (if host_base pe =? 0 then 0 else u64 (host_base pe + offset_of addr), writable pe).

Definition dispatch_device_at_logical (addr : Z) (supervisor : bool) (m : mem) : bool :=
  if negb (mmu_on m) then true
  else match mmu_translate_checked addr supervisor m with
  | None => false
  | Some phys =>
      if page_base phys =? page_base addr then true
      else mmu_phys_to_host (page_base phys) m =? 0
  end.

Definition put_soa (page v : Z) (with_write : bool) (t : soa_t) : soa_t :=
  mk_soa (<[page := v]> (supervisor_read t))
    (if with_write then <[page := v]> (supervisor_write t) else supervisor_write t)
    (<[page := v]> (user_read t))
    (if with_write then <[page := v]> (user_write t) else user_write t).

Definition rebuild_soa_page (p : Z) (m : mem) : mem :=
  if page_count m <=? p then m else
  let pe := pe_at m p in
  if mmu_on m then m
  else if (host_base pe =? 0) || (if dev pe is Some _ then true else false) then m
  else if truthy (logpoints_at m p) then m
  else
    let m := set_mmu (tlb_track_page p (mmu m)) m in
    set_soa (put_soa p (adjusted (host_base pe) p) (writable pe) (soa m)) m.

Definition count_slowpath (m : mem) : mem := set_slowpath_count (u64 (slowpath_count m + 1)) m.

(** g_mem_logpoint_hook(addr, size, value, is_write) *)
Definition logpoint_hook (addr : Z) (s : size) (v : Z) (w : bool) (m : mem) : mem :=
  let h := hooks m in
  set_hooks (mk_hooks (logpoint_count h) (logpoint_phys_count h)
    (mk_hook addr (bytes s) v w :: logpoint_log h) (trap_active h) (trap_pa h) (trap_value h)
    (trap_size h) (trap_log h)) m.

(** The deferred bus error; the first one stands. *)
Definition raise_bus_error (addr : Z) (rw supervisor : bool) (m : mem) : mem :=
  if be_pending (berr m) then m
  else
    let s := sprint m in
    set_sprint (mk_sprint 0 (io_penalty_remainder s) (io_phantom_instructions s) (io_cpi_x256 s)
      (sprint_base_cycles s) (sprint_frac_x256 s) (sprint_total_slots s) (esync_period_x256 s))
    (set_berr (mk_berr true addr rw (if supervisor then 5 else 1) (be_is_pmmu (berr m))) m).

(** Device callbacks with the wait states they charge. *)
Definition charge (l : list io_charge) (m : mem) : mem :=
  set_sprint (fold_left (fun s c => apply_charge c s) l (sprint m)) m.
Definition call_dev_read (s : size) (r : dev_ref) (pe : page_entry) (addr : Z) (m : mem) : Z * mem :=
  let '(v, pen, d) := dev_read s (dev_iface r) (dev_context pe) (u32 (addr - base_addr pe)) (devices m) in
  (trunc s v, charge pen (set_devices d m)).
Definition call_dev_write (s : size) (r : dev_ref) (pe : page_entry) (addr v : Z) (m : mem) : mem :=
  let '(pen, d) := dev_write s (dev_iface r) (dev_context pe) (u32 (addr - base_addr pe)) v (devices m) in
  charge pen (set_devices d m).

(** All-ones of the operand size. *)
Definition ones (s : size) : Z := 2 ^ bits s - 1.

(** A read through a logpoint: the host value, reported to the hook. *)
Definition logged_read (s : size) (addr p : Z) (m : mem) : Z * mem :=
  let v := LOAD_BE s p m in (v, logpoint_hook addr s v false m).
Definition logged_write (s : size) (addr p v : Z) (m : mem) : mem :=
  logpoint_hook addr s v true (STORE_BE s p v m).

(** The MMU branch of the read slow paths: the table walk, then the entry it
    filled, the device at the physical page, the logpoint; a failed walk is a
    bus error. *)
Definition read_walk (s : size) (addr : Z) (supervisor : bool) (m : mem) : Z * mem :=
  let '(ok, m) := mmu_handle_fault addr false supervisor m in
  if ok : bool then
    let base := active_read_at m (page_of addr) in
    if negb (base =? 0) then (LOAD_BE s (base + addr) m, m)
    else
      let phys := mmu_translate_debug addr supervisor m in
      let phys_pe := pe_at m (page_of phys) in
      match (if page_of phys <? page_count m then dev phys_pe else None) with
      | Some r => call_dev_read s r phys_pe phys m
      | None =>
          match logpoint_lookup addr m with
          | Some (p, _) => if p =? 0 then (ones s, m) else logged_read s addr p m
          | None => (ones s, m)
          end
      end
  else (ones s, raise_bus_error addr true supervisor m).

Definition write_walk (s : size) (addr v : Z) (supervisor : bool) (m : mem) : mem :=
  let '(ok, m) := mmu_handle_fault addr true supervisor m in
  if ok : bool then
    let base := active_write_at m (page_of addr) in
    if negb (base =? 0) then STORE_BE s (base + addr) v m
    else
      let phys := mmu_translate_debug addr supervisor m in
      let phys_pe := pe_at m (page_of phys) in
      match (if page_of phys <? page_count m then dev phys_pe else None) with
      | Some r => call_dev_write s r phys_pe phys v m
      | None =>
          match logpoint_lookup addr m with
          | Some (p, true) => if p =? 0 then m else logged_write s addr p v m
          | _ => m
          end
      end
  else raise_bus_error addr false supervisor m.

(** The slow paths.  They differ only in the size and in what is left when
    nothing in the page can serve the access: [split]. *)
Definition read_slow (s : size) (split : mem -> Z * mem) (addr : Z) (m : mem) : Z * mem :=
  let m := count_slowpath m in
  if lisa_present (mmu m) then lisa_read s addr (active_read m) m else
  let page := page_of addr in
  let pe := pe_at m page in
  match (if in_page s addr then logpoint_lookup addr m else None) with
  | Some (Zpos p, _) => logged_read s addr (Zpos p) m
  | _ =>
      if in_page s addr && can_lazy_install page pe m then
        let m := rebuild_soa_page page m in (LOAD_BE s (host_base pe + offset_of addr) m, m)
      else
        let direct := match dev pe with
                      | Some r => if in_page s addr && dispatch_device_at_logical addr (active_read m) m
                                  then Some r else None
                      | None => None end in
        match direct with
        | Some r => call_dev_read s r pe addr m
        | None =>
            if mmu_on m && in_page s addr then
              match dev pe with
              | Some r => if mmu_check_tt addr false (active_read m) m then call_dev_read s r pe addr m
                          else read_walk s addr (active_read m) m
              | None => read_walk s addr (active_read m) m
              end
            else
              match dev pe with
              | Some r => if in_page s addr then call_dev_read s r pe addr m else split m
              | None => split m
              end
        end
  end.

Definition write_slow (s : size) (split : mem -> mem) (addr v : Z) (m : mem) : mem :=
  let m := count_slowpath m in
  if lisa_present (mmu m) then lisa_write s addr (active_write m) v m else
  let page := page_of addr in
  let pe := pe_at m page in
  match (if in_page s addr then logpoint_lookup addr m else None) with
  | Some (Zpos p, true) => logged_write s addr (Zpos p) v m
  | _ =>
      if in_page s addr && can_lazy_install page pe m then
        let m := rebuild_soa_page page m in
        if writable pe then STORE_BE s (host_base pe + offset_of addr) v m else m
      else
        let direct := match dev pe with
                      | Some r => if in_page s addr && dispatch_device_at_logical addr (active_write m) m
                                  then Some r else None
                      | None => None end in
        match direct with
        | Some r => call_dev_write s r pe addr v m
        | None =>
            if mmu_on m && in_page s addr then
              match dev pe with
              | Some r => if mmu_check_tt addr true (active_write m) m then call_dev_write s r pe addr v m
                          else write_walk s addr v (active_write m) m
              | None => write_walk s addr v (active_write m) m
              end
            else
              match dev pe with
              | Some r => if in_page s addr then call_dev_write s r pe addr v m else split m
              | None => split m
              end
        end
  end.

(** ** The inline accessors *)
Definition value_trap_check (logical_addr v : Z) (s : size) (m : mem) : mem :=
  let phys_addr := if mmu_on m then mmu_translate_debug logical_addr (active_write m) m else logical_addr in
  let h := hooks m in
  if negb (phys_addr =? trap_pa h) then m
  else set_hooks (mk_hooks (logpoint_count h) (logpoint_phys_count h) (logpoint_log h) (trap_active h)
         (trap_pa h) (trap_value h) (trap_size h) (mk_hook logical_addr (bytes s) v true :: trap_log h)) m.

Definition fast_read (s : size) (split : Z -> mem -> Z * mem) (addr : Z) (m : mem) : Z * mem :=
  let masked := Z.land addr (address_mask m) in
  let base := active_read_at m (page_of masked) in
  if negb (base =? 0) && in_page s masked then (LOAD_BE s (base + masked) m, m)
  else read_slow s (split masked) masked m.

Definition fast_write (s : size) (split : Z -> mem -> mem) (addr v : Z) (m : mem) : mem :=
  let masked := Z.land addr (address_mask m) in
  let base := active_write_at m (page_of masked) in
  let h := hooks m in
  let m := if truthy (trap_active h) && (trap_size h =? bytes s) && (trunc s v =? trunc s (trap_value h))
           then value_trap_check masked v s m else m in
  if negb (base =? 0) && in_page s masked then STORE_BE s (base + masked) v m
  else write_slow s (split masked) masked v m.

Definition memory_read_uint8 : Z -> mem -> Z * mem := fast_read B8 (fun _ m => (0xFF, m)).
Definition memory_read_uint16 : Z -> mem -> Z * mem :=
  fast_read B16 (fun addr m =>
    let '(hi, m) := memory_read_uint8 addr m in
    let '(lo, m) := memory_read_uint8 (Z.land (u32 (addr + 1)) (address_mask m)) m in
    (u16 (Z.lor (Z.shiftl hi 8) lo), m)).
Definition memory_read_uint32 : Z -> mem -> Z * mem :=
  fast_read B32 (fun addr m =>
    let '(hi, m) := memory_read_uint16 addr m in
    let '(lo, m) := memory_read_uint16 (u32 (addr + 2)) m in
    (u32 (Z.lor (Z.shiftl hi 16) lo), m)).

Definition memory_write_uint8 : Z -> Z -> mem -> mem := fast_write B8 (fun _ m => m).
Definition memory_write_uint16 (addr v : Z) : mem -> mem :=
  fast_write B16 (fun addr m =>
    let m := memory_write_uint8 addr (u8 (Z.shiftr v 8)) m in
    memory_write_uint8 (Z.land (u32 (addr + 1)) (address_mask m)) (u8 (Z.land v 0xFF)) m) addr v.
Definition memory_write_uint32 (addr v : Z) : mem -> mem :=
  fast_write B32 (fun addr m =>
    let m := memory_write_uint16 addr (u16 (Z.shiftr v 16)) m in
    memory_write_uint16 (u32 (addr + 2)) (u16 (Z.land v 0xFFFF)) m) addr v.

(** memory_read(size, addr), memory_write(size, addr, value) *)
Definition mem_load (s : size) : Z -> mem -> Z * mem :=
  match s with B8 => memory_read_uint8 | B16 => memory_read_uint16 | B32 => memory_read_uint32 end.
Definition mem_store (s : size) : Z -> Z -> mem -> mem :=
  match s with B8 => memory_write_uint8 | B16 => memory_write_uint16 | B32 => memory_write_uint32 end.

(** ** The debugger's accessors *)

(** Logical to physical without side effects; [None]: the walk failed. *)
Definition debug_translate (addr : Z) (supervisor : bool) (m : mem) : option Z :=
  if mmu_on m then mmu_translate_checked addr supervisor m else Some addr.

(** A debug read of an access that stays in its page. *)
Definition debug_read_in_page (s : size) (addr : Z) (m : mem) : Z * mem :=
  match debug_translate addr (active_read m) m with
  | None => (ones s, m)
  | Some phys =>
      if page_count m <=? page_of phys then (ones s, m)
      else
        let pe := pe_at m (page_of phys) in
        if negb (host_base pe =? 0) then (LOAD_BE s (host_base pe + offset_of phys) m, m)
        else match dev pe with
             | Some r => call_dev_read s r pe phys m
             | None => (ones s, m)
             end
  end.

Definition memory_debug_read_uint8 (addr : Z) (m : mem) : Z * mem :=
  let addr := Z.land addr (address_mask m) in
  if lisa_present (mmu m) then let '(v, m) := lisa_debug_read B8 addr (active_read m) m in (u8 v, m)
  else debug_read_in_page B8 addr m.
Definition memory_debug_read_uint16 (addr : Z) (m : mem) : Z * mem :=
  let addr := Z.land addr (address_mask m) in
  if lisa_present (mmu m) then let '(v, m) := lisa_debug_read B16 addr (active_read m) m in (u16 v, m)
  else if in_page B16 addr then debug_read_in_page B16 addr m
  else
    let '(hi, m) := memory_debug_read_uint8 addr m in
    let '(lo, m) := memory_debug_read_uint8 (u32 (addr + 1)) m in
    (u16 (Z.lor (Z.shiftl hi 8) lo), m).
Definition memory_debug_read_uint32 (addr : Z) (m : mem) : Z * mem :=
  let addr := Z.land addr (address_mask m) in
  if lisa_present (mmu m) then lisa_debug_read B32 addr (active_read m) m
  else if in_page B32 addr then debug_read_in_page B32 addr m
  else
    let '(hi, m) := memory_debug_read_uint16 addr m in
    let '(lo, m) := memory_debug_read_uint16 (u32 (addr + 2)) m in
    (Z.lor (Z.shiftl hi 16) lo, m).

(** The bytes of [n] consecutive debug reads. *)
Fixpoint debug_read_bytes (n : nat) (addr : Z) (m : mem) : list Z * mem :=
  match n with
  | O => ([], m)
  | S n =>
      let '(v, m) := memory_debug_read_uint8 addr m in
      let '(l, m) := debug_read_bytes n (u32 (addr + 1)) m in (v :: l, m)
  end.
(** memcpy(dst, p, n) *)
Definition host_span (p : Z) (n : nat) (m : mem) : list Z :=
  (fun i => host_byte m (p + Z.of_nat i)) <$> seq 0 n.

(** One iteration of the loop of memory_debug_read_block: a chunk that stays
    within a page. *)
Definition debug_read_chunk (addr : Z) (chunk : nat) (m : mem) : list Z * mem :=
  let a := Z.land addr (address_mask m) in
  let whole :=
    if lisa_present (mmu m) then None
    else match debug_translate a (active_read m) m with
    | None => None
    | Some phys =>
        if page_of phys <? page_count m then
          let pe := pe_at m (page_of phys) in
          if negb (host_base pe =? 0) && (if dev pe is Some _ then false else true)
          then Some (host_base pe + offset_of phys) else None
        else None
    end in
  match whole with
  | Some p => (host_span p chunk m, m)
  | None => debug_read_bytes chunk a m
  end.
Fixpoint read_block_loop (fuel : nat) (addr len : Z) (m : mem) : option (list Z * mem) :=
  if len =? 0 then Some ([], m)
  else match fuel with
  | O => None
  | S fuel =>
      let off := offset_of (Z.land addr (address_mask m)) in
      let chunk := if len <? MEM_PAGE_SIZE - off then len else MEM_PAGE_SIZE - off in
      let '(l, m) := debug_read_chunk addr (Z.to_nat chunk) m in
      match read_block_loop fuel (u32 (addr + chunk)) (len - chunk) m with
      | Some (l', m) => Some (l ++ l', m)
      | None => None
      end
  end.
(** Each iteration consumes at least one byte. *)
Definition memory_debug_read_block (addr len : Z) (m : mem) : option (list Z * mem) :=
  read_block_loop (Z.to_nat len) addr len m.

Definition debug_write_in_page (s : size) (addr v : Z) (m : mem) : bool * mem :=
  match debug_translate addr (active_write m) m with
  | None => (false, m)
  | Some phys =>
      if page_count m <=? page_of phys then (false, m)
      else
        let pe := pe_at m (page_of phys) in
        if negb (host_base pe =? 0) then
          if writable pe then (true, STORE_BE s (host_base pe + offset_of phys) v m) else (false, m)
        else match dev pe with
             | Some r => (true, call_dev_write s r pe phys v m)
             | None => (false, m)
             end
  end.
Definition memory_debug_write_uint8 (addr v : Z) (m : mem) : bool * mem :=
  let addr := Z.land addr (address_mask m) in
  if lisa_present (mmu m) then lisa_debug_write B8 addr (active_write m) v m
  else debug_write_in_page B8 addr v m.
Definition memory_debug_write_uint16 (addr v : Z) (m : mem) : bool * mem :=
  let addr := Z.land addr (address_mask m) in
  if lisa_present (mmu m) then lisa_debug_write B16 addr (active_write m) v m
  else if in_page B16 addr then debug_write_in_page B16 addr v m
  else
    let '(a, m) := memory_debug_write_uint8 addr (u8 (Z.shiftr v 8)) m in
    let '(b, m) := memory_debug_write_uint8 (u32 (addr + 1)) (u8 v) m in (a && b, m).
Definition memory_debug_write_uint32 (addr v : Z) (m : mem) : bool * mem :=
  let addr := Z.land addr (address_mask m) in
  if lisa_present (mmu m) then lisa_debug_write B32 addr (active_write m) v m
  else if in_page B32 addr then debug_write_in_page B32 addr v m
  else
    let '(a, m) := memory_debug_write_uint16 addr (u16 (Z.shiftr v 16)) m in
    let '(b, m) := memory_debug_write_uint16 (u32 (addr + 2)) (u16 v) m in (a && b, m).

(** ** Page loops *)

(** for (p = first; p < last && p < g_page_count; p++) body(p) *)
Definition for_pages (first last : Z) (body : Z -> mem -> mem) (m : mem) : mem :=
  fold_left (fun m p => body p m)
    (seqZ first (Z.min last (page_count m) - first)) m.

Definition set_logpoint_count (v : Zmap Z) (m : mem) : mem :=
  let h := hooks m in
  set_hooks (mk_hooks v (logpoint_phys_count h) (logpoint_log h) (trap_active h) (trap_pa h)
    (trap_value h) (trap_size h) (trap_log h)) m.
Definition set_logpoint_phys_count (v : Zmap Z) (m : mem) : mem :=
  let h := hooks m in
  set_hooks (mk_hooks (logpoint_count h) v (logpoint_log h) (trap_active h) (trap_pa h)
    (trap_value h) (trap_size h) (trap_log h)) m.

Definition logpoint_install_page (p : Z) (m : mem) : mem :=
  let n := logpoints_at m p in
  let m := if n <? 0xFF then set_logpoint_count (<[p := n + 1]> (logpoint_count (hooks m))) m else m in
  set_soa (put_soa p 0 true (soa m)) m.
Definition memory_logpoint_install (start_page end_page : Z) : mem -> mem :=
  for_pages start_page (end_page + 1) logpoint_install_page.

Definition logpoint_uninstall_page (p : Z) (m : mem) : mem :=
  let n := logpoints_at m p in
  let m := if truthy n then set_logpoint_count (<[p := n - 1]> (logpoint_count (hooks m))) m else m in
  if logpoints_at m p =? 0 then rebuild_soa_page p m else m.
Definition memory_logpoint_uninstall (start_page end_page : Z) : mem -> mem :=
  for_pages start_page (end_page + 1) logpoint_uninstall_page.

Definition memory_logpoint_install_phys (start_page end_page : Z) (m : mem) : mem :=
  let m := for_pages start_page (end_page + 1) (fun p m =>
             let n := phys_logpoints_at m p in
             if n <? 0xFF then set_logpoint_phys_count (<[p := n + 1]> (logpoint_phys_count (hooks m))) m
             else m) m in
  set_soa (mk_soa ∅ ∅ ∅ ∅) m.
Definition memory_logpoint_uninstall_phys (start_page end_page : Z) : mem -> mem :=
  for_pages start_page (end_page + 1) (fun p m =>
    let n := phys_logpoints_at m p in
    if truthy n then set_logpoint_phys_count (<[p := n - 1]> (logpoint_phys_count (hooks m))) m else m).

(** ** Devices *)
Definition put_page (p : Z) (pe : page_entry) (m : mem) : mem :=
  set_page_table (<[p := pe]> (page_table m)) m.

Definition first_page (addr : Z) (m : mem) : Z := page_of (Z.land addr (address_mask m)).
Definition last_page (addr sz : Z) (m : mem) : Z :=
  page_of (Z.land (u32 (addr + sz - 1)) (address_mask m)).

Definition memory_map_add (addr sz iface device : Z) (m : mem) : mem :=
  let l := layout m in
  let id := next_id l in
  let m := set_layout (mk_layout (mk_mapping id device addr sz iface :: mappings l) (id + 1) (image l)
             (ram_size l) (rom_size l) (checksum l)) m in
  for_pages (first_page addr m) (last_page addr sz m + 1) (fun p m =>
    let m := put_page p (mk_pe 0 (Some (mk_dev id iface)) device addr false) m in
    set_soa (put_soa p 0 true (soa m)) m) m.

Definition clear_page_table_for_mapping (addr sz id : Z) (m : mem) : mem :=
  if sz =? 0 then m else
  for_pages (first_page addr m) (last_page addr sz m + 1) (fun p m =>
    match dev (pe_at m p) with
    | Some r => if dev_id r =? id then put_page p empty_page m else m
    | None => m
    end) m.

(** Unlinks the first mapping with this device and address. *)
Fixpoint unlink (device addr : Z) (l : list mapping) : option (mapping * list mapping) :=
  match l with
  | [] => None
  | x :: l =>
      if (map_device x =? device) && (map_addr x =? addr) then Some (x, l)
      else match unlink device addr l with Some (y, l') => Some (y, x :: l') | None => None end
  end.
Definition memory_map_remove (addr device : Z) (m : mem) : mem :=
  let l := layout m in
  match unlink device addr (mappings l) with
  | None => m
  | Some (x, rest) =>
      let m := clear_page_table_for_mapping (map_addr x) (map_size x) (map_id x) m in
      set_layout (mk_layout rest (next_id l) (image l) (ram_size l) (rom_size l) (checksum l)) m
  end.

(** ** RAM and ROM *)
Definition put_host_page (p host_ptr : Z) (w : bool) (m : mem) : mem :=
  let m := put_page p (mk_pe host_ptr None 0 (base_addr (pe_at m p)) w) m in
  set_soa (put_soa p (adjusted host_ptr p) w (soa m)) m.

Definition memory_populate_pages (rom_start_addr rom_region_end : Z) (m : mem) : mem :=
  let l := layout m in
  let m := for_pages 0 (Z.shiftr (ram_size l) PAGE_SHIFT)
             (fun p => put_host_page p (image l + Z.shiftl p PAGE_SHIFT) true) m in
  let rom_start_page := first_page rom_start_addr m in
  let rom_end_page := first_page rom_region_end m in
  let rom_pages := Z.shiftr (rom_size l) PAGE_SHIFT in
  let mirror_stride := rom_pages * 2 in
  if rom_pages =? 0 then m
  else for_pages rom_start_page rom_end_page (fun p m =>
    let offset_in_cycle := (p - rom_start_page) mod mirror_stride in
    if rom_pages <=? offset_in_cycle then m
    else put_host_page p (image l + ram_size l + Z.shiftl offset_in_cycle PAGE_SHIFT) false m) m.

Definition memory_populate_ram_mirror (mirror_start mirror_end : Z) (m : mem) : mem :=
  let l := layout m in
  if (ram_size l =? 0) || (mirror_end <=? mirror_start) then m
  else for_pages (first_page mirror_start m) (first_page mirror_end m)
    (fun p => put_host_page p (image l + Z.shiftl p PAGE_SHIFT mod ram_size l) true) m.

(** The 16-bit big-endian words of the ROM after its stored checksum. *)
Fixpoint checksum_from (n : nat) (p : Z) (sum : Z) (m : mem) : Z :=
  match n with
  | O => sum
  | S n => checksum_from n (p + 2)
             (u32 (sum + Z.lor (Z.shiftl (host_byte m p) 8) (host_byte m (p + 1)))) m
  end.
Definition calculate_checksum (m : mem) : mem :=
  let l := layout m in
  if rom_size l <? 8 then m
  else set_layout (mk_layout (mappings l) (next_id l) (image l) (ram_size l) (rom_size l)
         (checksum_from (Z.to_nat ((rom_size l - 4) / 2)) (image l + ram_size l + 4) 0 m)) m.
(** memcpy(p, data, ...) *)
Fixpoint host_fill (p : Z) (data : list Z) (m : mem) : mem :=
  match data with
  | [] => m
  | v :: data => host_fill (p + 1) data (host_put p v m)
  end.
Definition memory_install_rom (data : list Z) (m : mem) : Z * mem :=
  let sz := Z.of_nat (length data) in
  if sz =? 0 then (0, m)
  else
    let l := layout m in
    let copy_size := if sz <? rom_size l then sz else rom_size l in
    let m := host_fill (image l + ram_size l) (take (Z.to_nat copy_size) data) m in
    (copy_size, calculate_checksum m).
End Memory.

(** memory_map_init without a checkpoint: an empty page table over a zeroed
    image at host address [img]. *)
Definition memory_map_init {D T} (address_bits ram rom img : Z) (d : D) (t : T) : mem_t D T :=
  let wide := address_bits =? 32 in
  mk_mem ∅ ∅ (if wide then 0xFFFFFFFF else 0x00FFFFFF)
    (Z.shiftl 1 ((if wide then 32 else 24) - PAGE_SHIFT))
    (mk_soa ∅ ∅ ∅ ∅) true true (mk_berr false 0 false 5 false) (mk_sprint 0 0 0 0 0 0 0 0)
    (mk_hooks ∅ ∅ [] 0 0 0 0 []) 0 (mk_layout [] 0 img ram rom 0) d t.

(** ** The CPU's view of the memory map *)
#[global] Instance mem_bus {D T} `{Devices D} `{Mmu D T} : Bus (mem_t D T) := {
  memory_read := mem_load;
  memory_write := mem_store;
  bus_error_pending m := be_pending (berr m);
  bus_error_address m := be_address (berr m);
  bus_error_rw m := be_rw (berr m);
  bus_error_fc m := be_fc (berr m);
  bus_error_is_pmmu m := be_is_pmmu (berr m);
  clear_bus_error m :=
    let b := berr m in set_berr (mk_berr false (be_address b) (be_rw b) (be_fc b) (be_is_pmmu b)) m;
  instructions m := u32 (burndown (sprint m));
  set_instructions n m :=
    let s := sprint m in
    set_sprint (mk_sprint n (io_penalty_remainder s) (io_phantom_instructions s) (io_cpi_x256 s)
      (sprint_base_cycles s) (sprint_frac_x256 s) (sprint_total_slots s) (esync_period_x256 s)) m;
  set_active x m := set_active_write x (set_active_read x m);
  active_read_empty page m := (page <? page_count m) && (active_read_at m page =? 0);
  snapshot_user_crp m := set_mmu (mmu_snapshot_crp (mmu m)) m;
  system_reset_devices m := set_devices (dev_reset (devices m)) m;
}.
