(* ===== verification/MemoryBus.v ===== *)
(** * The memory map meets the CPU's bus interface

    Every access path of memory.c, fast or slow, through devices, the MMU or a
    logpoint, keeps the promises of Bus.v. *)
From S2P Require Import Prelude Bus Memory.

(** What the slow paths rely on from mmu.c and lisa_mmu.c. *)
Class MmuLaws (D T : Type) `{Devices D} `{Mmu D T} := {
  lisa_read_range : forall s a sv m, in_width (bits s) (lisa_read s a sv m).1;
  lisa_read_step : forall s a sv m, bus_step m (lisa_read s a sv m).2;
  lisa_write_step : forall s a sv v m, bus_step m (lisa_write s a sv v m);
  handle_fault_step : forall a w sv m, bus_step m (mmu_handle_fault a w sv m).2;
  (** tlb_track_page only records the page for the next invalidation *)
  track_enabled : forall p t, mmu_enabled (tlb_track_page p t) = mmu_enabled t;
  track_lisa : forall p t, lisa_present (tlb_track_page p t) = lisa_present t;
}.
(** A device that holds the last value written to it, with two wait cycles
    per read and E-clock synchronised writes: an instance of the interface. *)
Record latch := mk_latch { latched : Z }.
#[global] Instance latch_device : Devices latch := {
  dev_read s _ _ _ d := (trunc s (latched d), [io_cycles 2], d);
  dev_write _ _ _ _ v _ := ([io_esync], mk_latch v);
  dev_reset _ := mk_latch 0;
}.

#[global] Instance no_mmu_laws {D} `{Devices D} : MmuLaws D unit.
Proof. split; intros; simpl; try apply bus_step_refl; try done. destruct s; by split. Qed.

Section MemoryBus.
Context {D T : Type} `{Devices D} `{Mmu D T} `{!MmuLaws D T}.
#[local] Abbreviation mem := (mem_t D T).
Implicit Types m : mem.

Lemma step_trans m1 m2 m3 : bus_step m1 m2 -> bus_step m2 m3 -> bus_step m1 m3.
Proof.
  intros [I1 P1 R1] [I2 P2 R2]. pose proof (u32_range (burndown (sprint m3))). simpl in *.
  split; simpl; [lia|auto|]. intros Hp. destruct (R2 Hp) as [Hp2|]; [|by right].
  destruct (R1 Hp2); [by left|right; lia].
Qed.

(** Steps that touch neither the bus error nor the sprint. *)
Lemma step_same m m' : berr m' = berr m -> sprint m' = sprint m -> bus_step m m'.
Proof. intros E1 E2. split; simpl; rewrite ?E1, ?E2; auto; lia. Qed.

Lemma io_penalty_burndown c s :
  u32 (burndown (memory_io_penalty c s)) <= u32 (burndown s).
Proof.
  unfold memory_io_penalty. zbool; simpl; try lia.
  - rewrite u32_small; [lia|]. pose proof (u32_range (burndown s)). unfold in_width. pow2. lia.
  - change (u32 0) with 0. apply u32_range.
Qed.

Lemma apply_charge_burndown c s : u32 (burndown (apply_charge c s)) <= u32 (burndown s).
Proof.
  destruct c; [apply io_penalty_burndown|]. cbn [apply_charge]. unfold memory_io_esync_penalty.
  destruct (_ || _); [lia|]. cbv zeta. destruct (memory_esync_penalty_cycles _ _); [apply io_penalty_burndown|lia].
Qed.
Lemma charge_step l m : bus_step m (charge l m).
Proof.
  split; simpl; [|auto|auto].
  generalize (sprint m) as s. induction l as [|c l IH]; intros s; simpl; [lia|].
  etrans; [apply IH|]. apply apply_charge_burndown.
Qed.
Lemma dev_read_step s r pe a m : bus_step m (call_dev_read s r pe a m).2.
Proof.
  unfold call_dev_read. destruct (dev_read _ _ _ _ _) as [[v pen] d]. simpl.
  eapply step_trans; [|apply charge_step]. by apply step_same.
Qed.
Lemma dev_write_step s r pe a v m : bus_step m (call_dev_write s r pe a v m).
Proof.
  unfold call_dev_write. destruct (dev_write _ _ _ _ _ _) as [pen d].
  eapply step_trans; [|apply charge_step]. by apply step_same.
Qed.
Lemma raise_step a rw sv m : bus_step m (raise_bus_error a rw sv m).
Proof.
  unfold raise_bus_error. destruct (be_pending (berr m)) eqn:E; [apply bus_step_refl|].
  split; simpl; [|done|by right]. apply u32_range.
Qed.
Lemma store_step s p v m : bus_step m (STORE_BE s p v m).
Proof. apply step_same; by destruct s. Qed.
Lemma rebuild_step p m : bus_step m (rebuild_soa_page p m).
Proof. apply step_same; unfold rebuild_soa_page; by repeat case_match. Qed.
Lemma logged_read_step s a p m : bus_step m (logged_read s a p m).2.
Proof. by apply step_same. Qed.
Lemma logged_write_step s a p v m : bus_step m (logged_write s a p v m).
Proof. apply step_same; by destruct s. Qed.

Create HintDb busstep.
#[local] Hint Resolve bus_step_refl dev_read_step dev_write_step raise_step store_step rebuild_step
  logged_read_step logged_write_step lisa_read_step lisa_write_step : busstep.

Lemma read_walk_step s a sv m : bus_step m (read_walk s a sv m).2.
Proof.
  unfold read_walk. pose proof (handle_fault_step a false sv m) as Hf.
  destruct (mmu_handle_fault a false sv m) as [ok m']. simpl in Hf.
  eapply step_trans; [exact Hf|]. repeat case_match; cbn [snd]; auto with busstep.
Qed.
Lemma write_walk_step s a v sv m : bus_step m (write_walk s a v sv m).
Proof.
  unfold write_walk. pose proof (handle_fault_step a true sv m) as Hf.
  destruct (mmu_handle_fault a true sv m) as [ok m']. simpl in Hf.
  eapply step_trans; [exact Hf|]. repeat case_match; cbn [snd]; auto with busstep.
Qed.
#[local] Hint Resolve read_walk_step write_walk_step : busstep.

Lemma read_slow_step s split a m :
  (forall m, bus_step m (split m).2) -> bus_step m (read_slow s split a m).2.
Proof.
  intros Hs. unfold read_slow. set (m1 := count_slowpath m).
  apply (step_trans _ m1); [by apply step_same|]. clearbody m1.
  repeat case_match; cbn [snd]; auto with busstep.
Qed.
Lemma write_slow_step s split a v m :
  (forall m, bus_step m (split m)) -> bus_step m (write_slow s split a v m).
Proof.
  intros Hs. unfold write_slow. set (m1 := count_slowpath m).
  apply (step_trans _ m1); [by apply step_same|]. clearbody m1.
  repeat case_match; cbn [snd]; auto with busstep;
    (eapply step_trans; [apply rebuild_step|auto with busstep]).
Qed.

Lemma fast_read_step s split a m :
  (forall a m, bus_step m (split a m).2) -> bus_step m (fast_read s split a m).2.
Proof.
  intros Hs. unfold fast_read. case_match; cbn [snd]; [apply bus_step_refl|by apply read_slow_step].
Qed.
Lemma fast_write_step s split a v m :
  (forall a m, bus_step m (split a m)) -> bus_step m (fast_write s split a v m).
Proof.
  intros Hs. unfold fast_write.
  match goal with |- context [if ?c then value_trap_check ?x ?y ?z m else m] =>
    set (m1 := if c then value_trap_check x y z m else m) end.
  apply (step_trans _ m1).
  { subst m1. apply step_same; unfold value_trap_check; by repeat case_match. }
  case_match; [apply store_step|by apply write_slow_step].
Qed.

Lemma read8_step a m : bus_step m (memory_read_uint8 a m).2.
Proof. apply fast_read_step. intros. apply bus_step_refl. Qed.
(** Two reads in sequence. *)
Lemma two_reads_step (f : Z -> mem -> Z * mem) a1 (a2 : mem -> Z) (k : Z -> Z -> Z) m :
  (forall a m, bus_step m (f a m).2) ->
  bus_step m (let '(hi, m) := f a1 m in let '(lo, m) := f (a2 m) m in (k hi lo, m)).2.
Proof.
  intros Hf. pose proof (Hf a1 m) as H1. destruct (f a1 m) as [hi m1].
  pose proof (Hf (a2 m1) m1) as H2. destruct (f (a2 m1) m1) as [lo m2]. by eapply step_trans.
Qed.
Lemma read16_step a m : bus_step m (memory_read_uint16 a m).2.
Proof.
  apply fast_read_step. intros a' m'.
  apply (two_reads_step _ a' (fun m => Z.land (u32 (a' + 1)) (address_mask m))
    (fun hi lo => u16 (Z.lor (Z.shiftl hi 8) lo)) m' read8_step).
Qed.
Lemma read32_step a m : bus_step m (memory_read_uint32 a m).2.
Proof.
  apply fast_read_step. intros a' m'.
  apply (two_reads_step _ a' (fun m => u32 (a' + 2))
    (fun hi lo => u32 (Z.lor (Z.shiftl hi 16) lo)) m' read16_step).
Qed.
Lemma write8_step a v m : bus_step m (memory_write_uint8 a v m).
Proof. apply fast_write_step. intros. apply bus_step_refl. Qed.
Lemma write16_step a v m : bus_step m (memory_write_uint16 a v m).
Proof. apply fast_write_step. intros. eapply step_trans; apply write8_step. Qed.
Lemma write32_step a v m : bus_step m (memory_write_uint32 a v m).
Proof. apply fast_write_step. intros. eapply step_trans; apply write16_step. Qed.

(** ** Widths of the values read *)
Lemma host_byte_range m p : in_width 8 (host_byte m p).
Proof. apply u8_range. Qed.
Lemma pack_width n x y : 0 <= n -> in_width n x -> in_width n y -> in_width (2 * n) (Z.lor (Z.shiftl x n) y).
Proof.
  intros Hn [] Hy. rewrite lor_shiftl_add by done. destruct Hy. unfold in_width.
  replace (2 * n) with (n + n) by lia. rewrite Z.pow_add_r by done. nia.
Qed.
Lemma LOAD_BE_range s p m : in_width (bits s) (LOAD_BE s p m).
Proof.
  destruct s; [apply host_byte_range|..].
  - apply (pack_width 8); [lia|apply host_byte_range..].
  - apply (pack_width 16); [lia|apply (pack_width 8); [lia|apply host_byte_range..]..].
Qed.
Lemma ones_range s : in_width (bits s) (ones s).
Proof. by destruct s. Qed.
Lemma dev_read_range s r pe a m : in_width (bits s) (call_dev_read s r pe a m).1.
Proof. unfold call_dev_read. destruct (dev_read _ _ _ _ _) as [[v pen] d]. apply trunc_range. Qed.

Lemma logged_read_range s a p m : in_width (bits s) (logged_read s a p m).1.
Proof. apply LOAD_BE_range. Qed.
Lemma read_walk_range s a sv m : in_width (bits s) (read_walk s a sv m).1.
Proof.
  unfold read_walk. repeat case_match; cbn [fst];
    auto using LOAD_BE_range, ones_range, dev_read_range, logged_read_range.
Qed.
Lemma read_slow_range s split a m :
  (forall m, in_width (bits s) (split m).1) -> in_width (bits s) (read_slow s split a m).1.
Proof.
  intros Hs. unfold read_slow.
  repeat case_match; cbn [fst];
    eauto using LOAD_BE_range, logged_read_range, read_walk_range, dev_read_range, lisa_read_range.
Qed.
Lemma fast_read_range s split a m :
  (forall a m, in_width (bits s) (split a m).1) -> in_width (bits s) (fast_read s split a m).1.
Proof.
  intros Hs. unfold fast_read. case_match; [apply LOAD_BE_range|by apply read_slow_range].
Qed.
Lemma mem_load_range s a m : in_width (bits s) (mem_load s a m).1.
Proof.
  destruct s; apply fast_read_range; intros; repeat case_match; cbn [fst].
  - by split.
  - apply u16_range.
  - apply u32_range.
Qed.

#[global] Instance mem_bus_laws : BusLaws (mem_t D T).
Proof.
  split.
  - intros m. apply u32_range.
  - intros s a m. apply mem_load_range.
  - intros [] a m; [apply read8_step|apply read16_step|apply read32_step].
  - intros [] a v m; [apply write8_step|apply write16_step|apply write32_step].
  - intros x m. by apply step_same.
  - intros m. by apply step_same.
  - intros m. by apply step_same.
  - done.
  - done.
  - intros n m Hn. by apply wrap_small.
  - done.
Qed.
End MemoryBus.
