(* ===== verification/MemoryProofs.v ===== *)
(** * RAM and ROM through the memory map

    With translation off (no Lisa MMU, the 68030 MMU absent or disabled) the
    fast path, the logpoint path and the lazily installed path of memory.c all
    give the same bytes: those the page table designates. *)
From S2P Require Import Prelude Bus Memory MemoryBus.

Section Plain.
Context {D T : Type} `{Devices D} `{Mmu D T} `{!MmuLaws D T}.
#[local] Abbreviation mem := (mem_t D T).
Implicit Types m : mem.

(** Translation off. *)
Definition plain m : Prop := lisa_present (mmu m) = false /\ mmu_enabled (mmu m) = false.

(** ** Pages and offsets *)
Lemma page_of_div x : page_of x = x / 4096.
Proof. unfold page_of, PAGE_SHIFT. by rewrite Z.shiftr_div_pow2. Qed.
Lemma offset_of_mod x : offset_of x = x mod 4096.
Proof. apply (land_ones_mod x 12). lia. Qed.
Lemma page_offset x : Z.shiftl (page_of x) PAGE_SHIFT + offset_of x = x.
Proof.
  rewrite page_of_div, offset_of_mod. unfold PAGE_SHIFT. rewrite Z.shiftl_mul_pow2 by done.
  change (2 ^ 12) with 4096. dlia.
Qed.
Lemma in_page_spec s x : in_page s x = true <-> x mod 4096 + bytes s <= 4096.
Proof. unfold in_page, MEM_PAGE_SIZE. rewrite offset_of_mod, Z.leb_le. lia. Qed.
(** The bytes of an in-page access share its page. *)
Lemma in_page_page s x i : in_page s x = true -> 0 <= i < bytes s ->
  page_of (x + i) = page_of x /\ offset_of (x + i) = offset_of x + i.
Proof. rewrite in_page_spec, !page_of_div, !offset_of_mod. intros. dlia. Qed.

(** ** Host addresses *)
Lemma host_byte_u64 m p q : u64 p = u64 q -> host_byte m p = host_byte m q.
Proof. intros E. unfold host_byte. by rewrite E. Qed.
Lemma u64_add p q i : u64 p = u64 q -> u64 (p + i) = u64 (q + i).
Proof. unfold u64. intros E. by rewrite <-wrap_add_l, E, wrap_add_l. Qed.
Lemma LOAD_BE_u64 m s p q : u64 p = u64 q -> LOAD_BE s p m = LOAD_BE s q m.
Proof.
  intros E. unfold LOAD_BE.
  by rewrite !(host_byte_u64 m (p + _) (q + _)) by (by apply u64_add).
Qed.
Lemma host_put_u64 p q v m : u64 p = u64 q -> host_put p v m = host_put q v m.
Proof. intros E. unfold host_put. by rewrite E. Qed.
Lemma STORE_BE_u64 m s p q v : u64 p = u64 q -> STORE_BE s p v m = STORE_BE s q v m.
Proof.
  intros E. unfold STORE_BE. destruct s;
    by rewrite !(fun i w => host_put_u64 (p + i) (q + i) w) by (by apply u64_add).
Qed.

(** The adjusted base plus the guest address is the host address. *)
Lemma adjusted_addr h x : in_width 32 x -> u64 (adjusted h (page_of x) + x) = u64 (h + offset_of x).
Proof.
  intros Hx. unfold adjusted, u64. rewrite wrap_add_l. f_equal.
  assert (u32 (Z.shiftl (page_of x) PAGE_SHIFT) = Z.shiftl (page_of x) PAGE_SHIFT) as ->.
  { apply u32_small. rewrite page_of_div. unfold PAGE_SHIFT. rewrite Z.shiftl_mul_pow2 by done.
    unfold in_width in *. change (2 ^ 12) with 4096. dlia. }
  pose proof (page_offset x). lia.
Qed.

(** ** What a page maps to *)
Definition backed m (p : Z) : bool :=
  negb (host_base (pe_at m p) =? 0) && (if dev (pe_at m p) is Some _ then false else true).
Definition host_of m (x : Z) : Z := host_base (pe_at m (page_of x)) + offset_of x.

(** An SoA entry is empty or the page's host address, the latter only for
    host-backed pages without logpoint. *)
Definition entry_ok m (p e : Z) : Prop :=
  e = 0 \/ (backed m p = true /\ e = adjusted (host_base (pe_at m p)) p /\ logpoints_at m p = 0).
Definition write_entry_ok m (p e : Z) : Prop :=
  entry_ok m p e /\ (e = 0 \/ writable (pe_at m p) = true).
(** The four entries of a page, and that its host pointer designates a whole
    page of host memory. *)
Definition page_ok m (p : Z) : Prop :=
  (entry_ok m p (soa_at (supervisor_read (soa m)) p) /\ entry_ok m p (soa_at (user_read (soa m)) p)) /\
  (write_entry_ok m p (soa_at (supervisor_write (soa m)) p) /\
   write_entry_ok m p (soa_at (user_write (soa m)) p)) /\
  (backed m p = false \/ (0 < host_base (pe_at m p) /\ host_base (pe_at m p) + 4096 <= 2 ^ 64)).
(** memory_map_init's two address spaces *)
Definition space_ok m : Prop :=
  (address_mask m, page_count m) = (0xFFFFFF, 4096) \/
  (address_mask m, page_count m) = (0xFFFFFFFF, 1048576).
(** The invariant of the memory map. *)
Definition mem_ok m : Prop := space_ok m /\ forall p, page_ok m p.

#[global] Instance plain_dec m : Decision (plain m).
Proof. unfold plain. apply _. Defined.
#[global] Instance entry_ok_dec m p e : Decision (entry_ok m p e).
Proof. unfold entry_ok. apply _. Defined.
#[global] Instance page_ok_dec m p : Decision (page_ok m p).
Proof. unfold page_ok, write_entry_ok. apply _. Defined.
#[global] Instance space_ok_dec m : Decision (space_ok m).
Proof. unfold space_ok. apply _. Defined.

Lemma active_read_ok m p : page_ok m p -> entry_ok m p (active_read_at m p).
Proof. intros ([? ?] & _). unfold active_read_at. by destruct (active_read m). Qed.
Lemma active_write_ok m p : page_ok m p -> write_entry_ok m p (active_write_at m p).
Proof. intros (_ & [? ?] & _). unfold active_write_at. by destruct (active_write m). Qed.

Lemma masked_range m x : space_ok m -> let y := Z.land x (address_mask m) in
  in_width 32 y /\ 0 <= page_of y < page_count m.
Proof.
  intros Hs. simpl. rewrite page_of_div. unfold in_width.
  destruct Hs as [[= -> ->]|[= -> ->]].
  - pose proof (land_width 24 x 0xFFFFFF ltac:(lia) ltac:(by split)) as []. dlia.
  - pose proof (land_width 32 x 0xFFFFFFFF ltac:(lia) ltac:(by split)) as []. dlia.
Qed.
Lemma masked_id m x : space_ok m -> 0 <= x <= address_mask m -> Z.land x (address_mask m) = x.
Proof.
  intros Hs Hx. destruct Hs as [[= E _]|[= E _]]; rewrite E in *.
  - etrans; [apply (land_ones_mod x 24); lia|apply Z.mod_small; lia].
  - etrans; [apply (land_ones_mod x 32); lia|apply Z.mod_small; lia].
Qed.
Lemma space_u32 m x : space_ok m -> 0 <= x <= address_mask m -> u32 x = x.
Proof. intros Hs Hx. apply u32_small. destruct Hs as [[= E _]|[= E _]]; rewrite E in *; unfold in_width; lia. Qed.

(** ** Steps that leave the map alone *)

(** Host memory becomes [h]; beyond that only bookkeeping changes: the
    slow-path counter, logs, SoA entries that stay right. *)
Record settled (h : Zmap Z) m m' : Prop := {
  q_host : host m' = h;
  q_pages : page_table m' = page_table m;
  q_mask : address_mask m' = address_mask m;
  q_count : page_count m' = page_count m;
  q_berr : berr m' = berr m;
  q_sprint : sprint m' = sprint m;
  q_layout : layout m' = layout m;
  q_devices : devices m' = devices m;
  q_logpoints : logpoint_count (hooks m') = logpoint_count (hooks m);
  q_active : (active_read m', active_write m') = (active_read m, active_write m);
  q_plain : plain m' <-> plain m;
  q_ok : forall p, page_ok m' p <-> page_ok m p;
}.
Definition quiet m m' : Prop := settled (host m) m m'.
Lemma settled_trans h1 h2 m1 m2 m3 : settled h1 m1 m2 -> settled h2 m2 m3 -> settled h2 m1 m3.
Proof.
  intros [] []. split; try congruence.
  - by etrans.
  - intros p. etrans; eauto.
Qed.
#[global] Instance quiet_preorder : PreOrder quiet.
Proof.
  split; [by split|]. intros m1 m2 m3 H1 H2. unfold quiet in *. rewrite (q_host _ _ _ H1) in H2.
  by eapply settled_trans.
Qed.
Lemma settled_space h m m' : settled h m m' -> space_ok m' <-> space_ok m.
Proof. intros []. unfold space_ok. by rewrite q_mask0, q_count0. Qed.

Lemma backed_ext m m' p : page_table m' = page_table m -> backed m' p = backed m p.
Proof. intros E. unfold backed, pe_at. by rewrite E. Qed.
Lemma host_of_ext m m' x : page_table m' = page_table m -> host_of m' x = host_of m x.
Proof. intros E. unfold host_of, pe_at. by rewrite E. Qed.
Lemma LOAD_BE_ext m m' s p : host m' = host m -> LOAD_BE s p m' = LOAD_BE s p m.
Proof. intros E. unfold LOAD_BE, host_byte. by rewrite E. Qed.
Lemma STORE_BE_ext m m' s p v : host m' = host m -> host (STORE_BE s p v m') = host (STORE_BE s p v m).
Proof. intros E. unfold STORE_BE, host_put. destruct s; simpl; by rewrite E. Qed.

(** Everything the invariant depends on is the same. *)
Lemma page_ok_ext m m' p :
  page_table m' = page_table m -> soa m' = soa m ->
  logpoint_count (hooks m') = logpoint_count (hooks m) ->
  page_ok m' p <-> page_ok m p.
Proof.
  intros E1 E2 E5. unfold page_ok, write_entry_ok, entry_ok, backed, pe_at, logpoints_at.
  by rewrite ?E1, ?E2, ?E5.
Qed.

Lemma quiet_count m : quiet m (count_slowpath m).
Proof. by split. Qed.
Lemma quiet_hook a s v w m : quiet m (logpoint_hook a s v w m).
Proof. by split. Qed.
Lemma quiet_trap a v s m : quiet m (value_trap_check a v s m).
Proof.
  unfold value_trap_check. destruct (negb _) eqn:E; [done|].
  by split.
Qed.
Lemma settled_STORE s p v m : settled (host (STORE_BE s p v m)) m (STORE_BE s p v m).
Proof. by destruct s; split. Qed.

Lemma soa_put t p v q : soa_at (<[p := v]> t) q = if decide (p = q) then v else soa_at t q.
Proof.
  unfold soa_at. case_decide as E; [subst; by rewrite lookup_insert_eq|by rewrite lookup_insert_ne].
Qed.

(** Installing a page's own host address keeps every page as it was. *)
Lemma quiet_rebuild p m : page_ok m p -> quiet m (rebuild_soa_page p m).
Proof.
  intros Hok. unfold rebuild_soa_page.
  destruct (page_count m <=? p) eqn:Ec; [done|]. destruct (mmu_on m); [done|].
  destruct ((host_base (pe_at m p) =? 0) || _) eqn:Eb; [done|].
  destruct (truthy (logpoints_at m p)) eqn:El; [done|].
  split; try done.
  - unfold plain. simpl. by rewrite track_lisa, track_enabled.
  - assert (entry_ok m p (adjusted (host_base (pe_at m p)) p)) as Hp.
    { right. apply orb_false_iff in Eb as [E1 E2].
      split; [|split; [done|]].
      - unfold backed. rewrite E1. by destruct (dev (pe_at m p)).
      - unfold truthy in El. by apply negb_false_iff, Z.eqb_eq in El. }
    intros q. destruct (decide (p = q)) as [<-|Hne].
    + split; [done|]. intros _. destruct Hok as (_ & [Hw1 Hw2] & Hh).
      unfold page_ok, write_entry_ok. split; [|split; [|done]]; cbn [soa set_soa set_mmu mem_eta put_soa
        supervisor_read user_read supervisor_write user_write].
      * by rewrite !soa_put, !decide_True.
      * destruct (writable (pe_at m p)) eqn:Ew; [|by split].
        rewrite !soa_put, !decide_True by done. by split; split; [|right| |right].
    + unfold page_ok. cbn [soa set_soa set_mmu mem_eta put_soa
        supervisor_read user_read supervisor_write user_write].
      by destruct (writable (pe_at m p)); rewrite !soa_put, !decide_False.
Qed.

(** ** Reads *)

(** The byte the page table designates for a guest address. *)
Definition guest_byte m (x : Z) : Z := host_byte m (host_of m x).
Definition guest_bytes m (x : Z) : option Z :=
  if backed m (page_of x) then Some (guest_byte m x) else None.

Lemma guest_byte_range m x : in_width 8 (guest_byte m x).
Proof. apply host_byte_range. Qed.

Lemma guest_bytes_quiet m m' x : quiet m m' -> guest_bytes m' x = guest_bytes m x.
Proof.
  intros []. unfold guest_bytes, guest_byte, host_byte.
  by rewrite (backed_ext _ _ _ q_pages0), (host_of_ext _ _ _ q_pages0), q_host0.
Qed.

Lemma guest_bytes_width m x v : guest_bytes m x = Some v -> in_width 8 v.
Proof. unfold guest_bytes. destruct (backed _ _); [|done]. intros [= <-]. apply guest_byte_range. Qed.

(** In one page, LOAD_BE at the host address is the big-endian load. *)
Lemma LOAD_BE_guest s x m : in_page s x = true -> backed m (page_of x) = true ->
  load_be (guest_bytes m) s x = Some (LOAD_BE s (host_of m x) m).
Proof.
  intros Hin Hb.
  assert (forall i, 0 <= i < bytes s -> guest_bytes m (x + i) = Some (host_byte m (host_of m x + i))) as Hi.
  { intros i Hi. destruct (in_page_page s x i Hin Hi) as [Ep Eo].
    unfold guest_bytes, guest_byte, host_of. rewrite Ep, Eo, Hb. do 2 f_equal. lia. }
  pose proof (Hi 0 ltac:(destruct s; simpl; lia)) as H0'. rewrite Z.add_0_r in H0'.
  unfold LOAD_BE. rewrite Z.add_0_r in *.
  destruct s; cbn [load_be]; rewrite H0', ?(Hi 1), ?(Hi 2), ?(Hi 3) by (cbn [bytes]; lia); reflexivity.
Qed.

Lemma logpoint_plain m x : plain m -> logpoint_lookup x m =
  if truthy (logpoints_at m (page_of x)) then
    Some (if host_base (pe_at m (page_of x)) =? 0 then 0
          else u64 (host_base (pe_at m (page_of x)) + offset_of x), writable (pe_at m (page_of x)))
  else None.
Proof.
  intros [_ E]. unfold logpoint_lookup, mmu_on. rewrite E. cbn [andb negb]. rewrite andb_true_r.
  by destruct (truthy _).
Qed.
Lemma backed_spec m p : backed m p = true -> host_base (pe_at m p) <> 0 /\ dev (pe_at m p) = None.
Proof.
  unfold backed. intros [E1 E2]%andb_true_iff. apply negb_true_iff, Z.eqb_neq in E1.
  by destruct (dev (pe_at m p)).
Qed.

(** The host pointer of a logpoint on a backed page is not NULL. *)
Lemma host_ptr_pos m x : page_ok m (page_of x) -> backed m (page_of x) = true ->
  exists p, u64 (host_of m x) = Zpos p.
Proof.
  intros (_ & _ & Hh) Hb. destruct Hh as [?|[H1' H2']]; [congruence|].
  assert (0 <= offset_of x < 4096) as Ho by (rewrite offset_of_mod; apply Z.mod_pos_bound; lia).
  assert (0 < u64 (host_of m x)) as Hp.
  { unfold u64, host_of. rewrite wrap_small; [lia|]. unfold in_width. lia. }
  destruct (u64 (host_of m x)) as [|p|p]; [lia|by exists p|lia].
Qed.

Lemma read_slow_backed s split x m : plain m -> page_ok m (page_of x) -> in_page s x = true ->
  backed m (page_of x) = true ->
  (read_slow s split x m).1 = LOAD_BE s (host_of m x) m /\ quiet m (read_slow s split x m).2.
Proof.
  intros Hp Hm Hin Hb. unfold read_slow. pose proof (quiet_count m) as Hq.
  set (m1 := count_slowpath m) in *.
  pose proof (proj2 (q_plain _ _ _ Hq) Hp) as Hp1. pose proof (proj2 (q_ok _ _ _ Hq _) Hm) as Hm1.
  assert (backed m1 (page_of x) = true) as Hb1 by done.
  rewrite (proj1 Hp1), Hin, (logpoint_plain _ _ Hp1).
  destruct (backed_spec _ _ Hb1) as [Hh Hd].
  destruct (truthy (logpoints_at m1 (page_of x))) eqn:El.
  - rewrite (proj2 (Z.eqb_neq _ _) Hh). fold (host_of m1 x).
    destruct (host_ptr_pos m1 x Hm1 Hb1) as [p Ep]. rewrite Ep. cbn [fst snd logged_read].
    split; [|etrans; [exact Hq|apply quiet_hook]].
    unfold logged_read. cbn [fst]. rewrite <-Ep. rewrite (LOAD_BE_u64 m1 s _ (host_of m1 x)); [done|].
    unfold u64. by rewrite wrap_wrap.
  - unfold can_lazy_install, mmu_on. rewrite (proj2 Hp1), El, Hd, (proj2 (Z.eqb_neq _ _) Hh).
    cbn [andb orb fst snd]. pose proof (quiet_rebuild (page_of x) m1 Hm1) as Hq2.
    split; [by apply LOAD_BE_ext; rewrite (q_host _ _ _ Hq2)|by etrans].
Qed.

Lemma entry_addr m x e : space_ok m -> 0 <= x <= address_mask m -> entry_ok m (page_of x) e -> e <> 0 ->
  u64 (e + x) = u64 (host_of m x).
Proof.
  intros Hs Hx [?|(_ & -> & _)] Hne; [done|].
  apply adjusted_addr. pose proof (masked_range m x Hs) as [Hw _]. by rewrite (masked_id m x Hs Hx) in Hw.
Qed.

(** In-page reads of backed pages, whatever the SoA entry. *)
Lemma fast_read_backed s split x m : plain m -> space_ok m -> page_ok m (page_of x) ->
  0 <= x <= address_mask m -> in_page s x = true -> backed m (page_of x) = true ->
  (fast_read s split x m).1 = LOAD_BE s (host_of m x) m /\ quiet m (fast_read s split x m).2.
Proof.
  intros Hp Hs Hm Hx Hin Hb. unfold fast_read. rewrite (masked_id m x Hs Hx), Hin, andb_true_r.
  destruct (Z.eqb_spec (active_read_at m (page_of x)) 0) as [|Hne]; [by apply read_slow_backed|].
  cbn [negb fst snd]. split; [|done]. apply LOAD_BE_u64. apply entry_addr; try done.
  by apply active_read_ok.
Qed.

(** Accesses that cross a page fall through to [split]. *)
Lemma slow_cross m p : plain m ->
  lisa_present (mmu (count_slowpath m)) = false /\ pe_at (count_slowpath m) p = pe_at m p.
Proof. by intros [? ?]. Qed.
Lemma fast_read_cross s split x m : plain m -> space_ok m -> 0 <= x <= address_mask m ->
  in_page s x = false ->
  fast_read s split x m = split x (count_slowpath m).
Proof.
  intros Hp Hs Hx Hin. unfold fast_read, read_slow.
  rewrite (masked_id m x Hs Hx), Hin, !andb_false_r.
  destruct (slow_cross m (page_of x) Hp) as (-> & ->).
  by destruct (dev (pe_at m (page_of x))).
Qed.

(** A range of guest addresses that is host-backed. *)
Definition mapped m (s : size) (x : Z) : Prop :=
  plain m /\ space_ok m /\ 0 <= x /\ x + bytes s - 1 <= address_mask m /\
  forall i, 0 <= i < bytes s -> page_ok m (page_of (x + i)) /\ backed m (page_of (x + i)) = true.
Lemma mapped_settled h m m' s x : settled h m m' -> mapped m s x -> mapped m' s x.
Proof.
  intros Hq (? & ? & ? & ? & Hi). split; [by eapply q_plain|]. split; [by eapply settled_space|].
  rewrite (q_mask _ _ _ Hq). split_and!; [done..|]. intros i Hr. destruct (Hi i Hr). split.
  - by apply (q_ok _ _ _ Hq).
  - rewrite (backed_ext m m'); [done|apply (q_pages _ _ _ Hq)].
Qed.
(** A part of the range. *)
Lemma mapped_part m s s' x i : mapped m s x -> 0 <= i -> i + bytes s' <= bytes s -> mapped m s' (x + i).
Proof.
  intros (? & ? & ? & ? & Hi) H1' H2'. split_and!; try done; [lia..|]. intros j Hj.
  rewrite <-Z.add_assoc. apply Hi. lia.
Qed.
Lemma mapped_head m s x : mapped m s x ->
  0 <= x <= address_mask m /\ page_ok m (page_of x) /\ backed m (page_of x) = true.
Proof.
  intros (_ & _ & ? & ? & Hi). assert (0 < bytes s) by (destruct s; simpl; lia).
  specialize (Hi 0 ltac:(lia)). rewrite Z.add_0_r in Hi. by split; [lia|].
Qed.

Lemma read8_mapped x m : mapped m B8 x ->
  Some (memory_read_uint8 x m).1 = guest_bytes m x /\ quiet m (memory_read_uint8 x m).2.
Proof.
  intros Hm. destruct (mapped_head _ _ _ Hm) as (Hx & Hok & Hb). destruct Hm as (Hp & Hs & _).
  assert (in_page B8 x = true) as Hin by (apply in_page_spec; simpl; dlia).
  destruct (fast_read_backed B8 (fun _ m => (0xFF, m)) x m Hp Hs Hok Hx Hin Hb) as [E Hq].
  split; [|done]. unfold memory_read_uint8. rewrite E. symmetry. by apply (LOAD_BE_guest B8).
Qed.

Lemma load_be_quiet m m' s x : quiet m m' -> load_be (guest_bytes m') s x = load_be (guest_bytes m) s x.
Proof. intros Hq. apply load_be_ext. intros y _. by apply guest_bytes_quiet. Qed.

(** Two reads in a row, the halves of a crossing access. *)
Lemma read_halves (rd : Z -> mem -> Z * mem) s s2 x m :
  (forall x m, mapped m s x -> Some (rd x m).1 = load_be (guest_bytes m) s x /\ quiet m (rd x m).2) ->
  bytes s2 = 2 * bytes s -> mapped m s2 x ->
  exists hi lo m1 m2, rd x m = (hi, m1) /\ rd (x + bytes s) m1 = (lo, m2) /\ quiet m m2 /\
    mapped m1 s (x + bytes s) /\
    load_be (guest_bytes m) s x = Some hi /\ load_be (guest_bytes m) s (x + bytes s) = Some lo.
Proof.
  intros Hrd Hs Hm. assert (0 < bytes s) by (destruct s; simpl; lia).
  pose proof (mapped_part _ _ s _ 0 Hm ltac:(lia) ltac:(lia)) as Hm1. rewrite Z.add_0_r in Hm1.
  destruct (Hrd x m Hm1) as [E1 Hq1]. destruct (rd x m) as [hi m1] eqn:R1. cbn [fst snd] in *.
  pose proof (mapped_settled _ _ _ _ _ Hq1 (mapped_part _ _ s _ (bytes s) Hm ltac:(lia) ltac:(lia))) as Hm2.
  destruct (Hrd _ m1 Hm2) as [E2 Hq2]. rewrite (load_be_quiet _ _ _ _ Hq1) in E2.
  destruct (rd _ m1) as [lo m2] eqn:R2. exists hi, lo, m1, m2. split_and!; try done. by etrans.
Qed.

Lemma read16_mapped x m : mapped m B16 x ->
  Some (memory_read_uint16 x m).1 = load_be (guest_bytes m) B16 x /\ quiet m (memory_read_uint16 x m).2.
Proof.
  intros Hm. destruct (mapped_head _ _ _ Hm) as (Hx & Hok & Hb). destruct (id Hm) as (Hp & Hs & _).
  unfold memory_read_uint16. destruct (in_page B16 x) eqn:Hin.
  - lazymatch goal with |- context [fast_read B16 ?k x m] =>
      destruct (fast_read_backed B16 k x m Hp Hs Hok Hx Hin Hb) as [E Hq] end.
    split; [|done]. rewrite E. symmetry. by apply LOAD_BE_guest.
  - rewrite fast_read_cross by done. pose proof (quiet_count m) as Hq0.
    destruct (read_halves memory_read_uint8 B8 B16 x _ read8_mapped eq_refl (mapped_settled _ _ _ _ _ Hq0 Hm))
      as (hi & lo & m1 & m2 & -> & R2 & Hq & Hm2 & E1 & E2).
    rewrite (space_u32 m1), (masked_id m1) by (apply Hm2 || apply (mapped_head _ _ _ Hm2)).
    cbn [bytes] in *. rewrite R2. cbn [fst snd]. split; [|by etrans].
    rewrite (load_be_quiet _ _ _ _ Hq0) in E1. rewrite (load_be_quiet _ _ _ _ Hq0) in E2. cbn [load_be] in *.
    rewrite E1, E2. cbn. f_equal. apply wrap_small.
    eapply (load_be_width (guest_bytes m) B16 x); [apply guest_bytes_width|]. cbn [load_be].
    by rewrite E1, E2.
Qed.
Lemma read32_mapped x m : mapped m B32 x ->
  Some (memory_read_uint32 x m).1 = load_be (guest_bytes m) B32 x /\ quiet m (memory_read_uint32 x m).2.
Proof.
  intros Hm. destruct (mapped_head _ _ _ Hm) as (Hx & Hok & Hb). destruct (id Hm) as (Hp & Hs & _).
  unfold memory_read_uint32. destruct (in_page B32 x) eqn:Hin.
  - lazymatch goal with |- context [fast_read B32 ?k x m] =>
      destruct (fast_read_backed B32 k x m Hp Hs Hok Hx Hin Hb) as [E Hq] end.
    split; [|done]. rewrite E. symmetry. by apply LOAD_BE_guest.
  - rewrite fast_read_cross by done. pose proof (quiet_count m) as Hq0.
    destruct (read_halves memory_read_uint16 B16 B32 x _ read16_mapped eq_refl (mapped_settled _ _ _ _ _ Hq0 Hm))
      as (hi & lo & m1 & m2 & -> & R2 & Hq & Hm2 & E1 & E2).
    rewrite (space_u32 m1) by (apply Hm2 || apply (mapped_head _ _ _ Hm2)).
    cbn [bytes] in *. rewrite R2. cbn [fst snd]. split; [|by etrans].
    rewrite (load_be_quiet _ _ _ _ Hq0) in E1. rewrite (load_be_quiet _ _ _ _ Hq0) in E2.
    assert (load_be (guest_bytes m) B32 x = Some (Z.lor (Z.shiftl hi 16) lo)) as E.
    { cbn [load_be] in *. replace (x + 3) with (x + 2 + 1) by lia.
      destruct (guest_bytes m x), (guest_bytes m (x + 1)), (guest_bytes m (x + 2)),
        (guest_bytes m (x + 2 + 1)); try discriminate.
      injection E1 as <-. by injection E2 as <-. }
    rewrite E. f_equal. apply wrap_small.
    by apply (load_be_width (guest_bytes m) B32 x _ (guest_bytes_width m)).
Qed.

Lemma mem_load_mapped s x m : mapped m s x ->
  Some (mem_load s x m).1 = load_be (guest_bytes m) s x /\ quiet m (mem_load s x m).2.
Proof. destruct s; [apply read8_mapped|apply read16_mapped|apply read32_mapped]. Qed.

(** ** Writes *)

(** The host memory after a byte write through the page table: bytes of
    pages that are not writable stay. *)
Definition put_byte m (x v : Z) (h : Zmap Z) : Zmap Z :=
  if writable (pe_at m (page_of x)) then <[u64 (host_of m x) := u8 v]> h else h.
Definition put_bytes m (s : size) (x v : Z) (h : Zmap Z) : Zmap Z :=
  fold_left (fun h i => put_byte m (x + i) (be_byte s v i) h)
    match s with B8 => [0] | B16 => [0; 1] | B32 => [0; 1; 2; 3] end h.

Lemma put_byte_ext m m' x v h : page_table m' = page_table m -> put_byte m' x v h = put_byte m x v h.
Proof. intros E. unfold put_byte, host_of, pe_at. by rewrite E. Qed.
Lemma put_bytes_ext m m' s x v h : page_table m' = page_table m -> put_bytes m' s x v h = put_bytes m s x v h.
Proof. intros E. destruct s; cbn; by rewrite ?(put_byte_ext m m'). Qed.

Lemma put_byte_in_page m s x i v h : in_page s x = true -> 0 <= i < bytes s ->
  put_byte m (x + i) v h =
  if writable (pe_at m (page_of x)) then <[u64 (host_of m x + i) := u8 v]> h else h.
Proof.
  intros Hin Hi. destruct (in_page_page s x i Hin Hi) as [Ep Eo].
  unfold put_byte, host_of. by rewrite Ep, Eo, Z.add_assoc.
Qed.
(** In one page, STORE_BE at the host address, or nothing. *)
Lemma put_bytes_in_page m s x v : in_page s x = true ->
  put_bytes m s x v (host m) =
  if writable (pe_at m (page_of x)) then host (STORE_BE s (host_of m x) v m) else host m.
Proof.
  intros Hin. destruct s; cbn [put_bytes fold_left];
    rewrite !(put_byte_in_page _ _ _ _ _ _ Hin) by (cbn; lia); by destruct (writable _).
Qed.

Lemma be_byte_half s s2 v hi lo i :
  (s, s2, hi, lo) = (B8, B16, u8 (Z.shiftr v 8), u8 (Z.land v 0xFF)) \/
  (s, s2, hi, lo) = (B16, B32, u16 (Z.shiftr v 16), u16 (Z.land v 0xFFFF)) ->
  0 <= i < bytes s -> be_byte s hi i = be_byte s2 v i /\ be_byte s lo i = be_byte s2 v (bytes s + i).
Proof.
  pose proof (land_ones_mod v 8 ltac:(done)) as E1. pose proof (land_ones_mod v 16 ltac:(done)) as E2.
  change (2 ^ 8 - 1) with 0xFF in E1. change (2 ^ 16 - 1) with 0xFFFF in E2.
  intros [[= -> -> -> ->]|[= -> -> -> ->]] Hi; cbn [bytes] in Hi; rewrite ?E1, ?E2, Z.shiftr_div_pow2 by lia.
  - assert (i = 0) as -> by lia. split; rewrite !be_byte_div by (cbn; lia);
      unfold u8, wrap; cbn -[Z.div Z.modulo Z.pow]; dlia.
  - assert (i = 0 \/ i = 1) as [-> | ->] by lia; split; rewrite !be_byte_div by (cbn; lia);
      unfold u16, wrap; cbn -[Z.div Z.modulo Z.pow]; dlia.
Qed.
Lemma put_bytes_halves m s s2 x v hi lo h :
  (s, s2, hi, lo) = (B8, B16, u8 (Z.shiftr v 8), u8 (Z.land v 0xFF)) \/
  (s, s2, hi, lo) = (B16, B32, u16 (Z.shiftr v 16), u16 (Z.land v 0xFFFF)) ->
  put_bytes m s (x + bytes s) lo (put_bytes m s x hi h) = put_bytes m s2 x v h.
Proof.
  intros Hv. pose proof (fun i => be_byte_half s s2 v hi lo i Hv) as Hb.
  destruct Hv as [[= -> -> -> ->]|[= -> -> -> ->]]; cbn [put_bytes fold_left bytes] in *; rewrite <-!Z.add_assoc.
  - destruct (Hb 0 ltac:(lia)) as [-> ->]. done.
  - destruct (Hb 0 ltac:(lia)) as [-> ->]. destruct (Hb 1 ltac:(lia)) as [-> ->]. done.
Qed.

Lemma write_slow_backed s split x v m : plain m -> page_ok m (page_of x) -> in_page s x = true ->
  backed m (page_of x) = true ->
  settled (put_bytes m s x v (host m)) m (write_slow s split x v m) \/
  (writable (pe_at m (page_of x)) = false /\ exists m', quiet m m' /\ write_slow s split x v m = split m').
Proof.
  intros Hp Hm Hin Hb. unfold write_slow. pose proof (quiet_count m) as Hq.
  rewrite (put_bytes_in_page _ _ _ _ Hin).
  set (m1 := count_slowpath m) in *.
  pose proof (proj2 (q_plain _ _ _ Hq) Hp) as Hp1. pose proof (proj2 (q_ok _ _ _ Hq _) Hm) as Hm1.
  assert (backed m1 (page_of x) = true) as Hb1 by done.
  rewrite (proj1 Hp1), Hin, (logpoint_plain _ _ Hp1). change (pe_at m1) with (pe_at m).
  destruct (backed_spec _ _ Hb) as [Hh Hd].
  unfold can_lazy_install, mmu_on. rewrite (proj2 Hp1), Hd, (proj2 (Z.eqb_neq _ _) Hh).
  destruct (truthy (logpoints_at m1 (page_of x))) eqn:El; cbn [andb orb].
  - fold (host_of m x). destruct (host_ptr_pos m x Hm Hb) as [p Ep]. rewrite Ep.
    destruct (writable (pe_at m (page_of x))) eqn:Ew; [left|right; split; [done|by exists m1]].
    unfold logged_write. rewrite <-Ep. rewrite (STORE_BE_u64 m1 s _ (host_of m x)).
    + eapply settled_trans; [exact Hq|]. eapply settled_trans; [apply settled_STORE|].
      rewrite <-(STORE_BE_ext m m1) by done. apply quiet_hook.
    + unfold u64. by rewrite wrap_wrap.
  - left. pose proof (quiet_rebuild (page_of x) m1 Hm1) as Hq2.
    destruct (writable (pe_at m (page_of x))); [|by eapply settled_trans].
    eapply settled_trans; [exact Hq|]. eapply settled_trans; [exact Hq2|].
    rewrite <-(STORE_BE_ext m (rebuild_soa_page (page_of x) m1)) by (by rewrite (q_host _ _ _ Hq2)).
    apply settled_STORE.
Qed.

Lemma write_slow_cross s split x v m : plain m -> in_page s x = false ->
  write_slow s split x v m = split (count_slowpath m).
Proof.
  intros Hp Hin. unfold write_slow. rewrite Hin, !andb_false_r.
  destruct (slow_cross m (page_of x) Hp) as (-> & ->).
  by destruct (dev (pe_at m (page_of x))).
Qed.

(** One access: [split] must do what is left for it. *)
Lemma fast_write_mapped s split x v m : mapped m s x ->
  (forall m', quiet m m' -> in_page s x = false \/ writable (pe_at m' (page_of x)) = false ->
     settled (put_bytes m' s x v (host m')) m' (split x m')) ->
  settled (put_bytes m s x v (host m)) m (fast_write s split x v m).
Proof.
  intros Hm Hsplit. destruct (mapped_head _ _ _ Hm) as (Hx & Hok & Hb). destruct (id Hm) as (Hp & Hs & _).
  unfold fast_write. rewrite (masked_id m x Hs Hx).
  match goal with |- context [if ?c then value_trap_check ?a ?b ?d ?e else ?f] =>
    set (m1 := if c then value_trap_check a b d e else f) end.
  assert (quiet m m1) as Hq1 by (unfold m1; destruct (_ && _); [apply quiet_trap|done]).
  assert (forall m', quiet m m' -> put_bytes m s x v (host m) = put_bytes m' s x v (host m')) as Hput.
  { intros m' Hq. rewrite (q_host _ _ _ Hq). symmetry. apply put_bytes_ext, (q_pages _ _ _ Hq). }
  rewrite (Hput m1 Hq1).
  pose proof (mapped_settled _ _ _ _ _ Hq1 Hm) as Hm1.
  destruct (mapped_head _ _ _ Hm1) as (_ & Hok1 & Hb1).
  eapply settled_trans; [exact Hq1|].
  destruct (negb _ && in_page s x) eqn:E.
  - apply andb_true_iff in E as [Hne Hin]. apply negb_true_iff, Z.eqb_neq in Hne.
    destruct (active_write_ok m _ Hok) as [He [?|Hw]]; [done|].
    rewrite (put_bytes_in_page _ _ _ _ Hin).
    rewrite (STORE_BE_u64 m1 _ (active_write_at m (page_of x) + x) (host_of m x)) by (by apply entry_addr).
    assert (pe_at m1 = pe_at m) as Epe by (unfold pe_at; by rewrite (q_pages _ _ _ Hq1)).
    rewrite Epe, Hw. unfold host_of. rewrite Epe. apply settled_STORE.
  - destruct (in_page s x) eqn:Hin.
    + destruct (write_slow_backed s (split x) x v m1 (proj1 Hm1) Hok1 Hin Hb1) as [?|(Ew & m' & Hq & ->)]; [done|].
      assert (quiet m m') as Hq' by (by transitivity m1).
      rewrite <-(Hput m1 Hq1), (Hput m' Hq').
      eapply settled_trans; [exact Hq|]. apply Hsplit; [done|]. right.
      unfold pe_at. by rewrite (q_pages _ _ _ Hq).
    + rewrite write_slow_cross by (done || apply Hm1).
      assert (quiet m (count_slowpath m1)) as Hq' by (etrans; [done|apply quiet_count]).
      rewrite <-(Hput m1 Hq1), (Hput _ Hq').
      eapply settled_trans; [apply quiet_count|]. apply Hsplit; [done|by left].
Qed.

Lemma write8_mapped x v m : mapped m B8 x ->
  settled (put_bytes m B8 x v (host m)) m (memory_write_uint8 x v m).
Proof.
  intros Hm. apply fast_write_mapped; [done|]. intros m' _ Hw.
  assert (in_page B8 x = true) as Hin by (apply in_page_spec; simpl; dlia).
  destruct Hw as [?|Hw]; [congruence|]. rewrite (put_bytes_in_page _ _ _ _ Hin), Hw.
  change (quiet m' m'). done.
Qed.

(** Two writes in a row, the halves of an access. *)
Lemma write_halves (wr : Z -> Z -> mem -> mem) s s2 x v hi lo m :
  (forall x v m, mapped m s x -> settled (put_bytes m s x v (host m)) m (wr x v m)) ->
  mapped m s2 x ->
  (s, s2, hi, lo) = (B8, B16, u8 (Z.shiftr v 8), u8 (Z.land v 0xFF)) \/
  (s, s2, hi, lo) = (B16, B32, u16 (Z.shiftr v 16), u16 (Z.land v 0xFFFF)) ->
  mapped (wr x hi m) s (x + bytes s) /\
  settled (put_bytes m s2 x v (host m)) m (wr (x + bytes s) lo (wr x hi m)).
Proof.
  intros Hwr Hm Hv. assert (0 < bytes s /\ bytes s2 = 2 * bytes s) as [Hs Hs2] by
    (destruct Hv as [[= -> -> _ _]|[= -> -> _ _]]; done).
  pose proof (mapped_part _ _ s _ 0 Hm ltac:(lia) ltac:(lia)) as Hm1. rewrite Z.add_0_r in Hm1.
  pose proof (Hwr x hi m Hm1) as Hq1.
  pose proof (mapped_settled _ _ _ _ _ Hq1 (mapped_part _ _ s _ (bytes s) Hm ltac:(lia) ltac:(lia))) as Hm2.
  split; [done|]. eapply settled_trans; [exact Hq1|].
  replace (put_bytes m s2 x v (host m)) with (put_bytes (wr x hi m) s (x + bytes s) lo (host (wr x hi m)));
    [by apply Hwr|].
  rewrite (put_bytes_ext m) by apply (q_pages _ _ _ Hq1). rewrite (q_host _ _ _ Hq1).
  apply put_bytes_halves. done.
Qed.

Lemma write16_mapped x v m : mapped m B16 x ->
  settled (put_bytes m B16 x v (host m)) m (memory_write_uint16 x v m).
Proof.
  intros Hm. apply fast_write_mapped; [done|]. intros m' Hq _. cbv zeta.
  destruct (write_halves memory_write_uint8 B8 B16 x v _ _ m' write8_mapped
    (mapped_settled _ _ _ _ _ Hq Hm) (or_introl eq_refl)) as [Hm2 Hst]. cbn [bytes] in *.
  destruct (mapped_head _ _ _ Hm2) as [Hx _]. destruct Hm2 as (_ & Hs & _).
  by rewrite (space_u32 _ (x + 1) Hs), (masked_id _ (x + 1) Hs).
Qed.
Lemma write32_mapped x v m : mapped m B32 x ->
  settled (put_bytes m B32 x v (host m)) m (memory_write_uint32 x v m).
Proof.
  intros Hm. apply fast_write_mapped; [done|]. intros m' Hq _. cbv zeta.
  destruct (write_halves memory_write_uint16 B16 B32 x v _ _ m' write16_mapped
    (mapped_settled _ _ _ _ _ Hq Hm) (or_intror eq_refl)) as [Hm2 Hst]. cbn [bytes] in *.
  destruct (mapped_head _ _ _ Hm2) as [Hx _]. destruct Hm2 as (_ & Hs & _).
  by rewrite (space_u32 _ (x + 2) Hs).
Qed.
Lemma mem_store_mapped s x v m : mapped m s x ->
  settled (put_bytes m s x v (host m)) m (mem_store s x v m).
Proof. destruct s; [apply write8_mapped|apply write16_mapped|apply write32_mapped]. Qed.

(** ** The bytes of host memory after a write *)
Definition byte_indices (s : size) : list Z := match s with B8 => [0] | B16 => [0; 1] | B32 => [0; 1; 2; 3] end.
Lemma byte_indices_spec s i : i ∈ byte_indices s <-> 0 <= i < bytes s.
Proof. destruct s; cbn [byte_indices bytes]; set_unfold; lia. Qed.
Lemma put_bytes_indices m s x v h :
  put_bytes m s x v h = fold_left (fun h i => put_byte m (x + i) (be_byte s v i) h) (byte_indices s) h.
Proof. by destruct s. Qed.

Lemma put_bytes_miss m s x v h p : (forall i, 0 <= i < bytes s -> u64 (host_of m (x + i)) <> p) ->
  put_bytes m s x v h !! p = h !! p.
Proof.
  setoid_rewrite <-byte_indices_spec. rewrite put_bytes_indices. generalize (byte_indices s) as l.
  intros l. revert h. induction l as [|j l IH]; intros h Hp; [done|]. cbn [fold_left]. rewrite IH.
  - unfold put_byte. destruct (writable _); [|done]. rewrite lookup_insert_ne; [done|]. apply Hp. by left.
  - intros i Hi. apply Hp. by right.
Qed.
Lemma put_bytes_hit m s x v h i : 0 <= i < bytes s ->
  (forall j, 0 <= j < bytes s -> writable (pe_at m (page_of (x + j))) = true) ->
  (forall j, 0 <= j < bytes s -> u64 (host_of m (x + j)) = u64 (host_of m (x + i)) -> j = i) ->
  put_bytes m s x v h !! u64 (host_of m (x + i)) = Some (be_byte s v i).
Proof.
  setoid_rewrite <-byte_indices_spec. rewrite put_bytes_indices. generalize (byte_indices s) as l.
  intros l. induction l as [|j l IH] using rev_ind; intros Hi Hw Hinj; [by apply elem_of_nil in Hi|].
  assert (forall k, k ∈ l -> k ∈ l ++ [j]) as Hl by (intros k Hk; apply elem_of_app; by left).
  assert (j ∈ l ++ [j]) as Hj by (apply elem_of_app; right; by left).
  rewrite fold_left_app. cbn [fold_left]. unfold put_byte at 1. rewrite (Hw j Hj).
  destruct (decide (i = j)) as [->|Hne].
  - rewrite lookup_insert_eq. f_equal. by apply wrap_wrap.
  - rewrite lookup_insert_ne by (intros E; apply Hne; symmetry; by apply Hinj).
    apply IH; [|auto..]. apply elem_of_app in Hi as [Hi|Hi%list_elem_of_singleton]; done.
Qed.

(** Reading back through any page that designates the same host bytes. *)
Lemma load_after_store m m' s x y v : settled (put_bytes m s x v (host m)) m m' ->
  in_width (bits s) v ->
  (forall i, 0 <= i < bytes s -> writable (pe_at m (page_of (x + i))) = true) ->
  (forall i j, 0 <= i < bytes s -> 0 <= j < bytes s ->
     u64 (host_of m (x + i)) = u64 (host_of m (x + j)) -> i = j) ->
  (forall i, 0 <= i < bytes s -> backed m (page_of (y + i)) = true /\ host_of m (y + i) = host_of m (x + i)) ->
  load_be (guest_bytes m') s y = Some v.
Proof.
  intros Hs Hv Hw Hinj Hy. apply load_be_bytes; [done|]. intros i Hi. destruct (Hy i Hi) as [Hb Eh].
  unfold guest_bytes, guest_byte, host_byte.
  rewrite (backed_ext m m'), (host_of_ext m m'), Hb, Eh, (q_host _ _ _ Hs) by apply (q_pages _ _ _ Hs).
  rewrite put_bytes_hit by auto. cbn [default]. f_equal. by apply wrap_wrap.
Qed.
End Plain.
