(* ===== verification/MemoryMap.v ===== *)
(** * The page table and its fast path stay consistent

    Every operation of memory.c keeps the invariant [mem_ok]: an entry of the
    SoA arrays is empty or the host address the page table gives for its page,
    write entries exist only for writable pages, and pages with a logpoint have
    none. *)
From S2P Require Import Prelude Bus Memory MemoryBus MemoryProofs.

Section Map.
Context {D T : Type} `{Devices D} `{Mmu D T} `{!MmuLaws D T}.
#[local] Abbreviation mem := (mem_t D T).
Implicit Types m : mem.

(** What the invariant says about a page depends on this. *)
Definition page_view m (p : Z) : page_entry * Z * (Z * Z * Z * Z) :=
  (pe_at m p, logpoints_at m p,
   (soa_at (supervisor_read (soa m)) p, soa_at (user_read (soa m)) p,
    soa_at (supervisor_write (soa m)) p, soa_at (user_write (soa m)) p)).
Lemma page_ok_view m m' p : page_view m' p = page_view m p -> page_ok m p -> page_ok m' p.
Proof.
  intros E. injection E as E1 E2 E3 E4 E5 E6.
  unfold page_ok, write_entry_ok, entry_ok, backed. by rewrite E1, E2, E3, E4, E5, E6.
Qed.

(** The parts of the state no operation on pages changes. *)
Record frame m m' : Prop := {
  f_mask : address_mask m' = address_mask m;
  f_count : page_count m' = page_count m;
  f_plain : plain m' <-> plain m;
}.
#[global] Instance frame_preorder : PreOrder frame.
Proof. split; [by split|]. intros ? ? ? [] []. split; [congruence..|by etrans]. Qed.
Lemma frame_space m m' : frame m m' -> space_ok m -> space_ok m'.
Proof. intros []. unfold space_ok. by rewrite f_mask0, f_count0. Qed.

(** An operation on page [p] alone. *)
Definition on_page (p : Z) (f : mem -> mem) : Prop :=
  forall m, frame m (f m) /\ forall q, q <> p -> page_view (f m) q = page_view m q.

Lemma mem_ok_on_page p f m : on_page p f -> mem_ok m -> page_ok (f m) p -> mem_ok (f m).
Proof.
  intros Hf [Hs Hp] Hok. destruct (Hf m) as [Hfr Hv]. split; [by eapply frame_space|].
  intros q. destruct (decide (q = p)) as [->|Hne]; [done|]. eapply page_ok_view; [by apply Hv|done].
Qed.

(** ** Loops over pages *)
Lemma seqZ_in p first n : p ∈ seqZ first n <-> first <= p < first + n.
Proof. rewrite elem_of_seqZ. lia. Qed.

Lemma for_pages_inv (P : mem -> Prop) first last body m :
  (forall p m', first <= p < last -> p < page_count m -> P m' -> P (body p m')) ->
  P m -> P (for_pages first last body m).
Proof.
  intros Hb. unfold for_pages.
  assert (forall p, p ∈ seqZ first (Z.min last (page_count m) - first) -> first <= p < last /\ p < page_count m) as Hin.
  { intros p ?%seqZ_in. lia. }
  revert Hin. generalize (seqZ first (Z.min last (page_count m) - first)) as l.
  intros l. generalize m at 2 3 as m'. induction l as [|p l IH]; intros m' Hin Hm; [done|].
  cbn [fold_left]. destruct (Hin p ltac:(by left)). apply IH; [|by apply Hb].
  intros q Hq. apply Hin. by right.
Qed.

Lemma for_pages_frame first last body m :
  (forall p, on_page p (body p)) -> frame m (for_pages first last body m).
Proof.
  intros Hb. apply (for_pages_inv (frame m)); [|done]. intros p m' _ _ Hm. etrans; [done|apply Hb].
Qed.
Lemma for_pages_ok first last body m :
  (forall p, on_page p (body p)) ->
  (forall p m', first <= p < last -> mem_ok m' -> page_ok (body p m') p) ->
  mem_ok m -> mem_ok (for_pages first last body m).
Proof.
  intros Hb Hok. apply for_pages_inv. intros p m' Hp _ Hm. apply (mem_ok_on_page p); auto.
Qed.

Lemma fold_pages_other (body : Z -> mem -> mem) q l m :
  (forall p, on_page p (body p)) -> q ∉ l ->
  page_view (fold_left (fun m p => body p m) l m) q = page_view m q.
Proof.
  intros Hb. revert m. induction l as [|p l IH]; intros m Hq; [done|]. cbn [fold_left].
  rewrite IH by set_solver. apply Hb. set_solver.
Qed.
(** Each page is visited once: the page's view after the loop is what its
    own iteration made of it. *)
Lemma for_pages_view first last body m q :
  (forall p, on_page p (body p)) ->
  exists m', frame m m' /\ page_view m' q = page_view m q /\
    page_view (for_pages first last body m) q =
      (if decide (first <= q < last /\ q < page_count m) then page_view (body q m') q
       else page_view m q).
Proof.
  intros Hb. unfold for_pages. set (n := Z.min last (page_count m) - first).
  case_decide as Hq.
  - exists (fold_left (fun m p => body p m) (seqZ first (q - first)) m).
    assert (seqZ first n = seqZ first (q - first) ++ q :: seqZ (q + 1) (n - (q - first) - 1)) as ->.
    { replace n with ((q - first) + (n - (q - first))) by lia. rewrite seqZ_app by lia. f_equal.
      rewrite seqZ_cons by lia. f_equal; [lia|f_equal; lia]. }
    rewrite fold_left_app. cbn [fold_left].
    split; [|split].
    + generalize (seqZ first (q - first)) as l. intros l. clear Hq n. revert m. induction l as [|p l IH]; intros m; [done|].
      cbn [fold_left]. etrans; [apply (Hb p)|apply IH].
    + apply fold_pages_other; [done|]. rewrite seqZ_in. lia.
    + apply fold_pages_other; [done|]. rewrite seqZ_in. lia.
  - exists m. split; [done|]. split; [done|]. apply fold_pages_other; [done|]. rewrite seqZ_in. lia.
Qed.

(** ** Operations on one page *)
Lemma pe_put p pe m q : pe_at (put_page p pe m) q = if decide (p = q) then pe else pe_at m q.
Proof.
  unfold pe_at, put_page. cbn [page_table set_page_table mem_eta].
  case_decide as E; [subst; by rewrite lookup_insert_eq|by rewrite lookup_insert_ne].
Qed.
Lemma pe_set_layout l m q : pe_at (set_layout l m) q = pe_at m q.
Proof. done. Qed.
Lemma pe_set_soa t m q : pe_at (set_soa t m) q = pe_at m q.
Proof. done. Qed.
Lemma logpoints_put p n m q :
  logpoints_at (set_logpoint_count (<[p := n]> (logpoint_count (hooks m))) m) q =
  if decide (p = q) then n else logpoints_at m q.
Proof.
  unfold logpoints_at, set_logpoint_count. cbn [hooks set_hooks mem_eta logpoint_count].
  case_decide as E; [subst; by rewrite lookup_insert_eq|by rewrite lookup_insert_ne].
Qed.
(** The view after the writes that the operations are made of. *)
Lemma view_put_page p pe m q : page_view (put_page p pe m) q =
  (if decide (p = q) then pe else (page_view m q).1.1, (page_view m q).1.2, (page_view m q).2).
Proof. unfold page_view. by rewrite pe_put. Qed.
Lemma view_put_soa p v w m q : page_view (set_soa (put_soa p v w (soa m)) m) q =
  if decide (p = q) then
    ((page_view m q).1, (v, v, if w then v else soa_at (supervisor_write (soa m)) q,
                         if w then v else soa_at (user_write (soa m)) q))
  else page_view m q.
Proof.
  unfold page_view, pe_at, logpoints_at.
  cbn [hooks page_table soa set_soa mem_eta put_soa supervisor_read user_read supervisor_write user_write].
  destruct w; rewrite !soa_put; by destruct (decide (p = q)).
Qed.
Lemma view_put_count p n m q :
  page_view (set_logpoint_count (<[p := n]> (logpoint_count (hooks m))) m) q =
  ((page_view m q).1.1, if decide (p = q) then n else (page_view m q).1.2, (page_view m q).2).
Proof. unfold page_view. by rewrite logpoints_put. Qed.

Lemma view_put_page_ne p pe m q : p <> q -> page_view (put_page p pe m) q = page_view m q.
Proof. intros Hne. rewrite view_put_page, decide_False by done. done. Qed.
Lemma view_put_soa_ne p v w m q : p <> q -> page_view (set_soa (put_soa p v w (soa m)) m) q = page_view m q.
Proof. intros Hne. by rewrite view_put_soa, decide_False. Qed.
Lemma view_put_count_ne p n m q : p <> q ->
  page_view (set_logpoint_count (<[p := n]> (logpoint_count (hooks m))) m) q = page_view m q.
Proof. intros Hne. rewrite view_put_count, decide_False by done. done. Qed.

Lemma on_page_comp p f g : on_page p f -> on_page p g -> on_page p (fun m => g (f m)).
Proof.
  intros Hf Hg m. destruct (Hf m) as [F1 V1], (Hg (f m)) as [F2 V2]. split; [by etrans|].
  intros q Hq. by rewrite V2, V1.
Qed.
Lemma on_page_id p : on_page p (fun m => m).
Proof. done. Qed.
Lemma on_put_page p (pe : mem -> page_entry) : on_page p (fun m => put_page p (pe m) m).
Proof. intros m. split; [done|]. intros q Hq. by apply view_put_page_ne. Qed.
Lemma on_put_soa p v w : on_page p (fun m => set_soa (put_soa p v w (soa m)) m).
Proof. intros m. split; [done|]. intros q Hq. by apply view_put_soa_ne. Qed.
Lemma on_put_count p (n : mem -> Z) :
  on_page p (fun m => set_logpoint_count (<[p := n m]> (logpoint_count (hooks m))) m).
Proof. intros m. split; [done|]. intros q Hq. by apply view_put_count_ne. Qed.
Lemma on_rebuild p : on_page p (rebuild_soa_page p).
Proof.
  intros m. unfold rebuild_soa_page.
  destruct (page_count m <=? p); [done|]. destruct (mmu_on m); [done|].
  destruct (_ || _); [done|]. destruct (truthy _); [done|]. split.
  - split; [done..|]. unfold plain. cbn. by rewrite track_lisa, track_enabled.
  - intros q Hq. by rewrite (view_put_soa_ne p _ _ (set_mmu _ m) q).
Qed.
Lemma on_if p (c : mem -> bool) f : on_page p f -> on_page p (fun m => if c m then f m else m).
Proof. intros Hf m. destruct (c m); [apply Hf|done]. Qed.

Lemma on_install p : on_page p (logpoint_install_page p).
Proof.
  apply (on_page_comp p (fun m => if logpoints_at m p <? 0xFF then
    set_logpoint_count (<[p := logpoints_at m p + 1]> (logpoint_count (hooks m))) m else m)
    (fun m => set_soa (put_soa p 0 true (soa m)) m)).
  - apply on_if, (on_put_count p (fun m => logpoints_at m p + 1)).
  - apply on_put_soa.
Qed.
Lemma on_uninstall p : on_page p (logpoint_uninstall_page p).
Proof.
  apply (on_page_comp p (fun m => if truthy (logpoints_at m p) then
    set_logpoint_count (<[p := logpoints_at m p - 1]> (logpoint_count (hooks m))) m else m)
    (fun m => if logpoints_at m p =? 0 then rebuild_soa_page p m else m)).
  - apply on_if, (on_put_count p (fun m => logpoints_at m p - 1)).
  - apply on_if, on_rebuild.
Qed.
Lemma on_add p (pe : page_entry) : on_page p (fun m =>
  let m := put_page p pe m in set_soa (put_soa p 0 true (soa m)) m).
Proof.
  apply (on_page_comp p (put_page p pe) (fun m => set_soa (put_soa p 0 true (soa m)) m)).
  - apply (on_put_page p (fun _ => pe)).
  - apply on_put_soa.
Qed.
Lemma on_put_host p h w : on_page p (put_host_page p h w).
Proof.
  apply (on_page_comp p (fun m => put_page p (mk_pe h None 0 (base_addr (pe_at m p)) w) m)
    (fun m => set_soa (put_soa p (adjusted h p) w (soa m)) m)).
  - apply (on_put_page p (fun m => mk_pe h None 0 (base_addr (pe_at m p)) w)).
  - apply on_put_soa.
Qed.

(** ** The invariant *)

(** A page whose entries are all empty is in order. *)
Lemma page_ok_empty m p : (page_view m p).2 = (0, 0, 0, 0) ->
  backed m p = false \/ (0 < host_base (pe_at m p) /\ host_base (pe_at m p) + 4096 <= 2 ^ 64) ->
  page_ok m p.
Proof. intros [= E1 E2 E3 E4] Hh. unfold page_ok, write_entry_ok, entry_ok. rewrite E1, E2, E3, E4. tauto. Qed.
Lemma page_ok_host m p : page_ok m p ->
  backed m p = false \/ (0 < host_base (pe_at m p) /\ host_base (pe_at m p) + 4096 <= 2 ^ 64).
Proof. by intros (_ & _ & ?). Qed.
(** Pages that are not backed, or have a logpoint, have no entries. *)
Lemma page_ok_no_entries m p : page_ok m p -> backed m p = false \/ logpoints_at m p <> 0 ->
  (page_view m p).2 = (0, 0, 0, 0).
Proof.
  intros (([E1|E1] & [E2|E2]) & ([[E3|E3] _] & [[E4|E4] _]) & _) Hn; [|exfalso; intuition congruence..].
  unfold page_view. cbn [fst snd]. by rewrite E1, E2, E3, E4.
Qed.

Lemma install_ok p m : page_ok m p -> page_ok (logpoint_install_page p m) p.
Proof.
  intros Hok%page_ok_host. apply page_ok_empty.
  - unfold logpoint_install_page. by rewrite view_put_soa, decide_True.
  - by unfold logpoint_install_page; destruct (_ <? _).
Qed.
Lemma uninstall_ok p m : page_ok m p -> page_ok (logpoint_uninstall_page p m) p.
Proof.
  intros Hok. unfold logpoint_uninstall_page. set (m1 := if truthy _ then _ else m).
  assert (page_ok m1 p) as Hok1.
  { unfold m1. destruct (truthy (logpoints_at m p)) eqn:E; [|done].
    apply page_ok_empty; [|exact (page_ok_host _ _ Hok)]. rewrite view_put_count. cbn [snd].
    apply page_ok_no_entries; [done|]. right. by apply negb_true_iff, Z.eqb_neq in E. }
  destruct (logpoints_at m1 p =? 0); [|done]. by apply (q_ok _ _ _ (quiet_rebuild p m1 Hok1)).
Qed.

Lemma memory_logpoint_install_ok a b m : mem_ok m -> mem_ok (memory_logpoint_install a b m).
Proof. apply for_pages_ok; [apply on_install|]. intros p m' _ [_ Hp]. by apply install_ok. Qed.
Lemma memory_logpoint_uninstall_ok a b m : mem_ok m -> mem_ok (memory_logpoint_uninstall a b m).
Proof. apply for_pages_ok; [apply on_uninstall|]. intros p m' _ [_ Hp]. by apply uninstall_ok. Qed.

Lemma for_pages_phys_ok a b (c : mem -> Z -> bool) n m : mem_ok m ->
  mem_ok (for_pages a b (fun p m => if c m p then
    set_logpoint_phys_count (<[p := n m p]> (logpoint_phys_count (hooks m))) m else m) m).
Proof. apply for_pages_inv. intros p m' _ _ Hm. by destruct (c m' p). Qed.
Lemma memory_logpoint_install_phys_ok a b m : mem_ok m -> mem_ok (memory_logpoint_install_phys a b m).
Proof.
  intros [Hs Hp]%(for_pages_phys_ok a (b + 1) (fun m p => phys_logpoints_at m p <? 0xFF)
    (fun m p => phys_logpoints_at m p + 1)).
  split; [done|]. intros p. apply page_ok_empty; [|apply (page_ok_host _ _ (Hp p))].
  unfold page_view, soa_at. cbn. by rewrite !lookup_empty.
Qed.
Lemma memory_logpoint_uninstall_phys_ok a b m : mem_ok m -> mem_ok (memory_logpoint_uninstall_phys a b m).
Proof.
  apply (for_pages_phys_ok a (b + 1) (fun m p => truthy (phys_logpoints_at m p))
    (fun m p => phys_logpoints_at m p - 1)).
Qed.

Lemma memory_map_add_ok addr sz iface device m : mem_ok m -> mem_ok (memory_map_add addr sz iface device m).
Proof.
  intros Hm. apply for_pages_ok; [intros p; apply on_add| |done].
  intros p m' _ _. apply page_ok_empty.
  - by rewrite view_put_soa, decide_True.
  - left. unfold backed.
    by rewrite pe_set_soa, pe_put, decide_True.
Qed.
Lemma memory_map_remove_ok addr device m : mem_ok m -> mem_ok (memory_map_remove addr device m).
Proof.
  intros Hm. unfold memory_map_remove. destruct (unlink _ _ _) as [[x rest]|]; [|done].
  change (mem_ok (clear_page_table_for_mapping (map_addr x) (map_size x) (map_id x) m)).
  unfold clear_page_table_for_mapping. destruct (_ =? 0); [done|].
  revert Hm. apply for_pages_inv. intros p m' _ _ Hm.
  destruct (dev (pe_at m' p)) as [r|] eqn:Ed; [|done]. destruct (_ =? _); [|done].
  apply (mem_ok_on_page p); [apply (on_put_page p (fun _ => empty_page))|done|].
  apply page_ok_empty; [|left; unfold backed; by rewrite pe_put, decide_True].
  rewrite view_put_page. cbn [snd]. apply page_ok_no_entries; [apply Hm|]. left.
  unfold backed. by rewrite Ed, andb_false_r.
Qed.
End Map.
