(* ===== verification/MemoryLayout.v ===== *)
(** * RAM, ROM and their mirrors

    What memory_populate_pages, memory_populate_ram_mirror and the Macintosh
    Plus' memory layout (plus.c) map each guest address to. *)
From S2P Require Import Prelude Bus Memory MemoryBus MemoryProofs MemoryMap.

Definition PLUS_ROM_START : Z := 0x400000.
Definition PLUS_ROM_END : Z := 0x580000.

(** plus_memory_layout_init; [phase_read] is the interface of the Phase Read
    device, whose context is NULL. *)
Definition plus_memory_layout_init {D T} (phase_read : Z) (m : mem_t D T) : mem_t D T :=
  let m := memory_populate_pages PLUS_ROM_START PLUS_ROM_END m in
  let m := if ram_size (layout m) <? PLUS_ROM_START
           then memory_populate_ram_mirror (ram_size (layout m)) PLUS_ROM_START m else m in
  memory_map_add 0x00F00000 0x00080000 phase_read 0 m.

Section Layout.
Context {D T : Type} `{Devices D} `{Mmu D T} `{!MmuLaws D T}.
#[local] Abbreviation mem := (mem_t D T).
Implicit Types m : mem.

(** ** One host-backed page *)
Definition host_view (p h : Z) (w : bool) (v : page_entry * Z * (Z * Z * Z * Z)) :
    page_entry * Z * (Z * Z * Z * Z) :=
  let a := adjusted h p in
  (mk_pe h None 0 (base_addr v.1.1) w, v.1.2, (a, a, if w then a else v.2.1.2, if w then a else v.2.2)).
Lemma view_put_host p h w m : page_view (put_host_page p h w m) p = host_view p h w (page_view m p).
Proof. unfold put_host_page. rewrite view_put_soa, view_put_page, !decide_True by done. done. Qed.

(** A page view in order, and a page with nothing installed. *)
Definition view_ok (p : Z) (v : page_entry * Z * (Z * Z * Z * Z)) : Prop :=
  forall m, page_view m p = v -> page_ok m p.
Definition view_empty : page_entry * Z * (Z * Z * Z * Z) := (empty_page, 0, (0, 0, 0, 0)).
Lemma view_ok_empty p : view_ok p view_empty.
Proof.
  intros m E. apply page_ok_empty; [by rewrite E|]. left. injection E as E _ _ _ _ _.
  unfold backed. by rewrite E.
Qed.
Lemma view_ok_host p h w v : 0 < h -> h + 4096 <= 2 ^ 64 -> v.1.2 = 0 ->
  w = true \/ (v.2.1.2 = 0 /\ v.2.2 = 0) -> view_ok p (host_view p h w v).
Proof.
  intros Hh1 Hh2 Hl Hw m. unfold host_view. rewrite Hl. intros [= E1 E2 E3 E4 E5 E6].
  assert (backed m p = true) as Hb.
  { unfold backed. rewrite E1. cbn [host_base dev]. zbool; [lia|done]. }
  assert (entry_ok m p (adjusted h p)) as He.
  { right. rewrite E1, E2. by split. }
  unfold page_ok, write_entry_ok. rewrite E3, E4, E5, E6. split; [done|]. split; [|right; by rewrite E1].
  destruct w.
  - rewrite E1. cbn [writable]. auto.
  - destruct Hw as [?|[-> ->]]; [done|]. split; split; by left.
Qed.

(** ** The loops *)
Lemma view_pages_host first last (h : Z -> Z) w m q :
  page_view (for_pages first last (fun p => put_host_page p (h p) w) m) q =
  if decide (first <= q < last /\ q < page_count m) then host_view q (h q) w (page_view m q)
  else page_view m q.
Proof.
  destruct (for_pages_view first last (fun p => put_host_page p (h p) w) m q) as (m' & _ & E & ->).
  { intros p. apply on_put_host. }
  case_decide; [|done]. by rewrite view_put_host, E.
Qed.

Definition rom_body (start pages base : Z) (p : Z) (m : mem) : mem :=
  let offset_in_cycle := (p - start) mod (pages * 2) in
  if pages <=? offset_in_cycle then m
  else put_host_page p (base + Z.shiftl offset_in_cycle PAGE_SHIFT) false m.
Lemma view_pages_rom start last pages base m q :
  page_view (for_pages start last (rom_body start pages base) m) q =
  if decide (start <= q < last /\ q < page_count m /\ (q - start) mod (pages * 2) < pages)
  then host_view q (base + Z.shiftl ((q - start) mod (pages * 2)) PAGE_SHIFT) false (page_view m q)
  else page_view m q.
Proof.
  destruct (for_pages_view start last (rom_body start pages base) m q) as (m' & _ & E & ->).
  { intros p m'. unfold rom_body. destruct (_ <=? _); [done|apply on_put_host]. }
  unfold rom_body. repeat case_decide; try (exfalso; tauto); zbool; try lia; try done.
  by rewrite view_put_host, E.
Qed.

Lemma for_pages_layout first last body m : (forall p m', layout (body p m') = layout m') ->
  layout (for_pages first last body m) = layout m.
Proof.
  intros Hb. apply (for_pages_inv (fun m' => layout m' = layout m)); [|done].
  intros p m' _ _ E. by rewrite Hb.
Qed.
Lemma for_pages_hooks first last body m : (forall p m', hooks (body p m') = hooks m') ->
  hooks (for_pages first last body m) = hooks m.
Proof.
  intros Hb. apply (for_pages_inv (fun m' => hooks m' = hooks m)); [|done].
  intros p m' _ _ E. by rewrite Hb.
Qed.

(** ** The whole layout *)
Lemma view_populate rs re m q : let l := layout m in
  let v := if decide (0 <= q < Z.shiftr (ram_size l) PAGE_SHIFT /\ q < page_count m)
           then host_view q (image l + Z.shiftl q PAGE_SHIFT) true (page_view m q) else page_view m q in
  let pages := Z.shiftr (rom_size l) PAGE_SHIFT in
  let o := (q - first_page rs m) mod (pages * 2) in
  page_view (memory_populate_pages rs re m) q =
  if decide (pages <> 0 /\ first_page rs m <= q < first_page re m /\ q < page_count m /\ o < pages)
  then host_view q (image l + ram_size l + Z.shiftl o PAGE_SHIFT) false v else v.
Proof.
  intros l v pages o. unfold memory_populate_pages.
  set (m1 := for_pages 0 _ _ m). assert (frame m m1) as [Em Ec _].
  { apply for_pages_frame. intros p. apply on_put_host. }
  unfold first_page. rewrite Em. fold (first_page rs m) (first_page re m) pages.
  assert (page_view m1 q = v) as Ev by apply view_pages_host.
  zbool; [by rewrite decide_False by tauto|].
  pose proof (view_pages_rom (first_page rs m) (first_page re m) pages (image l + ram_size l) m1 q) as E.
  etrans; [exact E|]. rewrite Ec, Ev. fold o. repeat case_decide; tauto || done.
Qed.

Lemma view_ram_mirror a b m q : let l := layout m in
  page_view (memory_populate_ram_mirror a b m) q =
  if decide (ram_size l <> 0 /\ a < b /\ first_page a m <= q < first_page b m /\ q < page_count m)
  then host_view q (image l + Z.shiftl q PAGE_SHIFT mod ram_size l) true (page_view m q)
  else page_view m q.
Proof.
  intros l. unfold memory_populate_ram_mirror. fold l. destruct (_ || _) eqn:E.
  { apply orb_true_iff in E. rewrite Z.eqb_eq, Z.leb_le in E. by rewrite decide_False by lia. }
  apply orb_false_iff in E. rewrite Z.eqb_neq, Z.leb_gt in E.
  rewrite (view_pages_host _ _ (fun p => image l + Z.shiftl p PAGE_SHIFT mod ram_size l)).
  repeat case_decide; tauto || done.
Qed.

Lemma view_map_add addr sz iface device m q :
  page_view (memory_map_add addr sz iface device m) q =
  if decide (first_page addr m <= q <= last_page addr sz m /\ q < page_count m)
  then (mk_pe 0 (Some (mk_dev (next_id (layout m)) iface)) device addr false, logpoints_at m q, (0, 0, 0, 0))
  else page_view m q.
Proof.
  unfold memory_map_add.
  match goal with |- page_view (for_pages ?a ?b ?f ?m') q =_ =>
    destruct (for_pages_view a b f m' q) as (m1 & _ & E & ->); [intros p; apply on_add|] end.
  repeat case_decide; try (exfalso; unfold first_page, last_page in *; cbn in *; lia); try done.
  rewrite view_put_soa, view_put_page, !decide_True by done. unfold page_view in *. by injection E as _ -> _ _ _ _.
Qed.

Lemma populate_layout rs re m : layout (memory_populate_pages rs re m) = layout m.
Proof.
  unfold memory_populate_pages. cbv zeta. destruct (_ =? 0).
  - by apply for_pages_layout.
  - rewrite for_pages_layout; [by apply for_pages_layout|]. intros p m'. by destruct (_ <=? _).
Qed.
Lemma ram_mirror_layout a b m : layout (memory_populate_ram_mirror a b m) = layout m.
Proof. unfold memory_populate_ram_mirror. destruct (_ || _); [done|by apply for_pages_layout]. Qed.

Lemma populate_frame rs re m : frame m (memory_populate_pages rs re m).
Proof.
  unfold memory_populate_pages. cbv zeta.
  assert (forall m', frame m' (for_pages 0 (Z.shiftr (ram_size (layout m)) PAGE_SHIFT)
    (fun p => put_host_page p (image (layout m) + Z.shiftl p PAGE_SHIFT) true) m')) as Hr.
  { intros m'. apply for_pages_frame. intros p. apply on_put_host. }
  destruct (_ =? 0); [done|]. etrans; [apply Hr|]. apply for_pages_frame. intros p m'.
  destruct (_ <=? _); [done|apply on_put_host].
Qed.
Lemma ram_mirror_frame a b m : frame m (memory_populate_ram_mirror a b m).
Proof.
  unfold memory_populate_ram_mirror. destruct (_ || _); [done|]. apply for_pages_frame.
  intros p. apply on_put_host.
Qed.
Lemma map_add_frame addr sz iface device m : frame m (memory_map_add addr sz iface device m).
Proof.
  unfold memory_map_add. match goal with |- frame _ (for_pages _ _ _ ?m') => trans m'; [done|] end.
  apply for_pages_frame. intros p. apply on_add.
Qed.

Lemma view_init bits ram rom img d t q : page_view (memory_map_init bits ram rom img d t : mem) q = view_empty.
Proof.
  unfold page_view, pe_at, logpoints_at, soa_at, memory_map_init. cbn. by rewrite !lookup_empty.
Qed.

(** Cutting a guest address into pages and cutting it into copies of a
    whole number of pages. *)
Lemma mod_pages a n off : 0 < n -> 0 <= off < 4096 ->
  (a * 4096 + off) mod (n * 4096) = a mod n * 4096 + off.
Proof.
  intros Hn Ho. symmetry. apply (Z.mod_unique _ _ (a / n)).
  - pose proof (Z.mod_pos_bound a n Hn). left. nia.
  - pose proof (Z.div_mod a n ltac:(lia)). nia.
Qed.
End Layout.

(** ** The Macintosh Plus *)
Section Plus.
Context {D T : Type} `{Devices D} `{Mmu D T} `{!MmuLaws D T}.
Context (ram_pages rom_pages img phase_read : Z) (d : D) (t : T).
Context (Hram : 0 < ram_pages <= 0x400) (Hrom : 0 < rom_pages)
  (Himg : 0 < img /\ img + (ram_pages + rom_pages) * 4096 <= 2 ^ 64).

Definition plus_start : mem_t D T := memory_map_init 24 (ram_pages * 4096) (rom_pages * 4096) img d t.
Definition plus_map : mem_t D T := plus_memory_layout_init phase_read plus_start.

Lemma pages_shiftr n : Z.shiftr (n * 4096) PAGE_SHIFT = n.
Proof. rewrite Z.shiftr_div_pow2 by done. apply Z.div_mul. done. Qed.
Lemma pages_shiftl n : Z.shiftl n PAGE_SHIFT = n * 4096.
Proof. by rewrite Z.shiftl_mul_pow2. Qed.
Lemma first_page_24 n m : address_mask m = 0xFFFFFF -> 0 <= n < 4096 -> @first_page D T (n * 4096) m = n.
Proof.
  intros E Hn. unfold first_page. rewrite E. rewrite (land_ones_mod _ 24) by done.
  rewrite page_of_div, Z.mod_small by lia. apply Z.div_mul. done.
Qed.

Lemma plus_view q : page_view plus_map q =
  if decide (0 <= q < 0x400) then host_view q (img + q * 4096 mod (ram_pages * 4096)) true view_empty
  else if decide (0x400 <= q < 0x580 /\ (q - 0x400) mod (rom_pages * 2) < rom_pages)
  then host_view q (img + ram_pages * 4096 + (q - 0x400) mod (rom_pages * 2) * 4096) false view_empty
  else if decide (0xF00 <= q <= 0xF7F) then (mk_pe 0 (Some (mk_dev 0 phase_read)) 0 0xF00000 false, 0, (0, 0, 0, 0))
  else view_empty.
Proof.
  unfold plus_map, plus_memory_layout_init. set (m1 := memory_populate_pages _ _ plus_start).
  destruct (populate_frame PLUS_ROM_START PLUS_ROM_END plus_start) as [Em1 Ec1 _]. fold m1 in Em1, Ec1.
  assert (layout m1 = layout plus_start) as El1 by apply populate_layout.
  assert (page_view m1 q = if decide (0 <= q < ram_pages) then host_view q (img + q * 4096) true view_empty
    else if decide (0x400 <= q < 0x580 /\ (q - 0x400) mod (rom_pages * 2) < rom_pages)
    then host_view q (img + ram_pages * 4096 + (q - 0x400) mod (rom_pages * 2) * 4096) false view_empty
    else view_empty) as Ev1.
  { unfold m1. rewrite view_populate. cbn [layout plus_start memory_map_init image ram_size rom_size].
    change (first_page PLUS_ROM_START plus_start) with 0x400.
    change (first_page PLUS_ROM_END plus_start) with 0x580.
    change (page_count plus_start) with 4096. rewrite (view_init _ _ _ _ _ _ q : page_view plus_start q = _).
    rewrite !pages_shiftr, !pages_shiftl.
    generalize ((q - 1024) mod (rom_pages * 2)) as o. intros o. by repeat case_decide; try lia. }
  match goal with |- context [memory_map_add _ _ _ _ ?x] => set (m2 := x) end.
  assert (frame m1 m2 /\ layout m2 = layout m1) as [[Em2 Ec2 _] El2].
  { unfold m2. destruct (_ <? _); [|done]. split; [apply ram_mirror_frame|apply ram_mirror_layout]. }
  assert (page_view m2 q = if decide (0 <= q < 0x400) then
      host_view q (img + q * 4096 mod (ram_pages * 4096)) true view_empty else page_view m1 q) as Ev2.
  { unfold m2. rewrite El1. cbn [layout plus_start memory_map_init ram_size].
    assert (0 <= q < ram_pages -> q * 4096 mod (ram_pages * 4096) = q * 4096) as Hsm.
    { intros. apply Z.mod_small. lia. }
    unfold PLUS_ROM_START. destruct (Z.ltb_spec (ram_pages * 4096) 0x400000).
    - rewrite view_ram_mirror, El1, Ec1, Ev1.
      rewrite (first_page_24 ram_pages) by (lia || by rewrite Em1).
      rewrite (first_page_24 0x400 m1 : _ -> _ -> first_page 0x400000 m1 = 0x400) by (lia || by rewrite Em1).
      change (page_count plus_start) with 4096.
      cbn [layout plus_start memory_map_init image ram_size]. rewrite pages_shiftl.
      repeat case_decide; try lia; try done; by rewrite Hsm.
    - rewrite Ev1. repeat case_decide; try lia; try done; by rewrite Hsm. }
  rewrite view_map_add, El2, El1, Ec2, Ec1, Ev2, Ev1.
  assert (first_page 0xF00000 m2 = 0xF00 /\ last_page 0xF00000 0x80000 m2 = 0xF7F) as [-> ->].
  { unfold first_page, last_page. rewrite Em2, Em1. done. }
  assert (logpoints_at m2 q = 0) as ->.
  { change ((page_view m2 q).1.2 = 0). rewrite Ev2, Ev1. by repeat case_decide. }
  change (page_count plus_start) with 4096. repeat case_decide; try lia; done.
Qed.

Lemma plus_ok : mem_ok plus_map.
Proof.
  assert (frame plus_start plus_map) as Hf.
  { unfold plus_map, plus_memory_layout_init. etrans; [apply populate_frame|].
    etrans; [|apply map_add_frame]. destruct (_ <? _); [apply ram_mirror_frame|done]. }
  split; [eapply frame_space; [exact Hf|by left]|]. intros q.
  assert (@view_ok D T q (page_view plus_map q)) as Hok; [|by apply Hok].
  assert (0 <= q * 4096 mod (ram_pages * 4096) <= (ram_pages - 1) * 4096) as Hmod.
  { replace (q * 4096) with (q * 4096 + 0) by lia. rewrite mod_pages by lia.
    pose proof (Z.mod_pos_bound q ram_pages). lia. }
  assert (0 <= (q - 0x400) mod (rom_pages * 2)) by (apply Z.mod_pos_bound; lia).
  rewrite plus_view. case_decide; [|case_decide; [|case_decide]].
  - apply view_ok_host; [lia..|done|by left].
  - apply view_ok_host; [lia..|done|by right].
  - intros m E. apply page_ok_empty; [by rewrite E|]. left.
    injection E as E _ _ _ _ _. unfold backed. by rewrite E.
  - apply view_ok_empty.
Qed.

Lemma plus_pe q : pe_at plus_map q =
  if decide (0 <= q < 0x400) then mk_pe (img + q * 4096 mod (ram_pages * 4096)) None 0 0 true
  else if decide (0x400 <= q < 0x580 /\ (q - 0x400) mod (rom_pages * 2) < rom_pages)
  then mk_pe (img + ram_pages * 4096 + (q - 0x400) mod (rom_pages * 2) * 4096) None 0 0 false
  else if decide (0xF00 <= q <= 0xF7F) then mk_pe 0 (Some (mk_dev 0 phase_read)) 0 0xF00000 false
  else empty_page.
Proof. trans (page_view plus_map q).1.1; [done|]. rewrite plus_view. by repeat case_decide. Qed.

(** What the Plus decodes at each address of its 24-bit space. *)
Definition plus_region m (x : Z) : Prop :=
  if x <? 0x400000 then
    backed m (page_of x) = true /\ writable (pe_at m (page_of x)) = true /\
    host_of m x = img + x mod (ram_pages * 4096)
  else if (x <? 0x580000) && ((x - 0x400000) mod (2 * (rom_pages * 4096)) <? rom_pages * 4096) then
    backed m (page_of x) = true /\ writable (pe_at m (page_of x)) = false /\
    host_of m x = img + ram_pages * 4096 + (x - 0x400000) mod (2 * (rom_pages * 4096))
  else if (0xF00000 <=? x) && (x <? 0xF80000) then
    dev (pe_at m (page_of x)) = Some (mk_dev 0 phase_read) /\ base_addr (pe_at m (page_of x)) = 0xF00000
  else @pe_at D T m (page_of x) = empty_page.

Lemma plus_regions x : 0 <= x < 0x1000000 -> plus_region plus_map x.
Proof.
  intros Hx.
  assert (x = page_of x * 4096 + offset_of x /\ 0 <= offset_of x < 4096) as [Ex Ho].
  { rewrite page_of_div, offset_of_mod. dlia. }
  unfold plus_region, host_of, backed. rewrite plus_pe.
  generalize dependent (page_of x). intros q. generalize dependent (offset_of x). intros off Ho Ex.
  assert ((x - 0x400000) mod (2 * (rom_pages * 4096)) = (q - 0x400) mod (rom_pages * 2) * 4096 + off) as ->.
  { replace (2 * (rom_pages * 4096)) with (rom_pages * 2 * 4096) by lia.
    rewrite <-mod_pages by lia. f_equal. lia. }
  assert (x mod (ram_pages * 4096) = q * 4096 mod (ram_pages * 4096) + off) as ->.
  { rewrite Ex, mod_pages by lia. replace (q * 4096) with (q * 4096 + 0) by lia.
    rewrite mod_pages by lia. lia. }
  assert (0 <= q * 4096 mod (ram_pages * 4096)) as Hr by (apply Z.mod_pos_bound; lia).
  revert Hr. generalize (q * 4096 mod (ram_pages * 4096)) as r. intros r Hr.
  assert (0 <= (q - 0x400) mod (rom_pages * 2)) as Ho' by (apply Z.mod_pos_bound; lia).
  revert Ho'. generalize ((q - 0x400) mod (rom_pages * 2)) as o. intros o Ho'.
  repeat case_decide; cbn [host_base dev writable base_addr]; zprune; by rewrite ?Z.add_assoc.
Qed.

Lemma plus_mask : address_mask plus_map = 0xFFFFFF.
Proof.
  unfold plus_map, plus_memory_layout_init. rewrite (f_mask _ _ (map_add_frame _ _ _ _ _)).
  match goal with |- context [if ?c then ?a else ?b] => trans (address_mask b); [destruct c; [|done]|] end.
  - by rewrite (f_mask _ _ (ram_mirror_frame _ _ _)).
  - by rewrite (f_mask _ _ (populate_frame _ _ _)).
Qed.
(** The bytes of an operand in RAM or a mirror of it. *)
Lemma plus_ram s z i : 0 <= z -> z + bytes s <= 0x400000 -> 0 <= i < bytes s ->
  z mod (ram_pages * 4096) + bytes s <= ram_pages * 4096 ->
  backed plus_map (page_of (z + i)) = true /\ writable (pe_at plus_map (page_of (z + i))) = true /\
  host_of plus_map (z + i) = img + (z mod (ram_pages * 4096) + i).
Proof.
  intros Hz Hze Hi Hwrap. pose proof (plus_regions (z + i) ltac:(lia)) as Hr.
  unfold plus_region in Hr. rewrite (proj2 (Z.ltb_lt (z + i) 0x400000)) in Hr by lia.
  destruct Hr as (? & ? & ->). split_and!; [done..|]. f_equal.
  pose proof (Z.mod_pos_bound z (ram_pages * 4096) ltac:(lia)).
  symmetry. apply (Z.mod_unique _ _ (z / (ram_pages * 4096))); [lia|].
  pose proof (Z.div_mod z (ram_pages * 4096) ltac:(lia)). lia.
Qed.
End Plus.

(** The Macintosh Plus memory layout: after plus_memory_layout_init on a
    fresh 24-bit map with up to 4 MB of RAM, every address below $400000 is RAM
    (mirrored modulo the installed size), $400000-$57FFFF is ROM repeating with
    period twice its size and unmapped in between, $F00000-$F7FFFF is the Phase
    Read device, nothing else is mapped, and the SoA arrays agree with it. *)
Theorem plus_layout {D T} `{Devices D} `{Mmu D T} `{!MmuLaws D T} ram_pages rom_pages img phase_read (d : D) (t : T) :
  0 < ram_pages <= 0x400 -> 0 < rom_pages -> 0 < img -> img + (ram_pages + rom_pages) * 4096 <= 2 ^ 64 ->
  let m := plus_map ram_pages rom_pages img phase_read d t in
  mem_ok m /\ forall x, 0 <= x < 0x1000000 -> plus_region ram_pages rom_pages img phase_read m x.
Proof. intros ? ? ? ? m. split; [by apply plus_ok|]. intros x Hx. by apply plus_regions. Qed.

Lemma plus_layout_witness :
  let m := plus_map 0x100 0x20 0x10000 7 (mk_latch 0) tt in
  mem_ok m /\ host_of m 0x3FFC80 = 0x10000 + 0x0FFC80.
Proof.
  destruct (plus_layout 0x100 0x20 0x10000 7 (mk_latch 0) tt) as [Hok Hr]; [lia..|].
  split; [exact Hok|]. exact (proj2 (proj2 (Hr 0x3FFC80 ltac:(lia)))).
Defined.
