(* ===== verification/MemoryAccess.v ===== *)
(** * Accesses of any kind: devices, unmapped pages, logpoints

    What the accessors do with each kind of page while translation is off, and
    that the invariant of the memory map survives every access. *)
From S2P Require Import Prelude Bus Memory MemoryBus MemoryProofs MemoryMap MemoryLayout.

Section Access.
Context {D T : Type} `{Devices D} `{Mmu D T} `{!MmuLaws D T}.
#[local] Abbreviation mem := (mem_t D T).
Implicit Types m : mem.

(** ** The invariant survives accesses *)
Definition keeps m m' : Prop := frame m m' /\ (mem_ok m -> mem_ok m').
#[global] Instance keeps_preorder : PreOrder keeps.
Proof. split; [by split|]. intros ? ? ? [] []. split; [by etrans|auto]. Qed.
Lemma keeps_quiet h m m' : settled h m m' -> keeps m m'.
Proof.
  intros Hq. split; [split; apply Hq|]. intros [Hs Hp]. split; [by eapply settled_space|].
  intros p. by eapply q_ok.
Qed.
Lemma keeps_dev_read s r pe a m : keeps m (call_dev_read s r pe a m).2.
Proof. unfold call_dev_read. by destruct (dev_read _ _ _ _ _) as [[v pen] d]. Qed.
Lemma keeps_dev_write s r pe a v m : keeps m (call_dev_write s r pe a v m).
Proof. unfold call_dev_write. by destruct (dev_write _ _ _ _ _ _) as [pen d]. Qed.

(** The slow paths while translation is off. *)
Lemma read_slow_plain s split x m : plain m ->
  let m1 := count_slowpath m in
  let pe := pe_at m (page_of x) in
  read_slow s split x m =
  if in_page s x then
    if truthy (logpoints_at m (page_of x)) && negb (u64 (host_of m x) =? 0) && negb (host_base pe =? 0)
    then logged_read s x (u64 (host_of m x)) m1
    else if backed m (page_of x) && negb (truthy (logpoints_at m (page_of x))) then
      let m2 := rebuild_soa_page (page_of x) m1 in (LOAD_BE s (host_of m x) m2, m2)
    else match dev pe with Some r => call_dev_read s r pe x m1 | None => split m1 end
  else split m1.
Proof.
  intros Hp m1 pe. assert (plain m1) as Hp1 by done. unfold read_slow. fold m1.
  rewrite (proj1 Hp1), (logpoint_plain m1 x Hp1). unfold can_lazy_install, dispatch_device_at_logical, mmu_on.
  rewrite (proj2 Hp1). change (pe_at m1) with (pe_at m). change (logpoints_at m1) with (logpoints_at m).
  unfold backed, host_of. fold pe. cbn [negb andb].
  destruct (in_page s x); cbn [andb]; [|by destruct (dev pe)].
  destruct (truthy (logpoints_at m (page_of x))); cbn [andb negb].
  - rewrite andb_false_r. assert (0 <= u64 (host_base pe + offset_of x)) as Hu by (apply Z.mod_pos_bound; done).
    destruct (host_base pe =? 0); cbn [negb andb orb]; rewrite ?andb_false_r; [by destruct (dev pe)|].
    destruct (u64 _) eqn:Eu; cbn [negb andb]; [by destruct (dev pe)|done|lia].
  - rewrite andb_true_r. by destruct (host_base pe =? 0), (dev pe).
Qed.

Lemma write_slow_plain s split x v m : plain m ->
  let m1 := count_slowpath m in
  let pe := pe_at m (page_of x) in
  write_slow s split x v m =
  if in_page s x then
    if truthy (logpoints_at m (page_of x)) && negb (u64 (host_of m x) =? 0) && negb (host_base pe =? 0)
       && writable pe
    then logged_write s x (u64 (host_of m x)) v m1
    else if backed m (page_of x) && negb (truthy (logpoints_at m (page_of x))) then
      let m2 := rebuild_soa_page (page_of x) m1 in
      if writable pe then STORE_BE s (host_of m x) v m2 else m2
    else match dev pe with Some r => call_dev_write s r pe x v m1 | None => split m1 end
  else split m1.
Proof.
  intros Hp m1 pe. assert (plain m1) as Hp1 by done. unfold write_slow. fold m1.
  rewrite (proj1 Hp1), (logpoint_plain m1 x Hp1). unfold can_lazy_install, dispatch_device_at_logical, mmu_on.
  rewrite (proj2 Hp1). change (pe_at m1) with (pe_at m). change (logpoints_at m1) with (logpoints_at m).
  unfold backed, host_of. fold pe. cbn [negb andb].
  destruct (in_page s x); cbn [andb]; [|by destruct (dev pe)].
  destruct (truthy (logpoints_at m (page_of x))); cbn [andb negb].
  - rewrite andb_false_r. assert (0 <= u64 (host_base pe + offset_of x)) as Hu by (apply Z.mod_pos_bound; done).
    destruct (host_base pe =? 0); cbn [negb andb orb]; rewrite ?andb_false_r; [by destruct (dev pe)|].
    destruct (u64 _) eqn:Eu; cbn [negb andb]; [by destruct (dev pe)| |lia].
    destruct (writable pe); [done|by destruct (dev pe)].
  - rewrite andb_true_r. by destruct (host_base pe =? 0), (dev pe).
Qed.

Lemma read_slow_keeps s split x m : plain m -> mem_ok m ->
  (forall m', keeps m m' -> keeps m' (split m').2) -> keeps m (read_slow s split x m).2.
Proof.
  intros Hp Hm Hsplit. rewrite (read_slow_plain s split x m Hp).
  pose proof (keeps_quiet _ _ _ (quiet_count m)) as Hk. pose proof (proj2 Hk Hm) as Hm1. cbv zeta.
  destruct (in_page s x); [|by etrans; [|apply Hsplit]].
  destruct (_ && _ && _); [etrans; [exact Hk|eapply keeps_quiet, quiet_hook]|].
  destruct (_ && _).
  - etrans; [exact Hk|]. apply (keeps_quiet _ _ _ (quiet_rebuild _ _ (proj2 Hm1 _))).
  - destruct (dev _); [etrans; [exact Hk|apply keeps_dev_read]|by etrans; [|apply Hsplit]].
Qed.
Lemma write_slow_keeps s split x v m : plain m -> mem_ok m ->
  (forall m', keeps m m' -> keeps m' (split m')) -> keeps m (write_slow s split x v m).
Proof.
  intros Hp Hm Hsplit. rewrite (write_slow_plain s split x v m Hp).
  pose proof (keeps_quiet _ _ _ (quiet_count m)) as Hk. pose proof (proj2 Hk Hm) as Hm1. cbv zeta.
  destruct (in_page s x); [|by etrans; [|apply Hsplit]].
  destruct (_ && _ && _ && _).
  - etrans; [exact Hk|]. transitivity (STORE_BE s (u64 (host_of m x)) v (count_slowpath m)).
    + eapply keeps_quiet, settled_STORE.
    + eapply keeps_quiet, quiet_hook.
  - destruct (_ && _).
    + etrans; [exact Hk|]. etrans; [exact (keeps_quiet _ _ _ (quiet_rebuild (page_of x) _ (proj2 Hm1 _)))|].
      destruct (writable _); [eapply keeps_quiet, settled_STORE|done].
    + destruct (dev _); [etrans; [exact Hk|apply keeps_dev_write]|by etrans; [|apply Hsplit]].
Qed.

Lemma fast_read_keeps s split x m : plain m -> mem_ok m ->
  (forall y m', keeps m m' -> keeps m' (split y m').2) -> keeps m (fast_read s split x m).2.
Proof.
  intros Hp Hm Hsplit. unfold fast_read. destruct (_ && _); [done|]. by apply read_slow_keeps; auto.
Qed.
Lemma fast_write_keeps s split x v m : plain m -> mem_ok m ->
  (forall y m', keeps m m' -> keeps m' (split y m')) -> keeps m (fast_write s split x v m).
Proof.
  intros Hp Hm Hsplit. unfold fast_write.
  match goal with |- context [if ?c then value_trap_check ?a ?b ?d ?e else ?f] =>
    set (m1 := if c then value_trap_check a b d e else f) end.
  assert (keeps m m1) as Hk.
  { unfold m1. destruct (_ && _); [eapply keeps_quiet, quiet_trap|done]. }
  clearbody m1. destruct (_ && _); [etrans; [exact Hk|eapply keeps_quiet, settled_STORE]|].
  etrans; [exact Hk|]. apply write_slow_keeps.
  - by apply (f_plain _ _ (proj1 Hk)).
  - by apply Hk.
  - intros m' Hk'. apply Hsplit. by etrans.
Qed.

(** Two accesses in a row. *)
Lemma keeps_reads (rd : Z -> mem -> Z * mem) x (y : mem -> Z) m m1 :
  (forall x m, plain m -> mem_ok m -> keeps m (rd x m).2) -> plain m -> mem_ok m -> keeps m m1 ->
  keeps m1 (let '(hi, m') := rd x m1 in (rd (y m') m').2).
Proof.
  intros Hrd Hp Hm [Hf Hk]. assert (plain m1) as Hp1 by (by apply (f_plain _ _ Hf)).
  pose proof (Hrd x m1 Hp1 (Hk Hm)) as [Hf1 Hk1]. destruct (rd x m1) as [hi m2]. cbn [snd] in *.
  etrans; [by split|]. apply Hrd; [by apply (f_plain _ _ Hf1)|auto].
Qed.
Lemma mem_load_keeps s x m : plain m -> mem_ok m -> keeps m (mem_load s x m).2.
Proof.
  assert (forall x m, plain m -> mem_ok m -> keeps m (memory_read_uint8 x m).2) as H8.
  { intros y m' Hp Hm. by apply fast_read_keeps. }
  assert (forall x m, plain m -> mem_ok m -> keeps m (memory_read_uint16 x m).2) as H16.
  { intros y m' Hp Hm. apply fast_read_keeps; [done..|]. intros z m1 Hk.
    pose proof (keeps_reads memory_read_uint8 z (fun m => Z.land (u32 (z + 1)) (address_mask m)) m' m1 H8 Hp Hm Hk).
    destruct (memory_read_uint8 z m1) as [hi m2]. by destruct (memory_read_uint8 _ m2). }
  destruct s; [apply H8|apply H16|].
  intros Hp Hm. apply fast_read_keeps; [done..|]. intros z m1 Hk.
  pose proof (keeps_reads memory_read_uint16 z (fun m => u32 (z + 2)) m m1 H16 Hp Hm Hk).
  destruct (memory_read_uint16 z m1) as [hi m2]. by destruct (memory_read_uint16 _ m2).
Qed.
Lemma keeps_then m m1 f : plain m -> mem_ok m -> keeps m m1 ->
  (forall m, plain m -> mem_ok m -> keeps m (f m)) -> keeps m (f m1).
Proof. intros Hp Hm [Hf Hk] H'. etrans; [by split|]. apply H'; [by apply (f_plain _ _ Hf)|auto]. Qed.
Lemma mem_store_keeps s x v m : plain m -> mem_ok m -> keeps m (mem_store s x v m).
Proof.
  assert (forall x v m, plain m -> mem_ok m -> keeps m (memory_write_uint8 x v m)) as H8.
  { intros y w m' Hp Hm. by apply fast_write_keeps. }
  assert (forall x v m, plain m -> mem_ok m -> keeps m (memory_write_uint16 x v m)) as H16.
  { intros y w m' Hp Hm. apply fast_write_keeps; [done..|]. intros z m1 [Hf Hk]. cbv zeta.
    assert (plain m1) as Hp1 by (by apply (f_plain _ _ Hf)).
    apply (keeps_then m1 _ (fun m => memory_write_uint8 (Z.land (u32 (z + 1)) (address_mask m)) _ m)); auto. }
  destruct s; [apply H8|apply H16|]. intros Hp Hm. apply fast_write_keeps; [done..|]. intros z m1 [Hf Hk].
  assert (plain m1) as Hp1 by (by apply (f_plain _ _ Hf)). cbv zeta.
  apply (keeps_then m1 _ (fun m => memory_write_uint16 (u32 (z + 2)) _ m)); auto.
Qed.

(** ** Pages without SoA entries *)
Definition has_no_entries m (p : Z) : Prop := (page_view m p).2 = (0, 0, 0, 0).
Lemma no_entries_active m p : has_no_entries m p -> active_read_at m p = 0 /\ active_write_at m p = 0.
Proof.
  intros [= E1 E2 E3 E4]. unfold active_read_at, active_write_at.
  by destruct (active_read m), (active_write m); rewrite ?E1, ?E2, ?E3, ?E4.
Qed.
Lemma fast_read_slow s split x m : space_ok m -> 0 <= x <= address_mask m -> has_no_entries m (page_of x) ->
  fast_read s split x m = read_slow s (split x) x m.
Proof.
  intros Hs Hx Hn. unfold fast_read. rewrite (masked_id m x Hs Hx).
  by rewrite (proj1 (no_entries_active _ _ Hn)).
Qed.
(** The write path with its value trap. *)
Definition trapped s x v m : mem :=
  if truthy (trap_active (hooks m)) && (trap_size (hooks m) =? bytes s)
     && (trunc s v =? trunc s (trap_value (hooks m)))
  then value_trap_check x v s m else m.
Lemma quiet_trapped s x v m : quiet m (trapped s x v m).
Proof. unfold trapped. destruct (_ && _); [apply quiet_trap|done]. Qed.
Lemma fast_write_slow s split x v m : space_ok m -> 0 <= x <= address_mask m -> has_no_entries m (page_of x) ->
  fast_write s split x v m = write_slow s (split x) x v (trapped s x v m).
Proof.
  intros Hs Hx Hn. unfold fast_write. rewrite (masked_id m x Hs Hx).
  by rewrite (proj2 (no_entries_active _ _ Hn)).
Qed.

(** What [quiet] steps say about a page. *)
Lemma quiet_pe m m' p : quiet m m' -> pe_at m' p = pe_at m p.
Proof. intros Hq. unfold pe_at. by rewrite (q_pages _ _ _ Hq). Qed.
Lemma quiet_lp m m' p : quiet m m' -> logpoints_at m' p = logpoints_at m p.
Proof. intros Hq. unfold logpoints_at. by rewrite (q_logpoints _ _ _ Hq). Qed.

(** ** Logpoints *)
Lemma logpoint_no_entries m p : page_ok m p -> logpoints_at m p <> 0 -> has_no_entries m p.
Proof. intros Hok Hl. apply page_ok_no_entries; auto. Qed.
Lemma logged_page m x : page_ok m (page_of x) -> backed m (page_of x) = true -> logpoints_at m (page_of x) <> 0 ->
  truthy (logpoints_at m (page_of x)) && negb (u64 (host_of m x) =? 0) &&
    negb (host_base (pe_at m (page_of x)) =? 0) = true.
Proof.
  intros Hok Hb Hl. destruct (host_ptr_pos m x Hok Hb) as [p Ep]. rewrite Ep.
  unfold truthy. apply Z.eqb_neq in Hl. rewrite Hl. destruct (backed_spec _ _ Hb) as [Hh _].
  apply Z.eqb_neq in Hh. by rewrite Hh.
Qed.
Lemma logged_load s x m : plain m -> space_ok m -> 0 <= x <= address_mask m -> page_ok m (page_of x) ->
  in_page s x = true -> backed m (page_of x) = true -> logpoints_at m (page_of x) <> 0 ->
  mem_load s x m = logged_read s x (u64 (host_of m x)) (count_slowpath m).
Proof.
  intros Hp Hs Hx Hok Hin Hb Hl. pose proof (logpoint_no_entries _ _ Hok Hl) as Hn.
  destruct s; cbn [mem_load]; unfold memory_read_uint8, memory_read_uint16, memory_read_uint32;
    rewrite fast_read_slow, read_slow_plain by done; cbv zeta; by rewrite Hin, (logged_page m x).
Qed.
Lemma logged_store s x v m : plain m -> space_ok m -> 0 <= x <= address_mask m -> page_ok m (page_of x) ->
  in_page s x = true -> backed m (page_of x) = true -> writable (pe_at m (page_of x)) = true ->
  logpoints_at m (page_of x) <> 0 ->
  mem_store s x v m = logged_write s x (u64 (host_of m x)) v (count_slowpath (trapped s x v m)).
Proof.
  intros Hp Hs Hx Hok Hin Hb Hw Hl. pose proof (logpoint_no_entries _ _ Hok Hl) as Hn.
  pose proof (quiet_trapped s x v m) as Hq. set (m1 := trapped s x v m) in *.
  assert (host_of m1 x = host_of m x) as Eh by (apply host_of_ext, (q_pages _ _ _ Hq)).
  assert (truthy (logpoints_at m1 (page_of x)) && negb (u64 (host_of m1 x) =? 0) &&
    negb (host_base (pe_at m1 (page_of x)) =? 0) && writable (pe_at m1 (page_of x)) = true) as E.
  { rewrite Eh, (quiet_pe _ _ _ Hq), (quiet_lp _ _ _ Hq), Hw, andb_true_r. by apply logged_page. }
  destruct s; cbn [mem_store]; unfold memory_write_uint8, memory_write_uint16, memory_write_uint32;
    rewrite fast_write_slow, write_slow_plain by (done || by apply (q_plain _ _ _ Hq)); cbv zeta;
    fold m1; by rewrite Hin, E, Eh.
Qed.

(** ** Device pages *)
Definition device_page m (p : Z) (r : dev_ref) : Prop :=
  dev (pe_at m p) = Some r /\ host_base (pe_at m p) = 0.
Lemma device_unbacked m p r : device_page m p r -> backed m p = false.
Proof. intros [_ E]. unfold backed. by rewrite E. Qed.

Lemma device_load s x m r : plain m -> space_ok m -> 0 <= x <= address_mask m -> page_ok m (page_of x) ->
  in_page s x = true -> device_page m (page_of x) r ->
  mem_load s x m = call_dev_read s r (pe_at m (page_of x)) x (count_slowpath m).
Proof.
  intros Hp Hs Hx Hok Hin Hd. pose proof (device_unbacked _ _ _ Hd) as Hb.
  assert (has_no_entries m (page_of x)) as Hn by (apply page_ok_no_entries; auto). destruct Hd as [Ed Eh].
  destruct s; cbn [mem_load]; unfold memory_read_uint8, memory_read_uint16, memory_read_uint32;
    rewrite fast_read_slow, read_slow_plain by done; cbv zeta;
    by rewrite Hin, Hb, Eh, Ed, Z.eqb_refl, andb_false_r.
Qed.
Lemma device_store s x v m r : plain m -> space_ok m -> 0 <= x <= address_mask m -> page_ok m (page_of x) ->
  in_page s x = true -> device_page m (page_of x) r ->
  mem_store s x v m = call_dev_write s r (pe_at m (page_of x)) x v (count_slowpath (trapped s x v m)).
Proof.
  intros Hp Hs Hx Hok Hin Hd. pose proof (device_unbacked _ _ _ Hd) as Hb.
  assert (has_no_entries m (page_of x)) as Hn by (apply page_ok_no_entries; auto). destruct Hd as [Ed Eh].
  pose proof (quiet_trapped s x v m) as Hq. set (m1 := trapped s x v m) in *.
  assert (plain m1) as Hp1 by (by apply (q_plain _ _ _ Hq)).
  assert (backed m1 (page_of x) = false) as Hb1 by (by rewrite (backed_ext m m1) by apply (q_pages _ _ _ Hq)).
  destruct s; cbn [mem_store]; unfold memory_write_uint8, memory_write_uint16, memory_write_uint32;
    rewrite fast_write_slow by done; fold m1; rewrite write_slow_plain by done; cbv zeta;
    by rewrite Hin, Hb1, !(quiet_pe _ _ _ Hq), Eh, Ed, Z.eqb_refl, !andb_false_r.
Qed.

(** ** Unmapped pages *)
Definition unmapped m (s : size) (x : Z) : Prop :=
  plain m /\ space_ok m /\ 0 <= x /\ x + bytes s - 1 <= address_mask m /\
  forall i, 0 <= i < bytes s ->
    host_base (pe_at m (page_of (x + i))) = 0 /\ dev (pe_at m (page_of (x + i))) = None /\
    page_ok m (page_of (x + i)).
Lemma unmapped_quiet m m' s x : quiet m m' -> unmapped m s x -> unmapped m' s x.
Proof.
  intros Hq (? & ? & ? & ? & Hi). split; [by eapply q_plain|]. split; [by eapply settled_space|].
  rewrite (q_mask _ _ _ Hq). split_and!; [done..|]. intros i Hr. rewrite (quiet_pe _ _ _ Hq).
  rewrite (q_ok _ _ _ Hq). by apply Hi.
Qed.
Lemma unmapped_part m s s' x i : unmapped m s x -> 0 <= i -> i + bytes s' <= bytes s -> unmapped m s' (x + i).
Proof.
  intros (? & ? & ? & ? & Hi) H1' H2'. split_and!; try done; [lia..|]. intros j Hj.
  rewrite <-Z.add_assoc. apply Hi. lia.
Qed.
Lemma unmapped_head m s x : unmapped m s x ->
  0 <= x <= address_mask m /\ has_no_entries m (page_of x) /\
  host_base (pe_at m (page_of x)) = 0 /\ dev (pe_at m (page_of x)) = None.
Proof.
  intros (_ & _ & ? & ? & Hi). assert (0 < bytes s) by (destruct s; simpl; lia).
  destruct (Hi 0 ltac:(lia)) as (E1 & E2 & Hok). rewrite Z.add_0_r in *. split_and!; try done; try lia.
  apply page_ok_no_entries; [done|]. left. unfold backed. by rewrite E1.
Qed.
Lemma unmapped_fast_read s split x m : unmapped m s x -> fast_read s split x m = split x (count_slowpath m).
Proof.
  intros Hu. destruct (unmapped_head _ _ _ Hu) as (Hx & Hn & Eh & Ed). destruct Hu as (Hp & Hs & _).
  rewrite fast_read_slow, read_slow_plain by done. cbv zeta. unfold backed. rewrite Eh, Ed.
  cbn. rewrite andb_false_r. by destruct (in_page s x).
Qed.
Lemma unmapped_fast_write s split x v m : unmapped m s x ->
  fast_write s split x v m = split x (count_slowpath (trapped s x v m)).
Proof.
  intros Hu. destruct (unmapped_head _ _ _ Hu) as (Hx & Hn & Eh & Ed). destruct (id Hu) as (Hp & Hs & _).
  pose proof (quiet_trapped s x v m) as Hq. rewrite fast_write_slow by done. set (m1 := trapped s x v m) in *.
  rewrite write_slow_plain by (by apply (q_plain _ _ _ Hq)). cbv zeta. unfold backed.
  rewrite !(quiet_pe _ _ _ Hq), Eh, Ed. cbn. rewrite andb_false_r. by destruct (in_page s x).
Qed.

Definition ones_read (s : size) (rd : Z -> mem -> Z * mem) : Prop :=
  forall x m, unmapped m s x -> (rd x m).1 = ones s /\ quiet m (rd x m).2.
Lemma ones_halves rd s s2 x m : ones_read s rd -> bytes s2 = 2 * bytes s -> unmapped m s2 x ->
  exists m1 m2, rd x m = (ones s, m1) /\ rd (x + bytes s) m1 = (ones s, m2) /\ quiet m m2 /\
    unmapped m1 s (x + bytes s).
Proof.
  intros Hrd E Hu. assert (0 < bytes s) by (destruct s; simpl; lia).
  pose proof (unmapped_part _ _ s _ 0 Hu ltac:(lia) ltac:(lia)) as Hu1. rewrite Z.add_0_r in Hu1.
  destruct (Hrd x m Hu1) as [E1 Hq1]. destruct (rd x m) as [v1 m1]. cbn [fst snd] in *. subst v1.
  pose proof (unmapped_quiet _ _ _ _ Hq1 (unmapped_part _ _ s _ (bytes s) Hu ltac:(lia) ltac:(lia))) as Hu2.
  destruct (Hrd _ m1 Hu2) as [E2 Hq2]. destruct (rd _ m1) as [v2 m2] eqn:R2. cbn [fst snd] in *. subst v2.
  exists m1, m2. split_and!; try done. by etrans.
Qed.
Lemma ones8 : ones_read B8 memory_read_uint8.
Proof.
  intros x m Hu. unfold memory_read_uint8. rewrite unmapped_fast_read by done. split; [done|apply quiet_count].
Qed.
Lemma ones16 : ones_read B16 memory_read_uint16.
Proof.
  intros x m Hu. unfold memory_read_uint16. rewrite unmapped_fast_read by done.
  destruct (ones_halves _ B8 B16 x (count_slowpath m) ones8 eq_refl) as (m1 & m2 & -> & R2 & Hq & Hu1).
  { by eapply unmapped_quiet; [apply quiet_count|]. }
  destruct (unmapped_head _ _ _ Hu1) as [Hx _]. cbn [bytes] in *.
  rewrite (space_u32 m1), (masked_id m1), R2 by (done || apply Hu1).
  split; [done|etrans; [apply quiet_count|done]].
Qed.
Lemma ones32 : ones_read B32 memory_read_uint32.
Proof.
  intros x m Hu. unfold memory_read_uint32. rewrite unmapped_fast_read by done.
  destruct (ones_halves _ B16 B32 x (count_slowpath m) ones16 eq_refl) as (m1 & m2 & -> & R2 & Hq & Hu1).
  { by eapply unmapped_quiet; [apply quiet_count|]. }
  destruct (unmapped_head _ _ _ Hu1) as [Hx _]. cbn [bytes] in *.
  rewrite (space_u32 m1), R2 by (done || apply Hu1).
  split; [done|etrans; [apply quiet_count|done]].
Qed.

Definition dropped (s : size) (wr : Z -> Z -> mem -> mem) : Prop :=
  forall x v m, unmapped m s x -> quiet m (wr x v m).
Lemma quiet_slow s x v m : quiet m (count_slowpath (trapped s x v m)).
Proof. etrans; [apply quiet_trapped|apply quiet_count]. Qed.
Lemma drop8 : dropped B8 memory_write_uint8.
Proof. intros x v m Hu. unfold memory_write_uint8. rewrite unmapped_fast_write by done. apply quiet_slow. Qed.
Lemma drop_halves wr s s2 x v1 v2 m : dropped s wr -> bytes s2 = 2 * bytes s -> unmapped m s2 x ->
  unmapped (wr x v1 m) s (x + bytes s) /\ quiet m (wr (x + bytes s) v2 (wr x v1 m)).
Proof.
  intros Hwr E Hu. assert (0 < bytes s) by (destruct s; simpl; lia).
  pose proof (unmapped_part _ _ s _ 0 Hu ltac:(lia) ltac:(lia)) as Hu1. rewrite Z.add_0_r in Hu1.
  pose proof (Hwr x v1 m Hu1) as Hq1.
  pose proof (unmapped_quiet _ _ _ _ Hq1 (unmapped_part _ _ s _ (bytes s) Hu ltac:(lia) ltac:(lia))) as Hu2.
  split; [done|]. etrans; [exact Hq1|by apply Hwr].
Qed.
Lemma drop16 : dropped B16 memory_write_uint16.
Proof.
  intros x v m Hu. unfold memory_write_uint16. rewrite unmapped_fast_write by done.
  pose proof (quiet_slow B16 x v m) as Hq. set (m1 := count_slowpath _) in *. cbv zeta.
  destruct (drop_halves memory_write_uint8 B8 B16 x (u8 (Z.shiftr v 8)) (u8 (Z.land v 0xFF)) m1 drop8 eq_refl)
    as [Hu1 Hq1]. { by eapply unmapped_quiet. }
  destruct (unmapped_head _ _ _ Hu1) as [Hx _]. cbn [bytes] in *.
  rewrite (space_u32 _ (x + 1) (proj1 (proj2 Hu1)) Hx), (masked_id _ _ (proj1 (proj2 Hu1)) Hx). by etrans.
Qed.
Lemma drop32 : dropped B32 memory_write_uint32.
Proof.
  intros x v m Hu. unfold memory_write_uint32. rewrite unmapped_fast_write by done.
  pose proof (quiet_slow B32 x v m) as Hq. set (m1 := count_slowpath _) in *. cbv zeta.
  destruct (drop_halves memory_write_uint16 B16 B32 x (u16 (Z.shiftr v 16)) (u16 (Z.land v 0xFFFF)) m1 drop16 eq_refl)
    as [Hu1 Hq1]. { by eapply unmapped_quiet. }
  destruct (unmapped_head _ _ _ Hu1) as [Hx _]. cbn [bytes] in *.
  rewrite (space_u32 _ (x + 2) (proj1 (proj2 Hu1)) Hx). by etrans.
Qed.

(** ** Adding a device *)
Lemma map_add_device_page addr sz iface device m x :
  space_ok m -> 0 <= addr <= x -> x < addr + sz -> addr + sz - 1 <= address_mask m ->
  pe_at (memory_map_add addr sz iface device m) (page_of x) =
  mk_pe 0 (Some (mk_dev (next_id (layout m)) iface)) device addr false.
Proof.
  intros Hs Ha Hx Hm. trans (page_view (memory_map_add addr sz iface device m) (page_of x)).1.1; [done|].
  rewrite view_map_add. unfold first_page, last_page. rewrite (space_u32 m), !masked_id by (done || lia).
  pose proof (masked_range m x Hs) as [_ Hc]. rewrite (masked_id m x Hs) in Hc by lia.
  rewrite decide_True; [done|]. split; [|lia]. rewrite !page_of_div. split; apply Z.div_le_mono; lia.
Qed.
Lemma map_add_devices addr sz iface device m : devices (memory_map_add addr sz iface device m) = devices m.
Proof. unfold memory_map_add. by apply (for_pages_inv (fun m' => devices m' = devices m)). Qed.

(** ** The debugger's accessors and the ROM loader keep the map *)
Definition keeps_plain (f : mem -> mem) : Prop := forall m, plain m -> keeps m (f m).
Lemma keeps_plain_then f g m : keeps_plain f -> keeps_plain g -> plain m -> keeps m (g (f m)).
Proof.
  intros Hf Hg Hp. pose proof (Hf m Hp) as Hk. etrans; [exact Hk|]. apply Hg.
  by apply (f_plain _ _ (proj1 Hk)).
Qed.
Lemma debug_read_keeps s x : keeps_plain (fun m => (debug_read_in_page s x m).2).
Proof.
  intros m Hp. unfold debug_read_in_page. destruct (debug_translate _ _ _); [|done].
  destruct (_ <=? _); [done|]. destruct (negb _); [done|]. destruct (dev _); [apply keeps_dev_read|done].
Qed.
Lemma debug_write_keeps s x v : keeps_plain (fun m => (debug_write_in_page s x v m).2).
Proof.
  intros m Hp. unfold debug_write_in_page. destruct (debug_translate _ _ _); [|done].
  destruct (_ <=? _); [done|]. destruct (negb _).
  - destruct (writable _); [eapply keeps_quiet, settled_STORE|done].
  - destruct (dev _); [apply keeps_dev_write|done].
Qed.
Lemma debug_read8_keeps x : keeps_plain (fun m => (memory_debug_read_uint8 x m).2).
Proof. intros m Hp. unfold memory_debug_read_uint8. rewrite (proj1 Hp). by apply debug_read_keeps. Qed.
Lemma debug_read16_keeps x : keeps_plain (fun m => (memory_debug_read_uint16 x m).2).
Proof.
  intros m Hp. unfold memory_debug_read_uint16. rewrite (proj1 Hp). destruct (in_page _ _); [by apply debug_read_keeps|].
  pose proof (keeps_plain_then _ _ m (debug_read8_keeps (Z.land x (address_mask m)))
    (debug_read8_keeps (u32 (Z.land x (address_mask m) + 1))) Hp) as Hk.
  revert Hk. cbn beta. destruct (memory_debug_read_uint8 _ m) as [hi m1]. cbn [snd]. by destruct (memory_debug_read_uint8 _ m1).
Qed.
Lemma debug_read32_keeps x : keeps_plain (fun m => (memory_debug_read_uint32 x m).2).
Proof.
  intros m Hp. unfold memory_debug_read_uint32. rewrite (proj1 Hp). destruct (in_page _ _); [by apply debug_read_keeps|].
  pose proof (keeps_plain_then _ _ m (debug_read16_keeps (Z.land x (address_mask m)))
    (debug_read16_keeps (u32 (Z.land x (address_mask m) + 2))) Hp) as Hk.
  revert Hk. cbn beta. destruct (memory_debug_read_uint16 _ m) as [hi m1]. cbn [snd]. by destruct (memory_debug_read_uint16 _ m1).
Qed.
Lemma debug_write8_keeps x v : keeps_plain (fun m => (memory_debug_write_uint8 x v m).2).
Proof. intros m Hp. unfold memory_debug_write_uint8. rewrite (proj1 Hp). by apply debug_write_keeps. Qed.
Lemma debug_write16_keeps x v : keeps_plain (fun m => (memory_debug_write_uint16 x v m).2).
Proof.
  intros m Hp. unfold memory_debug_write_uint16. rewrite (proj1 Hp). destruct (in_page _ _); [by apply debug_write_keeps|].
  pose proof (keeps_plain_then _ _ m (debug_write8_keeps (Z.land x (address_mask m)) (u8 (Z.shiftr v 8)))
    (debug_write8_keeps (u32 (Z.land x (address_mask m) + 1)) (u8 v)) Hp) as Hk.
  revert Hk. cbn beta. destruct (memory_debug_write_uint8 _ _ m) as [hi m1]. cbn [snd]. by destruct (memory_debug_write_uint8 _ _ m1).
Qed.
Lemma debug_write32_keeps x v : keeps_plain (fun m => (memory_debug_write_uint32 x v m).2).
Proof.
  intros m Hp. unfold memory_debug_write_uint32. rewrite (proj1 Hp). destruct (in_page _ _); [by apply debug_write_keeps|].
  pose proof (keeps_plain_then _ _ m (debug_write16_keeps (Z.land x (address_mask m)) (u16 (Z.shiftr v 16)))
    (debug_write16_keeps (u32 (Z.land x (address_mask m) + 2)) (u16 v)) Hp) as Hk.
  revert Hk. cbn beta. destruct (memory_debug_write_uint16 _ _ m) as [hi m1]. cbn [snd]. by destruct (memory_debug_write_uint16 _ _ m1).
Qed.
Lemma host_fill_keeps p data m : keeps m (host_fill p data m).
Proof.
  revert p m. induction data as [|v data IH]; intros p m; [done|]. cbn [host_fill].
  etrans; [|apply IH]. by split.
Qed.
Lemma install_rom_keeps data m : keeps m (memory_install_rom data m).2.
Proof.
  unfold memory_install_rom. destruct (_ =? 0); [done|]. cbn [snd].
  etrans; [apply host_fill_keeps|]. unfold calculate_checksum. by destruct (_ <? 8).
Qed.
End Access.
