(* ===== verification/MemoryTheorems.v ===== *)
(** * What the memory map guarantees

    The properties of memory.c as one reads them: reads and writes of RAM and
    ROM, mirrors, devices, unmapped addresses and logpoints, and the invariant
    in every state the operations can reach. *)
From S2P Require Import Prelude Bus Memory MemoryBus MemoryProofs MemoryMap MemoryLayout MemoryAccess.

(** A Plus with 1 MB of RAM and a 128 KB ROM, for the witnesses. *)
Definition small_plus : mem_t latch unit := plus_map 0x100 0x20 0x10000 7 (mk_latch 0) tt.
Lemma small_plus_ok : plain small_plus /\ mem_ok small_plus.
Proof. split; [done|]. apply plus_ok; lia. Qed.
Lemma small_plus_mask : address_mask small_plus = 0xFFFFFF.
Proof. apply plus_mask. Qed.
Lemma small_plus_region x : 0 <= x < 0x1000000 -> plus_region 0x100 0x20 0x10000 7 small_plus x.
Proof. apply plus_regions; lia. Qed.

Section Theorems.
Context {D T : Type} `{Devices D} `{Mmu D T} `{!MmuLaws D T}.
#[local] Abbreviation mem := (mem_t D T).
Implicit Types m : mem.

Lemma mapped_ok s x m : plain m -> mem_ok m -> 0 <= x -> x + bytes s - 1 <= address_mask m ->
  (forall i, 0 <= i < bytes s -> backed m (page_of (x + i)) = true) -> mapped m s x.
Proof. intros Hp [Hs Hok] H1 H2 Hb. split_and!; try done. intros i Hi. auto. Qed.

(** A read of 1, 2 or 4 bytes of RAM or ROM while translation is off
    returns the big-endian value of the host bytes the page table designates,
    for any alignment (page crossings too) and whether it is served by the fast
    path, by the lazily installed entry or through a logpoint; it changes
    nothing but logs, counters and valid SoA entries. *)
Theorem mem_load_correct s x m : mapped m s x ->
  Some (mem_load s x m).1 = load_be (guest_bytes m) s x /\ quiet m (mem_load s x m).2.
Proof. apply mem_load_mapped. Qed.

(** A write of 1, 2 or 4 bytes to RAM or ROM while translation is off puts
    exactly the operand's big-endian bytes at the host bytes the page table
    designates, drops those of read-only pages, and changes nothing else. *)
Theorem mem_store_correct s x v m : mapped m s x ->
  settled (put_bytes m s x v (host m)) m (mem_store s x v m).
Proof. apply mem_store_mapped. Qed.

(** A memory access at an address that decodes to nothing reads as all
    ones and ignores writes, without a bus error. *)
Theorem unmapped_access s x v m : unmapped m s x ->
  ((mem_load s x m).1 = ones s /\ quiet m (mem_load s x m).2) /\ quiet m (mem_store s x v m).
Proof.
  intros Hu. destruct s; split;
    [by apply ones8|by apply drop8|by apply ones16|by apply drop16|by apply ones32|by apply drop32].
Qed.

Lemma in_page_mapped s x m : plain m -> mem_ok m -> 0 <= x <= address_mask m -> in_page s x = true ->
  backed m (page_of x) = true -> mapped m s x.
Proof.
  intros Hp Hm Hx Hin Hb. pose proof Hin as Hin'. apply in_page_spec in Hin'.
  assert (forall i, 0 <= i < bytes s -> page_of (x + i) = page_of x) as Hpage.
  { intros i Hi. by apply (in_page_page s). }
  apply mapped_ok; try done; [lia| |intros i Hi; by rewrite Hpage].
  destruct Hm as [[[= Em _]|[= Em _]] _]; rewrite Em in *; dlia.
Qed.

(** C40: while translation is off, and no Lisa MMU is there, an access at a
    guest address that stays within one page of RAM or ROM whose logpoint
    count is not zero (the count saturates at 255, so many installs and
    uninstalls may bring it to zero early) reaches the logpoint hook, once,
    with its address, size and value, and moves the bytes it moves without the
    logpoint: a read returns the big-endian bytes of the host memory the page
    table designates, and a write to a writable page puts the operand's
    big-endian bytes there and changes nothing else of the memory.  (An access
    across a page boundary is split by the code and reported in parts, and a
    write to a read-only page is dropped.) *)
Theorem logpoint_catches s x v m : plain m -> mem_ok m -> 0 <= x <= address_mask m -> in_page s x = true ->
  backed m (page_of x) = true -> logpoints_at m (page_of x) <> 0 ->
  (let '(r, m') := mem_load s x m in
   Some r = load_be (guest_bytes m) s x /\ host m' = host m /\
   logpoint_log (hooks m') = mk_hook x (bytes s) r false :: logpoint_log (hooks m)) /\
  (writable (pe_at m (page_of x)) = true ->
   logpoint_log (hooks (mem_store s x v m)) = mk_hook x (bytes s) v true :: logpoint_log (hooks m) /\
   host (mem_store s x v m) =
     fold_left (fun h i => <[u64 (host_of m x + i) := be_byte s v i]> h) (seqZ 0 (bytes s)) (host m)).
Proof.
  intros Hp Hm Hx Hin Hb Hl. pose proof (in_page_mapped s x m Hp Hm Hx Hin Hb) as Hmap.
  destruct (mem_load_mapped s x m Hmap) as [_ Hq]. pose proof (mem_store_mapped s x v m Hmap) as Hst.
  destruct Hm as [Hs Hok]. split.
  - rewrite logged_load in * by auto. cbn [snd] in Hq. split; [|by split; [apply Hq|]].
    unfold logged_read. rewrite LOAD_BE_guest by done. f_equal.
    etrans; [apply LOAD_BE_u64 with (q := host_of m x); by apply wrap_wrap|done].
  - intros Hw. split.
    + rewrite logged_store by auto. unfold logged_write.
      assert (logpoint_log (hooks (trapped s x v m)) = logpoint_log (hooks m)) as <-.
      { unfold trapped, value_trap_check. by repeat (case_match; try done). }
      by destruct s.
    + rewrite (q_host _ _ _ Hst).
      assert (forall i v', u8 (be_byte s v' i) = be_byte s v' i) as E8 by (intros; by apply wrap_wrap).
      destruct s; [change (seqZ 0 _) with [0]|change (seqZ 0 _) with [0; 1]|change (seqZ 0 _) with [0; 1; 2; 3]];
        unfold put_bytes; cbn [fold_left]; rewrite !(put_byte_in_page m _ x) by (done || cbn; lia); by rewrite Hw, !E8.
Qed.

(** After memory_map_add, every access that stays in a page of the mapped
    range is dispatched to that device's callback of the access size, with the
    offset from the mapping's base, and charges its wait states. *)
Theorem map_add_dispatch s addr sz iface device x v m : plain m -> mem_ok m -> 0 <= addr <= x -> x < addr + sz ->
  addr + sz - 1 <= address_mask m -> in_page s x = true ->
  let m' := memory_map_add addr sz iface device m in
  (let '(r, pen, d) := dev_read s iface device (x - addr) (devices m) in
   mem_load s x m' = (trunc s r, charge pen (set_devices d (count_slowpath m')))) /\
  (let '(pen, d) := dev_write s iface device (x - addr) v (devices m) in
   devices (mem_store s x v m') = d /\ host (mem_store s x v m') = host m').
Proof.
  intros Hp Hm Ha Hx Hsz Hin m'.
  pose proof (map_add_device_page addr sz iface device m x (proj1 Hm) Ha Hx Hsz) as Epe. fold m' in Epe.
  assert (mem_ok m') as Hm' by (by apply memory_map_add_ok).
  destruct (map_add_frame addr sz iface device m) as [Em _ Hpl]. fold m' in Em, Hpl.
  assert (device_page m' (page_of x) (mk_dev (next_id (layout m)) iface)) as Hd by (by split; rewrite Epe).
  assert (0 <= x <= address_mask m') as Hx' by (rewrite Em; lia).
  assert (u32 (x - addr) = x - addr) as Eo by (apply (space_u32 m); [apply Hm|lia]).
  pose proof (map_add_devices addr sz iface device m) as Edev. fold m' in Edev. split.
  - rewrite (device_load s x m' _ (proj2 Hpl Hp) (proj1 Hm') Hx' (proj2 Hm' _) Hin Hd).
    unfold call_dev_read. rewrite Epe. cbn [dev_iface dev_context base_addr]. rewrite Eo.
    change (devices (count_slowpath m')) with (devices m'). rewrite Edev.
    by destruct (dev_read _ _ _ _ _) as [[r pen] d].
  - rewrite (device_store s x v m' _ (proj2 Hpl Hp) (proj1 Hm') Hx' (proj2 Hm' _) Hin Hd).
    unfold call_dev_write. rewrite Epe. cbn [dev_iface dev_context base_addr]. rewrite Eo.
    assert (devices (count_slowpath (trapped s x v m')) = devices m /\
            host (count_slowpath (trapped s x v m')) = host m') as [-> Eh].
    { destruct (quiet_slow s x v m') as [-> _ _ _ _ _ _ -> _ _ _ _]. done. }
    by destruct (dev_write _ _ _ _ _ _) as [pen d].
Qed.

(** Removing a device mapping undoes adding it: the mapping list is the
    old one again, exactly the pages of the range are unmapped, and the SoA
    arrays stay consistent. *)
Theorem map_add_remove addr sz iface device m : mem_ok m -> 0 < sz ->
  let m' := memory_map_remove addr device (memory_map_add addr sz iface device m) in
  mem_ok m' /\ mappings (layout m') = mappings (layout m) /\
  forall p, pe_at m' p =
    if decide (first_page addr m <= p <= last_page addr sz m /\ p < page_count m) then empty_page else pe_at m p.
Proof.
  intros Hm Hsz m'. split; [by apply memory_map_remove_ok, memory_map_add_ok|].
  unfold m', memory_map_remove. set (m1 := memory_map_add addr sz iface device m).
  destruct (map_add_frame addr sz iface device m) as [Em Ec _]. fold m1 in Em, Ec.
  assert (layout m1 = mk_layout (mk_mapping (next_id (layout m)) device addr sz iface :: mappings (layout m))
    (next_id (layout m) + 1) (image (layout m)) (ram_size (layout m)) (rom_size (layout m))
    (checksum (layout m))) as El.
  { unfold m1, memory_map_add. by rewrite for_pages_layout. }
  rewrite El. cbn [mappings unlink map_device map_addr]. rewrite !Z.eqb_refl. cbn [andb]. split; [done|].
  intros p. cbn [map_size map_id map_addr]. rewrite pe_set_layout.
  unfold clear_page_table_for_mapping. rewrite (proj2 (Z.eqb_neq sz 0)) by lia.
  match goal with |- pe_at (for_pages ?a ?b ?f m1) p = _ =>
    destruct (for_pages_view a b f m1 p) as (m2 & _ & E & Ev) end.
  { intros q m2. destruct (dev _); [|done]. destruct (_ =? _); [|done].
    apply (on_put_page q (fun _ => empty_page)). }
  apply (f_equal (fun v => v.1.1)) in Ev. cbn [fst page_view] in Ev. rewrite Ev. clear Ev.
  unfold m1 in E. rewrite view_map_add in E.
  unfold first_page, last_page. rewrite Em, Ec. fold (first_page addr m) (last_page addr sz m).
  apply (f_equal (fun v => v.1.1)) in E. cbn [fst page_view] in E.
  repeat case_decide; try (exfalso; lia); cbn [fst] in *.
  - rewrite E. cbn [dev dev_id]. rewrite Z.eqb_refl.
    trans (pe_at (put_page p empty_page m2) p); [done|]. by rewrite pe_put, decide_True.
  - trans (page_view m1 p).1.1; [done|]. unfold m1. rewrite view_map_add, decide_False by lia. done.
Qed.

(** ** Reachable states *)

(** One operation of memory.c, by the CPU, the debugger or the machine. *)
Inductive mem_step : mem -> mem -> Prop :=
| step_load s x m : mem_step m (mem_load s x m).2
| step_store s x v m : mem_step m (mem_store s x v m)
| step_active b m : mem_step m (set_active b m)
| step_logpoint_install a b m : mem_step m (memory_logpoint_install a b m)
| step_logpoint_uninstall a b m : mem_step m (memory_logpoint_uninstall a b m)
| step_logpoint_install_phys a b m : mem_step m (memory_logpoint_install_phys a b m)
| step_logpoint_uninstall_phys a b m : mem_step m (memory_logpoint_uninstall_phys a b m)
| step_map_add addr sz iface device m : mem_step m (memory_map_add addr sz iface device m)
| step_map_remove addr device m : mem_step m (memory_map_remove addr device m)
| step_debug_read8 x m : mem_step m (memory_debug_read_uint8 x m).2
| step_debug_read16 x m : mem_step m (memory_debug_read_uint16 x m).2
| step_debug_read32 x m : mem_step m (memory_debug_read_uint32 x m).2
| step_debug_write8 x v m : mem_step m (memory_debug_write_uint8 x v m).2
| step_debug_write16 x v m : mem_step m (memory_debug_write_uint16 x v m).2
| step_debug_write32 x v m : mem_step m (memory_debug_write_uint32 x v m).2
| step_install_rom data m : mem_step m (memory_install_rom data m).2
| step_reset m : mem_step m (system_reset_devices m)
| step_budget n m : mem_step m (set_instructions n m).

Lemma logpoint_frame a b m : frame m (memory_logpoint_install a b m) /\ frame m (memory_logpoint_uninstall a b m).
Proof. split; apply for_pages_frame; [apply on_install|apply on_uninstall]. Qed.
Lemma phys_frame a b m : frame m (memory_logpoint_install_phys a b m) /\ frame m (memory_logpoint_uninstall_phys a b m).
Proof.
  split.
  - unfold memory_logpoint_install_phys.
    match goal with |- frame m (set_soa _ ?m1) => assert (frame m m1) as Hf; [|by etrans; [exact Hf|]] end.
    apply (for_pages_inv (frame m)); [|done]. intros p m' _ _ Hf. etrans; [exact Hf|]. cbv beta zeta. by destruct (_ <? _).
  - apply (for_pages_inv (frame m)); [|done]. intros p m' _ _ Hf. etrans; [exact Hf|]. cbv beta zeta. by destruct (truthy _).
Qed.
Lemma map_remove_frame addr device m : frame m (memory_map_remove addr device m).
Proof.
  unfold memory_map_remove. destruct (unlink _ _ _) as [[y rest]|]; [|done].
  match goal with |- frame m (set_layout _ ?m1) => assert (frame m m1) as Hf; [|by etrans; [exact Hf|]] end.
  unfold clear_page_table_for_mapping. destruct (_ =? 0); [done|].
  apply (for_pages_inv (frame m)); [|done]. intros p m' _ _ Hf. etrans; [exact Hf|].
  destruct (dev _); [|done]. by destruct (_ =? _).
Qed.

Lemma mem_step_keeps m m' : mem_step m m' -> plain m -> mem_ok m -> keeps m m'.
Proof.
  intros Hst Hp Hm. destruct Hst.
  - by apply mem_load_keeps.
  - by apply mem_store_keeps.
  - done.
  - split; [apply logpoint_frame|apply memory_logpoint_install_ok].
  - split; [apply logpoint_frame|apply memory_logpoint_uninstall_ok].
  - split; [apply phys_frame|apply memory_logpoint_install_phys_ok].
  - split; [apply phys_frame|apply memory_logpoint_uninstall_phys_ok].
  - split; [apply map_add_frame|apply memory_map_add_ok].
  - split; [apply map_remove_frame|apply memory_map_remove_ok].
  - by apply debug_read8_keeps.
  - by apply debug_read16_keeps.
  - by apply debug_read32_keeps.
  - by apply debug_write8_keeps.
  - by apply debug_write16_keeps.
  - by apply debug_write32_keeps.
  - apply install_rom_keeps.
  - done.
  - done.
Qed.

(** C33: without a Lisa MMU and with translation off (which none of these
    operations turns on), whatever sequence of accesses, logpoint, mapping,
    debugger and ROM operations and device resets runs from a consistent
    state, the fast path stays in agreement with the page table: every SoA
    entry is empty or its page's host address, only writable pages have write
    entries, and pages whose logpoint count is not zero have none (the count
    saturates at 255, so after more installs it can reach zero while a
    logpoint is still installed, and the page is fast again). *)
Theorem mem_reachable_ok m m' : plain m -> mem_ok m -> rtc mem_step m m' -> plain m' /\ mem_ok m'.
Proof.
  intros Hp Hm Hr. induction Hr as [|m1 m2 m3 Hst _ IH]; [done|].
  destruct (mem_step_keeps _ _ Hst Hp Hm) as [Hf Hk]. apply IH; [by apply (f_plain _ _ Hf)|auto].
Qed.
End Theorems.

(** ** RAM mirrors *)

(** On a Plus, what is written at a RAM address is read back at every
    mirror of it below $400000, for every operand size and alignment that does
    not wrap around the installed RAM. *)
Theorem plus_mirror {D T} `{Devices D} `{Mmu D T} `{!MmuLaws D T} ram_pages rom_pages img phase_read (d : D) (t : T) s x y v :
  0 < ram_pages <= 0x400 -> 0 < rom_pages -> 0 < img -> img + (ram_pages + rom_pages) * 4096 <= 2 ^ 64 ->
  let m := plus_map ram_pages rom_pages img phase_read d t in
  plain m -> 0 <= x -> x + bytes s <= 0x400000 -> 0 <= y -> y + bytes s <= 0x400000 ->
  x mod (ram_pages * 4096) = y mod (ram_pages * 4096) ->
  x mod (ram_pages * 4096) + bytes s <= ram_pages * 4096 -> in_width (bits s) v ->
  (mem_load s y (mem_store s x v m)).1 = v.
Proof.
  intros Hram Hrom Himg Hend m Hp Hx Hxe Hy Hye Exy Hwrap Hv.
  assert (mem_ok m) as Hok by (apply plus_ok; auto; lia).
  assert (address_mask m = 0xFFFFFF) as Em by apply plus_mask.
  pose proof (plus_ram ram_pages rom_pages img phase_read d t Hram Hrom (conj Himg Hend) s) as Hr. fold m in Hr.
  assert (0 <= x mod (ram_pages * 4096)) as Hm0 by (apply Z.mod_pos_bound; lia).
  pose proof (fun i Hi => Hr x i Hx Hxe Hi Hwrap) as Hrx.
  pose proof (fun i Hi => Hr y i Hy Hye Hi ltac:(by rewrite <-Exy)) as Hry. rewrite <-Exy in Hry.
  assert (mapped m s x) as Hmx by (apply mapped_ok; try done; [rewrite Em; lia|intros i Hi; by apply Hrx]).
  assert (mapped m s y) as Hmy by (apply mapped_ok; try done; [rewrite Em; lia|intros i Hi; by apply Hry]).
  pose proof (mem_store_mapped s x v m Hmx) as Hs.
  destruct (mem_load_mapped s y _ (mapped_settled _ _ _ _ _ Hs Hmy)) as [E _].
  rewrite (load_after_store m _ s x y v Hs Hv) in E; [by injection E| | |].
  - intros i Hi. by apply Hrx.
  - intros i j Hi Hj. destruct (Hrx i Hi) as (_ & _ & ->), (Hrx j Hj) as (_ & _ & ->).
    unfold u64. rewrite !wrap_small by (unfold in_width; lia). lia.
  - intros i Hi. destruct (Hrx i Hi) as (_ & _ & ->). split; by apply Hry.
Qed.

(** ** Witnesses *)
Lemma plus_mirror_witness :
  (mem_load B32 0x0FFC82 (mem_store B32 0x3FFC82 0xDEADBEEF small_plus)).1 = 0xDEADBEEF.
Proof.
  apply (plus_mirror 0x100 0x20 0x10000 7 (mk_latch 0) tt B32 0x3FFC82 0x0FFC82 0xDEADBEEF);
    done || reflexivity || (cbn; lia).
Defined.

Lemma small_plus_mapped s x : 0 <= x -> x + bytes s <= 0x400000 -> mapped small_plus s x.
Proof.
  intros Hx He. destruct small_plus_ok as [Hp Hm]. apply mapped_ok; try done.
  - rewrite small_plus_mask. lia.
  - intros i Hi. pose proof (small_plus_region (x + i) ltac:(lia)) as Hr. unfold plus_region in Hr.
    rewrite (proj2 (Z.ltb_lt (x + i) 0x400000)) in Hr by lia. apply Hr.
Qed.
Lemma mem_load_correct_witness :
  Some (mem_load B32 0x0FFFFE small_plus).1 = load_be (guest_bytes small_plus) B32 0x0FFFFE.
Proof. apply mem_load_correct. apply small_plus_mapped; cbn; lia. Defined.
Lemma mem_store_correct_witness :
  host (mem_store B16 0x1FFF 0x1234 small_plus) =
  <[0x12000 := 0x34]> (<[0x11FFF := 0x12]> (host small_plus)).
Proof.
  rewrite (q_host _ _ _ (mem_store_correct B16 0x1FFF 0x1234 small_plus
    (small_plus_mapped B16 0x1FFF ltac:(lia) ltac:(cbn; lia)))).
  vm_compute. reflexivity.
Defined.

Lemma unmapped_access_witness :
  (mem_load B32 0x800FFE small_plus).1 = 0xFFFFFFFF /\ quiet small_plus (mem_store B32 0x800FFE 1 small_plus).
Proof.
  destruct (unmapped_access B32 0x800FFE 1 small_plus) as [[E _] Hq]; [|exact (conj E Hq)].
  destruct small_plus_ok as [Hp [Hs Hok]]. split; [exact Hp|]. split; [exact Hs|]. split; [lia|].
  split; [rewrite small_plus_mask; cbn; lia|].
  intros i Hi. pose proof (small_plus_region (0x800FFE + i) ltac:(cbn in Hi; lia)) as Hr.
  unfold plus_region in Hr. cbn [bytes] in Hi. revert Hr. zprune. intros ->.
  split; [reflexivity|]. split; [reflexivity|apply Hok].
Defined.

Definition watched_plus : mem_t latch unit := memory_logpoint_install 1 1 small_plus.
Lemma watched_plus_ok : plain watched_plus /\ mem_ok watched_plus.
Proof.
  destruct small_plus_ok as [Hp Hm]. split; [by apply (f_plain _ _ (proj1 (logpoint_frame 1 1 small_plus)))|].
  by apply memory_logpoint_install_ok.
Qed.
Lemma logpoint_catches_witness :
  let m := mem_store B16 0x1234 0xCAFE watched_plus in
  logpoint_log (hooks m) = [mk_hook 0x1234 2 0xCAFE true] /\
  host m = <[0x11235 := 0xFE]> (<[0x11234 := 0xCA]> (host watched_plus)).
Proof.
  destruct watched_plus_ok as [Hp Hm].
  assert (0 <= 0x1234 <= address_mask watched_plus) as Hx by (vm_compute; split; discriminate).
  assert (backed watched_plus (page_of 0x1234) = true) as Hb by (vm_compute; reflexivity).
  assert (logpoints_at watched_plus (page_of 0x1234) <> 0) as Hl by (vm_compute; discriminate).
  assert (writable (pe_at watched_plus (page_of 0x1234)) = true) as Hw by (vm_compute; reflexivity).
  assert (logpoint_log (hooks watched_plus) = []) as E by (vm_compute; reflexivity).
  destruct (logpoint_catches B16 0x1234 0xCAFE watched_plus Hp Hm Hx eq_refl Hb Hl) as [_ Hst].
  destruct (Hst Hw) as [El Eh]. cbv zeta. rewrite El, E, Eh. split; [reflexivity|]. vm_compute. reflexivity.
Defined.

Lemma map_add_dispatch_witness :
  let m := memory_map_add 0xE80000 0x80000 3 9 small_plus in
  devices (mem_store B16 0xEFE1FE 0x55AA m) = mk_latch 0x55AA.
Proof.
  destruct small_plus_ok as [Hp Hm].
  assert (0xE80000 + 0x80000 - 1 <= address_mask small_plus) as Hx by (vm_compute; discriminate).
  exact (proj1 (proj2 (map_add_dispatch B16 0xE80000 0x80000 3 9 0xEFE1FE 0x55AA small_plus Hp Hm
    ltac:(lia) ltac:(lia) Hx eq_refl))).
Defined.
Lemma map_add_remove_witness :
  pe_at (memory_map_remove 0xE80000 9 (memory_map_add 0xE80000 0x80000 3 9 small_plus)) 0xE80 = empty_page.
Proof.
  destruct (map_add_remove 0xE80000 0x80000 3 9 small_plus (proj2 small_plus_ok) ltac:(lia)) as (_ & _ & Hpe).
  rewrite (Hpe 0xE80). vm_compute. reflexivity.
Defined.
Lemma mem_reachable_ok_witness :
  mem_ok (mem_load B16 0x1000 (mem_store B16 0x1000 0xCAFE watched_plus)).2.
Proof.
  destruct small_plus_ok as [Hp Hm]. eapply (mem_reachable_ok small_plus); [done..|].
  eapply rtc_l; [apply (step_logpoint_install 1 1)|].
  eapply rtc_l; [apply (step_store B16 0x1000 0xCAFE)|].
  apply rtc_once. apply (step_load B16 0x1000).
Defined.
