(* ===== verification/MemoryRam.v ===== *)
(** * The memory map is the RAM the CPU's theorems assume

    Bus.v states what the CPU relies on: the bus laws for any access and, for
    addresses that are RAM, that loads return what stores left.  Here the memory
    map of memory.c is shown to be such a bus, so the CPU's theorems hold on it. *)
From S2P Require Import Prelude Bus Memory MemoryBus MemoryProofs MemoryMap MemoryLayout MemoryAccess.

Section Ram.
Context {D T : Type} `{Devices D} `{Mmu D T} `{!MmuLaws D T}.
#[local] Abbreviation mem := (mem_t D T).
Implicit Types m : mem.

(** The image is where memory_map_init allocated it, translation is off. *)
Definition ram_state m : Prop :=
  plain m /\ space_ok m /\ 0 < image (layout m) /\ image (layout m) + 2 ^ 32 <= 2 ^ 64.
(** Address [x] is RAM at its own offset in the image: writable, host-backed,
    and its page's SoA entries agree. *)
Definition is_ram m (x : Z) : Prop :=
  ram_state m /\ 0 <= x <= address_mask m /\ page_ok m (page_of x) /\
  backed m (page_of x) = true /\ writable (pe_at m (page_of x)) = true /\
  host_of m x = image (layout m) + x.
#[global] Instance is_ram_dec m x : Decision (is_ram m x).
Proof. unfold is_ram, ram_state. apply _. Defined.
#[global] Instance mem_view : RamView mem := fun m x =>
  if decide (is_ram m x) then Some (guest_byte m x) else None.

Lemma is_ram_settled h m m' x : settled h m m' -> is_ram m' x <-> is_ram m x.
Proof.
  intros Hs. unfold is_ram, ram_state. rewrite (q_plain _ _ _ Hs), (settled_space _ _ _ Hs), (q_ok _ _ _ Hs).
  rewrite (q_mask _ _ _ Hs), (q_layout _ _ _ Hs).
  rewrite (backed_ext m m'), (host_of_ext m m') by apply (q_pages _ _ _ Hs).
  unfold pe_at. by rewrite (q_pages _ _ _ Hs).
Qed.
Lemma ram_byte_settled h m m' x : settled h m m' ->
  ram_byte m' x = if decide (is_ram m x) then Some (host_byte m' (host_of m x)) else None.
Proof.
  intros Hs. unfold ram_byte, mem_view, guest_byte. rewrite (decide_ext _ _ _ _ (is_ram_settled _ _ _ x Hs)).
  by rewrite (host_of_ext m m') by apply (q_pages _ _ _ Hs).
Qed.
Lemma load_be_some (f : Z -> option Z) s a : is_Some (load_be f s a) ->
  forall i, 0 <= i < bytes s -> is_Some (f (a + i)).
Proof.
  intros [v Hv] i Hi. destruct s; cbn [load_be bytes] in *.
  - assert (i = 0) as -> by lia. rewrite Z.add_0_r. by exists v.
  - assert (i = 0 \/ i = 1) as [-> | ->] by lia; rewrite ?Z.add_0_r; simplify_option_eq; eauto.
  - assert (i = 0 \/ i = 1 \/ i = 2 \/ i = 3) as [-> | [-> | [-> | ->]]] by lia;
      rewrite ?Z.add_0_r; simplify_option_eq; eauto.
Qed.
(** An operand in RAM: the page table maps it linearly. *)
Lemma ram_operand m s a : is_Some (load_be (ram_byte m) s a) ->
  mapped m s a /\ forall i, 0 <= i < bytes s -> is_ram m (a + i).
Proof.
  intros Hl. assert (forall i, 0 <= i < bytes s -> is_ram m (a + i)) as Hr.
  { intros i Hi. destruct (load_be_some _ _ _ Hl i Hi) as [v Hv]. unfold ram_byte, mem_view in Hv.
    by destruct (decide (is_ram m (a + i))). }
  split; [|done]. assert (0 < bytes s) by (destruct s; cbn; lia).
  destruct (Hr 0 ltac:(lia)) as ((Hp & Hs & _) & Ha & _).
  destruct (Hr (bytes s - 1) ltac:(lia)) as (_ & Hb & _).
  split_and!; [done|done|lia|lia|]. intros i Hi. destruct (Hr i Hi) as (_ & _ & ? & ? & _). done.
Qed.
Lemma is_ram_guest m x : is_ram m x -> ram_byte m x = guest_bytes m x.
Proof.
  intros Hr. unfold ram_byte, mem_view, guest_bytes. rewrite decide_True by done.
  by destruct Hr as (_ & _ & _ & -> & _).
Qed.

Lemma ram_host_addr m x : is_ram m x -> u64 (host_of m x) = image (layout m) + x.
Proof.
  intros ((_ & Hs & Hi1 & Hi2) & Hx & _ & _ & _ & ->). apply wrap_small.
  assert (address_mask m < 2 ^ 32) by (destruct Hs as [[= -> _]|[= -> _]]; done). unfold in_width. lia.
Qed.
Lemma ram_write_bytes m s a v x : mapped m s a -> (forall i, 0 <= i < bytes s -> is_ram m (a + i)) ->
  ram_byte (mem_store s a v m) x = store_be (ram_byte m) s a v x.
Proof.
  intros Hm Hr. pose proof (mem_store_mapped s a v m Hm) as Hs.
  rewrite (ram_byte_settled _ _ _ x Hs). unfold store_be, ram_byte, mem_view, host_byte.
  rewrite (q_host _ _ _ Hs).
  destruct (Z.leb_spec a x), (Z.ltb_spec x (a + bytes s)); cbn [andb].
  2-4: destruct (decide (is_ram m x)) as [Hx|]; [|done]; f_equal; unfold guest_byte, host_byte;
    rewrite put_bytes_miss; [done|]; intros i Hi;
    rewrite !ram_host_addr by auto; lia.
  remember (x - a) as i eqn:Ei. assert (x = a + i) as -> by lia. rewrite decide_True by (apply Hr; lia).
  rewrite put_bytes_hit; [|lia|intros j Hj; by apply Hr|].
  - cbn [default]. f_equal. by apply wrap_wrap.
  - intros j Hj. rewrite !ram_host_addr by (apply Hr; lia). lia.
Qed.

#[global] Instance mem_ram_laws : RamLaws mem.
Proof.
  split.
  - intros m x v. unfold ram_byte, mem_view. case_decide; [|done]. intros [= <-]. apply guest_byte_range.
  - intros m s a v E. change (memory_read s a m) with (mem_load s a m). destruct (ram_operand m s a (ex_intro _ v E)) as [Hm Hr].
    destruct (mem_load_mapped s a m Hm) as [Ev Hq].
    assert (load_be (ram_byte m) s a = load_be (guest_bytes m) s a) as Eg.
    { apply load_be_ext. intros x Hx. apply is_ram_guest. replace x with (a + (x - a)) by lia. apply Hr. lia. }
    rewrite <-Eg, E in Ev. injection Ev as Ev. split; [exact Ev|]. split.
    + intros x. rewrite (ram_byte_settled _ _ _ x Hq). unfold ram_byte, mem_view, guest_byte, host_byte.
      by rewrite (q_host _ _ _ Hq).
    + cbn. by rewrite (q_berr _ _ _ Hq).
    + cbn. by rewrite (q_sprint _ _ _ Hq).
  - intros m s a v Hl. change (memory_write s a v m) with (mem_store s a v m). destruct (ram_operand m s a Hl) as [Hm Hr].
    pose proof (mem_store_mapped s a v m Hm) as Hs. split; [|split].
    + intros x. by apply ram_write_bytes.
    + cbn. by rewrite (q_berr _ _ _ Hs).
    + cbn. by rewrite (q_sprint _ _ _ Hs).
  - intros b m. split; [|done..]. intros x. unfold ram_byte, mem_view.
    by rewrite (decide_ext (is_ram (set_active b m) x) (is_ram m x)).
Qed.

(** On a Plus the installed RAM is RAM. *)
Lemma plus_is_ram ram_pages rom_pages img phase_read (d : D) (t : T) x :
  0 < ram_pages <= 0x400 -> 0 < rom_pages -> 0 < img -> img + 2 ^ 32 <= 2 ^ 64 -> 
  img + (ram_pages + rom_pages) * 4096 <= 2 ^ 64 -> plain (plus_map ram_pages rom_pages img phase_read d t) ->
  0 <= x < ram_pages * 4096 -> is_ram (plus_map ram_pages rom_pages img phase_read d t) x.
Proof.
  intros Hram Hrom Himg Himg2 Hend Hp Hx.
  destruct (plus_ok ram_pages rom_pages img phase_read d t Hram Hrom (conj Himg Hend)) as [Hs Hok].
  pose proof (plus_ram ram_pages rom_pages img phase_read d t Hram Hrom (conj Himg Hend) B8 x 0) as Hr.
  rewrite Z.add_0_r, Z.mod_small, Z.add_0_r in Hr by lia.
  destruct Hr as (Hb & Hw & Eh); [cbn; lia..|].
  set (m := plus_map ram_pages rom_pages img phase_read d t) in *.
  assert (image (layout m) = img) as Ei.
  { unfold m, plus_map, plus_memory_layout_init, memory_map_add. rewrite for_pages_layout by done.
    cbn [layout set_layout mem_eta image]. destruct (_ <? _); [rewrite ram_mirror_layout|]; by rewrite populate_layout. }
  assert (address_mask m = 0xFFFFFF) as Em by apply plus_mask.
  unfold is_ram, ram_state. rewrite Ei, Em. split_and!; try done; try lia; apply Hok.
Qed.
End Ram.

(** C2: the memory map refines the CPU's view of memory: it obeys the bus laws
    on every access (devices, MMU faults and wait states included), and on the
    addresses that are RAM, which on a Plus are all of the installed RAM, it
    behaves as an array of bytes, without bus errors and without touching the
    instruction budget. *)
Theorem memory_refines_bus {D T} `{Devices D} `{Mmu D T} `{!MmuLaws D T} :
  BusLaws (mem_t D T) /\ RamLaws (mem_t D T) /\
  forall ram_pages rom_pages img phase_read (d : D) (t : T) x,
    0 < ram_pages <= 0x400 -> 0 < rom_pages <= 0x400 -> 0 < img -> img + 2 ^ 32 <= 2 ^ 64 ->
    let m := plus_map ram_pages rom_pages img phase_read d t in
    plain m -> 0 <= x < ram_pages * 4096 -> is_Some (ram_byte m x).
Proof.
  split; [apply _|]. split; [apply _|]. intros ram_pages rom_pages img phase_read d t x Hram Hrom Hi1 Hi2 m Hp Hx.
  unfold ram_byte, mem_view. rewrite decide_True; [by eexists|]. apply plus_is_ram; try done; lia.
Qed.
Lemma memory_refines_bus_witness :
  RamLaws (mem_t latch unit) /\ is_Some (ram_byte (plus_map 0x100 0x20 0x10000 7 (mk_latch 0) tt) 0x1234).
Proof.
  destruct (@memory_refines_bus latch unit _ _ _) as (_ & Hl & Hr). split; [exact Hl|].
  apply (Hr 0x100 0x20 0x10000 7 (mk_latch 0) tt 0x1234); [lia..|split; reflexivity|lia].
Defined.
