(* ===== verification/MemoryDebug.v ===== *)
(** * The debugger's view of memory, and wait states

    The side-effect free accessors of memory.c agree with the CPU's on RAM and
    ROM, and the block read is the sequence of its byte reads.  At the end:
    memory_io_penalty turns bus wait cycles into instruction slots with an 8-bit
    fraction, memory_io_esync_penalty computes the wait for the next edge of the
    6800 E clock. *)
From S2P Require Import Prelude Bus Memory MemoryBus MemoryProofs MemoryMap MemoryLayout MemoryTheorems.

(** memory_debug_read_uint8/16/32 by size *)
Definition debug_load {D T} `{Devices D} `{Mmu D T} (s : size) : Z -> mem_t D T -> Z * mem_t D T :=
  match s with
  | B8 => memory_debug_read_uint8 | B16 => memory_debug_read_uint16 | B32 => memory_debug_read_uint32
  end.

Section Debug.
Context {D T : Type} `{Devices D} `{Mmu D T} `{!MmuLaws D T}.
#[local] Abbreviation mem := (mem_t D T).
Implicit Types m : mem.

Lemma mapped_page m s x : mapped m s x -> page_of x < page_count m.
Proof.
  intros Hm. destruct (mapped_head _ _ _ Hm) as [Hx _]. destruct Hm as (_ & Hs & _).
  pose proof (masked_range m x Hs) as [_ Hc]. rewrite (masked_id m x Hs Hx) in Hc. lia.
Qed.
Lemma debug_in_page s x m : mapped m s x -> in_page s x = true ->
  exists v, debug_read_in_page s x m = (v, m) /\ load_be (guest_bytes m) s x = Some v.
Proof.
  intros Hm Hin. pose proof (mapped_page _ _ _ Hm) as Hc.
  destruct (mapped_head _ _ _ Hm) as (_ & _ & Hb). destruct Hm as (Hp & _).
  exists (LOAD_BE s (host_of m x) m). split; [|by apply LOAD_BE_guest].
  unfold debug_read_in_page, debug_translate, mmu_on. rewrite (proj2 Hp).
  rewrite (proj2 (Z.leb_gt _ _) Hc). destruct (backed_spec _ _ Hb) as [Hh _].
  by rewrite (proj2 (Z.eqb_neq _ _) Hh).
Qed.

Definition debug_ok (s : size) (rd : Z -> mem -> Z * mem) : Prop :=
  forall x m, mapped m s x -> exists v, rd x m = (v, m) /\ load_be (guest_bytes m) s x = Some v.
Lemma debug8_ok : debug_ok B8 memory_debug_read_uint8.
Proof.
  intros x m Hm. destruct (mapped_head _ _ _ Hm) as [Hx _]. destruct (id Hm) as (Hp & Hs & _).
  unfold memory_debug_read_uint8. rewrite (masked_id m x Hs Hx), (proj1 Hp). apply debug_in_page; [done|].
  apply in_page_spec. cbn. dlia.
Qed.
(** The halves of an access across pages. *)
Lemma debug_halves rd s s2 x m : debug_ok s rd -> bytes s2 = 2 * bytes s -> mapped m s2 x ->
  u32 (x + bytes s) = x + bytes s /\ exists hi lo, rd x m = (hi, m) /\ rd (x + bytes s) m = (lo, m) /\
    load_be (guest_bytes m) s x = Some hi /\ load_be (guest_bytes m) s (x + bytes s) = Some lo.
Proof.
  intros Hrd E Hm. assert (0 < bytes s) by (destruct s; cbn; lia).
  pose proof (mapped_part _ _ s _ 0 Hm ltac:(lia) ltac:(lia)) as Hm1. rewrite Z.add_0_r in Hm1.
  pose proof (mapped_part _ _ s _ (bytes s) Hm ltac:(lia) ltac:(lia)) as Hm2.
  destruct (Hrd x m Hm1) as (hi & ? & ?), (Hrd _ m Hm2) as (lo & ? & ?).
  split; [|by exists hi, lo]. destruct (mapped_head _ _ _ Hm2) as [Hx _].
  apply (space_u32 m); [apply Hm|done].
Qed.
Lemma debug16_ok : debug_ok B16 memory_debug_read_uint16.
Proof.
  intros x m Hm. destruct (mapped_head _ _ _ Hm) as [Hx _]. destruct (id Hm) as (Hp & Hs & _).
  unfold memory_debug_read_uint16. rewrite (masked_id m x Hs Hx), (proj1 Hp).
  destruct (in_page B16 x) eqn:Hin; [by apply debug_in_page|].
  destruct (debug_halves _ B8 B16 x m debug8_ok eq_refl Hm) as (Eu & hi & lo & R1 & R2 & E1 & E2).
  cbn [bytes] in *. rewrite Eu, R1, R2. cbn [load_be] in *. rewrite E1, E2. cbn [mbind option_bind].
  eexists. split; [done|]. f_equal. symmetry. apply wrap_small.
  eapply (load_be_width (guest_bytes m) B16 x); [apply guest_bytes_width|]. cbn [load_be]. by rewrite E1, E2.
Qed.
Lemma debug32_ok : debug_ok B32 memory_debug_read_uint32.
Proof.
  intros x m Hm. destruct (mapped_head _ _ _ Hm) as [Hx _]. destruct (id Hm) as (Hp & Hs & _).
  unfold memory_debug_read_uint32. rewrite (masked_id m x Hs Hx), (proj1 Hp).
  destruct (in_page B32 x) eqn:Hin; [by apply debug_in_page|].
  destruct (debug_halves _ B16 B32 x m debug16_ok eq_refl Hm) as (Eu & hi & lo & R1 & R2 & E1 & E2).
  cbn [bytes] in *. rewrite Eu, R1, R2. eexists. split; [done|].
  cbn [load_be] in *. replace (x + 3) with (x + 2 + 1) by lia.
  destruct (guest_bytes m x), (guest_bytes m (x + 1)), (guest_bytes m (x + 2)),
    (guest_bytes m (x + 2 + 1)); try discriminate.
  injection E1 as <-. by injection E2 as <-.
Qed.

(** On RAM and ROM a debugger read of any size and alignment returns what
    the CPU would read and leaves the whole machine state as it was: no log
    entry, no counter, no SoA entry changes. *)
Theorem debug_read_correct s x m : mapped m s x ->
  debug_load s x m = ((mem_load s x m).1, m).
Proof.
  intros Hm. destruct (mem_load_mapped s x m Hm) as [E _].
  assert (exists v, debug_load s x m = (v, m) /\ load_be (guest_bytes m) s x = Some v) as (v & -> & E').
  { destruct s; [by apply debug8_ok|by apply debug16_ok|by apply debug32_ok]. }
  rewrite E' in E. by injection E as ->.
Qed.

(** ** Block reads *)
Lemma offset_range x : 0 <= offset_of x < 4096.
Proof. rewrite offset_of_mod. apply Z.mod_pos_bound. lia. Qed.
Lemma chunk_range len a : 0 < len ->
  let chunk := if len <? MEM_PAGE_SIZE - offset_of a then len else MEM_PAGE_SIZE - offset_of a in
  0 < chunk <= len /\ offset_of a + chunk <= 4096.
Proof. intros Hl. pose proof (offset_range a). unfold MEM_PAGE_SIZE. cbv zeta. zbool; lia. Qed.

Lemma block_total fuel addr len m : 0 <= len <= Z.of_nat fuel -> is_Some (read_block_loop fuel addr len m).
Proof.
  revert addr len m. induction fuel as [|fuel IH]; intros addr len m Hl; cbn [read_block_loop].
  - assert (len = 0) as -> by lia. by eexists.
  - destruct (Z.eqb_spec len 0); [by eexists|].
    pose proof (chunk_range len (Z.land addr (address_mask m)) ltac:(lia)) as [Hc _].
    destruct (debug_read_chunk _ _ _) as [l m1].
    match goal with |- context [read_block_loop fuel ?a ?b m1] =>
      destruct (IH a b m1 ltac:(cbv zeta in Hc; lia)) as [[l' m2] ->] end. by eexists.
Qed.

(** A host-backed range of guest addresses. *)
Definition backed_range m (addr len : Z) : Prop :=
  plain m /\ space_ok m /\ 0 <= addr /\ addr + len - 1 <= address_mask m /\
  forall i, 0 <= i < len -> backed m (page_of (addr + i)) = true.

Lemma chunk_ok m addr len chunk : backed_range m addr len -> 0 < chunk <= len ->
  offset_of addr + chunk <= 4096 ->
  debug_read_chunk addr (Z.to_nat chunk) m = (guest_byte m <$> seqZ addr chunk, m).
Proof.
  intros (Hp & Hs & Ha & He & Hb) Hc Ho. unfold debug_read_chunk, debug_translate, mmu_on.
  rewrite (masked_id m addr Hs) by lia. rewrite (proj1 Hp), (proj2 Hp).
  pose proof (Hb 0 ltac:(lia)) as Hb0. rewrite Z.add_0_r in Hb0.
  pose proof (masked_range m addr Hs) as [_ Hpc]. rewrite (masked_id m addr Hs) in Hpc by lia.
  rewrite (proj2 (Z.ltb_lt _ _) (proj2 Hpc)). destruct (backed_spec _ _ Hb0) as [Hh Hd].
  rewrite Hd, (proj2 (Z.eqb_neq _ _) Hh). cbn [negb andb]. f_equal. fold (host_of m addr).
  unfold host_span, seqZ. rewrite <-list_fmap_compose. apply list_fmap_ext. intros k i Hk.
  apply lookup_seq in Hk as [-> Hk]. cbn. unfold guest_byte, host_of. f_equal.
  rewrite !page_of_div, !offset_of_mod in *.
  assert ((Z.of_nat k + addr) / 4096 = addr / 4096 /\ (Z.of_nat k + addr) mod 4096 = addr mod 4096 + Z.of_nat k)
    as [-> ->] by dlia. lia.
Qed.
Lemma block_ok fuel m addr len : backed_range m addr len -> 0 <= len <= Z.of_nat fuel ->
  read_block_loop fuel addr len m = Some (guest_byte m <$> seqZ addr len, m).
Proof.
  revert addr len. induction fuel as [|fuel IH]; intros addr len Hr Hl; cbn [read_block_loop].
  - by assert (len = 0) as -> by lia.
  - destruct (Z.eqb_spec len 0) as [->|]; [done|].
    pose proof (chunk_range len addr ltac:(lia)) as [Hc Ho]. destruct (id Hr) as (Hp & Hs & Ha & He & Hb).
    rewrite (masked_id m addr Hs) by lia. revert Hc Ho.
    generalize (if len <? MEM_PAGE_SIZE - offset_of addr then len else MEM_PAGE_SIZE - offset_of addr) as chunk.
    intros chunk Hc Ho. rewrite (chunk_ok m addr len) by done.
    replace (seqZ addr len) with (seqZ addr chunk ++ seqZ (addr + chunk) (len - chunk)) by
      (rewrite <-seqZ_app by lia; f_equal; lia).
    rewrite fmap_app. destruct (Z.eqb_spec len chunk) as [->|].
    { rewrite Z.sub_diag. by destruct fuel. }
    rewrite (space_u32 m) by (done || lia). rewrite IH; [done| |lia].
    split_and!; [done|done|lia|lia|]. intros i Hi. rewrite <-Z.add_assoc. apply Hb. lia.
Qed.

(** Memory_debug_read_block terminates on every machine state and range,
    and over RAM and ROM it returns the bytes at the consecutive guest
    addresses, page by page, without changing the state. *)
Theorem debug_read_block_correct m addr len : 0 <= len ->
  is_Some (memory_debug_read_block addr len m) /\
  (backed_range m addr len ->
   memory_debug_read_block addr len m = Some (guest_byte m <$> seqZ addr len, m)).
Proof.
  intros Hl. split; [apply block_total; lia|]. intros Hr. apply block_ok; [done|lia].
Qed.
End Debug.

Lemma debug_read_correct_witness :
  debug_load B32 0x0FFFFE small_plus = ((mem_load B32 0x0FFFFE small_plus).1, small_plus).
Proof. apply debug_read_correct. apply small_plus_mapped; cbn; lia. Defined.
Lemma debug_read_block_correct_witness :
  memory_debug_read_block 0x3FFFF0 0x20 small_plus =
  Some (guest_byte small_plus <$> seqZ 0x3FFFF0 0x20, small_plus).
Proof.
  apply (debug_read_block_correct small_plus 0x3FFFF0 0x20); [lia|].
  destruct small_plus_ok as [Hp [Hs _]]. split; [exact Hp|]. split; [exact Hs|]. split; [lia|].
  split; [rewrite small_plus_mask; lia|]. intros i Hi.
  pose proof (small_plus_region (0x3FFFF0 + i) ltac:(lia)) as Hr. unfold plus_region in Hr. revert Hr.
  destruct (Z.ltb_spec (0x3FFFF0 + i) 0x400000); [intros Hr; apply Hr|]. 
  rewrite Z.mod_small by lia. zprune. intros Hr. apply Hr.
Defined.

(** ** The E clock *)

(** The E-clock penalty is exact: waiting that many cycles reaches the next
    E-clock edge, and one cycle less does not; it is never zero and never more
    than a period. *)
Theorem esync_penalty_correct now period : 0 <= now < 2 ^ 56 -> 0 < period <= 2 ^ 32 - 256 ->
  exists c, memory_esync_penalty_cycles now period = Some c /\
    let edge := (now * 256 / period + 1) * period in
    0 < c /\ (now + c - 1) * 256 < edge <= (now + c) * 256 /\ c * 256 < period + 256.
Proof.
  intros Hn Hp. unfold memory_esync_penalty_cycles. rewrite (proj2 (Z.eqb_neq period 0)) by lia.
  eexists. split; [reflexivity|]. cbv zeta.
  rewrite Z.shiftl_mul_pow2 by done. change (2 ^ 8) with 256.
  unfold u64. rewrite wrap_small by (unfold in_width; lia).
  pose proof (Z.mod_pos_bound (now * 256) period ltac:(lia)) as Hm.
  pose proof (Z.div_mod (now * 256) period ltac:(lia)) as Hd.
  rewrite (u32_small ((now * 256) mod period)) by (unfold in_width; lia).
  rewrite (u32_small (period - _)) by (unfold in_width; lia).
  rewrite u32_small by (unfold in_width; lia). rewrite Z.shiftr_div_pow2 by done. change (2 ^ 8) with 256.
  set (r := (now * 256) mod period) in *. set (q := now * 256 / period) in *.
  pose proof (Z.div_mod (period - r + 255) 256 ltac:(lia)). pose proof (Z.mod_pos_bound (period - r + 255) 256 ltac:(lia)).
  nia.
Qed.
Lemma esync_penalty_correct_witness :
  exists c, memory_esync_penalty_cycles 13 2560 = Some c /\ 0 < c.
Proof.
  destruct (esync_penalty_correct 13 2560) as (c & E & Hc & _); [lia..|]. exact (ex_intro _ c (conj E Hc)).
Defined.

(** ** Cycles into instruction slots *)

(** The sprint's accounting is in order: a CPI is set and less than one slot of
    wait states is carried over. *)
Definition sprint_ok (s : sprint_t) : Prop :=
  0 < io_cpi_x256 s /\ 0 <= io_penalty_remainder s < io_cpi_x256 s /\
  0 <= io_phantom_instructions s < 2 ^ 32 /\ 0 <= burndown s < 2 ^ 32.

Lemma io_penalty_step c s : sprint_ok s -> 0 <= c -> io_cpi_x256 s + c * 256 <= 2 ^ 32 ->
  let s' := memory_io_penalty c s in
  let burn := (io_penalty_remainder s + c * 256) / io_cpi_x256 s in
  sprint_ok s' /\ io_cpi_x256 s' = io_cpi_x256 s /\
  io_penalty_remainder s' = (io_penalty_remainder s + c * 256) mod io_cpi_x256 s /\
  io_phantom_instructions s' = u32 (io_phantom_instructions s + burn) /\
  burndown s' = Z.max 0 (burndown s - burn).
Proof.
  intros (Hcpi & Hr & Hph & Hb) Hc Hlim s' burn. subst s'. unfold memory_io_penalty.
  rewrite (proj2 (Z.eqb_neq (io_cpi_x256 s) 0)) by lia.
  rewrite Z.shiftl_mul_pow2 by done. change (2 ^ 8) with 256. rewrite (u32_small (c * 256)) by (unfold in_width; lia).
  rewrite (u32_small (io_penalty_remainder s + c * 256)) by (unfold in_width; lia). cbv zeta. fold burn.
  pose proof (Z.div_mod (io_penalty_remainder s + c * 256) (io_cpi_x256 s) ltac:(lia)) as Hd. fold burn in Hd.
  pose proof (Z.mod_pos_bound (io_penalty_remainder s + c * 256) (io_cpi_x256 s) ltac:(lia)) as Hm.
  set (rem := (io_penalty_remainder s + c * 256) mod io_cpi_x256 s) in *.
  assert (0 <= burn) by (apply Z.div_pos; lia).
  assert (burn * io_cpi_x256 s = io_penalty_remainder s + c * 256 - rem) as Eb by lia.
  rewrite Eb, (u32_small (burndown s)) by (unfold in_width; lia).
  rewrite (u32_small (_ - rem)), (u32_small (_ - (_ - rem))) by (unfold in_width; lia).
  pose proof (u32_range (io_phantom_instructions s + burn)).
  unfold sprint_ok. destruct (Z.ltb_spec 0 burn); cbn [io_cpi_x256 io_penalty_remainder io_phantom_instructions burndown].
  - split_and!; zbool; try lia.
  - assert (burn = 0) as -> by lia. rewrite Z.add_0_r, u32_small by (unfold in_width; lia). split_and!; lia.
Qed.

(** Wait states are converted without loss: over any sequence of penalties
    the slots burned times the CPI plus the carried fraction is exactly the
    cycles charged plus the fraction carried in; each burned slot counts once as
    a phantom instruction and once against the sprint's budget, which stops at
    zero. *)
Theorem io_penalty_conserves l s : sprint_ok s ->
  Forall (fun c => 0 <= c /\ io_cpi_x256 s + c * 256 <= 2 ^ 32) l ->
  let s' := fold_left (fun s c => memory_io_penalty c s) l s in
  sprint_ok s' /\
  exists burned, 0 <= burned /\
    burned * io_cpi_x256 s + io_penalty_remainder s' = io_penalty_remainder s + 256 * foldr Z.add 0 l /\
    io_phantom_instructions s' = u32 (io_phantom_instructions s + burned) /\
    burndown s' = Z.max 0 (burndown s - burned).
Proof.
  revert s. induction l as [|c l IH]; intros s Hs Hl s'.
  - split; [done|]. exists 0. cbn. destruct Hs as (? & ? & ? & ?).
    rewrite Z.add_0_r, u32_small by (unfold in_width; lia). split_and!; lia.
  - apply Forall_cons_1 in Hl as [[Hc Hlim] Hl].
    destruct (io_penalty_step c s Hs Hc Hlim) as (Hs1 & Ecpi & Erem & Eph & Ebd).
    unfold s'. cbn [fold_left foldr]. set (s1 := memory_io_penalty c s) in *.
    rewrite <-Ecpi in Hl. destruct (IH s1 Hs1 Hl) as (Hs' & b & Hb0 & Hb1 & Hb2 & Hb3). split; [done|].
    destruct Hs as (Hcpi & Hr & _).
    set (q := (io_penalty_remainder s + c * 256) / io_cpi_x256 s) in *.
    assert (0 <= q) by (apply Z.div_pos; lia).
    pose proof (Z.div_mod (io_penalty_remainder s + c * 256) (io_cpi_x256 s) ltac:(lia)) as Hd. fold q in Hd.
    exists (q + b). split; [lia|]. rewrite Hb2, Hb3, Eph, Ebd. rewrite Ecpi in Hb1.
    split; [nia|]. split; [|lia]. unfold u32. rewrite wrap_add_l. f_equal. lia.
Qed.
Lemma io_penalty_conserves_witness :
  sprint_ok (fold_left (fun s c => memory_io_penalty c s) [2; 5; 9] (mk_sprint 1000 100 0 3072 0 0 1000 0)).
Proof.
  apply (io_penalty_conserves [2; 5; 9] (mk_sprint 1000 100 0 3072 0 0 1000 0)).
  - unfold sprint_ok. cbn. lia.
  - repeat apply Forall_cons_2; cbn; [lia..|]. apply Forall_nil_2.
Defined.
