(* ===== verification/CpuState.v ===== *)
(** * CPU state

    [struct cpu] of cpu_internal.h, the status register, and the monad in
    which the instruction interpreters run: the CPU, the bus it shares with
    the memory layer and the trace of exceptions it has taken. *)
From S2P Require Import Prelude Bus.

Definition CPU_MODEL_68000 : Z := 68000.
Definition CPU_MODEL_68030 : Z := 68030.

(** The condition codes.  As in the source each flag is a [uint32_t] that is
    only ever tested for being nonzero. *)
Record ccr_t := mk_ccr {
  extend : Z; negative : Z; zero : Z; overflow : Z; carry : Z;
}.

Definition ccr_eta (c : ccr_t) : ccr_t :=
  mk_ccr (extend c) (negative c) (zero c) (overflow c) (carry c).
Definition set_extend (v : Z) (c : ccr_t) : ccr_t := ltac:(field_set ccr_eta extend v c).
Definition set_negative (v : Z) (c : ccr_t) : ccr_t := ltac:(field_set ccr_eta negative v c).
Definition set_zero (v : Z) (c : ccr_t) : ccr_t := ltac:(field_set ccr_eta zero v c).
Definition set_overflow (v : Z) (c : ccr_t) : ccr_t := ltac:(field_set ccr_eta overflow v c).
Definition set_carry (v : Z) (c : ccr_t) : ccr_t := ltac:(field_set ccr_eta carry v c).

(** [struct cpu] without the host pointers (mmu, fpu, object-tree nodes) and
    the unused bus_error_* copies. *)
Record cpu_t := mk_cpu {
  pc : Z;
  d : list Z;
  a : list Z;
  ssp : Z;
  usp : Z;
  trace : Z;
  supervisor : Z;
  interrupt_mask : Z;
  cc : ccr_t;
  ipl : Z;
  cpu_model : Z;
  halted : Z;
  stopped : Z;
  last_bus_error_pc : Z;
  vbr : Z;
  msp : Z;
  m : Z;
  instruction_pc : Z;
  ir : Z;
  ir_pc : Z;
}.

Definition cpu_eta (c : cpu_t) : cpu_t :=
  mk_cpu (pc c) (d c) (a c) (ssp c) (usp c) (trace c) (supervisor c) (interrupt_mask c) (cc c)
    (ipl c) (cpu_model c) (halted c) (stopped c) (last_bus_error_pc c) (vbr c) (msp c) (m c)
    (instruction_pc c) (ir c) (ir_pc c).

(** Assignments to the fields convert to the width of the field. *)
Definition set_pc (v : Z) (c : cpu_t) : cpu_t := ltac:(field_set cpu_eta pc (u32 v) c).
Definition set_d (v : list Z) (c : cpu_t) : cpu_t := ltac:(field_set cpu_eta d v c).
Definition set_a (v : list Z) (c : cpu_t) : cpu_t := ltac:(field_set cpu_eta a v c).
Definition set_ssp (v : Z) (c : cpu_t) : cpu_t := ltac:(field_set cpu_eta ssp (u32 v) c).
Definition set_usp (v : Z) (c : cpu_t) : cpu_t := ltac:(field_set cpu_eta usp (u32 v) c).
Definition set_trace (v : Z) (c : cpu_t) : cpu_t := ltac:(field_set cpu_eta trace (u32 v) c).
Definition set_supervisor (v : Z) (c : cpu_t) : cpu_t := ltac:(field_set cpu_eta supervisor (u32 v) c).
Definition set_interrupt_mask (v : Z) (c : cpu_t) : cpu_t :=
  ltac:(field_set cpu_eta interrupt_mask (u32 v) c).
Definition set_cc (v : ccr_t) (c : cpu_t) : cpu_t := ltac:(field_set cpu_eta cc v c).
Definition set_ipl (v : Z) (c : cpu_t) : cpu_t := ltac:(field_set cpu_eta ipl (u32 v) c).
Definition set_halted (v : Z) (c : cpu_t) : cpu_t := ltac:(field_set cpu_eta halted (u32 v) c).
Definition set_stopped (v : Z) (c : cpu_t) : cpu_t := ltac:(field_set cpu_eta stopped (u32 v) c).
Definition set_last_bus_error_pc (v : Z) (c : cpu_t) : cpu_t :=
  ltac:(field_set cpu_eta last_bus_error_pc (u32 v) c).
Definition set_vbr (v : Z) (c : cpu_t) : cpu_t := ltac:(field_set cpu_eta vbr (u32 v) c).
Definition set_msp (v : Z) (c : cpu_t) : cpu_t := ltac:(field_set cpu_eta msp (u32 v) c).
Definition set_m (v : Z) (c : cpu_t) : cpu_t := ltac:(field_set cpu_eta m (u32 v) c).
Definition set_instruction_pc (v : Z) (c : cpu_t) : cpu_t :=
  ltac:(field_set cpu_eta instruction_pc (u32 v) c).
Definition set_ir (v : Z) (c : cpu_t) : cpu_t := ltac:(field_set cpu_eta ir (u16 v) c).
Definition set_ir_pc (v : Z) (c : cpu_t) : cpu_t := ltac:(field_set cpu_eta ir_pc (u32 v) c).

(** Register file access: [n] is always a three-bit field. *)
Definition reg_nth (l : list Z) (n : Z) : Z := nth (Z.to_nat n) l 0.
Definition get_d (n : Z) (c : cpu_t) : Z := reg_nth (d c) n.
Definition get_a (n : Z) (c : cpu_t) : Z := reg_nth (a c) n.
Definition put_d (n v : Z) (c : cpu_t) : cpu_t := set_d (<[Z.to_nat n := u32 v]> (d c)) c.
Definition put_a (n v : Z) (c : cpu_t) : cpu_t := set_a (<[Z.to_nat n := u32 v]> (a c)) c.

(** ** Construction and the accessors of cpu.c *)

(** cpu_init without a checkpoint: a zeroed structure in supervisor mode with
    all maskable interrupts masked. *)
Definition cpu_init (model : Z) : cpu_t :=
  mk_cpu 0 (replicate 8 0) (replicate 8 0) 0 0 0 1 7 (mk_ccr 0 0 0 0 0) 0 model 0 0 0 0 0 0 0 0 0.

Definition cpu_get_an (c : cpu_t) (n : Z) : Z := get_a n c.
Definition cpu_get_dn (c : cpu_t) (n : Z) : Z := get_d n c.
Definition cpu_get_pc (c : cpu_t) : Z := pc c.
Definition cpu_set_an (c : cpu_t) (n v : Z) : cpu_t := put_a n v c.
Definition cpu_set_dn (c : cpu_t) (n v : Z) : cpu_t := put_d n v c.
Definition cpu_set_pc (c : cpu_t) (v : Z) : cpu_t := set_pc v c.
Definition cpu_get_ssp (c : cpu_t) : Z := ssp c.
Definition cpu_set_ssp (c : cpu_t) (v : Z) : cpu_t := set_ssp v c.
Definition cpu_get_usp (c : cpu_t) : Z := usp c.
Definition cpu_set_usp (c : cpu_t) (v : Z) : cpu_t := set_usp v c.
Definition cpu_get_ipl (c : cpu_t) : Z := ipl c.
Definition cpu_set_ipl (c : cpu_t) (v : Z) : cpu_t := set_ipl v c.
Definition cpu_is_stopped (c : cpu_t) : bool := truthy (stopped c).
Definition cpu_is_supervisor (c : cpu_t) : bool := truthy (supervisor c).

(** ** Condition codes and the status register *)

Definition read_ccr (c : ccr_t) : Z :=
  Z.lor (if truthy (extend c) then 16 else 0)
  (Z.lor (if truthy (negative c) then 8 else 0)
  (Z.lor (if truthy (zero c) then 4 else 0)
  (Z.lor (if truthy (overflow c) then 2 else 0)
         (if truthy (carry c) then 1 else 0)))).

Definition write_ccr (v : Z) (c : ccr_t) : ccr_t :=
  mk_ccr (Z.land (Z.shiftr v 4) 1) (Z.land (Z.shiftr v 3) 1) (Z.land (Z.shiftr v 2) 1)
    (Z.land (Z.shiftr v 1) 1) (Z.land v 1).

Definition cpu_get_sr (c : cpu_t) : Z :=
  let sr := read_ccr (cc c) in
  let sr :=
    if cpu_model c =? CPU_MODEL_68030 then
      let sr := Z.lor sr (Z.shiftl (Z.land (Z.shiftr (trace c) 1) 1) 15) in
      let sr := Z.lor sr (Z.shiftl (Z.land (trace c) 1) 14) in
      if truthy (m c) then Z.lor sr (Z.shiftl 1 12) else sr
    else if truthy (trace c) then Z.lor sr (Z.shiftl 1 15) else sr in
  let sr := if truthy (supervisor c) then Z.lor sr (Z.shiftl 1 13) else sr in
  u16 (Z.lor sr (Z.shiftl (interrupt_mask c) 8)).

(** Test CPU condition codes (M68000PRM table 3-19). *)
Definition conditional_test (c : ccr_t) (test : Z) : bool :=
  let C := truthy (carry c) in let Z_ := truthy (zero c) in
  let V := truthy (overflow c) in let N := truthy (negative c) in
  match test with
  | 0x0 => true
  | 0x1 => false
  | 0x2 => negb C && negb Z_
  | 0x3 => C || Z_
  | 0x4 => negb C
  | 0x5 => C
  | 0x6 => negb Z_
  | 0x7 => Z_
  | 0x8 => negb V
  | 0x9 => V
  | 0xA => negb N
  | 0xB => N
  | 0xC => (N && V) || (negb N && negb V)
  | 0xD => (N && negb V) || (negb N && V)
  | 0xE => (N && V && negb Z_) || (negb N && negb V && negb Z_)
  | 0xF => Z_ || (N && negb V) || (negb N && V)
  | _ => false
  end.
