(* ===== verification/CpuAlu.v ===== *)
(** * Arithmetic of the 68k cores

    The value and condition-code computations of the macros of cpu_ops.h and
    of the BCD helpers of cpu_internal.h, as pure functions from operands and
    flags to result and flags; then what they compute. *)
From S2P Require Import Prelude Bus CpuState.

(** [1u << n] *)
Definition bit (n : Z) : Z := Z.shiftl 1 n.

(** ** Condition-code updates *)

Definition UPDATE_N (s : size) (res : Z) (c : ccr_t) : ccr_t :=
  set_negative (Z.land res (2 ^ (bits s - 1))) c.
Definition UPDATE_Z (res : Z) (c : ccr_t) : ccr_t := set_zero (cbool (res =? 0)) c.
Definition UPDATE_NZ_CLEAR_V (s : size) (res : Z) (c : ccr_t) : ccr_t :=
  set_overflow 0 (UPDATE_Z res (UPDATE_N s res c)).
Definition UPDATE_NZ_CLEAR_CV (s : size) (res : Z) (c : ccr_t) : ccr_t :=
  set_carry 0 (set_overflow 0 (UPDATE_Z res (UPDATE_N s res c))).

Definition UPDATE_V_SUB (s : size) (dst src res : Z) (c : ccr_t) : ccr_t :=
  set_overflow (Z.shiftr (Z.land (Z.lxor dst src) (Z.lxor dst res)) (bits s - 1)) c.
Definition UPDATE_C_SUB (dst res : Z) (c : ccr_t) : ccr_t := set_carry (cbool (dst <? res)) c.
Definition UPDATE_CX_SUBX (s : size) (dst src res : Z) (c : ccr_t) : ccr_t :=
  let v := Z.shiftr (Z.lor (Z.land (Z.lnot dst) src) (Z.land (Z.lor (Z.lnot dst) src) res))
             (bits s - 1) in
  set_carry v (set_extend v c).
Definition UPDATE_V_ADD (s : size) (dst src res : Z) (c : ccr_t) : ccr_t :=
  set_overflow (Z.shiftr (Z.land (Z.lnot (Z.lxor dst src)) (Z.lxor dst res)) (bits s - 1)) c.
Definition UPDATE_C_ADD (dst res : Z) (c : ccr_t) : ccr_t := set_carry (cbool (res <? dst)) c.
Definition UPDATE_CX_ADDX (s : size) (dst src res : Z) (c : ccr_t) : ccr_t :=
  let v := Z.shiftr (Z.lor (Z.land dst src) (Z.land (Z.lor dst src) (Z.lnot res))) (bits s - 1) in
  set_carry v (set_extend v c).
Definition UPDATE_X_SHIFT (count : Z) (c : ccr_t) : ccr_t :=
  set_extend (cbool ((truthy count && truthy (carry c)) || (negb (truthy count) && truthy (extend c)))) c.
Definition UPDATE_C_SHIFT_L (s : size) (data count : Z) (c : ccr_t) : ccr_t :=
  set_carry (cbool (truthy count && (count <=? bits s) && truthy (Z.land data (bit (bits s - count))))) c.
Definition UPDATE_C_SHIFT_R (s : size) (data count res : Z) (c : ccr_t) : ccr_t :=
  set_carry (cbool (truthy count &&
    truthy (if bits s <? count then res else Z.land data (bit (count - 1))))) c.

(** ** Addition, subtraction, negation *)

Definition GENERIC_SUB (s : size) (dst src : Z) (c : ccr_t) : Z * ccr_t :=
  let res := trunc s (dst - src) in
  (res, UPDATE_Z res (UPDATE_N s res (UPDATE_V_SUB s dst src res (UPDATE_C_SUB dst res c)))).

Definition SUB (s : size) (dst src : Z) (c : ccr_t) : Z * ccr_t :=
  let '(res, c) := GENERIC_SUB s dst src c in (res, set_extend (carry c) c).

Definition SUBX (s : size) (dst src : Z) (c : ccr_t) : Z * ccr_t :=
  let res := trunc s (dst - src - cbool (truthy (extend c))) in
  let c := UPDATE_N s res (UPDATE_V_SUB s dst src res (UPDATE_CX_SUBX s dst src res c)) in
  (res, set_zero (cbool (truthy (zero c) && (res =? 0))) c).

Definition GENERIC_ADD (s : size) (dst src : Z) (c : ccr_t) : Z * ccr_t :=
  let res := trunc s (dst + src) in
  (res, UPDATE_Z res (UPDATE_N s res (UPDATE_V_ADD s dst src res (UPDATE_C_ADD dst res c)))).

Definition ADD (s : size) (dst src : Z) (c : ccr_t) : Z * ccr_t :=
  let '(res, c) := GENERIC_ADD s dst src c in (res, set_extend (carry c) c).

Definition ADDX (s : size) (dst src : Z) (c : ccr_t) : Z * ccr_t :=
  let res := trunc s (dst + src + cbool (truthy (extend c))) in
  let c := UPDATE_N s res (UPDATE_V_ADD s dst src res (UPDATE_CX_ADDX s dst src res c)) in
  (res, set_zero (cbool (truthy (zero c) && (res =? 0))) c).

Definition NEGX_cc (s : size) (dst : Z) (c : ccr_t) : Z * ccr_t :=
  let res := trunc s (0 - dst - cbool (truthy (extend c))) in
  let v := Z.land (Z.shiftr (Z.lor dst res) (bits s - 1)) 1 in
  let c := set_carry v (set_extend v c) in
  let c := set_zero (cbool (truthy (zero c) && (res =? 0))) c in
  let c := set_overflow (Z.land (Z.shiftr (Z.land res dst) (bits s - 1)) 1) c in
  (res, UPDATE_N s res c).

Definition NEG_cc (s : size) (dst : Z) (c : ccr_t) : Z * ccr_t :=
  let res := trunc s (0 - dst) in
  let c := UPDATE_N s res (UPDATE_Z res c) in
  let v := cbool (0 <? dst) in
  let c := set_carry v (set_extend v c) in
  (res, set_overflow (Z.land (Z.shiftr (Z.land dst res) (bits s - 1)) 1) c).

(** ** Shifts and rotates of a data register

    [d] is the operand, [c] the count; the result and the flags. *)

Definition SHIFT_RIGHT (s : size) (d c r : Z) (f : ccr_t) : ccr_t :=
  UPDATE_NZ_CLEAR_V s r (UPDATE_X_SHIFT c (UPDATE_C_SHIFT_R s d c r f)).

(** ASHIFT_LEFT's overflow: the C expression, [None] when the right operand of
    a shift it evaluates is negative or at least the width of [int]. *)
Definition asl_overflow (s : size) (d c r : Z) : option bool :=
  if (r =? 0) && truthy d then Some true
  else if (c <? 32) && (c <=? bits s - 1) then
    Some (truthy (Z.shiftr (trunc s (Z.lxor (Z.shiftr (signed s (Z.land (bit (bits s - 1)) d)) c) d))
                    (bits s - c - 1)))
  else None.

Definition ASHIFT_LEFT (s : size) (d c r : Z) (f : ccr_t) : option ccr_t :=
  let f := UPDATE_X_SHIFT c (UPDATE_C_SHIFT_L s d c f) in
  let f := UPDATE_Z r (UPDATE_N s r f) in
  match asl_overflow s d c r with
  | Some v => Some (set_overflow (cbool v) f)
  | None => None
  end.

Definition LSHIFT_LEFT (s : size) (d c r : Z) (f : ccr_t) : ccr_t :=
  UPDATE_NZ_CLEAR_V s r (UPDATE_X_SHIFT c (UPDATE_C_SHIFT_L s d c f)).

(** The [op] argument of the shift macros: immediate forms ([DATA] is 1..8)
    and register forms (count 0..63). *)
Definition asr_data (s : size) (d c : Z) : Z :=
  trunc s (Z.shiftr (signed s d) (match s with B8 => Z.min c 7 | _ => c end)).
Definition asr_reg (s : size) (d c : Z) : Z := trunc s (Z.shiftr (signed s d) (Z.min c (bits s - 1))).
Definition lsr_data (s : size) (d c : Z) : Z :=
  match s with B8 => if 7 <? c then 0 else trunc s (Z.shiftr d c) | _ => trunc s (Z.shiftr d c) end.
Definition lsr_reg (s : size) (d c : Z) : Z := if bits s - 1 <? c then 0 else trunc s (Z.shiftr d c).
Definition shl_data (s : size) (d c : Z) : Z :=
  match s with B8 => if c <? 8 then trunc s (Z.shiftl d c) else 0 | _ => trunc s (Z.shiftl d c) end.
Definition shl_reg (s : size) (d c : Z) : Z := if c <? bits s then trunc s (Z.shiftl d c) else 0.

Definition ROTATE_RIGHT (s : size) (d c : Z) (f : ccr_t) : Z * ccr_t :=
  let sh := trunc s (Z.land c (bits s - 1)) in
  let r := trunc s (Z.lor (Z.shiftr d sh) (Z.shiftl d (Z.land (bits s - sh) (bits s - 1)))) in
  let f := set_carry (if truthy c then Z.land (Z.shiftr r (bits s - 1)) 1 else 0) f in
  (r, UPDATE_NZ_CLEAR_V s r f).

Definition ROTATE_LEFT (s : size) (d c : Z) (f : ccr_t) : Z * ccr_t :=
  let sh := trunc s (Z.land c (bits s - 1)) in
  let r := trunc s (Z.lor (Z.shiftl d sh) (Z.shiftr d (Z.land (bits s - sh) (bits s - 1)))) in
  let f := set_carry (if truthy c then Z.land r 1 else 0) f in
  (r, UPDATE_NZ_CLEAR_V s r f).

Definition ROXR (s : size) (d c : Z) (f : ccr_t) : Z * ccr_t :=
  let r := trunc s (Z.lor (Z.lor (if c <? bits s then Z.shiftr d c else 0)
                                 (if 1 <? c then Z.shiftl d (bits s + 1 - c) else 0))
                          (if truthy (extend f) && (0 <? c) then bit (bits s - c) else 0)) in
  let f := UPDATE_NZ_CLEAR_V s r f in
  let v := if truthy c then Z.land d (bit (c - 1)) else extend f in
  (r, set_carry v (set_extend v f)).

Definition ROXL (s : size) (d c : Z) (f : ccr_t) : Z * ccr_t :=
  let r := trunc s (Z.lor (Z.lor (if c <? bits s then Z.shiftl d c else 0)
                                 (if 1 <? c then Z.shiftr d (bits s + 1 - c) else 0))
                          (if truthy (extend f) && (0 <? c) then bit (c - 1) else 0)) in
  let f := UPDATE_NZ_CLEAR_V s r f in
  let v := if truthy c then Z.land d (bit (bits s - c)) else extend f in
  (r, set_carry v (set_extend v f)).

(** ** Binary-coded decimal *)

Definition abcd (model : Z) (xx yy : Z) (c : ccr_t) : Z * ccr_t :=
  let ss := u8 (xx + yy + cbool (truthy (extend c))) in
  let dc := u8 (Z.shiftr (Z.lxor (ss + 0x66) ss) 1) in
  let bc := u8 (Z.lor (Z.land xx yy) (Z.land (Z.lor xx yy) (Z.lnot ss))) in
  let corr := u8 (Z.land (Z.lor bc dc) 0x88) in
  let rr := u8 (ss + corr - Z.shiftr corr 2) in
  let v := if CPU_MODEL_68030 <=? model then 0 else Z.land (Z.land (Z.lnot ss) rr) 0x80 in
  let x := Z.land (Z.lor bc (Z.land ss (Z.lnot rr))) 0x80 in
  (rr, mk_ccr x (Z.land rr 0x80) (Z.land (zero c) (cbool (rr =? 0))) v x).

Definition sbcd (model : Z) (xx yy : Z) (c : ccr_t) : Z * ccr_t :=
  let dd := u8 (xx - yy - cbool (truthy (extend c))) in
  let bc := u8 (Z.land (Z.lor (Z.land (Z.lnot xx) yy) (Z.land (Z.lor (Z.lnot xx) yy) dd)) 0x88) in
  let rr := u8 (dd - bc + Z.shiftr bc 2) in
  let v := if CPU_MODEL_68030 <=? model then 0 else Z.land (Z.land dd (Z.lnot rr)) 0x80 in
  let x := Z.land (Z.lor bc (Z.land (Z.lnot dd) rr)) 0x80 in
  (rr, mk_ccr x (Z.land rr 0x80) (Z.land (zero c) (cbool (rr =? 0))) v x).

(** ** Division: quotient and remainder packed as DIVU/DIVS leave them in Dn *)

Inductive div_result :=
  | DivByZero | DivOverflow | DivUndefined
  | DivOk (dn : Z) (n z : Z).

Definition DIV16U_value (dn divisor : Z) : div_result :=
  if divisor =? 0 then DivByZero else
  let quotient := dn / divisor in
  if 65535 <? quotient then DivOverflow else
  let remainder := dn mod divisor in
  DivOk (u32 (Z.lor (Z.shiftl remainder 16) (Z.land quotient 0xFFFF)))
    (Z.land quotient 0x8000) (cbool (quotient =? 0)).

(** [q = (int32_t)Dn / (int16_t)divisor] is evaluated before the test that
    excludes INT32_MIN / -1, whose quotient is not representable. *)
Definition DIV16S_value (dn divisor : Z) : div_result :=
  if divisor =? 0 then DivByZero else
  let n := s32 dn in let dv := s16 divisor in
  if (n =? -2147483648) && (dv =? -1) then DivUndefined else
  let q := Z.quot n dv in
  if (32767 <? q) || (q <? -32768) then DivOverflow else
  let remainder := Z.rem n dv in
  DivOk (u32 (Z.lor (Z.shiftl (u32 remainder) 16) (Z.land (u32 q) 0xFFFF)))
    (Z.land q 0x8000) (cbool (q =? 0)).
