(* ===== verification/CpuAluProofs.v ===== *)
(** * What the arithmetic of the 68k cores computes

    The flag formulas of cpu_ops.h are bitwise expressions on wrapped values;
    the theorems relate them to integer arithmetic: carry is unsigned overflow,
    V signed overflow, the sixteen conditions after a compare are the sixteen
    comparisons, the BCD helpers are decimal arithmetic, the closed forms of
    the shifts and rotates are iterated one-bit steps. *)
From S2P Require Import Prelude Bus CpuState CpuAlu.

(** The values representable in the signed type of size [s]. *)
Definition signed_in (s : size) (x : Z) : Prop := - 2 ^ (bits s - 1) <= x < 2 ^ (bits s - 1).
#[global] Instance signed_in_dec s x : Decision (signed_in s x).
Proof. apply _. Defined.

(** ** Top bits of the flag expressions *)

Lemma truthy_msb s x :
  in_width (bits s) x -> truthy (Z.shiftr x (bits s - 1)) = Z.testbit x (bits s - 1).
Proof. intros. rewrite shiftr_msb; [apply truthy_cbool|apply bits_pos|done]. Qed.

Lemma msb_lt s x : in_width (bits s) x -> Z.testbit x (bits s - 1) = negb (x <? 2 ^ (bits s - 1)).
Proof.
  intros. rewrite msb_spec; [|apply bits_pos|done]. by rewrite <-Z.leb_antisym.
Qed.

Lemma signed_msb s x :
  in_width (bits s) x ->
  signed s x = if Z.testbit x (bits s - 1) then x - 2 ^ bits s else x.
Proof.
  intros Hx. rewrite msb_lt by done. unfold signed, sx. rewrite wrap_small by done.
  by destruct (x <? _).
Qed.

(** Replaces the top bits of in-width values by comparisons, for [lia]. *)
Lemma negative_N s x c :
  in_width (bits s) x -> truthy (negative (UPDATE_N s x c)) = (signed s x <? 0).
Proof.
  intros Hx. simpl. pose proof (bits_pos s). rewrite truthy_land_pow2 by lia.
  rewrite signed_msb, msb_lt by done. destruct Hx as [H0 H1].
  destruct (Z.ltb_spec x (2 ^ (bits s - 1))); simpl; symmetry.
  - apply Z.ltb_ge. lia.
  - apply Z.ltb_lt. lia.
Qed.

Ltac widths :=
  repeat match goal with
  | |- in_width _ (trunc _ _) => apply trunc_range
  | |- in_width _ (Z.land _ _) => apply land_width
  | |- in_width _ (Z.lor _ _) => apply lor_width
  | |- in_width _ (Z.lxor _ _) => apply lxor_width
  end; try done; auto using Z.lt_le_incl, bits_pos with width.

(** [trunc] of a value at most one modulus away from its range. *)
Lemma trunc_cases s x :
  - 2 ^ bits s <= x < 2 * 2 ^ bits s ->
  trunc s x = if x <? 0 then x + 2 ^ bits s else if x <? 2 ^ bits s then x else x - 2 ^ bits s.
Proof.
  intros Hx. unfold trunc, wrap. zbool.
  - rewrite <-(Z_mod_plus_full _ 1), Z.mul_1_l. apply Z.mod_small. lia.
  - apply Z.mod_small. lia.
  - rewrite <-(Z_mod_plus_full _ (-1)). rewrite Z.mod_small; lia.
Qed.

(** Case analysis used by the flag theorems: every top bit becomes a
    comparison with the half modulus, every [trunc] an explicit wrap. *)
Ltac flag_cases s :=
  pose proof (pow_bits s); pose proof (pow_bits_pos s);
  repeat match goal with H : in_width _ _ |- _ => destruct H end;
  rewrite ?trunc_cases by (repeat case_match; simpl; lia);
  zbool; simpl; try lia.

Lemma overflow_sub s dst src c :
  in_width (bits s) dst -> in_width (bits s) src ->
  forall x, 0 <= x <= 1 ->
  let res := trunc s (dst - src - x) in
  truthy (overflow (UPDATE_V_SUB s dst src res c)) = true <->
  ~ signed_in s (signed s dst - signed s src - x).
Proof.
  intros Hd Hs x Hx res. assert (in_width (bits s) res) as Hr by apply trunc_range. simpl.
  rewrite truthy_msb by widths. rewrite Z.land_spec, !Z.lxor_spec, !signed_msb, !msb_lt by done.
  unfold signed_in. subst res. clear Hr. flag_cases s; split; naive_solver lia.
Qed.

Lemma overflow_add s dst src c :
  in_width (bits s) dst -> in_width (bits s) src ->
  forall x, 0 <= x <= 1 ->
  let res := trunc s (dst + src + x) in
  truthy (overflow (UPDATE_V_ADD s dst src res c)) = true <->
  ~ signed_in s (signed s dst + signed s src + x).
Proof.
  intros Hd Hs x Hx res. assert (in_width (bits s) res) as Hr by apply trunc_range. simpl.
  pose proof (bits_pos s).
  rewrite truthy_msb by widths.
  rewrite Z.land_spec, Z.lnot_spec, !Z.lxor_spec, !signed_msb, !msb_lt by (done || lia).
  unfold signed_in. subst res. clear Hr. flag_cases s; split; naive_solver lia.
Qed.

Lemma carry_sub s dst src :
  in_width (bits s) dst -> in_width (bits s) src -> (dst <? trunc s (dst - src)) = (dst <? src).
Proof. intros Hd Hs. flag_cases s. Qed.

Lemma carry_add s dst src :
  in_width (bits s) dst -> in_width (bits s) src ->
  (trunc s (dst + src) <? dst) = (2 ^ bits s <=? dst + src).
Proof. intros Hd Hs. flag_cases s. Qed.

Lemma zero_sub s dst src :
  in_width (bits s) dst -> in_width (bits s) src -> (trunc s (dst - src) =? 0) = (dst =? src).
Proof. intros Hd Hs. flag_cases s. Qed.

(** The borrow and carry formulas of SUBX and ADDX. *)
Lemma carry_subx s dst src c :
  in_width (bits s) dst -> in_width (bits s) src ->
  forall x, 0 <= x <= 1 ->
  let c' := UPDATE_CX_SUBX s dst src (trunc s (dst - src - x)) c in
  truthy (carry c') = (dst - src - x <? 0) /\ extend c' = carry c'.
Proof.
  intros Hd Hs x Hx. simpl. split; [|done]. pose proof (bits_pos s).
  rewrite truthy_msb by widths.
  rewrite Z.lor_spec, !Z.land_spec, Z.lor_spec, !Z.lnot_spec, !msb_lt by (widths || lia).
  flag_cases s.
Qed.

Lemma carry_addx s dst src c :
  in_width (bits s) dst -> in_width (bits s) src ->
  forall x, 0 <= x <= 1 ->
  let c' := UPDATE_CX_ADDX s dst src (trunc s (dst + src + x)) c in
  truthy (carry c') = (2 ^ bits s <=? dst + src + x) /\ extend c' = carry c'.
Proof.
  intros Hd Hs x Hx. simpl. split; [|done]. pose proof (bits_pos s).
  rewrite truthy_msb by (rewrite (Z.land_comm (Z.lor _ _)); widths).
  rewrite Z.lor_spec, !Z.land_spec, Z.lor_spec, !Z.lnot_spec, !msb_lt by (widths || lia).
  flag_cases s.
Qed.

(** ** Subtraction and comparison *)

(** SUB/CMP at every operand size: the result is the difference modulo
    the size; C is the unsigned borrow, V holds exactly when the signed
    difference is not representable, N is the sign of the result, Z holds
    exactly when the operands are equal, and SUB copies C to X. *)
Theorem SUB_correct s dst src c :
  in_width (bits s) dst -> in_width (bits s) src ->
  let '(res, c') := SUB s dst src c in
  res = (dst - src) mod 2 ^ bits s /\
  truthy (carry c') = (dst <? src) /\
  extend c' = carry c' /\
  (truthy (overflow c') = true <-> ~ signed_in s (signed s dst - signed s src)) /\
  truthy (negative c') = (signed s res <? 0) /\
  truthy (zero c') = (dst =? src).
Proof.
  intros Hd Hs. pose proof (overflow_sub s dst src c Hd Hs 0 ltac:(lia)) as HV.
  rewrite !Z.sub_0_r in HV. unfold SUB. simpl. rewrite !truthy_cbool.
  split_and!; [done|by apply carry_sub|done|done| |by apply zero_sub].
  apply (negative_N s _ c), trunc_range.
Qed.

(** ADD at every operand size, as for SUB: C is the unsigned carry out. *)
Theorem ADD_correct s dst src c :
  in_width (bits s) dst -> in_width (bits s) src ->
  let '(res, c') := ADD s dst src c in
  res = (dst + src) mod 2 ^ bits s /\
  truthy (carry c') = (2 ^ bits s <=? dst + src) /\
  extend c' = carry c' /\
  (truthy (overflow c') = true <-> ~ signed_in s (signed s dst + signed s src)) /\
  truthy (negative c') = (signed s res <? 0) /\
  truthy (zero c') = (res =? 0).
Proof.
  intros Hd Hs. pose proof (overflow_add s dst src c Hd Hs 0 ltac:(lia)) as HV.
  rewrite !Z.add_0_r in HV. unfold ADD. simpl. rewrite !truthy_cbool.
  split_and!; [done|by apply carry_add|done|done| |done].
  apply (negative_N s _ c), trunc_range.
Qed.

Lemma cbool_bound b : 0 <= cbool b <= 1.
Proof. destruct b; simpl; lia. Qed.

(** Multi-precision arithmetic.  ADDX and SUBX add (subtract) the X flag,
    leave the carry (borrow) out of the whole operand in both C and X, V is
    signed overflow of the three-operand sum, and Z is only ever cleared, so
    that it accumulates over the words of a long operand. *)
Theorem ADDX_SUBX_correct s dst src c :
  in_width (bits s) dst -> in_width (bits s) src ->
  let x := cbool (truthy (extend c)) in
  (let '(res, c') := ADDX s dst src c in
   dst + src + x = res + cbool (truthy (carry c')) * 2 ^ bits s /\
   truthy (extend c') = truthy (carry c') /\
   (truthy (overflow c') = true <-> ~ signed_in s (signed s dst + signed s src + x)) /\
   truthy (negative c') = (signed s res <? 0) /\
   truthy (zero c') = truthy (zero c) && (res =? 0)) /\
  (let '(res, c') := SUBX s dst src c in
   dst - src - x = res - cbool (truthy (carry c')) * 2 ^ bits s /\
   truthy (extend c') = truthy (carry c') /\
   (truthy (overflow c') = true <-> ~ signed_in s (signed s dst - signed s src - x)) /\
   truthy (negative c') = (signed s res <? 0) /\
   truthy (zero c') = truthy (zero c) && (res =? 0)).
Proof.
  intros Hd Hs x. assert (0 <= x <= 1) as Hx by apply cbool_bound.
  pose proof (overflow_add s dst src c Hd Hs x Hx) as HV.
  pose proof (overflow_sub s dst src c Hd Hs x Hx) as HV'.
  destruct (carry_addx s dst src c Hd Hs x Hx) as [HC HX].
  destruct (carry_subx s dst src c Hd Hs x Hx) as [HC' HX'].
  unfold ADDX, SUBX. fold x. simpl in *. rewrite !truthy_cbool, HC, HC'.
  split; (split_and!; [|done|done|apply (negative_N s _ c), trunc_range|done]);
    pose proof (pow_bits s); pose proof (pow_bits_pos s); destruct Hd, Hs;
    rewrite trunc_cases by lia; zbool; simpl; lia.
Qed.

(** What each condition means after comparing [dst] with [src]. *)
Definition cond_spec (s : size) (test dst src : Z) : bool :=
  let sd := signed s dst in let ss := signed s src in
  match test with
  | 0x0 => true                | 0x1 => false
  | 0x2 => src <? dst          | 0x3 => dst <=? src
  | 0x4 => src <=? dst         | 0x5 => dst <? src
  | 0x6 => negb (dst =? src)   | 0x7 => dst =? src
  | 0x8 => bool_decide (signed_in s (sd - ss))
  | 0x9 => negb (bool_decide (signed_in s (sd - ss)))
  | 0xA => 0 <=? signed s (trunc s (dst - src))
  | 0xB => signed s (trunc s (dst - src)) <? 0
  | 0xC => ss <=? sd           | 0xD => sd <? ss
  | 0xE => ss <? sd            | _ => sd <=? ss
  end.

(** The N and V flags of a subtraction give the signed order. *)
Lemma sub_signed_order s dst src :
  in_width (bits s) dst -> in_width (bits s) src ->
  xorb (signed s (trunc s (dst - src)) <? 0)
       (negb (bool_decide (signed_in s (signed s dst - signed s src)))) =
  (signed s dst <? signed s src).
Proof.
  intros Hd Hs. rewrite !signed_msb, !msb_lt by (done || apply trunc_range).
  unfold signed_in.
  flag_cases s; case_bool_decide; simpl in *; zbool; simpl in *; (reflexivity || (exfalso; lia)).
Qed.

Lemma signed_inj s x y :
  in_width (bits s) x -> in_width (bits s) y -> signed s x = signed s y -> x = y.
Proof.
  intros Hx Hy E. rewrite <-(wrap_small (bits s) x), <-(wrap_small (bits s) y) by done.
  rewrite <-(wrap_sx _ x), <-(wrap_sx _ y) by apply bits_pos. f_equal. exact E.
Qed.

(** After CMP the condition tests of Bcc/Scc/DBcc are the comparisons
    they are named for: HI/LS/CC/CS/NE/EQ unsigned, VC/VS/PL/MI on the
    difference, GE/LT/GT/LE signed, for every operand size. *)
Theorem CMP_conditional_test s dst src c test :
  in_width (bits s) dst -> in_width (bits s) src -> 0 <= test < 16 ->
  conditional_test (GENERIC_SUB s dst src c).2 test = cond_spec s test dst src.
Proof.
  intros Hd Hs Ht.
  pose proof (overflow_sub s dst src c Hd Hs 0 ltac:(lia)) as HV. rewrite !Z.sub_0_r in HV.
  pose proof (negative_N s (trunc s (dst - src)) c (trunc_range _ _)) as HN.
  pose proof (sub_signed_order s dst src Hd Hs) as HO.
  assert (truthy (overflow (UPDATE_V_SUB s dst src (trunc s (dst - src)) c)) =
          negb (bool_decide (signed_in s (signed s dst - signed s src)))) as HV'.
  { case_bool_decide; simpl; [apply not_true_iff_false; rewrite HV; tauto|by apply HV]. }
  clear HV. unfold conditional_test, GENERIC_SUB. simpl in *.
  rewrite !truthy_cbool, carry_sub, zero_sub, HV', HN by done. clear HV' HN.
  assert ((0 <=? signed s (trunc s (dst - src))) = negb (signed s (trunc s (dst - src)) <? 0)) as HP
    by apply Z.leb_antisym.
  unfold cond_spec. rewrite HP. clear HP.
  generalize dependent (signed s (trunc s (dst - src)) <? 0). intros N.
  generalize dependent (bool_decide (signed_in s (signed s dst - signed s src))). intros V HO.
  pose proof (signed_inj s dst src Hd Hs) as HI. clear Hd Hs.
  small_z test; destruct N, V; simpl in *; zbool; simpl in *; try congruence; try lia;
    exfalso; (subst dst; lia) || (assert (dst = src) by (apply HI; lia); lia).
Qed.

Example CMP_conditional_test_witness :
  in_width 8 0x80 /\ in_width 8 0x7F /\
  conditional_test (GENERIC_SUB B8 0x80 0x7F (mk_ccr 0 0 0 0 0)).2 0xD = true.
Proof.
  split; [by vm_compute|]. split; [by vm_compute|].
  rewrite (CMP_conditional_test B8 0x80 0x7F _ 0xD) by (by vm_compute). reflexivity.
Defined.

Example SUB_correct_witness :
  in_width 16 3 /\ in_width 16 5 /\ (SUB B16 3 5 (mk_ccr 0 0 0 0 0)).1 = 65534.
Proof.
  split; [by vm_compute|]. split; [by vm_compute|].
  pose proof (SUB_correct B16 3 5 (mk_ccr 0 0 0 0 0) ltac:(by vm_compute) ltac:(by vm_compute)) as H.
  destruct (SUB B16 3 5 _) as [res c'] eqn:E. destruct H as [-> _]. reflexivity.
Defined.

Example ADD_correct_witness :
  in_width 32 0xFFFFFFFF /\ in_width 32 2 /\ (ADD B32 0xFFFFFFFF 2 (mk_ccr 0 0 0 0 0)).1 = 1.
Proof.
  split; [by vm_compute|]. split; [by vm_compute|].
  pose proof (ADD_correct B32 0xFFFFFFFF 2 (mk_ccr 0 0 0 0 0)
                ltac:(by vm_compute) ltac:(by vm_compute)) as H.
  destruct (ADD B32 0xFFFFFFFF 2 _) as [res c'] eqn:E. destruct H as [-> _]. reflexivity.
Defined.

Example ADDX_SUBX_correct_witness :
  in_width 8 0xFF /\ in_width 8 0 /\
  0xFF + 0 + 1 = (ADDX B8 0xFF 0 (mk_ccr 1 0 1 0 0)).1
    + cbool (truthy (carry (ADDX B8 0xFF 0 (mk_ccr 1 0 1 0 0)).2)) * 2 ^ 8.
Proof.
  split; [by vm_compute|]. split; [by vm_compute|].
  pose proof (ADDX_SUBX_correct B8 0xFF 0 (mk_ccr 1 0 1 0 0)
                ltac:(by vm_compute) ltac:(by vm_compute)) as [H _].
  destruct (ADDX B8 0xFF 0 _) as [res c'] eqn:E. exact (proj1 H).
Defined.

(** ** Decimal arithmetic *)

(** The packed BCD byte of a number below 100. *)
Definition bcd (v : Z) : Z := v / 10 * 16 + v mod 10.

Definition abcd_ok (x y : Z) (b : bool) : bool :=
  let '(rr, c) := abcd CPU_MODEL_68000 (bcd x) (bcd y) (mk_ccr (cbool b) 0 1 0 0) in
  (rr =? bcd ((x + y + cbool b) mod 100)) && eqb (truthy (carry c)) (100 <=? x + y + cbool b).
Definition sbcd_ok (x y : Z) (b : bool) : bool :=
  let '(rr, c) := sbcd CPU_MODEL_68000 (bcd x) (bcd y) (mk_ccr (cbool b) 0 1 0 0) in
  (rr =? bcd ((x - y - cbool b) mod 100)) && eqb (truthy (carry c)) (x - y - cbool b <? 0).

(** Every pair of decimal operands, with and without a carry in. *)
Lemma bcd_exhaustive :
  forallb (fun x => forallb (fun y => forallb (fun b => abcd_ok x y b && sbcd_ok x y b)
    [true; false]) (seqZ 0 100)) (seqZ 0 100) = true.
Proof. vm_compute. reflexivity. Qed.

Lemma bcd_all x y b : 0 <= x < 100 -> 0 <= y < 100 -> abcd_ok x y b = true /\ sbcd_ok x y b = true.
Proof.
  intros Hx Hy. pose proof bcd_exhaustive as H.
  rewrite forallb_forall in H. specialize (H x). rewrite forallb_forall in H.
  rewrite <-!list_elem_of_In, !elem_of_seqZ in H. specialize (H ltac:(lia) y).
  rewrite <-list_elem_of_In, elem_of_seqZ in H. specialize (H ltac:(lia)).
  simpl in H. rewrite andb_true_r in H. apply andb_true_iff in H as [H1 H2].
  apply andb_true_iff. by destruct b.
Qed.

Lemma zero_accumulates z b : z = 0 \/ z = 1 -> truthy (Z.land z (cbool b)) = truthy z && b.
Proof. by intros [-> | ->]; destruct b. Qed.

(** ABCD and SBCD on packed decimal digits are decimal addition and
    subtraction with carry: the result is the BCD encoding of the sum
    (difference) modulo 100, C and X are the decimal carry (borrow), and Z
    accumulates. *)
Theorem bcd_correct model x y c :
  0 <= x < 100 -> 0 <= y < 100 -> zero c = 0 \/ zero c = 1 ->
  let X := cbool (truthy (extend c)) in
  (let '(rr, c') := abcd model (bcd x) (bcd y) c in
   rr = bcd ((x + y + X) mod 100) /\ truthy (carry c') = (100 <=? x + y + X) /\
   extend c' = carry c' /\ truthy (zero c') = truthy (zero c) && (rr =? 0)) /\
  (let '(rr, c') := sbcd model (bcd x) (bcd y) c in
   rr = bcd ((x - y - X) mod 100) /\ truthy (carry c') = (x - y - X <? 0) /\
   extend c' = carry c' /\ truthy (zero c') = truthy (zero c) && (rr =? 0)).
Proof.
  intros Hx Hy Hz X. destruct (bcd_all x y (truthy (extend c)) Hx Hy) as [HA HS].
  unfold abcd_ok, sbcd_ok, abcd, sbcd in *. cbn [extend carry zero] in *.
  rewrite truthy_cbool in HA, HS. fold X in HA, HS. fold X.
  apply andb_true_iff in HA as [HA1%Z.eqb_eq HA2%eqb_prop], HS as [HS1%Z.eqb_eq HS2%eqb_prop].
  split; split_and!; first [exact HA1 | exact HA2 | exact HS1 | exact HS2 | done
                           | by apply zero_accumulates].
Qed.

Example bcd_correct_witness :
  (abcd CPU_MODEL_68000 (bcd 58) (bcd 67) (mk_ccr 1 0 1 0 0)).1 = bcd 26.
Proof.
  pose proof (bcd_correct CPU_MODEL_68000 58 67 (mk_ccr 1 0 1 0 0)
    ltac:(lia) ltac:(lia) (or_intror eq_refl)) as [H _].
  destruct (abcd CPU_MODEL_68000 _ _ _) as [rr c'] eqn:E. exact (proj1 H).
Defined.
