(* ===== verification/CpuMachine.v ===== *)
(** * The machine the interpreters run on, and its effective addresses

    The state of a decoder run (CPU, bus, trace of exceptions), instruction
    stream fetches, effective-address calculation, operand loads and stores
    and MOVEM: the first half of cpu_internal.h. *)
From S2P Require Import Prelude Bus CpuState CpuAlu.

(** The arguments of exc_trace_record (debug.c). *)
Record exc_record := mk_exc {
  exc_vector : Z; exc_faulting_pc : Z; exc_saved_pc : Z; exc_fault_addr : Z; exc_rw : Z;
  exc_vbr : Z; exc_sr : Z; exc_format : Z; exc_double_fault : Z;
}.

Record machine (B : Type) := mk_machine {
  cpu : cpu_t;
  bus : B;
  exc_trace : list exc_record;
}.
Arguments mk_machine {B} _ _ _.
Arguments cpu {B} _.
Arguments bus {B} _.
Arguments exc_trace {B} _.

Section Machine.
Context {B : Type} `{Bus B}.
#[local] Abbreviation MM := (M (machine B)).

Definition set_cpu (c : cpu_t) (s : machine B) : machine B := mk_machine c (bus s) (exc_trace s).
Definition set_bus (b : B) (s : machine B) : machine B := mk_machine (cpu s) b (exc_trace s).

(** ** Primitive steps *)

Definition getc {A} (f : cpu_t -> A) : MM A := gets (fun s => f (cpu s)).
Definition modc (f : cpu_t -> cpu_t) : MM unit := modify (fun s => set_cpu (f (cpu s)) s).
Definition getb {A} (f : B -> A) : MM A := gets (fun s => f (bus s)).
Definition modb (f : B -> B) : MM unit := modify (fun s => set_bus (f (bus s)) s).
Definition exc_trace_record (e : exc_record) : MM unit :=
  modify (fun s => mk_machine (cpu s) (bus s) (e :: exc_trace s)).

(** memory_read_uint{8,16,32}(addr), memory_write_uint{8,16,32}(addr, value) *)
Definition mem_read (s : size) (addr : Z) : MM Z := fun st =>
  let '(v, b) := memory_read s (u32 addr) (bus st) in (Ret v, set_bus b st).
Definition mem_write (s : size) (addr value : Z) : MM unit :=
  modb (memory_write s (u32 addr) (trunc s value)).

(** g_bus_error_pending *)
Definition pending : MM bool := getb bus_error_pending.

Definition getD (n : Z) : MM Z := getc (get_d n).
Definition getA (n : Z) : MM Z := getc (get_a n).
Definition putD (n v : Z) : MM unit := modc (put_d n v).
Definition putA (n v : Z) : MM unit := modc (put_a n v).

(** ** Instruction stream *)

Definition fetch_16 (increment : bool) : MM Z :=
  p ← getc pc; w ← mem_read B16 p;
  when increment (modc (fun c => set_pc (pc c + 2) c));; mret w.
Definition fetch_32 (increment : bool) : MM Z :=
  p ← getc pc; l ← mem_read B32 p;
  when increment (modc (fun c => set_pc (pc c + 4) c));; mret l.

(** ** Effective addresses *)

Definition ea_index_value (c : cpu_t) (ext_word : Z) : Z :=
  let r := Z.land (Z.shiftr ext_word 12) 7 in
  let v := if truthy (Z.land ext_word 0x8000) then get_a r c else get_d r c in
  let v := if Z.land ext_word 0x0800 =? 0 then u32 (s16 v) else v in
  if CPU_MODEL_68030 <=? cpu_model c
  then u32 (Z.shiftl v (Z.land (Z.shiftr ext_word 9) 3)) else v.

(** A displacement read at [pos]: size code 2 is a word, 3 a long. *)
Definition read_disp (code pos : Z) : MM (Z * Z) :=
  if code =? 2 then v ← mem_read B16 pos; mret (s16 v, u32 (pos + 2))
  else if code =? 3 then v ← mem_read B32 pos; mret (s32 v, u32 (pos + 4))
  else mret (0, pos).

Definition calculate_ea_full (ext base_reg : Z) (increment : bool) : MM Z :=
  pos ← getc pc;
  let pos := if increment then pos else u32 (pos + 2) in
  let base := if truthy (Z.land ext 0x0080) then 0 else base_reg in
  index ← getc (fun c => if truthy (Z.land ext 0x0040) then 0 else ea_index_value c ext);
  '(bd, pos) ← read_disp (Z.land (Z.shiftr ext 4) 3) pos;
  let iis := Z.land ext 7 in
  '(result, pos) ←
    (if (Z.land ext 0x0040 =? 0) && (iis =? 0) then mret (u32 (base + index + bd), pos)
     else if truthy (Z.land ext 0x0040) then
       intermediate ← (if (1 <=? iis) && (iis <=? 3) then mem_read B32 (u32 (base + bd))
                       else mret (u32 (base + bd)));
       '(od, pos) ← read_disp iis pos; mret (u32 (intermediate + od), pos)
     else if (1 <=? iis) && (iis <=? 3) then
       intermediate ← mem_read B32 (u32 (base + index + bd));
       '(od, pos) ← read_disp iis pos; mret (u32 (intermediate + od), pos)
     else if (5 <=? iis) && (iis <=? 7) then
       intermediate ← mem_read B32 (u32 (base + bd));
       '(od, pos) ← read_disp (iis - 4) pos; mret (u32 (intermediate + index + od), pos)
     else mret (u32 (base + index + bd), pos));
  when increment (modc (set_pc pos));; mret result.

Definition calculate_ea_slow (size_ mode reg : Z) (increment : bool) : MM Z :=
  match mode with
  | 6 =>
      ext ← fetch_16 increment; model ← getc cpu_model; an ← getA reg;
      if truthy (Z.land ext 0x0100) && (CPU_MODEL_68030 <=? model)
      then calculate_ea_full ext an increment
      else index ← getc (fun c => ea_index_value c ext);
           mret (u32 (an + s8 (Z.land ext 0xFF) + index))
  | 7 =>
      match reg with
      | 0 => w ← fetch_16 increment; mret (u32 (s16 w))
      | 1 => fetch_32 increment
      | 2 => p ← getc pc; w ← fetch_16 increment; mret (u32 (p + s16 w))
      | 3 =>
          p ← getc pc; ext ← fetch_16 increment; model ← getc cpu_model;
          if truthy (Z.land ext 0x0100) && (CPU_MODEL_68030 <=? model)
          then calculate_ea_full ext p increment
          else index ← getc (fun c => ea_index_value c ext);
               mret (u32 (p + s8 (Z.land ext 0xFF) + index))
      | 4 =>
          p ← getc pc;
          let ea := if size_ =? 1 then u32 (p + 1) else p in
          when increment (modc (fun c => set_pc (pc c + (if size_ =? 1 then 2 else size_)) c));;
          mret ea
      | _ => mret 0
      end
  | _ => mret 0xFFFFFFFF
  end.

(** The step of (An)+ and -(An): byte accesses keep the stack even. *)
Definition an_step (size_ reg : Z) : Z := if (reg =? 7) && (size_ =? 1) then 2 else size_.

Definition calculate_ea (size_ mode reg : Z) (increment : bool) : MM Z :=
  match mode with
  | 2 => getA reg
  | 3 =>
      ea ← getA reg; when increment (putA reg (ea + an_step size_ reg));; mret ea
  | 4 =>
      an ← getA reg;
      let ea := u32 (an - an_step size_ reg) in
      when increment (putA reg ea);; mret ea
  | 5 => w ← fetch_16 increment; an ← getA reg; mret (u32 (an + s16 w))
  | _ => calculate_ea_slow size_ mode reg increment
  end.

(** read_ea_8, read_ea_16, read_ea_32 *)
Definition read_ea (s : size) (opcode : Z) (increment : bool) : MM Z :=
  let mode := Z.land (Z.shiftr opcode 3) 7 in
  let reg := Z.land opcode 7 in
  if mode =? 0 then v ← getD reg; mret (trunc s v)
  else if mode =? 1 then v ← getA reg; mret (trunc s v)
  else ea ← calculate_ea (bytes s) mode reg increment; mem_read s ea.

(** The low [bits s] bits of a register replaced. *)
Definition merge (s : size) (old value : Z) : Z :=
  Z.lor (Z.land old (0xFFFFFFFF - (2 ^ bits s - 1))) (trunc s value).

(** write_ea_8, write_ea_16, write_ea_32: on a fault of the extension-word
    fetch or of the write itself the address register is put back. *)
Definition write_ea (s : size) (mode reg value : Z) : MM unit :=
  if mode =? 0 then v ← getD reg; putD reg (merge s v value)
  else if mode =? 1 then v ← getA reg; putA reg (merge s v value)
  else
    let upd := (mode =? 3) || (mode =? 4) in
    an ← getA reg;
    let saved_an := if upd then an else 0 in
    ea ← calculate_ea (bytes s) mode reg true;
    p ← pending;
    if (p : bool) then when upd (putA reg saved_an)
    else
      mem_write s ea value;;
      p ← pending;
      when (p && upd) (putA reg saved_an).

(** ** MOVEM *)

(** One staged register load of MOVEM to registers, [None] after a fault. *)
Definition movem_load (s : size) (ea : Z) : MM (option Z) :=
  v ← mem_read s ea;
  p ← pending;
  mret (if p : bool then None else Some (match s with B16 => u32 (s16 v) | _ => v end)).

(** The loads for the registers of [regs] selected by [mask] (bit [lo + i]
    for register [i]), from [ea] upwards. *)
Fixpoint movem_loads (s : size) (mask lo : Z) (regs : list Z) (ea : Z)
  : MM (option (list (Z * Z) * Z)) :=
  match regs with
  | [] => mret (Some ([], ea))
  | i :: regs =>
      if Z.testbit mask (lo + i) then
        v ← movem_load s ea;
        match v with
        | None => mret None
        | Some v =>
            r ← movem_loads s mask lo regs (u32 (ea + bytes s));
            mret (match r with None => None | Some (l, ea) => Some ((i, v) :: l, ea) end)
        end
      else movem_loads s mask lo regs ea
  end.

Definition commit (put : Z -> Z -> cpu_t -> cpu_t) (l : list (Z * Z)) (c : cpu_t) : cpu_t :=
  fold_left (fun c '(i, v) => put i v c) l c.

Definition movem_to_register (opcode : Z) (s : size) : MM unit :=
  mask ← fetch_16 true;
  p ← pending;
  if (p : bool) then mret tt else
  ea ← calculate_ea 4 (Z.land (Z.shiftr opcode 3) 7) (Z.land opcode 7) true;
  rd ← movem_loads s mask 0 (seqZ 0 8) ea;
  match rd with
  | None => mret tt
  | Some (new_d, ea) =>
      ra ← movem_loads s mask 8 (seqZ 0 8) ea;
      match ra with
      | None => mret tt
      | Some (new_a, ea) =>
          modc (commit put_d new_d);;
          modc (commit put_a new_a);;
          when (Z.land opcode 0x38 =? 0x18) (putA (Z.land opcode 7) ea)
      end
  end.

(** The stores for the registers selected by [mask]; [false] after a fault. *)
Fixpoint movem_stores (s : size) (mask lo : Z) (val : Z -> cpu_t -> Z) (down : bool)
    (regs : list Z) (ea : Z) : MM (option Z) :=
  match regs with
  | [] => mret (Some ea)
  | i :: regs =>
      if Z.testbit mask (lo + i) then
        let addr := if down then u32 (ea - bytes s) else ea in
        v ← getc (val i);
        mem_write s addr v;;
        p ← pending;
        if (p : bool) then mret None
        else movem_stores s mask lo val down regs (if down then addr else u32 (ea + bytes s))
      else movem_stores s mask lo val down regs ea
  end.

Definition movem_from_register (opcode : Z) (s : size) : MM unit :=
  mask ← fetch_16 true;
  p ← pending;
  if (p : bool) then mret tt else
  if Z.land opcode 0x38 =? 0x20 then
    let an := Z.land opcode 7 in
    addr ← getA an;
    r ← movem_stores s mask 0
          (fun i c => let v := get_a (7 - i) c in
                      if (CPU_MODEL_68030 <=? cpu_model c) && (7 - i =? an)
                      then u32 (v - bytes s) else v)
          true (seqZ 0 8) addr;
    match r with
    | None => mret tt
    | Some addr =>
        r ← movem_stores s mask 8 (fun i => get_d (7 - i)) true (seqZ 0 8) addr;
        match r with None => mret tt | Some addr => putA an addr end
    end
  else
    ea ← calculate_ea 4 (Z.land (Z.shiftr opcode 3) 7) (Z.land opcode 7) true;
    r ← movem_stores s mask 0 get_d false (seqZ 0 8) ea;
    match r with
    | None => mret tt
    | Some ea => _ ← movem_stores s mask 8 get_a false (seqZ 0 8) ea; mret tt
    end.
End Machine.
