(* ===== verification/CpuExc.v ===== *)
(** * Exceptions, interrupts and the status register

    The second half of cpu_internal.h: exception frames and vectors, the
    group-0 (bus error) paths with double-fault detection, interrupt
    acceptance and write_sr with its stack-pointer switching. *)
From S2P Require Import Prelude Bus CpuState CpuAlu CpuMachine.

Section Exceptions.
Context {B : Type} `{Bus B}.
#[local] Abbreviation MM := (M (machine B)).

Definition is_68030 (c : cpu_t) : bool := cpu_model c =? CPU_MODEL_68030.
Definition master (c : cpu_t) : bool := truthy (m c) && is_68030 c.

(** The switch to the supervisor (interrupt) stack at the start of every
    exception; leaving user mode activates the supervisor tables. *)
Definition enter_supervisor : MM unit :=
  c ← getc id;
  if negb (truthy (supervisor c)) then
    modc (fun c => set_usp (get_a 7 c) c);;
    modc (fun c => put_a 7 (if master c then msp c else ssp c) c);;
    modc (set_supervisor 1);; modc (set_m 0);;
    modb (set_active true)
  else if master c then
    modc (fun c => set_msp (get_a 7 c) c);;
    modc (fun c => put_a 7 (ssp c) c);;
    modc (set_m 0)
  else mret tt.

(** cpu->a[7] -= n; memory_write(cpu->a[7], v) *)
Definition push (s : size) (v : Z) : MM unit :=
  sp ← getA 7; putA 7 (sp - bytes s);;
  sp ← getA 7; mem_write s sp v.

(** The frame format of the 68030 for an exception vector offset. *)
Definition frame_format (vector : Z) : Z :=
  let n := vector / 4 in
  if (n =? 5) || (n =? 6) || (n =? 7) || (n =? 9) || ((48 <=? n) && (n <=? 54)) then 2 else 0.

Definition exception (vector pc_ sr : Z) : MM unit :=
  c ← getc id;
  when (negb (vector =? 0x008))
    (exc_trace_record (mk_exc vector (instruction_pc c) pc_ 0 0 (vbr c) sr 0 0));;
  enter_supervisor;;
  (if is_68030 c then
     let format := frame_format vector in
     ipc ← getc instruction_pc;
     when (format =? 2) (push B32 ipc);;
     push B16 (Z.lor (Z.shiftl format 12) (Z.land vector 0x0FFF));;
     push B32 pc_;; push B16 sr;;
     base ← getc vbr; v ← mem_read B32 (base + vector); modc (set_pc v)
   else
     push B32 pc_;; push B16 sr;;
     v ← mem_read B32 vector; modc (set_pc v));;
  modc (set_trace 0).

(** A second bus error while one is being processed halts the CPU. *)
Definition double_fault (e : exc_record) : MM unit :=
  modc (set_halted 1);; modb clear_bus_error;; modb (set_instructions 0);; exc_trace_record e.

(** The 68000 (Lisa) group-0 frame of seven words and its vector fetch;
    shared by both bus-error entries.  [finish] runs when neither faulted. *)
Definition group0_frame (faulting_pc saved_pc fault_addr : Z) (rw : bool) (saved_sr : Z)
    (finish : MM unit) : MM unit :=
  fc ← getb (fun b => Z.land (bus_error_fc b) 7);
  let ssw0 := Z.lor (Z.lor (Z.shiftl (cbool rw) 4) (Z.shiftl 1 3)) fc in
  sp ← getA 7; putA 7 (sp - 14);;
  f0 ← getA 7;
  mem_write B16 f0 ssw0;;
  mem_write B32 (f0 + 2) fault_addr;;
  i ← getc ir; mem_write B16 (f0 + 6) i;;
  mem_write B16 (f0 + 8) saved_sr;;
  mem_write B32 (f0 + 10) saved_pc;;
  vb ← getc vbr;
  let trace k := mk_exc 0x008 faulting_pc saved_pc fault_addr (cbool rw) vb saved_sr 0 k in
  p ← pending;
  if (p : bool) then double_fault (trace 1) else
  v ← mem_read B32 (vb + 0x008); modc (set_pc v);;
  p ← pending;
  if (p : bool) then double_fault (trace 2) else
  modc (set_trace 0);; finish;; exc_trace_record (trace 0).

(** The 68030 Format $B frame of 46 words. *)
Definition formatB_frame (saved_pc fault_addr : Z) (rw : bool) (saved_sr : Z) : MM unit :=
  fc ← getb (fun b => Z.land (bus_error_fc b) 7);
  let ssw := Z.lor (Z.lor (Z.lor (Z.shiftl 1 8) (Z.shiftl (cbool rw) 6)) (Z.shiftl 1 4)) fc in
  sp ← getA 7; putA 7 (sp - 92);;
  frame ← getA 7;
  (fix zero l := match l with
                 | [] => mret tt
                 | i :: l => mem_write B32 (frame + 4 * i) 0;; zero l
                 end) (seqZ 0 23);;
  mem_write B16 frame saved_sr;;
  mem_write B32 (frame + 0x02) saved_pc;;
  mem_write B16 (frame + 0x06) 0xB008;;
  mem_write B16 (frame + 0x0A) ssw;;
  mem_write B32 (frame + 0x10) fault_addr.

Definition exception_bus_error_retry (fault_addr : Z) (rw : bool) : MM unit :=
  c ← getc id;
  let faulting_pc := instruction_pc c in
  let saved_sr := cpu_get_sr c in
  let saved_pc := faulting_pc in
  enter_supervisor;;
  if cpu_model c =? CPU_MODEL_68000 then
    group0_frame faulting_pc saved_pc fault_addr rw saved_sr
      (when (negb (saved_pc =? faulting_pc)) (modc (set_last_bus_error_pc 0)))
  else
    formatB_frame saved_pc fault_addr rw saved_sr;;
    vb ← getc vbr;
    let trace k := mk_exc 0x008 faulting_pc saved_pc fault_addr (cbool rw) vb saved_sr 0xB k in
    p ← pending;
    if (p : bool) then double_fault (trace 1) else
    v ← mem_read B32 (vb + 0x008); modc (set_pc v);;
    p ← pending;
    if (p : bool) then double_fault (trace 2) else
    modc (set_trace 0);; exc_trace_record (trace 0).

Definition exception_bus_error (fault_addr : Z) (rw : bool) : MM unit :=
  c ← getc id;
  let faulting_pc := instruction_pc c in
  if negb (last_bus_error_pc c =? 0) && (last_bus_error_pc c =? faulting_pc) then
    modc (set_halted 1);; modc (set_last_bus_error_pc 0);;
    modb clear_bus_error;; modb (set_instructions 0);;
    exc_trace_record (mk_exc 0x008 faulting_pc (pc c) fault_addr (cbool rw) (vbr c) (cpu_get_sr c) 0xB 1)
  else
    modc (set_last_bus_error_pc faulting_pc);;
    let saved_sr := cpu_get_sr c in
    let saved_pc := pc c in
    enter_supervisor;;
    if cpu_model c =? CPU_MODEL_68000 then
      group0_frame faulting_pc saved_pc fault_addr rw saved_sr
        (when (negb (saved_pc =? faulting_pc)) (modc (set_last_bus_error_pc 0)))
    else
      formatB_frame saved_pc fault_addr rw saved_sr;;
      vb ← getc vbr;
      v ← mem_read B32 (vb + 0x008); modc (set_pc v);;
      modc (set_trace 0);;
      when (negb (saved_pc =? faulting_pc)) (modc (set_last_bus_error_pc 0));;
      exc_trace_record (mk_exc 0x008 faulting_pc saved_pc fault_addr (cbool rw) vb saved_sr 0xB 0).

(** Level 7 is non-maskable; levels 1-6 are gated by the mask. *)
Definition cpu_check_interrupt : MM unit :=
  c ← getc id;
  when ((interrupt_mask c <? ipl c) || (ipl c =? 7))
    (let sr := cpu_get_sr c in
     modc (set_stopped 0);;
     modc (set_interrupt_mask (ipl c));;
     exception (0x60 + 4 * ipl c) (pc c) sr).

(** cpu_poll_interrupt (cpu.c) *)
Definition cpu_poll_interrupt : MM unit := cpu_check_interrupt.

(** The stack pointer and M switch of a status register write (68030). *)
Definition switch_stacks_030 (new_s new_m : bool) (c : cpu_t) : cpu_t :=
  let c' :=
    if truthy (supervisor c) then
      let c := if truthy (m c) then set_msp (get_a 7 c) c else set_ssp (get_a 7 c) c in
      if new_s then put_a 7 (if new_m then msp c else ssp c) c else put_a 7 (usp c) c
    else if new_s then
      let c := set_usp (get_a 7 c) c in put_a 7 (if new_m then msp c else ssp c) c
    else c in
  set_m (cbool new_m) c'.

(** 68000: no M bit. *)
Definition switch_stacks_000 (new_s : bool) (c : cpu_t) : cpu_t :=
  if new_s && negb (truthy (supervisor c)) then put_a 7 (ssp c) (set_usp (get_a 7 c) c)
  else if negb new_s && truthy (supervisor c) then put_a 7 (usp c) (set_ssp (get_a 7 c) c)
  else c.

Definition write_sr (sr : Z) : MM unit :=
  c ← getc id;
  let new_s := Z.testbit sr 13 in
  let old_s := truthy (supervisor c) in
  (if is_68030 c then
     modc (switch_stacks_030 new_s (Z.testbit sr 12));;
     modc (set_trace (Z.land (Z.shiftr sr 14) 3));;
     when (negb (eqb new_s old_s))
       (modb (set_active new_s);; when (negb new_s) (modb snapshot_user_crp))
   else
     modc (switch_stacks_000 new_s);;
     modc (set_trace (Z.land (Z.shiftr sr 15) 1));;
     when (negb (eqb new_s old_s)) (modb (set_active new_s)));;
  modc (set_supervisor (cbool new_s));;
  modc (set_interrupt_mask (Z.land (Z.shiftr sr 8) 7));;
  modc (fun c => set_cc (write_ccr sr (cc c)) c);;
  cpu_check_interrupt.

(** cpu_set_sr (cpu.c) *)
Definition cpu_set_sr (sr : Z) : MM unit := write_sr (u16 sr).

(** ** Exception entries *)

Definition raise (vector delta : Z) : MM unit :=
  c ← getc id; exception vector (u32 (pc c + delta)) (cpu_get_sr c).
Definition exception_divide_by_zero : MM unit := raise 0x14 0.
Definition chk_exception : MM unit := raise 0x18 0.
Definition trapv : MM unit := raise 0x1c 0.
Definition privilege_violation : MM unit := raise 0x20 (-2).
Definition trap (trap_num : Z) : MM unit := raise (0x080 + trap_num * 4) 0.
Definition a_trap : MM unit := raise 0x28 (-2).

(** Prefetch advance of the control transfer that branched into an absent
    page (68000 group-0 fault), from its opcode. *)
Definition m68k_fetch_fault_pc_advance (ir_ : Z) : Z :=
  if Z.land ir_ 0xFF00 =? 0x4A00 then 2
  else if Z.land ir_ 0xFF00 =? 0x4E00 then
    if Z.land ir_ 0x00F8 =? 0x00D0 then 2
    else if Z.land ir_ 0x00F8 =? 0x00A8 then 4
    else if Z.land ir_ 0x00F8 =? 0x0090 then 2
    else match Z.land ir_ 0x00FF with
         | 0x75 => 2 | 0x73 => 0 | 0xF9 => 2 | 0xB9 => 6 | _ => 2 end
  else 2.

Definition PAGE_SHIFT : Z := 12.

Definition f_trap : MM unit :=
  c ← getc id;
  b ← getb id;
  if bus_error_pending b && (bus_error_address b =? instruction_pc c) then
    let is_pmmu := bus_error_is_pmmu b in
    modb clear_bus_error;;
    modc (set_pc (instruction_pc c));;
    when ((cpu_model c =? CPU_MODEL_68000) && negb is_pmmu)
      (modc (if ir c =? 0x4E75 then set_pc (ir_pc c + 2)
             else set_pc (instruction_pc c + m68k_fetch_fault_pc_advance (ir c))));;
    if (is_pmmu : bool) then exception_bus_error_retry (instruction_pc c) true
    else exception_bus_error (instruction_pc c) true
  else if active_read_empty (Z.shiftr (instruction_pc c) PAGE_SHIFT) b then
    modc (set_pc (instruction_pc c));;
    exception_bus_error (instruction_pc c) true
  else raise 0x2C (-2).

(** Extension words skipped on the 68030 illegal-EA path. *)
Definition skip_ea_extension_words (mode reg op_size : Z) : MM unit :=
  let adv n := modc (fun c => set_pc (pc c + n) c) in
  if (mode =? 5) || ((mode =? 7) && (reg =? 2)) then adv 2
  else if (mode =? 6) || ((mode =? 7) && (reg =? 3)) then
    p ← getc pc; ext ← mem_read B16 p;
    adv 2;;
    when (truthy (Z.land ext 0x0100))
      (let bd_size := Z.land (Z.shiftr ext 4) 3 in
       (if bd_size =? 2 then adv 2 else when (bd_size =? 3) (adv 4));;
       let iis := Z.land ext 7 in
       if Z.land ext 0x0040 =? 0 then
         if (iis =? 2) || (iis =? 6) then adv 2 else when ((iis =? 3) || (iis =? 7)) (adv 4)
       else if iis =? 2 then adv 2 else when (iis =? 3) (adv 4))
  else if (mode =? 7) && (reg =? 0) then adv 2
  else if (mode =? 7) && (reg =? 1) then adv 4
  else when ((mode =? 7) && (reg =? 4)) (adv (if op_size <=? 2 then 2 else 4)).

Definition illegal_instruction : MM unit :=
  c ← getc id;
  exception 0x010
    (if CPU_MODEL_68030 <=? cpu_model c then instruction_pc c else u32 (pc c - 2)) (cpu_get_sr c).
End Exceptions.
