(* ===== verification/CpuOps.v ===== *)
(** * The 68000 instructions

    One constructor of [op] per OP_ macro of cpu_ops.h that the 68000 decoder
    dispatches to (the operand size is an argument where the source has one
    macro per size), and [exec_op], the body of each macro. *)
From S2P Require Import Prelude Bus CpuState CpuAlu CpuMachine CpuExc.

(** ** Addressing-mode sets (ea_mode_t of cpu.h) *)
Definition ea_dn := 0x001.
Definition ea_an := 0x002.
Definition ea_an_mem := 0x004.
Definition ea_an_plus := 0x008.
Definition ea_min_an := 0x010.
Definition ea_d16_an := 0x020.
Definition ea_d8_an_xn := 0x040.
Definition ea_xxx_w := 0x080.
Definition ea_xxx_l := 0x100.
Definition ea_d16_pc := 0x200.
Definition ea_d8_pc_xn := 0x400.
Definition ea_xxx := 0x800.
Definition ea_any := 0xFFF.
Definition ea_data := Z.land ea_any (Z.lnot ea_an).
Definition ea_memory := Z.land ea_data (Z.lnot ea_dn).
Definition ea_control := Z.land ea_memory (Z.lnot (Z.lor (Z.lor ea_an_plus ea_min_an) ea_xxx)).
Definition ea_alterable := Z.land ea_any (Z.lnot (Z.lor (Z.lor ea_d16_pc ea_d8_pc_xn) ea_xxx)).

(** ** Fields of the opcode word *)
Definition EA_MODE (opcode : Z) : Z := Z.land (Z.shiftr opcode 3) 7.
Definition EA_REG (opcode : Z) : Z := Z.land opcode 7.
Definition XREG (opcode : Z) : Z := Z.land (Z.shiftr opcode 9) 7.
Definition DATA (opcode : Z) : Z := Z.land (XREG opcode - 1) 7 + 1.

Definition ea_bit (mode reg : Z) : Z := mode + (if mode =? 7 then reg else 0).

Inductive logic := LOr | LAnd | LXor.
Definition apply_logic (l : logic) : Z -> Z -> Z :=
  match l with LOr => Z.lor | LAnd => Z.land | LXor => Z.lxor end.

(** BTST, BCHG, BCLR, BSET *)
Inductive bitop := BTST | BCHG | BCLR | BSET.
Inductive shiftop := ASR_ | LSR_ | ROXR_ | ROR_ | ASL_ | LSL_ | ROXL_ | ROL_.

Inductive op :=
  | OP_LOGI_DATA_CCR (l : logic) | OP_LOGI_DATA_SR (l : logic) | OP_LOGI_DATA_EA (l : logic) (s : size)
  | OP_SUBI_DATA_EA (s : size) | OP_ADDI_DATA_EA (s : size) | OP_CMPI_DATA_EA (s : size)
  | OP_BIT_L_DX_DY (b : bitop) | OP_BIT_B_DN_EA (b : bitop)
  | OP_BIT_L_DATA_DN (b : bitop) | OP_BIT_B_DATA_EA (b : bitop)
  | OP_MOVEP_W_D16AY_DX | OP_MOVEP_L_D16AY_DX | OP_MOVEP_W_DX_D16AY | OP_MOVEP_L_DX_D16AY
  | OP_MOVE_EA_EA (s : size) | OP_MOVEA_EA_AN (s : size)
  | OP_NEGX_EA (s : size) | OP_CLR_EA (s : size) | OP_NEG_EA (s : size) | OP_NOT_EA (s : size)
  | OP_MOVE_W_SR_EA | OP_MOVE_B_EA_CCR | OP_MOVE_EA_SR
  | OP_NBCD_B_EA | OP_SWAP_DN | OP_PEA_EA | OP_EXT_W_DN | OP_EXT_L_DN
  | OP_MOVEM_LIST_EA (s : size) | OP_MOVEM_EA_LIST (s : size)
  | OP_TST_EA (s : size) | OP_TAS_B_EA
  | OP_TRAP_VECTOR | OP_RESET | OP_NOP | OP_STOP_DATA | OP_RTE | OP_RTS | OP_TRAPV | OP_RTR
  | OP_LINK | OP_UNLK | OP_MOVE_AN_USP | OP_MOVE_USP_AN
  | OP_JSR_EA | OP_JMP_EA | OP_LEA_EA_AN | OP_CHK_W_EA_DN
  | OP_DBCC_DN_LABEL | OP_SCC_EA
  | OP_SUBQ_DATA_AN | OP_ADDQ_DATA_AN | OP_SUBQ_DATA_EA (s : size) | OP_ADDQ_DATA_EA (s : size)
  | OP_BSR_L_LABEL | OP_BSR_W_LABEL | OP_BSR_B_LABEL
  | OP_BCC_L_DISPLACEMENT | OP_BCC_W_DISPLACEMENT | OP_BCC_B_DISPLACEMENT
  | OP_MOVEQ_L_DATA_DN
  | OP_SBCD_DX_DY | OP_SBCD_AX_AY | OP_ABCD_DY_DX | OP_ABCD_AY_AX
  | OP_LOG_EA_DN (l : logic) (s : size) | OP_LOG_DN_EA (l : logic) (s : size)
  | OP_DIVU_W_EA_DN | OP_DIVS_W_EA_DN | OP_MULU_W_EA_DN | OP_MULS_W_EA_DN
  | OP_SUBA_EA_AN (s : size) | OP_SUBX_DX_DY (s : size) | OP_SUBX_AX_AY (s : size)
  | OP_SUB_EA_DN (s : size) | OP_SUB_DN_EA (s : size)
  | OP_ADDA_EA_AN (s : size) | OP_ADDX_DY_DX (s : size) | OP_ADDX_AY_AX (s : size)
  | OP_ADD_EA_DN (s : size) | OP_ADD_DN_EA (s : size)
  | OP_CMPM_AY_AX (s : size) | OP_CMPA_EA_AN (s : size) | OP_CMP_EA_DN (s : size)
  | OP_EXG_DX_DY | OP_EXG_AX_AY | OP_EXG_DX_AY
  | OP_SHIFT_DATA_DY (k : shiftop) (s : size) | OP_SHIFT_DX_DY (k : shiftop) (s : size)
  | OP_SHIFT_W_EA (k : shiftop)
  | OP_ATRAP | OP_FTRAP | OP_UNDEFINED.

#[global] Instance logic_eq_dec : EqDecision logic.
Proof. solve_decision. Defined.
#[global] Instance bitop_eq_dec : EqDecision bitop.
Proof. solve_decision. Defined.
#[global] Instance shiftop_eq_dec : EqDecision shiftop.
Proof. solve_decision. Defined.
#[global] Instance op_eq_dec : EqDecision op.
Proof. solve_decision. Defined.

Section Ops.
Context {B : Type} `{Bus B}.
#[local] Abbreviation MM := (M (machine B)).

(** ** Shared macros *)

Definition VALIDATE_EA (modes mode reg : Z) : MM unit :=
  if Z.testbit modes (ea_bit mode reg) then mret tt
  else illegal_instruction;; continue.
Definition VALID_EA (opcode modes : Z) : MM unit := VALIDATE_EA modes (EA_MODE opcode) (EA_REG opcode).
Definition VALID_EA_MOVE (opcode modes : Z) : MM unit :=
  VALIDATE_EA modes (Z.land (Z.shiftr opcode 6) 7) (Z.land (Z.shiftr opcode 9) 7).

Definition LOAD_EA (s : size) (opcode modes : Z) : MM Z :=
  VALID_EA opcode modes;; read_ea s opcode false.
Definition LOAD_EA_WITH_UPDATE (s : size) (opcode : Z) : MM Z := read_ea s opcode true.
Definition STORE_EA (s : size) (opcode res : Z) : MM unit :=
  write_ea s (EA_MODE opcode) (EA_REG opcode) res.
Definition STORE_DN (s : size) (n v : Z) : MM unit := o ← getD n; putD n (merge s o v).

(** FETCH8/16/32 with increment, by operand size *)
Definition LOAD_IMM (s : size) : MM Z :=
  match s with
  | B8 => w ← fetch_16 true; mret (u8 w)
  | B16 => fetch_16 true
  | B32 => fetch_32 true
  end.

Definition modcc (f : ccr_t -> ccr_t) : MM unit := modc (fun c => set_cc (f (cc c)) c).

(** Runs a value-and-flags computation on the condition codes. *)
Definition alu (f : ccr_t -> Z * ccr_t) : MM Z :=
  c ← getc cc; modc (set_cc (f c).2);; mret (f c).1.

Definition predec_step (s : size) (n : Z) : Z := an_step (bytes s) n.
Definition LOAD_AN_PREDEC (s : size) (n : Z) : MM Z :=
  x ← getA n; putA n (x - predec_step s n);; x ← getA n; mem_read s x.
Definition LOAD_AN_POSTINC (s : size) (n : Z) : MM Z :=
  x ← getA n; v ← mem_read s x; putA n (x + predec_step s n);; mret v.

(** WRITE32(SP - 4, x); commit SP only if the write did not fault *)
Definition PUSH (x : Z) : MM unit :=
  sp ← getA 7; mem_write B32 (sp - 4) x;;
  p ← pending; when (negb p) (putA 7 (sp - 4)).
Definition POP (s : size) : MM Z :=
  sp ← getA 7; v ← mem_read s sp; putA 7 (sp + bytes s);; mret v.

Definition SUPER (x : MM unit) : MM unit :=
  sv ← getc supervisor; if truthy sv then x else privilege_violation.

Definition CC (opcode : Z) : MM bool :=
  c ← getc cc; mret (conditional_test c (Z.land (Z.shiftr opcode 8) 0xF)).

(** ** Instruction bodies *)

Definition TO_CCR (l : logic) : MM unit :=
  src ← LOAD_IMM B8;
  modcc (fun c => write_ccr (apply_logic l (read_ccr c) src) c).
Definition TO_SR (l : logic) : MM unit :=
  SUPER (src ← LOAD_IMM B16; c ← getc id; cpu_set_sr (apply_logic l (cpu_get_sr c) src)).

Definition data_alterable := Z.land ea_data ea_alterable.
Definition memory_alterable := Z.land ea_memory ea_alterable.

Definition IMM_LOGICAL (opcode : Z) (l : logic) (s : size) : MM unit :=
  VALID_EA opcode data_alterable;;
  src ← LOAD_IMM s;
  dst ← LOAD_EA s opcode data_alterable;
  let res := trunc s (apply_logic l dst src) in
  modcc (UPDATE_NZ_CLEAR_CV s res);; STORE_EA s opcode res.

(** SUBI and ADDI *)
Definition ARITH_IMM (f : size -> Z -> Z -> ccr_t -> Z * ccr_t) (opcode : Z) (s : size) : MM unit :=
  VALID_EA opcode data_alterable;;
  src ← LOAD_IMM s;
  dst ← LOAD_EA s opcode data_alterable;
  res ← alu (f s dst src); STORE_EA s opcode res.

Definition CMPI (opcode : Z) (s : size) : MM unit :=
  VALID_EA opcode (ea_data - ea_xxx - ea_d16_pc - ea_d8_pc_xn);;
  src ← LOAD_IMM s;
  dst ← LOAD_EA_WITH_UPDATE s opcode;
  _ ← alu (GENERIC_SUB s dst src); mret tt.

(** SUBQ and ADDQ *)
Definition ARITH_QUICK (f : size -> Z -> Z -> ccr_t -> Z * ccr_t) (opcode : Z) (s : size) : MM unit :=
  dst ← LOAD_EA s opcode (ea_alterable - ea_an);
  res ← alu (f s dst (DATA opcode)); STORE_EA s opcode res.

(** SUB/ADD <ea>,Dn: the ADD macro reads Dn before the operand, SUB after *)
Definition SUB_EA_DN (opcode modes : Z) (s : size) : MM unit :=
  VALID_EA opcode modes;;
  src ← LOAD_EA_WITH_UPDATE s opcode;
  dst ← getD (XREG opcode);
  res ← alu (SUB s (trunc s dst) src); STORE_DN s (XREG opcode) res.
Definition ADD_EA_DN (opcode modes : Z) (s : size) : MM unit :=
  dst ← getD (XREG opcode);
  VALID_EA opcode modes;;
  src ← LOAD_EA_WITH_UPDATE s opcode;
  res ← alu (ADD s (trunc s dst) src); STORE_DN s (XREG opcode) res.
Definition ARITH_DN_EA (f : size -> Z -> Z -> ccr_t -> Z * ccr_t) (opcode : Z) (s : size) : MM unit :=
  dst ← LOAD_EA s opcode memory_alterable;
  src ← getD (XREG opcode);
  res ← alu (f s dst (trunc s src)); STORE_EA s opcode res.

(** SUBX/ADDX Dy,Dx *)
Definition ARITHX_DX_DY (f : size -> Z -> Z -> ccr_t -> Z * ccr_t) (opcode : Z) (s : size) : MM unit :=
  dst ← getD (XREG opcode); src ← getD (EA_REG opcode);
  res ← alu (f s (trunc s dst) (trunc s src)); STORE_DN s (XREG opcode) res.

(** SUBX/ADDX/SBCD/ABCD -(Ay),-(Ax): both address registers are put back if
    any of the accesses faulted. *)
Definition ARITHX_AX_AY (f : Z -> Z -> MM Z) (opcode : Z) (s : size) : MM unit :=
  ay_save ← getA (EA_REG opcode); ax_save ← getA (XREG opcode);
  src ← LOAD_AN_PREDEC s (EA_REG opcode);
  dst ← LOAD_AN_PREDEC s (XREG opcode);
  res ← f dst src;
  ax ← getA (XREG opcode); mem_write s ax res;;
  p ← pending;
  when p (putA (EA_REG opcode) ay_save;; putA (XREG opcode) ax_save).

Definition CMP_EA_DN (opcode modes : Z) (s : size) : MM unit :=
  VALID_EA opcode modes;;
  src ← LOAD_EA_WITH_UPDATE s opcode;
  dst ← getD (XREG opcode);
  _ ← alu (GENERIC_SUB s (trunc s dst) src); mret tt.
Definition CMPA_EA_AN (opcode : Z) (s : size) : MM unit :=
  VALID_EA opcode ea_any;;
  src ← LOAD_EA_WITH_UPDATE s opcode;
  an ← getA (XREG opcode);
  _ ← alu (GENERIC_SUB B32 an (u32 (signed s src))); mret tt.
Definition CMPM_AY_AX (opcode : Z) (s : size) : MM unit :=
  ay_save ← getA (EA_REG opcode); ax_save ← getA (XREG opcode);
  src ← LOAD_AN_POSTINC s (EA_REG opcode);
  dst ← LOAD_AN_POSTINC s (XREG opcode);
  p ← pending;
  when p (putA (EA_REG opcode) ay_save;; putA (XREG opcode) ax_save);;
  _ ← alu (GENERIC_SUB s dst src); mret tt.

Definition NEGX (opcode : Z) (s : size) : MM unit :=
  dst ← LOAD_EA s opcode data_alterable; res ← alu (NEGX_cc s dst); STORE_EA s opcode res.
(** NEG stores before it updates the flags. *)
Definition NEG (opcode : Z) (s : size) : MM unit :=
  dst ← LOAD_EA s opcode data_alterable;
  STORE_EA s opcode (trunc s (0 - dst));;
  _ ← alu (NEG_cc s dst); mret tt.
Definition NOT (opcode : Z) (s : size) : MM unit :=
  dst ← LOAD_EA s opcode data_alterable;
  let dst := trunc s (Z.lnot dst) in
  modcc (UPDATE_NZ_CLEAR_CV s dst);; STORE_EA s opcode dst.

Definition LOGICAL_EA_DN (opcode : Z) (l : logic) (s : size) : MM unit :=
  dst ← getD (XREG opcode);
  VALID_EA opcode ea_data;;
  src ← LOAD_EA_WITH_UPDATE s opcode;
  let res := trunc s (apply_logic l (trunc s dst) src) in
  modcc (UPDATE_NZ_CLEAR_CV s res);; STORE_DN s (XREG opcode) res.
Definition LOGICAL_DN_EA (opcode modes : Z) (l : logic) (s : size) : MM unit :=
  dst ← LOAD_EA s opcode modes;
  src ← getD (XREG opcode);
  let res := trunc s (apply_logic l dst (trunc s src)) in
  modcc (UPDATE_NZ_CLEAR_CV s res);; STORE_EA s opcode res.

Definition MUL_W (view : Z -> Z) (opcode : Z) : MM unit :=
  VALID_EA opcode ea_data;;
  src ← LOAD_EA_WITH_UPDATE B16 opcode;
  dst ← getD (XREG opcode);
  let res := u32 (view src * view dst) in
  modcc (UPDATE_NZ_CLEAR_CV B32 res);; putD (XREG opcode) res.

Definition DIV16 (value : Z -> Z -> div_result) (opcode : Z) : MM unit :=
  VALID_EA opcode ea_data;;
  divisor ← LOAD_EA_WITH_UPDATE B16 opcode;
  dn ← getD (XREG opcode);
  modcc (fun c => mk_ccr (extend c) 0 0 0 0);;
  match value dn divisor with
  | DivByZero => exception_divide_by_zero
  | DivUndefined => undefined
  | DivOverflow => modcc (fun c => set_negative 1 (set_overflow 1 c))
  | DivOk v n z => putD (XREG opcode) v;; modcc (fun c => set_zero z (set_negative n c))
  end.

(** ** Bit manipulation: the bit number is taken modulo the operand size *)
Definition bit_result (b : bitop) (dst mask : Z) : Z :=
  match b with
  | BTST => dst | BCHG => Z.lxor dst mask
  | BCLR => Z.land dst (Z.lnot mask) | BSET => Z.lor dst mask
  end.

Definition BIT_OP (opcode : Z) (b : bitop) (s : size) (getbit : MM Z) (test_modes : Z) : MM unit :=
  match b with
  | BTST =>
      VALID_EA opcode test_modes;;
      n ← getbit;
      dst ← LOAD_EA_WITH_UPDATE s opcode;
      modcc (set_zero (cbool (Z.land dst (bit n) =? 0)))
  | _ =>
      VALID_EA opcode data_alterable;;
      n ← getbit;
      dst ← LOAD_EA s opcode data_alterable;
      modcc (set_zero (cbool (Z.land dst (bit n) =? 0)));;
      STORE_EA s opcode (trunc s (bit_result b dst (bit n)))
  end.
Definition bit_of_dx (opcode mask : Z) : MM Z := x ← getD (XREG opcode); mret (Z.land x mask).
Definition bit_of_imm (mask : Z) : MM Z := w ← fetch_16 true; mret (Z.land w mask).

(** ** MOVE: the source An is put back when source or destination faulted *)
Definition MOVE (opcode modes : Z) (s : size) : MM unit :=
  VALID_EA opcode modes;;
  let upd := (EA_MODE opcode =? 3) || (EA_MODE opcode =? 4) in
  an ← getA (EA_REG opcode);
  let save := if upd then an else 0 in
  src ← LOAD_EA_WITH_UPDATE s opcode;
  write_ea s (Z.land (Z.shiftr opcode 6) 7) (XREG opcode) src;;
  p ← pending;
  when (p && upd) (putA (EA_REG opcode) save);;
  modcc (UPDATE_NZ_CLEAR_CV s src).
Definition MOVEA (opcode : Z) (s : size) : MM unit :=
  VALID_EA opcode ea_any;;
  src ← LOAD_EA_WITH_UPDATE s opcode; putA (XREG opcode) (signed s src).

Definition CLR (opcode : Z) (s : size) : MM unit :=
  VALID_EA opcode data_alterable;;
  STORE_EA s opcode 0;; modcc (fun c => mk_ccr (extend c) 0 1 0 0).

Definition DBCC_DN_LABEL (opcode : Z) : MM unit :=
  t ← CC opcode;
  if (t : bool) then modc (fun c => set_pc (pc c + 2) c)
  else
    dy ← getD (EA_REG opcode);
    let counter := s16 (dy - 1) in
    STORE_DN B16 (EA_REG opcode) counter;;
    disp ← (if counter =? -1 then mret 2 else w ← fetch_16 false; mret (s16 w));
    modc (fun c => set_pc (pc c + disp) c).

(** ** MOVEP: two (four) bytes at every second address *)
Definition EA_D16_AN (opcode : Z) : MM Z := calculate_ea 2 5 (EA_REG opcode) true.
Definition READ2x8 (addr : Z) : MM Z :=
  h ← mem_read B8 addr; l ← mem_read B8 (addr + 2); mret (Z.lor (Z.shiftl h 8) l).
Definition READ4x8 (addr : Z) : MM Z :=
  h ← READ2x8 addr; l ← READ2x8 (addr + 4); mret (Z.lor (Z.shiftl h 16) l).
Definition WRITE2x8 (addr x : Z) : MM unit :=
  mem_write B8 addr (Z.land (Z.shiftr x 8) 0xFF);; mem_write B8 (addr + 2) (Z.land x 0xFF).
Definition WRITE4x8 (addr x : Z) : MM unit :=
  WRITE2x8 addr (Z.land (Z.shiftr x 16) 0xFFFF);; WRITE2x8 (addr + 4) (Z.land x 0xFFFF).

(** ** Shifts and rotates *)
Definition lift_asl (s : size) (d c r : Z) : MM unit :=
  f ← getc cc;
  match ASHIFT_LEFT s d c r f with Some f' => modc (set_cc f') | None => undefined end.

(** The count of the register forms of ROXL and ROXR is reduced modulo the
    size plus one by their OP_ macros. *)
Definition SHIFT_DY (k : shiftop) (s : size) (imm : bool) (opcode count : Z) : MM unit :=
  dy ← getD (EA_REG opcode);
  let d := trunc s dy in
  let c := trunc s count in
  let c1 := trunc s (if imm then count else count mod (bits s + 1)) in
  let store := STORE_DN s (EA_REG opcode) in
  match k with
  | ASR_ => let r := if imm then asr_data s d c else asr_reg s d c in
            store r;; modcc (SHIFT_RIGHT s d c r)
  | LSR_ => let r := if imm then lsr_data s d c else lsr_reg s d c in
            store r;; modcc (SHIFT_RIGHT s d c r)
  | ASL_ => let r := if imm then shl_data s d c else shl_reg s d c in
            store r;; lift_asl s d c r
  | LSL_ => let r := if imm then shl_data s d c else shl_reg s d c in
            store r;; modcc (LSHIFT_LEFT s d c r)
  | ROR_ => r ← alu (ROTATE_RIGHT s d c); store r
  | ROL_ => r ← alu (ROTATE_LEFT s d c); store r
  | ROXR_ => r ← alu (ROXR s d c1); store r
  | ROXL_ => r ← alu (ROXL s d c1); store r
  end.

(** One-bit memory shifts: result, then C (and X, V) from the operand *)
Definition SHIFT_EA (opcode : Z) (k : shiftop) : MM unit :=
  ea ← LOAD_EA B16 opcode memory_alterable;
  x ← getc (fun c => truthy (extend (cc c)));
  let res := u16 (match k with
    | ASR_ => Z.shiftr (s16 ea) 1
    | LSR_ => Z.shiftr ea 1
    | ROXR_ => Z.lor (Z.shiftr ea 1) (if x : bool then 0x8000 else 0)
    | ROR_ => Z.lor (Z.shiftr ea 1) (Z.shiftl ea 15)
    | ASL_ | LSL_ => Z.shiftl ea 1
    | ROXL_ => Z.lor (Z.shiftl ea 1) (if x : bool then 1 else 0)
    | ROL_ => Z.lor (Z.shiftl ea 1) (Z.shiftr ea 15)
    end) in
  modcc (UPDATE_NZ_CLEAR_V B16 res);;
  STORE_EA B16 opcode res;;
  let low := Z.land ea 1 in let high := Z.shiftr ea 15 in
  modcc (fun c => match k with
    | ASR_ | ROXR_ => set_extend low (set_carry low c)
    | LSR_ => set_extend low (set_negative 0 (set_carry low c))
    | ROR_ => set_carry low c
    | ASL_ => set_overflow (Z.land (Z.lxor ea (Z.shiftl ea 1)) 0x8000) (set_extend high (set_carry high c))
    | LSL_ | ROXL_ => set_extend high (set_carry high c)
    | ROL_ => set_carry high c
    end).

Definition GET_EA (opcode : Z) : MM Z := calculate_ea 4 (EA_MODE opcode) (EA_REG opcode) true.

Definition bsr (p : Z) : MM unit := r ← getc pc; PUSH r;; modc (set_pc p).

(** ** The OP_ macros *)
Definition exec_op (o : op) (opcode : Z) : MM unit :=
  let x := XREG opcode in let y := EA_REG opcode in
  match o with
  | OP_LOGI_DATA_CCR l => TO_CCR l
  | OP_LOGI_DATA_SR l => TO_SR l
  | OP_LOGI_DATA_EA l s => IMM_LOGICAL opcode l s
  | OP_SUBI_DATA_EA s => ARITH_IMM SUB opcode s
  | OP_ADDI_DATA_EA s => ARITH_IMM ADD opcode s
  | OP_CMPI_DATA_EA s => CMPI opcode s
  | OP_BIT_L_DX_DY b => BIT_OP opcode b B32 (bit_of_dx opcode 0x1F) (ea_data - ea_xxx)
  | OP_BIT_B_DN_EA b => BIT_OP opcode b B8 (bit_of_dx opcode 7) ea_data
  | OP_BIT_L_DATA_DN b => BIT_OP opcode b B32 (bit_of_imm 0x1F) (ea_data - ea_xxx)
  | OP_BIT_B_DATA_EA b => BIT_OP opcode b B8 (bit_of_imm 7) (ea_data - ea_xxx)
  | OP_MOVEP_W_D16AY_DX => ea ← EA_D16_AN opcode; v ← READ2x8 ea; STORE_DN B16 x v
  | OP_MOVEP_L_D16AY_DX => ea ← EA_D16_AN opcode; v ← READ4x8 ea; putD x v
  | OP_MOVEP_W_DX_D16AY => ea ← EA_D16_AN opcode; v ← getD x; WRITE2x8 ea v
  | OP_MOVEP_L_DX_D16AY => ea ← EA_D16_AN opcode; v ← getD x; WRITE4x8 ea v
  | OP_MOVE_EA_EA s =>
      VALID_EA_MOVE opcode data_alterable;;
      MOVE opcode (match s with B8 => ea_any - ea_an | _ => ea_any end) s
  | OP_MOVEA_EA_AN s => MOVEA opcode s
  | OP_NEGX_EA s => NEGX opcode s
  | OP_CLR_EA s => CLR opcode s
  | OP_NEG_EA s => NEG opcode s
  | OP_NOT_EA s => NOT opcode s
  | OP_MOVE_W_SR_EA => VALID_EA opcode data_alterable;; sr ← getc cpu_get_sr; STORE_EA B16 opcode sr
  | OP_MOVE_B_EA_CCR =>
      VALID_EA opcode ea_data;; src ← LOAD_EA_WITH_UPDATE B16 opcode; modcc (write_ccr src)
  | OP_MOVE_EA_SR =>
      VALID_EA opcode ea_data;; SUPER (v ← LOAD_EA_WITH_UPDATE B16 opcode; cpu_set_sr v)
  | OP_NBCD_B_EA =>
      src ← LOAD_EA B8 opcode data_alterable;
      model ← getc cpu_model; r ← alu (sbcd model 0 src); STORE_EA B8 opcode r
  | OP_SWAP_DN =>
      v ← getD y;
      let r := u32 (Z.lor (Z.shiftr v 16) (Z.shiftl v 16)) in
      putD y r;; modcc (UPDATE_NZ_CLEAR_CV B32 r)
  | OP_PEA_EA => VALID_EA opcode ea_control;; ea ← GET_EA opcode; PUSH ea
  | OP_EXT_W_DN =>
      v ← getD y; let r := u16 (s8 v) in
      STORE_DN B16 y r;; modcc (UPDATE_NZ_CLEAR_CV B16 r)
  | OP_EXT_L_DN =>
      v ← getD y; let r := u32 (s16 v) in putD y r;; modcc (UPDATE_NZ_CLEAR_CV B32 r)
  | OP_MOVEM_LIST_EA s =>
      VALID_EA opcode (Z.lor (Z.land ea_control ea_alterable) ea_min_an);; movem_from_register opcode s
  | OP_MOVEM_EA_LIST s => VALID_EA opcode (ea_control + ea_an_plus);; movem_to_register opcode s
  | OP_TST_EA s =>
      VALID_EA opcode data_alterable;;
      v ← LOAD_EA_WITH_UPDATE s opcode; modcc (UPDATE_NZ_CLEAR_CV s v)
  | OP_TAS_B_EA =>
      v ← LOAD_EA B8 opcode data_alterable;
      modcc (UPDATE_NZ_CLEAR_CV B8 v);; STORE_EA B8 opcode (Z.lor v 0x80)
  | OP_TRAP_VECTOR => trap (Z.land opcode 0xF)
  | OP_RESET => SUPER (modb system_reset_devices)
  | OP_NOP => mret tt
  | OP_STOP_DATA =>
      SUPER (sr ← fetch_16 true; modc (set_stopped 1);; modb (set_instructions 0);; cpu_set_sr sr)
  | OP_RTE => SUPER (sr ← POP B16; p ← POP B32; modc (set_pc p);; cpu_set_sr sr)
  | OP_RTS => p ← POP B32; modc (set_pc p)
  | OP_TRAPV => c ← getc cc; when (truthy (overflow c)) trapv
  | OP_RTR => ccr ← POP B16; modcc (write_ccr ccr);; p ← POP B32; modc (set_pc p)
  | OP_LINK =>
      disp ← fetch_16 true;
      ay ← getA y; PUSH ay;;
      sp ← getA 7; putA y sp;;
      sp ← getA 7; putA 7 (sp + s16 disp)
  | OP_UNLK => ay ← getA y; putA 7 ay;; v ← POP B32; putA y v
  | OP_MOVE_AN_USP => SUPER (v ← getA y; modc (set_usp v))
  | OP_MOVE_USP_AN => SUPER (v ← getc usp; putA y v)
  | OP_JSR_EA => VALID_EA opcode ea_control;; ea ← GET_EA opcode; bsr ea
  | OP_JMP_EA => VALID_EA opcode ea_control;; ea ← GET_EA opcode; modc (set_pc ea)
  | OP_LEA_EA_AN => VALID_EA opcode ea_control;; ea ← GET_EA opcode; putA x ea
  | OP_CHK_W_EA_DN =>
      VALID_EA opcode ea_data;;
      src ← LOAD_EA_WITH_UPDATE B16 opcode; v ← getD x;
      let dn := s16 v in
      if dn <? 0 then modcc (set_negative 1);; chk_exception
      else when (s16 src <? dn) (modcc (set_negative 0);; chk_exception)
  | OP_DBCC_DN_LABEL => DBCC_DN_LABEL opcode
  | OP_SCC_EA =>
      VALID_EA opcode data_alterable;; t ← CC opcode; STORE_EA B8 opcode (if t : bool then 0xFF else 0)
  | OP_SUBQ_DATA_AN => v ← getA y; putA y (v - DATA opcode)
  | OP_ADDQ_DATA_AN => v ← getA y; putA y (v + DATA opcode)
  | OP_SUBQ_DATA_EA s => ARITH_QUICK SUB opcode s
  | OP_ADDQ_DATA_EA s => ARITH_QUICK ADD opcode s
  | OP_BSR_L_LABEL => p ← getc pc; w ← fetch_32 true; bsr (u32 (p + s32 w))
  | OP_BSR_W_LABEL => p ← getc pc; w ← fetch_16 true; bsr (u32 (p + s16 w))
  | OP_BSR_B_LABEL => p ← getc pc; bsr (u32 (p + s8 (Z.land opcode 0xFF)))
  | OP_BCC_L_DISPLACEMENT =>
      t ← CC opcode; n ← (if t : bool then w ← fetch_32 false; mret (s32 w) else mret 4);
      modc (fun c => set_pc (pc c + n) c)
  | OP_BCC_W_DISPLACEMENT =>
      t ← CC opcode; n ← (if t : bool then w ← fetch_16 false; mret (s16 w) else mret 2);
      modc (fun c => set_pc (pc c + n) c)
  | OP_BCC_B_DISPLACEMENT =>
      t ← CC opcode;
      modc (fun c => set_pc (pc c + (if t : bool then s8 (Z.land opcode 0xFF) else 0)) c)
  | OP_MOVEQ_L_DATA_DN =>
      let res := u32 (s8 opcode) in putD x res;; modcc (UPDATE_NZ_CLEAR_CV B32 res)
  | OP_SBCD_DX_DY =>
      dx ← getD x; dy ← getD y; model ← getc cpu_model;
      r ← alu (sbcd model (u8 dx) (u8 dy)); STORE_DN B8 x r
  | OP_SBCD_AX_AY =>
      model ← getc cpu_model; ARITHX_AX_AY (fun dst src => alu (sbcd model dst src)) opcode B8
  | OP_ABCD_DY_DX =>
      dx ← getD x; dy ← getD y; model ← getc cpu_model;
      r ← alu (abcd model (u8 dx) (u8 dy)); STORE_DN B8 x r
  | OP_ABCD_AY_AX =>
      model ← getc cpu_model; ARITHX_AX_AY (fun dst src => alu (abcd model dst src)) opcode B8
  | OP_LOG_EA_DN l s => LOGICAL_EA_DN opcode l s
  | OP_LOG_DN_EA l s =>
      LOGICAL_DN_EA opcode (match l with LXor => data_alterable | _ => memory_alterable end) l s
  | OP_DIVU_W_EA_DN => DIV16 DIV16U_value opcode
  | OP_DIVS_W_EA_DN => DIV16 DIV16S_value opcode
  | OP_MULU_W_EA_DN => MUL_W u16 opcode
  | OP_MULS_W_EA_DN => MUL_W s16 opcode
  | OP_SUBA_EA_AN s =>
      VALID_EA opcode ea_any;; src ← LOAD_EA_WITH_UPDATE s opcode;
      an ← getA x; putA x (an - signed s src)
  | OP_SUBX_DX_DY s => ARITHX_DX_DY SUBX opcode s
  | OP_SUBX_AX_AY s => ARITHX_AX_AY (fun dst src => alu (SUBX s dst src)) opcode s
  | OP_SUB_EA_DN s => SUB_EA_DN opcode (match s with B8 => ea_any - ea_an | _ => ea_any end) s
  | OP_SUB_DN_EA s => ARITH_DN_EA SUB opcode s
  | OP_ADDA_EA_AN s =>
      VALID_EA opcode ea_any;; src ← LOAD_EA_WITH_UPDATE s opcode;
      an ← getA x; putA x (an + signed s src)
  | OP_ADDX_DY_DX s => ARITHX_DX_DY ADDX opcode s
  | OP_ADDX_AY_AX s => ARITHX_AX_AY (fun dst src => alu (ADDX s dst src)) opcode s
  | OP_ADD_EA_DN s => ADD_EA_DN opcode (match s with B8 => ea_any - ea_an | _ => ea_any end) s
  | OP_ADD_DN_EA s => ARITH_DN_EA ADD opcode s
  | OP_CMPM_AY_AX s => CMPM_AY_AX opcode s
  | OP_CMPA_EA_AN s => CMPA_EA_AN opcode s
  | OP_CMP_EA_DN s => CMP_EA_DN opcode (match s with B8 => ea_any - ea_an | _ => ea_any end) s
  | OP_EXG_DX_DY => vx ← getD x; vy ← getD y; putD x vy;; putD y vx
  | OP_EXG_AX_AY => vx ← getA x; vy ← getA y; putA x vy;; putA y vx
  | OP_EXG_DX_AY => vx ← getD x; vy ← getA y; putD x vy;; putA y vx
  | OP_SHIFT_DATA_DY k s => SHIFT_DY k s true opcode (DATA opcode)
  | OP_SHIFT_DX_DY k s => n ← getD x; SHIFT_DY k s false opcode (Z.land n 0x3F)
  | OP_SHIFT_W_EA k => SHIFT_EA opcode k
  | OP_ATRAP => a_trap
  | OP_FTRAP => f_trap
  | OP_UNDEFINED => illegal_instruction;; continue
  end.
End Ops.
