(* ===== verification/CpuShiftProofs.v ===== *)
(** * What shifts and rotates compute

    The closed forms of the shifts and of the rotates of cpu_ops.h against
    arithmetic on the whole operand; division; and the register forms of the
    shift instructions against the one-bit steps of the programmer's manual. *)
From S2P Require Import Prelude Bus FlatBus CpuState CpuAlu CpuAluProofs CpuMachine CpuExc CpuOps.

(** ** Left shifts *)

Lemma trunc_shiftl s d c : 0 <= c -> trunc s (Z.shiftl d c) = (d * 2 ^ c) mod 2 ^ bits s.
Proof. intros. by rewrite Z.shiftl_mul_pow2. Qed.

Lemma shl_reg_value s d c : 0 <= c -> shl_reg s d c = (d * 2 ^ c) mod 2 ^ bits s.
Proof.
  intros Hc. unfold shl_reg. pose proof (bits_pos s).
  destruct (Z.ltb_spec c (bits s)); [by apply trunc_shiftl|].
  replace c with ((c - bits s) + bits s) by lia.
  by rewrite Z.pow_add_r, Z.mul_assoc, Z.mod_mul by (lia || apply Z.pow_nonzero; lia).
Qed.

(** The bit that leaves the operand last is bit [bits s] of the shifted value. *)
Lemma carry_shift_l s d c f :
  in_width (bits s) d -> 0 <= c ->
  truthy (carry (UPDATE_C_SHIFT_L s d c f)) = Z.testbit (d * 2 ^ c) (bits s).
Proof.
  intros Hd Hc. simpl. rewrite truthy_cbool, <-Z.shiftl_mul_pow2, shiftl_testbit by done.
  pose proof (bits_pos s). rewrite (proj2 (Z.leb_le 0 (bits s))) by lia. simpl.
  unfold truthy at 1. destruct (Z.eqb_spec c 0); simpl.
  { rewrite (width_bits (bits s)) by (done || lia). done. }
  destruct (Z.leb_spec c (bits s)); simpl; [|by rewrite Z.testbit_neg_r by lia].
  unfold bit. rewrite Z.shiftl_1_l. apply truthy_land_pow2. lia.
Qed.

Lemma trunc_lxor s x y :
  in_width (bits s) y -> trunc s (Z.lxor x y) = Z.lxor (trunc s x) y.
Proof.
  intros Hy. apply Z.bits_inj'. intros i Hi. unfold trunc. pose proof (bits_pos s).
  rewrite Z.lxor_spec, !wrap_testbit, Z.lxor_spec by lia.
  destruct (Z.ltb_spec i (bits s)); simpl; [done|]. by rewrite (width_bits (bits s) y) by (done || lia).
Qed.

(** The sign bit of the operand, shifted arithmetically by [c] and cut down
    to its top [c + 1] bits: all clear or all set. *)
Lemma asl_sign_mask s d c :
  in_width (bits s) d -> 0 <= c <= bits s - 1 ->
  trunc s (Z.shiftr (signed s (Z.land (bit (bits s - 1)) d)) c) / 2 ^ (bits s - 1 - c) =
  if d <? 2 ^ (bits s - 1) then 0 else 2 ^ (c + 1) - 1.
Proof.
  intros Hd Hc. pose proof (bits_pos s).
  unfold bit. rewrite Z.shiftl_1_l, Z.land_comm, land_pow2, msb_lt by (done || lia).
  destruct (d <? 2 ^ (bits s - 1)); cbn [negb].
  { replace (signed s 0) with 0 by (by destruct s). rewrite Z.shiftr_0_l.
    replace (trunc s 0) with 0 by (by destruct s). apply Z.div_0_l. apply Z.pow_nonzero; lia. }
  assert (E : 2 ^ (bits s - 1) = 2 ^ (bits s - 1 - c) * 2 ^ c)
    by (rewrite <-Z.pow_add_r by lia; f_equal; lia).
  assert (E' : 2 ^ (c + 1) = 2 * 2 ^ c) by (by rewrite Z.add_1_r, Z.pow_succ_r by lia).
  assert (0 < 2 ^ c /\ 0 < 2 ^ (bits s - 1 - c)) as [] by (split; apply Z.pow_pos_nonneg; lia).
  replace (signed s (2 ^ (bits s - 1))) with (- 2 ^ (bits s - 1)) by (by destruct s).
  rewrite Z.shiftr_div_pow2, E, <-Z.mul_opp_l, Z.div_mul, E' by lia.
  unfold trunc, wrap. rewrite pow_bits, E.
  rewrite <-(Z.mod_unique_pos (- 2 ^ (bits s - 1 - c)) _ (-1)
    (2 * (2 ^ (bits s - 1 - c) * 2 ^ c) - 2 ^ (bits s - 1 - c))) by nia.
  symmetry. apply (Z.div_unique_pos _ _ _ 0); lia.
Qed.

(** The overflow expression holds exactly when the top [c + 1] bits of the
    operand do not all agree, that is, when the shift overflows. *)
Lemma asl_sign_bits s d c :
  in_width (bits s) d -> 0 <= c <= bits s - 1 ->
  truthy (Z.shiftr (trunc s (Z.lxor (Z.shiftr (signed s (Z.land (bit (bits s - 1)) d)) c) d))
            (bits s - c - 1)) = true <->
  ~ signed_in s (signed s d * 2 ^ c).
Proof.
  intros Hd Hc. pose proof (bits_pos s).
  rewrite trunc_lxor, Z.shiftr_lxor, truthy_true, Z.lxor_eq_0_iff by done.
  replace (bits s - c - 1) with (bits s - 1 - c) by lia.
  rewrite !(Z.shiftr_div_pow2 _ (bits s - 1 - c)), asl_sign_mask by (done || lia).
  rewrite (signed_msb s d), msb_lt by done. unfold signed_in. rewrite pow_bits.
  assert (E : 2 ^ (bits s - 1) = 2 ^ (bits s - 1 - c) * 2 ^ c)
    by (rewrite <-Z.pow_add_r by lia; f_equal; lia).
  assert (0 < 2 ^ c /\ 0 < 2 ^ (bits s - 1 - c)) as [] by (split; apply Z.pow_pos_nonneg; lia).
  rewrite Z.add_1_r, Z.pow_succ_r, E by lia. destruct Hd as [Hd0 Hd1]. rewrite pow_bits, E in Hd1.
  set (P := 2 ^ (bits s - 1 - c)) in *. set (Q := 2 ^ c) in *. clearbody P Q.
  pose proof (Z.div_mod d P ltac:(lia)). pose proof (Z.mod_pos_bound d P ltac:(lia)).
  destruct (Z.ltb_spec d (P * Q)); cbn [negb]; split; intros Hne Hc'; apply Hne; nia.
Qed.

(** A nonzero operand shifted out completely overflows. *)
Lemma asl_vanished s d c :
  in_width (bits s) d -> 0 <= c -> d <> 0 -> shl_reg s d c = 0 -> ~ signed_in s (signed s d * 2 ^ c).
Proof.
  intros Hd Hc Hnz Hr. rewrite shl_reg_value in Hr by done.
  apply Z.mod_divide in Hr as [k Hk]; [|pose proof (pow_bits_pos s); rewrite pow_bits; lia].
  rewrite signed_msb, msb_lt by done. unfold signed_in. destruct Hd as [Hd0 Hd1].
  assert (0 < 2 ^ c) by (apply Z.pow_pos_nonneg; lia). pose proof (pow_bits_pos s).
  rewrite pow_bits in *. set (P := 2 ^ (bits s - 1)) in *. set (Q := 2 ^ c) in *. clearbody P Q.
  destruct (Z.ltb_spec d P); cbn [negb]; intros [].
  - assert (1 <= k) by nia. nia.
  - assert (k - Q <= -1 \/ 0 <= k - Q) as [] by lia; nia.
Qed.

Lemma asl_overflow_spec s d c :
  in_width (bits s) d -> 0 <= c ->
  match asl_overflow s d c (shl_reg s d c) with
  | Some v => v = true <-> ~ signed_in s (signed s d * 2 ^ c)
  | None => d = 0 /\ bits s <= c
  end.
Proof.
  intros Hd Hc. unfold asl_overflow.
  destruct (Z.eqb_spec (shl_reg s d c) 0) as [Er|Er], (truthy d) eqn:Ed; cbn [andb].
  1: { split; [|done]. intros _. apply asl_vanished; [done..| |done]. by apply truthy_true. }
  all: destruct (Z.leb_spec c (bits s - 1));
    [replace (c <? 32) with true by (symmetry; apply Z.ltb_lt; destruct s; simpl in *; lia);
     cbn [andb]; apply asl_sign_bits; [done|lia]
    |rewrite andb_false_r].
  - split; [|lia]. unfold truthy in Ed. by apply negb_false_iff, Z.eqb_eq in Ed.
  - unfold shl_reg in Er. rewrite (proj2 (Z.ltb_ge c (bits s))) in Er by lia. done.
  - unfold shl_reg in Er. rewrite (proj2 (Z.ltb_ge c (bits s))) in Er by lia. done.
Qed.

Lemma extend_shift c f :
  truthy (extend (UPDATE_X_SHIFT c f)) = (if c =? 0 then truthy (extend f) else truthy (carry f)).
Proof.
  simpl. rewrite truthy_cbool. unfold truthy at 1 3.
  destruct (c =? 0); simpl; [done|]. apply orb_false_r.
Qed.

(** ASL and LSL of a data register by a count of 0..63.  The result is
    the operand times a power of two, modulo the size; C (and X unless the
    count is zero) is the last bit shifted out; V of ASL holds exactly when
    the signed product overflows, i.e. when the sign changed during the
    shift.  The expression for V is undefined in C exactly for a zero operand
    shifted by at least its width. *)
Theorem ASL_LSL_correct s d c f :
  in_width (bits s) d -> 0 <= c < 64 ->
  let r := shl_reg s d c in
  r = (d * 2 ^ c) mod 2 ^ bits s /\
  let ok f' :=
    truthy (carry f') = Z.testbit (d * 2 ^ c) (bits s) /\
    truthy (extend f') = (if c =? 0 then truthy (extend f) else truthy (carry f')) /\
    truthy (negative f') = (signed s r <? 0) /\ truthy (zero f') = (r =? 0) in
  (ok (LSHIFT_LEFT s d c r f) /\ overflow (LSHIFT_LEFT s d c r f) = 0) /\
  match ASHIFT_LEFT s d c r f with
  | Some f' => ok f' /\ (truthy (overflow f') = true <-> ~ signed_in s (signed s d * 2 ^ c))
  | None => d = 0 /\ bits s <= c
  end.
Proof.
  intros Hd Hc r. split; [apply shl_reg_value; lia|]. intros ok.
  assert (in_width (bits s) r) as Hr.
  { unfold r. rewrite shl_reg_value by lia. apply wrap_range. pose proof (bits_pos s). lia. }
  pose proof (carry_shift_l s d c f Hd ltac:(lia)) as HC.
  pose proof (extend_shift c (UPDATE_C_SHIFT_L s d c f)) as HX.
  pose proof (negative_N s r f Hr) as HN. simpl in HC, HX, HN.
  assert (forall v, ok (set_overflow v (UPDATE_Z r (UPDATE_N s r
            (UPDATE_X_SHIFT c (UPDATE_C_SHIFT_L s d c f)))))) as Hok.
  { intros v. unfold ok. simpl. rewrite (truthy_cbool (r =? 0)). by split_and!. }
  split; [split; [apply Hok|done]|].
  pose proof (asl_overflow_spec s d c Hd ltac:(lia)) as HV. fold r in HV. unfold ASHIFT_LEFT.
  destruct (asl_overflow s d c r) as [v|]; [|done].
  split; [apply Hok|]. simpl. by rewrite truthy_cbool.
Qed.

Example ASL_LSL_correct_witness :
  in_width 8 0x60 /\ shl_reg B8 0x60 1 = (0x60 * 2) mod 2 ^ 8.
Proof.
  split; [by vm_compute|].
  pose proof (ASL_LSL_correct B8 0x60 1 (mk_ccr 0 0 0 0 0) ltac:(by vm_compute) ltac:(by vm_compute))
    as [H _]. exact H.
Defined.

(** ** Right shifts *)

Lemma sx_testbit n x i : 0 < n -> 0 <= i ->
  Z.testbit (sx n x) i = Z.testbit x (Z.min i (n - 1)).
Proof.
  intros Hn Hi. unfold sx. assert (Hw := wrap_range n x ltac:(lia)).
  assert (forall j, 0 <= j < n -> Z.testbit x j = Z.testbit (wrap n x) j) as Hl.
  { intros j Hj. rewrite wrap_testbit by lia. by rewrite (proj2 (Z.ltb_lt j n)) by lia. }
  rewrite Hl by lia.
  assert (Z.testbit (wrap n x) (n - 1) = (2 ^ (n - 1) <=? wrap n x)) as Hm by (apply msb_spec; done).
  destruct (Z.ltb_spec (wrap n x) (2 ^ (n - 1))), (Z.lt_ge_cases i n).
  - destruct (Z.eq_dec i (n - 1)); [subst; rewrite Z.min_l by lia; done|by rewrite Z.min_l by lia].
  - rewrite Z.min_r, (width_bits (n - 1)), Hm by (lia || split; lia).
    symmetry. apply Z.leb_gt. lia.
  - rewrite Z.sub_pow2_spec_low, Z.min_l by lia. done.
  - rewrite Z.sub_pow2_spec_high, (width_bits n _ n), Z.min_r, Hm
      by (lia || (rewrite Z.pow_succ_r; lia) || done).
    symmetry. apply Z.leb_le. lia.
Qed.

Lemma asr_reg_value s d c : 0 <= c -> asr_reg s d c = (signed s d / 2 ^ c) mod 2 ^ bits s.
Proof.
  intros Hc. unfold asr_reg, trunc. pose proof (bits_pos s).
  replace (Z.shiftr (signed s d) (Z.min c (bits s - 1))) with (Z.shiftr (signed s d) c).
  { by rewrite Z.shiftr_div_pow2. }
  apply Z.bits_inj'. intros i Hi. unfold signed. rewrite !shiftr_testbit, !sx_testbit by lia.
  f_equal. lia.
Qed.

Lemma lsr_reg_value s d c : in_width (bits s) d -> 0 <= c -> lsr_reg s d c = d / 2 ^ c.
Proof.
  intros [Hd0 Hd1] Hc. unfold lsr_reg. pose proof (bits_pos s).
  assert (0 < 2 ^ c) by (apply Z.pow_pos_nonneg; lia).
  destruct (Z.ltb_spec (bits s - 1) c).
  - symmetry. apply Z.div_small. split; [done|]. eapply Z.lt_le_trans; [done|].
    apply Z.pow_le_mono_r; lia.
  - rewrite Z.shiftr_div_pow2 by done. apply wrap_small. split; [apply Z.div_pos; lia|].
    eapply Z.le_lt_trans; [apply Z.div_le_upper_bound with (q := d); nia|done].
Qed.

Lemma lsr_reg_width s d c : in_width (bits s) (lsr_reg s d c).
Proof.
  unfold lsr_reg. destruct (bits s - 1 <? c); [|apply trunc_range].
  pose proof (pow_bits_pos s). split; [|rewrite pow_bits]; lia.
Qed.

Lemma carry_shift_r s d c r f :
  0 <= c -> truthy (carry (UPDATE_C_SHIFT_R s d c r f)) =
  (0 <? c) && (if bits s <? c then truthy r else Z.testbit d (c - 1)).
Proof.
  intros Hc. simpl. rewrite truthy_cbool. unfold truthy at 1.
  destruct (Z.eqb_spec c 0), (Z.ltb_spec 0 c); simpl; try lia; try done.
  destruct (bits s <? c); [done|]. unfold bit. rewrite Z.shiftl_1_l. apply truthy_land_pow2. lia.
Qed.

(** The sign fill of an operand shifted past its width. *)
Lemma asr_all_sign s d c :
  bits s <= c -> in_width (bits s) d -> truthy (asr_reg s d c) = Z.testbit d (bits s - 1).
Proof.
  intros Hc Hd. unfold asr_reg. rewrite Z.min_r by lia. unfold trunc, signed. pose proof (bits_pos s).
  assert (Z.shiftr (sx (bits s) d) (bits s - 1) = if Z.testbit d (bits s - 1) then -1 else 0) as ->.
  { apply Z.bits_inj'. intros i Hi. rewrite shiftr_testbit, sx_testbit, Z.min_r by lia.
    destruct (Z.testbit d (bits s - 1)); [by rewrite Z.bits_m1|by rewrite Z.bits_0]. }
  destruct (Z.testbit d (bits s - 1)); by destruct s.
Qed.

(** ASR and LSR of a data register by a count of 0..63: the result is
    the quotient of the signed (unsigned) operand by the power of two rounded
    down; C is the last bit shifted out, of the sign-extended operand for
    ASR, and clear for a zero count; X follows C unless the count is zero. *)
Theorem ASR_LSR_correct s d c f :
  in_width (bits s) d -> 0 <= c < 64 ->
  let ok r f' last :=
    truthy (carry f') = (0 <? c) && last /\
    truthy (extend f') = (if c =? 0 then truthy (extend f) else truthy (carry f')) /\
    truthy (negative f') = (signed s r <? 0) /\ truthy (zero f') = (r =? 0) /\ overflow f' = 0 in
  (let r := asr_reg s d c in
   r = (signed s d / 2 ^ c) mod 2 ^ bits s /\
   ok r (SHIFT_RIGHT s d c r f) (Z.testbit (signed s d) (c - 1))) /\
  (let r := lsr_reg s d c in
   r = d / 2 ^ c /\ ok r (SHIFT_RIGHT s d c r f) (Z.testbit d (c - 1))).
Proof.
  intros Hd Hc ok. pose proof (bits_pos s) as Hb.
  assert (forall r last, in_width (bits s) r ->
    (0 < c -> (if bits s <? c then truthy r else Z.testbit d (c - 1)) = last) ->
    ok r (SHIFT_RIGHT s d c r f) last) as Hok.
  { intros r last Hr Hl. pose proof (carry_shift_r s d c r f ltac:(lia)) as HC.
    pose proof (extend_shift c (UPDATE_C_SHIFT_R s d c r f)) as HX.
    pose proof (negative_N s r f Hr) as HN. unfold ok. simpl in *. rewrite (truthy_cbool (r =? 0)).
    split_and!; [|done..]. rewrite HC. destruct (Z.ltb_spec 0 c); [|done]. simpl. auto. }
  split; simpl; split.
  - apply asr_reg_value. lia.
  - apply Hok; [unfold asr_reg; apply trunc_range|]. intros.
    destruct (Z.ltb_spec (bits s) c).
    + rewrite asr_all_sign by (done || lia). unfold signed. rewrite sx_testbit by lia. f_equal. lia.
    + unfold signed. rewrite sx_testbit by lia. f_equal. lia.
  - apply lsr_reg_value; [done|lia].
  - apply Hok; [apply lsr_reg_width|]. intros.
    destruct (Z.ltb_spec (bits s) c); [|done].
    unfold lsr_reg. rewrite (proj2 (Z.ltb_lt (bits s - 1) c)) by lia.
    rewrite (width_bits (bits s) d) by (done || lia). done.
Qed.

Example ASR_LSR_correct_witness :
  in_width 8 0x81 /\ asr_reg B8 0x81 3 = (signed B8 0x81 / 2 ^ 3) mod 2 ^ 8.
Proof.
  split; [by vm_compute|].
  pose proof (ASR_LSR_correct B8 0x81 3 (mk_ccr 0 0 0 0 0) ltac:(by vm_compute) ltac:(by vm_compute))
    as [[H _] _]. exact H.
Defined.

(** ** Rotates *)

(** Rotation of an [m]-bit word to the left by [c], [0 <= c <= m]. *)
Definition rotl (m w c : Z) : Z := wrap m (Z.lor (Z.shiftl w c) (Z.shiftr w (m - c))).

(** The (n+1)-bit word that ROXL and ROXR rotate: X above the operand. *)
Definition with_x (s : size) (x : bool) (d : Z) : Z := Z.lor (Z.shiftl (cbool x) (bits s)) d.

Lemma cbool_testbit b i : Z.testbit (cbool b) i = b && (i =? 0).
Proof.
  destruct b; simpl; [|apply Z.bits_0]. destruct (Z.eqb_spec i 0) as [->|]; [done|].
  destruct i; [done|..|done]. by destruct p.
Qed.

Lemma with_x_testbit s x d i :
  in_width (bits s) d ->
  Z.testbit (with_x s x d) i = (x && (i =? bits s)) || ((i <? bits s) && Z.testbit d i).
Proof.
  intros Hd. unfold with_x. pose proof (bits_pos s).
  rewrite Z.lor_spec, shiftl_testbit, cbool_testbit. zbool; try lia.
  all: rewrite ?andb_true_r, ?andb_false_r; simpl; rewrite ?orb_false_r; try done.
  all: rewrite (width_bits (bits s) d) by (done || lia); by rewrite ?orb_false_r.
Qed.

Lemma land_bit_truthy d k : 0 <= k -> truthy (Z.land d (bit k)) = Z.testbit d k.
Proof. intros. unfold bit. rewrite Z.shiftl_1_l. by apply truthy_land_pow2. Qed.

Lemma if0_testbit (b : bool) x i : Z.testbit (if b then x else 0) i = b && Z.testbit x i.
Proof. destruct b; [done|apply Z.bits_0]. Qed.

(** Drops the bits of in-width values whose index is out of range. *)
Ltac drop_bits :=
  repeat match goal with
  | H : in_width ?n ?d |- context [Z.testbit ?d ?k] =>
      first [rewrite (Z.testbit_neg_r d k) by lia | rewrite (width_bits n d k H) by lia]
  end.

(** Settles a goal on the bits of rotated words: all index comparisons are
    decided, out-of-range bits dropped and equal indices identified. *)
Ltac rot_bits :=
  rewrite ?Z.lor_spec, ?if0_testbit;
  rewrite ?shiftl_testbit, ?shiftr_testbit by lia;
  rewrite ?(cbool_testbit true : forall i, Z.testbit 1 i = (i =? 0)), ?Z.bits_0;
  rewrite ?with_x_testbit by done;
  zprune; drop_bits;
  rewrite ?andb_true_r, ?andb_false_r, ?orb_false_r, ?orb_true_r; simpl;
  try done; try (f_equal; lia).

Lemma ROXL_value s d c f :
  in_width (bits s) d -> 0 <= c <= bits s ->
  let '(r, f') := ROXL s d c f in
  with_x s (truthy (extend f')) r = rotl (bits s + 1) (with_x s (truthy (extend f)) d) c.
Proof.
  intros Hd Hc. pose proof (bits_pos s). unfold ROXL. simpl.
  apply Z.bits_inj'. intros i Hi. unfold rotl.
  rewrite with_x_testbit, wrap_testbit by (apply trunc_range || lia). unfold trunc.
  rewrite wrap_testbit by lia.
  assert (truthy (if truthy c then Z.land d (bit (bits s - c)) else extend f) =
          if c =? 0 then truthy (extend f) else Z.testbit d (bits s - c)) as ->.
  { unfold truthy at 1 2. destruct (c =? 0); simpl; [done|]. apply land_bit_truthy. lia. }
  unfold bit. destruct (truthy (extend f)); simpl.
  all: rot_bits.
Qed.

Lemma ROXR_value s d c f :
  in_width (bits s) d -> 0 <= c <= bits s ->
  let '(r, f') := ROXR s d c f in
  with_x s (truthy (extend f')) r = rotl (bits s + 1) (with_x s (truthy (extend f)) d) (bits s + 1 - c).
Proof.
  intros Hd Hc. pose proof (bits_pos s). unfold ROXR. simpl.
  apply Z.bits_inj'. intros i Hi. unfold rotl.
  rewrite with_x_testbit, wrap_testbit by (apply trunc_range || lia). unfold trunc.
  rewrite wrap_testbit by lia.
  assert (truthy (if truthy c then Z.land d (bit (c - 1)) else extend f) =
          if c =? 0 then truthy (extend f) else Z.testbit d (c - 1)) as ->.
  { unfold truthy at 1 2. destruct (Z.eqb_spec c 0); simpl; [done|]. apply land_bit_truthy. lia. }
  unfold bit. destruct (truthy (extend f)); simpl.
  all: rot_bits.
Qed.

Lemma land_bits_mod s c : Z.land c (bits s - 1) = c mod bits s.
Proof.
  destruct s; simpl;
    [apply (land_ones_mod c 3)|apply (land_ones_mod c 4)|apply (land_ones_mod c 5)]; lia.
Qed.

Lemma trunc_mod_bits s c : trunc s (c mod bits s) = c mod bits s.
Proof.
  pose proof (Z.mod_pos_bound c (bits s) (bits_pos s)). apply wrap_small. split; [lia|].
  destruct s; simpl bits in *; pow2; lia.
Qed.

(** The complementary shift count [(bits - s) & (bits - 1)]. *)
Lemma complement_count s k :
  0 <= k < bits s -> Z.land (bits s - k) (bits s - 1) = if k =? 0 then 0 else bits s - k.
Proof.
  intros Hk. rewrite land_bits_mod. destruct (Z.eqb_spec k 0) as [->|].
  - rewrite Z.sub_0_r. apply Z.mod_same. lia.
  - apply Z.mod_small. lia.
Qed.

Lemma ROTATE_value s d k :
  in_width (bits s) d -> 0 <= k < bits s ->
  trunc s (Z.lor (Z.shiftl d k) (Z.shiftr d (if k =? 0 then 0 else bits s - k))) = rotl (bits s) d k /\
  trunc s (Z.lor (Z.shiftr d k) (Z.shiftl d (if k =? 0 then 0 else bits s - k))) =
    rotl (bits s) d (bits s - k).
Proof.
  intros Hd Hk. pose proof (bits_pos s). unfold trunc, rotl.
  split; apply Z.bits_inj'; intros i Hi; rewrite !wrap_testbit, !Z.lor_spec by lia;
    destruct (Z.eqb_spec k 0) as [->|]; rewrite ?shiftl_testbit, ?shiftr_testbit by lia;
    zprune; try done; drop_bits; rewrite ?Z.sub_0_r, ?Z.add_0_r, ?orb_diag, ?orb_false_r; try done.
  - rewrite Z.sub_diag, Z.add_0_r. done.
  - rewrite orb_comm. do 2 f_equal. lia.
Qed.

(** The rotates.  ROL and ROR rotate the operand by the count modulo the
    size, C is the bit that crossed last (clear for a zero count) and X is
    unchanged; ROXL and ROXR by [c] rotate the word one bit wider that has X
    on top of the operand, for every count their callers pass. *)
Theorem rotate_correct s d c f :
  in_width (bits s) d -> 0 <= c < 64 ->
  let k := c mod bits s in
  (let '(r, f') := ROTATE_LEFT s d c f in
   r = rotl (bits s) d k /\ extend f' = extend f /\
   truthy (carry f') = negb (c =? 0) && Z.testbit r 0) /\
  (let '(r, f') := ROTATE_RIGHT s d c f in
   r = rotl (bits s) d (bits s - k) /\ extend f' = extend f /\
   truthy (carry f') = negb (c =? 0) && Z.testbit r (bits s - 1)) /\
  (c <= bits s ->
   (let '(r, f') := ROXL s d c f in
    with_x s (truthy (extend f')) r = rotl (bits s + 1) (with_x s (truthy (extend f)) d) c /\
    carry f' = extend f') /\
   (let '(r, f') := ROXR s d c f in
    with_x s (truthy (extend f')) r =
      rotl (bits s + 1) (with_x s (truthy (extend f)) d) (bits s + 1 - c) /\
    carry f' = extend f')).
Proof.
  intros Hd Hc k. pose proof (Z.mod_pos_bound c (bits s) (bits_pos s)) as Hk.
  destruct (ROTATE_value s d k Hd Hk) as [HL HR]. unfold ROTATE_LEFT, ROTATE_RIGHT.
  rewrite land_bits_mod, trunc_mod_bits, complement_count by done. fold k. rewrite HL, HR. simpl.
  pose proof (bits_pos s). split_and!; try done.
  - unfold truthy at 2. destruct (c =? 0); simpl; [done|].
    apply truthy_land_1.
  - unfold truthy at 2. destruct (c =? 0); simpl; [done|].
    by rewrite truthy_land_1, shiftr_testbit by lia.
  - intros Hcs. pose proof (ROXL_value s d c f Hd ltac:(lia)). pose proof (ROXR_value s d c f Hd ltac:(lia)).
    unfold ROXL, ROXR in *. simpl in *. done.
Qed.

Example rotate_correct_witness :
  in_width 8 0x81 /\ (ROTATE_LEFT B8 0x81 9 (mk_ccr 0 0 0 0 0)).1 = rotl 8 0x81 1.
Proof.
  split; [by vm_compute|].
  pose proof (rotate_correct B8 0x81 9 (mk_ccr 0 0 0 0 0) ltac:(by vm_compute) ltac:(by vm_compute))
    as [[H _] _]. exact H.
Defined.

(** ** What division computes

    DIVU.W and DIVS.W against integer division. *)
(** ** Division *)

(** DIVU packs the quotient (low word) and remainder (high word) of the
    32-bit dividend by the 16-bit divisor; it reports overflow exactly when
    the quotient needs more than 16 bits, and a zero divisor traps. *)
Theorem DIV16U_correct dn divisor :
  in_width 32 dn -> in_width 16 divisor ->
  match DIV16U_value dn divisor with
  | DivByZero => divisor = 0
  | DivOverflow => 0 < divisor /\ 2 ^ 16 <= dn / divisor
  | DivOk r n z =>
      let q := r mod 2 ^ 16 in let rem := r / 2 ^ 16 in
      dn = q * divisor + rem /\ 0 <= rem < divisor /\
      truthy n = (2 ^ 15 <=? q) /\ truthy z = (q =? 0)
  | DivUndefined => False
  end.
Proof.
  intros [Hd1 Hd2] [Hv1 Hv2]. unfold DIV16U_value. pow2.
  destruct (Z.eqb_spec divisor 0); [done|].
  pose proof (Z.mod_pos_bound dn divisor ltac:(lia)). pose proof (Z.div_pos dn divisor ltac:(lia) ltac:(lia)).
  destruct (Z.ltb_spec 65535 (dn / divisor)); [lia|]. simpl.
  change 0xFFFF with (2 ^ 16 - 1). rewrite land_ones_mod by lia.
  rewrite lor_shiftl_add by (lia || apply (wrap_range 16); lia).
  rewrite (Z.mod_small (dn / divisor)) by lia. pow2.
  unfold u32. rewrite wrap_small by (split; lia). rewrite truthy_cbool.
  rewrite (Z.add_comm (_ * 65536)), Z.mod_add, Z.div_add, (Z.mod_small (dn / divisor)), (Z.div_small (dn / divisor))
    by lia.
  split_and!; [pose proof (Z.div_mod dn divisor); lia|lia|lia| |done].
  change 0x8000 with (2 ^ 15). rewrite truthy_land_pow2 by lia.
  rewrite (msb_spec 16) by (split; lia). done.
Qed.

Example DIV16U_correct_witness : in_width 32 100007 /\ in_width 16 10 /\
  match DIV16U_value 100007 10 with DivOk r _ _ => 100007 = r mod 2 ^ 16 * 10 + r / 2 ^ 16 | _ => False end.
Proof.
  split; [by vm_compute|]. split; [by vm_compute|].
  pose proof (DIV16U_correct 100007 10 ltac:(by vm_compute) ltac:(by vm_compute)) as H.
  destruct (DIV16U_value 100007 10) as [| | |r n z] eqn:E; try discriminate E. exact (proj1 H).
Defined.

(** DIVS packs the truncated signed quotient and the remainder, which has
    the sign of the dividend; it reports overflow exactly when the quotient
    is outside the signed 16-bit range; and the one pair of operands whose
    division is undefined in C is 0x80000000 by -1, whose quotient the
    source computes before it tests for that pair. *)
Theorem DIV16S_correct dn divisor :
  in_width 32 dn -> in_width 16 divisor ->
  let n := s32 dn in let dv := s16 divisor in
  match DIV16S_value dn divisor with
  | DivByZero => divisor = 0
  | DivUndefined => dn = 0x80000000 /\ divisor = 0xFFFF
  | DivOverflow => divisor <> 0 /\ ~ signed_in B16 (Z.quot n dv)
  | DivOk r _ z =>
      let q := s16 r in let rem := s16 (Z.shiftr r 16) in
      n = q * dv + rem /\ Z.abs rem < Z.abs dv /\ 0 <= rem * n /\ truthy z = (q =? 0)
  end.
Proof.
  intros Hd Hv n dv. unfold DIV16S_value. fold n dv.
  assert (in_width 32 dn -> n = if dn <? 2147483648 then dn else dn - 4294967296) as Hn.
  { intros. unfold n, s32, sx. by rewrite wrap_small. }
  assert (in_width 16 divisor -> dv = if divisor <? 32768 then divisor else divisor - 65536) as Hdv.
  { intros. unfold dv, s16, sx. by rewrite wrap_small. }
  specialize (Hn Hd). specialize (Hdv Hv). destruct Hd as [Hd1 Hd2], Hv as [Hv1 Hv2]. pow2.
  clearbody n dv.
  destruct (Z.eqb_spec divisor 0); [done|].
  destruct (Z.eqb_spec n (-2147483648)), (Z.eqb_spec dv (-1)); simpl; [zbool; lia| | |].
  all: destruct (_ || _) eqn:Ho.
  all: unfold signed_in; cbn [bits]; change (2 ^ (16 - 1)) with 32768.
  all: try (split; [done|apply orb_true_iff in Ho; rewrite !Z.ltb_lt in Ho; lia]).
  all: apply orb_false_iff in Ho as [Ho1%Z.ltb_ge Ho2%Z.ltb_ge].
  all: assert (dv <> 0) as Hz by (zbool; lia).
  all: pose proof (Z.quot_rem' n dv) as Hqr; pose proof (Z.rem_bound_abs n dv Hz) as Hrb;
    pose proof (Z.rem_sign_mul n dv Hz) as Hrs.
  all: assert (-32768 <= Z.rem n dv < 32768) as Hrr by (zbool; lia).
  all: change 0xFFFF with (2 ^ 16 - 1); rewrite land_ones_mod by lia.
  all: rewrite lor_shiftl_add by (lia || apply (wrap_range 16); lia).
  all: set (r := u32 _).
  all: assert (s16 r = Z.quot n dv) as -> by (unfold r, s16, sx, u32, wrap; pow2; zbool; dlia).
  all: assert (s16 (Z.shiftr r 16) = Z.rem n dv) as ->
    by (unfold r, s16, sx, u32, wrap; rewrite Z.shiftr_div_pow2 by lia; pow2; zbool; dlia).
  all: rewrite truthy_cbool; split_and!; [lia|lia|lia|done].
Qed.

Example DIV16S_correct_witness : in_width 32 0xFFFFFFF9 /\ in_width 16 2 /\
  match DIV16S_value 0xFFFFFFF9 2 with
  | DivOk r _ _ => -7 = s16 r * 2 + s16 (Z.shiftr r 16) | _ => False end.
Proof.
  split; [by vm_compute|]. split; [by vm_compute|].
  pose proof (DIV16S_correct 0xFFFFFFF9 2 ltac:(by vm_compute) ltac:(by vm_compute)) as H.
  destruct (DIV16S_value 0xFFFFFFF9 2) as [| | |r n z] eqn:E; try discriminate E. exact (proj1 H).
Defined.

(** ** The shift instructions, one bit at a time *)

(** The value, X, C and V. *)
Record shifting := mk_shifting { sh_value : Z; sh_x : bool; sh_c : bool; sh_v : bool }.
Definition shift_left_in (s : size) (v : Z) (b : bool) : Z := (2 * v + cbool b) mod 2 ^ bits s.
Definition shift_right_in (s : size) (v : Z) (b : bool) : Z := v / 2 + cbool b * 2 ^ (bits s - 1).
Definition shift_once (k : shiftop) (s : size) (h : shifting) : shifting :=
  let v := sh_value h in
  let top := Z.testbit v (bits s - 1) in
  let low := Z.testbit v 0 in
  match k with
  | ASL_ => mk_shifting (shift_left_in s v false) top top (sh_v h || xorb top (Z.testbit v (bits s - 2)))
  | LSL_ => mk_shifting (shift_left_in s v false) top top false
  | ASR_ => mk_shifting (shift_right_in s v top) low low false
  | LSR_ => mk_shifting (shift_right_in s v false) low low false
  | ROL_ => mk_shifting (shift_left_in s v top) (sh_x h) top false
  | ROR_ => mk_shifting (shift_right_in s v low) (sh_x h) low false
  | ROXL_ => mk_shifting (shift_left_in s v (sh_x h)) top top false
  | ROXR_ => mk_shifting (shift_right_in s v (sh_x h)) low low false
  end.
Definition shifted (k : shiftop) (s : size) (n : nat) (v : Z) (x : bool) : shifting :=
  Nat.iter n (shift_once k s) (mk_shifting v x (match k with ROXL_ | ROXR_ => x | _ => false end) false).

Lemma left_in_range s v b : in_width (bits s) (shift_left_in s v b).
Proof. apply wrap_range. pose proof (bits_pos s). lia. Qed.
Lemma right_in_range s v b : in_width (bits s) v -> in_width (bits s) (shift_right_in s v b).
Proof.
  intros [? Hv]. pose proof (cbool_bound b). unfold shift_right_in, in_width. rewrite pow_bits in *. pose proof (pow_bits_pos s).
  split; [dlia|]. assert (v / 2 < 2 ^ (bits s - 1)) by (apply Z.div_lt_upper_bound; lia). nia.
Qed.
Lemma left_in_bit s v b i : 0 <= i < bits s ->
  Z.testbit (shift_left_in s v b) i = if i =? 0 then b else Z.testbit v (i - 1).
Proof.
  intros Hi. unfold shift_left_in. rewrite Z.mod_pow2_bits_low by lia.
  replace (cbool b) with (Z.b2z b) by (by destruct b). destruct (Z.eqb_spec i 0) as [->|].
  - apply Z.testbit_0_r.
  - replace i with (Z.succ (i - 1)) at 1 by lia. apply Z.testbit_succ_r. lia.
Qed.
Lemma right_in_bit s v b i : in_width (bits s) v -> 0 <= i < bits s ->
  Z.testbit (shift_right_in s v b) i = if i =? bits s - 1 then b else Z.testbit v (i + 1).
Proof.
  intros [Hv0 Hv] Hi. rewrite pow_bits in Hv. unfold shift_right_in.
  assert (v / 2 < 2 ^ (bits s - 1)) by (apply Z.div_lt_upper_bound; lia).
  rewrite Z.add_comm, <- (lor_shiftl_add (bits s - 1)) by (lia || (split; dlia)).
  rewrite Z.lor_spec, shiftl_testbit, cbool_testbit, (proj2 (Z.leb_le 0 i)) by lia.
  change (v / 2) with (v / 2 ^ 1). rewrite <- (Z.shiftr_div_pow2 v 1), shiftr_testbit by lia.
  destruct (Z.eqb_spec i (bits s - 1)) as [->|].
  - rewrite Z.sub_diag. rewrite (width_bits (bits s) v) by (lia || (split; [lia|rewrite pow_bits; lia])). by destruct b.
  - zprune. by rewrite andb_false_r.
Qed.

(** Words of a size with the same bits. *)
Lemma bits_equal s x y : in_width (bits s) x -> in_width (bits s) y ->
  (forall i, 0 <= i < bits s -> Z.testbit x i = Z.testbit y i) -> x = y.
Proof.
  intros Hx Hy H. apply Z.bits_inj'. intros i Hi. destruct (Z.ltb_spec i (bits s)); [by apply H|].
  pose proof (bits_pos s). by rewrite !(width_bits (bits s)) by (done || lia).
Qed.

Section Shifted.
Context (s : size) (v : Z) (x : bool) (Hv : in_width (bits s) v).
Implicit Types n : nat.

Lemma shifted_S k n : shifted k s (S n) v x = shift_once k s (shifted k s n v x).
Proof. done. Qed.
Lemma shifted_range k n : in_width (bits s) (sh_value (shifted k s n v x)).
Proof.
  induction n as [|n IH]; [done|]. rewrite shifted_S. destruct k; first [apply left_in_range | by apply right_in_range].
Qed.

(** What has moved up from, and out of, the operand. *)
Lemma shifted_left k n : k = ASL_ \/ k = LSL_ ->
  (forall i, 0 <= i < bits s -> Z.testbit (sh_value (shifted k s n v x)) i = Z.testbit v (i - Z.of_nat n)) /\
  sh_c (shifted k s n v x) = (negb (Nat.eqb n 0) && Z.testbit v (bits s - Z.of_nat n)) /\
  sh_x (shifted k s n v x) = (if Nat.eqb n 0 then x else sh_c (shifted k s n v x)).
Proof.
  intros Hk. induction n as [|n (IHv & _)].
  - split; [intros i Hi; by rewrite Z.sub_0_r|]. by destruct Hk as [-> | ->].
  - pose proof (bits_pos s). rewrite shifted_S. set (h := shifted k s n v x) in *. split; [|split; [|by destruct Hk as [-> | ->]]].
    + intros i Hi. assert (sh_value (shift_once k s h) = shift_left_in s (sh_value h) false) as -> by (by destruct Hk as [-> | ->]).
      rewrite left_in_bit by done. destruct (Z.eqb_spec i 0) as [->|]; [by rewrite Z.testbit_neg_r by lia|].
      rewrite IHv by lia. f_equal. lia.
    + assert (sh_c (shift_once k s h) = Z.testbit (sh_value h) (bits s - 1)) as -> by (by destruct Hk as [-> | ->]).
      rewrite IHv by lia. cbn [Nat.eqb negb andb]. f_equal. lia.
Qed.
(** The same for a right shift of the operand, extended with [y]. *)
Lemma shifted_right k (y : Z) n : (forall i, 0 <= i < bits s -> Z.testbit y i = Z.testbit v i) ->
  (k = LSR_ /\ (forall i, bits s <= i -> Z.testbit y i = false)) \/
  (k = ASR_ /\ (forall i, bits s <= i -> Z.testbit y i = Z.testbit v (bits s - 1))) ->
  (forall i, 0 <= i < bits s -> Z.testbit (sh_value (shifted k s n v x)) i = Z.testbit y (i + Z.of_nat n)) /\
  sh_c (shifted k s n v x) = (negb (Nat.eqb n 0) && Z.testbit y (Z.of_nat n - 1)) /\
  sh_x (shifted k s n v x) = (if Nat.eqb n 0 then x else sh_c (shifted k s n v x)).
Proof.
  intros Hlow Hk. pose proof (bits_pos s). induction n as [|n (IHv & _)].
  - split; [intros i Hi; by rewrite Z.add_0_r, Hlow|]. by destruct Hk as [[-> _]|[-> _]].
  - pose proof (shifted_range k n) as Hr. rewrite shifted_S. set (h := shifted k s n v x) in *.
    split; [|split; [|by destruct Hk as [[-> _]|[-> _]]]].
    + intros i Hi. assert (sh_value (shift_once k s h) = shift_right_in s (sh_value h) (Z.testbit y (bits s + Z.of_nat n))) as ->.
      { destruct Hk as [[-> Hy]|[-> Hy]]; rewrite Hy by lia; [done|]. unfold shift_once. cbn [sh_value]. f_equal.
        rewrite IHv by lia. destruct n; [by rewrite Z.add_0_r, Hlow by lia|apply Hy; lia]. }
      rewrite right_in_bit by done. destruct (Z.eqb_spec i (bits s - 1)) as [->|]; [f_equal; lia|].
      rewrite IHv by lia. f_equal. lia.
    + assert (sh_c (shift_once k s h) = Z.testbit (sh_value h) 0) as -> by (by destruct Hk as [[-> _]|[-> _]]).
      rewrite IHv by lia. cbn [Nat.eqb negb andb]. f_equal. lia.
Qed.
(** Rotates. *)
Lemma shifted_ROL n :
  (forall i, 0 <= i < bits s -> Z.testbit (sh_value (shifted ROL_ s n v x)) i = Z.testbit v ((i - Z.of_nat n) mod bits s)) /\
  sh_c (shifted ROL_ s n v x) = (negb (Nat.eqb n 0) && Z.testbit (sh_value (shifted ROL_ s n v x)) 0) /\
  sh_x (shifted ROL_ s n v x) = x.
Proof.
  pose proof (bits_pos s). induction n as [|n (IHv & _ & IHx)].
  - split; [intros i Hi; by rewrite Z.sub_0_r, Z.mod_small|done].
  - rewrite shifted_S. set (h := shifted ROL_ s n v x) in *. cbn [shift_once sh_value sh_c sh_x]. split; [|split; [|done]].
    + intros i Hi. rewrite left_in_bit by done. destruct (Z.eqb_spec i 0) as [->|].
      * rewrite IHv by lia. f_equal. rewrite <- (Z.mod_add _ (-1) (bits s)) by lia. f_equal. lia.
      * rewrite IHv by lia. do 2 f_equal. lia.
    + rewrite left_in_bit by lia. done.
Qed.
Lemma shifted_ROR n :
  (forall i, 0 <= i < bits s -> Z.testbit (sh_value (shifted ROR_ s n v x)) i = Z.testbit v ((i + Z.of_nat n) mod bits s)) /\
  sh_c (shifted ROR_ s n v x) = (negb (Nat.eqb n 0) && Z.testbit (sh_value (shifted ROR_ s n v x)) (bits s - 1)) /\
  sh_x (shifted ROR_ s n v x) = x.
Proof.
  pose proof (bits_pos s). induction n as [|n (IHv & _ & IHx)].
  - split; [intros i Hi; by rewrite Z.add_0_r, Z.mod_small|done].
  - pose proof (shifted_range ROR_ n) as Hr. rewrite shifted_S. set (h := shifted ROR_ s n v x) in *. cbn [shift_once sh_value sh_c sh_x]. split; [|split; [|done]].
    + intros i Hi. rewrite right_in_bit by done. destruct (Z.eqb_spec i (bits s - 1)) as [->|].
      * rewrite IHv by lia. f_equal. rewrite <- (Z.mod_add _ 1 (bits s)) by lia. f_equal. lia.
      * rewrite IHv by lia. do 2 f_equal. lia.
    + rewrite right_in_bit by (done || lia). by rewrite Z.eqb_refl.
Qed.
(** Rotates through X: the word that has X on top rotates. *)
Definition whole (h : shifting) : Z := with_x s (sh_x h) (sh_value h).
Lemma shifted_ROXL n :
  (forall i, 0 <= i <= bits s -> Z.testbit (whole (shifted ROXL_ s n v x)) i = Z.testbit (with_x s x v) ((i - Z.of_nat n) mod (bits s + 1))) /\
  sh_c (shifted ROXL_ s n v x) = sh_x (shifted ROXL_ s n v x).
Proof.
  pose proof (bits_pos s). induction n as [|n (IHv & _)].
  - split; [intros i Hi; by rewrite Z.sub_0_r, Z.mod_small by lia|done].
  - pose proof (shifted_range ROXL_ n) as Hr. rewrite shifted_S. set (h := shifted ROXL_ s n v x) in *. split; [|done].
    intros i Hi. unfold whole in *. cbn [shift_once sh_value sh_x].
    rewrite with_x_testbit by apply left_in_range. destruct (Z.eqb_spec i (bits s)) as [->|].
    + rewrite andb_true_r, Z.ltb_irrefl, orb_false_r. specialize (IHv (bits s - 1) ltac:(lia)).
      rewrite with_x_testbit in IHv by done. revert IHv. zprune. rewrite andb_false_r. cbn [orb andb]. intros ->. do 2 f_equal. lia.
    + zprune. rewrite andb_false_r. cbn [orb andb]. rewrite left_in_bit by lia. destruct (Z.eqb_spec i 0) as [->|].
      * specialize (IHv (bits s) ltac:(lia)). rewrite with_x_testbit in IHv by done. revert IHv. zprune.
        rewrite andb_true_r, orb_false_r. intros ->. f_equal. rewrite <- (Z.mod_add _ (-1) (bits s + 1)) by lia. f_equal. lia.
      * specialize (IHv (i - 1) ltac:(lia)). rewrite with_x_testbit in IHv by done. revert IHv. zprune.
        rewrite andb_false_r. cbn [orb andb]. intros ->. do 2 f_equal. lia.
Qed.
Lemma shifted_ROXR n :
  (forall i, 0 <= i <= bits s -> Z.testbit (whole (shifted ROXR_ s n v x)) i = Z.testbit (with_x s x v) ((i + Z.of_nat n) mod (bits s + 1))) /\
  sh_c (shifted ROXR_ s n v x) = sh_x (shifted ROXR_ s n v x).
Proof.
  pose proof (bits_pos s). induction n as [|n (IHv & _)].
  - split; [intros i Hi; by rewrite Z.add_0_r, Z.mod_small by lia|done].
  - pose proof (shifted_range ROXR_ n) as Hr. rewrite shifted_S. set (h := shifted ROXR_ s n v x) in *. split; [|done].
    intros i Hi. unfold whole in *. cbn [shift_once sh_value sh_x].
    rewrite with_x_testbit by by apply right_in_range. destruct (Z.eqb_spec i (bits s)) as [->|].
    + rewrite andb_true_r, Z.ltb_irrefl, orb_false_r. specialize (IHv 0 ltac:(lia)).
      rewrite with_x_testbit in IHv by done. revert IHv. zprune. rewrite andb_false_r. cbn [orb andb]. intros ->.
      f_equal. rewrite <- (Z.mod_add _ 1 (bits s + 1)) by lia. f_equal. lia.
    + zprune. rewrite andb_false_r. cbn [orb andb]. rewrite right_in_bit by (done || lia). destruct (Z.eqb_spec i (bits s - 1)) as [->|].
      * specialize (IHv (bits s) ltac:(lia)). rewrite with_x_testbit in IHv by done. revert IHv. zprune.
        rewrite andb_true_r, orb_false_r. intros ->. do 2 f_equal. lia.
      * specialize (IHv (i + 1) ltac:(lia)). rewrite with_x_testbit in IHv by done. revert IHv. zprune.
        rewrite andb_false_r. cbn [orb andb]. intros ->. do 2 f_equal. lia.
Qed.
End Shifted.

(** V of ASL: the product leaves the signed range. *)
Lemma shifted_ASL_value s v x n : in_width (bits s) v ->
  sh_value (shifted ASL_ s n v x) = wrap (bits s) (signed s v * 2 ^ Z.of_nat n).
Proof.
  intros Hv. induction n as [|n IH].
  - rewrite Z.mul_1_r. unfold signed. rewrite wrap_sx by apply bits_pos. symmetry. by apply wrap_small.
  - change (sh_value (shifted ASL_ s (S n) v x)) with (shift_left_in s (sh_value (shifted ASL_ s n v x)) false).
    rewrite IH. unfold shift_left_in, wrap. cbn [cbool]. rewrite Z.add_0_r, Z.mul_mod_idemp_r by (apply Z.pow_nonzero; [lia|destruct s; simpl; lia]).
    f_equal. rewrite Nat2Z.inj_succ, Z.pow_succ_r by lia. lia.
Qed.
Lemma doubling_overflows s z : signed_in s z -> let u := wrap (bits s) z in
  xorb (Z.testbit u (bits s - 1)) (Z.testbit u (bits s - 2)) = true <-> ~ signed_in s (z * 2).
Proof.
  intros Hz u. assert (in_width (bits s) u) as Hu by (apply wrap_range; pose proof (bits_pos s); lia).
  rewrite msb_spec by (apply bits_pos || done). rewrite (Z.testbit_eqb u) by (destruct s; simpl; lia).
  set (Q := 2 ^ (bits s - 2)). assert (2 ^ (bits s - 1) = 2 * Q) as EP by (by destruct s).
  assert (2 ^ bits s = 4 * Q) as EW by (by destruct s). assert (0 < Q) as HQ by (by destruct s).
  unfold signed_in in *. rewrite EP in *.
  assert (u = z \/ u = z + 4 * Q) as Eu.
  { unfold u, wrap. rewrite EW. destruct (Z.ltb_spec z 0).
    - right. symmetry. apply (Z.mod_unique_pos _ _ (-1)); lia.
    - left. apply Z.mod_small. lia. }
  destruct Hu as [Hu0 Hu1]. rewrite EW in Hu1. clearbody Q u.
  assert ((u < Q /\ u / Q = 0) \/ (Q <= u < 2 * Q /\ u / Q = 1) \/ (2 * Q <= u < 3 * Q /\ u / Q = 2) \/ (3 * Q <= u /\ u / Q = 3))
    as [[H E]|[[H E]|[[H E]|[H E]]]].
  { destruct (Z.ltb_spec u Q); [left; split; [done|by apply Z.div_small]|].
    destruct (Z.ltb_spec u (2 * Q)); [right; left; split; [done|symmetry; apply (Z.div_unique_pos _ _ _ (u - Q)); lia]|].
    destruct (Z.ltb_spec u (3 * Q)); [right; right; left; split; [done|symmetry; apply (Z.div_unique_pos _ _ _ (u - 2 * Q)); lia]|].
    right; right; right. split; [done|]. symmetry. apply (Z.div_unique_pos _ _ _ (u - 3 * Q)); lia. }
  all: rewrite E; zprune; cbn; split; try done; intros; try lia; exfalso; lia.
Qed.
Lemma shifted_ASL_overflow s v x n : in_width (bits s) v ->
  sh_v (shifted ASL_ s n v x) = true <-> ~ signed_in s (signed s v * 2 ^ Z.of_nat n).
Proof.
  intros Hv. induction n as [|n IH].
  - cbn. rewrite Z.mul_1_r. split; [done|]. intros []. apply sx_range, bits_pos.
  - rewrite shifted_S. cbn [shift_once sh_v]. rewrite shifted_ASL_value by done.
    rewrite Nat2Z.inj_succ, Z.pow_succ_r by lia.
    replace (signed s v * (2 * 2 ^ Z.of_nat n)) with (signed s v * 2 ^ Z.of_nat n * 2) by lia.
    set (z := signed s v * 2 ^ Z.of_nat n) in *. rewrite orb_true_iff, IH. destruct (decide (signed_in s z)) as [Hz|Hz].
    + rewrite doubling_overflows by done. tauto.
    + split; [|tauto]. intros _ [? ?]. apply Hz. unfold signed_in. pose proof (pow_bits_pos s). lia.
Qed.
Lemma shifted_no_overflow k s v x n : k <> ASL_ -> sh_v (shifted k s n v x) = false.
Proof. intros Hk. destruct n; [done|]. rewrite shifted_S. by destruct k. Qed.

(** The code's flags show the state of the shift. *)
Record shows (s : size) (h : shifting) (f : ccr_t) : Prop := {
  so_x : truthy (extend f) = sh_x h;
  so_c : truthy (carry f) = sh_c h;
  so_v : truthy (overflow f) = sh_v h;
  so_n : truthy (negative f) = Z.testbit (sh_value h) (bits s - 1);
  so_z : truthy (zero f) = (sh_value h =? 0);
}.
Lemma sign_top s r : in_width (bits s) r -> (signed s r <? 0) = Z.testbit r (bits s - 1).
Proof.
  intros Hr. rewrite signed_msb by done. destruct Hr as [? Hr]. destruct (Z.testbit r (bits s - 1)); [apply Z.ltb_lt|apply Z.ltb_ge]; lia.
Qed.

Section Flags.
Context (s : size) (d : Z) (f : ccr_t) (Hd : in_width (bits s) d).
Let X := truthy (extend f).

Lemma left_value k c : k = ASL_ \/ k = LSL_ -> 0 <= c -> shl_reg s d c = sh_value (shifted k s (Z.to_nat c) d X).
Proof.
  intros Hk Hc. pose proof (bits_pos s). apply (bits_equal s); [rewrite shl_reg_value by done; apply wrap_range; lia|by apply shifted_range|].
  intros i Hi. destruct (shifted_left s d X k (Z.to_nat c) Hk) as [-> _]; [|done]. rewrite Z2Nat.id by done.
  rewrite shl_reg_value, Z.mod_pow2_bits_low by lia. rewrite <- Z.shiftl_mul_pow2, shiftl_testbit by done.
  by rewrite (proj2 (Z.leb_le 0 i)) by lia.
Qed.
Lemma left_flags k c f' : k = ASL_ \/ k = LSL_ -> 0 <= c -> let r := shl_reg s d c in
  truthy (carry f') = Z.testbit (d * 2 ^ c) (bits s) -> truthy (extend f') = (if c =? 0 then X else truthy (carry f')) ->
  truthy (negative f') = (signed s r <? 0) -> truthy (zero f') = (r =? 0) ->
  truthy (overflow f') = sh_v (shifted k s (Z.to_nat c) d X) ->
  shows s (shifted k s (Z.to_nat c) d X) f'.
Proof.
  intros Hk Hc r HC HX HN HZ HV. pose proof (bits_pos s). pose proof (left_value k c Hk Hc) as Er. fold r in Er.
  destruct (shifted_left s d X k (Z.to_nat c) Hk) as (_ & Ec & Ex). rewrite Z2Nat.id in Ec by done.
  assert (truthy (carry f') = sh_c (shifted k s (Z.to_nat c) d X)) as EC.
  { rewrite HC, Ec, <- Z.shiftl_mul_pow2, shiftl_testbit by done. rewrite (proj2 (Z.leb_le 0 (bits s))) by lia.
    destruct (Nat.eqb_spec (Z.to_nat c) 0); [|done]. cbn. apply (width_bits (bits s)); [done|lia]. }
  split; [|done|done|rewrite HN, <- Er; apply sign_top; rewrite Er; by apply shifted_range|by rewrite HZ, Er].
  rewrite HX, Ex, EC. destruct (Z.eqb_spec c 0), (Nat.eqb_spec (Z.to_nat c) 0); try done; lia.
Qed.
Lemma ASL_shows c : 0 <= c < 64 ->
  match ASHIFT_LEFT s d c (shl_reg s d c) f with
  | Some f' => shows s (shifted ASL_ s (Z.to_nat c) d X) f'
  | None => d = 0 /\ bits s <= c
  end.
Proof.
  intros Hc. destruct (ASL_LSL_correct s d c f Hd Hc) as (_ & _ & Ha). destruct (ASHIFT_LEFT _ _ _ _ _) as [f'|]; [|done].
  destruct Ha as ((? & ? & ? & ?) & HV). apply left_flags; try done; [by left|lia|].
  pose proof (shifted_ASL_overflow s d X (Z.to_nat c) Hd) as Ho. rewrite Z2Nat.id in Ho by lia.
  apply eq_true_iff_eq. by rewrite HV, Ho.
Qed.
Lemma LSL_shows c : 0 <= c < 64 -> shows s (shifted LSL_ s (Z.to_nat c) d X) (LSHIFT_LEFT s d c (shl_reg s d c) f).
Proof.
  intros Hc. destruct (ASL_LSL_correct s d c f Hd Hc) as (_ & ((? & ? & ? & ?) & HV) & _). apply left_flags; try done; [by right|lia|].
  by rewrite HV, shifted_no_overflow.
Qed.

(** The operand as a right shift sees it: filled with zeros or its sign. *)
Lemma right_shows k y r c : 0 <= c < 64 ->
  (forall i, 0 <= i < bits s -> Z.testbit y i = Z.testbit d i) ->
  (k = LSR_ /\ (forall i, bits s <= i -> Z.testbit y i = false)) \/
  (k = ASR_ /\ (forall i, bits s <= i -> Z.testbit y i = Z.testbit d (bits s - 1))) ->
  in_width (bits s) r -> (forall i, 0 <= i < bits s -> Z.testbit r i = Z.testbit y (i + c)) ->
  forall f', truthy (carry f') = (0 <? c) && Z.testbit y (c - 1) -> truthy (extend f') = (if c =? 0 then X else truthy (carry f')) ->
  truthy (negative f') = (signed s r <? 0) -> truthy (zero f') = (r =? 0) -> overflow f' = 0 ->
  r = sh_value (shifted k s (Z.to_nat c) d X) /\ shows s (shifted k s (Z.to_nat c) d X) f'.
Proof.
  intros Hc Hy Hk Hr Hbits f' HC HX HN HZ HV.
  destruct (shifted_right s d X Hd k y (Z.to_nat c) Hy Hk) as (Ev & Ec & Ex). rewrite Z2Nat.id in * by lia.
  assert (r = sh_value (shifted k s (Z.to_nat c) d X)) as Er.
  { apply (bits_equal s); [done|by apply shifted_range|]. intros i Hi. by rewrite Hbits, Ev. }
  split; [done|].
  assert (truthy (carry f') = sh_c (shifted k s (Z.to_nat c) d X)) as EC.
  { rewrite HC, Ec. f_equal. destruct (Z.ltb_spec 0 c), (Nat.eqb_spec (Z.to_nat c) 0); try done; lia. }
  split; [|done| |by rewrite HN, <- Er, sign_top|by rewrite HZ, Er].
  - rewrite HX, Ex, EC. destruct (Z.eqb_spec c 0), (Nat.eqb_spec (Z.to_nat c) 0); try done; lia.
  - rewrite HV, shifted_no_overflow; [done|]. by destruct Hk as [[-> _]|[-> _]].
Qed.
Lemma ASR_shows c : 0 <= c < 64 -> let h := shifted ASR_ s (Z.to_nat c) d X in
  asr_reg s d c = sh_value h /\ shows s h (SHIFT_RIGHT s d c (asr_reg s d c) f).
Proof.
  intros Hc h. pose proof (bits_pos s). destruct (ASR_LSR_correct s d c f Hd Hc) as [(Er & ? & ? & ? & ? & ?) _].
  apply (right_shows ASR_ (signed s d)); try done.
  - intros i Hi. unfold signed. rewrite sx_testbit by lia. f_equal. lia.
  - right. split; [done|]. intros i Hi. unfold signed. rewrite sx_testbit by lia. f_equal. lia.
  - rewrite Er. apply wrap_range. lia.
  - intros i Hi. rewrite Er, Z.mod_pow2_bits_low, <- Z.shiftr_div_pow2, shiftr_testbit by lia. done.
Qed.
Lemma LSR_shows c : 0 <= c < 64 -> let h := shifted LSR_ s (Z.to_nat c) d X in
  lsr_reg s d c = sh_value h /\ shows s h (SHIFT_RIGHT s d c (lsr_reg s d c) f).
Proof.
  intros Hc h. pose proof (bits_pos s). destruct (ASR_LSR_correct s d c f Hd Hc) as [_ (Er & ? & ? & ? & ? & ?)].
  apply (right_shows LSR_ d); try done.
  - left. split; [done|]. intros i Hi. by apply (width_bits (bits s)); [|lia].
  - apply lsr_reg_width.
  - intros i Hi. rewrite Er, <- Z.shiftr_div_pow2, shiftr_testbit by lia. done.
Qed.

(** Rotates. *)
Lemma rotl_testbit n w c i : in_width n w -> 0 <= c <= n -> 0 <= i < n -> Z.testbit (rotl n w c) i = Z.testbit w ((i - c) mod n).
Proof.
  intros Hw Hc Hi. unfold rotl. rewrite wrap_testbit, Z.lor_spec, shiftl_testbit, shiftr_testbit by lia.
  rewrite (proj2 (Z.ltb_lt i n)), (proj2 (Z.leb_le 0 i)) by lia. cbn [andb]. destruct (Z.ltb_spec i c).
  - rewrite Z.testbit_neg_r by lia. cbn [orb]. f_equal. apply (Z.mod_unique_pos _ _ (-1)); lia.
  - rewrite (width_bits n w (i + (n - c))) by (done || lia). rewrite orb_false_r. f_equal. symmetry. apply Z.mod_small. lia.
Qed.
Lemma rotl_range n w c : 0 < n -> in_width n (rotl n w c).
Proof. intros. apply wrap_range. lia. Qed.
Lemma rotate_shows h r f0 : in_width (bits s) r -> r = sh_value h -> sh_v h = false ->
  truthy (extend f0) = sh_x h -> truthy (carry f0) = sh_c h -> shows s h (UPDATE_NZ_CLEAR_V s r f0).
Proof.
  intros Hr -> HV HX HC. split; [done|done|by rewrite HV| |by cbn; rewrite truthy_cbool].
  pose proof (negative_N s _ f0 Hr) as HN. cbn in *. by rewrite HN, sign_top.
Qed.
Lemma ROL_shows c : 0 <= c < 64 -> let h := shifted ROL_ s (Z.to_nat c) d X in
  let '(r, f') := ROTATE_LEFT s d c f in r = sh_value h /\ shows s h f'.
Proof.
  intros Hc h. pose proof (bits_pos s). pose proof (Z.mod_pos_bound c (bits s) ltac:(lia)).
  destruct (shifted_ROL s d X (Z.to_nat c)) as (Ev & Ec & Ex). fold h in Ev, Ec, Ex. rewrite Z2Nat.id in * by lia.
  destruct (rotate_correct s d c f Hd Hc) as [HL _]. destruct (ROTATE_LEFT s d c f) as [r f'] eqn:E. destruct HL as (Er & HX & HC).
  assert (r = sh_value h) as Erv.
  { apply (bits_equal s); [rewrite Er; by apply rotl_range|by apply shifted_range|]. intros i Hi.
    rewrite Er, rotl_testbit, Ev by (done || lia). by rewrite Zminus_mod_idemp_r. }
  split; [done|]. unfold ROTATE_LEFT in E. injection E as E1 E2. rewrite E1 in E2. subst f'.
  apply rotate_shows; [rewrite Erv; by apply shifted_range|done|by apply shifted_no_overflow|by rewrite Ex|].
  cbn in HC |- *. rewrite HC, Ec, Erv. f_equal. destruct (Z.eqb_spec c 0), (Nat.eqb_spec (Z.to_nat c) 0); try done; lia.
Qed.
Lemma ROR_shows c : 0 <= c < 64 -> let h := shifted ROR_ s (Z.to_nat c) d X in
  let '(r, f') := ROTATE_RIGHT s d c f in r = sh_value h /\ shows s h f'.
Proof.
  intros Hc h. pose proof (bits_pos s). pose proof (Z.mod_pos_bound c (bits s) ltac:(lia)).
  destruct (shifted_ROR s d X Hd (Z.to_nat c)) as (Ev & Ec & Ex). fold h in Ev, Ec, Ex. rewrite Z2Nat.id in * by lia.
  destruct (rotate_correct s d c f Hd Hc) as (_ & HR & _). destruct (ROTATE_RIGHT s d c f) as [r f'] eqn:E. destruct HR as (Er & HX & HC).
  assert (r = sh_value h) as Erv.
  { apply (bits_equal s); [rewrite Er; by apply rotl_range|by apply shifted_range|]. intros i Hi.
    rewrite Er, rotl_testbit, Ev by (done || lia). f_equal.
    rewrite <- (Z.mod_add (i - (bits s - c mod bits s)) 1 (bits s)) by lia.
    replace (i - (bits s - c mod bits s) + 1 * bits s) with (i + c mod bits s) by lia. by rewrite Zplus_mod_idemp_r. }
  split; [done|]. unfold ROTATE_RIGHT in E. injection E as E1 E2. rewrite E1 in E2. subst f'.
  apply rotate_shows; [rewrite Erv; by apply shifted_range|done|by apply shifted_no_overflow|by rewrite Ex|].
  cbn in HC |- *. rewrite HC, Ec, Erv. f_equal. destruct (Z.eqb_spec c 0), (Nat.eqb_spec (Z.to_nat c) 0); try done; lia.
Qed.
Lemma with_x_range x v : in_width (bits s) v -> in_width (bits s + 1) (with_x s x v).
Proof.
  intros Hv. pose proof (bits_pos s). apply bits_width; [lia| |].
  - unfold with_x. apply Z.lor_nonneg. split; [apply Z.shiftl_nonneg; destruct x; simpl; lia|apply Hv].
  - intros i Hi. rewrite with_x_testbit by done. zprune. by rewrite andb_false_r.
Qed.
Lemma with_x_inj x v x' v' : in_width (bits s) v -> in_width (bits s) v' ->
  (forall i, 0 <= i <= bits s -> Z.testbit (with_x s x v) i = Z.testbit (with_x s x' v') i) -> x = x' /\ v = v'.
Proof.
  intros Hv Hv' H. pose proof (bits_pos s). split.
  - specialize (H (bits s) ltac:(lia)). rewrite !with_x_testbit in H by done. revert H. zprune. by rewrite !andb_true_r, !orb_false_r.
  - apply (bits_equal s); [done..|]. intros i Hi. specialize (H i ltac:(lia)). rewrite !with_x_testbit in H by done. revert H. zprune.
    by rewrite !andb_false_r.
Qed.
(** [c] is the count cut down to the operand's width and X. *)
Lemma ROXL_shows n c : 0 <= n -> 0 <= c <= bits s -> n mod (bits s + 1) = c mod (bits s + 1) ->
  let h := shifted ROXL_ s (Z.to_nat n) d X in
  let '(r, f') := ROXL s d c f in r = sh_value h /\ shows s h f'.
Proof.
  intros Hn Hc En h. pose proof (bits_pos s). destruct (shifted_ROXL s d X Hd (Z.to_nat n)) as (Ev & Ec). fold h in Ev, Ec. rewrite Z2Nat.id in * by lia.
  pose proof (ROXL_value s d c f Hd Hc) as HW. destruct (ROXL s d c f) as [r f'] eqn:E.
  assert (in_width (bits s) r) as Hr by (unfold ROXL in E; injection E as <- _; apply trunc_range).
  destruct (with_x_inj (truthy (extend f')) r (sh_x h) (sh_value h)) as [HX Hv]; [done|by apply shifted_range| |].
  { intros i Hi. rewrite HW, rotl_testbit by (by apply with_x_range || lia). unfold whole in Ev. rewrite Ev by lia. f_equal.
    by rewrite <- (Zminus_mod_idemp_r i c), <- En, Zminus_mod_idemp_r. }
  split; [done|]. unfold ROXL in E. injection E as E1 E2. rewrite E1 in E2. subst f'.
  split; [done|by rewrite Ec|by (unfold h; rewrite shifted_no_overflow)| |].
  - rewrite <- Hv. pose proof (negative_N s r f Hr) as HN. cbn in *. by rewrite HN, sign_top.
  - rewrite <- Hv. cbn. by rewrite truthy_cbool.
Qed.
Lemma ROXR_shows n c : 0 <= n -> 0 <= c <= bits s -> n mod (bits s + 1) = c mod (bits s + 1) ->
  let h := shifted ROXR_ s (Z.to_nat n) d X in
  let '(r, f') := ROXR s d c f in r = sh_value h /\ shows s h f'.
Proof.
  intros Hn Hc En h. pose proof (bits_pos s). destruct (shifted_ROXR s d X Hd (Z.to_nat n)) as (Ev & Ec). fold h in Ev, Ec. rewrite Z2Nat.id in * by lia.
  pose proof (ROXR_value s d c f Hd Hc) as HW. destruct (ROXR s d c f) as [r f'] eqn:E.
  assert (in_width (bits s) r) as Hr by (unfold ROXR in E; injection E as <- _; apply trunc_range).
  destruct (with_x_inj (truthy (extend f')) r (sh_x h) (sh_value h)) as [HX Hv]; [done|by apply shifted_range| |].
  { intros i Hi. rewrite HW, rotl_testbit by (by apply with_x_range || lia). unfold whole in Ev. rewrite Ev by lia. f_equal.
    rewrite <- (Z.mod_add (i - (bits s + 1 - c)) 1 (bits s + 1)) by lia. replace (i - (bits s + 1 - c) + 1 * (bits s + 1)) with (i + c) by lia.
    by rewrite <- (Zplus_mod_idemp_r c), <- En, Zplus_mod_idemp_r. }
  split; [done|]. unfold ROXR in E. injection E as E1 E2. rewrite E1 in E2. subst f'.
  split; [done|by rewrite Ec|by (unfold h; rewrite shifted_no_overflow)| |].
  - rewrite <- Hv. pose proof (negative_N s r f Hr) as HN. cbn in *. by rewrite HN, sign_top.
  - rewrite <- Hv. cbn. by rewrite truthy_cbool.
Qed.
End Flags.

(** The immediate forms give what the register forms give. *)
Lemma data_as_reg s d c : 1 <= c <= 8 ->
  asr_data s d c = asr_reg s d c /\ lsr_data s d c = lsr_reg s d c /\ shl_data s d c = shl_reg s d c.
Proof.
  intros Hc. unfold asr_data, asr_reg, lsr_data, lsr_reg, shl_data, shl_reg.
  destruct s; cbn [bits]; split_and!; try done; try (by rewrite Z.min_l by lia); zprune; done.
Qed.
Lemma merge_value s old v : in_width 32 old -> in_width (bits s) v -> merge s old v = old - old mod 2 ^ bits s + v.
Proof.
  intros Hold Hv. unfold merge. pose proof (bits_pos s).
  assert (trunc s v = v) as -> by by apply wrap_small.
  assert (Z.land old (0xFFFFFFFF - (2 ^ bits s - 1)) = Z.shiftl (old / 2 ^ bits s) (bits s)) as ->.
  { replace (0xFFFFFFFF - (2 ^ bits s - 1)) with (Z.shiftl (Z.ones (32 - bits s)) (bits s)) by (by destruct s).
    apply Z.bits_inj'. intros i Hi. rewrite Z.land_spec, !shiftl_testbit, <- Z.shiftr_div_pow2 by lia.
    rewrite (proj2 (Z.leb_le 0 i)) by lia. cbn [andb]. destruct (Z.ltb_spec i (bits s)).
    - rewrite (Z.testbit_neg_r (Z.ones _)), (Z.testbit_neg_r (Z.shiftr _ _)) by lia. apply andb_false_r.
    - rewrite shiftr_testbit by lia. replace (i - bits s + bits s) with i by lia. destruct (Z.ltb_spec i 32).
      + rewrite Z.ones_spec_low by lia. apply andb_true_r.
      + by rewrite (width_bits 32 old i) by (done || lia). }
  rewrite lor_shiftl_add by (done || lia). pose proof (Z.div_mod old (2 ^ bits s) ltac:(apply Z.pow_nonzero; lia)). lia.
Qed.

Section Instruction.
Context {B : Type} `{Bus B}.
Implicit Types m : machine B.

Definition shift_op (imm : bool) (k : shiftop) (s : size) : op := if imm then OP_SHIFT_DATA_DY k s else OP_SHIFT_DX_DY k s.
(** The count stands in the opcode, where 0 means 8, or in the low six bits of a register. *)
Definition shift_count (imm : bool) (opcode : Z) (c : cpu_t) : Z :=
  let x := opcode / 2 ^ 9 mod 8 in
  if imm then (if x =? 0 then 8 else x) else nth (Z.to_nat x) (d c) 0 mod 64.

Lemma count_in_code imm opcode c : shift_count imm opcode c = if imm then DATA opcode else Z.land (get_d (XREG opcode) c) 0x3F.
Proof.
  unfold shift_count, DATA, get_d, reg_nth, XREG. change 7 with (Z.ones 3). change 0x3F with (Z.ones 6).
  rewrite !Z.land_ones by lia. rewrite Z.shiftr_div_pow2 by lia. change (2 ^ 3) with 8. destruct imm; [|done].
  pose proof (Z.mod_pos_bound (opcode / 2 ^ 9) 8 ltac:(lia)). generalize dependent (opcode / 2 ^ 9 mod 8). intros x Hx.
  destruct (Z.eqb_spec x 0) as [->|]; [done|]. rewrite Z.mod_small by lia. lia.
Qed.

(** What a run of the macro leaves: the flags and the register. *)
Definition shift_done (y : nat) (s : size) (v : Z) (f : ccr_t) m : outcome unit * machine B :=
  let old := nth y (d (cpu m)) 0 in
  (Ret tt, mk_machine (set_cc f (set_d (<[y := old - old mod 2 ^ bits s + v]> (d (cpu m))) (cpu m))) (bus m) (exc_trace m)).

(** The macro's two halves, in either order. *)
Lemma store_then_flags s opcode m r (g : ccr_t -> ccr_t) (F : ccr_t -> Z * ccr_t) :
  length (d (cpu m)) = 8%nat -> Forall (in_width 32) (d (cpu m)) -> in_width (bits s) r ->
  (STORE_DN s (EA_REG opcode) r;; modcc g) m = shift_done (Z.to_nat (opcode mod 8)) s r (g (cc (cpu m))) m /\
  ((F (cc (cpu m))).1 = r ->
   (alu F ≫= STORE_DN s (EA_REG opcode)) m = shift_done (Z.to_nat (opcode mod 8)) s r (F (cc (cpu m))).2 m).
Proof.
  intros Hl Hw Hr. assert (EA_REG opcode = opcode mod 8) as -> by (unfold EA_REG; change 7 with (Z.ones 3); by rewrite Z.land_ones).
  set (y := Z.to_nat (opcode mod 8)).
  assert (in_width 32 (nth y (d (cpu m)) 0)) as Hold.
  { apply (proj1 (Forall_forall _ _) Hw), nth_In. rewrite Hl. pose proof (Z.mod_pos_bound opcode 8 ltac:(lia)). unfold y. lia. }
  assert (u32 (merge s (nth y (d (cpu m)) 0) r) = nth y (d (cpu m)) 0 - nth y (d (cpu m)) 0 mod 2 ^ bits s + r) as Em.
  { rewrite merge_value by done. apply u32_small. unfold in_width in *.
    assert (2 ^ bits s <= 2 ^ 32) by (by destruct s). pose proof (Z.div_mod (nth y (d (cpu m)) 0) (2 ^ bits s) ltac:(lia)).
    pose proof (Z.mod_pos_bound (nth y (d (cpu m)) 0) (2 ^ bits s) ltac:(lia)).
    destruct s; cbn [bits] in *; pow2; dlia. }
  unfold shift_done, STORE_DN, modcc, alu, getD, putD, get_d, put_d, getc, modc, gets, modify, reg_nth, mbind, M_bind, mret, M_ret.
  destruct m as [c b t]. cbn [cpu bus exc_trace set_cpu] in *. fold y. cbn. split.
  - by rewrite Em.
  - intros ->. destruct c. cbn in *. by rewrite Em.
Qed.

(** The macro on an operand and a count in range. *)
Definition shift_body (k : shiftop) (s : size) (opcode v n c1 : Z) : M (machine B) unit :=
  let store := STORE_DN s (EA_REG opcode) in
  match k with
  | ASR_ => store (asr_reg s v n);; modcc (SHIFT_RIGHT s v n (asr_reg s v n))
  | LSR_ => store (lsr_reg s v n);; modcc (SHIFT_RIGHT s v n (lsr_reg s v n))
  | ASL_ => store (shl_reg s v n);; lift_asl s v n (shl_reg s v n)
  | LSL_ => store (shl_reg s v n);; modcc (LSHIFT_LEFT s v n (shl_reg s v n))
  | ROR_ => alu (ROTATE_RIGHT s v n) ≫= store
  | ROL_ => alu (ROTATE_LEFT s v n) ≫= store
  | ROXR_ => alu (ROXR s v c1) ≫= store
  | ROXL_ => alu (ROXL s v c1) ≫= store
  end.
Lemma shift_count_range imm opcode c : 0 <= shift_count imm opcode c < 64 /\ (imm = true -> 1 <= shift_count imm opcode c <= 8).
Proof.
  unfold shift_count. pose proof (Z.mod_pos_bound (opcode / 2 ^ 9) 8 ltac:(lia)).
  pose proof (Z.mod_pos_bound (nth (Z.to_nat (opcode / 2 ^ 9 mod 8)) (d c) 0) 64 ltac:(lia)).
  destruct imm; [|done]. destruct (Z.eqb_spec (opcode / 2 ^ 9 mod 8) 0); lia.
Qed.
Lemma SHIFT_DY_body imm k s opcode n m : 0 <= n < 64 -> (imm = true -> 1 <= n <= 8) ->
  exists c1, 0 <= c1 <= bits s /\ n mod (bits s + 1) = c1 mod (bits s + 1) /\
  SHIFT_DY k s imm opcode n m =
    shift_body k s opcode (nth (Z.to_nat (opcode mod 8)) (d (cpu m)) 0 mod 2 ^ bits s) n c1 m.
Proof.
  intros Hn Himm. pose proof (bits_pos s). pose proof (Z.mod_pos_bound n (bits s + 1) ltac:(lia)).
  exists (if imm then n else n mod (bits s + 1)).
  assert (0 <= (if imm then n else n mod (bits s + 1)) <= bits s) as Hb.
  { destruct imm; [|lia]. specialize (Himm eq_refl). destruct s; simpl; lia. }
  split; [done|]. split; [destruct imm; [done|by rewrite Z.mod_mod by lia]|].
  assert (trunc s n = n) as En by (apply wrap_small; split; [lia|destruct s; simpl; pow2; lia]).
  assert (trunc s (if imm then n else n mod (bits s + 1)) = if imm then n else n mod (bits s + 1)) as Ec.
  { apply wrap_small. split; [lia|]. destruct s; cbn [bits] in *; pow2; lia. }
  unfold SHIFT_DY. rewrite En, Ec. unfold getD, getc, gets, get_d, reg_nth, EA_REG, mbind, M_bind.
  change 7 with (Z.ones 3). rewrite Z.land_ones by lia. cbv zeta. unfold shift_body, EA_REG. change 7 with (Z.ones 3).
  rewrite Z.land_ones by lia. destruct imm; [|done]. set (v := trunc s _).
  destruct (data_as_reg s v n (Himm eq_refl)) as (-> & -> & ->). done.
Qed.
Lemma store_then_asl s opcode m v n : length (d (cpu m)) = 8%nat -> Forall (in_width 32) (d (cpu m)) -> in_width (bits s) (shl_reg s v n) ->
  let r := shl_reg s v n in
  match ASHIFT_LEFT s v n r (cc (cpu m)) with
  | Some f' => (STORE_DN s (EA_REG opcode) r;; lift_asl s v n r) m = shift_done (Z.to_nat (opcode mod 8)) s r f' m
  | None => ((STORE_DN s (EA_REG opcode) r;; lift_asl s v n r) m).1 = Undefined
  end.
Proof.
  intros Hl Hw Hr r. assert ((STORE_DN s (EA_REG opcode) r;; lift_asl s v n r) m =
    match ASHIFT_LEFT s v n r (cc (cpu m)) with
    | Some f' => (STORE_DN s (EA_REG opcode) r;; modcc (fun _ => f')) m
    | None => (STORE_DN s (EA_REG opcode) r;; undefined) m
    end) as ->.
  { unfold lift_asl, modcc, STORE_DN, getD, putD, getc, modc, gets, modify, mbind, M_bind. destruct m as [[] b t]. cbn.
    by destruct (ASHIFT_LEFT _ _ _ _ _). }
  destruct (ASHIFT_LEFT _ _ _ _ _) as [f'|]; [|done]. by apply (store_then_flags s opcode m r (fun _ => f') (fun f => (0, f))).
Qed.

(** A rotate: the flags first, then the register. *)
Ltac rotated Hs F := cbv zeta in Hs; destruct F as [r f'] eqn:E; destruct Hs as [Er Hs]; exists f'; split; [|exact Hs].

(** C18: the register forms of the eight shift and rotate instructions, at the
    three sizes, with the count in the opcode or in a register (modulo 64, for
    any count of 0 to 63), are that many one-bit steps as the programmer's
    manual draws them: each step moves the operand by one bit, the bit that
    leaves goes to C (and, but for ROL and ROR, to X), the bit that enters is 0,
    the sign, the bit that left or X, and V of ASL remembers whether the sign
    ever changed.  Run from any machine with eight 32-bit data registers, the
    macro ends normally, leaves in the low bits of Dy the value after the last
    step and nothing else changed but the flags: X, C and V as the steps left
    them (C is clear for a count of 0, and X for ROXL and ROXR), N the sign and
    Z whether the value is 0.  The one exception is ASL of a zero operand by
    its width or more, where the C expression for V is undefined. *)
Theorem shift_instruction_correct imm k s opcode m :
  length (d (cpu m)) = 8%nat -> Forall (in_width 32) (d (cpu m)) ->
  let y := Z.to_nat (opcode mod 8) in
  let n := shift_count imm opcode (cpu m) in
  let v := nth y (d (cpu m)) 0 mod 2 ^ bits s in
  let h := shifted k s (Z.to_nat n) v (truthy (extend (cc (cpu m)))) in
  if match k with ASL_ => (v =? 0) && (bits s <=? n) | _ => false end
  then (exec_op (shift_op imm k s) opcode m).1 = Undefined
  else exists f, exec_op (shift_op imm k s) opcode m = shift_done y s (sh_value h) f m /\ shows s h f.
Proof.
  intros Hl Hw y n v h. destruct (shift_count_range imm opcode (cpu m)) as [Hn Himm]. fold n in Hn, Himm.
  destruct (SHIFT_DY_body imm k s opcode n m Hn Himm) as (c1 & Hc1 & Ec1 & Ebody).
  fold y in Ebody. fold v in Ebody.
  assert (exec_op (shift_op imm k s) opcode m = shift_body k s opcode v n c1 m) as ->.
  { rewrite <- Ebody. unfold n. rewrite count_in_code. by destruct imm. }
  assert (in_width (bits s) v) as Hv by (apply wrap_range; pose proof (bits_pos s); lia). clearbody n v. clear Ebody.
  assert (in_width (bits s) (sh_value h)) as Hh by by apply shifted_range.
  pose proof (fun g F => store_then_flags s opcode m (sh_value h) g F Hl Hw Hh) as Hrun. fold y in Hrun.
  set (f := cc (cpu m)) in *. destruct k; cbn [shift_body]; unfold h in *.
  - destruct (ASR_shows s v f Hv n Hn) as [-> Hs]. eexists. split; [|exact Hs]. by apply (Hrun _ (fun f => (0, f))).
  - destruct (LSR_shows s v f Hv n Hn) as [-> Hs]. eexists. split; [|exact Hs]. by apply (Hrun _ (fun f => (0, f))).
  - pose proof (ROXR_shows s v f Hv n c1 ltac:(lia) Hc1 Ec1) as Hs. rotated Hs (ROXR s v c1 f).
    rewrite (proj2 (Hrun id (ROXR s v c1))) by by rewrite E. by rewrite E.
  - pose proof (ROR_shows s v f Hv n Hn) as Hs. rotated Hs (ROTATE_RIGHT s v n f).
    rewrite (proj2 (Hrun id (ROTATE_RIGHT s v n))) by by rewrite E. by rewrite E.
  - pose proof (ASL_shows s v f Hv n Hn) as Hs. rewrite <- (left_value s v f Hv ASL_ n (or_introl eq_refl) (proj1 Hn)) in *.
    pose proof (store_then_asl s opcode m v n Hl Hw Hh) as Ha. cbv zeta in Ha. fold f y in Ha.
    destruct (ASHIFT_LEFT s v n (shl_reg s v n) f) as [f'|] eqn:E.
    + assert ((v =? 0) && (bits s <=? n) = false) as ->; [|by exists f']. apply not_true_iff_false. intros Hz.
      apply andb_true_iff in Hz as [H0 Hc]. apply Z.eqb_eq in H0. apply Z.leb_le in Hc. subst v.
      unfold ASHIFT_LEFT, asl_overflow in E. rewrite andb_false_r, (proj2 (Z.leb_gt n (bits s - 1))), andb_false_r in E by lia. done.
    + destruct Hs as [-> Hc]. rewrite (proj2 (Z.leb_le _ _) Hc). exact Ha.
  - pose proof (LSL_shows s v f Hv n Hn) as Hs. rewrite (left_value s v f Hv LSL_ n (or_intror eq_refl) (proj1 Hn)) in *.
    eexists. split; [|exact Hs]. by apply (Hrun _ (fun f => (0, f))).
  - pose proof (ROXL_shows s v f Hv n c1 ltac:(lia) Hc1 Ec1) as Hs. rotated Hs (ROXL s v c1 f).
    rewrite (proj2 (Hrun id (ROXL s v c1))) by by rewrite E. by rewrite E.
  - pose proof (ROL_shows s v f Hv n Hn) as Hs. rotated Hs (ROTATE_LEFT s v n f).
    rewrite (proj2 (Hrun id (ROTATE_LEFT s v n))) by by rewrite E. by rewrite E.
Qed.
End Instruction.

(** ROXR.B D1,D0 with 10 in D1 and X set: ten steps through nine bits. *)
Definition shift_machine : machine flat_t :=
  mk_machine (set_cc (mk_ccr 1 0 0 0 0) (put_d 1 10 (put_d 0 0x12345681 (cpu_init CPU_MODEL_68000)))) (mk_flat ∅ false 0 false 10) [].
Lemma shift_instruction_correct_witness :
  exists f, exec_op (OP_SHIFT_DX_DY ROXR_ B8) 0xE230 shift_machine = shift_done 0 B8 0xC0 f shift_machine /\
    (truthy (extend f), truthy (carry f), truthy (negative f), truthy (zero f)) = (true, true, true, false).
Proof.
  assert (length (d (cpu shift_machine)) = 8%nat) as Hl by reflexivity.
  assert (Forall (in_width 32) (d (cpu shift_machine))) as Hw.
  { change (d (cpu shift_machine)) with [0x12345681; 10; 0; 0; 0; 0; 0; 0].
    repeat (apply list.Forall_cons_2; [split; [lia|reflexivity]|]). apply list.Forall_nil_2. }
  pose proof (shift_instruction_correct false ROXR_ B8 0xE230 shift_machine Hl Hw) as Ht.
  cbv beta iota zeta in Ht. destruct Ht as (f & E & Hs).
  assert (shifted ROXR_ B8 (Z.to_nat (shift_count false 0xE230 (cpu shift_machine)))
    (nth (Z.to_nat (0xE230 mod 8)) (d (cpu shift_machine)) 0 mod 2 ^ bits B8) (truthy (extend (cc (cpu shift_machine)))) =
    mk_shifting 0xC0 true true false) as Eh by (vm_compute; reflexivity).
  rewrite Eh in E, Hs. destruct Hs as [HX HC HV HN HZ]. exists f.
  split; [exact E|]. rewrite HX, HC, HN, HZ. vm_compute. reflexivity.
Defined.
