(* ===== verification/CpuDecode.v ===== *)
(** * The 68000 instruction decoder

    cpu_decode.h as instantiated by cpu_68000.c: [decode] is the nested
    switch on the opcode word, one definition per top-level case, with the
    68000 resolution of every OP_ macro (the 68020+ instructions are
    OP_UNDEFINED, every line-F instruction OP_FTRAP). *)
From S2P Require Import Prelude Bus CpuState CpuAlu CpuMachine CpuExc CpuOps.

(** Fields that the switches inspect. *)
Definition bits_11_6 (opcode : Z) : Z := Z.land (Z.shiftr opcode 6) 0x3F.
Definition bits_8_6 (opcode : Z) : Z := Z.land (Z.shiftr opcode 6) 7.
Definition ea_field (opcode : Z) : Z := Z.land opcode 0x3F.

(** case 0x0: immediates, bit operations, MOVEP *)
Definition decode_0_bit (opcode : Z) : op :=
  let mode := Z.land opcode 0x38 in
  match bits_8_6 opcode with
  | 4 => if mode =? 0x08 then OP_MOVEP_W_D16AY_DX
         else if mode =? 0x00 then OP_BIT_L_DX_DY BTST else OP_BIT_B_DN_EA BTST
  | 5 => if mode =? 0x08 then OP_MOVEP_L_D16AY_DX
         else if mode =? 0x00 then OP_BIT_L_DX_DY BCHG else OP_BIT_B_DN_EA BCHG
  | 6 => if mode =? 0x08 then OP_MOVEP_W_DX_D16AY
         else if mode =? 0x00 then OP_BIT_L_DX_DY BCLR else OP_BIT_B_DN_EA BCLR
  | 7 => if mode =? 0x08 then OP_MOVEP_L_DX_D16AY
         else if Z.land (Z.shiftr opcode 3) 7 =? 0 then OP_BIT_L_DX_DY BSET else OP_BIT_B_DN_EA BSET
  | _ => OP_UNDEFINED
  end.

Definition decode_0_static (b : bitop) (opcode : Z) : op :=
  if Z.land opcode 0x38 =? 0x00 then OP_BIT_L_DATA_DN b else OP_BIT_B_DATA_EA b.

Definition decode_0 (opcode ext_word : Z) : op :=
  match bits_11_6 opcode with
  | 0x00 => if opcode =? 0x003C then OP_LOGI_DATA_CCR LOr else OP_LOGI_DATA_EA LOr B8
  | 0x01 => if ea_field opcode =? 0x3C then OP_LOGI_DATA_SR LOr else OP_LOGI_DATA_EA LOr B16
  | 0x02 => OP_LOGI_DATA_EA LOr B32
  | 0x03 => OP_UNDEFINED (* CHK2.B *)
  | 0x08 => if ea_field opcode =? 0x3C then OP_LOGI_DATA_CCR LAnd else OP_LOGI_DATA_EA LAnd B8
  | 0x09 => if ea_field opcode =? 0x3C then OP_LOGI_DATA_SR LAnd else OP_LOGI_DATA_EA LAnd B16
  | 0x0A => OP_LOGI_DATA_EA LAnd B32
  | 0x0B => OP_UNDEFINED (* CHK2.W *)
  | 0x10 => OP_SUBI_DATA_EA B8
  | 0x11 => OP_SUBI_DATA_EA B16
  | 0x12 => OP_SUBI_DATA_EA B32
  | 0x13 => OP_UNDEFINED (* CHK2.L *)
  | 0x18 => OP_ADDI_DATA_EA B8
  | 0x19 => OP_ADDI_DATA_EA B16
  | 0x1A => OP_ADDI_DATA_EA B32
  | 0x1B => if Z.land opcode 0x30 =? 0x00 then OP_UNDEFINED (* RTM *) else OP_UNDEFINED (* CALLM *)
  | 0x20 => decode_0_static BTST opcode
  | 0x21 => decode_0_static BCHG opcode
  | 0x22 => decode_0_static BCLR opcode
  | 0x23 => decode_0_static BSET opcode
  | 0x28 => if opcode =? 0x0A3C then OP_LOGI_DATA_CCR LXor else OP_LOGI_DATA_EA LXor B8
  | 0x29 => if opcode =? 0x0A7C then OP_LOGI_DATA_SR LXor else OP_LOGI_DATA_EA LXor B16
  | 0x2A => OP_LOGI_DATA_EA LXor B32
  | 0x2B => OP_UNDEFINED (* CAS.B *)
  | 0x30 => OP_CMPI_DATA_EA B8
  | 0x31 => OP_CMPI_DATA_EA B16
  | 0x32 => OP_CMPI_DATA_EA B32
  | 0x33 => if ea_field opcode =? 0x3C then OP_UNDEFINED (* CAS2.W *) else OP_UNDEFINED (* CAS.W *)
  | 0x38 | 0x39 | 0x3A => (* MOVES.B, MOVES.W, MOVES.L, by direction *)
      if truthy (Z.land ext_word 0x0800) then OP_UNDEFINED else OP_UNDEFINED
  | 0x3B => if ea_field opcode =? 0x3C then OP_UNDEFINED (* CAS2.L *) else OP_UNDEFINED (* CAS.L *)
  | _ => decode_0_bit opcode
  end.

(** cases 0x2 and 0x3 *)
Definition decode_move (s : size) (opcode : Z) : op :=
  if Z.land opcode 0x01C0 =? 0x0040 then OP_MOVEA_EA_AN s else OP_MOVE_EA_EA s.

(** case 0x4, the 0x4E40-0x4E7F block *)
Definition decode_4E (opcode : Z) : op :=
  if Z.land opcode 0xFFF0 =? 0x4E40 then OP_TRAP_VECTOR
  else match opcode with
  | 0x4E70 => OP_RESET
  | 0x4E71 => OP_NOP
  | 0x4E72 => OP_STOP_DATA
  | 0x4E73 => OP_RTE
  | 0x4E74 => OP_UNDEFINED (* RTD *)
  | 0x4E75 => OP_RTS
  | 0x4E76 => OP_TRAPV
  | 0x4E77 => OP_RTR
  | 0x4E7A => OP_UNDEFINED (* MOVEC Rc,Rn *)
  | 0x4E7B => OP_UNDEFINED (* MOVEC Rn,Rc *)
  | _ =>
      match Z.land opcode 0xFFF8 with
      | 0x4E50 => OP_LINK
      | 0x4E58 => OP_UNLK
      | 0x4E60 => OP_MOVE_AN_USP
      | 0x4E68 => OP_MOVE_USP_AN
      | _ => OP_UNDEFINED
      end
  end.

(** case 0x4: miscellaneous *)
Definition decode_4 (opcode : Z) : op :=
  let mode := Z.land opcode 0x38 in
  match bits_11_6 opcode with
  | 0x00 => OP_NEGX_EA B8
  | 0x01 => OP_NEGX_EA B16
  | 0x02 => OP_NEGX_EA B32
  | 0x03 => OP_MOVE_W_SR_EA
  | 0x08 => OP_CLR_EA B8
  | 0x09 => OP_CLR_EA B16
  | 0x0A => OP_CLR_EA B32
  | 0x0B => OP_UNDEFINED (* MOVE CCR,<ea> *)
  | 0x10 => OP_NEG_EA B8
  | 0x11 => OP_NEG_EA B16
  | 0x12 => OP_NEG_EA B32
  | 0x13 => OP_MOVE_B_EA_CCR
  | 0x18 => OP_NOT_EA B8
  | 0x19 => OP_NOT_EA B16
  | 0x1A => OP_NOT_EA B32
  | 0x1B => OP_MOVE_EA_SR
  | 0x20 => if Z.land opcode 0xFFF8 =? 0x4808 then OP_UNDEFINED (* LINK.L *) else OP_NBCD_B_EA
  | 0x21 => if mode =? 0x00 then OP_SWAP_DN
            else if mode =? 0x08 then OP_UNDEFINED (* BKPT *) else OP_PEA_EA
  | 0x22 => if Z.land opcode 0xFFF8 =? 0x4880 then OP_EXT_W_DN else OP_MOVEM_LIST_EA B16
  | 0x23 => if mode =? 0x00 then OP_EXT_L_DN else OP_MOVEM_LIST_EA B32
  | 0x28 => OP_TST_EA B8
  | 0x29 => OP_TST_EA B16
  | 0x2A => OP_TST_EA B32
  | 0x2B => if opcode =? 0x4AFC then OP_UNDEFINED (* ILLEGAL *) else OP_TAS_B_EA
  | 0x30 => OP_UNDEFINED (* MULS.L *)
  | 0x31 => OP_UNDEFINED (* DIVS.L *)
  | 0x32 => OP_MOVEM_EA_LIST B16
  | 0x33 => OP_MOVEM_EA_LIST B32
  | 0x39 => decode_4E opcode
  | 0x3A => OP_JSR_EA
  | 0x3B => OP_JMP_EA
  | 0x07 | 0x0F | 0x17 | 0x1F | 0x27 | 0x2F | 0x37 | 0x3F => OP_LEA_EA_AN
  | 0x06 | 0x0E | 0x16 | 0x1E | 0x26 | 0x2E | 0x36 | 0x3E => OP_CHK_W_EA_DN
  | 0x04 | 0x0C | 0x14 | 0x1C | 0x24 | 0x2C | 0x34 | 0x3C => OP_UNDEFINED (* CHK.L *)
  | _ => OP_UNDEFINED
  end.

(** case 0x5: ADDQ, SUBQ, Scc, DBcc *)
Definition decode_5 (opcode : Z) : op :=
  if Z.land opcode 0x00F8 =? 0x00C8 then OP_DBCC_DN_LABEL
  else if Z.land opcode 0x00C0 =? 0x00C0 then
    match Z.land opcode 0x003F with
    | 0x3C | 0x3A | 0x3B => OP_UNDEFINED (* TRAPcc *)
    | _ => OP_SCC_EA
    end
  else match Z.land opcode 0x01F8 with
  | 0x0148 | 0x0188 => OP_SUBQ_DATA_AN
  | 0x0048 | 0x0088 => OP_ADDQ_DATA_AN
  | _ =>
      match Z.land opcode 0x01C0 with
      | 0x0100 => OP_SUBQ_DATA_EA B8
      | 0x0140 => OP_SUBQ_DATA_EA B16
      | 0x0180 => OP_SUBQ_DATA_EA B32
      | 0x0000 => OP_ADDQ_DATA_EA B8
      | 0x0040 => OP_ADDQ_DATA_EA B16
      | 0x0080 => OP_ADDQ_DATA_EA B32
      | _ => OP_UNDEFINED
      end
  end.

(** case 0x6: Bcc, BRA, BSR *)
Definition decode_6 (opcode : Z) : op :=
  if Z.land (Z.shiftr opcode 8) 0xF =? 0x1 then
    match Z.land opcode 0x00FF with
    | 0xFF => OP_BSR_L_LABEL
    | 0x00 => OP_BSR_W_LABEL
    | _ => OP_BSR_B_LABEL
    end
  else
    match Z.land opcode 0x00FF with
    | 0xFF => OP_BCC_L_DISPLACEMENT
    | 0x00 => OP_BCC_W_DISPLACEMENT
    | _ => OP_BCC_B_DISPLACEMENT
    end.

(** case 0x7 *)
Definition decode_7 (opcode : Z) : op :=
  if Z.land opcode 0x0100 =? 0x0000 then OP_MOVEQ_L_DATA_DN else OP_UNDEFINED.

(** case 0x8: OR, DIV, SBCD *)
Definition decode_8 (opcode : Z) : op :=
  let mid5 := Z.land (Z.shiftr opcode 4) 0x1F in
  if mid5 =? 0x18 then if truthy (Z.land opcode 0x0008) then OP_UNDEFINED else OP_UNDEFINED (* UNPK *)
  else if mid5 =? 0x14 then if truthy (Z.land opcode 0x0008) then OP_UNDEFINED else OP_UNDEFINED (* PACK *)
  else match Z.land opcode 0x01F8 with
  | 0x0100 => OP_SBCD_DX_DY
  | 0x0108 => OP_SBCD_AX_AY
  | _ =>
      match Z.land opcode 0x01C0 with
      | 0x0000 => OP_LOG_EA_DN LOr B8
      | 0x0040 => OP_LOG_EA_DN LOr B16
      | 0x0080 => OP_LOG_EA_DN LOr B32
      | 0x00C0 => OP_DIVU_W_EA_DN
      | 0x0100 => OP_LOG_DN_EA LOr B8
      | 0x0140 => OP_LOG_DN_EA LOr B16
      | 0x0180 => OP_LOG_DN_EA LOr B32
      | 0x01C0 => OP_DIVS_W_EA_DN
      | _ => OP_UNDEFINED
      end
  end.

(** case 0x9: SUB, SUBA, SUBX *)
Definition decode_9 (opcode : Z) : op :=
  match Z.land opcode 0x01C0 with
  | 0x00C0 => OP_SUBA_EA_AN B16
  | 0x01C0 => OP_SUBA_EA_AN B32
  | _ =>
      match Z.land opcode 0x01F8 with
      | 0x0100 => OP_SUBX_DX_DY B8
      | 0x0140 => OP_SUBX_DX_DY B16
      | 0x0180 => OP_SUBX_DX_DY B32
      | 0x0108 => OP_SUBX_AX_AY B8
      | 0x0148 => OP_SUBX_AX_AY B16
      | 0x0188 => OP_SUBX_AX_AY B32
      | _ =>
          match Z.land opcode 0x01C0 with
          | 0x0000 => OP_SUB_EA_DN B8
          | 0x0040 => OP_SUB_EA_DN B16
          | 0x0080 => OP_SUB_EA_DN B32
          | 0x0100 => OP_SUB_DN_EA B8
          | 0x0140 => OP_SUB_DN_EA B16
          | 0x0180 => OP_SUB_DN_EA B32
          | _ => OP_UNDEFINED
          end
      end
  end.

(** case 0xB: CMP, CMPA, CMPM, EOR *)
Definition decode_B (opcode : Z) : op :=
  match Z.land opcode 0x01F8 with
  | 0x0108 => OP_CMPM_AY_AX B8
  | 0x0148 => OP_CMPM_AY_AX B16
  | 0x0188 => OP_CMPM_AY_AX B32
  | _ =>
      match Z.land opcode 0x01C0 with
      | 0x00C0 => OP_CMPA_EA_AN B16
      | 0x01C0 => OP_CMPA_EA_AN B32
      | 0x0100 => OP_LOG_DN_EA LXor B8
      | 0x0140 => OP_LOG_DN_EA LXor B16
      | 0x0180 => OP_LOG_DN_EA LXor B32
      | 0x0000 => OP_CMP_EA_DN B8
      | 0x0040 => OP_CMP_EA_DN B16
      | 0x0080 => OP_CMP_EA_DN B32
      | _ => OP_UNDEFINED
      end
  end.

(** case 0xC: AND, MUL, ABCD, EXG.  [None] where no case matches. *)
Definition decode_C (opcode : Z) : option op :=
  let f := Z.land opcode 0x01F8 in
  match bits_8_6 opcode with
  | 0 => Some (OP_LOG_EA_DN LAnd B8)
  | 1 => Some (OP_LOG_EA_DN LAnd B16)
  | 2 => Some (OP_LOG_EA_DN LAnd B32)
  | 3 => Some OP_MULU_W_EA_DN
  | 4 => Some (if f =? 0x0100 then OP_ABCD_DY_DX
               else if f =? 0x0108 then OP_ABCD_AY_AX else OP_LOG_DN_EA LAnd B8)
  | 5 => Some (if f =? 0x0140 then OP_EXG_DX_DY
               else if f =? 0x0148 then OP_EXG_AX_AY else OP_LOG_DN_EA LAnd B16)
  | 6 => Some (if f =? 0x0188 then OP_EXG_DX_AY else OP_LOG_DN_EA LAnd B32)
  | 7 => Some OP_MULS_W_EA_DN
  | _ => None
  end.

(** case 0xD: ADD, ADDA, ADDX *)
Definition decode_D (opcode : Z) : option op :=
  let f := Z.land (Z.shiftr opcode 3) 0x3F in
  match bits_8_6 opcode with
  | 0 => Some (OP_ADD_EA_DN B8)
  | 1 => Some (OP_ADD_EA_DN B16)
  | 2 => Some (OP_ADD_EA_DN B32)
  | 3 => Some (OP_ADDA_EA_AN B16)
  | 4 => Some (if f =? 0x20 then OP_ADDX_DY_DX B8
               else if f =? 0x21 then OP_ADDX_AY_AX B8 else OP_ADD_DN_EA B8)
  | 5 => Some (if f =? 0x28 then OP_ADDX_DY_DX B16
               else if f =? 0x29 then OP_ADDX_AY_AX B16 else OP_ADD_DN_EA B16)
  | 6 => Some (if f =? 0x30 then OP_ADDX_DY_DX B32
               else if f =? 0x31 then OP_ADDX_AY_AX B32 else OP_ADD_DN_EA B32)
  | 7 => Some (OP_ADDA_EA_AN B32)
  | _ => None
  end.

(** case 0xE: shifts and rotates *)
Definition decode_E_mem (asx lsx rox ro : shiftop) (opcode : Z) : op :=
  match Z.land opcode 0x0E00 with
  | 0x0000 => OP_SHIFT_W_EA asx
  | 0x0200 => OP_SHIFT_W_EA lsx
  | 0x0400 => OP_SHIFT_W_EA rox
  | 0x0600 => OP_SHIFT_W_EA ro
  | _ => OP_UNDEFINED
  end.

Definition decode_E (opcode : Z) : option op :=
  match Z.land opcode 0x0FC0 with
  | 0x08C0 | 0x09C0 | 0x0AC0 | 0x0BC0 | 0x0CC0 | 0x0DC0 | 0x0EC0 | 0x0FC0 =>
      (* the bit-field instructions *) Some OP_UNDEFINED
  | _ =>
      match Z.land (Z.shiftr opcode 3) 0x3F with
      | 0x00 => Some (OP_SHIFT_DATA_DY ASR_ B8)
      | 0x01 => Some (OP_SHIFT_DATA_DY LSR_ B8)
      | 0x02 => Some (OP_SHIFT_DATA_DY ROXR_ B8)
      | 0x03 => Some (OP_SHIFT_DATA_DY ROR_ B8)
      | 0x04 => Some (OP_SHIFT_DX_DY ASR_ B8)
      | 0x05 => Some (OP_SHIFT_DX_DY LSR_ B8)
      | 0x06 => Some (OP_SHIFT_DX_DY ROXR_ B8)
      | 0x07 => Some (OP_SHIFT_DX_DY ROR_ B8)
      | 0x08 => Some (OP_SHIFT_DATA_DY ASR_ B16)
      | 0x09 => Some (OP_SHIFT_DATA_DY LSR_ B16)
      | 0x0A => Some (OP_SHIFT_DATA_DY ROXR_ B16)
      | 0x0B => Some (OP_SHIFT_DATA_DY ROR_ B16)
      | 0x0C => Some (OP_SHIFT_DX_DY ASR_ B16)
      | 0x0D => Some (OP_SHIFT_DX_DY LSR_ B16)
      | 0x0E => Some (OP_SHIFT_DX_DY ROXR_ B16)
      | 0x0F => Some (OP_SHIFT_DX_DY ROR_ B16)
      | 0x10 => Some (OP_SHIFT_DATA_DY ASR_ B32)
      | 0x11 => Some (OP_SHIFT_DATA_DY LSR_ B32)
      | 0x12 => Some (OP_SHIFT_DATA_DY ROXR_ B32)
      | 0x13 => Some (OP_SHIFT_DATA_DY ROR_ B32)
      | 0x14 => Some (OP_SHIFT_DX_DY ASR_ B32)
      | 0x15 => Some (OP_SHIFT_DX_DY LSR_ B32)
      | 0x16 => Some (OP_SHIFT_DX_DY ROXR_ B32)
      | 0x17 => Some (OP_SHIFT_DX_DY ROR_ B32)
      | 0x18 | 0x19 | 0x1A | 0x1B | 0x1C | 0x1D | 0x1E | 0x1F =>
          Some (decode_E_mem ASR_ LSR_ ROXR_ ROR_ opcode)
      | 0x20 => Some (OP_SHIFT_DATA_DY ASL_ B8)
      | 0x21 => Some (OP_SHIFT_DATA_DY LSL_ B8)
      | 0x22 => Some (OP_SHIFT_DATA_DY ROXL_ B8)
      | 0x23 => Some (OP_SHIFT_DATA_DY ROL_ B8)
      | 0x24 => Some (OP_SHIFT_DX_DY ASL_ B8)
      | 0x25 => Some (OP_SHIFT_DX_DY LSL_ B8)
      | 0x26 => Some (OP_SHIFT_DX_DY ROXL_ B8)
      | 0x27 => Some (OP_SHIFT_DX_DY ROL_ B8)
      | 0x28 => Some (OP_SHIFT_DATA_DY ASL_ B16)
      | 0x29 => Some (OP_SHIFT_DATA_DY LSL_ B16)
      | 0x2A => Some (OP_SHIFT_DATA_DY ROXL_ B16)
      | 0x2B => Some (OP_SHIFT_DATA_DY ROL_ B16)
      | 0x2C => Some (OP_SHIFT_DX_DY ASL_ B16)
      | 0x2D => Some (OP_SHIFT_DX_DY LSL_ B16)
      | 0x2E => Some (OP_SHIFT_DX_DY ROXL_ B16)
      | 0x2F => Some (OP_SHIFT_DX_DY ROL_ B16)
      | 0x30 => Some (OP_SHIFT_DATA_DY ASL_ B32)
      | 0x31 => Some (OP_SHIFT_DATA_DY LSL_ B32)
      | 0x32 => Some (OP_SHIFT_DATA_DY ROXL_ B32)
      | 0x33 => Some (OP_SHIFT_DATA_DY ROL_ B32)
      | 0x34 => Some (OP_SHIFT_DX_DY ASL_ B32)
      | 0x35 => Some (OP_SHIFT_DX_DY LSL_ B32)
      | 0x36 => Some (OP_SHIFT_DX_DY ROXL_ B32)
      | 0x37 => Some (OP_SHIFT_DX_DY ROL_ B32)
      | 0x38 | 0x39 | 0x3A | 0x3B | 0x3C | 0x3D | 0x3E | 0x3F =>
          Some (decode_E_mem ASL_ LSL_ ROXL_ ROL_ opcode)
      | _ => None
      end
  end.

(** case 0xF: every branch of the coprocessor switch is EXC_FTRAP() on the 68000. *)
Definition decode_F (_ : Z) : op := OP_FTRAP.

(** switch (opcode >> 12); [None] when a switch without a default falls
    through (the loop then goes on to the next instruction). *)
Definition decode (opcode ext_word : Z) : option op :=
  match Z.shiftr opcode 12 with
  | 0x0 => Some (decode_0 opcode ext_word)
  | 0x1 => Some (OP_MOVE_EA_EA B8)
  | 0x2 => Some (decode_move B32 opcode)
  | 0x3 => Some (decode_move B16 opcode)
  | 0x4 => Some (decode_4 opcode)
  | 0x5 => Some (decode_5 opcode)
  | 0x6 => Some (decode_6 opcode)
  | 0x7 => Some (decode_7 opcode)
  | 0x8 => Some (decode_8 opcode)
  | 0x9 => Some (decode_9 opcode)
  | 0xA => Some OP_ATRAP
  | 0xB => Some (decode_B opcode)
  | 0xC => decode_C opcode
  | 0xD => decode_D opcode
  | 0xE => decode_E opcode
  | 0xF => Some (decode_F opcode)
  | _ => None
  end.

(** The selected macro body; nothing when no case matches. *)
Definition exec {B} `{Bus B} (opcode ext_word : Z) : M (machine B) unit :=
  match decode opcode ext_word with
  | Some o => exec_op o opcode
  | None => mret tt
  end.
