(* ===== verification/CpuStays.v ===== *)
(** * Relations kept by every instruction

    If a preorder on machine states holds across the primitive steps of the
    interpreter then it holds across every instruction.  [System] does this
    for the exception and status-register code, whose steps may change any CPU
    field; [Instructions] for the instruction bodies, with the privileged ones
    behind their supervisor check.  Both are used with several relations
    (sprint accounting, user-mode containment). *)
From S2P Require Import Prelude Bus CpuState CpuAlu CpuMachine CpuExc CpuOps CpuDecode.

Create HintDb stays.
#[export] Hint Extern 0 (PreOrder _) => apply _ : stays.

(** Follows the structure of a computation down to the steps known to [stays]. *)
Ltac stays_tac :=
  repeat first
    [ progress intros
    | solve [eauto with stays]
    | match goal with
      | |- stays _ (mret _) => apply stays_ret; try apply _
      | |- stays _ (gets _) => apply stays_gets; try apply _
      | |- stays _ (getc _) => apply stays_gets; try apply _
      | |- stays _ (getb _) => apply stays_gets; try apply _
      | |- stays _ (getD _) => apply stays_gets; try apply _
      | |- stays _ (getA _) => apply stays_gets; try apply _
      | |- stays _ pending => apply stays_gets; try apply _
      | |- stays _ continue => apply stays_continue; try apply _
      | |- stays _ undefined => apply stays_undefined; try apply _
      | |- stays _ (mbind _ _) => apply stays_bind; [try apply _| |]
      | |- stays _ (when _ _) => apply stays_when; [try apply _|]
      | |- stays _ (let _ := _ in _) => cbv zeta
      | |- stays _ (match ?x with _ => _ end) => destruct x
      end ].

(** ** Well-formed CPU states

    The register files have eight entries and every register holds a value of
    its C type. *)
Record cpu_wf (c : cpu_t) : Prop := {
  wf_d : length (d c) = 8%nat /\ Forall (in_width 32) (d c);
  wf_a : length (a c) = 8%nat /\ Forall (in_width 32) (a c);
  wf_words : Forall (in_width 32)
    [pc c; ssp c; usp c; trace c; supervisor c; interrupt_mask c; ipl c; halted c; stopped c;
     last_bus_error_pc c; vbr c; msp c; m c; instruction_pc c; ir_pc c];
  wf_ir : in_width 16 (ir c);
}.
Definition wf_mod (f : cpu_t -> cpu_t) : Prop := forall c, cpu_wf c -> cpu_wf (f c).

Create HintDb wf.
Lemma regs_insert (l : list Z) i v :
  length l = 8%nat /\ Forall (in_width 32) l ->
  length (<[i := u32 v]> l) = 8%nat /\ Forall (in_width 32) (<[i := u32 v]> l).
Proof.
  intros [Hl Hf]. split; [by rewrite length_insert|].
  apply Forall_insert; [done|apply u32_range].
Qed.

Section Setters.
Context (v : Z) (c : cpu_t) (Hc : cpu_wf c).
Ltac setter := destruct Hc as [? ? Hw ?]; split; simpl; auto; try apply u16_range;
  rewrite ?list.Forall_cons in *; destruct_and! Hw; split_and!; (done || apply u32_range || constructor).
Lemma wf_put_d n : cpu_wf (put_d n v c).
Proof. destruct Hc. split; simpl; auto. by apply regs_insert. Qed.
Lemma wf_put_a n : cpu_wf (put_a n v c).
Proof. destruct Hc. split; simpl; auto. by apply regs_insert. Qed.
Lemma wf_set_pc : cpu_wf (set_pc v c).
Proof. setter. Qed.
Lemma wf_set_ssp : cpu_wf (set_ssp v c).
Proof. setter. Qed.
Lemma wf_set_usp : cpu_wf (set_usp v c).
Proof. setter. Qed.
Lemma wf_set_msp : cpu_wf (set_msp v c).
Proof. setter. Qed.
Lemma wf_set_trace : cpu_wf (set_trace v c).
Proof. setter. Qed.
Lemma wf_set_supervisor : cpu_wf (set_supervisor v c).
Proof. setter. Qed.
Lemma wf_set_interrupt_mask : cpu_wf (set_interrupt_mask v c).
Proof. setter. Qed.
Lemma wf_set_halted : cpu_wf (set_halted v c).
Proof. setter. Qed.
Lemma wf_set_stopped : cpu_wf (set_stopped v c).
Proof. setter. Qed.
Lemma wf_set_last_bus_error_pc : cpu_wf (set_last_bus_error_pc v c).
Proof. setter. Qed.
Lemma wf_set_m : cpu_wf (set_m v c).
Proof. setter. Qed.
Lemma wf_set_instruction_pc : cpu_wf (set_instruction_pc v c).
Proof. setter. Qed.
Lemma wf_set_ir : cpu_wf (set_ir v c).
Proof. setter. Qed.
Lemma wf_set_ir_pc : cpu_wf (set_ir_pc v c).
Proof. setter. Qed.
Lemma wf_set_cc f : cpu_wf (set_cc f c).
Proof. by destruct Hc. Qed.
End Setters.
#[export] Hint Resolve wf_put_d wf_put_a wf_set_pc wf_set_ssp wf_set_usp wf_set_msp wf_set_trace
  wf_set_supervisor wf_set_interrupt_mask wf_set_halted wf_set_stopped wf_set_last_bus_error_pc
  wf_set_m wf_set_instruction_pc wf_set_ir wf_set_ir_pc wf_set_cc : wf.

Lemma wf_commit put l : (forall i v, wf_mod (put i v)) -> wf_mod (commit put l).
Proof.
  intros Hp. induction l as [|[i v] l IH]; intros c Hc; [done|]. by apply IH, Hp.
Qed.

(** Proves [wf_mod] of a composition of field assignments. *)
Ltac wf_tac :=
  intros ? ?; unfold switch_stacks_000, switch_stacks_030; cbv zeta;
  repeat match goal with |- context [if ?b then _ else _] => destruct b end; eauto 10 with wf.
#[export] Hint Extern 2 (wf_mod _) => solve [wf_tac] : stays.

Section System.
Context {B : Type} `{Bus B} (R : machine B -> machine B -> Prop) `{!PreOrder R}.

Record system_steps : Prop := {
  sys_modc : forall f, wf_mod f -> stays R (modc f);
  sys_read : forall s x, stays R (mem_read s x);
  sys_write : forall s x v, stays R (mem_write s x v);
  sys_active : forall x, stays R (modb (set_active x));
  sys_snapshot : stays R (modb snapshot_user_crp);
  sys_reset : stays R (modb system_reset_devices);
  sys_clear : stays R (modb clear_bus_error);
  sys_instructions : stays R (modb (set_instructions 0));
  sys_trace : forall e, stays R (exc_trace_record e);
}.
Context (HR : system_steps).

#[local] Hint Resolve sys_modc sys_read sys_write sys_active sys_snapshot sys_reset sys_clear
  sys_instructions sys_trace : stays.

Lemma stays_putA n v : stays R (putA n v).
Proof. apply (sys_modc HR). wf_tac. Qed.
Lemma stays_putD n v : stays R (putD n v).
Proof. apply (sys_modc HR). wf_tac. Qed.
#[local] Hint Resolve stays_putA stays_putD : stays.

Lemma stays_enter_supervisor : stays R enter_supervisor.
Proof. unfold enter_supervisor. stays_tac. Qed.
Lemma stays_push s v : stays R (push s v).
Proof. unfold push. stays_tac. Qed.
#[local] Hint Resolve stays_enter_supervisor stays_push : stays.

Lemma stays_exception v p sr : stays R (exception v p sr).
Proof. unfold exception. stays_tac. Qed.
#[local] Hint Resolve stays_exception : stays.

Lemma stays_double_fault e : stays R (double_fault e).
Proof. unfold double_fault. stays_tac. Qed.
#[local] Hint Resolve stays_double_fault : stays.

Lemma stays_group0 fpc spc fa rw sr m : stays R m -> stays R (group0_frame fpc spc fa rw sr m).
Proof. intros. unfold group0_frame. stays_tac. Qed.
Lemma stays_formatB spc fa rw sr : stays R (formatB_frame spc fa rw sr).
Proof.
  unfold formatB_frame. stays_tac.
  generalize (seqZ 0 23) as l. intros l. induction l; stays_tac.
Qed.
#[local] Hint Resolve stays_group0 stays_formatB : stays.

Lemma stays_bus_error fa rw : stays R (exception_bus_error fa rw).
Proof. unfold exception_bus_error. stays_tac. apply stays_group0. stays_tac. Qed.
Lemma stays_bus_error_retry fa rw : stays R (exception_bus_error_retry fa rw).
Proof. unfold exception_bus_error_retry. stays_tac. apply stays_group0. stays_tac. Qed.
#[local] Hint Resolve stays_bus_error stays_bus_error_retry : stays.

Lemma stays_check_interrupt : stays R cpu_check_interrupt.
Proof. unfold cpu_check_interrupt. stays_tac. Qed.
#[local] Hint Resolve stays_check_interrupt : stays.

Lemma stays_write_sr sr : stays R (write_sr sr).
Proof. unfold write_sr. stays_tac. Qed.
Lemma stays_set_sr sr : stays R (cpu_set_sr sr).
Proof. apply stays_write_sr. Qed.
Lemma stays_raise v p : stays R (raise v p).
Proof. unfold raise. stays_tac. Qed.
#[local] Hint Resolve stays_raise : stays.
Lemma stays_illegal_instruction : stays R illegal_instruction.
Proof. unfold illegal_instruction. stays_tac. Qed.
Lemma stays_f_trap : stays R f_trap.
Proof. unfold f_trap. stays_tac. Qed.
Lemma stays_fetch_16 i : stays R (fetch_16 i).
Proof. unfold fetch_16. stays_tac. Qed.
Lemma stays_fetch_32 i : stays R (fetch_32 i).
Proof. unfold fetch_32. stays_tac. Qed.
End System.

(** ** Instruction bodies *)

(** The fields of the CPU that only exceptions and privileged instructions
    may write. *)
Definition privileged_state (c : cpu_t) :=
  (ssp c, usp c, trace c, supervisor c, interrupt_mask c, ipl c, cpu_model c, halted c, stopped c,
   last_bus_error_pc c, vbr c, msp c, m c, instruction_pc c, ir c, ir_pc c).

Definition user_mod (f : cpu_t -> cpu_t) : Prop :=
  wf_mod f /\ forall c, privileged_state (f c) = privileged_state c.

Lemma user_mod_put_d n v : user_mod (put_d n v).
Proof. split; [wf_tac|done]. Qed.
Lemma user_mod_put_a n v : user_mod (put_a n v).
Proof. split; [wf_tac|done]. Qed.
Lemma user_mod_set_pc v : user_mod (set_pc v).
Proof. split; [wf_tac|done]. Qed.
Lemma user_mod_add_pc f : user_mod (fun c => set_pc (f c) c).
Proof. split; [wf_tac|done]. Qed.
Lemma user_mod_cc f : user_mod (fun c => set_cc (f c) c).
Proof. split; [wf_tac|done]. Qed.
Lemma user_mod_set_cc f : user_mod (set_cc f).
Proof. split; [wf_tac|done]. Qed.
Lemma user_mod_commit put l : (forall i v, user_mod (put i v)) -> user_mod (commit put l).
Proof.
  intros Hp. split; [apply wf_commit; intros; apply Hp|].
  induction l as [|[i v] l IH]; intros c; [done|]. simpl. rewrite IH. apply Hp.
Qed.
#[export] Hint Resolve user_mod_put_d user_mod_put_a user_mod_set_pc user_mod_add_pc user_mod_cc
  user_mod_set_cc user_mod_commit : stays.

Section Instructions.
Context {B : Type} `{Bus B} (R Rs : machine B -> machine B -> Prop) `{!PreOrder R, !PreOrder Rs}.

Record instruction_steps : Prop := {
  ins_modc : forall f, user_mod f -> stays R (modc f);
  ins_read : forall s x, stays R (mem_read s x);
  ins_write : forall s x v, stays R (mem_write s x v);
  ins_super : forall x, stays Rs x -> stays R (SUPER x);
  ins_raise : forall v p, v <> 0x008 -> stays R (raise v p);
  ins_illegal : stays R illegal_instruction;
  ins_f_trap : stays R f_trap;
}.
Context (HS : system_steps Rs) (HR : instruction_steps).
#[local] Hint Resolve ins_modc ins_read ins_write ins_illegal ins_f_trap : stays.
#[local] Hint Extern 1 (stays _ (raise _ _)) => (apply ins_raise; [assumption|lia]) : stays.

Lemma keeps_putD n v : stays R (putD n v).
Proof. unfold putD. auto with stays. Qed.
Lemma keeps_putA n v : stays R (putA n v).
Proof. unfold putA. auto with stays. Qed.
Lemma keeps_fetch_16 i : stays R (fetch_16 i).
Proof. unfold fetch_16. stays_tac. Qed.
Lemma keeps_fetch_32 i : stays R (fetch_32 i).
Proof. unfold fetch_32. stays_tac. Qed.
#[local] Hint Resolve keeps_putD keeps_putA keeps_fetch_16 keeps_fetch_32 : stays.

Lemma keeps_read_disp code pos : stays R (read_disp code pos).
Proof. unfold read_disp. stays_tac. Qed.
#[local] Hint Resolve keeps_read_disp : stays.
Lemma keeps_ea_full e b i : stays R (calculate_ea_full e b i).
Proof. unfold calculate_ea_full. stays_tac. Qed.
#[local] Hint Resolve keeps_ea_full : stays.
Lemma keeps_ea_slow z mo r i : stays R (calculate_ea_slow z mo r i).
Proof. unfold calculate_ea_slow. stays_tac. Qed.
#[local] Hint Resolve keeps_ea_slow : stays.
Lemma keeps_ea z mo r i : stays R (calculate_ea z mo r i).
Proof. unfold calculate_ea. stays_tac. Qed.
#[local] Hint Resolve keeps_ea : stays.
Lemma keeps_read_ea s o i : stays R (read_ea s o i).
Proof. unfold read_ea. stays_tac. Qed.
Lemma keeps_write_ea s mo r v : stays R (write_ea s mo r v).
Proof. unfold write_ea. stays_tac. Qed.
#[local] Hint Resolve keeps_read_ea keeps_write_ea : stays.

Lemma keeps_movem_loads s mask lo regs : forall ea, stays R (movem_loads s mask lo regs ea).
Proof. induction regs; intros; simpl; unfold movem_load; stays_tac. Qed.
Lemma keeps_movem_stores s mask lo val down regs :
  forall ea, stays R (movem_stores s mask lo val down regs ea).
Proof. induction regs; intros; simpl; stays_tac. Qed.
#[local] Hint Resolve keeps_movem_loads keeps_movem_stores : stays.
Lemma keeps_movem_to o s : stays R (movem_to_register o s).
Proof. unfold movem_to_register. stays_tac. Qed.
Lemma keeps_movem_from o s : stays R (movem_from_register o s).
Proof. unfold movem_from_register. stays_tac. Qed.
#[local] Hint Resolve keeps_movem_to keeps_movem_from : stays.

Lemma keeps_validate modes mo r : stays R (VALIDATE_EA modes mo r).
Proof. unfold VALIDATE_EA. stays_tac. Qed.
Lemma keeps_valid o modes : stays R (VALID_EA o modes).
Proof. apply keeps_validate. Qed.
Lemma keeps_valid_move o modes : stays R (VALID_EA_MOVE o modes).
Proof. apply keeps_validate. Qed.
#[local] Hint Resolve keeps_valid keeps_valid_move : stays.
Lemma keeps_load_ea s o modes : stays R (LOAD_EA s o modes).
Proof. unfold LOAD_EA. stays_tac. Qed.
Lemma keeps_load_ea_upd s o : stays R (LOAD_EA_WITH_UPDATE s o).
Proof. apply keeps_read_ea. Qed.
Lemma keeps_store_ea s o v : stays R (STORE_EA s o v).
Proof. apply keeps_write_ea. Qed.
Lemma keeps_store_dn s n v : stays R (STORE_DN s n v).
Proof. unfold STORE_DN. stays_tac. Qed.
Lemma keeps_load_imm s : stays R (LOAD_IMM s).
Proof. unfold LOAD_IMM. stays_tac. Qed.
Lemma keeps_modcc f : stays R (modcc f).
Proof. unfold modcc. auto with stays. Qed.
Lemma keeps_alu f : stays R (alu f).
Proof. unfold alu. stays_tac. Qed.
Lemma keeps_predec s n : stays R (LOAD_AN_PREDEC s n).
Proof. unfold LOAD_AN_PREDEC. stays_tac. Qed.
Lemma keeps_postinc s n : stays R (LOAD_AN_POSTINC s n).
Proof. unfold LOAD_AN_POSTINC. stays_tac. Qed.
Lemma keeps_PUSH v : stays R (PUSH v).
Proof. unfold PUSH. stays_tac. Qed.
Lemma keeps_POP s : stays R (POP s).
Proof. unfold POP. stays_tac. Qed.
#[local] Hint Resolve keeps_load_ea keeps_load_ea_upd keeps_store_ea keeps_store_dn keeps_load_imm
  keeps_modcc keeps_alu keeps_predec keeps_postinc keeps_PUSH keeps_POP : stays.

Lemma keeps_arithx f o s : (forall x y, stays R (f x y)) -> stays R (ARITHX_AX_AY f o s).
Proof. intros. unfold ARITHX_AX_AY. stays_tac. Qed.
Lemma keeps_div value o : stays R (DIV16 value o).
Proof. unfold DIV16, exception_divide_by_zero. stays_tac. Qed.
Lemma keeps_bit_op o b s getbit modes : stays R getbit -> stays R (BIT_OP o b s getbit modes).
Proof. intros. unfold BIT_OP. stays_tac. Qed.
Lemma keeps_lift_asl s d c r : stays R (lift_asl s d c r).
Proof. unfold lift_asl. stays_tac. Qed.
#[local] Hint Resolve keeps_arithx keeps_div keeps_lift_asl : stays.
Lemma keeps_shift_dy k s i o n : stays R (SHIFT_DY k s i o n).
Proof. unfold SHIFT_DY. stays_tac. Qed.
Lemma keeps_shift_ea o k : stays R (SHIFT_EA o k).
Proof. unfold SHIFT_EA. stays_tac. Qed.
Lemma keeps_ea_d16 o : stays R (EA_D16_AN o).
Proof. apply keeps_ea. Qed.
Lemma keeps_get_ea o : stays R (GET_EA o).
Proof. apply keeps_ea. Qed.
Lemma keeps_bsr p : stays R (bsr p).
Proof. unfold bsr. stays_tac. Qed.
#[local] Hint Resolve keeps_shift_dy keeps_shift_ea keeps_ea_d16 keeps_get_ea keeps_bsr : stays.

(** The privileged instructions: the checked body may do anything [Rs] allows. *)
#[local] Hint Resolve sys_modc sys_read sys_write sys_reset sys_instructions
  stays_putA stays_fetch_16 stays_set_sr : stays.
Lemma super_POP s : stays Rs (POP s).
Proof. unfold POP. stays_tac. Qed.
Lemma super_ea z mo r i : stays Rs (calculate_ea z mo r i).
Proof.
  unfold calculate_ea, calculate_ea_slow, calculate_ea_full, read_disp, fetch_16, fetch_32.
  stays_tac.
Qed.
#[local] Hint Resolve super_POP super_ea : stays.
Lemma super_load_ea s o : stays Rs (LOAD_EA_WITH_UPDATE s o).
Proof. unfold LOAD_EA_WITH_UPDATE, read_ea. stays_tac. Qed.
#[local] Hint Resolve super_load_ea : stays.
Lemma keeps_to_sr l : stays R (TO_SR l).
Proof. apply (ins_super HR). unfold LOAD_IMM. stays_tac. Qed.
#[local] Hint Resolve keeps_to_sr : stays.

Ltac body := unfold TO_CCR, IMM_LOGICAL, ARITH_IMM, CMPI, ARITH_QUICK, SUB_EA_DN, ADD_EA_DN,
  ARITH_DN_EA, ARITHX_DX_DY, CMP_EA_DN, CMPA_EA_AN, CMPM_AY_AX, NEGX, NEG, NOT, LOGICAL_EA_DN,
  LOGICAL_DN_EA, MUL_W, MOVE, MOVEA, CLR, DBCC_DN_LABEL, READ4x8, READ2x8, WRITE4x8, WRITE2x8, CC,
  bit_of_dx, bit_of_imm, trap, trapv, chk_exception, a_trap; stays_tac.

(** Every instruction keeps the relation. *)
Lemma stays_exec_op o opcode : stays R (exec_op o opcode).
Proof.
  assert (0 <= Z.land opcode 0xF) as Hv by (apply Z.land_nonneg; lia).
  destruct o; unfold exec_op; cbv zeta;
    try (apply keeps_bit_op); try (apply (ins_super HR)); body.
  apply (ins_super HR). stays_tac.
Qed.

Lemma stays_exec opcode ext : stays R (exec opcode ext).
Proof.
  unfold exec. destruct (decode opcode ext); [apply stays_exec_op|apply stays_ret]; apply _.
Qed.
End Instructions.
