(* ===== verification/CpuDefined.v ===== *)
(** * How instructions end

    An instruction body runs to its end, unless its addressing mode is not
    among those that its VALID_EA checks admit: then it takes the illegal
    instruction exception and leaves by [continue].  The model marks as
    undefined the division of DIVS and the overflow test of ASL, and only
    these; the exception code always returns. *)
From S2P Require Import Prelude Bus FlatBus CpuState CpuAlu CpuShiftProofs CpuMachine CpuExc.
From S2P Require Import CpuOps CpuDecode CpuStays.

(** [ends k u m]: [m] ends in [continue] only if [k], and is undefined only if [u]. *)
Definition ends {S A} (k u : bool) (m : M S A) : Prop :=
  forall s, match (m s).1 with Ret _ => True | Continue => k = true | Undefined => u = true end.

Create HintDb ends.

Section Ends.
Context {S : Type} (k u : bool).
Lemma ends_ret {A} (a : A) : ends k u (mret a : M S A).
Proof. by intros s. Qed.
Lemma ends_gets {A} (f : S -> A) : ends k u (gets f).
Proof. by intros s. Qed.
Lemma ends_modify (f : S -> S) : ends k u (modify f).
Proof. by intros s. Qed.
Lemma ends_bind {A B} (m : M S A) (f : A -> M S B) :
  ends k u m -> (forall a, ends k u (f a)) -> ends k u (m ≫= f).
Proof.
  intros Hm Hf s. specialize (Hm s). unfold mbind, M_bind.
  destruct (m s) as [[a| |] s']; simpl in *; [apply Hf|done..].
Qed.
Lemma ends_when b (m : M S unit) : ends k u m -> ends k u (when b m).
Proof. destruct b; [done|]. intros _. apply ends_ret. Qed.
End Ends.
Lemma ends_continue {S A} u : ends true u (@continue S A).
Proof. by intros s. Qed.
Lemma ends_undefined_if {S A} k u : u = true -> ends k u (@undefined S A).
Proof. by intros ? s. Qed.

Ltac ends_tac :=
  repeat first
    [ progress intros
    | solve [eauto with ends]
    | match goal with
      | |- ends _ _ (mret _) => apply ends_ret
      | |- ends _ _ (gets _) => apply ends_gets
      | |- ends _ _ (modify _) => apply ends_modify
      | |- ends _ _ continue => apply ends_continue
      | |- ends _ _ (mbind _ _) => apply ends_bind
      | |- ends _ _ (when _ _) => apply ends_when
      | |- ends _ _ (match ?x with _ => _ end) => destruct x
      end
    | progress (unfold getc, modc, getb, modb, exc_trace_record, mem_write, getD, getA, putD, putA, pending;
                cbv zeta) ].

Section Defined.
Context {B : Type} `{Bus B} (k u : bool).

Lemma ends_mem_read s x : ends k u (@mem_read B _ s x).
Proof. intros st. unfold mem_read. by destruct (memory_read _ _ _). Qed.
#[local] Hint Resolve ends_mem_read : ends.

(** ** Exceptions always return *)
Lemma ends_enter_supervisor : ends k u (@enter_supervisor B _).
Proof. unfold enter_supervisor. ends_tac. Qed.
#[local] Hint Resolve ends_enter_supervisor : ends.
Lemma ends_exception v p sr : ends k u (@exception B _ v p sr).
Proof. unfold exception, push. ends_tac. Qed.
#[local] Hint Resolve ends_exception : ends.
Lemma ends_group0 fpc spc fa rw sr m : ends k u m -> ends k u (@group0_frame B _ fpc spc fa rw sr m).
Proof. intros. unfold group0_frame, double_fault. ends_tac. Qed.
Lemma ends_formatB spc fa rw sr : ends k u (@formatB_frame B _ spc fa rw sr).
Proof.
  unfold formatB_frame. ends_tac.
  generalize (seqZ 0 23) as l. intros l. induction l; ends_tac.
Qed.
#[local] Hint Resolve ends_formatB : ends.
Lemma ends_bus_error fa rw : ends k u (@exception_bus_error B _ fa rw).
Proof. unfold exception_bus_error. ends_tac. apply ends_group0. ends_tac. Qed.
Lemma ends_bus_error_retry fa rw : ends k u (@exception_bus_error_retry B _ fa rw).
Proof.
  unfold exception_bus_error_retry, double_fault. ends_tac. apply ends_group0. ends_tac.
Qed.
#[local] Hint Resolve ends_bus_error ends_bus_error_retry : ends.
Lemma ends_check_interrupt : ends k u (@cpu_check_interrupt B _).
Proof. unfold cpu_check_interrupt. ends_tac. Qed.
#[local] Hint Resolve ends_check_interrupt : ends.
Lemma ends_set_sr sr : ends k u (@cpu_set_sr B _ sr).
Proof. unfold cpu_set_sr, write_sr. ends_tac. Qed.
Lemma ends_raise v p : ends k u (@raise B _ v p).
Proof. unfold raise. ends_tac. Qed.
Lemma ends_illegal_instruction : ends k u (@illegal_instruction B _).
Proof. unfold illegal_instruction. ends_tac. Qed.
Lemma ends_f_trap : ends k u (@f_trap B _).
Proof. unfold f_trap, raise. ends_tac. Qed.
#[local] Hint Resolve ends_set_sr ends_raise ends_illegal_instruction ends_f_trap : ends.

(** ** Operands *)
Lemma ends_ea z mo r i : ends k u (@calculate_ea B _ z mo r i).
Proof.
  unfold calculate_ea, calculate_ea_slow, calculate_ea_full, read_disp, fetch_16, fetch_32. ends_tac.
Qed.
#[local] Hint Resolve ends_ea : ends.
Lemma ends_read_ea s o i : ends k u (@read_ea B _ s o i).
Proof. unfold read_ea. ends_tac. Qed.
Lemma ends_write_ea s mo r v : ends k u (@write_ea B _ s mo r v).
Proof. unfold write_ea. ends_tac. Qed.
Lemma ends_movem_loads s mask lo regs : forall ea, ends k u (@movem_loads B _ s mask lo regs ea).
Proof. induction regs; intros; simpl; unfold movem_load; ends_tac. Qed.
Lemma ends_movem_stores s mask lo val down regs :
  forall ea, ends k u (@movem_stores B _ s mask lo val down regs ea).
Proof. induction regs; intros; simpl; ends_tac. Qed.
#[local] Hint Resolve ends_read_ea ends_write_ea ends_movem_loads ends_movem_stores : ends.
Lemma ends_movem_to o s : ends k u (@movem_to_register B _ o s).
Proof. unfold movem_to_register, fetch_16. ends_tac. Qed.
Lemma ends_movem_from o s : ends k u (@movem_from_register B _ o s).
Proof. unfold movem_from_register, fetch_16. ends_tac. Qed.
End Defined.

(** ** The addressing modes of an instruction *)

(** No effective address: every mode passes. *)
Definition no_ea : Z := -1.

(** The modes that the body of a macro accepts in its VALID_EA check, and in
    the VALID_EA_MOVE check of MOVE. *)
Definition ea_modes (o : op) : Z :=
  match o with
  | OP_LOGI_DATA_EA _ _ | OP_SUBI_DATA_EA _ | OP_ADDI_DATA_EA _ | OP_NEGX_EA _ | OP_CLR_EA _
  | OP_NEG_EA _ | OP_NOT_EA _ | OP_MOVE_W_SR_EA | OP_NBCD_B_EA | OP_TST_EA _ | OP_TAS_B_EA
  | OP_SCC_EA | OP_LOG_DN_EA LXor _ => data_alterable
  | OP_CMPI_DATA_EA _ => ea_data - ea_xxx - ea_d16_pc - ea_d8_pc_xn
  | OP_BIT_B_DN_EA BTST => ea_data
  | OP_BIT_L_DX_DY BTST | OP_BIT_L_DATA_DN BTST | OP_BIT_B_DATA_EA BTST => ea_data - ea_xxx
  | OP_BIT_L_DX_DY _ | OP_BIT_B_DN_EA _ | OP_BIT_L_DATA_DN _ | OP_BIT_B_DATA_EA _ => data_alterable
  | OP_MOVE_EA_EA B8 | OP_SUB_EA_DN B8 | OP_ADD_EA_DN B8 | OP_CMP_EA_DN B8 => ea_any - ea_an
  | OP_MOVE_EA_EA _ | OP_SUB_EA_DN _ | OP_ADD_EA_DN _ | OP_CMP_EA_DN _
  | OP_MOVEA_EA_AN _ | OP_SUBA_EA_AN _ | OP_ADDA_EA_AN _ | OP_CMPA_EA_AN _ => ea_any
  | OP_MOVE_B_EA_CCR | OP_MOVE_EA_SR | OP_CHK_W_EA_DN | OP_LOG_EA_DN _ _ | OP_DIVU_W_EA_DN
  | OP_DIVS_W_EA_DN | OP_MULU_W_EA_DN | OP_MULS_W_EA_DN => ea_data
  | OP_PEA_EA | OP_JSR_EA | OP_JMP_EA | OP_LEA_EA_AN => ea_control
  | OP_MOVEM_LIST_EA _ => Z.lor (Z.land ea_control ea_alterable) ea_min_an
  | OP_MOVEM_EA_LIST _ => ea_control + ea_an_plus
  | OP_SUBQ_DATA_EA _ | OP_ADDQ_DATA_EA _ => ea_alterable - ea_an
  | OP_SUB_DN_EA _ | OP_ADD_DN_EA _ | OP_LOG_DN_EA _ _ | OP_SHIFT_W_EA _ => memory_alterable
  | _ => no_ea
  end.
Definition ea_modes_dst (o : op) : Z :=
  match o with OP_MOVE_EA_EA _ => data_alterable | _ => no_ea end.

Definition ea_legal (o : op) (opcode : Z) : bool :=
  Z.testbit (ea_modes o) (ea_bit (EA_MODE opcode) (EA_REG opcode)) &&
  Z.testbit (ea_modes_dst o) (ea_bit (bits_8_6 opcode) (XREG opcode)).

Lemma no_ea_testbit n : 0 <= n -> Z.testbit no_ea n = true.
Proof. intros. unfold no_ea. by apply (Z.bits_m1 n). Qed.
Lemma ea_bit_nonneg opcode : 0 <= ea_bit (EA_MODE opcode) (EA_REG opcode).
Proof.
  unfold ea_bit, EA_MODE, EA_REG.
  pose proof (land_width 3 (Z.shiftr opcode 3) 7 ltac:(lia) ltac:(by split)) as [].
  pose proof (land_width 3 opcode 7 ltac:(lia) ltac:(by split)) as []. zbool; lia.
Qed.
Lemma ea_bit_dst_nonneg opcode : 0 <= ea_bit (bits_8_6 opcode) (XREG opcode).
Proof.
  unfold ea_bit, bits_8_6, XREG.
  pose proof (land_width 3 (Z.shiftr opcode 6) 7 ltac:(lia) ltac:(by split)) as [].
  pose proof (land_width 3 (Z.shiftr opcode 9) 7 ltac:(lia) ltac:(by split)) as []. zbool; lia.
Qed.

(** The opcodes whose C code has an undefined case: DIVS.W, and ASL Dy by a
    count that can reach the operand size. *)
Definition may_be_undefined (o : op) : bool :=
  match o with
  | OP_DIVS_W_EA_DN | OP_SHIFT_DATA_DY ASL_ B8 | OP_SHIFT_DX_DY ASL_ _ => true
  | _ => false
  end.

Section Illegal.
Context {B : Type} `{Bus B}.

(** The outcome of an illegal instruction. *)
Definition illegal : M (machine B) unit := illegal_instruction;; continue.

Lemma illegal_bind {A} (f : A -> M (machine B) unit) (s : machine B) :
  ((illegal_instruction;; continue) ≫= f) s = illegal s.
Proof.
  unfold illegal, mbind, M_bind, continue. by destruct (illegal_instruction s) as [[] ?].
Qed.

Lemma validate_illegal (modes mode reg : Z) (f : unit -> M (machine B) unit) s :
  Z.testbit modes (ea_bit mode reg) = false -> (VALIDATE_EA modes mode reg ≫= f) s = illegal s.
Proof. intros E. unfold VALIDATE_EA. rewrite E. apply illegal_bind. Qed.

Lemma validate_bind (modes mode reg : Z) (f : unit -> M (machine B) unit) s :
  f tt s = illegal s -> (VALIDATE_EA modes mode reg ≫= f) s = illegal s.
Proof.
  intros E. unfold VALIDATE_EA. destruct (Z.testbit _ _); [done|apply illegal_bind].
Qed.

Lemma load_illegal sz opcode modes (f : Z -> M (machine B) unit) s :
  Z.testbit modes (ea_bit (EA_MODE opcode) (EA_REG opcode)) = false ->
  (LOAD_EA sz opcode modes ≫= f) s = illegal s.
Proof.
  intros E. unfold LOAD_EA, VALID_EA, VALIDATE_EA. rewrite E.
  unfold illegal, mbind, M_bind, continue. by destruct (illegal_instruction s) as [[] ?].
Qed.

(** An inadmissible addressing mode takes the illegal instruction exception
    before anything else happens. *)
Lemma exec_op_illegal o opcode (s : machine B) :
  ea_legal o opcode = false -> exec_op o opcode s = illegal s.
Proof.
  unfold ea_legal. intros [E|E]%andb_false_iff.
  - assert (ea_modes o <> no_ea) as Hne.
    { intros E'. rewrite E', no_ea_testbit in E by apply ea_bit_nonneg. done. }
    destruct o; try done; clear Hne;
      repeat match goal with x : logic |- _ => destruct x | x : bitop |- _ => destruct x end;
      try (apply validate_illegal; exact E); try (apply load_illegal; exact E).
    1: by destruct s0; apply validate_bind, validate_illegal.
    all: destruct s0; refine (validate_illegal _ _ _ _ _ _); exact E.
  - destruct o; simpl in E; try (by rewrite no_ea_testbit in E by apply ea_bit_dst_nonneg).
    by apply validate_illegal.
Qed.
End Illegal.


(** ** How the instruction bodies end *)
Section DefinedOps.
Context {B : Type} `{Bus B} (k u : bool).
#[local] Hint Resolve ends_mem_read ends_ea ends_read_ea ends_write_ea ends_movem_to ends_movem_from
  ends_exception ends_set_sr ends_raise ends_illegal_instruction ends_f_trap : ends.

(** [continue] is allowed, or the addressing mode is one of [modes]. *)
Definition passes (modes mode reg : Z) : Prop := k = true \/ Z.testbit modes (ea_bit mode reg) = true.

Lemma ends_validate modes mo r : passes modes mo r -> ends k u (@VALIDATE_EA B _ modes mo r).
Proof.
  unfold VALIDATE_EA. intros [->|E]; [|rewrite E; apply ends_ret].
  destruct (Z.testbit _ _); [apply ends_ret|]. apply ends_bind; [auto with ends|intros; apply ends_continue].
Qed.
Lemma ends_valid o modes : passes modes (EA_MODE o) (EA_REG o) -> ends k u (@VALID_EA B _ o modes).
Proof. apply ends_validate. Qed.
Lemma ends_valid_move o modes :
  passes modes (bits_8_6 o) (XREG o) -> ends k u (@VALID_EA_MOVE B _ o modes).
Proof. apply ends_validate. Qed.
Lemma ends_fetch_16 i : ends k u (@fetch_16 B _ i).
Proof. unfold fetch_16. ends_tac. Qed.
Lemma ends_fetch_32 i : ends k u (@fetch_32 B _ i).
Proof. unfold fetch_32. ends_tac. Qed.
Lemma ends_alu f : ends k u (@alu B f).
Proof. unfold alu. ends_tac. Qed.
Lemma ends_modcc f : ends k u (@modcc B f).
Proof. unfold modcc. ends_tac. Qed.
#[local] Hint Resolve ends_valid ends_valid_move ends_fetch_16 ends_fetch_32 ends_alu ends_modcc : ends.
Lemma ends_load_ea s o modes :
  passes modes (EA_MODE o) (EA_REG o) -> ends k u (@LOAD_EA B _ s o modes).
Proof. unfold LOAD_EA. ends_tac. Qed.
Lemma ends_load_ea_upd s o : ends k u (@LOAD_EA_WITH_UPDATE B _ s o).
Proof. apply ends_read_ea. Qed.
Lemma ends_store_ea s o v : ends k u (@STORE_EA B _ s o v).
Proof. apply ends_write_ea. Qed.
Lemma ends_store_dn s n v : ends k u (@STORE_DN B s n v).
Proof. unfold STORE_DN. ends_tac. Qed.
Lemma ends_load_imm s : ends k u (@LOAD_IMM B _ s).
Proof. unfold LOAD_IMM. ends_tac. Qed.
Lemma ends_super x : ends k u x -> ends k u (@SUPER B _ x).
Proof. intros. unfold SUPER, privilege_violation. ends_tac. Qed.
#[local] Hint Resolve ends_load_ea ends_load_ea_upd ends_store_ea ends_store_dn ends_load_imm : ends.
Lemma ends_arithx f o s : (forall x y, ends k u (f x y)) -> ends k u (@ARITHX_AX_AY B _ f o s).
Proof. intros. unfold ARITHX_AX_AY, LOAD_AN_PREDEC. ends_tac. Qed.
Lemma ends_bit_op o b s getbit modes :
  passes (match b with BTST => modes | _ => data_alterable end) (EA_MODE o) (EA_REG o) ->
  ends k u getbit -> ends k u (@BIT_OP B _ o b s getbit modes).
Proof. intros. unfold BIT_OP. destruct b; ends_tac. Qed.
#[local] Hint Resolve ends_super ends_arithx : ends.

Lemma DIV16U_defined dn v : DIV16U_value dn v <> DivUndefined.
Proof. unfold DIV16U_value. by repeat case_match. Qed.
Lemma ends_div value o : passes ea_data (EA_MODE o) (EA_REG o) ->
  (u = true \/ forall dn v, value dn v <> DivUndefined) -> ends k u (@DIV16 B _ value o).
Proof.
  intros Hm Hd. unfold DIV16, exception_divide_by_zero.
  repeat (apply ends_bind; [ends_tac|intros]).
  match goal with |- context [value ?x ?y] =>
    assert (u = true \/ value x y <> DivUndefined) as Hv by (destruct Hd; auto) end.
  destruct (value _ _); ends_tac. destruct Hv as [Hu|]; [by apply ends_undefined_if|done].
Qed.

Lemma DATA_range opcode : 1 <= DATA opcode <= 8.
Proof.
  unfold DATA. pose proof (land_width 3 (XREG opcode - 1) 7 ltac:(lia) ltac:(by split)) as []. lia.
Qed.

(** The shifts without undefined cases: all but ASL by a count that can
    reach the operand size. *)
Lemma ends_shift_dy f s o n :
  (u = true \/ f <> ASL_ \/ (s <> B8 /\ 0 <= n <= 8)) -> forall imm, ends k u (@SHIFT_DY B f s imm o n).
Proof.
  intros Hk imm. unfold SHIFT_DY, lift_asl.
  destruct f; try (ends_tac; fail).
  destruct Hk as [Hu|[|[Hs Hn]]]; [ends_tac; by apply ends_undefined_if|done|].
  assert (trunc s n = n) as En by (apply wrap_small; destruct s; split; simpl; lia).
  rewrite En.
  assert (forall d r f, ASHIFT_LEFT s d n r f <> None) as Hdef.
  { intros d r f. unfold ASHIFT_LEFT, asl_overflow.
    replace ((n <? 32) && (n <=? bits s - 1)) with true by (destruct s; simpl; zprune; done).
    by destruct ((r =? 0) && truthy d). }
  cbv zeta. repeat (apply ends_bind; [ends_tac|intros]).
  match goal with |- context [ASHIFT_LEFT ?s ?d ?c ?r ?f] => specialize (Hdef d r f) end.
  destruct (ASHIFT_LEFT _ _ _ _ _); ends_tac; done.
Qed.

Lemma ea_passes o opcode : (k = true \/ ea_legal o opcode = true) ->
  passes (ea_modes o) (EA_MODE opcode) (EA_REG opcode) /\
  passes (ea_modes_dst o) (bits_8_6 opcode) (XREG opcode).
Proof. unfold passes, ea_legal. intros [|[]%andb_true_iff]; auto. Qed.

(** An instruction ends in [continue] only when its addressing mode is
    inadmissible, and is undefined only where [may_be_undefined] says. *)
Lemma exec_op_ends o opcode :
  (u = true \/ may_be_undefined o = false) ->
  (k = true \/ (o <> OP_UNDEFINED /\ ea_legal o opcode = true)) ->
  ends k u (@exec_op B _ o opcode).
Proof.
  intros Hd Hk. destruct (ea_passes o opcode) as [Hs Hds]; [naive_solver|].
  destruct o;
    repeat match goal with x : bitop |- _ => destruct x | x : logic |- _ => destruct x end;
    try match goal with x : size |- _ => destruct x end; unfold exec_op; cbv zeta;
    try (apply ends_bit_op; unfold bit_of_dx, bit_of_imm);
    try (apply ends_div);
    unfold TO_CCR, TO_SR, IMM_LOGICAL, ARITH_IMM, CMPI, ARITH_QUICK, SUB_EA_DN, ADD_EA_DN,
      ARITH_DN_EA, ARITHX_DX_DY, CMP_EA_DN, CMPA_EA_AN, CMPM_AY_AX, LOAD_AN_POSTINC, NEGX, NEG, NOT,
      LOGICAL_EA_DN, LOGICAL_DN_EA, MUL_W, MOVE, MOVEA, CLR, DBCC_DN_LABEL, EA_D16_AN, READ4x8,
      READ2x8, WRITE4x8, WRITE2x8, CC, SHIFT_EA, trap, trapv, chk_exception, a_trap, bsr, PUSH, POP,
      GET_EA; ends_tac; try exact Hs; try (apply ends_super; ends_tac).
  - right. apply DIV16U_defined.
  - destruct Hd; [by left|done].
  - apply ends_shift_dy. destruct Hd; [by left|]. right; left. by intros ->.
  - apply ends_shift_dy. pose proof (DATA_range opcode). right; right. split; [done|lia].
  - apply ends_shift_dy. pose proof (DATA_range opcode). right; right. split; [done|lia].
  - apply ends_shift_dy. destruct Hd; [by left|]. right; left. by intros ->.
  - apply ends_shift_dy. destruct Hd; [by left|]. right; left. by intros ->.
  - apply ends_shift_dy. destruct Hd; [by left|]. right; left. by intros ->.
  - destruct Hk as [->|[]]; [apply ends_continue|done].
Qed.
End DefinedOps.
