(* ===== verification/CpuIsa.v ===== *)
(** * The 68000 operation-code map, and the decoder against it

    [isa] is the instruction set of the MC68000 written as the reference
    manual prints it: one bit pattern per instruction form together with the
    addressing modes the form admits.  The theorems compare cpu_decode.h with
    that table on every opcode word. *)
From Stdlib Require Import Ascii.
From stdpp Require Import strings.
From S2P Require Import Prelude Bus CpuState CpuAlu CpuMachine CpuExc CpuOps CpuDecode CpuDefined.

(** ** Bit patterns *)

(** A pattern is 16 bits, most significant first: 0 and 1 must match, blanks
    are skipped and any other letter is a field.  [pattern p] is the mask of
    the fixed bits and their value. *)
Fixpoint pattern_from (p : string) (mask val : Z) : Z * Z :=
  match p with
  | EmptyString => (mask, val)
  | String c p =>
      if Ascii.eqb c " " then pattern_from p mask val
      else if Ascii.eqb c "0" then pattern_from p (2 * mask + 1) (2 * val)
      else if Ascii.eqb c "1" then pattern_from p (2 * mask + 1) (2 * val + 1)
      else pattern_from p (2 * mask) (2 * val)
  end.
Definition pattern (p : string) : Z * Z := pattern_from p 0 0.

(** An instruction form: fixed bits, admissible source modes (bits 5-0),
    admissible destination modes (bits 11-6, MOVE only), the macro. *)
Record form := Form { fixed : Z * Z; src_modes : Z; dst_modes : Z; macro : op }.

Definition plain (p : string) (o : op) : form := Form (pattern p) no_ea no_ea o.
Definition with_ea (p : string) (modes : Z) (o : op) : form := Form (pattern p) modes no_ea o.

Definition form_matches (opcode : Z) (f : form) : bool :=
  if Z.land opcode (fixed f).1 =? (fixed f).2 then
    if Z.testbit (src_modes f) (ea_bit (EA_MODE opcode) (EA_REG opcode))
    then Z.testbit (dst_modes f) (ea_bit (bits_8_6 opcode) (XREG opcode)) else false
  else false.

(** ** Addressing categories of the manual *)

Definition set_of (l : list Z) : Z := fold_right (fun m acc => Z.lor m acc) 0 l.
Definition memory_alt : Z :=
  set_of [ea_an_mem; ea_an_plus; ea_min_an; ea_d16_an; ea_d8_an_xn; ea_xxx_w; ea_xxx_l].
Definition data_alt : Z := Z.lor ea_dn memory_alt.
Definition control_alt : Z := set_of [ea_an_mem; ea_d16_an; ea_d8_an_xn; ea_xxx_w; ea_xxx_l].
Definition control : Z := set_of [control_alt; ea_d16_pc; ea_d8_pc_xn].
Definition data_ : Z := set_of [data_alt; ea_d16_pc; ea_d8_pc_xn; ea_xxx].
Definition all_modes : Z := Z.lor data_ ea_an.
(** An as a byte operand does not exist. *)
Definition source (s : size) : Z := match s with B8 => data_ | _ => all_modes end.

Definition sizes : list (string * size) := [("00", B8); ("01", B16); ("10", B32)]%string.
Definition per_size (f : string -> size -> form) : list form := map (fun x => f x.1 x.2) sizes.
Definition per_bitop (f : string -> bitop -> list form) : list form :=
  f "00"%string BTST ++ f "01"%string BCHG ++ f "10"%string BCLR ++ f "11"%string BSET.
Definition shifts : list (string * shiftop * shiftop) :=
  [("00", ASR_, ASL_); ("01", LSR_, LSL_); ("10", ROXR_, ROXL_); ("11", ROR_, ROL_)]%string.

#[local] Open Scope string_scope.

Definition isa_immediate : list form :=
  [plain "0000 0000 0011 1100" (OP_LOGI_DATA_CCR LOr);
   plain "0000 0000 0111 1100" (OP_LOGI_DATA_SR LOr);
   plain "0000 0010 0011 1100" (OP_LOGI_DATA_CCR LAnd);
   plain "0000 0010 0111 1100" (OP_LOGI_DATA_SR LAnd);
   plain "0000 1010 0011 1100" (OP_LOGI_DATA_CCR LXor);
   plain "0000 1010 0111 1100" (OP_LOGI_DATA_SR LXor)] ++
  per_size (fun z s => with_ea ("0000 0000" +:+ z +:+ "mmm rrr") data_alt (OP_LOGI_DATA_EA LOr s)) ++
  per_size (fun z s => with_ea ("0000 0010" +:+ z +:+ "mmm rrr") data_alt (OP_LOGI_DATA_EA LAnd s)) ++
  per_size (fun z s => with_ea ("0000 1010" +:+ z +:+ "mmm rrr") data_alt (OP_LOGI_DATA_EA LXor s)) ++
  per_size (fun z s => with_ea ("0000 0100" +:+ z +:+ "mmm rrr") data_alt (OP_SUBI_DATA_EA s)) ++
  per_size (fun z s => with_ea ("0000 0110" +:+ z +:+ "mmm rrr") data_alt (OP_ADDI_DATA_EA s)) ++
  per_size (fun z s => with_ea ("0000 1100" +:+ z +:+ "mmm rrr") data_alt (OP_CMPI_DATA_EA s)).

(** BTST also tests PC-relative operands, and with Dn an immediate. *)
Definition bit_modes (b : bitop) (imm : Z) : Z :=
  match b with BTST => set_of [memory_alt; ea_d16_pc; ea_d8_pc_xn; imm] | _ => memory_alt end.
Definition isa_bit : list form :=
  per_bitop (fun z b =>
    [plain ("0000 xxx1" +:+ z +:+ "000 yyy") (OP_BIT_L_DX_DY b);
     with_ea ("0000 xxx1" +:+ z +:+ "mmm rrr") (bit_modes b ea_xxx) (OP_BIT_B_DN_EA b);
     plain ("0000 1000" +:+ z +:+ "000 yyy") (OP_BIT_L_DATA_DN b);
     with_ea ("0000 1000" +:+ z +:+ "mmm rrr") (bit_modes b 0) (OP_BIT_B_DATA_EA b)]) ++
  [plain "0000 xxx1 0000 1yyy" OP_MOVEP_W_D16AY_DX; plain "0000 xxx1 0100 1yyy" OP_MOVEP_L_D16AY_DX;
   plain "0000 xxx1 1000 1yyy" OP_MOVEP_W_DX_D16AY; plain "0000 xxx1 1100 1yyy" OP_MOVEP_L_DX_D16AY].

Definition isa_move : list form :=
  [Form (pattern "0001 rrr mmm mmm rrr") (source B8) data_alt (OP_MOVE_EA_EA B8);
   Form (pattern "0011 rrr mmm mmm rrr") (source B16) data_alt (OP_MOVE_EA_EA B16);
   Form (pattern "0010 rrr mmm mmm rrr") (source B32) data_alt (OP_MOVE_EA_EA B32);
   with_ea "0011 xxx 001 mmm rrr" all_modes (OP_MOVEA_EA_AN B16);
   with_ea "0010 xxx 001 mmm rrr" all_modes (OP_MOVEA_EA_AN B32)].

Definition isa_misc : list form :=
  per_size (fun z s => with_ea ("0100 0000" +:+ z +:+ "mmm rrr") data_alt (OP_NEGX_EA s)) ++
  per_size (fun z s => with_ea ("0100 0010" +:+ z +:+ "mmm rrr") data_alt (OP_CLR_EA s)) ++
  per_size (fun z s => with_ea ("0100 0100" +:+ z +:+ "mmm rrr") data_alt (OP_NEG_EA s)) ++
  per_size (fun z s => with_ea ("0100 0110" +:+ z +:+ "mmm rrr") data_alt (OP_NOT_EA s)) ++
  per_size (fun z s => with_ea ("0100 1010" +:+ z +:+ "mmm rrr") data_alt (OP_TST_EA s)) ++
  [with_ea "0100 0000 11 mmm rrr" data_alt OP_MOVE_W_SR_EA;
   with_ea "0100 0100 11 mmm rrr" data_ OP_MOVE_B_EA_CCR;
   with_ea "0100 0110 11 mmm rrr" data_ OP_MOVE_EA_SR;
   with_ea "0100 1000 00 mmm rrr" data_alt OP_NBCD_B_EA;
   plain "0100 1000 0100 0yyy" OP_SWAP_DN;
   with_ea "0100 1000 01 mmm rrr" control OP_PEA_EA;
   plain "0100 1000 1000 0yyy" OP_EXT_W_DN;
   plain "0100 1000 1100 0yyy" OP_EXT_L_DN;
   with_ea "0100 1000 10 mmm rrr" (Z.lor control_alt ea_min_an) (OP_MOVEM_LIST_EA B16);
   with_ea "0100 1000 11 mmm rrr" (Z.lor control_alt ea_min_an) (OP_MOVEM_LIST_EA B32);
   with_ea "0100 1100 10 mmm rrr" (Z.lor control ea_an_plus) (OP_MOVEM_EA_LIST B16);
   with_ea "0100 1100 11 mmm rrr" (Z.lor control ea_an_plus) (OP_MOVEM_EA_LIST B32);
   with_ea "0100 1010 11 mmm rrr" data_alt OP_TAS_B_EA;
   plain "0100 1110 0100 vvvv" OP_TRAP_VECTOR;
   plain "0100 1110 0101 0yyy" OP_LINK;
   plain "0100 1110 0101 1yyy" OP_UNLK;
   plain "0100 1110 0110 0yyy" OP_MOVE_AN_USP;
   plain "0100 1110 0110 1yyy" OP_MOVE_USP_AN;
   plain "0100 1110 0111 0000" OP_RESET;
   plain "0100 1110 0111 0001" OP_NOP;
   plain "0100 1110 0111 0010" OP_STOP_DATA;
   plain "0100 1110 0111 0011" OP_RTE;
   plain "0100 1110 0111 0101" OP_RTS;
   plain "0100 1110 0111 0110" OP_TRAPV;
   plain "0100 1110 0111 0111" OP_RTR;
   with_ea "0100 1110 10 mmm rrr" control OP_JSR_EA;
   with_ea "0100 1110 11 mmm rrr" control OP_JMP_EA;
   with_ea "0100 xxx1 11 mmm rrr" control OP_LEA_EA_AN;
   with_ea "0100 xxx1 10 mmm rrr" data_ OP_CHK_W_EA_DN].

(** Branch conditions other than F, whose code is that of BSR. *)
Definition bcc_conds : list string :=
  ["0000"; "0010"; "0011"; "0100"; "0101"; "0110"; "0111"; "1000"; "1001"; "1010"; "1011"; "1100";
   "1101"; "1110"; "1111"].

(** The word displacement: a low byte of 00. *)
Definition isa_branch : list form :=
  plain "0110 0001 0000 0000" OP_BSR_W_LABEL ::
  map (fun c => plain ("0110" +:+ c +:+ "0000 0000") OP_BCC_W_DISPLACEMENT) bcc_conds.
(** The byte displacement: any low byte but 00.  (FF, which announces a 32-bit
    displacement from the MC68020 on, is the displacement -1.) *)
Definition isa_branch_byte : list form :=
  plain "0110 0001 dddd dddd" OP_BSR_B_LABEL ::
  map (fun c => plain ("0110" +:+ c +:+ "dddd dddd") OP_BCC_B_DISPLACEMENT) bcc_conds.

Definition isa_quick : list form :=
  per_size (fun z s => with_ea ("0101 ddd0" +:+ z +:+ "mmm rrr") data_alt (OP_ADDQ_DATA_EA s)) ++
  per_size (fun z s => with_ea ("0101 ddd1" +:+ z +:+ "mmm rrr") data_alt (OP_SUBQ_DATA_EA s)) ++
  [plain "0101 ddd0 0100 1yyy" OP_ADDQ_DATA_AN; plain "0101 ddd0 1000 1yyy" OP_ADDQ_DATA_AN;
   plain "0101 ddd1 0100 1yyy" OP_SUBQ_DATA_AN; plain "0101 ddd1 1000 1yyy" OP_SUBQ_DATA_AN;
   plain "0101 cccc 1100 1yyy" OP_DBCC_DN_LABEL;
   with_ea "0101 cccc 11 mmm rrr" data_alt OP_SCC_EA;
   plain "0111 xxx0 dddd dddd" OP_MOVEQ_L_DATA_DN].

Definition isa_arith : list form :=
  per_size (fun z s => with_ea ("1000 xxx0" +:+ z +:+ "mmm rrr") data_ (OP_LOG_EA_DN LOr s)) ++
  per_size (fun z s => with_ea ("1000 xxx1" +:+ z +:+ "mmm rrr") memory_alt (OP_LOG_DN_EA LOr s)) ++
  per_size (fun z s => with_ea ("1100 xxx0" +:+ z +:+ "mmm rrr") data_ (OP_LOG_EA_DN LAnd s)) ++
  per_size (fun z s => with_ea ("1100 xxx1" +:+ z +:+ "mmm rrr") memory_alt (OP_LOG_DN_EA LAnd s)) ++
  per_size (fun z s => with_ea ("1011 xxx1" +:+ z +:+ "mmm rrr") data_alt (OP_LOG_DN_EA LXor s)) ++
  per_size (fun z s => with_ea ("1011 xxx0" +:+ z +:+ "mmm rrr") (source s) (OP_CMP_EA_DN s)) ++
  per_size (fun z s => plain ("1011 xxx1" +:+ z +:+ "001 yyy") (OP_CMPM_AY_AX s)) ++
  per_size (fun z s => with_ea ("1001 xxx0" +:+ z +:+ "mmm rrr") (source s) (OP_SUB_EA_DN s)) ++
  per_size (fun z s => with_ea ("1001 xxx1" +:+ z +:+ "mmm rrr") memory_alt (OP_SUB_DN_EA s)) ++
  per_size (fun z s => plain ("1001 xxx1" +:+ z +:+ "000 yyy") (OP_SUBX_DX_DY s)) ++
  per_size (fun z s => plain ("1001 xxx1" +:+ z +:+ "001 yyy") (OP_SUBX_AX_AY s)) ++
  per_size (fun z s => with_ea ("1101 xxx0" +:+ z +:+ "mmm rrr") (source s) (OP_ADD_EA_DN s)) ++
  per_size (fun z s => with_ea ("1101 xxx1" +:+ z +:+ "mmm rrr") memory_alt (OP_ADD_DN_EA s)) ++
  per_size (fun z s => plain ("1101 xxx1" +:+ z +:+ "000 yyy") (OP_ADDX_DY_DX s)) ++
  per_size (fun z s => plain ("1101 xxx1" +:+ z +:+ "001 yyy") (OP_ADDX_AY_AX s)) ++
  [with_ea "1001 xxx0 11 mmm rrr" all_modes (OP_SUBA_EA_AN B16);
   with_ea "1001 xxx1 11 mmm rrr" all_modes (OP_SUBA_EA_AN B32);
   with_ea "1101 xxx0 11 mmm rrr" all_modes (OP_ADDA_EA_AN B16);
   with_ea "1101 xxx1 11 mmm rrr" all_modes (OP_ADDA_EA_AN B32);
   with_ea "1011 xxx0 11 mmm rrr" all_modes (OP_CMPA_EA_AN B16);
   with_ea "1011 xxx1 11 mmm rrr" all_modes (OP_CMPA_EA_AN B32);
   with_ea "1000 xxx0 11 mmm rrr" data_ OP_DIVU_W_EA_DN;
   with_ea "1000 xxx1 11 mmm rrr" data_ OP_DIVS_W_EA_DN;
   with_ea "1100 xxx0 11 mmm rrr" data_ OP_MULU_W_EA_DN;
   with_ea "1100 xxx1 11 mmm rrr" data_ OP_MULS_W_EA_DN;
   plain "1000 xxx1 0000 0yyy" OP_SBCD_DX_DY; plain "1000 xxx1 0000 1yyy" OP_SBCD_AX_AY;
   plain "1100 xxx1 0000 0yyy" OP_ABCD_DY_DX; plain "1100 xxx1 0000 1yyy" OP_ABCD_AY_AX;
   plain "1100 xxx1 0100 0yyy" OP_EXG_DX_DY; plain "1100 xxx1 0100 1yyy" OP_EXG_AX_AY;
   plain "1100 xxx1 1000 1yyy" OP_EXG_DX_AY].

Definition isa_shift : list form :=
  List.concat (map (fun '(k, r, l) =>
    (per_size (fun z s => plain ("1110 ccc0" +:+ z +:+ "0" +:+ k +:+ "yyy") (OP_SHIFT_DATA_DY r s)) ++
    per_size (fun z s => plain ("1110 ccc1" +:+ z +:+ "0" +:+ k +:+ "yyy") (OP_SHIFT_DATA_DY l s)) ++
    per_size (fun z s => plain ("1110 xxx0" +:+ z +:+ "1" +:+ k +:+ "yyy") (OP_SHIFT_DX_DY r s)) ++
    per_size (fun z s => plain ("1110 xxx1" +:+ z +:+ "1" +:+ k +:+ "yyy") (OP_SHIFT_DX_DY l s)) ++
    [with_ea ("1110 0" +:+ k +:+ "0 11 mmm rrr") memory_alt (OP_SHIFT_W_EA r);
     with_ea ("1110 0" +:+ k +:+ "1 11 mmm rrr") memory_alt (OP_SHIFT_W_EA l)])%list) shifts).

Definition isa_lines : list form :=
  [plain "1010 nnnn nnnn nnnn" OP_ATRAP; plain "1111 nnnn nnnn nnnn" OP_FTRAP].

#[local] Close Scope string_scope.

(** All forms. *)
Definition isa : list form :=
  isa_immediate ++ isa_bit ++ isa_move ++ isa_misc ++ isa_quick ++ isa_branch ++ isa_arith ++
  isa_shift ++ isa_lines.

(** The forms by bits 15-12, as in the manual's operation-code map. *)
Definition line_of (n : Z) (f : form) : bool := Z.shiftr (fixed f).2 12 =? n.
Definition isa_map : list (list form) :=
  Eval vm_compute in map (fun n => filter (fun f => line_of n f = true) isa) (seqZ 0 16).
Definition isa_line (opcode : Z) : list form := nth (Z.to_nat (Z.shiftr opcode 12)) isa_map [].
Definition isa_bytes : list form := Eval vm_compute in isa_branch_byte.

(** The instructions an opcode word can denote; the byte branches are what is
    left of line 6 when the low byte announces no extension word. *)
Definition matching (opcode : Z) (l : list form) : list op :=
  fold_right (fun f acc => if form_matches opcode f then macro f :: acc else acc) [] l.
Definition isa_lookup (opcode : Z) : list op :=
  match matching opcode (isa_line opcode) with
  | [] => if Z.shiftr opcode 12 =? 6 then matching opcode isa_bytes else []
  | l => l
  end.

(** ** The decoder against the map *)

(** Where the decoder departs from the map: it takes a branch with the byte
    FF for the 32-bit form of the MC68020. *)
Definition as_decoded (opcode : Z) (o : op) : op :=
  match o with
  | OP_BSR_B_LABEL => if Z.land opcode 0xFF =? 0xFF then OP_BSR_L_LABEL else o
  | OP_BCC_B_DISPLACEMENT => if Z.land opcode 0xFF =? 0xFF then OP_BCC_L_DISPLACEMENT else o
  | _ => o
  end.

(** The check made for each opcode word. *)
Definition agrees (opcode : Z) : bool :=
  match isa_lookup opcode, decode opcode 0 with
  | [o], Some o' =>
      if decide (o' = as_decoded opcode o) then
        if decide (o' = OP_UNDEFINED) then false else ea_legal o' opcode
      else false
  | [], Some o' => match o' with OP_UNDEFINED => true | _ => negb (ea_legal o' opcode) end
  | _, _ => false
  end.

Lemma decode_agrees : forall_bits 16 0 agrees = true.
Proof. vm_cast_no_check (@eq_refl bool true). Qed.

(** MOVES, the only instruction told apart by its extension word, is a 68010
    instruction. *)
Lemma decode_ext opcode ext : decode opcode ext = decode opcode 0.
Proof.
  assert (forall b, (if b : bool then OP_UNDEFINED else OP_UNDEFINED) = OP_UNDEFINED) as E by by intros [].
  unfold decode, decode_0. by rewrite !E.
Qed.

(** [runs opcode ext]: executing the opcode never takes the way out of an
    illegal instruction, which is the [continue] of VALIDATE_EA and of
    OP_UNDEFINED, whatever the state and the bus. *)
Definition runs (opcode ext : Z) : Prop :=
  forall (B : Type) (HB : Bus B) (s : machine B), (exec opcode ext s).1 <> Continue.
(** [refused opcode ext]: executing it is the illegal instruction exception
    and nothing else. *)
Definition refused (opcode ext : Z) : Prop :=
  forall (B : Type) (HB : Bus B) (s : machine B), exec opcode ext s = illegal s.

(** C1: the decoder of cpu_decode.h, as compiled for the 68000, against the
    MC68000 operation-code map.  Every opcode word is one instruction form of
    the map or none.  A word that is a form (its addressing mode included) is
    decoded as the macro of that form, and the macro runs in every state, on
    every bus, without ever taking the illegal instruction exit; the one
    departure are the branches with the displacement byte FF, a byte
    displacement of -1 in the map, which are decoded as the 68020's long
    branches (a finding).  A word that is no form is an illegal instruction
    exception and nothing else, for every extension word. *)
Theorem decode_isa opcode ext : in_width 16 opcode ->
  match isa_lookup opcode with
  | [o] => decode opcode ext = Some (as_decoded opcode o) /\ runs opcode ext
  | [] => refused opcode ext
  | _ => False
  end.
Proof.
  intros Hop. pose proof (forall_bits_width 16 agrees opcode decode_agrees Hop) as E.
  unfold agrees in E. unfold runs, refused, exec. rewrite decode_ext.
  destruct (isa_lookup opcode) as [|o [|]], (decode opcode 0) as [o'|]; try done.
  - intros B ? s. destruct (ea_legal o' opcode) eqn:El; [by destruct o'|by apply exec_op_illegal].
  - destruct (decide (o' = _)) as [<-|]; [|done]. destruct (decide _) as [|Hu]; [done|].
    split; [done|]. intros B ? s.
    pose proof (exec_op_ends false true o' opcode ltac:(by left) ltac:(by right) s) as He.
    by destruct (exec_op o' opcode s) as [[] ?].
Qed.

(** MOVE.B (A0)+,D1 is a form; ORI.B #,A0 is none. *)
Lemma decode_isa_witness :
  (isa_lookup 0x1218 = [OP_MOVE_EA_EA B8] /\ decode 0x1218 0 = Some (OP_MOVE_EA_EA B8) /\ runs 0x1218 0) /\
  (isa_lookup 0x0008 = [] /\ refused 0x0008 0).
Proof.
  split; (split; [vm_compute; reflexivity|]).
  - apply (decode_isa 0x1218 0). by split.
  - apply (decode_isa 0x0008 0). by split.
Defined.

(** BRA with the byte FF branches to an odd address on an MC68000; here it
    reads a 32-bit displacement. *)
Example long_branch_decoded :
  isa_lookup 0x60FF = [OP_BCC_B_DISPLACEMENT] /\ decode 0x60FF 0 = Some OP_BCC_L_DISPLACEMENT.
Proof. by vm_compute. Qed.
