(* ===== verification/CpuRun.v ===== *)
(** * The 68000 decoder loop

    cpu_run_68000: the decoder of cpu_decode.h between the prologue and the
    epilogue that cpu_68000.c gives it. *)
From S2P Require Import Prelude Bus FlatBus CpuState CpuAlu CpuMachine CpuExc CpuOps CpuDecode CpuStays.
From S2P Require Import CpuDefined.

Section Run.
Context {B : Type} `{Bus B}.
#[local] Abbreviation MM := (M (machine B)).

(** The head of the loop body: fetch, latch the instruction register,
    advance the PC, count the instruction. *)
Definition fetch_instruction : MM (Z * Z) :=
  modc (fun c => set_pc (Z.land (pc c) 0x00FFFFFF) c);;
  p ← getc pc;
  fetch ← mem_read B32 p;
  let opcode := u16 (Z.shiftr fetch 16) in
  let ext_word := Z.land fetch 0xFFFF in
  modc (fun c => set_instruction_pc (pc c) c);;
  faulted ← pending;
  when (negb faulted) (modc (fun c => set_ir_pc (instruction_pc c) (set_ir opcode c)));;
  c ← getc id;
  when (negb (last_bus_error_pc c =? 0) && negb (truthy (supervisor c)) &&
        negb (last_bus_error_pc c =? pc c))
    (modc (set_last_bus_error_pc 0));;
  modc (fun c => set_pc (pc c + 2) c);;
  n ← getb instructions;
  when (0 <? n) (modb (set_instructions (n - 1)));;
  mret (opcode, ext_word).

(** One iteration of the loop. *)
Definition instruction : MM unit :=
  '(opcode, ext_word) ← fetch_instruction; exec opcode ext_word.

(** while ( *instructions > 0); both falling out of the switch and
    [continue] go back to the test.  [None]: out of fuel. *)
Fixpoint run_loop (fuel : nat) (s : machine B) : option (outcome unit * machine B) :=
  if 0 <? instructions (bus s) then
    match fuel with
    | O => None
    | S fuel =>
        match instruction s with
        | (Undefined, s') => Some (Undefined, s')
        | (_, s') => run_loop fuel s'
        end
    end
  else Some (Ret tt, s).

(** The deferred data bus error of the last instruction. *)
Definition deliver_bus_error : MM unit :=
  p ← pending;
  when p
    (modb clear_bus_error;;
     modc (fun c => set_pc (instruction_pc c + 2) c);;
     b ← getb id;
     exception_bus_error (bus_error_address b) (bus_error_rw b);;
     c ← getc id; modb (set_active (truthy (supervisor c)))).

(** A failed assertion is as undefined as the C standard leaves it with NDEBUG. *)
Definition assert_drained : MM unit :=
  n ← getb instructions; if n =? 0 then mret tt else undefined.

Definition epilogue : MM unit := deliver_bus_error;; cpu_check_interrupt;; assert_drained.

Definition cpu_run_68000 (fuel : nat) (s : machine B) : option (outcome unit * machine B) :=
  match cpu_check_interrupt s with
  | (Ret _, s) =>
      match run_loop fuel s with
      | Some (Ret _, s) => Some (epilogue s)
      | r => r
      end
  | r => Some r
  end.
End Run.

(** ** Sprint accounting *)

(** What one step of the interpreter may do to the sprint: the budget never
    grows, and a bus error raised here empties it. *)
Record sprint_step {B} `{Bus B} (s s' : machine B) : Prop := {
  sprint_budget : instructions (bus s') <= instructions (bus s);
  sprint_raise : bus_error_pending (bus s') = true ->
                 bus_error_pending (bus s) = true \/ instructions (bus s') = 0;
}.

Section Sprint.
Context {B : Type} `{BusLaws B}.
Implicit Types s : machine B.

#[global] Instance sprint_step_preorder : PreOrder (@sprint_step B _).
Proof.
  split.
  - intros s. split; auto; lia.
  - intros s1 s2 s3 [] []. pose proof (instructions_range (bus s3)) as []. split; [lia|].
    intros. destruct sprint_raise1; [done| |by right].
    destruct sprint_raise0; [done|by left|right; lia].
Qed.

Lemma sprint_bus s b : bus_step (bus s) b -> sprint_step s (set_bus b s).
Proof. intros []. by split. Qed.

(** Every primitive step keeps the sprint accounts. *)
Lemma sprint_system : system_steps (@sprint_step B _).
Proof.
  split; intros; intros st.
  - split; simpl; auto; lia.
  - unfold final, mem_read. pose proof (read_step s (u32 x) (bus st)) as Hs.
    destruct (memory_read _ _ _). by apply sprint_bus.
  - apply sprint_bus, write_step.
  - apply sprint_bus, set_active_step.
  - apply sprint_bus, snapshot_step.
  - apply sprint_bus, reset_step.
  - split; simpl; rewrite ?clear_instructions, ?clear_pending; done.
  - split; simpl; rewrite set_instructions_get by done; [apply instructions_range|by right].
  - split; simpl; auto; lia.
Qed.

Lemma sprint_instruction : instruction_steps (@sprint_step B _) (@sprint_step B _).
Proof.
  pose proof sprint_system as HS. split; intros.
  - apply sys_modc; [done|apply H1].
  - by apply sys_read.
  - by apply sys_write.
  - apply stays_bind; [apply _|apply stays_gets; apply _|].
    intros sv. destruct (truthy sv); [done|]. by apply stays_raise; [apply _|].
  - by apply stays_raise; [apply _|].
  - by apply stays_illegal_instruction; [apply _|].
  - by apply stays_f_trap; [apply _|].
Qed.

Lemma sprint_exec opcode ext : stays (@sprint_step B _) (exec opcode ext).
Proof. apply (stays_exec sprint_step sprint_step); [apply _..|apply sprint_system|apply sprint_instruction]. Qed.

(** The fetch always yields an opcode word, and charges the instruction. *)
Lemma fetch_bus s :
  exists opcode ext s', fetch_instruction s = (Ret (opcode, ext), s') /\ in_width 16 opcode /\
    let b := (memory_read B32 (Z.land (pc (cpu s)) 0x00FFFFFF) (bus s)).2 in
    bus s' = (if 0 <? instructions b then set_instructions (instructions b - 1) b else b).
Proof.
  unfold fetch_instruction, mem_read.
  unfold mbind, M_bind, getc, gets, modc, modify, pending, getb, modb, mret, M_ret. simpl.
  assert (u32 (u32 (Z.land (pc (cpu s)) 0x00FFFFFF)) = Z.land (pc (cpu s)) 0x00FFFFFF) as ->.
  { unfold u32. rewrite wrap_wrap by done. apply wrap_small.
    pose proof (land_width 24 (pc (cpu s)) 0x00FFFFFF ltac:(lia) ltac:(by split)) as [].
    unfold in_width in *. pow2. lia. }
  destruct (memory_read B32 _ (bus s)) as [v b] eqn:E. simpl.
  exists (u16 (Z.shiftr v 16)), (Z.land v 0xFFFF).
  destruct (bus_error_pending b); simpl;
  match goal with |- context [when ?c _] => destruct c end; simpl;
  destruct (0 <? instructions b); eexists; (split; [reflexivity|]); (split; [apply u16_range|done]).
Qed.

Lemma fetch_step s :
  exists opcode ext s', fetch_instruction s = (Ret (opcode, ext), s') /\ in_width 16 opcode /\
    sprint_step s s' /\ (0 < instructions (bus s) -> instructions (bus s') < instructions (bus s)).
Proof.
  destruct (fetch_bus s) as (opcode & ext & s' & E & Hop & Hb). exists opcode, ext, s'.
  split; [done|]. split; [done|]. simpl in Hb.
  pose proof (read_step B32 (Z.land (pc (cpu s)) 0x00FFFFFF) (bus s)) as [].
  set (b := (memory_read _ _ _).2) in *. pose proof (instructions_range b) as [].
  rewrite Hb. destruct (Z.ltb_spec 0 (instructions b)).
  - rewrite set_instructions_get by (unfold in_width; lia). split; [|lia].
    split; rewrite Hb, set_instructions_get by (unfold in_width; lia); [lia|].
    rewrite set_instructions_pending. intros. destruct step_raise; [done|by left|lia].
  - split; [|lia]. split; rewrite Hb; auto; lia.
Qed.

(** One instruction consumes budget, whatever it does. *)
Lemma instruction_step s :
  sprint_step s (instruction s).2 /\
  (0 < instructions (bus s) -> instructions (bus (instruction s).2) < instructions (bus s)).
Proof.
  destruct (fetch_step s) as (opcode & ext & s' & E & _ & Hs & Hlt).
  unfold instruction, mbind, M_bind. rewrite E.
  pose proof (sprint_exec opcode ext s') as He. unfold final in He.
  split; [by transitivity s'|]. intros. destruct He. specialize (Hlt ltac:(done)). lia.
Qed.

(** The loop terminates within the budget; it stops with the budget spent. *)
Lemma run_loop_total fuel s :
  instructions (bus s) <= Z.of_nat fuel ->
  exists o s', run_loop fuel s = Some (o, s') /\ sprint_step s s' /\
    ((o = Ret tt /\ instructions (bus s') = 0) \/
     (o = Undefined /\ exists opcode ext s1, exec opcode ext s1 = (Undefined, s'))).
Proof.
  revert s. induction fuel as [|fuel IH]; intros s Hf; simpl.
  - pose proof (instructions_range (bus s)) as []. destruct (Z.ltb_spec 0 (instructions (bus s))); [lia|].
    exists (Ret tt), s. repeat split; auto; [lia|]. left. split; [done|lia].
  - destruct (Z.ltb_spec 0 (instructions (bus s))) as [Hpos|].
    2:{ pose proof (instructions_range (bus s)) as [].
        exists (Ret tt), s. repeat split; auto; [lia|]. left. split; [done|lia]. }
    destruct (instruction_step s) as [Hs Hlt]. specialize (Hlt Hpos).
    destruct (instruction s) as [o s'] eqn:E. simpl in *.
    destruct o as [[]| |].
    1,2: destruct (IH s') as (o & s2 & Er & Hs2 & Ho); [lia|];
         exists o, s2; split; [done|]; split; [by transitivity s'|done].
    exists Undefined, s'. split; [done|]. split; [done|]. right. split; [done|].
    destruct (fetch_step s) as (opcode & ext & s1 & Ef & _).
    unfold instruction, mbind, M_bind in E. rewrite Ef in E. eauto.
Qed.

(** A system routine that always returns, as a state function. *)
Lemma ends_final (m : M (machine B) unit) s : ends false false m -> m s = (Ret tt, final m s).
Proof.
  intros Hm. specialize (Hm s). unfold final. by destruct (m s) as [[[]| |] ?].
Qed.

Lemma ends_deliver : ends false false (@deliver_bus_error B _).
Proof.
  unfold deliver_bus_error. ends_tac. apply ends_bus_error.
Qed.
Lemma sprint_deliver : stays (@sprint_step B _) deliver_bus_error.
Proof.
  pose proof sprint_system as HS. unfold deliver_bus_error. stays_tac.
  - by apply sys_clear.
  - apply sys_modc; [done|wf_tac].
  - by apply stays_bus_error; [apply _|].
  - by apply sys_active.
Qed.

(** The epilogue runs on a drained budget and its assertion holds. *)
Lemma epilogue_total s : instructions (bus s) = 0 ->
  exists s', epilogue s = (Ret tt, s') /\ instructions (bus s') = 0.
Proof.
  intros E. unfold epilogue, mbind, M_bind.
  rewrite (ends_final _ s ends_deliver).
  rewrite (ends_final _ _ (ends_check_interrupt false false)).
  set (s1 := final deliver_bus_error s). set (s2 := final cpu_check_interrupt s1).
  exists s2. assert (instructions (bus s2) = 0) as E2.
  { destruct (sprint_deliver s) as [? _].
    destruct (stays_check_interrupt _ sprint_system s1) as [? _].
    pose proof (instructions_range (bus s2)) as []. subst s1 s2. lia. }
  split; [|done]. unfold assert_drained, mbind, M_bind, getb, gets. simpl. by rewrite E2.
Qed.

(** C34: a sprint terminates within its instruction budget, whatever the
    memory layer returns, charges or faults: a fuel of as many iterations as
    there are instructions is enough, and the function returns with the budget
    exactly spent, so that its closing assertion holds; the only other
    outcome is that a DIVS.W or an ASL executed an undefined C expression. *)
Theorem cpu_run_68000_total fuel s : instructions (bus s) <= Z.of_nat fuel ->
  exists o s', cpu_run_68000 fuel s = Some (o, s') /\
    ((o = Ret tt /\ instructions (bus s') = 0) \/
     (o = Undefined /\ exists opcode ext s1 i, exec opcode ext s1 = (Undefined, s') /\
        decode opcode ext = Some i /\ may_be_undefined i = true)).
Proof.
  intros Hf. unfold cpu_run_68000. rewrite (ends_final _ s (ends_check_interrupt false false)).
  destruct (stays_check_interrupt _ sprint_system s) as [Hb _].
  destruct (run_loop_total fuel (final cpu_check_interrupt s)) as (o & s1 & -> & _ & [[-> E]|[-> Hu]]); [lia|..].
  - destruct (epilogue_total s1 E) as (s' & -> & E'). eauto 8.
  - exists Undefined, s1. split; [done|]. right. split; [done|].
    destruct Hu as (opcode & ext & s0 & Hx). exists opcode, ext, s0. revert Hx. unfold exec.
    destruct (decode opcode ext) as [i|]; [|done]. intros Hx. exists i. split; [done|]. split; [done|].
    destruct (may_be_undefined i) eqn:Em; [done|].
    pose proof (exec_op_ends true false i opcode ltac:(by right) ltac:(by left) s0) as He. by rewrite Hx in He.
Qed.

(** An access that faults ends the sprint at its own instruction: if the
    instruction at the head of the loop raises a bus error that was not
    pending before, no further instruction runs, and the loop hands the state
    that instruction left, error still pending, to the epilogue. *)
Theorem fault_ends_sprint fuel s o s' :
  0 < instructions (bus s) -> bus_error_pending (bus s) = false ->
  instruction s = (o, s') -> bus_error_pending (bus s') = true -> o <> Undefined ->
  run_loop (S fuel) s = Some (Ret tt, s').
Proof.
  intros Hpos Hp E Hp' Ho. destruct (instruction_step s) as [[_ Hraise] _]. rewrite E in Hraise.
  destruct (Hraise Hp') as [|Hz]; [congruence|]. simpl in Hz.
  cbn [run_loop]. rewrite (proj2 (Z.ltb_lt _ _) Hpos), E.
  destruct o; [..|done]; destruct fuel; simpl; by rewrite Hz.
Qed.
End Sprint.

(** ** The CPU state stays well formed *)
Section WellFormed.
Context {B : Type} `{Bus B}.
Implicit Types s : machine B.

Definition keeps_wf s s' : Prop := cpu_wf (cpu s) -> cpu_wf (cpu s').
#[global] Instance keeps_wf_preorder : PreOrder keeps_wf.
Proof. split; unfold keeps_wf; [by intros s|naive_solver]. Qed.

Lemma wf_system : system_steps keeps_wf.
Proof.
  split; intros; intros st; unfold keeps_wf; try done.
  - apply H0.
  - unfold final, mem_read. by destruct (memory_read _ _ _).
Qed.
Lemma wf_instruction : instruction_steps keeps_wf keeps_wf.
Proof.
  pose proof wf_system as HS. split; intros.
  - apply sys_modc; [done|apply H0].
  - by apply sys_read.
  - by apply sys_write.
  - apply stays_bind; [apply _|apply stays_gets; apply _|].
    intros sv. destruct (truthy sv); [done|]. by apply stays_raise; [apply _|].
  - by apply stays_raise; [apply _|].
  - by apply stays_illegal_instruction; [apply _|].
  - by apply stays_f_trap; [apply _|].
Qed.

End WellFormed.

(** A machine whose next instruction is MOVE.L $2000000,D0 (outside the RAM). *)
Definition faulting_machine : machine flat_t :=
  mk_machine (set_pc 0x400 (cpu_init CPU_MODEL_68000))
    (mk_flat (list_to_map [(0x400, 0x20); (0x401, 0x39); (0x402, 0x02)]) false 0 false 10) [].

Lemma cpu_run_68000_total_witness :
  exists o s', cpu_run_68000 10 faulting_machine = Some (o, s') /\
    ((o = Ret tt /\ instructions (bus s') = 0) \/
     (o = Undefined /\ exists opcode ext s1 i, exec opcode ext s1 = (Undefined, s') /\
        decode opcode ext = Some i /\ may_be_undefined i = true)).
Proof. apply (cpu_run_68000_total 10 faulting_machine). done. Defined.

Lemma fault_ends_sprint_witness :
  run_loop 3 faulting_machine = Some (Ret tt, (instruction faulting_machine).2).
Proof.
  apply (fault_ends_sprint 2 faulting_machine (Ret tt)); vm_compute; done.
Defined.

Lemma cpu_init_wf model : cpu_wf (cpu_init model).
Proof. split; simpl; repeat constructor; done. Qed.
