(* ===== verification/CpuUser.v ===== *)
(** * User mode

    A program in user mode cannot change the privileged state of the CPU: it
    can only raise an exception. *)
From S2P Require Import Prelude Bus FlatBus CpuState CpuAlu CpuMachine CpuExc CpuOps CpuDecode CpuIsa.
From S2P Require Import CpuStays CpuDefined CpuRun.

Section User.
Context {B : Type} `{Bus B}.
Implicit Types s : machine B.

(** The exception trace only grows. *)
Definition grows s s' : Prop := exists l, exc_trace s' = l ++ exc_trace s.
#[global] Instance grows_preorder : PreOrder grows.
Proof.
  split.
  - intros s. by exists [].
  - intros s1 s2 s3 [l1 E1] [l2 E2]. exists (l2 ++ l1). by rewrite E2, E1, app_assoc.
Qed.

Lemma grows_system : system_steps grows.
Proof.
  split; intros; intros st; try (by exists []).
  - unfold final, mem_read. destruct (memory_read _ _ _). by exists [].
  - by exists [e].
Qed.

(** [records m]: [m] takes an exception. *)
Definition took_exception s s' : Prop := exists e l, exc_trace s' = e :: l ++ exc_trace s.
Definition records {A} (m : M (machine B) A) : Prop := forall s, took_exception s (final m s).

Lemma records_here {A} (m : M (machine B) unit) (f : unit -> M (machine B) A) :
  records m -> (forall a, stays grows (f a)) -> records (m ≫= f).
Proof.
  intros Hm Hf s. specialize (Hm s). unfold final in *. unfold mbind, M_bind.
  destruct (m s) as [[a| |] s']; simpl in *; [|done..].
  destruct Hm as (e & l & E). destruct (Hf a s') as [l' E']. unfold took_exception.
  change (f a s').2 with (final (f a) s'). rewrite E', E. destruct l' as [|e' l']; [by exists e, l|].
  exists e', (l' ++ e :: l). simpl. by rewrite <-app_assoc.
Qed.
Lemma records_later {A C} (m : M (machine B) A) (f : A -> M (machine B) C) :
  ends false false m -> stays grows m -> (forall a, records (f a)) -> records (m ≫= f).
Proof.
  intros He Hm Hf s. specialize (He s). specialize (Hm s). unfold final in *. unfold mbind, M_bind.
  destruct (m s) as [[a| |] s']; simpl in *; [|done..].
  destruct Hm as [l E]. destruct (Hf a s') as (e & l' & E'). unfold took_exception.
  change (f a s').2 with (final (f a) s'). rewrite E', E. exists e, (l' ++ l). by rewrite app_assoc.
Qed.
Lemma records_leaf e : records (exc_trace_record e).
Proof. intros s. by exists e, []. Qed.

#[local] Hint Resolve sys_modc sys_read sys_write sys_active sys_snapshot sys_reset sys_clear
  sys_instructions sys_trace stays_putA stays_enter_supervisor stays_formatB stays_push
  stays_double_fault grows_system : stays.
#[local] Hint Resolve ends_enter_supervisor ends_formatB ends_mem_read : ends.

(** Follows the program until the record that every path ends with. *)
Ltac records_tac :=
  repeat match goal with
  | |- records (exc_trace_record _) => apply records_leaf
  | |- records (mbind _ _) => apply records_later; [ends_tac; fail|stays_tac; fail|intros]
  | |- records (let _ := _ in _) => cbv zeta
  | |- records (match ?x with _ => _ end) => destruct x
  end.

Lemma records_double_fault e : records (double_fault e).
Proof. unfold double_fault. records_tac. Qed.
Ltac records_df := records_tac; match goal with
  | |- records (double_fault _) => apply records_double_fault
  | _ => idtac end.
Lemma records_group0 fpc spc fa rw sr m :
  ends false false m -> stays grows m -> records (group0_frame fpc spc fa rw sr m).
Proof. intros. unfold group0_frame. records_df. Qed.
Lemma records_bus_error fa rw : records (exception_bus_error fa rw).
Proof.
  unfold exception_bus_error. records_df. apply records_group0; [ends_tac|stays_tac].
Qed.
Lemma records_bus_error_retry fa rw : records (exception_bus_error_retry fa rw).
Proof.
  unfold exception_bus_error_retry. records_df. apply records_group0; [ends_tac|stays_tac].
Qed.
Lemma records_exception v p sr : v <> 0x008 -> records (exception v p sr).
Proof.
  intros Hv. unfold exception. apply records_later; [ends_tac|stays_tac|]. intros c.
  rewrite (proj2 (Z.eqb_neq v 8) Hv). apply records_here; [apply records_leaf|stays_tac].
Qed.
Lemma records_raise v p : v <> 0x008 -> records (raise v p).
Proof.
  intros Hv. apply records_later; [ends_tac|stays_tac|]. intros c. by apply records_exception.
Qed.
Lemma records_illegal : records illegal_instruction.
Proof. apply records_later; [ends_tac|stays_tac|]. intros c. by apply records_exception. Qed.
Lemma records_f_trap : records f_trap.
Proof.
  unfold f_trap. records_tac; match goal with
  | |- records (exception_bus_error _ _) => apply records_bus_error
  | |- records (exception_bus_error_retry _ _) => apply records_bus_error_retry
  | |- records (raise _ _) => by apply records_raise
  end.
Qed.

(** User-mode containment as a relation between states. *)
Record contained s s' : Prop := {
  contained_grows : grows s s';
  contained_kept : supervisor (cpu s) = 0 -> exc_trace s' = exc_trace s ->
                   privileged_state (cpu s') = privileged_state (cpu s);
}.
Lemma grows_same s1 s2 s3 : grows s1 s2 -> grows s2 s3 -> exc_trace s3 = exc_trace s1 ->
  exc_trace s2 = exc_trace s1.
Proof.
  intros [l1 E1] [l2 E2] E. rewrite E2, E1, app_assoc in E.
  apply (f_equal length) in E. rewrite !length_app in E.
  rewrite E1. by destruct l1; [|simpl in E; lia].
Qed.
#[global] Instance contained_preorder : PreOrder contained.
Proof.
  split.
  - intros s. by split.
  - intros s1 s2 s3 [Hg1 Hk1] [Hg2 Hk2]. split; [by transitivity s2|]. intros Hu E.
    pose proof (grows_same s1 s2 s3 Hg1 Hg2 E) as E2. specialize (Hk1 Hu E2).
    rewrite <-Hk1. apply Hk2; [|congruence].
    unfold privileged_state in Hk1. by inversion Hk1; congruence.
Qed.

Lemma contained_records {A} (m : M (machine B) A) : records m -> stays contained m.
Proof.
  intros Hm s. destruct (Hm s) as (e & l & E). split; [by exists (e :: l)|].
  intros _ E'. rewrite E' in E. apply (f_equal length) in E.
  rewrite length_cons, length_app in E. lia.
Qed.

Lemma contained_instruction : instruction_steps contained grows.
Proof.
  split; intros.
  - intros s. split; [by exists []|]. intros _ _. apply H0.
  - intros st. unfold final, mem_read. destruct (memory_read _ _ _). by split; [exists []|].
  - intros st. by split; [exists []|].
  - intros s. unfold SUPER, final, mbind, M_bind, getc, gets.
    destruct (truthy (supervisor (cpu s))) eqn:E.
    + split; [apply H0|]. intros Hu. by rewrite Hu in E.
    + by apply contained_records, records_raise.
  - by apply contained_records, records_raise.
  - apply contained_records, records_illegal.
  - apply contained_records, records_f_trap.
Qed.

(** C15: user-mode containment.  Whatever opcode a user-mode program executes,
    on whatever bus, either the instruction takes an exception, or it leaves
    the supervisor bit, the interrupt mask and level, the trace bits, all three
    shadow stack pointers, the vector base, the STOP and HALT states and the
    fault bookkeeping of the CPU exactly as they were. *)
Theorem user_mode_contained opcode ext s : supervisor (cpu s) = 0 ->
  let s' := final (exec opcode ext) s in
  took_exception s s' \/ privileged_state (cpu s') = privileged_state (cpu s).
Proof.
  intros Hu s'. destruct (stays_exec contained grows grows_system contained_instruction opcode ext s)
    as [[l E] Hk].
  destruct l as [|e l]; [right; by apply Hk|left; by exists e, l].
Qed.

(** The privileged instructions of the MC68000. *)
Definition privileged (o : op) : bool :=
  match o with
  | OP_LOGI_DATA_SR _ | OP_MOVE_EA_SR | OP_RESET | OP_STOP_DATA | OP_RTE | OP_MOVE_AN_USP
  | OP_MOVE_USP_AN => true
  | _ => false
  end.

(** A privileged instruction in user mode does nothing but take the
    privilege violation exception: with a legal addressing mode its macro is
    exactly privilege_violation. *)
Theorem privileged_traps o opcode s :
  privileged o = true -> ea_legal o opcode = true -> supervisor (cpu s) = 0 ->
  exec_op o opcode s = privilege_violation s /\ took_exception s (final privilege_violation s).
Proof.
  intros Hp Hl Hu. split; [|by apply records_raise].
  assert (forall x, SUPER x s = privilege_violation s) as Hs.
  { intros x. unfold SUPER, mbind, M_bind, getc, gets. by rewrite Hu. }
  destruct o; try discriminate Hp; try apply Hs.
  apply andb_true_iff in Hl as [Hl _]. simpl in Hl.
  unfold exec_op, VALID_EA, VALIDATE_EA. rewrite Hl. apply Hs.
Qed.
End User.

(** A user-mode machine. *)
Definition user_machine : machine flat_t :=
  mk_machine (set_supervisor 0 (set_pc 0x402 (cpu_init CPU_MODEL_68000))) (mk_flat ∅ false 0 false 10) [].

Lemma user_mode_contained_witness :
  let s' := final (exec 0x4E73 0) user_machine in
  took_exception user_machine s' \/
  privileged_state (cpu s') = privileged_state (cpu user_machine).
Proof. apply (user_mode_contained 0x4E73 0 user_machine). reflexivity. Defined.

Lemma privileged_traps_witness :
  exec_op OP_MOVE_EA_SR 0x46C0 user_machine = privilege_violation user_machine /\
  took_exception user_machine (final privilege_violation user_machine).
Proof. apply (privileged_traps OP_MOVE_EA_SR 0x46C0 user_machine); reflexivity. Defined.
