(* ===== verification/CpuFrame.v ===== *)
(** * Exception frames

    The banked stack pointers as a pair and the state that a write to the status
    register leaves; theorems on the exception sequence of the 68000, the RTE
    that undoes it and interrupt acceptance, on a bus whose stack and vectors are
    plain RAM. *)
From S2P Require Import Prelude Bus FlatBus CpuState CpuAlu CpuMachine CpuExc CpuOps CpuDecode.
From S2P Require Import CpuStays CpuDefined CpuRun.

(** Evaluates the primitive steps of a computation. *)
Ltac mrun := unfold mbind, M_bind, getc, modc, getb, modb, gets, modify, getD, getA, putD, putA,
  pending, when, mret, M_ret, exc_trace_record, mem_write; cbn.

Lemma bind_ret {S A C} (m : M S A) (f : A -> M S C) s x s' :
  m s = (Ret x, s') -> (m ≫= f) s = f x s'.
Proof. intros E. unfold mbind, M_bind. by rewrite E. Qed.

(** ** The two stack pointers

    [a[7]] is the active one; the other is parked in usp or ssp. *)
Definition super_sp (c : cpu_t) : Z := if truthy (supervisor c) then get_a 7 c else ssp c.
Definition user_sp (c : cpu_t) : Z := if truthy (supervisor c) then usp c else get_a 7 c.

Lemma a_length c : cpu_wf c -> length (a c) = 8%nat.
Proof. intros Hc. apply Hc. Qed.

Lemma reg_nth_width l n : Forall (in_width 32) l -> in_width 32 (reg_nth l n).
Proof.
  intros Hl. unfold reg_nth. destruct (nth_in_or_default (Z.to_nat n) l 0) as [Hin| ->]; [|by split].
  rewrite Forall_forall in Hl. by apply Hl.
Qed.
Lemma get_a_width c n : cpu_wf c -> in_width 32 (get_a n c).
Proof. intros Hc. apply reg_nth_width, Hc. Qed.
Lemma ssp_width c : cpu_wf c -> in_width 32 (ssp c).
Proof. intros [_ _ Hw _]. rewrite !list.Forall_cons in Hw. tauto. Qed.
Lemma usp_width c : cpu_wf c -> in_width 32 (usp c).
Proof. intros [_ _ Hw _]. rewrite !list.Forall_cons in Hw. tauto. Qed.

Lemma reg_nth_insert l n i v : (Z.to_nat n < length l)%nat ->
  reg_nth (<[Z.to_nat n := v]> l) i = if decide (Z.to_nat n = Z.to_nat i) then v else reg_nth l i.
Proof.
  intros Hn. unfold reg_nth. rewrite !nth_lookup. case_decide as E.
  - by rewrite <-E, list_lookup_insert_eq.
  - by rewrite list_lookup_insert_ne.
Qed.
Lemma get_a7_put c v : cpu_wf c -> get_a 7 (put_a 7 v c) = u32 v.
Proof.
  intros Hc. unfold get_a, put_a. simpl. rewrite reg_nth_insert by (rewrite a_length by done; lia).
  by rewrite decide_True.
Qed.
Lemma get_a_put7 c v i : cpu_wf c -> 0 <= i < 7 -> get_a i (put_a 7 v c) = get_a i c.
Proof.
  intros Hc Hi. unfold get_a, put_a. simpl. rewrite reg_nth_insert by (rewrite a_length by done; lia).
  case_decide; [lia|done].
Qed.

(** ** The status register of the 68000 *)

(** The state written by write_sr, before its interrupt check. *)
Definition sr_cpu (sr : Z) (c : cpu_t) : cpu_t :=
  let c := set_trace (Z.land (Z.shiftr sr 15) 1) (switch_stacks_000 (Z.testbit sr 13) c) in
  let c := set_supervisor (cbool (Z.testbit sr 13)) c in
  let c := set_interrupt_mask (Z.land (Z.shiftr sr 8) 7) c in
  set_cc (write_ccr sr (cc c)) c.

Definition not_68030 (c : cpu_t) : Prop := cpu_model c <> CPU_MODEL_68030.

(** The implemented bits of the 68000 status register: T, S, I2-I0, XNZVC. *)
Definition sr_mask : Z := 0xA71F.

Lemma switch_stacks_model b c : cpu_model (switch_stacks_000 b c) = cpu_model c.
Proof. unfold switch_stacks_000. by repeat case_match. Qed.

Lemma get_sr_cpu sr c : in_width 16 sr -> not_68030 c -> cpu_get_sr (sr_cpu sr c) = Z.land sr sr_mask.
Proof.
  intros Hsr Hm. unfold cpu_get_sr, sr_cpu. cbn -[Z.testbit read_ccr write_ccr].
  rewrite switch_stacks_model, (proj2 (Z.eqb_neq _ _) Hm).
  change (write_ccr sr (cc ?[x])) with (write_ccr sr (mk_ccr 0 0 0 0 0)).
  match goal with |- ?l = _ =>
    let l' := eval pattern sr in l in
    match l' with ?f _ => apply Z.eqb_eq, (forall_bits_width 16 (fun z => f z =? Z.land z sr_mask)) end
  end; [|done].
  vm_cast_no_check (@eq_refl bool true).
Qed.

(** SR as read is an implemented value, and its mask field is the mask. *)
Lemma get_sr_canonical c : not_68030 c -> 0 <= interrupt_mask c <= 7 ->
  in_width 16 (cpu_get_sr c) /\ Z.land (cpu_get_sr c) sr_mask = cpu_get_sr c /\
  Z.land (Z.shiftr (cpu_get_sr c) 8) 7 = interrupt_mask c.
Proof.
  intros Hm Hi. split; [apply u16_range|]. unfold cpu_get_sr, read_ccr.
  rewrite (proj2 (Z.eqb_neq _ _) Hm).
  destruct (truthy (extend _)), (truthy (negative _)), (truthy (zero _)), (truthy (overflow _)),
    (truthy (carry _)), (truthy (trace c)), (truthy (supervisor c));
    remember (interrupt_mask c) as i; clear Heqi; small_z i; split; reflexivity.
Qed.

(** The switch keeps both stack pointers and every other register. *)
Lemma sr_cpu_stacks sr c : cpu_wf c ->
  super_sp (sr_cpu sr c) = super_sp c /\ user_sp (sr_cpu sr c) = user_sp c /\
  d (sr_cpu sr c) = d c /\ forall i, 0 <= i < 7 -> get_a i (sr_cpu sr c) = get_a i c.
Proof.
  intros Hc. pose proof (get_a_width c 7 Hc) as H7. pose proof (ssp_width c Hc). pose proof (usp_width c Hc).
  unfold super_sp, user_sp, sr_cpu, switch_stacks_000, get_a in *.
  assert (forall v i, 0 <= i <= 7 ->
    reg_nth (<[Z.to_nat 7 := v]> (a c)) i = if decide (i = 7) then v else reg_nth (a c) i) as Hput.
  { intros v i Hi. rewrite reg_nth_insert by (rewrite a_length by done; lia).
    repeat case_decide; (done || lia). }
  destruct (Z.testbit sr 13), (truthy (supervisor c)) eqn:Es;
    cbn -[reg_nth Z.to_nat truthy]; unfold get_a; rewrite ?(Hput _ 7), ?decide_True by (done || lia);
    cbn -[reg_nth Z.to_nat truthy]; rewrite ?Es; unfold u32 in *; rewrite ?wrap_small by done;
    (split_and!; [done..|]); intros i Hi; rewrite ?Hput, ?decide_False by lia; done.
Qed.

Lemma sr_cpu_pc sr c : pc (sr_cpu sr c) = pc c.
Proof. unfold sr_cpu, switch_stacks_000. by repeat case_match. Qed.

Section Frames.
Context {B : Type} `{RamLaws B}.
Implicit Types (s : machine B) (b : B).

Definition loads b sz x v : Prop := load_be (ram_byte b) sz x = Some v.
Definition in_ram b sz x : Prop := is_Some (load_be (ram_byte b) sz x).

Lemma same_ram_load b b' sz x : same_ram b b' -> load_be (ram_byte b') sz x = load_be (ram_byte b) sz x.
Proof. intros [E _ _]. by destruct sz; simpl; rewrite !E. Qed.

Lemma mem_read_ram sz x v s : in_width 32 x -> loads (bus s) sz x v ->
  exists b, mem_read sz x s = (Ret v, set_bus b s) /\ same_ram (bus s) b.
Proof.
  intros Hx Hl. destruct (ram_read _ _ _ _ Hl) as [E Hs].
  unfold mem_read, u32. rewrite wrap_small by done.
  destruct (memory_read sz x (bus s)) as [v' b]. simpl in *. subst. by exists b.
Qed.

(** The bus after stores in RAM: contents, and nothing else touched. *)
Record stored b (l : list (size * Z * Z)) b' : Prop := {
  stored_bytes : forall x, ram_byte b' x =
    fold_left (fun m '(sz, y, v) => store_be m sz y v) l (ram_byte b) x;
  stored_pending : bus_error_pending b' = bus_error_pending b;
  stored_instructions : instructions b' = instructions b;
}.

Lemma store_be_some m sz y v x : is_Some (m x) -> is_Some (store_be m sz y v x).
Proof. unfold store_be. by case_match. Qed.
Lemma load_be_some_mono (m m' : Z -> option Z) sz x :
  (forall y, is_Some (m y) -> is_Some (m' y)) -> is_Some (load_be m sz x) -> is_Some (load_be m' sz x).
Proof.
  intros Hm [v E]. destruct sz; simpl in *; [by apply Hm; eauto|..]; simplify_option_eq;
  repeat match goal with E : m ?y = Some _ |- _ =>
    let H' := fresh in pose proof (Hm y ltac:(eauto)) as [? H']; clear E; rewrite H'; simpl end; eauto.
Qed.

Lemma stored_in_ram b l b' sz x : stored b l b' -> in_ram b sz x -> in_ram b' sz x.
Proof.
  intros [E _ _] Hx. eapply load_be_some_mono; [|exact Hx]. intros y Hy. rewrite E. clear E Hx.
  revert Hy. generalize (ram_byte b) as m. induction l as [|[[sz' y'] v'] l IH]; intros m Hy; [done|].
  simpl. by apply IH, store_be_some.
Qed.

Lemma stored_nil b b' : same_ram b b' -> stored b [] b'.
Proof. by intros [E ? ?]. Qed.

Lemma fold_store_ext l (m m' : Z -> option Z) : (forall x, m x = m' x) -> forall x,
  fold_left (fun m '(sz, y, v) => store_be m sz y v) l m x =
  fold_left (fun m '(sz, y, v) => store_be m sz y v) l m' x.
Proof.
  revert m m'. induction l as [|[[sz y] v] l IH]; intros m m' E x; simpl; [done|].
  apply IH. intros x'. unfold store_be. by rewrite E.
Qed.

Lemma stored_app b1 l1 b2 l2 b3 : stored b1 l1 b2 -> stored b2 l2 b3 -> stored b1 (l1 ++ l2) b3.
Proof.
  intros [E1 ? ?] [E2 ? ?]. split; [|congruence..]. intros x.
  rewrite E2, fold_left_app. by apply fold_store_ext.
Qed.

Lemma mem_write_ram sz x v s : in_width 32 x -> in_ram (bus s) sz x ->
  exists b, mem_write sz x v s = (Ret tt, set_bus b s) /\ stored (bus s) [(sz, x, trunc sz v)] b.
Proof.
  intros Hx Hr. exists (memory_write sz x (trunc sz v) (bus s)).
  unfold mem_write, modb, modify, u32. rewrite wrap_small by done. split; [done|].
  destruct (ram_write (bus s) sz x (trunc sz v) Hr) as (E & Ep & Ei). by split.
Qed.

Lemma bind_assoc_run {A C D} (m : M (machine B) A) (f : A -> M (machine B) C) (g : C -> M (machine B) D) s :
  ((m ≫= f) ≫= g) s = (m ≫= fun x => f x ≫= g) s.
Proof. unfold mbind, M_bind. by destruct (m s) as [[] ?]. Qed.

(** push in RAM *)
Lemma push_ram sz v s : let sp := get_a 7 (cpu s) in
  cpu_wf (cpu s) -> bytes sz <= sp -> in_ram (bus s) sz (sp - bytes sz) ->
  exists b, push sz v s = (Ret tt, mk_machine (put_a 7 (sp - bytes sz) (cpu s)) b (exc_trace s)) /\
    stored (bus s) [(sz, sp - bytes sz, trunc sz v)] b.
Proof.
  intros sp Hc Hsp Hr. pose proof (get_a_width _ 7 Hc) as [].
  assert (in_width 32 (sp - bytes sz)) as Hw by (split; destruct sz; simpl in *; lia).
  unfold push. erewrite bind_ret by reflexivity. erewrite bind_ret by reflexivity.
  erewrite bind_ret by reflexivity. cbn [cpu set_cpu]. rewrite get_a7_put by done.
  unfold u32. rewrite (wrap_small 32) by done.
  destruct (mem_write_ram sz (sp - bytes sz) v
    (set_cpu (put_a 7 (sp - bytes sz) (cpu s)) s)) as (b & E & Hs); [done..|].
  exists b. split; [exact E|exact Hs].
Qed.

(** The CPU after entering supervisor mode on the 68000. *)
Definition enter_cpu (c : cpu_t) : cpu_t :=
  if truthy (supervisor c) then c
  else set_m 0 (set_supervisor 1 (put_a 7 (ssp c) (set_usp (get_a 7 c) c))).

Lemma enter_supervisor_68000 s : not_68030 (cpu s) ->
  exists b, enter_supervisor s = (Ret tt, mk_machine (enter_cpu (cpu s)) b (exc_trace s)) /\
    same_ram (bus s) b.
Proof.
  intros Hm. unfold enter_supervisor, enter_cpu, master, is_68030.
  erewrite bind_ret by reflexivity. cbn [id].
  rewrite (proj2 (Z.eqb_neq _ _) Hm), andb_false_r.
  destruct (truthy (supervisor (cpu s))); cbn [negb].
  - exists (bus s). split; [by destruct s|done].
  - exists (set_active true (bus s)). split; [|apply ram_active].
    unfold not_68030 in Hm. mrun. rewrite (proj2 (Z.eqb_neq _ _) Hm), andb_false_r. by destruct s.
Qed.

Lemma enter_cpu_spec c : cpu_wf c ->
  cpu_wf (enter_cpu c) /\ truthy (supervisor (enter_cpu c)) = true /\
  get_a 7 (enter_cpu c) = super_sp c /\ usp (enter_cpu c) = user_sp c /\
  d (enter_cpu c) = d c /\ cc (enter_cpu c) = cc c /\ interrupt_mask (enter_cpu c) = interrupt_mask c /\
  ipl (enter_cpu c) = ipl c /\ cpu_model (enter_cpu c) = cpu_model c /\
  forall i, 0 <= i < 7 -> get_a i (enter_cpu c) = get_a i c.
Proof.
  intros Hc. unfold enter_cpu, super_sp, user_sp.
  destruct (truthy (supervisor c)) eqn:E; [done|].
  split; [eauto 10 with wf|]. split; [done|].
  assert (cpu_wf (set_usp (get_a 7 c) c)) as Hc' by eauto with wf.
  split; [|split].
  - change (get_a 7 (put_a 7 (ssp c) (set_usp (get_a 7 c) c)) = ssp c).
    rewrite get_a7_put by done. by apply wrap_small, ssp_width.
  - by apply (wrap_small 32), get_a_width.
  - do 5 (split; [done|]). intros i Hi.
    change (get_a i (put_a 7 (ssp c) (set_usp (get_a 7 c) c)) = get_a i c).
    by rewrite get_a_put7.
Qed.

(** The CPU after an exception of the 68000 whose vector holds [handler]. *)
Definition exception_cpu (handler : Z) (c : cpu_t) : cpu_t :=
  set_trace 0 (set_pc handler (put_a 7 (super_sp c - 6) (put_a 7 (super_sp c - 4) (enter_cpu c)))).

(** What the stack frame and the vector of an exception need of the bus. *)
Record frame_ram s (vector : Z) : Prop := {
  fr_model : not_68030 (cpu s);
  fr_wf : cpu_wf (cpu s);
  fr_sp : 6 <= super_sp (cpu s);
  fr_pc : in_ram (bus s) B32 (super_sp (cpu s) - 4);
  fr_sr : in_ram (bus s) B16 (super_sp (cpu s) - 6);
  fr_vector : in_width 32 vector /\ in_ram (bus s) B32 vector;
}.

Lemma super_sp_width c : cpu_wf c -> in_width 32 (super_sp c).
Proof. intros. unfold super_sp. case_match; [by apply get_a_width|by apply ssp_width]. Qed.

(** The exception sequence in RAM: the frame of PC and SR below the supervisor
    stack pointer, and the jump through the vector. *)
Lemma exception_ram vector p sr s : vector <> 0x008 -> frame_ram s vector ->
  in_width 32 p -> in_width 16 sr ->
  let sp := super_sp (cpu s) in
  exists handler b e,
    exception vector p sr s = (Ret tt, mk_machine (exception_cpu handler (cpu s)) b (e :: exc_trace s)) /\
    exc_vector e = vector /\ exc_saved_pc e = p /\ exc_sr e = sr /\
    loads b B32 vector handler /\ in_width 32 handler /\
    stored (bus s) [(B32, sp - 4, p); (B16, sp - 6, sr)] b.
Proof.
  intros Hv [Hm Hc Hsp Hp Hs [Hvw Hvr]] Hpw Hsw sp.
  destruct (enter_cpu_spec (cpu s) Hc) as (Hc1 & _ & Esp & _).
  pose proof (super_sp_width _ Hc) as [Hsp0 Hsp1]. fold sp in Hsp, Hp, Hs, Hsp0, Hsp1, Esp.
  unfold exception. erewrite bind_ret by reflexivity. cbn [id].
  rewrite (proj2 (Z.eqb_neq _ _) Hv). cbn [negb when].
  erewrite bind_ret by reflexivity.
  set (e := mk_exc _ _ _ _ _ _ _ _ _). set (s0 := mk_machine (cpu s) (bus s) (e :: exc_trace s)).
  destruct (enter_supervisor_68000 s0 Hm) as (b1 & E1 & Hb1).
  rewrite (bind_ret _ _ _ _ _ E1).
  unfold is_68030. rewrite (proj2 (Z.eqb_neq _ _) Hm).
  apply stored_nil in Hb1.
  set (s1 := mk_machine (enter_cpu (cpu s0)) b1 (exc_trace s0)).
  destruct (push_ram B32 p s1) as (b2 & E2 & Hb2); [done|simpl in *; lia|..].
  { apply (stored_in_ram _ _ _ _ _ Hb1). simpl in *. by rewrite Esp. }
  rewrite (bind_assoc_run _ _ _ _), (bind_ret _ _ _ _ _ E2).
  simpl in Hb2, Esp. rewrite Esp in Hb2.
  assert (trunc B32 p = p) as Ep by by apply wrap_small. rewrite Ep in Hb2.
  pose proof (stored_app _ _ _ _ _ Hb1 Hb2) as Hb12. simpl in Hb12.
  set (s2 := mk_machine _ b2 _).
  assert (get_a 7 (cpu s2) = sp - 4) as Esp2.
  { simpl. rewrite get_a7_put by done. rewrite Esp. apply wrap_small. unfold in_width. lia. }
  destruct (push_ram B16 sr s2) as (b3 & E3 & Hb3); [by simpl; eauto with wf|rewrite Esp2; simpl; lia|..].
  { apply (stored_in_ram _ _ _ _ _ Hb12). rewrite Esp2. by replace (sp - 4 - bytes B16) with (sp - 6) by (simpl; lia). }
  rewrite Esp2 in E3, Hb3. replace (sp - 4 - bytes B16) with (sp - 6) in * by (simpl; lia).
  rewrite bind_assoc_run, (bind_ret _ _ _ _ _ E3).
  assert (trunc B16 sr = sr) as Er by by apply wrap_small. rewrite Er in Hb3.
  pose proof (stored_app _ _ _ _ _ Hb12 Hb3) as Hb13.
  set (s3 := mk_machine _ b3 _).
  destruct (stored_in_ram _ _ _ _ _ Hb13 Hvr) as [handler Hh].
  destruct (mem_read_ram B32 vector handler s3 Hvw Hh) as (b4 & E4 & Hb4).
  rewrite bind_assoc_run, (bind_ret _ _ _ _ _ E4).
  exists handler, b4, e. split_and!; [|done..| | |].
  - unfold exception_cpu. subst s3 s2 s1 s0 e. simpl. unfold mbind, M_bind, modc, modify. cbn.
    by rewrite Esp.
  - unfold loads. by rewrite (same_ram_load _ _ _ _ Hb4).
  - apply (load_be_width _ B32 _ _ (ram_byte_range _) Hh).
  - pose proof (stored_app _ _ _ _ _ Hb13 (stored_nil _ _ Hb4)) as Hb14. by simpl in Hb14.
Qed.

Lemma exception_cpu_spec h c : cpu_wf c -> 6 <= super_sp c -> in_width 32 h ->
  let c' := exception_cpu h c in
  cpu_wf c' /\ truthy (supervisor c') = true /\ get_a 7 c' = super_sp c - 6 /\ usp c' = user_sp c /\
  pc c' = h /\ trace c' = 0 /\ d c' = d c /\ cc c' = cc c /\ interrupt_mask c' = interrupt_mask c /\
  ipl c' = ipl c /\ cpu_model c' = cpu_model c /\ forall i, 0 <= i < 7 -> get_a i c' = get_a i c.
Proof.
  intros Hc Hsp Hh c'.
  destruct (enter_cpu_spec c Hc) as (Hc1 & Hs & _ & Hu & Hd & Hcc & Him & Hil & Hmo & Ha).
  pose proof (super_sp_width _ Hc) as [Hsp0 Hsp1].
  subst c'. unfold exception_cpu.
  assert (cpu_wf (put_a 7 (super_sp c - 4) (enter_cpu c))) as Hc2 by eauto with wf.
  split_and!; try done; [by eauto 10 with wf|..].
  - change (get_a 7 (put_a 7 (super_sp c - 6) (put_a 7 (super_sp c - 4) (enter_cpu c))) = super_sp c - 6).
    rewrite get_a7_put by done. apply wrap_small. unfold in_width. lia.
  - by apply (wrap_small 32).
  - intros i Hi.
    change (get_a i (put_a 7 (super_sp c - 6) (put_a 7 (super_sp c - 4) (enter_cpu c))) = get_a i c).
    rewrite !get_a_put7 by done. by apply Ha.
Qed.

(** ** Writing the status register *)
Lemma write_sr_68000 sr s : not_68030 (cpu s) ->
  exists b, write_sr sr s = cpu_check_interrupt (mk_machine (sr_cpu sr (cpu s)) b (exc_trace s)) /\
    same_ram (bus s) b.
Proof.
  intros Hm. unfold write_sr, sr_cpu, is_68030. erewrite bind_ret by reflexivity. cbn [id].
  rewrite (proj2 (Z.eqb_neq _ _) Hm).
  destruct (Bool.eqb (Z.testbit sr 13) (truthy (supervisor (cpu s)))) eqn:E.
  - exists (bus s). split; [|done]. unfold when. by cbn [negb].
  - exists (set_active (Z.testbit sr 13) (bus s)). split; [|apply ram_active]. unfold when. by cbn [negb].
Qed.

Lemma no_interrupt s : ipl (cpu s) <= interrupt_mask (cpu s) -> ipl (cpu s) <> 7 ->
  cpu_check_interrupt s = (Ret tt, s).
Proof.
  intros H1' H2'. unfold cpu_check_interrupt. erewrite bind_ret by reflexivity. cbn [id].
  rewrite (proj2 (Z.ltb_ge _ _) H1'), (proj2 (Z.eqb_neq _ _) H2'). done.
Qed.

(** ** RTE *)
Lemma POP_ram sz v s : cpu_wf (cpu s) -> let q := get_a 7 (cpu s) in loads (bus s) sz q v ->
  exists b, POP sz s = (Ret v, mk_machine (put_a 7 (q + bytes sz) (cpu s)) b (exc_trace s)) /\
    same_ram (bus s) b.
Proof.
  intros Hc q Hl. unfold POP. erewrite bind_ret by reflexivity.
  destruct (mem_read_ram sz q v s) as (b & E & Hb); [by apply get_a_width|done|].
  rewrite (bind_ret _ _ _ _ _ E). exists b. by split.
Qed.

Lemma rte_ram opcode sr p s : let q := get_a 7 (cpu s) in
  not_68030 (cpu s) -> cpu_wf (cpu s) -> truthy (supervisor (cpu s)) = true -> q + 6 < 2 ^ 32 ->
  loads (bus s) B16 q sr -> loads (bus s) B32 (q + 2) p ->
  ipl (cpu s) <= Z.land (Z.shiftr sr 8) 7 -> ipl (cpu s) <> 7 ->
  let c := set_pc p (put_a 7 (q + 6) (put_a 7 (q + 2) (cpu s))) in
  exists b, exec_op OP_RTE opcode s = (Ret tt, mk_machine (sr_cpu sr c) b (exc_trace s)) /\
    same_ram (bus s) b.
Proof.
  intros q Hm Hc Hs Hq Hsr Hp Hi H7 c. pose proof (get_a_width _ 7 Hc) as [Hq0 Hq1].
  unfold exec_op, SUPER. erewrite bind_ret by reflexivity. rewrite Hs.
  destruct (POP_ram B16 sr s Hc Hsr) as (b1 & E1 & Hb1). rewrite (bind_ret _ _ _ _ _ E1).
  set (s1 := mk_machine _ b1 _).
  assert (get_a 7 (cpu s1) = q + 2) as Eq1.
  { simpl. rewrite get_a7_put by done. apply wrap_small. unfold in_width. simpl. lia. }
  assert (cpu_wf (cpu s1)) as Hc1 by (simpl; eauto with wf).
  destruct (POP_ram B32 p s1 Hc1) as (b2 & E2 & Hb2).
  { rewrite Eq1. unfold loads. subst s1. cbn [bus]. by rewrite (same_ram_load _ _ _ _ Hb1). }
  rewrite (bind_ret _ _ _ _ _ E2). erewrite bind_ret by reflexivity.
  rewrite Eq1. replace (q + 2 + bytes B32) with (q + 6) by (simpl; lia).
  assert (u16 sr = sr) as Esr.
  { apply wrap_small. exact (load_be_width _ B16 _ _ (ram_byte_range _) Hsr). }
  unfold cpu_set_sr. rewrite Esr.
  set (s2 := set_cpu _ _).
  destruct (write_sr_68000 sr s2) as (b3 & E3 & Hb3); [done|].
  rewrite E3. exists b3. split.
  - rewrite no_interrupt; [done|..]; unfold sr_cpu; cbn.
    + unfold switch_stacks_000. assert (u32 (Z.land (Z.shiftr sr 8) 7) = Z.land (Z.shiftr sr 8) 7) as ->.
      { apply wrap_small. pose proof (land_width 3 (Z.shiftr sr 8) 7 ltac:(lia) ltac:(by split)) as [].
        unfold in_width. pow2. lia. }
      by repeat case_match.
    + unfold switch_stacks_000. by repeat case_match.
  - etrans; [exact Hb1|]. etrans; [exact Hb2|exact Hb3].
Qed.

(** The words of a fresh frame. *)
Lemma frame_words b b' sp p sr : in_width 32 p -> in_width 16 sr ->
  stored b [(B32, sp - 4, p); (B16, sp - 6, sr)] b' ->
  loads b' B16 (sp - 6) sr /\ loads b' B32 (sp - 4) p.
Proof.
  intros Hp Hsr [E _ _]. simpl in E. unfold loads. split.
  - rewrite (load_be_ext _ _ _ _ (fun x _ => E x)). exact (load_store_same _ B16 _ sr Hsr).
  - etrans; [|exact (load_store_same (ram_byte b) B32 (sp - 4) p Hp)]. apply load_be_ext.
    intros x Hx. rewrite E. unfold store_be at 1. simpl in *. zprune. done.
Qed.

Lemma pc_width c : cpu_wf c -> in_width 32 (pc c).
Proof. intros [_ _ Hw _]. rewrite !list.Forall_cons in Hw. tauto. Qed.

(** The state in which the handler starts. *)
Record handler_entry s (vector p sr : Z) s1 : Prop := {
  he_wf : cpu_wf (cpu s1);
  he_super : truthy (supervisor (cpu s1)) = true;
  he_sp : get_a 7 (cpu s1) = super_sp (cpu s) - 6;
  he_usp : usp (cpu s1) = user_sp (cpu s);
  he_sr : loads (bus s1) B16 (super_sp (cpu s) - 6) sr;
  he_pc : loads (bus s1) B32 (super_sp (cpu s) - 4) p;
  he_vector : loads (bus s1) B32 vector (pc (cpu s1));
  he_trace : trace (cpu s1) = 0;
  he_mask : interrupt_mask (cpu s1) = interrupt_mask (cpu s);
  he_ipl : ipl (cpu s1) = ipl (cpu s);
  he_regs : d (cpu s1) = d (cpu s) /\ cc (cpu s1) = cc (cpu s) /\
            forall i, 0 <= i < 7 -> get_a i (cpu s1) = get_a i (cpu s);
  he_bus : bus_error_pending (bus s1) = bus_error_pending (bus s) /\
           instructions (bus s1) = instructions (bus s);
}.

Lemma exception_entry vector p sr s : vector <> 0x008 -> frame_ram s vector ->
  in_width 32 p -> in_width 16 sr ->
  exists s1, exception vector p sr s = (Ret tt, s1) /\ handler_entry s vector p sr s1 /\
    stopped (cpu s1) = stopped (cpu s).
Proof.
  intros Hv Hf Hp Hsr. pose proof Hf as [Hm Hc Hsp _ _ _].
  destruct (exception_ram vector _ _ s Hv Hf Hp Hsr) as (h & b & e & E & _ & _ & _ & Hl & Hh & Hst).
  destruct (exception_cpu_spec h (cpu s) Hc Hsp Hh) as (? & ? & ? & ? & Epc & ? & ? & ? & ? & ? & ? & ?).
  destruct (frame_words _ _ _ _ _ Hp Hsr Hst). destruct Hst.
  eexists. split; [exact E|]. split; [split; cbn [cpu bus]; try done; by rewrite Epc|].
  cbn. unfold enter_cpu. by case_match.
Qed.

(** ** Theorems *)

(** Writing the status register of the 68000.  When the new mask admits
    no pending interrupt, write_sr leaves exactly the implemented bits of the
    written value readable in SR, switches the active stack pointer without
    losing either of the two, and touches no other register and no memory. *)
Theorem write_sr_correct sr s :
  in_width 16 sr -> not_68030 (cpu s) -> cpu_wf (cpu s) ->
  ipl (cpu s) <= Z.land (Z.shiftr sr 8) 7 -> ipl (cpu s) <> 7 ->
  exists s', write_sr sr s = (Ret tt, s') /\ cpu_get_sr (cpu s') = Z.land sr sr_mask /\
    super_sp (cpu s') = super_sp (cpu s) /\ user_sp (cpu s') = user_sp (cpu s) /\
    pc (cpu s') = pc (cpu s) /\ d (cpu s') = d (cpu s) /\
    (forall i, 0 <= i < 7 -> get_a i (cpu s') = get_a i (cpu s)) /\ same_ram (bus s) (bus s').
Proof.
  intros Hsr Hm Hc Hi H7. destruct (write_sr_68000 sr s Hm) as (b & -> & Hb).
  eexists. rewrite no_interrupt; [|unfold sr_cpu; cbn..].
  2:{ assert (u32 (Z.land (Z.shiftr sr 8) 7) = Z.land (Z.shiftr sr 8) 7) as ->.
      { apply wrap_small. pose proof (land_width 3 (Z.shiftr sr 8) 7 ltac:(lia) ltac:(by split)) as [].
        unfold in_width. pow2. lia. }
      unfold switch_stacks_000. by repeat case_match. }
  2:{ unfold switch_stacks_000. by repeat case_match. }
  destruct (sr_cpu_stacks sr (cpu s) Hc) as (Hs & Hu & Hd & Ha).
  split_and!; try done; [by apply get_sr_cpu|].
  unfold sr_cpu, switch_stacks_000. by repeat case_match.
Qed.

(** What an exception handler must preserve from entry to RTE. *)
Record handler_returns s1 s2 : Prop := {
  hr_model : not_68030 (cpu s2);
  hr_wf : cpu_wf (cpu s2);
  hr_super : truthy (supervisor (cpu s2)) = true;
  hr_sp : get_a 7 (cpu s2) = get_a 7 (cpu s1);
  hr_usp : usp (cpu s2) = usp (cpu s1);
  hr_frame : forall x, get_a 7 (cpu s1) <= x < get_a 7 (cpu s1) + 6 ->
             ram_byte (bus s2) x = ram_byte (bus s1) x;
}.

(** C19: exception and return.  An exception that stacks the current PC and
    SR, followed by any handler that runs in supervisor mode and gives back
    the stack frame and the user stack pointer, followed by RTE, resumes the
    interrupted program with its PC, its status register and both of its
    stack pointers (in user or supervisor mode alike), with the other
    registers as the handler left them. *)
Theorem exception_rte vector opcode s s2 :
  vector <> 0x008 -> frame_ram s vector -> 0 <= interrupt_mask (cpu s) <= 7 ->
  let s1 := final (exception vector (pc (cpu s)) (cpu_get_sr (cpu s))) s in
  handler_returns s1 s2 ->
  ipl (cpu s2) <= interrupt_mask (cpu s) -> ipl (cpu s2) <> 7 ->
  exists s3, exec_op OP_RTE opcode s2 = (Ret tt, s3) /\
    pc (cpu s3) = pc (cpu s) /\ cpu_get_sr (cpu s3) = cpu_get_sr (cpu s) /\
    super_sp (cpu s3) = super_sp (cpu s) /\ user_sp (cpu s3) = user_sp (cpu s) /\
    d (cpu s3) = d (cpu s2) /\ (forall i, 0 <= i < 7 -> get_a i (cpu s3) = get_a i (cpu s2)) /\
    same_ram (bus s2) (bus s3).
Proof.
  intros Hv Hf Him s1 [Hm2 Hc2 Hs2 Hsp2 Husp2 Hfr] Hi2 H72.
  pose proof Hf as [Hm Hc Hsp _ _ _].
  destruct (get_sr_canonical (cpu s) Hm Him) as (Hsrw & Hsrc & Hmask).
  pose proof (pc_width _ Hc) as Hpw.
  destruct (exception_entry vector _ _ s Hv Hf Hpw Hsrw) as (s1' & E & [] & _).
  assert (s1 = s1') as E1 by (subst s1; unfold final; by rewrite E). clearbody s1. subst s1'.
  rewrite he_sp0 in *.
  pose proof (super_sp_width _ Hc) as [Hsp0 Hsp1]. set (sp := super_sp (cpu s)) in *.
  assert (forall sz x v, sp - 6 <= x -> x + bytes sz <= sp -> loads (bus s1) sz x v -> loads (bus s2) sz x v) as Htr.
  { intros sz x v H1' H2' Hl. unfold loads. rewrite <-Hl. apply load_be_ext. intros y Hy. apply Hfr. lia. }
  destruct (rte_ram opcode (cpu_get_sr (cpu s)) (pc (cpu s)) s2) as (b3 & E3 & Hb3); try done.
  { rewrite Hsp2. lia. }
  { rewrite Hsp2. apply Htr; [simpl; lia..|done]. }
  { rewrite Hsp2. replace (sp - 6 + 2) with (sp - 4) by lia. apply Htr; [simpl; lia..|done]. }
  { by rewrite Hmask. }
  rewrite Hsp2 in E3. eexists. split; [exact E3|]. cbn [cpu bus].
  match type of E3 with _ = (_, mk_machine (sr_cpu _ ?c) _ _) => set (c3 := c) in * end.
  assert (cpu_wf (put_a 7 (sp - 6 + 2) (cpu s2))) as Hw1 by eauto with wf.
  assert (cpu_wf c3) as Hw3 by (subst c3; eauto with wf).
  destruct (sr_cpu_stacks (cpu_get_sr (cpu s)) c3 Hw3) as (-> & -> & -> & Ha).
  assert (supervisor c3 = supervisor (cpu s2)) as Es3 by done.
  split_and!; try done.
  - rewrite sr_cpu_pc. by apply (wrap_small 32).
  - rewrite get_sr_cpu by done. done.
  - unfold super_sp at 1. rewrite Es3, Hs2. subst c3.
    change (get_a 7 (put_a 7 (sp - 6 + 6) (put_a 7 (sp - 6 + 2) (cpu s2))) = sp).
    rewrite get_a7_put by done. replace (sp - 6 + 6) with sp by lia. by apply wrap_small.
  - unfold user_sp at 1. rewrite Es3, Hs2. change (usp (cpu s2) = user_sp (cpu s)). congruence.
  - intros i Hi. rewrite Ha by done. subst c3.
    change (get_a i (put_a 7 (sp - 6 + 6) (put_a 7 (sp - 6 + 2) (cpu s2))) = get_a i (cpu s2)).
    by rewrite !get_a_put7.
Qed.

Lemma frame_ram_same s c vector : frame_ram s vector -> cpu_wf c -> not_68030 c ->
  super_sp c = super_sp (cpu s) -> frame_ram (set_cpu c s) vector.
Proof. intros [] ? ? E. by split; cbn [cpu bus set_cpu]; rewrite ?E. Qed.

(** C36: interrupts.  cpu_check_interrupt accepts the level on the interrupt
    pins exactly when it exceeds the mask or is 7.  Accepting it stacks the
    interrupted PC and the status register with the old mask, raises the mask
    to the level, ends a STOP, and enters the autovector's handler, after
    which the same level is not accepted again (level 7 apart); otherwise
    nothing changes. *)
Theorem check_interrupt_correct s : let l := ipl (cpu s) in let vector := 0x60 + 4 * l in
  frame_ram s vector -> 0 <= interrupt_mask (cpu s) <= 7 -> 0 <= l <= 7 ->
  exists s', cpu_check_interrupt s = (Ret tt, s') /\
    if (interrupt_mask (cpu s) <? l) || (l =? 7) then
      loads (bus s') B16 (super_sp (cpu s) - 6) (cpu_get_sr (cpu s)) /\
      loads (bus s') B32 (super_sp (cpu s) - 4) (pc (cpu s)) /\
      loads (bus s') B32 vector (pc (cpu s')) /\
      get_a 7 (cpu s') = super_sp (cpu s) - 6 /\ truthy (supervisor (cpu s')) = true /\
      usp (cpu s') = user_sp (cpu s) /\
      interrupt_mask (cpu s') = l /\ stopped (cpu s') = 0 /\
      (l <> 7 -> cpu_check_interrupt s' = (Ret tt, s'))
    else s' = s.
Proof.
  intros l vector Hf Him Hl. unfold cpu_check_interrupt at 1. erewrite bind_ret by reflexivity. cbn [id].
  fold l. destruct ((interrupt_mask (cpu s) <? l) || (l =? 7)); cbn [when]; [|by exists s].
  erewrite bind_ret by reflexivity. erewrite bind_ret by reflexivity.
  pose proof Hf as [Hm Hc _ _ _ _].
  set (c := set_interrupt_mask l (set_stopped 0 (cpu s))).
  destruct (get_sr_canonical (cpu s) Hm Him) as (Hsrw & _ & _).
  destruct (exception_entry vector (pc (cpu s)) (cpu_get_sr (cpu s)) (set_cpu c s)) as (s1 & E & [] & Es);
    [unfold vector; lia|apply frame_ram_same; [done|subst c; eauto with wf|done..]|by apply pc_width|done|].
  exists s1. split; [exact E|]. cbn [cpu bus set_cpu] in *.
  assert (interrupt_mask c = l) as Em.
  { apply wrap_small. split; [lia|]. eapply Z.le_lt_trans; [apply Hl|done]. }
  split_and!; try done; [congruence|].
  intros H7. apply no_interrupt; rewrite he_ipl0, ?he_mask0, ?Em; done.
Qed.
End Frames.

(** ** Witnesses on the flat bus *)

(** A user program at $400 with interrupt level [l] on the pins. *)
Definition frame_machine (l : Z) : machine flat_t :=
  mk_machine (set_supervisor 0 (set_interrupt_mask 2 (put_a 7 0x8000 (set_ssp 0x9000
    (set_usp 0x7000 (set_ipl l (set_pc 0x400 (cpu_init CPU_MODEL_68000)))))))) (mk_flat ∅ false 0 false 10) [].

Lemma frame_machine_wf l : cpu_wf (cpu (frame_machine l)).
Proof.
  simpl. repeat first [apply wf_set_supervisor|apply wf_set_interrupt_mask|apply wf_put_a|apply wf_set_ssp|
    apply wf_set_usp]. split; simpl; repeat constructor; (done || apply u32_range).
Qed.
Lemma flat_in_ram (b : flat_t) sz x : 0 <= x -> x + bytes sz <= flat_limit -> in_ram b sz x.
Proof.
  intros H0 H1. unfold in_ram, ram_byte, flat_view, flat_byte.
  destruct sz; simpl in *; zprune; simpl; eauto.
Qed.
Lemma frame_machine_ram l v : 0 <= v < 0x1000 -> frame_ram (frame_machine l) v.
Proof.
  intros Hv. split.
  - discriminate.
  - apply frame_machine_wf.
  - change (6 <= 0x9000). lia.
  - by apply flat_in_ram.
  - by apply flat_in_ram.
  - split; [unfold in_width; pow2; lia|]. apply flat_in_ram; unfold flat_limit; simpl; lia.
Qed.

Lemma write_sr_correct_witness :
  exists s', write_sr 0x2700 (frame_machine 4) = (Ret tt, s') /\ cpu_get_sr (cpu s') = 0x2700 /\
    super_sp (cpu s') = 0x9000 /\ user_sp (cpu s') = 0x8000.
Proof.
  destruct (write_sr_correct 0x2700 (frame_machine 4)) as (s' & E & E1 & E2 & E3 & _);
    [done|done|apply frame_machine_wf|done|done|].
  by exists s'.
Defined.

(** An empty handler. *)
Definition trapped : machine flat_t :=
  final (exception 0x28 0x400 (cpu_get_sr (cpu (frame_machine 0)))) (frame_machine 0).
Lemma exception_rte_witness :
  exists s3, exec_op OP_RTE 0x4E73 trapped = (Ret tt, s3) /\ pc (cpu s3) = 0x400 /\
    super_sp (cpu s3) = 0x9000 /\ user_sp (cpu s3) = 0x8000.
Proof.
  destruct (exception_rte 0x28 0x4E73 (frame_machine 0) trapped)
    as (s3 & E & Ep & _ & Es & Eu & _); [done|by apply frame_machine_ram|done|..].
  - split; try reflexivity; [vm_compute; discriminate|].
    apply (stays_exception _ wf_system), frame_machine_wf.
  - vm_compute. discriminate.
  - vm_compute. discriminate.
  - exists s3. split; [exact E|]. split; [exact Ep|]. split; [exact Es|exact Eu].
Defined.

Lemma check_interrupt_correct_witness :
  exists s', cpu_check_interrupt (frame_machine 4) = (Ret tt, s') /\
    interrupt_mask (cpu s') = 4 /\ get_a 7 (cpu s') = 0x8FFA.
Proof.
  destruct (check_interrupt_correct (frame_machine 4)) as (s' & E & _ & _ & _ & E7 & _ & _ & Em & _).
  - by apply frame_machine_ram.
  - done.
  - done.
  - exists s'. split; [exact E|]. split; [exact Em|exact E7].
Defined.
