(* ===== verification/CpuRestart.v ===== *)
(** * Address registers across a bus error

    The instruction bodies that write memory, that of LINK excepted, commit
    their updates of address registers only when no access faulted, so that the
    instruction can be run again after the bus error has been handled. *)
From S2P Require Import Prelude Bus FlatBus CpuState CpuAlu CpuMachine CpuExc CpuOps CpuDecode CpuIsa.
From S2P Require Import CpuStays CpuDefined CpuRun CpuFrame.

Section Restart.
Context {B : Type} `{Bus B}.
Implicit Types s : machine B.

(** Steps that leave the address registers alone ... *)
Record same_a s s' : Prop := { sa_a : a (cpu s') = a (cpu s); sa_wf : cpu_wf (cpu s) -> cpu_wf (cpu s') }.
#[global] Instance same_a_preorder : PreOrder same_a.
Proof. split; [by split|]. intros ? ? ? [E1 ?] [E2 ?]. split; [by rewrite E2, E1|auto]. Qed.
(** ... and the bus. *)
Record local s s' : Prop := { lo_a : same_a s s'; lo_bus : bus s' = bus s }.
#[global] Instance local_preorder : PreOrder local.
Proof. split; [by split|]. intros ? ? ? [E1 ?] [E2 ?]. split; [by etrans|congruence]. Qed.

Definition faulted s : Prop := bus_error_pending (bus s) = true.

(** [restores m]: if an access is faulted when [m] ends, the address registers
    are those it started with. *)
Definition restores {A} (m : M (machine B) A) : Prop := forall s,
  cpu_wf (cpu s) -> faulted (final m s) -> a (cpu (final m s)) = a (cpu s).

Lemma restores_same {A} (m : M (machine B) A) : stays same_a m -> restores m.
Proof. intros Hm s _ _. apply Hm. Qed.
Lemma restores_bind {A C} (m : M (machine B) A) (f : A -> M (machine B) C) :
  stays same_a m -> (forall x, restores (f x)) -> restores (m ≫= f).
Proof.
  intros Hm Hf s Hw. specialize (Hm s). unfold final in *. unfold mbind, M_bind.
  destruct (m s) as [[x| |] s'] eqn:E; simpl in *; destruct Hm as [Ea Hw']; try done.
  intros Hp. specialize (Hf x s' (Hw' Hw) Hp). unfold final in Hf. congruence.
Qed.
Lemma restores_local {A C} (m : M (machine B) A) (f : A -> M (machine B) C) :
  restores m -> (forall x, stays local (f x)) -> restores (m ≫= f).
Proof.
  intros Hm Hf s Hw. specialize (Hm s Hw). unfold faulted, final in *. unfold mbind, M_bind.
  destruct (m s) as [[x| |] s'] eqn:E; simpl in *; try done.
  destruct (Hf x s') as [[Ea _] Eb]. unfold final in *. rewrite Eb, Ea. done.
Qed.
Lemma restores_if {A} (b : bool) (m1 m2 : M (machine B) A) :
  restores m1 -> restores m2 -> restores (if b then m1 else m2).
Proof. by destruct b. Qed.
Lemma restores_continue {A} : restores (@continue (machine B) A).
Proof. apply restores_same, stays_continue, _. Qed.

(** ** Steps that keep the address registers *)
Definition a_mod (f : cpu_t -> cpu_t) : Prop := wf_mod f /\ forall c, a (f c) = a c.
Lemma same_modc f : a_mod f -> stays same_a (modc f).
Proof. intros [Hw Ha] s. split; [apply Ha|apply Hw]. Qed.
Lemma same_read sz x : stays same_a (mem_read sz x).
Proof. intros s. unfold final, mem_read. by destruct (memory_read _ _ _). Qed.
Lemma same_write sz x v : stays same_a (mem_write sz x v).
Proof. done. Qed.
Lemma same_putD n v : stays same_a (putD n v).
Proof. apply same_modc. split; [wf_tac|done]. Qed.
Lemma local_modc f : a_mod f -> stays local (modc f).
Proof. intros Hf s. split; [by apply same_modc|done]. Qed.
Hint Extern 2 (a_mod _) => (split; [wf_tac|done]) : stays.
#[local] Hint Resolve same_modc same_read same_write same_putD local_modc : stays.

Lemma same_fetch_16 i : stays same_a (fetch_16 i).
Proof. unfold fetch_16. stays_tac. Qed.
Lemma same_fetch_32 i : stays same_a (fetch_32 i).
Proof. unfold fetch_32. stays_tac. Qed.
#[local] Hint Resolve same_fetch_16 same_fetch_32 : stays.
Lemma same_ea_slow z mo r i : stays same_a (calculate_ea_slow z mo r i).
Proof. unfold calculate_ea_slow, calculate_ea_full, read_disp. stays_tac. Qed.
#[local] Hint Resolve same_ea_slow : stays.

Definition updating (mode : Z) : bool := (mode =? 3) || (mode =? 4).
Lemma same_ea z mo r i : i = false \/ updating mo = false -> stays same_a (calculate_ea z mo r i).
Proof.
  intros Hi. unfold calculate_ea.
  destruct (Z.eqb_spec mo 3) as [->|]; [destruct Hi as [->|]; [cbn [when]; stays_tac|done]|].
  destruct (Z.eqb_spec mo 4) as [->|]; [destruct Hi as [->|]; [cbn [when]; stays_tac|done]|].
  repeat case_match; try lia; stays_tac.
Qed.
Lemma same_read_ea sz o i : i = false \/ updating (EA_MODE o) = false -> stays same_a (read_ea sz o i).
Proof.
  intros Hi. unfold read_ea. fold (EA_MODE o). stays_tac. by apply same_ea.
Qed.

(** ** Putting an address register back *)
Record only_an (r : Z) s s' : Prop := {
  oa_others : forall i, i <> Z.to_nat r -> a (cpu s') !! i = a (cpu s) !! i;
  oa_wf : cpu_wf (cpu s) -> cpu_wf (cpu s');
}.
#[global] Instance only_an_preorder r : PreOrder (only_an r).
Proof.
  split; [by split|]. intros ? ? ? [E1 ?] [E2 ?]. split; [|auto].
  intros i Hi. by rewrite E2, E1.
Qed.
Lemma only_same {A} r (m : M (machine B) A) : stays same_a m -> stays (only_an r) m.
Proof. intros Hm s. destruct (Hm s) as [E ?]. split; [by intros; rewrite E|done]. Qed.
Lemma only_putA r v : stays (only_an r) (putA r v).
Proof.
  intros s. split; simpl; [|eauto with wf]. intros i Hi. by rewrite list_lookup_insert_ne.
Qed.
Lemma only_ea z mo r i : stays (only_an r) (calculate_ea z mo r i).
Proof.
  destruct (updating mo) eqn:E; [|by apply only_same, same_ea; right].
  apply orb_true_iff in E as [->%Z.eqb_eq| ->%Z.eqb_eq]; simpl;
    stays_tac; try apply only_putA; apply stays_gets, _.
Qed.

Lemma put_back r s s' : cpu_wf (cpu s) -> 0 <= r < 8 -> only_an r s s' ->
  a (put_a r (get_a r (cpu s)) (cpu s')) = a (cpu s).
Proof.
  intros Hw Hr [Ho Hw']. simpl. pose proof (a_length _ Hw). pose proof (a_length _ (Hw' Hw)).
  assert (u32 (get_a r (cpu s)) = get_a r (cpu s)) as -> by by apply wrap_small, get_a_width.
  apply list_eq. intros i. destruct (decide (i = Z.to_nat r)) as [->|Hne].
  - rewrite list_lookup_insert_eq by lia. unfold get_a, reg_nth.
    destruct (a (cpu s) !! Z.to_nat r) eqn:E.
    + by rewrite nth_lookup, E.
    + apply lookup_ge_None in E. lia.
  - by rewrite list_lookup_insert_ne by done; apply Ho.
Qed.

Lemma reg_field x : 0 <= Z.land x 7 < 8.
Proof. apply (land_width 3 x 7); [lia|by split]. Qed.

Lemma run_ret {A} (m : M (machine B) A) s : ends false false m -> exists x, m s = (Ret x, final m s).
Proof.
  intros Hm. specialize (Hm s). unfold final. destruct (m s) as [[x| |] s']; [by exists x|done..].
Qed.

(** Writes: [r] is put back when the access faulted. *)
Lemma write_ea_restores sz mo r v : mo <> 1 -> 0 <= r < 8 -> restores (write_ea sz mo r v).
Proof.
  intros Hne Hr. unfold write_ea. rewrite (proj2 (Z.eqb_neq _ _) Hne). fold (updating mo).
  destruct (mo =? 0); [apply restores_same; stays_tac|].
  destruct (updating mo) eqn:Eu.
  2:{ apply restores_same, stays_bind; [apply _|stays_tac|]. intros an.
      apply stays_bind; [apply _|by apply same_ea; right|]. intros ea.
      apply stays_bind; [apply _|stays_tac|]. intros [|]; cbn [when]; [stays_tac|].
      apply stays_bind; [apply _|stays_tac|]. intros _.
      apply stays_bind; [apply _|stays_tac|]. intros [|]; cbn [andb when]; stays_tac. }
  intros s Hw. unfold faulted, final.
  rewrite (bind_ret (getA r) _ s (get_a r (cpu s)) s eq_refl). cbv zeta.
  pose proof (only_ea (bytes sz) mo r true s) as Ho.
  destruct (run_ret (calculate_ea (bytes sz) mo r true) s (ends_ea false false _ _ _ _)) as [ea E].
  rewrite (bind_ret _ _ _ _ _ E). set (s1 := final _ s) in *.
  erewrite bind_ret by reflexivity. destruct (bus_error_pending (bus s1)) eqn:Ep; cbn [when].
  - intros _. by apply (put_back r s s1).
  - erewrite bind_ret by reflexivity. erewrite bind_ret by reflexivity.
    rewrite andb_true_r. set (s2 := set_bus _ s1).
    destruct (bus_error_pending (bus s2)) eqn:Ep2; cbn [when].
    + intros _. apply (put_back r s s2); [done..|]. by destruct Ho; split.
    + intros Ep3. change (bus_error_pending (bus s2) = true) in Ep3. congruence.
Qed.

Lemma PUSH_restores v : restores (PUSH v).
Proof.
  unfold PUSH. apply restores_bind; [stays_tac|]. intros sp s Hw. unfold faulted, final.
  erewrite bind_ret by reflexivity. erewrite bind_ret by reflexivity.
  match goal with |- context [when (negb ?b) _] => destruct b eqn:E end; cbn [negb when]; [done|].
  intros Ep. cbn in *. congruence.
Qed.

(** ** Instruction bodies *)
Lemma local_modcc f : stays local (modcc f).
Proof. apply local_modc. split; [wf_tac|done]. Qed.
Lemma same_modcc f : stays same_a (modcc f).
Proof. apply same_modc. split; [wf_tac|done]. Qed.
Lemma same_alu f : stays same_a (alu f).
Proof. unfold alu. stays_tac. Qed.
Lemma local_alu f : stays local (alu f).
Proof. unfold alu. stays_tac. Qed.
#[local] Hint Resolve local_modcc same_modcc same_alu local_alu : stays.
Lemma same_load_imm sz : stays same_a (LOAD_IMM sz).
Proof. unfold LOAD_IMM. stays_tac. Qed.
Lemma same_load_ea sz o modes : Z.testbit modes (ea_bit (EA_MODE o) (EA_REG o)) = true ->
  stays same_a (LOAD_EA sz o modes).
Proof.
  intros E. unfold LOAD_EA, VALID_EA, VALIDATE_EA. rewrite E.
  apply stays_bind; [apply _|stays_tac|]. intros. apply same_read_ea. by left.
Qed.
Lemma same_valid modes mo r : Z.testbit modes (ea_bit mo r) = true -> stays same_a (VALIDATE_EA modes mo r).
Proof. intros E. unfold VALIDATE_EA. rewrite E. stays_tac. Qed.
Lemma store_restores sz o modes v : Z.testbit modes (ea_bit (EA_MODE o) (EA_REG o)) = true ->
  Z.testbit modes 1 = false -> restores (STORE_EA sz o v).
Proof.
  intros E E1. apply write_ea_restores; [|apply reg_field]. intros E'.
  rewrite E' in E. change (Z.testbit modes 1 = true) in E. congruence.
Qed.

(** Read-modify-write instructions: the read leaves An alone, the write puts
    it back. *)
Lemma rmw_restores sz o modes (g : Z -> M (machine B) Z) (k : Z -> M (machine B) unit) :
  Z.testbit modes (ea_bit (EA_MODE o) (EA_REG o)) = true -> Z.testbit modes 1 = false ->
  (forall x, stays same_a (g x)) -> (forall x, stays local (k x)) ->
  restores (x ← LOAD_EA sz o modes; y ← g x; STORE_EA sz o y;; k x).
Proof.
  intros Hl H1 Hg Hk. apply restores_bind; [by apply same_load_ea|]. intros x.
  apply restores_bind; [apply Hg|]. intros y.
  apply restores_local; [by apply (store_restores _ _ modes)|done].
Qed.

(** ** Two address registers: ADDX and friends, CMPM *)
Record only_two (r1 r2 : Z) s s' : Prop := {
  ot_others : forall i, i <> Z.to_nat r1 -> i <> Z.to_nat r2 -> a (cpu s') !! i = a (cpu s) !! i;
  ot_wf : cpu_wf (cpu s) -> cpu_wf (cpu s');
}.
#[global] Instance only_two_preorder r1 r2 : PreOrder (only_two r1 r2).
Proof.
  split; [by split|]. intros ? ? ? [E1 ?] [E2 ?]. split; [|auto].
  intros i Hi Hj. by rewrite E2, E1.
Qed.
Lemma two_same {A} r1 r2 (m : M (machine B) A) : stays same_a m -> stays (only_two r1 r2) m.
Proof. intros Hm s. destruct (Hm s) as [E ?]. split; [by intros; rewrite E|done]. Qed.
Lemma two_putA r1 r2 r v : r = r1 \/ r = r2 -> stays (only_two r1 r2) (putA r v).
Proof.
  intros Hr s. split; simpl; [|eauto with wf]. intros i H1 H2.
  destruct Hr as [-> | ->]; by rewrite list_lookup_insert_ne.
Qed.

Lemma two_predec r1 r2 sz r : r = r1 \/ r = r2 -> stays (only_two r1 r2) (LOAD_AN_PREDEC sz r).
Proof.
  intros Hr. unfold LOAD_AN_PREDEC. stays_tac; [by apply two_putA|apply two_same, same_read].
Qed.
Lemma two_postinc r1 r2 sz r : r = r1 \/ r = r2 -> stays (only_two r1 r2) (LOAD_AN_POSTINC sz r).
Proof.
  intros Hr. unfold LOAD_AN_POSTINC. stays_tac; [apply two_same, same_read|by apply two_putA].
Qed.

Lemma put_back_two r1 r2 s s' : cpu_wf (cpu s) -> 0 <= r1 < 8 -> 0 <= r2 < 8 -> only_two r1 r2 s s' ->
  a (put_a r2 (get_a r2 (cpu s)) (put_a r1 (get_a r1 (cpu s)) (cpu s'))) = a (cpu s).
Proof.
  intros Hw H1 H2 [Ho Hw'].
  assert (only_an r2 s (set_cpu (put_a r1 (get_a r1 (cpu s)) (cpu s')) s')) as Hon.
  { split; [|intros; simpl; eauto with wf]. intros i Hi. simpl.
    destruct (decide (i = Z.to_nat r1)) as [->|Hne].
    - assert (u32 (get_a r1 (cpu s)) = get_a r1 (cpu s)) as -> by by apply wrap_small, get_a_width.
      pose proof (a_length _ Hw). pose proof (a_length _ (Hw' Hw)).
      rewrite list_lookup_insert_eq by lia. unfold get_a, reg_nth.
      destruct (a (cpu s) !! Z.to_nat r1) eqn:E; [by rewrite nth_lookup, E|].
      apply lookup_ge_None in E. lia.
    - rewrite list_lookup_insert_ne by done. by apply Ho. }
  by apply (put_back r2 s _ Hw H2 Hon).
Qed.

Lemma arithx_restores f o sz : (forall x y, stays same_a (f x y)) -> (forall x y, ends false false (f x y)) ->
  restores (ARITHX_AX_AY f o sz).
Proof.
  intros Hf He s Hw. unfold faulted, final, ARITHX_AX_AY.
  erewrite bind_ret by reflexivity. erewrite bind_ret by reflexivity.
  set (y := EA_REG o). set (x := XREG o).
  assert (forall r, ends false false (@LOAD_AN_PREDEC B _ sz r)) as Hp.
  { intros r. unfold LOAD_AN_PREDEC. ends_tac. apply ends_mem_read. }
  destruct (run_ret _ s (Hp y)) as [src E1]. rewrite (bind_ret _ _ _ _ _ E1).
  set (s1 := final _ s) in *.
  destruct (run_ret _ s1 (Hp x)) as [dst E2]. rewrite (bind_ret _ _ _ _ _ E2).
  set (s2 := final _ s1) in *.
  destruct (run_ret _ s2 (He dst src)) as [res E3]. rewrite (bind_ret _ _ _ _ _ E3).
  set (s3 := final _ s2) in *.
  erewrite bind_ret by reflexivity. erewrite bind_ret by reflexivity. erewrite bind_ret by reflexivity.
  set (s4 := set_bus _ s3).
  assert (only_two y x s s4) as Ht.
  { transitivity s3; [|by apply (two_same y x (modb _)); stays_tac].
    etrans; [by apply two_predec; left|]. etrans; [by apply two_predec; right|]. apply (two_same y x _ (Hf dst src)). }
  destruct (bus_error_pending (bus s4)) eqn:Ep; cbn [when].
  - intros _. apply (put_back_two y x s s4 Hw (reg_field _) (reg_field _) Ht).
  - intros Ep'. change (bus_error_pending (bus s4) = true) in Ep'. congruence.
Qed.

Lemma cmpm_restores o sz : restores (CMPM_AY_AX o sz).
Proof.
  intros s Hw. unfold faulted, final, CMPM_AY_AX.
  erewrite bind_ret by reflexivity. erewrite bind_ret by reflexivity.
  set (y := EA_REG o). set (x := XREG o).
  assert (forall r, ends false false (@LOAD_AN_POSTINC B _ sz r)) as Hp.
  { intros r. unfold LOAD_AN_POSTINC. ends_tac. apply ends_mem_read. }
  destruct (run_ret _ s (Hp y)) as [src E1]. rewrite (bind_ret _ _ _ _ _ E1).
  set (s1 := final _ s) in *.
  destruct (run_ret _ s1 (Hp x)) as [dst E2]. rewrite (bind_ret _ _ _ _ _ E2).
  set (s2 := final _ s1) in *. erewrite bind_ret by reflexivity.
  assert (only_two y x s s2) as Ht.
  { etrans; [by apply two_postinc; left|]. by apply two_postinc; right. }
  destruct (bus_error_pending (bus s2)) eqn:Ep; cbn [when].
  - intros _. apply (put_back_two y x s s2 Hw (reg_field _) (reg_field _) Ht).
  - intros Ep'. change (bus_error_pending (bus s2) = true) in Ep'. congruence.
Qed.

(** ** MOVEM to memory *)
Lemma same_movem_stores sz mask lo val down regs :
  forall ea, stays same_a (movem_stores sz mask lo val down regs ea).
Proof. induction regs; intros; simpl; stays_tac. Qed.
(** A completed run of stores has not faulted. *)
Lemma movem_stores_done sz mask lo val down regs : forall ea s,
  ~ faulted s -> forall ea' s', movem_stores sz mask lo val down regs ea s = (Ret (Some ea'), s') ->
  ~ faulted s'.
Proof.
  induction regs as [|i regs IH]; intros ea s Hp ea' s'; simpl; [by intros [= _ <-]|].
  destruct (Z.testbit mask (lo + i)); [|by apply IH]. cbv zeta.
  erewrite bind_ret by reflexivity. erewrite bind_ret by reflexivity. erewrite bind_ret by reflexivity.
  match goal with |- context [if ?b then _ else _] => destruct b eqn:E end; [done|].
  apply IH. unfold faulted. congruence.
Qed.

Lemma movem_from_restores o sz : updating (EA_MODE o) = false \/ EA_MODE o = 4 ->
  restores (movem_from_register o sz).
Proof.
  intros Hmo. unfold movem_from_register. apply restores_bind; [stays_tac|]. intros mask.
  intros s Hw. unfold final. erewrite bind_ret by reflexivity.
  destruct (bus_error_pending (bus s)) eqn:Ep; [done|].
  destruct (Z.land o 0x38 =? 0x20) eqn:E20.
  - cbv zeta. erewrite bind_ret by reflexivity.
    match goal with |- context [(movem_stores ?z ?m ?l ?v ?d ?r ?e ≫= _) s] =>
      pose proof (movem_stores_done z m l v d r e s) as Hd; pose proof (same_movem_stores z m l v d r e s) as Hs;
      destruct (run_ret (movem_stores z m l v d r e) s (ends_movem_stores false false _ _ _ _ _ _ _)) as [r1 E1] end.
    rewrite (bind_ret _ _ _ _ _ E1). set (s1 := final _ s) in *.
    destruct r1 as [addr|]; [|intros _; apply Hs].
    specialize (Hd ltac:(unfold faulted; congruence) _ _ E1).
    match goal with |- context [(movem_stores ?z ?m ?l ?v ?d ?r ?e ≫= _) s1] =>
      pose proof (movem_stores_done z m l v d r e s1 Hd) as Hd2;
      pose proof (same_movem_stores z m l v d r e s1) as Hs2;
      destruct (run_ret (movem_stores z m l v d r e) s1 (ends_movem_stores false false _ _ _ _ _ _ _)) as [r2 E2] end.
    rewrite (bind_ret _ _ _ _ _ E2). set (s2 := final _ s1) in *.
    destruct r2 as [addr2|].
    + intros Hf. destruct (Hd2 _ _ E2). exact Hf.
    + intros _. by transitivity (a (cpu s1)); [apply Hs2|apply Hs].
  - assert (updating (EA_MODE o) = false) as Hu.
    { destruct Hmo as [|E4]; [done|]. exfalso. unfold EA_MODE in E4.
      assert (Z.land o 0x38 = Z.shiftl (Z.land (Z.shiftr o 3) 7) 3) as E.
      { apply Z.bits_inj'. intros i Hi. change 0x38 with (Z.shiftl 7 3).
        rewrite Z.shiftl_spec, !Z.land_spec, Z.shiftl_spec by done.
        destruct (Z.lt_ge_cases i 3).
        - rewrite !(Z.testbit_neg_r _ (i - 3)) by lia. by rewrite andb_false_r.
        - rewrite Z.shiftr_spec by lia. by replace (i - 3 + 3) with i by lia. }
      rewrite E, E4 in E20. done. }
    intros _. match goal with |- a (cpu (?m s).2) = _ => enough (stays same_a m) as Hm by apply Hm end.
    stays_tac; try apply same_movem_stores. apply same_ea. by right.
Qed.

(** ** MOVE *)
Lemma keeps_wf_write_ea sz mo r v s : keeps_wf s (final (write_ea sz mo r v) s).
Proof. apply (keeps_write_ea keeps_wf keeps_wf wf_instruction). Qed.
Lemma only_read_ea sz o i : stays (only_an (EA_REG o)) (read_ea sz o i).
Proof.
  unfold read_ea. fold (EA_MODE o) (EA_REG o). stays_tac; [apply only_ea|apply only_same, same_read].
Qed.

Lemma MOVE_restores o modes sz : Z.testbit modes (ea_bit (EA_MODE o) (EA_REG o)) = true ->
  bits_8_6 o <> 1 -> restores (MOVE o modes sz).
Proof.
  intros Hl Hd. unfold MOVE. apply restores_bind; [by apply same_valid|]. intros _.
  fold (updating (EA_MODE o)) (bits_8_6 o). cbv zeta.
  assert (forall src, restores (@write_ea B _ sz (bits_8_6 o) (XREG o) src)) as Hwr.
  { intros src. apply write_ea_restores; [done|apply reg_field]. }
  destruct (updating (EA_MODE o)) eqn:Eu.
  2:{ apply restores_bind; [stays_tac|]. intros an. apply restores_bind; [by apply same_read_ea; right|].
      intros src. apply restores_local; [apply Hwr|]. intros _.
      apply stays_bind; [apply _|stays_tac|]. intros p. rewrite andb_false_r. cbn [when]. stays_tac. }
  intros s Hw. unfold faulted, final.
  rewrite (bind_ret (getA _) _ s (get_a (EA_REG o) (cpu s)) s eq_refl).
  pose proof (only_read_ea sz o true s) as Ho.
  destruct (run_ret (LOAD_EA_WITH_UPDATE sz o) s (ends_load_ea_upd false false _ _)) as [src E1].
  rewrite (bind_ret _ _ _ _ _ E1). unfold LOAD_EA_WITH_UPDATE in *. set (s1 := final _ s) in *.
  pose proof (Hwr src s1 (oa_wf _ _ _ Ho Hw)) as Hr.
  pose proof (keeps_wf_write_ea sz (bits_8_6 o) (XREG o) src s1) as Hw2.
  destruct (run_ret _ s1 (ends_write_ea false false sz (bits_8_6 o) (XREG o) src)) as [[] E2].
  rewrite (bind_ret _ _ _ _ _ E2). set (s2 := final _ s1) in *.
  erewrite bind_ret by reflexivity.
  destruct (bus_error_pending (bus s2)) eqn:Ep; cbn [andb when].
  - intros _. apply (put_back _ s s2 Hw (reg_field _)). specialize (Hr Ep). destruct Ho as [Ho Hw1].
    split; [intros i Hi; rewrite Hr; by apply Ho|auto].
  - intros Ep'. change (bus_error_pending (bus s2) = true) in Ep'. congruence.
Qed.

(** ** All instructions that write memory *)

(** The instructions that store an operand or a return address. *)
Definition writes_memory (o : op) : bool :=
  match o with
  | OP_LOGI_DATA_EA _ _ | OP_SUBI_DATA_EA _ | OP_ADDI_DATA_EA _ | OP_MOVE_EA_EA _ | OP_NEGX_EA _
  | OP_CLR_EA _ | OP_NEG_EA _ | OP_NOT_EA _ | OP_MOVE_W_SR_EA | OP_NBCD_B_EA | OP_PEA_EA
  | OP_MOVEM_LIST_EA _ | OP_TAS_B_EA | OP_JSR_EA | OP_SCC_EA | OP_SUBQ_DATA_EA _ | OP_ADDQ_DATA_EA _
  | OP_BSR_L_LABEL | OP_BSR_W_LABEL | OP_BSR_B_LABEL | OP_SBCD_AX_AY | OP_ABCD_AY_AX
  | OP_LOG_DN_EA _ _ | OP_SUBX_AX_AY _ | OP_ADDX_AY_AX _ | OP_SUB_DN_EA _ | OP_ADD_DN_EA _
  | OP_SHIFT_W_EA _ | OP_MOVEP_W_DX_D16AY | OP_MOVEP_L_DX_D16AY | OP_LINK => true
  | OP_BIT_B_DN_EA b | OP_BIT_B_DATA_EA b => match b with BTST => false | _ => true end
  | _ => false
  end.

(** All of them but LINK undo their changes to address registers, and so does CMPM. *)
Definition restartable (o : op) : bool :=
  match o with OP_LINK => false | OP_CMPM_AY_AX _ => true | _ => writes_memory o end.

Lemma control_not_updating o modes : Z.testbit modes (ea_bit (EA_MODE o) (EA_REG o)) = true ->
  Z.testbit modes 3 = false -> Z.testbit modes 4 = false -> updating (EA_MODE o) = false.
Proof.
  intros Hl H3 H4. unfold updating.
  destruct (Z.eqb_spec (EA_MODE o) 3) as [E|]; [rewrite E in Hl; change (Z.testbit modes 3 = true) in Hl; congruence|].
  destruct (Z.eqb_spec (EA_MODE o) 4) as [E|]; [rewrite E in Hl; change (Z.testbit modes 4 = true) in Hl; congruence|].
  done.
Qed.

(** Follows a body to its store. *)
Ltac restore_tac modes :=
  repeat first
    [ apply restores_bind;
        [solve [stays_tac | by apply same_valid | by apply same_load_ea | apply same_load_imm]|intros]
    | apply (store_restores _ _ modes); [done|done]
    | apply restores_local; [apply (store_restores _ _ modes); [done|done]|intros; stays_tac]
    | progress cbv zeta ].

Lemma bsr_restores p : restores (bsr p).
Proof.
  unfold bsr. apply restores_bind; [stays_tac|]. intros r.
  apply restores_local; [apply PUSH_restores|stays_tac].
Qed.
Lemma get_ea_same o modes : Z.testbit modes (ea_bit (EA_MODE o) (EA_REG o)) = true ->
  Z.testbit modes 3 = false -> Z.testbit modes 4 = false -> stays same_a (GET_EA o).
Proof. intros. apply same_ea. right. by apply (control_not_updating o modes). Qed.
Lemma alux_restores f o sz : restores (ARITHX_AX_AY (fun x y => alu (f x y)) o sz).
Proof. apply arithx_restores; intros; [apply same_alu|apply ends_alu]. Qed.
Lemma movep_same o : stays same_a (EA_D16_AN o).
Proof. apply same_ea. by right. Qed.

Lemma exec_op_restores o opcode : restartable o = true -> ea_legal o opcode = true ->
  restores (exec_op o opcode).
Proof.
  intros Hw [Hl Hd]%andb_true_iff.
  destruct o; try discriminate Hw; cbn [ea_modes ea_modes_dst] in Hl, Hd;
    unfold exec_op, IMM_LOGICAL, ARITH_IMM, ARITH_QUICK, ARITH_DN_EA, NEGX, NEG, NOT, CLR, LOGICAL_DN_EA,
      SHIFT_EA, CC, VALID_EA; cbv zeta;
    try (restore_tac data_alterable; fail); try (restore_tac memory_alterable; fail).
  - unfold BIT_OP, bit_of_dx, VALID_EA. destruct b; [done|..]; restore_tac data_alterable.
  - unfold BIT_OP, bit_of_imm, VALID_EA. destruct b; [done|..]; restore_tac data_alterable.
  - apply restores_same. unfold WRITE2x8. stays_tac. apply movep_same.
  - apply restores_same. unfold WRITE4x8, WRITE2x8. stays_tac. apply movep_same.
  - apply restores_bind; [by apply same_valid|]. intros _. apply MOVE_restores; [by destruct s|].
    intros E. rewrite E in Hd. by vm_compute in Hd.
  - apply restores_bind; [by apply same_valid|]. intros _.
    apply restores_bind; [by apply (get_ea_same opcode ea_control)|apply PUSH_restores].
  - apply restores_bind; [by apply same_valid|]. intros _. apply movem_from_restores.
    destruct (Z.eqb_spec (EA_MODE opcode) 4); [by right|left]. unfold updating.
    destruct (Z.eqb_spec (EA_MODE opcode) 3) as [E|]; [rewrite E in Hl; by vm_compute in Hl|].
    by rewrite (proj2 (Z.eqb_neq _ _)).
  - apply restores_bind; [by apply same_valid|]. intros _.
    apply restores_bind; [by apply (get_ea_same opcode ea_control)|apply bsr_restores].
  - apply restores_bind; [stays_tac|]. intros p. apply restores_bind; [stays_tac|]. intros; apply bsr_restores.
  - apply restores_bind; [stays_tac|]. intros p. apply restores_bind; [stays_tac|]. intros; apply bsr_restores.
  - apply restores_bind; [stays_tac|]. intros; apply bsr_restores.
  - apply restores_bind; [stays_tac|]. intros; apply alux_restores.
  - apply restores_bind; [stays_tac|]. intros; apply alux_restores.
  - destruct l; [restore_tac memory_alterable|restore_tac memory_alterable|restore_tac data_alterable].
  - apply alux_restores.
  - apply alux_restores.
  - apply cmpm_restores.
Qed.

(** C35: a bus error never leaves a half-updated address register.  For every
    instruction that stores an operand or a return address (MOVE, MOVEM, the
    read-modify-write and -(Ay),-(Ax) arithmetic, PEA, JSR, BSR ...) except
    LINK (link_not_restartable), and for CMPM, in an addressing mode it has:
    if a bus error is pending when the macro ends, then all eight address
    registers are as they were before the instruction, whichever of its
    accesses faulted.  Instructions that only load, and the frames of
    exceptions, are not claimed. *)
Theorem fault_keeps_address_registers o opcode s :
  (writes_memory o = true /\ o <> OP_LINK) \/ (exists size, o = OP_CMPM_AY_AX size) -> ea_legal o opcode = true -> cpu_wf (cpu s) ->
  bus_error_pending (bus (final (exec_op o opcode) s)) = true ->
  a (cpu (final (exec_op o opcode) s)) = a (cpu s).
Proof.
  intros Ho Hl. apply exec_op_restores; [|done]. destruct Ho as [[Hw Hn]|[size ->]]; [|done]. by destruct o.
Qed.
End Restart.

(** MOVE.L (A0)+,-(A1) with A1 outside the RAM. *)
Definition restart_machine : machine flat_t :=
  mk_machine (put_a 0 0x1000 (put_a 1 0x2000000 (cpu_init CPU_MODEL_68000))) (mk_flat ∅ false 0 false 10) [].
Lemma fault_keeps_address_registers_witness :
  a (cpu (final (exec_op (OP_MOVE_EA_EA B32) 0x2318) restart_machine)) = a (cpu restart_machine).
Proof.
  apply fault_keeps_address_registers.
  - left. done.
  - reflexivity.
  - apply wf_put_a, wf_put_a, cpu_init_wf.
  - vm_compute. reflexivity.
Defined.

(** LINK A0,#-4 whose push faults still loads A0 with the stack pointer and
    moves the stack pointer on. *)
Definition link_machine : machine flat_t :=
  mk_machine (put_a 0 0x1234 (put_a 7 0x2000000 (cpu_init CPU_MODEL_68000))) (mk_flat (<[0 := 0xFF]> (<[1 := 0xFC]> ∅)) false 0 false 10) [].
Example link_not_restartable :
  let m := final (exec_op OP_LINK 0x4E50) link_machine in
  bus_error_pending (bus m) = true /\ a (cpu link_machine) !! 0%nat = Some 0x1234 /\ a (cpu m) !! 0%nat = Some 0x2000000 /\ a (cpu m) !! 7%nat = Some 0x1FFFFFC.
Proof. vm_compute. done. Qed.
