(* ===== verification/Scheduler.v ===== *)
(** * The scheduler: sprints, cycle accounts and the event queue

    Model of src/core/scheduler/scheduler.c.  Emulated time is [cpu_cycles]
    at the last sprint boundary plus the slots consumed since; the CPU runs
    in sprints cut to the next event; events sit in a list sorted by
    timestamp.  The host-time pacing (doubles) is left out, except that the
    governor's comparisons are inputs of its rung logic; list nodes are values
    (the allocation pool recycles nodes only after they left the queue).
    Callbacks and sources are addresses, 0 is NULL. *)
From Stdlib Require Import QArith Qround String.
From S2P Require Import Prelude.
Local Open Scope Z_scope.

Inductive schedule_mode := schedule_paced | schedule_unthrottled | schedule_accelerated.
#[global] Instance schedule_mode_eq_dec : EqDecision schedule_mode.
Proof. solve_decision. Defined.

Record event := mk_event {
  timestamp : Z;
  callback : Z;
  source : Z;
  data : Z;
}.
#[global] Instance event_eq_dec : EqDecision event.
Proof. solve_decision. Defined.

Record event_type := mk_event_type {
  source_name : string;
  et_source : Z;
  event_name : string;
  et_callback : Z;
}.

(** event_as_checkpoint_t *)
Record saved_event := mk_saved {
  sv_timestamp : Z;
  sv_source_name : string;
  sv_event_name : string;
  sv_data : Z;
}.

Record sched := mk_sched {
  mode : schedule_mode;
  running : bool;
  cpu_cycles : Z;
  cpi : Z;
  speed_x256 : Z;
  max_speed_x256 : Z;
  event_types : list event_type;
  cpi_eff_x256 : Z;
  cycle_frac_x256 : Z;
  gov_rung : Z;
  total_instructions : Z;
  sprint_total : Z;
  sprint_burndown : Z;
  cpu_events : list event;
  frequency : Z;
  tmp_events : list saved_event;
  (** Ghost: the events dispatched, latest first, each with [cpu_cycles] at
      its dispatch.  g_sched_events_fired is its length. *)
  fired : list (Z * event);
}.

Definition sched_eta (s : sched) : sched :=
  mk_sched (mode s) (running s) (cpu_cycles s) (cpi s) (speed_x256 s) (max_speed_x256 s)
    (event_types s) (cpi_eff_x256 s) (cycle_frac_x256 s) (gov_rung s) (total_instructions s)
    (sprint_total s) (sprint_burndown s) (cpu_events s) (frequency s) (tmp_events s) (fired s).
Ltac sched_set proj v r := field_set sched_eta proj v r.
Definition set_mode_ (v : schedule_mode) (s : sched) : sched := ltac:(sched_set mode v s).
Definition set_running (v : bool) (s : sched) : sched := ltac:(sched_set running v s).
Definition set_cpu_cycles (v : Z) (s : sched) : sched := ltac:(sched_set cpu_cycles v s).
Definition set_cpi_ (v : Z) (s : sched) : sched := ltac:(sched_set cpi v s).
Definition set_speed_x256 (v : Z) (s : sched) : sched := ltac:(sched_set speed_x256 v s).
Definition set_max_speed_x256 (v : Z) (s : sched) : sched := ltac:(sched_set max_speed_x256 v s).
Definition set_event_types (v : list event_type) (s : sched) : sched := ltac:(sched_set event_types v s).
Definition set_cpi_eff_x256 (v : Z) (s : sched) : sched := ltac:(sched_set cpi_eff_x256 v s).
Definition set_cycle_frac_x256 (v : Z) (s : sched) : sched := ltac:(sched_set cycle_frac_x256 v s).
Definition set_gov_rung (v : Z) (s : sched) : sched := ltac:(sched_set gov_rung v s).
Definition set_total_instructions (v : Z) (s : sched) : sched := ltac:(sched_set total_instructions v s).
Definition set_sprint_total (v : Z) (s : sched) : sched := ltac:(sched_set sprint_total v s).
Definition set_sprint_burndown (v : Z) (s : sched) : sched := ltac:(sched_set sprint_burndown v s).
Definition set_cpu_events (v : list event) (s : sched) : sched := ltac:(sched_set cpu_events v s).
Definition set_frequency_ (v : Z) (s : sched) : sched := ltac:(sched_set frequency v s).
Definition set_tmp_events (v : list saved_event) (s : sched) : sched := ltac:(sched_set tmp_events v s).
Definition set_fired (v : list (Z * event)) (s : sched) : sched := ltac:(sched_set fired v s).

Definition g_sched_events_fired (s : sched) : Z := u64 (Z.of_nat (length (fired s))).

(** GS_ASSERT: [None] is a failed assertion. *)
Definition gs_assert (b : bool) : option unit := if b then Some tt else None.

(** ** Constants *)
Definition NS_PER_SEC : Z := 1000000000.
Definition CYCLES_PER_INSTR_DEFAULT : Z := 12.
Definition MAC_CPU_FREQUENCY : Z := 7833600.
Definition MAX_EVENT_TYPES : Z := 32.
Definition MAX_SANE_EVENTS : Z := 10000.
Definition SPEED_X256_ONE : Z := 256.
Definition SPEED_X256_MAX : Z := 8 * 256.
Definition SPEED_X256_AUTO : Z := 0.
Definition gov_ladder_x256 : list Z := [256; 384; 512; 768; 1024; 1536; 2048].
Definition GOV_NUM_RUNGS : Z := 7.
Definition rung (i : Z) : Z := default 0 (gov_ladder_x256 !! Z.to_nat i).

(** ** Effective CPI and speed *)

Definition scheduler_current_speed_x256 (s : sched) : option Z :=
  gs_assert ((0 <=? gov_rung s) && (gov_rung s <? GOV_NUM_RUNGS));;
  let sp := if negb (speed_x256 s =? SPEED_X256_AUTO) then speed_x256 s else rung (gov_rung s) in
  let sp := if max_speed_x256 s <? sp then max_speed_x256 s else sp in
  Some (if sp <? SPEED_X256_ONE then SPEED_X256_ONE else sp).

Definition scheduler_update_cpi_eff (s : sched) : option sched :=
  gs_assert (0 <? cpi s);;
  let eff := u32 (Z.shiftl (cpi s) 8) in
  eff ← (if decide (mode s = schedule_accelerated) then
           sp ← scheduler_current_speed_x256 s;
           Some (if SPEED_X256_ONE <? sp then
                   let eff := u32 (u64 (Z.shiftl (cpi s) 16) / sp) in
                   if eff =? 0 then 1 else eff
                 else eff)
         else Some eff);
  Some (set_cycle_frac_x256 0 (set_cpi_eff_x256 eff s)).

Definition scheduler_governor_reset (s : sched) : sched := set_gov_rung 0 s.

(** while (max_rung + 1 < GOV_NUM_RUNGS && ladder[max_rung + 1] <= max_speed) *)
Fixpoint max_rung_from (fuel : nat) (max_speed r : Z) : Z :=
  match fuel with
  | O => r
  | S fuel =>
      if (r + 1 <? GOV_NUM_RUNGS) && (rung (r + 1) <=? max_speed)
      then max_rung_from fuel max_speed (r + 1) else r
  end.

(** The rung decision of one governor evaluation.  [pressure] is
    gov_util_ewma > GOV_UTIL_CEILING || audio_pressure; [may_climb] is
    gov_holdoff_secs <= 0 && gov_dwell_secs >= GOV_DWELL_SECS && projected <
    GOV_UTIL_TARGET: both compare host-time doubles. *)
Definition scheduler_governor_tick (pressure may_climb : bool) (s : sched) : option sched :=
  gs_assert (bool_decide (mode s = schedule_accelerated) && (speed_x256 s =? SPEED_X256_AUTO));;
  let max_rung := max_rung_from 7 (max_speed_x256 s) 0 in
  let new_rung := gov_rung s in
  let new_rung :=
    if pressure && (0 <? new_rung) then new_rung - 1
    else if (new_rung <? max_rung) && may_climb then new_rung + 1
    else new_rung in
  let new_rung := if max_rung <? new_rung then max_rung else new_rung in
  if negb (new_rung =? gov_rung s) then scheduler_update_cpi_eff (set_gov_rung new_rung s) else Some s.

(** ** The clock *)

Definition current_cpu_cycles (s : sched) : option Z :=
  gs_assert (sprint_burndown s <=? sprint_total s);;
  gs_assert (cpu_cycles s <? 2 ^ 60);;
  let in_sprint := u32 (sprint_total s - sprint_burndown s) in
  let result := u64 (cpu_cycles s +
    Z.shiftr (u64 (in_sprint * cpi_eff_x256 s + cycle_frac_x256 s)) 8) in
  gs_assert (cpu_cycles s <=? result);;
  Some result.

Definition scheduler_cpu_cycles : sched -> option Z := current_cpu_cycles.

Definition cycles_to_instructions (s : sched) (cycles : Z) : option Z :=
  gs_assert (0 <? cpi_eff_x256 s);;
  let n := u64 (Z.shiftl cycles 8) / cpi_eff_x256 s in
  Some (if (n =? 0) && (0 <? cycles) then 1 else n).

Definition reconcile_sprint (s : sched) : option sched :=
  gs_assert (sprint_burndown s <=? sprint_total s);;
  Some (set_sprint_burndown 0 (set_sprint_total (u32 (sprint_total s - sprint_burndown s)) s)).

Definition cpu_instr_count (s : sched) : option Z :=
  gs_assert (sprint_burndown s <=? sprint_total s);;
  Some (u64 (u64 (total_instructions s + sprint_total s) - sprint_burndown s)).

Definition cpu_reschedule : sched -> option sched := reconcile_sprint.
Definition scheduler_stop (s : sched) : option sched := reconcile_sprint (set_running false s).
Definition scheduler_set_running : bool -> sched -> sched := set_running.
Definition scheduler_is_running (s : sched) : bool := running s.

(** ** Invariant checks *)

(** The queue walk of scheduler_check_invariants: sorted, no NULL callback,
    at most MAX_SANE_EVENTS entries. *)
Fixpoint queue_sane (q : list event) (prev_ts idx : Z) : bool :=
  match q with
  | [] => true
  | e :: q =>
      (prev_ts <=? timestamp e) && negb (callback e =? 0) && (idx + 1 <=? MAX_SANE_EVENTS) &&
      queue_sane q (timestamp e) (idx + 1)
  end.

Definition scheduler_check_invariants (s : sched) : option unit :=
  gs_assert (sprint_burndown s <=? sprint_total s);;
  gs_assert (cpu_cycles s <? 2 ^ 60);;
  gs_assert ((0 <? cpi_eff_x256 s) && (cpi_eff_x256 s <=? u32 (Z.shiftl (cpi s) 8)));;
  gs_assert (cycle_frac_x256 s <? 256);;
  match cpu_events s with
  | [] => Some tt
  | e :: _ =>
      now ← current_cpu_cycles s;
      gs_assert (now <=? u64 (timestamp e + cpi s));;
      gs_assert (queue_sane (cpu_events s) 0 0)
  end.

Fixpoint queue_valid (max_past cycles : Z) (q : list event) (prev_ts count : Z) : bool :=
  match q with
  | [] => true
  | e :: q =>
      (count + 1 <=? MAX_SANE_EVENTS) && negb (callback e =? 0) && (prev_ts <=? timestamp e) &&
      (cycles <=? u64 (timestamp e + max_past)) && queue_valid max_past cycles q (timestamp e) (count + 1)
  end.
Definition validate_cpu_events (s : sched) : option unit :=
  gs_assert (queue_valid (cpi s) (cpu_cycles s) (cpu_events s) 0 0).

(** ** The event queue *)

(** The walk to the insertion point, from the node [cur]. *)
Fixpoint insert_after (cur : event) (next : list event) (new_event : event) : list event :=
  match next with
  | n :: next' =>
      if timestamp n <=? timestamp new_event then cur :: insert_after n next' new_event
      else cur :: new_event :: next
  | [] => [cur; new_event]
  end.
Definition insert_event_queue (queue : list event) (new_event : event) : list event :=
  match queue with
  | [] => [new_event]
  | h :: t =>
      if timestamp new_event <? timestamp h then new_event :: queue
      else insert_after h t new_event
  end.

(** The delay of a new event in cycles. *)
Definition delay_cycles (s : sched) (cycles ns : Z) : Z :=
  if ns =? 0 then cycles else u64 (ns * frequency s) / NS_PER_SEC.

Definition add_event_internal (cb src d cycles ns : Z) (s : sched) : option sched :=
  gs_assert (negb (cycles =? 0) || negb (ns =? 0));;
  gs_assert (negb (negb (cycles =? 0) && negb (ns =? 0)));;
  let cycles := delay_cycles s cycles ns in
  now ← current_cpu_cycles s;
  let e := mk_event (u64 (cycles + now)) cb src d in
  gs_assert (now <=? timestamp e);;
  gs_assert (negb (cb =? 0));;
  Some (set_cpu_events (insert_event_queue (cpu_events s) e) s).

(** find_event_type, and the search of scheduler_new_cpu_event *)
Definition find_event_type (s : sched) (src cb : Z) : option event_type :=
  match filter (fun t => et_source t = src /\ et_callback t = cb) (event_types s) with
  | t :: _ => Some t
  | [] => None
  end.

Definition scheduler_new_cpu_event (cb src d cycles ns : Z) (s : sched) : option sched :=
  gs_assert (negb (cb =? 0));;
  gs_assert (negb (cycles =? 0) || negb (ns =? 0));;
  gs_assert (negb (negb (cycles =? 0) && negb (ns =? 0)));;
  gs_assert (if find_event_type s src cb is Some _ then true else false);;
  scheduler_check_invariants s;;
  validate_cpu_events s;;
  s ← reconcile_sprint s;
  s ← add_event_internal cb src d cycles ns s;
  scheduler_check_invariants s;;
  Some s.

Definition event_matches (cb src : Z) (e : event) : bool :=
  (callback e =? cb) && ((source e =? src) || (src =? 0)).
Definition remove_event (cb src : Z) (s : sched) : sched :=
  set_cpu_events (List.filter (fun e => negb (event_matches cb src e)) (cpu_events s)) s.
Definition remove_event_by_data (cb src d : Z) (s : sched) : sched :=
  set_cpu_events (List.filter (fun e => negb (event_matches cb src e && (data e =? d))) (cpu_events s)) s.
Definition has_event (cb : Z) (s : sched) : bool := existsb (fun e => callback e =? cb) (cpu_events s).

(** ** Settings *)

(** A double argument: a NaN, an infinity or a rational. *)
Inductive double := NaN | Inf (positive : bool) | Fin (q : Q).

(** clamp to [1x, 8x]; (uint32_t)(clamped * 256.0 + 0.5) *)
Definition clamp_speed (q : double) : Z :=
  match q with
  | NaN => 0
  | Inf positive => if positive then SPEED_X256_MAX else SPEED_X256_ONE
  | Fin q =>
      let clamped := if Qle_bool 1 q then q else 1%Q in
      let clamped := if Qle_bool clamped 8 then clamped else 8%Q in
      Qfloor (clamped * 256 + (1 # 2))
  end.
Definition is_zero (q : double) : bool := if q is Fin q then Qeq_bool q 0 else false.

Definition scheduler_set_speed (multiplier : double) (s : sched) : option sched :=
  match multiplier with
  | NaN => Some s
  | _ =>
      let v := if is_zero multiplier then SPEED_X256_AUTO else clamp_speed multiplier in
      scheduler_update_cpi_eff (scheduler_governor_reset (set_speed_x256 v s))
  end.
Definition scheduler_set_max_speed (multiplier : double) (s : sched) : option sched :=
  match multiplier with
  | NaN => Some s
  | _ => scheduler_update_cpi_eff (scheduler_governor_reset (set_max_speed_x256 (clamp_speed multiplier) s))
  end.
Definition scheduler_set_mode (m : schedule_mode) (s : sched) : option sched :=
  if decide (mode s = m) then Some s
  else scheduler_update_cpi_eff (scheduler_governor_reset (set_mode_ m s)).
Definition scheduler_effective_speed_x256 (s : sched) : option Z :=
  if decide (mode s = schedule_accelerated) then scheduler_current_speed_x256 s
  else Some SPEED_X256_ONE.
(** With the E-clock period it publishes (g_esync_period_x256). *)
Definition scheduler_set_frequency (hz : Z) (s : sched) : option (sched * Z) :=
  gs_assert (0 <? hz);;
  Some (set_frequency_ hz s, u32 (u64 (u64 (hz * 256) + 783360 / 2) / 783360)).
Definition scheduler_set_cpi (v : Z) (s : sched) : option sched :=
  gs_assert (0 <? v);; scheduler_update_cpi_eff (set_cpi_ v s).

(** sched_attr_cpi_set: the shell's override is limited to 1..255. *)
Definition sched_attr_cpi_set (v : Z) (s : sched) : option sched :=
  if (v <? 1) || (255 <? v) then Some s else scheduler_set_cpi v s.

(** Shared by scheduler.run: [None] a failed assertion, [Some (false, s)] a
    budget too large. *)
Definition run_stop_event : Z := 1.
Definition scheduler_run_with_budget (self instrs : Z) (s : sched) : option (bool * sched) :=
  let s := remove_event run_stop_event 0 s in
  if instrs =? 0 then Some (true, set_running true s)
  else if (2 ^ 64 - 1) / cpi_eff_x256 s <? instrs then Some (false, s)
  else
    let cycles := Z.shiftr (u64 (instrs * cpi_eff_x256 s)) 8 in
    let cycles := if cycles =? 0 then 1 else cycles in
    s ← scheduler_new_cpu_event run_stop_event self 0 cycles 0 s;
    Some (true, set_running true s).

(** ** The rest of the machine, as the scheduler sees it

    The CPU, the devices behind the event callbacks and the debugger.  An
    operation that can reach the scheduler again (a callback, or a sprint
    whose bus accesses reach a device) takes and returns its state. *)
Class Platform (W : Type) := {
  cpu_is_stopped : W -> bool;
  cpu_poll : sched -> W -> sched * W;
  (** cpu_run_sprint(cpu, &s->sprint_burndown); [None]: undefined behaviour *)
  cpu_run_sprint : sched -> W -> option (sched * W);
  (** g_io_cpi_x256, g_sprint_base_cycles, ... at the start of a sprint *)
  publish_sprint : sched -> W -> W;
  (** g_io_phantom_instructions, and its reset *)
  phantom : W -> Z;
  clear_phantom : W -> W;
  debug_active : W -> bool;
  debug_break_and_trace : W -> bool * W;
  (** e->callback(e->source, e->data) *)
  dispatch : event -> sched -> W -> sched * W;
}.

Inductive result (A : Type) :=
  | Returns (a : A)
  | Asserts            (* a GS_ASSERT failed *)
  | Stuck              (* the CPU core executed undefined behaviour *)
  | Out_of_fuel.
Arguments Returns {A}. Arguments Asserts {A}. Arguments Stuck {A}. Arguments Out_of_fuel {A}.

Definition lift {A} (o : option A) : result A := if o is Some a then Returns a else Asserts.
Definition then_ {A B} (r : result A) (k : A -> result B) : result B :=
  match r with
  | Returns a => k a
  | Asserts => Asserts
  | Stuck => Stuck
  | Out_of_fuel => Out_of_fuel
  end.
Notation "x <- m ; k" := (then_ m (fun x => k)) (at level 20, m at level 100, k at level 200, right associativity).
Notation "' p <- m ; k" := (then_ m (fun p => k)) (at level 20, p pattern, m at level 100, k at level 200, right associativity).

Section Loop.
Context {W : Type} `{Platform W}.

(** while ( *queue != NULL && ( *queue)->timestamp <= current_time) *)
Fixpoint process_event_queue (fuel : nat) (current_time : Z) (s : sched) (w : W) : result (sched * W) :=
  match cpu_events s with
  | e :: q =>
      if timestamp e <=? current_time then
        match fuel with
        | O => Out_of_fuel
        | S fuel =>
            let s := set_fired ((cpu_cycles s, e) :: fired s) (set_cpu_events q s) in
            let '(s, w) := dispatch e s w in
            process_event_queue fuel current_time s w
        end
      else Returns (s, w)
  | [] => Returns (s, w)
  end.

(** if (s->cpu_events != NULL) GS_ASSERT(s->cpu_events->timestamp + slack >= s->cpu_cycles) *)
Definition assert_head (slack : Z) (s : sched) : result unit :=
  match cpu_events s with
  | e :: _ => lift (gs_assert (cpu_cycles s <=? u64 (timestamp e + slack)))
  | [] => Returns tt
  end.

(** What the loop does next: [Again remaining_cycles] or a break. *)
Inductive next := Again (remaining : Z) | Break.

(** The iteration for a CPU halted by STOP. *)
Definition stopped_step (qfuel : nat) (remaining : Z) (s : sched) (w : W) : result (next * sched * W) :=
  let '(s, w) := cpu_poll s w in
  if cpu_is_stopped w then
    match cpu_events s with
    | [] => Returns (Break, s, w)
    | e :: _ =>
        let cte := if cpu_cycles s <? timestamp e then u64 (timestamp e - cpu_cycles s) else 0 in
        let advance := if cte <? remaining then cte else remaining in
        let s := set_cpu_cycles (u64 (cpu_cycles s + advance)) s in
        '(s, w) <- process_event_queue qfuel (cpu_cycles s) s w;
        let '(s, w) := cpu_poll s w in
        Returns (Again (u64 (remaining - advance)), s, w)
    end
  else Returns (Again remaining, s, w).

(** The cycle budget of the next sprint: clamped to the next event. *)
Definition clamp_to_event (remaining : Z) (s : sched) : result Z :=
  match cpu_events s with
  | e :: _ =>
      _ <- assert_head 0 s;
      let cycles_to_event := if cpu_cycles s <? timestamp e then u64 (timestamp e - cpu_cycles s) else 0 in
      Returns (if cycles_to_event <? remaining then cycles_to_event else remaining)
  | [] => Returns remaining
  end.
(** The cycle budget and the slots planned for it. *)
Definition plan_sprint (debugger_active : bool) (remaining : Z) (s : sched) : result (Z * Z) :=
  cycles_to_execute <- clamp_to_event remaining s;
  n <- lift (cycles_to_instructions s cycles_to_execute);
  let instr_to_exec := u32 n in
  let instr_to_exec := if (0 <? cycles_to_execute) && (instr_to_exec =? 0) then 1 else instr_to_exec in
  Returns (cycles_to_execute, if debugger_active then 1 else instr_to_exec).

(** Folds a finished sprint into the counters; also returns the cycles. *)
Definition finish_sprint (phantom : Z) (s : sched) : Z * sched :=
  let executed_slots := sprint_total s in
  let advance_x256 := u64 (executed_slots * cpi_eff_x256 s + cycle_frac_x256 s) in
  let executed_cycles := u32 (Z.shiftr advance_x256 8) in
  let real := if phantom <? executed_slots then u32 (executed_slots - phantom) else 0 in
  (executed_cycles,
   set_cpu_cycles (u64 (cpu_cycles s + executed_cycles))
     (set_total_instructions (u64 (total_instructions s + real))
        (set_cycle_frac_x256 (Z.land advance_x256 0xFF) (set_sprint_total 0 s)))).

(** The iteration that runs a sprint. *)
Definition sprint_iteration (qfuel : nat) (debugger_active : bool) (remaining : Z) (s : sched) (w : W) :
    result (next * sched * W) :=
  '(cycles_to_execute, instr_to_exec) <- plan_sprint debugger_active remaining s;
  let s := set_sprint_burndown instr_to_exec (set_sprint_total instr_to_exec s) in
  '(s, w) <- match cpu_run_sprint s (publish_sprint s w) with Some r => Returns r | None => Stuck end;
  let '(executed_cycles, s') := finish_sprint (phantom w) s in
  let s := s' in
  let w := clear_phantom w in
  _ <- lift (gs_assert (match cpu_events s with
                        | [] => true
                        | _ => executed_cycles <=? u64 (cycles_to_execute + cpi s)
                        end));
  let remaining := if executed_cycles <? remaining then u64 (remaining - executed_cycles) else 0 in
  _ <- assert_head (cpi s) s;
  let '(hit, w) := if debugger_active then debug_break_and_trace w else (false, w) in
  if hit : bool then Returns (Break, set_running false s, w) else
  '(s, w) <- process_event_queue qfuel (cpu_cycles s) s w;
  _ <- assert_head 0 s;
  if negb (running s) then
    s <- lift (reconcile_sprint s); Returns (Break, s, w)
  else Returns (Again remaining, s, w).

Definition run_step (qfuel : nat) (debugger_active : bool) (remaining : Z) (s : sched) (w : W) :
    result (next * sched * W) :=
  _ <- lift (gs_assert (sprint_burndown s <=? sprint_total s));
  if cpu_is_stopped w then stopped_step qfuel remaining s w
  else sprint_iteration qfuel debugger_active remaining s w.

(** while (remaining_cycles > 0) *)
Fixpoint run_cycles (fuel qfuel : nat) (debugger_active : bool) (remaining : Z) (s : sched) (w : W) :
    result (sched * W) :=
  if 0 <? remaining then
    match fuel with
    | O => Out_of_fuel
    | S fuel =>
        '(n, s, w) <- run_step qfuel debugger_active remaining s w;
        match n with
        | Break => Returns (s, w)
        | Again remaining => run_cycles fuel qfuel debugger_active remaining s w
        end
    end
  else Returns (s, w).

Definition scheduler_run_instructions (fuel qfuel : nat) (n : Z) (s : sched) (w : W) : result (sched * W) :=
  _ <- lift (scheduler_check_invariants s);
  _ <- assert_head 0 s;
  let s := set_running true s in
  let debugger_active := debug_active w in
  let remaining := Z.shiftr (u64 (n * cpi_eff_x256 s)) 8 in
  '(s, w) <- run_cycles fuel qfuel debugger_active remaining s w;
  _ <- lift (gs_assert (sprint_burndown s <=? sprint_total s));
  _ <- assert_head 0 s;
  _ <- lift (scheduler_check_invariants s);
  Returns (s, w).

Definition scheduler_run_usecs (fuel qfuel : nat) (usecs : Z) (s : sched) (w : W) : result (sched * W) :=
  _ <- lift (scheduler_check_invariants s);
  _ <- assert_head 0 s;
  let s := set_running true s in
  let instrs := u64 (u64 (usecs * frequency s) * 256) / u64 (1000000 * cpi_eff_x256 s) in
  scheduler_run_instructions fuel qfuel instrs s w.
End Loop.

(** ** Lifecycle: event types, checkpoints, restore *)

(** strncpy into a 64-byte buffer, NUL-terminated *)
Definition name64 (n : string) : string := String.substring 0 63 n.

Definition same_type (src cb : Z) (t : event_type) : bool := (et_callback t =? cb) && (et_source t =? src).
Fixpoint rename_type (sn en : string) (src cb : Z) (l : list event_type) : option (list event_type) :=
  match l with
  | [] => None
  | t :: l =>
      if same_type src cb t then Some (mk_event_type (name64 sn) src (name64 en) cb :: l)
      else l ← rename_type sn en src cb l; Some (t :: l)
  end.
Definition scheduler_new_event_type (sn : string) (src : Z) (en : string) (cb : Z) (s : sched) : option sched :=
  gs_assert (negb (String.eqb sn EmptyString));;
  gs_assert (negb (String.eqb en EmptyString));;
  gs_assert (negb (cb =? 0));;
  gs_assert (Z.of_nat (length (event_types s)) <? MAX_EVENT_TYPES);;
  match rename_type sn en src cb (event_types s) with
  | Some l => Some (set_event_types l s)
  | None => Some (set_event_types (event_types s ++ [mk_event_type (name64 sn) src (name64 en) cb]) s)
  end.

(** The plain-data prefix of struct scheduler (up to event_types) and the
    events by name.  The host-time doubles of the prefix are reset on restore. *)
Record checkpoint := mk_checkpoint {
  ck_mode : schedule_mode;
  ck_running : bool;
  ck_cpu_cycles : Z;
  ck_cpi : Z;
  ck_speed_x256 : Z;
  ck_max_speed_x256 : Z;
  ck_events : list saved_event;
}.

Definition save_event (s : sched) (e : event) : option saved_event :=
  t ← find_event_type s (source e) (callback e);
  Some (mk_saved (timestamp e) (source_name t) (event_name t) (data e)).
Fixpoint save_events (s : sched) (q : list event) : option (list saved_event) :=
  match q with
  | [] => Some []
  | e :: q => v ← save_event s e; l ← save_events s q; Some (v :: l)
  end.
Definition scheduler_checkpoint (s : sched) : option checkpoint :=
  gs_assert (cpu_cycles s <? 2 ^ 60);;
  gs_assert (Z.of_nat (length (event_types s)) <=? MAX_EVENT_TYPES);;
  validate_cpu_events s;;
  l ← save_events s (cpu_events s);
  Some (mk_checkpoint (mode s) (running s) (cpu_cycles s) (cpi s) (speed_x256 s) (max_speed_x256 s) l).

(** scheduler_init; [self] is the address of the scheduler itself. *)
Definition scheduler_init (self : Z) (ck : option checkpoint) : option sched :=
  s ← match ck with
      | Some c =>
          gs_assert (0 <? ck_cpi c);;
          gs_assert (ck_cpu_cycles c <? 2 ^ 60);;
          gs_assert (Z.of_nat (length (ck_events c)) <=? MAX_SANE_EVENTS);;
          let sp := ck_speed_x256 c in
          let sp := if negb (sp =? SPEED_X256_AUTO) && ((sp <? SPEED_X256_ONE) || (SPEED_X256_MAX <? sp))
                    then SPEED_X256_AUTO else sp in
          let mx := ck_max_speed_x256 c in
          let mx := if (mx <? SPEED_X256_ONE) || (SPEED_X256_MAX <? mx) then SPEED_X256_MAX else mx in
          Some (mk_sched (ck_mode c) (ck_running c) (ck_cpu_cycles c) (ck_cpi c) sp mx [] 0 0 0
                  (ck_cpu_cycles c / ck_cpi c) 0 0 [] MAC_CPU_FREQUENCY (ck_events c) [])
      | None =>
          Some (mk_sched schedule_paced false 0 CYCLES_PER_INSTR_DEFAULT SPEED_X256_AUTO SPEED_X256_MAX
                  [] 0 0 0 0 0 0 [] MAC_CPU_FREQUENCY [] [])
      end;
  s ← scheduler_update_cpi_eff (scheduler_governor_reset s);
  scheduler_new_event_type "scheduler" self "run_stop" run_stop_event s.

(** The type registered under a saved event's names. *)
Fixpoint type_by_name (l : list event_type) (sn en : string) : option event_type :=
  match l with
  | [] => None
  | t :: l =>
      if String.eqb (source_name t) sn && String.eqb (event_name t) en then Some t
      else type_by_name l sn en
  end.
Fixpoint restore_events (l : list saved_event) (s : sched) : option sched :=
  match l with
  | [] => Some s
  | v :: l =>
      t ← type_by_name (event_types s) (sv_source_name v) (sv_event_name v);
      gs_assert (cpu_cycles s <=? u64 (sv_timestamp v + cpi s));;
      gs_assert (negb (et_callback t =? 0));;
      let e := mk_event (sv_timestamp v) (et_callback t) (et_source t) (sv_data v) in
      restore_events l (set_cpu_events (insert_event_queue (cpu_events s) e) s)
  end.
Definition scheduler_start (s : sched) : option sched :=
  match tmp_events s with
  | [] => Some s
  | l =>
      s ← restore_events l s;
      let s := set_tmp_events [] s in
      scheduler_check_invariants s;;
      Some s
  end.
