(* ===== verification/SchedulerProofs.v ===== *)
(** * Invariants of the scheduler

    The clock in terms of whole numbers, the invariant [sched_ok], the event
    queue as a stable sorted insertion, and the effect of every operation a
    callback or a bus access may call back into ([api_step]). *)
From Stdlib Require Import Sorted.
From S2P Require Import Prelude Scheduler.

Lemma u64_small x : 0 <= x < 2 ^ 64 -> u64 x = x.
Proof. apply wrap_small. Qed.

(** ** The clock *)

(** The whole cycles that the first [n] slots of a sprint take. *)
Definition slot_cycles (s : sched) (n : Z) : Z := Z.shiftr (n * cpi_eff_x256 s + cycle_frac_x256 s) 8.
(** The cycle count now, and at the end of the sprint as planned. *)
Definition now (s : sched) : Z := cpu_cycles s + slot_cycles s (sprint_total s - sprint_burndown s).
Definition plan_end (s : sched) : Z := cpu_cycles s + slot_cycles s (sprint_total s).

Definition event_ok (e : event) : Prop := 0 <= timestamp e < 2 ^ 63 /\ callback e <> 0.
Definition before (e e' : event) : Prop := timestamp e <= timestamp e'.

Record sched_ok (s : sched) : Prop := {
  ok_cpi : 0 < cpi s < 2 ^ 24;
  ok_eff : 0 < cpi_eff_x256 s <= cpi s * 256;
  ok_frac : 0 <= cycle_frac_x256 s < 256;
  ok_sprint : 0 <= sprint_burndown s <= sprint_total s;
  ok_total : sprint_total s < 2 ^ 32;
  ok_cycles : 0 <= cpu_cycles s;
  ok_end : plan_end s < 2 ^ 60;
  ok_sorted : StronglySorted before (cpu_events s);
  ok_events : Forall event_ok (cpu_events s);
  ok_length : Z.of_nat (length (cpu_events s)) <= MAX_SANE_EVENTS;
  ok_late : Forall (fun e => plan_end s < timestamp e + cpi s) (cpu_events s);
}.

(** Between sprints. *)
Definition idle (s : sched) : Prop := sprint_total s = 0 /\ sprint_burndown s = 0.

Lemma slot_cycles_mono s n n' : 0 < cpi_eff_x256 s -> n <= n' -> slot_cycles s n <= slot_cycles s n'.
Proof.
  intros. unfold slot_cycles. rewrite !Z.shiftr_div_pow2 by lia. apply Z.div_le_mono; [lia|nia].
Qed.
Lemma slot_cycles_nonneg s n : 0 < cpi_eff_x256 s -> 0 <= cycle_frac_x256 s -> 0 <= n -> 0 <= slot_cycles s n.
Proof. intros. unfold slot_cycles. apply Z.shiftr_nonneg. nia. Qed.
Lemma slot_cycles_0 s : 0 <= cycle_frac_x256 s < 256 -> slot_cycles s 0 = 0.
Proof. intros. unfold slot_cycles. rewrite Z.shiftr_div_pow2 by lia. apply Z.div_small. simpl. lia. Qed.

Lemma now_le_end s : sched_ok s -> now s <= plan_end s.
Proof. intros []. unfold now, plan_end. apply Zplus_le_compat_l, slot_cycles_mono; lia. Qed.
Lemma cycles_le_now s : sched_ok s -> cpu_cycles s <= now s.
Proof. intros []. unfold now. pose proof (slot_cycles_nonneg s (sprint_total s - sprint_burndown s) ltac:(lia) ltac:(lia) ltac:(lia)). lia. Qed.

Lemma idle_now s : sched_ok s -> idle s -> now s = cpu_cycles s /\ plan_end s = cpu_cycles s.
Proof. intros [] [E1 E2]. unfold now, plan_end. rewrite E1, E2, Z.sub_0_r, slot_cycles_0 by done. lia. Qed.

(** [current_cpu_cycles] never overflows and computes [now]. *)
Lemma current_cpu_cycles_ok s : sched_ok s -> current_cpu_cycles s = Some (now s).
Proof.
  intros H. pose proof (now_le_end s H) as Hn. pose proof (cycles_le_now s H) as Hc. destruct H.
  unfold current_cpu_cycles, gs_assert.
  rewrite (proj2 (Z.leb_le (sprint_burndown s) _)) by lia. simpl. rewrite (proj2 (Z.ltb_lt (cpu_cycles s) _)) by lia. simpl.
  set (n := sprint_total s - sprint_burndown s). assert (0 <= n < 2 ^ 32) by lia.
  rewrite (u32_small n) by done.
  assert (0 <= n * cpi_eff_x256 s + cycle_frac_x256 s < 2 ^ 64) as Hs by (pow2; nia).
  rewrite (u64_small _ Hs).
  fold (slot_cycles s n). change (cpu_cycles s + slot_cycles s n) with (now s).
  rewrite u64_small by (pow2; lia). rewrite (proj2 (Z.leb_le _ _)) by lia. done.
Qed.

(** ** The queue checks hold *)

Lemma queue_sane_ok q prev k :
  StronglySorted before q -> Forall event_ok q -> Forall (fun e => prev <= timestamp e) q ->
  k + Z.of_nat (length q) <= MAX_SANE_EVENTS -> queue_sane q prev k = true.
Proof.
  revert prev k. induction q as [|e q IH]; intros prev k Hs Ho Hp Hl; [done|].
  inversion Hs; inversion Ho as [|? ? [_ Hcb]]; inversion Hp; subst. simpl in *.
  rewrite (proj2 (Z.leb_le _ _)), (proj2 (Z.eqb_neq _ _)), (proj2 (Z.leb_le _ _)) by (done || lia).
  simpl. apply IH; [done..|lia].
Qed.
Lemma queue_valid_ok m c q prev k :
  StronglySorted before q -> Forall event_ok q -> Forall (fun e => prev <= timestamp e) q ->
  Forall (fun e => c <= timestamp e + m) q -> 0 <= m < 2 ^ 24 ->
  k + Z.of_nat (length q) <= MAX_SANE_EVENTS -> queue_valid m c q prev k = true.
Proof.
  revert prev k. induction q as [|e q IH]; intros prev k Hs Ho Hp Hc Hm Hl; [done|].
  inversion Hs; inversion Ho as [|? ? [? Hcb]]; inversion Hp; inversion Hc; subst. simpl in *.
  rewrite u64_small by (pow2; lia).
  rewrite (proj2 (Z.leb_le _ _)), (proj2 (Z.eqb_neq _ _)), (proj2 (Z.leb_le _ _)), (proj2 (Z.leb_le _ _)) by (done || lia).
  simpl. apply IH; [done..|lia].
Qed.

Lemma ok_from_zero s : sched_ok s -> Forall (fun e => 0 <= timestamp e) (cpu_events s).
Proof. intros []. eapply Forall_impl; [|exact ok_events0]. intros e [[]]. lia. Qed.

Lemma check_invariants_ok s : sched_ok s -> scheduler_check_invariants s = Some tt.
Proof.
  intros H. pose proof (current_cpu_cycles_ok s H) as En. pose proof (now_le_end s H).
  pose proof (ok_from_zero s H) as Hz. pose proof (cycles_le_now s H). destruct H. unfold scheduler_check_invariants, gs_assert.
  rewrite (proj2 (Z.leb_le (sprint_burndown s) _)) by lia. simpl. rewrite (proj2 (Z.ltb_lt _ _)) by lia. simpl.
  rewrite Z.shiftl_mul_pow2, (proj2 (Z.ltb_lt 0 _)) by lia.
  rewrite u32_small by (unfold in_width; pow2; lia).
  rewrite (proj2 (Z.leb_le (cpi_eff_x256 s) _)) by (pow2; lia). simpl. rewrite (proj2 (Z.ltb_lt _ _)) by lia. simpl.
  destruct (cpu_events s) as [|e q] eqn:E; [done|]. rewrite En. cbn [mbind option_bind].
  rewrite (queue_sane_ok (e :: q) 0 0 ok_sorted0 ok_events0 Hz ltac:(lia)).
  pose proof (Forall_inv ok_events0) as [He _]. pose proof (Forall_inv ok_late0) as Hl. cbv beta in Hl.
  rewrite u64_small by (pow2; lia).
  by rewrite (proj2 (Z.leb_le _ _)) by lia.
Qed.
Lemma validate_ok s : sched_ok s -> validate_cpu_events s = Some tt.
Proof.
  intros H. pose proof (ok_from_zero s H). pose proof (now_le_end s H). pose proof (cycles_le_now s H).
  destruct H. unfold validate_cpu_events. rewrite queue_valid_ok; auto; try lia.
  eapply Forall_impl; [|exact ok_late0]. simpl. lia.
Qed.

(** ** Insertion *)

(** The queue with [e] inserted after every event due no later. *)
Definition insert_spec (q : list event) (e : event) : list event :=
  List.filter (fun x => timestamp x <=? timestamp e) q ++
  e :: List.filter (fun x => timestamp e <? timestamp x) q.

Lemma filter_all {A} (f : A -> bool) q : Forall (fun x => f x = true) q -> List.filter f q = q.
Proof. induction 1 as [|x q Hx _ IH]; simpl; [done|]. by rewrite Hx, IH. Qed.
Lemma filter_none {A} (f : A -> bool) q : Forall (fun x => f x = false) q -> List.filter f q = [].
Proof. induction 1 as [|x q Hx _ IH]; simpl; [done|]. by rewrite Hx. Qed.

Lemma insert_spec_later q e : Forall (fun x => timestamp e < timestamp x) q -> insert_spec q e = e :: q.
Proof.
  intros H. unfold insert_spec. rewrite filter_none, filter_all; [done|..];
    (eapply Forall_impl; [|exact H]); simpl; intros; zbool; done || lia.
Qed.
Lemma later_than t h q : Forall (before h) q -> t < timestamp h ->
  Forall (fun x => t < timestamp x) (h :: q).
Proof. intros H Hh. constructor; [done|]. eapply Forall_impl; [|exact H]. unfold before. lia. Qed.
Lemma insert_spec_cons h q e : timestamp h <= timestamp e -> insert_spec (h :: q) e = h :: insert_spec q e.
Proof.
  intros. unfold insert_spec. simpl.
  by rewrite (proj2 (Z.leb_le (timestamp h) _)), (proj2 (Z.ltb_ge (timestamp e) (timestamp h))).
Qed.

Lemma insert_after_ok c q e : StronglySorted before q -> insert_after c q e = c :: insert_spec q e.
Proof.
  revert c. induction q as [|h q IH]; intros c Hs; [done|]. inversion Hs; subst. simpl.
  destruct (Z.leb_spec (timestamp h) (timestamp e)).
  - by rewrite IH, insert_spec_cons.
  - by rewrite (insert_spec_later (h :: q)) by by apply later_than.
Qed.
Lemma insert_event_queue_ok q e : StronglySorted before q -> insert_event_queue q e = insert_spec q e.
Proof.
  intros Hs. destruct q as [|h q]; [done|]. inversion Hs; subst. simpl.
  destruct (Z.ltb_spec (timestamp e) (timestamp h)).
  - by rewrite (insert_spec_later (h :: q)) by by apply later_than.
  - by rewrite insert_after_ok, insert_spec_cons.
Qed.

Lemma Sorted_filter {A} (R : A -> A -> Prop) (f : A -> bool) q :
  StronglySorted R q -> StronglySorted R (List.filter f q).
Proof.
  induction 1 as [|x q Hs IH Hx]; simpl; [constructor|]. destruct (f x); [|done]. constructor; [done|].
  rewrite Forall_forall in Hx |- *. intros y. rewrite filter_In. intros [Hy _]. by apply Hx.
Qed.
Lemma Forall_List_filter {A} (P : A -> Prop) (f : A -> bool) q : Forall P q -> Forall P (List.filter f q).
Proof. induction 1; simpl; [done|]. destruct (f x); auto. Qed.
Lemma Forall_filter_true {A} (f : A -> bool) q : Forall (fun x => f x = true) (List.filter f q).
Proof. apply Forall_forall. intros x. rewrite filter_In. tauto. Qed.

Lemma Sorted_app {A} (R : A -> A -> Prop) l1 l2 :
  StronglySorted R l1 -> StronglySorted R l2 -> (forall x y, In x l1 -> In y l2 -> R x y) -> StronglySorted R (l1 ++ l2).
Proof.
  intros H1 H2. induction H1 as [|x l1 Hs IH Hx]; intros Hc; simpl; [done|]. constructor.
  - apply IH. intros. apply Hc; [by right|done].
  - apply Forall_app. split; [done|]. apply Forall_forall. intros. apply Hc; [by left|done].
Qed.

Lemma insert_spec_sorted q e : StronglySorted before q -> StronglySorted before (insert_spec q e).
Proof.
  intros Hs. unfold insert_spec. pose proof (Forall_filter_true (fun x => timestamp x <=? timestamp e) q) as Hlo.
  pose proof (Forall_filter_true (fun x => timestamp e <? timestamp x) q) as Hhi.
  rewrite Forall_forall in Hlo. rewrite Forall_forall in Hhi. apply Sorted_app.
  - by apply Sorted_filter.
  - constructor; [by apply Sorted_filter|]. apply Forall_forall. intros y Hy.
    specialize (Hhi y Hy). unfold before. apply Z.ltb_lt in Hhi. lia.
  - intros x y Hx Hy. specialize (Hlo x Hx). apply Z.leb_le in Hlo. unfold before.
    destruct Hy as [<-|Hy]; [done|]. specialize (Hhi y Hy). apply Z.ltb_lt in Hhi. lia.
Qed.
Lemma insert_spec_perm q e : insert_spec q e ≡ₚ e :: q.
Proof.
  unfold insert_spec. rewrite <-Permutation_middle. constructor.
  induction q as [|x q IH]; simpl; [done|].
  destruct (Z.leb_spec (timestamp x) (timestamp e)), (Z.ltb_spec (timestamp e) (timestamp x)); try lia; simpl.
  - by rewrite IH.
  - by rewrite <-Permutation_middle, IH.
Qed.
Lemma filter_length_perm {A} (f : A -> bool) q q' : q ≡ₚ q' -> length (List.filter f q') = length (List.filter f q).
Proof. induction 1; simpl; repeat case_match; simpl; congruence. Qed.
Lemma insert_spec_Forall (P : event -> Prop) q e : Forall P q -> P e -> Forall P (insert_spec q e).
Proof. intros. rewrite (insert_spec_perm q e). by constructor. Qed.

(** ** Operations that call back into the scheduler *)

Definition reconciled (s : sched) : sched :=
  set_sprint_burndown 0 (set_sprint_total (sprint_total s - sprint_burndown s) s).

Lemma reconcile_ok s : sched_ok s -> reconcile_sprint s = Some (reconciled s).
Proof.
  intros []. unfold reconcile_sprint, gs_assert. rewrite (proj2 (Z.leb_le _ _)) by lia. simpl.
  by rewrite u32_small by (unfold in_width; lia).
Qed.

(** Reconciling moves the planned end of the sprint to the present. *)
Lemma reconciled_now s : now (reconciled s) = now s.
Proof. unfold now, reconciled, slot_cycles. simpl. by rewrite Z.sub_0_r. Qed.
Lemma reconciled_end s : plan_end (reconciled s) = now s.
Proof. done. Qed.
Lemma reconciled_ok s : sched_ok s -> sched_ok (reconciled s).
Proof.
  intros H. pose proof (now_le_end s H). destruct H. split; simpl; try done; try lia.
  - rewrite reconciled_end. lia.
  - eapply Forall_impl; [|exact ok_late0]. simpl. rewrite reconciled_end. lia.
Qed.

(** Dropping events, and the running flag, keep the invariant. *)
Lemma events_ok (f : event -> bool) s : sched_ok s -> sched_ok (set_cpu_events (List.filter f (cpu_events s)) s).
Proof.
  intros []. split; simpl; try done.
  - by apply Sorted_filter.
  - by apply Forall_List_filter.
  - pose proof (List.filter_length_le f (cpu_events s)). lia.
  - by apply Forall_List_filter.
Qed.
Lemma running_ok b s : sched_ok s -> sched_ok (set_running b s).
Proof. by intros []. Qed.

(** A new event goes in at the present plus its delay. *)
Definition with_event (e : event) (s : sched) : sched :=
  set_cpu_events (insert_spec (cpu_events s) e) (reconciled s).
Definition new_event (cb src d delay : Z) (s : sched) : event := mk_event (now s + delay) cb src d.

Lemma with_event_ok cb src d delay s :
  sched_ok s -> cb <> 0 -> 0 <= delay < 2 ^ 62 -> Z.of_nat (length (cpu_events s)) < MAX_SANE_EVENTS ->
  sched_ok (with_event (new_event cb src d delay s) s).
Proof.
  intros H Hcb Hd Hl. pose proof (now_le_end s H). pose proof (cycles_le_now s H).
  pose proof (reconciled_ok s H) as Hr. destruct H, Hr. split; simpl; try done.
  - by apply insert_spec_sorted.
  - apply insert_spec_Forall; [done|]. split; [simpl; pow2; lia|done].
  - rewrite (Permutation_length (insert_spec_perm _ _)). simpl. lia.
  - apply insert_spec_Forall; [done|]. change (now s < now s + delay + cpi s). lia.
Qed.

(** The arguments [scheduler_new_cpu_event] asserts. *)
Definition event_args (cb src cycles ns : Z) (s : sched) : Prop :=
  cb <> 0 /\ (cycles = 0 <-> ns <> 0) /\ is_Some (find_event_type s src cb).

Lemma new_cpu_event_ok cb src d cycles ns s :
  sched_ok s -> event_args cb src cycles ns s ->
  0 <= delay_cycles s cycles ns < 2 ^ 62 -> Z.of_nat (length (cpu_events s)) < MAX_SANE_EVENTS ->
  scheduler_new_cpu_event cb src d cycles ns s =
  Some (with_event (new_event cb src d (delay_cycles s cycles ns) s) s).
Proof.
  intros H (Hcb & Hcn & [t Ht]) Hd Hl. unfold scheduler_new_cpu_event.
  pose proof (with_event_ok cb src d _ s H Hcb Hd Hl) as Hok.
  pose proof (now_le_end s H). pose proof (cycles_le_now s H). pose proof (ok_end s H). pose proof (ok_cycles s H).
  unfold gs_assert. rewrite (proj2 (Z.eqb_neq cb 0) Hcb), Ht. cbn [negb mbind option_bind].
  assert (negb (cycles =? 0) || negb (ns =? 0) = true /\ negb (negb (cycles =? 0) && negb (ns =? 0)) = true) as [E1 E2].
  { destruct (Z.eqb_spec cycles 0), (Z.eqb_spec ns 0); split; try done; tauto. }
  rewrite E1, E2. cbn [mbind option_bind].
  rewrite (check_invariants_ok s H), (validate_ok s H), (reconcile_ok s H). cbn [mbind option_bind].
  unfold add_event_internal, gs_assert. rewrite E1, E2. cbn [mbind option_bind].
  rewrite (current_cpu_cycles_ok _ (reconciled_ok s H)), reconciled_now. cbn [mbind option_bind].
  change (delay_cycles (reconciled s) cycles ns) with (delay_cycles s cycles ns).
  cbn [timestamp callback]. rewrite (Z.add_comm (delay_cycles s cycles ns)), u64_small by (pow2; lia).
  rewrite (proj2 (Z.leb_le (now s) _)), (proj2 (Z.eqb_neq cb 0) Hcb) by lia. cbn [negb mbind option_bind].
  rewrite insert_event_queue_ok by apply H.
  fold (new_event cb src d (delay_cycles s cycles ns) s).
  change (set_cpu_events _ (reconciled s)) with (with_event (new_event cb src d (delay_cycles s cycles ns) s) s).
  by rewrite (check_invariants_ok _ Hok).
Qed.

(** The operations an event callback, a bus access or an interrupt poll may
    call.  New events lie at least one cycle ahead. *)
Inductive api_step (s : sched) : sched -> Prop :=
  | api_new cb src d cycles ns s' :
      event_args cb src cycles ns s -> 1 <= delay_cycles s cycles ns < 2 ^ 62 ->
      Z.of_nat (length (cpu_events s)) < MAX_SANE_EVENTS ->
      scheduler_new_cpu_event cb src d cycles ns s = Some s' -> api_step s s'
  | api_remove cb src : api_step s (remove_event cb src s)
  | api_remove_data cb src d : api_step s (remove_event_by_data cb src d s)
  | api_reschedule s' : cpu_reschedule s = Some s' -> api_step s s'
  | api_stop s' : scheduler_stop s = Some s' -> api_step s s'
  | api_running b : api_step s (scheduler_set_running b s).

(** During a sprint the CPU, the bus penalties and a bus error also burn
    slots. *)
Inductive sprint_step (s : sched) : sched -> Prop :=
  | sprint_api s' : api_step s s' -> sprint_step s s'
  | sprint_burn n : 0 <= n <= sprint_burndown s -> sprint_step s (set_sprint_burndown n s).

(** The number of events due at [t]. *)
Definition due (t : Z) (q : list event) : nat := length (List.filter (fun e => timestamp e <=? t) q).
#[export] Instance due_proper t : Proper ((≡ₚ) ==> eq) (due t).
Proof.
  intros q q' H. unfold due. induction H; simpl; repeat case_match; simpl; congruence.
Qed.
Lemma due_filter t f q : (due t (List.filter f q) <= due t q)%nat.
Proof.
  unfold due. induction q as [|x q IH]; simpl; [done|].
  destruct (f x); simpl; destruct (timestamp x <=? t); simpl; lia.
Qed.

(** What such steps leave alone, and what they may do to the plan and to the
    queue. *)
Record frame (s s' : sched) : Prop := {
  fr_cycles : cpu_cycles s' = cpu_cycles s;
  fr_cpi : cpi s' = cpi s;
  fr_eff : cpi_eff_x256 s' = cpi_eff_x256 s;
  fr_frac : cycle_frac_x256 s' = cycle_frac_x256 s;
  fr_fired : fired s' = fired s;
  fr_total : sprint_total s' <= sprint_total s;
  fr_now : now s <= now s';
  fr_events : forall e, In e (cpu_events s') -> In e (cpu_events s) \/ plan_end s' < timestamp e;
  fr_due : forall t, t <= plan_end s' -> (due t (cpu_events s') <= due t (cpu_events s))%nat;
}.
Lemma frame_end s s' : 0 < cpi_eff_x256 s -> frame s s' -> plan_end s' <= plan_end s.
Proof.
  intros He []. unfold plan_end, slot_cycles. rewrite fr_cycles0, fr_eff0, fr_frac0.
  apply Zplus_le_compat_l. by apply (slot_cycles_mono s).
Qed.
Lemma frame_refl s : frame s s.
Proof. split; auto; lia. Qed.
Lemma frame_trans s1 s2 s3 : 0 < cpi_eff_x256 s1 -> frame s1 s2 -> frame s2 s3 -> frame s1 s3.
Proof.
  intros He H12 H23. pose proof (frame_end s2 s3 ltac:(rewrite (fr_eff _ _ H12); done) H23).
  destruct H12, H23. split; try congruence; try lia.
  - intros e [H3|]%fr_events1; [|by right]. destruct (fr_events0 e H3); [by left|right; lia].
  - intros t Ht. rewrite fr_due1, fr_due0 by lia. done.
Qed.

(** Events that stay or that come after the plan. *)
Lemma frame_filter f s : sched_ok s -> frame s (set_cpu_events (List.filter f (cpu_events s)) s).
Proof.
  intros. split; try done; simpl.
  - intros e. rewrite filter_In. tauto.
  - intros. apply due_filter.
Qed.
Lemma frame_reconciled s : sched_ok s -> frame s (reconciled s).
Proof. intros []. split; simpl; auto; [lia|by rewrite reconciled_now]. Qed.
Lemma frame_with_event cb src d delay s : sched_ok s -> 1 <= delay ->
  frame s (with_event (new_event cb src d delay s) s).
Proof.
  intros H Hd. destruct (frame_reconciled s H). split; simpl in *; try done.
  - intros e. rewrite (insert_spec_perm _ _). intros [<-|]; [right|by left].
    change (now s < now s + delay). lia.
  - intros t Ht. change (t <= now s) in Ht. rewrite (insert_spec_perm _ _). unfold due. simpl.
    destruct (Z.leb_spec (now s + delay) t); [lia|done].
Qed.

Lemma api_step_ok s s' : sched_ok s -> api_step s s' -> sched_ok s' /\ frame s s'.
Proof.
  intros H. destruct 1 as [cb src d cycles ns s' Ha Hd Hl E| | |s' E|s' E|b].
  - rewrite new_cpu_event_ok in E by (done || lia). injection E as <-. destruct Ha.
    split; [apply with_event_ok; done || lia|apply frame_with_event; done || lia].
  - split; [by apply events_ok|by apply frame_filter].
  - split; [by apply events_ok|by apply frame_filter].
  - unfold cpu_reschedule in E. rewrite (reconcile_ok s H) in E. injection E as <-.
    split; [by apply reconciled_ok|by apply frame_reconciled].
  - unfold scheduler_stop in E. rewrite reconcile_ok in E by by apply running_ok. injection E as <-.
    split; [by apply reconciled_ok, running_ok|]. destruct (frame_reconciled s H). by split.
  - split; [by apply running_ok|]. split; simpl; auto; try done.
Qed.

(** While the sprint counters are zero they stay zero. *)
Lemma api_step_idle s s' : sched_ok s -> api_step s s' -> idle s -> idle s'.
Proof.
  intros H. destruct 1 as [cb src d cycles ns s' Ha Hd Hl E| | |s' E|s' E|b]; intros [E1 E2]; try done.
  - rewrite new_cpu_event_ok in E by (done || lia). injection E as <-. split; simpl; lia.
  - unfold cpu_reschedule in E. rewrite (reconcile_ok s H) in E. injection E as <-. split; simpl; lia.
  - unfold scheduler_stop in E. rewrite reconcile_ok in E by by apply running_ok. injection E as <-. split; simpl; lia.
Qed.

Lemma burn_ok s n : sched_ok s -> 0 <= n <= sprint_burndown s ->
  sched_ok (set_sprint_burndown n s) /\ frame s (set_sprint_burndown n s).
Proof.
  intros H Hn. destruct H. split; [split; simpl; try done; lia|]. split; simpl; try done.
  - unfold now. simpl. apply Zplus_le_compat_l, (slot_cycles_mono s); lia.
  - by left.
Qed.
Lemma sprint_step_ok s s' : sched_ok s -> sprint_step s s' -> sched_ok s' /\ frame s s'.
Proof. intros H [? Ha|n Hn]; [by apply api_step_ok|by apply burn_ok]. Qed.

Lemma sprint_steps_ok s s' : sched_ok s -> rtc sprint_step s s' -> sched_ok s' /\ frame s s'.
Proof.
  intros H Hr. induction Hr as [s|s1 s2 s3 H1 _ IH]; [split; [done|apply frame_refl]|].
  destruct (sprint_step_ok s1 s2 H H1) as [H2 F12]. destruct (IH H2) as [H3 F23].
  split; [done|]. eapply frame_trans; [apply H|done..].
Qed.
Lemma api_steps_ok s s' : sched_ok s -> rtc api_step s s' -> sched_ok s' /\ frame s s'.
Proof.
  intros H Hr. apply sprint_steps_ok; [done|].
  eapply rtc_subrel; [|exact Hr]. intros ? ?. apply sprint_api.
Qed.
Lemma api_steps_idle s s' : sched_ok s -> rtc api_step s s' -> idle s -> idle s'.
Proof.
  intros H Hr. induction Hr as [|s1 s2 s3 H1 _ IH]; [done|]. intros Hi.
  apply IH; [by apply (api_step_ok s1 s2)|by apply (api_step_idle s1 s2)].
Qed.

(** A new event is due the given number of cycles (or nanoseconds, rounded
    down to cycles) after the present, which includes the slots the sprint
    has consumed so far; it is queued after every event due no later and
    before every event due later; the sprint in progress is cut short without
    moving the clock, and no assertion of the scheduler fires. *)
Theorem new_cpu_event_correct cb src d cycles ns s :
  sched_ok s -> event_args cb src cycles ns s ->
  0 <= delay_cycles s cycles ns < 2 ^ 62 -> Z.of_nat (length (cpu_events s)) < MAX_SANE_EVENTS ->
  exists s', scheduler_new_cpu_event cb src d cycles ns s = Some s' /\
    let e := mk_event (now s + delay_cycles s cycles ns) cb src d in
    cpu_events s' = List.filter (fun x => timestamp x <=? timestamp e) (cpu_events s) ++
                    e :: List.filter (fun x => timestamp e <? timestamp x) (cpu_events s) /\
    sprint_burndown s' = 0 /\ now s' = now s /\ scheduler_cpu_cycles s' = scheduler_cpu_cycles s /\
    cpu_instr_count s' = cpu_instr_count s /\ sched_ok s'.
Proof.
  intros H Ha Hd Hl. rewrite new_cpu_event_ok by done. eexists. split; [done|].
  pose proof (with_event_ok cb src d _ s H (proj1 Ha) Hd Hl) as Hok. split; [done|]. split; [done|].
  change (now (with_event _ s)) with (now (reconciled s)). rewrite reconciled_now. split; [done|].
  unfold scheduler_cpu_cycles. rewrite !current_cpu_cycles_ok by done.
  change (now (with_event _ s)) with (now (reconciled s)). rewrite reconciled_now. split; [done|]. split; [|done].
  destruct H. unfold cpu_instr_count, gs_assert. simpl.
  rewrite !(proj2 (Z.leb_le _ _)) by lia. simpl. rewrite Z.sub_0_r. f_equal.
  unfold u64. rewrite wrap_wrap, wrap_sub_l by lia. f_equal. lia.
Qed.
