(* ===== verification/SchedulerRun.v ===== *)
(** * The scheduler's run loop

    What the scheduler relies on from the rest of the machine
    ([PlatformLaws]), and the theorem on [scheduler_run_instructions]: it
    terminates, trips no assertion, spends its cycle budget to within one
    instruction, and fires the events in timestamp order, none early and
    none a whole instruction late. *)
From Stdlib Require Import Sorted.
From S2P Require Import Prelude Scheduler SchedulerProofs.

(** The CPU, the devices and the interrupt poll touch the scheduler only
    through its operations; a sprint returns with its slots burnt down, at
    least one of them consumed. *)
Class PlatformLaws (W : Type) `{Platform W} := {
  poll_law : forall s w, sched_ok s -> rtc api_step s (cpu_poll s w).1;
  dispatch_law : forall e s w, sched_ok s -> rtc api_step s (dispatch e s w).1;
  sprint_law : forall s w s' w', sched_ok s -> cpu_run_sprint s w = Some (s', w') ->
    rtc sprint_step s s' /\ sprint_burndown s' = 0 /\ (0 < sprint_total s -> 0 < sprint_total s');
}.

(** ** Firing *)

(** [fired_between lo t c l]: the log [l], latest first, of events fired at
    [t] none of which was due before [lo] or after [t], or a whole
    instruction of [c] cycles before. *)
Definition later (p q : Z * event) : Prop := timestamp q.2 <= timestamp p.2.
Record fire_log (lo hi c : Z) (l : list (Z * event)) : Prop := {
  log_sorted : StronglySorted later l;
  log_time : Forall (fun p => timestamp p.2 <= p.1 < timestamp p.2 + c) l;
  log_range : Forall (fun p => lo <= timestamp p.2 <= hi) l;
}.

Lemma fire_log_nil lo hi c : fire_log lo hi c [].
Proof. split; constructor. Qed.
(** Logs compose when the later one starts where the earlier one ends. *)
Lemma fire_log_app lo mid mid' hi c l l' :
  fire_log lo mid c l -> fire_log mid' hi c l' -> lo <= mid' -> mid <= hi ->
  (forall p q, In p l' -> In q l -> timestamp q.2 <= timestamp p.2) -> fire_log lo hi c (l' ++ l).
Proof.
  intros [S1 T1 R1] [S2 T2 R2] Hlo Hhi Hc. split.
  - apply Sorted_app; [done..|]. intros p q Hp Hq. unfold later. by apply Hc.
  - by apply Forall_app.
  - apply Forall_app. split; (eapply Forall_impl; [|eassumption]); simpl; lia.
Qed.

(** The clock fields that callbacks leave alone. *)
Definition same_clock (s s' : sched) : Prop :=
  cpu_cycles s' = cpu_cycles s /\ cpi s' = cpi s /\ cpi_eff_x256 s' = cpi_eff_x256 s /\
  cycle_frac_x256 s' = cycle_frac_x256 s.
Lemma frame_clock s s' : frame s s' -> same_clock s s'.
Proof. by intros []. Qed.
Lemma same_clock_trans s1 s2 s3 : same_clock s1 s2 -> same_clock s2 s3 -> same_clock s1 s3.
Proof. unfold same_clock. intuition congruence. Qed.

Section Firing.
Context {W : Type} `{PlatformLaws W}.

(** Taking the head event off an idle scheduler. *)
Definition popped (e : event) (q : list event) (s : sched) : sched :=
  set_fired ((cpu_cycles s, e) :: fired s) (set_cpu_events q s).
Lemma popped_ok e q s : sched_ok s -> cpu_events s = e :: q -> sched_ok (popped e q s).
Proof.
  intros H1 E. destruct H1. rewrite E in *. simpl in ok_length.
  inversion ok_sorted; inversion ok_events; inversion ok_late; subst. split; simpl; try done. lia.
Qed.

(** Whatever lies before an event of the queue and the present lies before
    every event that callbacks leave in the queue. *)
Lemma frame_lower m s s' : sched_ok s -> idle s -> sched_ok s' -> idle s' -> frame s s' ->
  m <= cpu_cycles s -> Forall (fun e => m <= timestamp e) (cpu_events s) ->
  Forall (fun e => m <= timestamp e) (cpu_events s').
Proof.
  intros H1 Hi H2 Hi' F Hm Hq. rewrite Forall_forall in Hq. apply Forall_forall. intros e He.
  destruct (fr_events _ _ F e He) as [|Hl]; [by apply Hq|].
  rewrite (proj2 (idle_now _ H2 Hi')), (fr_cycles _ _ F) in Hl. lia.
Qed.

Lemma process_ok fuel s (w : W) :
  sched_ok s -> idle s -> (due (cpu_cycles s) (cpu_events s) <= fuel)%nat ->
  exists s' w' l, process_event_queue fuel (cpu_cycles s) s w = Returns (s', w') /\
    sched_ok s' /\ idle s' /\ same_clock s s' /\
    Forall (fun e => cpu_cycles s < timestamp e) (cpu_events s') /\
    fired s' = l ++ fired s /\
    forall m, m <= cpu_cycles s -> Forall (fun e => m <= timestamp e) (cpu_events s) ->
      fire_log m (cpu_cycles s) (cpi s) l.
Proof.
  revert s w. induction fuel as [|fuel IH]; intros s w Hok Hi Hd; simpl;
    destruct (cpu_events s) as [|e q] eqn:Eq.
  1,3: exists s, w, []; repeat (split; [done|]); split; [by rewrite Eq|]; split; [done|];
       intros; apply fire_log_nil.
  1: unfold due in Hd; simpl in Hd; destruct (Z.leb_spec (timestamp e) (cpu_cycles s)); [simpl in Hd; lia|].
  2: destruct (Z.leb_spec (timestamp e) (cpu_cycles s)) as [Hdue|].
  1,3: exists s, w, []; repeat (split; [done|]); split; [|split; [done|intros; apply fire_log_nil]];
       rewrite Eq; pose proof (ok_sorted s Hok) as Hs; rewrite Eq in Hs; inversion Hs; subst;
       by apply later_than.
  pose proof (popped_ok e q s Hok Eq) as H1. fold (popped e q s).
  pose proof (dispatch_law e (popped e q s) w H1) as Hr.
  destruct (dispatch e (popped e q s) w) as [s2 w2]. simpl in Hr.
  destruct (api_steps_ok _ _ H1 Hr) as [H2 F]. pose proof (api_steps_idle _ _ H1 Hr Hi) as Hi2.
  pose proof (fr_cycles _ _ F) as Ec. change (cpu_cycles (popped e q s)) with (cpu_cycles s) in Ec.
  destruct (IH s2 w2 H2 Hi2) as (s' & w' & l & E & Hok' & Hi' & Hck & Hq & Hf & Hlog).
  { rewrite Ec. pose proof (fr_due _ _ F (cpu_cycles s)) as Hdd.
    rewrite (proj2 (idle_now _ H2 Hi2)), Ec in Hdd. specialize (Hdd ltac:(lia)). simpl in Hdd.
    unfold due in Hd. simpl in Hd. rewrite (proj2 (Z.leb_le _ _) Hdue) in Hd. simpl in Hd. unfold due in *. lia. }
  rewrite Ec in *. exists s', w', (l ++ [(cpu_cycles s, e)]).
  split; [exact E|]. split; [done|]. split; [done|].
  split; [eapply same_clock_trans; [|exact Hck]; exact (frame_clock _ _ F)|]. split; [done|].
  split; [rewrite Hf, (fr_fired _ _ F), <-app_assoc; done|].
  intros m Hm Hmq. pose proof (ok_sorted s Hok) as Hs. rewrite Eq in Hs. inversion Hs as [|? ? _ Hbe]; subst.
  pose proof (ok_late s Hok) as Hlate. rewrite Eq in Hlate. pose proof (Forall_inv Hlate) as Hle. cbv beta in Hle.
  rewrite (proj2 (idle_now s Hok Hi)) in Hle.
  pose proof (Forall_inv Hmq) as Hme. cbv beta in Hme.
  assert (fire_log (timestamp e) (cpu_cycles s) (cpi s2) l) as Hl.
  { apply Hlog; [done|]. eapply (frame_lower _ (popped e q s)); eauto. }
  rewrite (fr_cpi _ _ F) in Hl. change (cpi (popped e q s)) with (cpi s) in Hl.
  apply (fire_log_app m (timestamp e) (timestamp e)); try done.
  - split; [repeat constructor|..]; repeat constructor; simpl; lia.
  - intros p r Hp [<-|[]]. simpl. pose proof (log_range _ _ _ _ Hl) as Hr'. rewrite Forall_forall in Hr'.
    by apply Hr'.
Qed.

(** The head check right after firing. *)
Lemma assert_head_ok slack s : sched_ok s -> 0 <= slack < 2 ^ 24 ->
  Forall (fun e => cpu_cycles s <= timestamp e + slack) (cpu_events s) -> assert_head slack s = Returns tt.
Proof.
  intros Hok Hs Hq. unfold assert_head. pose proof (ok_events s Hok) as Ho.
  destruct (cpu_events s) as [|e q]; [done|]. inversion Hq; subst. inversion Ho as [|? ? [? _]]; subst.
  rewrite u64_small by (pow2; lia). by rewrite (proj2 (Z.leb_le _ _)).
Qed.
Lemma assert_head_0 s : sched_ok s ->
  Forall (fun e => cpu_cycles s <= timestamp e) (cpu_events s) -> assert_head 0 s = Returns tt.
Proof.
  intros Hok Hq. apply assert_head_ok; [done|lia|]. eapply Forall_impl; [|exact Hq]. simpl. lia.
Qed.
End Firing.

(** ** Planning and folding a sprint *)

Lemma cycles_to_instructions_ok s c : sched_ok s -> 0 <= c < 2 ^ 32 ->
  exists n, cycles_to_instructions s c = Some n /\ 0 <= n /\
    (c = 0 -> n = 0) /\ (n = 1 \/ n * cpi_eff_x256 s <= c * 256) /\ (0 < c -> 0 < n).
Proof.
  intros [] Hc. unfold cycles_to_instructions, gs_assert.
  rewrite (proj2 (Z.ltb_lt 0 (cpi_eff_x256 s))) by lia. simpl. rewrite Z.shiftl_mul_pow2 by lia.
  rewrite u64_small by (pow2; lia). eexists. split; [done|].
  set (n := c * 2 ^ 8 / cpi_eff_x256 s).
  assert (0 <= n) by (apply Z.div_pos; pow2; lia).
  assert (n * cpi_eff_x256 s <= c * 256).
  { unfold n. rewrite Z.mul_comm. transitivity (c * 2 ^ 8); [apply Z.mul_div_le; lia|pow2; lia]. }
  destruct (Z.eqb_spec n 0) as [En|]; destruct (Z.ltb_spec 0 c); simpl; repeat split; try lia; nia.
Qed.

Lemma clamp_ok rem s : sched_ok s -> 0 < rem < 2 ^ 31 ->
  Forall (fun e => cpu_cycles s <= timestamp e) (cpu_events s) ->
  exists c, clamp_to_event rem s = Returns c /\ 0 <= c <= rem /\
    Forall (fun e => c <= timestamp e - cpu_cycles s) (cpu_events s) /\
    (c = 0 -> (0 < due (cpu_cycles s) (cpu_events s))%nat).
Proof.
  intros Hok Hr Hq. unfold clamp_to_event.
  rewrite (assert_head_0 s Hok Hq). simpl.
  pose proof (ok_sorted s Hok) as Hs. pose proof (ok_events s Hok) as He. pose proof (ok_cycles s Hok).
  destruct (cpu_events s) as [|e q]; [exists rem; repeat split; done || lia|].
  inversion Hs as [|? ? _ Hb]; inversion He as [|? ? [? _] _]; inversion Hq; subst.
  rewrite u64_small by (pow2; lia). eexists. split; [done|].
  assert (forall c, c <= timestamp e - cpu_cycles s ->
    Forall (fun e => c <= timestamp e - cpu_cycles s) (e :: q)) as Hall.
  { intros c Hle. constructor; [done|]. eapply Forall_impl; [|exact Hb]. unfold before. simpl. lia. }
  unfold due. simpl. destruct (Z.ltb_spec (cpu_cycles s) (timestamp e)).
  - rewrite (proj2 (Z.leb_gt (timestamp e) _)) by lia.
    destruct (Z.ltb_spec (timestamp e - cpu_cycles s) rem); (split; [lia|]); (split; [apply Hall; lia|lia]).
  - rewrite (proj2 (Z.leb_le (timestamp e) _)), (proj2 (Z.ltb_lt 0 rem)) by lia.
    split; [lia|]. split; [apply Hall; lia|]. simpl. lia.
Qed.

(** The plan fits the budget and, but for one instruction, the time to the
    next event. *)
Lemma plan_ok rem s : sched_ok s -> 0 < rem < 2 ^ 31 ->
  Forall (fun e => cpu_cycles s <= timestamp e) (cpu_events s) ->
  exists c n, plan_sprint false rem s = Returns (c, n) /\
    0 <= c <= rem /\ 0 <= n < 2 ^ 32 /\
    (0 < n <-> 0 < c) /\ (0 < c -> slot_cycles s n <= c + cpi s - 1) /\
    Forall (fun e => c <= timestamp e - cpu_cycles s) (cpu_events s) /\
    (c = 0 -> (0 < due (cpu_cycles s) (cpu_events s))%nat).
Proof.
  intros Hok Hr Hq. unfold plan_sprint. destruct (clamp_ok rem s Hok Hr Hq) as (c & -> & Hc & Hce & Hc0). simpl.
  destruct (cycles_to_instructions_ok s c Hok ltac:(pow2; lia)) as (n & -> & Hn & Hn0 & Hne & Hnp). simpl.
  pose proof (u32_range n) as Hu. destruct Hok.
  eexists c, _. split; [done|]. split; [done|].
  assert (0 <= u32 n <= n) as Hun by (split; [lia|]; unfold u32, wrap; apply Z.mod_le; lia).
  destruct (Z.ltb_spec 0 c), (Z.eqb_spec (u32 n) 0); simpl; (split; [pow2; lia|]); (split; [lia|]); (split; [|done]).
  - intros _. unfold slot_cycles. rewrite Z.shiftr_div_pow2 by lia. pow2. Z.to_euclidean_division_equations. lia.
  - intros _. unfold slot_cycles. rewrite Z.shiftr_div_pow2 by lia. pow2.
    assert (u32 n * cpi_eff_x256 s <= c * 256 \/ u32 n = 1) as [|E1] by nia.
    + Z.to_euclidean_division_equations. lia.
    + rewrite E1. Z.to_euclidean_division_equations. lia.
  - lia.
  - lia.
Qed.

(** Folding a finished sprint: whole cycles move the clock to the planned end
    and the rest of them is carried, to the 256th of a cycle. *)
Lemma finish_sprint_ok ph s : sched_ok s -> sprint_burndown s = 0 -> slot_cycles s (sprint_total s) < 2 ^ 32 ->
  let '(c, s') := finish_sprint ph s in
  c = slot_cycles s (sprint_total s) /\ cpu_cycles s' = plan_end s /\
  cpu_cycles s' * 256 + cycle_frac_x256 s' =
    cpu_cycles s * 256 + cycle_frac_x256 s + sprint_total s * cpi_eff_x256 s /\
  sched_ok s' /\ idle s' /\ cpu_events s' = cpu_events s /\ fired s' = fired s /\
  cpi s' = cpi s /\ cpi_eff_x256 s' = cpi_eff_x256 s /\ running s' = running s.
Proof.
  intros Hok Eb Hc. pose proof Hok as []. unfold finish_sprint.
  assert (0 <= sprint_total s * cpi_eff_x256 s + cycle_frac_x256 s < 2 ^ 64) as Ha by (pow2; nia).
  rewrite (u64_small _ Ha). fold (slot_cycles s (sprint_total s)).
  pose proof (slot_cycles_nonneg s (sprint_total s) ltac:(lia) ltac:(lia) ltac:(lia)).
  rewrite (u32_small (slot_cycles s (sprint_total s))) by (unfold in_width; lia).
  unfold plan_end in ok_end. rewrite (u64_small (cpu_cycles s + _)) by (pow2; lia).
  split; [done|]. split; [done|]. simpl.
  change 255 with (Z.ones 8). rewrite Z.land_ones by lia.
  set (x := sprint_total s * cpi_eff_x256 s + cycle_frac_x256 s) in *.
  assert (slot_cycles s (sprint_total s) = x / 2 ^ 8) as Ex by (unfold slot_cycles; by rewrite Z.shiftr_div_pow2).
  pose proof (Z.div_mod x (2 ^ 8) ltac:(lia)) as Hdm. pose proof (Z.mod_pos_bound x (2 ^ 8) ltac:(lia)) as Hmb.
  split; [rewrite Ex; pow2; lia|].
  match goal with |- sched_ok ?s' /\ _ => assert (plan_end s' = plan_end s) as Ep end.
  { unfold plan_end at 1. simpl. rewrite slot_cycles_0 by done. simpl. unfold plan_end. lia. }
  split; [|done]. split; try rewrite Ep; simpl; try done; try lia.
Qed.

(** ** One iteration *)

Section Loop.
Context {W : Type} `{PlatformLaws W}.

(** The state between two iterations of a run that started in [s0] and is to
    end at cycle [goal]; [l] is the log of the run so far. *)
Record resting (s0 s : sched) (goal : Z) (l : list (Z * event)) : Prop := {
  rest_ok : sched_ok s;
  rest_idle : idle s;
  rest_due : Forall (fun e => cpu_cycles s <= timestamp e) (cpu_events s);
  rest_cpi : cpi s = cpi s0;
  rest_eff : cpi_eff_x256 s = cpi_eff_x256 s0;
  rest_since : cpu_cycles s0 <= cpu_cycles s;
  rest_goal : cpu_cycles s < goal + cpi s0;
  rest_fired : fired s = l ++ fired s0;
  rest_log : fire_log (cpu_cycles s0) (cpu_cycles s) (cpi s0) l;
}.
Definition at_budget (s : sched) (rem goal : Z) : Prop :=
  if 0 <? rem then cpu_cycles s + rem = goal else rem = 0 /\ goal <= cpu_cycles s.

(** What decreases: the budget in 256ths of a cycle, then an event due at
    once, then the STOP state. *)
Definition due_now (s : sched) : Z := if decide (due (cpu_cycles s) (cpu_events s) = 0%nat) then 0 else 2.
Definition measure (rem : Z) (s : sched) (w : W) : Z :=
  2 * (256 * rem - cycle_frac_x256 s) + due_now s + (if cpu_is_stopped w then 1 else 0).

Lemma due_none s : Forall (fun e => cpu_cycles s < timestamp e) (cpu_events s) -> due_now s = 0.
Proof.
  intros Hq. unfold due_now, due. rewrite filter_none; [done|].
  eapply Forall_impl; [|exact Hq]. simpl. intros e He. by apply Z.leb_gt.
Qed.
Lemma due_bound s : sched_ok s -> (due (cpu_cycles s) (cpu_events s) <= Z.to_nat MAX_SANE_EVENTS)%nat.
Proof.
  intros Hok. pose proof (ok_length s Hok). unfold due.
  pose proof (List.filter_length_le (fun e => timestamp e <=? cpu_cycles s) (cpu_events s)). lia.
Qed.

(** A step through the scheduler's own operations keeps the resting state. *)
Lemma rest_api s0 s s' goal l : resting s0 s goal l -> rtc api_step s s' ->
  resting s0 s' goal l /\ same_clock s s' /\ due_now s' <= due_now s.
Proof.
  intros [] Hr. destruct (api_steps_ok _ _ rest_ok0 Hr) as [Hok F].
  pose proof (api_steps_idle _ _ rest_ok0 Hr rest_idle0) as Hi. pose proof F as []. split; [|split; [by apply frame_clock|]].
  - split; try congruence; try lia.
    rewrite fr_cycles. by apply (frame_lower _ s s').
  - unfold due_now. specialize (fr_due (cpu_cycles s')).
    rewrite (proj2 (idle_now _ Hok Hi)) in fr_due. specialize (fr_due ltac:(lia)).
    rewrite fr_cycles in *. repeat case_decide; lia.
Qed.

(** Firing what is due at a clock that has moved to at most [hi]. *)
Lemma rest_process qfuel s0 s1 goal l (w : W) :
  (Z.to_nat MAX_SANE_EVENTS <= qfuel)%nat -> sched_ok s1 -> idle s1 ->
  Forall (fun p => Forall (fun e => timestamp p.2 <= timestamp e) (cpu_events s1)) l ->
  Forall (fun e => cpu_cycles s0 <= timestamp e) (cpu_events s1) ->
  cpi s1 = cpi s0 -> cpi_eff_x256 s1 = cpi_eff_x256 s0 ->
  cpu_cycles s0 <= cpu_cycles s1 < goal + cpi s0 ->
  fired s1 = l ++ fired s0 -> fire_log (cpu_cycles s0) (cpu_cycles s1) (cpi s0) l ->
  exists s2 w2 l2, process_event_queue qfuel (cpu_cycles s1) s1 w = Returns (s2, w2) /\
    resting s0 s2 goal l2 /\ same_clock s1 s2 /\ due_now s2 = 0.
Proof.
  intros Hf Hok Hi Hl Hlo Hc He Hcy Hfi Hlog.
  destruct (process_ok qfuel s1 w Hok Hi) as (s2 & w2 & l2 & E & Hok2 & Hi2 & Hck & Hq & Hfi2 & Hlog2).
  { etrans; [by apply due_bound|done]. }
  exists s2, w2, (l2 ++ l). split; [done|]. pose proof Hck as (Ec & Ecpi & Eeff & _).
  split; [|split; [done|apply due_none; by rewrite Ec]].
  split; try congruence; try lia.
  - rewrite Ec. eapply Forall_impl; [|exact Hq]. simpl. lia.
  - rewrite Hfi2, Hfi. by rewrite app_assoc.
  - rewrite Ec. rewrite <-Hc in *.
    apply (fire_log_app _ (cpu_cycles s1) (cpu_cycles s0)); try done; [apply Hlog2; done || lia|].
    intros p q Hp Hq'. rewrite Forall_forall in Hl. specialize (Hl q Hq').
    pose proof (log_range _ _ _ _ Hlog) as Hr. rewrite Forall_forall in Hr. specialize (Hr q Hq').
    pose proof (log_range _ _ _ _ (Hlog2 (timestamp q.2) ltac:(lia) Hl)) as Hr2.
    rewrite Forall_forall in Hr2. by apply Hr2.
Qed.

Lemma log_before s0 s goal l : resting s0 s goal l ->
  Forall (fun p => Forall (fun e => timestamp p.2 <= timestamp e) (cpu_events s)) l.
Proof.
  intros []. pose proof (log_range _ _ _ _ rest_log0) as Hr. eapply Forall_impl; [|exact Hr]. simpl.
  intros p Hp. eapply Forall_impl; [|exact rest_due0]. simpl. lia.
Qed.

(** What an iteration from [rem] leads to. *)
Definition outcome (s0 : sched) (goal mu : Z) (n : next) (s' : sched) (w' : W) : Prop :=
  exists l, resting s0 s' goal l /\
  match n with
  | Again rem => 0 <= rem /\ at_budget s' rem goal /\ measure rem s' w' < mu
  | Break => cpu_cycles s' < goal + cpi s0 /\
             (running s' = false \/ (cpu_is_stopped w' = true /\ cpu_events s' = []))
  end.

Lemma at_budget_pos s rem goal : 0 < rem -> at_budget s rem goal -> cpu_cycles s + rem = goal.
Proof. intros Hr. unfold at_budget. by rewrite (proj2 (Z.ltb_lt _ _) Hr). Qed.

Lemma stopped_step_ok qfuel s0 s goal l rem (w : W) :
  (Z.to_nat MAX_SANE_EVENTS <= qfuel)%nat -> goal + 2 ^ 24 <= 2 ^ 60 -> cpi_eff_x256 s0 > 0 ->
  resting s0 s goal l -> 0 < rem < 2 ^ 31 -> at_budget s rem goal -> cpu_is_stopped w = true ->
  exists n s' w', stopped_step qfuel rem s w = Returns (n, s', w') /\
    outcome s0 goal (measure rem s w) n s' w'.
Proof.
  intros Hf Hg _ Hrest Hr Hb Hst. pose proof (at_budget_pos _ _ _ (proj1 Hr) Hb) as Eg. unfold stopped_step.
  pose proof (poll_law s w (rest_ok _ _ _ _ Hrest)) as Hp. destruct (cpu_poll s w) as [s1 w1]. simpl in Hp.
  destruct (rest_api _ _ _ _ _ Hrest Hp) as (Hrest1 & Hck & Hdue).
  pose proof Hck as (Ec & Ecpi & Eeff & Efr).
  assert (due_now s1 <= due_now s) by done.
  destruct (cpu_is_stopped w1) eqn:Hst1.
  2:{ exists (Again rem), s1, w1. split; [done|]. exists l. split; [done|]. split; [lia|].
      split; [unfold at_budget in *; by rewrite Ec|]. unfold measure. rewrite Hst, Hst1, Efr. lia. }
  destruct (cpu_events s1) as [|e q] eqn:Eq.
  { exists Break, s1, w1. split; [done|]. exists l. split; [done|].
    split; [pose proof (rest_goal _ _ _ _ Hrest1); lia|by right]. }
  pose proof Hrest1 as []. pose proof rest_ok0 as []. rewrite Eq in *.
  pose proof (Forall_inv rest_due0) as Hd. pose proof (Forall_inv ok_events) as [Het _]. cbv beta in Hd.
  set (cte := if cpu_cycles s1 <? timestamp e then u64 (timestamp e - cpu_cycles s1) else 0).
  assert (cte = timestamp e - cpu_cycles s1) as Ecte.
  { unfold cte. destruct (Z.ltb_spec (cpu_cycles s1) (timestamp e)); [apply u64_small; pow2|]; lia. }
  set (adv := if cte <? rem then cte else rem).
  assert (0 <= adv <= rem /\ adv <= cte /\ (adv = 0 -> cte = 0)) as (Ha & Ha2 & Ha0).
  { unfold adv. destruct (Z.ltb_spec cte rem); lia. }
  rewrite (u64_small (cpu_cycles s1 + adv)), (u64_small (rem - adv)) by (pow2; lia).
  set (s2 := set_cpu_cycles (cpu_cycles s1 + adv) s1).
  assert (plan_end s2 = cpu_cycles s1 + adv) as Ep.
  { unfold plan_end, slot_cycles. simpl. rewrite (proj1 rest_idle0). fold (slot_cycles s1 0).
    rewrite slot_cycles_0 by done. lia. }
  inversion ok_sorted as [|? ? Hsq Hbe]; subst.
  assert (Forall (fun e => cpu_cycles s1 + adv <= timestamp e) (cpu_events s1)) as Hlow.
  { rewrite Eq. constructor; [lia|]. eapply Forall_impl; [|exact Hbe]. unfold before. lia. }
  assert (sched_ok s2) as Hok2.
  { split; rewrite ?Ep; simpl; rewrite ?Eq; try done; try lia.
    rewrite Eq in Hlow. eapply Forall_impl; [|exact Hlow]. simpl. lia. }
  destruct (rest_process qfuel s0 s2 (cpu_cycles s + rem) l w1) as (s3 & w3 & l3 & -> & Hrest3 & Hck3 & Hdue3); try done.
  { apply (log_before _ _ _ _ Hrest1). }
  { simpl. eapply Forall_impl; [|exact Hlow]. simpl. lia. }
  { simpl. lia. }
  { simpl. destruct rest_log0. split; [done..|]. eapply Forall_impl; [|eassumption]. simpl. lia. }
  simpl. pose proof (poll_law s3 w3 (rest_ok _ _ _ _ Hrest3)) as Hp3.
  destruct (cpu_poll s3 w3) as [s4 w4]. simpl in Hp3.
  destruct (rest_api _ _ _ _ _ Hrest3 Hp3) as (Hrest4 & Hck4 & Hdue4).
  eexists _, s4, w4. split; [done|]. exists l3. split; [done|]. split; [lia|].
  pose proof Hck3 as (Ec3 & _ & _ & Ef3). pose proof Hck4 as (Ec4 & _ & _ & Ef4). simpl in Ec3, Ef3.
  split.
  { unfold at_budget. rewrite Ec4, Ec3. destruct (Z.ltb_spec 0 (rem - adv)); lia. }
  unfold measure. rewrite Hst, Ef4, Ef3, Efr.
  assert (due_now s4 = 0) as -> by (unfold due_now in *; repeat case_decide; lia).
  assert (adv = 0 -> due_now s1 = 2) as Hd0.
  { intros E0. unfold due_now, due. rewrite Eq. simpl. rewrite (proj2 (Z.leb_le _ _)) by lia. done. }
  assert (0 <= due_now s) by (unfold due_now; case_decide; lia).
  destruct (Z.eq_dec adv 0) as [E0|]; [specialize (Hd0 E0)|]; destruct (cpu_is_stopped w4); lia.
Qed.

(** The planned sprint, before it runs. *)
Definition planned (n : Z) (s : sched) : sched := set_sprint_burndown n (set_sprint_total n s).
Lemma planned_ok rem c n s0 s goal l : resting s0 s goal l -> 0 < rem < 2 ^ 31 -> cpu_cycles s + rem = goal ->
  goal + 2 ^ 24 <= 2 ^ 60 -> 0 <= c <= rem -> 0 <= n < 2 ^ 32 -> (0 < n <-> 0 < c) ->
  (0 < c -> slot_cycles s n <= c + cpi s - 1) -> Forall (fun e => c <= timestamp e - cpu_cycles s) (cpu_events s) ->
  sched_ok (planned n s) /\ plan_end (planned n s) <= cpu_cycles s + c + cpi s - 1.
Proof.
  intros [] Hr Hg Hb Hc Hn Hnc Hs He. destruct rest_ok0.
  assert (plan_end (planned n s) = cpu_cycles s + slot_cycles s n) as E by done.
  assert (slot_cycles s n <= c + cpi s - 1) as Hsl.
  { destruct (Z.eq_dec c 0) as [->|]; [|lia]. assert (n = 0) as -> by lia. rewrite slot_cycles_0 by done. lia. }
  split; [|lia]. split; rewrite ?E; simpl; try done; try lia.
  eapply Forall_impl; [|exact He]. simpl. lia.
Qed.

Lemma sprint_iteration_ok qfuel s0 s goal l rem (w : W) :
  (Z.to_nat MAX_SANE_EVENTS <= qfuel)%nat -> goal + 2 ^ 24 <= 2 ^ 60 ->
  resting s0 s goal l -> 0 < rem < 2 ^ 31 -> at_budget s rem goal -> cpu_is_stopped w = false ->
  sprint_iteration qfuel false rem s w = Stuck \/
  exists n s' w', sprint_iteration qfuel false rem s w = Returns (n, s', w') /\
    outcome s0 goal (measure rem s w) n s' w'.
Proof.
  intros Hf Hg Hrest Hr Hb Hst. pose proof (at_budget_pos _ _ _ (proj1 Hr) Hb) as Eg. unfold sprint_iteration.
  pose proof (rest_ok _ _ _ _ Hrest) as Hok.
  destruct (plan_ok rem s Hok Hr (rest_due _ _ _ _ Hrest)) as (c & n & -> & Hc & Hn & Hnc & Hsc & Hce & Hc0).
  cbn [then_]. fold (planned n s).
  destruct (planned_ok rem c n s0 s goal l) as [Hokp Hep]; try done.
  destruct (cpu_run_sprint (planned n s) (publish_sprint (planned n s) w)) as [[s1 w1]|] eqn:Er; [right|by left].
  cbn [then_]. destruct (sprint_law _ _ _ _ Hokp Er) as (Hsteps & Hb1 & Ht1).
  destruct (sprint_steps_ok _ _ Hokp Hsteps) as [Hok1 F]. pose proof (ok_eff _ Hokp) as [Heff _].
  pose proof (frame_end _ _ Heff F) as He1. pose proof F as []. cbn [planned set_sprint_burndown set_sprint_total cpu_cycles
    cpi cpi_eff_x256 cycle_frac_x256 fired] in *.
  assert (slot_cycles s1 (sprint_total s1) <= c + cpi s - 1) as Hs1.
  { unfold plan_end at 1 in He1. rewrite fr_cycles in He1. change (cpu_cycles (planned n s)) with (cpu_cycles s) in He1. lia. }
  pose proof Hrest as [_ Hi Hdue Hcpi Heffs Hsince Hgoal Hfired Hlog].
  change (cpu_cycles s1 = cpu_cycles s) in fr_cycles. change (cpi s1 = cpi s) in fr_cpi.
  change (cpi_eff_x256 s1 = cpi_eff_x256 s) in fr_eff. change (cycle_frac_x256 s1 = cycle_frac_x256 s) in fr_frac.
  change (fired s1 = fired s) in fr_fired.
  pose proof (ok_cpi _ Hok) as Hcb.
  pose proof (finish_sprint_ok (phantom w1) s1 Hok1 Hb1 ltac:(pow2; lia)) as Hfin.
  destruct (finish_sprint (phantom w1) s1) as [ec s2]. destruct Hfin as (-> & Ec2 & Econs & Hok2 & Hi2 & Eq2 & Ef2 & Ecpi2 & Eeff2 & _).
  set (ec := slot_cycles s1 (sprint_total s1)) in *.
  assert (cpu_cycles s2 = cpu_cycles s + ec) as Ecc by (rewrite Ec2; unfold plan_end; fold ec; lia).
  assert (0 <= ec) as Hec by (apply slot_cycles_nonneg; [rewrite fr_eff; apply Hok|rewrite fr_frac; apply Hok|]; pose proof (ok_sprint _ Hok1); lia).
  assert (gs_assert (match cpu_events s2 with [] => true | _ => ec <=? u64 (c + cpi s2) end) = Some tt) as ->.
  { rewrite Ecpi2, fr_cpi, u64_small by (pow2; lia). rewrite (proj2 (Z.leb_le _ _)) by lia. by destruct (cpu_events s2). }
  cbn [lift then_].
  rewrite (assert_head_ok (cpi s2) s2 Hok2) by
    (first [rewrite Ecpi2, fr_cpi; lia | eapply Forall_impl; [|exact (ok_late _ Hok2)]; simpl; intros e He;
      rewrite (proj2 (idle_now _ Hok2 Hi2)) in He; lia]).
  cbn [then_].
  assert (Forall (fun e => cpu_cycles s <= timestamp e) (cpu_events s2)) as Hlow.
  { rewrite Eq2. rewrite Forall_forall in Hdue. apply Forall_forall. intros e He.
    destruct (fr_events e He) as [|]; [by apply Hdue|]. rewrite <-Ec2 in *. lia. }
  set (rem' := if ec <? rem then u64 (rem - ec) else 0).
  assert (0 <= rem' /\ (ec < rem /\ rem' = rem - ec \/ rem <= ec /\ rem' = 0)) as (Hrem0 & Hrem).
  { unfold rem'. destruct (Z.ltb_spec ec rem); [rewrite u64_small by (pow2; lia)|]; lia. }
  destruct (rest_process qfuel s0 s2 goal l (clear_phantom w1)) as (s3 & w3 & l3 & -> & Hrest3 & Hck3 & Hdue3); try done.
  { pose proof (log_range _ _ _ _ Hlog) as Hlr. eapply Forall_impl; [|exact Hlr]. simpl. intros p Hp.
    eapply Forall_impl; [|exact Hlow]. simpl. lia. }
  { eapply Forall_impl; [|exact Hlow]. simpl. lia. }
  { congruence. }
  { congruence. }
  { lia. }
  { congruence. }
  { destruct Hlog. split; [done..|]. eapply Forall_impl; [|eassumption]. simpl. lia. }
  cbn [then_]. rewrite (assert_head_0 s3 (rest_ok _ _ _ _ Hrest3) (rest_due _ _ _ _ Hrest3)). cbn [then_].
  pose proof Hck3 as (Ec3 & _ & _ & Ef3).
  destruct (running s3) eqn:Erun; cbn [negb].
  - eexists _, s3, w3. split; [done|]. exists l3. split; [done|]. split; [done|].
    assert (at_budget s3 rem' goal) as Hb3.
    { unfold at_budget. destruct (Z.ltb_spec 0 rem'); lia. }
    split; [done|]. unfold measure. rewrite Hst, Hdue3, Ef3.
    assert (0 <= due_now s) by (unfold due_now; case_decide; lia).
    pose proof (ok_frac _ Hok2). pose proof (ok_frac _ Hok). pose proof (ok_eff _ Hok).
    destruct (Z.eq_dec c 0) as [E0|].
    + assert (n = 0) as En by lia. assert (sprint_total s1 = 0) as Et.
      { pose proof (ok_sprint _ Hok1). change (sprint_total (planned n s)) with n in fr_total. lia. }
      rewrite Et in Econs. assert (due_now s = 2) as -> by (specialize (Hc0 E0); unfold due_now; case_decide; lia).
      assert (ec = 0) by (unfold ec; rewrite Et; apply slot_cycles_0; apply Hok1).
      destruct (cpu_is_stopped w3); lia.
    + specialize (Ht1 ltac:(change (0 < n); lia)).
      destruct (cpu_is_stopped w3), Hrem as [[]|[]]; nia.
  - rewrite (reconcile_ok s3 (rest_ok _ _ _ _ Hrest3)). cbn [lift then_].
    eexists _, (reconciled s3), w3. split; [done|]. exists l3.
    assert (reconciled s3 = s3) as ->.
    { pose proof (rest_idle _ _ _ _ Hrest3) as [E1 E2]. unfold reconciled, set_sprint_burndown, set_sprint_total.
      destruct s3; simpl in *; by subst. }
    split; [done|]. split; [apply (rest_goal _ _ _ _ Hrest3)|by left].
Qed.

Lemma run_cycles_ok fuel qfuel s0 s goal l rem (w : W) :
  (Z.to_nat MAX_SANE_EVENTS <= qfuel)%nat -> goal + 2 ^ 24 <= 2 ^ 60 ->
  goal < cpu_cycles s0 + 2 ^ 31 -> resting s0 s goal l -> 0 <= rem -> at_budget s rem goal -> cpi_eff_x256 s0 > 0 ->
  measure rem s w <= Z.of_nat fuel ->
  run_cycles fuel qfuel false rem s w = Stuck \/
  exists s' w' l', run_cycles fuel qfuel false rem s w = Returns (s', w') /\ resting s0 s' goal l' /\
    (goal <= cpu_cycles s' \/ running s' = false \/ (cpu_is_stopped w' = true /\ cpu_events s' = [])).
Proof.
  intros Hq Hg Hgb. revert s l rem w. induction fuel as [|fuel IH]; intros s l rem w Hrest Hr Hb He Hm; simpl.
  all: destruct (Z.ltb_spec 0 rem) as [Hpos|].
  2,4: right; exists s, w, l; split; [done|]; split; [done|]; left;
       unfold at_budget in Hb; destruct (Z.ltb_spec 0 rem); lia.
  { pose proof (ok_frac _ (rest_ok _ _ _ _ Hrest)). unfold measure, due_now in Hm.
    destruct (cpu_is_stopped w); case_decide; lia. }
  assert (run_step qfuel false rem s w = Stuck \/ exists n s' w', run_step qfuel false rem s w = Returns (n, s', w') /\
    outcome s0 goal (measure rem s w) n s' w') as Hstep.
  { assert (0 < rem < 2 ^ 31) by (pose proof (at_budget_pos _ _ _ Hpos Hb); pose proof (rest_since _ _ _ _ Hrest); lia). unfold run_step, gs_assert. pose proof (rest_ok _ _ _ _ Hrest) as []. rewrite (proj2 (Z.leb_le _ _)) by lia. cbn [lift then_].
    destruct (cpu_is_stopped w) eqn:Hst; [right; by eapply stopped_step_ok|by eapply sprint_iteration_ok]. }
  destruct Hstep as [->|(n & s' & w' & -> & l' & Hrest' & Hout)]; [by left|]. cbn [then_].
  destruct n as [rem'|]; [|right; exists s', w', l'; split; [done|]; split; [done|]; right; apply Hout].
  destruct Hout as (Hr' & Hb' & Hmu). apply (IH s' l' rem' w'); try done. lia.
Qed.

(** C8: running the scheduler for [n] instructions.  Let the debugger be
    inactive (with a breakpoint the closing assertion can fail:
    breakpoint_asserts), the scheduler be between sprints with its invariant
    and no event overdue, the budget of [n] instructions be below 2^31 cycles,
    and the clock stay below 2^60 cycles.  Let the CPU and the event callbacks
    touch the scheduler only through its operations (scheduling an event at
    least one cycle ahead and while the queue has room, removing events,
    rescheduling, stopping; in a sprint also burning slots), and let a sprint
    of the CPU return with its slots burnt down.  Then the run ends within the
    given fuel: either in a sprint in which the CPU core executes undefined
    behaviour ([Stuck]), or without failing an assertion.  In the second case
    it has advanced the clock by the cycle budget of [n] instructions to
    within one instruction, unless a callback stopped the scheduler or the CPU
    sleeps with nothing scheduled; it has fired events in timestamp order,
    none before its time and none a whole instruction late, leaves no event
    behind that is overdue, and leaves the scheduler between sprints with its
    invariant intact. *)
Theorem run_instructions_correct fuel qfuel n s (w : W) :
  sched_ok s -> idle s -> Forall (fun e => cpu_cycles s <= timestamp e) (cpu_events s) ->
  debug_active w = false -> 0 <= n ->
  let budget := Z.shiftr (n * cpi_eff_x256 s) 8 in
  budget < 2 ^ 31 -> cpu_cycles s + budget + 2 ^ 24 <= 2 ^ 60 ->
  512 * budget + 3 <= Z.of_nat fuel -> (Z.to_nat MAX_SANE_EVENTS <= qfuel)%nat ->
  scheduler_run_instructions fuel qfuel n s w = Stuck \/
  exists s' w' l, scheduler_run_instructions fuel qfuel n s w = Returns (s', w') /\
    sched_ok s' /\ idle s' /\
    cpu_cycles s <= cpu_cycles s' < cpu_cycles s + budget + cpi s /\
    (cpu_cycles s + budget <= cpu_cycles s' \/ running s' = false \/
     (cpu_is_stopped w' = true /\ cpu_events s' = [])) /\
    Forall (fun e => cpu_cycles s' <= timestamp e) (cpu_events s') /\
    fired s' = l ++ fired s /\
    StronglySorted (fun p q => timestamp q.2 <= timestamp p.2) l /\
    Forall (fun p => timestamp p.2 <= p.1 < timestamp p.2 + cpi s) l.
Proof.
  intros Hok Hi Hdue Hdbg Hn budget Hbud Hend Hfuel Hq. unfold scheduler_run_instructions.
  rewrite (check_invariants_ok s Hok), (assert_head_0 s Hok Hdue), Hdbg. cbn [lift then_].
  set (s0 := set_running true s). pose proof (running_ok true s Hok : sched_ok s0) as Hok0.
  assert (0 <= budget) as Hb0 by (apply Z.shiftr_nonneg; pose proof (ok_eff _ Hok); nia).
  assert (n * cpi_eff_x256 s < 2 ^ 64) as Hw.
  { unfold budget in Hbud. rewrite Z.shiftr_div_pow2 in Hbud by lia. pow2. Z.to_euclidean_division_equations. lia. }
  change (cpi_eff_x256 s0) with (cpi_eff_x256 s). rewrite (u64_small (n * _)) by (pose proof (ok_eff _ Hok); nia). fold budget.
  pose proof (ok_cpi _ Hok). pose proof (ok_eff _ Hok).
  destruct (run_cycles_ok fuel qfuel s0 s0 (cpu_cycles s + budget) [] budget w) as [->|(s' & w' & l & -> & Hrest & Hwhy)]; try done.
  - simpl. lia.
  - split; try done; try lia; [simpl; lia|apply fire_log_nil].
  - unfold at_budget. simpl. destruct (Z.ltb_spec 0 budget); lia.
  - simpl. lia.
  - unfold measure, due_now. pose proof (ok_frac _ Hok0). destruct (cpu_is_stopped w); case_decide; lia.
  - by left.
  - right. cbn [then_]. pose proof Hrest as [Hok' Hi' Hdue' _ _ Hsince Hgoal Hfired Hlog].
    assert (sprint_burndown s' <=? sprint_total s' = true) as -> by (apply Z.leb_le; apply Hok').
    cbn [gs_assert lift then_].
    rewrite (assert_head_0 s' Hok' Hdue'), (check_invariants_ok s' Hok'). cbn [lift then_].
    exists s', w', l. simpl in *. destruct Hlog. done.
Qed.
End Loop.
