(* ===== verification/SchedulerCpu.v ===== *)
(** * The 68000 under the scheduler

    The machine whose sprints are [cpu_run_68000] over any bus that keeps the
    laws of Bus.v, with the debugger's breakpoints, as an instance of the
    interface the run loop is proved against.  The devices of such a bus do
    not call the scheduler; the one callback is the scheduler's own
    run_stop_event. *)
From Stdlib Require Import Sorted.
From S2P Require Import Prelude Bus FlatBus Memory CpuState CpuMachine CpuExc CpuOps CpuDecode CpuStays CpuDefined CpuRun.
From S2P Require Import Scheduler SchedulerProofs SchedulerRun.

(** The globals of memory.c that a sprint publishes. *)
Class SprintGlobals (B : Type) := {
  (** effective CPI, base cycles, carried fraction, slots *)
  publish : Z -> Z -> Z -> Z -> B -> B;
  bus_phantom : B -> Z;
  bus_clear_phantom : B -> B;
}.
#[global] Instance flat_globals : SprintGlobals flat_t := {
  publish _ _ _ _ b := b;
  bus_phantom _ := 0;
  bus_clear_phantom b := b;
}.
#[global] Instance mem_globals {D T} : SprintGlobals (mem_t D T) := {
  publish eff base frac slots m :=
    let g := sprint m in
    set_sprint (mk_sprint (burndown g) (io_penalty_remainder g) 0 eff base frac slots (esync_period_x256 g)) m;
  bus_phantom m := io_phantom_instructions (sprint m);
  bus_clear_phantom m :=
    let g := sprint m in
    set_sprint (mk_sprint (burndown g) (io_penalty_remainder g) 0 (io_cpi_x256 g) (sprint_base_cycles g)
      (sprint_frac_x256 g) (sprint_total_slots g) (esync_period_x256 g)) m;
}.

(** A CPU, its bus, and the debugger's unconditional breakpoints on logical
    addresses. *)
Record station (B : Type) := mk_station {
  mach : machine B;
  breakpoints : list Z;
  last_breakpoint_pc : Z;
}.
Arguments mk_station {B}. Arguments mach {B}. Arguments breakpoints {B}. Arguments last_breakpoint_pc {B}.
Definition with_mach {B} (m : machine B) (w : station B) : station B :=
  mk_station m (breakpoints w) (last_breakpoint_pc w).

(** debug_break_and_trace: stop at a breakpoint, but not twice in a row at
    the one just resumed from. *)
Definition break_and_trace {B} (w : station B) : bool * station B :=
  let current_pc := pc (cpu (mach w)) in
  if negb (last_breakpoint_pc w =? 0) && (current_pc =? last_breakpoint_pc w)
  then (false, mk_station (mach w) (breakpoints w) 0)
  else if existsb (Z.eqb current_pc) (breakpoints w)
  then (true, mk_station (mach w) (breakpoints w) current_pc)
  else (false, w).

Definition dispatch_stop {W} (e : event) (s : sched) (w : W) : sched * W :=
  if callback e =? run_stop_event then (default s (scheduler_stop s), w) else (s, w).

Section Station.
Context {B : Type} `{BusLaws B} `{SprintGlobals B}.

(** The sprint counter is the cell the bus counts down. *)
Definition station_sprint (s : sched) (w : station B) : option (sched * station B) :=
  let m := mach w in
  let m := set_bus (set_instructions (sprint_burndown s) (bus m)) m in
  match cpu_run_68000 (Z.to_nat (sprint_burndown s)) m with
  | Some (Ret _, m) => Some (set_sprint_burndown (instructions (bus m)) s, with_mach m w)
  | _ => None
  end.

#[global] Instance station_platform : Platform (station B) := {
  cpu_is_stopped w := truthy (stopped (cpu (mach w)));
  cpu_poll s w := (s, with_mach (final cpu_check_interrupt (mach w)) w);
  cpu_run_sprint := station_sprint;
  publish_sprint s w :=
    let m := mach w in
    with_mach (set_bus (publish (cpi_eff_x256 s) (cpu_cycles s) (cycle_frac_x256 s) (sprint_total s) (bus m)) m) w;
  phantom w := bus_phantom (bus (mach w));
  clear_phantom w := with_mach (set_bus (bus_clear_phantom (bus (mach w))) (mach w)) w;
  debug_active w := if breakpoints w is [] then false else true;
  debug_break_and_trace := break_and_trace;
  dispatch := dispatch_stop;
}.

(** A sprint that returns has spent its budget. *)
Lemma run_drained fuel m m' : instructions (bus m) <= Z.of_nat fuel ->
  cpu_run_68000 fuel m = Some (Ret tt, m') -> instructions (bus m') = 0.
Proof.
  intros Hf. unfold cpu_run_68000. rewrite (ends_final _ m (ends_check_interrupt false false)).
  destruct (stays_check_interrupt _ sprint_system m) as [Hb _].
  destruct (run_loop_total fuel (final cpu_check_interrupt m)) as (o & m1 & -> & _ & [[-> E]|[-> _]]); [lia|..].
  - destruct (epilogue_total m1 E) as (m2 & -> & E2). by intros [= <-].
  - done.
Qed.

#[global] Instance station_laws : PlatformLaws (station B).
Proof.
  split.
  - intros s w _. simpl. apply rtc_refl.
  - intros e s w Hok. simpl. unfold dispatch_stop. destruct (callback e =? run_stop_event); [|apply rtc_refl].
    apply rtc_once, api_stop. unfold scheduler_stop. by rewrite reconcile_ok by by apply running_ok.
  - intros s w s' w' Hok. simpl. unfold station_sprint.
    pose proof (ok_sprint s Hok). pose proof (ok_total s Hok).
    destruct (cpu_run_68000 _ _) as [[[[]| |] m]|] eqn:E; try done. intros [= <- <-].
    apply run_drained in E.
    2:{ simpl. rewrite set_instructions_get by (unfold in_width; lia). lia. }
    rewrite E. split; [|done]. apply rtc_once, sprint_burn. lia.
Qed.
End Station.

(** ** Concrete machines *)

(** A fresh scheduler at address 9 with events of the given timestamps; the
    first one is a run_stop_event. *)
Definition fresh : sched := default (mk_sched schedule_paced false 0 1 0 0 [] 0 0 0 0 0 0 [] 0 [] []) (scheduler_init 9 None).
Definition with_stop (delay : Z) (s : sched) : sched :=
  default s (scheduler_new_cpu_event run_stop_event 9 0 delay 0 s).
Definition idle_machine : machine flat_t :=
  mk_machine (set_pc 0x400 (cpu_init CPU_MODEL_68000)) (mk_flat ∅ false 0 false 0) [].
Definition idle_station : station flat_t := mk_station idle_machine [] 0.

Lemma fresh_ok : sched_ok (with_stop 29 fresh).
Proof.
  assert (with_stop 29 fresh = mk_sched schedule_paced false 0 12 0 2048 (event_types fresh) 3072 0 0 0 0 0
    [mk_event 29 1 9 0] 7833600 [] []) as -> by (vm_compute; reflexivity).
  split; simpl; try lia.
  - change (0 < 2 ^ 60). lia.
  - repeat constructor.
  - repeat constructor; simpl; lia.
  - unfold MAX_SANE_EVENTS. lia.
  - by repeat constructor.
Qed.

(** The 68000 runs three instructions of 12 cycles: the run_stop_event at
    cycle 29 fires at cycle 36 and stops the scheduler. *)
Example stop_event_example :
  match scheduler_run_instructions (Z.to_nat 500) 10 8 (with_stop 29 fresh) idle_station with
  | Returns (s, w) => (cpu_cycles s, running s, total_instructions s, pc (cpu (mach w)), fired s) =
                      (36, false, 3, 0x40C, [(36, mk_event 29 1 9 0)])
  | _ => False
  end.
Proof. vm_compute. reflexivity. Qed.

Lemma new_cpu_event_correct_witness :
  exists s', scheduler_new_cpu_event run_stop_event 9 0 0 1000 (with_stop 29 fresh) = Some s' /\
    cpu_events s' = [mk_event 7 1 9 0; mk_event 29 1 9 0].
Proof.
  destruct (new_cpu_event_correct run_stop_event 9 0 0 1000 (with_stop 29 fresh) fresh_ok) as (s' & E & Hq & _).
  - vm_compute. split; [done|]. split; [done|by eexists].
  - vm_compute. split; congruence.
  - vm_compute. done.
  - exists s'. split; [done|]. rewrite Hq. vm_compute. reflexivity.
Defined.

Lemma run_instructions_correct_witness :
  let s := with_stop 29 fresh in
  scheduler_run_instructions (Z.to_nat 60000) (Z.to_nat 10000) 8 s idle_station = Stuck \/
  exists s' w' l, scheduler_run_instructions (Z.to_nat 60000) (Z.to_nat 10000) 8 s idle_station = Returns (s', w') /\
    sched_ok s' /\ idle s' /\ cpu_cycles s <= cpu_cycles s' < cpu_cycles s + 96 + cpi s /\
    (cpu_cycles s + 96 <= cpu_cycles s' \/ running s' = false \/
     (cpu_is_stopped w' = true /\ cpu_events s' = [])) /\
    Forall (fun e => cpu_cycles s' <= timestamp e) (cpu_events s') /\
    fired s' = l ++ fired s /\
    StronglySorted (fun p q => timestamp q.2 <= timestamp p.2) l /\
    Forall (fun p => timestamp p.2 <= p.1 < timestamp p.2 + cpi s) l.
Proof.
  apply (run_instructions_correct (Z.to_nat 60000) (Z.to_nat 10000) 8 (with_stop 29 fresh) idle_station).
  - exact fresh_ok.
  - split; vm_compute; reflexivity.
  - vm_compute. constructor; [congruence|constructor].
  - vm_compute. reflexivity.
  - lia.
  - vm_compute. reflexivity.
  - vm_compute. congruence.
  - rewrite Z2Nat.id by lia. vm_compute. congruence.
  - vm_compute. lia.
Defined.

(** ** Two findings *)

(** With a breakpoint set, the loop leaves before it fires the events that
    the last instruction ran past, and its closing assertion fails. *)
Theorem breakpoint_asserts :
  scheduler_run_instructions (Z.to_nat 500) 10 8 (with_stop 5 fresh)
    (mk_station idle_machine [0x404] 0) = Asserts.
Proof. vm_compute. reflexivity. Qed.

(** scheduler_stop does not end a run while the CPU sleeps in STOP: the
    clock goes on to the next event after the one that stopped it. *)
Definition sleeping : station flat_t :=
  mk_station (mk_machine (set_stopped 1 (cpu idle_machine)) (bus idle_machine) []) [] 0.
Theorem stop_ignored_in_STOP :
  match scheduler_run_instructions (Z.to_nat 500) 10 8 (with_stop 50 (with_stop 29 fresh)) sleeping with
  | Returns (s, w) => running s = false /\ fired s = [(50, mk_event 50 1 9 0); (29, mk_event 29 1 9 0)] /\
                      cpu_cycles s = 50
  | _ => False
  end.
Proof. vm_compute. done. Qed.

(** A bus error zeroes the slots left without taking them off the plan, so
    the clock and the instruction count advance by the whole planned sprint
    although one instruction ran. *)
Definition faulting_station : station flat_t :=
  mk_station (mk_machine (put_a 7 0x8000 (cpu faulting_machine)) (bus faulting_machine) []) [] 0.
Theorem fault_charges_sprint :
  match scheduler_run_instructions (Z.to_nat 500) 10 8 fresh faulting_station with
  | Returns (s, w) => cpu_cycles s = 96 /\ total_instructions s = 8 /\ pc (cpu (mach w)) = 0
  | _ => False
  end.
Proof. vm_compute. done. Qed.
