(* ===== verification/SchedulerCkpt.v ===== *)
(** * Settings and checkpoints of the scheduler

    The pacing settings keep the effective CPI within the authentic one and
    never move the clock; a checkpoint of the event queue, restored in a
    process where every address differs, gives the same queue back. *)
From Stdlib Require Import QArith Qround String Sorted.
From S2P Require Import Prelude Scheduler SchedulerProofs.
Local Open Scope Z_scope.

(** ** Settings *)

Definition speed_ok (sp : Z) : Prop := SPEED_X256_ONE <= sp <= SPEED_X256_MAX.
(** The CPI that the settings ask for, in 256ths of a cycle. *)
Definition wanted_eff (s : sched) : Z :=
  match mode s with
  | schedule_accelerated =>
      let sp := if speed_x256 s =? SPEED_X256_AUTO then rung (gov_rung s) else speed_x256 s in
      Z.max 1 (cpi s * 65536 / Z.min sp (max_speed_x256 s))
  | _ => cpi s * 256
  end.
Record settings_ok (s : sched) : Prop := {
  set_cpi_ok : 0 < cpi s < 2 ^ 24;
  set_speed_ok : speed_x256 s = SPEED_X256_AUTO \/ speed_ok (speed_x256 s);
  set_max_ok : speed_ok (max_speed_x256 s);
  set_rung_ok : 0 <= gov_rung s < GOV_NUM_RUNGS;
}.

Lemma rung_range i : 0 <= i < GOV_NUM_RUNGS -> speed_ok (rung i).
Proof.
  unfold GOV_NUM_RUNGS. intros Hi.
  assert (i = 0 \/ i = 1 \/ i = 2 \/ i = 3 \/ i = 4 \/ i = 5 \/ i = 6) as Hc by lia.
  destruct Hc as [->|[->|[->|[->|[->|[->| ->]]]]]]; vm_compute; split; congruence.
Qed.

(** The re-derivation of the effective CPI: what is asked for, and never
    above the authentic CPI. *)
Lemma update_cpi_eff_ok s : settings_ok s ->
  scheduler_update_cpi_eff s = Some (set_cycle_frac_x256 0 (set_cpi_eff_x256 (wanted_eff s) s)) /\
  0 < wanted_eff s <= cpi s * 256.
Proof.
  intros []. unfold scheduler_update_cpi_eff, wanted_eff, gs_assert, scheduler_current_speed_x256, gs_assert.
  rewrite (proj2 (Z.ltb_lt 0 _)) by lia. rewrite !Z.shiftl_mul_pow2 by lia.
  rewrite (u32_small (_ * 2 ^ 8)) by (unfold in_width; pow2; lia).
  destruct (mode s); simpl; [split; [done|lia]..|].
  unfold GOV_NUM_RUNGS in *. rewrite (proj2 (Z.leb_le 0 _)), (proj2 (Z.ltb_lt (gov_rung s) 7)) by lia. simpl.
  pose proof (rung_range _ set_rung_ok0) as Hrg. unfold speed_ok, SPEED_X256_ONE, SPEED_X256_MAX, SPEED_X256_AUTO in *.
  set (sp := if speed_x256 s =? 0 then rung (gov_rung s) else speed_x256 s).
  assert ((if negb (speed_x256 s =? 0) then speed_x256 s else rung (gov_rung s)) = sp) as -> by (unfold sp; by destruct (speed_x256 s =? 0)).
  assert (256 <= sp <= 2048) as Hsp by (unfold sp; destruct (Z.eqb_spec (speed_x256 s) 0); lia).
  assert ((if max_speed_x256 s <? sp then max_speed_x256 s else sp) = Z.min sp (max_speed_x256 s)) as ->
    by (destruct (Z.ltb_spec (max_speed_x256 s) sp); lia).
  set (m := Z.min sp (max_speed_x256 s)). assert (256 <= m <= 2048) as Hm by lia. clearbody m.
  rewrite (proj2 (Z.ltb_ge m 256)) by lia.
  assert (0 <= cpi s * 65536 / m <= cpi s * 256) as Hd by (split; [apply Z.div_pos; lia|apply Z.div_le_upper_bound; nia]).
  split; [|lia]. change (2 ^ 16) with 65536. rewrite u64_small by (pow2; lia).
  match goal with |- Some (set_cycle_frac_x256 0 (set_cpi_eff_x256 ?e s)) = _ =>
    assert (e = Z.max 1 (cpi s * 65536 / m)) as ->; [|done] end.
  destruct (Z.ltb_spec 256 m) as [|].
  - rewrite u32_small by (unfold in_width; pow2; lia). destruct (Z.eqb_spec (cpi s * 65536 / m) 0); lia.
  - assert (m = 256) as -> by lia. change (2 ^ 8) with 256.
    replace (cpi s * 65536) with (cpi s * 256 * 256) by lia. rewrite Z.div_mul by lia. lia.
Qed.

Lemma clamp_range q : q <> NaN -> speed_ok (clamp_speed q).
Proof.
  destruct q as [|[]|q]; [done|..]; intros _; unfold speed_ok, clamp_speed, SPEED_X256_ONE, SPEED_X256_MAX; try lia.
  set (c := if Qle_bool 1 q then q else 1%Q). set (d := if Qle_bool c 8 then c else 8%Q).
  assert (1 <= c)%Q as Hc by (unfold c; destruct (Qle_bool 1 q) eqn:E; [by apply Qle_bool_iff|apply Qle_refl]).
  assert (1 <= d /\ d <= 8)%Q as [Hd1 Hd8].
  { unfold d. destruct (Qle_bool c 8) eqn:E; [split; [done|by apply Qle_bool_iff]|split; [by compute|apply Qle_refl]]. }
  split.
  - change 256 with (Qfloor (1 * 256 + (1 # 2))). apply Qfloor_resp_le.
    apply Qplus_le_compat; [|apply Qle_refl]. by apply Qmult_le_compat_r.
  - change (8 * 256)%Z with (Qfloor (8 * 256 + (1 # 2))). apply Qfloor_resp_le.
    apply Qplus_le_compat; [|apply Qle_refl]. by apply Qmult_le_compat_r.
Qed.

Lemma max_rung_range fuel m r : 0 <= r < GOV_NUM_RUNGS -> 0 <= max_rung_from fuel m r < GOV_NUM_RUNGS.
Proof.
  revert r. induction fuel as [|fuel IH]; intros r Hr; simpl; [done|].
  destruct (Z.ltb_spec (r + 1) GOV_NUM_RUNGS); simpl; [|done].
  destruct (rung (r + 1) <=? m); [apply IH; lia|done].
Qed.

(** The ways the settings change. *)
Inductive setting :=
  | Mode (m : schedule_mode)
  | Speed (q : double)
  | Max_speed (q : double)
  | Cpi (v : Z)
  | Governor (pressure may_climb : bool).
Definition apply_setting (c : setting) (s : sched) : option sched :=
  match c with
  | Mode m => scheduler_set_mode m s
  | Speed q => scheduler_set_speed q s
  | Max_speed q => scheduler_set_max_speed q s
  | Cpi v => sched_attr_cpi_set v s
  | Governor p c =>
      if decide (mode s = schedule_accelerated /\ speed_x256 s = SPEED_X256_AUTO)
      then scheduler_governor_tick p c s else Some s
  end.

Lemma eff_settled s : settings_ok s ->
  exists s', scheduler_update_cpi_eff s = Some s' /\ settings_ok s' /\
    cpi_eff_x256 s' = wanted_eff s' /\ cycle_frac_x256 s' = 0 /\ cpu_cycles s' = cpu_cycles s /\
    cpu_events s' = cpu_events s /\ sprint_total s' = sprint_total s /\ sprint_burndown s' = sprint_burndown s /\
    cpi s' = cpi s /\ mode s' = mode s.
Proof.
  intros Hok. destruct (update_cpi_eff_ok s Hok) as [-> _]. eexists. split; [done|]. by destruct Hok.
Qed.

(** A setting either is ignored or re-derives the effective CPI from settings
    in range. *)
Lemma apply_setting_ok c s : settings_ok s -> apply_setting c s = Some s \/
  exists s0, apply_setting c s = scheduler_update_cpi_eff s0 /\ settings_ok s0 /\
    cpu_cycles s0 = cpu_cycles s /\ cpu_events s0 = cpu_events s /\
    sprint_total s0 = sprint_total s /\ sprint_burndown s0 = sprint_burndown s.
Proof.
  intros [Hc Hs Hm Hr]. destruct c as [m|q|q|v|p b]; simpl.
  - unfold scheduler_set_mode. case_decide; [by left|right]. eexists. split; [done|]. by split; [split|].
  - destruct q as [|i|q]; [by left|right..]; (eexists; split; [done|]); (split; [split; simpl; try done|done]);
      [right; by apply (clamp_range (Inf i))|]. destruct (Qeq_bool q 0); [by left|right; by apply (clamp_range (Fin q))].
  - destruct q as [|i|q]; [by left|right..]; (eexists; split; [done|]); (split; [split; simpl; try done|done]);
      [by apply (clamp_range (Inf i))|by apply (clamp_range (Fin q))].
  - unfold sched_attr_cpi_set. destruct (Z.ltb_spec v 1); [by left|]. destruct (Z.ltb_spec 255 v); [by left|].
    right. simpl. unfold scheduler_set_cpi, gs_assert. rewrite (proj2 (Z.ltb_lt 0 v)) by lia. simpl.
    eexists. split; [done|]. split; [split; simpl; done || (pow2; lia)|done].
  - case_decide as Hd; [|by left]. destruct Hd as [E1 E2]. unfold scheduler_governor_tick, gs_assert.
    rewrite bool_decide_eq_true_2, (proj2 (Z.eqb_eq _ _) E2) by done. cbn [andb mbind option_bind].
    match goal with |- context [if negb (?n =? gov_rung s) then _ else _] => set (nr := n) end.
    destruct (Z.eqb_spec nr (gov_rung s)); [by left|right]. cbn [negb]. exists (set_gov_rung nr s). split; [done|].
    split; [|done]. split; simpl; try done.
    pose proof (max_rung_range 7 (max_speed_x256 s) 0 ltac:(done)) as Hmr. unfold nr. clear nr n. unfold GOV_NUM_RUNGS in *.
    generalize dependent (max_rung_from 7 (max_speed_x256 s) 0). intros mr Hmr.
    destruct p, b; cbn [andb]; zprune; lia.
Qed.

(** No sequence of mode, speed, cap and CPI changes or governor decisions
    fails an assertion, leaves a setting out of range, moves the clock or
    touches the queue; the effective CPI is always the one the settings ask
    for, positive and at most the authentic one, which it equals outside the
    accelerated mode. *)
Theorem settings_correct cs s :
  settings_ok s -> idle s -> 0 <= cycle_frac_x256 s < 256 -> cpi_eff_x256 s = wanted_eff s ->
  exists s', fold_left (fun r c => r ≫= apply_setting c) cs (Some s) = Some s' /\
    settings_ok s' /\ idle s' /\ now s' = now s /\ cpu_events s' = cpu_events s /\
    cpi_eff_x256 s' = wanted_eff s' /\ 0 < cpi_eff_x256 s' <= cpi s' * 256 /\
    (mode s' <> schedule_accelerated -> cpi_eff_x256 s' = cpi s' * 256).
Proof.
  revert s. induction cs as [|c cs IH]; intros s Hok Hi Hf He; simpl.
  - exists s. split; [done|]. do 5 (split; [done|]). rewrite He. split; [by apply update_cpi_eff_ok|].
    unfold wanted_eff. by destruct (mode s).
  - destruct (apply_setting_ok c s Hok) as [->|(s0 & -> & Hok0 & Ec & Eq & Et & Eb)]; [by apply IH|].
    destruct (eff_settled s0 Hok0) as (s1 & -> & Hok1 & He1 & Hf1 & Ec1 & Eq1 & Et1 & Eb1 & _).
    assert (idle s1) as Hi1 by (destruct Hi; split; congruence).
    destruct (IH s1 Hok1 Hi1) as (s' & Hrun & H1 & H2 & Hnow & Hq & H3); [rewrite Hf1; lia|done|].
    exists s'. split; [done|]. split; [done|]. split; [done|]. split; [|split; [congruence|done]].
    rewrite Hnow. destruct Hi, Hi1. unfold now. rewrite H, H0, H4, H5, !slot_cycles_0 by lia. congruence.
Qed.

Lemma settings_correct_witness :
  exists s', fold_left (fun r c => r ≫= apply_setting c)
      [Mode schedule_accelerated; Speed (Fin (5 # 2)); Max_speed (Fin 2); Cpi 4; Governor true false]
      (scheduler_init 9 None) = Some s' /\ cpi_eff_x256 s' = 512.
Proof.
  destruct (settings_correct
      [Mode schedule_accelerated; Speed (Fin (5 # 2)); Max_speed (Fin 2); Cpi 4; Governor true false]
      (default (mk_sched schedule_paced false 0 1 0 0 [] 0 0 0 0 0 0 [] 0 [] []) (scheduler_init 9 None)))
    as (s' & E & _ & _ & _ & _ & He & _).
  - split; vm_compute; try (split; congruence). by left.
  - done.
  - vm_compute. split; congruence.
  - done.
  - exists s'. split; [exact E|]. rewrite He. vm_compute in E. by injection E as <-.
Defined.

(** ** Checkpoints *)

(** The registered types and the events of a process in which the source [p]
    lives at [f p] and the callback [p] at [g p]. *)
Definition move_type (f g : Z -> Z) (t : event_type) : event_type :=
  mk_event_type (source_name t) (f (et_source t)) (event_name t) (g (et_callback t)).
Definition move_event (f g : Z -> Z) (e : event) : event :=
  mk_event (timestamp e) (g (callback e)) (f (source e)) (data e).
Definition names (t : event_type) : string * string := (source_name t, event_name t).

(** The restored queue does not depend on the registration order. *)
Lemma type_by_name_in l t : NoDup (names <$> l) -> t ∈ l -> type_by_name l (source_name t) (event_name t) = Some t.
Proof.
  induction l as [|u l IH]; intros Hnd Hin; [by apply elem_of_nil in Hin|]. simpl in *.
  inversion Hnd as [|? ? Hu Hnd']; subst. apply elem_of_cons in Hin as [->|Hin].
  { by rewrite !String.eqb_refl. }
  destruct (String.eqb_spec (source_name u) (source_name t)) as [E1|], (String.eqb_spec (event_name u) (event_name t)) as [E2|];
    simpl; try by apply IH.
  exfalso. apply Hu. unfold names at 1. rewrite E1, E2. apply list_elem_of_fmap. by exists t.
Qed.

Lemma find_event_type_spec s src cb t : find_event_type s src cb = Some t ->
  t ∈ event_types s /\ et_source t = src /\ et_callback t = cb.
Proof.
  unfold find_event_type. destruct (filter _ _) as [|u l] eqn:E; [done|]. intros [= ->].
  assert (t ∈ filter (fun t => et_source t = src /\ et_callback t = cb) (event_types s)) as Hin by (rewrite E; by left).
  apply list_elem_of_filter in Hin. tauto.
Qed.

(** Saved events name a type that the moved registry resolves to the moved
    event. *)
Definition resolves (f g : Z -> Z) (types : list event_type) (e : event) (v : saved_event) : Prop :=
  sv_timestamp v = timestamp e /\ sv_data v = data e /\
  type_by_name types (sv_source_name v) (sv_event_name v) =
    Some (mk_event_type (sv_source_name v) (f (source e)) (sv_event_name v) (g (callback e))).

Lemma save_events_ok f g s types q : NoDup (names <$> event_types s) -> types ≡ₚ move_type f g <$> event_types s ->
  Forall (fun e => is_Some (find_event_type s (source e) (callback e))) q ->
  exists l, save_events s q = Some l /\ Forall2 (resolves f g types) q l.
Proof.
  intros Hnd Hp. induction 1 as [|e q [t Ht] _ IH]; [by exists []|]. destruct IH as (l & E & Hl).
  simpl. unfold save_event. rewrite Ht. simpl. rewrite E. simpl. eexists. split; [done|].
  constructor; [|done]. unfold resolves. destruct (find_event_type_spec _ _ _ _ Ht) as (Hin & <- & <-).
  split; [done|]. split; [done|]. simpl.
  apply (type_by_name_in types (move_type f g t)).
  - rewrite Hp, <-list_fmap_compose. done.
  - rewrite Hp. apply list_elem_of_fmap. by exists t.
Qed.

Lemma insert_last q e : StronglySorted before q -> Forall (fun x => timestamp x <= timestamp e) q ->
  insert_event_queue q e = q ++ [e].
Proof.
  intros Hs Hq. rewrite insert_event_queue_ok by done. unfold insert_spec.
  rewrite filter_all, filter_none; [done|..]; (eapply Forall_impl; [|exact Hq]); simpl; intros; zbool; done || lia.
Qed.

Lemma restore_events_ok f g s q l : Forall2 (resolves f g (event_types s)) q l ->
  StronglySorted before (cpu_events s ++ (move_event f g <$> q)) ->
  Forall (fun e => g (callback e) <> 0 /\ 0 <= timestamp e < 2 ^ 63 /\ cpu_cycles s <= timestamp e + cpi s) q ->
  0 <= cpi s < 2 ^ 24 ->
  restore_events l s = Some (set_cpu_events (cpu_events s ++ (move_event f g <$> q)) s).
Proof.
  revert s l. induction q as [|e q IH]; intros s l Hr Hs Hq Hc; inversion Hr as [|? v ? l' (Et & Ed & En) Hr']; subst; simpl.
  - rewrite app_nil_r. by destruct s.
  - rewrite En. simpl. inversion Hq as [|? ? (Hg & Ht & Hl) Hq']; subst. unfold gs_assert.
    rewrite Et, Ed, u64_small by (pow2; lia). rewrite (proj2 (Z.leb_le _ _)), (proj2 (Z.eqb_neq _ _)) by (done || lia). simpl.
    fold (move_event f g e). rewrite insert_last.
    + set (s1 := set_cpu_events (cpu_events s ++ [move_event f g e]) s). rewrite (IH s1 l'); simpl; try done.
      * by rewrite <-app_assoc.
      * by rewrite <-app_assoc.
    + clear -Hs. induction (cpu_events s) as [|x r IHr]; [constructor|]. inversion Hs as [|? ? Hs' Hx]; subst.
      constructor; [by apply IHr|]. by apply Forall_app in Hx as [].
    + clear -Hs. induction (cpu_events s) as [|x r IHr]; [constructor|]. inversion Hs as [|? ? Hs' Hx]; subst.
      constructor; [|by apply IHr]. apply Forall_app in Hx as [_ Hx]. by inversion Hx.
Qed.

Lemma move_sorted f g q : StronglySorted before q -> StronglySorted before (move_event f g <$> q).
Proof.
  induction 1 as [|e q Hs IH He]; simpl; [constructor|]. constructor; [done|].
  apply Forall_fmap. eapply Forall_impl; [|exact He]. done.
Qed.

(** A restored scheduler: idle, with the saved clock and the moved queue. *)
Lemma restored_ok f g s s2 : sched_ok s -> (forall p, p <> 0 -> g p <> 0) ->
  cpu_events s2 = move_event f g <$> cpu_events s -> cpu_cycles s2 = cpu_cycles s -> cpi s2 = cpi s ->
  0 < cpi_eff_x256 s2 <= cpi s * 256 -> cycle_frac_x256 s2 = 0 -> idle s2 -> sched_ok s2.
Proof.
  intros Hok Hg Eq Ec Ep He Ef [Et Eb]. pose proof (cycles_le_now s Hok). pose proof (now_le_end s Hok). destruct Hok.
  assert (plan_end s2 = cpu_cycles s) as E by (unfold plan_end; rewrite Et, slot_cycles_0; lia).
  split; rewrite ?E, ?Eq, ?Ec, ?Ep, ?Ef, ?Et, ?Eb; try done; try lia.
  - by apply move_sorted.
  - apply Forall_fmap. eapply Forall_impl; [|exact ok_events]. intros e []. split; [done|by apply Hg].
  - by rewrite length_fmap.
  - apply Forall_fmap. eapply Forall_impl; [|exact ok_late]. simpl. lia.
Qed.

(** Restoring the plain data of a checkpoint with settings in range. *)
Lemma init_restored self c : 0 < ck_cpi c < 2 ^ 24 -> ck_cpu_cycles c < 2 ^ 60 ->
  Z.of_nat (length (ck_events c)) <= MAX_SANE_EVENTS ->
  (ck_speed_x256 c = SPEED_X256_AUTO \/ speed_ok (ck_speed_x256 c)) -> speed_ok (ck_max_speed_x256 c) ->
  exists s1, scheduler_init self (Some c) = Some s1 /\ cpu_events s1 = [] /\ tmp_events s1 = ck_events c /\
    cpu_cycles s1 = ck_cpu_cycles c /\ mode s1 = ck_mode c /\ cpi s1 = ck_cpi c /\ running s1 = ck_running c /\
    speed_x256 s1 = ck_speed_x256 c /\ max_speed_x256 s1 = ck_max_speed_x256 c /\
    0 < cpi_eff_x256 s1 <= ck_cpi c * 256 /\ cycle_frac_x256 s1 = 0 /\ idle s1.
Proof.
  intros Hc Hcy Hl Hs Hm. unfold scheduler_init, gs_assert.
  rewrite (proj2 (Z.ltb_lt 0 (ck_cpi c))), (proj2 (Z.ltb_lt (ck_cpu_cycles c) _)), (proj2 (Z.leb_le (Z.of_nat (length (ck_events c))) _)) by lia. simpl.
  set (sp := if negb _ && _ then SPEED_X256_AUTO else ck_speed_x256 c). assert (sp = ck_speed_x256 c) as ->.
  { unfold sp, SPEED_X256_AUTO, speed_ok in *. destruct Hs as [->|[]]; [done|].
    rewrite (proj2 (Z.ltb_ge _ SPEED_X256_ONE)), (proj2 (Z.ltb_ge SPEED_X256_MAX _)) by lia. by destruct (ck_speed_x256 c =? 0). }
  set (mx := if _ || _ then SPEED_X256_MAX else ck_max_speed_x256 c). assert (mx = ck_max_speed_x256 c) as ->.
  { unfold mx, speed_ok in *. by rewrite (proj2 (Z.ltb_ge _ SPEED_X256_ONE)), (proj2 (Z.ltb_ge SPEED_X256_MAX _)) by lia. }
  set (sa := scheduler_governor_reset _). assert (settings_ok sa) as Hsa by (split; simpl; done).
  destruct (update_cpi_eff_ok sa Hsa) as [-> Heff]. simpl. eexists. split; [done|]. by do 8 (split; [done|]).
Qed.

(** C39: a checkpoint restores the scheduler.  Whatever the addresses of the
    devices and of their callbacks in the new process and whatever order they
    register in, if the registered names are distinct and every pending
    event has a registered type, saving and restoring succeed, and the new
    scheduler has the same clock and settings and the same events in the
    same order, each bound to its device's new address. *)
Theorem checkpoint_roundtrip f g self s types :
  sched_ok s -> settings_ok s -> (forall p, p <> 0 -> g p <> 0) ->
  Forall (fun e => is_Some (find_event_type s (source e) (callback e))) (cpu_events s) ->
  NoDup (names <$> event_types s) -> Z.of_nat (length (event_types s)) <= MAX_EVENT_TYPES ->
  types ≡ₚ move_type f g <$> event_types s ->
  exists ck s1 s2, scheduler_checkpoint s = Some ck /\ scheduler_init self (Some ck) = Some s1 /\
    scheduler_start (set_event_types types s1) = Some s2 /\
    cpu_events s2 = move_event f g <$> cpu_events s /\
    cpu_cycles s2 = cpu_cycles s /\ mode s2 = mode s /\ cpi s2 = cpi s /\ running s2 = running s /\
    speed_x256 s2 = speed_x256 s /\ max_speed_x256 s2 = max_speed_x256 s /\ sched_ok s2.
Proof.
  intros Hok Hset Hg Hreg Hnd Hlen Hp. destruct (save_events_ok f g s types _ Hnd Hp Hreg) as (l & El & Hl).
  pose proof Hok as []. pose proof Hset as []. unfold scheduler_checkpoint, gs_assert.
  pose proof (cycles_le_now s Hok). pose proof (now_le_end s Hok).
  rewrite (proj2 (Z.ltb_lt (cpu_cycles s) _)), (proj2 (Z.leb_le (Z.of_nat (length (event_types s))) _)), (validate_ok s Hok), El by lia.
  simpl. pose proof (Forall2_length Hl) as Elen.
  set (ck := mk_checkpoint _ _ _ _ _ _ l).
  destruct (init_restored self ck) as (s1 & Ei & Eq & Et & Ec & Em & Ep & Er & Es & Ex & He & Ef & Hi); simpl; try done; try lia.
  set (s2 := set_event_types types s1).
  assert (restore_events l s2 = Some (set_cpu_events (move_event f g <$> cpu_events s) s2)) as Hre.
  { rewrite <-(app_nil_l (_ <$> _)), <-Eq. apply (restore_events_ok f g s2 (cpu_events s) l Hl); simpl.
    - rewrite Eq. by apply move_sorted.
    - apply Forall_forall. intros e Hin. rewrite Forall_forall in ok_events. rewrite Forall_forall in ok_late.
      destruct (ok_events e Hin). specialize (ok_late e Hin). rewrite Ec, Ep. simpl. split; [auto|]. split; [done|lia].
    - rewrite Ep. simpl. lia. }
  set (s3 := set_tmp_events [] (set_cpu_events (move_event f g <$> cpu_events s) s2)).
  assert (sched_ok s3) as Hok3 by by apply (restored_ok f g s).
  exists ck, s1, s3. split; [done|]. split; [done|]. split; [|done].
  unfold scheduler_start. fold s2. replace (tmp_events s2) with l by done.
  destruct l as [|v l]; [|rewrite Hre; cbn [mbind option_bind]; fold s3; by rewrite (check_invariants_ok _ Hok3)].
  inversion Hl as [E|]. unfold s3, s2. rewrite <-E. clear -Eq Et. destruct s1. simpl in *. by subst.
Qed.

(** Two devices at new addresses, in a new order. *)
Definition two_types : list event_type :=
  [mk_event_type "via" 40 "t1" 100; mk_event_type "rtc" 50 "tick" 200].
Definition pending_sched : sched :=
  mk_sched schedule_paced true 600 12 0 2048 two_types 3072 0 0 50 0 0
    [mk_event 610 200 50 7; mk_event 700 100 40 8; mk_event 700 200 50 9] 7833600 [] [].
Lemma pending_ok : sched_ok pending_sched.
Proof.
  split; simpl; try lia.
  - change (600 < 2 ^ 60). lia.
  - repeat constructor; unfold before; simpl; lia.
  - repeat constructor; simpl; lia.
  - unfold MAX_SANE_EVENTS. lia.
  - change (plan_end pending_sched) with 600. repeat constructor; simpl; lia.
Qed.
Lemma checkpoint_roundtrip_witness :
  exists ck s1 s2, scheduler_checkpoint pending_sched = Some ck /\ scheduler_init 3 (Some ck) = Some s1 /\
    scheduler_start (set_event_types [mk_event_type "rtc" 51 "tick" 401; mk_event_type "via" 41 "t1" 201] s1) = Some s2 /\
    cpu_events s2 = [mk_event 610 401 51 7; mk_event 700 201 41 8; mk_event 700 401 51 9].
Proof.
  destruct (checkpoint_roundtrip (Z.add 1) (fun p => 2 * p + 1) 3 pending_sched
    [mk_event_type "rtc" 51 "tick" 401; mk_event_type "via" 41 "t1" 201])
    as (ck & s1 & s2 & E1 & E2 & E3 & E4 & _).
  - exact pending_ok.
  - split; simpl; try lia; [by left|split; vm_compute; congruence|unfold GOV_NUM_RUNGS; lia].
  - intros p _. lia.
  - repeat constructor; by eexists.
  - apply (bool_decide_unpack _). by vm_compute.
  - vm_compute. congruence.
  - vm_compute. constructor.
  - exists ck, s1, s2. done.
Defined.
