(* ===== verification/FloppyGcr.v ===== *)
(** * GCR coding of floppy tracks

    Model of src/core/peripherals/floppy_gcr.c: the 6-and-2 code, the sector
    and track encoder used when the guest reads a track, and the decoder used
    when modified tracks are flushed back to the disk image.  A buffer that
    the C code walks with a pointer is the list of the bytes from the pointer
    on; a failed GS_ASSERT, and a read past the buffer, is [None]. *)
From S2P Require Import Prelude.

Definition gcr_codewords : list Z :=
  [0x96; 0x97; 0x9A; 0x9B; 0x9D; 0x9E; 0x9F; 0xA6; 0xA7; 0xAB; 0xAC; 0xAD; 0xAE;
   0xAF; 0xB2; 0xB3; 0xB4; 0xB5; 0xB6; 0xB7; 0xB9; 0xBA; 0xBB; 0xBC; 0xBD; 0xBE;
   0xBF; 0xCB; 0xCD; 0xCE; 0xCF; 0xD3; 0xD6; 0xD7; 0xD9; 0xDA; 0xDB; 0xDC; 0xDD;
   0xDE; 0xDF; 0xE5; 0xE6; 0xE7; 0xE9; 0xEA; 0xEB; 0xEC; 0xED; 0xEE; 0xEF; 0xF2;
   0xF3; 0xF4; 0xF5; 0xF6; 0xF7; 0xF9; 0xFA; 0xFB; 0xFC; 0xFD; 0xFE; 0xFF].

(** ** Geometry *)

Definition NUM_TRACKS : Z := 80.
Definition NUM_SIDES : Z := 2.
Definition group (track : Z) : nat := Z.to_nat (Z.shiftr track 4).
Definition iwm_track_length (track : Z) : option Z :=
  if track <? 80 then [9320; 8559; 7780; 6994; 6224] !! group track else None.
Definition iwm_track_rpm (track : Z) : option Z :=
  if track <? 80 then [394; 429; 472; 525; 590] !! group track else None.
Definition iwm_sectors_per_track (track : Z) : Z := 12 - Z.shiftr track 4.

Fixpoint tracks_offset (t : nat) (num_sides : Z) : Z :=
  match t with
  | O => 0
  | S t => tracks_offset t num_sides + num_sides * iwm_sectors_per_track (Z.of_nat t) * 512
  end.
Definition iwm_disk_image_offset (track side num_sides : Z) : Z :=
  tracks_offset (Z.to_nat track) num_sides +
  (if truthy side && (1 <? num_sides) then iwm_sectors_per_track track * 512 else 0).

(** ** Encoding *)

Definition GCR (x : Z) : Z := default 0 (gcr_codewords !! Z.to_nat (Z.land x 0x3F)).
Definition GCR3 (a b c : Z) : list Z :=
  [GCR (Z.lor (Z.lor (Z.land (Z.shiftr a 2) 0x30) (Z.land (Z.shiftr b 4) 0x0C)) (Z.land (Z.shiftr c 6) 0x03));
   GCR a; GCR b; GCR c].
Definition GCR2 (a b : Z) : list Z :=
  [GCR (Z.lor (Z.land (Z.shiftr a 2) 0x30) (Z.land (Z.shiftr b 4) 0x0C)); GCR a; GCR b].

(** The checksum registers (uint16_t). *)
Record csum := mk_csum { ca : Z; cb : Z; cc : Z }.

(** (c) &= 0xFF; (c) += x + carry *)
Definition add_byte (c x carry : Z) : Z := u16 (Z.land c 0xFF + x + carry).

Definition ENCODE_TRIPLET (k : csum) (x y z : Z) : csum * list Z :=
  let cc1 := u16 (Z.lor (Z.shiftl (cc k) 1) (Z.land (Z.shiftr (cc k) 7) 1)) in
  let ca1 := add_byte (ca k) x (Z.land cc1 1) in
  let ba := u8 (Z.lxor x cc1) in
  let cb1 := add_byte (cb k) y (Z.land (Z.shiftr ca1 8) 1) in
  let bb := u8 (Z.lxor y ca1) in
  let cc2 := add_byte cc1 z (Z.land (Z.shiftr cb1 8) 1) in
  let bc := u8 (Z.lxor z cb1) in
  (mk_csum ca1 cb1 cc2, GCR3 ba bb bc).

(** for (i = 0; i < n; i += 3) ENCODE_TRIPLET(src, ...): the bytes written and
    the bytes of the source left. *)
Fixpoint encode_triplets (n : nat) (k : csum) (src : list Z) : csum * list Z * list Z :=
  match n, src with
  | S n, x :: y :: z :: src =>
      let '(k, l) := ENCODE_TRIPLET k x y z in
      let '(k, l', src) := encode_triplets n k src in
      (k, l ++ l', src)
  | _, _ => (k, [], src)
  end.

(** The final two bytes and the checksum field. *)
Definition encode_tail (k : csum) (x y : Z) : list Z :=
  let cc1 := u16 (Z.lor (Z.shiftl (cc k) 1) (Z.land (Z.shiftr (cc k) 7) 1)) in
  let ca1 := add_byte (ca k) x (Z.land cc1 1) in
  let ba := u8 (Z.lxor x cc1) in
  let cb1 := add_byte (cb k) y (Z.land (Z.shiftr ca1 8) 1) in
  let bb := u8 (Z.lxor y ca1) in
  GCR2 ba bb ++ GCR3 ca1 cb1 cc1.

Definition sector_header (track sector side num_sides : Z) : list Z :=
  let format := if 1 <? num_sides then 0x22 else 0x02 in
  let side_enc := u8 (Z.lor (Z.shiftl side 5) (Z.land (Z.shiftr track 6) 0x1F)) in
  [0xD5; 0xAA; 0x96; GCR track; GCR sector; GCR side_enc; GCR format;
   GCR (Z.lxor (Z.lxor (Z.lxor track sector) side_enc) format); 0xDE; 0xAA; 0xFF].

Definition sync : list Z := [0xFF; 0xFF; 0xFF; 0xFF; 0xFF].

(** The data field after its marks: sector number, tag, data, checksum. *)
Definition data_field (tag data : list Z) (sector : Z) : list Z :=
  let '(k, l1, _) := encode_triplets 4 (mk_csum 0 0 0) tag in
  let '(k, l2, rest) := encode_triplets 170 k data in
  let l3 := if rest is x :: y :: _ then encode_tail k x y else [] in
  GCR sector :: l1 ++ l2 ++ l3 ++ [0xDE; 0xAA; 0xFF].

Definition encode_sector (tag data : list Z) (track sector side num_sides : Z) : list Z :=
  sync ++ sector_header track sector side num_sides ++ sync ++ [0xD5; 0xAA; 0xAD] ++ data_field tag data sector.

Definition interleave : list (list Z) :=
  [[0; 6; 1; 7; 2; 8; 3; 9; 4; 10; 5; 11];
   [0; 6; 1; 7; 2; 8; 3; 9; 4; 10; 5; -1];
   [0; 5; 1; 6; 2; 7; 3; 8; 4; 9; -1; -1];
   [0; 5; 1; 6; 2; 7; 3; 8; 4; -1; -1; -1];
   [0; 4; 1; 5; 2; 6; 3; 7; -1; -1; -1; -1]].

Definition slice (off len : Z) (l : list Z) : list Z := take (Z.to_nat len) (drop (Z.to_nat off) l).
Definition empty_tag : list Z := replicate 12 0.

(** The sectors in the order of the track. *)
Fixpoint encode_sectors (order : list Z) (track side : Z) (data : list Z) (num_sides : Z) : list Z :=
  match order with
  | [] => []
  | sector :: order =>
      encode_sector empty_tag (slice (sector * 512) 512 data) track sector side num_sides ++
      encode_sectors order track side data num_sides
  end.
Definition sector_order (track : Z) : list Z :=
  take (Z.to_nat (iwm_sectors_per_track track)) (default [] (interleave !! group track)).
(** [None]: an absent sector, or a track that does not fit its buffer. *)
Definition encode_track (trk_length track side : Z) (data : list Z) (num_sides : Z) : option (list Z) :=
  let order := sector_order track in
  let l := encode_sectors order track side data num_sides in
  if bool_decide (-1 ∈ order) then None
  else if Z.of_nat (length l) <? trk_length
  then Some (l ++ replicate (Z.to_nat (trk_length - Z.of_nat (length l))) 0xFF)
  else None.

(** iwm_track_data on a cache miss, for an image of [disk] bytes; [None] is
    the NULL of a read that comes up short, or a failed assertion. *)
Definition iwm_track_data (track sel num_sides : Z) (disk : list Z) : option (list Z) :=
  size ← iwm_track_length track;
  let track_bytes := iwm_sectors_per_track track * 512 in
  let track_offset := iwm_disk_image_offset track sel num_sides in
  let disk_sz := Z.of_nat (length disk) in
  let track_offset := if disk_sz <? track_offset + track_bytes
                      then iwm_disk_image_offset track 0 num_sides else track_offset in
  let sector_data := slice track_offset track_bytes disk in
  if Z.of_nat (length sector_data) =? track_bytes
  then encode_track size track sel sector_data num_sides else None.

(** ** Decoding *)

Definition decode_table : list Z :=
  fold_left (fun t i => <[Z.to_nat (Z.land (default 0 (gcr_codewords !! i)) 0x7F) := Z.of_nat i]> t)
    (seq 0 64) (replicate 128 0xFF).
Definition decode_gcr (w : Z) : option Z :=
  v ← decode_table !! Z.to_nat (Z.land w 0x7F);
  if v <? 64 then Some v else None.

(** uint8_t x = decode_gcr( *src++) *)
Definition next_gcr (src : list Z) : option (Z * list Z) :=
  match src with
  | w :: src => v ← decode_gcr w; Some (v, src)
  | [] => None
  end.
(** GS_ASSERT( *src++ == b) *)
Definition expect (b : Z) (src : list Z) : option (list Z) :=
  match src with
  | w :: src => if w =? b then Some src else None
  | [] => None
  end.

Definition READ_GCR3 (src : list Z) : option (Z * Z * Z * list Z) :=
  '(msb, src) ← next_gcr src;
  '(a, src) ← next_gcr src;
  '(b, src) ← next_gcr src;
  '(c, src) ← next_gcr src;
  Some (Z.lor a (Z.land (Z.shiftl msb 2) 0xC0), Z.lor b (Z.land (Z.shiftl msb 4) 0xC0),
        Z.lor c (Z.land (Z.shiftl msb 6) 0xC0), src).
Definition READ_GCR2 (src : list Z) : option (Z * Z * list Z) :=
  '(msb, src) ← next_gcr src;
  '(a, src) ← next_gcr src;
  '(b, src) ← next_gcr src;
  Some (Z.lor a (Z.land (Z.shiftl msb 2) 0xC0), Z.lor b (Z.land (Z.shiftl msb 4) 0xC0), src).

Definition rot (c : Z) : Z := u16 (Z.lor (Z.land (Z.shiftl c 1) 0xFE) (Z.land (Z.shiftr c 7) 1)).

Definition DECODE_TRIPLET (k : csum) (src : list Z) : option (csum * list Z * list Z) :=
  let cc1 := rot (cc k) in
  '(ba, bb, bc, src) ← READ_GCR3 src;
  let x := u8 (Z.lxor ba cc1) in
  let ca1 := add_byte (ca k) x (Z.land cc1 1) in
  let y := u8 (Z.lxor bb ca1) in
  let cb1 := add_byte (cb k) y (Z.land (Z.shiftr ca1 8) 1) in
  let z := u8 (Z.lxor bc cb1) in
  let cc2 := add_byte cc1 z (Z.land (Z.shiftr cb1 8) 1) in
  Some (mk_csum ca1 cb1 cc2, [x; y; z], src).
Fixpoint decode_triplets (n : nat) (k : csum) (src : list Z) : option (csum * list Z * list Z) :=
  match n with
  | O => Some (k, [], src)
  | S n =>
      '(k, l, src) ← DECODE_TRIPLET k src;
      '(k, l', src) ← decode_triplets n k src;
      Some (k, l ++ l', src)
  end.

(** The final two bytes, and the comparison of the checksum. *)
Definition decode_tail (k : csum) (src : list Z) : option (list Z * list Z) :=
  let cc1 := rot (cc k) in
  '(ba, bb, src) ← READ_GCR2 src;
  let x := u8 (Z.lxor ba cc1) in
  let ca1 := add_byte (ca k) x (Z.land cc1 1) in
  let y := u8 (Z.lxor bb ca1) in
  let cb1 := add_byte (cb k) y (Z.land (Z.shiftr ca1 8) 1) in
  '(ba, bb, bc, src) ← READ_GCR3 src;
  if (Z.land ca1 0xFF =? ba) && (Z.land cb1 0xFF =? bb) && (Z.land cc1 0xFF =? bc)
  then Some ([x; y], src) else None.

Definition data_marks (src : list Z) : bool :=
  match src with
  | a :: b :: c :: _ => (a =? 0xD5) && (b =? 0xAA) && (c =? 0xAD)
  | _ => false
  end.
(** The search for the data marks in the next [n] bytes: what follows them. *)
Fixpoint find_data (n : nat) (src : list Z) : option (list Z) :=
  match n with
  | O => None
  | S n => if data_marks src then Some (drop 3 src) else if src is _ :: src then find_data n src else None
  end.

Record sector_id := mk_id { id_track : Z; id_side : Z; id_sector : Z }.

Definition decode_sector (src : list Z) : option (sector_id * list Z * list Z * list Z) :=
  src ← expect 0xD5 src;
  src ← expect 0xAA src;
  src ← expect 0x96 src;
  '(track, src) ← next_gcr src;
  '(sector, src) ← next_gcr src;
  '(side, src) ← next_gcr src;
  '(format, src) ← next_gcr src;
  '(checksum, src) ← next_gcr src;
  if negb (checksum =? Z.lxor (Z.lxor (Z.lxor track sector) side) format) then None else
  let track := Z.lor (Z.land (Z.shiftl side 6) 0x40) (Z.land track 0x3F) in
  let side := Z.land (Z.shiftr side 5) 1 in
  src ← expect 0xDE src;
  src ← expect 0xAA src;
  src ← find_data 100 src;
  '(s, src) ← next_gcr src;
  if negb (s =? sector) then None else
  '(k, tag, src) ← decode_triplets 4 (mk_csum 0 0 0) src;
  '(k, data, src) ← decode_triplets 170 k src;
  '(tail, src) ← decode_tail k src;
  Some (mk_id track side sector, tag, data ++ tail, src).

(** ** Flushing a modified track *)

(** disk_write_data(img, off, buf, 512) *)
Definition disk_write (off : Z) (buf disk : list Z) : list Z :=
  take (Z.to_nat off) disk ++ buf ++ drop (Z.to_nat off + length buf) disk.

(** Where a decoded sector goes. *)
Definition flush_offset (h : sector_id) (num_sides disk_sz : Z) : Z :=
  let off := iwm_disk_image_offset (id_track h) (id_side h) 2 + id_sector h * 512 in
  if (disk_sz <? off + 512) && (num_sides =? 1)
  then iwm_disk_image_offset (id_track h) 0 1 + id_sector h * 512 else off.
Definition flush_write (h : sector_id) (buf : list Z) (num_sides : Z) (disk : list Z) : list Z :=
  if (id_track h <? NUM_TRACKS) && (id_side h <? NUM_SIDES) then
    let off := flush_offset h num_sides (Z.of_nat (length disk)) in
    if off + 512 <=? Z.of_nat (length disk) then disk_write off buf disk else disk
  else disk.

(** The first data marks within [n] positions, as far as the buffer goes; the
    flush loop skips a sector without them. *)
Fixpoint scan_data (n : nat) (src : list Z) : option (list Z) :=
  match n with
  | O => None
  | S n =>
      match src with
      | _ :: _ :: _ :: _ => if data_marks src then Some src else scan_data n (tail src)
      | _ => None
      end
  end.

Inductive flush_next := Skip | Sector (h : sector_id) (buf next : list Z).
(** What the loop does at a byte position: [None] a failed assertion. *)
Definition flush_at (p : list Z) : option flush_next :=
  match p with
  | 0xD5 :: 0xAA :: 0x96 :: h =>
      '(h_trk, h) ← next_gcr h;
      '(h_sec, h) ← next_gcr h;
      '(h_sid, h) ← next_gcr h;
      '(h_fmt, h) ← next_gcr h;
      '(h_chk, h) ← next_gcr h;
      if negb (h_chk =? Z.lxor (Z.lxor (Z.lxor h_trk h_sec) h_sid) h_fmt) then Some Skip else
      match scan_data 98 h with
      | None => Some Skip
      | Some d =>
          '(s, _) ← next_gcr (drop 3 d);
          if negb (s =? h_sec) then Some Skip else
          '(id, _, buf, next) ← decode_sector p;
          Some (Sector id buf next)
      end
  | _ => Some Skip
  end.
(** while (p + 730 < end), over a track buffer. *)
Fixpoint flush_loop (fuel : nat) (p : list Z) (num_sides : Z) (disk : list Z) : option (list Z) :=
  if Z.of_nat (length p) <=? 730 then Some disk else
  match fuel with
  | O => None
  | S fuel =>
      n ← flush_at p;
      match n with
      | Skip => flush_loop fuel (tail p) num_sides disk
      | Sector h buf next => flush_loop fuel next num_sides (flush_write h buf num_sides disk)
      end
  end.
Definition flush_track (track : list Z) (num_sides : Z) (disk : list Z) : option (list Z) :=
  flush_loop (length track) track num_sides disk.
