(* ===== verification/FloppyGcrProofs.v ===== *)
(** * Round trips of the GCR code

    Decoding a sector gives back the bytes it was encoded from; flushing a
    track writes each of its sectors to the place the track was read from. *)
From S2P Require Import Prelude FloppyGcr.

Definition is_byte (x : Z) : Prop := 0 <= x < 256.

(** Equality of bit fields, bit by bit below [n] and by masks above. *)
Ltac bit_specs :=
  repeat first
    [ rewrite Z.lor_spec | rewrite Z.land_spec | rewrite Z.lxor_spec
    | rewrite Z.shiftr_spec by lia | rewrite Z.shiftl_spec by lia ].
Ltac byte_bits :=
  apply Z.bits_inj'; intros i Hi; destruct (Z.lt_ge_cases i 8) as [Hi8|Hi8];
  [ assert (i = 0 \/ i = 1 \/ i = 2 \/ i = 3 \/ i = 4 \/ i = 5 \/ i = 6 \/ i = 7) as Hc by lia;
    destruct Hc as [->|[->|[->|[->|[->|[->|[->| ->]]]]]]]; bit_specs; simpl
  | bit_specs ].

Lemma const_high c i : 0 <= c < 256 -> 8 <= i -> Z.testbit c i = false.
Proof. intros Hc Hi. apply (width_bits 8); [unfold in_width; pow2; lia|lia]. Qed.

(** ** One codeword *)

Lemma decode_table_ok : forallb (fun v => bool_decide (decode_gcr (default 0 (gcr_codewords !! v)) = Some (Z.of_nat v))) (seq 0 64) = true.
Proof. vm_compute. reflexivity. Qed.
Lemma decode_GCR x : decode_gcr (GCR x) = Some (Z.land x 0x3F).
Proof.
  unfold GCR. assert (0 <= Z.land x 0x3F < 64) as Hv.
  { change 0x3F with (Z.ones 6). rewrite Z.land_ones by lia. apply Z.mod_pos_bound. lia. }
  pose proof (proj1 (forallb_forall _ _) decode_table_ok (Z.to_nat (Z.land x 0x3F))) as H.
  rewrite bool_decide_eq_true in H. rewrite H by (apply in_seq; lia). by rewrite Z2Nat.id by lia.
Qed.
Lemma next_GCR x src : next_gcr (GCR x :: src) = Some (Z.land x 0x3F, src).
Proof. unfold next_gcr. by rewrite decode_GCR. Qed.

Lemma READ_GCR3_ok a b c src :
  READ_GCR3 (GCR3 a b c ++ src) = Some (Z.land a 0xFF, Z.land b 0xFF, Z.land c 0xFF, src).
Proof.
  unfold READ_GCR3, GCR3. cbn [app]. rewrite next_GCR. cbn [mbind option_bind]. rewrite next_GCR. cbn [mbind option_bind].
  rewrite next_GCR. cbn [mbind option_bind]. rewrite next_GCR. cbn [mbind option_bind].
  do 4 f_equal; byte_bits; rewrite ?andb_true_r, ?andb_false_r, ?orb_false_r; try done;
    rewrite ?(const_high 0x3F i), ?(const_high 0xFF i), ?(const_high 0xC0 i) by lia; by rewrite ?andb_false_r.
Qed.
Lemma READ_GCR2_ok a b src :
  READ_GCR2 (GCR2 a b ++ src) = Some (Z.land a 0xFF, Z.land b 0xFF, src).
Proof.
  unfold READ_GCR2, GCR2. cbn [app]. rewrite next_GCR. cbn [mbind option_bind]. rewrite next_GCR. cbn [mbind option_bind].
  rewrite next_GCR. cbn [mbind option_bind].
  do 3 f_equal; byte_bits; rewrite ?andb_true_r, ?andb_false_r, ?orb_false_r; try done;
    rewrite ?(const_high 0x3F i), ?(const_high 0xFF i), ?(const_high 0xC0 i) by lia; by rewrite ?andb_false_r.
Qed.

(** ** Triplets *)

Lemma u8_land x : u8 x = Z.land x 0xFF.
Proof. unfold u8, wrap. change 0xFF with (Z.ones 8). by rewrite Z.land_ones. Qed.
Lemma u8_byte x : is_byte x -> u8 x = x.
Proof. intros. by apply wrap_small. Qed.
Lemma u8_is_byte x : is_byte (u8 x).
Proof. apply u8_range. Qed.

(** The encoder's rotated register agrees with the decoder's on the low byte. *)
Definition rot_enc (c : Z) : Z := u16 (Z.lor (Z.shiftl c 1) (Z.land (Z.shiftr c 7) 1)).
Lemma rot_low c : Z.land (rot_enc c) 0xFF = rot c.
Proof.
  unfold rot_enc, rot, u16. apply Z.bits_inj'. intros i Hi.
  rewrite Z.land_spec, !wrap_testbit by lia. destruct (Z.lt_ge_cases i 8) as [Hi8|Hi8].
  - assert (i = 0 \/ i = 1 \/ i = 2 \/ i = 3 \/ i = 4 \/ i = 5 \/ i = 6 \/ i = 7) as Hc by lia.
    destruct Hc as [->|[->|[->|[->|[->|[->|[->| ->]]]]]]]; bit_specs; simpl; by rewrite ?andb_true_r, ?andb_false_r.
  - bit_specs. rewrite (const_high 0xFF i), (const_high 0xFE i), (const_high 1 i) by lia. by rewrite !andb_false_r.
Qed.
Lemma rot_1 c : Z.land (rot_enc c) 1 = Z.land (rot c) 1.
Proof. by rewrite <-rot_low, <-Z.land_assoc. Qed.
Lemma land_idem_ff x : Z.land (Z.land x 0xFF) 0xFF = Z.land x 0xFF.
Proof. by rewrite <-Z.land_assoc. Qed.

(** Masking a byte with a register and unmasking it again. *)
Lemma unmask x c c' : is_byte x -> Z.land c 0xFF = Z.land c' 0xFF ->
  u8 (Z.lxor (Z.land (u8 (Z.lxor x c)) 0xFF) c') = x.
Proof.
  intros Hx Hc. rewrite !u8_land, land_idem_ff. rewrite <-(u8_byte x Hx) at 2. rewrite u8_land.
  apply Z.bits_inj'. intros i Hi. apply (f_equal (fun z => Z.testbit z i)) in Hc.
  rewrite !Z.land_spec in Hc. bit_specs. destruct (Z.testbit 0xFF i); [|by rewrite !andb_false_r].
  rewrite !andb_true_r in *. rewrite Hc. by destruct (Z.testbit x i), (Z.testbit c' i).
Qed.
Lemma add_byte_low c c' x k : Z.land c 0xFF = Z.land c' 0xFF -> add_byte c x k = add_byte c' x k.
Proof. intros E. unfold add_byte. by rewrite E. Qed.

Lemma triplet_ok k x y z src : is_byte x -> is_byte y -> is_byte z ->
  DECODE_TRIPLET k ((ENCODE_TRIPLET k x y z).2 ++ src) = Some ((ENCODE_TRIPLET k x y z).1, [x; y; z], src).
Proof.
  intros Hx Hy Hz. unfold DECODE_TRIPLET, ENCODE_TRIPLET. cbn [fst snd]. rewrite READ_GCR3_ok. cbn [mbind option_bind].
  fold (rot_enc (cc k)).
  assert (Z.land (rot_enc (cc k)) 0xFF = Z.land (rot (cc k)) 0xFF) as Er by (rewrite <-rot_low; by rewrite land_idem_ff).
  rewrite (unmask x (rot_enc (cc k)) (rot (cc k)) Hx Er). rewrite <-rot_1. rewrite !unmask by done.
  by rewrite (add_byte_low (rot_enc (cc k)) (rot (cc k)) z _ Er).
Qed.

Lemma triplets_ok n k src rest : (3 * n <= length src)%nat -> Forall is_byte src ->
  let '(k', l, src') := encode_triplets n k src in
  src' = drop (3 * n) src /\ length l = (4 * n)%nat /\
  decode_triplets n k (l ++ rest) = Some (k', take (3 * n) src, rest).
Proof.
  revert k src. induction n as [|n IH]; intros k src Hl Hb; [done|].
  destruct src as [|x [|y [|z src]]]; simpl in Hl; try lia.
  inversion Hb as [|? ? Hx Hb1]; inversion Hb1 as [|? ? Hy Hb2]; inversion Hb2 as [|? ? Hz Hb3]; subst.
  cbn [encode_triplets decode_triplets].
  pose proof (triplet_ok k x y z) as Ht. destruct (ENCODE_TRIPLET k x y z) as [k1 l1] eqn:E1. simpl in Ht.
  specialize (IH k1 src ltac:(lia) Hb3). destruct (encode_triplets n k1 src) as [[k2 l2] src2].
  destruct IH as (-> & Hlen & Hd). replace (3 * S n)%nat with (S (S (S (3 * n)))) by lia.
  split; [done|]. split.
  { rewrite length_app, Hlen. unfold ENCODE_TRIPLET in E1. injection E1 as _ <-. simpl. lia. }
  rewrite <-app_assoc, Ht by done. cbn [mbind option_bind]. rewrite Hd. done.
Qed.

Lemma tail_ok k x y src : is_byte x -> is_byte y ->
  decode_tail k (encode_tail k x y ++ src) = Some ([x; y], src).
Proof.
  intros Hx Hy. unfold decode_tail, encode_tail. rewrite <-app_assoc, READ_GCR2_ok. cbn [mbind option_bind].
  fold (rot_enc (cc k)).
  assert (Z.land (rot_enc (cc k)) 0xFF = Z.land (rot (cc k)) 0xFF) as Er by (rewrite <-rot_low; by rewrite land_idem_ff).
  rewrite (unmask x (rot_enc (cc k)) (rot (cc k)) Hx Er). rewrite <-rot_1. rewrite !unmask by done.
  rewrite READ_GCR3_ok. cbn [mbind option_bind]. by rewrite Er, !Z.eqb_refl.
Qed.

(** ** Sectors *)

Lemma data_field_ok tag data sector rest : length tag = 12%nat -> length data = 512%nat ->
  Forall is_byte tag -> Forall is_byte data -> 0 <= sector < 64 ->
  length (data_field tag data sector) = 707%nat /\
  exists k1 l1 l2 l3 k2, data_field tag data sector ++ rest = GCR sector :: l1 ++ l2 ++ l3 ++ [0xDE; 0xAA; 0xFF] ++ rest /\
  (forall r, decode_triplets 4 (mk_csum 0 0 0) (l1 ++ r) = Some (k1, tag, r)) /\
  (forall r, decode_triplets 170 k1 (l2 ++ r) = Some (k2, take 510 data, r)) /\
  (forall r, decode_tail k2 (l3 ++ r) = Some (drop 510 data, r)).
Proof.
  intros Ht Hd Hbt Hbd Hs. unfold data_field.
  pose proof (fun r => triplets_ok 4 (mk_csum 0 0 0) tag r ltac:(lia) Hbt) as H1.
  destruct (encode_triplets 4 _ tag) as [[k1 l1] r1].
  pose proof (fun r => triplets_ok 170 k1 data r ltac:(lia) Hbd) as H2.
  destruct (encode_triplets 170 k1 data) as [[k2 l2] r2].
  destruct (H1 []) as (_ & Hl1 & _). destruct (H2 []) as (E2 & Hl2 & _). change (3 * 170)%nat with 510%nat in *.
  assert (length r2 = 2%nat) as Hr2 by (rewrite E2, length_drop; lia).
  destruct r2 as [|x [|y [|]]]; try done.
  assert (Forall is_byte [x; y]) as Hxy by (rewrite E2; by apply Forall_drop).
  inversion Hxy as [|? ? Hx Hy']; inversion Hy' as [|? ? Hy]; subst. split.
  { cbn [length]. rewrite !length_app, Hl1, Hl2. done. }
  exists k1, l1, l2, (encode_tail k2 x y), k2. split; [cbn [app]; by rewrite <-!app_assoc|].
  split; [|split].
  - intros r. destruct (H1 r) as (_ & _ & ->). by rewrite take_ge by lia.
  - intros r. by destruct (H2 r) as (_ & _ & ->).
  - intros r. rewrite <-E2. by apply tail_ok.
Qed.

Lemma land_lxor a b m : Z.land (Z.lxor a b) m = Z.lxor (Z.land a m) (Z.land b m).
Proof. apply Z.bits_inj'. intros. bit_specs. by destruct (Z.testbit a n), (Z.testbit b n), (Z.testbit m n). Qed.
Lemma land_3F x : 0 <= x < 64 -> Z.land x 0x3F = x.
Proof. intros. change 0x3F with (Z.ones 6). rewrite Z.land_ones by lia. apply Z.mod_small. lia. Qed.

(** The side and the seventh bit of the track number share a codeword. *)
Lemma side_enc_ok track side : 0 <= track < 128 -> (side = 0 \/ side = 1) ->
  let e := u8 (Z.lor (Z.shiftl side 5) (Z.land (Z.shiftr track 6) 0x1F)) in
  Z.lor (Z.land (Z.shiftl (Z.land e 0x3F) 6) 0x40) (Z.land (Z.land track 0x3F) 0x3F) = track /\
  Z.land (Z.shiftr (Z.land e 0x3F) 5) 1 = side.
Proof.
  intros Ht Hs.
  assert (forall_bits 7 0 (fun track => forallb (fun side =>
    let e := u8 (Z.lor (Z.shiftl side 5) (Z.land (Z.shiftr track 6) 0x1F)) in
    (Z.lor (Z.land (Z.shiftl (Z.land e 0x3F) 6) 0x40) (Z.land (Z.land track 0x3F) 0x3F) =? track) &&
    (Z.land (Z.shiftr (Z.land e 0x3F) 5) 1 =? side)) [0; 1]) = true) as H by (vm_compute; reflexivity).
  apply (forall_bits_width 7 _ track) in H; [|unfold in_width; simpl; lia].
  simpl in H. destruct Hs as [-> | ->].
  - apply andb_prop in H as [[E1 E2]%andb_prop _]. apply Z.eqb_eq in E1, E2. done.
  - apply andb_prop in H as [_ [[E1 E2]%andb_prop _]%andb_prop]. apply Z.eqb_eq in E1, E2. done.
Qed.

Definition sector_body (tag data : list Z) (track sector side num_sides : Z) : list Z :=
  sector_header track sector side num_sides ++ sync ++ [0xD5; 0xAA; 0xAD] ++ data_field tag data sector.

(** Decoding stops at the closing marks. *)
Lemma decode_sector_ok tag data track sector side ns rest :
  length tag = 12%nat -> length data = 512%nat -> Forall is_byte tag -> Forall is_byte data ->
  0 <= track < 128 -> 0 <= sector < 64 -> (side = 0 \/ side = 1) ->
  decode_sector (sector_body tag data track sector side ns ++ rest) =
  Some (mk_id track side sector, tag, data, [0xDE; 0xAA; 0xFF] ++ rest).
Proof.
  intros Ht Hd Hbt Hbd Htr Hs Hsd.
  destruct (data_field_ok tag data sector rest Ht Hd Hbt Hbd Hs) as (_ & k1 & l1 & l2 & l3 & k2 & E & H1 & H2 & H3).
  unfold sector_body. rewrite <-!app_assoc, E. unfold sector_header.
  set (fmt := if 1 <? ns then _ else _). set (e := u8 _). unfold decode_sector. cbn [app sync].
  do 3 (cbn [expect mbind option_bind]; rewrite Z.eqb_refl). cbn [mbind option_bind].
  do 5 (rewrite next_GCR; cbn [mbind option_bind]).
  rewrite !land_lxor, Z.eqb_refl. cbn [negb].
  do 2 (cbn [expect mbind option_bind]; rewrite Z.eqb_refl). cbn [mbind option_bind].
  destruct (side_enc_ok track side Htr Hsd) as [E1 E2]. fold e in E1, E2. rewrite E1, E2, !(land_3F sector Hs).
  match goal with |- context [find_data 100 ?l] =>
    change (find_data 100 l) with (Some (GCR sector :: l1 ++ l2 ++ l3 ++ [0xDE; 0xAA; 0xFF] ++ rest)) end.
  cbn [mbind option_bind]. rewrite next_GCR. cbn [mbind option_bind]. rewrite (land_3F sector Hs), Z.eqb_refl. cbn [negb].
  rewrite H1. cbn [mbind option_bind]. rewrite H2. cbn [mbind option_bind]. rewrite H3. cbn [mbind option_bind].
  by rewrite take_drop.
Qed.

Lemma sector_body_length tag data track sector side ns : length tag = 12%nat -> length data = 512%nat ->
  Forall is_byte tag -> Forall is_byte data -> 0 <= sector < 64 ->
  length (sector_body tag data track sector side ns) = 726%nat.
Proof.
  intros Ht Hd Hbt Hbd Hs. destruct (data_field_ok tag data sector [] Ht Hd Hbt Hbd Hs) as [Hl _].
  unfold sector_body. rewrite !length_app, Hl. done.
Qed.

(** ** The flush loop *)

(** Bytes between sectors. *)
Definition is_gap (b : Z) : Prop := b = 0xFF \/ b = 0xDE \/ b = 0xAA.
Lemma sync_gap : Forall is_gap sync.
Proof. apply Forall_forall. intros b. unfold is_gap. simpl. intuition. Qed.
Lemma closing_gap : Forall is_gap [0xDE; 0xAA; 0xFF].
Proof. apply Forall_forall. intros b. unfold is_gap. simpl. intuition. Qed.
Lemma gap_skip fuel b p ns disk : is_gap b -> 730 < Z.of_nat (length (b :: p)) ->
  flush_loop (S fuel) (b :: p) ns disk = flush_loop fuel p ns disk.
Proof.
  intros Hb Hl. cbn [flush_loop]. rewrite (proj2 (Z.leb_gt _ _) Hl). by destruct Hb as [->|[->| ->]].
Qed.
Lemma gaps_skip g fuel p ns disk : Forall is_gap g -> 730 < Z.of_nat (length p) ->
  flush_loop (length g + fuel) (g ++ p) ns disk = flush_loop fuel p ns disk.
Proof.
  intros Hg Hl. induction Hg as [|b g Hb _ IH]; [done|]. cbn [length app plus].
  rewrite gap_skip; [done|done|]. cbn [length]. rewrite length_app. lia.
Qed.
Lemma gaps_end g fuel ns disk : Forall is_gap g -> (length g <= fuel)%nat -> flush_loop fuel g ns disk = Some disk.
Proof.
  intros Hg. revert fuel. induction Hg as [|b g Hb _ IH]; intros fuel Hf; [by destruct fuel|].
  destruct (Z.le_gt_cases (Z.of_nat (length (b :: g))) 730) as [Hl|Hl].
  - destruct fuel; simpl in Hf; [lia|]. cbn [flush_loop]. by rewrite (proj2 (Z.leb_le _ _) Hl).
  - destruct fuel; simpl in Hf; [lia|]. rewrite gap_skip by (done || lia). apply IH. lia.
Qed.

(** A valid sector is written and the loop goes on at its closing marks. *)
Lemma sector_flush fuel tag data track sector side ns rest disk :
  length tag = 12%nat -> length data = 512%nat -> Forall is_byte tag -> Forall is_byte data ->
  0 <= track < 128 -> 0 <= sector < 64 -> (side = 0 \/ side = 1) -> (5 <= length rest)%nat ->
  flush_loop (S fuel) (sector_body tag data track sector side ns ++ rest) ns disk =
  flush_loop fuel ([0xDE; 0xAA; 0xFF] ++ rest) ns (flush_write (mk_id track side sector) data ns disk).
Proof.
  intros Ht Hd Hbt Hbd Htr Hs Hsd Hr. pose proof (sector_body_length tag data track sector side ns Ht Hd Hbt Hbd Hs) as Hl.
  pose proof (decode_sector_ok tag data track sector side ns rest Ht Hd Hbt Hbd Htr Hs Hsd) as Hdec.
  set (p := sector_body tag data track sector side ns ++ rest) in *.
  assert (flush_at p = Some (Sector (mk_id track side sector) data ([0xDE; 0xAA; 0xFF] ++ rest))) as E.
  { destruct (data_field_ok tag data sector rest Ht Hd Hbt Hbd Hs) as (_ & k1 & l1 & l2 & l3 & k2 & Ed & _).
    assert (exists r, p = sector_header track sector side ns ++ sync ++ [0xD5; 0xAA; 0xAD] ++ GCR sector :: r) as [r Ep].
    { eexists. unfold p, sector_body. rewrite <-!app_assoc, Ed. done. }
    unfold flush_at. rewrite Ep at 1. unfold sector_header.
    set (fmt := if 1 <? ns then _ else _). set (e := u8 _). cbn [app sync].
    do 5 (rewrite next_GCR; cbn [mbind option_bind]). rewrite !land_lxor, Z.eqb_refl. cbn [negb].
    match goal with |- context [scan_data 98 ?l] =>
      change (scan_data 98 l) with (Some ([0xD5; 0xAA; 0xAD] ++ GCR sector :: r)) end.
    cbn [app drop]. rewrite next_GCR. cbn [mbind option_bind]. rewrite Z.eqb_refl. cbn [negb].
    by rewrite Hdec. }
  cbn [flush_loop]. rewrite (proj2 (Z.leb_gt _ _)) by (unfold p; rewrite length_app; lia).
  by rewrite E.
Qed.

(** The writes of a track's sectors, in their order on the track. *)
Fixpoint flush_order (order : list Z) (track side : Z) (data : list Z) (ns : Z) (disk : list Z) : list Z :=
  match order with
  | [] => disk
  | sector :: order =>
      flush_order order track side data ns
        (flush_write (mk_id track side sector) (slice (sector * 512) 512 data) ns disk)
  end.

Definition sector_in (data : list Z) (sector : Z) : Prop :=
  0 <= sector < 64 /\ (sector + 1) * 512 <= Z.of_nat (length data).
Lemma slice_length off len l : 0 <= off -> 0 <= len -> off + len <= Z.of_nat (length l) -> length (slice off len l) = Z.to_nat len.
Proof. intros. unfold slice. rewrite length_take, length_drop. lia. Qed.
Lemma slice_bytes off len l : Forall is_byte l -> Forall is_byte (slice off len l).
Proof. intros. unfold slice. by apply Forall_take, Forall_drop. Qed.
Lemma empty_tag_bytes : Forall is_byte empty_tag.
Proof. apply Forall_replicate. unfold is_byte. lia. Qed.

Lemma encode_sector_body tag data track sector side ns :
  encode_sector tag data track sector side ns = sync ++ sector_body tag data track sector side ns.
Proof. done. Qed.

Lemma flush_sectors order track side data ns pad fuel disk :
  Forall is_byte data -> Forall (sector_in data) order -> 0 <= track < 128 -> (side = 0 \/ side = 1) ->
  Forall is_gap pad -> (5 <= length pad)%nat ->
  (length (encode_sectors order track side data ns ++ pad) <= fuel)%nat ->
  flush_loop fuel (encode_sectors order track side data ns ++ pad) ns disk =
  Some (flush_order order track side data ns disk).
Proof.
  intros Hb Ho Htr Hsd Hpad Hpl. revert disk fuel.
  assert (forall g disk fuel, Forall is_gap g ->
    (length g + length (encode_sectors order track side data ns ++ pad) <= fuel)%nat ->
    flush_loop fuel (g ++ encode_sectors order track side data ns ++ pad) ns disk =
    Some (flush_order order track side data ns disk)) as Hgen.
  2:{ intros disk fuel Hf. apply (Hgen []); [constructor|simpl; lia]. }
  induction Ho as [|sector order [Hs Hse] Ho IH]; intros g disk fuel Hg Hf.
  { apply gaps_end; [by apply Forall_app|]. rewrite length_app. simpl in *. lia. }
  cbn [encode_sectors flush_order] in *. rewrite encode_sector_body in *.
  set (d := slice (sector * 512) 512 data) in *.
  assert (length d = 512%nat) as Hd by (unfold d; rewrite slice_length by lia; lia).
  assert (Forall is_byte d) as Hdb by by apply slice_bytes.
  pose proof (sector_body_length empty_tag d track sector side ns eq_refl Hd empty_tag_bytes Hdb Hs) as Hbl.
  set (body := sector_body empty_tag d track sector side ns) in *.
  set (more := encode_sectors order track side data ns ++ pad) in *.
  assert (5 <= length more)%nat by (unfold more; rewrite length_app; lia).
  rewrite <-!app_assoc in *. fold more in Hf |- *. rewrite !length_app, Hbl in Hf.
  replace fuel with (length (g ++ sync) + S (fuel - length (g ++ sync) - 1))%nat by (rewrite length_app; simpl; lia).
  rewrite (app_assoc g sync), gaps_skip.
  - unfold body. rewrite sector_flush; try done; [|apply empty_tag_bytes].
    apply IH; [apply closing_gap|]. cbn [length]. rewrite length_app. simpl in *. lia.
  - apply Forall_app. split; [done|apply sync_gap].
  - rewrite length_app, Hbl. lia.
Qed.

(** ** Where the sectors go *)

Lemma disk_write_length off buf disk : 0 <= off -> off + Z.of_nat (length buf) <= Z.of_nat (length disk) ->
  length (disk_write off buf disk) = length disk.
Proof. intros. unfold disk_write. rewrite !length_app, length_take, length_drop. lia. Qed.
Lemma disk_write_lookup off buf disk i : 0 <= off -> off + Z.of_nat (length buf) <= Z.of_nat (length disk) ->
  disk_write off buf disk !! i =
  if decide (off <= Z.of_nat i < off + Z.of_nat (length buf)) then buf !! (i - Z.to_nat off)%nat else disk !! i.
Proof.
  intros Ho Hl. unfold disk_write. destruct (decide (Z.of_nat i < off)).
  - rewrite decide_False by lia. rewrite lookup_app_l by (rewrite length_take; lia). by rewrite lookup_take_lt by lia.
  - rewrite lookup_app_r by (rewrite length_take; lia). rewrite length_take, Nat.min_l by lia.
    case_decide.
    + by rewrite lookup_app_l by lia.
    + rewrite lookup_app_r by lia. rewrite lookup_drop. f_equal. lia.
Qed.
Lemma slice_lookup off len l i : 0 <= off -> (i < Z.to_nat len)%nat -> slice off len l !! i = l !! (Z.to_nat off + i)%nat.
Proof. intros. unfold slice. by rewrite lookup_take_lt, lookup_drop by lia. Qed.

Section Placement.
Context (track side base n : Z) (data : list Z).
Hypothesis Htr : 0 <= track < 80.
Hypothesis Hsd : side = 0 \/ side = 1.
Hypothesis Hbase : base = iwm_disk_image_offset track side 2.
Hypothesis Hbase0 : 0 <= base.
Hypothesis Hdata : Z.of_nat (length data) = n * 512.

Lemma flush_write_at sector disk : 0 <= sector < n -> base + n * 512 <= Z.of_nat (length disk) ->
  flush_write (mk_id track side sector) (slice (sector * 512) 512 data) 2 disk =
  disk_write (base + sector * 512) (slice (sector * 512) 512 data) disk.
Proof.
  intros Hs Hl. unfold flush_write, NUM_TRACKS, NUM_SIDES, flush_offset. cbn [id_track id_side id_sector].
  rewrite (proj2 (Z.ltb_lt track 80)), (proj2 (Z.ltb_lt side 2)) by lia. cbn [andb]. rewrite <-Hbase.
  change (2 =? 1) with false. rewrite andb_false_r. by rewrite (proj2 (Z.leb_le _ _)) by lia.
Qed.

Lemma flush_order_ok order disk : Forall (fun s => 0 <= s < n) order -> base + n * 512 <= Z.of_nat (length disk) ->
  length (flush_order order track side data 2 disk) = length disk /\
  forall i, flush_order order track side data 2 disk !! i =
    if decide (base <= Z.of_nat i < base + n * 512 /\ (Z.of_nat i - base) / 512 ∈ order)
    then data !! (i - Z.to_nat base)%nat else disk !! i.
Proof.
  intros Ho. revert disk. induction Ho as [|s order Hs _ IH]; intros disk Hl; cbn [flush_order].
  - split; [done|]. intros i. rewrite decide_False; [done|]. intros [_ H]. by apply elem_of_nil in H.
  - rewrite flush_write_at by done. set (b := slice (s * 512) 512 data).
    assert (length b = 512%nat) as Hb by (unfold b; rewrite slice_length by lia; lia).
    assert (length (disk_write (base + s * 512) b disk) = length disk) as Hlen by (apply disk_write_length; lia).
    destruct (IH (disk_write (base + s * 512) b disk)) as [IHl IHi]; [lia|]. split; [congruence|].
    intros i. rewrite IHi, disk_write_lookup by lia. rewrite Hb.
    assert ((Z.of_nat i - base) / 512 = s <-> base + s * 512 <= Z.of_nat i < base + s * 512 + Z.of_nat 512) as Hq.
    { split; [intros <-; Z.to_euclidean_division_equations; lia|].
      intros. symmetry. apply (Z.div_unique_pos _ _ _ (Z.of_nat i - base - s * 512)); lia. }
    destruct (decide (base + s * 512 <= Z.of_nat i < base + s * 512 + Z.of_nat 512)) as [Hin|Hout].
    + rewrite (decide_True (P := base <= Z.of_nat i < _ /\ _ ∈ s :: order)).
      2:{ split; [lia|]. apply elem_of_cons. left. by apply Hq. }
      case_decide; [done|]. unfold b. rewrite slice_lookup by lia. f_equal. lia.
    + assert ((Z.of_nat i - base) / 512 ∈ s :: order <-> (Z.of_nat i - base) / 512 ∈ order) as He.
      { rewrite elem_of_cons. split; [|by right]. intros [E|]; [|done]. exfalso. apply Hout. by apply Hq. }
      repeat case_decide; tauto || done.
Qed.
End Placement.

(** Facts about the eighty tracks, by evaluation. *)
Definition track_facts (track : Z) : bool :=
  let n := iwm_sectors_per_track track in
  let order := sector_order track in
  (0 <? n) && (n <=? 12) && bool_decide (length order = Z.to_nat n) && forallb (fun s => (0 <=? s) && (s <? n)) order &&
  forallb (fun q => bool_decide (Z.of_nat q ∈ order)) (seq 0 (Z.to_nat n)) &&
  forallb (fun side => (0 <=? iwm_disk_image_offset track side 2) &&
    (iwm_disk_image_offset track side 2 + n * 512 <=? 819200)) [0; 1] &&
  (if iwm_track_length track is Some len then n * 731 + 5 <=? len else false).
Lemma track_facts_ok track : 0 <= track < 80 -> track_facts track = true.
Proof.
  intros Ht. assert (forallb (fun t => track_facts (Z.of_nat t)) (seq 0 80) = true) as H by (vm_compute; reflexivity).
  rewrite forallb_forall in H. specialize (H (Z.to_nat track)). rewrite Z2Nat.id in H by lia. apply H, in_seq. lia.
Qed.

Record track_ok (track len : Z) : Prop := {
  tr_len : iwm_track_length track = Some len;
  tr_n : 0 < iwm_sectors_per_track track <= 12;
  tr_fit : iwm_sectors_per_track track * 731 + 5 <= len;
  tr_count : length (sector_order track) = Z.to_nat (iwm_sectors_per_track track);
  tr_order : Forall (fun s => 0 <= s < iwm_sectors_per_track track) (sector_order track);
  tr_all : forall q, 0 <= q < iwm_sectors_per_track track -> q ∈ sector_order track;
  tr_disk : forall side, side = 0 \/ side = 1 ->
    0 <= iwm_disk_image_offset track side 2 /\
    iwm_disk_image_offset track side 2 + iwm_sectors_per_track track * 512 <= 819200;
}.
Lemma track_ok_all track : 0 <= track < 80 -> exists len, track_ok track len.
Proof.
  intros Ht. pose proof (track_facts_ok track Ht) as H. unfold track_facts in H.
  repeat match goal with H : _ && _ = true |- _ => apply andb_prop in H as [H ?] end.
  destruct (iwm_track_length track) as [len|] eqn:El; [|done]. exists len.
  repeat match goal with H : (_ <=? _) = true |- _ => apply Z.leb_le in H | H : (_ <? _) = true |- _ => apply Z.ltb_lt in H
    | H : bool_decide _ = true |- _ => apply bool_decide_eq_true in H | H : forallb _ _ = true |- _ => rewrite forallb_forall in H end.
  split; try done; try lia.
  - apply Forall_forall. intros s Hs. specialize (H3 s Hs). lia.
  - intros q Hq. specialize (H2 (Z.to_nat q)). rewrite bool_decide_eq_true, Z2Nat.id in H2 by lia. apply H2, in_seq. lia.
  - intros side Hs. specialize (H1 side). simpl in H1. lia.
Qed.

Lemma encode_sectors_length order track side data ns :
  Forall is_byte data -> Forall (sector_in data) order ->
  length (encode_sectors order track side data ns) = (731 * length order)%nat.
Proof.
  intros Hb. induction 1 as [|s order [Hs Hse] _ IH]; [done|]. cbn [encode_sectors].
  rewrite encode_sector_body, !length_app, IH, sector_body_length; simpl; try done; try lia.
  - rewrite slice_length; lia.
  - apply empty_tag_bytes.
  - by apply slice_bytes.
Qed.

Lemma slice_disk_write off buf disk : 0 <= off -> off + Z.of_nat (length buf) <= Z.of_nat (length disk) ->
  slice off (Z.of_nat (length buf)) (disk_write off buf disk) = buf.
Proof.
  intros. unfold slice, disk_write. rewrite Nat2Z.id.
  rewrite drop_app_length' by (rewrite length_take; lia). by rewrite take_app_length' by lia.
Qed.

(** C26: encoding a track and flushing it back is the identity on the disk
    image.  For every track and side of an 800K disk, the encoder fits the
    track into its buffer; flushing that buffer to any image of the same
    size writes exactly the bytes that were encoded, at the offset the track
    is read from, and nothing else; and reading the track again gives the
    same buffer. *)
Theorem flush_encode track side data disk :
  0 <= track < 80 -> (side = 0 \/ side = 1) ->
  Z.of_nat (length data) = iwm_sectors_per_track track * 512 -> Forall is_byte data ->
  Z.of_nat (length disk) = 819200 ->
  exists len t, iwm_track_length track = Some len /\ encode_track len track side data 2 = Some t /\
    Z.of_nat (length t) = len /\
    let flushed := disk_write (iwm_disk_image_offset track side 2) data disk in
    flush_track t 2 disk = Some flushed /\ iwm_track_data track side 2 flushed = Some t.
Proof.
  intros Ht Hsd Hdata Hb Hdisk. destruct (track_ok_all track Ht) as [len []]. destruct (tr_disk0 side Hsd) as [Hb0 Hb1].
  assert (Forall (sector_in data) (sector_order track)) as Hin.
  { eapply Forall_impl; [|exact tr_order0]. simpl. unfold sector_in. lia. }
  pose proof (encode_sectors_length (sector_order track) track side data 2 Hb Hin) as Hl. rewrite tr_count0 in Hl.
  set (flushed := disk_write _ data disk). exists len.
  assert (forall t, encode_track len track side data 2 = Some t -> iwm_track_data track side 2 flushed = Some t) as Hread.
  { intros t Et. unfold iwm_track_data. rewrite tr_len0. cbn [mbind option_bind].
    unfold flushed. rewrite disk_write_length by lia. rewrite (proj2 (Z.ltb_ge _ _)) by lia.
    rewrite <-Hdata, slice_disk_write, Z.eqb_refl by lia. done. }
  assert (encode_track len track side data 2 =
    Some (encode_sectors (sector_order track) track side data 2 ++
          replicate (Z.to_nat (len - Z.of_nat (731 * Z.to_nat (iwm_sectors_per_track track)))) 0xFF)) as Et.
  { unfold encode_track. cbv zeta. rewrite Hl, bool_decide_eq_false_2; [by rewrite (proj2 (Z.ltb_lt _ len)) by lia|].
    rewrite Forall_forall in tr_order0. intros Hm. apply list_elem_of_In in Hm. specialize (tr_order0 _ Hm). lia. }
  eexists _. split; [done|]. split; [exact Et|].
  split; [rewrite length_app, length_replicate; lia|]. split; [|by apply Hread]. unfold flush_track.
  rewrite flush_sectors; try done; try lia.
  2:{ apply Forall_replicate. by left. }
  2:{ rewrite length_replicate. lia. }
  f_equal. destruct (flush_order_ok track side _ (iwm_sectors_per_track track) data Ht Hsd eq_refl Hb0 Hdata
    (sector_order track) disk tr_order0 ltac:(lia)) as [_ Hlk].
  apply list_eq. intros i. unfold flushed. rewrite Hlk, disk_write_lookup by lia. rewrite Hdata.
  repeat case_decide; try done; try tauto; try lia.
  exfalso. match goal with H : ~ (_ /\ _) |- _ => apply H end. split; [done|]. apply tr_all0.
  Z.to_euclidean_division_equations. lia.
Qed.

Lemma flush_encode_witness :
  exists len t, iwm_track_length 70 = Some len /\
    encode_track len 70 1 (replicate (Z.to_nat 4096) 0x5A) 2 = Some t /\ Z.of_nat (length t) = len /\
    let flushed := disk_write (iwm_disk_image_offset 70 1 2) (replicate (Z.to_nat 4096) 0x5A) (replicate (Z.to_nat 819200) 0) in
    flush_track t 2 (replicate (Z.to_nat 819200) 0) = Some flushed /\ iwm_track_data 70 1 2 flushed = Some t.
Proof.
  apply (flush_encode 70 1 (replicate (Z.to_nat 4096) 0x5A) (replicate (Z.to_nat 819200) 0)).
  - lia.
  - by right.
  - by rewrite length_replicate.
  - apply Forall_replicate. unfold is_byte. lia.
  - by rewrite length_replicate, Z2Nat.id by lia.
Defined.

(** A sector survives the disk encoding: for any tag and data bytes,
    track, side and sector number, decoding the encoded sector succeeds with
    both checksums verified and gives back the tag, the data and the address,
    leaving the decoder at the closing marks. *)
Theorem sector_roundtrip tag data track sector side num_sides rest :
  length tag = 12%nat -> length data = 512%nat -> Forall is_byte tag -> Forall is_byte data ->
  0 <= track < 128 -> 0 <= sector < 64 -> (side = 0 \/ side = 1) ->
  decode_sector (drop 5 (encode_sector tag data track sector side num_sides ++ rest)) =
  Some (mk_id track side sector, tag, data, [0xDE; 0xAA; 0xFF] ++ rest).
Proof. intros. by apply decode_sector_ok. Qed.
Lemma sector_roundtrip_witness :
  decode_sector (drop 5 (encode_sector (replicate 12 0xC3) (replicate 512 0x96) 79 7 1 2 ++ [])) =
  Some (mk_id 79 1 7, replicate 12 0xC3, replicate 512 0x96, [0xDE; 0xAA; 0xFF]).
Proof.
  apply (sector_roundtrip (replicate 12 0xC3) (replicate 512 0x96) 79 7 1 2 []); try done;
    try (apply Forall_replicate; unfold is_byte; lia). by right.
Defined.

(** The flush of a single-sided disk uses the double-sided layout whenever
    that stays within the image: a modified sector of tracks 1 to 34 is
    written to the place of another track. *)
Theorem flush_single_sided track sector : 1 <= track <= 34 -> 0 <= sector < iwm_sectors_per_track track ->
  flush_offset (mk_id track 0 sector) 1 409600 = 2 * tracks_offset (Z.to_nat track) 1 + sector * 512 /\
  iwm_disk_image_offset track 0 1 = tracks_offset (Z.to_nat track) 1 /\ 0 < tracks_offset (Z.to_nat track) 1.
Proof.
  intros Ht Hs.
  assert (forallb (fun t => forallb (fun s =>
    implb (Z.of_nat s <? iwm_sectors_per_track (Z.of_nat t)) (
    (flush_offset (mk_id (Z.of_nat t) 0 (Z.of_nat s)) 1 409600 =? 2 * tracks_offset t 1 + Z.of_nat s * 512) &&
    (iwm_disk_image_offset (Z.of_nat t) 0 1 =? tracks_offset t 1) && (0 <? tracks_offset t 1))) (seq 0 12)) (seq 1 34) = true)
    as H by (vm_compute; reflexivity).
  rewrite forallb_forall in H. specialize (H (Z.to_nat track) ltac:(apply in_seq; lia)).
  rewrite forallb_forall in H. assert (iwm_sectors_per_track track <= 12).
  { unfold iwm_sectors_per_track. pose proof (Z.shiftr_nonneg track 4). lia. }
  specialize (H (Z.to_nat sector) ltac:(apply in_seq; lia)). rewrite !Z2Nat.id in H by lia.
  rewrite (proj2 (Z.ltb_lt sector _)) in H by lia. simpl in H.
  apply andb_prop in H as [[E1 E2]%andb_prop E3]. apply Z.eqb_eq in E1, E2. apply Z.ltb_lt in E3. done.
Qed.
