(* ===== verification/Via.v ===== *)
(** * The VIA 6522

    Model of src/core/peripherals/via.c: the sixteen registers, the two
    timers and the shift register on scheduler events, the ports and control
    lines, and the interrupt line.  Several functions behind pointers belong
    to the machine the VIA sits in (output_cb, shift_cb, irq_cb and the port A
    hooks); they may call the VIA and the scheduler again, so they are
    operations on the same state, fields of the class [Host]. *)
From Stdlib Require Import String.
From S2P Require Import Prelude Scheduler.

Record timer := mk_timer {
  start_timestamp : Z;
  start_value : Z;
  latch : Z;
  counter : Z;
  expired : bool;
}.
Record port := mk_port {
  output : Z;
  input : Z;
  direction : Z;
  ctrl0 : bool;
  ctrl1 : bool;
}.
Record via := mk_via {
  sr : Z;
  acr : Z;
  pcr : Z;
  ifr : Z;
  ier : Z;
  sr_shift_pending : bool;
  sr_shift_data : Z;
  timer1 : timer;
  timer2 : timer;
  port_a : port;
  port_b : port;
  freq_factor : Z;
}.

Definition timer_eta (t : timer) : timer :=
  mk_timer (start_timestamp t) (start_value t) (latch t) (counter t) (expired t).
Definition set_start_timestamp (v : Z) (t : timer) : timer := ltac:(field_set timer_eta start_timestamp v t).
Definition set_latch (v : Z) (t : timer) : timer := ltac:(field_set timer_eta latch v t).
Definition set_counter (v : Z) (t : timer) : timer := ltac:(field_set timer_eta counter v t).
Definition set_expired (v : bool) (t : timer) : timer := ltac:(field_set timer_eta expired v t).

Definition port_eta (p : port) : port := mk_port (output p) (input p) (direction p) (ctrl0 p) (ctrl1 p).
Definition set_output (v : Z) (p : port) : port := ltac:(field_set port_eta output v p).
Definition set_input (v : Z) (p : port) : port := ltac:(field_set port_eta input v p).
Definition set_direction (v : Z) (p : port) : port := ltac:(field_set port_eta direction v p).
Definition set_ctrl0 (v : bool) (p : port) : port := ltac:(field_set port_eta ctrl0 v p).
Definition set_ctrl1 (v : bool) (p : port) : port := ltac:(field_set port_eta ctrl1 v p).

Definition via_eta (v : via) : via :=
  mk_via (sr v) (acr v) (pcr v) (ifr v) (ier v) (sr_shift_pending v) (sr_shift_data v)
    (timer1 v) (timer2 v) (port_a v) (port_b v) (freq_factor v).
Ltac via_set proj x v := field_set via_eta proj x v.
Definition set_sr (x : Z) (v : via) : via := ltac:(via_set sr x v).
Definition set_acr (x : Z) (v : via) : via := ltac:(via_set acr x v).
Definition set_pcr (x : Z) (v : via) : via := ltac:(via_set pcr x v).
Definition set_ifr (x : Z) (v : via) : via := ltac:(via_set ifr x v).
Definition set_ier (x : Z) (v : via) : via := ltac:(via_set ier x v).
Definition set_sr_shift_pending (x : bool) (v : via) : via := ltac:(via_set sr_shift_pending x v).
Definition set_sr_shift_data (x : Z) (v : via) : via := ltac:(via_set sr_shift_data x v).
Definition set_timer1 (x : timer) (v : via) : via := ltac:(via_set timer1 x v).
Definition set_timer2 (x : timer) (v : via) : via := ltac:(via_set timer2 x v).
Definition set_port_a (x : port) (v : via) : via := ltac:(via_set port_a x v).
Definition set_port_b (x : port) (v : via) : via := ltac:(via_set port_b x v).

(** The arrays timers[2] and ports[2], by index. *)
Definition TIMER_1 : Z := 0.
Definition TIMER_2 : Z := 1.
Definition PORT_A : Z := 0.
Definition PORT_B : Z := 1.
Definition timers (v : via) (i : Z) : timer := if i =? TIMER_1 then timer1 v else timer2 v.
Definition set_timers (i : Z) (t : timer) (v : via) : via := if i =? TIMER_1 then set_timer1 t v else set_timer2 t v.
Definition ports (v : via) (i : Z) : port := if i =? PORT_A then port_a v else port_b v.
Definition set_ports (i : Z) (p : port) (v : via) : via := if i =? PORT_A then set_port_a p v else set_port_b p v.

Definition ORB_IRB : Z := 0.
Definition ORA_IRA : Z := 1.
Definition DDRB : Z := 2.
Definition DDRA : Z := 3.
Definition T1C_L : Z := 4.
Definition T1C_H : Z := 5.
Definition T1L_L : Z := 6.
Definition T1L_H : Z := 7.
Definition T2C_L : Z := 8.
Definition T2C_H : Z := 9.
Definition SR : Z := 10.
Definition ACR : Z := 11.
Definition PCR : Z := 12.
Definition IFR : Z := 13.
Definition IER : Z := 14.
Definition ORA : Z := 15.

Definition IFR_CA2 : Z := 0x01.
Definition IFR_CA1 : Z := 0x02.
Definition IFR_SR : Z := 0x04.
Definition IFR_CB2 : Z := 0x08.
Definition IFR_CB1 : Z := 0x10.
Definition IFR_T2 : Z := 0x20.
Definition IFR_T1 : Z := 0x40.
Definition DEFAULT_FREQ_FACTOR : Z := 10.

(** ~x on a byte *)
Definition not8 (x : Z) : Z := 255 - x.

(** The addresses of the event callbacks. *)
Definition t1_event : Z := 2.
Definition t2_event : Z := 3.
Definition sr_event : Z := 4.

(** ** The state of an operation: the VIA, the scheduler and the rest of the
    machine *)
Record vst (W : Type) := mk_vst { the_via : via; the_sched : sched; world : W }.
Arguments mk_vst {W}. Arguments the_via {W}. Arguments the_sched {W}. Arguments world {W}.

(** [None] is a failed GS_ASSERT. *)
Definition VM (W A : Type) : Type := vst W -> option (A * vst W).
#[global] Instance vm_ret W : MRet (VM W) := fun A a st => Some (a, st).
#[global] Instance vm_bind W : MBind (VM W) := fun A B k m st => '(a, st) ← m st; k a st.

Section Primitives.
Context {W : Type}.
Definition gets {A} (f : via -> A) : VM W A := fun st => Some (f (the_via st), st).
Definition modify (f : via -> via) : VM W unit :=
  fun st => Some (tt, mk_vst (f (the_via st)) (the_sched st) (world st)).
Definition on_sched (f : sched -> option sched) : VM W unit :=
  fun st => s ← f (the_sched st); Some (tt, mk_vst (the_via st) s (world st)).
Definition ask_sched {A} (f : sched -> option A) : VM W A := fun st => a ← f (the_sched st); Some (a, st).
Definition vassert (b : bool) : VM W unit := fun st => if b then Some (tt, st) else None.
Definition vwhen (b : bool) (m : VM W unit) : VM W unit := if b then m else mret tt.
End Primitives.

(** The machine around a VIA: its address, and the callbacks it was given. *)
Class Host (W : Type) := {
  self : Z;
  output_cb : Z -> Z -> VM W unit;
  shift_cb : Z -> VM W unit;
  irq_cb : bool -> VM W unit;
  porta_read : option (bool -> VM W Z);
  porta_write : option (Z -> bool -> VM W unit);
}.

Section Via.
Context {W : Type} `{Host W}.
Notation M := (VM W).

(** ** Interrupts *)

Definition aggregate (ier new_ifr : Z) : Z :=
  let flags := Z.land new_ifr 0x7F in
  if truthy (Z.land flags ier) then Z.lor flags 0x80 else flags.

Definition update_ifr (new_ifr : Z) : M unit :=
  v ← gets id;
  let new_ifr := aggregate (ier v) new_ifr in
  vwhen (truthy (Z.land (Z.lxor (ifr v) new_ifr) 0x80)) (irq_cb (truthy (Z.land (Z.shiftr new_ifr 7) 1)));;
  modify (set_ifr new_ifr).
(** update_ifr(via, via->ifr | bits) and update_ifr(via, via->ifr & ~bits) *)
Definition raise_flag (bits : Z) : M unit := f ← gets ifr; update_ifr (Z.lor f bits).
Definition clear_flag (bits : Z) : M unit := f ← gets ifr; update_ifr (Z.land f (not8 bits)).

(** ** Timers *)

Definition cpu_to_via_cycles (v : via) (cycles : Z) : Z := cycles / freq_factor v.

Definition read_timer (i : Z) : M Z :=
  v ← gets id;
  if start_timestamp (timers v i) =? 0 then mret (counter (timers v i))
  else
    now ← ask_sched scheduler_cpu_cycles;
    vassert (start_timestamp (timers v i) <=? now);;
    let delta := cpu_to_via_cycles v (u64 (now - start_timestamp (timers v i))) in
    mret (u16 (u64 (start_value (timers v i) - delta))).

Definition timer_event (i : Z) : Z := if i =? TIMER_1 then t1_event else t2_event.
Definition arm_timer (i counter : Z) : M unit :=
  on_sched (fun s => Some (remove_event (timer_event i) self s));;
  now ← ask_sched scheduler_cpu_cycles;
  modify (fun v => set_timers i (mk_timer now counter (latch (timers v i)) counter false) v);;
  ff ← gets freq_factor;
  on_sched (scheduler_new_cpu_event (timer_event i) self 0 (u64 ((counter + 1) * ff)) 0).

Definition sr_shift_complete_callback : M unit :=
  v ← gets id;
  if negb (sr_shift_pending v) then mret tt
  else
    modify (set_sr_shift_pending false);;
    shift_cb (sr_shift_data v);;
    raise_flag IFR_SR.

(** PB7 as a timer output, when DDRB makes it one. *)
Definition drive_pb7 (f : Z -> Z) : M unit :=
  modify (fun v =>
    if truthy (Z.land (direction (port_b v)) 0x80)
    then set_port_b (set_output (f (output (port_b v))) (port_b v)) v else v).
Definition stop_t1 : M unit :=
  modify (fun v => set_timer1 (set_counter 0xFFFF (set_start_timestamp 0 (timer1 v))) v).

Definition t1_callback : M unit :=
  v ← gets id;
  vassert (negb (start_timestamp (timer1 v) =? 0));;
  (match Z.shiftr (acr v) 6 with
   | 0 => stop_t1
   | 1 => arm_timer TIMER_1 (latch (timer1 v))
   | 2 => stop_t1;; drive_pb7 (fun o => Z.lor o 0x80)
   | 3 => arm_timer TIMER_1 (latch (timer1 v));; drive_pb7 (fun o => Z.lxor o 0x80)
   | _ => vassert false
   end);;
  raise_flag IFR_T1.

Definition t2_callback : M unit :=
  v ← gets id;
  vassert (negb (start_timestamp (timer2 v) =? 0));;
  modify (fun v => set_timer2 (set_expired true (timer2 v)) v);;
  raise_flag IFR_T2.

(** (latch & 0x00FF) | (value << 8), (latch & 0xFF00) | value *)
Definition with_high (l value : Z) : Z := u16 (Z.lor (Z.land l 0x00FF) (Z.shiftl value 8)).
Definition with_low (l value : Z) : Z := u16 (Z.lor (Z.land l 0xFF00) value).
Definition set_latch_of (i : Z) (f : Z -> Z) : M unit :=
  modify (fun v => set_timers i (set_latch (f (latch (timers v i))) (timers v i)) v).

Definition set_t1c_high (value : Z) : M unit :=
  clear_flag IFR_T1;;
  set_latch_of TIMER_1 (fun l => with_high l value);;
  v ← gets id;
  let mode := Z.shiftr (acr v) 6 in
  vassert ((0 <=? mode) && (mode <=? 3));;
  vwhen (mode =? 2) (drive_pb7 (fun o => Z.land o 0x7F));;
  arm_timer TIMER_1 (latch (timer1 v)).

Definition set_t2c_high (value : Z) : M unit :=
  set_latch_of TIMER_2 (fun l => with_high l value);;
  counter_value ← gets (fun v => latch (timer2 v));
  clear_flag IFR_T2;;
  a ← gets acr;
  if Z.land a 0x20 =? 0 then arm_timer TIMER_2 counter_value
  else modify (fun v => set_timer2 (set_counter counter_value (timer2 v)) v).

(** ** Ports *)

Definition pins (p : port) : Z :=
  Z.lor (Z.land (output p) (direction p)) (Z.land (input p) (not8 (direction p))).
Definition read_port (i : Z) : M Z :=
  clear_flag (if truthy i then Z.lor IFR_CB1 IFR_CB2 else Z.lor IFR_CA1 IFR_CA2);;
  gets (fun v => pins (ports v i)).

(** The port A read hook, where the machine has one. *)
Definition hook_read (handshake : bool) : M unit :=
  match porta_read with
  | Some read => x ← read handshake; modify (fun v => set_port_a (set_input x (port_a v)) v)
  | None => mret tt
  end.
Definition hook_write (value : Z) (handshake : bool) : M unit :=
  match porta_write with
  | Some write => write value handshake
  | None => mret tt
  end.

(** output_cb(ctx, i, output & direction) *)
Definition drive_port (i : Z) : M unit :=
  p ← gets (fun v => ports v i);
  output_cb i (Z.land (output p) (direction p)).
Definition put_output (i value : Z) : M unit :=
  modify (fun v => set_ports i (set_output value (ports v i)) v);; drive_port i.

(** ** Registers: the four select lines are address lines 9 to 12 *)

Definition via_read_uint8 (addr : Z) : M Z :=
  let rs := Z.land (Z.shiftr addr 9) 15 in
  vassert (Z.land addr 1 =? 0);;
  match rs with
  | 0 => read_port PORT_B
  | 1 => hook_read true;; read_port PORT_A
  | 2 => gets (fun v => direction (port_b v))
  | 3 => gets (fun v => direction (port_a v))
  | 4 => clear_flag IFR_T1;; x ← read_timer TIMER_1; mret (u8 x)
  | 5 => x ← read_timer TIMER_1; mret (u8 (Z.shiftr x 8))
  | 6 => gets (fun v => u8 (latch (timer1 v)))
  | 7 => gets (fun v => u8 (Z.shiftr (latch (timer1 v)) 8))
  | 8 => clear_flag IFR_T2;; x ← read_timer TIMER_2; mret (u8 x)
  | 9 => x ← read_timer TIMER_2; mret (u8 (Z.shiftr x 8))
  | 10 => clear_flag IFR_SR;; gets sr
  | 11 => gets acr
  | 12 => gets pcr
  | 13 => gets ifr
  | 14 => gets (fun v => Z.lor (ier v) 0x80)
  | 15 => hook_read false;; gets (fun v => pins (port_a v))
  | _ => vassert false;; mret 0
  end.

Definition cancel_shift : M unit :=
  modify (set_sr_shift_pending false);; on_sched (fun s => Some (remove_event sr_event self s)).

Definition write_sr (value : Z) : M unit :=
  modify (set_sr value);;
  clear_flag IFR_SR;;
  a ← gets acr;
  vwhen (truthy (Z.land a 0x10))
    (modify (fun v => set_sr_shift_pending true (set_sr_shift_data value v));;
     on_sched (fun s => Some (remove_event sr_event self s));;
     ff ← gets freq_factor;
     on_sched (scheduler_new_cpu_event sr_event self 0 (8 * ff) 0)).

Definition write_acr (value : Z) : M unit :=
  v ← gets id;
  let old_sr_mode := Z.land (Z.shiftr (acr v) 2) 7 in
  let new_sr_mode := Z.land (Z.shiftr value 2) 7 in
  modify (set_acr value);;
  vwhen (negb (old_sr_mode =? new_sr_mode) && sr_shift_pending v) cancel_shift.

Definition write_ier (value : Z) : M unit :=
  modify (fun v => set_ier (if truthy (Z.land value 0x80) then Z.lor (ier v) value
                            else Z.land (ier v) (not8 value)) v);;
  f ← gets ifr; update_ifr f.

Definition via_write_uint8 (addr value : Z) : M unit :=
  let rs := Z.land (Z.shiftr addr 9) 15 in
  vassert (Z.land addr 1 =? 0);;
  match rs with
  | 0 => put_output PORT_B value;; clear_flag (Z.lor IFR_CB1 IFR_CB2)
  | 1 => put_output PORT_A value;; hook_write value true;; clear_flag (Z.lor IFR_CA1 IFR_CA2)
  | 2 => modify (fun v => set_port_b (set_direction value (port_b v)) v);; drive_port PORT_B
  | 3 => modify (fun v => set_port_a (set_direction value (port_a v)) v);; drive_port PORT_A
  | 4 => set_latch_of TIMER_1 (fun l => with_low l value)
  | 5 => clear_flag IFR_T1;; set_t1c_high value
  | 6 => set_latch_of TIMER_1 (fun l => with_low l value)
  | 7 => set_latch_of TIMER_1 (fun l => with_high l value)
  | 8 => set_latch_of TIMER_2 (fun l => with_low l value)
  | 9 => set_t2c_high value
  | 10 => write_sr value
  | 11 => write_acr value
  | 12 => modify (set_pcr value)
  | 13 => f ← gets ifr; update_ifr (Z.land (Z.land f (not8 value)) 0x7F)
  | 14 => write_ier value
  | 15 => put_output PORT_A value;; hook_write value false
  | _ => vassert false
  end.

(** ** Operations of the devices around the VIA *)

Definition via_redrive_outputs : M unit := drive_port PORT_A;; drive_port PORT_B.
Definition via_read_sr : M Z := gets sr.
Definition via_cancel_pending_shift : M unit :=
  p ← gets sr_shift_pending; vwhen p cancel_shift.

Definition via_input (port pin : Z) (value : bool) : M unit :=
  vassert (port <? 2);;
  vassert (pin <? 8);;
  modify (fun v =>
    let p := ports v port in
    set_ports port (set_input (if value then u8 (Z.lor (input p) (Z.shiftl 1 pin))
                               else u8 (Z.land (input p) (Z.lnot (Z.shiftl 1 pin)))) p) v).

Definition via_input_sr (byte : Z) : M unit :=
  a ← gets acr;
  let sr_mode := Z.land (Z.shiftr a 2) 7 in
  if sr_mode =? 7 then raise_flag IFR_SR
  else if truthy (Z.land a 0x10) then mret tt
  else if negb (sr_mode =? 3) then mret tt
  else modify (set_sr byte);; raise_flag IFR_SR.

(** active = pos_edge ? (!old && value) : (old && !value) *)
Definition active_edge (pos_edge old value : bool) : bool :=
  if pos_edge then negb old && value else old && negb value.

Definition via_input_c (port c : Z) (value : bool) : M unit :=
  vassert ((port =? 0) || (port =? 1));;
  vassert ((c =? 0) || (c =? 1));;
  v ← gets id;
  if (port =? 0) && (c =? 0) then
    modify (fun v => set_port_a (set_ctrl0 value (port_a v)) v);;
    let pos_edge := truthy (Z.land (pcr v) 0x01) in
    vwhen (active_edge pos_edge (ctrl0 (port_a v)) value) (raise_flag IFR_CA1)
  else if (port =? 0) && (c =? 1) then
    modify (fun v => set_port_a (set_ctrl1 value (port_a v)) v);;
    let mode := Z.land (Z.shiftr (pcr v) 1) 0x07 in
    vwhen (mode <? 4)
      (let pos_edge := truthy (Z.land mode 0x04) in
       vwhen (active_edge pos_edge (ctrl1 (port_a v)) value) (raise_flag IFR_CA2))
  else if (port =? 1) && (c =? 0) then
    modify (fun v => set_port_b (set_ctrl0 value (port_b v)) v);;
    let pos_edge := truthy (Z.land (pcr v) 0x10) in
    vwhen (active_edge pos_edge (ctrl0 (port_b v)) value) (raise_flag IFR_CB1)
  else
    modify (fun v => set_port_b (set_ctrl1 value (port_b v)) v);;
    let mode := Z.land (Z.shiftr (pcr v) 5) 0x07 in
    vwhen (mode <? 4)
      (let pos_edge := truthy (Z.land mode 0x04) in
       vwhen (active_edge pos_edge (ctrl1 (port_b v)) value) (raise_flag IFR_CB2)).

(** ** Lifecycle *)

Definition reset_via (ff : Z) : via :=
  let t := mk_timer 0 0 0 0 false in
  mk_via 0 0 0 0 0 false 0 t t (mk_port 0 0xF7 0 false false) (mk_port 0 0xFF 0 false false)
    (if ff =? 0 then DEFAULT_FREQ_FACTOR else ff).

(** The plain data before the scheduler pointer; freq_factor comes after it. *)
Definition via_checkpoint (v : via) : via := v.
Definition restore_plain (saved v : via) : via :=
  mk_via (sr saved) (acr saved) (pcr saved) (ifr saved) (ier saved) (sr_shift_pending saved)
    (sr_shift_data saved) (timer1 saved) (timer2 saved) (port_a saved) (port_b saved) (freq_factor v).

Definition via_init (ff : Z) (name : option string) (checkpoint : option via) : M unit :=
  modify (fun _ => reset_via ff);;
  let event_name := default "via"%string name in
  on_sched (scheduler_new_event_type event_name self "t1" t1_event);;
  on_sched (scheduler_new_event_type event_name self "t2" t2_event);;
  on_sched (scheduler_new_event_type event_name self "sr" sr_event);;
  match checkpoint with
  | Some saved =>
      modify (restore_plain saved);;
      f ← gets ifr; update_ifr f;;
      drive_port PORT_A;; drive_port PORT_B
  | None => mret tt
  end.

(** The event callbacks of the VIA, by address. *)
Definition via_callback (e : event) : M unit :=
  if callback e =? t1_event then t1_callback
  else if callback e =? t2_event then t2_callback
  else if callback e =? sr_event then sr_shift_complete_callback
  else mret tt.
End Via.
