(* ===== verification/ViaProofs.v ===== *)
(** * The VIA's invariant

    What the VIA relies on from the machine around it ([HostLaws]), the
    invariant that ties its registers to the interrupt line and to the
    scheduler's queue, and the steps that keep it. *)
From Stdlib Require Import Sorted.
From S2P Require Import Prelude Scheduler SchedulerProofs Via.

(** ** Total correctness of an operation *)
Section Wp.
Context {W : Type}.
Definition wp {A} (m : VM W A) (Q : A -> vst W -> Prop) (st : vst W) : Prop :=
  exists a st', m st = Some (a, st') /\ Q a st'.

Lemma wp_ret {A} (a : A) Q st : Q a st -> wp (mret a) Q st.
Proof. intros. by exists a, st. Qed.
Lemma wp_bind {A B} (m : VM W A) (k : A -> VM W B) Q st : wp m (fun a => wp (k a) Q) st -> wp (m ≫= k) Q st.
Proof.
  intros (a & st1 & E1 & b & st2 & E2 & HQ). exists b, st2. split; [|done].
  unfold mbind, vm_bind. rewrite E1. exact E2.
Qed.
Lemma wp_mono {A} (m : VM W A) (Q Q' : A -> vst W -> Prop) st :
  wp m Q st -> (forall a st', Q a st' -> Q' a st') -> wp m Q' st.
Proof. intros (a & st' & E & HQ) Hi. exists a, st'. auto. Qed.
Lemma wp_gets {A} (f : via -> A) Q st : Q (f (the_via st)) st -> wp (gets f) Q st.
Proof. intros. by exists (f (the_via st)), st. Qed.
Lemma wp_modify f Q st : Q tt (mk_vst (f (the_via st)) (the_sched st) (world st)) -> wp (modify f) Q st.
Proof. intros. by eexists tt, _. Qed.
Lemma wp_on_sched f s Q st :
  f (the_sched st) = Some s -> Q tt (mk_vst (the_via st) s (world st)) -> wp (on_sched f) Q st.
Proof. intros E HQ. eexists tt, _. split; [|done]. unfold on_sched. by rewrite E. Qed.
Lemma wp_ask {A} (f : sched -> option A) a Q st : f (the_sched st) = Some a -> Q a st -> wp (ask_sched f) Q st.
Proof. intros E HQ. exists a, st. split; [|done]. unfold ask_sched. by rewrite E. Qed.
Lemma wp_assert b Q st : b = true -> Q tt st -> wp (vassert b) Q st.
Proof. intros -> HQ. by exists tt, st. Qed.
Lemma wp_when (b : bool) m Q st : (b = true -> wp m Q st) -> (b = false -> Q tt st) -> wp (vwhen b m) Q st.
Proof. destruct b; intros H1 H2; [auto|]. apply wp_ret. auto. Qed.
Lemma wp_gets_inv {A} (m : VM W A) Q st : wp m Q st -> forall a st', m st = Some (a, st') -> Q a st'.
Proof. intros (a & st' & E & HQ) b st''. rewrite E. by intros [= <- <-]. Qed.
End Wp.
(** Steps through the primitive operations of a body. *)
Ltac wpstep :=
  lazymatch goal with
  | |- wp (mret _) _ _ => apply wp_ret
  | |- wp (_ ≫= _) _ _ => apply wp_bind
  | |- wp (gets _) _ _ => apply wp_gets
  | |- wp (modify _) _ _ => apply wp_modify
  end; cbn beta.
Ltac wps := repeat wpstep.

(** ** Queues with one matching event *)

Lemma insert_spec_split q t : StronglySorted before q ->
  List.filter (fun x => timestamp x <=? t) q ++ List.filter (fun x => t <? timestamp x) q = q.
Proof.
  induction 1 as [|h q Hs IH Hh]; simpl; [done|].
  destruct (Z.leb_spec (timestamp h) t), (Z.ltb_spec t (timestamp h)); try lia; [by rewrite <- app_comm_cons, IH|].
  rewrite (filter_none (fun x => timestamp x <=? t)), (filter_all (fun x => t <? timestamp x)); [done|..];
    (eapply Forall_impl; [|exact Hh]); unfold before; simpl; intros; [apply Z.ltb_lt|apply Z.leb_gt]; lia.
Qed.
Lemma filter_insert_other f q e : StronglySorted before q -> f e = false ->
  List.filter f (insert_spec q e) = List.filter f q.
Proof.
  intros Hs He. unfold insert_spec. rewrite List.filter_app. simpl. rewrite He, <- List.filter_app.
  by rewrite insert_spec_split.
Qed.
Lemma filter_nil {A} (f : A -> bool) q : List.filter f q = [] -> Forall (fun x => f x = false) q.
Proof. induction q as [|x q IH]; simpl; [constructor|]. destruct (f x) eqn:E; [done|]. auto. Qed.
Lemma filter_insert_new f q e : f e = true -> List.filter f q = [] -> List.filter f (insert_spec q e) = [e].
Proof.
  intros He Hq%filter_nil. unfold insert_spec. rewrite List.filter_app. simpl. rewrite He.
  by rewrite !filter_none by by apply Forall_List_filter.
Qed.
Lemma filter_filter_disjoint {A} (f g : A -> bool) q : (forall x, f x = true -> g x = true) ->
  List.filter f (List.filter g q) = List.filter f q.
Proof.
  intros Hfg. induction q as [|x q IH]; simpl; [done|]. destruct (g x) eqn:Eg; simpl; rewrite IH; [done|].
  destruct (f x) eqn:Ef; [|done]. by rewrite (Hfg x Ef) in Eg.
Qed.
Lemma filter_filter_none {A} (f : A -> bool) q : List.filter f (List.filter (fun x => negb (f x)) q) = [].
Proof. induction q as [|x q IH]; simpl; [done|]. destruct (f x) eqn:E; simpl; [done|]. by rewrite E. Qed.

(** ** What the machine around the VIA may do *)

Definition via_events : list Z := [t1_event; t2_event; sr_event].

(** The level of the interrupt line as the machine remembers it, the invariant
    of its other devices, and the event types (source and callback) that they
    rely on. *)
Class HostSpec (W : Type) := {
  irq_line : W -> bool;
  world_wf : W -> Prop;
  machine_types : list (Z * Z);
}.
Definition line_is {W} `{HostSpec W} (w : W) (b : bool) : Prop := irq_line w = b /\ world_wf w.

Section Laws.
Context {W : Type} `{Host W} `{HostSpec W}.

(** The VIA's events under one callback, and everybody else's. *)
Definition evs (cb : Z) (s : sched) : list event := List.filter (event_matches cb self) (cpu_events s).
Definition mine (e : event) : bool := existsb (fun cb => event_matches cb self e) via_events.
Definition others (s : sched) : list event := List.filter (fun e => negb (mine e)) (cpu_events s).

(** The scheduler as the VIA needs it: its invariant, a running clock, the
    VIA's event types, and room for its events. *)
Record host_sched (s : sched) : Prop := {
  hs_ok : sched_ok s;
  hs_now : 0 < now s;
  hs_types : Forall (fun cb => is_Some (find_event_type s self cb)) via_events;
  hs_machine : Forall (fun p => is_Some (find_event_type s p.1 p.2)) machine_types;
  hs_freq : 1000 <= frequency s < 2 ^ 32;
  hs_room : Z.of_nat (length (others s)) <= MAX_SANE_EVENTS - 3;
}.
Definition spare_room (s : sched) : Prop := Z.of_nat (length (others s)) <= MAX_SANE_EVENTS - 5.
(** Time may pass and other events come and go. *)
Record elapse (s s' : sched) : Prop := {
  el_sched : host_sched s';
  el_now : now s <= now s';
  el_evs : Forall (fun cb => evs cb s' = evs cb s) via_events;
}.
Lemma elapse_refl s : host_sched s -> elapse s s.
Proof. intros. split; [done|lia|]. by repeat constructor. Qed.
Lemma elapse_trans s1 s2 s3 : elapse s1 s2 -> elapse s2 s3 -> elapse s1 s3.
Proof.
  intros [_ N1 E1] [S2 N2 E2]. split; [done|lia|].
  rewrite Forall_forall in E1, E2 |- *. intros cb Hcb. by rewrite E2, E1.
Qed.
Lemma elapse_evs s s' cb : elapse s s' -> In cb via_events -> evs cb s' = evs cb s.
Proof. intros [_ _ E] Hcb. rewrite Forall_forall in E. auto. Qed.
End Laws.

Section Invariant.
Context {W : Type} `{Host W} `{HostSpec W}.

Record timer_range (t : timer) : Prop := {
  tr_value : in_width 16 (start_value t);
  tr_latch : in_width 16 (latch t);
  tr_counter : in_width 16 (counter t);
}.
Record port_range (p : port) : Prop := {
  pr_output : in_width 8 (output p);
  pr_input : in_width 8 (input p);
  pr_direction : in_width 8 (direction p);
}.
Record via_range (v : via) : Prop := {
  vr_sr : in_width 8 (sr v);
  vr_acr : in_width 8 (acr v);
  vr_pcr : in_width 8 (pcr v);
  vr_ifr : in_width 8 (ifr v);
  vr_ier : in_width 8 (ier v);
  vr_data : in_width 8 (sr_shift_data v);
  vr_t1 : timer_range (timer1 v);
  vr_t2 : timer_range (timer2 v);
  vr_a : port_range (port_a v);
  vr_b : port_range (port_b v);
  vr_ff : 1 <= freq_factor v < 256;
}.

(** The interrupt line follows IFR bit 7. *)
Record base (st : vst W) : Prop := {
  b_range : via_range (the_via st);
  b_line : line_is (world st) (Z.testbit (ifr (the_via st)) 7);
  b_sched : host_sched (the_sched st);
}.
(** IFR bit 7 is the aggregate of the enabled flags. *)
Definition irq_wf (v : via) : Prop := ifr v = aggregate (ier v) (ifr v).
(** A running timer has its one event in the queue, at the cycle its counter
    passes zero. *)
Definition deadline (v : via) (i : Z) : Z :=
  start_timestamp (timers v i) + (start_value (timers v i) + 1) * freq_factor v.
Definition ticking (t : timer) : bool := negb (start_timestamp t =? 0) && negb (expired t).
Definition timer_wf (v : via) (i : Z) (s : sched) : Prop :=
  0 <= start_timestamp (timers v i) <= now s /\
  evs (timer_event i) s =
    if ticking (timers v i) then [mk_event (deadline v i) (timer_event i) self 0] else [].
(** So has a pending shift. *)
Definition shift_wf (v : via) (s : sched) : Prop :=
  if sr_shift_pending v then exists t, evs sr_event s = [mk_event t sr_event self 0] else evs sr_event s = [].

Record vinv (st : vst W) : Prop := {
  vi_base : base st;
  vi_irq : irq_wf (the_via st);
  vi_t1 : timer_wf (the_via st) TIMER_1 (the_sched st);
  vi_t2 : timer_wf (the_via st) TIMER_2 (the_sched st);
  vi_shift : shift_wf (the_via st) (the_sched st);
}.

(** What a device may do when the VIA calls it, or at any other time: let
    time pass, schedule its own events, and drive the VIA's pins. *)
Inductive dev_step (st : vst W) : vst W -> Prop :=
  | dev_env s w : elapse (the_sched st) s -> irq_line w = irq_line (world st) -> world_wf w ->
      dev_step st (mk_vst (the_via st) s w)
  | dev_input port pin value st' : 0 <= port < 2 -> 0 <= pin < 8 ->
      via_input port pin value st = Some (tt, st') -> dev_step st st'
  | dev_input_sr byte st' : in_width 8 byte -> via_input_sr byte st = Some (tt, st') -> dev_step st st'
  | dev_input_c port c value st' : via_input_c port c value st = Some (tt, st') -> dev_step st st'
  | dev_cancel st' : via_cancel_pending_shift st = Some (tt, st') -> dev_step st st'.
End Invariant.

(** The callbacks a machine gives its VIA. *)
Class HostLaws (W : Type) `{Host W} `{HostSpec W} := {
  self_address : self <> 0;
  irq_law b st : host_sched (the_sched st) -> world_wf (world st) ->
    wp (irq_cb b) (fun _ st' => the_via st' = the_via st /\ elapse (the_sched st) (the_sched st') /\
                                now (the_sched st') = now (the_sched st) /\ line_is (world st') b) st;
  output_law i x st : vinv st -> wp (output_cb i x) (fun _ => rtc dev_step st) st;
  (** the device on the shift line may schedule two events *)
  shift_law x st : vinv st -> spare_room (the_sched st) -> wp (shift_cb x) (fun _ => rtc dev_step st) st;
  porta_read_law f b st : porta_read = Some f -> vinv st ->
    wp (f b) (fun x st' => in_width 8 x /\ rtc dev_step st st') st;
  porta_write_law f x b st : porta_write = Some f -> vinv st -> wp (f x b) (fun _ => rtc dev_step st) st;
}.

(** ** Bits of the flag register *)

Lemma byte_cases (P : Z -> Prop) : (forall n, (n < 256)%nat -> P (Z.of_nat n)) -> forall x, in_width 8 x -> P x.
Proof. intros Hn x [? ?]. rewrite <- (Z2Nat.id x) by lia. apply Hn. pow2. lia. Qed.
Lemma not8_width x : in_width 8 x -> in_width 8 (not8 x).
Proof. unfold in_width, not8. lia. Qed.
Lemma not8_bits x i : in_width 8 x -> 0 <= i < 8 -> Z.testbit (not8 x) i = negb (Z.testbit x i).
Proof.
  intros Hx Hi. rewrite <- Z.lnot_spec by lia. unfold not8.
  assert (255 - x = Z.lnot x mod 2 ^ 8) as ->.
  { unfold Z.lnot. destruct Hx. apply (Z.mod_unique _ _ (-1)); pow2; lia. }
  apply Z.mod_pow2_bits_low. lia.
Qed.
Lemma aggregate_width e x : in_width 8 (aggregate e x).
Proof.
  assert (in_width 8 (Z.land x 0x7F)) by (apply land_width; by unfold in_width).
  unfold aggregate. destruct (truthy _); [apply lor_width|]; by unfold in_width.
Qed.
Lemma aggregate_low e x i : 0 <= i < 7 -> Z.testbit (aggregate e x) i = Z.testbit x i.
Proof.
  intros Hi. assert (Z.testbit 0x7F i = true /\ Z.testbit 0x80 i = false) as [E1 E2] by (small_z i; done).
  unfold aggregate. destruct (truthy _); rewrite ?Z.lor_spec, Z.land_spec, E1, ?E2, ?orb_false_r, andb_true_r; done.
Qed.
Lemma aggregate_high e x : Z.testbit (aggregate e x) 7 = truthy (Z.land (Z.land x 0x7F) e).
Proof.
  unfold aggregate. destruct (truthy _); rewrite ?Z.lor_spec, Z.land_spec; simpl; [by rewrite orb_true_r|].
  by rewrite andb_false_r.
Qed.
Lemma aggregate_flags e x : Z.land (aggregate e x) 0x7F = Z.land x 0x7F.
Proof.
  apply Z.bits_inj'. intros i Hi. rewrite !Z.land_spec. destruct (decide (i < 7)).
  - by rewrite aggregate_low by lia.
  - rewrite (width_bits 7 0x7F) by (unfold in_width; lia). by rewrite !andb_false_r.
Qed.
Lemma aggregate_idem e x : aggregate e (aggregate e x) = aggregate e x.
Proof. unfold aggregate at 1. by rewrite aggregate_flags. Qed.
Lemma testbit7 x : truthy (Z.land (Z.shiftr x 7) 1) = Z.testbit x 7.
Proof.
  change 1 with (Z.ones 1). rewrite Z.land_ones, Z.shiftr_div_pow2, <- Z.testbit_spec' by lia.
  by destruct (Z.testbit x 7).
Qed.
Lemma high_changes x y : truthy (Z.land (Z.lxor x y) 0x80) = xorb (Z.testbit x 7) (Z.testbit y 7).
Proof.
  rewrite <- Z.lxor_spec. set (z := Z.lxor x y). unfold truthy.
  assert (Z.land z 0x80 = if Z.testbit z 7 then 0x80 else 0) as ->; [|by destruct (Z.testbit z 7)].
  apply Z.bits_inj'. intros i Hi. rewrite Z.land_spec. change 0x80 with (2 ^ 7).
  rewrite Z.pow2_bits_eqb by lia. destruct (Z.eqb_spec 7 i) as [<-|Hn].
  - by destruct (Z.testbit z 7).
  - rewrite andb_false_r. destruct (Z.testbit z 7); [|by rewrite Z.bits_0].
    by rewrite Z.pow2_bits_eqb, (proj2 (Z.eqb_neq 7 i)) by lia.
Qed.

Section Steps.
Context {W : Type} `{HostLaws W}.
Implicit Types (st : vst W) (v : via) (s : sched).

(** ** Moving the parts of the invariant along *)

Lemma timer_wf_elapse v v' i s s' : elapse s s' -> (i = TIMER_1 \/ i = TIMER_2) ->
  start_timestamp (timers v' i) = start_timestamp (timers v i) ->
  start_value (timers v' i) = start_value (timers v i) -> expired (timers v' i) = expired (timers v i) ->
  freq_factor v' = freq_factor v -> timer_wf v i s -> timer_wf v' i s'.
Proof.
  intros He Hi E1 E2 E3 E4 [Ht Hev]. unfold timer_wf, deadline, ticking. rewrite E1, E2, E3, E4. split.
  - pose proof (el_now _ _ He). lia.
  - rewrite (elapse_evs s s') by (done || destruct Hi; subst; simpl; tauto). exact Hev.
Qed.
Lemma shift_wf_elapse v v' s s' : elapse s s' -> sr_shift_pending v' = sr_shift_pending v ->
  shift_wf v s -> shift_wf v' s'.
Proof. intros He E. unfold shift_wf. rewrite E, (elapse_evs s s') by (simpl; tauto). done. Qed.

(** Changes of a VIA that leave its timers and its shift running as they
    are. *)
Record same_run (t t' : timer) : Prop := {
  sr_start : start_timestamp t' = start_timestamp t;
  sr_value : start_value t' = start_value t;
  sr_expired : expired t' = expired t;
}.
Record quiet (v v' : via) : Prop := {
  q_range : via_range v';
  q_irq : irq_wf v';
  q_t1 : same_run (timer1 v) (timer1 v');
  q_t2 : same_run (timer2 v) (timer2 v');
  q_pending : sr_shift_pending v' = sr_shift_pending v;
  q_ff : freq_factor v' = freq_factor v;
}.
Lemma quiet_inv st v' s' w' : vinv st -> quiet (the_via st) v' -> elapse (the_sched st) s' ->
  line_is w' (Z.testbit (ifr v') 7) -> vinv (mk_vst v' s' w').
Proof.
  intros [[] Hi Ht1 Ht2 Hs] [? ? [] [] ? ?] He Hl. split; simpl; try done.
  - split; [done..|apply He].
  - eapply timer_wf_elapse; [exact He|by left|..|exact Ht1]; cbn; congruence.
  - eapply timer_wf_elapse; [exact He|by right|..|exact Ht2]; cbn; congruence.
  - by eapply shift_wf_elapse.
Qed.

(** ** Interrupt flags *)

Lemma update_ifr_ok n st : base st ->
  wp (update_ifr n) (fun _ st' =>
    the_via st' = set_ifr (aggregate (ier (the_via st)) n) (the_via st) /\
    elapse (the_sched st) (the_sched st') /\ now (the_sched st') = now (the_sched st) /\
    line_is (world st') (Z.testbit (aggregate (ier (the_via st)) n) 7)) st.
Proof.
  intros [Hr Hl Hs]. unfold update_ifr. wps. unfold id.
  set (n' := aggregate _ n). rewrite high_changes, testbit7. apply wp_when; intros Hx.
  - eapply wp_mono; [apply irq_law; [done|apply Hl]|]. intros _ st' (Ev & He & Hn & Hl'). wps. cbn [the_via the_sched world]. by rewrite Ev.
  - wps. cbn [the_via the_sched world]. split; [done|]. split; [by apply elapse_refl|]. split; [done|].
    by rewrite <- (xorb_eq _ _ Hx).
Qed.
Lemma range_ifr v n : via_range v -> via_range (set_ifr (aggregate (ier v) n) v).
Proof. intros []. split; simpl; try done. apply aggregate_width. Qed.
Lemma quiet_ifr v n : via_range v -> quiet v (set_ifr (aggregate (ier v) n) v).
Proof. intros. split; try done; [by apply range_ifr|]. unfold irq_wf. simpl. by rewrite aggregate_idem. Qed.

(** The new value of the flag register is the only change. *)
Definition flags_to (n : Z) (st st' : vst W) : Prop :=
  the_via st' = set_ifr (aggregate (ier (the_via st)) n) (the_via st) /\
  elapse (the_sched st) (the_sched st') /\ vinv st' /\ now (the_sched st') = now (the_sched st).
Lemma update_ifr_inv n st : vinv st -> wp (update_ifr n) (fun _ => flags_to n st) st.
Proof.
  intros Hi. eapply wp_mono; [apply update_ifr_ok, Hi|]. intros _ [v' s' w'] (Ev & He & Hn & Hl).
  cbn [the_via the_sched world] in *. subst v'. split; [done|]. split; [done|]. split; [|done].
  apply (quiet_inv st); [done| |done|done]. apply quiet_ifr, Hi.
Qed.
Lemma raise_inv b st : vinv st -> wp (raise_flag b) (fun _ => flags_to (Z.lor (ifr (the_via st)) b) st) st.
Proof. intros. unfold raise_flag. wps. by apply update_ifr_inv. Qed.
Lemma clear_inv b st : vinv st -> wp (clear_flag b) (fun _ => flags_to (Z.land (ifr (the_via st)) (not8 b)) st) st.
Proof. intros. unfold clear_flag. wps. by apply update_ifr_inv. Qed.

(** A change of registers alone. *)
Lemma quiet_here st v' : vinv st -> quiet (the_via st) v' -> ifr v' = ifr (the_via st) ->
  vinv (mk_vst v' (the_sched st) (world st)).
Proof.
  intros Hi Hq E. apply (quiet_inv st); try done; [apply elapse_refl, Hi|]. rewrite E. apply Hi.
Qed.
Lemma modify_inv f st : vinv st -> quiet (the_via st) (f (the_via st)) -> ifr (f (the_via st)) = ifr (the_via st) ->
  wp (modify f) (fun _ st' => st' = mk_vst (f (the_via st)) (the_sched st) (world st) /\ vinv st') st.
Proof. intros. apply wp_modify. split; [done|]. by apply quiet_here. Qed.

(** ** Devices *)

(** What devices leave alone: everything but the input side, the shift and
    the flags other than the timers'. *)
Record dev_frame (v v' : via) : Prop := {
  df_t1 : timer1 v' = timer1 v;
  df_t2 : timer2 v' = timer2 v;
  df_acr : acr v' = acr v;
  df_pcr : pcr v' = pcr v;
  df_ier : ier v' = ier v;
  df_ff : freq_factor v' = freq_factor v;
  df_flags i : 5 <= i < 7 -> Z.testbit (ifr v') i = Z.testbit (ifr v) i;
  df_out i : output (ports v' i) = output (ports v i) /\ direction (ports v' i) = direction (ports v i);
}.
Lemma dev_frame_refl v : dev_frame v v.
Proof. by split. Qed.
Lemma dev_frame_trans v1 v2 v3 : dev_frame v1 v2 -> dev_frame v2 v3 -> dev_frame v1 v3.
Proof.
  intros [] []. split; try congruence.
  - intros. by rewrite df_flags1, df_flags0.
  - intros i. destruct (df_out0 i), (df_out1 i). split; congruence.
Qed.
(** A step that keeps the invariant within that frame. *)
Definition tame (st st' : vst W) : Prop :=
  vinv st' /\ dev_frame (the_via st) (the_via st') /\ now (the_sched st) <= now (the_sched st') /\
  Forall (fun cb => evs cb (the_sched st') = evs cb (the_sched st)) [t1_event; t2_event].
Lemma tame_elapse st v' s' w' : elapse (the_sched st) s' -> dev_frame (the_via st) v' ->
  vinv (mk_vst v' s' w') -> tame st (mk_vst v' s' w').
Proof.
  intros He. split; [done|]. split; [done|]. split; [apply He|].
  apply Forall_forall. intros cb Hcb. apply elapse_evs; [done|]. simpl in *. tauto.
Qed.
Lemma tame_refl st : vinv st -> tame st st.
Proof. intros. split; [done|]. split; [apply dev_frame_refl|]. split; [lia|]. by repeat constructor. Qed.
Lemma tame_trans st1 st2 st3 : tame st1 st2 -> tame st2 st3 -> tame st1 st3.
Proof.
  intros (_ & F1 & N1 & E1) (I2 & F2 & N2 & E2). split; [done|]. split; [by eapply dev_frame_trans|].
  split; [lia|]. rewrite Forall_forall in E1, E2 |- *. intros cb Hcb. by rewrite E2, E1.
Qed.

Lemma raise_tame b st : vinv st -> (forall i, 5 <= i < 7 -> Z.testbit b i = false) ->
  wp (raise_flag b) (fun _ => tame st) st.
Proof.
  intros Hi Hb. eapply wp_mono; [by apply raise_inv|]. intros _ [v' s' w'] (Ev & He & Hi' & _).
  simpl in *. subst v'. apply tame_elapse; [done| |done].
  split; try done. intros i Hr. simpl. by rewrite aggregate_low, Z.lor_spec, Hb, orb_false_r by lia.
Qed.
Lemma modify_tame f st : vinv st -> quiet (the_via st) (f (the_via st)) -> ifr (f (the_via st)) = ifr (the_via st) ->
  dev_frame (the_via st) (f (the_via st)) -> wp (modify f) (fun _ => tame st) st.
Proof.
  intros Hi Hq E Hf. apply wp_modify. apply tame_elapse; [apply elapse_refl, Hi|done|by apply quiet_here].
Qed.
Lemma bind_tame {A B} (m : VM W A) (k : A -> VM W B) st :
  wp m (fun _ => tame st) st -> (forall a st', vinv st' -> wp (k a) (fun _ => tame st') st') ->
  wp (m ≫= k) (fun _ => tame st) st.
Proof.
  intros Hm Hk. apply wp_bind. eapply wp_mono; [exact Hm|]. intros a st' Ht.
  eapply wp_mono; [apply Hk, Ht|]. intros b st''. by apply tame_trans.
Qed.
Lemma when_tame (b : bool) m st : vinv st -> wp m (fun _ => tame st) st -> wp (vwhen b m) (fun _ => tame st) st.
Proof. intros Hi Hm. apply wp_when; intros _; [done|by apply tame_refl]. Qed.

(** ** The VIA's own use of the queue *)

Lemma matches_cb cb cb' e : event_matches cb self e = true -> event_matches cb' self e = true -> cb = cb'.
Proof. unfold event_matches. rewrite !andb_true_iff, !Z.eqb_eq. intros [<- _] [<- _]. done. Qed.
Lemma mine_matches cb e : In cb via_events -> event_matches cb self e = true -> mine e = true.
Proof. intros Hcb He. unfold mine. apply existsb_exists. eauto. Qed.

Lemma evs_remove cb s : evs cb (remove_event cb self s) = [].
Proof. unfold evs, remove_event. simpl. apply filter_filter_none. Qed.
Lemma evs_remove_other cb cb' s : cb <> cb' -> evs cb' (remove_event cb self s) = evs cb' s.
Proof.
  intros Hne. unfold evs, remove_event. simpl. apply filter_filter_disjoint. intros e He.
  destruct (event_matches cb self e) eqn:E; [|done]. by pose proof (matches_cb _ _ _ E He).
Qed.
Lemma others_remove cb s : In cb via_events -> others (remove_event cb self s) = others s.
Proof.
  intros Hcb. unfold others, remove_event. simpl. apply filter_filter_disjoint. intros e He.
  destruct (event_matches cb self e) eqn:E; [|done]. by rewrite (mine_matches cb) in He.
Qed.
Lemma remove_sched cb s : In cb via_events -> host_sched s -> host_sched (remove_event cb self s).
Proof.
  intros Hcb []. split; [by apply events_ok|done..|by rewrite others_remove].
Qed.

(** The queue holds the others' events and the VIA's. *)
Lemma queue_length s : (length (cpu_events s) <=
  length (others s) + length (evs t1_event s) + length (evs t2_event s) + length (evs sr_event s))%nat.
Proof.
  unfold others, evs, mine. simpl existsb. induction (cpu_events s) as [|e q IH]; cbn [List.filter length]; [done|].
  destruct (event_matches t1_event self e), (event_matches t2_event self e),
    (event_matches sr_event self e); cbn [orb negb length]; lia.
Qed.

(** A new event of the VIA: at [now + delay], and nothing else moves. *)
Lemma new_via_event cb delay s : In cb via_events -> host_sched s -> evs cb s = [] -> 1 <= delay < 2 ^ 32 ->
  Forall (fun c => (length (evs c s) <= 1)%nat) via_events ->
  exists s', scheduler_new_cpu_event cb self 0 delay 0 s = Some s' /\ host_sched s' /\ now s' = now s /\
    evs cb s' = [mk_event (now s + delay) cb self 0] /\
    (forall cb', cb' <> cb -> In cb' via_events -> evs cb' s' = evs cb' s).
Proof.
  intros Hcb [Hok Hn Ht Hmt Hfr Hr] He Hd Hl. exists (with_event (new_event cb self 0 delay s) s).
  pose proof (proj1 (Forall_forall _ _) Ht cb Hcb) as Hty.
  assert (cb <> 0) as Hcb0 by (intros ->; simpl in Hcb; naive_solver).
  assert (Z.of_nat (length (cpu_events s)) < MAX_SANE_EVENTS) as Hroom.
  { pose proof (queue_length s). unfold via_events in *. rewrite !list.Forall_cons in Hl. destruct Hl as (? & ? & ? & _).
    assert (length (evs cb s) = 0%nat) by by rewrite He. simpl in Hcb. destruct Hcb as [<-|[<-|[<-|[]]]]; lia. }
  assert (event_matches cb self (new_event cb self 0 delay s) = true) as Hm.
  { unfold event_matches. simpl. by rewrite !Z.eqb_refl. }
  split.
  - rewrite new_cpu_event_ok; try done; [by split; [|split; [lia|]]|unfold delay_cycles; simpl; pow2; lia].
  - split; [split|].
    + apply with_event_ok; try done. pow2. lia.
    + unfold with_event. by change (0 < now (reconciled s)); rewrite reconciled_now.
    + done.
    + done.
    + done.
    + unfold others, with_event. simpl. rewrite filter_insert_other; [done|apply Hok|]. by rewrite (mine_matches cb).
    + split; [apply reconciled_now|]. split.
      * unfold evs, with_event. simpl. by rewrite filter_insert_new.
      * intros cb' Hne Hcb'. unfold evs, with_event. simpl. apply filter_insert_other; [apply Hok|].
        destruct (event_matches cb' self _) eqn:E; [|done]. by pose proof (matches_cb _ _ _ E Hm).
Qed.

(** ** Timers *)

Lemma timer_event_in i : In (timer_event i) via_events.
Proof. unfold timer_event. destruct (i =? TIMER_1); simpl; tauto. Qed.
Lemma timer_wf_length v i s : timer_wf v i s -> (length (evs (timer_event i) s) <= 1)%nat.
Proof. intros [_ ->]. destruct (ticking _); simpl; lia. Qed.
Lemma shift_wf_length v s : shift_wf v s -> (length (evs sr_event s) <= 1)%nat.
Proof. unfold shift_wf. destruct (sr_shift_pending v); [intros [t ->]|intros ->]; simpl; lia. Qed.

Definition other_timer (i : Z) : Z := 1 - i.
Definition armed (i c : Z) (st : vst W) : via :=
  set_timers i (mk_timer (now (the_sched st)) c (latch (timers (the_via st) i)) c false) (the_via st).

Lemma armed_range i c st : via_range (the_via st) -> (i = TIMER_1 \/ i = TIMER_2) -> in_width 16 c ->
  via_range (armed i c st).
Proof. intros [] Hi Hc. unfold armed. destruct Hi as [-> | ->]; split; simpl; try done; by destruct vr_t3, vr_t4. Qed.

(** Arming a timer: its event is due when the counter passes zero. *)
Lemma arm_timer_ok i c st : base st -> irq_wf (the_via st) -> (i = TIMER_1 \/ i = TIMER_2) ->
  timer_wf (the_via st) (other_timer i) (the_sched st) -> shift_wf (the_via st) (the_sched st) -> in_width 16 c ->
  wp (arm_timer i c) (fun _ st' => vinv st' /\ the_via st' = armed i c st /\
    now (the_sched st') = now (the_sched st) /\
    forall cb, cb <> timer_event i -> In cb via_events -> evs cb (the_sched st') = evs cb (the_sched st)) st.
Proof.
  intros [Hr Hl Hs] Hq Hi Ho Hsh Hc. destruct st as [v s w]. simpl in *. unfold arm_timer. apply wp_bind.
  eapply wp_on_sched; [done|]. set (s1 := remove_event _ _ _). simpl in s1.
  pose proof (remove_sched _ s (timer_event_in i) Hs : host_sched s1) as Hs1.
  apply wp_bind. eapply wp_ask; [simpl; apply current_cpu_cycles_ok, Hs1|]. change (now s1) with (now s).
  wps. simpl. fold (armed i c (mk_vst v s w)).
  assert (freq_factor (set_timers i (mk_timer (now s) c (latch (timers v i)) c false) v) = freq_factor v) as ->
    by by destruct Hi as [-> | ->].
  pose proof (vr_ff v Hr) as Hff. destruct Hc as [Hc0 Hc1].
  assert (1 <= (c + 1) * freq_factor v < 2 ^ 32) as Hd by (pow2; nia).
  assert (forall cb, cb <> timer_event i -> evs cb s1 = evs cb s) as Hk by (intros; apply evs_remove_other; congruence).
  destruct (new_via_event (timer_event i) ((c + 1) * freq_factor v) s1) as (s2 & E2 & Hs2 & Hn2 & He2 & Hk2);
    [apply timer_event_in|done|apply evs_remove|done| |].
  { apply Forall_forall. intros cb Hcb. destruct (decide (cb = timer_event i)) as [->|Hne].
    - unfold s1. rewrite evs_remove. simpl. lia.
    - rewrite Hk by done. apply timer_wf_length in Ho. apply shift_wf_length in Hsh.
      destruct Hi as [-> | ->]; destruct Hcb as [<-|[<-|[<-|[]]]]; done. }
  change (now s1) with (now s) in Hn2, He2.
  eapply wp_on_sched; [cbn [the_sched]; rewrite u64_small by (pow2; lia); exact E2|]. cbn [the_via the_sched world].
  split; [|split; [done|split; [done|]]].
  2:{ intros cb Hne Hcb. rewrite Hk2 by done. by apply Hk. }
  pose proof (hs_now s Hs).
  assert (forall i', (i' = TIMER_1 \/ i' = TIMER_2) -> timer_wf (armed i c (mk_vst v s w)) i' s2) as Ht.
  { intros i' Hi'. destruct (decide (i' = i)) as [->|Hne].
    - unfold timer_wf, deadline, ticking. rewrite Hn2, He2. destruct Hi as [-> | ->]; cbn;
        (rewrite (proj2 (Z.eqb_neq (now s) 0)) by lia); (split; [lia|done]).
    - assert (i' = other_timer i) as -> by (unfold other_timer; destruct Hi as [-> | ->], Hi' as [-> | ->]; done).
      destruct Ho as [Ho1 Ho2]. unfold timer_wf. rewrite Hn2, Hk2, Hk by
        (try apply timer_event_in; destruct Hi as [-> | ->]; done).
      destruct Hi as [-> | ->]; done. }
  split; simpl.
  - split; cbn [the_via the_sched world]; [by apply (armed_range i c (mk_vst v s w))| |done]. by destruct Hi as [-> | ->].
  - by destruct Hi as [-> | ->].
  - apply Ht. by left.
  - apply Ht. by right.
  - unfold shift_wf. rewrite Hk2, Hk by (destruct Hi as [-> | ->]; (done || simpl; tauto)).
    by destruct Hi as [-> | ->].
Qed.
End Steps.
