(* ===== verification/ViaRun.v ===== *)
(** * The VIA in operation

    Every register access, event callback and device input of the VIA
    succeeds and keeps its invariant, and a running timer 1 raises its
    interrupt flag on time. *)
From Stdlib Require Import Sorted.
From S2P Require Import Prelude Scheduler SchedulerProofs SchedulerRun Via ViaProofs.

(** What an operation that does not touch timer 1 leaves alone: its run and
    its flag. *)
Record keeps_t1 (v v' : via) : Prop := {
  k1_start : start_timestamp (timer1 v') = start_timestamp (timer1 v);
  k1_value : start_value (timer1 v') = start_value (timer1 v);
  k1_expired : expired (timer1 v') = expired (timer1 v);
  k1_ff : freq_factor v' = freq_factor v;
  k1_flag : Z.testbit (ifr v') 6 = Z.testbit (ifr v) 6;
}.
Lemma keeps_t1_refl v : keeps_t1 v v.
Proof. done. Qed.
Lemma keeps_t1_trans v1 v2 v3 : keeps_t1 v1 v2 -> keeps_t1 v2 v3 -> keeps_t1 v1 v3.
Proof. intros [] []. split; congruence. Qed.
Lemma dev_frame_t1 v v' : dev_frame v v' -> keeps_t1 v v'.
Proof. intros []. split; try congruence. by apply df_flags. Qed.

Section Run.
Context {W : Type} `{HostLaws W}.
Implicit Types (st : vst W) (v : via).

(** The effect of an operation, with [spare] telling whether it leaves timer 1
    alone. *)
Definition effect (spare : bool) (st st' : vst W) : Prop :=
  vinv st' /\ now (the_sched st) <= now (the_sched st') /\
  (spare = true -> keeps_t1 (the_via st) (the_via st')).
Lemma effect_trans b st1 st2 st3 : effect b st1 st2 -> effect b st2 st3 -> effect b st1 st3.
Proof.
  intros (_ & N1 & K1) (I2 & N2 & K2). split; [done|]. split; [lia|]. intros Hb. eapply keeps_t1_trans; auto.
Qed.
Lemma effect_refl b st : vinv st -> effect b st st.
Proof. intros. split; [done|]. split; [lia|done]. Qed.
Lemma tame_effect b st st' : tame st st' -> effect b st st'.
Proof. intros (I & F & N & _). split; [done|]. split; [done|]. intros _. by apply dev_frame_t1. Qed.
Lemma wp_effect b {A} (m : VM W A) st : wp m (fun _ => tame st) st -> wp m (fun _ => effect b st) st.
Proof. intros Hm. eapply wp_mono; [exact Hm|]. intros. by apply tame_effect. Qed.
Lemma bind_effect b {A B} (m : VM W A) (k : A -> VM W B) st :
  wp m (fun _ => effect b st) st -> (forall a st', vinv st' -> wp (k a) (fun _ => effect b st') st') ->
  wp (m ≫= k) (fun _ => effect b st) st.
Proof.
  intros Hm Hk. apply wp_bind. eapply wp_mono; [exact Hm|]. intros a st' He.
  eapply wp_mono; [apply Hk, He|]. intros c st''. by apply effect_trans.
Qed.
Lemma gets_effect b {A} (f : via -> A) st : vinv st -> wp (gets f) (fun _ => effect b st) st.
Proof. intros. apply wp_gets. by apply effect_refl. Qed.
Lemma ret_effect b {A} (a : A) st : vinv st -> wp (mret a) (fun _ => effect b st) st.
Proof. intros. apply wp_ret. by apply effect_refl. Qed.
Lemma modify_effect b f st : vinv st -> quiet (the_via st) (f (the_via st)) ->
  ifr (f (the_via st)) = ifr (the_via st) -> wp (modify f) (fun _ => effect b st) st.
Proof.
  intros Hi Hq E. apply wp_modify. split; [by apply quiet_here|]. split; [simpl; lia|]. intros _.
  destruct Hq as [? ? [] [] ? ?]. cbn [the_via]. split; first [congruence|by rewrite E].
Qed.

(** ** Devices *)

Lemma via_input_tame p n x st : vinv st -> 0 <= p < 2 -> 0 <= n < 8 -> wp (via_input p n x) (fun _ => tame st) st.
Proof.
  intros Hi Hp Hn. unfold via_input. repeat (apply wp_bind, wp_assert; [apply Z.ltb_lt; lia|]). pose proof Hi as [[[] ? ?] ? ? ? ?].
  apply modify_tame; [done|..]; assert (p = 0 \/ p = 1) as [-> | ->] by lia; try done; split; try done.
  - split; simpl; try done. destruct vr_a. split; simpl; try done. destruct x; apply u8_range.
  - split; simpl; try done. destruct vr_b. split; simpl; try done. destruct x; apply u8_range.
  - intros i. unfold ports. simpl. by destruct (i =? PORT_A).
  - intros i. unfold ports. simpl. by destruct (i =? PORT_A).
Qed.
Lemma sr_tame x st : vinv st -> in_width 8 x -> wp (modify (set_sr x)) (fun _ => tame st) st.
Proof. intros Hi Hx. pose proof Hi as [[[] ? ?] ? ? ? ?]. by apply modify_tame. Qed.
Lemma via_input_sr_tame x st : vinv st -> in_width 8 x -> wp (via_input_sr x) (fun _ => tame st) st.
Proof.
  assert (forall i, 5 <= i < 7 -> Z.testbit IFR_SR i = false) by (intros i ?; small_z i; done).
  intros Hi Hx. unfold via_input_sr. wps. destruct (_ =? 7); [by apply raise_tame|].
  destruct (truthy _); [apply wp_ret; by apply tame_refl|]. destruct (negb _); [apply wp_ret; by apply tame_refl|].
  apply bind_tame; [by apply sr_tame|]. intros _ st' Hi'. by apply raise_tame.
Qed.
Lemma via_input_c_tame p c x st : vinv st -> (p =? 0) || (p =? 1) = true -> (c =? 0) || (c =? 1) = true ->
  wp (via_input_c p c x) (fun _ => tame st) st.
Proof.
  intros Hi Hp Hc. unfold via_input_c. do 2 (apply wp_bind, wp_assert; [done|]). wps. unfold id.
  pose proof Hi as [[Hr ? ?] ? ? ? ?].
  repeat case_match; apply bind_tame; try (intros _ st' Hi'; repeat apply when_tame; try done; apply raise_tame;
    [done|intros i ?; small_z i; done]).
  all: apply modify_tame; try done; split; try done; destruct Hr; try (split; simpl; try done; by destruct vr_a, vr_b);
    intros i; unfold ports; simpl; by destruct (i =? PORT_A).
Qed.

(** Dropping the pending shift. *)
Lemma cancel_tame st : base st -> irq_wf (the_via st) -> timer_wf (the_via st) TIMER_1 (the_sched st) ->
  timer_wf (the_via st) TIMER_2 (the_sched st) -> wp cancel_shift (fun _ => tame st) st.
Proof.
  intros [Hr Hl Hs] Hq [T1 E1] [T2 E2]. unfold cancel_shift. wps. eapply wp_on_sched; [done|]. simpl.
  split; [|split; [by split|split; [change (now (the_sched st) <= now (the_sched st)); lia|]]].
  - split; simpl; try done.
    + split; simpl; [by destruct Hr|done|]. by apply remove_sched; [simpl; tauto|].
    + split; [exact T1|]. by rewrite evs_remove_other.
    + split; [exact T2|]. by rewrite evs_remove_other.
    + unfold shift_wf. simpl. apply evs_remove.
  - repeat constructor; by apply evs_remove_other.
Qed.
Lemma via_cancel_tame st : vinv st -> wp via_cancel_pending_shift (fun _ => tame st) st.
Proof. intros Hi. unfold via_cancel_pending_shift. wps. apply when_tame; [done|]. apply cancel_tame; apply Hi. Qed.

Lemma dev_step_tame st st' : vinv st -> dev_step st st' -> tame st st'.
Proof.
  intros Hi. destruct 1 as [s w He Hl Hw|p n x st' Hp Hn E|x st' Hx E|p c x st' E|st' E].
  - apply tame_elapse; [done|apply dev_frame_refl|]. apply (quiet_inv st); try done.
    + split; try done; apply Hi.
    + split; [|done]. rewrite Hl. apply Hi.
  - exact (wp_gets_inv _ _ st (via_input_tame p n x st Hi Hp Hn) _ _ E).
  - exact (wp_gets_inv _ _ st (via_input_sr_tame x st Hi Hx) _ _ E).
  - assert ((p =? 0) || (p =? 1) = true /\ (c =? 0) || (c =? 1) = true) as [Hp Hc].
    { unfold via_input_c, mbind, vm_bind, vassert in E.
      destruct ((p =? 0) || (p =? 1)), ((c =? 0) || (c =? 1)); simpl in E; try discriminate E; done. }
    exact (wp_gets_inv _ _ st (via_input_c_tame p c x st Hi Hp Hc) _ _ E).
  - exact (wp_gets_inv _ _ st (via_cancel_tame st Hi) _ _ E).
Qed.
Lemma dev_steps_tame st st' : vinv st -> rtc dev_step st st' -> tame st st'.
Proof.
  intros Hi Hr. induction Hr as [st|st1 st2 st3 Hstep _ IH]; [by apply tame_refl|].
  pose proof (dev_step_tame st1 st2 Hi Hstep) as Ht. eapply tame_trans; [exact Ht|]. apply IH, Ht.
Qed.
Lemma wp_dev {A} (m : VM W A) st : vinv st -> wp m (fun _ => rtc dev_step st) st -> wp m (fun _ => tame st) st.
Proof. intros Hi Hm. eapply wp_mono; [exact Hm|]. intros a st' Hd. by apply dev_steps_tame. Qed.

(** ** Registers *)

Lemma clear_effect b m st : vinv st -> in_width 8 m -> (b = true -> Z.testbit m 6 = false) ->
  wp (clear_flag m) (fun _ => effect b st) st.
Proof.
  intros Hi Hm Hb. eapply wp_mono; [by apply clear_inv|]. intros _ st' (Ev & He & Hi' & _).
  split; [done|]. split; [apply He|]. intros Ht. rewrite Ev. split; try done. cbn [ifr set_ifr].
  by rewrite aggregate_low, Z.land_spec, not8_bits, Hb, andb_true_r by (done || lia).
Qed.
Lemma hook_read_effect b h st : vinv st -> wp (hook_read h) (fun _ => effect b st) st.
Proof.
  intros Hi. unfold hook_read. destruct porta_read as [f|] eqn:Ef; [|by apply ret_effect].
  apply wp_bind. eapply wp_mono; [by apply porta_read_law|]. intros x st' (Hx & Hr).
  pose proof (dev_steps_tame st st' Hi Hr) as Ht. pose proof Ht as (Hi' & _).
  eapply wp_mono; [apply (modify_effect b _ st' Hi')|].
  - pose proof Hi' as [[[] ? ?] ? ? ? ?]. split; try done. split; try done. by destruct vr_a.
  - done.
  - intros ? st'' He. eapply effect_trans; [by apply tame_effect|exact He].
Qed.
Lemma hook_write_effect b x h st : vinv st -> wp (hook_write x h) (fun _ => effect b st) st.
Proof.
  intros Hi. unfold hook_write. destruct porta_write as [f|] eqn:Ef; [|by apply ret_effect].
  apply wp_effect, wp_dev; [done|]. by apply porta_write_law.
Qed.
Lemma drive_port_effect b i st : vinv st -> wp (drive_port i) (fun _ => effect b st) st.
Proof. intros Hi. unfold drive_port. wps. apply wp_effect, wp_dev; [done|]. by apply output_law. Qed.
Lemma put_port_effect b i f st : vinv st -> (i = PORT_A \/ i = PORT_B) ->
  (forall p, port_range p -> port_range (f p)) ->
  wp (modify (fun v => set_ports i (f (ports v i)) v)) (fun _ => effect b st) st.
Proof.
  intros Hi Hp Hf. pose proof Hi as [[[] ? ?] ? ? ? ?].
  apply modify_effect; [done|..]; destruct Hp as [-> | ->]; try done; split; try done; split; try done; by apply Hf.
Qed.
Lemma put_output_effect b i x st : vinv st -> (i = PORT_A \/ i = PORT_B) -> in_width 8 x ->
  wp (put_output i x) (fun _ => effect b st) st.
Proof.
  intros Hi Hp Hx. unfold put_output. apply bind_effect.
  - apply put_port_effect; [done..|]. intros p []. by split.
  - intros _ st' Hi'. by apply drive_port_effect.
Qed.
Lemma read_timer_ok i st : vinv st -> (i = TIMER_1 \/ i = TIMER_2) ->
  wp (read_timer i) (fun x st' => st' = st /\
    let t := timers (the_via st) i in
    x = if start_timestamp t =? 0 then counter t
        else u16 (start_value t - (now (the_sched st) - start_timestamp t) / freq_factor (the_via st))) st.
Proof.
  intros Hi Hn. unfold read_timer. wps. unfold id. set (t := timers (the_via st) i).
  destruct (Z.eqb_spec (start_timestamp t) 0); [by apply wp_ret|].
  pose proof Hi as [[Hr ? Hs] ? Ht1 Ht2 ?]. destruct Hs as [Hok ? ? ? ? ?].
  assert (timer_wf (the_via st) i (the_sched st)) as [Ht _] by (destruct Hn as [-> | ->]; done).
  apply wp_bind. eapply wp_ask; [by apply current_cpu_cycles_ok|].
  apply wp_bind, wp_assert; [apply Z.leb_le, Ht|]. apply wp_ret. split; [done|].
  pose proof (now_le_end _ Hok). pose proof (ok_end _ Hok).
  unfold cpu_to_via_cycles. rewrite (u64_small (now _ - start_timestamp t)) by (fold t in Ht; pow2; lia).
  unfold u16, u64, wrap. rewrite Z.mod_mod_divide; [done|]. by exists (2 ^ 48).
Qed.
Lemma read_timer_effect b i st : vinv st -> (i = TIMER_1 \/ i = TIMER_2) -> wp (read_timer i) (fun _ => effect b st) st.
Proof. intros Hi Hn. eapply wp_mono; [by apply read_timer_ok|]. intros x st' [-> _]. by apply effect_refl. Qed.

Lemma latch_effect b i f st : vinv st -> (i = TIMER_1 \/ i = TIMER_2) -> (forall l, in_width 16 (f l)) ->
  wp (set_latch_of i f) (fun _ => effect b st) st.
Proof.
  intros Hi Hn Hf. pose proof Hi as [[[] ? ?] ? ? ? ?]. unfold set_latch_of.
  apply modify_effect; [done|..]; destruct Hn as [-> | ->]; try done; split; try done; split; try done.
  - destruct vr_t1. split; try done. apply Hf.
  - destruct vr_t2. split; try done. apply Hf.
Qed.
Lemma with_high_width l x : in_width 16 (with_high l x).
Proof. apply u16_range. Qed.
Lemma with_low_width l x : in_width 16 (with_low l x).
Proof. apply u16_range. Qed.

(** Arming a timer, from the invariant. *)
Lemma arm_effect b i c st : vinv st -> (i = TIMER_1 \/ i = TIMER_2) -> in_width 16 c -> (b = true -> i = TIMER_2) ->
  wp (arm_timer i c) (fun _ => effect b st) st.
Proof.
  intros Hi Hn Hc Hb. eapply wp_mono; [apply arm_timer_ok; try apply Hi; try done; destruct Hn as [-> | ->]; apply Hi|].
  intros _ st' (Hi' & Ev & En & _). split; [done|]. split; [lia|]. intros ->. by rewrite Ev, (Hb eq_refl).
Qed.
Lemma set_t1c_high_effect x st : vinv st -> wp (set_t1c_high x) (fun _ => effect false st) st.
Proof.
  intros Hi. unfold set_t1c_high. apply bind_effect; [by apply clear_effect|]. clear st Hi. intros _ st Hi.
  apply bind_effect; [apply latch_effect; [done|by left|intros; apply with_high_width]|]. clear st Hi. intros _ st Hi.
  wps. unfold id. pose proof Hi as [[[] ? ?] ? ? ? ?].
  apply wp_assert.
  { destruct vr_acr. rewrite Z.shiftr_div_pow2 by lia. apply andb_true_iff. rewrite !Z.leb_le. dlia. }
  apply bind_effect.
  - apply wp_when; intros _; [|by apply effect_refl]. unfold drive_pb7. apply modify_effect; [done|..];
      destruct (truthy _); try done; split; try done. split; try done. destruct vr_b. split; try done.
    by apply land_width.
  - intros _ st' Hi'. apply arm_effect; [done|by left|apply vr_t1|done].
Qed.
Lemma set_t2c_high_effect x st : vinv st -> wp (set_t2c_high x) (fun _ => effect true st) st.
Proof.
  intros Hi. unfold set_t2c_high. apply bind_effect; [apply latch_effect; [done|by right|intros; apply with_high_width]|].
  clear st Hi. intros _ st Hi. apply wp_bind, wp_gets. pose proof (tr_latch _ (vr_t2 _ (b_range _ (vi_base _ Hi)))) as Hl.
  set (c := latch _) in *. clearbody c. apply bind_effect; [by apply clear_effect|]. clear st Hi. intros _ st Hi. wps.
  destruct (_ =? 0); [apply arm_effect; [done|by right|done|done]|].
  pose proof Hi as [[[] ? ?] ? ? ? ?]. apply modify_effect; [done| |done]. split; try done. split; try done.
  by destruct vr_t2.
Qed.
Lemma write_sr_effect x st : vinv st -> in_width 8 x -> wp (write_sr x) (fun _ => effect true st) st.
Proof.
  intros Hi Hx. unfold write_sr. apply bind_effect; [by apply wp_effect, sr_tame|]. clear st Hi. intros _ st Hi.
  apply bind_effect; [by apply clear_effect|]. clear st Hi. intros _ st Hi. wps.
  apply wp_when; intros _; [|by apply effect_refl]. pose proof Hi as [[Hr Hl Hs] Hq [T1 E1] [T2 E2] Hsh].
  wps. simpl. eapply wp_on_sched; [done|]. simpl. wps. simpl.
  pose proof (remove_sched sr_event (the_sched st) ltac:(simpl; tauto) Hs) as Hs1.
  set (s1 := remove_event _ _ _) in *. pose proof (vr_ff _ Hr).
  assert (evs t1_event s1 = evs t1_event (the_sched st) /\ evs t2_event s1 = evs t2_event (the_sched st)) as [K1 K2]
    by (split; by apply evs_remove_other).
  destruct (new_via_event sr_event (8 * freq_factor (the_via st)) s1) as (s2 & E & Hs2 & Hn2 & He2 & Hk2);
    [simpl; tauto|done|apply evs_remove|pow2; lia| |].
  { constructor; [|constructor; [|constructor; [|constructor]]].
    - rewrite K1. by apply (timer_wf_length (the_via st) TIMER_1).
    - rewrite K2. by apply (timer_wf_length (the_via st) TIMER_2).
    - unfold s1. rewrite evs_remove. simpl. lia. }
  change (now s1) with (now (the_sched st)) in Hn2.
  eapply wp_on_sched; [exact E|]. simpl. split; [|split; [simpl; lia|done]]. split; simpl.
  - split; try done. simpl. by destruct Hr.
  - done.
  - split; [rewrite Hn2; exact T1|]. rewrite Hk2 by (done || simpl; tauto). by rewrite (K1 : evs (timer_event TIMER_1) s1 = _).
  - split; [rewrite Hn2; exact T2|]. rewrite Hk2 by (done || simpl; tauto). by rewrite (K2 : evs (timer_event TIMER_2) s1 = _).
  - unfold shift_wf. simpl. eexists. exact He2.
Qed.

Lemma write_acr_effect b x st : vinv st -> in_width 8 x -> wp (write_acr x) (fun _ => effect b st) st.
Proof.
  intros Hi Hx. unfold write_acr. apply wp_bind, wp_gets. pose proof Hi as [[[] ? ?] ? ? ? ?].
  apply bind_effect; [by apply modify_effect|]. intros _ st' Hi'. apply wp_effect, when_tame; [done|].
  apply cancel_tame; apply Hi'.
Qed.
Lemma update_effect b n st : vinv st -> (b = true -> Z.testbit n 6 = Z.testbit (ifr (the_via st)) 6) ->
  wp (update_ifr n) (fun _ => effect b st) st.
Proof.
  intros Hi Hn. eapply wp_mono; [by apply update_ifr_inv|]. intros _ st' (Ev & He & Hi' & _).
  split; [done|]. split; [apply He|]. intros Hb. rewrite Ev. split; try done. cbn [ifr set_ifr].
  rewrite aggregate_low by lia. auto.
Qed.
Lemma write_ier_effect b x st : vinv st -> in_width 8 x -> wp (write_ier x) (fun _ => effect b st) st.
Proof.
  intros Hi Hx. unfold write_ier. wps. set (e := if truthy _ then _ else _).
  pose proof Hi as [[Hr Hl Hs] Hq T1 T2 Hsh].
  assert (in_width 8 e) by (unfold e; destruct Hr, (truthy _); auto using lor_width, land_width, not8_width with lia).
  eapply wp_mono; [apply update_ifr_ok; split; [by destruct Hr|done|done]|].
  intros _ [v' s' w'] (Ev & He & _ & Hl'). simpl in Ev, He, Hl'. subst v'. split; [split; simpl|split; [apply He|]].
  - split; simpl; [|done|apply He]. destruct Hr. split; try done. simpl. apply aggregate_width.
  - unfold irq_wf. simpl. by rewrite aggregate_idem.
  - eapply timer_wf_elapse; [exact He|by left|done..].
  - eapply timer_wf_elapse; [exact He|by right|done..].
  - by eapply shift_wf_elapse.
  - intros _. split; try done. cbn [ifr set_ifr the_via]. by rewrite aggregate_low by lia.
Qed.

(** Which accesses leave timer 1 alone. *)
Definition reg (addr : Z) : Z := Z.land (Z.shiftr addr 9) 15.
Definition spare_read (addr : Z) : bool := negb (reg addr =? T1C_L).
Definition spare_write (addr value : Z) : bool :=
  negb (reg addr =? T1C_H) && negb ((reg addr =? IFR) && Z.testbit value 6).

Lemma reg_range addr : 0 <= reg addr < 16.
Proof. apply (land_width 4); unfold in_width; lia. Qed.
Lemma port_flags i : in_width 8 (if truthy i then Z.lor IFR_CB1 IFR_CB2 else Z.lor IFR_CA1 IFR_CA2) /\
  Z.testbit (if truthy i then Z.lor IFR_CB1 IFR_CB2 else Z.lor IFR_CA1 IFR_CA2) 6 = false.
Proof. by destruct (truthy i). Qed.
Lemma read_port_effect b i st : vinv st -> wp (read_port i) (fun _ => effect b st) st.
Proof.
  intros Hi. unfold read_port. destruct (port_flags i). apply bind_effect; [by apply clear_effect|].
  intros _ st' Hi'. by apply gets_effect.
Qed.

(** Follows the body of a register access. *)
Ltac effects :=
  lazymatch goal with
  | |- wp (gets _) _ _ => by apply gets_effect
  | |- wp (mret _) _ _ => by apply ret_effect
  | |- wp (read_port _) _ _ => by apply read_port_effect
  | |- wp (hook_read _) _ _ => by apply hook_read_effect
  | |- wp (hook_write _ _) _ _ => by apply hook_write_effect
  | |- wp (drive_port _) _ _ => by apply drive_port_effect
  | |- wp (read_timer TIMER_1) _ _ => by apply read_timer_effect; [|left]
  | |- wp (read_timer TIMER_2) _ _ => by apply read_timer_effect; [|right]
  | |- wp (clear_flag _) _ _ => by apply clear_effect
  | |- wp (put_output PORT_A _) _ _ => by apply put_output_effect; [|left|]
  | |- wp (put_output PORT_B _) _ _ => by apply put_output_effect; [|right|]
  | |- wp (modify (fun v => set_port_a (?f (port_a v)) v)) _ _ =>
      apply (put_port_effect _ PORT_A f); [done|by left|by intros ? []]
  | |- wp (modify (fun v => set_port_b (?f (port_b v)) v)) _ _ =>
      apply (put_port_effect _ PORT_B f); [done|by right|by intros ? []]
  | |- wp (modify (set_pcr _)) _ _ => apply modify_effect
  | |- wp (set_latch_of TIMER_1 _) _ _ => apply latch_effect; [done|by left|intros; apply u16_range]
  | |- wp (set_latch_of TIMER_2 _) _ _ => apply latch_effect; [done|by right|intros; apply u16_range]
  | |- wp (set_t1c_high _) _ _ => by apply set_t1c_high_effect
  | |- wp (set_t2c_high _) _ _ => by apply set_t2c_high_effect
  | |- wp (write_sr _) _ _ => by apply write_sr_effect
  | |- wp (write_acr _) _ _ => by apply write_acr_effect
  | |- wp (write_ier _) _ _ => by apply write_ier_effect
  | |- wp (gets ifr ≫= _) _ _ => apply wp_bind, wp_gets, update_effect
  | |- wp (_ ≫= _) _ _ => apply bind_effect; [effects|intros; effects]
  end.

Lemma via_read_effect addr st : vinv st -> Z.land addr 1 = 0 ->
  wp (via_read_uint8 addr) (fun _ => effect (spare_read addr) st) st.
Proof.
  intros Hi Ha. unfold via_read_uint8, spare_read. apply wp_bind, wp_assert; [by apply Z.eqb_eq|].
  fold (reg addr). pose proof (reg_range addr) as Hr. revert Hr. generalize (reg addr). intros r Hr.
  small_z r; cbn [Z.eqb T1C_L]; effects.
Qed.
Lemma via_write_effect addr x st : vinv st -> Z.land addr 1 = 0 -> in_width 8 x ->
  wp (via_write_uint8 addr x) (fun _ => effect (spare_write addr x) st) st.
Proof.
  intros Hi Ha Hx. unfold via_write_uint8, spare_write. apply wp_bind, wp_assert; [by apply Z.eqb_eq|].
  fold (reg addr). pose proof (reg_range addr) as Hr. revert Hr. generalize (reg addr). intros r Hr.
  pose proof Hi as [[[] ? ?] ? ? ? ?]. small_z r; effects; try done.
  cbn [Z.eqb Pos.eqb T1C_H IFR negb andb]. intros Hb%negb_true_iff.
  rewrite !Z.land_spec, not8_bits, Hb by (done || lia). by rewrite !andb_true_r.
Qed.

(** ** Events *)

(** The state in which the scheduler calls the callback of its first event. *)
Definition popping (e : event) (q : list event) (st : vst W) : vst W :=
  mk_vst (the_via st) (popped e q (the_sched st)) (world st).

Lemma evs_popped cb e q s : cpu_events s = e :: q ->
  evs cb s = if event_matches cb self e then e :: evs cb (popped e q s) else evs cb (popped e q s).
Proof. intros E. unfold evs. by rewrite E. Qed.
Lemma popped_sched e q s : host_sched s -> cpu_events s = e :: q -> host_sched (popped e q s).
Proof.
  intros [Hok Hn Ht Hmt Hfr Hr] E. split; [by apply popped_ok|done..|].
  unfold others in *. rewrite E in Hr. simpl in *. destruct (negb (mine e)); simpl in Hr; lia.
Qed.
Lemma popped_base e q st : vinv st -> cpu_events (the_sched st) = e :: q -> base (popping e q st).
Proof. intros [[] ? ? ? ?] E. split; [done..|by apply popped_sched]. Qed.
(** The events under the other callbacks stay, the one that fires was the
    only one under its own. *)
Lemma popped_other cb cb' e q s : cpu_events s = e :: q -> event_matches cb self e = true -> cb' <> cb ->
  evs cb' (popped e q s) = evs cb' s.
Proof.
  intros E Hm Hne. rewrite (evs_popped cb' e q s E). destruct (event_matches cb' self e) eqn:Hm'; [|done].
  by pose proof (matches_cb _ _ _ Hm Hm').
Qed.
Lemma popped_timer i e q s v : cpu_events s = e :: q -> event_matches (timer_event i) self e = true ->
  timer_wf v i s -> ticking (timers v i) = true /\ timestamp e = deadline v i /\ evs (timer_event i) (popped e q s) = [].
Proof.
  intros E Hm [_ Ht]. rewrite (evs_popped _ e q s E), Hm in Ht. destruct (ticking _); [|done].
  by injection Ht as -> ->.
Qed.
Lemma timer_wf_other v v' i s s' : now s <= now s' -> timers v' i = timers v i -> freq_factor v' = freq_factor v ->
  evs (timer_event i) s' = evs (timer_event i) s -> timer_wf v i s -> timer_wf v' i s'.
Proof. intros Hn Et Ef Ev [H1' H2']. unfold timer_wf, deadline. rewrite Et, Ef, Ev. split; [lia|done]. Qed.
Lemma shift_wf_other v v' s s' : sr_shift_pending v' = sr_shift_pending v -> evs sr_event s' = evs sr_event s ->
  shift_wf v s -> shift_wf v' s'.
Proof. intros E1 E2. unfold shift_wf. by rewrite E1, E2. Qed.

Lemma matches_callback cb e : event_matches cb self e = true -> callback e = cb.
Proof. unfold event_matches. rewrite andb_true_iff, Z.eqb_eq. tauto. Qed.

(** Timer 1 runs out: one-shot it stops, free-running it starts again. *)
Definition t1_flag (st : vst W) : bool := Z.testbit (ifr (the_via st)) 6.
Lemma raise_t1 st : vinv st ->
  wp (raise_flag IFR_T1) (fun _ st' => vinv st' /\ now (the_sched st) <= now (the_sched st') /\ t1_flag st' = true) st.
Proof.
  intros Hi. eapply wp_mono; [by apply raise_inv|]. intros _ st' (Ev & He & Hi' & _). split; [done|].
  split; [apply He|]. unfold t1_flag. rewrite Ev. cbn [ifr set_ifr].
  rewrite aggregate_low, Z.lor_spec by lia. apply orb_true_r.
Qed.
Lemma pb7_effect b f st : vinv st -> (forall o, in_width 8 o -> in_width 8 (f o)) ->
  wp (drive_pb7 f) (fun _ => effect b st) st.
Proof.
  intros Hi Hf. pose proof Hi as [[[] ? ?] ? ? ? ?]. unfold drive_pb7. apply modify_effect; [done|..];
    destruct (truthy _); try done; split; try done. split; try done. destruct vr_b. split; try done. by apply Hf.
Qed.
(** While its callback runs, timer 1 has no event. *)
Record t1_out (n : Z) (st : vst W) : Prop := {
  to_base : base st;
  to_irq : irq_wf (the_via st);
  to_evs : evs t1_event (the_sched st) = [];
  to_t2 : timer_wf (the_via st) TIMER_2 (the_sched st);
  to_shift : shift_wf (the_via st) (the_sched st);
  to_now : n <= now (the_sched st);
}.
Definition settled (n : Z) (st : vst W) : Prop := vinv st /\ n <= now (the_sched st).

Lemma t1_pops e q st : vinv st -> cpu_events (the_sched st) = e :: q -> event_matches t1_event self e = true ->
  ticking (timer1 (the_via st)) = true /\ timestamp e = deadline (the_via st) TIMER_1 /\
  t1_out (now (the_sched st)) (popping e q st).
Proof.
  intros Hi E Hm. pose proof (popped_base e q st Hi E) as Hb. pose proof Hi as [_ Hq T1 T2 Hsh].
  destruct (popped_timer TIMER_1 e q (the_sched st) (the_via st) E Hm T1) as (Htk & Hts & Hev).
  split; [done|]. split; [done|]. split; try done.
  - eapply timer_wf_other; [..|exact T2]; try done. by apply (popped_other t1_event).
  - eapply shift_wf_other; [..|exact Hsh]; try done. by apply (popped_other t1_event).
Qed.
Lemma stop_t1_ok n st : t1_out n st -> wp stop_t1 (fun _ => settled n) st.
Proof.
  intros [[Hr Hl Hs] Hq He T2 Hsh Hn]. apply wp_modify. split; [|done]. split; try done.
  - split; try done. destruct Hr. split; try done. by destruct vr_t1.
  - pose proof (hs_now _ Hs). split; [cbn; lia|exact He].
Qed.
Lemma rearm_t1_ok n st : t1_out n st -> wp (arm_timer TIMER_1 (latch (timer1 (the_via st)))) (fun _ => settled n) st.
Proof.
  intros [Hb Hq He T2 Hsh Hn]. eapply wp_mono; [apply arm_timer_ok; try done; [by left|apply Hb]|].
  intros _ st' (Hi' & _ & Hn' & _). split; [done|lia].
Qed.
Lemma pb7_settled n f st : (forall o, in_width 8 o -> in_width 8 (f o)) -> settled n st ->
  wp (drive_pb7 f) (fun _ => settled n) st.
Proof.
  intros Hf [Hi Hn]. eapply wp_mono; [by apply (pb7_effect true)|]. intros _ st' (? & ? & _). split; [done|lia].
Qed.
Lemma t1_callback_ok e q st : vinv st -> cpu_events (the_sched st) = e :: q -> event_matches t1_event self e = true ->
  wp t1_callback (fun _ st' => settled (now (the_sched st)) st' /\ t1_flag st' = true) (popping e q st).
Proof.
  intros Hi E Hm. destruct (t1_pops e q st Hi E Hm) as (Htk & _ & Hout). apply andb_true_iff in Htk as [Hst _].
  unfold t1_callback. apply wp_bind, wp_gets, wp_bind, wp_assert; [exact Hst|]. apply wp_bind. unfold id.
  apply (wp_mono _ (fun _ => settled (now (the_sched st)))).
  2:{ intros _ st' [Hi' Hn]. eapply wp_mono; [by apply raise_t1|]. intros _ st'' (? & ? & ?). split; [split; [done|lia]|done]. }
  pose proof (stop_t1_ok _ _ Hout) as Hstop. pose proof (rearm_t1_ok _ _ Hout) as Harm.
  cbn [popping the_via] in *. pose proof (vr_acr _ (b_range _ (vi_base _ Hi))) as Ha. rewrite Z.shiftr_div_pow2 by lia.
  assert (0 <= acr (the_via st) / 2 ^ 6 < 4) as Hm4 by (destruct Ha; dlia). revert Hm4.
  generalize (acr (the_via st) / 2 ^ 6). intros m Hm4. small_z m; try done.
  - apply wp_bind. eapply wp_mono; [exact Harm|]. intros ? st' Hs. apply pb7_settled; [|exact Hs]. intros. by apply lxor_width.
  - apply wp_bind. eapply wp_mono; [exact Hstop|]. intros ? st' Hs. apply pb7_settled; [|exact Hs]. intros. by apply lor_width.
Qed.
(** Timer 2 and the shift leave timer 1 alone. *)
Lemma raise_effect b m st : vinv st -> Z.testbit m 6 = false -> wp (raise_flag m) (fun _ => effect b st) st.
Proof.
  intros Hi Hm. unfold raise_flag. apply wp_bind, wp_gets, update_effect; [done|].
  intros _. by rewrite Z.lor_spec, Hm, orb_false_r.
Qed.
Lemma t2_callback_ok e q st : vinv st -> cpu_events (the_sched st) = e :: q -> event_matches t2_event self e = true ->
  wp t2_callback (fun _ => effect true st) (popping e q st).
Proof.
  intros Hi E Hm. pose proof (popped_base e q st Hi E) as [Hr Hl Hs]. pose proof Hi as [_ Hq T1 T2 Hsh].
  destruct (popped_timer TIMER_2 e q (the_sched st) (the_via st) E Hm T2) as (Htk & _ & Hev).
  pose proof Htk as [Hst _]%andb_true_iff.
  unfold t2_callback. apply wp_bind, wp_gets, wp_bind, wp_assert; [exact Hst|]. apply wp_bind, wp_modify.
  cbn [popping the_via the_sched world]. set (st1 := mk_vst _ _ _).
  assert (effect true st st1) as He.
  { split; [|split; [change (now (the_sched st) <= now (the_sched st)); lia|done]]. split; try done.
    - split; try done. destruct Hr. split; try done. by destruct vr_t2.
    - eapply timer_wf_other; [..|exact T1]; try done. by apply (popped_other t2_event).
    - split; [apply T2|]. unfold ticking. cbn [timers]. cbn. by rewrite andb_false_r.
    - eapply shift_wf_other; [..|exact Hsh]; try done. by apply (popped_other t2_event). }
  eapply wp_mono; [apply (raise_effect true); [apply He|done]|]. intros ? st' He'. by eapply effect_trans.
Qed.
Lemma popped_room e q s : cpu_events s = e :: q -> spare_room s -> spare_room (popped e q s).
Proof. unfold spare_room, others. intros ->. simpl. destruct (negb (mine e)); simpl; lia. Qed.
Lemma sr_callback_ok e q st : vinv st -> cpu_events (the_sched st) = e :: q -> event_matches sr_event self e = true ->
  spare_room (the_sched st) ->
  wp sr_shift_complete_callback (fun _ => effect true st) (popping e q st).
Proof.
  intros Hi E Hm Hroom. pose proof (popped_base e q st Hi E) as [Hr Hl Hs]. pose proof Hi as [_ Hq T1 T2 Hsh].
  unfold shift_wf in Hsh. rewrite (evs_popped _ e q _ E), Hm in Hsh.
  destruct (sr_shift_pending (the_via st)) eqn:Hp; [|done]. destruct Hsh as [t [= _ Hev]].
  unfold sr_shift_complete_callback. apply wp_bind, wp_gets. unfold id. cbn [popping the_via]. rewrite Hp. cbn [negb].
  apply wp_bind, wp_modify. cbn [popping the_via the_sched world]. set (st1 := mk_vst _ _ _).
  assert (effect true st st1) as He.
  { split; [|split; [change (now (the_sched st) <= now (the_sched st)); lia|done]]. split; try done.
    - split; try done. by destruct Hr.
    - eapply timer_wf_other; [..|exact T1]; try done. by apply (popped_other sr_event).
    - eapply timer_wf_other; [..|exact T2]; try done. by apply (popped_other sr_event). }
  eapply wp_mono; [apply (bind_effect true)|].
  - apply wp_effect, wp_dev; [apply He|]. apply shift_law; [apply He|]. by apply popped_room.
  - intros _ st' Hi'. by apply raise_effect.
  - intros ? st' He'. by eapply effect_trans.
Qed.
End Run.
