(* ===== verification/ViaTheorems.v ===== *)
(** * The VIA: reachable states and the timer

    The VIA as a state machine: register accesses, its events, and the
    devices around it, in any order.  In every state it reaches the interrupt
    line shows the enabled flags and no operation fails an assertion; timer 1
    counts down and raises its flag on time. *)
From Stdlib Require Import Sorted String.
From S2P Require Import Prelude Scheduler SchedulerProofs SchedulerRun Via ViaProofs ViaRun.

(** Some flag is set and enabled. *)
Lemma flags_enabled f e : in_width 8 f ->
  truthy (Z.land (Z.land f 0x7F) e) = true <-> exists i, 0 <= i < 7 /\ Z.testbit f i = true /\ Z.testbit e i = true.
Proof.
  intros Hf. assert (forall i, 0 <= i -> Z.testbit 0x7F i = (i <? 7)) as Hm.
  { intros i Hi. change 0x7F with (Z.ones 7). destruct (Z.ltb_spec i 7); [apply Z.ones_spec_low|apply Z.ones_spec_high]; lia. }
  unfold truthy. rewrite negb_true_iff, Z.eqb_neq. split.
  - intros Hne. destruct (decide (Exists (fun i => Z.testbit f i = true /\ Z.testbit e i = true) (seqZ 0 7))) as [Hx|Hx].
    + apply list.Exists_exists in Hx as (i & Hi%elem_of_seqZ & ? & ?). exists i. split; [lia|done].
    + exfalso. apply Hne, Z.bits_inj'. intros i Hi. rewrite !Z.land_spec, Z.bits_0, (Hm i Hi).
      destruct (Z.ltb_spec i 7); [|by rewrite andb_false_r]. rewrite andb_true_r.
      destruct (Z.testbit f i) eqn:E1; [|done]. destruct (Z.testbit e i) eqn:E2; [|done].
      exfalso. apply Hx, list.Exists_exists. exists i. split; [apply elem_of_seqZ; lia|done].
  - intros (i & Hi & E1 & E2) E. pose proof (f_equal (fun x => Z.testbit x i) E) as Eb. simpl in Eb.
    rewrite !Z.land_spec, E1, E2, (Hm i), Z.bits_0 in Eb by lia. by destruct (Z.ltb_spec i 7); [|lia].
Qed.

Section Machine.
Context {W : Type} `{HostLaws W}.
Implicit Types (st : vst W) (v : via).

Inductive action := Read (addr : Z) | Write (addr value : Z) | Fire | Device.
Inductive via_step : action -> vst W -> vst W -> Prop :=
  | step_read addr x st st' : Z.land addr 1 = 0 -> via_read_uint8 addr st = Some (x, st') ->
      via_step (Read addr) st st'
  | step_write addr value st st' : Z.land addr 1 = 0 -> in_width 8 value ->
      via_write_uint8 addr value st = Some (tt, st') -> via_step (Write addr value) st st'
  | step_fire e q st st' : cpu_events (the_sched st) = e :: q -> mine e = true ->
      timestamp e <= cpu_cycles (the_sched st) -> spare_room (the_sched st) -> via_callback e (popping e q st) = Some (tt, st') ->
      via_step Fire st st'
  | step_device st st' : dev_step st st' -> via_step Device st st'.

(** Accesses that neither restart timer 1 nor clear its flag. *)
Definition spares_t1 (a : action) : bool :=
  match a with
  | Read addr => spare_read addr
  | Write addr value => spare_write addr value
  | Fire | Device => true
  end.

(** ** Steps *)

Lemma mine_cases e : mine e = true ->
  event_matches t1_event self e = true \/ event_matches t2_event self e = true \/ event_matches sr_event self e = true.
Proof. unfold mine. simpl. rewrite !orb_true_iff. naive_solver. Qed.

Definition fire_effect (e : event) (st st' : vst W) : Prop :=
  if event_matches t1_event self e
  then vinv st' /\ now (the_sched st) <= now (the_sched st') /\ t1_flag st' = true
  else effect true st st'.
Lemma via_callback_ok e q st : vinv st -> cpu_events (the_sched st) = e :: q -> mine e = true ->
  spare_room (the_sched st) ->
  wp (via_callback e) (fun _ => fire_effect e st) (popping e q st).
Proof.
  intros Hi E Hm Hroom. unfold via_callback, fire_effect. destruct (mine_cases e Hm) as [Hc|[Hc|Hc]];
    rewrite (matches_callback _ _ Hc).
  - rewrite Hc. eapply wp_mono; [by apply t1_callback_ok|]. intros ? st' [[Hi' Hn] Hf]. done.
  - assert (event_matches t1_event self e = false) as ->.
    { unfold event_matches. by rewrite (matches_callback _ _ Hc). }
    by apply t2_callback_ok.
  - assert (event_matches t1_event self e = false) as ->.
    { unfold event_matches. by rewrite (matches_callback _ _ Hc). }
    by apply sr_callback_ok.
Qed.

Lemma via_step_inv a st st' : vinv st -> via_step a st st' -> vinv st' /\ now (the_sched st) <= now (the_sched st').
Proof.
  intros Hi. destruct 1 as [addr x st st' Ha E|addr x st st' Ha Hx E|e q st st' E Hm Ht Hsp Ec|st st' Hd].
  - destruct (wp_gets_inv _ _ _ (via_read_effect addr st Hi Ha) _ _ E) as (? & ? & _). done.
  - destruct (wp_gets_inv _ _ _ (via_write_effect addr x st Hi Ha Hx) _ _ E) as (? & ? & _). done.
  - pose proof (wp_gets_inv _ _ _ (via_callback_ok e q st Hi E Hm Hsp) _ _ Ec) as Hf. unfold fire_effect in Hf.
    destruct (event_matches _ _ _); destruct Hf as (? & ? & _); done.
  - destruct (dev_step_tame st st' Hi Hd) as (? & _ & ? & _). done.
Qed.

(** Timer 1 from [t] with the value [c], until its flag goes up. *)
Definition counting (t c ff : Z) (st : vst W) : Prop :=
  let v := the_via st in
  if t1_flag st then t + (c + 1) * ff <= now (the_sched st)
  else freq_factor v = ff /\ start_timestamp (timer1 v) = t /\ start_value (timer1 v) = c /\ expired (timer1 v) = false.

Lemma counting_keeps t c ff st st' : counting t c ff st -> now (the_sched st) <= now (the_sched st') ->
  keeps_t1 (the_via st) (the_via st') -> counting t c ff st'.
Proof.
  unfold counting, t1_flag. intros Hc Hn []. rewrite k1_flag.
  destruct (Z.testbit _ 6); [lia|]. intuition congruence.
Qed.
Lemma counting_step t c ff a st st' : vinv st -> counting t c ff st -> spares_t1 a = true -> via_step a st st' ->
  counting t c ff st'.
Proof.
  intros Hi Hc Hs. destruct 1 as [addr x st st' Ha E|addr x st st' Ha Hx E|e q st st' E Hm Ht Hsp Ec|st st' Hd].
  - destruct (wp_gets_inv _ _ _ (via_read_effect addr st Hi Ha) _ _ E) as (_ & ? & Hk). eapply counting_keeps; eauto.
  - destruct (wp_gets_inv _ _ _ (via_write_effect addr x st Hi Ha Hx) _ _ E) as (_ & ? & Hk). eapply counting_keeps; eauto.
  - pose proof (wp_gets_inv _ _ _ (via_callback_ok e q st Hi E Hm Hsp) _ _ Ec) as Hf. unfold fire_effect in Hf.
    destruct (event_matches t1_event self e) eqn:Hm1.
    + destruct Hf as (_ & Hn & Hf).
      destruct (t1_pops e q st Hi E Hm1) as (_ & Hts & _). unfold deadline in Hts. change (timers _ TIMER_1) with (timer1 (the_via st)) in Hts.
      unfold counting in *. rewrite Hf. pose proof (cycles_le_now _ (hs_ok _ (b_sched _ (vi_base _ Hi)))).
      destruct (t1_flag st); [lia|]. destruct Hc as (<- & <- & <- & _). lia.
    + destruct Hf as (_ & ? & Hk). eapply counting_keeps; eauto.
  - destruct (dev_step_tame st st' Hi Hd) as (_ & Hf & ? & _). eapply counting_keeps; eauto using dev_frame_t1.
Qed.

(** ** Starting timer 1 *)

Definition loaded (value l : Z) : Z := value * 256 + l mod 256.
Lemma with_high_loaded l x : in_width 16 l -> in_width 8 x -> with_high l x = loaded x l.
Proof.
  intros [? ?] [? ?]. unfold with_high, loaded. change 0x00FF with (Z.ones 8). rewrite Z.land_ones by lia.
  rewrite Z.lor_comm, lor_shiftl_add by (unfold in_width; dlia). apply wrap_small. unfold in_width. dlia.
Qed.
Lemma flag_cleared n st st' : flags_to n st st' -> Z.testbit n 6 = false -> t1_flag st' = false.
Proof. intros (Ev & _) Hn. unfold t1_flag. rewrite Ev. cbn [ifr set_ifr]. by rewrite aggregate_low by lia. Qed.

Lemma clear_t1 st : vinv st -> wp (clear_flag IFR_T1) (fun _ st' => vinv st' /\ t1_flag st' = false /\
  now (the_sched st') = now (the_sched st) /\ timer1 (the_via st') = timer1 (the_via st) /\
  freq_factor (the_via st') = freq_factor (the_via st)) st.
Proof.
  intros Hi. eapply wp_mono; [by apply clear_inv|]. intros ? st' Hf.
  pose proof (flag_cleared _ _ _ Hf) as Hc. destruct Hf as (Ev & _ & Hi' & Hn). split; [done|]. split; [|by rewrite Ev].
  apply Hc. rewrite Z.land_spec. apply andb_false_r.
Qed.
Lemma set_t1c_high_starts x st : vinv st -> in_width 8 x ->
  let c := loaded x (latch (timer1 (the_via st))) in
  wp (set_t1c_high x) (fun _ st' => vinv st' /\ t1_flag st' = false /\
    counting (now (the_sched st)) c (freq_factor (the_via st)) st' /\
    now (the_sched st') = now (the_sched st)) st.
Proof.
  intros Hi Hx c. unfold set_t1c_high. apply wp_bind. eapply wp_mono; [by apply clear_t1|].
  intros _ st1 (Hi1 & Hf1 & Hn1 & Ht1 & Hff1). apply wp_bind, wp_modify. cbn [the_via the_sched world].
  pose proof Hi1 as [[Hr ? ?] ? ? ? ?]. pose proof (tr_latch _ (vr_t1 _ Hr)) as Hl.
  change (timers _ TIMER_1) with (timer1 (the_via st1)). rewrite (with_high_loaded _ x Hl Hx), Ht1. fold c.
  assert (in_width 16 c) as Hc by (unfold c, loaded, in_width in *; dlia).
  set (v2 := set_timers _ _ _). assert (vinv (mk_vst v2 (the_sched st1) (world st1))) as Hi2.
  { apply quiet_here; [done| |done]. destruct Hr. split; try done; [|split; cbn; by rewrite Ht1]. split; try done.
    rewrite Ht1 in vr_t1. by destruct vr_t1. }
  apply wp_bind, wp_gets. unfold id. cbn [the_via]. apply wp_bind, wp_assert.
  { destruct (vr_acr _ Hr). change (acr v2) with (acr (the_via st1)). rewrite Z.shiftr_div_pow2 by lia.
    apply andb_true_iff. rewrite !Z.leb_le. dlia. }
  apply wp_bind. apply (wp_mono _ (fun _ st3 => vinv st3 /\ the_sched st3 = the_sched st1 /\ ifr (the_via st3) = ifr v2 /\ freq_factor (the_via st3) = freq_factor v2)).
  { apply wp_when; intros _; [|done]. apply wp_modify. cbn [the_via the_sched world]. split; [|by destruct (truthy _)].
    apply (quiet_here (mk_vst v2 _ _)); [done| |by destruct (truthy _)]. cbn [the_via].
    pose proof (b_range _ (vi_base _ Hi2)) as Hr2. destruct (truthy _); [|by split; [|apply Hi2|..]].
    split; try done. destruct Hr2. split; try done. destruct vr_b. split; try done. by apply land_width. }
  intros _ st3 (Hi3 & Es3 & Ef3 & Eff3). eapply wp_mono; [apply arm_timer_ok; try apply Hi3; [by left|done]|].
  intros _ st4 (Hi4 & Ev4 & Hn4 & _). assert (t1_flag st4 = false) as Hf4.
  { unfold t1_flag. rewrite Ev4. change (Z.testbit (ifr (the_via st3)) 6 = false). by rewrite Ef3. }
  split; [done|]. split; [done|]. rewrite Hn4, Es3, Hn1. split; [|done].
  unfold counting. rewrite Hf4, Ev4. cbn. rewrite Es3, Hn1, Eff3. split; [exact Hff1|done].
Qed.

Definition any_step (st st' : vst W) : Prop := exists a, via_step a st st'.
Definition quiet_step (st st' : vst W) : Prop := exists a, spares_t1 a = true /\ via_step a st st'.
Lemma steps_inv st st' : vinv st -> rtc any_step st st' -> vinv st' /\ now (the_sched st) <= now (the_sched st').
Proof.
  intros Hi Hr. induction Hr as [st|st1 st2 st3 [a Hs] _ IH]; [split; [done|lia]|].
  destruct (via_step_inv a st1 st2 Hi Hs) as [Hi2 Hn]. destruct (IH Hi2). split; [done|lia].
Qed.
Lemma steps_counting t c ff st st' : vinv st -> counting t c ff st -> rtc quiet_step st st' ->
  vinv st' /\ counting t c ff st'.
Proof.
  intros Hi Hc Hr. induction Hr as [st|st1 st2 st3 (a & Ha & Hs) _ IH]; [done|].
  apply IH; [by apply (via_step_inv a st1)|by apply (counting_step t c ff a st1)].
Qed.

(** The counter as the registers show it. *)
Lemma read_counter t c ff st addr : vinv st -> counting t c ff st -> 0 < t -> t1_flag st = false ->
  Z.land addr 1 = 0 ->
  let n := u16 (c - (now (the_sched st) - t) / ff) in
  (reg addr = T1C_L -> exists st', via_read_uint8 addr st = Some (u8 n, st')) /\
  (reg addr = T1C_H -> exists st', via_read_uint8 addr st = Some (u8 (Z.shiftr n 8), st')).
Proof.
  intros Hi Hc Ht Hf Ha n. unfold counting in Hc. rewrite Hf in Hc. destruct Hc as (Hff & Hst & Hv & _).
  unfold via_read_uint8. fold (reg addr).
  assert (forall st', vinv st' -> timer1 (the_via st') = timer1 (the_via st) -> now (the_sched st') = now (the_sched st) ->
    freq_factor (the_via st') = ff -> read_timer TIMER_1 st' = Some (n, st')) as Hread.
  { intros st' Hi' Et En Ef. destruct (read_timer_ok TIMER_1 st' Hi' ltac:(by left)) as (x & st'' & -> & -> & ->).
    change (timers _ TIMER_1) with (timer1 (the_via st')). rewrite Et, En, Ef, Hst, Hv.
    by rewrite (proj2 (Z.eqb_neq t 0)) by lia. }
  unfold mbind, vm_bind, vassert. rewrite (proj2 (Z.eqb_eq _ _) Ha). simpl. split; intros ->; simpl.
  - destruct (clear_t1 st Hi) as ([] & st1 & E & Hi1 & _ & Hn1 & Ht1 & Hf1). rewrite E. simpl.
    rewrite Hread by (done || congruence). simpl. by eexists.
  - rewrite Hread by done. simpl. by eexists.
Qed.

(** C20: writing the high byte of timer 1's counter starts it.  In a state with
    the invariant of via_reachable_ok, whose clock has left cycle 0 (a timer
    armed at cycle 0 counts as stopped: timer_at_cycle_0_is_stopped), a write to
    T1C-H at an even address makes the counter the byte written and the low latch
    byte, the flag is clear, and from then on, whatever other registers are
    accessed, whichever events fire and whatever the devices do within their
    laws, as long as nobody restarts the timer or clears its flag: the flag is
    down before the counter has passed zero, it is up within one instruction
    after that, and until it goes up the counter reads as the loaded value minus
    the VIA clock ticks since, modulo 2^16. *)
Theorem timer1_correct addr value st :
  vinv st -> Z.land addr 1 = 0 -> reg addr = T1C_H -> in_width 8 value ->
  let t := now (the_sched st) in
  let ff := freq_factor (the_via st) in
  let c := loaded value (latch (timer1 (the_via st))) in
  exists st1, via_write_uint8 addr value st = Some (tt, st1) /\ t1_flag st1 = false /\
  forall st2, rtc quiet_step st1 st2 ->
    (t1_flag st2 = true -> t + (c + 1) * ff <= now (the_sched st2)) /\
    (t + (c + 1) * ff + cpi (the_sched st2) <= now (the_sched st2) -> t1_flag st2 = true) /\
    (t1_flag st2 = false -> forall a, Z.land a 1 = 0 ->
       let n := u16 (c - (now (the_sched st2) - t) / ff) in
       (reg a = T1C_L -> exists st', via_read_uint8 a st2 = Some (u8 n, st')) /\
       (reg a = T1C_H -> exists st', via_read_uint8 a st2 = Some (u8 (Z.shiftr n 8), st'))).
Proof.
  intros Hi Ha Hreg Hx t ff c.
  destruct (clear_t1 st Hi) as ([] & st0 & E0 & Hi0 & _ & Hn0 & Ht0 & Hff0).
  destruct (set_t1c_high_starts value st0 Hi0 Hx) as ([] & st1 & E1 & Hi1 & Hf1 & Hc1 & Hn1).
  rewrite Ht0, Hff0, Hn0 in Hc1. fold c ff t in Hc1. exists st1. split; [|split; [done|]].
  { unfold via_write_uint8. fold (reg addr). rewrite Hreg. unfold mbind, vm_bind, vassert.
    rewrite (proj2 (Z.eqb_eq _ _) Ha). simpl. by rewrite E0. }
  intros st2 Hr. destruct (steps_counting t c ff st1 st2 Hi1 Hc1 Hr) as [Hi2 Hc2].
  assert (0 < t) as Ht by apply Hi. split; [|split].
  - intros Hf. unfold counting in Hc2. by rewrite Hf in Hc2.
  - intros Hlate. destruct (t1_flag st2) eqn:Hf; [done|]. exfalso. unfold counting in Hc2. rewrite Hf in Hc2.
    destruct Hc2 as (Hff & Hst & Hv & He). pose proof Hi2 as [[_ _ Hs] _ [_ Hev] _ _].
    unfold ticking in Hev. change (timers _ TIMER_1) with (timer1 (the_via st2)) in Hev.
    rewrite He, Hst, (proj2 (Z.eqb_neq t 0)) in Hev by lia. simpl in Hev.
    assert (In (mk_event (deadline (the_via st2) TIMER_1) t1_event self 0) (cpu_events (the_sched st2))) as Hin.
    { apply (filter_In (event_matches t1_event self)). unfold evs in Hev. change (timer_event TIMER_1) with t1_event in Hev.
      rewrite Hev. by left. }
    pose proof (hs_ok _ Hs) as Hok. pose proof (now_le_end _ Hok).
    pose proof (proj1 (Forall_forall _ _) (ok_late _ Hok) _ Hin) as Hl. simpl in Hl.
    unfold deadline in Hl. change (timers _ TIMER_1) with (timer1 (the_via st2)) in Hl. rewrite Hst, Hv, Hff in Hl. lia.
  - intros Hf a Ha'. by apply (read_counter t c ff st2 a).
Qed.

(** ** From reset *)

Lemma reset_inv ff s w : 0 <= ff < 256 -> host_sched s -> Forall (fun cb => evs cb s = []) via_events ->
  irq_line w = false -> world_wf w -> vinv (mk_vst (reset_via ff) s w).
Proof.
  intros Hff Hs He Hl Hw. rewrite Forall_forall in He. pose proof (hs_now s Hs).
  assert (via_range (reset_via ff)).
  { split; try done. simpl. unfold DEFAULT_FREQ_FACTOR. destruct (Z.eqb_spec ff 0); lia. }
  split; [done|done|..].
  - split; [cbn; lia|]. apply He. simpl. tauto.
  - split; [cbn; lia|]. apply He. simpl. tauto.
  - apply He. simpl. tauto.
Qed.

(** Registering an event type makes it known, and forgets none. *)
Definition known (cb : Z) (l : list event_type) : Prop := exists t, In t l /\ et_source t = self /\ et_callback t = cb.
Lemma known_found cb s : known cb (event_types s) -> is_Some (find_event_type s self cb).
Proof.
  intros (t & Ht & Hs & Hc). unfold find_event_type.
  assert (t ∈ filter (fun t => et_source t = self /\ et_callback t = cb) (event_types s)) as Hin.
  { apply list_elem_of_filter. split; [done|]. by apply list_elem_of_In. }
  destruct (filter _ _); [by apply not_elem_of_nil in Hin|by eexists].
Qed.
Lemma rename_known sn en cb l l' : rename_type sn en self cb l = Some l' ->
  known cb l' /\ forall cb', known cb' l -> known cb' l'.
Proof.
  revert l'. induction l as [|t l IH]; intros l'; simpl; [done|]. destruct (same_type self cb t) eqn:E.
  - intros [= <-]. apply andb_true_iff in E as [E1%Z.eqb_eq E2%Z.eqb_eq].
    split; [by eexists; split; [by left|]|]. intros cb' (t' & [<-|Hin] & Hs & Hc).
    + exists (mk_event_type (name64 sn) self (name64 en) cb). split; [by left|]. split; [done|]. simpl. congruence.
    + exists t'. split; [by right|done].
  - destruct (rename_type _ _ _ _ l) as [l1|]; [|done]. simpl. intros [= <-]. destruct (IH l1 eq_refl) as [(t1 & ? & ?) Hk].
    split; [exists t1; split; [by right|done]|]. intros cb' (t' & [<-|Hin] & Hsc).
    + exists t. split; [by left|done].
    + destruct (Hk cb') as (t2 & ? & ?); [by exists t'|]. exists t2. split; [by right|done].
Qed.
Lemma new_type_known sn en cb s s' : scheduler_new_event_type sn self en cb s = Some s' ->
  known cb (event_types s') /\ forall cb', known cb' (event_types s) -> known cb' (event_types s').
Proof.
  unfold scheduler_new_event_type, gs_assert. intros E. repeat case_match; try discriminate E; simpl in E; try discriminate E.
  - injection E as <-. by eapply rename_known.
  - injection E as <-. simpl. split.
    + eexists. split; [apply in_app_iff; right; by left|done].
    + intros cb' (t & Hin & ?). exists t. split; [apply in_app_iff; by left|done].
Qed.
Lemma via_init_reset ff name st st' : via_init ff name None st = Some (tt, st') ->
  the_via st' = reset_via ff /\ Forall (fun cb => known cb (event_types (the_sched st'))) via_events.
Proof.
  unfold via_init, mbind, vm_bind, modify, on_sched. simpl. intros E.
  destruct (scheduler_new_event_type _ _ "t1"%string _ _) as [s1|] eqn:E1; [|done]. simpl in E.
  destruct (scheduler_new_event_type _ _ "t2"%string _ _) as [s2|] eqn:E2; [|done]. simpl in E.
  destruct (scheduler_new_event_type _ _ "sr"%string _ _) as [s3|] eqn:E3; [|done]. simpl in E. injection E as <-. simpl.
  apply new_type_known in E1 as [K1 _], E2 as [K2 K2'], E3 as [K3 K3'].
  split; [done|]. repeat constructor; auto.
Qed.

(** C37: initialise a VIA, and let it run from any later state of its scheduler
    whose clock has left cycle 0 (a timer started at cycle 0 breaks the claims
    below: timer_at_cycle_0_is_stopped), in which the scheduler's invariant
    holds, the VIA's event types and those of the machine are registered, no
    event of the VIA is queued and room for its three is left, with the interrupt
    line down.  Let registers be read and written at even addresses, events fire
    and devices drive its pins within their laws, in any order.  In every state
    that is reached the interrupt line is up exactly when a flag of IFR is set
    whose bit in IER is set; IFR bit 7 shows the line; a timer has exactly one
    event in the scheduler's queue, due when its counter passes zero, while it has
    yet to run out, and none otherwise; and no access to an even address fails
    an assertion, nor does the callback of an event of the VIA, as long as the
    event queue is not full but for five entries. *)
Theorem via_reachable_ok ff name (st0 st1 : vst W) s w st :
  0 <= ff < 256 -> via_init ff name None st0 = Some (tt, st1) ->
  sched_ok s -> 0 < now s -> incl (event_types (the_sched st1)) (event_types s) ->
  Forall (fun e => mine e = false) (cpu_events s) -> Z.of_nat (length (cpu_events s)) <= MAX_SANE_EVENTS - 3 ->
  Forall (fun p => is_Some (find_event_type s p.1 p.2)) machine_types -> 1000 <= frequency s < 2 ^ 32 ->
  irq_line w = false -> world_wf w ->
  rtc any_step (mk_vst (the_via st1) s w) st ->
  let v := the_via st in
  (irq_line (world st) = true <-> exists i, 0 <= i < 7 /\ Z.testbit (ifr v) i = true /\ Z.testbit (ier v) i = true) /\
  Z.testbit (ifr v) 7 = irq_line (world st) /\
  (forall i, i = TIMER_1 \/ i = TIMER_2 ->
     evs (timer_event i) (the_sched st) =
       if ticking (timers v i) then [mk_event (deadline v i) (timer_event i) self 0] else []) /\
  (forall addr, Z.land addr 1 = 0 -> exists x st', via_read_uint8 addr st = Some (x, st')) /\
  (forall addr x, Z.land addr 1 = 0 -> in_width 8 x -> exists st', via_write_uint8 addr x st = Some (tt, st')) /\
  (forall e q, cpu_events (the_sched st) = e :: q -> mine e = true -> spare_room (the_sched st) ->
     exists st', via_callback e (popping e q st) = Some (tt, st')).
Proof.
  intros Hff Hinit Hok Hnow Hty Hnone Hroom Hmt Hfr Hline Hw Hr. apply via_init_reset in Hinit as [Ev Hk].
  assert (host_sched s) as Hs.
  { split; try done.
    - eapply Forall_impl; [|exact Hk]. intros cb (t & Hin & Ht). apply known_found. exists t. auto.
    - unfold others. pose proof (List.filter_length_le (fun e => negb (mine e)) (cpu_events s)). lia. }
  destruct (steps_inv (mk_vst (the_via st1) s w) st) as [Hi _]; [|done|].
  { rewrite Ev. apply reset_inv; try done. apply Forall_forall. intros cb Hcb. apply filter_none.
    eapply Forall_impl; [|exact Hnone]. intros e He. cbn beta in He. destruct (event_matches cb self e) eqn:E; [|done].
    by rewrite (mine_matches cb e Hcb E) in He. }
  clear -Hi H1. pose proof Hi as [[Hr [Hl _] Hs] Hq [_ T1] [_ T2] Hsh]. intros v.
  assert (Z.testbit (ifr v) 7 = truthy (Z.land (Z.land (ifr v) 0x7F) (ier v))) as E7.
  { unfold irq_wf in Hq. fold v in Hq. rewrite Hq at 1. apply aggregate_high. }
  split; [|split; [by rewrite Hl|split; [by intros i [-> | ->]|split; [|split]]]].
  - rewrite Hl. fold v. rewrite E7. apply flags_enabled, Hr.
  - intros addr Ha. destruct (via_read_effect addr st Hi Ha) as (x & st' & E & _). eauto.
  - intros addr x Ha Hx. destruct (via_write_effect addr x st Hi Ha Hx) as ([] & st' & E & _). eauto.
  - intros e q E Hm Hsp. destruct (via_callback_ok e q st Hi E Hm Hsp) as ([] & st' & Ec & _). eauto.
Qed.
End Machine.
