(* ===== verification/Rtc.v ===== *)
(** * The real-time clock and its parameter RAM

    Model of src/core/peripherals/rtc.c: the serial protocol on three pins of
    the VIA's port B, the command decoding, and the one-second tick.  [None]
    is a failed assert; the bit rtc_input puts on the VIA's data pin and the
    pulse of the tick are returned to the caller. *)
From Stdlib Require Import String.
From S2P Require Import Prelude Scheduler.
Local Open Scope string_scope.
Local Open Scope Z_scope.

Record rtc := mk_rtc {
  seconds : Z;
  tx_bits : Z;
  rx_bits : Z;
  clock : bool;
  command : Z;
  shift : Z;
  read_only : Z;
  pram : list Z;
  extended : bool;
}.
Definition rtc_eta (r : rtc) : rtc :=
  mk_rtc (seconds r) (tx_bits r) (rx_bits r) (clock r) (command r) (shift r) (read_only r) (pram r) (extended r).
Ltac rtc_set proj x r := field_set rtc_eta proj x r.
Definition set_seconds (x : Z) (r : rtc) : rtc := ltac:(rtc_set seconds x r).
Definition set_tx_bits (x : Z) (r : rtc) : rtc := ltac:(rtc_set tx_bits x r).
Definition set_rx_bits (x : Z) (r : rtc) : rtc := ltac:(rtc_set rx_bits x r).
Definition set_clock (x : bool) (r : rtc) : rtc := ltac:(rtc_set clock x r).
Definition set_command (x : Z) (r : rtc) : rtc := ltac:(rtc_set command x r).
Definition set_shift (x : Z) (r : rtc) : rtc := ltac:(rtc_set shift x r).
Definition set_read_only (x : Z) (r : rtc) : rtc := ltac:(rtc_set read_only x r).
Definition set_pram (x : list Z) (r : rtc) : rtc := ltac:(rtc_set pram x r).

Definition MAC_TO_UNIX_EPOCH : Z := 2082844800.
Definition IS_READ (cmd : Z) : bool := truthy (Z.land cmd 0x80).
Definition IS_EXTENDED (cmd : Z) : bool := Z.land (Z.shiftr cmd 3) 0x0F =? 7.

Definition CMD_SECONDS_REG_0 : Z := 0x01.
Definition CMD_SECONDS_REG_1 : Z := 0x05.
Definition CMD_SECONDS_REG_2 : Z := 0x09.
Definition CMD_SECONDS_REG_3 : Z := 0x0D.
Definition CMD_TEST : Z := 0x31.
Definition CMD_WRITE_PROTECT : Z := 0x35.

Definition legacy_pram_addr (r : rtc) (cmd : Z) : Z :=
  if Z.land cmd 0x70 =? 0x20 then (if extended r then 0x08 else 0x10) + Z.land (Z.shiftr cmd 2) 0x03
  else if Z.land cmd 0x40 =? 0x40 then (if extended r then 0x10 else 0x00) + Z.land (Z.shiftr cmd 2) 0x0F
  else -1.

Definition pram_at (r : rtc) (addr : Z) : Z := nth (Z.to_nat addr) (pram r) 0.
Definition pram_put (addr x : Z) (r : rtc) : rtc := set_pram (<[Z.to_nat addr := x]> (pram r)) r.

(** case REG: case REG + 16: *)
Definition is_reg (cmd reg : Z) : bool := (cmd =? reg) || (cmd =? reg + 16).

Definition read_cmd (r : rtc) (cmd : Z) : option Z :=
  gs_assert (truthy (Z.shiftr cmd 7));;
  let c := Z.land cmd 0x7F in
  if is_reg c CMD_SECONDS_REG_0 then Some (Z.land (seconds r) 0xFF)
  else if is_reg c CMD_SECONDS_REG_1 then Some (Z.land (Z.shiftr (seconds r) 8) 0xFF)
  else if is_reg c CMD_SECONDS_REG_2 then Some (Z.land (Z.shiftr (seconds r) 16) 0xFF)
  else if is_reg c CMD_SECONDS_REG_3 then Some (Z.land (Z.shiftr (seconds r) 24) 0xFF)
  else if c =? CMD_TEST then Some 0
  else if c =? CMD_WRITE_PROTECT then Some 0
  else
    let addr := legacy_pram_addr r cmd in
    Some (if 0 <=? addr then pram_at r addr else 0).

Definition write_cmd (cmd x : Z) (r : rtc) : option rtc :=
  gs_assert (Z.shiftr cmd 7 =? 0);;
  if negb (cmd =? CMD_WRITE_PROTECT) && truthy (read_only r) then Some r
  else if is_reg cmd CMD_SECONDS_REG_0 then
    Some (set_seconds (Z.lor (Z.land (seconds r) 0xFFFFFF00) x) r)
  else if is_reg cmd CMD_SECONDS_REG_1 then
    Some (set_seconds (Z.lor (Z.land (seconds r) 0xFFFF00FF) (Z.shiftl x 8)) r)
  else if is_reg cmd CMD_SECONDS_REG_2 then
    Some (set_seconds (Z.lor (Z.land (seconds r) 0xFF00FFFF) (Z.shiftl x 16)) r)
  else if is_reg cmd CMD_SECONDS_REG_3 then
    Some (set_seconds (Z.lor (Z.land (seconds r) 0x00FFFFFF) (Z.shiftl x 24)) r)
  else if cmd =? CMD_TEST then Some r
  else if cmd =? CMD_WRITE_PROTECT then Some (set_read_only (Z.land (Z.shiftr x 7) 1) r)
  else
    let wa := legacy_pram_addr r cmd in
    Some (if 0 <=? wa then pram_put wa x r else r).

(** The address in the two bytes of an extended command. *)
Definition ext_address (cmd1 cmd2 : Z) : Z :=
  Z.lor (u8 (Z.shiftl (Z.land cmd1 0x07) 5)) (Z.land (Z.shiftr cmd2 2) 0x1F).
Definition read_ext (r : rtc) (cmd1 cmd2 : Z) : Z := pram_at r (ext_address cmd1 cmd2).
Definition write_ext (cmd1 cmd2 x : Z) (r : rtc) : rtc := pram_put (ext_address cmd1 cmd2) x r.

(** The byte (or the last two bytes) of a command has arrived. *)
Definition received (r : rtc) : option rtc :=
  if command r =? 0 then
    if IS_READ (shift r) && negb (IS_EXTENDED (shift r)) then
      x ← read_cmd r (u8 (shift r));
      Some (set_tx_bits 8 (set_shift x r))
    else
      let r := set_command (u8 (shift r)) r in
      Some (set_rx_bits (if IS_EXTENDED (command r) && negb (IS_READ (command r)) then 16 else 8) r)
  else if IS_EXTENDED (command r) then
    let r' :=
      if IS_READ (command r) then set_tx_bits 8 (set_shift (read_ext r (command r) (u8 (shift r))) r)
      else set_rx_bits 8 (write_ext (command r) (u8 (Z.shiftr (shift r) 8)) (Z.land (shift r) 0xFF) r) in
    Some (set_command 0 r')
  else
    gs_assert (negb (IS_READ (command r)));;
    r ← write_cmd (command r) (u8 (shift r)) r;
    Some (set_rx_bits 8 (set_command 0 r)).

(** A rising clock edge of the enabled chip: a bit in, or a bit out onto port
    B, pin 0. *)
Definition shift_bit (data : bool) (r : rtc) : option (rtc * option bool) :=
  if truthy (rx_bits r) then
    let r := set_shift (u16 (Z.lor (Z.shiftl (shift r) 1) (cbool data))) r in
    let r := set_rx_bits (rx_bits r - 1) r in
    r ← (if rx_bits r =? 0 then received r else Some r);
    Some (r, None)
  else
    let out := Some (truthy (Z.land (Z.shiftr (shift r) 7) 1)) in
    let r := set_tx_bits (tx_bits r - 1) r in
    Some (if tx_bits r =? 0 then set_rx_bits 8 (set_command 0 r)
          else set_shift (u16 (Z.shiftl (shift r) 1)) r, out).

Definition rtc_input (disable clk data : bool) (r : rtc) : option (rtc * option bool) :=
  if bool_decide (clk = clock r) then Some (r, None)
  else
    let r := set_clock clk r in
    if negb clk then Some (r, None)
    else if disable then Some (set_shift 0 (set_rx_bits 8 (set_tx_bits 0 (set_command 0 r))), None)
    else
      gs_assert ((0 <=? rx_bits r) && (0 <=? tx_bits r) && ((0 <? rx_bits r) || (0 <? tx_bits r)));;
      '(r, out) ← shift_bit data r;
      gs_assert ((truthy (rx_bits r) && (tx_bits r =? 0)) || ((rx_bits r =? 0) && truthy (tx_bits r)));;
      Some (r, out).

(** one_second_interrupt, and the event it schedules again; the pulse on the
    VIA's CA2 is the caller's. *)
Definition one_second_event : Z := 5.
Definition one_second_tick (r : rtc) : rtc := set_seconds (u32 (seconds r + 1)) r.
Definition schedule_second (self : Z) : sched -> option sched :=
  scheduler_new_cpu_event one_second_event self 0 0 1000000000.

Definition wall_clock_seconds (unix_time : Z) : Z := u32 (u64 (unix_time + MAC_TO_UNIX_EPOCH)).
Definition rtc_set_seconds (mac_seconds : Z) (r : rtc) : rtc := set_seconds mac_seconds r.
Definition rtc_pram_read (r : rtc) (addr : Z) : Z := pram_at r addr.
Definition rtc_pram_write (addr x : Z) (r : rtc) : bool * rtc :=
  if truthy (read_only r) then (false, r) else (true, pram_put addr x r).

(** The plain data before the VIA pointer; the chip variant is not saved. *)
Definition rtc_checkpoint (r : rtc) : rtc := r.
Definition rtc_init (self unix_time : Z) (checkpoint : option rtc) (ext : bool) (s : sched) : option (rtc * sched) :=
  let r := mk_rtc (wall_clock_seconds unix_time) 0 0 false 0 0 0 (replicate 256 0) ext in
  s ← scheduler_new_event_type "rtc" self "one_second" one_second_event s;
  match checkpoint with
  | Some c => Some (mk_rtc (seconds c) (tx_bits c) (rx_bits c) (clock c) (command c) (shift c) (read_only c) (pram c) ext, s)
  | None => s ← schedule_second self s; Some (r, s)
  end.

(** ** The shell's view: rtc.pram.peek, .poke, .dump, .snapshot, .restore and
    .validate.  Writes go a byte at a time and stop at the first byte that the
    write protection refuses. *)
Fixpoint pram_write_all (l : list (Z * Z)) (r : rtc) : bool * rtc :=
  match l with
  | [] => (true, r)
  | (addr, x) :: l =>
      let '(ok, r) := rtc_pram_write addr x r in
      if ok : bool then pram_write_all l r else (false, r)
  end.
Definition from_addr (addr : Z) (n : nat) : list Z := map (fun i => u8 (addr + Z.of_nat i)) (seq 0 n).

Definition rtc_pram_method_peek (addr : Z) (r : rtc) : option Z :=
  if 0xFF <? addr then None else Some (rtc_pram_read r (u8 addr)).
Definition rtc_pram_method_poke (addr : Z) (bs : list Z) (r : rtc) : bool * rtc :=
  let n := Z.of_nat (length bs) in
  if n =? 0 then (false, r)
  else if (0xFF <? addr) || (0x100 <? addr + n) then (false, r)
  else pram_write_all (combine (from_addr addr (length bs)) bs) r.
(** The buffer of dump has 256 bytes; [Overrun] is a write past its end. *)
Inductive dump_result := Dump_error | Dump_bytes (bs : list Z) | Overrun.
Definition rtc_pram_method_dump (addr n : Z) (r : rtc) : dump_result :=
  if (0xFF <? addr) || (n =? 0) || (0x100 <? u64 (addr + n)) then Dump_error
  else if 256 <? n then Overrun
  else Dump_bytes (map (rtc_pram_read r) (from_addr addr (Z.to_nat n))).
Definition rtc_pram_method_snapshot (r : rtc) : list Z := map (rtc_pram_read r) (from_addr 0 256).
Definition rtc_pram_method_restore (bs : list Z) (r : rtc) : bool * rtc :=
  if negb (Z.of_nat (length bs) =? 256) then (false, r)
  else pram_write_all (combine (from_addr 0 256) bs) r.
Definition rtc_pram_method_validate (r : rtc) : bool * rtc :=
  pram_write_all [(0x00, 0xA8); (0x0C, 0x4E); (0x0D, 0x75); (0x0E, 0x4D); (0x0F, 0x63)] r.
