(* ===== verification/RtcProofs.v ===== *)
(** * The serial protocol of the real-time clock

    The bit-level machine of rtc.c against the chip its documentation
    describes: clocking in the bytes of a command, most significant bit first,
    has the effect of the command on the chip's registers and, for a read,
    shifts out the byte it names. *)
From S2P Require Import Prelude Scheduler Rtc.

(** ** The specification *)

Inductive request :=
  | Read (cmd : Z)               (* a register or a byte of the 20-byte PRAM *)
  | Write (cmd x : Z)
  | ReadExt (cmd1 cmd2 : Z)      (* a byte of the 256-byte PRAM *)
  | WriteExt (cmd1 cmd2 x : Z).

Definition wire (q : request) : list Z :=
  match q with
  | Read c => [c]
  | Write c x => [c; x]
  | ReadExt c1 c2 => [c1; c2]
  | WriteExt c1 c2 x => [c1; c2; x]
  end.
Definition byte (x : Z) : Prop := in_width 8 x.
Definition request_ok (q : request) : Prop :=
  Forall byte (wire q) /\
  match q with
  | Read c => IS_READ c = true /\ IS_EXTENDED c = false
  | Write c x => IS_READ c = false /\ IS_EXTENDED c = false /\ c <> 0
  | ReadExt c _ => IS_READ c = true /\ IS_EXTENDED c = true
  | WriteExt c _ _ => IS_READ c = false /\ IS_EXTENDED c = true
  end.

(** The effect of a request and the byte it returns. *)
Definition perform (q : request) (r : rtc) : option (rtc * option Z) :=
  match q with
  | Read c => x ← read_cmd r c; Some (r, Some x)
  | Write c x => r ← write_cmd c x r; Some (r, None)
  | ReadExt c1 c2 => Some (r, Some (read_ext r c1 c2))
  | WriteExt c1 c2 x => Some (write_ext c1 c2 x r, None)
  end.

(** ** The wires *)

(** A clock pulse with the chip enabled: the bit is set up, the clock raised
    and lowered. *)
Definition clock_bit (d : bool) (r : rtc) : option (rtc * option bool) :=
  '(r, o) ← rtc_input false true d r;
  '(r, _) ← rtc_input false false d r;
  Some (r, o).
Fixpoint clock_bits (ds : list bool) (r : rtc) : option (rtc * list (option bool)) :=
  match ds with
  | [] => Some (r, [])
  | d :: ds => '(r, o) ← clock_bit d r; '(r, os) ← clock_bits ds r; Some (r, o :: os)
  end.
Definition msb_bits (b : Z) : list bool := map (fun i => Z.testbit b (7 - Z.of_nat i)) (seq 0 8).

(** Between commands. *)
Record ready (r : rtc) : Prop := {
  rd_clock : clock r = false;
  rd_command : command r = 0;
  rd_rx : rx_bits r = 8;
  rd_tx : tx_bits r = 0;
  rd_pram : Forall byte (pram r);
}.
(** What the chip stores. *)
Definition stored (r : rtc) : Z * Z * list Z * bool := (seconds r, read_only r, pram r, extended r).

(** ** Receiving *)

Definition shift_in (x : Z) (ds : list bool) : Z :=
  fold_left (fun x d => u16 (Z.lor (Z.shiftl x 1) (cbool d))) ds x.
Definition listening (r : rtc) (n : Z) : Prop := clock r = false /\ tx_bits r = 0 /\ rx_bits r = n.

Lemma clock_bit_rx d r n : listening r n -> 1 < n ->
  clock_bit d r = Some (set_rx_bits (n - 1) (set_shift (shift_in (shift r) [d]) r), None).
Proof.
  intros (Hc & Ht & Hr) Hn. destruct r as [sec tx rx clk cmd sh ro pr ext]. simpl in *. subst.
  unfold clock_bit, rtc_input, Rtc.shift_bit, truthy. simpl.
  rewrite (proj2 (Z.leb_le 0 n)), (proj2 (Z.ltb_lt 0 n)), (proj2 (Z.eqb_neq n 0)), (proj2 (Z.eqb_neq (n - 1) 0)) by lia.
  simpl. rewrite (proj2 (Z.eqb_neq (n - 1) 0)) by lia. done.
Qed.
Lemma clock_bits_app l1 l2 r r1 r2 o1 o2 : clock_bits l1 r = Some (r1, o1) -> clock_bits l2 r1 = Some (r2, o2) ->
  clock_bits (l1 ++ l2) r = Some (r2, o1 ++ o2).
Proof.
  revert r o1. induction l1 as [|d l1 IH]; intros r o1; simpl.
  - by intros [= -> <-] ->.
  - destruct (clock_bit d r) as [[r' o]|]; [|done]. simpl. destruct (clock_bits l1 r') as [[r'' os]|] eqn:E; [|done].
    simpl. intros [= -> <-] E2. by rewrite (IH r' os E E2).
Qed.
Lemma clock_bits_rx ds r n : listening r n -> Z.of_nat (length ds) < n ->
  clock_bits ds r = Some (set_rx_bits (n - Z.of_nat (length ds)) (set_shift (shift_in (shift r) ds) r),
                          replicate (length ds) None).
Proof.
  revert r n. induction ds as [|d ds IH]; intros r n Hl Hn.
  - simpl. destruct Hl as (? & ? & <-). rewrite Z.sub_0_r. by destruct r.
  - cbn [length] in Hn. cbn [clock_bits]. rewrite (clock_bit_rx d r n Hl) by lia. cbn [mbind option_bind].
    rewrite (IH _ (n - 1)) by (destruct Hl as (? & ? & ?); done || lia). cbn [mbind option_bind length replicate].
    replace (n - Z.of_nat (S (length ds))) with (n - 1 - Z.of_nat (length ds)) by lia. done.
Qed.
(** The last bit completes the command. *)
Lemma clock_bit_last d r r' : listening r 1 ->
  received (set_rx_bits 0 (set_shift (shift_in (shift r) [d]) (set_clock true r))) = Some r' ->
  clock r' = true ->
  (truthy (rx_bits r') && (tx_bits r' =? 0)) || ((rx_bits r' =? 0) && truthy (tx_bits r')) = true ->
  clock_bit d r = Some (set_clock false r', None).
Proof.
  intros (Hc & Ht & Hr) E Hc' Ha. destruct r as [sec tx rx clk cmd sh ro pr ext]. simpl in *. subst.
  unfold clock_bit, rtc_input, Rtc.shift_bit. cbn -[received u16] in *. rewrite bool_decide_false by done.
  change (1 - 1) with 0. cbn [Z.eqb]. rewrite E. cbn [mbind option_bind]. rewrite Ha. cbn [gs_assert mbind option_bind].
  by rewrite Hc', bool_decide_false.
Qed.
Lemma shift_in_app x l1 l2 : shift_in x (l1 ++ l2) = shift_in (shift_in x l1) l2.
Proof. apply fold_left_app. Qed.

Definition settled (r : rtc) : bool :=
  clock r && ((truthy (rx_bits r) && (tx_bits r =? 0)) || ((rx_bits r =? 0) && truthy (tx_bits r))).
Definition latched (ds : list bool) (r : rtc) : rtc :=
  set_rx_bits 0 (set_shift (shift_in (shift r) ds) (set_clock true r)).
Lemma clock_bits_full ds r r' : listening r (Z.of_nat (length ds)) -> ds <> [] ->
  received (latched ds r) = Some r' -> settled r' = true ->
  clock_bits ds r = Some (set_clock false r', replicate (length ds) None).
Proof.
  intros Hl Hne E [Hc Ha]%andb_true_iff. destruct (exists_last Hne) as (l & d & ->).
  rewrite length_app in *. cbn [length] in *. rewrite Nat.add_1_r in *.
  pose proof (clock_bits_rx l r _ Hl ltac:(lia)) as Hfirst. set (r1 := set_rx_bits _ _) in Hfirst.
  assert (clock_bits [d] r1 = Some (set_clock false r', [None])) as Hlast.
  { cbn [clock_bits]. rewrite (clock_bit_last d r1 r'); [done| |..].
    - destruct Hl as (? & ? & ?). repeat split; try done. cbn. lia.
    - rewrite <- E. unfold latched. by rewrite shift_in_app.
    - done.
    - done. }
  rewrite (clock_bits_app l [d] r _ _ _ _ Hfirst Hlast). by rewrite replicate_S_end.
Qed.

(** ** Bytes on the wire *)

Lemma shift_bit_sum x d : u16 (Z.lor (Z.shiftl x 1) (cbool d)) = u16 (2 * x + cbool d).
Proof. rewrite lor_shiftl_add by (destruct d; unfold in_width; simpl; lia). f_equal. lia. Qed.
Lemma msb_value b : byte b -> fold_left (fun a d => 2 * a + cbool d) (msb_bits b) 0 = b.
Proof.
  intros Hb. apply Z.eqb_eq. revert b Hb. intros b.
  apply (forall_bits_width 8 (fun b => fold_left (fun a d => 2 * a + cbool d) (msb_bits b) 0 =? b)). vm_compute. reflexivity.
Qed.
Lemma shift_in_byte x b : byte b -> shift_in x (msb_bits b) = u16 (x * 256 + b).
Proof.
  intros Hb. rewrite <- (msb_value b Hb) at 2. unfold msb_bits, shift_in. cbn [map seq fold_left].
  rewrite !shift_bit_sum. unfold u16, wrap. dlia.
Qed.
Lemma low_byte x b : byte b -> u8 (u16 (x * 256 + b)) = b.
Proof. intros [? ?]. unfold u8, u16, wrap. dlia. Qed.
Lemma high_byte x b c : byte b -> byte c -> u8 (Z.shiftr (u16 (u16 (x * 256 + b) * 256 + c)) 8) = b.
Proof. intros [? ?] [? ?]. unfold u8, u16, wrap. rewrite Z.shiftr_div_pow2 by lia. dlia. Qed.
Lemma land_255 x : Z.land x 0xFF = u8 x.
Proof. change 0xFF with (Z.ones 8). by rewrite Z.land_ones. Qed.
Lemma IS_READ_low x : IS_READ x = IS_READ (u8 x).
Proof.
  unfold IS_READ. f_equal. rewrite <- land_255, <- Z.land_assoc. done.
Qed.
Lemma IS_EXTENDED_low x : IS_EXTENDED x = IS_EXTENDED (u8 x).
Proof.
  unfold IS_EXTENDED. f_equal. change 0x0F with (Z.ones 4). rewrite !Z.land_ones, !Z.shiftr_div_pow2 by lia.
  unfold u8, wrap. dlia.
Qed.

(** ** Sending *)

Fixpoint outs_of (x : Z) (n : nat) : list (option bool) :=
  match n with
  | O => []
  | S n => Some (truthy (Z.land (Z.shiftr x 7) 1)) :: outs_of (u16 (Z.shiftl x 1)) n
  end.
Lemma outs_of_byte b : byte b -> outs_of b 8 = Some <$> msb_bits b.
Proof.
  intros Hb. apply (bool_decide_unpack _).
  refine (Is_true_true_2 _ (forall_bits_width 8 (fun b => bool_decide (outs_of b 8 = Some <$> msb_bits b)) b _ Hb)).
  vm_compute. reflexivity.
Qed.

Lemma clock_bits_cons d ds r :
  clock_bits (d :: ds) r = ('(r, o) ← clock_bit d r; '(r, os) ← clock_bits ds r; Some (r, o :: os)).
Proof. done. Qed.
(** The chip drives the data line until its byte is out. *)
Lemma clock_bits_tx ds r : clock r = false -> rx_bits r = 0 -> tx_bits r = Z.of_nat (length ds) -> ds <> [] ->
  exists sh, clock_bits ds r = Some (set_shift sh (set_rx_bits 8 (set_command 0 (set_tx_bits 0 r))),
                                     outs_of (shift r) (length ds)).
Proof.
  revert r. induction ds as [|d ds IH]; intros r Hc Hr Ht Hne; [done|].
  destruct r as [sec tx rx clk cmd sh ro pr ext]. cbn [clock rx_bits tx_bits] in Hc, Hr, Ht. subst.
  destruct ds as [|d' ds].
  - exists sh. reflexivity.
  - set (n := Z.of_nat (length (d :: d' :: ds))) in *.
    assert (1 < n) by (unfold n; cbn [length]; lia).
    assert (clock_bit d (mk_rtc sec n 0 false cmd sh ro pr ext) =
      Some (mk_rtc sec (n - 1) 0 false cmd (u16 (Z.shiftl sh 1)) ro pr ext, Some (truthy (Z.land (Z.shiftr sh 7) 1)))) as Hbit.
    { unfold clock_bit, rtc_input, Rtc.shift_bit, gs_assert, truthy. cbn [clock]. rewrite bool_decide_false by done. cbn.
      rewrite (proj2 (Z.leb_le 0 n)), (proj2 (Z.ltb_lt 0 n)) by lia. cbn.
      rewrite (proj2 (Z.eqb_neq (n - 1) 0)) by lia. cbn. rewrite (proj2 (Z.eqb_neq (n - 1) 0)) by lia. done. }
    rewrite clock_bits_cons, Hbit. cbn [mbind option_bind]. destruct (IH (mk_rtc sec (n - 1) 0 false cmd (u16 (Z.shiftl sh 1)) ro pr ext)) as [sh' E];
      [done|done|cbn; unfold n; cbn [length]; lia|done|]. exists sh'. rewrite E. done.
Qed.

(** ** Commands *)

Lemma pram_byte r a : Forall byte (pram r) -> byte (pram_at r a).
Proof.
  intros Hp. unfold pram_at. destruct (nth_in_or_default (Z.to_nat a) (pram r) 0) as [Hin | ->]; [|by unfold byte, in_width].
  by apply (proj1 (Forall_forall _ _) Hp).
Qed.
Lemma byte_implies (f g : Z -> bool) : forall_bits 8 0 (fun c => implb (f c) (g c)) = true ->
  forall c, byte c -> f c = true -> g c = true.
Proof. intros E c Hc Hf. pose proof (forall_bits_width 8 _ c E Hc) as Hi. simpl in Hi. by rewrite Hf in Hi. Qed.
Lemma read_cmd_ok r c : byte c -> IS_READ c = true -> Forall byte (pram r) -> exists x, read_cmd r c = Some x /\ byte x.
Proof.
  intros Hc Hr Hp. unfold read_cmd. assert (truthy (Z.shiftr c 7) = true) as ->.
  { apply (byte_implies IS_READ (fun c => truthy (Z.shiftr c 7))); [vm_compute; reflexivity|done..]. }
  cbn. repeat case_match; eexists; (split; [done|]); try (by unfold byte, in_width); try (rewrite land_255; apply u8_range).
  by apply pram_byte.
Qed.
Lemma write_cmd_ok r c x : byte c -> IS_READ c = false -> Forall byte (pram r) -> byte x ->
  exists r', write_cmd c x r = Some r' /\ Forall byte (pram r') /\ clock r' = clock r /\ tx_bits r' = tx_bits r /\ shift r' = shift r.
Proof.
  intros Hc Hr Hp Hx. unfold write_cmd. assert (Z.shiftr c 7 =? 0 = true) as ->.
  { apply (byte_implies (fun c => negb (IS_READ c)) (fun c => Z.shiftr c 7 =? 0)); [vm_compute; reflexivity|done|by rewrite Hr]. }
  cbn. repeat case_match; eexists; (split; [done|]); try done. split; [|done]. by apply list.Forall_insert.
Qed.

(** The state after the first byte of a request. *)
Lemma first_byte q c r : ready r -> byte c -> (IS_READ c && negb (IS_EXTENDED c)) = false ->
  q = (if IS_EXTENDED c && negb (IS_READ c) then 16 else 8) ->
  exists sh, clock_bits (msb_bits c) r =
    Some (set_rx_bits q (set_command c (set_shift sh r)), replicate 8 None).
Proof.
  intros [Hc Hcmd Hrx Htx Hp] Hb Hr ->. exists (u16 (shift r * 256 + c)). destruct r as [sec tx rx clk cmd sh ro pr ext].
  cbn [clock command rx_bits tx_bits pram shift] in *. subst. set (q := if _ : bool then 16 else 8).
  rewrite (clock_bits_full _ _ (mk_rtc sec 0 q true c (u16 (sh * 256 + c)) ro pr ext)); [done|done|done| |].
  - unfold received, latched. cbn -[u16 u8 msb_bits shift_in]. rewrite (shift_in_byte sh c Hb).
    rewrite IS_READ_low, IS_EXTENDED_low, (low_byte sh c Hb), Hr. reflexivity.
  - unfold settled, q. by destruct (IS_EXTENDED c && negb (IS_READ c)).
Qed.

(** The chip is idle again, with the data of [r']. *)
Definition idle_as (r' r : rtc) : Prop := ready r /\ stored r = stored r'.

(** The byte a read returns goes out behind the command. *)
Lemma reply_byte x r : byte x -> clock r = false -> rx_bits r = 0 -> tx_bits r = 8 -> shift r = x ->
  Forall byte (pram r) -> forall ds, length ds = 8%nat ->
  exists r', clock_bits ds r = Some (r', Some <$> msb_bits x) /\ idle_as r r'.
Proof.
  intros Hx Hc Hr Ht <- Hp ds Hds. destruct (clock_bits_tx ds r Hc Hr) as [sh E]; [by rewrite Hds|by destruct ds|].
  rewrite Hds, (outs_of_byte _ Hx) in E. eexists. split; [exact E|]. done.
Qed.

Lemma received_read r x : command r = 0 -> IS_READ (u8 (shift r)) = true -> IS_EXTENDED (u8 (shift r)) = false ->
  read_cmd r (u8 (shift r)) = Some x -> received r = Some (set_tx_bits 8 (set_shift x r)).
Proof. intros Hc Hr He Hx. unfold received. rewrite Hc, IS_READ_low, IS_EXTENDED_low, Hr, He. simpl. by rewrite Hx. Qed.

Lemma read_request c r ds : ready r -> request_ok (Read c) -> length ds = 8%nat ->
  exists r' x, read_cmd r c = Some x /\
    clock_bits (msb_bits c ++ ds) r = Some (r', replicate 8 None ++ (Some <$> msb_bits x)) /\ idle_as r r'.
Proof.
  intros [Hc Hcmd Hrx Htx Hp] [[Hb _]%list.Forall_cons [Hr He]] Hds.
  destruct (read_cmd_ok r c Hb Hr Hp) as (x & Hx & Hbx).
  destruct r as [sec tx rx clk cmd sh ro pr ext]. cbn [clock command rx_bits tx_bits pram shift] in *. subst.
  set (r1 := mk_rtc sec 8 0 false 0 x ro pr ext).
  assert (clock_bits (msb_bits c) (mk_rtc sec 0 8 false 0 sh ro pr ext) = Some (r1, replicate 8 None)) as E1.
  { rewrite (clock_bits_full _ _ (set_clock true r1)); [done|done|done| |done].
    unfold latched. cbn [set_clock shift]. rewrite (shift_in_byte sh c Hb). apply received_read; try done;
      cbn [shift set_rx_bits set_shift]; by rewrite (low_byte sh c Hb). }
  destruct (reply_byte x r1 Hbx eq_refl eq_refl eq_refl eq_refl Hp ds Hds) as (r' & E2 & Hi).
  exists r', x. split; [done|]. split; [|done]. by apply (clock_bits_app _ _ _ _ _ _ _ E1 E2).
Qed.
(** A write does not look at the transfer in progress. *)
Lemma write_cmd_frame c x r tx rx clk cmd sh :
  write_cmd c x (mk_rtc (seconds r) tx rx clk cmd sh (read_only r) (pram r) (extended r)) =
  (fun r' => mk_rtc (seconds r') tx rx clk cmd sh (read_only r') (pram r') (extended r')) <$> write_cmd c x r.
Proof.
  destruct r as [sec tx' rx' clk' cmd' sh' ro pr ext].
  unfold write_cmd, pram_put, legacy_pram_addr. cbn [read_only seconds pram extended].
  destruct (gs_assert _); [|done]. cbn [mbind option_bind].
  repeat match goal with |- context [if ?b then _ else _] => destruct b end; done.
Qed.
Lemma write_request c x r : ready r -> request_ok (Write c x) ->
  exists r' r'', write_cmd c x r = Some r'' /\
    clock_bits (msb_bits c ++ msb_bits x) r = Some (r', replicate 16 None) /\ idle_as r'' r'.
Proof.
  intros Hready [[Hb [Hbx _]%list.Forall_cons]%list.Forall_cons (Hr & He & Hc0)].
  destruct (first_byte 8 c r Hready Hb) as [sh E1]; [by rewrite Hr|by rewrite He|].
  pose proof Hready as [Hc Hcmd Hrx Htx Hp].
  destruct (write_cmd_ok r c x Hb Hr Hp Hbx) as (r'' & Hw & Hp'' & Hck & Htx'' & _).
  set (r1 := set_rx_bits 8 _) in E1.
  assert (received (latched (msb_bits x) r1) =
    Some (set_rx_bits 8 (set_command 0 (set_shift (u16 (sh * 256 + x)) (set_clock true r''))))) as E2.
  { unfold received, latched, r1. cbn [command set_rx_bits set_command set_shift set_clock shift].
    rewrite (proj2 (Z.eqb_neq c 0) Hc0), He, Hr, (shift_in_byte sh x Hbx), (low_byte sh x Hbx). cbn [gs_assert negb mbind option_bind].
    unfold set_rx_bits, set_shift, set_clock, set_command. cbn [seconds tx_bits rx_bits clock command shift read_only pram extended].
    rewrite write_cmd_frame, Hw. cbn. by rewrite Htx''. }
  set (r2 := set_rx_bits 8 _) in E2. exists (set_clock false r2), r''. split; [done|]. split.
  - change (replicate 16 None) with (replicate 8 (@None bool) ++ replicate 8 None). eapply clock_bits_app; [exact E1|].
    rewrite (clock_bits_full _ _ r2); [done| |done|exact E2|].
    + unfold r1, listening. cbn. by rewrite Hc, Htx.
    + unfold settled. cbn. by rewrite Htx'', Htx.
  - split; [|done]. split; try done. cbn. congruence.
Qed.
Lemma read_ext_request c1 c2 r ds : ready r -> request_ok (ReadExt c1 c2) -> length ds = 8%nat ->
  exists r', clock_bits ((msb_bits c1 ++ msb_bits c2) ++ ds) r =
    Some (r', replicate 16 None ++ (Some <$> msb_bits (read_ext r c1 c2))) /\ idle_as r r'.
Proof.
  intros Hready [[Hb [Hb2 _]%list.Forall_cons]%list.Forall_cons (Hr & He)] Hds.
  destruct (first_byte 8 c1 r Hready Hb) as [sh E1]; [by rewrite Hr, He|by rewrite He, Hr|].
  destruct Hready as [Hc Hcmd Hrx Htx Hp]. destruct r as [sec tx rx clk cmd sh' ro pr ext].
  cbn [clock command rx_bits tx_bits pram shift] in *. subst. set (x := read_ext _ c1 c2). set (r1 := set_rx_bits 8 _) in E1.
  set (r2 := mk_rtc sec 8 0 false 0 x ro pr ext).
  assert (byte x) as Hx by by apply pram_byte.
  assert (c1 <> 0) as Hc0 by by intros ->.
  assert (clock_bits (msb_bits c2) r1 = Some (r2, replicate 8 None)) as E2.
  { rewrite (clock_bits_full _ _ (set_clock true r2)); [done|done|done| |done].
    unfold received, latched, r1. cbn [command set_rx_bits set_command set_shift set_clock shift].
    rewrite (proj2 (Z.eqb_neq c1 0) Hc0), He, Hr, (shift_in_byte sh c2 Hb2), (low_byte sh c2 Hb2). reflexivity. }
  destruct (reply_byte x r2 Hx eq_refl eq_refl eq_refl eq_refl Hp ds Hds) as (r' & E3 & Hi).
  exists r'. split; [|done]. apply (clock_bits_app _ _ _ _ _ _ _ (clock_bits_app _ _ _ _ _ _ _ E1 E2) E3).
Qed.
Lemma write_ext_request c1 c2 x r : ready r -> request_ok (WriteExt c1 c2 x) ->
  exists r', clock_bits (msb_bits c1 ++ (msb_bits c2 ++ msb_bits x)) r = Some (r', replicate 24 None) /\
    idle_as (write_ext c1 c2 x r) r'.
Proof.
  intros Hready [[Hb [Hb2 [Hbx _]%list.Forall_cons]%list.Forall_cons]%list.Forall_cons (Hr & He)].
  destruct (first_byte 16 c1 r Hready Hb) as [sh E1]; [by rewrite Hr|by rewrite He, Hr|].
  destruct Hready as [Hc Hcmd Hrx Htx Hp]. destruct r as [sec tx rx clk cmd sh' ro pr ext].
  cbn [clock command rx_bits tx_bits pram shift] in *. subst. set (r1 := set_rx_bits 16 _) in E1.
  set (sh2 := u16 (u16 (sh * 256 + c2) * 256 + x)).
  set (r2 := set_command 0 (set_rx_bits 8 (write_ext c1 c2 x (mk_rtc sec 0 0 true c1 sh2 ro pr ext)))).
  assert (c1 <> 0) as Hc0 by by intros ->.
  exists (set_clock false r2). split.
  - change (replicate 24 None) with (replicate 8 (@None bool) ++ replicate 16 None). eapply clock_bits_app; [exact E1|].
    rewrite (clock_bits_full _ _ r2); [done|done|done| |done].
    unfold received, latched, r1. cbn [command set_rx_bits set_command set_shift set_clock shift].
    rewrite (proj2 (Z.eqb_neq c1 0) Hc0), He, Hr, shift_in_app, !shift_in_byte by done. fold sh2.
    cbn [shift]. unfold sh2 at 1 2. rewrite high_byte, land_255, low_byte by done. reflexivity.
  - split; [|done]. split; try done. cbn. by apply list.Forall_insert.
Qed.

(** ** The protocol *)

Definition reply_bits (y : option Z) : list (option bool) := if y is Some x then Some <$> msb_bits x else [].
Definition is_read (q : request) : bool := match q with Read _ | ReadExt _ _ => true | _ => false end.

(** The chip's own steps take the effect of the code's functions on whole commands. *)
Lemma request_performed q r ds :
  ready r -> request_ok q -> length ds = (if is_read q then 8 else 0)%nat ->
  exists r' r'' y, perform q r = Some (r'', y) /\
    clock_bits (concat (msb_bits <$> wire q) ++ ds) r =
      Some (r', replicate (8 * length (wire q)) None ++ reply_bits y) /\
    ready r' /\ stored r' = stored r''.
Proof.
  intros Hr Hq Hds. destruct q as [c|c x|c1 c2|c1 c2 x]; cbn [wire perform is_read fmap list_fmap concat] in *.
  - destruct (read_request c r ds Hr Hq Hds) as (r' & x & -> & E & Hi). rewrite app_nil_r. by exists r', r, (Some x).
  - destruct (write_request c x r Hr Hq) as (r' & r'' & -> & E & Hi). destruct ds; [|done].
    rewrite !app_nil_r, E. by exists r', r'', None.
  - destruct (read_ext_request c1 c2 r ds Hr Hq Hds) as (r' & E & Hi). rewrite app_nil_r.
    exists r', r, (Some (read_ext r c1 c2)). by rewrite E.
  - destruct (write_ext_request c1 c2 x r Hr Hq) as (r' & E & Hi). destruct ds; [|done].
    rewrite !app_nil_r, E. by exists r', (write_ext c1 c2 x r), None.
Qed.

(** ** Any sequence of pin changes *)

Record rtc_ok (r : rtc) : Prop := {
  ro_bits : (0 < rx_bits r <= 16 /\ tx_bits r = 0) \/ (rx_bits r = 0 /\ 0 < tx_bits r <= 8);
  ro_command : byte (command r);
  ro_phase : IS_READ (command r) = true -> IS_EXTENDED (command r) = true;
  ro_pram : Forall byte (pram r) /\ length (pram r) = 256%nat;
}.
Definition in_phase (r : rtc) : Prop :=
  byte (command r) /\ (IS_READ (command r) = true -> IS_EXTENDED (command r) = true) /\
  Forall byte (pram r) /\ length (pram r) = 256%nat.

Lemma write_cmd_pram r c x r' : write_cmd c x r = Some r' -> length (pram r') = length (pram r).
Proof.
  unfold write_cmd. destruct (gs_assert _); [|done]. cbn [mbind option_bind].
  repeat match goal with |- context [if ?b then _ else _] => destruct b end; intros [= <-]; try done.
  apply length_insert.
Qed.
Lemma received_ok r : in_phase r -> rx_bits r = 0 -> tx_bits r = 0 ->
  exists r', received r = Some r' /\ rtc_ok r'.
Proof.
  intros (Hc & Hph & Hp & Hl) Hrx Htx. unfold received. pose proof (u8_range (shift r)) as Hsh. fold (byte (u8 (shift r))) in Hsh.
  assert (byte (Z.land (shift r) 0xFF)) as Hx by (rewrite land_255; apply u8_range).
  destruct (Z.eqb_spec (command r) 0) as [E0|_].
  - rewrite IS_READ_low, IS_EXTENDED_low. destruct (IS_READ (u8 (shift r)) && negb (IS_EXTENDED (u8 (shift r)))) eqn:Er.
    + apply andb_true_iff in Er as [Er _]. destruct (read_cmd_ok r _ Hsh Er Hp) as (x & -> & _).
      eexists. split; [done|]. split; try done. right. cbn. lia.
    + eexists. split; [done|]. split; try done.
      * left. cbn [rx_bits set_rx_bits tx_bits set_command command]. destruct (IS_EXTENDED (u8 (shift r)) && negb (IS_READ (u8 (shift r)))); lia.
      * cbn [command set_rx_bits set_command]. intros Er'. rewrite Er' in Er. by apply negb_false_iff in Er.
  - destruct (IS_EXTENDED (command r)) eqn:He.
    + eexists. split; [done|]. destruct (IS_READ (command r)).
      * split; try done. right. cbn. lia.
      * split; try done; [left; cbn; lia|]. cbn. split; [by apply list.Forall_insert|by rewrite length_insert].
    + destruct (IS_READ (command r)) eqn:Er; [specialize (Hph eq_refl); congruence|]. cbn [gs_assert negb mbind option_bind].
      destruct (write_cmd_ok r (command r) (u8 (shift r)) Hc Er Hp Hsh) as (r' & E & Hp' & _ & Htx' & _).
      rewrite E. eexists. split; [done|]. split; try done.
      * left. cbn. lia.
      * cbn. by rewrite (write_cmd_pram _ _ _ _ E).
Qed.
Lemma shift_bit_ok x r : rtc_ok r -> exists r' o, Rtc.shift_bit x r = Some (r', o) /\ rtc_ok r'.
Proof.
  intros [[[Hrx Htx]|[Hrx Htx]] Hc Hph [Hp Hl]]; unfold Rtc.shift_bit.
  - assert (truthy (rx_bits r) = true) as -> by (unfold truthy; zbool; [lia|done]). set (sh := u16 _).
    set (r1 := set_rx_bits _ _). destruct (Z.eqb_spec (rx_bits r1) 0) as [E|Hne].
    + destruct (received_ok r1) as (r' & -> & Hok); [done|done|done|]. by eexists _, _.
    + eexists _, _. split; [done|]. split; try done. left. cbn in *. lia.
  - rewrite Hrx. cbn [truthy Z.eqb negb]. eexists _, _. split; [done|].
    set (r1 := set_tx_bits _ _). destruct (Z.eqb_spec (tx_bits r1) 0); split; try done; [left|right]; cbn in *; lia.
Qed.
Lemma rtc_input_ok d c x r : rtc_ok r -> exists r' o, rtc_input d c x r = Some (r', o) /\ rtc_ok r'.
Proof.
  intros Hok. pose proof Hok as [Hb Hc Hph [Hp Hl]]. unfold rtc_input.
  destruct (bool_decide (c = clock r)); [by eauto|]. destruct c; cbn [negb]; [|by exists (set_clock false r), None].
  destruct d.
  { eexists _, _. split; [done|]. split; try done. left. cbn. lia. }
  cbn [rx_bits tx_bits set_clock].
  replace ((0 <=? rx_bits r) && (0 <=? tx_bits r) && ((0 <? rx_bits r) || (0 <? tx_bits r))) with true
    by (symmetry; zbool; try done; lia). cbn [gs_assert mbind option_bind].
  destruct (shift_bit_ok x (set_clock true r)) as (r' & o & -> & Hok'); [done|]. cbn [mbind option_bind].
  pose proof Hok' as [Hb' _ _ _]. exists r', o. unfold truthy.
  replace (negb (rx_bits r' =? 0) && (tx_bits r' =? 0) || (rx_bits r' =? 0) && negb (tx_bits r' =? 0)) with true
    by (symmetry; zbool; try done; lia). done.
Qed.

Fixpoint rtc_inputs (l : list (bool * bool * bool)) (r : rtc) : option rtc :=
  match l with
  | [] => Some r
  | (d, c, x) :: l => '(r, _) ← rtc_input d c x r; rtc_inputs l r
  end.
(** Once the clock line has gone up with the chip disabled, no sequence of
    levels on its three pins fails an assertion. *)
Theorem rtc_inputs_total x l r :
  clock r = false -> Forall byte (pram r) -> length (pram r) = 256%nat ->
  is_Some (rtc_inputs ((true, true, x) :: l) r).
Proof.
  intros Hc Hp Hl. cbn [rtc_inputs]. unfold rtc_input at 1. rewrite Hc, bool_decide_false by done. cbn [negb mbind option_bind].
  set (r1 := set_shift 0 _). assert (rtc_ok r1) as Hok by (split; try done; left; cbn; lia).
  clearbody r1. revert r1 Hok. induction l as [|[[d c] y] l IH]; intros r1 Hok; [by eexists|].
  cbn [rtc_inputs]. destruct (rtc_input_ok d c y r1 Hok) as (r' & o & -> & Hok'). by apply IH.
Qed.

(** ** The 256-byte parameter RAM over the wires *)

Definition xwrite (a x : Z) : request := WriteExt (Z.lor 0x38 (Z.shiftr a 5)) (Z.shiftl (Z.land a 0x1F) 2) x.
Definition xread (a : Z) : request := ReadExt (Z.lor 0xB8 (Z.shiftr a 5)) (Z.shiftl (Z.land a 0x1F) 2).
Definition wire_bits (q : request) : list bool := concat (msb_bits <$> wire q).

Definition byteb (x : Z) : bool := (0 <=? x) && (x <? 256).
Lemma byteb_spec x : byteb x = true -> byte x.
Proof. unfold byteb, byte, in_width. rewrite andb_true_iff, Z.leb_le, Z.ltb_lt. done. Qed.
(** The encoding of an address, checked on all of them. *)
Definition encodes (a : Z) : bool :=
  let w := Z.lor 0x38 (Z.shiftr a 5) in
  let r := Z.lor 0xB8 (Z.shiftr a 5) in
  let l := Z.shiftl (Z.land a 0x1F) 2 in
  byteb w && byteb r && byteb l && negb (IS_READ w) && IS_EXTENDED w && IS_READ r && IS_EXTENDED r &&
  (ext_address w l =? a) && (ext_address r l =? a).
Lemma encodes_all a : byte a -> encodes a = true.
Proof. apply (forall_bits_width 8 encodes). vm_compute. reflexivity. Qed.
Lemma xram_ok a x : byte a -> byte x -> request_ok (xwrite a x) /\ request_ok (xread a) /\
  (forall r, write_ext (Z.lor 0x38 (Z.shiftr a 5)) (Z.shiftl (Z.land a 0x1F) 2) x r = pram_put a x r) /\
  (forall r, read_ext r (Z.lor 0xB8 (Z.shiftr a 5)) (Z.shiftl (Z.land a 0x1F) 2) = pram_at r a).
Proof.
  intros Ha Hx. pose proof (encodes_all a Ha) as E. unfold encodes in E. rewrite !andb_true_iff, negb_true_iff, !Z.eqb_eq in E.
  destruct E as ((((((((B1 & B2) & B3) & R1) & X1) & R2) & X2) & A1) & A2). apply byteb_spec in B1, B2, B3.
  split; [|split; [|split]].
  - split; [|done]. by apply list.Forall_cons_2, list.Forall_cons_2, list.Forall_cons_2, list.Forall_nil_2.
  - split; [|done]. by apply list.Forall_cons_2, list.Forall_cons_2, list.Forall_nil_2.
  - intros r. unfold write_ext. by rewrite A1.
  - intros r. unfold read_ext. by rewrite A2.
Qed.

(** Over the three wires, a byte written to an address of the 256-byte
    parameter RAM comes back when that address is read, most significant bit
    first, and every other address reads as it did before. *)
Theorem xpram_roundtrip a b x r ds :
  ready r -> length (pram r) = 256%nat -> byte a -> byte b -> byte x -> length ds = 8%nat ->
  exists r1 r2, clock_bits (wire_bits (xwrite a x)) r = Some (r1, replicate 24 None) /\
    clock_bits (wire_bits (xread b) ++ ds) r1 =
      Some (r2, replicate 16 None ++ (Some <$> msb_bits (if decide (b = a) then x else pram_at r b))) /\ ready r2.
Proof.
  intros Hr Hl Ha Hb Hx Hds. destruct (xram_ok a x Ha Hx) as (Hw & _ & Ew & _). destruct (xram_ok b x Hb Hx) as (_ & Hrd & _ & Er).
  destruct (write_ext_request _ _ _ r Hr Hw) as (r1 & E1 & Hr1 & Hs). rewrite Ew in Hs.
  destruct (read_ext_request _ _ r1 ds Hr1 Hrd Hds) as (r2 & E2 & Hr2 & _). rewrite Er in E2.
  exists r1, r2. unfold wire_bits. cbn [wire xwrite xread fmap list_fmap concat]. rewrite !app_nil_r.
  split; [exact E1|]. split; [|done]. rewrite E2. do 4 f_equal. unfold pram_at, stored in *. injection Hs as _ _ -> _.
  unfold pram_put. cbn [pram set_pram]. unfold byte, in_width in *. destruct (decide (b = a)) as [->|Hne].
  - rewrite nth_lookup, list_lookup_insert_eq by lia. done.
  - rewrite !nth_lookup, list_lookup_insert_ne by lia. done.
Qed.

(** ** The chip as rtc.md documents it

    Its registers are numbered 0 to 31: 0 to 3 are the bytes of the seconds
    counter, the lowest first, with a mirror at 4 to 7; 8 to 11 and 16 to 31
    are twenty bytes of the parameter RAM; 12 is the test and 13 the
    write-protect register, both write-only; 14 and 15 are the prefix of the
    commands for all 256 bytes. *)
Record chip := mk_chip { time : list Z; locked : bool; ram : list Z; large : bool }.
(** [dc] holds the bits of a second command byte the chip does not look at. *)
Inductive exchange :=
  | Get (reg : Z)
  | Put (reg x : Z)
  | XGet (a dc : Z)
  | XPut (a dc x : Z).
(** A command byte is the direction, the register number and 01; an address
    of the large RAM goes three bits in the first byte, five in the second. *)
Definition exchange_bytes (t : exchange) : list Z :=
  match t with
  | Get reg => [128 + 4 * reg + 1]
  | Put reg x => [4 * reg + 1; x]
  | XGet a dc => [128 + 56 + a / 32; 4 * (a mod 32) + dc]
  | XPut a dc x => [56 + a / 32; 4 * (a mod 32) + dc; x]
  end.
Definition register (reg : Z) : Prop := 0 <= reg < 14 \/ 16 <= reg < 32.
Definition exchange_ok (t : exchange) : Prop :=
  match t with
  | Get reg => register reg
  | Put reg x => register reg /\ byte x
  | XGet a dc => byte a /\ 0 <= dc < 256 /\ dc mod 128 < 4
  | XPut a dc x => byte a /\ 0 <= dc < 256 /\ dc mod 128 < 4 /\ byte x
  end.
(** Where a RAM register is in the RAM, which the older chip packs. *)
Definition ram_index (ch : chip) (reg : Z) : nat :=
  Z.to_nat (if reg <? 16 then reg - 8 + (if large ch then 8 else 16) else reg - 16 + (if large ch then 16 else 0)).
Definition chip_answer (ch : chip) (t : exchange) : option Z :=
  match t with
  | Get reg =>
      Some (if reg <? 8 then nth (Z.to_nat (reg mod 4)) (time ch) 0
            else if (reg =? 12) || (reg =? 13) then 0 else nth (ram_index ch reg) (ram ch) 0)
  | XGet a _ => Some (nth (Z.to_nat a) (ram ch) 0)
  | Put _ _ | XPut _ _ _ => None
  end.
Definition after (ch : chip) (t : exchange) : chip :=
  match t with
  | Get _ | XGet _ _ => ch
  | Put reg x =>
      if reg =? 13 then mk_chip (time ch) (128 <=? x) (ram ch) (large ch)
      else if locked ch || (reg =? 12) then ch
      else if reg <? 8 then mk_chip (<[Z.to_nat (reg mod 4) := x]> (time ch)) (locked ch) (ram ch) (large ch)
      else mk_chip (time ch) (locked ch) (<[ram_index ch reg := x]> (ram ch)) (large ch)
  | XPut a _ x => mk_chip (time ch) (locked ch) (<[Z.to_nat a := x]> (ram ch)) (large ch)
  end.
Definition chip_of (r : rtc) : chip :=
  mk_chip (map (fun i => seconds r / 256 ^ i mod 256) [0; 1; 2; 3]) (truthy (read_only r)) (pram r) (extended r).

(** The exchange as the code decodes it. *)
Definition request_of (t : exchange) : request :=
  match t, exchange_bytes t with
  | Get _, c :: _ => Read c
  | Put _ x, c :: _ => Write c x
  | XGet _ _, c1 :: c2 :: _ => ReadExt c1 c2
  | XPut _ _ x, c1 :: c2 :: _ => WriteExt c1 c2 x
  | _, _ => Read 0
  end.
Lemma request_wire t : wire (request_of t) = exchange_bytes t.
Proof. by destruct t. Qed.
Lemma chip_stored r r' : stored r = stored r' -> chip_of r = chip_of r'.
Proof. unfold stored, chip_of. by intros [= -> -> -> ->]. Qed.

Lemma register_cases (P : Z -> Prop) : (forall reg, In reg [0;1;2;3;4;5;6;7;8;9;10;11;12;13;16;17;18;19;20;21;22;23;24;25;26;27;28;29;30;31] -> P reg) ->
  forall reg, register reg -> P reg.
Proof. intros H reg Hr. apply H. unfold register in Hr. simpl. lia. Qed.
Ltac each_register := let H := fresh in apply register_cases; intros ? H; simpl in H; repeat destruct H as [<-|H]; try done.
Lemma register_decodes : forall reg, register reg ->
  byteb (128 + 4 * reg + 1) && byteb (4 * reg + 1) && IS_READ (128 + 4 * reg + 1) && negb (IS_EXTENDED (128 + 4 * reg + 1)) &&
  negb (IS_READ (4 * reg + 1)) && negb (IS_EXTENDED (4 * reg + 1)) && negb (4 * reg + 1 =? 0) = true.
Proof. each_register; vm_compute; reflexivity. Qed.

Lemma time_byte s k i : k = 8 * i -> 0 <= i -> Z.land (Z.shiftr s k) 0xFF = s / 256 ^ i mod 256.
Proof.
  intros -> Hi. rewrite land_255, Z.shiftr_div_pow2 by lia. unfold u8, wrap. rewrite Z.pow_mul_r by lia. done.
Qed.
(** The four bytes of the counter, to be kept whole while the rest is evaluated. *)
Ltac hide_time r :=
  generalize (seconds r / 256 ^ 0 mod 256) (seconds r / 256 ^ 1 mod 256) (seconds r / 256 ^ 2 mod 256) (seconds r / 256 ^ 3 mod 256).
Lemma read_cmd_answer r reg : register reg -> read_cmd r (128 + 4 * reg + 1) = chip_answer (chip_of r) (Get reg).
Proof.
  unfold read_cmd, pram_at, legacy_pram_addr, chip_answer, chip_of, ram_index. cbn [map time ram large].
  pose proof (time_byte (seconds r) 0 0 eq_refl ltac:(lia)) as ->%(eq_trans (f_equal (fun s => Z.land s 0xFF) (eq_sym (Z.shiftr_0_r _)))).
  rewrite (time_byte _ 8 1), (time_byte _ 16 2), (time_byte _ 24 3) by lia.
  hide_time r. intros b0 b1 b2 b3. generalize (pram r). intros l. revert reg. destruct (extended r); each_register; reflexivity.
Qed.

(** Replacing a byte of the counter leaves the others. *)
Definition seconds_mask (k : Z) : Z := 0xFFFFFFFF - 255 * 2 ^ k.
Lemma mask_bit k m : In k [0; 8; 16; 24] -> 0 <= m < 32 ->
  Z.testbit (seconds_mask k) m = negb ((k <=? m) && (m <? k + 8)).
Proof.
  intros Hk Hm. apply eqb_true_iff.
  apply (forall_bits_width 5 (fun m => eqb (Z.testbit (seconds_mask k) m) (negb ((k <=? m) && (m <? k + 8)))) m); [|done].
  by destruct Hk as [<-|[<-|[<-|[<-|[]]]]].
Qed.
Lemma byte_bits x i : byte x -> (i < 0 \/ 8 <= i) -> Z.testbit x i = false.
Proof.
  intros [? ?] [Hi|Hi]; [by apply Z.testbit_neg_r|]. rewrite Z.testbit_eqb, Z.div_small; [done| |lia].
  split; [lia|]. apply (Z.lt_le_trans _ (2 ^ 8)); [done|]. by apply Z.pow_le_mono_r.
Qed.
Lemma replaced_byte s x k j : In k [0; 8; 16; 24] -> In j [0; 8; 16; 24] -> byte x ->
  Z.land (Z.shiftr (Z.lor (Z.land s (seconds_mask k)) (Z.shiftl x k)) j) 0xFF =
  if decide (j = k) then x else Z.land (Z.shiftr s j) 0xFF.
Proof.
  intros Hk Hj Hx. change 0xFF with (Z.ones 8).
  assert (0 <= k <= 24 /\ 0 <= j <= 24 /\ (j = k \/ j + 8 <= k \/ k + 8 <= j)) as (? & ? & Hjk) by (simpl in Hk, Hj; lia).
  apply Z.bits_inj'. intros n Hn. rewrite Z.land_spec, Z.shiftr_spec, Z.lor_spec, Z.land_spec, Z.shiftl_spec by lia.
  destruct (Z.ltb_spec n 8) as [Hn8|Hn8].
  - rewrite Z.ones_spec_low, andb_true_r, (mask_bit k (n + j)) by (done || lia).
    destruct (decide (j = k)) as [->|Hne].
    + replace ((k <=? n + k) && (n + k <? k + 8)) with true by (symmetry; zbool; done || lia).
      by rewrite andb_false_r, orb_false_l, Z.add_simpl_r.
    + replace ((k <=? n + j) && (n + j <? k + 8)) with false by (symmetry; zbool; done || lia).
      rewrite (byte_bits x) by (done || lia). rewrite andb_true_r, orb_false_r, Z.land_spec, Z.shiftr_spec, Z.ones_spec_low by lia.
      by rewrite andb_true_r.
  - rewrite Z.ones_spec_high, andb_false_r by lia. destruct (decide _); [by rewrite byte_bits by (done || lia)|].
    by rewrite Z.land_spec, Z.ones_spec_high, andb_false_r by lia.
Qed.

Definition counter_bytes (s : Z) : list Z := map (fun i => s / 256 ^ i mod 256) [0; 1; 2; 3].
Lemma counter_put s x k : In k [0; 8; 16; 24] -> byte x ->
  counter_bytes (Z.lor (Z.land s (seconds_mask k)) (Z.shiftl x k)) = <[Z.to_nat (k / 8) := x]> (counter_bytes s).
Proof.
  intros Hk Hx. unfold counter_bytes. cbn [map].
  rewrite <- !(time_byte _ 0 0), <- !(time_byte _ 8 1), <- !(time_byte _ 16 2), <- !(time_byte _ 24 3) by lia.
  rewrite !replaced_byte by (simpl; tauto || done). by destruct Hk as [<-|[<-|[<-|[<-|[]]]]].
Qed.
Lemma top_bit x : byte x -> truthy (Z.land (Z.shiftr x 7) 1) = (128 <=? x).
Proof.
  intros Hx. apply eqb_true_iff. apply (forall_bits_width 8 (fun x => eqb (truthy (Z.land (Z.shiftr x 7) 1)) (128 <=? x))); [|done].
  vm_compute. reflexivity.
Qed.
Definition write_register (reg x : Z) (r : rtc) : rtc :=
  if reg =? 13 then set_read_only (Z.land (Z.shiftr x 7) 1) r
  else if truthy (read_only r) || (reg =? 12) then r
  else if reg <? 8 then
    let k := 8 * (reg mod 4) in set_seconds (Z.lor (Z.land (seconds r) (seconds_mask k)) (Z.shiftl x k)) r
  else pram_put (Z.of_nat (ram_index (chip_of r) reg)) x r.
Lemma write_cmd_register r reg x : register reg -> write_cmd (4 * reg + 1) x r = Some (write_register reg x r).
Proof.
  destruct r as [sec tx rx clk cmd sh ro pr ext]. revert reg.
  each_register; unfold write_cmd, write_register, legacy_pram_addr; cbn [read_only]; destruct (truthy ro), ext; reflexivity.
Qed.
Lemma write_register_after r reg x : register reg -> byte x -> chip_of (write_register reg x r) = after (chip_of r) (Put reg x).
Proof.
  intros Hreg Hx. unfold write_register, after. destruct (reg =? 13); [by rewrite <- top_bit|].
  cbn [locked chip_of]. destruct (truthy (read_only r)) eqn:El; [done|]. destruct (reg =? 12); [done|]. cbn [orb].
  destruct (Z.ltb_spec reg 8) as [Hlt|Hge]; unfold chip_of at 1; cbn [seconds read_only pram extended set_seconds pram_put set_pram].
  - fold (counter_bytes (Z.lor (Z.land (seconds r) (seconds_mask (8 * (reg mod 4)))) (Z.shiftl x (8 * (reg mod 4))))).
    rewrite counter_put; [|simpl; dlia|done]. by rewrite Z.mul_comm, Z.div_mul, El.
  - fold (counter_bytes (seconds r)). by rewrite Nat2Z.id, El.
Qed.

Lemma ext_address_of dir a dc : dir = 56 \/ dir = 128 + 56 -> byte a -> 0 <= dc < 256 -> dc mod 128 < 4 ->
  byte (dir + a / 32) /\ byte (4 * (a mod 32) + dc) /\ ext_address (dir + a / 32) (4 * (a mod 32) + dc) = a.
Proof.
  intros Hdir [? ?] Hdc Hd. assert (0 <= dc < 4 \/ 128 <= dc < 132) as Hdc' by dlia.
  split; [unfold byte, in_width; destruct Hdir as [-> | ->]; dlia|]. split; [unfold byte, in_width; dlia|].
  unfold ext_address. change 0x07 with (Z.ones 3). change 0x1F with (Z.ones 5).
  rewrite !Z.land_ones, Z.shiftr_div_pow2 by lia.
  assert ((dir + a / 32) mod 2 ^ 3 = a / 32) as -> by (destruct Hdir as [-> | ->]; dlia).
  assert ((4 * (a mod 32) + dc) / 2 ^ 2 mod 2 ^ 5 = a mod 32) as -> by dlia.
  rewrite Z.shiftl_mul_pow2 by lia. unfold u8. rewrite wrap_small by (unfold in_width; dlia).
  rewrite <- Z.shiftl_mul_pow2, lor_shiftl_add by (unfold in_width; dlia). dlia.
Qed.
Lemma ext_prefix dir a : dir = 56 \/ dir = 128 + 56 -> byte a ->
  IS_READ (dir + a / 32) = (dir =? 128 + 56) /\ IS_EXTENDED (dir + a / 32) = true.
Proof.
  intros Hdir [? ?]. assert (In (a / 32) [0; 1; 2; 3; 4; 5; 6; 7]) as Hin by (simpl; dlia).
  generalize dependent (a / 32). intros h Hin. simpl in Hin. by destruct Hdir as [-> | ->]; repeat destruct Hin as [<-|Hin].
Qed.

Ltac bytes_ok := split; [repeat first [apply list.Forall_nil_2 | apply list.Forall_cons_2; [done|]]|].
Lemma request_of_ok t : exchange_ok t -> request_ok (request_of t).
Proof.
  destruct t as [reg|reg x|a dc|a dc x]; cbn [exchange_ok request_of exchange_bytes]; unfold request_ok; cbn [wire].
  - intros Hr. pose proof (register_decodes reg Hr) as E. rewrite !andb_true_iff, !negb_true_iff in E.
    destruct E as ((((((B & _) & ?) & ?) & _) & _) & _). apply byteb_spec in B. by bytes_ok.
  - intros [Hr Hx]. pose proof (register_decodes reg Hr) as E. rewrite !andb_true_iff, !negb_true_iff, Z.eqb_neq in E.
    destruct E as ((((((_ & B) & _) & _) & ?) & ?) & ?). apply byteb_spec in B. by bytes_ok.
  - intros (Ha & Hd1 & Hd2). destruct (ext_address_of (128 + 56) a dc) as (B1 & B2 & _); [by right|done..|].
    destruct (ext_prefix (128 + 56) a) as [-> ->]; [by right|done|]. by bytes_ok.
  - intros (Ha & Hd1 & Hd2 & Hx). destruct (ext_address_of 56 a dc) as (B1 & B2 & _); [by left|done..|].
    destruct (ext_prefix 56 a) as [-> ->]; [by left|done|]. by bytes_ok.
Qed.
Lemma request_of_performs t r : exchange_ok t ->
  exists r', perform (request_of t) r = Some (r', chip_answer (chip_of r) t) /\ chip_of r' = after (chip_of r) t.
Proof.
  destruct t as [reg|reg x|a dc|a dc x]; cbn [exchange_ok request_of exchange_bytes perform].
  - intros Hr. rewrite read_cmd_answer by done. by exists r.
  - intros [Hr Hx]. rewrite write_cmd_register by done. exists (write_register reg x r). split; [done|]. by apply write_register_after.
  - intros (Ha & Hd1 & Hd2). exists r. unfold read_ext, pram_at.
    by destruct (ext_address_of (128 + 56) a dc) as (_ & _ & ->); [by right|done..|].
  - intros (Ha & Hd1 & Hd2 & Hx). eexists. split; [done|]. unfold write_ext.
    by destruct (ext_address_of 56 a dc) as (_ & _ & ->); [by left|done..|].
Qed.

Definition replies_to (t : exchange) : bool := match t with Get _ | XGet _ _ => true | _ => false end.


(** ** Concrete runs and findings *)

Definition fresh_rtc : rtc := mk_rtc 0x12345678 0 8 false 0 0 0 (replicate 256 0) true.
Lemma fresh_ready : ready fresh_rtc.
Proof. split; try done. apply list.Forall_replicate. unfold byte, in_width. lia. Qed.

(** The top byte of the seconds, 0x12, on the data line. *)
Example read_seconds :
  option_map snd (clock_bits (msb_bits 0x8D ++ replicate 8 false) fresh_rtc) =
  Some (replicate 8 None ++ (Some <$> [false; false; false; true; false; false; true; false])).
Proof. vm_compute. reflexivity. Qed.
Lemma rtc_inputs_total_witness :
  is_Some (rtc_inputs [(true, true, false); (false, false, true); (false, true, true)] (mk_rtc 0 0 0 false 0 0 0 (replicate 256 0) true)).
Proof.
  apply (rtc_inputs_total false [(false, false, true); (false, true, true)]).
  - reflexivity.
  - apply list.Forall_replicate. unfold byte, in_width. lia.
  - reflexivity.
Defined.
Lemma xpram_roundtrip_witness :
  exists r1 r2, clock_bits (wire_bits (xwrite 0x8A 0x5C)) fresh_rtc = Some (r1, replicate 24 None) /\
    clock_bits (wire_bits (xread 0x8A) ++ replicate 8 true) r1 =
      Some (r2, replicate 16 None ++ (Some <$> msb_bits 0x5C)) /\ ready r2.
Proof.
  apply (xpram_roundtrip 0x8A 0x8A 0x5C fresh_rtc (replicate 8 true) fresh_ready); try reflexivity; unfold byte, in_width; lia.
Defined.

(** With the write protection set by 0x35 0xD5, the legacy command is ignored,
    but the extended command still writes. *)
Definition protected_run (q : request) : option rtc :=
  '(r, _) ← clock_bits (wire_bits (Write 0x35 0xD5)) fresh_rtc;
  '(r, _) ← clock_bits (wire_bits q) r; Some r.
Theorem ext_write_ignores_protection :
  option_map (fun r => (read_only r, pram_at r 0x10)) (protected_run (Write 0x41 0x77)) = Some (1, 0) /\
  option_map (fun r => (read_only r, pram_at r 0x10)) (protected_run (xwrite 0x10 0x77)) = Some (1, 0x77).
Proof. vm_compute. done. Qed.

(** The sum of address and length wraps around in rtc.pram.dump's bounds check. *)
Theorem dump_overruns : rtc_pram_method_dump 1 (2 ^ 64 - 1) fresh_rtc = Overrun.
Proof. reflexivity. Qed.
