(* ===== verification/Keyboard.v ===== *)
(** * The Macintosh Plus keyboard

    Model of src/core/peripherals/keyboard.c: the ring buffer of key codes,
    the translation of host keys, and the command protocol on the VIA's shift
    register, with its two scheduler events. *)
From Stdlib Require Import String.
From S2P Require Import Prelude Scheduler Via.
Local Open Scope string_scope.
Local Open Scope Z_scope.

Definition QUEUE_SIZE : Z := 128.
Definition MODEL_NUMBER : Z := 0x0B.
Definition CMD_INQUIRY : Z := 0x10.
Definition CMD_INSTANT : Z := 0x14.
Definition CMD_MODEL_NUMBER : Z := 0x16.
Definition CMD_TEST : Z := 0x36.
Definition TEST_ACK_RESPONSE : Z := 0x7D.
Definition NULL_RESPONSE : Z := 0x7B.
Definition RX_TO_TX_DELAY : Z := 330 * 8 * 1000.

Record ring := mk_ring { tail : Z; head : Z; buf : list Z }.
Record keyboard := mk_keyboard {
  tx_pending : bool;
  active_cmd : Z;
  queue : ring;
  pressed : list bool;
}.
Definition set_tx_pending (b : bool) (k : keyboard) : keyboard := mk_keyboard b (active_cmd k) (queue k) (pressed k).
Definition set_active_cmd (c : Z) (k : keyboard) : keyboard := mk_keyboard (tx_pending k) c (queue k) (pressed k).
Definition set_queue (q : ring) (k : keyboard) : keyboard := mk_keyboard (tx_pending k) (active_cmd k) q (pressed k).
Definition set_pressed (p : list bool) (k : keyboard) : keyboard := mk_keyboard (tx_pending k) (active_cmd k) (queue k) p.

(** The addresses of the event callbacks. *)
Definition timeout_event : Z := 6.
Definition tx_event : Z := 7.

(** ** The ring buffer *)

(** i + 1, wrapped *)
Definition succ_slot (i : Z) : Z := if i + 1 =? QUEUE_SIZE then 0 else i + 1.
Definition enqueue (byte : Z) (q : ring) : ring :=
  let head' := succ_slot (head q) in
  let tail' := if head' =? tail q then succ_slot (tail q) else tail q in
  mk_ring tail' head' (<[Z.to_nat (head q) := byte]> (buf q)).
Definition dequeue (q : ring) : option (Z * ring) :=
  gs_assert (negb (tail q =? head q));;
  Some (nth (Z.to_nat (tail q)) (buf q) 0, mk_ring (succ_slot (tail q)) (head q) (buf q)).
Definition queue_empty (q : ring) : bool := head q =? tail q.
Definition queue_reset (q : ring) : ring := mk_ring 0 0 (buf q).

(** ** Key codes: the raw code of an ADB virtual key, and whether the keypad
    prefix goes before it *)
Definition key_code (host_key : Z) : option (Z * bool) :=
  match host_key with
  | 0x00 => Some (0x01, false) | 0x01 => Some (0x03, false) | 0x02 => Some (0x05, false)
  | 0x03 => Some (0x07, false) | 0x04 => Some (0x09, false) | 0x05 => Some (0x0B, false)
  | 0x06 => Some (0x0D, false) | 0x07 => Some (0x0F, false) | 0x08 => Some (0x11, false)
  | 0x09 => Some (0x13, false) | 0x0B => Some (0x17, false) | 0x0C => Some (0x19, false)
  | 0x0D => Some (0x1B, false) | 0x0E => Some (0x1D, false) | 0x0F => Some (0x1F, false)
  | 0x10 => Some (0x21, false) | 0x11 => Some (0x23, false) | 0x12 => Some (0x25, false)
  | 0x13 => Some (0x27, false) | 0x14 => Some (0x29, false) | 0x15 => Some (0x2B, false)
  | 0x16 => Some (0x2D, false) | 0x17 => Some (0x2F, false) | 0x18 => Some (0x31, false)
  | 0x19 => Some (0x33, false) | 0x1A => Some (0x35, false) | 0x1B => Some (0x37, false)
  | 0x1C => Some (0x39, false) | 0x1D => Some (0x3B, false) | 0x1E => Some (0x3D, false)
  | 0x1F => Some (0x3F, false) | 0x20 => Some (0x41, false) | 0x21 => Some (0x43, false)
  | 0x22 => Some (0x45, false) | 0x23 => Some (0x47, false) | 0x24 => Some (0x49, false)
  | 0x25 => Some (0x4B, false) | 0x26 => Some (0x4D, false) | 0x27 => Some (0x4F, false)
  | 0x28 => Some (0x51, false) | 0x29 => Some (0x53, false) | 0x2A => Some (0x55, false)
  | 0x2B => Some (0x57, false) | 0x2C => Some (0x59, false) | 0x2D => Some (0x5B, false)
  | 0x2E => Some (0x5D, false) | 0x2F => Some (0x5F, false) | 0x30 => Some (0x61, false)
  | 0x31 => Some (0x63, false) | 0x32 => Some (0x65, false) | 0x33 => Some (0x67, false)
  | 0x35 => Some (0x6B, false) | 0x37 => Some (0x6F, false) | 0x38 => Some (0x71, false)
  | 0x39 => Some (0x73, false) | 0x3A => Some (0x75, false) | 0x7B => Some (0x0D, true)
  | 0x7C => Some (0x05, true) | 0x7D => Some (0x11, true) | 0x7E => Some (0x1B, true)
  | 0x41 => Some (0x03, true) | 0x43 => Some (0x05, true) | 0x45 => Some (0x0D, true)
  | 0x47 => Some (0x0F, false) | 0x4B => Some (0x1B, true) | 0x4C => Some (0x19, true)
  | 0x4E => Some (0x1D, true) | 0x51 => Some (0x11, true) | 0x52 => Some (0x25, true)
  | 0x53 => Some (0x27, true) | 0x54 => Some (0x29, true) | 0x55 => Some (0x2B, true)
  | 0x56 => Some (0x2D, true) | 0x57 => Some (0x2F, true) | 0x58 => Some (0x31, true)
  | 0x59 => Some (0x33, true) | 0x5B => Some (0x37, true) | 0x5C => Some (0x39, true)
  | _ => None
  end.

Inductive key_event := key_down | key_up.
#[global] Instance key_event_eq_dec : EqDecision key_event.
Proof. solve_decision. Defined.

(** ** The keyboard in its machine *)

(** Where the machine keeps the keyboard, and the keyboard's address. *)
Class HasKeyboard (W : Type) := {
  keyboard_self : Z;
  the_keyboard : W -> keyboard;
  put_keyboard : keyboard -> W -> W;
}.

Definition reset_keyboard (k : keyboard) : keyboard :=
  set_pressed (replicate 128 false) (set_queue (queue_reset (queue k)) k).

(** keyboard_input: a command byte from the VIA's shift register. *)
Definition keyboard_input (kself byte : Z) (k : keyboard) (s : sched) : option (keyboard * sched) :=
  let k := set_active_cmd byte k in
  '(schedule_tx, k, s) ←
    (if byte =? 0 then Some (false, k, s)
     else if byte =? CMD_INQUIRY then
       s ← scheduler_new_cpu_event timeout_event kself 0 0 (NS_PER_SEC / 4) s; Some (true, k, s)
     else if byte =? CMD_INSTANT then Some (true, k, s)
     else if byte =? CMD_MODEL_NUMBER then
       let k := reset_keyboard k in Some (true, set_queue (enqueue MODEL_NUMBER (queue k)) k, s)
     else if byte =? CMD_TEST then Some (true, set_queue (enqueue TEST_ACK_RESPONSE (queue k)) k, s)
     else Some (false, k, s));
  if schedule_tx : bool then
    s ← scheduler_new_cpu_event tx_event kself 0 0 RX_TO_TX_DELAY s; Some (k, s)
  else Some (k, s).

Definition keyboard_init (kself : Z) (checkpoint : option keyboard) (s : sched) : option (keyboard * sched) :=
  s ← scheduler_new_event_type "keyboard" kself "timeout" timeout_event s;
  s ← scheduler_new_event_type "keyboard" kself "tx" tx_event s;
  Some (match checkpoint with
        | Some k => k
        | None => mk_keyboard false 0 (mk_ring 0 0 (replicate 128 0)) (replicate 128 false)
        end, s).

Section Keyboard.
Context {W : Type} `{Host W} `{HasKeyboard W}.

Definition getk {A} (f : keyboard -> A) : VM W A := fun st => Some (f (the_keyboard (world st)), st).
Definition modk (f : keyboard -> keyboard) : VM W unit := fun st =>
  Some (tt, mk_vst (the_via st) (the_sched st) (put_keyboard (f (the_keyboard (world st))) (world st))).

Definition tx_to_via (byte : Z) : VM W unit := via_input_sr byte.

Definition timeout_callback : VM W unit := tx_to_via NULL_RESPONSE;; modk (set_tx_pending false).

Definition drop_timeout : VM W unit := on_sched (fun s => Some (remove_event timeout_event keyboard_self s)).

Definition tx_callback : VM W unit :=
  k ← getk id;
  if negb (queue_empty (queue k)) then
    match dequeue (queue k) with
    | Some (byte, q) =>
        modk (set_queue q);; tx_to_via byte;; drop_timeout
    | None => vassert false
    end
  else if active_cmd k =? CMD_INSTANT then
    ask_sched (fun s => gs_assert (negb (has_event timeout_event s)));;
    tx_to_via NULL_RESPONSE
  else modk (set_tx_pending true).

Definition add_key_event (key : Z) : VM W unit :=
  k ← getk id;
  if tx_pending k && queue_empty (queue k) then
    tx_to_via key;; modk (set_tx_pending false);; drop_timeout
  else modk (fun k => set_queue (enqueue key (queue k)) k).

(** The bookkeeping of held keys: whether the transition counts. *)
Definition note_key (event : key_event) (host_key : Z) (k : keyboard) : option keyboard :=
  let down := nth (Z.to_nat host_key) (pressed k) false in
  match event with
  | key_down => if down : bool then None else Some (set_pressed (<[Z.to_nat host_key := true]> (pressed k)) k)
  | key_up => if down : bool then Some (set_pressed (<[Z.to_nat host_key := false]> (pressed k)) k) else None
  end.

Definition keyboard_update (event : key_event) (host_key : Z) : VM W unit :=
  if (host_key <? 0) || (128 <=? host_key) then mret tt
  else
    k ← getk id;
    match note_key event host_key k with
    | None => mret tt
    | Some k =>
        modk (fun _ => k);;
        match key_code host_key with
        | None => mret tt
        | Some (raw_code, needs_keypad_prefix) =>
            vwhen needs_keypad_prefix (add_key_event 0x79);;
            add_key_event (if event is key_up then Z.lor raw_code 0x80 else raw_code)
        end
    end.
End Keyboard.
