(* ===== verification/KeyboardProofs.v ===== *)
(** * The keyboard's queue

    The ring buffer refines a bounded first-in first-out queue that drops its
    oldest byte when it is full. *)
From S2P Require Import Prelude Scheduler Via Keyboard.

(** ** The specification: at most 127 bytes, the oldest first *)
Definition capacity : nat := 127.
Definition push (b : Z) (l : list Z) : list Z := if decide (length l = capacity) then tl l ++ [b] else l ++ [b].

(** ** The ring *)
Record ring_wf (q : ring) : Prop := {
  rw_tail : 0 <= tail q < 128;
  rw_head : 0 <= head q < 128;
  rw_buf : length (buf q) = 128%nat;
}.
Definition fill (q : ring) : nat := Z.to_nat ((head q - tail q) mod 128).
Definition slot (t : Z) (i : nat) : nat := Z.to_nat ((t + Z.of_nat i) mod 128).
Definition contents (q : ring) : list Z := map (fun i => nth (slot (tail q) i) (buf q) 0) (seq 0 (fill q)).

Lemma succ_slot_mod i : 0 <= i < 128 -> succ_slot i = (i + 1) mod 128.
Proof. intros Hi. unfold succ_slot, QUEUE_SIZE. destruct (Z.eqb_spec (i + 1) 128); dlia. Qed.
Lemma fill_bound q : (fill q <= 127)%nat.
Proof. unfold fill. dlia. Qed.
Lemma contents_length q : length (contents q) = fill q.
Proof. unfold contents. by rewrite length_map, length_seq. Qed.
Lemma nth_insert_eq {A} (l : list A) i x d : (i < length l)%nat -> nth i (<[i:=x]> l) d = x.
Proof. intros Hi. rewrite nth_lookup, list_lookup_insert_eq; done. Qed.
Lemma nth_insert_ne {A} (l : list A) i j x d : i <> j -> nth j (<[i:=x]> l) d = nth j l d.
Proof. intros Hne. by rewrite !nth_lookup, list_lookup_insert_ne. Qed.

(** The slots of a run of bytes, after one more was stored in slot [h]. *)
Lemma stored_run t h b (bs : list Z) a n : 0 <= h < 128 -> length bs = 128%nat ->
  (forall i, (a <= i < a + n)%nat -> slot t i <> Z.to_nat h) ->
  map (fun i => nth (slot t i) (<[Z.to_nat h := b]> bs) 0) (seq a n) = map (fun i => nth (slot t i) bs 0) (seq a n).
Proof.
  intros Hh Hl Hne. apply map_ext_in. intros i Hi%in_seq. apply nth_insert_ne. intros E. by apply (Hne i).
Qed.
Lemma slot_free t h n i : 0 <= t < 128 -> 0 <= h < 128 -> (h - t) mod 128 = Z.of_nat n -> (i < n)%nat ->
  slot t i <> Z.to_nat h.
Proof. intros Ht Hh Hn Hi. unfold slot. dlia. Qed.
Lemma slot_head t h n : 0 <= t < 128 -> 0 <= h < 128 -> (h - t) mod 128 = Z.of_nat n -> slot t n = Z.to_nat h.
Proof. intros Ht Hh Hn. unfold slot. dlia. Qed.
Lemma slot_succ t i : 0 <= t < 128 -> slot ((t + 1) mod 128) i = slot t (S i).
Proof. intros Ht. unfold slot. dlia. Qed.

Lemma enqueue_ok b q : ring_wf q -> ring_wf (enqueue b q) /\ contents (enqueue b q) = push b (contents q).
Proof.
  intros [Ht Hh Hb]. unfold enqueue. rewrite !succ_slot_mod by done. set (h' := (head q + 1) mod 128).
  assert (0 <= h' < 128) by (unfold h'; dlia).
  assert ((head q - tail q) mod 128 = Z.of_nat (fill q)) as Hf by (unfold fill; dlia).
  pose proof (fill_bound q) as Hfb. unfold push. rewrite contents_length.
  destruct (Z.eqb_spec h' (tail q)) as [E|Hne].
  - assert (fill q = 127%nat) as Hfull by (unfold h' in E; dlia). rewrite decide_True by done.
    split; [split; cbn; [dlia|done|by rewrite length_insert]|]. unfold contents. cbn [tail head buf].
    assert (fill (mk_ring ((tail q + 1) mod 128) h' (<[Z.to_nat (head q):=b]> (buf q))) = 127%nat) as ->.
    { unfold fill, h'. cbn. unfold h' in E. dlia. }
    rewrite Hfull in *. set (g := fun i => nth (slot (tail q) i) (buf q) 0).
    change (tl (map g (seq 0 127))) with (map g (seq 1 126)). rewrite (seq_S 126 0), map_app. cbn [map Nat.add]. f_equal.
    + unfold g. rewrite <- (stored_run (tail q) (head q) b) by (done || (intros i ?; apply (slot_free _ _ 127); done || lia)).
      rewrite <- (seq_shift 126 0), map_map. apply map_ext. intros i. by rewrite slot_succ.
    + rewrite slot_succ, (slot_head _ (head q)) by done. by rewrite nth_insert_eq by lia.
  - assert (fill q <> 127%nat) as Hfull by (unfold h' in Hne; dlia). rewrite decide_False by done.
    split; [split; cbn; [done|done|by rewrite length_insert]|]. unfold contents. cbn [tail head buf].
    assert (fill (mk_ring (tail q) h' (<[Z.to_nat (head q):=b]> (buf q))) = S (fill q)) as ->.
    { unfold fill, h'. cbn. unfold h' in Hne. dlia. }
    rewrite seq_S, map_app. cbn [map Nat.add]. f_equal.
    + apply stored_run; [done..|]. intros i Hi. apply (slot_free _ _ (fill q)); done || lia.
    + rewrite (slot_head _ (head q)) by done. by rewrite nth_insert_eq by lia.
Qed.
Lemma dequeue_ok q : ring_wf q ->
  match contents q with
  | [] => dequeue q = None /\ queue_empty q = true
  | x :: l => queue_empty q = false /\ exists q', dequeue q = Some (x, q') /\ ring_wf q' /\ contents q' = l
  end.
Proof.
  intros [Ht Hh Hb]. assert ((head q - tail q) mod 128 = Z.of_nat (fill q)) as Hf by (unfold fill; dlia).
  unfold contents. destruct (fill q) as [|n] eqn:En; cbn [seq map].
  - assert (head q = tail q) as E by dlia. unfold dequeue, queue_empty. by rewrite E, Z.eqb_refl.
  - assert (head q <> tail q) as Hne by dlia. unfold dequeue, queue_empty.
    rewrite (proj2 (Z.eqb_neq (tail q) (head q))), (proj2 (Z.eqb_neq (head q) (tail q))) by lia. split; [done|].
    eexists. split.
    + cbn [negb gs_assert mbind option_bind]. by rewrite (slot_head _ (tail q) 0) by (done || dlia).
    + rewrite succ_slot_mod by done. split; [split; cbn; [dlia|done|done]|]. cbn [tail head buf].
      assert (fill (mk_ring ((tail q + 1) mod 128) (head q) (buf q)) = n) as ->.
      { unfold fill. cbn. dlia. }
      rewrite <- (seq_shift n 0), map_map. apply map_ext. intros i. by rewrite slot_succ.
Qed.

(** The keyboard's own invariant: a ring of bytes. *)
Definition kbd_wf (k : keyboard) : Prop := ring_wf (queue k) /\ Forall (in_width 8) (buf (queue k)).
Lemma enqueue_wf b k : in_width 8 b -> kbd_wf k -> kbd_wf (set_queue (enqueue b (queue k)) k).
Proof. intros Hb [Hq Hf]. split; [by apply enqueue_ok|]. by apply list.Forall_insert. Qed.
Lemma reset_wf k : kbd_wf k -> kbd_wf (reset_keyboard k).
Proof. intros [[Ht Hh Hl] Hf]. split; [|done]. split; cbn; [lia|lia|done]. Qed.
Lemma dequeue_wf k : kbd_wf k -> queue_empty (queue k) = false ->
  exists x q', dequeue (queue k) = Some (x, q') /\ in_width 8 x /\ kbd_wf (set_queue q' k).
Proof.
  intros [Hq Hf] He. pose proof (dequeue_ok _ Hq) as Hd. destruct (contents (queue k)) as [|x l] eqn:Ec.
  - destruct Hd as [_ E]. congruence.
  - destruct Hd as (_ & q' & E & Hq' & _). exists x, q'. split; [done|].
    revert E. unfold dequeue. destruct (gs_assert _); [|done]. cbn [mbind option_bind]. intros [= <- <-].
    split; [|by split]. destruct (nth_in_or_default (Z.to_nat (tail (queue k))) (buf (queue k)) 0) as [Hin | ->]; [|by unfold in_width].
    by apply (proj1 (Forall_forall _ _) Hf).
Qed.

(** ** Sequences of operations *)

Inductive queue_op := Enqueue (b : Z) | Dequeue | Clear.
(** Dequeue is called on a queue that is not empty. *)
Fixpoint ring_run (ops : list queue_op) (q : ring) : option (list Z * ring) :=
  match ops with
  | [] => Some ([], q)
  | Enqueue b :: ops => ring_run ops (enqueue b q)
  | Clear :: ops => ring_run ops (queue_reset q)
  | Dequeue :: ops =>
      if queue_empty q then ring_run ops q
      else '(x, q) ← dequeue q; '(out, q) ← ring_run ops q; Some (x :: out, q)
  end.
Fixpoint fifo_run (ops : list queue_op) (l : list Z) : list Z * list Z :=
  match ops with
  | [] => ([], l)
  | Enqueue b :: ops => fifo_run ops (push b l)
  | Clear :: ops => fifo_run ops []
  | Dequeue :: ops =>
      match l with
      | [] => fifo_run ops []
      | x :: l => let '(out, l) := fifo_run ops l in (x :: out, l)
      end
  end.

(** The ring buffer of key codes refines a first-in first-out queue of at
    most 127 bytes that drops its oldest byte when it is full: every sequence
    of operations delivers the same bytes and leaves the same contents, and
    no assertion fails. *)
Theorem ring_refines_fifo ops q :
  ring_wf q ->
  exists q', ring_run ops q = Some (fst (fifo_run ops (contents q)), q') /\
    ring_wf q' /\ contents q' = snd (fifo_run ops (contents q)).
Proof.
  revert q. induction ops as [|[b| |] ops IH]; intros q Hq; cbn [ring_run fifo_run].
  - by exists q.
  - destruct (enqueue_ok b q Hq) as [Hq' E]. rewrite <- E. by apply IH.
  - pose proof (dequeue_ok q Hq) as Hd. destruct (contents q) as [|x l] eqn:Ec.
    + destruct Hd as [_ ->]. rewrite <- Ec. by apply IH.
    + destruct Hd as (-> & q1 & -> & Hq1 & <-). cbn [mbind option_bind].
      destruct (IH q1 Hq1) as (q2 & -> & Hq2 & E2). cbn [mbind option_bind]. exists q2.
      by destruct (fifo_run ops (contents q1)).
  - apply (IH (queue_reset q)). destruct Hq. split; cbn; [lia|lia|done].
Qed.

Definition empty_ring : ring := mk_ring 0 0 (replicate 128 0).
Lemma ring_refines_fifo_witness :
  exists q', ring_run [Enqueue 1; Enqueue 2; Dequeue; Enqueue 3; Dequeue] empty_ring = Some ([1; 2], q') /\
    ring_wf q' /\ contents q' = [3].
Proof.
  apply (ring_refines_fifo [Enqueue 1; Enqueue 2; Dequeue; Enqueue 3; Dequeue] empty_ring).
  split; vm_compute; try split; congruence || reflexivity.
Defined.

(** ** Findings *)

(** The keypad's *, +, / and = send what the arrow keys send, and Clear what
    the letter X sends: the guest cannot tell them apart. *)
Theorem key_codes_collide :
  key_code 0x43 = key_code 0x7C /\ key_code 0x45 = key_code 0x7B /\ key_code 0x4B = key_code 0x7E /\
  key_code 0x51 = key_code 0x7D /\ key_code 0x47 = key_code 0x07.
Proof. done. Qed.
(** No other two keys collide. *)
Theorem key_codes_otherwise_distinct :
  forallb (fun k => forallb (fun k' =>
    match key_code k, key_code k' with
    | Some c, Some c' =>
        bool_decide (k = k') || negb (bool_decide (c = c')) ||
        bool_decide (k ∈ [0x43; 0x7C; 0x45; 0x7B; 0x4B; 0x7E; 0x51; 0x7D; 0x47; 0x07])
    | _, _ => true
    end) (seqZ 0 128)) (seqZ 0 128) = true.
Proof. vm_compute. reflexivity. Qed.
(** The Control key has no code. *)
Theorem control_key_unmapped : key_code 0x36 = None.
Proof. reflexivity. Qed.
