(* ===== verification/Plus.v ===== *)
(** * The Macintosh Plus' devices around its VIA

    Model of the callbacks of src/machines/compact/plus.c: the interrupt
    priorities, the lines of the VIA's ports to the real-time clock, the
    sound, the video and the floppy, and the keyboard on the shift register;
    and the events of these devices.  They meet the laws the VIA is proved
    against.  Of the sound, video and floppy only the lines are kept. *)
From Stdlib Require Import Sorted String.
From S2P Require Import Prelude Scheduler SchedulerProofs SchedulerRun SchedulerCpu Via ViaProofs ViaRun ViaTheorems.
From S2P Require Import Rtc RtcProofs Keyboard KeyboardProofs.

Record plus := mk_plus {
  irq : Z;
  plus_ipl : Z;
  plus_rtc : rtc;
  plus_keyboard : keyboard;
  (** lines to parts that are not modelled *)
  floppy_sel : bool;
  video_main : bool;
  sound_main : bool;
  sound_volume : Z;
  sound_enabled : bool;
}.
Definition plus_eta (p : plus) : plus :=
  mk_plus (irq p) (plus_ipl p) (plus_rtc p) (plus_keyboard p) (floppy_sel p) (video_main p) (sound_main p)
    (sound_volume p) (sound_enabled p).
Ltac plus_set proj x p := field_set plus_eta proj x p.
Definition set_irq (x : Z) (p : plus) : plus := ltac:(plus_set irq x p).
Definition set_plus_ipl (x : Z) (p : plus) : plus := ltac:(plus_set plus_ipl x p).
Definition set_plus_rtc (x : rtc) (p : plus) : plus := ltac:(plus_set plus_rtc x p).
Definition set_plus_keyboard (x : keyboard) (p : plus) : plus := ltac:(plus_set plus_keyboard x p).
Definition set_sound_enabled (x : bool) (p : plus) : plus := ltac:(plus_set sound_enabled x p).

(** The addresses of the devices. *)
Definition via_self : Z := 100.
Definition rtc_self : Z := 200.
Definition kbd_self : Z := 300.

Definition getw {A} (f : plus -> A) : VM plus A := fun st => Some (f (world st), st).
Definition modw (f : plus -> plus) : VM plus unit :=
  fun st => Some (tt, mk_vst (the_via st) (the_sched st) (f (world st))).

(** The level the PALs present for the interrupt lines of the VIA (1) and the
    SCC (2). *)
Definition priority (irq : Z) : Z := if 1 <? irq then 2 else if irq =? 1 then 1 else 0.
Definition plus_update_ipl (level : Z) (value : bool) : VM plus unit :=
  modw (fun p => set_irq (if value then Z.lor (irq p) level else Z.land (irq p) (Z.lnot level)) p);;
  modw (fun p => set_plus_ipl (priority (irq p)) p);;
  on_sched cpu_reschedule.
Definition plus_via_irq (active : bool) : VM plus unit := plus_update_ipl 1 active.
Definition plus_scc_irq (active : bool) : VM plus unit := plus_update_ipl 2 active.

(** rtc_input on the clock in the machine; the bit it sends goes to the VIA. *)
Definition plus_rtc_input (disable clk data : bool) : VM plus unit :=
  r ← getw plus_rtc;
  match rtc_input disable clk data r with
  | None => vassert false
  | Some (r, out) =>
      modw (set_plus_rtc r);;
      match out with
      | Some b => via_input 1 0 b
      | None => mret tt
      end
  end.

Definition plus_via_output (port output : Z) : VM plus unit :=
  if port =? 0 then
    modw (fun p => mk_plus (irq p) (plus_ipl p) (plus_rtc p) (plus_keyboard p)
      (truthy (Z.land output 0x20)) (truthy (Z.land (Z.shiftr output 6) 1)) (truthy (Z.land (Z.shiftr output 3) 1))
      (Z.land output 7) (sound_enabled p))
  else
    plus_rtc_input (truthy (Z.land (Z.shiftr output 2) 1)) (truthy (Z.land (Z.shiftr output 1) 1))
      (truthy (Z.land output 1));;
    modw (set_sound_enabled (Z.land output 0x80 =? 0)).

Definition plus_via_shift_out (byte : Z) : VM plus unit := fun st =>
  '(k, s) ← keyboard_input kbd_self byte (plus_keyboard (world st)) (the_sched st);
  Some (tt, mk_vst (the_via st) s (set_plus_keyboard k (world st))).

#[global] Instance plus_host : Host plus := {
  self := via_self;
  output_cb := plus_via_output;
  shift_cb := plus_via_shift_out;
  irq_cb := plus_via_irq;
  porta_read := None;
  porta_write := None;
}.
#[global] Instance plus_has_keyboard : HasKeyboard plus := {
  keyboard_self := kbd_self;
  the_keyboard := plus_keyboard;
  put_keyboard := set_plus_keyboard;
}.

(** one_second_interrupt *)
Definition one_second_interrupt : VM plus unit :=
  modw (fun p => set_plus_rtc (one_second_tick (plus_rtc p)) p);;
  via_input_c 0 1 false;;
  via_input_c 0 1 true;;
  on_sched (schedule_second rtc_self).

(** plus_trigger_vbl, as far as the VIA sees it *)
Definition plus_trigger_vbl : VM plus unit := via_input_c 0 0 false;; via_input_c 0 0 true.

(** The callback of an event of the devices. *)
Definition plus_callback (e : event) : VM plus unit :=
  if callback e =? one_second_event then one_second_interrupt
  else if callback e =? timeout_event then timeout_callback
  else if callback e =? tx_event then tx_callback
  else via_callback e.

(** The part of plus_init that sets these devices up, on a fresh scheduler. *)
Definition plus_init (unix_time : Z) : option (vst plus) :=
  s ← scheduler_init 9 None;
  s ← scheduler_set_cpi 10 s;
  '(r, s) ← rtc_init rtc_self unix_time None true s;
  let p := mk_plus 0 0 r (mk_keyboard false 0 (mk_ring 0 0 (replicate 128 0)) (replicate 128 false)) false true false 0 false in
  '(_, st) ← via_init 10 (Some "via1"%string) None (mk_vst (reset_via 10) s p);
  '(k, s) ← keyboard_init kbd_self None (the_sched st);
  Some (mk_vst (the_via st) s (set_plus_keyboard k (world st))).

(** ** The laws *)

#[global] Instance plus_spec : HostSpec plus := {
  irq_line p := Z.testbit (irq p) 0;
  world_wf p := (rtc_ok (plus_rtc p) /\ kbd_wf (plus_keyboard p)) /\
                0 <= irq p < 4 /\ plus_ipl p = priority (irq p);
  machine_types := [(rtc_self, one_second_event); (kbd_self, timeout_event); (kbd_self, tx_event)];
}.

(** The scheduler's operations under the devices, as the VIA sees them. *)
Lemma elapse_reconciled s : host_sched s -> elapse s (reconciled s).
Proof.
  intros [Hok Hn Ht Hm Hf Hr]. split.
  - split; try done; [by apply reconciled_ok|by rewrite reconciled_now].
  - rewrite reconciled_now. lia.
  - by repeat constructor.
Qed.
(** An event of another device. *)
Lemma elapse_event cb src ns s : host_sched s -> In (src, cb) machine_types -> 1 <= ns <= 1000000000 ->
  Z.of_nat (length (others s)) < MAX_SANE_EVENTS - 3 -> (length (cpu_events s) <= length (others s) + 3)%nat ->
  exists s', scheduler_new_cpu_event cb src 0 0 ns s = Some s' /\ elapse s s' /\
    (length (others s') <= length (others s) + 1)%nat /\ (length (cpu_events s') <= length (others s') + 3)%nat.
Proof.
  intros Hs Hty Hns Hroom Hlen. pose proof Hs as [Hok Hn Ht Hm Hf Hr].
  pose proof (proj1 (Forall_forall _ _) Hm _ Hty) as Hfind. cbn [fst snd] in Hfind.
  assert (cb <> 0 /\ forall c, In c via_events -> cb <> c) as [Hcb Hdiff].
  { simpl in Hty. destruct Hty as [[= <- <-]|[[= <- <-]|[[= <- <-]|[]]]]; split; try done; intros c [<-|[<-|[<-|[]]]]; done. }
  assert (0 <= delay_cycles s 0 ns < 2 ^ 62) as Hd.
  { unfold delay_cycles. rewrite (proj2 (Z.eqb_neq ns 0)) by lia. unfold NS_PER_SEC. rewrite u64_small by (pow2; nia).
    split; [apply Z.div_pos; nia|]. apply Z.div_lt_upper_bound; pow2; nia. }
  set (e := new_event cb src 0 (delay_cycles s 0 ns) s).
  assert (forall c, In c via_events -> event_matches c self e = false) as Hnot.
  { intros c Hc. unfold event_matches, e. cbn [callback new_event]. by rewrite (proj2 (Z.eqb_neq cb c)) by by apply Hdiff. }
  assert (mine e = false) as Hmine.
  { unfold mine, via_events. cbn [existsb]. by rewrite !Hnot by (simpl; tauto). }
  assert (length (others (with_event e s)) = S (length (others s))) as Hlo.
  { unfold others, with_event. cbn [cpu_events set_cpu_events reconciled set_sprint_burndown set_sprint_total].
    rewrite <- !filter_length_perm with (1 := insert_spec_perm (cpu_events s) e). cbn [List.filter]. by rewrite Hmine. }
  exists (with_event e s). split; [|split; [split|split]].
  - apply new_cpu_event_ok; [done| |done|unfold MAX_SANE_EVENTS in *; lia]. split; [done|]. split; [lia|done].
  - split; try done; [apply with_event_ok; try done; unfold MAX_SANE_EVENTS in *; lia| |rewrite Hlo; lia].
    change (0 < now (reconciled s)). by rewrite reconciled_now.
  - change (now s <= now (reconciled s)). rewrite reconciled_now. lia.
  - apply Forall_forall. intros c Hc. unfold evs. apply filter_insert_other; [apply Hok|by apply Hnot].
  - lia.
  - unfold with_event at 1. cbn [cpu_events set_cpu_events]. rewrite (Permutation_length (insert_spec_perm _ _)), Hlo. simpl. lia.
Qed.

Lemma irq_bit0 (x level : Z) (b : bool) : level = 1 \/ level = 2 ->
  Z.testbit (if b then Z.lor x level else Z.land x (Z.lnot level)) 0 = if level =? 1 then b else Z.testbit x 0.
Proof.
  intros [-> | ->]; destruct b; rewrite ?Z.lor_spec, ?Z.land_spec, ?Z.lnot_spec by lia; simpl;
    rewrite ?orb_true_r, ?orb_false_r, ?andb_false_r, ?andb_true_r; done.
Qed.
Lemma irq_range x level b : 0 <= x < 4 -> level = 1 \/ level = 2 ->
  0 <= (if b : bool then Z.lor x level else Z.land x (Z.lnot level)) < 4.
Proof. intros Hx [-> | ->]; small_z x; by destruct b. Qed.
Lemma plus_update_ipl_ok level b st : level = 1 \/ level = 2 -> host_sched (the_sched st) -> world_wf (world st) ->
  wp (plus_update_ipl level b) (fun _ st' => the_via st' = the_via st /\ elapse (the_sched st) (the_sched st') /\
    now (the_sched st') = now (the_sched st) /\
    line_is (world st') (if level =? 1 then b else irq_line (world st))) st.
Proof.
  intros Hl Hs Hw. unfold plus_update_ipl. apply wp_bind. eexists tt, _. split; [done|]. apply wp_bind.
  eexists tt, _. split; [done|]. eapply wp_on_sched; [apply reconcile_ok, Hs|]. cbn [the_via the_sched world].
  split; [done|]. split; [by apply elapse_reconciled|]. split; [apply reconciled_now|]. destruct Hw as (Hd & Hirq & _).
  split; [by apply irq_bit0|]. split; [done|]. split; [by apply irq_range|done].
Qed.

(** A command to the keyboard schedules at most two events. *)
Lemma keyboard_input_ok x k s : host_sched s -> spare_room s -> (length (cpu_events s) <= length (others s) + 3)%nat ->
  kbd_wf k ->
  exists k' s', keyboard_input kbd_self x k s = Some (k', s') /\ kbd_wf k' /\ elapse s s'.
Proof.
  intros Hs Hroom Hlen Hk. unfold spare_room in Hroom. unfold keyboard_input.
  assert (forall k1 s1, kbd_wf k1 -> elapse s s1 -> Z.of_nat (length (others s1)) < MAX_SANE_EVENTS - 3 ->
    (length (cpu_events s1) <= length (others s1) + 3)%nat ->
    exists k' s', (s ← scheduler_new_cpu_event tx_event kbd_self 0 0 RX_TO_TX_DELAY s1; Some (k1, s)) = Some (k', s') /\
      kbd_wf k' /\ elapse s s') as Htx.
  { intros k1 s1 Hk1 He Hr Hl. destruct (elapse_event tx_event kbd_self RX_TO_TX_DELAY s1) as (s2 & -> & He2 & _);
      [apply He|simpl; tauto|unfold RX_TO_TX_DELAY; lia|done|done|].
    exists k1, s2. split; [done|]. split; [done|]. by eapply elapse_trans. }
  pose proof (elapse_refl s Hs) as Hrefl.
  destruct (x =? 0); [by exists (set_active_cmd x k), s|].
  destruct (x =? CMD_INQUIRY).
  { destruct (elapse_event timeout_event kbd_self (NS_PER_SEC / 4) s) as (s1 & -> & He1 & Ho1 & Hl1);
      [done|simpl; tauto|unfold NS_PER_SEC; dlia|lia|done|]. cbn [mbind option_bind]. apply Htx; try done. lia. }
  destruct (x =? CMD_INSTANT); [apply Htx; try done; lia|].
  destruct (x =? CMD_MODEL_NUMBER).
  { apply Htx; try done; [|lia]. by apply enqueue_wf, reset_wf. }
  destruct (x =? CMD_TEST); [apply Htx; try done; [by apply enqueue_wf|lia]|].
  by exists (set_active_cmd x k), s.
Qed.

(** A device touches only its own state, keeping its invariant. *)
Lemma world_step f (st : vst plus) : vinv st -> irq (f (world st)) = irq (world st) -> world_wf (f (world st)) ->
  dev_step st (mk_vst (the_via st) (the_sched st) (f (world st))).
Proof.
  intros Hi E Hw. apply dev_env; [apply elapse_refl, Hi| |done]. cbn [irq_line plus_spec]. by rewrite E.
Qed.
Lemma world_inv f (st : vst plus) : vinv st -> irq (f (world st)) = irq (world st) -> world_wf (f (world st)) ->
  vinv (mk_vst (the_via st) (the_sched st) (f (world st))).
Proof.
  intros Hi E Hw. apply (quiet_inv st); [done|split; try done; apply Hi|apply elapse_refl, Hi|]. split; [|done].
  cbn [irq_line plus_spec]. rewrite E. apply Hi.
Qed.
Lemma rtc_input_steps d c x (st : vst plus) : vinv st ->
  wp (plus_rtc_input d c x) (fun _ st' => relations.rtc dev_step st st' /\ vinv st') st.
Proof.
  intros Hi. unfold plus_rtc_input. apply wp_bind. eexists _, st. split; [done|].
  pose proof Hi as [[_ [_ [[Hr Hk] Hirq]] _] _ _ _ _].
  destruct (rtc_input_ok d c x (plus_rtc (world st)) Hr) as (r' & o & -> & Hr').
  apply wp_bind. eexists tt, _. split; [done|].
  pose proof (world_step (set_plus_rtc r') st Hi eq_refl (conj (conj Hr' Hk) Hirq)) as Hd.
  pose proof (world_inv (set_plus_rtc r') st Hi eq_refl (conj (conj Hr' Hk) Hirq)) as Hi1.
  destruct o as [b|]; [|apply wp_ret; split; [by apply rtc_once|done]].
  destruct (via_input_tame 1 0 b _ Hi1) as ([] & st2 & E & Hi2 & _); [lia..|].
  exists tt, st2. split; [done|]. split; [|done]. eapply rtc_l; [exact Hd|]. apply rtc_once.
  by apply (dev_input _ 1 0 b); [lia..|].
Qed.
Lemma keyboard_steps x (st : vst plus) : vinv st -> spare_room (the_sched st) ->
  wp (plus_via_shift_out x) (fun _ => relations.rtc dev_step st) st.
Proof.
  intros Hi Hroom. pose proof Hi as [[_ [_ [[Hr Hk] Hirq]] Hs] _ T1 T2 Hsh].
  assert (exists k' s', keyboard_input kbd_self x (plus_keyboard (world st)) (the_sched st) = Some (k', s') /\
    kbd_wf k' /\ elapse (the_sched st) s') as (k' & s' & E & Hk' & He).
  { apply keyboard_input_ok; try done. pose proof (queue_length (the_sched st)).
    apply timer_wf_length in T1, T2. apply shift_wf_length in Hsh. cbn [timer_event] in *.
    change (timer_event TIMER_1) with t1_event in T1. change (timer_event TIMER_2) with t2_event in T2. lia. }
  unfold plus_via_shift_out. eexists tt, _. split; [by rewrite E|]. apply rtc_once. by apply dev_env.
Qed.
#[global] Instance plus_laws : HostLaws plus.
Proof.
  split.
  - done.
  - intros b st Hs Hw. apply (plus_update_ipl_ok 1 b st); [by left|done..].
  - intros i x st Hi. cbn [output_cb plus_host]. unfold plus_via_output. destruct (i =? 0).
    + eexists tt, _. split; [done|]. apply rtc_once, (world_step (fun p => mk_plus _ _ _ _ _ _ _ _ _)); try done; apply Hi.
    + apply wp_bind. eapply wp_mono; [by apply rtc_input_steps|]. intros [] st1 [Hd Hi1]. eexists tt, _. split; [done|].
      eapply rtc_r; [exact Hd|]. apply world_step; try done. apply Hi1.
  - intros x st Hi Hroom. by apply keyboard_steps.
  - done.
  - done.
Qed.
