(* ===== verification/PlusTheorems.v ===== *)
(** * The Macintosh Plus' devices together

    The VIA, the real-time clock and the keyboard on one scheduler, as a state
    machine: processor accesses, events in the order the scheduler fires them,
    keys, the vertical blanking and the SCC's interrupt line. *)
From Stdlib Require Import Sorted String.
From S2P Require Import Prelude Scheduler SchedulerProofs SchedulerRun SchedulerCpu Via ViaProofs ViaRun ViaTheorems.
From S2P Require Import Rtc RtcProofs Keyboard KeyboardProofs Plus.

Implicit Types st : vst plus.

(** ** Devices step by step *)

Lemma world_tame f st : vinv st -> irq (f (world st)) = irq (world st) -> world_wf (f (world st)) ->
  wp (modw f) (fun _ => tame st) st.
Proof. intros Hi E Hw. eexists tt, _. split; [done|]. by apply dev_step_tame, world_step. Qed.
Lemma keyboard_tame f st : vinv st -> (forall k, kbd_wf k -> kbd_wf (f k)) ->
  wp (modk f) (fun _ => tame st) st.
Proof.
  intros Hi Hf. apply (world_tame (fun p => set_plus_keyboard (f (plus_keyboard p)) p) st Hi eq_refl).
  pose proof Hi as [[_ [_ [[Hr Hk] Hirq]] _] _ _ _ _]. split; [split; [done|by apply Hf]|done].
Qed.
Lemma sched_tame f s st : vinv st -> f (the_sched st) = Some s -> elapse (the_sched st) s ->
  wp (on_sched f) (fun _ => tame st) st.
Proof.
  intros Hi E He. eapply wp_on_sched; [exact E|]. apply dev_step_tame; [done|]. apply dev_env; try done. apply Hi.
Qed.
Lemma scc_tame b st : vinv st -> wp (plus_scc_irq b) (fun _ => tame st) st.
Proof.
  intros Hi. pose proof Hi as [[_ [_ Hw] Hs] _ _ _ _].
  eapply wp_mono; [apply (plus_update_ipl_ok 2 b st); [by right|done..]|].
  intros ? [v' s' w'] (Ev & He & _ & Hl & Hw'). cbn [the_via the_sched world] in *. subst v'.
  apply dev_step_tame; [done|]. by apply dev_env.
Qed.

(** Events of the other devices come and go without the VIA noticing. *)
Lemma matches_event cb src e : event_matches cb src e = true -> src <> 0 -> callback e = cb /\ source e = src.
Proof. unfold event_matches. rewrite andb_true_iff, orb_true_iff, !Z.eqb_eq. tauto. Qed.
Lemma remove_elapse cb src s : host_sched s -> (forall c, In c via_events -> cb <> c) -> elapse s (remove_event cb src s).
Proof.
  intros [Hok Hn Ht Hm Hf Hr] Hcb.
  assert (forall c e, In c via_events -> event_matches c self e = true -> negb (event_matches cb src e) = true) as Hk.
  { intros c e Hc He. apply negb_true_iff, not_true_iff_false. intros E.
    apply (Hcb c Hc). unfold event_matches in *. rewrite andb_true_iff, Z.eqb_eq in E, He. destruct E, He. congruence. }
  split.
  - split; try done; [by apply events_ok|]. unfold others, remove_event. cbn [cpu_events set_cpu_events].
    etransitivity; [|exact Hr]. apply inj_le. unfold others. clear.
    induction (cpu_events s) as [|e q IH]; cbn [List.filter]; [lia|].
    destruct (negb (event_matches cb src e)), (negb (mine e)) eqn:E; cbn [List.filter]; rewrite ?E; cbn [length]; lia.
  - change (now s <= now s). lia.
  - apply Forall_forall. intros c Hc. unfold evs, remove_event. cbn [cpu_events set_cpu_events].
    apply filter_filter_disjoint. intros e. by apply Hk.
Qed.
Lemma pop_elapse e q s : host_sched s -> cpu_events s = e :: q -> mine e = false -> elapse s (popped e q s).
Proof.
  intros Hs E Hm. split; [by apply popped_sched|change (now s <= now s); lia|].
  apply Forall_forall. intros c Hc. rewrite (evs_popped c e q s E).
  destruct (event_matches c self e) eqn:Em; [|done]. by rewrite (mine_matches c e Hc Em) in Hm.
Qed.
Lemma not_mine e cb : callback e = cb -> (forall c, In c via_events -> cb <> c) -> mine e = false.
Proof.
  intros E Hcb. apply not_true_iff_false. intros Hm. destruct (mine_cases e Hm) as [Hc|[Hc|Hc]];
    apply matches_callback in Hc; rewrite E in Hc; eapply Hcb; [|exact Hc| |exact Hc| |exact Hc]; simpl; tauto.
Qed.
(** ** The keyboard *)

Lemma drop_timeout_tame st : vinv st -> wp drop_timeout (fun _ => tame st) st.
Proof.
  intros Hi. eapply sched_tame; [done|done|]. apply remove_elapse; [apply Hi|]. intros c [<-|[<-|[<-|[]]]]; done.
Qed.
Lemma add_key_tame x st : vinv st -> in_width 8 x -> wp (add_key_event x) (fun _ => tame st) st.
Proof.
  intros Hi Hx. unfold add_key_event. apply wp_bind. eexists _, st. split; [done|]. unfold id.
  destruct (tx_pending _ && queue_empty _).
  - apply bind_tame; [by apply via_input_sr_tame|]. intros _ st1 Hi1.
    apply bind_tame; [by apply keyboard_tame|]. intros _ st2 Hi2. by apply drop_timeout_tame.
  - apply keyboard_tame; [done|]. intros k Hk. by apply enqueue_wf.
Qed.
Lemma key_code_byte k raw pre : key_code k = Some (raw, pre) -> 0 <= raw < 128.
Proof. unfold key_code. repeat case_match; intros [= <- <-]; lia. Qed.
Lemma keyboard_update_tame ev k st : vinv st -> wp (keyboard_update ev k) (fun _ => tame st) st.
Proof.
  intros Hi. unfold keyboard_update. destruct (_ || _); [apply wp_ret; by apply tame_refl|].
  apply wp_bind. eexists _, st. split; [done|]. unfold id.
  destruct (note_key ev k _) as [k'|] eqn:En; [|apply wp_ret; by apply tame_refl].
  apply bind_tame.
  - apply keyboard_tame; [done|]. intros k0 _. pose proof Hi as [[_ [_ [[_ Hk] _]] _] _ _ _ _].
    revert En. unfold note_key. repeat case_match; by intros [= <-].
  - intros _ st1 Hi1. destruct (key_code k) as [[raw pre]|] eqn:Ek; [|apply wp_ret; by apply tame_refl].
    apply key_code_byte in Ek. apply bind_tame; [apply when_tame; [done|by apply add_key_tame]|].
    intros _ st2 Hi2. apply add_key_tame; [done|]. destruct ev; [unfold in_width; lia|]. apply lor_width; unfold in_width; lia.
Qed.

Lemma timeout_tame st : vinv st -> wp timeout_callback (fun _ => tame st) st.
Proof.
  intros Hi. unfold timeout_callback. apply bind_tame; [by apply via_input_sr_tame|]. intros _ st1 Hi1. by apply keyboard_tame.
Qed.
(** The reply to a command.  An INSTANT command answered while an INQUIRY's
    timeout is pending fails an assertion. *)
Definition replies (st : vst plus) : Prop :=
  has_event timeout_event (the_sched st) = false \/ active_cmd (plus_keyboard (world st)) <> CMD_INSTANT \/
  queue_empty (queue (plus_keyboard (world st))) = false.
Lemma tx_tame st : vinv st -> replies st -> wp tx_callback (fun _ => tame st) st.
Proof.
  intros Hi Hq. unfold replies in Hq. unfold tx_callback. apply wp_bind. eexists _, st. split; [done|]. unfold id. cbn [the_keyboard plus_has_keyboard].
  pose proof Hi as [[_ [_ [[_ Hk] _]] _] _ _ _ _].
  destruct (queue_empty _) eqn:Ee; cbn [negb].
  - destruct (Z.eqb_spec (active_cmd (plus_keyboard (world st))) CMD_INSTANT) as [Ec|_]; [|by apply keyboard_tame].
    apply wp_bind. eapply (wp_ask _ tt); [|by apply via_input_sr_tame].
    destruct Hq as [-> |[|]]; done.
  - destruct (dequeue_wf _ Hk Ee) as (x & q' & -> & Hx & Hk').
    apply bind_tame; [|intros _ st1 Hi1; apply bind_tame; [by apply via_input_sr_tame|intros _ st2 Hi2; by apply drop_timeout_tame]].
    apply keyboard_tame; [done|]. intros k _. exact Hk'.
Qed.

(** ** The clock's second, and the vertical blanking *)

Lemma event_room st : vinv st -> (length (cpu_events (the_sched st)) <= length (others (the_sched st)) + 3)%nat.
Proof.
  intros [_ _ T1 T2 Hsh]. pose proof (queue_length (the_sched st)). apply timer_wf_length in T1, T2.
  apply shift_wf_length in Hsh. change (timer_event TIMER_1) with t1_event in T1.
  change (timer_event TIMER_2) with t2_event in T2. lia.
Qed.
Lemma vbl_tame st : vinv st -> wp plus_trigger_vbl (fun _ => tame st) st.
Proof.
  intros Hi. unfold plus_trigger_vbl. apply bind_tame; [by apply via_input_c_tame|]. intros _ st1 Hi1. by apply via_input_c_tame.
Qed.
(** Driving a control line leaves the queue alone: the interrupt line only
    cuts the sprint short. *)
Definition same_queue st st' : Prop := cpu_events (the_sched st') = cpu_events (the_sched st).
Lemma update_ifr_queue n st st' : update_ifr n st = Some (tt, st') -> same_queue st st'.
Proof.
  unfold update_ifr, vwhen, mbind, vm_bind, gets, modify. cbn [mbind option_bind id].
  destruct (truthy _); cbn [mbind option_bind].
  - cbn [irq_cb plus_host]. unfold plus_via_irq, plus_update_ipl, modw, on_sched, cpu_reschedule, reconcile_sprint, mbind, vm_bind.
    cbn [mbind option_bind the_sched]. destruct (gs_assert _); [|done]. cbn. by intros [= <-].
  - cbn. by intros [= <-].
Qed.
Lemma raise_queue b st st' : raise_flag b st = Some (tt, st') -> same_queue st st'.
Proof. unfold raise_flag, mbind, vm_bind, gets. cbn [mbind option_bind]. apply update_ifr_queue. Qed.
Lemma via_input_c_queue p c x st st' : via_input_c p c x st = Some (tt, st') -> same_queue st st'.
Proof.
  unfold via_input_c, vassert, vwhen, mbind, vm_bind, gets, modify. cbn [mbind option_bind].
  destruct ((p =? 0) || (p =? 1)); [|done]. cbn [mbind option_bind]. destruct ((c =? 0) || (c =? 1)); [|done].
  cbn [mbind option_bind id].
  repeat case_match; cbn [mbind option_bind]; repeat case_match; first
    [ intros E%raise_queue; exact E | by intros [= <-] ].
Qed.
(** Two steps of a body, the first leaving the queue alone. *)
Lemma bind_queue (m k : VM plus unit) st : wp m (fun _ => tame st) st ->
  (forall st', m st = Some (tt, st') -> same_queue st st') ->
  (forall st', vinv st' -> same_queue st st' -> wp k (fun _ => tame st') st') ->
  wp (m ≫= fun _ => k) (fun _ => tame st) st.
Proof.
  intros ([] & st1 & E & Ht) Hq Hk. apply wp_bind. exists tt, st1. split; [done|].
  eapply wp_mono; [apply Hk; [apply Ht|by apply Hq]|]. intros ? st2 Ht'. by eapply tame_trans.
Qed.
Lemma second_tame st : vinv st -> Z.of_nat (length (others (the_sched st))) < MAX_SANE_EVENTS - 3 ->
  wp one_second_interrupt (fun _ => tame st) st.
Proof.
  intros Hi Hroom. unfold one_second_interrupt. apply bind_queue.
  { apply world_tame; [done|done|]. pose proof Hi as [[_ [_ [[[] ?] ?]] _] _ _ _ _]. by split; [split|]. }
  { by intros st' [= <-]. }
  intros st1 Hi1 Hq1. apply bind_queue; [by apply via_input_c_tame|apply via_input_c_queue|].
  intros st2 Hi2 Hq2. apply bind_queue; [by apply via_input_c_tame|apply via_input_c_queue|]. intros st3 Hi3 Hq3.
  destruct (elapse_event one_second_event rtc_self 1000000000 (the_sched st3)) as (s' & E & He & _);
    [apply Hi3|simpl; tauto|lia| |by apply event_room|by eapply sched_tame].
  assert (others (the_sched st3) = others (the_sched st)) as -> by (unfold others; congruence). done.
Qed.

(** ** The machine *)

Definition device_event (e : event) : Prop :=
  In (source e, callback e) [(rtc_self, one_second_event); (kbd_self, timeout_event); (kbd_self, tx_event)].
Inductive plus_step st : vst plus -> Prop :=
  | plus_via a st' : via_step a st st' -> plus_step st st'
  | plus_scc b st' : plus_scc_irq b st = Some (tt, st') -> plus_step st st'
  | plus_key ev k st' : keyboard_update ev k st = Some (tt, st') -> plus_step st st'
  | plus_vbl st' : plus_trigger_vbl st = Some (tt, st') -> plus_step st st'
  | plus_event e q st' : cpu_events (the_sched st) = e :: q -> device_event e ->
      plus_callback e (popping e q st) = Some (tt, st') -> plus_step st st'.

Lemma device_not_mine e : device_event e -> mine e = false.
Proof.
  unfold device_event. cbn [In]. intros [E|[E|[E|[]]]]; injection E as Es Ec; eapply not_mine; try (symmetry; exact Ec);
    intros c [<-|[<-|[<-|[]]]]; done.
Qed.
Lemma popping_tame e q st : vinv st -> cpu_events (the_sched st) = e :: q -> mine e = false -> tame st (popping e q st).
Proof. intros Hi E Hm. apply dev_step_tame; [done|]. apply dev_env; [by apply pop_elapse; [apply Hi|..]|done|apply Hi]. Qed.
Lemma popping_room e q st : vinv st -> cpu_events (the_sched st) = e :: q -> mine e = false ->
  Z.of_nat (length (others (the_sched (popping e q st)))) < MAX_SANE_EVENTS - 3.
Proof.
  intros [[_ _ [_ _ _ _ _ Hr]] _ _ _ _] E Hm. unfold others in *. rewrite E in Hr. cbn [List.filter] in Hr.
  rewrite Hm in Hr. cbn [negb length] in Hr. cbn [popping the_sched popped cpu_events set_fired set_cpu_events]. lia.
Qed.
Lemma plus_callback_tame e q st : vinv st -> cpu_events (the_sched st) = e :: q -> device_event e ->
  (callback e = tx_event -> replies (popping e q st)) -> wp (plus_callback e) (fun _ => tame st) (popping e q st).
Proof.
  intros Hi E Hd Hq. pose proof (device_not_mine e Hd) as Hm. pose proof (popping_tame e q st Hi E Hm) as Ht.
  eapply (wp_mono _ (fun _ => tame (popping e q st))); [|intros ? st' Ht'; by eapply tame_trans].
  pose proof (popping_room e q st Hi E Hm) as Hroom. pose proof Ht as [Hi' _].
  unfold plus_callback. unfold device_event in Hd. cbn [In] in Hd. destruct Hd as [Ee|[Ee|[Ee|[]]]]; injection Ee as Es Ec; rewrite <- Ec in *.
  - by apply second_tame.
  - by apply timeout_tame.
  - apply tx_tame; [done|]. by apply Hq.
Qed.
Lemma tx_replies st st' : tx_callback st = Some (tt, st') -> replies st.
Proof.
  unfold tx_callback, replies, mbind, vm_bind, getk, ask_sched. cbn [mbind option_bind id the_keyboard plus_has_keyboard].
  destruct (queue_empty _); [|by right; right]. cbn [negb].
  destruct (Z.eqb_spec (active_cmd (plus_keyboard (world st))) CMD_INSTANT); [|by right; left].
  destruct (has_event _ _); [|by left]. done.
Qed.
Lemma plus_callback_replies e st st' : plus_callback e st = Some (tt, st') -> callback e = tx_event -> replies st.
Proof. unfold plus_callback. intros E Ec. rewrite Ec in E. by apply tx_replies in E. Qed.
Lemma plus_step_inv st st' : vinv st -> plus_step st st' -> vinv st'.
Proof.
  intros Hi. destruct 1 as [a st' Hs|b st' E|ev k st' E|st' E|e q st' E Hd Ec].
  - by apply (via_step_inv a st st').
  - destruct (wp_gets_inv _ _ _ (scc_tame b st Hi) _ _ E). done.
  - destruct (wp_gets_inv _ _ _ (keyboard_update_tame ev k st Hi) _ _ E). done.
  - destruct (wp_gets_inv _ _ _ (vbl_tame st Hi) _ _ E). done.
  - pose proof (plus_callback_tame e q st Hi E Hd (plus_callback_replies _ _ _ Ec)) as Hw.
    destruct (wp_gets_inv _ _ _ Hw _ _ Ec). done.
Qed.
Lemma plus_steps_inv st st' : vinv st -> relations.rtc plus_step st st' -> vinv st'.
Proof. intros Hi Hr. induction Hr as [|st1 st2 st3 Hs _ IH]; [done|]. by apply IH, (plus_step_inv st1). Qed.

(** Some flag of the VIA is set and enabled. *)
Definition via_requests (v : via) : bool := existsb (fun i => Z.testbit (ifr v) i && Z.testbit (ier v) i) (seqZ 0 7).
Lemma via_requests_line st : vinv st -> via_requests (the_via st) = irq_line (world st).
Proof.
  intros [[Hr [Hl _] _] Hq _ _ _]. unfold irq_wf in Hq.
  apply eq_bool_prop_intro. rewrite !Is_true_true, Hl, Hq, aggregate_high, (flags_enabled _ _ (vr_ifr _ Hr)).
  unfold via_requests. rewrite existsb_exists. setoid_rewrite <- list_elem_of_In. setoid_rewrite elem_of_seqZ.
  split; intros (i & Hi & Hb); exists i; [apply andb_true_iff in Hb|rewrite andb_true_iff]; split; (lia || done).
Qed.
Lemma priority_lines x : 0 <= x < 4 -> priority x = if Z.testbit x 1 then 2 else if Z.testbit x 0 then 1 else 0.
Proof. intros Hx. by small_z x. Qed.

Lemma plus_callback_mine (e : event) (st : vst plus) : mine e = true -> plus_callback e st = via_callback e st.
Proof.
  intros Hm. unfold plus_callback. destruct (mine_cases e Hm) as [Hc|[Hc|Hc]]; by rewrite (matches_callback _ _ Hc).
Qed.

(** ** From power-up *)

Definition blank : vst plus := mk_vst (reset_via 10) fresh
  (mk_plus 0 0 (mk_rtc 0 0 0 false 0 0 0 [] true) (mk_keyboard false 0 (mk_ring 0 0 []) []) false false false 0 false).
Definition run {A} (m : VM plus A) (st : vst plus) : vst plus := if m st is Some (_, st') then st' else st.
Definition at_cycle (n : Z) st : vst plus := mk_vst (the_via st) (set_cpu_cycles n (the_sched st)) (world st).
(** The machine plus_init makes at the host's time [t], once the processor has
    run for [n] cycles; and then with the clock chip deselected: port B's pins
    made outputs, and its enable line driven inactive, first with its clock
    line low and then with it high. *)
Definition powered_up (t n : Z) : vst plus := at_cycle n (default blank (plus_init t)).
Definition deselected (t n : Z) : option (vst plus) :=
  '(_, st) ← via_write_uint8 0x0400 0x87 (powered_up t n);
  '(_, st) ← via_write_uint8 0x0000 0x04 st;
  '(_, st) ← via_write_uint8 0x0000 0x06 st;
  Some st.
Definition started (x n : Z) : vst plus :=
  mk_vst (mk_via 0 0 0 0 0 false 0 (timer1 (reset_via 10)) (timer2 (reset_via 10))
            (port_a (reset_via 10)) (mk_port 6 255 135 false false) 10)
    (set_cpu_cycles n (the_sched (powered_up 0 0)))
    (mk_plus 0 0 (mk_rtc x 0 8 true 0 0 0 (replicate 256 0) true)
       (mk_keyboard false 0 (mk_ring 0 0 (replicate 128 0)) (replicate 128 false)) false true false 0 true).
Lemma deselected_started t n : deselected t n = Some (started (wall_clock_seconds t) n).
Proof.
  unfold deselected, powered_up, plus_init, rtc_init. generalize (wall_clock_seconds t). intros x.
  lazy -[replicate]. reflexivity.
Qed.
Lemma one_event_ok s e : cpu_events s = [e] -> 0 < cpi s < 2 ^ 24 -> cpi_eff_x256 s = cpi s * 256 -> cycle_frac_x256 s = 0 ->
  sprint_total s = 0 -> sprint_burndown s = 0 -> 0 <= cpu_cycles s <= timestamp e -> timestamp e < 2 ^ 60 -> callback e <> 0 ->
  sched_ok s.
Proof.
  intros Eq Hc He Hf Ht Hb Hn Hts Hcb.
  assert (plan_end s = cpu_cycles s) as Ep by (unfold plan_end, slot_cycles; rewrite Ht, Hf, Z.mul_0_l; change (Z.shiftr (0 + 0) 8) with 0; lia).
  split; rewrite ?Eq, ?Ep; try lia.
  - repeat constructor.
  - repeat constructor; [lia|pow2; lia|done].
  - unfold MAX_SANE_EVENTS. cbn. lia.
  - repeat constructor. lia.
Qed.
Lemma started_inv x n : 0 < n <= 7833600 -> vinv (started x n).
Proof.
  intros Hn.
  assert (cpu_events (the_sched (started x n)) = [mk_event 7833600 5 200 0]) as Eq by (vm_compute; reflexivity).
  assert (now (the_sched (started x n)) = n) as En.
  { unfold now, slot_cycles, started, the_sched. cbn [cpu_cycles set_cpu_cycles].
    replace (Z.shiftr _ _) with 0 by (vm_compute; reflexivity). lia. }
  assert (sched_ok (the_sched (started x n))) as Hok.
  { apply (one_event_ok _ _ Eq); first [exact (conj (Z.lt_le_incl _ _ (proj1 Hn)) (proj2 Hn)) | vm_compute;
      first [reflexivity|congruence|split; congruence || reflexivity]]. }
  assert (forall c, In c via_events -> evs c (the_sched (started x n)) = []) as Hev.
  { intros c Hc. unfold evs. rewrite Eq. by destruct Hc as [<-|[<-|[<-|[]]]]. }
  assert (host_sched (the_sched (started x n))) as Hs.
  { split; [done|lia| | |vm_compute; split; congruence || reflexivity|vm_compute; congruence];
      repeat constructor; eexists; vm_compute; reflexivity. }
  split.
  - split; [|split; [vm_compute; reflexivity|]|done].
    + repeat split; vm_compute; congruence || reflexivity.
    + split; [split|split; [vm_compute; split; congruence || reflexivity|vm_compute; reflexivity]].
      * split; [left; cbn; lia|cbn; unfold byte, in_width; lia|done|].
        split; [apply list.Forall_replicate; unfold byte, in_width; lia|apply length_replicate].
      * split; [split; cbn; [lia|lia|done]|apply list.Forall_replicate; unfold in_width; lia].
  - vm_compute. reflexivity.
  - split; [rewrite En; cbn; lia|]. rewrite Hev by (simpl; tauto). vm_compute. reflexivity.
  - split; [rewrite En; cbn; lia|]. rewrite Hev by (simpl; tauto). vm_compute. reflexivity.
  - unfold shift_wf. rewrite Hev by (simpl; tauto). vm_compute. reflexivity.
Qed.

(** C21: the Plus' VIA, real-time clock and keyboard on their scheduler, from
    power-up at any time of day: the processor runs for up to a second (its
    first event is due then, and the clock has to leave cycle 0:
    timer_at_cycle_0_is_stopped), deselects the clock chip (a chip clocked
    before it was ever deselected fails an assertion:
    rtc_cold_clock_asserts), and then, in any order, the processor accesses
    the VIA at even addresses, events fire, keys go down and up, the vertical
    blanking comes, the SCC's line changes, time passes, and other devices
    queue events within the scheduler's invariant, leaving room for the VIA's
    three.  In every state reached the interrupt level the processor sees is 2 while the SCC requests one, otherwise 1 exactly while
    some VIA flag is set and enabled, otherwise 0.  No access to an even VIA
    address and no input fails an assertion, nor does the event at the head of
    the queue: not the clock's; not the keyboard's, except the reply to an
    INSTANT command that overtakes the timeout of an INQUIRY
    (instant_after_inquiry_asserts); and not the VIA's, as long as the event
    queue is not full but for five entries. *)
Theorem plus_devices_ok t n st st' :
  0 < n <= 7833600 -> deselected t n = Some st -> relations.rtc plus_step st st' ->
  let p := world st' in
  (plus_ipl p = if Z.testbit (irq p) 1 then 2 else if via_requests (the_via st') then 1 else 0) /\
  (forall addr, Z.land addr 1 = 0 -> exists x st'', via_read_uint8 addr st' = Some (x, st'')) /\
  (forall addr x, Z.land addr 1 = 0 -> in_width 8 x -> exists st'', via_write_uint8 addr x st' = Some (tt, st'')) /\
  (forall b, exists st'', plus_scc_irq b st' = Some (tt, st'')) /\
  (forall ev k, exists st'', keyboard_update ev k st' = Some (tt, st'')) /\
  (exists st'', plus_trigger_vbl st' = Some (tt, st'')) /\
  (forall e q, cpu_events (the_sched st') = e :: q -> device_event e ->
     (callback e = tx_event -> replies (popping e q st')) ->
     exists st'', plus_callback e (popping e q st') = Some (tt, st'')) /\
  (forall e q, cpu_events (the_sched st') = e :: q -> mine e = true -> spare_room (the_sched st') ->
     exists st'', plus_callback e (popping e q st') = Some (tt, st'')).
Proof.
  intros Hn Hst Hr p. rewrite deselected_started in Hst. injection Hst as <-.
  pose proof (plus_steps_inv _ st' (started_inv _ n Hn) Hr) as Hi. clear Hr.
  assert (forall (m : VM plus unit) st0 Q, wp m Q st0 -> exists st1, m st0 = Some (tt, st1)) as Hrun.
  { intros m st0 Q ([] & st1 & E & _). eauto. }
  split.
  - pose proof Hi as [[_ [_ (_ & Hirq & Hipl)] _] _ _ _ _]. fold p in Hirq, Hipl.
    rewrite Hipl, (priority_lines _ Hirq), (via_requests_line st' Hi). done.
  - split; [|split; [|split; [|split; [|split; [|split]]]]].
    + intros addr Ha. destruct (via_read_effect addr st' Hi Ha) as (x & st'' & E & _). eauto.
    + intros addr x Ha Hx. by eapply Hrun, via_write_effect.
    + intros b. by eapply Hrun, scc_tame.
    + intros ev k. by eapply Hrun, keyboard_update_tame.
    + by eapply Hrun, vbl_tame.
    + intros e q E Hd Hq. by eapply Hrun, plus_callback_tame.
    + intros e q E Hm Hsp. rewrite plus_callback_mine by done. by eapply Hrun, via_callback_ok.
Qed.

(** ** A concrete machine *)

(** A hundred instructions after power-up, and the clock chip deselected. *)
Definition powered : vst plus := powered_up 0 1000.
Definition booted : vst plus := default blank (deselected 0 1000).
Lemma booted_inv : vinv booted.
Proof. unfold booted. rewrite deselected_started. apply started_inv. lia. Qed.

Lemma plus_devices_ok_witness :
  plus_ipl (world booted) = 0 /\ (exists st', plus_trigger_vbl booted = Some (tt, st')) /\
  forall st', relations.rtc plus_step booted st' ->
    plus_ipl (world st') = (if Z.testbit (irq (world st')) 1 then 2 else if via_requests (the_via st') then 1 else 0).
Proof.
  assert (deselected 0 1000 = Some booted) as E by (unfold booted; by rewrite deselected_started).
  assert (0 < 1000 <= 7833600) as Hn by lia.
  destruct (plus_devices_ok 0 1000 booted booted Hn E (rtc_refl _ _)) as (El & _ & _ & _ & _ & Hv & _).
  split; [rewrite El; vm_compute; reflexivity|]. split; [exact Hv|].
  intros st' Hr. exact (proj1 (plus_devices_ok 0 1000 booted st' Hn E Hr)).
Defined.
Lemma timer1_correct_witness :
  exists st1, via_write_uint8 0x0A00 0x10 booted = Some (tt, st1) /\ t1_flag st1 = false /\
  forall st2, relations.rtc quiet_step st1 st2 ->
    1000 + 4097 * 10 + cpi (the_sched st2) <= now (the_sched st2) -> t1_flag st2 = true.
Proof.
  destruct (timer1_correct 0x0A00 0x10 booted booted_inv) as (st1 & E & Hf & Hr); [reflexivity|reflexivity|unfold in_width; lia|].
  exists st1. split; [exact E|]. split; [exact Hf|]. intros st2 Hs. destruct (Hr st2 Hs) as (_ & Hup & _). revert Hup.
  assert (now (the_sched booted) = 1000) as -> by (vm_compute; reflexivity).
  assert (freq_factor (the_via booted) = 10) as -> by (vm_compute; reflexivity).
  assert (loaded 0x10 (latch (timer1 (the_via booted))) = 4096) as -> by (vm_compute; reflexivity). done.
Defined.
Definition via_up : vst plus := run (via_init 10 None None) (default blank (plus_init 0)).
Definition via_sched : sched := set_cpu_cycles 1000 (the_sched via_up).
Definition via_machine : vst plus := mk_vst (the_via via_up) via_sched (world booted).
Lemma via_up_init : via_init 10 None None (default blank (plus_init 0)) = Some (tt, via_up).
Proof. vm_compute. reflexivity. Qed.
Lemma via_sched_ok : sched_ok via_sched.
Proof.
  apply (one_event_ok _ (mk_event 7833600 5 200 0)); vm_compute; first [reflexivity|congruence|split; congruence || reflexivity].
Qed.
Lemma via_sched_queue : cpu_events via_sched = [mk_event 7833600 5 200 0].
Proof. vm_compute. reflexivity. Qed.
Lemma via_sched_types : Forall (fun p => is_Some (find_event_type via_sched p.1 p.2)) machine_types.
Proof. repeat constructor; eexists; vm_compute; reflexivity. Qed.
Lemma via_reachable_ok_witness :
  Z.testbit (ifr (the_via via_machine)) 7 = irq_line (world via_machine).
Proof.
  refine (proj1 (proj2 (via_reachable_ok 10 None (default blank (plus_init 0)) via_up via_sched (world booted) via_machine
    _ via_up_init via_sched_ok _ _ _ _ via_sched_types _ _ _ _))).
  - lia.
  - vm_compute. reflexivity.
  - apply incl_refl.
  - rewrite via_sched_queue. repeat constructor.
  - rewrite via_sched_queue. unfold MAX_SANE_EVENTS. simpl. lia.
  - vm_compute. split; congruence || reflexivity.
  - vm_compute. reflexivity.
  - apply booted_inv.
  - apply rtc_refl.
Defined.

(** Timer 1 loaded with 0x1000 at cycle 1000: fifty ticks of the VIA's clock
    later the counter has come down by fifty. *)
Example timer1_counts :
  let st := at_cycle 1500 (run (via_write_uint8 0x0A00 0x10) booted) in
  ((via_read_uint8 0x0A00 st) ≫= fun p => Some p.1, (via_read_uint8 0x0800 st) ≫= fun p => Some p.1) = (Some 0x0F, Some 0xCE).
Proof. vm_compute. reflexivity. Qed.

(** ** Findings *)

(** Raising the clock line before the chip was ever disabled fails the
    assertion of rtc_input: the shift counters start at zero. *)
Theorem rtc_cold_clock_asserts :
  via_write_uint8 0x0000 0x02 (run (via_write_uint8 0x0400 0x87) powered) = None.
Proof. vm_compute. reflexivity. Qed.

(** Arming timer 1 at cycle 0 leaves it marked as stopped. *)
Theorem timer_at_cycle_0_is_stopped :
  let st := run (via_write_uint8 0x0A00 0x10) (default blank (plus_init 0)) in
  start_timestamp (timer1 (the_via st)) = 0 /\ has_event t1_event (the_sched st) = true /\ t1_callback st = None.
Proof. vm_compute. done. Qed.

(** An INSTANT command answered before an earlier INQUIRY timed out fails the
    keyboard's assertion. *)
Theorem instant_after_inquiry_asserts :
  let st := run (plus_via_shift_out CMD_INSTANT) (run tx_callback (run (plus_via_shift_out CMD_INQUIRY) booted)) in
  tx_callback st = None.
Proof. vm_compute. reflexivity. Qed.

(** CA2 in input mode with the positive edge selected (PCR bits 3 to 1 are
    010): the rising edge sets no flag, the falling edge does. *)
Theorem ca2_positive_edge_ignored :
  let st := run (via_write_uint8 0x1800 0x04) booted in
  let up := run (via_input_c 0 1 true) st in
  let down := run (via_input_c 0 1 false) up in
  ifr (the_via up) = 0 /\ ifr (the_via down) = IFR_CA2.
Proof. vm_compute. done. Qed.
(** The same for CB2 (PCR bits 7 to 5). *)
Theorem cb2_positive_edge_ignored :
  let st := run (via_write_uint8 0x1800 0x40) booted in
  let up := run (via_input_c 1 1 true) st in
  let down := run (via_input_c 1 1 false) up in
  ifr (the_via up) = 0 /\ ifr (the_via down) = IFR_CB2.
Proof. vm_compute. done. Qed.
(** Reading port A in the independent-interrupt mode (PCR bits 3 to 1 are
    001) clears the CA2 flag. *)
Theorem independent_ca2_cleared :
  let st := run (via_input_c 0 1 false) (run (via_input_c 0 1 true) (run (via_write_uint8 0x1800 0x02) booted)) in
  ifr (the_via st) = IFR_CA2 /\ ifr (the_via (run (via_read_uint8 0x0200) st)) = 0.
Proof. vm_compute. done. Qed.

(** Restoring a VIA whose flags are consistent calls the interrupt callback
    with nothing. *)
Theorem restore_drives_no_irq st : irq_wf (the_via st) ->
  update_ifr (ifr (the_via st)) st = Some (tt, mk_vst (set_ifr (ifr (the_via st)) (the_via st)) (the_sched st) (world st)).
Proof.
  intros Hq. unfold update_ifr, mbind, vm_bind, gets, modify. cbn [mbind option_bind id]. unfold irq_wf in Hq. rewrite <- Hq.
  by rewrite Z.lxor_nilpotent.
Qed.
