(* ===== verification/Pmmu.v ===== *)
(** * The 68030 MMU

    Model of src/core/memory/mmu.c and of the register moves of
    cpu_pmmu_general (cpu_68030.c): transparent translation, the walk of the
    guest's descriptor tables, the software TLB (the SoA arrays of the memory
    map) with the list of pages to invalidate, and the cache of block
    descriptors.  [None] is a shift of undefined behaviour: a TC register whose
    fields consume more than 32 address bits. *)
From S2P Require Import Prelude Bus Memory.

(** ** TC, TT and MMUSR fields *)
Definition TC_ENABLE (tc : Z) : Z := Z.shiftr tc 31.
Definition TC_SRE (tc : Z) : Z := Z.land (Z.shiftr tc 25) 1.
Definition TC_PS (tc : Z) : Z := Z.land (Z.shiftr tc 20) 0xF.
Definition TC_IS (tc : Z) : Z := Z.land (Z.shiftr tc 16) 0xF.
Definition TC_TIA (tc : Z) : Z := Z.land (Z.shiftr tc 12) 0xF.
Definition TC_TIB (tc : Z) : Z := Z.land (Z.shiftr tc 8) 0xF.
Definition TC_TIC (tc : Z) : Z := Z.land (Z.shiftr tc 4) 0xF.
Definition TC_TID (tc : Z) : Z := Z.land tc 0xF.

Definition DESC_DT_INVALID : Z := 0.
Definition DESC_DT_PAGE : Z := 1.
Definition DESC_DT_TABLE8 : Z := 3.

Definition TT_ENABLE (tt : Z) : Z := Z.land (Z.shiftr tt 15) 1.
Definition TT_BASE (tt : Z) : Z := Z.land (Z.shiftr tt 24) 0xFF.
Definition TT_MASK (tt : Z) : Z := Z.land (Z.shiftr tt 16) 0xFF.
Definition TT_RW (tt : Z) : Z := Z.land (Z.shiftr tt 13) 1.
Definition TT_RWM (tt : Z) : Z := Z.land (Z.shiftr tt 12) 1.
Definition TT_FC_BASE (tt : Z) : Z := Z.land (Z.shiftr tt 4) 7.
Definition TT_FC_MASK (tt : Z) : Z := Z.land tt 7.

Definition MMUSR_S : Z := 0x2000.
Definition MMUSR_W : Z := 0x0800.
Definition MMUSR_I : Z := 0x0400.
Definition MMUSR_T : Z := 0x0040.
Definition MMUSR_M : Z := 0x0010.

(** mmu_walk_result_t *)
Record walk_result := mk_walk {
  physical_addr : Z;
  page_size_bits : Z;
  descriptor_addr : Z;
  valid : bool;
  supervisor_only : bool;
  write_protected : bool;
  modified : bool;
  walk_mmusr : Z;
}.

(** mmu_state_t *)
Record mmu_state := mk_mmu_state {
  crp : Z; srp : Z; tc : Z; tt0 : Z; tt1 : Z; mmusr : Z;
  enabled : bool; tlb_was_enabled : bool;
  physical_ram : Z; physical_ram_size : Z; ram_size_max : Z;
  physical_ram_b : Z; ram_a_size : Z; ram_b_phys_base : Z; ram_b_size : Z; ram_b_window : Z;
  physical_rom : Z; physical_rom_size : Z; rom_phys_base : Z; rom_region_end : Z;
  physical_vram : Z; physical_vram_size : Z; vram_phys_base : Z;
  physical_vrom : Z; physical_vrom_size : Z; vrom_phys_base : Z;
  vram_phys_alt : Z; vrom_phys_alt : Z;
  nubus_berr_start : Z; nubus_berr_end : Z;
}.
Definition mmu_state_eta (s : mmu_state) : mmu_state :=
  mk_mmu_state (crp s) (srp s) (tc s) (tt0 s) (tt1 s) (mmusr s) (enabled s) (tlb_was_enabled s)
    (physical_ram s) (physical_ram_size s) (ram_size_max s)
    (physical_ram_b s) (ram_a_size s) (ram_b_phys_base s) (ram_b_size s) (ram_b_window s)
    (physical_rom s) (physical_rom_size s) (rom_phys_base s) (rom_region_end s)
    (physical_vram s) (physical_vram_size s) (vram_phys_base s)
    (physical_vrom s) (physical_vrom_size s) (vrom_phys_base s)
    (vram_phys_alt s) (vrom_phys_alt s) (nubus_berr_start s) (nubus_berr_end s).
Ltac mmu_set proj v s := field_set mmu_state_eta proj v s.
Definition set_crp (v : Z) (s : mmu_state) : mmu_state := ltac:(mmu_set crp v s).
Definition set_srp (v : Z) (s : mmu_state) : mmu_state := ltac:(mmu_set srp v s).
Definition set_tc (v : Z) (s : mmu_state) : mmu_state := ltac:(mmu_set tc v s).
Definition set_tt0 (v : Z) (s : mmu_state) : mmu_state := ltac:(mmu_set tt0 v s).
Definition set_tt1 (v : Z) (s : mmu_state) : mmu_state := ltac:(mmu_set tt1 v s).
Definition set_mmusr (v : Z) (s : mmu_state) : mmu_state := ltac:(mmu_set mmusr v s).
Definition set_enabled (v : bool) (s : mmu_state) : mmu_state := ltac:(mmu_set enabled v s).
Definition set_tlb_was_enabled (v : bool) (s : mmu_state) : mmu_state := ltac:(mmu_set tlb_was_enabled v s).

(** atc_block_t *)
Record atc_block := mk_atc {
  log_base : Z; log_mask : Z; phys_base : Z;
  b_supervisor_only : bool; b_write_protected : bool; fc_super : bool; b_valid : bool;
}.
Definition empty_block : atc_block := mk_atc 0 0 0 false false false false.

(** g_mmu and the file-scope state of mmu.c.  [tlb_track] holds the first
    g_tlb_track_count entries of g_tlb_track, latest first. *)
Record pmmu := mk_pmmu {
  regs : mmu_state;
  tlb_track : list Z;
  tlb_track_overflow : bool;
  atc_blocks : list atc_block;
  atc_next : Z;
  last_user_crp : Z;
}.
Definition pmmu_eta (t : pmmu) : pmmu :=
  mk_pmmu (regs t) (tlb_track t) (tlb_track_overflow t) (atc_blocks t) (atc_next t) (last_user_crp t).
Definition set_regs (v : mmu_state) (t : pmmu) : pmmu := ltac:(field_set pmmu_eta regs v t).
Definition set_tlb_track (v : list Z) (t : pmmu) : pmmu := ltac:(field_set pmmu_eta tlb_track v t).
Definition set_tlb_track_overflow (v : bool) (t : pmmu) : pmmu := ltac:(field_set pmmu_eta tlb_track_overflow v t).
Definition set_atc_blocks (v : list atc_block) (t : pmmu) : pmmu := ltac:(field_set pmmu_eta atc_blocks v t).
Definition set_atc_next (v : Z) (t : pmmu) : pmmu := ltac:(field_set pmmu_eta atc_next v t).
Definition set_last_user_crp (v : Z) (t : pmmu) : pmmu := ltac:(field_set pmmu_eta last_user_crp v t).
Definition on_regs (f : mmu_state -> mmu_state) (t : pmmu) : pmmu := set_regs (f (regs t)) t.

Definition TLB_TRACK_MAX : Z := 8192.
Definition ATC_BLOCKS : Z := 16.

(** tlb_track_page *)
Definition track_page (page : Z) (t : pmmu) : pmmu :=
  if tlb_track_overflow t then t
  else if TLB_TRACK_MAX <=? Z.of_nat (length (tlb_track t)) then set_tlb_track_overflow true t
  else set_tlb_track (page :: tlb_track t) t.

(** ** The cache of block descriptors *)
Definition atc_flush (t : pmmu) : pmmu :=
  set_atc_next 0 (set_atc_blocks (replicate (Z.to_nat ATC_BLOCKS) empty_block) t).

Definition atc_hit (sre_split : bool) (logical_addr : Z) (supervisor : bool) (b : atc_block) : bool :=
  b_valid b && (Z.land logical_addr (log_mask b) =? log_base b) &&
  negb (sre_split && negb (Bool.eqb (fc_super b) supervisor)).
Definition sre_split (t : pmmu) : bool := truthy (TC_SRE (tc (regs t))).
Definition atc_probe (t : pmmu) (logical_addr : Z) (supervisor : bool) : option atc_block :=
  List.find (atc_hit (sre_split t) logical_addr supervisor) (atc_blocks t).
(** while ((b = atc_probe(...)) != NULL) b->valid = false: every block that
    hits is dropped. *)
Definition drop_block (b : atc_block) : atc_block :=
  mk_atc (log_base b) (log_mask b) (phys_base b) (b_supervisor_only b) (b_write_protected b) (fc_super b) false.
Definition atc_invalidate_covering (logical_addr : Z) (supervisor : bool) (t : pmmu) : pmmu :=
  set_atc_blocks
    (map (fun b => if atc_hit (sre_split t) logical_addr supervisor b then drop_block b else b) (atc_blocks t)) t.
Definition atc_record (b : atc_block) (t : pmmu) : pmmu :=
  set_atc_next ((atc_next t + 1) mod ATC_BLOCKS) (set_atc_blocks (<[Z.to_nat (atc_next t) := b]> (atc_blocks t)) t).

(** ** Physical memory *)
Section Physical.
Context (st : mmu_state).

(** phys_addr >= base && phys_addr - base < size *)
Definition in_region (phys_addr base size : Z) : bool := (base <=? phys_addr) && (phys_addr - base <? size).

Definition phys_to_host (phys_addr : Z) : Z :=
  let rest :=
    if truthy (physical_rom st) && (rom_phys_base st <=? phys_addr) && (phys_addr <? rom_region_end st)
    then physical_rom st + (phys_addr - rom_phys_base st) mod physical_rom_size st
    else if truthy (physical_vram st) && in_region phys_addr (vram_phys_base st) (physical_vram_size st)
    then physical_vram st + (phys_addr - vram_phys_base st)
    else if truthy (physical_vrom st) && in_region phys_addr (vrom_phys_base st) (physical_vrom_size st)
    then physical_vrom st + (phys_addr - vrom_phys_base st)
    else if truthy (vram_phys_alt st) && truthy (physical_vram st) &&
            in_region phys_addr (vram_phys_alt st) (physical_vram_size st)
    then physical_vram st + (phys_addr - vram_phys_alt st)
    else if truthy (vrom_phys_alt st) && truthy (physical_vrom st) &&
            in_region phys_addr (vrom_phys_alt st) (physical_vrom_size st)
    then physical_vrom st + (phys_addr - vrom_phys_alt st)
    else 0 in
  if truthy (ram_b_size st) then
    if phys_addr <? ram_b_phys_base st then physical_ram st + phys_addr mod ram_a_size st
    else if phys_addr - ram_b_phys_base st <? ram_b_window st
    then physical_ram_b st + (phys_addr - ram_b_phys_base st) mod ram_b_size st
    else rest
  else if phys_addr <? physical_ram_size st then physical_ram st + phys_addr
  else rest.

Definition phys_is_writable (phys_addr : Z) : bool :=
  let rest :=
    if truthy (physical_rom st) && (rom_phys_base st <=? phys_addr) && (phys_addr <? rom_region_end st) then false
    else if truthy (physical_vram st) && in_region phys_addr (vram_phys_base st) (physical_vram_size st) then true
    else if truthy (physical_vrom st) && in_region phys_addr (vrom_phys_base st) (physical_vrom_size st) then false
    else if truthy (vram_phys_alt st) && truthy (physical_vram st) &&
            in_region phys_addr (vram_phys_alt st) (physical_vram_size st) then true
    else false in
  if truthy (ram_b_size st) then
    if phys_addr <? ram_b_phys_base st then true
    else if phys_addr - ram_b_phys_base st <? ram_b_window st then true
    else rest
  else if phys_addr <? physical_ram_size st then true
  else rest.
End Physical.

(** ** Transparent translation *)
Definition tt_matches (tt addr : Z) (write supervisor : bool) : bool :=
  if negb (truthy (TT_ENABLE tt)) then false else
  let fc := if supervisor then 5 else 1 in
  if negb (Z.ldiff fc (TT_FC_MASK tt) =? Z.ldiff (TT_FC_BASE tt) (TT_FC_MASK tt)) then false else
  let addr_upper := Z.land (Z.shiftr addr 24) 0xFF in
  if negb (Z.ldiff addr_upper (TT_MASK tt) =? Z.ldiff (TT_BASE tt) (TT_MASK tt)) then false else
  if truthy (TT_RW tt) then
    let match_reads := truthy (TT_RWM tt) in
    if match_reads && write then false
    else if negb match_reads && negb write then false
    else true
  else true.
Definition check_tt (st : mmu_state) (addr : Z) (write supervisor : bool) : bool :=
  tt_matches (tt0 st) addr write supervisor || tt_matches (tt1 st) addr write supervisor.

Section Walk.
Context {D : Type}.
#[local] Abbreviation mem := (mem_t D pmmu).
Implicit Types m : mem.

Definition st_of (m : mem) : mmu_state := regs (mmu m).

Definition phys_read32 (m : mem) (phys_addr : Z) : Z :=
  let st := st_of m in
  let rom :=
    if truthy (physical_rom st) && (rom_phys_base st <=? phys_addr) && (phys_addr <? rom_region_end st) then
      let offset := (phys_addr - rom_phys_base st) mod physical_rom_size st in
      if (4 <=? physical_rom_size st) && (offset <=? physical_rom_size st - 4)
      then LOAD_BE B32 (physical_rom st + offset) m else 0
    else 0 in
  if truthy (ram_b_size st) then
    if phys_addr <? ram_b_phys_base st then
      let off := phys_addr mod ram_a_size st in
      if off <=? u32 (ram_a_size st - 4) then LOAD_BE B32 (physical_ram st + off) m else rom
    else if phys_addr - ram_b_phys_base st <? ram_b_window st then
      let off := (phys_addr - ram_b_phys_base st) mod ram_b_size st in
      if off <=? u32 (ram_b_size st - 4) then LOAD_BE B32 (physical_ram_b st + off) m else rom
    else rom
  else if (4 <=? physical_ram_size st) && (phys_addr <=? physical_ram_size st - 4)
  then LOAD_BE B32 (physical_ram st + phys_addr) m
  else rom.

(** ** The table walk *)
Definition invalid_walk (desc_addr status : Z) : walk_result :=
  mk_walk 0 0 desc_addr false false false false status.

(** A page descriptor reached with [bit_pos] address bits left. *)
Definition page_walk (logical_addr bit_pos desc_addr desc_hi desc_lo levels_walked : Z) (long_desc : bool) : walk_result :=
  let page_mask := 2 ^ bit_pos - 1 in
  let base := Z.land (Z.ldiff desc_lo page_mask) 0xFFFFFFFC in
  let w := truthy (Z.land (Z.shiftr desc_hi 2) 1) in
  let md := truthy (Z.land (Z.shiftr desc_hi 4) 1) in
  let so := long_desc && truthy (Z.land (Z.shiftr desc_hi 8) 1) in
  let status := if w then MMUSR_W else 0 in
  let status := if md then Z.lor status MMUSR_M else status in
  let status := if so then Z.lor status MMUSR_S else status in
  mk_walk (Z.lor base (Z.land logical_addr page_mask)) bit_pos desc_addr true so w md
    (Z.lor status (Z.land levels_walked 7)).

(** for (level = 0; level < 4; level++), over the index widths left *)
Fixpoint walk_levels (ti : list Z) (m : mem) (logical_addr bit_pos table_addr : Z) (long_desc : bool)
    (last_desc levels_walked : Z) : option walk_result :=
  match ti with
  | [] => Some (invalid_walk last_desc (Z.lor MMUSR_I (Z.land levels_walked 7)))
  | index_bits :: ti =>
      if index_bits =? 0 then walk_levels ti m logical_addr bit_pos table_addr long_desc last_desc levels_walked
      else if 32 <=? index_bits then Some (invalid_walk last_desc MMUSR_I)
      else
        let bit_pos := u32 (bit_pos - index_bits) in
        if 32 <=? bit_pos then None else
        let index := Z.land (Z.shiftr logical_addr bit_pos) (2 ^ index_bits - 1) in
        let desc_addr := u32 (table_addr + index * (if long_desc then 8 else 4)) in
        let desc_hi := phys_read32 m desc_addr in
        let desc_lo := if long_desc then phys_read32 m (u32 (desc_addr + 4)) else desc_hi in
        let levels_walked := levels_walked + 1 in
        let dt := Z.land desc_hi 3 in
        if dt =? DESC_DT_INVALID then Some (invalid_walk desc_addr (Z.lor MMUSR_I (Z.land levels_walked 7)))
        else if dt =? DESC_DT_PAGE then
          Some (page_walk logical_addr bit_pos desc_addr desc_hi desc_lo levels_walked long_desc)
        else
          walk_levels ti m logical_addr bit_pos (Z.land desc_lo 0xFFFFFFF0) (dt =? DESC_DT_TABLE8) desc_addr levels_walked
  end.

Definition root_pointer (st : mmu_state) (supervisor : bool) : Z :=
  if truthy (TC_SRE (tc st)) && supervisor then srp st else crp st.
Definition index_widths (tc : Z) : list Z := [TC_TIA tc; TC_TIB tc; TC_TIC tc; TC_TID tc].

Definition mmu_table_walk (m : mem) (logical_addr : Z) (supervisor : bool) : option walk_result :=
  let st := st_of m in
  let root_ptr := root_pointer st supervisor in
  let root_upper := u32 (Z.shiftr root_ptr 32) in
  let root_lower := u32 (Z.land root_ptr 0xFFFFFFFF) in
  let root_dt := Z.land root_upper 3 in
  if root_dt =? DESC_DT_INVALID then Some (invalid_walk 0 MMUSR_I)
  else
    walk_levels (index_widths (tc st)) m logical_addr (32 - TC_IS (tc st))
      (Z.land root_lower 0xFFFFFFF0) (root_dt =? DESC_DT_TABLE8) 0 0.

(** ** The software TLB *)

Definition put_entries (page v : Z) (super user wr : bool) (t : soa_t) : soa_t :=
  mk_soa
    (if super then <[page := v]> (supervisor_read t) else supervisor_read t)
    (if super && wr then <[page := v]> (supervisor_write t) else supervisor_write t)
    (if user then <[page := v]> (user_read t) else user_read t)
    (if user && wr then <[page := v]> (user_write t) else user_write t).

Definition mmu_fill_soa_entry (logical_page physical_page : Z) (super_only wp supervisor tt_match : bool) (m : mem) : mem :=
  let st := st_of m in
  let host_ptr := phys_to_host st physical_page in
  if host_ptr =? 0 then m else
  let host_writable := phys_is_writable st physical_page in
  let page_index := page_of logical_page in
  if page_count m <=? page_index then m
  else if truthy (logpoints_at m page_index) then m
  else if truthy (phys_logpoints_at m (page_of physical_page)) then m
  else
    let adj := u64 (host_ptr - logical_page) in
    let m := set_mmu (track_page page_index (mmu m)) m in
    let split := sre_split (mmu m) in
    let fill_super := if tt_match then supervisor else negb split || supervisor in
    let fill_user := if tt_match then negb supervisor else (negb split || negb supervisor) && negb super_only in
    set_soa (put_entries page_index adj fill_super fill_user (negb wp && host_writable) (soa m)) m.

(** Zeroing one page of the four arrays. *)
Definition zero_page (page : Z) (t : soa_t) : soa_t := put_entries page 0 true true true t.
Definition empty_soa : soa_t := mk_soa ∅ ∅ ∅ ∅.

Definition mmu_invalidate_tlb (m : mem) : mem :=
  let now_enabled := enabled (st_of m) in
  let was := tlb_was_enabled (st_of m) in
  let m := set_mmu (on_regs (set_tlb_was_enabled now_enabled) (mmu m)) m in
  if negb now_enabled && negb was then m
  else
    let m := set_mmu (atc_flush (mmu m)) m in
    let m :=
      if tlb_track_overflow (mmu m) then set_soa empty_soa m
      else set_soa (fold_right (fun p t => if page_count m <=? p then t else zero_page p t) (soa m) (tlb_track (mmu m))) m in
    set_mmu (set_tlb_track_overflow false (set_tlb_track [] (mmu m))) m.

(** ** Faults *)
Definition mmu_fault_epilogue (m : mem) (emu_page phys_page : Z) (write : bool) : bool :=
  let page_index := page_of emu_page in
  if page_index <? page_count m then
    let active := if write then active_write_at m page_index else active_read_at m page_index in
    if (active =? 0) && (ram_size_max (st_of m) <=? phys_page) && (phys_page <? rom_phys_base (st_of m))
    then false else true
  else true.

(** g_bus_error_is_pmmu = b *)
Definition set_is_pmmu (b : bool) (m : mem) : mem :=
  set_berr (mk_berr (be_pending (berr m)) (be_address (berr m)) (be_rw (berr m)) (be_fc (berr m)) b) m.

Definition tt_fault (logical_addr : Z) (write supervisor : bool) (m : mem) : bool * mem :=
  let emu_page := page_base logical_addr in
  let m := mmu_fill_soa_entry emu_page emu_page false false supervisor true m in
  let page_index := page_of emu_page in
  if negb write && (page_index <? page_count m) && (soa_at (supervisor_read (soa m)) page_index =? 0) &&
     (nubus_berr_start (st_of m) <=? logical_addr) && (logical_addr <=? nubus_berr_end (st_of m))
  then (false, set_is_pmmu false m)
  else (true, m).

Definition cached_fault (b : atc_block) (logical_addr : Z) (write supervisor : bool) (m : mem) : bool * mem :=
  let emu_page := page_base logical_addr in
  let phys_page := u32 (phys_base b + u32 (emu_page - log_base b)) in
  let m := mmu_fill_soa_entry emu_page phys_page (b_supervisor_only b) (b_write_protected b) supervisor false m in
  (mmu_fault_epilogue m emu_page phys_page write, m).

(** The fault after a table walk. *)
Definition walk_fault (r : walk_result) (logical_addr : Z) (write supervisor : bool) (m : mem) : bool * mem :=
  let m := set_mmu (on_regs (set_mmusr (walk_mmusr r)) (mmu m)) m in
  if negb (valid r) || (supervisor_only r && negb supervisor) || (write_protected r && write)
  then (false, set_is_pmmu true m)
  else
    let emu_page := page_base logical_addr in
    let phys_page := page_base (physical_addr r) in
    let m := mmu_fill_soa_entry emu_page phys_page (supervisor_only r) (write_protected r) supervisor false m in
    let m := set_mmu (atc_invalidate_covering logical_addr supervisor (mmu m)) m in
    let n := page_size_bits r in
    let m :=
      if (PAGE_SHIFT <? n) && (n <? 32) then
        let mask := 2 ^ 32 - 2 ^ n in
        set_mmu (atc_record (mk_atc (Z.land logical_addr mask) mask (Z.land (physical_addr r) mask)
          (supervisor_only r) (write_protected r) supervisor true) (mmu m)) m
      else m in
    (mmu_fault_epilogue m emu_page phys_page write, m).

Definition mmu_handle_fault_internal (logical_addr : Z) (write supervisor probe_atc : bool) (m : mem) : option (bool * mem) :=
  if negb (enabled (st_of m)) then Some (false, m)
  else if check_tt (st_of m) logical_addr write supervisor then Some (tt_fault logical_addr write supervisor m)
  else
    match (if probe_atc then atc_probe (mmu m) logical_addr supervisor else None) with
    | Some b =>
        if negb (b_supervisor_only b && negb supervisor) && negb (b_write_protected b && write)
        then Some (cached_fault b logical_addr write supervisor m)
        else r ← mmu_table_walk m logical_addr supervisor; Some (walk_fault r logical_addr write supervisor m)
    | None => r ← mmu_table_walk m logical_addr supervisor; Some (walk_fault r logical_addr write supervisor m)
    end.
Definition handle_fault (logical_addr : Z) (write supervisor : bool) : mem -> option (bool * mem) :=
  mmu_handle_fault_internal logical_addr write supervisor true.
Definition mmu_pload (logical_addr : Z) (write supervisor : bool) : mem -> option (bool * mem) :=
  mmu_handle_fault_internal logical_addr write supervisor false.

(** PTEST: MMUSR, the address of the last descriptor, the new state *)
Definition mmu_test_address (logical_addr : Z) (write supervisor : bool) (m : mem) : option (Z * Z * mem) :=
  let publish s m := set_mmu (on_regs (set_mmusr s) (mmu m)) m in
  if enabled (st_of m) && check_tt (st_of m) logical_addr write supervisor
  then Some (MMUSR_T, 0, publish MMUSR_T m)
  else if negb (enabled (st_of m)) then Some (0, 0, publish 0 m)
  else r ← mmu_table_walk m logical_addr supervisor;
       Some (walk_mmusr r, descriptor_addr r, publish (walk_mmusr r) m).

(** mmu_translate_debug and mmu_translate_checked *)
Definition translate_debug (logical_addr : Z) (supervisor : bool) (m : mem) : option Z :=
  if negb (enabled (st_of m)) then Some logical_addr
  else if check_tt (st_of m) logical_addr false supervisor then Some logical_addr
  else r ← mmu_table_walk m logical_addr supervisor; Some (if valid r then physical_addr r else logical_addr).
Definition translate_checked (logical_addr : Z) (supervisor : bool) (m : mem) : option (option Z) :=
  if negb (enabled (st_of m)) then Some (Some logical_addr)
  else if check_tt (st_of m) logical_addr false supervisor then Some (Some logical_addr)
  else r ← mmu_table_walk m logical_addr supervisor; Some (if valid r then Some (physical_addr r) else None).
(** With the CRP swapped for the walk and put back. *)
Definition mmu_translate_with_crp (logical_addr crp_root : Z) (m : mem) : option (option Z) :=
  if crp_root =? 0 then Some None
  else if negb (enabled (st_of m)) then Some (Some logical_addr)
  else if check_tt (st_of m) logical_addr false false then Some (Some logical_addr)
  else r ← mmu_table_walk (set_mmu (on_regs (set_crp crp_root) (mmu m)) m) logical_addr false;
       Some (if valid r then Some (physical_addr r) else None).

(** ** The debugger's physical accessors *)
Definition mmu_read_physical_uint8 (m : mem) (phys_addr : Z) : Z :=
  let h := phys_to_host (st_of m) phys_addr in if h =? 0 then 0 else LOAD_BE B8 h m.
Definition mmu_read_physical_uint16 (m : mem) (phys_addr : Z) : Z :=
  let h := phys_to_host (st_of m) phys_addr in if h =? 0 then 0 else LOAD_BE B16 h m.
Definition mmu_read_physical_uint32 : mem -> Z -> Z := phys_read32.
Definition mmu_write_physical_uint8 (phys_addr v : Z) (m : mem) : bool * mem :=
  if negb (phys_is_writable (st_of m) phys_addr) then (false, m)
  else
    let h := phys_to_host (st_of m) phys_addr in
    if h =? 0 then (false, m) else (true, host_put h v m).
Definition mmu_write_physical_uint16 (phys_addr v : Z) (m : mem) : bool * mem :=
  let '(ok, m) := mmu_write_physical_uint8 phys_addr (u8 (Z.shiftr v 8)) m in
  if ok : bool then mmu_write_physical_uint8 (u32 (phys_addr + 1)) (u8 v) m else (false, m).
Definition mmu_write_physical_uint32 (phys_addr v : Z) (m : mem) : bool * mem :=
  let '(ok, m) := mmu_write_physical_uint16 phys_addr (u16 (Z.shiftr v 16)) m in
  if ok : bool then mmu_write_physical_uint16 (u32 (phys_addr + 2)) (u16 v) m else (false, m).

(** ** PMOVE to the registers (cpu_pmmu_general); the boolean says whether the
    MMU configuration exception is raised. *)
Definition on_mmu (f : mmu_state -> mmu_state) (m : mem) : mem := set_mmu (on_regs f (mmu m)) m.
Definition pmove_tt0 (v : Z) (m : mem) : mem := mmu_invalidate_tlb (on_mmu (set_tt0 v) m).
Definition pmove_tt1 (v : Z) (m : mem) : mem := mmu_invalidate_tlb (on_mmu (set_tt1 v) m).
Definition tc_sum (v : Z) : Z := TC_IS v + TC_PS v + TC_TIA v + TC_TIB v + TC_TIC v + TC_TID v.
Definition pmove_tc (fd : bool) (v : Z) (m : mem) : bool * mem :=
  let m := on_mmu (fun s => set_enabled (truthy (TC_ENABLE v)) (set_tc v s)) m in
  if truthy (TC_ENABLE v) && negb (tc_sum v =? 32) then (true, m)
  else (false, if fd then m else mmu_invalidate_tlb m).
Definition pmove_root (set_root : Z -> mmu_state -> mmu_state) (fd : bool) (upper lower : Z) (m : mem) : bool * mem :=
  let m := on_mmu (set_root (Z.lor (Z.shiftl upper 32) lower)) m in
  if Z.land upper 3 =? DESC_DT_INVALID then (true, m)
  else (false, if fd then m else mmu_invalidate_tlb m).
Definition pmove_srp : bool -> Z -> Z -> mem -> bool * mem := pmove_root set_srp.
Definition pmove_crp : bool -> Z -> Z -> mem -> bool * mem := pmove_root set_crp.
End Walk.

(** ** Set-up *)
Definition mmu_init (ram ram_size ram_max rom rom_size rom_base rom_end : Z) : mmu_state :=
  mk_mmu_state 0 0 0 0 0 0 false false ram ram_size ram_max 0 0 0 0 0 rom rom_size rom_base rom_end
    0 0 0 0 0 0 0 0 0 0.
(** mmu_register_vram and mmu_register_vrom *)
Definition mmu_register_vram (vram base size : Z) (s : mmu_state) : mmu_state :=
  mk_mmu_state (crp s) (srp s) (tc s) (tt0 s) (tt1 s) (mmusr s) (enabled s) (tlb_was_enabled s)
    (physical_ram s) (physical_ram_size s) (ram_size_max s)
    (physical_ram_b s) (ram_a_size s) (ram_b_phys_base s) (ram_b_size s) (ram_b_window s)
    (physical_rom s) (physical_rom_size s) (rom_phys_base s) (rom_region_end s)
    vram size base (physical_vrom s) (physical_vrom_size s) (vrom_phys_base s)
    (vram_phys_alt s) (vrom_phys_alt s) (nubus_berr_start s) (nubus_berr_end s).
Definition mmu_register_vrom (vrom base size : Z) (s : mmu_state) : mmu_state :=
  mk_mmu_state (crp s) (srp s) (tc s) (tt0 s) (tt1 s) (mmusr s) (enabled s) (tlb_was_enabled s)
    (physical_ram s) (physical_ram_size s) (ram_size_max s)
    (physical_ram_b s) (ram_a_size s) (ram_b_phys_base s) (ram_b_size s) (ram_b_window s)
    (physical_rom s) (physical_rom_size s) (rom_phys_base s) (rom_region_end s)
    (physical_vram s) (physical_vram_size s) (vram_phys_base s) vrom size base
    (vram_phys_alt s) (vrom_phys_alt s) (nubus_berr_start s) (nubus_berr_end s).
Definition mmu_set_ram_bank_b (a_size bank_b b_base b_size b_window : Z) (s : mmu_state) : mmu_state :=
  mk_mmu_state (crp s) (srp s) (tc s) (tt0 s) (tt1 s) (mmusr s) (enabled s) (tlb_was_enabled s)
    (physical_ram s) a_size (ram_size_max s) bank_b a_size b_base b_size b_window
    (physical_rom s) (physical_rom_size s) (rom_phys_base s) (rom_region_end s)
    (physical_vram s) (physical_vram_size s) (vram_phys_base s)
    (physical_vrom s) (physical_vrom_size s) (vrom_phys_base s)
    (vram_phys_alt s) (vrom_phys_alt s) (nubus_berr_start s) (nubus_berr_end s).
(** memory_map_host_region *)
Definition memory_map_host_region (host_ptr base size : Z) (writable : bool) : mmu_state -> mmu_state :=
  if writable then mmu_register_vram host_ptr base size else mmu_register_vrom host_ptr base size.
Definition set_alts (vram vrom : Z) (s : mmu_state) : mmu_state :=
  mk_mmu_state (crp s) (srp s) (tc s) (tt0 s) (tt1 s) (mmusr s) (enabled s) (tlb_was_enabled s)
    (physical_ram s) (physical_ram_size s) (ram_size_max s)
    (physical_ram_b s) (ram_a_size s) (ram_b_phys_base s) (ram_b_size s) (ram_b_window s)
    (physical_rom s) (physical_rom_size s) (rom_phys_base s) (rom_region_end s)
    (physical_vram s) (physical_vram_size s) (vram_phys_base s)
    (physical_vrom s) (physical_vrom_size s) (vrom_phys_base s)
    vram vrom (nubus_berr_start s) (nubus_berr_end s).
Definition memory_map_host_region_alias (alias original : Z) (s : mmu_state) : mmu_state :=
  if truthy (physical_vram s) && (original =? vram_phys_base s) then set_alts alias (vrom_phys_alt s) s
  else if truthy (physical_vrom s) && (original =? vrom_phys_base s) then set_alts (vram_phys_alt s) alias s
  else s.
Definition memory_set_bus_error_range (first last : Z) (s : mmu_state) : mmu_state :=
  mk_mmu_state (crp s) (srp s) (tc s) (tt0 s) (tt1 s) (mmusr s) (enabled s) (tlb_was_enabled s)
    (physical_ram s) (physical_ram_size s) (ram_size_max s)
    (physical_ram_b s) (ram_a_size s) (ram_b_phys_base s) (ram_b_size s) (ram_b_window s)
    (physical_rom s) (physical_rom_size s) (rom_phys_base s) (rom_region_end s)
    (physical_vram s) (physical_vram_size s) (vram_phys_base s)
    (physical_vrom s) (physical_vrom_size s) (vrom_phys_base s)
    (vram_phys_alt s) (vrom_phys_alt s) first last.
(** mmu_delete of the machine's MMU: the file-scope state it leaves. *)
Definition mmu_delete (t : pmmu) : pmmu :=
  atc_flush (set_tlb_track_overflow true (set_tlb_track [] (set_last_user_crp 0 t))).
(** The state of mmu.c at its file-scope defaults. *)
Definition pmmu_boot (st : mmu_state) : pmmu :=
  mk_pmmu st [] true (replicate 16 empty_block) 0 0.

(** mmu.c behind the interface the memory map calls.  A walk with an undefined
    shift is given the result of a failed one here; the theorems about accesses
    assume a TC register without such shifts, the laws hold for all. *)
#[global] Instance pmmu_mmu {D} : Mmu D pmmu := {
  lisa_present _ := false;
  lisa_read _ _ _ m := (0, m);
  lisa_write _ _ _ _ m := m;
  lisa_debug_read _ _ _ m := (0, m);
  lisa_debug_write _ _ _ _ m := (false, m);
  mmu_enabled t := enabled (regs t);
  mmu_translate_debug a sv m := default a (translate_debug a sv m);
  mmu_translate_checked a sv m := default None (translate_checked a sv m);
  mmu_phys_to_host a m := phys_to_host (st_of m) a;
  mmu_phys_is_writable a m := phys_is_writable (st_of m) a;
  mmu_check_tt a w sv m := check_tt (st_of m) a w sv;
  mmu_handle_fault a w sv m := default (false, m) (handle_fault a w sv m);
  mmu_snapshot_crp t := set_last_user_crp (crp (regs t)) t;
  tlb_track_page := track_page;
}.
