(* ===== verification/PmmuProofs.v ===== *)
(** * The 68030 MMU: walks, fills and the TLB invariant

    A walk translates whole blocks: the addresses that share their upper bits
    with a translated one translate with it.  From that, entries of the software
    TLB and of the block cache stay what the guest's tables say until the next
    invalidation, and the invalidation drops every one of them.  The table
    search of the MC68030 is stated here too, with the features of the tables
    that the code leaves out, and the walk compared with it. *)
From S2P Require Import Prelude Bus Memory MemoryBus MemoryProofs Pmmu.

(** ** Blocks of addresses *)
Lemma low_clear_mod n x : 0 <= n -> (forall i, 0 <= i < n -> Z.testbit x i = false) -> x mod 2 ^ n = 0.
Proof.
  intros Hn Hx. apply Z.bits_inj'. intros i Hi. rewrite Z.bits_0.
  destruct (Z.lt_ge_cases i n); [rewrite Z.mod_pow2_bits_low by lia; auto|by rewrite Z.mod_pow2_bits_high by lia].
Qed.
Lemma lor_block n base x : 0 <= n -> base mod 2 ^ n = 0 -> in_width n x -> Z.lor base x = base + x.
Proof.
  intros Hn Hb Hx. pose proof (Z.pow_pos_nonneg 2 n ltac:(lia) Hn).
  assert (base = Z.shiftl (base / 2 ^ n) n) as E.
  { rewrite Z.shiftl_mul_pow2 by done. pose proof (Z.div_mod base (2 ^ n)). lia. }
  rewrite E at 1. rewrite lor_shiftl_add by done. rewrite <-Z.shiftl_mul_pow2, <-E by done. done.
Qed.

(** [a] and [b] lie in the same block of 2^n bytes. *)
Definition same_block (n a b : Z) : Prop := a / 2 ^ n = b / 2 ^ n.
Lemma same_block_le n k a b : 0 <= n <= k -> same_block n a b -> same_block k a b.
Proof.
  unfold same_block. intros Hn E. replace k with (n + (k - n)) by lia.
  rewrite Z.pow_add_r by lia. rewrite <-!Z.div_div by (try apply Z.pow_pos_nonneg; lia). by rewrite E.
Qed.
Lemma same_block_index n k a b : 0 <= n <= k -> same_block n a b -> Z.shiftr a k = Z.shiftr b k.
Proof. intros Hn E. rewrite !Z.shiftr_div_pow2 by lia. by apply (same_block_le n). Qed.
#[global] Instance same_block_equiv n : Equivalence (same_block n).
Proof. unfold same_block. split; [done|by intros ??|by intros ??? ->]. Qed.

(** The result of a walk of another address of the block at [base]. *)
Definition walk_in (base b : Z) (r : walk_result) : walk_result :=
  mk_walk (base + b mod 2 ^ page_size_bits r) (page_size_bits r) (descriptor_addr r) (valid r)
    (supervisor_only r) (write_protected r) (modified r) (walk_mmusr r).
Definition zsum (l : list Z) : Z := fold_right Z.add 0 l.

Section Walks.
Context {D : Type} `{Devices D}.
#[local] Abbreviation mem := (mem_t D pmmu).
Implicit Types m : mem.

Lemma page_walk_block a bp d hi lo k l : 0 <= bp < 32 ->
  let r := page_walk a bp d hi lo k l in
  exists base, base mod 2 ^ bp = 0 /\ in_width 32 base /\
    forall b, page_walk b bp d hi lo k l = walk_in base b r.
Proof.
  intros Hbp r. set (base := Z.land (Z.ldiff lo (2 ^ bp - 1)) 0xFFFFFFFC).
  assert (base mod 2 ^ bp = 0) as Hb.
  { apply low_clear_mod; [lia|]. intros i Hi. unfold base. rewrite Z.land_spec, Z.ldiff_spec.
    replace (2 ^ bp - 1) with (Z.ones bp) by (rewrite Z.ones_equiv; lia).
    rewrite Z.ones_spec_low by lia. by rewrite andb_false_r. }
  exists base. split_and!; [done|..].
  { apply land_width; [lia|]. by split. }
  intros b. unfold page_walk, walk_in, r, page_walk. cbn [page_size_bits]. f_equal.
  fold base. rewrite land_ones_mod by lia. apply (lor_block bp); [lia|done|].
  apply Z.mod_pos_bound, Z.pow_pos_nonneg; lia.
Qed.

Lemma walk_levels_block m ti : forall a bp ta l d k r,
  0 <= bp <= 32 -> Forall (fun w => 0 <= w < 16) ti ->
  walk_levels ti m a bp ta l d k = Some r -> valid r = true ->
  (bp - zsum ti <= page_size_bits r <= bp /\ 0 <= page_size_bits r < 32) /\
  exists base, base mod 2 ^ page_size_bits r = 0 /\ in_width 32 base /\
    forall b, same_block (page_size_bits r) a b -> walk_levels ti m b bp ta l d k = Some (walk_in base b r).
Proof.
  induction ti as [|w ti IH]; intros a bp ta l d k r Hbp Hti.
  { cbn. by intros [= <-]. }
  apply Forall_cons_1 in Hti as [Hw Hti]. cbn [walk_levels zsum fold_right]. fold (zsum ti).
  assert (0 <= zsum ti) as Hz by (clear -Hti; induction Hti; cbn; [lia|unfold zsum in *; lia]).
  destruct (Z.eqb_spec w 0) as [->|Hw0].
  { intros E Hv. destruct (IH _ _ _ _ _ _ _ Hbp Hti E Hv) as [? ?]. split; [lia|done]. }
  destruct (Z.leb_spec 32 w); [lia|].
  destruct (Z.leb_spec 32 (u32 (bp - w))) as [|Hlt]; [done|].
  assert (u32 (bp - w) = bp - w /\ 0 <= bp - w < 32) as [Eu Hr].
  { unfold u32, wrap in *. destruct (Z.lt_ge_cases (bp - w) 0); [|split; [apply Z.mod_small|]; dlia].
    exfalso. revert Hlt. rewrite <-(Z.mod_add _ 1) by done. rewrite Z.mod_small; dlia. }
  rewrite Eu. clear Eu Hlt.
  assert (forall b, same_block (bp - w) a b -> Z.shiftr b (bp - w) = Z.shiftr a (bp - w)) as Hidx.
  { intros b Hb. symmetry. eapply same_block_index; [|exact Hb]. lia. }
  set (da b := u32 (ta + Z.land (Z.shiftr b (bp - w)) (2 ^ w - 1) * (if l then 8 else 4))).
  fold (da a). cbv zeta.
  destruct (_ =? DESC_DT_INVALID) eqn:Ei; [by intros [= <-]|].
  destruct (_ =? DESC_DT_PAGE) eqn:Ep.
  - intros [= <-] _.
    destruct (page_walk_block a (bp - w) (da a) (phys_read32 m (da a))
      (if l then phys_read32 m (u32 (da a + 4)) else phys_read32 m (da a)) (k + 1) l Hr) as (base & Hm & Hwd & Hp).
    split; [cbn; lia|]. exists base. split_and!; [done..|]. intros b Hb. cbn [page_size_bits page_walk] in Hb.
    fold (da b). assert (da b = da a) as -> by (unfold da; by rewrite Hidx). rewrite Ei, Ep. f_equal. apply Hp.
  - intros E Hv. assert (0 <= bp - w <= 32) as Hbp' by lia.
    destruct (IH _ _ _ _ _ _ _ Hbp' Hti E Hv) as [Hn (base & Hm & Hwd & Hp)].
    split; [lia|]. exists base. split_and!; [done..|]. intros b Hb.
    fold (da b). assert (da b = da a) as ->.
    { unfold da. rewrite Hidx; [done|]. eapply same_block_le; [|exact Hb]. lia. }
    rewrite Ei, Ep. by apply Hp.
Qed.

Lemma walk_levels_defined m ti : forall a bp ta l d k,
  0 <= bp <= 32 -> Forall (fun w => 0 <= w < 16) ti -> zsum ti <= bp ->
  is_Some (walk_levels ti m a bp ta l d k).
Proof.
  induction ti as [|w ti IH]; intros a bp ta l d k Hbp Hti Hsum; [by eexists|].
  apply Forall_cons_1 in Hti as [Hw Hti]. cbn [walk_levels]. cbn [zsum fold_right] in Hsum. fold (zsum ti) in Hsum.
  assert (0 <= zsum ti) as Hz by (clear -Hti; induction Hti; cbn; [lia|unfold zsum in *; lia]).
  destruct (Z.eqb_spec w 0) as [->|Hw0]; [apply IH; auto with lia|].
  destruct (Z.leb_spec 32 w); [lia|].
  rewrite (u32_small (bp - w)) by (unfold in_width; lia). destruct (Z.leb_spec 32 (bp - w)); [lia|].
  cbv zeta. destruct (_ =? _); [by eexists|]. destruct (_ =? _); [by eexists|]. apply IH; auto with lia.
Qed.

(** A walk only looks at physical memory. *)
Lemma walk_levels_ext m m' ti : (forall p, phys_read32 m' p = phys_read32 m p) ->
  forall a bp ta l d k, walk_levels ti m' a bp ta l d k = walk_levels ti m a bp ta l d k.
Proof.
  intros E. induction ti as [|w ti IH]; intros; [done|]. cbn [walk_levels]. rewrite !E, !IH.
  destruct l; cbv zeta; by rewrite ?IH, ?E.
Qed.

(** ** TC registers *)
Lemma nibble x : 0 <= Z.land x 0xF < 16.
Proof. apply (land_width 4); [lia|]. by split. Qed.
Lemma index_widths_range v : Forall (fun w => 0 <= w < 16) (index_widths v).
Proof. repeat constructor; apply nibble. Qed.
Lemma zsum_widths v : zsum (index_widths v) = tc_sum v - TC_IS v - TC_PS v.
Proof. unfold tc_sum. cbn. lia. Qed.

(** Translation is in order: the TC fields add up, pages are not smaller than
    the emulator's, no TT register tells reads from writes, and none tells the
    two privilege levels apart while they share a root. *)
Record regular (st : mmu_state) : Prop := {
  reg_sum : tc_sum (tc st) = 32;
  reg_page : 12 <= TC_PS (tc st);
  reg_rw : forall a sv, check_tt st a true sv = check_tt st a false sv;
  reg_fc : TC_SRE (tc st) = 0 -> forall a sv, check_tt st a false sv = check_tt st a false true;
}.

Lemma table_walk_defined m a sv : tc_sum (tc (st_of m)) = 32 -> is_Some (mmu_table_walk m a sv).
Proof.
  intros Hs. unfold mmu_table_walk. cbv zeta. destruct (_ =? _); [by eexists|].
  apply walk_levels_defined; [pose proof (nibble (Z.shiftr (tc (st_of m)) 16)); unfold TC_IS; lia|apply index_widths_range|].
  rewrite zsum_widths, Hs. pose proof (nibble (Z.shiftr (tc (st_of m)) 20)). unfold TC_PS. lia.
Qed.

Lemma table_walk_block m a sv r : tc_sum (tc (st_of m)) = 32 -> 12 <= TC_PS (tc (st_of m)) ->
  mmu_table_walk m a sv = Some r -> valid r = true ->
  12 <= page_size_bits r < 32 /\
  exists base, base mod 2 ^ page_size_bits r = 0 /\ in_width 32 base /\
    forall b, same_block (page_size_bits r) a b -> mmu_table_walk m b sv = Some (walk_in base b r).
Proof.
  intros Hs Hp. unfold mmu_table_walk. cbv zeta. destruct (_ =? DESC_DT_INVALID); [by intros [= <-]|].
  intros E Hv. pose proof (nibble (Z.shiftr (tc (st_of m)) 16)) as Hi. fold (TC_IS (tc (st_of m))) in Hi.
  assert (0 <= 32 - TC_IS (tc (st_of m)) <= 32) as Hbp by lia.
  destruct (walk_levels_block _ _ _ _ _ _ _ _ _ Hbp (index_widths_range _) E Hv) as [[Hn ?] ?].
  rewrite zsum_widths, Hs in Hn. split; [lia|done].
Qed.

Lemma table_walk_shared m a sv sv' : TC_SRE (tc (st_of m)) = 0 -> mmu_table_walk m a sv = mmu_table_walk m a sv'.
Proof. intros E. unfold mmu_table_walk, root_pointer. by rewrite E. Qed.

(** ** States with the same translation *)

(** The registers but MMUSR and the note of the last invalidation. *)
Definition conf (st : mmu_state) : mmu_state := set_mmusr 0 (set_tlb_was_enabled false st).
Lemma conf_inv s s' : conf s' = conf s -> exists x b, s' = set_mmusr x (set_tlb_was_enabled b s).
Proof.
  destruct s, s'. unfold conf, set_mmusr, set_tlb_was_enabled. cbn. intros [= -> -> -> -> -> -> -> -> -> -> -> -> -> -> -> -> -> -> -> -> -> -> -> -> -> -> -> ->].
  by eexists _, _.
Qed.
Record same_xlate m m' : Prop := {
  sx_host : host m' = host m;
  sx_conf : conf (st_of m') = conf (st_of m);
}.
#[global] Instance same_xlate_equiv : Equivalence same_xlate.
Proof.
  split; [by split|by intros ?? []; split|]. intros ??? [] []. split; congruence.
Qed.
Lemma phys_read32_ext m m' p : same_xlate m m' -> phys_read32 m' p = phys_read32 m p.
Proof.
  intros [Hh Hc]. destruct (conf_inv _ _ Hc) as (x & b & E).
  unfold phys_read32, LOAD_BE, host_byte. by rewrite E, Hh.
Qed.
Lemma table_walk_ext m m' a sv : same_xlate m m' -> mmu_table_walk m' a sv = mmu_table_walk m a sv.
Proof.
  intros Hx. destruct (conf_inv _ _ (sx_conf _ _ Hx)) as (x & b & E).
  unfold mmu_table_walk. rewrite (walk_levels_ext m m') by (intros p; by apply phys_read32_ext). by rewrite E.
Qed.
End Walks.

(** ** Masks and pages *)
Lemma land_high n a : 0 <= n <= 32 -> in_width 32 a -> Z.land a (2 ^ 32 - 2 ^ n) = a - a mod 2 ^ n.
Proof.
  intros Hn Ha. assert (Z.land a (2 ^ 32 - 2 ^ n) = Z.ldiff a (Z.ones n)) as ->.
  { apply Z.bits_inj'. intros i Hi. rewrite Z.land_spec, Z.ldiff_spec.
    assert (2 ^ 32 - 2 ^ n = Z.shiftl (Z.ones (32 - n)) n) as ->.
    { rewrite Z.shiftl_mul_pow2, Z.ones_equiv by lia. rewrite <-Z.sub_1_r, Z.mul_sub_distr_r, <-Z.pow_add_r by lia.
      replace (32 - n + n) with 32 by lia. lia. }
    rewrite shiftl_testbit. destruct (Z.leb_spec 0 i); [|lia]. cbn [andb].
    destruct (Z.lt_ge_cases i n).
    { rewrite (Z.testbit_neg_r _ (i - n)), (Z.ones_spec_low n i) by lia. by rewrite !andb_false_r. }
    rewrite (Z.ones_spec_high n i) by lia. destruct (Z.lt_ge_cases i 32).
    - rewrite Z.ones_spec_low by lia. done.
    - by rewrite (width_bits 32 a i) by (done || lia). }
  rewrite Z.ldiff_ones_r by lia. rewrite Z.shiftr_div_pow2, Z.shiftl_mul_pow2 by lia.
  pose proof (Z.pow_pos_nonneg 2 n ltac:(lia) ltac:(lia)). pose proof (Z.div_mod a (2 ^ n) ltac:(lia)). lia.
Qed.
Lemma page_base_mod a : in_width 32 a -> page_base a = a - a mod 4096.
Proof. intros Ha. apply (land_high 12 a); [lia|done]. Qed.
Lemma page_base_width a : in_width 32 a -> in_width 32 (page_base a).
Proof. intros Ha. rewrite page_base_mod by done. unfold in_width in *. dlia. Qed.
Lemma page_of_base a : in_width 32 a -> page_of (page_base a) = page_of a.
Proof. intros Ha. rewrite page_base_mod, !page_of_div by done. dlia. Qed.
Lemma page_base_block a n : in_width 32 a -> 12 <= n -> same_block n a (page_base a).
Proof.
  intros Ha Hn. apply (same_block_le 12); [lia|]. unfold same_block. rewrite page_base_mod by done.
  change (2 ^ 12) with 4096. dlia.
Qed.
(** 4096 divides 2^n *)
Lemma pow_page n : 12 <= n -> exists q, 0 < q /\ 2 ^ n = q * 4096.
Proof.
  intros Hn. exists (2 ^ (n - 12)). split; [apply Z.pow_pos_nonneg; lia|].
  change 4096 with (2 ^ 12). rewrite <-Z.pow_add_r by lia. f_equal. lia.
Qed.
(** The page of a translated address is the translation of its page. *)
Lemma page_base_translate n base a : 12 <= n -> base mod 2 ^ n = 0 -> in_width 32 a -> in_width 32 (base + a mod 2 ^ n) ->
  page_base (base + a mod 2 ^ n) = base + page_base a mod 2 ^ n.
Proof.
  intros Hn Hb Ha Hw. destruct (pow_page n Hn) as (q & Hq & E). rewrite !page_base_mod by done. rewrite E in *.
  pose proof (Z.div_mod base (q * 4096) ltac:(lia)) as Hd. rewrite Hb in Hd.
  assert ((base + a mod (q * 4096)) mod 4096 = a mod 4096) as ->.
  { rewrite (Z.mul_comm q), Z.rem_mul_r by lia.
    replace (base + _) with (a mod 4096 + (base / (q * 4096) * q + (a / 4096) mod q) * 4096) by lia.
    rewrite Z.mod_add, Z.mod_mod by lia. done. }
  assert ((a - a mod 4096) mod (q * 4096) = a mod (q * 4096) - a mod 4096) as ->; [|lia].
  rewrite !(Z.mul_comm q), !Z.rem_mul_r by lia.
  replace (a - a mod 4096) with ((a / 4096) * 4096) by (pose proof (Z.div_mod a 4096); lia).
  rewrite Z.mod_mul, Z.div_mul by lia. lia.
Qed.
(** A translated address stays within 32 bits. *)
Lemma block_width n base a : 0 <= n <= 32 -> base mod 2 ^ n = 0 -> in_width 32 base -> in_width 32 (base + a mod 2 ^ n).
Proof.
  intros Hn Hb Hw. unfold in_width in *. pose proof (Z.pow_pos_nonneg 2 n ltac:(lia) ltac:(lia)).
  pose proof (Z.mod_pos_bound a (2 ^ n) ltac:(lia)).
  assert (2 ^ 32 = 2 ^ (32 - n) * 2 ^ n) as E by (rewrite <-Z.pow_add_r by lia; f_equal; lia).
  pose proof (Z.div_mod base (2 ^ n) ltac:(lia)) as Hd. rewrite Hb in Hd.
  assert (base / 2 ^ n < 2 ^ (32 - n)) by (apply Z.div_lt_upper_bound; lia). nia.
Qed.

(** ** The table search of the MC68030

    Written from the user's manual, independently of mmu.c: root pointers and
    table descriptors carry an index limit, the write-protect and supervisor
    bits of the tables passed accumulate, a page descriptor above the last
    level ends the search early, a table descriptor at the last level is an
    indirect one, and a root pointer may itself map everything by an offset.
    The search also reports which of the features it met that mmu.c lacks. *)
Inductive feature :=
  | RootPage            (* root pointer of type page descriptor *)
  | IgnoredIndex        (* an index field behind an empty one *)
  | LimitExceeded       (* an index outside the limit of its table *)
  | TableProtected      (* a table descriptor with WP *)
  | TableSupervisor     (* a table descriptor with S *)
  | IndirectDescriptor  (* a table descriptor at the last level *)
  | UnalignedBlock.     (* an early block whose address is not a multiple of its size *)

(** The physical address, the size of the block and its protection. *)
Record translation := mk_translation { t_address : Z; t_bits : Z; t_super : bool; t_protected : bool }.
(** A table: its address, long entries or short ones, and its limit with the
    L/U bit. *)
Record arch_table := mk_table { tb_base : Z; tb_long : bool; tb_limit : option (bool * Z) }.

Definition admits (limit : option (bool * Z)) (i : Z) : bool :=
  match limit with
  | None => true
  | Some (true, n) => n <=? i
  | Some (false, n) => i <=? n
  end.
(** L/U and LIMIT in the first long word of a root pointer or long descriptor. *)
Definition limit_of (hi : Z) : bool * Z := (Z.testbit hi 31, (hi / 2 ^ 16) mod 2 ^ 15).

Section Arch.
Context {D : Type}.
#[local] Abbreviation mem := (mem_t D pmmu).
Implicit Types m : mem.

(** A descriptor: the word with its type and the word with its address. *)
Definition fetch_descriptor m (long : bool) (p : Z) : Z * Z :=
  let hi := phys_read32 m (p mod 2 ^ 32) in
  (hi, if long then phys_read32 m ((p + 4) mod 2 ^ 32) else hi).
Definition page_frame (ps lo : Z) : Z := lo - lo mod 2 ^ ps.

(** A page descriptor with [left] address bits below it. *)
Definition arch_page (ps : Z) (long : bool) (hi lo left : Z) (so wp : bool) (a : Z) : translation :=
  mk_translation ((page_frame ps lo + a mod 2 ^ left) mod 2 ^ 32) left
    (so || (long && Z.testbit hi 8)) (wp || Z.testbit hi 2).

(** [widths]: the index fields left; [left]: the address bits left; [so], [wp]:
    the protection gathered on the way. *)
Fixpoint table_search m (ps : Z) (widths : list Z) (left : Z) (tb : arch_table) (so wp : bool) (a : Z) :
    option translation * list feature :=
  match widths with
  | [] => (None, [])
  | w :: widths =>
      let left := left - w in
      let i := (a / 2 ^ left) mod 2 ^ w in
      if negb (admits (tb_limit tb) i) then (None, [LimitExceeded]) else
      let long := tb_long tb in
      let '(hi, lo) := fetch_descriptor m long (tb_base tb + i * (if long then 8 else 4)) in
      let limit := if long then Some (limit_of hi) else None in
      match hi mod 4 with
      | 0 => (None, [])
      | 1 =>
          match widths with
          | w' :: _ =>
              if negb (admits limit ((a / 2 ^ (left - w')) mod 2 ^ w')) then (None, [LimitExceeded])
              else (Some (arch_page ps long hi lo left so wp a),
                    if page_frame ps lo mod 2 ^ left =? 0 then [] else [UnalignedBlock])
          | [] => (Some (arch_page ps long hi lo left so wp a), [])
          end
      | dt =>
          match widths with
          | [] =>
              let '(hi', lo') := fetch_descriptor m (dt =? 3) (lo - lo mod 4) in
              (if hi' mod 4 =? 1 then Some (arch_page ps (dt =? 3) hi' lo' left so wp a) else None,
               [IndirectDescriptor])
          | _ =>
              let s := long && Z.testbit hi 8 in
              let p := Z.testbit hi 2 in
              let '(r, fs) := table_search m ps widths left (mk_table (lo - lo mod 16) (dt =? 3) limit)
                                (so || s) (wp || p) a in
              (r, (if s then [TableSupervisor] else []) ++ (if p then [TableProtected] else []) ++ fs)
          end
      end
  end.

(** The fields of TC. *)
Definition tc_field (t k : Z) : Z := (t / 2 ^ k) mod 16.
Fixpoint before_zero (l : list Z) : list Z :=
  match l with [] => [] | x :: l => if x =? 0 then [] else x :: before_zero l end.
Definition tc_levels (t : Z) : list Z := before_zero (map (tc_field t) [12; 8; 4; 0]).
(** What the MC68030 asks of TC: IS, the index fields up to the first empty
    one and PS make up 32 bits, with pages of 256 bytes to 32 KB; and no table
    is indexed by the function code. *)
Record tc_consistent (t : Z) : Prop := {
  tcc_sum : tc_field t 16 + zsum (tc_levels t) + tc_field t 20 = 32;
  tcc_page : 8 <= tc_field t 20;
  tcc_fcl : Z.testbit t 24 = false;
}.

Definition arch_translate m (a : Z) (sv : bool) : option translation * list feature :=
  let t := tc (st_of m) in
  let root := if Z.testbit t 25 && sv then srp (st_of m) else crp (st_of m) in
  let hi := (root / 2 ^ 32) mod 2 ^ 32 in
  let base := root mod 2 ^ 32 - root mod 16 in
  let '(r, fs) :=
    match hi mod 4 with
    | 0 => (None, [])
    | 1 => (Some (mk_translation ((a + base) mod 2 ^ 32) 32 false false), [RootPage])
    | dt => table_search m (tc_field t 20) (tc_levels t) (32 - tc_field t 16)
              (mk_table base (dt =? 3) (Some (limit_of hi))) false false a
    end in
  (r, (if zsum (map (tc_field t) [12; 8; 4; 0]) =? zsum (tc_levels t) then [] else [IgnoredIndex]) ++ fs).

(** The translation a walk of mmu.c found. *)
Definition walk_of (r : walk_result) : option translation :=
  if valid r then Some (mk_translation (physical_addr r) (page_size_bits r) (supervisor_only r) (write_protected r))
  else None.

Lemma phys_read32_width m p : in_width 32 (phys_read32 m p).
Proof.
  assert (forall q, in_width 32 (LOAD_BE B32 q m)) as Hl.
  { intros q. unfold LOAD_BE.
    assert (forall i, in_width 8 (host_byte m (q + i))) as Hb by (intros; apply (wrap_range 8); lia).
    assert (forall x y n k, 0 <= n -> in_width n x -> in_width k y -> 0 <= k -> in_width (n + k) (Z.lor (Z.shiftl x k) y)) as Hj.
    { intros x y n k Hn [Hx1 Hx2] [Hy1 Hy2] Hk. rewrite lor_shiftl_add by (done || by split).
      unfold in_width. rewrite Z.pow_add_r by done. nia. }
    apply (Hj _ _ 16 16); try lia; apply (Hj _ _ 8 8); try lia; apply Hb. }
  assert (in_width 32 0) as H0 by (by split).
  unfold phys_read32. cbv zeta.
  repeat match goal with |- in_width 32 (if ?c then _ else _) => destruct c end; auto.
Qed.

(** The page address as mmu.c masks it. *)
Lemma page_base_bits lo n : in_width 32 lo -> 2 <= n < 32 ->
  Z.land (Z.ldiff lo (2 ^ n - 1)) 0xFFFFFFFC = lo - lo mod 2 ^ n.
Proof.
  intros Hlo Hn. assert (0xFFFFFFFC = 2 ^ 32 - 2 ^ 2) as -> by reflexivity.
  assert (Z.ldiff lo (2 ^ n - 1) = lo - lo mod 2 ^ n) as ->.
  { replace (2 ^ n - 1) with (Z.ones n) by (rewrite Z.ones_equiv; lia).
    rewrite Z.ldiff_ones_r, Z.shiftr_div_pow2, Z.shiftl_mul_pow2 by lia.
    pose proof (Z.div_mod lo (2 ^ n) ltac:(lia)). lia. }
  pose proof (Z.pow_pos_nonneg 2 n ltac:(lia) ltac:(lia)).
  pose proof (Z.mod_pos_bound lo (2 ^ n) ltac:(lia)). pose proof (Z.mod_le lo (2 ^ n) ltac:(apply Hlo) ltac:(lia)).
  rewrite land_high by (unfold in_width in *; lia).
  assert ((lo - lo mod 2 ^ n) mod 2 ^ 2 = 0) as ->; [|lia].
  replace n with (2 + (n - 2)) by lia. rewrite Z.pow_add_r by lia.
  pose proof (Z.pow_pos_nonneg 2 (n - 2) ltac:(lia) ltac:(lia)).
  pose proof (Z.div_mod lo (2 ^ 2 * 2 ^ (n - 2)) ltac:(lia)).
  replace (lo - _) with (2 ^ (n - 2) * (lo / (2 ^ 2 * 2 ^ (n - 2))) * 2 ^ 2) by lia.
  by apply Z.mod_mul.
Qed.
Lemma frame_aligned ps lo n : 0 <= ps <= n -> page_frame ps lo mod 2 ^ n = 0 -> page_frame ps lo = lo - lo mod 2 ^ n.
Proof.
  unfold page_frame. intros Hn Hz. pose proof (Z.mod_pos_bound lo (2 ^ ps) ltac:(apply Z.pow_pos_nonneg; lia)).
  pose proof (Z.pow_le_mono_r 2 ps n ltac:(lia) ltac:(lia)).
  assert (lo mod 2 ^ n = lo mod 2 ^ ps) as ->; [|lia].
  symmetry. apply (Z.mod_unique_pos _ _ ((lo - lo mod 2 ^ ps) / 2 ^ n)); [lia|].
  pose proof (Z.div_mod (lo - lo mod 2 ^ ps) (2 ^ n) ltac:(lia)). lia.
Qed.
(** A page descriptor means the same to both. *)
Lemma page_walk_arch ps a left d hi lo k long : in_width 32 lo -> 2 <= ps <= left -> left < 32 ->
  page_frame ps lo mod 2 ^ left = 0 ->
  walk_of (page_walk a left d hi lo k long) = Some (arch_page ps long hi lo left false false a).
Proof.
  intros Hlo Hps Hl Hal. unfold walk_of, arch_page, page_walk.
  cbn [valid physical_addr page_size_bits supervisor_only write_protected orb].
  rewrite !truthy_land_1, !Z.shiftr_spec, land_ones_mod, page_base_bits by (done || lia).
  pose proof (frame_aligned ps lo left ltac:(lia) Hal) as Ef. rewrite <-Ef.
  assert (in_width 32 (page_frame ps lo)) as Hw.
  { pose proof (Z.mod_pos_bound lo (2 ^ left) ltac:(apply Z.pow_pos_nonneg; lia)).
    pose proof (Z.mod_le lo (2 ^ left) ltac:(apply Hlo) ltac:(apply Z.pow_pos_nonneg; lia)).
    rewrite Ef. unfold in_width in *. lia. }
  rewrite (lor_block left); [|lia|done|apply Z.mod_pos_bound, Z.pow_pos_nonneg; lia].
  rewrite (Z.mod_small (_ + _)) by (apply (block_width left); done || lia).
  by replace (0 + 8) with 8 by lia.
Qed.

Lemma walk_levels_empty zs m a left table long d k r : Forall (fun w => w = 0) zs ->
  walk_levels zs m a left table long d k = Some r -> walk_of r = None.
Proof. induction 1 as [|? zs -> _ IH]; cbn; [by intros [= <-]|done]. Qed.

Lemma walk_levels_arch m ps ws zs : 8 <= ps -> Forall (fun w => w = 0) zs ->
  Forall (fun w => 0 < w < 16) ws -> forall a left tb d k r t,
  left <= 32 -> zsum ws + ps = left ->
  walk_levels (ws ++ zs) m a left (tb_base tb) (tb_long tb) d k = Some r ->
  table_search m ps ws left tb false false a = (t, []) -> walk_of r = t.
Proof.
  intros Hps Hzs. induction 1 as [|w ws Hw Hws IH]; intros a left tb d k r t Hl Hsum; cbn [app].
  { intros E. apply walk_levels_empty in E; [|done]. by intros [= <-]. }
  cbn [walk_levels table_search]. cbn [zsum fold_right] in Hsum. fold (zsum ws) in Hsum.
  assert (0 <= zsum ws) as Hz by (clear -Hws; induction Hws; cbn; [lia|unfold zsum in *; lia]).
  destruct (Z.eqb_spec w 0) as [|_]; [lia|]. destruct (Z.leb_spec 32 w); [lia|].
  rewrite (u32_small (left - w)) by (unfold in_width; lia). destruct (Z.leb_spec 32 (left - w)); [lia|]. cbv zeta.
  set (left' := left - w) in *. rewrite (land_ones_mod _ w), Z.shiftr_div_pow2 by lia.
  set (i := (a / 2 ^ left') mod 2 ^ w). destruct (admits (tb_limit tb) i); [|done]. cbn [negb].
  unfold fetch_descriptor, u32, wrap. rewrite Zplus_mod_idemp_l.
  set (p := tb_base tb + i * _). set (hi := phys_read32 m (p mod 2 ^ 32)). set (lo := if tb_long tb then _ else hi).
  assert (in_width 32 lo) as Hlo by (unfold lo; destruct (tb_long tb); apply phys_read32_width).
  assert (Z.land hi 3 = hi mod 4) as -> by (apply (land_ones_mod hi 2); lia).
  change DESC_DT_INVALID with 0. change DESC_DT_PAGE with 1. change DESC_DT_TABLE8 with 3.
  assert (Z.land lo 0xFFFFFFF0 = lo - lo mod 16) as ->.
  { assert (0xFFFFFFF0 = 2 ^ 32 - 2 ^ 4) as -> by reflexivity. apply (land_high 4); [lia|done]. }
  pose proof (Z.mod_pos_bound hi 4 ltac:(lia)) as Hm.
  assert (forall t', page_frame ps lo mod 2 ^ left' = 0 ->
    t' = Some (arch_page ps (tb_long tb) hi lo left' false false a) ->
    walk_of (page_walk a left' (p mod 2 ^ 32) hi lo (k + 1) (tb_long tb)) = t') as Hpage.
  { intros t' Hal ->. apply page_walk_arch; [done|lia..|done]. }
  assert (hi mod 4 = 0 \/ hi mod 4 = 1 \/ hi mod 4 = 2 \/ hi mod 4 = 3) as Hdt by lia.
  assert (forall dt, (dt = 2 \/ dt = 3) -> hi mod 4 = dt ->
     walk_levels (ws ++ zs) m a left' (lo - lo mod 16) (dt =? 3) (p mod 2 ^ 32) (k + 1) = Some r ->
     ws <> [] -> forall limit,
     (let '(r, fs) := table_search m ps ws left' (mk_table (lo - lo mod 16) (dt =? 3) limit)
         (tb_long tb && Z.testbit hi 8) (Z.testbit hi 2) a in
      (r, (if tb_long tb && Z.testbit hi 8 then [TableSupervisor] else []) ++
          (if Z.testbit hi 2 then [TableProtected] else []) ++ fs)) = (t, []) -> walk_of r = t) as Htable.
  { intros dt _ _ E _ limit. destruct (tb_long tb && Z.testbit hi 8), (Z.testbit hi 2);
      destruct (table_search _ _ _ _ _ _ _ _) as [r' fs] eqn:Es; try done. cbn [app].
    intros [= -> ->]. eapply (IH a left' (mk_table _ (dt =? 3) limit)); [lia|lia|exact E|exact Es]. }
  destruct Hdt as [E|[E|[E|E]]]; rewrite E; cbn [Z.eqb Pos.eqb].
  - intros [= <-] [= <-]. done.
  - intros [= <-]. destruct ws as [|w' ws'].
    + intros [= <-]. apply Hpage; [|done]. cbn in Hsum. replace left' with ps by lia. unfold page_frame.
      pose proof (Z.pow_pos_nonneg 2 ps ltac:(lia) ltac:(lia)). rewrite Zminus_mod_idemp_r. by rewrite Z.sub_diag.
    + destruct (negb _); [done|]. destruct (Z.eqb_spec (page_frame ps lo mod 2 ^ left') 0); [|done].
      intros [= <-]. by apply Hpage.
  - destruct ws; [by destruct (phys_read32 _ _)|]. intros Hr. apply (Htable 2); auto.
  - destruct ws; [by destruct (phys_read32 _ _)|]. intros Hr. apply (Htable 3); auto.
Qed.

(** The index fields of TC as mmu.c sees them. *)
Lemma nibble_field t k : 0 <= k -> Z.land (Z.shiftr t k) 0xF = tc_field t k.
Proof. intros Hk. rewrite Z.shiftr_div_pow2 by done. by apply (land_ones_mod _ 4). Qed.
Lemma index_widths_fields t : index_widths t = map (tc_field t) [12; 8; 4; 0].
Proof.
  unfold index_widths, TC_TIA, TC_TIB, TC_TIC, TC_TID. cbn [map]. rewrite !nibble_field by lia.
  do 4 f_equal. unfold tc_field. rewrite Z.div_1_r. by apply (land_ones_mod _ 4).
Qed.
Lemma fields_range t : Forall (fun w => 0 <= w < 16) (map (tc_field t) [12; 8; 4; 0]).
Proof. repeat constructor; apply Z.mod_pos_bound; lia. Qed.
Lemma tc_sum_fields t : tc_sum t = tc_field t 16 + tc_field t 20 + zsum (map (tc_field t) [12; 8; 4; 0]).
Proof.
  rewrite <-index_widths_fields, zsum_widths. unfold TC_IS, TC_PS. rewrite !nibble_field by lia. lia.
Qed.
Lemma root_pointer_bit st sv : root_pointer st sv = if Z.testbit (tc st) 25 && sv then srp st else crp st.
Proof. unfold root_pointer, TC_SRE. by rewrite truthy_land_1, Z.shiftr_spec. Qed.
Lemma root_upper_type root : Z.land (u32 (Z.shiftr root 32)) 3 = (root / 2 ^ 32) mod 2 ^ 32 mod 4.
Proof. rewrite Z.shiftr_div_pow2 by lia. by apply (land_ones_mod _ 2). Qed.
Lemma root_lower_base root : Z.land (u32 (Z.land root 0xFFFFFFFF)) 0xFFFFFFF0 = root mod 2 ^ 32 - root mod 16.
Proof.
  rewrite (land_ones_mod _ 32) by lia. unfold u32, wrap. rewrite Z.mod_mod by done.
  assert (0xFFFFFFF0 = 2 ^ 32 - 2 ^ 4) as -> by reflexivity.
  rewrite (land_high 4); [|lia|by apply Z.mod_pos_bound].
  by rewrite (Z.mod_mod_divide _ _ (2 ^ 4)) by (by exists (2 ^ 28)).
Qed.
Lemma before_zero_split l : Forall (fun w => 0 <= w < 16) l -> zsum l = zsum (before_zero l) ->
  exists zs, l = before_zero l ++ zs /\ Forall (fun w => w = 0) zs /\ Forall (fun w => 0 < w < 16) (before_zero l).
Proof.
  induction 1 as [|x l Hx Hl IH]; cbn [before_zero]; [by exists []|].
  destruct (Z.eqb_spec x 0) as [->|Hne].
  - intros Hs. exists (0 :: l). split; [done|]. split; [|done]. constructor; [done|].
    cbn in Hs. clear IH. revert Hs. induction Hl as [|y l Hy Hl IH]; [done|]. cbn. intros Hs.
    assert (0 <= zsum l) by (clear -Hl; induction Hl; cbn; [lia|unfold zsum in *; lia]).
    unfold zsum in *. constructor; [lia|]. apply IH. lia.
  - intros Hs. destruct IH as (zs & El & Hz & Hp); [cbn in Hs; unfold zsum in *; lia|].
    exists zs. split; [cbn; by rewrite <-El|]. split; [done|]. constructor; [lia|done].
Qed.
End Arch.

(** Transparent translation looks at the top byte of the address. *)
Lemma check_tt_page st a w sv : in_width 32 a -> check_tt st (page_base a) w sv = check_tt st a w sv.
Proof.
  intros Ha. unfold check_tt, tt_matches.
  assert (Z.shiftr (page_base a) 24 = Z.shiftr a 24) as ->; [|done].
  symmetry. apply (same_block_index 24); [lia|]. apply page_base_block; [done|lia].
Qed.

(** ** What the TLB may hold *)
Section Tlb.
Context {D : Type} `{Devices D}.
#[local] Abbreviation mem := (mem_t D pmmu).
Implicit Types m : mem.

(** The translation of a read: physical address, supervisor-only and
    write-protected. *)
Definition xlate m (a : Z) (sv : bool) : option (Z * bool * bool) :=
  if check_tt (st_of m) a false sv then Some (a, false, false)
  else match mmu_table_walk m a sv with
       | Some r => if valid r then Some (physical_addr r, supervisor_only r, write_protected r) else None
       | None => None
       end.

(** An entry of page [p] for the privilege level [sv], for writes if [wr]: it is
    empty, or the host address of the physical page the tables give, where the
    level may use it. *)
Definition entry_for m (sv wr : bool) (p e : Z) : Prop :=
  e = 0 \/ exists pa so wp,
    xlate m (p * 4096) sv = Some (pa, so, wp) /\ (so = true -> sv = true) /\
    (wr = true -> wp = false /\ phys_is_writable (st_of m) pa = true) /\
    page_base pa = pa /\ in_width 32 pa /\
    phys_to_host (st_of m) pa <> 0 /\ e = u64 (phys_to_host (st_of m) pa - p * 4096) /\
    logpoints_at m p = 0 /\ phys_logpoints_at m (page_of pa) = 0.
Definition entries_for m (p : Z) : Prop :=
  entry_for m true false p (soa_at (supervisor_read (soa m)) p) /\
  entry_for m true true p (soa_at (supervisor_write (soa m)) p) /\
  entry_for m false false p (soa_at (user_read (soa m)) p) /\
  entry_for m false true p (soa_at (user_write (soa m)) p).

(** A cached block: the walk of every address it covers gives its translation. *)
Definition block_ok m (b : atc_block) : Prop :=
  b_valid b = true -> exists n, 12 < n < 32 /\ log_mask b = 2 ^ 32 - 2 ^ n /\
  forall a sv, in_width 32 a -> Z.land a (log_mask b) = log_base b -> (sre_split (mmu m) = true -> sv = fc_super b) ->
  exists r, mmu_table_walk m a sv = Some r /\ valid r = true /\ physical_addr r = phys_base b + (a - log_base b) /\
    supervisor_only r = b_supervisor_only b /\ write_protected r = b_write_protected b.

Record coherent m : Prop := {
  coh_tlb : forall p, entries_for m p;
  coh_atc : Forall (block_ok m) (atc_blocks (mmu m));
}.

(** Logpoints, translation and the tables themselves are as before. *)
Record same_view m m' : Prop := {
  sv_xlate : same_xlate m m';
  sv_log : logpoint_count (hooks m') = logpoint_count (hooks m);
  sv_phys : logpoint_phys_count (hooks m') = logpoint_phys_count (hooks m);
}.
#[global] Instance same_view_equiv : Equivalence same_view.
Proof.
  split; [by split|by intros ?? []; split; [symmetry|..]|].
  intros ??? [] []. split; [by etrans|congruence..].
Qed.
Lemma xlate_ext m m' a sv : same_xlate m m' -> xlate m' a sv = xlate m a sv.
Proof.
  intros Hx. unfold xlate. rewrite (table_walk_ext m m') by done.
  destruct (conf_inv _ _ (sx_conf _ _ Hx)) as (x & b & E). by rewrite E.
Qed.
Lemma entry_for_ext m m' sv wr p e : same_view m m' -> entry_for m sv wr p e -> entry_for m' sv wr p e.
Proof.
  intros [Hx Hl Hp] [->|(pa & so & wp & Hr)]; [by left|]. right. exists pa, so, wp.
  rewrite (xlate_ext m m') by done. destruct (conf_inv _ _ (sx_conf _ _ Hx)) as (x & b & E).
  unfold logpoints_at, phys_logpoints_at in *. rewrite E, Hl, Hp. exact Hr.
Qed.
Lemma block_ok_ext m m' b : same_xlate m m' -> block_ok m b -> block_ok m' b.
Proof.
  intros Hx Hb Hv. destruct (Hb Hv) as (n & Hn & Hm & Hw). exists n. split_and!; [lia..|done|].
  intros a sv Ha Hl Hs. rewrite (table_walk_ext m m') by done. apply Hw; try done.
  intros E. apply Hs. unfold sre_split in *. destruct (conf_inv _ _ (sx_conf _ _ Hx)) as (x & bb & E').
  unfold st_of in E'. rewrite E'. exact E.
Qed.

(** A fault changes the TLB, MMUSR and the kind of the bus error, nothing else. *)
Record fault_frame m m' : Prop := {
  ff_host : host m' = host m;
  ff_conf : conf (st_of m') = conf (st_of m);
  ff_was : tlb_was_enabled (st_of m') = tlb_was_enabled (st_of m);
  ff_map : (page_table m', address_mask m', page_count m') = (page_table m, address_mask m, page_count m);
  ff_active : (active_read m', active_write m') = (active_read m, active_write m);
  ff_sprint : sprint m' = sprint m;
  ff_hooks : hooks m' = hooks m;
  ff_rest : (slowpath_count m', layout m', devices m') = (slowpath_count m, layout m, devices m);
  ff_pending : be_pending (berr m') = be_pending (berr m);
}.
#[global] Instance fault_frame_preorder : PreOrder fault_frame.
Proof. split; [by split|]. intros ??? [] []. split; congruence. Qed.
Lemma ff_view m m' : fault_frame m m' -> same_view m m'.
Proof. intros []. repeat split; congruence. Qed.

Lemma track_page_regs p t : regs (track_page p t) = regs t /\ atc_blocks (track_page p t) = atc_blocks t.
Proof. unfold track_page. destruct (tlb_track_overflow t); [done|]. by destruct (_ <=? _). Qed.
Lemma fill_frame lp pp so wp sv tt m :
  fault_frame m (mmu_fill_soa_entry lp pp so wp sv tt m) /\
  regs (mmu (mmu_fill_soa_entry lp pp so wp sv tt m)) = regs (mmu m) /\
  atc_blocks (mmu (mmu_fill_soa_entry lp pp so wp sv tt m)) = atc_blocks (mmu m).
Proof.
  unfold mmu_fill_soa_entry. cbv zeta. destruct (_ =? 0); [done|]. destruct (_ <=? _); [done|].
  do 2 (destruct (truthy _); [done|]).
  destruct (track_page_regs (page_of lp) (mmu m)) as [Er Ea].
  split_and!; [|exact Er|exact Ea].
  split; try done; cbn; unfold st_of; cbn; by rewrite Er.
Qed.

Lemma soa_at_put (b : bool) t p q v : soa_at (if b then <[p := v]> t else t) q = if b && bool_decide (p = q) then v else soa_at t q.
Proof.
  destruct b; cbn [andb]; [|done]. unfold soa_at. case_bool_decide as E; [subst; by rewrite lookup_insert_eq|].
  by rewrite lookup_insert_ne.
Qed.

(** Filling the entries of a page with its translation, for the privilege
    levels the fill is for. *)
Lemma fill_coherent lp pp so wp sv (tt : bool) m :
  in_width 32 lp -> page_base lp = lp -> page_base pp = pp -> in_width 32 pp ->
  (forall sv', (if tt then sv' = sv else sre_split (mmu m) = true -> sv' = sv) ->
     xlate m lp sv' = Some (pp, so, wp)) ->
  (so = true -> tt = false) ->
  (forall p, entries_for m p) -> forall p, entries_for (mmu_fill_soa_entry lp pp so wp sv tt m) p.
Proof.
  intros Hl Hlb Hpb Hpw Hx Hso Hall p.
  assert (same_view m (mmu_fill_soa_entry lp pp so wp sv tt m)) as Hv by apply ff_view, fill_frame.
  assert (page_of lp * 4096 = lp) as Hlp.
  { rewrite page_base_mod in Hlb by done. rewrite page_of_div. dlia. }
  revert Hv. unfold mmu_fill_soa_entry. cbv zeta.
  destruct (Z.eqb_spec (phys_to_host (st_of m) pp) 0) as [|Hh]; [done|].
  destruct (_ <=? _); [done|].
  destruct (truthy (logpoints_at m (page_of lp))) eqn:Hg; [done|].
  destruct (truthy (phys_logpoints_at m (page_of pp))) eqn:Hg'; [done|].
  unfold truthy in Hg, Hg'. apply negb_false_iff, Z.eqb_eq in Hg, Hg'.
  set (m1 := set_mmu _ m). intros Hv.
  assert (sre_split (mmu m1) = sre_split (mmu m)) as Es.
  { unfold sre_split, m1. cbn. by destruct (track_page_regs (page_of lp) (mmu m)) as [-> _]. }
  rewrite !Es in *. clear Es.
  set (adj := u64 (phys_to_host (st_of m) pp - lp)) in *.
  set (wr := negb wp && phys_is_writable (st_of m) pp) in *.
  assert (forall sv' w, (if tt then sv' = sv else sre_split (mmu m) = true -> sv' = sv) -> (so = true -> sv' = true) ->
    (w = true -> wr = true) -> entry_for m sv' w (page_of lp) adj) as Hnew.
  { intros sv' w Hfc Hs Hw. right. exists pp, so, wp. rewrite Hlp. split_and!; try done; [by apply Hx|].
    intros ->. specialize (Hw eq_refl). unfold wr in Hw. apply andb_prop in Hw as [Hw ?]. by destruct wp. }
  destruct (Hall p) as (H1 & H2 & H3 & H4).
  unfold entries_for. cbn [soa set_soa put_entries supervisor_read supervisor_write user_read user_write].
  unfold m1. cbn [soa set_mmu]. unfold put_entries. cbn [supervisor_read supervisor_write user_read user_write].
  rewrite !soa_at_put.
  split_and!; (eapply entry_for_ext; [exact Hv|]);
    match goal with |- entry_for m ?s ?w p (if ?c && _ then _ else _) => destruct c eqn:Ec; cbn [andb]; [|assumption] end;
    (case_bool_decide; [subst p|assumption]); apply Hnew; clear -Ec Hso;
    destruct tt, sv, (sre_split (mmu m)), so; cbn [negb orb andb] in Ec; naive_solver.
Qed.

Lemma page_aligned a : in_width 32 a -> page_base (page_base a) = page_base a.
Proof. intros Ha. rewrite (page_base_mod (page_base a)) by (by apply page_base_width). rewrite page_base_mod by done. dlia. Qed.

(** The translation of the page of an address that no TT register matches, at
    every level that shares the walk. *)
Lemma xlate_page m a w sv sv' r : regular (st_of m) -> in_width 32 a ->
  check_tt (st_of m) a w sv = false -> mmu_table_walk m a sv = Some r -> valid r = true ->
  (sre_split (mmu m) = true -> sv' = sv) ->
  xlate m (page_base a) sv' = Some (page_base (physical_addr r), supervisor_only r, write_protected r).
Proof.
  intros [R1 R2 R3 R4] Ha Ht Hw Hv Hfc. unfold xlate. rewrite check_tt_page by done.
  assert (check_tt (st_of m) a false sv' = false) as ->.
  { assert (check_tt (st_of m) a false sv = false) as Hf by (destruct w; [by rewrite <-R3|done]).
    unfold sre_split in Hfc. fold (st_of m) in Hfc. destruct (truthy (TC_SRE (tc (st_of m)))) eqn:Es; [by rewrite Hfc|].
    unfold truthy in Es. apply negb_false_iff, Z.eqb_eq in Es. rewrite R4 by done. by rewrite <-(R4 Es a sv). }
  assert (mmu_table_walk m (page_base a) sv' = mmu_table_walk m (page_base a) sv) as ->.
  { unfold sre_split in Hfc. fold (st_of m) in Hfc. destruct (truthy (TC_SRE (tc (st_of m)))) eqn:Es; [by rewrite Hfc|].
    unfold truthy in Es. apply negb_false_iff, Z.eqb_eq in Es. by apply table_walk_shared. }
  destruct (table_walk_block m a sv r R1 R2 Hw Hv) as (Hn & base & Hb & Hbw & Hall).
  rewrite (Hall (page_base a)) by (apply page_base_block; [done|lia]).
  pose proof (Hall a ltac:(done)) as Hself. rewrite Hw in Hself. injection Hself as Hself.
  unfold walk_in. cbn [valid physical_addr supervisor_only write_protected]. rewrite Hv.
  assert (physical_addr r = base + a mod 2 ^ page_size_bits r) as -> by (by rewrite Hself).
  rewrite page_base_translate; [done|lia|done|done|]. apply block_width; [lia|done|done].
Qed.

Lemma walk_width m a sv r : regular (st_of m) -> mmu_table_walk m a sv = Some r -> valid r = true ->
  in_width 32 (physical_addr r).
Proof.
  intros [R1 R2 _ _] Hw Hv. destruct (table_walk_block m a sv r R1 R2 Hw Hv) as (Hn & base & Hb & Hbw & Hall).
  pose proof (Hall a ltac:(done)) as Hself. rewrite Hw in Hself. injection Hself as Hself.
  rewrite Hself. apply block_width; [cbn; lia|done|done].
Qed.

Lemma coherent_ext m m' : same_view m m' -> soa m' = soa m -> atc_blocks (mmu m') = atc_blocks (mmu m) ->
  coherent m -> coherent m'.
Proof.
  intros Hv Es Ea [Ht Hc]. split.
  - intros p. unfold entries_for. rewrite Es. destruct (Ht p) as (?&?&?&?).
    split_and!; by apply (entry_for_ext m m').
  - rewrite Ea. eapply list.Forall_impl; [exact Hc|]. intros b. apply block_ok_ext, Hv.
Qed.

Lemma tt_fault_frame a w sv m : fault_frame m (tt_fault a w sv m).2.
Proof.
  unfold tt_fault. destruct (fill_frame (page_base a) (page_base a) false false sv true m) as (Hf & _).
  cbv zeta. destruct (_ && _); [|done]. cbn [snd]. destruct Hf. by split.
Qed.
Lemma cached_fault_frame b a w sv m : fault_frame m (cached_fault b a w sv m).2.
Proof. unfold cached_fault. apply fill_frame. Qed.
Lemma walk_fault_frame r a w sv m : fault_frame m (walk_fault r a w sv m).2.
Proof.
  unfold walk_fault. cbv zeta. set (m1 := set_mmu (on_regs (set_mmusr _) _) m).
  assert (fault_frame m m1) as H1 by done.
  destruct (_ || _).
  { destruct H1. by split. }
  cbn [snd]. set (m2 := mmu_fill_soa_entry _ _ _ _ _ _ m1).
  assert (fault_frame m m2) as H2 by (etrans; [exact H1|apply fill_frame]).
  destruct (_ && _); cbn [snd]; destruct H2; by split.
Qed.
Lemma handle_fault_frame a w sv pr m r : mmu_handle_fault_internal a w sv pr m = Some r -> fault_frame m r.2.
Proof.
  unfold mmu_handle_fault_internal. destruct (negb _); [by intros [= <-]|].
  destruct (check_tt _ _ _ _); [intros [= <-]; apply tt_fault_frame|].
  destruct (if pr then _ else _) as [b|].
  - destruct (_ && _); [intros [= <-]; apply cached_fault_frame|].
    destruct (mmu_table_walk _ _ _); [|done]. intros [= <-]. apply walk_fault_frame.
  - destruct (mmu_table_walk _ _ _); [|done]. intros [= <-]. apply walk_fault_frame.
Qed.

(** ** Faults keep the TLB coherent *)
Lemma tt_fault_coherent a w sv m : regular (st_of m) -> in_width 32 a -> check_tt (st_of m) a w sv = true ->
  coherent m -> coherent (tt_fault a w sv m).2.
Proof.
  intros [_ _ R3 _] Ha Ht [Hc Hb].
  set (m1 := mmu_fill_soa_entry (page_base a) (page_base a) false false sv true m).
  assert (coherent m1) as Hm1.
  { destruct (fill_frame (page_base a) (page_base a) false false sv true m) as (Hf & _ & Ea). fold m1 in Hf, Ea. split.
    - apply fill_coherent; try done; [by apply page_base_width|by apply page_aligned..|by apply page_base_width|].
      intros sv' ->. unfold xlate. rewrite check_tt_page by done.
      assert (check_tt (st_of m) a false sv = true) as -> by (destruct w; [by rewrite <-R3|done]). done.
    - rewrite Ea. eapply list.Forall_impl; [exact Hb|]. intros b. apply block_ok_ext, ff_view, Hf. }
  unfold tt_fault. fold m1. cbv zeta. destruct (_ && _); [|done]. cbn [snd].
  by apply (coherent_ext m1).
Qed.

Lemma block_hit_page b n a : 12 < n < 32 -> in_width 32 a -> log_mask b = 2 ^ 32 - 2 ^ n ->
  Z.land (page_base a) (log_mask b) = Z.land a (log_mask b).
Proof.
  intros Hn Ha ->. rewrite !land_high by (try apply page_base_width; done || lia).
  pose proof (page_base_block a n Ha ltac:(lia)) as E. unfold same_block in E.
  pose proof (Z.pow_pos_nonneg 2 n ltac:(lia) ltac:(lia)).
  pose proof (Z.div_mod a (2 ^ n) ltac:(lia)). pose proof (Z.div_mod (page_base a) (2 ^ n) ltac:(lia)). lia.
Qed.

Lemma atc_probe_spec m a sv b : atc_probe (mmu m) a sv = Some b ->
  b ∈ atc_blocks (mmu m) /\ b_valid b = true /\ Z.land a (log_mask b) = log_base b /\
  (sre_split (mmu m) = true -> sv = fc_super b).
Proof.
  unfold atc_probe. intros E. apply List.find_some in E as [Hi Hh]. unfold atc_hit in Hh.
  apply andb_prop in Hh as [Hh H3]. apply andb_prop in Hh as [H1 H2]. apply Z.eqb_eq in H2.
  split_and!; [by apply list_elem_of_In|done..|]. intros Hs. rewrite Hs in H3. cbn in H3.
  apply negb_true_iff, negb_false_iff, eqb_prop in H3. done.
Qed.

(** The page a cached block gives is that of the tables. *)
Lemma cached_page b a w sv m : regular (st_of m) -> in_width 32 a -> check_tt (st_of m) a w sv = false ->
  atc_probe (mmu m) a sv = Some b -> Forall (block_ok m) (atc_blocks (mmu m)) ->
  let pp := u32 (phys_base b + u32 (page_base a - log_base b)) in
  in_width 32 pp /\ page_base pp = pp /\
  forall sv', (sre_split (mmu m) = true -> sv' = sv) ->
    xlate m (page_base a) sv' = Some (pp, b_supervisor_only b, b_write_protected b).
Proof.
  intros Hr Ha Ht Hp Hb pp. apply atc_probe_spec in Hp as (Hi & Hv & Hl & Hs).
  pose proof (proj1 (list.Forall_forall _ _) Hb b Hi Hv) as (n & Hn & Hm & Hw).
  assert (Z.land (page_base a) (log_mask b) = log_base b) as Hl' by (by rewrite (block_hit_page b n a)).
  destruct (Hw (page_base a) sv (page_base_width a Ha) Hl' Hs) as (r & Hwr & Hvr & Hpa & Hso & Hwp).
  pose proof (walk_width m _ _ r Hr Hwr Hvr) as Hpw.
  assert (pp = physical_addr r) as ->.
  { unfold pp. rewrite Hpa in Hpw |- *. unfold u32. rewrite wrap_add_r. by apply wrap_small. }
  assert (forall sv', (sre_split (mmu m) = true -> sv' = sv) ->
    xlate m (page_base a) sv' = Some (page_base (physical_addr r), b_supervisor_only b, b_write_protected b)) as Hx.
  { intros sv' Hs'. rewrite <-(page_aligned a Ha), <-Hso, <-Hwp.
    eapply (xlate_page m (page_base a) w sv); try done; [by apply page_base_width|by rewrite check_tt_page]. }
  assert (page_base (physical_addr r) = physical_addr r) as E; [|by rewrite E in Hx].
  destruct Hr as [R1 R2 _ _]. destruct (table_walk_block m _ sv r R1 R2 Hwr Hvr) as (Hn' & base & Hb' & Hbw & Hall).
  pose proof (Hall (page_base a) ltac:(done)) as Hself. rewrite Hwr in Hself. injection Hself as Hself.
  assert (physical_addr r = base + page_base a mod 2 ^ page_size_bits r) as -> by (by rewrite Hself).
  rewrite page_base_translate; [|lia|done|by apply page_base_width|apply block_width; [lia|done|done]].
  by rewrite page_aligned.
Qed.

Lemma cached_fault_coherent b a w sv m : regular (st_of m) -> in_width 32 a -> check_tt (st_of m) a w sv = false ->
  atc_probe (mmu m) a sv = Some b -> coherent m -> coherent (cached_fault b a w sv m).2.
Proof.
  intros Hr Ha Ht Hp [Hc Hb]. destruct (cached_page b a w sv m Hr Ha Ht Hp Hb) as (Hpw & Hpb & Hx).
  unfold cached_fault. cbv zeta. cbn [snd]. set (pp := u32 (phys_base b + _)) in *.
  destruct (fill_frame (page_base a) pp (b_supervisor_only b) (b_write_protected b) sv false m) as (Hf & _ & Ea).
  split.
  - apply fill_coherent; try done; [by apply page_base_width|by apply page_aligned].
  - rewrite Ea. eapply list.Forall_impl; [exact Hb|]. intros b'. apply block_ok_ext, ff_view, Hf.
Qed.

(** The block a successful walk records. *)
Lemma walk_block_ok m a sv r : regular (st_of m) -> in_width 32 a -> mmu_table_walk m a sv = Some r -> valid r = true ->
  12 < page_size_bits r < 32 ->
  let mask := 2 ^ 32 - 2 ^ page_size_bits r in
  block_ok m (mk_atc (Z.land a mask) mask (Z.land (physical_addr r) mask) (supervisor_only r) (write_protected r) sv true).
Proof.
  intros Hr Ha Hw Hv Hn mask _. pose proof (walk_width m a sv r Hr Hw Hv) as Hpw. destruct Hr as [R1 R2 _ _].
  destruct (table_walk_block m a sv r R1 R2 Hw Hv) as (_ & base & Hb & Hbw & Hall).
  pose proof (Hall a ltac:(done)) as Hself. rewrite Hw in Hself. injection Hself as Hself.
  exists (page_size_bits r). cbn [log_mask log_base phys_base b_supervisor_only b_write_protected fc_super].
  split_and!; [lia..|done|]. intros a' sv' Ha' Hl Hs.
  unfold mask in *. rewrite !land_high in * by (done || lia). set (n := page_size_bits r) in *.
  pose proof (Z.pow_pos_nonneg 2 n ltac:(lia) ltac:(lia)) as Hpos.
  exists (walk_in base a' r). split_and!; try done.
  - assert (mmu_table_walk m a' sv' = mmu_table_walk m a' sv) as ->.
    { unfold sre_split in Hs. fold (st_of m) in Hs. destruct (truthy (TC_SRE (tc (st_of m)))) eqn:Es; [by rewrite Hs|].
      unfold truthy in Es. apply negb_false_iff, Z.eqb_eq in Es. by apply table_walk_shared. }
    apply Hall. unfold same_block. fold n. pose proof (Z.div_mod a (2 ^ n) ltac:(lia)).
    pose proof (Z.div_mod a' (2 ^ n) ltac:(lia)). nia.
  - unfold walk_in. cbn [physical_addr]. fold n.
    assert (physical_addr r = base + a mod 2 ^ n) as Hp by (by rewrite Hself).
    assert (physical_addr r mod 2 ^ n = a mod 2 ^ n) as Hpm.
    { rewrite Hp, Z.add_mod, Hb, Z.mod_mod, Z.add_0_l, Z.mod_mod by lia. done. }
    lia.
Qed.

Lemma invalidate_covering_ok m a sv t : Forall (block_ok m) (atc_blocks t) ->
  Forall (block_ok m) (atc_blocks (atc_invalidate_covering a sv t)).
Proof.
  intros Hb. unfold atc_invalidate_covering. cbn [atc_blocks set_atc_blocks]. apply list.Forall_fmap.
  eapply list.Forall_impl; [exact Hb|]. intros b Hk. cbn. by destruct (atc_hit _ _ _ _).
Qed.

Lemma walk_fault_coherent r a w sv m : regular (st_of m) -> in_width 32 a -> check_tt (st_of m) a w sv = false ->
  mmu_table_walk m a sv = Some r -> coherent m -> coherent (walk_fault r a w sv m).2.
Proof.
  intros Hr Ha Ht Hw Hco. unfold walk_fault. cbv zeta.
  set (m1 := set_mmu (on_regs (set_mmusr _) _) m).
  assert (coherent m1) as Hc1 by (by apply (coherent_ext m)).
  destruct (negb (valid r)) eqn:Hv; [by apply (coherent_ext m1)|]. apply negb_false_iff in Hv.
  destruct (_ || _) eqn:Eo; [by apply (coherent_ext m1)|]. clear Eo. cbn [snd].
  assert (regular (st_of m1)) as Hr1 by (by destruct Hr; split).
  assert (mmu_table_walk m1 a sv = Some r) as Hw1 by (rewrite <-Hw; by apply table_walk_ext).
  pose proof (walk_width m1 a sv r Hr1 Hw1 Hv) as Hpw.
  set (m2 := mmu_fill_soa_entry _ _ _ _ _ _ m1).
  destruct (fill_frame (page_base a) (page_base (physical_addr r)) (supervisor_only r) (write_protected r) sv false m1) as (Hf & Er & Ea).
  fold m2 in Hf, Er, Ea.
  assert (coherent m2) as Hc2.
  { destruct Hc1 as [Ht1 Hb1]. split.
    - apply fill_coherent; try done; try (by apply page_base_width); try (by apply page_aligned).
      intros sv' Hs. by eapply xlate_page.
    - rewrite Ea. eapply list.Forall_impl; [exact Hb1|]. intros b. apply block_ok_ext, ff_view, Hf. }
  assert (forall t, regs t = regs (mmu m2) -> same_view m2 (set_mmu t m2)) as Hsame.
  { intros t Et. split; [|done..]. split; [done|]. unfold st_of. cbn. by rewrite Et. }
  set (m3 := set_mmu (atc_invalidate_covering a sv (mmu m2)) m2).
  assert (coherent m3) as Hc3.
  { destruct Hc2 as [Ht2 Hb2]. split.
    - intros p. destruct (Ht2 p) as (?&?&?&?). split_and!; (eapply entry_for_ext; [by apply Hsame|done]).
    - cbn [mmu set_mmu m3]. eapply list.Forall_impl; [by apply (invalidate_covering_ok m2)|].
      intros b. apply block_ok_ext. by apply Hsame. }
  destruct (Z.ltb_spec PAGE_SHIFT (page_size_bits r)) as [Hn1|]; [|done].
  destruct (Z.ltb_spec (page_size_bits r) 32) as [Hn2|]; [|done]. cbn [andb].
  assert (same_view m1 m3) as Hv3 by (etrans; [apply ff_view, Hf|by apply Hsame]).
  destruct Hc3 as [Ht3 Hb3]. split.
  - intros p. destruct (Ht3 p) as (?&?&?&?). split_and!; (eapply entry_for_ext; [|done]); done.
  - cbn [mmu set_mmu atc_record atc_blocks set_atc_blocks set_atc_next].
    eapply list.Forall_impl; [apply list.Forall_insert; [exact Hb3|]|intros b; by apply block_ok_ext].
    eapply block_ok_ext; [apply Hv3|]. by apply walk_block_ok.
Qed.

Lemma handle_fault_coherent a w sv pr m r : regular (st_of m) -> in_width 32 a ->
  mmu_handle_fault_internal a w sv pr m = Some r -> coherent m -> coherent r.2.
Proof.
  intros Hr Ha E Hco. unfold mmu_handle_fault_internal in E. destruct (negb _); [by injection E as <-|].
  destruct (check_tt _ _ _ _) eqn:Ht; [injection E as <-; by apply tt_fault_coherent|].
  assert (forall x, (r0 ← mmu_table_walk m a sv; Some (walk_fault r0 a w sv m)) = Some x -> coherent x.2) as Hwalk.
  { intros x. destruct (mmu_table_walk m a sv) as [r0|] eqn:Ew; [|done]. intros [= <-]. by apply walk_fault_coherent. }
  destruct pr; [|by apply Hwalk]. destruct (atc_probe (mmu m) a sv) as [b|] eqn:Ep; [|by apply Hwalk].
  destruct (_ && _); [injection E as <-; by apply cached_fault_coherent|by apply Hwalk].
Qed.
End Tlb.
