(* ===== verification/PmmuTlb.v ===== *)
(** * The software TLB between invalidations

    The pages of every live entry are tracked, so that an invalidation leaves no
    entry behind; mmu.c meets the laws the memory map relies on; and in every
    reachable state the entries are right for the translation that is on. *)
From S2P Require Import Prelude Bus Memory MemoryBus MemoryProofs Pmmu PmmuProofs.

Section Laws.
Context {D : Type} `{Devices D}.
#[local] Abbreviation mem := (mem_t D pmmu).
Implicit Types m : mem.

Lemma fault_frame_step m m' : fault_frame m m' -> bus_step m m'.
Proof.
  intros [_ _ _ _ _ Hs _ _ Hp]. split; simpl; rewrite ?Hs, ?Hp; [lia|done|by left].
Qed.
#[global] Instance pmmu_laws : MmuLaws D pmmu.
Proof.
  split; intros; simpl; try apply bus_step_refl; try done.
  - destruct s; by split.
  - unfold handle_fault. destruct (mmu_handle_fault_internal a w sv true m) as [r|] eqn:E; [|apply bus_step_refl].
    apply fault_frame_step. by apply (handle_fault_frame a w sv true m r).
  - destruct (track_page_regs p t) as [-> _]. done.
Qed.

(** ** Tracking *)
Definition live (t : soa_t) (p : Z) : Prop :=
  soa_at (supervisor_read t) p <> 0 \/ soa_at (supervisor_write t) p <> 0 \/
  soa_at (user_read t) p <> 0 \/ soa_at (user_write t) p <> 0.
Definition noted (t : pmmu) (p : Z) : Prop := tlb_track_overflow t = true \/ p ∈ tlb_track t.
Definition tracked m : Prop := forall p, live (soa m) p -> p < page_count m /\ noted (mmu m) p.

Lemma track_page_noted p q t : q = p \/ noted t q -> noted (track_page p t) q.
Proof.
  unfold noted, track_page. destruct (tlb_track_overflow t) eqn:Eo; [by left|].
  destruct (_ <=? _); [by left|]. cbn. intros [->|[?|?]]; [right; left|congruence|right; by right].
Qed.
Lemma live_put page v su us wr t p : live (put_entries page v su us wr t) p -> p = page \/ live t p.
Proof.
  unfold live, put_entries. cbn [supervisor_read supervisor_write user_read user_write]. rewrite !soa_at_put.
  destruct (decide (page = p)) as [->|Hne]; [by left|]. right.
  revert H0. rewrite !bool_decide_false by done. by rewrite !andb_false_r.
Qed.
Lemma fill_tracked lp pp so wp sv tt m : tracked m -> tracked (mmu_fill_soa_entry lp pp so wp sv tt m).
Proof.
  intros Ht. unfold mmu_fill_soa_entry. cbv zeta. destruct (_ =? 0); [done|].
  destruct (Z.leb_spec (page_count m) (page_of lp)); [done|]. do 2 (destruct (truthy _); [done|]).
  intros p Hp. cbn [soa set_soa set_mmu page_count mmu] in *. apply live_put in Hp as [->|Hp].
  - split; [done|]. apply track_page_noted. by left.
  - destruct (Ht p Hp) as [? ?]. split; [done|]. apply track_page_noted. by right.
Qed.
Lemma rebuild_tracked p m : tracked m -> tracked (rebuild_soa_page p m).
Proof.
  intros Ht. unfold rebuild_soa_page. destruct (Z.leb_spec (page_count m) p); [done|]. cbv zeta.
  destruct (mmu_on m); [done|]. destruct (_ || _); [done|]. destruct (truthy _); [done|].
  intros q Hq. cbn [soa set_soa set_mmu page_count mmu] in *.
  assert (q = p \/ live (soa m) q) as Hd.
  { unfold live, put_soa in Hq. cbn [supervisor_read supervisor_write user_read user_write] in Hq.
    destruct (decide (q = p)); [by left|right]. unfold live.
    assert (forall t v, soa_at (<[p := v]> t) q = soa_at t q) as E
      by (intros; unfold soa_at; by rewrite lookup_insert_ne).
    destruct (writable _); rewrite !E in Hq; exact Hq. }
  destruct Hd as [->|Hd].
  - split; [done|]. apply track_page_noted. by left.
  - destruct (Ht q Hd) as [? ?]. split; [done|]. apply track_page_noted. by right.
Qed.

(** A fault keeps the tracking; so do the other changes of the MMU's state. *)
Lemma tracked_ext m m' : tracked m -> soa m' = soa m -> page_count m' = page_count m ->
  tlb_track (mmu m') = tlb_track (mmu m) -> tlb_track_overflow (mmu m') = tlb_track_overflow (mmu m) -> tracked m'.
Proof. intros Ht Es Ec Et Eo p. unfold noted. rewrite Es, Ec, Et, Eo. apply Ht. Qed.
Lemma handle_fault_tracked a w sv pr m r :
  mmu_handle_fault_internal a w sv pr m = Some r -> tracked m -> tracked r.2.
Proof.
  intros E Ht. unfold mmu_handle_fault_internal in E. destruct (negb _); [by injection E as <-|].
  assert (forall r0, tracked (walk_fault r0 a w sv m).2) as Hw.
  { intros r0. unfold walk_fault. cbv zeta. set (m1 := set_mmu _ m).
    assert (tracked m1) as H1 by (by apply (tracked_ext m)).
    destruct (_ || _); [by apply (tracked_ext m1)|]. cbn [snd].
    pose proof (fill_tracked (page_base a) (page_base (physical_addr r0)) (supervisor_only r0) (write_protected r0) sv false m1 H1) as H2.
    destruct (_ && _); (eapply tracked_ext; [exact H2|done..]). }
  destruct (check_tt _ _ _ _).
  { injection E as <-. unfold tt_fault. cbv zeta. pose proof (fill_tracked (page_base a) (page_base a) false false sv true m Ht) as H2.
    destruct (_ && _); [|done]. by eapply tracked_ext. }
  destruct (if pr then _ else _) as [b|].
  - destruct (_ && _); [injection E as <-; by apply fill_tracked|].
    destruct (mmu_table_walk _ _ _); [|done]. injection E as <-. apply Hw.
  - destruct (mmu_table_walk _ _ _); [|done]. injection E as <-. apply Hw.
Qed.

(** ** Invalidation *)
Lemma live_zeroed (n : Z) t l p : live (fold_right (fun p t => if n <=? p then t else zero_page p t) t l) p ->
  live t p /\ (p ∈ l -> n <= p).
Proof.
  induction l as [|q l IH]; cbn [fold_right].
  { intros Hp. split; [done|]. intros Hi. by apply elem_of_nil in Hi. }
  destruct (Z.leb_spec n q).
  { intros Hp. destruct (IH Hp) as [? Hl]. split; [done|]. intros [->|?]%elem_of_cons; auto. }
  intros Hp. assert (p <> q /\ live (fold_right (fun p t => if n <=? p then t else zero_page p t) t l) p) as [Hne Hp'].
  { unfold live, zero_page, put_entries in Hp. cbn [supervisor_read supervisor_write user_read user_write andb] in Hp.
    unfold soa_at in Hp at 1 2 3 4. destruct (decide (p = q)) as [->|Hne].
    - rewrite !lookup_insert_eq in Hp. cbn in Hp. naive_solver.
    - rewrite !lookup_insert_ne in Hp by done. split; [done|exact Hp]. }
  destruct (IH Hp') as [? Hl]. split; [done|]. intros [->|?]%elem_of_cons; [done|auto].
Qed.
Lemma invalidate_empties m : tracked m -> (enabled (st_of m) = true \/ tlb_was_enabled (st_of m) = true) ->
  (forall p, ~ live (soa (mmu_invalidate_tlb m)) p) /\ atc_blocks (mmu (mmu_invalidate_tlb m)) = replicate 16 empty_block.
Proof.
  intros Ht Hen. unfold mmu_invalidate_tlb. cbv zeta.
  assert (negb (enabled (st_of m)) && negb (tlb_was_enabled (st_of m)) = false) as ->.
  { destruct Hen as [-> | ->]; [done|by rewrite andb_false_r]. }
  split; [|cbn; by destruct (tlb_track_overflow (mmu m))]. intros p Hp. cbn [mmu set_mmu soa atc_flush on_regs set_regs tlb_track_overflow tlb_track set_atc_next set_atc_blocks] in Hp.
  destruct (tlb_track_overflow (mmu m)) eqn:Eo; cbn [soa set_soa set_mmu page_count] in Hp.
  - unfold live, empty_soa, soa_at in Hp. cbn [supervisor_read supervisor_write user_read user_write] in Hp.
    rewrite !lookup_empty in Hp. cbn [default] in Hp. tauto.
  - apply live_zeroed in Hp as [Hp Hl]. destruct (Ht p Hp) as [Hlt [?|Hi]]; [congruence|]. specialize (Hl Hi). cbn in Hl. lia.
Qed.

(** ** The invariant of the TLB *)
Definition backed_ok m : Prop :=
  forall p, backed m p = false \/ (0 < host_base (pe_at m p) /\ host_base (pe_at m p) + 4096 <= 2 ^ 64).

(** With translation on the entries are those of the guest's tables, with
    translation off those of the memory map; every live entry is tracked. *)
Record tlb_inv m : Prop := {
  ti_space : (address_mask m, page_count m) = (0xFFFFFFFF, 1048576);
  ti_backed : backed_ok m;
  ti_was : tlb_was_enabled (st_of m) = enabled (st_of m);
  ti_tracked : tracked m;
  ti_on : enabled (st_of m) = true -> regular (st_of m) -> coherent m;
  ti_off : enabled (st_of m) = false -> forall p, page_ok m p;
}.

(** The operations of the MMU and what surrounds them: accesses that miss,
    PLOAD, PTEST, PFLUSH, accepted PMOVEs without FD, lazy installation of a
    page by memory.c, writes that leave the tables alone, changes of level. *)
Inductive mmu_step m : mem -> Prop :=
| ms_fault a w sv r : in_width 32 a -> handle_fault a w sv m = Some r -> mmu_step m r.2
| ms_pload a w sv r : in_width 32 a -> mmu_pload a w sv m = Some r -> mmu_step m r.2
| ms_ptest a w sv r : mmu_test_address a w sv m = Some r -> mmu_step m r.2
| ms_pflush : mmu_step m (mmu_invalidate_tlb m)
| ms_tc v m' : pmove_tc false v m = (false, m') -> mmu_step m m'
| ms_crp u l m' : pmove_crp false u l m = (false, m') -> mmu_step m m'
| ms_srp u l m' : pmove_srp false u l m = (false, m') -> mmu_step m m'
| ms_tt0 v : mmu_step m (pmove_tt0 v m)
| ms_tt1 v : mmu_step m (pmove_tt1 v m)
| ms_mmusr v : mmu_step m (on_mmu (set_mmusr v) m)
| ms_lazy p : mmu_step m (rebuild_soa_page p m)
| ms_store h : (forall a sv, mmu_table_walk (set_host h m) a sv = mmu_table_walk m a sv) -> mmu_step m (set_host h m)
| ms_level b : mmu_step m (set_active b m)
| ms_snapshot : mmu_step m (snapshot_user_crp m).

Lemma coherent_empty m : (forall p, ~ live (soa m) p) -> atc_blocks (mmu m) = replicate 16 empty_block -> coherent m.
Proof.
  intros Hl Hb. split.
  - intros p. specialize (Hl p). unfold live in Hl.
    assert (forall e, (e <> 0 -> False) -> e = 0) as Hz by (intros e He; destruct (decide (e = 0)); tauto).
    split_and!; left; apply Hz; tauto.
  - rewrite Hb. repeat constructor; by intros ?.
Qed.
Lemma page_ok_dead m p : ~ live (soa m) p ->
  (backed m p = false \/ (0 < host_base (pe_at m p) /\ host_base (pe_at m p) + 4096 <= 2 ^ 64)) -> page_ok m p.
Proof.
  intros Hl Hb. unfold live in Hl.
  assert (forall e, (e <> 0 -> False) -> e = 0) as Hz by (intros e He; destruct (decide (e = 0)); tauto).
  unfold page_ok, write_entry_ok, entry_ok. split_and!; try exact Hb; left; apply Hz; tauto.
Qed.

Lemma inv_flush m : (address_mask m, page_count m) = (0xFFFFFFFF, 1048576) -> backed_ok m -> tracked m ->
  (tlb_was_enabled (st_of m) = false -> forall p, page_ok m p) -> tlb_inv (mmu_invalidate_tlb m).
Proof.
  intros Hs Hb Ht Hoff.
  assert (enabled (st_of (mmu_invalidate_tlb m)) = enabled (st_of m) /\
    tlb_was_enabled (st_of (mmu_invalidate_tlb m)) = enabled (st_of m) /\
    page_table (mmu_invalidate_tlb m) = page_table m /\ hooks (mmu_invalidate_tlb m) = hooks m /\
    (address_mask (mmu_invalidate_tlb m), page_count (mmu_invalidate_tlb m)) = (address_mask m, page_count m))
    as (Ee & Ew & Ep & Eh & Es).
  { unfold mmu_invalidate_tlb, st_of. cbv zeta. cbn [mmu set_mmu]. destruct (_ && _); [done|].
    cbn [tlb_track_overflow atc_flush set_atc_next set_atc_blocks on_regs set_regs]. by destruct (tlb_track_overflow (mmu m)). }
  assert (backed_ok (mmu_invalidate_tlb m)) as Hb'.
  { intros p. specialize (Hb p). unfold backed, pe_at in *. by rewrite Ep. }
  destruct (enabled (st_of m) || tlb_was_enabled (st_of m)) eqn:Eor.
  - apply orb_true_iff in Eor. destruct (invalidate_empties m Ht Eor) as [Hl Hat].
    split; [congruence|done|congruence|by intros p Hp; destruct (Hl p)|by intros _ _; apply coherent_empty|].
    intros _ p. by apply page_ok_dead.
  - apply orb_false_iff in Eor as [E1 E2].
    unfold mmu_invalidate_tlb in *. rewrite E1, E2 in *. cbn [negb andb] in *.
    split; [done|done|congruence|by apply (tracked_ext m)|congruence|]. intros _ p. by apply Hoff.
Qed.

(** At power-on the MMU is off, the entries are those of the memory map and
    the tracking list counts as overflowed. *)
Lemma boot_inv m : (address_mask m, page_count m) = (0xFFFFFFFF, 1048576) -> (forall p, page_ok m p) ->
  (forall p, live (soa m) p -> p < page_count m) ->
  enabled (st_of m) = false -> tlb_was_enabled (st_of m) = false -> tlb_track_overflow (mmu m) = true -> tlb_inv m.
Proof.
  intros Hs Hok Hl He Hw Ho. split; try done; try congruence; [|by intros p Hp; split; [auto|left]].
  intros p. apply (Hok p).
Qed.

(** Register moves with a flush. *)
Lemma inv_pmove f m : (forall s, tlb_was_enabled (f s) = tlb_was_enabled s) -> tlb_inv m ->
  tlb_inv (mmu_invalidate_tlb (on_mmu f m)).
Proof.
  intros Hf [Hs Hb Hw Ht Hon Hoff]. apply inv_flush; [done..|].
  unfold st_of, on_mmu, on_regs. cbn. rewrite Hf. fold (st_of m). rewrite Hw. intros E p. exact (Hoff E p).
Qed.

Lemma regular_conf s s' : conf s' = conf s -> regular s -> regular s'.
Proof. intros E. destruct (conf_inv _ _ E) as (x & b & ->). intros []. by split. Qed.

(** Steps that change the MMU's own bookkeeping only. *)
Lemma inv_frame m m' : fault_frame m m' -> tracked m' -> (enabled (st_of m) = false -> soa m' = soa m) ->
  (regular (st_of m) -> coherent m -> coherent m') -> tlb_inv m -> tlb_inv m'.
Proof.
  intros [F1 F2 F3 F4 F5 F6 F7 F8 F9] Ht' Hsoa Hco [Hs Hb Hw Ht Hon Hoff].
  assert (enabled (st_of m') = enabled (st_of m)) as Ee by (by destruct (conf_inv _ _ F2) as (x & b & ->)).
  injection F4 as Fp Fm Fc.
  split; try done.
  - congruence.
  - intros p. specialize (Hb p). unfold backed, pe_at in *. by rewrite Fp.
  - congruence.
  - rewrite Ee. intros E Hr. assert (regular (st_of m)) as Hr' by (by apply (regular_conf (st_of m'))). auto.
  - rewrite Ee. intros E p. specialize (Hoff E p). specialize (Hsoa E).
    unfold page_ok, write_entry_ok, entry_ok, backed, pe_at, logpoints_at in *. by rewrite Hsoa, Fp, F7.
Qed.
Lemma inv_fault a w sv pr m r : in_width 32 a -> mmu_handle_fault_internal a w sv pr m = Some r ->
  tlb_inv m -> tlb_inv r.2.
Proof.
  intros Ha E Hi. apply (inv_frame m); [by eapply handle_fault_frame|by eapply handle_fault_tracked, Hi| |..].
  - intros En. unfold mmu_handle_fault_internal in E. rewrite En in E. by injection E as <-.
  - intros Hr. by eapply handle_fault_coherent.
  - done.
Qed.
Lemma inv_lazy p m : tlb_inv m -> tlb_inv (rebuild_soa_page p m).
Proof.
  intros Hi. destruct (enabled (st_of m)) eqn:Ee.
  { assert (rebuild_soa_page p m = m) as ->; [|done].
    unfold rebuild_soa_page, mmu_on. destruct (_ <=? _); [done|]. cbn [mmu_enabled pmmu_mmu]. fold (st_of m). by rewrite Ee. }
  destruct Hi as [Hs Hb Hw Ht Hon Hoff].
  pose proof (quiet_rebuild p m (Hoff Ee p)) as Hq. destruct Hq.
  assert (regs (mmu (rebuild_soa_page p m)) = regs (mmu m)) as Er.
  { unfold rebuild_soa_page. destruct (_ <=? _); [done|]. cbv zeta. destruct (mmu_on m); [done|].
    destruct (_ || _); [done|]. destruct (truthy _); [done|]. cbn. by destruct (track_page_regs p (mmu m)) as [-> _]. }
  unfold st_of in *. split; try done; unfold st_of; rewrite ?Er.
  - congruence.
  - intros q. specialize (Hb q). unfold backed, pe_at in *. by rewrite q_pages.
  - congruence.
  - by apply rebuild_tracked.
  - congruence.
  - intros _ q. apply q_ok. by apply Hoff.
Qed.
Lemma inv_store h m : (forall a sv, mmu_table_walk (set_host h m) a sv = mmu_table_walk m a sv) ->
  tlb_inv m -> tlb_inv (set_host h m).
Proof.
  intros Hw [Hs Hb Hwas Ht Hon Hoff]. split; try done. intros E Hr. destruct (Hon E Hr) as [Hc Hat]. split.
  - intros p.
    assert (forall sv wr e, entry_for m sv wr p e -> entry_for (set_host h m) sv wr p e) as Hext.
    { intros sv wr e [->|(pa & so & wp & Hx & Hrest)]; [by left|]. right. exists pa, so, wp. split; [|exact Hrest].
      unfold xlate in *. by rewrite Hw. }
    destruct (Hc p) as (?&?&?&?). split_and!; by apply Hext.
  - eapply list.Forall_impl; [exact Hat|]. intros b Hbk Hv. destruct (Hbk Hv) as (n & Hn & Hm & Hall).
    exists n. split_and!; [lia..|done|]. intros a sv. rewrite Hw. apply Hall.
Qed.

Lemma mmu_step_inv m m' : mmu_step m m' -> tlb_inv m -> tlb_inv m'.
Proof.
  intros Hst Hi. destruct Hst as [a w sv r Ha E|a w sv r Ha E|a w sv r E| |v m' E|u l m' E|u l m' E|v|v|v|p|h Hw|b|].
  - by eapply inv_fault.
  - by eapply inv_fault.
  - assert (forall s, tlb_inv (set_mmu (on_regs (set_mmusr s) (mmu m)) m)) as Hs.
    { intros s. apply (inv_frame m); try done; [exact (ti_tracked _ Hi)|]. intros _. by apply coherent_ext. }
    unfold mmu_test_address in E. destruct (_ && _); [injection E as <-; apply Hs|].
    destruct (negb _); [injection E as <-; apply Hs|]. destruct (mmu_table_walk _ _ _); [|done]. injection E as <-. apply Hs.
  - destruct Hi as [Hs Hb Hw Ht Hon Hoff]. apply inv_flush; try done. by rewrite Hw.
  - unfold pmove_tc in E. destruct (_ && _); [done|]. injection E as <-. by apply inv_pmove.
  - unfold pmove_crp, pmove_root in E. destruct (_ =? _); [done|]. injection E as <-. by apply inv_pmove.
  - unfold pmove_srp, pmove_root in E. destruct (_ =? _); [done|]. injection E as <-. by apply inv_pmove.
  - by apply inv_pmove.
  - by apply inv_pmove.
  - apply (inv_frame m); try done; [exact (ti_tracked _ Hi)|]. intros _. by apply coherent_ext.
  - by apply inv_lazy.
  - by apply inv_store.
  - destruct Hi as [Hs Hb Hw Ht Hon Hoff]. split; try done. intros E Hr. by apply (coherent_ext m), Hon.
  - destruct Hi as [Hs Hb Hw Ht Hon Hoff]. split; try done. intros E Hr. by apply (coherent_ext m), Hon.
Qed.
End Laws.
