(* ===== verification/PmmuTheorems.v ===== *)
(** * Accesses through the 68030 MMU

    memory.c and mmu.c together: a load or store with translation on reaches the
    bytes of the physical page the guest's tables give, or raises the bus error
    the tables ask for, whether the TLB, the block cache or a walk serves it. *)
From S2P Require Import Prelude Bus Memory MemoryBus MemoryProofs Pmmu PmmuProofs PmmuTlb.

Section Access.
Context {D : Type} `{Devices D}.
#[local] Abbreviation mem := (mem_t D pmmu).
Implicit Types m : mem.

(** What the tables say about an access at a privilege level. *)
Definition mmu_access m (a : Z) (w sv : bool) : option Z :=
  '(pa, so, wp) ← xlate m a sv;
  if (so && negb sv) || (wp && w) then None else Some pa.

(** No permission is missing. *)
Lemma perm_ok (so sv wp w : bool) : (so && negb sv) || (wp && w) = false ->
  (so = true -> sv = true) /\ (w = true -> wp = false).
Proof. by destruct so, sv, wp, w. Qed.

(** The translation of the page of an address is the page of its translation. *)
Lemma xlate_same_page m a sv : regular (st_of m) -> in_width 32 a ->
  xlate m (page_base a) sv = '(pa, so, wp) ← xlate m a sv; Some (page_base pa, so, wp).
Proof.
  intros Hr Ha. destruct (check_tt (st_of m) a false sv) eqn:Et.
  { unfold xlate. rewrite check_tt_page, Et by done. done. }
  destruct (table_walk_defined m a sv (reg_sum _ Hr)) as [r Hw].
  destruct (valid r) eqn:Hv.
  { unfold xlate at 2. rewrite Et, Hw, Hv. cbn. by eapply xlate_page. }
  unfold xlate at 2. rewrite Et, Hw, Hv. cbn. unfold xlate. rewrite check_tt_page, Et by done.
  destruct (mmu_table_walk m (page_base a) sv) as [r'|] eqn:Hw'; [|done].
  destruct (valid r') eqn:Hv'; [|done]. exfalso.
  destruct (table_walk_block m (page_base a) sv r' (reg_sum _ Hr) (reg_page _ Hr) Hw' Hv') as (Hn & base & _ & _ & Hall).
  rewrite (Hall a) in Hw by (symmetry; apply page_base_block; [done|lia]).
  injection Hw as <-. cbn in Hv. congruence.
Qed.
Lemma mmu_access_page m a w sv pa : regular (st_of m) -> in_width 32 a -> mmu_access m a w sv = Some pa ->
  exists so wp, xlate m (page_base a) sv = Some (page_base pa, so, wp) /\ (so = true -> sv = true) /\ (w = true -> wp = false).
Proof.
  intros Hr Ha. unfold mmu_access. rewrite xlate_same_page by done.
  destruct (xlate m a sv) as [[[pa' so] wp]|]; [|done]. cbn. destruct (_ || _) eqn:Eo; [done|]. intros [= ->].
  exists so, wp. split; [done|]. by apply perm_ok.
Qed.

(** ** What a fill leaves behind *)
Definition entry_at m (w sv : bool) (p : Z) : Z :=
  soa_at (if w then (if sv then supervisor_write (soa m) else user_write (soa m))
          else (if sv then supervisor_read (soa m) else user_read (soa m))) p.
Lemma active_entry m (w : bool) p :
  (if w then active_write_at m p else active_read_at m p) =
  entry_at m w (if w then active_write m else active_read m) p.
Proof. unfold active_read_at, active_write_at, entry_at. by destruct w, (active_read m), (active_write m). Qed.
Lemma entry_coherent m w sv p : coherent m -> entry_for m sv w p (entry_at m w sv p).
Proof. intros [Hc _]. destruct (Hc p) as (?&?&?&?). unfold entry_at. by destruct w, sv. Qed.

Definition unwatched m : Prop := forall p, logpoints_at m p = 0 /\ phys_logpoints_at m p = 0.
(** A physical page in host memory proper, above the guest's addresses. *)
Definition resident m (pp : Z) : Prop := 2 ^ 32 <= phys_to_host (st_of m) pp <= 2 ^ 64 - 4096.

Lemma fill_hits lp pp so wp sv tt m w : in_width 32 lp -> page_count m = 1048576 -> unwatched m -> resident m pp ->
  (so = true -> sv = true /\ tt = false) -> (w = true -> wp = false /\ phys_is_writable (st_of m) pp = true) ->
  entry_at (mmu_fill_soa_entry lp pp so wp sv tt m) w sv (page_of lp) = u64 (phys_to_host (st_of m) pp - lp).
Proof.
  intros Hl Hc Hu Hr Hso Hw. unfold mmu_fill_soa_entry. cbv zeta. unfold resident in Hr.
  destruct (Z.eqb_spec (phys_to_host (st_of m) pp) 0); [lia|].
  destruct (Z.leb_spec (page_count m) (page_of lp)) as [Hge|].
  { rewrite page_of_div, Hc in Hge. unfold in_width in Hl. exfalso. dlia. }
  rewrite (proj1 (Hu (page_of lp))), (proj2 (Hu (page_of pp))). cbn [truthy Z.eqb negb].
  unfold entry_at, put_entries. cbn [soa set_soa supervisor_read supervisor_write user_read user_write].
  assert (forall t b v, b = true -> soa_at (if b : bool then <[page_of lp := v]> t else t) (page_of lp) = v) as E.
  { intros t b v ->. unfold soa_at. by rewrite lookup_insert_eq. }
  match goal with |- context [sre_split ?t] => generalize (sre_split t); intros split end.
  destruct w; [destruct (Hw eq_refl) as [-> ->]|]; (destruct sv; (rewrite E; [done|]));
    clear -Hso; destruct tt, so, split; cbn [negb andb orb]; (done || (exfalso; destruct Hso; congruence)).
Qed.

(** The host address of the page is not that of an empty entry. *)
Lemma adj_nonzero m pp lp : in_width 32 lp -> resident m pp -> u64 (phys_to_host (st_of m) pp - lp) <> 0.
Proof.
  intros Hl Hr. unfold resident, in_width in *. unfold u64, wrap. rewrite Z.mod_small by (pow2; lia). pow2. lia.
Qed.

(** ** The outcome of a fault *)
Lemma fill_page m a pp so wp sv tt w : in_width 32 a -> page_count m = 1048576 -> unwatched m -> resident m pp ->
  (so = true -> sv = true /\ tt = false) -> (w = true -> wp = false /\ phys_is_writable (st_of m) pp = true) ->
  entry_at (mmu_fill_soa_entry (page_base a) pp so wp sv tt m) w sv (page_of a) =
    u64 (phys_to_host (st_of m) pp - page_base a).
Proof.
  intros Ha ? ? ? ? ?. rewrite <-(page_of_base a Ha). apply fill_hits; try done. by apply page_base_width.
Qed.
Lemma fault_epilogue_ok m a pp (w sv : bool) :
  in_width 32 a -> (if w then active_write m else active_read m) = sv -> entry_at m w sv (page_of a) <> 0 ->
  mmu_fault_epilogue m (page_base a) pp w = true.
Proof.
  intros Ha Hsv Hn. unfold mmu_fault_epilogue. rewrite page_of_base by done. destruct (_ <? _); [|done].
  rewrite active_entry, Hsv. by rewrite (proj2 (Z.eqb_neq _ _) Hn).
Qed.

(** The access is granted: it succeeds and its entry holds the physical page. *)
Lemma fault_granted m a (w sv : bool) pa (r : bool * mem) : coherent m -> regular (st_of m) -> enabled (st_of m) = true -> in_width 32 a ->
  page_count m = 1048576 -> unwatched m -> (if w then active_write m else active_read m) = sv ->
  mmu_access m a w sv = Some pa -> resident m (page_base pa) ->
  (w = true -> phys_is_writable (st_of m) (page_base pa) = true) ->
  (sv = false -> ~ (nubus_berr_start (st_of m) <= a <= nubus_berr_end (st_of m))) ->
  handle_fault a w sv m = Some r ->
  r.1 = true /\ entry_at r.2 w sv (page_of a) = u64 (phys_to_host (st_of m) (page_base pa) - page_base a).
Proof.
  intros Hco Hr He Ha Hpc Hu Hact Hacc Hres Hwr Hnb E.
  pose proof (adj_nonzero m _ _ (page_base_width a Ha) Hres) as Hnz.
  destruct (mmu_access_page m a w sv pa Hr Ha Hacc) as (so & wp & Hx & Hso & Hwp).
  unfold handle_fault, mmu_handle_fault_internal in E. rewrite He in E. cbn [negb] in E.
  destruct (check_tt (st_of m) a w sv) eqn:Ht.
  { assert (check_tt (st_of m) a false sv = true) as Ht' by (destruct w; [by rewrite <-(reg_rw _ Hr)|done]).
    unfold xlate in Hx. rewrite check_tt_page, Ht' in Hx by done. injection Hx as Hp <- <-. rewrite <-Hp in *.
    assert (entry_at (mmu_fill_soa_entry (page_base a) (page_base a) false false sv true m) w sv (page_of a) =
      u64 (phys_to_host (st_of m) (page_base a) - page_base a)) as Hent by (apply fill_page; naive_solver).
    destruct (fill_frame (page_base a) (page_base a) false false sv true m) as (_ & Er & _).
    injection E as <-. unfold tt_fault. cbv zeta. set (m1 := mmu_fill_soa_entry _ _ _ _ _ _ m) in *.
    rewrite page_of_base by done. assert (st_of m1 = st_of m) as Es by exact Er. rewrite !Es.
    match goal with |- context [if ?c then _ else _] => assert (c = false) as -> end; [|split; [done|exact Hent]].
    destruct w; [done|]. destruct sv.
    - unfold entry_at in Hent. rewrite Hent, (proj2 (Z.eqb_neq _ _) Hnz). by rewrite andb_false_r.
    - specialize (Hnb eq_refl). zbool; try lia; by rewrite ?andb_false_r. }
  assert (forall r0, mmu_table_walk m a sv = Some r0 -> (walk_fault r0 a w sv m).1 = true /\
    entry_at (walk_fault r0 a w sv m).2 w sv (page_of a) = u64 (phys_to_host (st_of m) (page_base pa) - page_base a)) as Hwalk.
  { intros r0 Hw0.
    assert (check_tt (st_of m) a false sv = false) as Ht' by (destruct w; [by rewrite <-(reg_rw _ Hr)|done]).
    unfold mmu_access, xlate in Hacc. rewrite Ht', Hw0 in Hacc. destruct (valid r0) eqn:Hv; [|done]. cbn in Hacc.
    unfold walk_fault. cbv zeta. rewrite Hv. cbn [negb orb].
    destruct (_ || _) eqn:Eo; [done|]. injection Hacc as ->.
    set (m1 := set_mmu (on_regs (set_mmusr _) _) m).
    assert (entry_at (mmu_fill_soa_entry (page_base a) (page_base pa) (supervisor_only r0) (write_protected r0) sv false m1) w sv (page_of a) =
      u64 (phys_to_host (st_of m) (page_base pa) - page_base a)) as Hent.
    { apply perm_ok in Eo as [P1 P2]. apply (fill_page m1 a (page_base pa)); [exact Ha|exact Hpc|exact Hu|exact Hres|by auto|].
      intros Ew. split; [by apply P2|by apply Hwr]. }
    set (m2 := mmu_fill_soa_entry _ _ _ _ _ _ m1) in *.
    destruct ((PAGE_SHIFT <? page_size_bits r0) && (page_size_bits r0 <? 32)); cbn [fst snd]; (split; [|exact Hent]);
      apply (fault_epilogue_ok _ a _ w sv); try done; try (rewrite <-Hent in Hnz; exact Hnz);
      destruct (fill_frame (page_base a) (page_base pa) (supervisor_only r0) (write_protected r0) sv false m1) as (Hf & _);
      pose proof (ff_active _ _ Hf) as [= Ea1 Ea2]; cbn [active_write active_read set_mmu]; fold m2 in Ea1, Ea2;
      by rewrite ?Ea1, ?Ea2. }
  assert (forall x, (r0 ← mmu_table_walk m a sv; Some (walk_fault r0 a w sv m)) = Some x ->
    x.1 = true /\ entry_at x.2 w sv (page_of a) = u64 (phys_to_host (st_of m) (page_base pa) - page_base a)) as Hwalk'.
  { intros x. destruct (mmu_table_walk m a sv) as [r0|]; [|done]. intros [= <-]. by apply Hwalk. }
  destruct (atc_probe (mmu m) a sv) as [b|] eqn:Ep; [|by apply Hwalk'].
  destruct (_ && _) eqn:Eperm; [|by apply Hwalk']. injection E as <-.
  destruct (cached_page b a w sv m Hr Ha Ht Ep (coh_atc _ Hco)) as (_ & _ & Hcx).
  rewrite Hcx in Hx by done. injection Hx as Hpp <- <-.
  unfold cached_fault. cbv zeta. rewrite Hpp. cbn [fst snd].
  assert (entry_at (mmu_fill_soa_entry (page_base a) (page_base pa) (b_supervisor_only b) (b_write_protected b) sv false m) w sv (page_of a) =
      u64 (phys_to_host (st_of m) (page_base pa) - page_base a)) as Hent.
  { apply (fill_page m); [done..| |]; [by auto|]. intros Ew. split; [by apply Hwp|by apply Hwr]. }
  split; [|exact Hent]. apply (fault_epilogue_ok _ a _ w sv); try done; [|by rewrite Hent].
  destruct (fill_frame (page_base a) (page_base pa) (b_supervisor_only b) (b_write_protected b) sv false m) as (Hf & _).
  pose proof (ff_active _ _ Hf) as [= Ea1 Ea2]. by rewrite Ea1, Ea2.
Qed.

(** The access is denied: a bus error of the MMU. *)
Lemma fault_denied m a (w sv : bool) (r : bool * mem) : coherent m -> regular (st_of m) -> enabled (st_of m) = true -> in_width 32 a ->
  mmu_access m a w sv = None -> handle_fault a w sv m = Some r -> r.1 = false /\ be_is_pmmu (berr r.2) = true.
Proof.
  intros Hco Hr He Ha Hacc E.
  unfold handle_fault, mmu_handle_fault_internal in E. rewrite He in E. cbn [negb] in E.
  destruct (check_tt (st_of m) a w sv) eqn:Ht.
  { assert (check_tt (st_of m) a false sv = true) as Ht' by (destruct w; [by rewrite <-(reg_rw _ Hr)|done]).
    unfold mmu_access, xlate in Hacc. rewrite Ht' in Hacc. done. }
  assert (check_tt (st_of m) a false sv = false) as Ht' by (destruct w; [by rewrite <-(reg_rw _ Hr)|done]).
  assert (forall x, (r0 ← mmu_table_walk m a sv; Some (walk_fault r0 a w sv m)) = Some x ->
    x.1 = false /\ be_is_pmmu (berr x.2) = true) as Hwalk.
  { intros x. destruct (mmu_table_walk m a sv) as [r0|] eqn:Hw0; [|done]. intros [= <-].
    unfold mmu_access, xlate in Hacc. rewrite Ht', Hw0 in Hacc. unfold walk_fault. cbv zeta.
    destruct (valid r0); [|done]. cbn in Hacc. cbn [negb orb]. by destruct (_ || _). }
  destruct (atc_probe (mmu m) a sv) as [b|] eqn:Ep; [|by apply Hwalk].
  destruct (_ && _) eqn:Eperm; [|by apply Hwalk]. exfalso.
  destruct (cached_page b a w sv m Hr Ha Ht Ep (coh_atc _ Hco)) as (_ & _ & Hcx).
  pose proof (Hcx sv (fun _ => eq_refl)) as Hx. rewrite xlate_same_page in Hx by done.
  unfold mmu_access in Hacc. destruct (xlate m a sv) as [[[pa so] wp]|]; [|done]. cbn in Hx, Hacc. injection Hx as _ -> ->.
  destruct (b_supervisor_only b), sv, (b_write_protected b), w; done.
Qed.

(** ** Loads and stores *)

(** A state with translation on, in order, no logpoints and no value trap. *)
Record translating m : Prop := {
  tr_inv : tlb_inv m;
  tr_on : enabled (st_of m) = true;
  tr_regular : regular (st_of m);
  tr_unwatched : unwatched m;
  tr_level : active_write m = active_read m;
  tr_trap : trap_active (hooks m) = 0;
}.
(** The physical address is host memory, and neither a device of the same
    address nor the NuBus error range comes first. *)
Record reachable m (a pa : Z) (sv : bool) : Prop := {
  rm_resident : resident m (page_base pa);
  rm_device : dev (pe_at m (page_of a)) = None \/ page_base pa <> page_base a;
  rm_nubus : sv = false -> ~ (nubus_berr_start (st_of m) <= a <= nubus_berr_end (st_of m));
}.

Lemma tlb_inv_rest m m' : host m' = host m -> page_table m' = page_table m ->
  (address_mask m', page_count m') = (address_mask m, page_count m) -> soa m' = soa m -> mmu m' = mmu m ->
  logpoint_count (hooks m') = logpoint_count (hooks m) -> logpoint_phys_count (hooks m') = logpoint_phys_count (hooks m) ->
  tlb_inv m -> tlb_inv m'.
Proof.
  intros Eh Ep Es Et Em El Elp [Hs Hb Hw Ht Hon Hoff]. injection Es as Ea Ec.
  assert (st_of m' = st_of m) as Est by (unfold st_of; by rewrite Em).
  split; rewrite ?Est; try done; [congruence|..].
  - intros p. specialize (Hb p). unfold backed, pe_at in *. by rewrite Ep.
  - by apply (tracked_ext m); rewrite ?Em.
  - intros E Hr. apply (coherent_ext m); [|done|by rewrite Em|by apply Hon].
    split; [split|..]; try done. by rewrite Est.
  - intros E p. specialize (Hoff E p). unfold page_ok, write_entry_ok, entry_ok, backed, pe_at, logpoints_at in *.
    by rewrite Et, Ep, El.
Qed.

Lemma no_logpoint m a : unwatched m -> logpoint_lookup a m = None.
Proof.
  intros Hu. unfold logpoint_lookup. cbv zeta. rewrite (proj1 (Hu _)), (proj2 (Hu _)). cbn [truthy Z.eqb negb].
  by rewrite andb_false_r.
Qed.

(** With translation on an access that misses goes to the walk: no device of
    its logical address answers first. *)
Lemma no_direct m a w sv pa : translating m -> in_width 32 a -> mmu_access m a w sv = Some pa -> reachable m a pa sv ->
  dev (pe_at m (page_of a)) = None \/
  (dispatch_device_at_logical a sv m = false /\ mmu_check_tt a w sv m = false).
Proof.
  intros Ht Ha Hacc [Hres Hd _]. destruct Hd as [Hd|Hne]; [by left|]. right.
  unfold dispatch_device_at_logical, mmu_on. cbn [mmu_enabled mmu_translate_checked mmu_phys_to_host mmu_check_tt pmmu_mmu].
  fold (st_of m). rewrite (tr_on _ Ht). cbn [negb].
  unfold mmu_access, xlate in Hacc. unfold translate_checked. rewrite (tr_on _ Ht). cbn [negb].
  destruct (check_tt (st_of m) a false sv) eqn:Et.
  { injection Hacc as <-. done. }
  destruct (mmu_table_walk m a sv) as [r|]; [|done]. destruct (valid r) eqn:Hv; [|done]. cbn in Hacc.
  cbn [mbind option_bind default from_option id]. rewrite Hv.
  destruct (_ || _); [done|]. injection Hacc as ->.
  rewrite (proj2 (Z.eqb_neq _ _) Hne). unfold resident in Hres. split.
  - apply Z.eqb_neq. lia.
  - destruct w; [by rewrite (reg_rw _ (tr_regular _ Ht))|done].
Qed.

(** The walk is defined and keeps the invariant. *)
Lemma fault_defined m a w sv : tlb_inv m -> regular (st_of m) -> in_width 32 a ->
  exists r, handle_fault a w sv m = Some r /\ fault_frame m r.2 /\ tlb_inv r.2.
Proof.
  intros Hi Hr Ha.
  assert (is_Some (handle_fault a w sv m)) as [r E].
  { unfold handle_fault, mmu_handle_fault_internal. destruct (negb _); [by eexists|].
    destruct (check_tt _ _ _ _); [by eexists|]. destruct (table_walk_defined m a sv (reg_sum _ Hr)) as [r ->].
    cbn [mbind option_bind]. destruct (if true then atc_probe (mmu m) a sv else None); [|by eexists].
    destruct (_ && _); by eexists. }
  exists r. split_and!; [done|by eapply handle_fault_frame|by eapply inv_fault].
Qed.

Lemma translating_slow m : translating m -> translating (count_slowpath m).
Proof. intros [Hi ? ? ? ? ?]. split; try done. by apply (tlb_inv_rest m). Qed.

Lemma mask_id m a : tlb_inv m -> in_width 32 a -> Z.land a (address_mask m) = a.
Proof.
  intros Hi Ha. pose proof (ti_space _ Hi) as [= -> _]. etrans; [apply (land_ones_mod a 32); lia|].
  by apply Z.mod_small.
Qed.

(** A read by the fast path or by a walk, and a write. *)
Lemma entry_load s m m2 a pa sv : in_width 32 a ->
  entry_at m2 false sv (page_of a) = u64 (phys_to_host (st_of m) (page_base pa) - page_base a) -> host m2 = host m ->
  LOAD_BE s (entry_at m2 false sv (page_of a) + a) m2 = LOAD_BE s (phys_to_host (st_of m) (page_base pa) + offset_of a) m.
Proof.
  intros Ha -> Eh. assert (forall p, LOAD_BE s p m2 = LOAD_BE s p m) as -> by (intros; unfold LOAD_BE, host_byte; by rewrite Eh).
  apply LOAD_BE_u64. rewrite offset_of_mod, (page_base_mod a) by done. unfold u64. rewrite wrap_add_l. f_equal. lia.
Qed.
Lemma entry_store s m m2 a pa sv v : in_width 32 a ->
  entry_at m2 true sv (page_of a) = u64 (phys_to_host (st_of m) (page_base pa) - page_base a) ->
  STORE_BE s (entry_at m2 true sv (page_of a) + a) v m2 = STORE_BE s (phys_to_host (st_of m) (page_base pa) + offset_of a) v m2.
Proof.
  intros Ha ->. apply STORE_BE_u64. rewrite offset_of_mod, (page_base_mod a) by done.
  unfold u64. rewrite wrap_add_l. f_equal. lia.
Qed.

(** A live entry is the one the tables give. *)
Lemma entry_granted m a w sv : translating m -> in_width 32 a -> entry_at m w sv (page_of a) <> 0 ->
  exists pa, mmu_access m a w sv = Some pa /\
    entry_at m w sv (page_of a) = u64 (phys_to_host (st_of m) (page_base pa) - page_base a).
Proof.
  intros Ht Ha Hn. pose proof (ti_on _ (tr_inv _ Ht) (tr_on _ Ht) (tr_regular _ Ht)) as Hco.
  destruct (entry_coherent m w sv (page_of a) Hco) as [?|(pp & so & wp & Hx & Hso & Hw & Hpb & Hpw & Hh & He & _)]; [done|].
  assert (page_of a * 4096 = page_base a) as Hp by (rewrite page_base_mod, page_of_div by done; dlia).
  rewrite Hp in *. rewrite xlate_same_page in Hx by (apply Ht || done). unfold mmu_access.
  destruct (xlate m a sv) as [[[pa so'] wp']|]; [|done]. cbn in Hx. injection Hx as Hpa -> ->.
  exists pa. cbn. split; [|by rewrite Hpa].
  assert ((so && negb sv) || (wp && w) = false) as ->; [|done].
  destruct so, sv, wp, w; cbn; try done; naive_solver.
Qed.

Definition bypassed m (a : Z) (w sv : bool) : Prop :=
  dev (pe_at m (page_of a)) = None \/ (dispatch_device_at_logical a sv m = false /\ mmu_check_tt a w sv m = false).

Lemma dispatch_slow m a sv : dispatch_device_at_logical a sv (count_slowpath m) = dispatch_device_at_logical a sv m.
Proof.
  unfold dispatch_device_at_logical, mmu_on. cbn [mmu_translate_checked pmmu_mmu]. unfold translate_checked.
  by rewrite (table_walk_ext m (count_slowpath m)).
Qed.
Lemma read_slow_walk s split a m : translating m -> in_page s a = true -> bypassed m a false (active_read m) ->
  read_slow s split a m = read_walk s a (active_read m) (count_slowpath m).
Proof.
  intros Ht Hp Hb. unfold read_slow. cbn [lisa_present pmmu_mmu]. rewrite Hp, no_logpoint by apply Ht.
  unfold can_lazy_install, mmu_on. cbn [mmu_enabled pmmu_mmu mmu count_slowpath set_slowpath_count].
  fold (st_of m). rewrite (tr_on _ Ht). cbn [andb].
  change (pe_at (count_slowpath m) (page_of a)) with (pe_at m (page_of a)).
  change (active_read (count_slowpath m)) with (active_read m).
  destruct Hb as [->|[Hd Htt]]; [done|].
  change (mmu_check_tt a false (active_read m) (count_slowpath m)) with (mmu_check_tt a false (active_read m) m).
  rewrite dispatch_slow, Hd, Htt. by destruct (dev (pe_at m (page_of a))).
Qed.
Lemma write_slow_walk s split a v m : translating m -> in_page s a = true -> bypassed m a true (active_write m) ->
  write_slow s split a v m = write_walk s a v (active_write m) (count_slowpath m).
Proof.
  intros Ht Hp Hb. unfold write_slow. cbn [lisa_present pmmu_mmu]. rewrite Hp, no_logpoint by apply Ht.
  unfold can_lazy_install, mmu_on. cbn [mmu_enabled pmmu_mmu mmu count_slowpath set_slowpath_count].
  fold (st_of m). rewrite (tr_on _ Ht). cbn [andb].
  change (pe_at (count_slowpath m) (page_of a)) with (pe_at m (page_of a)).
  change (active_write (count_slowpath m)) with (active_write m).
  destruct Hb as [->|[Hd Htt]]; [done|].
  change (mmu_check_tt a true (active_write m) (count_slowpath m)) with (mmu_check_tt a true (active_write m) m).
  rewrite dispatch_slow, Hd, Htt. by destruct (dev (pe_at m (page_of a))).
Qed.

(** The accessors are the fast path over the slow path. *)
Lemma load_fast s : exists split, forall a m, mem_load s a m = fast_read s split a m.
Proof. destruct s; eexists; reflexivity. Qed.
Lemma store_fast s : exists split, forall a v m, mem_store s a v m = fast_write s (split v) a v m.
Proof.
  destruct s; [exists (fun _ _ m => m)|eexists (fun v => _)|eexists (fun v => _)]; reflexivity.
Qed.

Lemma translating_frame m m' : translating m -> fault_frame m m' -> tlb_inv m' -> translating m'.
Proof.
  intros [Hi He Hr Hu Hl Ht] Hf Hi'. destruct (conf_inv _ _ (ff_conf _ _ Hf)) as (x & b & E).
  pose proof (ff_active _ _ Hf) as [= Ea1 Ea2]. split; try done.
  - by rewrite E.
  - by apply (regular_conf (st_of m)), Hr; apply Hf.
  - intros p. unfold logpoints_at, phys_logpoints_at. rewrite (ff_hooks _ _ Hf). apply Hu.
  - congruence.
  - by rewrite (ff_hooks _ _ Hf).
Qed.

(** A page fault that the tables grant, from the accessors' slow path. *)
Lemma slow_granted m a w pa : translating m -> in_width 32 a ->
  mmu_access m a w (active_read m) = Some pa -> reachable m a pa (active_read m) ->
  (w = true -> phys_is_writable (st_of m) (page_base pa) = true) ->
  exists m2, handle_fault a w (active_read m) (count_slowpath m) = Some (true, m2) /\
    host m2 = host m /\ be_pending (berr m2) = be_pending (berr m) /\ translating m2 /\
    (active_read m2, active_write m2) = (active_read m, active_write m) /\
    entry_at m2 w (active_read m) (page_of a) = u64 (phys_to_host (st_of m) (page_base pa) - page_base a) /\
    u64 (phys_to_host (st_of m) (page_base pa) - page_base a) <> 0.
Proof.
  intros Ht Ha Hacc [Hres _ Hnb] Hw. pose proof (translating_slow m Ht) as Ht1.
  destruct (fault_defined (count_slowpath m) a w (active_read m) (tr_inv _ Ht1) (tr_regular _ Ht1) Ha) as ([ok m2] & E & Hf & Hi).
  pose proof (ti_on _ (tr_inv _ Ht1) (tr_on _ Ht1) (tr_regular _ Ht1)) as Hco.
  pose proof (ti_space _ (tr_inv _ Ht)) as [= _ Hpc].
  assert (mmu_access (count_slowpath m) a w (active_read m) = Some pa) as Hacc1.
  { unfold mmu_access in *. by rewrite (xlate_ext m (count_slowpath m)). }
  assert ((if w then active_write (count_slowpath m) else active_read (count_slowpath m)) = active_read m) as Hl.
  { destruct w; [apply (tr_level _ Ht)|reflexivity]. }
  destruct (fault_granted (count_slowpath m) a w (active_read m) pa (ok, m2) Hco (tr_regular _ Ht1) (tr_on _ Ht1) Ha Hpc
    (tr_unwatched _ Ht1) Hl Hacc1 Hres Hw Hnb E) as [Eok Hent].
  cbn in Eok. subst ok. exists m2. split_and!.
  - exact E.
  - apply (ff_host _ _ Hf).
  - apply (ff_pending _ _ Hf).
  - by apply (translating_frame (count_slowpath m)).
  - apply (ff_active _ _ Hf).
  - exact Hent.
  - by apply (adj_nonzero m); [apply page_base_width|].
Qed.

(** C9: loads through the MMU.  Let translation be on and [regular] (the TC fields
    add up to 32, pages are of 4 KB or more, no TT register tells reads from
    writes, and none tells the two levels apart while they share a root), with
    the TLB invariant of tlb_reachable_ok, no logpoints and no value trap.  Then
    a load that does not leave its 4 KB page, at an address that the tables or a
    TT register grant at the current privilege level as a page of host-backed
    memory (RAM, ROM or video memory; not a device page mapped to its own
    address, and in user mode not in the NuBus error range), returns the
    big-endian value of the physical page they give, at the offset of the
    address, whether the TLB, the cache of block descriptors or a fresh walk
    serves it; it changes no memory and no pending bus error, and leaves a state
    of the same kind.  Outside these conditions the code departs from the tables:
    small_pages_shared, write_tt_fills_reads, user_fill_hides_supervisor_tt and
    user_tt_in_nubus_range. *)
Theorem mmu_load_correct s a m pa : translating m -> in_width 32 a -> in_page s a = true ->
  mmu_access m a false (active_read m) = Some pa -> reachable m a pa (active_read m) ->
  exists m', mem_load s a m = (LOAD_BE s (phys_to_host (st_of m) (page_base pa) + offset_of a) m, m') /\
    host m' = host m /\ be_pending (berr m') = be_pending (berr m) /\ translating m'.
Proof.
  intros Ht Ha Hp Hacc Hre. destruct (load_fast s) as [split ->].
  unfold fast_read. rewrite (mask_id m a (tr_inv _ Ht) Ha), Hp, andb_true_r.
  pose proof (active_entry m false (page_of a)) as Hae. cbn in Hae. rewrite Hae.
  destruct (Z.eqb_spec (entry_at m false (active_read m) (page_of a)) 0) as [Hz|Hn]; cbn [negb].
  - rewrite read_slow_walk; [|done..|by eapply no_direct].
    destruct (slow_granted m a false pa Ht Ha Hacc Hre ltac:(done)) as (m2 & E & Hh & Hb & Ht2 & [= Ea1 Ea2] & Hent & Hnz).
    unfold read_walk. cbn [mmu_handle_fault pmmu_mmu]. rewrite E. cbn [default from_option id].
    pose proof (active_entry m2 false (page_of a)) as Hae2. cbn in Hae2. rewrite Ea1 in Hae2. rewrite Hae2.
    rewrite (proj2 (Z.eqb_neq _ 0)) by (by rewrite Hent). cbn [negb].
    exists m2. split_and!; try done. f_equal. by apply (entry_load s m m2 a pa).
  - destruct (entry_granted m a false (active_read m) Ht Ha Hn) as (pa' & Hacc' & He).
    rewrite Hacc in Hacc'. injection Hacc' as <-.
    exists m. split_and!; try done. f_equal. by apply (entry_load s m m a pa).
Qed.

(** C32: stores through the MMU, under the conditions of mmu_load_correct:
    translation is on and [regular] (4 KB pages or more, no TT register that
    tells reads from writes, or the levels apart while they share a root), the
    TLB invariant holds, there are no logpoints and no value trap; the store
    does not leave its 4 KB page, and the tables or a TT register grant it for
    writing at the current level, as a page of host-backed memory that the
    emulator lets be written (RAM or video memory, not ROM; not a device page
    mapped to its own address; in user mode not in the NuBus error range).  Then
    it puts the operand's big-endian bytes into the physical page they give, at
    the offset of the address, in a state with the memory and the pending bus
    error unchanged that is again of this kind. *)
Theorem mmu_store_correct s a v m pa : translating m -> in_width 32 a -> in_page s a = true ->
  mmu_access m a true (active_read m) = Some pa -> reachable m a pa (active_read m) ->
  phys_is_writable (st_of m) (page_base pa) = true ->
  exists m1, mem_store s a v m = STORE_BE s (phys_to_host (st_of m) (page_base pa) + offset_of a) v m1 /\
    host m1 = host m /\ be_pending (berr m1) = be_pending (berr m) /\ translating m1.
Proof.
  intros Ht Ha Hp Hacc Hre Hwr. destruct (store_fast s) as [split ->].
  unfold fast_write. rewrite (mask_id m a (tr_inv _ Ht) Ha), Hp, andb_true_r, (tr_trap _ Ht). cbn [truthy Z.eqb negb andb].
  pose proof (active_entry m true (page_of a)) as Hae. cbn in Hae. rewrite Hae, (tr_level _ Ht).
  destruct (Z.eqb_spec (entry_at m true (active_read m) (page_of a)) 0) as [Hz|Hn]; cbn [negb].
  - rewrite write_slow_walk; [|done..|rewrite (tr_level _ Ht); by eapply no_direct]. rewrite (tr_level _ Ht).
    destruct (slow_granted m a true pa Ht Ha Hacc Hre ltac:(done)) as (m2 & E & Hh & Hb & Ht2 & [= Ea1 Ea2] & Hent & Hnz).
    unfold write_walk. cbn [mmu_handle_fault pmmu_mmu]. rewrite E. cbn [default from_option id].
    pose proof (active_entry m2 true (page_of a)) as Hae2. cbn in Hae2. rewrite Ea2, (tr_level _ Ht) in Hae2. rewrite Hae2.
    rewrite (proj2 (Z.eqb_neq _ 0)) by (by rewrite Hent). cbn [negb].
    exists m2. split_and!; try done. by apply (entry_store s m m2 a pa).
  - destruct (entry_granted m a true (active_read m) Ht Ha Hn) as (pa' & Hacc' & He).
    rewrite Hacc in Hacc'. injection Hacc' as <-.
    exists m. split_and!; try done. by apply (entry_store s m m a pa).
Qed.

(** A bus error of the MMU at [a]. *)
Definition mmu_bus_error (a : Z) (rw sv : bool) m m' : Prop :=
  host m' = host m /\ be_pending (berr m') = true /\
  (be_pending (berr m) = false -> berr m' = mk_berr true a rw (if sv then 5 else 1) true).

Lemma slow_denied m a (w rw : bool) : translating m -> in_width 32 a -> mmu_access m a w (active_read m) = None ->
  exists m2, handle_fault a w (active_read m) (count_slowpath m) = Some (false, m2) /\
    mmu_bus_error a rw (active_read m) m (raise_bus_error a rw (active_read m) m2).
Proof.
  intros Ht Ha Hacc. pose proof (translating_slow m Ht) as Ht1.
  destruct (fault_defined (count_slowpath m) a w (active_read m) (tr_inv _ Ht1) (tr_regular _ Ht1) Ha) as ([ok m2] & E & Hf & Hi).
  assert (mmu_access (count_slowpath m) a w (active_read m) = None) as Hacc1.
  { unfold mmu_access in *. by rewrite (xlate_ext m (count_slowpath m)). }
  destruct (fault_denied (count_slowpath m) a w (active_read m) (ok, m2)
    (ti_on _ (tr_inv _ Ht1) (tr_on _ Ht1) (tr_regular _ Ht1)) (tr_regular _ Ht1) (tr_on _ Ht1) Ha Hacc1 E) as [Eok Hpm].
  cbn in Eok, Hpm. subst ok. exists m2. split; [done|].
  pose proof (ff_host _ _ Hf) as Hh. pose proof (ff_pending _ _ Hf) as Hb. cbn in Hh, Hb.
  unfold mmu_bus_error, raise_bus_error. destruct (be_pending (berr m2)) eqn:Ep.
  - split_and!; [done|done|]. congruence.
  - cbn. split_and!; [done|done|]. intros _. by rewrite Hpm.
Qed.

(** C28: faults of the MMU.  Let translation be on and [regular] (4 KB pages or
    more, no TT register that tells reads from writes, or the levels apart while
    they share a root), with the TLB invariant, no logpoints and no value trap.
    A load or store within a 4 KB page, at an address whose page of the memory
    map is no device, that the guest's tables do not grant (a descriptor is
    invalid, the page is for the supervisor only or it is write-protected)
    changes no memory and reads as all ones; a bus error is pending afterwards,
    and unless one was pending before it is that of this access: its address,
    its direction, its function code as a data access, and the mark of the MMU.
    (On a device page that is mapped to its own address the fault is missed:
    user_reaches_guarded_device.) *)
Theorem mmu_fault_correct s a v m : translating m -> in_width 32 a -> in_page s a = true ->
  dev (pe_at m (page_of a)) = None ->
  (mmu_access m a false (active_read m) = None ->
   (mem_load s a m).1 = ones s /\ mmu_bus_error a true (active_read m) m (mem_load s a m).2) /\
  (mmu_access m a true (active_read m) = None -> mmu_bus_error a false (active_read m) m (mem_store s a v m)).
Proof.
  intros Ht Ha Hp Hd. split; intros Hacc.
  - destruct (load_fast s) as [split ->]. unfold fast_read. rewrite (mask_id m a (tr_inv _ Ht) Ha), Hp, andb_true_r.
    pose proof (active_entry m false (page_of a)) as Hae. cbn in Hae. rewrite Hae.
    destruct (Z.eqb_spec (entry_at m false (active_read m) (page_of a)) 0) as [Hz|Hn]; cbn [negb].
    2: { destruct (entry_granted m a false (active_read m) Ht Ha Hn) as (pa' & ? & _). congruence. }
    rewrite read_slow_walk; [|done..|by left]. unfold read_walk. cbn [mmu_handle_fault pmmu_mmu].
    destruct (slow_denied m a false true Ht Ha Hacc) as (m2 & -> & Hbe). cbn [default from_option id]. by split.
  - destruct (store_fast s) as [split ->]. unfold fast_write.
    rewrite (mask_id m a (tr_inv _ Ht) Ha), Hp, andb_true_r, (tr_trap _ Ht). cbn [truthy Z.eqb negb andb].
    pose proof (active_entry m true (page_of a)) as Hae. cbn in Hae. rewrite Hae, (tr_level _ Ht).
    destruct (Z.eqb_spec (entry_at m true (active_read m) (page_of a)) 0) as [Hz|Hn]; cbn [negb].
    2: { destruct (entry_granted m a true (active_read m) Ht Ha Hn) as (pa' & ? & _). congruence. }
    rewrite write_slow_walk; [|done..|by left]. rewrite (tr_level _ Ht). unfold write_walk. cbn [mmu_handle_fault pmmu_mmu].
    by destruct (slow_denied m a true false Ht Ha Hacc) as (m2 & -> & Hbe).
Qed.

(** C10: the software TLB.  Start with the MMU off and a TLB that agrees with the
    memory map, on a 32-bit address space, and let any sequence of these
    operations happen: accesses that miss, PLOAD, PTEST, PFLUSH, writes to MMUSR
    and to the TT registers, moves to TC, CRP and SRP that are accepted and do
    not suppress the flush (FD clear), lazy installations of pages by memory.c,
    writes to memory that do not change what the tables say, changes of level.
    Then every live entry is one the next invalidation will find; with the MMU
    off every entry is that of the memory map; and with the MMU on and its
    registers [regular] (the TC fields add up to 32, pages are of 4 KB or more,
    no TT register tells reads from writes, and none tells the two levels apart
    while they share a root) every entry of the TLB and of the block cache is the
    physical page the guest's tables give to that privilege level, for writing
    only where the tables and the memory allow it.  For registers that are not
    regular the entries can be wrong: small_pages_shared, write_tt_fills_reads,
    user_fill_hides_supervisor_tt; a rejected move to TC stays in force without
    a flush (bad_tc_stays_enabled). *)
Theorem tlb_reachable_ok m0 m :
  (address_mask m0, page_count m0) = (0xFFFFFFFF, 1048576) -> (forall p, page_ok m0 p) ->
  (forall p, live (soa m0) p -> p < page_count m0) ->
  enabled (st_of m0) = false -> tlb_was_enabled (st_of m0) = false -> tlb_track_overflow (mmu m0) = true ->
  rtc mmu_step m0 m -> tlb_inv m.
Proof.
  intros Hs Hok Hl He Hw Ho Hr. assert (tlb_inv m0) as Hi by (by apply boot_inv).
  clear -Hr Hi. induction Hr as [|m0 m1 m2 Hst _ IH]; [done|]. apply IH. by eapply mmu_step_inv.
Qed.

(** Nothing is left of earlier translations: no entry of the four arrays is
    live, and no block descriptor is found. *)
Definition cleared m : Prop :=
  (forall p, ~ live (soa m) p) /\ (forall a sv, atc_probe (mmu m) a sv = None).

Lemma invalidate_cleared m : tracked m -> enabled (st_of m) = true \/ tlb_was_enabled (st_of m) = true ->
  cleared (mmu_invalidate_tlb m).
Proof.
  intros Ht He. destruct (invalidate_empties m Ht He) as [Hl Hb]. split; [done|].
  intros a sv. unfold atc_probe. by rewrite Hb.
Qed.

(** C38: an invalidation leaves nothing behind.  In a state with the invariant of
    tlb_reachable_ok: after a PFLUSH with the MMU on, and after every accepted
    move to TC without FD that finds the MMU on, turns it on or turns it off, no
    entry of the four arrays is live and no block descriptor is found for any
    address and level, so that every next access asks the tables or, with the
    MMU off, the memory map. *)
Theorem invalidate_complete m : tlb_inv m ->
  (enabled (st_of m) = true -> cleared (mmu_invalidate_tlb m)) /\
  (forall v m', pmove_tc false v m = (false, m') ->
     enabled (st_of m) = true \/ enabled (st_of m') = true -> cleared m').
Proof.
  intros Hi. pose proof (ti_tracked _ Hi) as Ht. split; [intros He; apply invalidate_cleared; auto|].
  intros v m'. unfold pmove_tc. set (m1 := on_mmu _ m). destruct (_ && _); [done|]. intros [= <-] He.
  assert (tracked m1) as Ht1 by exact Ht. apply invalidate_cleared; [exact Ht1|].
  assert (tlb_was_enabled (st_of m1) = enabled (st_of m)) as -> by apply (ti_was _ Hi).
  assert (enabled (st_of (mmu_invalidate_tlb m1)) = enabled (st_of m1)) as Ee.
  { unfold mmu_invalidate_tlb. cbv zeta. destruct (_ && _); [done|]. by destruct (tlb_track_overflow _). }
  rewrite Ee in He. tauto.
Qed.

(** C7: the table walk of mmu.c against the table search of the MC68030.  Let TC
    be consistent as the MC68030 asks it (initial shift, the index fields up to
    the first empty one and a page size of 256 bytes to 32 KB make up 32 bits)
    without function-code lookup.  If the search of the architecture for the
    address meets none of the features that mmu.c lacks (a root pointer that is
    a page descriptor; index fields behind an empty one; an index outside the
    limit of its table; a table descriptor that is write-protected or for the
    supervisor; an indirect descriptor; a block whose address is not a multiple
    of its size), then the walk of mmu.c ends, and its result is that of the
    search: the same physical address, block size and protection, or no
    translation.  For each of the features there is an example where the two
    differ. *)
Theorem table_walk_arch m a sv t : tc_consistent (tc (st_of m)) -> arch_translate m a sv = (t, []) ->
  exists r, mmu_table_walk m a sv = Some r /\ walk_of r = t.
Proof.
  intros [Hs Hp _]. unfold arch_translate. cbv zeta.
  set (tc := tc (st_of m)) in *. set (root := if _ && _ then _ else _).
  destruct (Z.eqb_spec (zsum (map (tc_field tc) [12; 8; 4; 0])) (zsum (tc_levels tc))) as [Hg|].
  2: { by destruct (match _ with 0 => _ | _ => _ end). }
  destruct (before_zero_split _ (fields_range tc) Hg) as (zs & Hl & Hz & Hws). fold (tc_levels tc) in Hl, Hws.
  assert (tc_sum tc = 32) as Hsum by (rewrite tc_sum_fields, Hg; lia).
  destruct (table_walk_defined m a sv Hsum) as [r Hw]. intros E. exists r. split; [done|]. revert Hw E.
  unfold mmu_table_walk. rewrite root_pointer_bit. fold tc root. cbv zeta.
  rewrite index_widths_fields, Hl. unfold TC_IS. rewrite nibble_field by lia.
  rewrite root_lower_base, root_upper_type.
  change DESC_DT_INVALID with 0. change DESC_DT_TABLE8 with 3.
  pose proof (Z.mod_pos_bound ((root / 2 ^ 32) mod 2 ^ 32) 4 ltac:(lia)) as Hm.
  assert (0 <= tc_field tc 16) as Hi by (apply Z.mod_pos_bound; lia).
  assert ((root / 2 ^ 32) mod 2 ^ 32 mod 4 = 0 \/ (root / 2 ^ 32) mod 2 ^ 32 mod 4 = 1 \/
    (root / 2 ^ 32) mod 2 ^ 32 mod 4 = 2 \/ (root / 2 ^ 32) mod 2 ^ 32 mod 4 = 3) as [Ed|[Ed|[Ed|Ed]]] by lia;
    rewrite Ed; cbn [Z.eqb Pos.eqb]; try done.
  - by intros [= <-] [= <-].
  - destruct (table_search _ _ _ _ _ _ _ _) as [t' fs] eqn:Es. intros Hw [= -> ->].
    eapply (walk_levels_arch m _ _ zs Hp Hz Hws a _ (mk_table _ false _)); [| |exact Hw|exact Es]; lia.
  - destruct (table_search _ _ _ _ _ _ _ _) as [t' fs] eqn:Es. intros Hw [= -> ->].
    eapply (walk_levels_arch m _ _ zs Hp Hz Hws a _ (mk_table _ true _)); [| |exact Hw|exact Es]; lia.
Qed.
End Access.
