(* ===== verification/PmmuExamples.v ===== *)
(** * The 68030 MMU on concrete machines

    A small machine with page tables in its RAM: witnesses of the theorems,
    register settings for which the software TLB departs from the tables, and
    tables for which the walk departs from that of the MC68030. *)
From S2P Require Import Prelude Bus Memory MemoryBus MemoryProofs Pmmu PmmuProofs PmmuTlb PmmuTheorems.

#[local] Abbreviation mem := (mem_t latch pmmu).

(** 1 MB of RAM at host address 2^33, a 64 KB ROM at $40000000. *)
Definition blank (st : mmu_state -> mmu_state) : mem :=
  memory_map_init 32 0x100000 0x10000 (2 ^ 33) (mk_latch 0)
    (pmmu_boot (st (mmu_init (2 ^ 33) 0x100000 0x8000000 (2 ^ 34) 0x10000 0x40000000 0x50000000))).
Definition poke (l : list (Z * Z)) (m : mem) : mem :=
  fold_left (fun m '(a, v) => (mmu_write_physical_uint32 a v m).2) l m.
(** Two levels of 10 bits and 4 KB pages.  $0 maps to physical $5000, $1000 to
    $6000 without writing, $400000 to a block of 4 MB at physical 0. *)
Definition tables : list (Z * Z) :=
  [(0x1000, 0x2002); (0x1004, 0x00000001); (0x2000, 0x5001); (0x2004, 0x6005); (0x5004, 0xCAFEBABE)].
Definition machine (st : mmu_state -> mmu_state) : mem := poke tables (blank st).
Definition rooted (st : mmu_state -> mmu_state) : mem := (pmove_crp false 0x7FFF0002 0x1000 (machine st)).2.
Definition turned_on (st : mmu_state -> mmu_state) : mem := (pmove_tc false 0x80C0AA00 (rooted st)).2.
Definition plain_on : mem := turned_on id.

Lemma no_entries_inv (m : mem) : (address_mask m, page_count m) = (0xFFFFFFFF, 1048576) ->
  soa m = mk_soa ∅ ∅ ∅ ∅ -> page_table m = ∅ ->
  enabled (st_of m) = false -> tlb_was_enabled (st_of m) = false -> tlb_track_overflow (mmu m) = true -> tlb_inv m.
Proof.
  intros Hs Ht Hp He Hw Ho.
  assert (forall p, ~ live (soa m) p) as Hl.
  { intros p. rewrite Ht. unfold live, soa_at. cbn [supervisor_read supervisor_write user_read user_write].
    rewrite !lookup_empty. cbn [default from_option id]. tauto. }
  apply boot_inv; try done; [|by intros p Hp'; destruct (Hl p)].
  intros p. apply page_ok_dead; [done|]. left. unfold backed, pe_at. rewrite Hp, lookup_empty. done.
Qed.
Lemma machine_inv : tlb_inv (machine id).
Proof. by apply no_entries_inv. Qed.
Lemma tc_accepted v (m : mem) : (pmove_tc false v m).1 = false -> pmove_tc false v m = (false, (pmove_tc false v m).2).
Proof. intros E. by rewrite (surjective_pairing (pmove_tc false v m)) at 1; rewrite E. Qed.
Lemma step_tc v (m : mem) : (pmove_tc false v m).1 = false -> mmu_step m (pmove_tc false v m).2.
Proof. intros E. apply (ms_tc m v). by rewrite (surjective_pairing (pmove_tc false v m)), E. Qed.
Lemma step_crp u l (m : mem) : (pmove_crp false u l m).1 = false -> mmu_step m (pmove_crp false u l m).2.
Proof. intros E. apply (ms_crp m u l). by rewrite (surjective_pairing (pmove_crp false u l m)), E. Qed.
Lemma on_steps : rtc mmu_step (machine id) plain_on.
Proof.
  unfold plain_on, turned_on. eapply rtc_r; [|apply step_tc; vm_cast_no_check (@eq_refl bool false)].
  unfold rooted. eapply rtc_r; [|apply step_crp; vm_cast_no_check (@eq_refl bool false)]. done.
Qed.
Lemma mmu_steps_inv (m m' : mem) : rtc mmu_step m m' -> tlb_inv m -> tlb_inv m'.
Proof. intros Hr. induction Hr as [|m0 m1 m2 Hst _ IH]; [done|]. intros Hi. apply IH. by eapply mmu_step_inv. Qed.
Lemma on_inv : tlb_inv plain_on.
Proof. eapply mmu_steps_inv; [apply on_steps|apply machine_inv]. Qed.
Lemma on_regular : regular (st_of plain_on).
Proof.
  assert (tt0 (st_of plain_on) = 0 /\ tt1 (st_of plain_on) = 0) as [E0 E1] by (split; vm_compute; reflexivity).
  split; [vm_compute; reflexivity|vm_compute; congruence|intros; unfold check_tt; by rewrite E0, E1..].
Qed.
Lemma on_translating : translating plain_on.
Proof.
  split; [apply on_inv|vm_compute; reflexivity|apply on_regular| |vm_compute; reflexivity..].
  assert (hooks plain_on = mk_hooks ∅ ∅ [] 0 0 0 0 []) as E by (vm_compute; reflexivity).
  intros p. unfold logpoints_at, phys_logpoints_at. rewrite E. clear E.
  cbn [logpoint_count logpoint_phys_count]. rewrite !lookup_empty. split; reflexivity.
Qed.

Lemma table_walk_arch_witness :
  arch_translate plain_on 0x4 true = (Some (mk_translation 0x5004 12 false false), []) /\
  exists r, mmu_table_walk plain_on 0x4 true = Some r /\
    walk_of r = Some (mk_translation 0x5004 12 false false).
Proof.
  assert (arch_translate plain_on 0x4 true = (Some (mk_translation 0x5004 12 false false), [])) as E
    by (vm_compute; reflexivity).
  split; [exact E|]. apply (table_walk_arch plain_on 0x4 true); [|exact E].
  split; vm_compute; congruence.
Defined.
Lemma mmu_load_correct_witness :
  mmu_access plain_on 0x4 false true = Some 0x5004 /\ (mem_load B32 0x4 plain_on).1 = 0xCAFEBABE.
Proof.
  split; [vm_compute; reflexivity|].
  destruct (mmu_load_correct B32 0x4 plain_on 0x5004) as (m' & E & _);
    [apply on_translating|by split|vm_compute; reflexivity..|split; [split; vm_compute; congruence|left; vm_compute; reflexivity|]|].
  { vm_compute; congruence. }
  rewrite E. vm_compute. reflexivity.
Defined.
Lemma mmu_store_correct_witness :
  mmu_access plain_on 0x400010 true true = Some 0x10 /\
  exists m1, mem_store B16 0x400010 0x1234 plain_on = STORE_BE B16 (2 ^ 33 + 0x10) 0x1234 m1 /\ host m1 = host plain_on.
Proof.
  split; [vm_compute; reflexivity|].
  destruct (mmu_store_correct B16 0x400010 0x1234 plain_on 0x10) as (m1 & E & Hh & _);
    [apply on_translating|by split|vm_compute; reflexivity..|split; [split; vm_compute; congruence|left; vm_compute; reflexivity|]|vm_compute; reflexivity|].
  { vm_compute; congruence. }
  exists m1. split; [|exact Hh]. rewrite E. f_equal.
Defined.
Lemma mmu_fault_correct_witness :
  mmu_access plain_on 0x1000 true true = None /\ mmu_access plain_on 0x800000 false true = None /\
  mmu_bus_error 0x1000 false true plain_on (mem_store B8 0x1000 7 plain_on) /\
  (mem_load B16 0x800000 plain_on).1 = 0xFFFF.
Proof.
  split_and!; [vm_compute; reflexivity..| |].
  - apply (mmu_fault_correct B8 0x1000 7 plain_on); [apply on_translating|by split|vm_compute; reflexivity..].
  - apply (mmu_fault_correct B16 0x800000 0 plain_on); [apply on_translating|by split|vm_compute; reflexivity..].
Defined.
(** The machine after accesses that miss. *)
Definition faulted (a : Z) (w sv : bool) (m : mem) : mem := (default (false, m) (handle_fault a w sv m)).2.
Lemma step_fault a w sv (m : mem) : in_width 32 a -> rtc mmu_step m (faulted a w sv m).
Proof.
  intros Ha. unfold faulted. destruct (handle_fault a w sv m) as [r|] eqn:E; [|done].
  apply rtc_once. by eapply ms_fault.
Qed.
Definition warm : mem := faulted 0x401000 true false (faulted 0x4 false true plain_on).
Lemma warm_steps : rtc mmu_step (machine id) warm.
Proof. unfold warm. etrans; [apply on_steps|]. etrans; apply step_fault; by split. Qed.

(** A PFLUSH, and a move that turns the MMU off. *)
Lemma invalidate_complete_witness :
  atc_probe (mmu warm) 0x400000 true <> None /\ live (soa warm) 0x401 /\
  cleared (mmu_invalidate_tlb warm) /\ cleared (pmove_tc false 0 warm).2.
Proof.
  assert (tlb_inv warm) as Hi by (eapply mmu_steps_inv; [apply warm_steps|apply machine_inv]).
  destruct (invalidate_complete warm Hi) as [Hf Ht].
  split_and!; [vm_compute; congruence|left; vm_compute; congruence|apply Hf; vm_compute; reflexivity|].
  apply (Ht 0); [apply tc_accepted; vm_compute; reflexivity|].
  left. vm_compute. reflexivity.
Defined.
Lemma tlb_reachable_ok_witness : tlb_inv warm /\ entry_at warm true true 0x401 = 2 ^ 33 + 0x1000 - 0x401000.
Proof.
  split; [|vm_compute; reflexivity].
  apply (tlb_reachable_ok (machine id)); [vm_compute; reflexivity| | |vm_compute; reflexivity..|apply warm_steps].
  - apply machine_inv. vm_compute. reflexivity.
  - intros p Hp. by apply (ti_tracked _ machine_inv).
Defined.

(** ** Where the software TLB departs from the tables *)

(** A TT register for the supervisor alone ($00-$0F, FC 5) while both levels
    share the root: a user access through the tables fills the supervisor's
    entry too, and a supervisor read then gets the page of the tables instead
    of the identity the register asks for. *)
Definition super_tt : mem := pmove_tt0 0x000F8050 plain_on.
Lemma user_fill_hides_supervisor_tt :
  let m := faulted 0x4 false false (set_active false super_tt) in
  check_tt (st_of m) 0x4 false true = true /\ check_tt (st_of m) 0x4 false false = false /\
  entry_at m false true 0 = 2 ^ 33 + 0x5000 /\ (mem_load B32 0x4 (set_active true m)).1 = 0xCAFEBABE /\
  (mem_load B32 0x4 super_tt).1 = 0.
Proof. vm_compute. split_and!; reflexivity. Qed.

(** A TT register that matches writes only fills the entry for reads as well. *)
Definition write_tt : mem := pmove_tt0 0x000FA057 plain_on.
Lemma write_tt_fills_reads :
  let m := faulted 0x4 true true write_tt in
  check_tt (st_of m) 0x4 false true = false /\ xlate m 0x4 true = Some (0x5004, false, false) /\
  entry_at m false true 0 = 2 ^ 33 /\ (mem_load B32 0x4 write_tt).1 = 0xCAFEBABE /\ (mem_load B32 0x4 m).1 = 0.
Proof. vm_compute. split_and!; reflexivity. Qed.

(** In the NuBus error range a user read that a TT register maps to memory
    raises a bus error: the test looks at the supervisor's entry. *)
Definition card (s : mmu_state) : mmu_state :=
  memory_set_bus_error_range 0xF9000000 0xFDFFFFFF (memory_map_host_region (2 ^ 35) 0xF9000000 0x10000 true s).
Definition user_card : mem := set_active false (pmove_tt1 0xF9008057 (turned_on card)).
Lemma user_tt_in_nubus_range :
  mmu_access user_card 0xF9000000 false false = Some 0xF9000000 /\
  phys_to_host (st_of user_card) 0xF9000000 = 2 ^ 35 /\
  option_map fst (handle_fault 0xF9000000 false false user_card) = Some false /\
  option_map fst (handle_fault 0xF9000000 false true user_card) = Some true.
Proof. vm_compute. split_and!; reflexivity. Qed.

(** A TC register with 1 KB pages is accepted, but a fill maps all of the
    emulator's 4 KB page by the translation of one of the four. *)
Definition small_tables : list (Z * Z) :=
  [(0x1000, 0x2002); (0x2000, 0x5001); (0x2004, 0x6401); (0x5000, 0x11111111); (0x6400, 0x22222222); (0x5400, 0x33333333)].
Definition small_on : mem :=
  (pmove_tc false 0x80A0BB00 (pmove_crp false 0x7FFF0002 0x1000 (poke small_tables (blank id))).2).2.
Lemma small_pages_shared :
  tc_sum (tc (st_of small_on)) = 32 /\ mmu_access small_on 0x400 false true = Some 0x6400 /\
  (mem_load B32 0x400 small_on).1 = 0x22222222 /\
  (mem_load B32 0x400 (mem_load B32 0x0 small_on).2).1 = 0x33333333.
Proof. vm_compute. split_and!; reflexivity. Qed.

(** A TC register whose fields do not add up raises the configuration
    exception, but is in force afterwards; with fields that exceed the address
    the next walk shifts by more than the width. *)
Lemma bad_tc_stays_enabled :
  let '(raised, m) := pmove_tc false 0x80CFFFF0 (rooted id) in
  raised = true /\ enabled (st_of m) = true /\ mmu_table_walk (poke [(0x1000, 0x2002); (0x2000, 0x2002)] m) 0 true = None.
Proof. vm_compute. split_and!; reflexivity. Qed.

(** A user access to a page that is for the supervisor only reaches a device
    whose page is mapped to its own address: the dispatch asks for a valid
    translation, not for a permitted one. *)
Definition guarded_tables : list (Z * Z) := [(0x1000, 0xFFFF0101); (0x1004, 0x00000000)].
Definition guarded : mem :=
  memory_map_add 0x200000 0x1000 7 9
    (set_active false (pmove_tc false 0x80C0AA00 (pmove_crp false 0x7FFF0003 0x1000 (poke guarded_tables (blank id))).2).2).
Lemma user_reaches_guarded_device :
  xlate guarded 0x200000 false = Some (0x200000, true, false) /\ mmu_access guarded 0x200000 true false = None /\
  devices (mem_store B8 0x200000 0x5A guarded) = mk_latch 0x5A /\
  be_pending (berr (mem_store B8 0x200000 0x5A guarded)) = false.
Proof. vm_compute. split_and!; reflexivity. Qed.

(** ** Where the walk of mmu.c departs from the table search of the MC68030 *)

(** The machine with a root pointer and tables of its own, and what the two
    searches say of an address. *)
Definition tables_on (tcv upper : Z) (l : list (Z * Z)) : mem :=
  (pmove_tc false tcv (pmove_crp false upper 0x1000 (poke l (blank id))).2).2.
Definition both (m : mem) (a : Z) : option translation * list feature * option (option translation) :=
  (arch_translate m a true, option_map walk_of (mmu_table_walk m a true)).
Definition two_levels : Z := 0x80C0AA00.

(** A write-protected table descriptor protects the pages below it; mmu.c looks
    at the page descriptor alone. *)
Example table_protection_ignored :
  both (tables_on two_levels 0x7FFF0002 [(0x1000, 0x2006); (0x2000, 0x5001)]) 0 =
    (Some (mk_translation 0x5000 12 false true), [TableProtected], Some (Some (mk_translation 0x5000 12 false false))).
Proof. vm_compute. reflexivity. Qed.
(** Likewise the S bit of a long table descriptor. *)
Example table_supervisor_ignored :
  both (tables_on two_levels 0x7FFF0003 [(0x1000, 0x7FFF0102); (0x1004, 0x2000); (0x2000, 0x5001)]) 0 =
    (Some (mk_translation 0x5000 12 true false), [TableSupervisor], Some (Some (mk_translation 0x5000 12 false false))).
Proof. vm_compute. reflexivity. Qed.
(** The limit of the root pointer admits index 0 alone; mmu.c reads entry 1. *)
Example limit_ignored :
  both (tables_on two_levels 0x00000002 [(0x1004, 0x2002); (0x2000, 0x5001)]) 0x400000 =
    (None, [LimitExceeded], Some (Some (mk_translation 0x5000 12 false false))).
Proof. vm_compute. reflexivity. Qed.
(** An indirect descriptor leads to the page descriptor at $3000; for mmu.c the
    tables end without one. *)
Example indirect_unknown :
  both (tables_on two_levels 0x7FFF0002 [(0x1000, 0x2002); (0x2000, 0x3002); (0x3000, 0x5001)]) 0 =
    (Some (mk_translation 0x5000 12 false false), [IndirectDescriptor], Some None).
Proof. vm_compute. reflexivity. Qed.
(** A root pointer of type page descriptor maps by an offset; mmu.c takes it for
    the pointer to a table. *)
Example root_page_unknown :
  both (tables_on two_levels 0x7FFF0001 [(0x1000, 0x2002); (0x2000, 0x5001)]) 0 =
    (Some (mk_translation 0x1000 32 false false), [RootPage], Some (Some (mk_translation 0x5000 12 false false))).
Proof. vm_compute. reflexivity. Qed.
(** An early block of 4 MB at an address that is no multiple of 4 MB: mmu.c drops
    the low bits of the address. *)
Example unaligned_block_truncated :
  both (tables_on two_levels 0x7FFF0002 [(0x1000, 0x5001)]) 0 =
    (Some (mk_translation 0x5000 22 false false), [UnalignedBlock], Some (Some (mk_translation 0 22 false false))).
Proof. vm_compute. reflexivity. Qed.
