(* ===== verification/Lisa.v ===== *)
(** * The segment MMU of the Lisa

    Model of src/core/memory/lisa_mmu.c, behind the interface of memory.c: 128
    segments in four contexts onto main memory, I/O space and the boot ROM, the
    control strobes, the status register and the parity test.  The clock is the
    value of scheduler_cpu_cycles; calls of the machine's callbacks are logged. *)
From S2P Require Import Prelude Bus Memory.

Definition LISA_FRAME_CYCLES : Z := 84896.
Definition LISA_RETRACE_CYCLES : Z := 458.
Definition ACC_MEM_RO_STK : Z := 0x4.
Definition ACC_MEM_RO : Z := 0x5.
Definition ACC_MEM_RW_STK : Z := 0x6.
Definition ACC_MEM_RW : Z := 0x7.
Definition ACC_IO : Z := 0x9.
Definition ACC_INVALID : Z := 0xC.
Definition ACC_SPECIAL : Z := 0xF.
Definition LISA_MAX_IO_DEVS : Z := 12.
Definition LISA_SERIAL_HALF_BITS : Z := 56.
Definition LISA_SERIAL_TOTAL_BITS : Z := 112.
Definition LISA_CURSOR_X_ADDR : Z := 0x00CC00F0.
Definition LISA_CURSOR_Y_ADDR : Z := 0x00CC00F2.

(** lisa_resolved_t: each route with the fields it uses. *)
Inductive lisa_resolved :=
| L_FAULT
| L_RAM (phys : Z)
| L_IO (phys : Z)
| L_ROM (phys : Z)
| L_MMUREG (seg ctx : Z) (reg_is_sor : bool).

Record lisa_io_dev := mk_io_dev { io_base : Z; io_size : Z; io_iface : Z; io_dev : Z }.

(** nmi_cb(active) and vbl_ack_cb() *)
Inductive lisa_call := NmiCall (active : bool) | VblAck.

(** struct lisa_mmu.  sor and slr are indexed by 128 * context + segment. *)
Record lisa_mmu := mk_lisa {
  l_ram : Z; l_ram_size : Z; ram_min : Z; ram_max : Z;
  l_rom : Z; l_rom_size : Z;
  sor : Zmap Z; slr : Zmap Z;
  start : bool; seg1 : Z; seg2 : Z;
  vidlatch : Z; vtir_enabled : bool; sfmsk : bool; vbl_active : bool;
  clock : option Z; vertical : bool; last_retrace_frame : Z; serial_ctr : Z;
  wwp_on : bool; parity_detect : bool; bad_par_gran : Z; mealtch : Z;
  has_nmi_cb : bool; has_vbl_ack_cb : bool; calls : list lisa_call;
  io : list lisa_io_dev;
}.
Definition lisa_eta (l : lisa_mmu) : lisa_mmu :=
  mk_lisa (l_ram l) (l_ram_size l) (ram_min l) (ram_max l) (l_rom l) (l_rom_size l) (sor l) (slr l)
    (start l) (seg1 l) (seg2 l) (vidlatch l) (vtir_enabled l) (sfmsk l) (vbl_active l) (clock l) (vertical l)
    (last_retrace_frame l) (serial_ctr l) (wwp_on l) (parity_detect l) (bad_par_gran l) (mealtch l)
    (has_nmi_cb l) (has_vbl_ack_cb l) (calls l) (io l).
Ltac lisa_set proj x l := field_set lisa_eta proj x l.
Definition set_sor (x : Zmap Z) (l : lisa_mmu) : lisa_mmu := ltac:(lisa_set sor x l).
Definition set_slr (x : Zmap Z) (l : lisa_mmu) : lisa_mmu := ltac:(lisa_set slr x l).
Definition set_start (x : bool) (l : lisa_mmu) : lisa_mmu := ltac:(lisa_set start x l).
Definition set_seg1 (x : Z) (l : lisa_mmu) : lisa_mmu := ltac:(lisa_set seg1 x l).
Definition set_seg2 (x : Z) (l : lisa_mmu) : lisa_mmu := ltac:(lisa_set seg2 x l).
Definition set_vidlatch (x : Z) (l : lisa_mmu) : lisa_mmu := ltac:(lisa_set vidlatch x l).
Definition set_vtir_enabled (x : bool) (l : lisa_mmu) : lisa_mmu := ltac:(lisa_set vtir_enabled x l).
Definition set_sfmsk (x : bool) (l : lisa_mmu) : lisa_mmu := ltac:(lisa_set sfmsk x l).
Definition set_vbl_active (x : bool) (l : lisa_mmu) : lisa_mmu := ltac:(lisa_set vbl_active x l).
Definition set_clock (x : option Z) (l : lisa_mmu) : lisa_mmu := ltac:(lisa_set clock x l).
Definition set_vertical (x : bool) (l : lisa_mmu) : lisa_mmu := ltac:(lisa_set vertical x l).
Definition set_last_retrace_frame (x : Z) (l : lisa_mmu) : lisa_mmu := ltac:(lisa_set last_retrace_frame x l).
Definition set_serial_ctr (x : Z) (l : lisa_mmu) : lisa_mmu := ltac:(lisa_set serial_ctr x l).
Definition set_wwp_on (x : bool) (l : lisa_mmu) : lisa_mmu := ltac:(lisa_set wwp_on x l).
Definition set_parity_detect (x : bool) (l : lisa_mmu) : lisa_mmu := ltac:(lisa_set parity_detect x l).
Definition set_bad_par_gran (x : Z) (l : lisa_mmu) : lisa_mmu := ltac:(lisa_set bad_par_gran x l).
Definition set_mealtch (x : Z) (l : lisa_mmu) : lisa_mmu := ltac:(lisa_set mealtch x l).
Definition set_has_nmi_cb (x : bool) (l : lisa_mmu) : lisa_mmu := ltac:(lisa_set has_nmi_cb x l).
Definition set_has_vbl_ack_cb (x : bool) (l : lisa_mmu) : lisa_mmu := ltac:(lisa_set has_vbl_ack_cb x l).
Definition set_calls (x : list lisa_call) (l : lisa_mmu) : lisa_mmu := ltac:(lisa_set calls x l).
Definition set_io (x : list lisa_io_dev) (l : lisa_mmu) : lisa_mmu := ltac:(lisa_set io x l).

(** ** Set-up *)
Definition lisa_mmu_init (ram ram_size rom rom_size : Z) (ram_high : bool) : lisa_mmu :=
  let min := if ram_high then 0x80000 else 0 in
  let max := u32 (min + ram_size) in
  let max := if 0x200000 <? max then 0x200000 else max in
  mk_lisa ram ram_size min max rom rom_size ∅ ∅ true 0 0 0 false false false None false 0 0
    false false 0xFFFFFFFF 0 false false [] [].
Definition lisa_mmu_map_io (phys_base size iface dev : Z) (l : lisa_mmu) : lisa_mmu :=
  if LISA_MAX_IO_DEVS <=? Z.of_nat (length (io l)) then l
  else set_io (io l ++ [mk_io_dev phys_base size iface dev]) l.
Definition lisa_mmu_video_base (l : lisa_mmu) : Z :=
  let base := u32 (Z.shiftl (vidlatch l) 15) in
  if (ram_min l <=? base) && (base <? ram_max l) then base - ram_min l
  else if truthy (l_ram_size l) then Z.land base (l_ram_size l - 1)
  else base.
Definition lisa_mmu_vbl_enabled (l : lisa_mmu) : bool := vtir_enabled l.
Definition lisa_mmu_set_vbl_active (active : bool) (l : lisa_mmu) : lisa_mmu := set_vbl_active active l.
Definition lisa_mmu_set_vbl_ack (l : lisa_mmu) : lisa_mmu := set_has_vbl_ack_cb true l.
Definition lisa_mmu_set_nmi (l : lisa_mmu) : lisa_mmu := set_has_nmi_cb true l.
Definition lisa_mmu_set_clock (now : Z) (l : lisa_mmu) : lisa_mmu := set_clock (Some now) l.

(** ** Control strobes and registers *)
Definition nmi (active : bool) (l : lisa_mmu) : lisa_mmu :=
  if has_nmi_cb l then set_calls (NmiCall active :: calls l) l else l.
Definition lisa_strobe (phys : Z) (l : lisa_mmu) : lisa_mmu :=
  match Z.land phys 0x1E with
  | 0x08 => set_seg1 0 l
  | 0x0A => set_seg1 1 l
  | 0x0C => set_seg2 0 l
  | 0x0E => set_seg2 1 l
  | 0x10 => set_start true l
  | 0x12 => set_start false l
  | 0x18 => set_vertical false (set_vtir_enabled false l)
  | 0x1A => set_vtir_enabled true l
  | 0x14 => set_sfmsk false l
  | 0x16 => set_sfmsk true l
  | 0x04 => set_wwp_on false l
  | 0x06 => set_wwp_on true l
  | 0x1C => nmi false (set_parity_detect false l)
  | 0x1E => set_parity_detect true l
  | _ => l
  end.
Definition lisa_strobes (s : size) (phys : Z) (l : lisa_mmu) : lisa_mmu :=
  let l := lisa_strobe phys l in
  match s with B32 => lisa_strobe (phys + 2) l | _ => l end.

(** The vertical-retrace latch at the clock's cycle. *)
Definition track_retrace (l : lisa_mmu) : lisa_mmu :=
  match clock l with
  | Some now =>
      let frame := now / LISA_FRAME_CYCLES in
      if now mod LISA_FRAME_CYCLES <? LISA_RETRACE_CYCLES then
        if negb (frame =? last_retrace_frame l) then set_last_retrace_frame frame (set_vertical true l) else l
      else set_vertical false l
  | None => l
  end.
Definition lisa_status_byte (l : lisa_mmu) : Z * lisa_mmu :=
  let l := track_retrace l in
  let in_retrace := vertical l || vbl_active l in
  let l := if vbl_active l then
      let l := set_vbl_active false l in if has_vbl_ack_cb l then set_calls (VblAck :: calls l) l else l
    else l in
  (if in_retrace then 0 else 4, l).

(** ** The serial-number PROM *)
Definition lisa_serial_bit (index : Z) : Z := if index mod LISA_SERIAL_HALF_BITS <? 8 then 1 else 0.
Definition next_serial (l : lisa_mmu) : Z * lisa_mmu :=
  (lisa_serial_bit (serial_ctr l mod LISA_SERIAL_TOTAL_BITS), set_serial_ctr (u32 (serial_ctr l + 1)) l).
Definition lisa_serial_read (s : size) (l : lisa_mmu) : Z * lisa_mmu :=
  match s with
  | B32 => let '(hi, l) := next_serial l in let '(lo, l) := next_serial l in
           (Z.lor (Z.shiftl hi 31) (Z.shiftl lo 15), l)
  | _ => let '(b, l) := next_serial l in (Z.shiftl b 15, l)
  end.
Definition lisa_is_serial (l : lisa_mmu) (addr : Z) : bool :=
  negb (start l) && (Z.land addr 0x00FFFFF0 =? 0x00FE8000).

(** ** Translation *)
Definition sor_at (l : lisa_mmu) (ctx seg : Z) : Z := default 0 (sor l !! (128 * ctx + seg)).
Definition slr_at (l : lisa_mmu) (ctx seg : Z) : Z := default 0 (slr l !! (128 * ctx + seg)).
Definition latch_ctx (l : lisa_mmu) : Z := Z.lor (Z.shiftl (seg2 l) 1) (seg1 l).
Definition lisa_resolve (l : lisa_mmu) (addr : Z) (supervisor is_write : bool) : lisa_resolved :=
  let addr := Z.land addr 0x00FFFFFF in
  if start l && negb (truthy (Z.land addr 0x4000)) then
    if truthy (Z.land addr 0x8000) then
      L_MMUREG (Z.land (Z.shiftr addr 17) 0x7F) (latch_ctx l) (truthy (Z.land (Z.shiftr addr 3) 1))
    else L_ROM (Z.land addr 0x3FFF)
  else
    let ctx := if supervisor then 0 else latch_ctx l in
    let seg := Z.land (Z.shiftr addr 17) 0x7F in
    let page := Z.land (Z.shiftr addr 9) 0xFF in
    let byte_off := Z.land addr 0x1FF in
    let slr := slr_at l ctx seg in
    let acc := Z.land (Z.shiftr slr 8) 0xF in
    let limit := Z.land slr 0xFF in
    if (acc =? ACC_INVALID) || (acc <? ACC_MEM_RO_STK) then L_FAULT else
    let is_mem := Z.land acc 0xC =? 0x4 in
    let is_io := acc =? ACC_IO in
    let is_special := acc =? ACC_SPECIAL in
    let stack := is_mem && negb (truthy (Z.land acc 0x1)) in
    let read_only := is_mem && negb (truthy (Z.land acc 0x2)) in
    let in_range := if stack then 0xFF <=? page + limit else page + limit <? 0x100 in
    if negb in_range then L_FAULT else
    if is_write && read_only then L_FAULT else
    let phys_page := Z.land (sor_at l ctx seg + page) 0xFFF in
    let phys := Z.lor (Z.shiftl phys_page 9) byte_off in
    if is_mem then L_RAM phys
    else if is_io then L_IO phys
    else if is_special then L_ROM (Z.land phys 0x3FFF)
    else L_FAULT.

(** 12-bit descriptor registers. *)
Definition lisa_mmureg_read (l : lisa_mmu) (seg ctx : Z) (is_sor : bool) : Z :=
  Z.land (if is_sor then sor_at l ctx seg else slr_at l ctx seg) 0x0FFF.
Definition lisa_mmureg_write (seg ctx : Z) (is_sor : bool) (value : Z) (l : lisa_mmu) : lisa_mmu :=
  let v := Z.land value 0x0FFF in
  if is_sor then set_sor (<[128 * ctx + seg := v]> (sor l)) l
  else set_slr (<[128 * ctx + seg := v]> (slr l)) l.

(** ** Accesses *)
Section Lisa.
Context {D : Type} `{!Devices D}.
#[local] Abbreviation mem := (mem_t D (option lisa_mmu)).

(** *g_lisa_mmu, which is set where these functions run. *)
Definition lisa_of (m : mem) : lisa_mmu := default (lisa_mmu_init 0 0 0 0 false) (mmu m).
Definition on_lisa (f : lisa_mmu -> lisa_mmu) (m : mem) : mem := set_mmu (Some (f (lisa_of m))) m.

(** for (i = 0; i < size; i++) v = (v << 8) | byte(i) *)
Definition gather (s : size) (byte : Z -> Z) : Z :=
  fold_left (fun v i => u32 (Z.lor (Z.shiftl v 8) (byte (Z.of_nat i)))) (seq 0 (Z.to_nat (bytes s))) 0.
Definition lisa_rom_read (m : mem) (off : Z) (s : size) : Z :=
  let l := lisa_of m in
  gather s (fun i => let idx := Z.land (off + i) 0x3FFF in
                     if idx <? l_rom_size l then host_byte m (l_rom l + idx) else 0xFF).
(** A read of a granule with bad parity. *)
Definition check_granule (phys : Z) (m : mem) : mem :=
  if parity_detect (lisa_of m) && (Z.shiftr phys 5 =? bad_par_gran (lisa_of m))
  then on_lisa (fun l => nmi true (set_mealtch (Z.shiftr phys 5) l)) m else m.
Definition lisa_ram_read (phys : Z) (s : size) (m : mem) : Z * mem :=
  let l := lisa_of m in
  let m := check_granule phys m in
  if (phys <? ram_min l) || (ram_max l <? phys + bytes s) then (ones s, m)
  else let off := phys - ram_min l in (gather s (fun i => host_byte m (l_ram l + (off + i))), m).
(** A write makes the parity of its granule bad or good. *)
Definition mark_granule (phys : Z) (m : mem) : mem :=
  if wwp_on (lisa_of m) then on_lisa (set_bad_par_gran (Z.shiftr phys 5)) m
  else if Z.shiftr phys 5 =? bad_par_gran (lisa_of m) then on_lisa (set_bad_par_gran 0xFFFFFFFF) m else m.
Definition lisa_ram_write (phys : Z) (s : size) (value : Z) (m : mem) : mem :=
  let l := lisa_of m in
  let m := mark_granule phys m in
  if (phys <? ram_min l) || (u32 (ram_min l + l_ram_size l) <? phys + bytes s) then m
  else
    let off := phys - ram_min l in
    fold_left (fun m i => host_put (l_ram l + (off + Z.of_nat i)) (be_byte s value (Z.of_nat i)) m)
      (seq 0 (Z.to_nat (bytes s))) m.

Definition find_io (phys : Z) (l : lisa_mmu) : option lisa_io_dev :=
  List.find (fun d => (io_base d <=? phys) && (phys <? u32 (io_base d + io_size d))) (io l).
Definition lisa_io_read (phys : Z) (s : size) (m : mem) : Z * mem :=
  let l := lisa_of m in
  if 0xE000 <=? phys then
    if Z.land phys 0xFFE0 =? 0xE000 then (ones s, on_lisa (lisa_strobes s phys) m)
    else if 0xF800 <=? phys then
      let '(v, l) := lisa_status_byte l in (v, set_mmu (Some l) m)
    else if 0xF000 <=? phys then (mealtch l, m)
    else (ones s, m)
  else match find_io phys l with
       | Some d =>
           let '(v, pen, ds) := dev_read s (io_iface d) (io_dev d) (phys - io_base d) (devices m) in
           (trunc s v, charge pen (set_devices ds m))
       | None => (ones s, m)
       end.
Definition lisa_io_write (phys : Z) (s : size) (value : Z) (m : mem) : mem :=
  let l := lisa_of m in
  if 0xE000 <=? phys then
    if Z.land phys 0xFFE0 =? 0xE000 then on_lisa (lisa_strobes s phys) m
    else if (0xE800 <=? phys) && (phys <? 0xF000) then on_lisa (set_vidlatch (u8 value)) m
    else m
  else match find_io phys l with
       | Some d =>
           let '(pen, ds) := dev_write s (io_iface d) (io_dev d) (phys - io_base d) (trunc s value) (devices m) in
           charge pen (set_devices ds m)
       | None => m
       end.

Definition lisa_raise_bus_error (addr : Z) (is_read supervisor : bool) (m : mem) : mem :=
  if be_pending (berr m) then m
  else
    let s := sprint m in
    set_sprint (mk_sprint 0 (io_penalty_remainder s) (io_phantom_instructions s) (io_cpi_x256 s)
      (sprint_base_cycles s) (sprint_frac_x256 s) (sprint_total_slots s) (esync_period_x256 s))
    (set_berr (mk_berr true addr is_read (if supervisor then 5 else 1) false) m).
Definition lisa_logpoint_notify (addr : Z) (s : size) (value : Z) (is_write : bool) (m : mem) : mem :=
  let page := page_of addr in
  if (page <? page_count m) && truthy (logpoints_at m page) then logpoint_hook addr s value is_write m else m.

Definition lisa_read_any (s : size) (addr : Z) (supervisor : bool) (m : mem) : Z * mem :=
  let l := lisa_of m in
  if lisa_is_serial l (Z.land addr 0x00FFFFFF) then
    let '(v, l) := lisa_serial_read s l in (v, set_mmu (Some l) m)
  else
    let notify '(v, m) := (v, lisa_logpoint_notify addr s v false m) in
    match lisa_resolve l addr supervisor false with
    | L_RAM phys => notify (lisa_ram_read phys s m)
    | L_ROM phys => notify (lisa_rom_read m phys s, m)
    | L_IO phys => notify (lisa_io_read phys s m)
    | L_MMUREG seg ctx is_sor => notify (lisa_mmureg_read l seg ctx is_sor, m)
    | L_FAULT => (ones s, lisa_raise_bus_error addr true supervisor m)
    end.
Definition lisa_write_any (s : size) (addr : Z) (supervisor : bool) (value : Z) (m : mem) : mem :=
  match lisa_resolve (lisa_of m) addr supervisor true with
  | L_RAM phys => lisa_logpoint_notify addr s value true (lisa_ram_write phys s value m)
  | L_IO phys => lisa_logpoint_notify addr s value true (lisa_io_write phys s value m)
  | L_MMUREG seg ctx is_sor =>
      lisa_logpoint_notify addr s value true (on_lisa (lisa_mmureg_write seg ctx is_sor (u16 value)) m)
  | L_ROM _ => m
  | L_FAULT => lisa_raise_bus_error addr false supervisor m
  end.
(** lisa_mmu_read8/16/32 *)
Definition lisa_mmu_read (s : size) (addr : Z) (supervisor : bool) (m : mem) : Z * mem :=
  let '(v, m) := lisa_read_any s addr supervisor m in (trunc s v, m).

Definition lisa_mmu_get_cursor (m : mem) : option (Z * Z) * mem :=
  match lisa_resolve (lisa_of m) LISA_CURSOR_X_ADDR true false, lisa_resolve (lisa_of m) LISA_CURSOR_Y_ADDR true false with
  | L_RAM px, L_RAM py =>
      let '(x, m) := lisa_ram_read px B16 m in
      let '(y, m) := lisa_ram_read py B16 m in (Some (s16 x, s16 y), m)
  | _, _ => (None, m)
  end.
Definition lisa_mmu_debug_read (s : size) (addr : Z) (supervisor : bool) (m : mem) : Z * mem :=
  match lisa_resolve (lisa_of m) addr supervisor false with
  | L_RAM phys => lisa_ram_read phys s m
  | L_ROM phys => (lisa_rom_read m phys s, m)
  | L_MMUREG seg ctx is_sor => (lisa_mmureg_read (lisa_of m) seg ctx is_sor, m)
  | L_IO _ | L_FAULT => (ones s, m)
  end.
Definition lisa_mmu_debug_write (s : size) (addr : Z) (supervisor : bool) (value : Z) (m : mem) : bool * mem :=
  match lisa_resolve (lisa_of m) addr supervisor true with
  | L_RAM phys => (true, lisa_ram_write phys s value m)
  | _ => (false, m)
  end.
End Lisa.

(** lisa_mmu.c behind the interface the memory map calls; a Lisa has no other
    MMU. *)
#[global] Instance lisa_as_mmu {D} `{Devices D} : Mmu D (option lisa_mmu) := {
  lisa_present t := if t is Some _ then true else false;
  lisa_read := lisa_mmu_read;
  lisa_write := lisa_write_any;
  lisa_debug_read := lisa_mmu_debug_read;
  lisa_debug_write := lisa_mmu_debug_write;
  mmu_enabled _ := false;
  mmu_translate_debug a _ _ := a;
  mmu_translate_checked a _ _ := Some a;
  mmu_phys_to_host _ _ := 0;
  mmu_phys_is_writable _ _ := false;
  mmu_check_tt _ _ _ _ := false;
  mmu_handle_fault _ _ _ m := (false, m);
  mmu_snapshot_crp t := t;
  tlb_track_page _ t := t;
}.
