(* ===== verification/LisaProofs.v ===== *)
(** * Translation on the Lisa

    The translation of lisa.md, section 4, and that lisa_mmu.c implements it;
    the effects of one access; and that a Lisa meets what memory.c relies on, so
    that the theorems about the CPU hold on it. *)
From S2P Require Import Prelude Bus Memory MemoryBus MemoryProofs Lisa.

(** ** The specification *)

(** The access codes: main memory, a stack or not, read-only or not; I/O; ROM. *)
Inductive space := Main (stack read_only : bool) | IoSpace | SpecialIo.
Definition space_of (code : Z) : option space :=
  match code with
  | 4 => Some (Main true true)
  | 5 => Some (Main false true)
  | 6 => Some (Main true false)
  | 7 => Some (Main false false)
  | 9 => Some IoSpace
  | 15 => Some SpecialIo
  | _ => None
  end.
(** A segment holds 256 - limit pages from page 0 on; a stack limit + 1 pages
    that end with page 255. *)
Definition page_granted (sp : space) (limit page : Z) : bool :=
  match sp with Main true _ => 256 - (limit + 1) <=? page | _ => page <? 256 - limit end.
Definition read_only (sp : space) : bool := match sp with Main _ ro => ro | _ => false end.
Definition context (l : lisa_mmu) (supervisor : bool) : Z := if supervisor then 0 else 2 * seg2 l + seg1 l.
Definition translate (l : lisa_mmu) (supervisor write : bool) (a : Z) : option (space * Z) :=
  let ctx := context l supervisor in
  let seg := a / 2 ^ 17 in
  let page := a / 2 ^ 9 mod 256 in
  let d := slr_at l ctx seg in
  sp ← space_of (d / 256 mod 16);
  if page_granted sp (d mod 256) page && negb (write && read_only sp)
  then Some (sp, (sor_at l ctx seg + page) mod 4096 * 512 + a mod 512) else None.

Record lisa_ok (l : lisa_mmu) : Prop := {
  ok_seg1 : in_width 1 (seg1 l);
  ok_seg2 : in_width 1 (seg2 l);
  ok_ram : 0 <= ram_min l <= ram_max l /\ ram_max l <= ram_min l + l_ram_size l /\
           ram_min l + l_ram_size l < 2 ^ 32;
  ok_host : 0 <= l_ram l /\ l_ram l + l_ram_size l < 2 ^ 64;
}.

(** ** The walk *)
Lemma latch_ctx_eq l : in_width 1 (seg1 l) -> latch_ctx l = 2 * seg2 l + seg1 l.
Proof. intros H. unfold latch_ctx. rewrite lor_shiftl_add by (done || lia). lia. Qed.

Lemma mem_code acc : in_width 4 acc -> (acc =? ACC_INVALID) || (acc <? ACC_MEM_RO_STK) = false ->
  match space_of acc with
  | Some (Main st ro) => (Z.land acc 0xC =? 4) = true /\ negb (truthy (Z.land acc 1)) = st /\ negb (truthy (Z.land acc 2)) = ro
  | Some IoSpace => (Z.land acc 0xC =? 4) = false /\ (acc =? ACC_IO) = true
  | Some SpecialIo => (Z.land acc 0xC =? 4) = false /\ (acc =? ACC_IO) = false /\ (acc =? ACC_SPECIAL) = true
  | None => (Z.land acc 0xC =? 4) = false /\ (acc =? ACC_IO) = false /\ (acc =? ACC_SPECIAL) = false
  end.
Proof.
  intros [H0 H1] H. change (2 ^ 4) with 16 in H1. small_z acc; vm_compute in H; try discriminate H; vm_compute; auto.
Qed.
Lemma dead_code acc : in_width 4 acc -> (acc =? ACC_INVALID) || (acc <? ACC_MEM_RO_STK) = true -> space_of acc = None.
Proof.
  unfold ACC_INVALID, ACC_MEM_RO_STK. intros [H0 _] H. apply orb_true_iff in H as [->%Z.eqb_eq|H%Z.ltb_lt]; [done|].
  assert (acc = 0 \/ acc = 1 \/ acc = 2 \/ acc = 3) as [->|[->|[->| ->]]] by lia; done.
Qed.

Lemma resolve_translate l a sv w : start l = false -> in_width 1 (seg1 l) -> in_width 24 a ->
  lisa_resolve l a sv w = match translate l sv w a with
                          | Some (Main _ _, p) => L_RAM p
                          | Some (IoSpace, p) => L_IO p
                          | Some (SpecialIo, p) => L_ROM (p mod 0x4000)
                          | None => L_FAULT
                          end.
Proof.
  intros Hs H1 Ha. unfold lisa_resolve, translate, context. rewrite Hs, latch_ctx_eq by done. cbn [andb].
  change 0xFFFFFF with (2 ^ 24 - 1). rewrite (land_ones_mod a 24), (Z.mod_small a) by (done || lia).
  change 0x7F with (2 ^ 7 - 1). change 0x1FF with (2 ^ 9 - 1). change 0xFFF with (2 ^ 12 - 1). change 0x3FFF with (2 ^ 14 - 1).
  change 0xFF with (2 ^ 8 - 1). change 0xF with (2 ^ 4 - 1).
  rewrite !land_ones_mod by lia. rewrite !Z.shiftr_div_pow2 by lia.
  rewrite (Z.mod_small (a / 2 ^ 17)) by (unfold in_width in Ha; dlia).
  set (ctx := if sv then 0 else _). set (seg := a / 2 ^ 17). set (d := slr_at l ctx seg). set (page := a / 2 ^ 9 mod 2 ^ 8).
  assert (in_width 4 (d / 2 ^ 8 mod 2 ^ 4)) as Hacc by (unfold in_width; dlia).
  change (d / 256 mod 16) with (d / 2 ^ 8 mod 2 ^ 4). change (a / 2 ^ 9 mod 256) with page. change (d mod 256) with (d mod 2 ^ 8).
  set (acc := d / 2 ^ 8 mod 2 ^ 4) in *. set (limit := d mod 2 ^ 8).
  rewrite lor_shiftl_add by (lia || unfold in_width; dlia).
  destruct ((acc =? ACC_INVALID) || (acc <? ACC_MEM_RO_STK)) eqn:E.
  { by rewrite (dead_code acc Hacc E). }
  pose proof (mem_code acc Hacc E) as Hc. change (2 ^ 9) with 512. change (2 ^ 12) with 4096. change (2 ^ 14) with 0x4000.
  destruct (space_of acc) as [[st ro| |]|]; cbn [mbind option_bind page_granted read_only].
  - destruct Hc as (-> & -> & ->). cbn [andb]. destruct st, ro, w; cbn [andb negb]; zbool; done || (exfalso; change (2 ^ 8 - 1) with 255 in *; lia).
  - destruct Hc as (-> & ->). cbn [andb negb]. rewrite !andb_false_r. zbool; done || (exfalso; lia).
  - destruct Hc as (-> & -> & ->). cbn [andb negb]. rewrite !andb_false_r. zbool; done || (exfalso; lia).
  - destruct Hc as (-> & -> & ->). cbn [andb]. rewrite !andb_false_r. by repeat case_match.
Qed.

(** ** One access *)

(** What only the parity test, the serial number and the callbacks change is
    left out. *)
Definition core (l : lisa_mmu) : lisa_mmu := set_mealtch 0 (set_bad_par_gran 0 (set_calls [] (set_serial_ctr 0 l))).

Section Access.
Context {D : Type} `{!Devices D}.
#[local] Abbreviation mem := (mem_t D (option lisa_mmu)).
Implicit Types (m : mem) (l : lisa_mmu).

(** The part of the machine an access to memory leaves alone. *)
Definition frame m := (core <$> mmu m, address_mask m, soa m, active_read m, active_write m, devices m).
(** The bytes of main memory by their physical address. *)
Definition phys_bytes m (p : Z) : option Z :=
  let l := lisa_of m in
  if (ram_min l <=? p) && (p <? ram_max l) then Some (host_byte m (l_ram l + (p - ram_min l))) else None.

Lemma on_lisa_frame f m l : mmu m = Some l -> core (f l) = core l -> frame (on_lisa f m) = frame m.
Proof. intros E Hc. unfold frame, on_lisa, lisa_of. rewrite E. cbn [set_mmu mmu address_mask soa active_read active_write devices default from_option id fmap option_fmap option_map]. by rewrite Hc. Qed.
Lemma frame_Some m m' l : frame m' = frame m -> mmu m = Some l -> exists l', mmu m' = Some l' /\ core l' = core l.
Proof.
  intros Hf E. pose proof (f_equal (fun x => x.1.1.1.1.1) Hf) as Hc.
  change (core <$> mmu m' = core <$> mmu m) in Hc. rewrite E in Hc. destruct (mmu m') as [l'|]; [|done].
  exists l'. split; [done|]. apply (inj Some). exact Hc.
Qed.
Lemma core_nmi b l : core (nmi b l) = core l.
Proof. unfold nmi. by destruct (has_nmi_cb l). Qed.
(** A field that [core] keeps. *)
Lemma core_field {A} (f : lisa_mmu -> A) l l' : (forall l, f (core l) = f l) -> core l' = core l -> f l' = f l.
Proof. intros Hf E. by rewrite <-(Hf l'), E. Qed.

Lemma gather_ext s f g : (forall i, f i = g i) -> gather s f = gather s g.
Proof.
  intros H. unfold gather. set (k := seq _ _). generalize 0 as v. induction k as [|i k IH]; intros v; [done|].
  cbn [fold_left]. by rewrite H.
Qed.
Lemma gather_eq s (m : mem) p : gather s (fun i => host_byte m (p + i)) = LOAD_BE s p m.
Proof.
  pose proof (fun i => host_byte_range m (p + i)) as Hb. unfold gather, LOAD_BE.
  assert (forall v i, in_width 24 v -> u32 (Z.lor (Z.shiftl v 8) (host_byte m (p + i))) = v * 256 + host_byte m (p + i)) as Hs.
  { intros v i Hv. rewrite lor_shiftl_add by (lia || apply Hb). apply u32_small. specialize (Hb i). unfold in_width in *. pow2. lia. }
  pose proof (Hb 0). pose proof (Hb 1). pose proof (Hb 2). pose proof (Hb 3).
  assert (forall x n, in_width 8 x -> 8 <= n -> in_width n x) as Hw.
  { intros x n [Hx0 Hx1] Hn. split; [done|]. eapply Z.lt_le_trans; [exact Hx1|]. apply Z.pow_le_mono_r; lia. }
  destruct s; [change (seq _ _) with [0%nat]|change (seq _ _) with [0; 1]%nat|change (seq _ _) with [0; 1; 2; 3]%nat]; cbn [fold_left];
    change (Z.of_nat 0) with 0; change (Z.of_nat 1) with 1; change (Z.of_nat 2) with 2; change (Z.of_nat 3) with 3.
  - rewrite Hs by (by split). lia.
  - rewrite (Hs 0), Hs by (unfold in_width in *; pow2; lia). rewrite lor_shiftl_add by (lia || done). change (2 ^ 8) with 256. lia.
  - rewrite (Hs 0), (Hs (0 * 256 + _)), (Hs (_ * 256 + host_byte m (p + 1))), Hs by (unfold in_width in *; pow2; lia). rewrite !(lor_shiftl_add 8) by (lia || done).
    rewrite lor_shiftl_add by (lia || (unfold in_width in *; pow2; lia)). pow2. lia.
Qed.

Lemma notify_frame a s v w m : frame (lisa_logpoint_notify a s v w m) = frame m.
Proof. unfold lisa_logpoint_notify. by destruct (_ && _). Qed.
Lemma notify_same a s v w m : let m' := lisa_logpoint_notify a s v w m in
  host m' = host m /\ berr m' = berr m /\ mmu m' = mmu m.
Proof. unfold lisa_logpoint_notify. by destruct (_ && _). Qed.
Lemma raise_frame a r sv m : frame (lisa_raise_bus_error a r sv m) = frame m.
Proof. unfold lisa_raise_bus_error. by destruct (be_pending _). Qed.
Lemma raise_same a r sv m : let m' := lisa_raise_bus_error a r sv m in host m' = host m /\
  (be_pending (berr m) = false -> berr m' = mk_berr true a r (if sv then 5 else 1) false).
Proof. unfold lisa_raise_bus_error. by destruct (be_pending _). Qed.

Lemma phys_bytes_ext m m' l l' : mmu m = Some l -> mmu m' = Some l' -> core l' = core l -> host m' = host m ->
  forall p, phys_bytes m' p = phys_bytes m p.
Proof.
  intros E E' Hc Hh p. unfold phys_bytes, lisa_of, host_byte. rewrite E, E', Hh. cbn [default from_option id].
  by rewrite (core_field ram_min l l'), (core_field ram_max l l'), (core_field l_ram l l').
Qed.

(** ** Main memory *)
Lemma bytes_pos s : 1 <= bytes s <= 4.
Proof. destruct s; cbn; lia. Qed.
Lemma load_phys m l s p : mmu m = Some l ->
  load_be (phys_bytes m) s p = (if (p <? ram_min l) || (ram_max l <? p + bytes s) then None
                                else Some (LOAD_BE s (l_ram l + (p - ram_min l)) m)).
Proof.
  intros E. unfold phys_bytes, lisa_of. rewrite E. cbn [default from_option id].
  set (f := fun p : Z => if _ : bool then _ else _).
  assert (forall i, ram_min l <= p + i < ram_max l -> f (p + i) = Some (host_byte m (l_ram l + (p - ram_min l) + i))) as Hin.
  { intros i Hi. unfold f. zprune. do 2 f_equal. lia. }
  assert (forall i, ~ ram_min l <= p + i < ram_max l -> f (p + i) = None) as Hout.
  { intros i Hi. unfold f. by zprune. }
  assert (f p = f (p + 0)) as E0 by (by rewrite Z.add_0_r).
  destruct ((p <? ram_min l) || (ram_max l <? p + bytes s)) eqn:Hc.
  - apply orb_true_iff in Hc. rewrite !Z.ltb_lt in Hc. destruct s; cbn [load_be bytes] in *; rewrite E0.
    + by rewrite Hout by lia.
    + destruct (Z.lt_ge_cases p (ram_min l)); [by rewrite (Hout 0) by lia|]. rewrite (Hout 1) by lia. by destruct (f (p + 0)).
    + destruct (Z.lt_ge_cases p (ram_min l)); [by rewrite (Hout 0) by lia|]. rewrite (Hout 3) by lia.
      by destruct (f (p + 0)), (f (p + 1)), (f (p + 2)).
  - apply orb_false_iff in Hc. rewrite !Z.ltb_ge in Hc. destruct s; cbn [load_be bytes] in *; rewrite E0, !Hin by lia; done.
Qed.
Lemma check_granule_same m l p : mmu m = Some l -> let m' := check_granule p m in
  frame m' = frame m /\ host m' = host m /\ berr m' = berr m.
Proof.
  intros E. unfold check_granule. destruct (_ && _); [|done]. split; [|done]. apply (on_lisa_frame _ m l E). by rewrite core_nmi.
Qed.
Lemma mark_granule_same m l p : mmu m = Some l -> let m' := mark_granule p m in
  frame m' = frame m /\ host m' = host m /\ berr m' = berr m.
Proof.
  intros E. unfold mark_granule. destruct (wwp_on _); [|destruct (_ =? _); [|done]]; (split; [|done]); by apply (on_lisa_frame _ m l E).
Qed.
Lemma ram_read_ok m l p s : mmu m = Some l -> let '(v, m') := lisa_ram_read p s m in
  v = default (ones s) (load_be (phys_bytes m) s p) /\ frame m' = frame m /\ host m' = host m /\ berr m' = berr m.
Proof.
  intros E. unfold lisa_ram_read, lisa_of. rewrite E. cbn [default from_option id].
  rewrite (load_phys m l s p E).
  destruct (check_granule_same m l p E) as (Hf & Hh & Hb). set (m' := check_granule p m) in *.
  destruct (_ || _); [done|]. split; [|done]. cbn [default from_option id].
  transitivity (gather s (fun i => host_byte m' (l_ram l + (p - ram_min l) + i))).
  - apply gather_ext. intros i. by rewrite Z.add_assoc.
  - rewrite gather_eq. by apply LOAD_BE_ext.
Qed.

Lemma host_put_byte p b m x : 0 <= p < 2 ^ 64 -> 0 <= x < 2 ^ 64 ->
  host_byte (host_put p b m) x = if x =? p then u8 b else host_byte m x.
Proof.
  intros Hp Hx. unfold host_byte, host_put, u64. cbn [set_host host]. rewrite !(wrap_small 64) by done.
  destruct (Z.eqb_spec x p) as [->|Hn].
  - rewrite lookup_insert_eq. cbn. unfold u8. by rewrite wrap_wrap.
  - by rewrite lookup_insert_ne by (intros ->; done).
Qed.
Lemma put_loop base s v m x : 0 <= base -> base + bytes s <= 2 ^ 64 -> 0 <= x < 2 ^ 64 ->
  host_byte (fold_left (fun m i => host_put (base + Z.of_nat i) (be_byte s v (Z.of_nat i)) m) (seq 0 (Z.to_nat (bytes s))) m) x
  = if (base <=? x) && (x <? base + bytes s) then be_byte s v (x - base) else host_byte m x.
Proof.
  intros H0 H1 Hx. pose proof (bytes_pos s). set (n := Z.to_nat (bytes s)).
  assert (bytes s = Z.of_nat n) as En by (unfold n; lia). rewrite En in H1 |- *. clearbody n. clear En.
  induction n as [|n IH].
  { cbn [seq fold_left]. zbool; done || (exfalso; lia). }
  rewrite seq_S, fold_left_app. cbn [fold_left Nat.add]. rewrite host_put_byte by lia. rewrite IH by lia.
  destruct (Z.eqb_spec x (base + Z.of_nat n)) as [->|Hn].
  - zprune. unfold be_byte at 1, u8. rewrite wrap_wrap by done. fold (u8 (Z.shiftr v (8 * (bytes s - 1 - Z.of_nat n)))).
    unfold be_byte. by replace (base + Z.of_nat n - base) with (Z.of_nat n) by lia.
  - zbool; done || (exfalso; lia).
Qed.
Lemma put_loop_frame base s v k m : frame (fold_left (fun m i => host_put (base + Z.of_nat i) (be_byte s v (Z.of_nat i)) m) k m) = frame m /\
  berr (fold_left (fun m i => host_put (base + Z.of_nat i) (be_byte s v (Z.of_nat i)) m) k m) = berr m /\
  mmu (fold_left (fun m i => host_put (base + Z.of_nat i) (be_byte s v (Z.of_nat i)) m) k m) = mmu m.
Proof. revert m. induction k as [|i k IH]; intros m; [done|]. cbn [fold_left]. by destruct (IH (host_put (base + Z.of_nat i) (be_byte s v (Z.of_nat i)) m)) as (-> & -> & ->). Qed.

Lemma ram_write_ok m l p s v : mmu m = Some l -> lisa_ok l -> 0 <= p -> let m' := lisa_ram_write p s v m in
  frame m' = frame m /\ berr m' = berr m /\
  (is_Some (load_be (phys_bytes m) s p) -> forall q, phys_bytes m' q = store_be (phys_bytes m) s p v q) /\
  (forall q, ~ p <= q < p + bytes s -> phys_bytes m' q = phys_bytes m q).
Proof.
  intros E Hok Hp. pose proof (bytes_pos s) as Hs. destruct (ok_ram l Hok) as (? & ? & ?). destruct (ok_host l Hok) as [? ?].
  unfold lisa_ram_write, lisa_of. rewrite E. cbn [default from_option id].
  destruct (mark_granule_same m l p E) as (Hf & Hh & Hb). set (m1 := mark_granule p m) in *. cbv zeta.
  destruct (frame_Some m m1 l Hf E) as (l1 & E1 & Hc1). pose proof (phys_bytes_ext m m1 l l1 E E1 Hc1 Hh) as Hsame. rewrite (load_phys m l s p E).
  rewrite (u32_small (ram_min l + l_ram_size l)) by (unfold in_width; lia).
  destruct (_ || (ram_min l + l_ram_size l <? _)) eqn:Hin.
  { split_and!; [done|done| |done]. apply orb_true_iff in Hin. rewrite !Z.ltb_lt in Hin. intros [x Hx].
    destruct (_ || _) eqn:Hr in Hx; [done|]. apply orb_false_iff in Hr. rewrite !Z.ltb_ge in Hr. lia. }
  apply orb_false_iff in Hin. rewrite !Z.ltb_ge in Hin. set (m2 := fold_left _ _ m1).
  assert (m2 = fold_left (fun m i => host_put (l_ram l + (p - ram_min l) + Z.of_nat i) (be_byte s v (Z.of_nat i)) m) (seq 0 (Z.to_nat (bytes s))) m1) as E2.
  { unfold m2. generalize (seq 0 (Z.to_nat (bytes s))) as k. generalize m1. intros m3 k. revert m3.
    induction k as [|i k IH]; intros m3; [done|]. cbn [fold_left]. by rewrite IH, Z.add_assoc. }
  clearbody m2. destruct (put_loop_frame (l_ram l + (p - ram_min l)) s v (seq 0 (Z.to_nat (bytes s))) m1) as (Hf2 & Hb2 & Hm2).
  rewrite <-E2 in Hf2, Hb2, Hm2. rewrite E1 in Hm2.
  assert (forall q, phys_bytes m2 q = if (p <=? q) && (q <? p + bytes s) then (fun _ => be_byte s v (q - p)) <$> phys_bytes m q else phys_bytes m q) as Hq.
  { intros q. rewrite <-(Hsame q). unfold phys_bytes, lisa_of. rewrite Hm2, E1. cbn [default from_option id].
    rewrite (core_field ram_min l l1), (core_field ram_max l l1), (core_field l_ram l l1) by done.
    destruct ((ram_min l <=? q) && (q <? ram_max l)) eqn:Hq; [|by destruct (p <=? q), (q <? p + bytes s)].
    apply andb_true_iff in Hq. rewrite Z.leb_le, Z.ltb_lt in Hq. rewrite E2.
    rewrite put_loop by lia. zbool; cbn [andb fmap option_fmap option_map]; try (exfalso; lia); [|done..]. do 2 f_equal. lia. }
  split_and!; [by rewrite Hf2|by rewrite Hb2| |].
  - intros [x Hx] q. rewrite Hq. unfold store_be. destruct ((p <=? q) && (q <? p + bytes s)) eqn:Hw; [|done].
    destruct (_ || _) eqn:Hr in Hx; [done|]. apply orb_false_iff in Hr. apply andb_true_iff in Hw. rewrite !Z.ltb_ge in Hr. rewrite Z.leb_le, Z.ltb_lt in Hw.
    unfold phys_bytes, lisa_of. rewrite E. cbn [default from_option id]. by zprune.
  - intros q Hn. rewrite Hq. zbool; done || (exfalso; lia).
Qed.
End Access.
