(* ===== verification/LisaTheorems.v ===== *)
(** * Memory accesses on a Lisa

    Loads and stores of the CPU through memory.c and lisa_mmu.c do what the
    translation of lisa.md says, and a user program stays inside the segments of
    its context. *)
From S2P Require Import Prelude Bus Memory MemoryBus MemoryProofs Lisa LisaProofs.

Section Laws.
Context {D : Type} `{!Devices D}.
#[local] Abbreviation mem := (mem_t D (option lisa_mmu)).
Implicit Types (m : mem) (l : lisa_mmu).

Lemma lisa_raise_step a r sv m : bus_step m (lisa_raise_bus_error a r sv m).
Proof.
  unfold lisa_raise_bus_error. destruct (be_pending (berr m)) eqn:E; [apply bus_step_refl|].
  split; simpl; [|done|by right]. apply u32_range.
Qed.
Lemma notify_step a s v w m m' : bus_step m m' -> bus_step m (lisa_logpoint_notify a s v w m').
Proof.
  intros H. eapply step_trans; [exact H|]. unfold lisa_logpoint_notify. destruct (_ && _); by apply step_same.
Qed.
Lemma check_granule_step p m : bus_step m (check_granule p m).
Proof. unfold check_granule. destruct (_ && _); by apply step_same. Qed.
Lemma mark_granule_step p m : bus_step m (mark_granule p m).
Proof. unfold mark_granule. repeat case_match; by apply step_same. Qed.
Lemma io_read_step p s m : bus_step m (lisa_io_read p s m).2.
Proof.
  unfold lisa_io_read. repeat case_match; try (by apply step_same).
  eapply step_trans; [|apply charge_step]. by apply step_same.
Qed.
Lemma io_write_step p s v m : bus_step m (lisa_io_write p s v m).
Proof.
  unfold lisa_io_write. repeat case_match; try (by apply step_same).
  eapply step_trans; [|apply charge_step]. by apply step_same.
Qed.
Lemma ram_write_step p s v m : bus_step m (lisa_ram_write p s v m).
Proof.
  unfold lisa_ram_write. destruct (_ || _); [apply mark_granule_step|]. apply (step_trans _ (mark_granule p m)); [apply mark_granule_step|].
  set (k := seq _ _). clearbody k. generalize (mark_granule p m) as m1. induction k as [|i k IH]; intros m1; [apply bus_step_refl|].
  cbn [fold_left]. eapply step_trans; [|apply IH]. by apply step_same.
Qed.

#[global] Instance lisa_laws : MmuLaws D (option lisa_mmu).
Proof.
  split; cbn [lisa_read lisa_write mmu_handle_fault mmu_enabled lisa_present tlb_track_page lisa_as_mmu]; try done.
  - intros s a sv m. unfold lisa_mmu_read. destruct (lisa_read_any _ _ _ _). apply trunc_range.
  - intros s a sv m. unfold lisa_mmu_read. destruct (lisa_read_any s a sv m) as [v m'] eqn:E. cbn [snd].
    replace m' with (lisa_read_any s a sv m).2 by (by rewrite E). clear E. unfold lisa_read_any.
    destruct (lisa_is_serial _ _); [destruct (lisa_serial_read _ _); by apply step_same|].
    destruct (lisa_resolve _ _ _ _) as [|p|p|p|sg cx is_sor]; [apply lisa_raise_step| | | |].
    + unfold lisa_ram_read. destruct (_ || _); apply notify_step, check_granule_step.
    + pose proof (io_read_step p s m). destruct (lisa_io_read p s m). by apply notify_step.
    + apply notify_step, bus_step_refl.
    + apply notify_step, bus_step_refl.
  - intros s a sv v m. unfold lisa_write_any. destruct (lisa_resolve _ _ _ _);
      [apply lisa_raise_step|apply notify_step, ram_write_step|apply notify_step, io_write_step|apply bus_step_refl|].
    apply notify_step. by apply step_same.
  - intros. apply bus_step_refl.
Qed.
End Laws.

Section Machine.
Context {D : Type} `{!Devices D}.
#[local] Abbreviation mem := (mem_t D (option lisa_mmu)).
Implicit Types (m : mem) (l : lisa_mmu).

(** A Lisa after set-up: translation on, 24 address lines, no fast path. *)
Record lisa_machine m l : Prop := {
  lm_mmu : mmu m = Some l;
  lm_ok : lisa_ok l;
  lm_start : start l = false;
  lm_mask : address_mask m = 2 ^ 24 - 1;
  lm_soa : soa m = mk_soa ∅ ∅ ∅ ∅;
}.

Lemma lisa_machine_frame m m' l : lisa_machine m l -> frame m' = frame m -> exists l', lisa_machine m' l' /\ core l' = core l.
Proof.
  intros [E [H1 H2 H3 H4] Hs Ha Hf] Hfr. destruct (frame_Some m m' l Hfr E) as (l' & E' & Hc). exists l'. split; [|done].
  injection Hfr as _ Em Es _ _ _. split; [done| |by rewrite (core_field start l l')|by rewrite Em|by rewrite Es].
  split; by rewrite ?(core_field seg1 l l'), ?(core_field seg2 l l'), ?(core_field ram_min l l'), ?(core_field ram_max l l'),
    ?(core_field l_ram_size l l'), ?(core_field l_ram l l').
Qed.

Lemma load_lisa s a m l : lisa_machine m l -> in_width 24 a ->
  mem_load s a m = lisa_mmu_read s a (active_read m) (count_slowpath m).
Proof.
  intros [E _ _ Hm Hs] Ha. assert (forall sp, fast_read s sp a m = lisa_mmu_read s a (active_read m) (count_slowpath m)) as H; [|destruct s; apply H].
  intros sp. unfold fast_read. rewrite Hm, (land_ones_mod a 24), Z.mod_small by (done || lia).
  assert (active_read_at m (page_of a) = 0) as -> by (unfold active_read_at, soa_at; rewrite Hs; destruct (active_read m); cbn; by rewrite lookup_empty).
  cbn [Z.eqb negb andb]. unfold read_slow. cbn [lisa_present lisa_as_mmu].
  change (mmu (count_slowpath m)) with (mmu m). by rewrite E.
Qed.
Definition trapped (s : size) (a v : Z) m : mem :=
  let h := hooks m in
  if truthy (trap_active h) && (trap_size h =? bytes s) && (trunc s v =? trunc s (trap_value h))
  then value_trap_check a v s m else m.
Lemma trapped_same s a v m : let m' := trapped s a v m in frame m' = frame m /\ host m' = host m /\ berr m' = berr m /\ mmu m' = mmu m.
Proof. unfold trapped, value_trap_check. by repeat case_match. Qed.
Lemma store_lisa s a v m l : lisa_machine m l -> in_width 24 a ->
  mem_store s a v m = lisa_write_any s a (active_write m) v (count_slowpath (trapped s a v m)).
Proof.
  intros [E _ _ Hm Hs] Ha.
  assert (forall sp, fast_write s sp a v m = lisa_write_any s a (active_write m) v (count_slowpath (trapped s a v m))) as H; [|destruct s; apply H].
  intros sp. unfold fast_write. rewrite Hm, (land_ones_mod a 24), Z.mod_small by (done || lia).
  assert (active_write_at m (page_of a) = 0) as -> by (unfold active_write_at, soa_at; rewrite Hs; destruct (active_write m); cbn; by rewrite lookup_empty).
  cbn [Z.eqb negb andb]. fold (trapped s a v m). destruct (trapped_same s a v m) as (Hf & _ & _ & Em).
  injection Hf as _ _ _ _ Hw _. unfold write_slow. cbn [lisa_present lisa_as_mmu].
  change (mmu (count_slowpath ?x)) with (mmu x). rewrite Em, E.
  change (active_write (count_slowpath ?x)) with (active_write x). by rewrite Hw.
Qed.

Lemma count_frame m : frame (count_slowpath m) = frame m.
Proof. done. Qed.
Lemma load_phys_range m s p v : load_be (phys_bytes m) s p = Some v -> trunc s v = v.
Proof.
  intros Hl. apply wrap_small. destruct (mmu m) as [l|] eqn:E.
  - rewrite (load_phys m l s p E) in Hl. destruct (_ || _); [done|]. injection Hl as <-. apply LOAD_BE_range.
  - unfold phys_bytes, lisa_of in Hl. rewrite E in Hl. change (ram_min _) with 0 in Hl. change (ram_max _) with 0 in Hl.
    destruct s; cbn [load_be] in Hl; revert Hl; zprune; done.
Qed.

(** I/O changes no main memory. *)
Lemma strobe_ram p l : ram_min (lisa_strobe p l) = ram_min l /\ ram_max (lisa_strobe p l) = ram_max l /\ l_ram (lisa_strobe p l) = l_ram l.
Proof. unfold lisa_strobe, nmi. by repeat case_match. Qed.
Lemma strobes_ram s p l : ram_min (lisa_strobes s p l) = ram_min l /\ ram_max (lisa_strobes s p l) = ram_max l /\ l_ram (lisa_strobes s p l) = l_ram l.
Proof.
  unfold lisa_strobes. destruct s; [apply strobe_ram..|]. destruct (strobe_ram (p + 2) (lisa_strobe p l)) as (-> & -> & ->). apply strobe_ram.
Qed.
Lemma status_ram l : let l' := (lisa_status_byte l).2 in ram_min l' = ram_min l /\ ram_max l' = ram_max l /\ l_ram l' = l_ram l.
Proof. unfold lisa_status_byte, track_retrace. cbn [snd]. by repeat case_match. Qed.
Lemma phys_same m m' l l' : mmu m = Some l -> mmu m' = Some l' -> host m' = host m ->
  ram_min l' = ram_min l /\ ram_max l' = ram_max l /\ l_ram l' = l_ram l -> forall p, phys_bytes m' p = phys_bytes m p.
Proof.
  intros E E' Hh (E1 & E2 & E3) p. unfold phys_bytes, lisa_of, host_byte. rewrite E, E', Hh. cbn [default from_option id]. by rewrite E1, E2, E3.
Qed.
Lemma io_read_phys p s m l : mmu m = Some l -> forall q, phys_bytes (lisa_io_read p s m).2 q = phys_bytes m q.
Proof.
  intros E. unfold lisa_io_read, on_lisa, lisa_of. rewrite E. cbn [default from_option id].
  destruct (0xE000 <=? p).
  - destruct (_ =? _); [by apply (phys_same m _ l (lisa_strobes s p l) E), strobes_ram|].
    destruct (_ <=? _); [|by destruct (_ <=? _)]. pose proof (status_ram l) as Hst. destruct (lisa_status_byte l) as [v l'].
    by apply (phys_same m _ l l' E).
  - destruct (find_io p l); [|done]. by destruct (dev_read _ _ _ _ _) as [[v pen] ds].
Qed.
Lemma io_write_phys p s v m l : mmu m = Some l -> forall q, phys_bytes (lisa_io_write p s v m) q = phys_bytes m q.
Proof.
  intros E. unfold lisa_io_write, on_lisa, lisa_of. rewrite E. cbn [default from_option id].
  destruct (0xE000 <=? p).
  - destruct (_ =? _); [by apply (phys_same m _ l (lisa_strobes s p l) E), strobes_ram|].
    destruct (_ && _); [|done]. by apply (phys_same m _ l (set_vidlatch (u8 v) l) E).
  - destruct (find_io p l); [|done]. by destruct (dev_write _ _ _ _ _ _) as [pen ds].
Qed.

Definition bus_error_at (a : Z) (is_read supervisor : bool) : berr_t := mk_berr true a is_read (if supervisor then 5 else 1) false.
(** What a load gives and leaves behind, by the translation of its address. *)
Definition load_outcome (s : size) (a : Z) m l (x : Z) m' : Prop :=
  (forall p, phys_bytes m' p = phys_bytes m p) /\
  match translate l (active_read m) false a with
  | Some (Main _ _, p) => x = default (ones s) (load_be (phys_bytes m) s p) /\ frame m' = frame m /\ berr m' = berr m
  | Some (SpecialIo, p) => x = trunc s (lisa_rom_read m (p mod 0x4000) s) /\ frame m' = frame m /\ berr m' = berr m
  | Some (IoSpace, _) => True
  | None => x = ones s /\ frame m' = frame m /\
      (be_pending (berr m) = false -> berr m' = bus_error_at a true (active_read m))
  end.
Definition store_outcome (s : size) (a v : Z) m l m' : Prop :=
  match translate l (active_write m) true a with
  | Some (Main _ _, p) => frame m' = frame m /\ berr m' = berr m /\
      (is_Some (load_be (phys_bytes m) s p) -> forall q, phys_bytes m' q = store_be (phys_bytes m) s p v q) /\
      (forall q, ~ p <= q < p + bytes s -> phys_bytes m' q = phys_bytes m q)
  | Some (SpecialIo, _) => frame m' = frame m /\ berr m' = berr m /\ forall q, phys_bytes m' q = phys_bytes m q
  | Some (IoSpace, _) => forall q, phys_bytes m' q = phys_bytes m q
  | None => frame m' = frame m /\ (forall q, phys_bytes m' q = phys_bytes m q) /\
      (be_pending (berr m) = false -> berr m' = bus_error_at a false (active_write m))
  end.

Lemma frame_phys m m' l : mmu m = Some l -> frame m' = frame m -> host m' = host m -> forall p, phys_bytes m' p = phys_bytes m p.
Proof. intros E Hf Hh. destruct (frame_Some m m' l Hf E) as (l' & E' & Hc). by apply (phys_bytes_ext m m' l l'). Qed.

Lemma load_ok s a m l : lisa_machine m l -> in_width 24 a -> lisa_is_serial l a = false ->
  load_outcome s a m l (mem_load s a m).1 (mem_load s a m).2.
Proof.
  intros Hm Ha Hser. rewrite (load_lisa s a m l Hm Ha). destruct (id Hm) as [E Hok Hs _ _].
  unfold lisa_mmu_read, lisa_read_any. set (m0 := count_slowpath m). assert (lisa_of m0 = l) as El by (unfold m0, lisa_of; cbn; by rewrite E).
  rewrite El. change 0xFFFFFF with (2 ^ 24 - 1). rewrite (land_ones_mod a 24), (Z.mod_small a) by (done || lia). rewrite Hser.
  rewrite resolve_translate by (done || apply Hok). unfold load_outcome.
  destruct (translate l (active_read m) false a) as [[[st ro| |] p]|].
  - pose proof (ram_read_ok m0 l p s E) as Hr. destruct (lisa_ram_read p s m0) as [x m1]. destruct Hr as (-> & Hf & Hh & Hb). cbn [fst snd].
    change (phys_bytes m0) with (phys_bytes m).
    match goal with |- context [lisa_logpoint_notify a s ?v false m1] => set (x := v); destruct (notify_same a s x false m1) as (Hh2 & Hb2 & _);
      pose proof (notify_frame a s x false m1) as Hf2; set (m2 := lisa_logpoint_notify a s x false m1) in * end.
    split; [apply (frame_phys m m2 l E); [by rewrite Hf2, Hf|by rewrite Hh2, Hh]|]. split; [|by rewrite Hf2, Hf, Hb2, Hb].
    unfold x. destruct (load_be (phys_bytes m) s p) as [y|] eqn:Hl; [by apply (load_phys_range m s p)|].
    apply wrap_small, ones_range.
  - pose proof (io_read_phys p s m0 l E) as Hr. destruct (lisa_io_read p s m0) as [x m1]. cbn [fst snd] in *.
    split; [|done]. intros q. transitivity (phys_bytes m1 q); [|apply Hr]. unfold lisa_logpoint_notify. by destruct (_ && _).
  - cbn [fst snd]. split; [|split; [done|]].
    + intros q. unfold lisa_logpoint_notify. by destruct (_ && _).
    + unfold lisa_logpoint_notify. by destruct (_ && _).
  - cbn [fst snd]. destruct (raise_same a true (active_read m) m0) as [Hh Hb]. pose proof (raise_frame a true (active_read m) m0) as Hf.
    split; [by apply (frame_phys m _ l E)|]. split; [apply wrap_small, ones_range|]. split; [done|exact Hb].
Qed.
Lemma store_ok s a v m l : lisa_machine m l -> in_width 24 a -> store_outcome s a v m l (mem_store s a v m).
Proof.
  intros Hm Ha. rewrite (store_lisa s a v m l Hm Ha). destruct (id Hm) as [E Hok Hs _ _].
  destruct (trapped_same s a v m) as (Hf0 & Hh0 & Hb0 & Em0). set (m0 := count_slowpath (trapped s a v m)).
  change (frame m0 = frame m) in Hf0. change (host m0 = host m) in Hh0. change (berr m0 = berr m) in Hb0.
  assert (mmu m0 = Some l) as E0 by (transitivity (mmu m); [exact Em0|exact E]). clearbody m0. clear Em0.
  pose proof (phys_bytes_ext m m0 l l E E0 eq_refl Hh0) as Hp0.
  unfold lisa_write_any, store_outcome. assert (lisa_of m0 = l) as -> by (unfold lisa_of; by rewrite E0).
  rewrite resolve_translate by (done || apply Hok).
  destruct (translate l (active_write m) true a) as [[[st ro| |] p]|] eqn:Ht.
  - assert (0 <= p) as Hp.
    { unfold translate in Ht. apply bind_Some in Ht as (sp & _ & Ht). destruct (_ && _) in Ht; [|done]. injection Ht as _ <-.
      pose proof (Z.mod_pos_bound (sor_at l (context l (active_write m)) (a / 2 ^ 17) + a / 2 ^ 9 mod 256) 4096 ltac:(lia)).
      pose proof (Z.mod_pos_bound a 512 ltac:(lia)). lia. }
    destruct (ram_write_ok m0 l p s v E0 Hok Hp) as (Hf & Hb & Hst & Hout). set (m1 := lisa_ram_write p s v m0) in *.
    destruct (notify_same a s v true m1) as (Hh2 & Hb2 & Em2). pose proof (notify_frame a s v true m1) as Hf2.
    assert (forall q, phys_bytes (lisa_logpoint_notify a s v true m1) q = phys_bytes m1 q) as Hp2.
    { intros q. unfold lisa_logpoint_notify. by destruct (_ && _). }
    split; [by rewrite Hf2, Hf|]. split; [by rewrite Hb2, Hb|]. split.
    + intros Hi q. rewrite Hp2. rewrite Hst.
      * unfold store_be. by rewrite Hp0.
      * destruct Hi as [y Hy]. exists y. rewrite <-Hy. rewrite !(load_phys _ l) by done. by rewrite (LOAD_BE_ext m m0).
    + intros q Hq. by rewrite Hp2, Hout, Hp0.
  - intros q. rewrite <-Hp0. rewrite <-(io_write_phys p s v m0 l E0 q). unfold lisa_logpoint_notify. by destruct (_ && _).
  - done.
  - destruct (raise_same a false (active_write m) m0) as [Hh Hb]. pose proof (raise_frame a false (active_write m) m0) as Hf.
    split; [by rewrite Hf|]. split; [by apply (frame_phys m _ l E); rewrite ?Hf, ?Hh|]. intros Hn. rewrite <-Hb0 in Hn. exact (Hb Hn).
Qed.

(** C29: loads and stores on a Lisa after set-up (translation on: the START latch
    is off).  The segment, context and page of a 24-bit address select a
    descriptor, by the rules of lisa.md ([translate]); an access is translated
    once, by the address of its first byte, whatever its size.  A load from main
    memory gives the big-endian value at the physical address (ones where not
    all of it is installed), a store changes at most the bytes from there on, and
    to exactly the operand's where they are installed; ROM reads as ROM and
    ignores stores; I/O touches no memory; and an absent segment, a first byte
    behind the limit or a store to a read-only segment changes nothing, reads as
    ones and leaves a bus error (this one if none was pending).  Loads from the
    serial-number PROM at $FE8000, which the code answers before it translates,
    are excluded.  Two departures of the code from lisa.md follow from this:
    long_crosses_limit (a long whose second word is behind the limit is not
    faulted, since its bus cycles are not translated one by one) and
    serial_ignores_descriptors. *)
Theorem lisa_access_correct s a v m l : lisa_machine m l -> in_width 24 a ->
  (lisa_is_serial l a = false -> load_outcome s a m l (mem_load s a m).1 (mem_load s a m).2) /\
  store_outcome s a v m l (mem_store s a v m).
Proof. intros Hm Ha. split; [intros Hs; by apply load_ok|by apply store_ok]. Qed.

(** ** A user program *)
Inductive access := Load (s : size) (a : Z) | Store (s : size) (a v : Z).
Definition perform (c : access) m : mem := match c with Load s a => (mem_load s a m).2 | Store s a v => mem_store s a v m end.
(** An operand inside one page of the MMU. *)
Definition in_one_page (c : access) : Prop :=
  match c with Load s a | Store s a _ => in_width 24 a /\ a mod 512 + bytes s <= 512 end.
(** The page of [p] is mapped for writing in the user's context. *)
Definition granted l (p : Z) : Prop :=
  exists a st ro q, in_width 24 a /\ translate l false true a = Some (Main st ro, q) /\ q / 512 = p / 512.
Definition no_io_segment l : Prop := forall a w p, in_width 24 a -> translate l false w a <> Some (IoSpace, p).

Lemma translate_core l l' sv w a : core l' = core l -> translate l' sv w a = translate l sv w a.
Proof.
  intros Hc. unfold translate, context, slr_at, sor_at.
  by rewrite (core_field seg1 l l'), (core_field seg2 l l'), (core_field sor l l'), (core_field slr l l').
Qed.
Lemma translate_offset l sv w a sp p : translate l sv w a = Some (sp, p) -> exists k, p = k * 512 + a mod 512.
Proof. unfold translate. intros Ht. apply bind_Some in Ht as (sp' & _ & Ht). destruct (_ && _) in Ht; [|done]. injection Ht as _ <-. by eexists. Qed.

Lemma perform_confined c m l : lisa_machine m l -> active_read m = false -> active_write m = false -> no_io_segment l -> in_one_page c ->
  frame (perform c m) = frame m /\ forall p, ~ granted l p -> phys_bytes (perform c m) p = phys_bytes m p.
Proof.
  intros Hm Hr Hw Hio Hc. destruct c as [s a|s a v]; destruct Hc as [Ha Hin]; cbn [perform].
  - destruct (lisa_is_serial l a) eqn:Hs.
    + rewrite (load_lisa s a m l Hm Ha). destruct (id Hm) as [E _ _ _ _]. unfold lisa_mmu_read, lisa_read_any.
      change 0xFFFFFF with (2 ^ 24 - 1). rewrite (land_ones_mod a 24), (Z.mod_small a) by (done || lia).
      assert (lisa_of (count_slowpath m) = l) as -> by (unfold lisa_of; cbn; by rewrite E). rewrite Hs.
      assert (core (lisa_serial_read s l).2 = core l) as Hcl by (by destruct s).
      destruct (lisa_serial_read s l) as [x l']. cbn [fst snd] in *.
      assert (frame (set_mmu (Some l') (count_slowpath m)) = frame m) as Hf.
      { unfold frame. rewrite E. cbn [set_mmu mmu count_slowpath set_slowpath_count address_mask soa active_read active_write devices fmap option_fmap option_map]. by rewrite Hcl. }
      split; [done|]. intros p _. by apply (frame_phys m _ l E Hf).
    + destruct (load_ok s a m l Hm Ha Hs) as [Hp Ho]. rewrite Hr in Ho.
      destruct (translate l false false a) as [[[st ro| |] p]|] eqn:Ht; [|by apply Hio in Ht|..]; (split; [apply Ho|by auto]).
  - pose proof (store_ok s a v m l Hm Ha) as Ho. unfold store_outcome in Ho. rewrite Hw in Ho.
    destruct (translate l false true a) as [[[st ro| |] p]|] eqn:Ht.
    + destruct Ho as (Hf & _ & _ & Hout). split; [done|]. intros q Hg. apply Hout. intros Hq. apply Hg.
      exists a, st, ro, p. split; [done|]. split; [done|]. destruct (translate_offset _ _ _ _ _ _ Ht) as [k ->].
      clear - Hq Hin. pose proof (Z.mod_pos_bound a 512 ltac:(lia)). generalize dependent (a mod 512). intros o. intros. dlia.
    + by apply Hio in Ht.
    + by destruct Ho as (? & _ & ?).
    + by destruct Ho as (? & ? & _).
Qed.

(** C16: the segments confine a user program, once set-up is over: the START
    latch is off (with it on, a user program could rewrite the descriptors).
    Whatever sequence of loads and stores it makes in user mode, each inside a
    512-byte page, if no segment of its context is I/O space, these stay as they
    are: the descriptors, the context and START latches, the other latches of
    the MMU but for those named below, the level, the fast-path tables, the
    devices, and every byte of main memory outside the pages that the
    descriptors of its context map for writing.  What a user program can change
    besides its own pages is the mark of a granule with bad parity, the memory
    error latch and the interrupt calls that a read of such a granule makes, and
    the counter of the serial-number PROM. *)
Theorem lisa_user_confined cs m l : lisa_machine m l -> active_read m = false -> active_write m = false ->
  no_io_segment l -> Forall in_one_page cs ->
  let m' := fold_left (fun m c => perform c m) cs m in
  frame m' = frame m /\ forall p, ~ granted l p -> phys_bytes m' p = phys_bytes m p.
Proof.
  intros Hm Hr Hw Hio Hcs. revert m l Hm Hr Hw Hio. induction Hcs as [|c cs Hc _ IH]; intros m l Hm Hr Hw Hio; [done|].
  cbn [fold_left]. destruct (perform_confined c m l Hm Hr Hw Hio Hc) as [Hf Hp].
  destruct (lisa_machine_frame m (perform c m) l Hm Hf) as (l1 & Hm1 & Hc1).
  pose proof (f_equal (fun x => x.1.1.2) Hf) as Er. pose proof (f_equal (fun x => x.1.2) Hf) as Ew. cbn [fst snd frame] in Er, Ew.
  destruct (IH (perform c m) l1 Hm1) as [Hf2 Hp2]; [by rewrite Er|by rewrite Ew| |].
  { intros a w p Ha. rewrite (translate_core l l1) by done. by apply Hio. }
  split; [by rewrite Hf2|]. intros p Hg. rewrite Hp2; [by apply Hp|]. intros (a & st & ro & q & Ha & Ht & Hq).
  apply Hg. exists a, st, ro, q. by rewrite <-(translate_core l l1).
Qed.
End Machine.

(** ** On a concrete machine

    512 KB of memory at $80000, one page of it mapped for a user program in
    context 1: witnesses of the theorems, and accesses for which the code departs
    from its comments or from the hardware. *)
#[local] Abbreviation mem := (mem_t latch (option lisa_mmu)).

(** Context 1: segment 2 is one page at $80000.  Context 0: segment 126 is I/O,
    segment 127 the ROM, segment 0 the whole memory. *)
Definition programmed : lisa_mmu :=
  lisa_strobe 0xE012 (lisa_strobe 0xE00A
    (fold_left (fun l '(seg, ctx, is_sor, v) => lisa_mmureg_write seg ctx is_sor v l)
      [(2, 1, true, 0x400); (2, 1, false, 0x7FF); (0, 0, true, 0x400); (0, 0, false, 0x700); (126, 0, false, 0x900); (127, 0, false, 0xF00)]
      (lisa_mmu_set_nmi (lisa_mmu_init (2 ^ 33) 0x80000 (2 ^ 34) 0x4000 true)))).
Definition lisa_with (l : lisa_mmu) (supervisor : bool) : mem :=
  set_active_write supervisor (set_active_read supervisor (memory_map_init 24 0x80000 0x4000 (2 ^ 33) (mk_latch 0) (Some l))).

Lemma programmed_ok : lisa_ok programmed.
Proof. split; vm_compute; repeat split; congruence. Qed.
Lemma lisa_with_machine sv : lisa_machine (lisa_with programmed sv) programmed.
Proof. split; [done|apply programmed_ok|vm_compute; reflexivity..]. Qed.

Lemma lisa_access_correct_witness :
  (mem_load B16 0x40000 (mem_store B16 0x40000 0xBEEF (lisa_with programmed false))).1 = 0xBEEF /\
  load_outcome B16 0x40200 (lisa_with programmed false) programmed (mem_load B16 0x40200 (lisa_with programmed false)).1
    (mem_load B16 0x40200 (lisa_with programmed false)).2 /\
  be_pending (berr (mem_load B16 0x40200 (lisa_with programmed false)).2) = true.
Proof.
  destruct (lisa_access_correct B16 0x40200 0 (lisa_with programmed false) programmed (lisa_with_machine false)) as [Hl _]; [by split|].
  split; [vm_compute; reflexivity|]. split; [apply Hl; vm_compute; reflexivity|vm_compute; reflexivity].
Defined.

(** Descriptors of the user's context but for segment 2 are unprogrammed. *)
Lemma programmed_segment a w sp p : in_width 24 a -> translate programmed false w a = Some (sp, p) -> a / 2 ^ 17 = 2.
Proof.
  intros Ha Ht. destruct (Z.eq_dec (a / 2 ^ 17) 2) as [|Hn]; [done|]. unfold translate in Ht. change (context programmed false) with 1 in Ht.
  assert (0 <= a / 2 ^ 17 < 128) as Hs by (unfold in_width in Ha; dlia).
  assert (slr_at programmed 1 (a / 2 ^ 17) = 0) as E; [|by rewrite E in Ht].
  unfold slr_at. change (slr programmed) with (<[127 := 0xF00]> (<[126 := 0x900]> (<[0 := 0x700]> (<[130 := 0x7FF]> (∅ : Zmap Z))))).
  by rewrite !lookup_insert_ne, lookup_empty by lia.
Qed.
Lemma programmed_translate a w : a / 2 ^ 17 = 2 -> translate programmed false w a =
  if a / 2 ^ 9 mod 256 <? 1 then Some (Main false false, (0x400 + a / 2 ^ 9 mod 256) mod 4096 * 512 + a mod 512) else None.
Proof.
  intros Es. unfold translate. rewrite Es. change (context programmed false) with 1. change (slr_at programmed 1 2) with 0x7FF.
  change (sor_at programmed 1 2) with 0x400. change (0x7FF / 256 mod 16) with 7. change (0x7FF mod 256) with 255.
  cbn [mbind option_bind space_of page_granted read_only]. change (256 - 255) with 1. by rewrite andb_false_r, andb_true_r.
Qed.
Lemma programmed_no_io : no_io_segment programmed.
Proof.
  intros a w p Ha Ht. pose proof (programmed_segment _ _ _ _ Ha Ht) as Es. rewrite programmed_translate in Ht by done. by case_match.
Qed.
(** The first page of memory is granted, and no other. *)
Lemma programmed_granted p : granted programmed p -> p / 512 = 0x400.
Proof.
  intros (a & st & ro & q & Ha & Ht & <-). pose proof (programmed_segment _ _ _ _ Ha Ht) as Es. rewrite programmed_translate in Ht by done.
  destruct (a / 2 ^ 9 mod 256 <? 1) eqn:Hp; [|done]. apply Z.ltb_lt in Hp. injection Ht as _ _ <-.
  assert (a / 2 ^ 9 mod 256 = 0) as -> by dlia. change ((0x400 + 0) mod 4096) with 0x400. clear. dlia.
Qed.
Lemma lisa_user_confined_witness :
  phys_bytes (fold_left (fun m c => perform c m) [Store B32 0x40000 0x01020304; Store B16 0xFCE010 0; Load B8 0xFE8000; Store B16 0x40200 0xFFFF] (lisa_with programmed false)) 0x80200 = Some 0 /\
  phys_bytes (fold_left (fun m c => perform c m) [Store B32 0x40000 0x01020304; Store B16 0xFCE010 0; Load B8 0xFE8000; Store B16 0x40200 0xFFFF] (lisa_with programmed false)) 0x80003 = Some 4.
Proof.
  split; [|vm_compute; reflexivity].
  destruct (lisa_user_confined [Store B32 0x40000 0x01020304; Store B16 0xFCE010 0; Load B8 0xFE8000; Store B16 0x40200 0xFFFF] _ _ (lisa_with_machine false)) as [_ Hp];
    [done|done|apply programmed_no_io| |].
  { repeat (apply list.Forall_cons; split; [split; [by split|vm_compute; congruence]|]). by apply list.Forall_nil. }
  rewrite Hp; [vm_compute; reflexivity|]. intros Hg%programmed_granted. by vm_compute in Hg.
Defined.

(** ** Departures *)

(** A long access is translated once: its second word may lie behind the limit
    of the segment.  Here the user program writes physical $80200, which belongs
    to no page of its context. *)
Lemma long_crosses_limit : let m := mem_store B32 0x401FE 0xAAAABBBB (lisa_with programmed false) in
  be_pending (berr m) = false /\ phys_bytes m 0x80200 = Some 0xBB /\ ~ granted programmed 0x80200.
Proof.
  cbv zeta. split; [vm_compute; reflexivity|]. split; [vm_compute; reflexivity|]. intros Hg%programmed_granted. by vm_compute in Hg.
Qed.
(** A debugger's read of a granule with bad parity raises the level-7 interrupt
    and overwrites the error address (lisa_mmu.h: side-effect-free). *)
Definition bad_parity : lisa_mmu := set_bad_par_gran 0x4001 (set_parity_detect true programmed).
Lemma debug_read_interrupts : let l := lisa_of (lisa_mmu_debug_read B8 0x20 true (lisa_with bad_parity true)).2 in
  calls l = [NmiCall true] /\ mealtch l = 0x4001.
Proof. vm_compute. auto. Qed.
(** The serial number answers at $FE8000 in user mode, although segment 127 of
    the context is absent: nothing else of that page can be read. *)
Lemma serial_ignores_descriptors : let m := lisa_with programmed false in
  translate programmed false false 0xFE8000 = None /\
  mem_load B16 0xFE8000 m = (0x8000, set_mmu (Some (set_serial_ctr 1 programmed)) (count_slowpath m)) /\
  be_pending (berr (mem_load B16 0xFE8010 m).2) = true.
Proof. vm_compute. auto. Qed.
(** The frame counter starts at frame 0, so that the retrace window of the first
    frame is not seen. *)
Lemma first_retrace_unseen :
  (lisa_status_byte (lisa_mmu_set_clock 10 programmed)).1 = 4 /\
  (lisa_status_byte (lisa_mmu_set_clock (LISA_FRAME_CYCLES + 10) programmed)).1 = 0.
Proof. vm_compute. auto. Qed.
