(* ===== verification/Stdio.v ===== *)
(** * C files, byte order and the I/O monad

    What storage.c and checkpoint.c use of stdio: a file is a list of bytes with
    a position, every transfer may be cut short by an error of the system, and a
    function that returns early with an error leaves its state as it is. *)
From S2P Require Import Prelude.

(** ** The platform

    The widths of [long] (the argument of fseek) and of [size_t]. *)
Class Abi := { long_bits : Z; size_bits : Z }.
Definition lp64 : Abi := {| long_bits := 64; size_bits := 64 |}.
Definition wasm32 : Abi := {| long_bits := 32; size_bits := 32 |}.
Definition usize {A : Abi} (x : Z) : Z := wrap size_bits x.

(** ** Lists indexed by integers *)
Definition zlen {A} (l : list A) : Z := Z.of_nat (length l).
Definition ztake {A} (n : Z) (l : list A) : list A := take (Z.to_nat n) l.
Definition zdrop {A} (n : Z) (l : list A) : list A := drop (Z.to_nat n) l.
Definition zeros (n : Z) : list Z := replicate (Z.to_nat n) 0.

(** ** Little-endian integers *)
Fixpoint le (n : nat) (v : Z) : list Z :=
  match n with O => [] | S n => u8 v :: le n (Z.shiftr v 8) end.
Fixpoint unle (l : list Z) : Z :=
  match l with [] => 0 | b :: l => Z.lor b (Z.shiftl (unle l) 8) end.

(** ** Files *)
Record FILE := mk_FILE { fbytes : list Z; fpos : Z; fappend : bool }.
(** fopen: the three modes that are used; "w+b" starts empty. *)
Definition fopen_rb (l : list Z) : FILE := mk_FILE l 0 false.
Definition fopen_ab (l : list Z) : FILE := mk_FILE l 0 true.

(** What the system makes of one transfer: all of it, or the first [n] bytes. *)
Inductive io_outcome := Done | Short (n : Z).

(** The bytes at [p .. p + n), if the file has them. *)
Definition read_at (f : list Z) (p n : Z) : option (list Z) :=
  if (0 <=? p) && (0 <=? n) && (p + n <=? zlen f) then Some (ztake n (zdrop p f)) else None.
(** A write at [p]: a gap behind the end of the file reads as zeros. *)
Definition write_at (f : list Z) (p : Z) (d : list Z) : list Z :=
  if zlen d =? 0 then f
  else ztake p (f ++ zeros (p - zlen f)) ++ d ++ zdrop (p + zlen d) f.

Definition fread (o : io_outcome) (n : Z) (f : FILE) : option (list Z) * FILE :=
  match o, read_at (fbytes f) (fpos f) n with
  | Done, Some d => (Some d, mk_FILE (fbytes f) (fpos f + n) (fappend f))
  | Done, None => (None, mk_FILE (fbytes f) (Z.max (fpos f) (zlen (fbytes f))) (fappend f))
  | Short k, _ => (None, mk_FILE (fbytes f) (fpos f + Z.min k (Z.max 0 (zlen (fbytes f) - fpos f))) (fappend f))
  end.
Definition fwrite (o : io_outcome) (d : list Z) (f : FILE) : bool * FILE :=
  let p := if fappend f then zlen (fbytes f) else fpos f in
  let sent := match o with Done => d | Short k => ztake k d end in
  (match o with Done => true | Short _ => false end,
   mk_FILE (write_at (fbytes f) p sent) (p + zlen sent) (fappend f)).
(** fseek(f, (long)off, SEEK_SET) with [off] a size_t: an offset that does not
    fit into a long is negative, and a negative offset moves nothing. *)
Definition fseek_set {A : Abi} (off : Z) (f : FILE) : FILE :=
  let l := sx long_bits off in
  if l <? 0 then f else mk_FILE (fbytes f) l (fappend f).
Definition fseek_end (f : FILE) : FILE := mk_FILE (fbytes f) (zlen (fbytes f)) (fappend f).
(** fseek(f, (long)n, SEEK_CUR) for small [n]. *)
Definition fseek_cur (n : Z) (f : FILE) : FILE := mk_FILE (fbytes f) (fpos f + n) (fappend f).
(** ftruncate(fileno(f), 0) *)
Definition ftruncate0 (o : io_outcome) (f : FILE) : bool * FILE :=
  match o with
  | Done => (true, mk_FILE [] (fpos f) (fappend f))
  | Short _ => (false, f)
  end.

(** ** Functions that may return early

    [None] is an early return with an error; the state is what was reached. *)
Definition io (S A : Type) : Type := S -> option A * S.
#[global] Instance io_ret S : MRet (io S) := fun A a s => (Some a, s).
#[global] Instance io_bind S : MBind (io S) := fun A B k m s =>
  match m s with (Some a, s') => k a s' | (None, s') => (None, s') end.
Definition fail {S A} : io S A := fun s => (None, s).
Definition asks {S A} (f : S -> A) : io S A := fun s => (Some (f s), s).
Definition upd {S} (f : S -> S) : io S unit := fun s => (Some tt, f s).
Definition require {S} (b : bool) : io S unit := fun s => (if b then Some tt else None, s).
Definition unless {S} (b : bool) (m : io S unit) : io S unit := if b then mret tt else m.
(** A call whose result is thrown away. *)
Definition ignore {S A} (m : io S A) : io S unit := fun s => (Some tt, (m s).2).
Fixpoint repeat_io {S} (n : nat) (m : io S unit) : io S unit :=
  match n with O => mret tt | Datatypes.S n => m;; repeat_io n m end.

(** ** Lemmas *)
Lemma zlen_app {A} (l1 l2 : list A) : zlen (l1 ++ l2) = zlen l1 + zlen l2.
Proof. unfold zlen. rewrite length_app. lia. Qed.
Lemma zlen_nonneg {A} (l : list A) : 0 <= zlen l.
Proof. unfold zlen. lia. Qed.
Lemma zlen_nil {A} : zlen (@nil A) = 0.
Proof. done. Qed.
Lemma zlen_cons {A} (x : A) l : zlen (x :: l) = 1 + zlen l.
Proof. unfold zlen. cbn. lia. Qed.
Lemma zlen_zeros n : 0 <= n -> zlen (zeros n) = n.
Proof. intros. unfold zlen, zeros. rewrite length_replicate. lia. Qed.
Lemma zlen_ztake {A} n (l : list A) : 0 <= n -> zlen (ztake n l) = Z.min n (zlen l).
Proof. intros. unfold zlen, ztake. rewrite length_take. lia. Qed.
Lemma zlen_zdrop {A} n (l : list A) : 0 <= n -> zlen (zdrop n l) = Z.max 0 (zlen l - n).
Proof. intros. unfold zlen, zdrop. rewrite length_drop. lia. Qed.
Lemma zlen_0 {A} (l : list A) : zlen l = 0 -> l = [].
Proof. unfold zlen. destruct l; [done|cbn; lia]. Qed.
Lemma length_le n v : length (le n v) = n.
Proof. revert v. induction n; intros; cbn; auto. Qed.
Lemma zlen_le n v : zlen (le n v) = Z.of_nat n.
Proof. unfold zlen. by rewrite length_le. Qed.
Lemma ztake_app {A} n (l1 l2 : list A) : n = zlen l1 -> ztake n (l1 ++ l2) = l1.
Proof. intros ->. unfold ztake, zlen. rewrite Nat2Z.id. apply take_app_length. Qed.
Lemma zdrop_app {A} n (l1 l2 : list A) : zlen l1 <= n -> zdrop n (l1 ++ l2) = zdrop (n - zlen l1) l2.
Proof.
  intros Hn. unfold zdrop, zlen in *. rewrite skipn_app, (drop_ge l1) by lia. cbn. f_equal. lia.
Qed.
Lemma zdrop_exact {A} n (l1 l2 : list A) : n = zlen l1 -> zdrop n (l1 ++ l2) = l2.
Proof. intros ->. rewrite zdrop_app, Z.sub_diag by lia. done. Qed.
Lemma zdrop_zdrop {A} n m (l : list A) : 0 <= n -> 0 <= m -> zdrop n (zdrop m l) = zdrop (m + n) l.
Proof. intros. unfold zdrop. rewrite drop_drop. f_equal. lia. Qed.
Create Rewrite HintDb zlen.
#[export] Hint Rewrite @zlen_app @zlen_nil @zlen_cons zlen_le : zlen.
#[export] Hint Rewrite zlen_zeros @zlen_ztake @zlen_zdrop using lia : zlen.
Ltac zlens := autorewrite with zlen in *.

Lemma le_bytes n v : Forall (fun b => 0 <= b < 256) (le n v).
Proof. revert v. induction n; intros; cbn; constructor; auto using u8_range. Qed.
Lemma unle_le n v : unle (le n v) = wrap (8 * Z.of_nat n) v.
Proof.
  revert v. induction n as [|n IH]; intros v.
  { cbn. unfold wrap. rewrite Z.mul_0_r. change (2 ^ 0) with 1. by rewrite Z.mod_1_r. }
  cbn [le unle]. rewrite IH. replace (8 * Z.of_nat (S n)) with (8 + 8 * Z.of_nat n) by lia.
  unfold u8, wrap. rewrite Z.lor_comm, lor_shiftl_add by (try lia; apply Z.mod_pos_bound; lia).
  rewrite Z.shiftr_div_pow2, Z.pow_add_r, Z.rem_mul_r by lia. lia.
Qed.
Lemma unle_le_id n v : in_width (8 * Z.of_nat n) v -> unle (le n v) = v.
Proof. intros. rewrite unle_le. by apply wrap_small. Qed.
Lemma unle_range l : Forall (fun b => 0 <= b < 256) l -> in_width (8 * zlen l) (unle l).
Proof.
  induction 1 as [|b l Hb Hl IH]; [by split|]. cbn [unle]. rewrite zlen_cons, Z.lor_comm.
  rewrite lor_shiftl_add by (done || lia). unfold in_width in *.
  replace (8 * (1 + zlen l)) with (8 + 8 * zlen l) by lia. pose proof (zlen_nonneg l).
  rewrite Z.pow_add_r by lia. nia.
Qed.
Lemma le_unle l : Forall (fun b => 0 <= b < 256) l -> le (length l) (unle l) = l.
Proof.
  induction 1 as [|b l Hb Hl IH]; [done|]. cbn [length le unle].
  rewrite Z.lor_comm, lor_shiftl_add by (done || lia). f_equal.
  - unfold u8, wrap. rewrite Z.add_comm, Z.mod_add by lia. by apply Z.mod_small.
  - rewrite Z.shiftr_div_pow2, Z.div_add_l, (Z.div_small b), Z.add_0_r by lia. done.
Qed.

(** Steps of the monad. *)
Section Steps.
Context {S A B : Type}.
Implicit Types (m : io S A) (k : A -> io S B) (s : S).
Lemma bind_Some m k s a s' : m s = (Some a, s') -> (m ≫= k) s = k a s'.
Proof. intros E. unfold mbind, io_bind. by rewrite E. Qed.
Lemma bind_None m k s s' : m s = (None, s') -> (m ≫= k) s = (None, s').
Proof. intros E. unfold mbind, io_bind. by rewrite E. Qed.
Lemma asks_bind (f : S -> A) k s : (asks f ≫= k) s = k (f s) s.
Proof. done. Qed.
Lemma ret_bind (a : A) k s : (mret a ≫= k) s = k a s.
Proof. done. Qed.
Lemma upd_bind (f : S -> S) (k : unit -> io S B) s : (upd f ≫= k) s = k tt (f s).
Proof. done. Qed.
Lemma require_true (k : unit -> io S B) s b : b = true -> (require b ≫= k) s = k tt s.
Proof. by intros ->. Qed.
Lemma require_false (k : unit -> io S B) s b : b = false -> (require b ≫= k) s = (None, s).
Proof. by intros ->. Qed.
Lemma ignore_bind m (k : unit -> io S B) s r s' : m s = (r, s') -> (ignore m ≫= k) s = k tt s'.
Proof. intros E. unfold mbind, io_bind, ignore. by rewrite E. Qed.
Lemma bind_assoc {C} (m : io S A) (k : A -> io S B) (h : B -> io S C) s :
  ((m ≫= k) ≫= h) s = (m ≫= (fun a => k a ≫= h)) s.
Proof. unfold mbind, io_bind. by destruct (m s) as [[a|] s']. Qed.
End Steps.

Lemma bind_inv {S A B} (m : io S A) (k : A -> io S B) s b s' : (m ≫= k) s = (Some b, s') ->
  exists a s1, m s = (Some a, s1) /\ k a s1 = (Some b, s').
Proof. unfold mbind, io_bind. destruct (m s) as [[a|] s1] eqn:E; [|done]. by exists a, s1. Qed.
(** From a state in [P], a return in [Q] and an early return in [P]. *)
Definition keeps {S A} (P : S -> Prop) (m : io S A) (Q : A -> Prop) : Prop :=
  forall s, P s -> P (m s).2 /\ (forall a, (m s).1 = Some a -> Q a).
Section Keeps.
Context {S A B : Type} (P : S -> Prop).
Lemma keeps_bind (m : io S A) (k : A -> io S B) Q R :
  keeps P m Q -> (forall a, Q a -> keeps P (k a) R) -> keeps P (m ≫= k) R.
Proof.
  intros Hm Hk s Hs. destruct (Hm s Hs) as [H1 H2]. unfold mbind, io_bind. destruct (m s) as [[a|] s1]; [|done].
  cbn [fst snd] in *. apply (Hk a (H2 a eq_refl)), H1.
Qed.
Lemma keeps_ret (a : A) (Q : A -> Prop) : Q a -> keeps P (mret a) Q.
Proof. intros HQ s Hs. split; [done|]. by intros a' [= <-]. Qed.
Lemma keeps_fail Q : keeps P (@fail S A) Q.
Proof. by intros s Hs. Qed.
Lemma keeps_require b : keeps P (require b) (fun _ => b = true).
Proof. intros s Hs. by destruct b. Qed.
Lemma keeps_upd f : (forall s, P s -> P (f s)) -> keeps P (upd f) (fun _ => True).
Proof. intros Hf s Hs. by split; [apply Hf|]. Qed.
Lemma keeps_weaken (m : io S A) (Q R : A -> Prop) : keeps P m Q -> (forall a, Q a -> R a) -> keeps P m R.
Proof. intros Hm HQ s Hs. destruct (Hm s Hs) as [H1 H2]. split; [done|]. eauto. Qed.
End Keeps.

(** Reads and writes of a file. *)
Lemma read_at_Some f p n d : read_at f p n = Some d ->
  0 <= p /\ 0 <= n /\ p + n <= zlen f /\ d = ztake n (zdrop p f) /\ zlen d = n.
Proof.
  unfold read_at. destruct (_ && _) eqn:E; [|done]. intros [= <-].
  rewrite !andb_true_iff, !Z.leb_le in E. destruct E as [[? ?] ?]. split_and!; [lia..|done|]. zlens. lia.
Qed.
Lemma read_at_in f p n : 0 <= p -> 0 <= n -> p + n <= zlen f -> read_at f p n = Some (ztake n (zdrop p f)).
Proof. intros. unfold read_at. zprune. done. Qed.
Lemma read_at_is_Some f p n : 0 <= p -> 0 <= n -> p + n <= zlen f -> is_Some (read_at f p n).
Proof. intros. rewrite read_at_in by done. by eexists. Qed.
Lemma read_at_app f d g : read_at (f ++ d ++ g) (zlen f) (zlen d) = Some d.
Proof.
  pose proof (zlen_nonneg f). pose proof (zlen_nonneg d). pose proof (zlen_nonneg g).
  rewrite read_at_in by (zlens; lia). f_equal. unfold ztake, zdrop, zlen.
  rewrite !Nat2Z.id, drop_app_length. by rewrite take_app_length.
Qed.
Lemma read_at_app_l f g p n : p + n <= zlen f -> read_at (f ++ g) p n = read_at f p n.
Proof.
  intros Hn. unfold read_at. rewrite zlen_app. pose proof (zlen_nonneg g).
  destruct (Z.leb_spec 0 p), (Z.leb_spec 0 n); cbn [andb]; try done. zprune. f_equal.
  unfold ztake, zdrop, zlen in *. rewrite skipn_app, take_app_le; [done|]. rewrite length_drop. lia.
Qed.
Lemma zlen_write_at f p d : 0 <= p -> zlen d <> 0 -> zlen (write_at f p d) = Z.max (zlen f) (p + zlen d).
Proof.
  intros Hp Hd. unfold write_at. destruct (Z.eqb_spec (zlen d) 0); [done|].
  pose proof (zlen_nonneg f). pose proof (zlen_nonneg d).
  rewrite !zlen_app, zlen_ztake, zlen_zdrop, zlen_app by lia.
  destruct (Z.le_gt_cases p (zlen f)).
  - replace (zeros (p - zlen f)) with (@nil Z) by (unfold zeros; by replace (Z.to_nat _) with 0%nat by lia).
    rewrite zlen_nil. lia.
  - rewrite zlen_zeros by lia. lia.
Qed.
Lemma write_at_grows f p d : 0 <= p -> zlen f <= zlen (write_at f p d).
Proof.
  intros Hp. destruct (Z.eq_dec (zlen d) 0) as [E|E].
  - unfold write_at. by rewrite E.
  - rewrite zlen_write_at by done. lia.
Qed.
Lemma read_write_same f p d : 0 <= p -> zlen d <> 0 -> read_at (write_at f p d) p (zlen d) = Some d.
Proof.
  intros Hp Hd. unfold write_at. destruct (Z.eqb_spec (zlen d) 0); [done|].
  set (pre := ztake p _). assert (zlen pre = p) as E; [|pose proof (read_at_app pre d (zdrop (p + zlen d) f)) as Hr; by rewrite E in Hr].
  pose proof (zlen_nonneg f). unfold pre. rewrite zlen_ztake, zlen_app by lia.
  destruct (Z.le_gt_cases p (zlen f)); [pose proof (zlen_nonneg (zeros (p - zlen f))); lia|].
  rewrite zlen_zeros by lia. lia.
Qed.
Lemma write_at_lookup f p d i : 0 <= p -> 0 <= i < zlen f -> ~ (p <= i < p + zlen d) ->
  write_at f p d !! Z.to_nat i = f !! Z.to_nat i.
Proof.
  intros Hp Hi Ho. unfold write_at. destruct (Z.eqb_spec (zlen d) 0) as [|Hd]; [done|]. pose proof (zlen_nonneg d).
  set (pre := ztake p _). assert (length pre = Z.to_nat p) as E.
  { unfold pre, ztake. rewrite length_take, length_app. unfold zeros. rewrite length_replicate. unfold zlen in *. lia. }
  destruct (Z.lt_ge_cases i p) as [Hip|Hip].
  - rewrite lookup_app_l by lia. unfold pre, ztake. rewrite lookup_take_lt by lia.
    by rewrite lookup_app_l by (unfold zlen in *; lia).
  - rewrite lookup_app_r, lookup_app_r by (unfold zlen in *; lia).
    unfold zdrop. rewrite lookup_drop. f_equal. unfold zlen in *. lia.
Qed.
Lemma read_write_other f p d q n : 0 <= p -> 0 <= q -> q + n <= zlen f -> q + n <= p \/ p + zlen d <= q ->
  read_at (write_at f p d) q n = read_at f q n.
Proof.
  intros Hp Hq Hf Ho. destruct (Z.le_gt_cases 0 n) as [Hn|Hn].
  2: { unfold read_at. zprune; by rewrite ?andb_false_r. }
  pose proof (write_at_grows f p d Hp). rewrite !read_at_in by lia. f_equal.
  apply list_eq. intros i. unfold ztake, zdrop. destruct (decide (i < Z.to_nat n)%nat) as [Hi|Hi].
  - rewrite !lookup_take_lt, !lookup_drop by done.
    replace (Z.to_nat q + i)%nat with (Z.to_nat (q + Z.of_nat i)) by lia. apply write_at_lookup; lia.
  - rewrite !lookup_take_ge by lia. done.
Qed.
Lemma write_at_end f d : write_at f (zlen f) d = f ++ d.
Proof.
  unfold write_at. destruct (Z.eqb_spec (zlen d) 0) as [E|E]; [apply zlen_0 in E as ->; by rewrite app_nil_r|].
  unfold zeros. rewrite Z.sub_diag, app_nil_r. unfold ztake, zdrop, zlen. rewrite Nat2Z.id, take_ge by lia.
  by rewrite drop_ge, app_nil_r by lia.
Qed.

(** Two adjacent writes are one. *)
Lemma write_at_adjacent f p a b : 0 <= p -> write_at (write_at f p a) (p + zlen a) b = write_at f p (a ++ b).
Proof.
  intros Hp. pose proof (zlen_nonneg a). pose proof (zlen_nonneg b). pose proof (zlen_nonneg f).
  destruct (Z.eq_dec (zlen a) 0) as [Ea|Ea].
  { apply zlen_0 in Ea as ->. rewrite zlen_nil, Z.add_0_r. done. }
  destruct (Z.eq_dec (zlen b) 0) as [Eb|Eb].
  { apply zlen_0 in Eb as ->. rewrite app_nil_r. done. }
  unfold write_at at 1 3. rewrite zlen_app.
  destruct (Z.eqb_spec (zlen b) 0); [done|]. destruct (Z.eqb_spec (zlen a + zlen b) 0); [lia|].
  pose proof (zlen_write_at f p a Hp Ea) as Hl.
  assert (zeros (p + zlen a - zlen (write_at f p a)) = []) as ->.
  { unfold zeros. by replace (Z.to_nat _) with 0%nat by lia. }
  rewrite app_nil_r. unfold write_at. destruct (Z.eqb_spec (zlen a) 0); [done|].
  set (pre := ztake p _). assert (zlen pre = p) as Ep.
  { unfold pre. rewrite zlen_ztake, zlen_app by lia.
    destruct (Z.le_gt_cases p (zlen f)); [pose proof (zlen_nonneg (zeros (p - zlen f))); lia|].
    rewrite zlen_zeros by lia. lia. }
  rewrite (app_assoc pre), ztake_app by (zlens; lia). rewrite zdrop_app by (zlens; lia).
  rewrite zdrop_zdrop, <-!app_assoc by (zlens; lia). do 4 f_equal. zlens. lia.
Qed.

(** An fseek within the range of long lands where it should. *)
Lemma fseek_set_ok {A : Abi} off f : 0 <= off < 2 ^ (long_bits - 1) -> 0 < long_bits ->
  fseek_set off f = mk_FILE (fbytes f) off (fappend f).
Proof.
  intros Ho Hl. unfold fseek_set. assert (sx long_bits off = off) as ->; [|by destruct (Z.ltb_spec off 0); [lia|]].
  assert (2 ^ long_bits = 2 * 2 ^ (long_bits - 1)) as E by (rewrite <-Z.pow_succ_r by lia; f_equal; lia).
  unfold sx. rewrite wrap_small by (unfold in_width; lia). by destruct (Z.ltb_spec off (2 ^ (long_bits - 1))); [|lia].
Qed.
