(* ===== verification/Rle.v ===== *)
(** * Run-length coding of checkpoint blocks

    rle_encode and rle_decode of src/core/checkpoint.c, with the proofs that
    decoding inverts encoding, how much encoding can add, and that decoding
    stays inside its buffers where a size_t is wider than a count. *)
From S2P Require Import Prelude Stdio.

Definition RLE_COUNT_MAX : Z := 0xFFFFFFFF.

(** The length of the run of [val] at the head of [l], [n] counted so far. *)
Fixpoint count_run (val n : Z) (l : list Z) : Z :=
  match l with
  | x :: l => if (x =? val) && (n <? RLE_COUNT_MAX) then count_run val (n + 1) l else n
  | [] => n
  end.
(** in[i] == in[i+1] == in[i+2] == in[i+3], all inside the input. *)
Definition four_equal (l : list Z) : bool :=
  match l with a :: b :: c :: d :: _ => (a =? b) && (a =? c) && (a =? d) | _ => false end.
Fixpoint count_literals (n : Z) (l : list Z) : Z :=
  match l with
  | [] => n
  | _ :: t => if four_equal l then n else if RLE_COUNT_MAX <=? n + 1 then n + 1 else count_literals (n + 1) t
  end.

(** The next chunk: its bytes and how many bytes of the input it stands for. *)
Definition next_chunk (l : list Z) : list Z * Z :=
  let val := hd 0 l in
  let run_len := count_run val 0 l in
  if 4 <=? run_len then (0x01 :: le 4 run_len ++ [val], run_len)
  else let lit_len := count_literals 0 l in (0x00 :: le 4 lit_len ++ ztake lit_len l, lit_len).
(** [cap]: the capacity of the output, [None] for the dry run.  [None] as the
    result: the output would overflow. *)
Fixpoint rle_loop (fuel : nat) (cap : option Z) (op : Z) (l : list Z) : option (list Z) :=
  match fuel, l with
  | _, [] => Some []
  | O, _ => None
  | S fuel, _ =>
      let '(chunk, used) := next_chunk l in
      if match cap with Some c => c <? op + zlen chunk | None => false end then None
      else out ← rle_loop fuel cap (op + zlen chunk) (zdrop used l); Some (chunk ++ out)
  end.
(** The size returned and the bytes in the output buffer. *)
Definition rle_encode (l : list Z) (cap : option Z) : Z * list Z :=
  match rle_loop (length l) cap 0 l with
  | Some out => (zlen out, match cap with Some _ => out | None => [] end)
  | None => (0, [])
  end.

(** [Overrun]: a copy behind the end of a buffer. *)
Inductive decode_result := Decoded (out : list Z) | Corrupt | Overrun.

Section Decode.
Context `{!Abi}.
(** [rest] is the input from [ip] on, [out] the output before [op]. *)
Fixpoint rle_decode_loop (fuel : nat) (in_size out_size : Z) (rest out : list Z) : decode_result :=
  let op := zlen out in
  match fuel, rest with
  | S fuel, marker :: rest =>
      if out_size <=? op then (if op =? out_size then Decoded out else Corrupt) else
      let ip := in_size - zlen rest in
      if in_size <? usize (ip + 4) then Corrupt else
      let count := unle (ztake 4 rest) in
      let rest := zdrop 4 rest in
      let ip := ip + 4 in
      if marker =? 0x01 then
        match rest with
        | [] => Corrupt
        | val :: rest =>
            if out_size <? usize (op + count) then Corrupt
            else if out_size <? op + count then Overrun
            else rle_decode_loop fuel in_size out_size rest (out ++ replicate (Z.to_nat count) val)
        end
      else if marker =? 0x00 then
        if in_size <? usize (ip + count) then Corrupt
        else if out_size <? usize (op + count) then Corrupt
        else if (in_size <? ip + count) || (out_size <? op + count) then Overrun
        else rle_decode_loop fuel in_size out_size (zdrop count rest) (out ++ ztake count rest)
      else Corrupt
  | _, _ => if op =? out_size then Decoded out else Corrupt
  end.
Definition rle_decode (inp : list Z) (out_size : Z) : decode_result :=
  rle_decode_loop (length inp) (zlen inp) out_size inp [].
End Decode.

(** ** One chunk *)
Lemma count_run_spec val l : forall n, 0 <= n ->
  n <= count_run val n l <= n + zlen l /\ count_run val n l <= Z.max n RLE_COUNT_MAX /\
  ztake (count_run val n l - n) l = replicate (Z.to_nat (count_run val n l - n)) val.
Proof.
  induction l as [|x l IH]; intros n Hn; cbn [count_run].
  { rewrite zlen_nil. split_and!; [lia..|]. by rewrite Z.sub_diag. }
  rewrite zlen_cons. pose proof (zlen_nonneg l).
  destruct (Z.eqb_spec x val) as [->|]; cbn [andb]; [|split_and!; [lia..|by rewrite Z.sub_diag]].
  destruct (Z.ltb_spec n RLE_COUNT_MAX); [|split_and!; [lia..|by rewrite Z.sub_diag]].
  destruct (IH (n + 1) ltac:(lia)) as (Hr & Hm & Ht). set (k := count_run val (n + 1) l) in *. split_and!; [lia..|].
  unfold ztake in *. replace (Z.to_nat (k - n)) with (S (Z.to_nat (k - (n + 1)))) by lia. cbn. by rewrite Ht.
Qed.
Lemma count_literals_spec l : forall n, 0 <= n < RLE_COUNT_MAX ->
  n <= count_literals n l <= n + zlen l /\ count_literals n l <= RLE_COUNT_MAX.
Proof.
  induction l as [|x l IH]; intros n Hn; cbn [count_literals]; [rewrite zlen_nil; lia|].
  rewrite zlen_cons. pose proof (zlen_nonneg l). destruct (four_equal _); [lia|].
  destruct (Z.leb_spec RLE_COUNT_MAX (n + 1)); [lia|]. destruct (IH (n + 1) ltac:(lia)). lia.
Qed.
(** A run is shorter than four exactly where the literals do not stop at once. *)
Lemma count_run_four val l n : 0 <= n -> n + 4 <= RLE_COUNT_MAX ->
  (n + 4 <=? count_run val n (val :: l)) = four_equal (val :: l).
Proof.
  intros Hn Hm. pose proof (zlen_nonneg l).
  cbn [count_run four_equal]. rewrite Z.eqb_refl. destruct (Z.ltb_spec n RLE_COUNT_MAX); [|lia]. cbn [andb].
  destruct l as [|b l]; cbn [count_run]; [lia|]. rewrite (Z.eqb_sym b).
  destruct (Z.eqb_spec val b) as [<-|]; cbn [andb]; [|destruct l as [|c [|]]; lia].
  destruct (Z.ltb_spec (n + 1) RLE_COUNT_MAX); [|lia].
  destruct l as [|c l]; cbn [count_run]; [lia|]. rewrite (Z.eqb_sym c).
  destruct (Z.eqb_spec val c) as [<-|]; cbn [andb]; [|destruct l; lia].
  destruct (Z.ltb_spec (n + 1 + 1) RLE_COUNT_MAX); [|lia].
  destruct l as [|d l]; cbn [count_run]; [lia|]. rewrite (Z.eqb_sym d).
  destruct (Z.eqb_spec val d) as [<-|]; cbn [andb]; [|lia].
  destruct (Z.ltb_spec (n + 1 + 1 + 1) RLE_COUNT_MAX); [|lia].
  pose proof (count_run_spec val l (n + 1 + 1 + 1 + 1) ltac:(lia)) as [? _]. lia.
Qed.

(** What a chunk stands for: the next [k] bytes of the input, at least one. *)
Inductive chunk_of (l : list Z) : list Z -> Z -> Prop :=
  | run_chunk k : 4 <= k <= zlen l -> k <= RLE_COUNT_MAX ->
      ztake k l = replicate (Z.to_nat k) (hd 0 l) -> chunk_of l (0x01 :: le 4 k ++ [hd 0 l]) k
  | literal_chunk k : 1 <= k <= zlen l -> k <= RLE_COUNT_MAX -> four_equal l = false ->
      k = count_literals 0 l -> chunk_of l (0x00 :: le 4 k ++ ztake k l) k.
Lemma next_chunk_ok l : l <> [] -> chunk_of l (next_chunk l).1 (next_chunk l).2.
Proof.
  destruct l as [|x l]; [done|]. intros _. unfold next_chunk. cbn [hd].
  pose proof (count_run_four x l 0 ltac:(lia) ltac:(by unfold RLE_COUNT_MAX)) as Hf. rewrite Z.add_0_l in Hf.
  pose proof (count_run_spec x (x :: l) 0 ltac:(lia)) as (Hr & Hm & Ht). rewrite Z.sub_0_r in Ht.
  destruct (Z.leb_spec 4 (count_run x 0 (x :: l))); cbn [fst snd].
  - apply (run_chunk (x :: l)); [lia| |done]. unfold RLE_COUNT_MAX in *. lia.
  - pose proof (count_literals_spec (x :: l) 0 ltac:(by split)) as [Hl Hm'].
    apply (literal_chunk (x :: l)); [|done..]. split; [|lia].
    cbn [count_literals]. rewrite <-Hf. destruct (Z.leb_spec RLE_COUNT_MAX (0 + 1)) as [Hc|_]; [by unfold RLE_COUNT_MAX in Hc|].
    pose proof (count_literals_spec l (0 + 1) ltac:(by split)) as [? _]. cbv iota. lia.
Qed.
Lemma chunk_progress l c k : chunk_of l c k -> 1 <= k <= zlen l /\ 1 <= zlen c.
Proof. pose proof (zlen_nonneg l). destruct 1; (split; [lia|]); rewrite zlen_cons; match goal with |- context [zlen ?x] => pose proof (zlen_nonneg x) end; lia. Qed.

(** ** The encoder ends, and its capacity is only a check *)
Lemma rle_loop_total fuel : forall op l, (length l <= fuel)%nat -> is_Some (rle_loop fuel None op l).
Proof.
  induction fuel as [|fuel IH]; intros op l Hl; [destruct l; [by eexists|cbn in Hl; lia]|].
  destruct l as [|x l]; [by eexists|]. pose proof (next_chunk_ok (x :: l) ltac:(done)) as Hc.
  cbn [rle_loop]. destruct (next_chunk (x :: l)) as [c k]. cbn [fst snd] in Hc. apply chunk_progress in Hc as [Hk _].
  destruct (IH (op + zlen c) (zdrop k (x :: l))) as [out ->]; [|by eexists].
  unfold zdrop. rewrite length_drop. unfold zlen in Hk. lia.
Qed.
Lemma rle_loop_cap fuel : forall op cap l out, rle_loop fuel None op l = Some out ->
  rle_loop fuel (Some cap) op l = if cap <? op + zlen out then (if zlen out =? 0 then Some [] else None) else Some out.
Proof.
  induction fuel as [|fuel IH]; intros op cap l out; destruct l as [|x l]; cbn [rle_loop]; try done.
  - intros [= <-]. by destruct (_ <? _).
  - intros [= <-]. by destruct (_ <? _).
  - pose proof (next_chunk_ok (x :: l) ltac:(done)) as Hc. destruct (next_chunk (x :: l)) as [c k].
    cbn [fst snd] in Hc. apply chunk_progress in Hc as [_ Hz].
    destruct (rle_loop fuel None (op + zlen c) (zdrop k (x :: l))) as [out'|] eqn:E; [|done].
    cbn [mbind option_bind]. intros [= <-]. pose proof (zlen_nonneg out'). rewrite zlen_app, (IH _ cap _ _ E).
    destruct (Z.ltb_spec cap (op + zlen c)), (Z.ltb_spec cap (op + (zlen c + zlen out'))),
      (Z.ltb_spec cap (op + zlen c + zlen out')), (Z.eqb_spec (zlen c + zlen out') 0); try lia; try done.
    destruct (Z.eqb_spec (zlen out') 0); [lia|done].
Qed.
(** The coded form of a block. *)
Definition rle_bytes (l : list Z) : list Z := default [] (rle_loop (length l) None 0 l).
Lemma rle_bytes_loop l : rle_loop (length l) None 0 l = Some (rle_bytes l).
Proof. unfold rle_bytes. destruct (rle_loop_total (length l) 0 l ltac:(lia)) as [out ->]. done. Qed.
(** The dry run gives the size the second run fills. *)
Lemma rle_encode_two_pass l :
  rle_encode l None = (zlen (rle_bytes l), []) /\
  rle_encode l (Some (zlen (rle_bytes l))) = (zlen (rle_bytes l), rle_bytes l).
Proof.
  unfold rle_encode. rewrite rle_bytes_loop. split; [done|].
  rewrite (rle_loop_cap _ _ _ _ _ (rle_bytes_loop l)). destruct (Z.ltb_spec (zlen (rle_bytes l)) (0 + zlen (rle_bytes l))); [lia|done].
Qed.

(** ** Decoding *)
Section Roundtrip.
Context `{!Abi}.
Lemma usize_id x : 0 <= x < 2 ^ size_bits -> usize x = x.
Proof. apply wrap_small. Qed.
Lemma replicate_hd l k : 1 <= k -> ztake k l = replicate (Z.to_nat k) (hd 0 l) -> l = replicate (Z.to_nat k) (hd 0 l) ++ zdrop k l.
Proof. intros Hk E. rewrite <-E. unfold ztake, zdrop. by rewrite take_drop. Qed.

Lemma decode_run fuel N M k v rest out : 0 <= k < 2 ^ 32 -> N < 2 ^ size_bits -> M < 2 ^ size_bits ->
  0 <= N - zlen rest - 6 -> zlen out + k <= M -> zlen out < M ->
  rle_decode_loop (S fuel) N M (0x01 :: le 4 k ++ v :: rest) out
  = rle_decode_loop fuel N M rest (out ++ replicate (Z.to_nat k) v).
Proof.
  intros Hk HN HM Hip Ho Hlt. cbn [rle_decode_loop]. pose proof (zlen_nonneg rest). pose proof (zlen_nonneg out).
  destruct (Z.leb_spec M (zlen out)); [lia|]. rewrite zlen_app, zlen_le, zlen_cons.
  rewrite usize_id by lia. destruct (Z.ltb_spec N (N - (Z.of_nat 4 + (1 + zlen rest)) + 4)); [lia|].
  rewrite ztake_app by done. rewrite unle_le_id by done. change (0x01 =? 0x01) with true. cbv iota.
  rewrite zdrop_app, zlen_le by (rewrite zlen_le; lia). change (zdrop (4 - Z.of_nat 4) (v :: rest)) with (v :: rest). cbv iota.
  rewrite usize_id by lia. destruct (Z.ltb_spec M (zlen out + k)); [lia|]. done.
Qed.
Lemma decode_literals fuel N M d rest out : zlen d < 2 ^ 32 -> N < 2 ^ size_bits -> M < 2 ^ size_bits ->
  0 <= N - zlen rest - zlen d - 5 -> zlen out + zlen d <= M -> zlen out < M ->
  rle_decode_loop (S fuel) N M (0x00 :: le 4 (zlen d) ++ d ++ rest) out = rle_decode_loop fuel N M rest (out ++ d).
Proof.
  intros Hk HN HM Hip Ho Hlt. cbn [rle_decode_loop]. pose proof (zlen_nonneg rest). pose proof (zlen_nonneg out). pose proof (zlen_nonneg d).
  destruct (Z.leb_spec M (zlen out)); [lia|]. rewrite !zlen_app, zlen_le.
  rewrite usize_id by lia. destruct (Z.ltb_spec N (N - (Z.of_nat 4 + (zlen d + zlen rest)) + 4)); [lia|].
  rewrite ztake_app by done. rewrite unle_le_id by (by split). change (0x00 =? 0x01) with false. change (0x00 =? 0x00) with true. cbv iota.
  rewrite !(zdrop_app 4), !zlen_le by (rewrite zlen_le; lia). change (zdrop (4 - Z.of_nat 4) (d ++ rest)) with (d ++ rest).
  rewrite !usize_id by lia. destruct (Z.ltb_spec N (N - (Z.of_nat 4 + (zlen d + zlen rest)) + 4 + zlen d)); [lia|].
  destruct (Z.ltb_spec M (zlen out + zlen d)); [lia|]. cbn [orb].
  rewrite ztake_app, zdrop_app by (done || lia). by rewrite Z.sub_diag.
Qed.

Lemma decode_loop_ok fuel : forall op l enc, rle_loop fuel None op l = Some enc -> forall dfuel N out,
  (length enc <= dfuel)%nat -> zlen enc <= N < 2 ^ size_bits -> zlen out + zlen l < 2 ^ size_bits ->
  rle_decode_loop dfuel N (zlen out + zlen l) enc out = Decoded (out ++ l).
Proof.
  induction fuel as [|fuel IH]; intros op l enc; destruct l as [|x l]; cbn [rle_loop]; try done.
  1,2: intros [= <-] dfuel N out _ _ _; rewrite zlen_nil, Z.add_0_r, app_nil_r; destruct dfuel; cbn; by rewrite Z.eqb_refl.
  pose proof (next_chunk_ok (x :: l) ltac:(done)) as Hc. destruct (next_chunk (x :: l)) as [c k]. cbn [fst snd] in Hc.
  destruct (rle_loop fuel None _ _) as [enc'|] eqn:E; [|done]. cbn [mbind option_bind]. intros [= <-].
  intros dfuel N out Hf HN HM. pose proof (chunk_progress _ _ _ Hc) as [Hk _]. set (L := x :: l) in *.
  assert (zlen (zdrop k L) = zlen L - k) as Hd by (rewrite zlen_zdrop by lia; lia).
  pose proof (zlen_nonneg enc'). pose proof (zlen_nonneg out). pose proof (zlen_nonneg (zdrop k L)).
  destruct dfuel as [|dfuel]; [rewrite length_app in Hf; inversion Hc; subst c; cbn in Hf; lia|].
  inversion Hc as [k' Hk4 Hmax Ht|k' Hk1 Hmax Hfe Ek]; subst c k'; unfold RLE_COUNT_MAX in Hmax.
  - rewrite <-app_comm_cons, <-app_assoc. cbn [app]. rewrite zlen_app, zlen_cons, zlen_app, zlen_le, zlen_cons, zlen_nil in HN.
    rewrite decode_run; [|pow2; lia|lia|lia|lia|lia|lia].
    assert (zlen (replicate (Z.to_nat k) (hd 0 L)) = k) as Hrk by (unfold zlen; rewrite length_replicate; lia).
    assert (zlen out + zlen L = zlen (out ++ replicate (Z.to_nat k) (hd 0 L)) + zlen (zdrop k L)) as -> by (rewrite zlen_app; lia).
    rewrite (IH _ _ _ E).
    + rewrite <-app_assoc, <-(replicate_hd L k) by (done || lia). done.
    + rewrite length_app in Hf. cbn in Hf. lia.
    + lia.
    + rewrite zlen_app. lia.
  - assert (zlen (ztake k L) = k) as Htk by (rewrite zlen_ztake by lia; lia).
    rewrite <-app_comm_cons, <-app_assoc. rewrite zlen_app, zlen_cons, zlen_app, zlen_le, Htk in HN.
    pose proof (decode_literals dfuel N (zlen out + zlen L) (ztake k L) enc' out) as Hdl. rewrite Htk in Hdl.
    rewrite Hdl; [|pow2; lia|lia|lia|lia|lia|lia].
    assert (zlen out + zlen L = zlen (out ++ ztake k L) + zlen (zdrop k L)) as -> by (rewrite zlen_app, Htk; lia).
    rewrite (IH _ _ _ E).
    + rewrite <-app_assoc. unfold ztake, zdrop. by rewrite take_drop.
    + rewrite length_app in Hf. cbn in Hf. lia.
    + lia.
    + rewrite zlen_app, Htk. lia.
Qed.
Lemma rle_roundtrip l : zlen l < 2 ^ size_bits -> zlen (rle_bytes l) < 2 ^ size_bits ->
  rle_decode (rle_bytes l) (zlen l) = Decoded l.
Proof.
  intros Hl Hb. unfold rle_decode.
  apply (decode_loop_ok _ _ _ _ (rle_bytes_loop l) (length (rle_bytes l)) (zlen (rle_bytes l)) []); [lia|lia|by rewrite zlen_nil].
Qed.
End Roundtrip.

(** ** How much the code can add *)
(** Literals end at a run of four or at the end of the input. *)
Lemma count_literals_stop l : forall n, 0 <= n -> n + zlen l < RLE_COUNT_MAX ->
  let k := count_literals n l in zdrop (k - n) l = [] \/ four_equal (zdrop (k - n) l) = true.
Proof.
  induction l as [|x l IH]; intros n Hn Hl; [left; apply drop_nil|]. rewrite zlen_cons in Hl. pose proof (zlen_nonneg l).
  cbn [count_literals]. destruct (four_equal (x :: l)) eqn:E; [right; by rewrite Z.sub_diag|].
  destruct (Z.leb_spec RLE_COUNT_MAX (n + 1)); [lia|].
  pose proof (count_literals_spec l (n + 1) ltac:(lia)) as [Hr _]. specialize (IH (n + 1) ltac:(lia) ltac:(lia)). cbn zeta in *.
  set (k := count_literals (n + 1) l) in *.
  assert (zdrop (k - n) (x :: l) = zdrop (k - (n + 1)) l) as ->; [|done].
  unfold zdrop. replace (Z.to_nat (k - n)) with (S (Z.to_nat (k - (n + 1)))) by lia. done.
Qed.
Lemma rle_loop_bound fuel : forall op l out, zlen l < RLE_COUNT_MAX -> rle_loop fuel None op l = Some out ->
  5 * zlen out <= 12 * zlen l + 18 /\ (l = [] \/ four_equal l = true -> 5 * zlen out <= 12 * zlen l).
Proof.
  induction fuel as [|fuel IH]; intros op l out Hl; destruct l as [|x l]; cbn [rle_loop]; try done.
  1,2: intros [= <-]; change (zlen (@nil Z)) with 0; lia.
  pose proof (next_chunk_ok (x :: l) ltac:(done)) as Hc. destruct (next_chunk (x :: l)) as [c k]. cbn [fst snd] in Hc.
  destruct (rle_loop fuel None _ _) as [enc'|] eqn:E; [|done]. cbn [mbind option_bind]. intros [= <-].
  pose proof (chunk_progress _ _ _ Hc) as [Hk _]. set (L := x :: l) in *.
  assert (zlen (zdrop k L) = zlen L - k) as Hd by (rewrite zlen_zdrop by lia; lia).
  assert (zlen (zdrop k L) < RLE_COUNT_MAX) as Hsm by lia. destruct (IH _ _ _ Hsm E) as [Hany Hrun]. rewrite zlen_app.
  inversion Hc as [k' Hk4 Hmax Ht|k' Hk1 Hmax Hfe Ek]; subst c k'.
  - rewrite zlen_cons, zlen_app, zlen_le, zlen_cons, zlen_nil. lia.
  - rewrite zlen_cons, zlen_app, zlen_le, zlen_ztake by lia.
    pose proof (count_literals_stop L 0 ltac:(lia) ltac:(lia)) as Hs. cbn zeta in Hs. rewrite Z.sub_0_r, <-Ek in Hs.
    specialize (Hrun Hs). split; [lia|]. intros [|Hf]; [done|congruence].
Qed.
Lemma rle_bytes_bound l : zlen l < RLE_COUNT_MAX -> 5 * zlen (rle_bytes l) <= 12 * zlen l + 18.
Proof. intros Hl. apply (rle_loop_bound _ _ _ _ Hl (rle_bytes_loop l)). Qed.

(** ** Decoding any input *)
Definition is_byte_list (l : list Z) : Prop := Forall (fun b => 0 <= b < 256) l.
Section Safe.
Context `{!Abi}.
Lemma unle4_range rest : is_byte_list rest -> 0 <= unle (ztake 4 rest) < 2 ^ 32.
Proof.
  intros Hb. assert (is_byte_list (ztake 4 rest)) as Ht by (by apply list.Forall_take).
  pose proof (unle_range _ Ht) as [H0 H1]. split; [done|]. eapply Z.lt_le_trans; [exact H1|].
  apply Z.pow_le_mono_r; [lia|]. rewrite zlen_ztake by lia. lia.
Qed.
Lemma decode_loop_safe fuel : forall N M rest out, is_byte_list rest ->
  zlen rest <= N -> N + 2 ^ 32 <= 2 ^ size_bits -> M + 2 ^ 32 <= 2 ^ size_bits -> zlen out <= M ->
  match rle_decode_loop fuel N M rest out with
  | Decoded o => zlen o = M
  | Corrupt => True
  | Overrun => False
  end.
Proof.
  induction fuel as [|fuel IH]; intros N M rest out Hb Hr HN HM Ho; pose proof (zlen_nonneg out);
    pose proof (zlen_nonneg rest); cbn [rle_decode_loop]; [by destruct (Z.eqb_spec (zlen out) M)|].
  destruct rest as [|marker rest]; [by destruct (Z.eqb_spec (zlen out) M)|].
  destruct (Z.leb_spec M (zlen out)); [by destruct (Z.eqb_spec (zlen out) M)|].
  apply list.Forall_cons in Hb as [_ Hb]. rewrite zlen_cons in Hr. pose proof (zlen_nonneg rest).
  rewrite (usize_id (N - zlen rest + 4)) by lia. destruct (Z.ltb_spec N (N - zlen rest + 4)); [done|].
  pose proof (unle4_range rest Hb) as Hc. set (count := unle (ztake 4 rest)) in *.
  assert (is_byte_list (zdrop 4 rest)) as Hb4 by (by apply list.Forall_drop).
  assert (zlen (zdrop 4 rest) = zlen rest - 4) as Hl4 by (rewrite zlen_zdrop by lia; lia).
  destruct (Z.eqb_spec marker 1).
  - destruct (zdrop 4 rest) as [|v r] eqn:E4; [done|]. rewrite usize_id by lia.
    destruct (Z.ltb_spec M (zlen out + count)); [done|]. apply list.Forall_cons in Hb4 as [_ Hb4]. rewrite zlen_cons in Hl4.
    apply IH; [done|lia|done|done|]. rewrite zlen_app. unfold zlen at 2. rewrite length_replicate. lia.
  - destruct (Z.eqb_spec marker 0); [|done]. rewrite !usize_id by lia.
    destruct (Z.ltb_spec N (N - zlen rest + 4 + count)); [done|]. destruct (Z.ltb_spec M (zlen out + count)); [done|]. cbn [orb].
    apply IH; [by apply list.Forall_drop| |done|done|].
    + rewrite zlen_zdrop by lia. lia.
    + rewrite zlen_app, zlen_ztake by lia. lia.
Qed.
Lemma rle_decode_safe inp M : is_byte_list inp -> 0 <= M -> zlen inp + 2 ^ 32 <= 2 ^ size_bits -> M + 2 ^ 32 <= 2 ^ size_bits ->
  match rle_decode inp M with Decoded o => zlen o = M | Corrupt => True | Overrun => False end.
Proof. intros. apply decode_loop_safe; try done. Qed.
End Safe.

(** With a 32-bit size_t the test of a count can wrap around: a run of one byte
    and one of 2^32 - 1 bytes pass it for a buffer of eight. *)
Lemma rle_decode_overruns_32bit :
  @rle_decode wasm32 [1; 1; 0; 0; 0; 7; 1; 255; 255; 255; 255; 7] 8 = Overrun.
Proof. reflexivity. Qed.
