(* ===== verification/Checkpoint.v ===== *)
(** * Checkpoint files

    Model of src/core/checkpoint.c.  A quick checkpoint (format v3) collects its
    blocks in a buffer that is written when it is closed; a consolidated one
    (format v2) writes each block to its file, with the place in the sources it
    came from, run-length coded from 64 bytes on.  The identifier of the build
    and the files of the host are parameters.  Memory allocation is taken to
    succeed; a copy behind the end of a buffer sets [cp_overrun]. *)
From S2P Require Import Prelude Stdio Rle.

Definition CHECKPOINT_MAGIC_V2 : list Z := [0x47; 0x53; 0x43; 0x48; 0x4B; 0x50; 0x54; 0x32]. (* GSCHKPT2 *)
Definition CHECKPOINT_MAGIC_V3 : list Z := [0x47; 0x53; 0x43; 0x48; 0x4B; 0x50; 0x54; 0x33]. (* GSCHKPT3 *)
Definition CHECKPOINT_MAGIC_LEN : Z := 8.
Definition RLE_THRESHOLD : Z := 64.
Definition MODEL_ID_LEN : Z := 16.
Definition CHECKPOINT_MAX_ALLOC : Z := 256 * 1024 * 1024.
Definition BUILD_ID_LEN : Z := 20.
Definition CHUNK : Z := 8192.

Inductive checkpoint_kind := CHECKPOINT_KIND_QUICK | CHECKPOINT_KIND_CONSOLIDATED.
#[global] Instance checkpoint_kind_eq_dec : EqDecision checkpoint_kind.
Proof. solve_decision. Defined.

(** struct checkpoint.  [cp_buf] is the buffer up to buf_used; its capacity and
    its owner are not observable. *)
Record checkpoint := mk_checkpoint {
  cp_file : FILE;
  cp_writing : bool;
  cp_error : bool;
  cp_kind : checkpoint_kind;
  cp_buf : option (list Z);
  cp_pos : Z;
  cp_model_id : list Z;
  cp_ram_size_kb : Z;
  cp_overrun : bool;
  cp_faults : list io_outcome;
}.
Definition checkpoint_eta (c : checkpoint) : checkpoint :=
  mk_checkpoint (cp_file c) (cp_writing c) (cp_error c) (cp_kind c) (cp_buf c) (cp_pos c) (cp_model_id c)
    (cp_ram_size_kb c) (cp_overrun c) (cp_faults c).
Ltac cp_set proj x c := field_set checkpoint_eta proj x c.
Definition set_cp_file (x : FILE) (c : checkpoint) : checkpoint := ltac:(cp_set cp_file x c).
Definition set_cp_error (x : bool) (c : checkpoint) : checkpoint := ltac:(cp_set cp_error x c).
Definition set_cp_buf (x : option (list Z)) (c : checkpoint) : checkpoint := ltac:(cp_set cp_buf x c).
Definition set_cp_pos (x : Z) (c : checkpoint) : checkpoint := ltac:(cp_set cp_pos x c).
Definition set_cp_overrun (x : bool) (c : checkpoint) : checkpoint := ltac:(cp_set cp_overrun x c).
Definition set_cp_faults (x : list io_outcome) (c : checkpoint) : checkpoint := ltac:(cp_set cp_faults x c).

Definition checkpoint_has_error (c : checkpoint) : bool := cp_error c.
Definition checkpoint_set_error (c : checkpoint) : checkpoint := set_cp_error true c.
Definition checkpoint_get_kind (c : checkpoint) : checkpoint_kind := cp_kind c.
Definition checkpoint_get_model_id (c : checkpoint) : list Z := cp_model_id c.
Definition checkpoint_get_ram_size_kb (c : checkpoint) : Z := cp_ram_size_kb c.

Section Format.
Context `{!Abi}.
(** get_build_id(), and the files of the host by path. *)
Variable build_id : list Z.
Variable host_file : list Z -> option (list Z).

(** ** Transfers *)
Definition cp_outcome (c : checkpoint) : io_outcome := match cp_faults c with o :: _ => o | [] => Done end.
Definition cp_next (c : checkpoint) : checkpoint := set_cp_faults (tail (cp_faults c)) c.
Definition cp_read (n : Z) : io checkpoint (list Z) := fun c =>
  let '(d, f) := fread (cp_outcome c) n (cp_file c) in (d, set_cp_file f (cp_next c)).
Definition cp_write (d : list Z) : io checkpoint unit := fun c =>
  let '(ok, f) := fwrite (cp_outcome c) d (cp_file c) in
  (if ok then Some tt else None, set_cp_file f (cp_next c)).
(** An early return that sets the error flag. *)
Definition flagged {A} (m : io checkpoint A) : io checkpoint A := fun c =>
  match m c with (None, c) => (None, checkpoint_set_error c) | r => r end.

Definition buf_append (d : list Z) (c : checkpoint) : checkpoint :=
  match cp_buf c with Some b => set_cp_buf (Some (b ++ d)) c | None => c end.
Definition buf_read (n : Z) : io checkpoint (list Z) := fun c =>
  match cp_buf c with
  | Some b =>
      if zlen b <? usize (cp_pos c + n) then (None, checkpoint_set_error c)
      else if zlen b <? cp_pos c + n then (None, set_cp_overrun true c)
      else (Some (ztake n (zdrop (cp_pos c) b)), set_cp_pos (usize (cp_pos c + n)) c)
  | None => (None, c)
  end.
(** The decoder's verdict. *)
Definition decoded (r : decode_result) : io checkpoint (list Z) :=
  match r with
  | Decoded d => mret d
  | Corrupt => fail
  | Overrun => upd (set_cp_overrun true);; fail
  end.

(** ** Blocks *)
Definition v2_place (file : list Z) (line : Z) : io checkpoint unit :=
  cp_write (le 4 (u32 (zlen file)));;
  unless (zlen file =? 0) (cp_write file);;
  cp_write (le 4 (u32 line)).
Definition v2_write_data (data file : list Z) (line : Z) : io checkpoint unit :=
  cp_write (le 8 (zlen data));;
  v2_place file line;;
  if zlen data <? RLE_THRESHOLD then
    cp_write [0x00];; cp_write data
  else
    let comp_size := (rle_encode data None).1 in
    let comp_buf := (rle_encode data (Some comp_size)).2 in
    cp_write [0x01];; cp_write (le 8 comp_size);; cp_write comp_buf.
Definition system_write_checkpoint_data_loc (data file : list Z) (line : Z) (c : checkpoint) : checkpoint :=
  if cp_error c || negb (cp_writing c) then checkpoint_set_error c
  else match cp_buf c with
       | Some _ => buf_append data (buf_append (le 4 (u32 (zlen data))) c)
       | None => (flagged (v2_write_data data file line) c).2
       end.

Definition v2_skip_place : io checkpoint unit :=
  fname_len ← cp_read 4;
  unless (unle fname_len =? 0) (cp_read (unle fname_len);; mret tt);;
  cp_read 4;; mret tt.
Definition v2_read_data (size : Z) : io checkpoint (list Z) :=
  stored ← cp_read 8;
  v2_skip_place;;
  require (negb ((2 ^ size_bits - 1 <? unle stored) || negb (size =? unle stored)));;
  flag ← cp_read 1;
  if unle flag =? 0x00 then cp_read size
  else if unle flag =? 0x01 then
    comp_size ← cp_read 8;
    require (negb (CHECKPOINT_MAX_ALLOC <? unle comp_size));;
    comp_buf ← cp_read (unle comp_size);
    decoded (rle_decode comp_buf size)
  else fail.
Definition v3_read_data (size : Z) : io checkpoint (list Z) :=
  stored ← buf_read 4;
  if negb (unle stored =? size) then flagged fail
  else buf_read size.
(** The bytes stored in the caller's buffer; after an error they are not used. *)
Definition system_read_checkpoint_data_loc (size : Z) (c : checkpoint) : option (list Z) * checkpoint :=
  if cp_error c || cp_writing c then (None, checkpoint_set_error c)
  else match cp_buf c with
       | Some _ => v3_read_data size c
       | None => flagged (v2_read_data size) c
       end.

(** ** Opening and closing *)
Definition checkpoint_open_read (contents : list Z) (o : list io_outcome) : option unit * checkpoint :=
  let c0 := mk_checkpoint (fopen_rb contents) false false CHECKPOINT_KIND_CONSOLIDATED None 0 (zeros MODEL_ID_LEN) 0 false o in
  let header : io checkpoint unit :=
    id ← cp_read BUILD_ID_LEN;
    require (bool_decide (id = build_id));;
    model ← cp_read MODEL_ID_LEN;
    ram ← cp_read 4;
    upd (fun c => mk_checkpoint (cp_file c) false false (cp_kind c) None 0 (ztake (MODEL_ID_LEN - 1) model ++ [0]) (unle ram)
                    (cp_overrun c) (cp_faults c)) in
  (magic ← cp_read CHECKPOINT_MAGIC_LEN;
   if bool_decide (magic = CHECKPOINT_MAGIC_V3) then
     (header;;
     uncompressed ← cp_read 8;
     compressed ← cp_read 8;
     require (negb ((CHECKPOINT_MAX_ALLOC <? unle compressed) || (CHECKPOINT_MAX_ALLOC <? unle uncompressed)));;
     comp_buf ← cp_read (unle compressed);
     payload ← (if unle compressed =? unle uncompressed then mret comp_buf
                else decoded (rle_decode comp_buf (unle uncompressed)));
     upd (fun c => mk_checkpoint (cp_file c) false false CHECKPOINT_KIND_QUICK (Some payload) 0 (cp_model_id c)
                     (cp_ram_size_kb c) (cp_overrun c) (cp_faults c)))
   else if bool_decide (magic = CHECKPOINT_MAGIC_V2) then header
   else fail) c0.

Definition checkpoint_open_write (kind : checkpoint_kind) (model_id : list Z) (ram_size_kb : Z) (o : list io_outcome)
    : option unit * checkpoint :=
  let id := ztake (MODEL_ID_LEN - 1) model_id in
  let id := id ++ zeros (MODEL_ID_LEN - zlen id) in
  let c buf := mk_checkpoint (fopen_rb []) true false kind buf 0 id ram_size_kb false o in
  match kind with
  | CHECKPOINT_KIND_QUICK => (Some tt, c (Some []))
  | CHECKPOINT_KIND_CONSOLIDATED =>
      (cp_write CHECKPOINT_MAGIC_V2;; cp_write build_id;; cp_write id;; cp_write (le 4 ram_size_kb)) (c None)
  end.

(** The contents of the file once it is closed. *)
Definition checkpoint_close (c : checkpoint) : list Z :=
  match cp_buf c with
  | Some b =>
      if cp_writing c && negb (cp_error c) then
        fbytes (cp_file ((ignore (cp_write CHECKPOINT_MAGIC_V3);; ignore (cp_write build_id);;
          ignore (cp_write (cp_model_id c));; ignore (cp_write (le 4 (cp_ram_size_kb c)));;
          ignore (cp_write (le 8 (zlen b)));; ignore (cp_write (le 8 (zlen b)));;
          cp_write b) c).2)
      else fbytes (cp_file c)
  | None => fbytes (cp_file c)
  end.

Definition checkpoint_validate_build_id (contents : list Z) (o : list io_outcome) : bool :=
  let c := mk_checkpoint (fopen_rb contents) false false CHECKPOINT_KIND_CONSOLIDATED None 0 [] 0 false o in
  match (magic ← cp_read CHECKPOINT_MAGIC_LEN;
         require (bool_decide (magic = CHECKPOINT_MAGIC_V2) || bool_decide (magic = CHECKPOINT_MAGIC_V3));;
         cp_read BUILD_ID_LEN) c with
  | (Some id, _) => bool_decide (id = build_id)
  | (None, _) => false
  end.

(** ** Files inside a checkpoint

    A path is [None] for a null pointer. *)
Definition path_bytes (path : option (list Z)) : list Z := default [] path.
Definition OPFS_PREFIX : list Z := [0x2F; 0x6F; 0x70; 0x66; 0x73; 0x2F]. (* /opfs/ *)
Definition file_size (path : list Z) : Z := match host_file path with Some l => zlen l | None => 0 end.
(** The pieces a file is copied in. *)
Fixpoint pieces (fuel : nat) (l : list Z) : list (list Z) :=
  match fuel, l with
  | _, [] => []
  | O, _ => []
  | S fuel, _ => ztake CHUNK l :: pieces fuel (zdrop CHUNK l)
  end.
Definition file_pieces (l : list Z) : list (list Z) := pieces (length l) l.

Definition v3_write_file (path : option (list Z)) (c : checkpoint) : checkpoint :=
  let name := path_bytes path in
  let c := buf_append (le 4 (u32 (zlen name))) c in
  let c := if zlen name =? 0 then c else buf_append name c in
  let persistent := bool_decide (ztake 6 name = OPFS_PREFIX) in
  let has_content := negb persistent && negb (zlen name =? 0) in
  let c := buf_append [cbool has_content] c in
  if has_content then
    let content_size := file_size name in
    let c := buf_append (le 8 content_size) c in
    match host_file name with
    | Some l => if 0 <? content_size then fold_left (fun c d => buf_append d c) (file_pieces l) c else c
    | None => c
    end
  else c.
Fixpoint write_pieces (ps : list (list Z)) : io checkpoint unit :=
  match ps with [] => mret tt | d :: ps => cp_write d;; write_pieces ps end.
(** [refs]: files are stored by reference. *)
Definition v2_write_file (refs : bool) (path : option (list Z)) (file : list Z) (line : Z) : io checkpoint unit :=
  let name := path_bytes path in
  let include_content := negb refs in
  let content_size := if include_content && negb (zlen name =? 0) then file_size name else 0 in
  let payload_size := 4 + zlen name + 1 + (if include_content then 8 + content_size else 0) in
  cp_write (le 8 payload_size);;
  v2_place file line;;
  cp_write (le 4 (u32 (zlen name)));;
  unless (zlen name =? 0) (cp_write name);;
  cp_write [cbool include_content];;
  unless (negb include_content)
    (cp_write (le 8 content_size);;
     unless (content_size =? 0)
       match host_file name with
       | Some l => write_pieces (file_pieces l)
       | None => fail
       end).
Definition checkpoint_write_file_loc (refs : bool) (path : option (list Z)) (file : list Z) (line : Z) (c : checkpoint) : checkpoint :=
  if cp_error c || negb (cp_writing c) then checkpoint_set_error c
  else match cp_buf c with
       | Some _ => v3_write_file path c
       | None => (flagged (v2_write_file refs path file line) c).2
       end.

(** The name of a file block, [None] if it has none. *)
Definition name_of (len : Z) (get : Z -> io checkpoint (list Z)) : io checkpoint (option (list Z)) :=
  if len =? 0 then mret None else name ← get len; mret (Some name).
(** A string as fopen sees it, up to its first NUL. *)
Fixpoint c_string (l : list Z) : list Z :=
  match l with [] => [] | b :: l => if b =? 0 then [] else b :: c_string l end.
(** A file by reference. *)
Definition referenced (path : option (list Z)) (cap : Z) : option (list Z) :=
  match path with
  | Some name => let name := c_string name in
      if (zlen name =? 0) || (cap =? 0) then Some [] else ztake cap <$> host_file name
  | None => Some []
  end.
(** [cap]: the capacity of the destination, 0 for none. *)
Definition v3_read_content (path : option (list Z)) (cap : Z) : io checkpoint (list Z) :=
  has_content ← buf_read 1;
  if truthy (unle has_content) then
    size ← buf_read 8;
    let content_size := usize (unle size) in
    if unle size =? 0 then mret []
    else if cap =? 0 then upd (fun c => set_cp_pos (usize (cp_pos c + content_size)) c);; mret []
    else
      let to_copy := if cap <? content_size then cap else content_size in
      d ← buf_read to_copy;
      upd (fun c => set_cp_pos (usize (cp_pos c + (content_size - to_copy))) c);; mret d
  else match referenced path cap with Some d => mret d | None => flagged fail end.
Fixpoint read_pieces (fuel : nat) (remaining cap : Z) (loaded : list Z) (c : checkpoint) : list Z * checkpoint :=
  if remaining <=? 0 then (loaded, c) else
  match fuel with
  | O => (loaded, c)
  | S fuel =>
      let to_read := if CHUNK <? remaining then CHUNK else remaining in
      match flagged (cp_read to_read) c with
      | (None, c) => (loaded, c)
      | (Some d, c) => read_pieces fuel (remaining - to_read) cap (loaded ++ ztake (cap - zlen loaded) d) c
      end
  end.
Definition v2_read_content (path : option (list Z)) (cap : Z) (c : checkpoint) : list Z * checkpoint :=
  match flagged (cp_read 1) c with
  | (None, c) => ([], c)
  | (Some has_content, c) =>
      if truthy (unle has_content) then
        match flagged (cp_read 8) c with
        | (None, c) => ([], c)
        | (Some size, c) => read_pieces (Z.to_nat (unle size / CHUNK + 1)) (unle size) cap [] c
        end
      else (default [] (referenced path cap), c)
  end.
Definition v2_read_name : io checkpoint (option (list Z)) :=
  cp_read 8;; v2_skip_place;;
  name_len ← cp_read 4;
  name_of (unle name_len) cp_read.
(** The bytes loaded and the path handed out; [want_path]: out_path is not null. *)
Definition checkpoint_read_file_loc (cap : Z) (want_path : bool) (c : checkpoint)
    : (list Z * option (list Z)) * checkpoint :=
  if cp_error c || cp_writing c then (([], None), checkpoint_set_error c)
  else match cp_buf c with
       | Some _ =>
           match (name_len ← buf_read 4; name_of (unle name_len) buf_read) c with
           | (None, c) => (([], None), c)
           | (Some name, c) =>
               let path := if want_path then name else None in
               let '(d, c) := v3_read_content path cap c in ((default [] d, path), c)
           end
       | None =>
           match flagged v2_read_name c with
           | (None, c) => (([], None), c)
           | (Some name, c) =>
               let path := if want_path then name else None in
               let '(d, c) := v2_read_content path cap c in ((d, path), c)
           end
       end.
End Format.
