(* ===== verification/CheckpointProofs.v ===== *)
(** * Round trips of checkpoint files

    What a writer puts into a checkpoint, block by block and file by file, a
    reader that asks for the same sequence gets back. *)
From S2P Require Import Prelude Stdio Rle Checkpoint.

Lemma zlen_bool b : zlen [cbool b] = 1.
Proof. done. Qed.
Lemma unle_cbool b : truthy (unle [cbool b]) = b.
Proof. by destruct b. Qed.

Lemma cp_next_none c : cp_faults c = [] -> cp_next c = c.
Proof. intros Hf. unfold cp_next, set_cp_faults. rewrite Hf. cbn. destruct c. cbn in *. by subst. Qed.

(** ** States of a writer and of a reader *)
Section States.
Context `{!Abi} (c : checkpoint) (Hf : cp_faults c = []).

Definition writer2 (F : list Z) : checkpoint := set_cp_file (mk_FILE F (zlen F) false) c.
(** [pre] was read, [post] is still to be read. *)
Definition reader2 (pre post : list Z) : checkpoint := set_cp_file (mk_FILE (pre ++ post) (zlen pre) false) c.
Definition reader3 (pre post : list Z) : checkpoint := set_cp_pos (zlen pre) (set_cp_buf (Some (pre ++ post)) c).

Lemma write2 d F : cp_write d (writer2 F) = (Some tt, writer2 (F ++ d)).
Proof.
  unfold cp_write, cp_outcome. change (cp_faults (writer2 F)) with (cp_faults c). rewrite Hf.
  rewrite (cp_next_none (writer2 F)) by done.
  unfold fwrite, writer2. cbn [cp_file set_cp_file fappend fbytes fpos]. by rewrite write_at_end, zlen_app.
Qed.
Lemma write2_bind {B} d F (k : unit -> io checkpoint B) : (cp_write d ≫= k) (writer2 F) = k tt (writer2 (F ++ d)).
Proof. by rewrite (bind_Some _ _ _ _ _ (write2 d F)). Qed.
Lemma write2_pieces ps : forall F, write_pieces ps (writer2 F) = (Some tt, writer2 (F ++ concat ps)).
Proof.
  induction ps as [|d ps IH]; intros F; cbn [write_pieces concat].
  - by rewrite app_nil_r.
  - by rewrite write2_bind, IH, app_assoc.
Qed.

Lemma read2 n d pre post : n = zlen d -> cp_read n (reader2 pre (d ++ post)) = (Some d, reader2 (pre ++ d) post).
Proof.
  intros ->. unfold cp_read, cp_outcome. change (cp_faults (reader2 pre (d ++ post))) with (cp_faults c). rewrite Hf.
  rewrite (cp_next_none (reader2 pre (d ++ post))) by done.
  unfold fread, reader2. cbn [cp_file set_cp_file fappend fbytes fpos]. by rewrite read_at_app, zlen_app, <-app_assoc.
Qed.
Lemma read2_bind {B} n d pre post (k : list Z -> io checkpoint B) : n = zlen d ->
  (cp_read n ≫= k) (reader2 pre (d ++ post)) = k d (reader2 (pre ++ d) post).
Proof. intros Hn. by rewrite (bind_Some _ _ _ _ _ (read2 n d pre post Hn)). Qed.

Lemma read3 n d pre post : n = zlen d -> zlen (pre ++ d ++ post) < 2 ^ size_bits ->
  buf_read n (reader3 pre (d ++ post)) = (Some d, reader3 (pre ++ d) post).
Proof.
  intros -> Hs. unfold buf_read, reader3. cbn [cp_buf cp_pos set_cp_pos set_cp_buf].
  pose proof (zlen_nonneg pre). pose proof (zlen_nonneg d). pose proof (zlen_nonneg post). rewrite !zlen_app in *.
  rewrite usize_id by lia. destruct (Z.ltb_spec (zlen pre + (zlen d + zlen post)) (zlen pre + zlen d)); [lia|].
  rewrite zdrop_app, Z.sub_diag by lia. change (zdrop 0 ?x) with x. rewrite ztake_app by done.
  by rewrite <-app_assoc.
Qed.
Lemma read3_bind {B} n d pre post (k : list Z -> io checkpoint B) : n = zlen d -> zlen (pre ++ d ++ post) < 2 ^ size_bits ->
  (buf_read n ≫= k) (reader3 pre (d ++ post)) = k d (reader3 (pre ++ d) post).
Proof. intros Hn Hs. by rewrite (bind_Some _ _ _ _ _ (read3 n d pre post Hn Hs)). Qed.
Lemma skip3 d pre post : zlen (pre ++ d ++ post) < 2 ^ size_bits ->
  set_cp_pos (usize (zlen pre + zlen d)) (reader3 pre (d ++ post)) = reader3 (pre ++ d) post.
Proof.
  intros Hs. pose proof (zlen_nonneg pre). pose proof (zlen_nonneg d). pose proof (zlen_nonneg post). rewrite !zlen_app in Hs.
  rewrite usize_id by lia. unfold reader3. by rewrite zlen_app, <-app_assoc.
Qed.
End States.

(** ** Blocks *)
Definition place_bytes (file : list Z) (line : Z) : list Z := le 4 (u32 (zlen file)) ++ file ++ le 4 (u32 line).
Definition coded (data : list Z) : list Z :=
  if zlen data <? RLE_THRESHOLD then 0x00 :: data else 0x01 :: le 8 (zlen (rle_bytes data)) ++ rle_bytes data.
Definition block2 (data file : list Z) (line : Z) : list Z := le 8 (zlen data) ++ place_bytes file line ++ coded data.
Definition block3 (data : list Z) : list Z := le 4 (u32 (zlen data)) ++ data.
(** Blocks and places of sources that fit their counts. *)
Definition block_ok (data file : list Z) : Prop :=
  12 * zlen data + 18 <= 5 * CHECKPOINT_MAX_ALLOC /\ zlen file < 2 ^ 32.

Section Blocks.
Context `{!Abi} (Hsize : 32 <= size_bits).
Lemma size_ge x : x <= CHECKPOINT_MAX_ALLOC -> x < 2 ^ size_bits.
Proof.
  intros Hx. eapply Z.le_lt_trans; [exact Hx|]. eapply Z.lt_le_trans with (2 ^ 32); [by vm_compute|].
  apply Z.pow_le_mono_r; lia.
Qed.

Section One.
Context (c : checkpoint) (Hf : cp_faults c = []).
Lemma write_place {B} file line F (k : unit -> io checkpoint B) :
  (v2_place file line ≫= k) (writer2 c F) = k tt (writer2 c (F ++ place_bytes file line)).
Proof.
  unfold v2_place, place_bytes. rewrite bind_assoc, write2_bind by done. rewrite bind_assoc.
  destruct (Z.eqb_spec (zlen file) 0) as [E|E]; cbn [unless].
  - apply zlen_0 in E as ->. rewrite ret_bind, write2_bind by done. by rewrite <-app_assoc.
  - rewrite write2_bind, write2_bind by done. by rewrite <-!app_assoc.
Qed.
Lemma write_block2 data file line F :
  v2_write_data data file line (writer2 c F) = (Some tt, writer2 c (F ++ block2 data file line)).
Proof.
  unfold v2_write_data, block2, coded. rewrite write2_bind by done. rewrite write_place.
  destruct (zlen data <? RLE_THRESHOLD).
  - rewrite write2_bind, write2 by done. by rewrite <-!app_assoc.
  - destruct (rle_encode_two_pass data) as [E1 E2]. rewrite E1. cbn [fst]. rewrite E2. cbn [snd].
    rewrite write2_bind, write2_bind, write2 by done. by rewrite <-!app_assoc.
Qed.
Lemma skip_place {B} file line pre post (k : unit -> io checkpoint B) : zlen file < 2 ^ 32 ->
  (v2_skip_place ≫= k) (reader2 c pre (place_bytes file line ++ post)) = k tt (reader2 c (pre ++ place_bytes file line) post).
Proof.
  intros Hl. pose proof (zlen_nonneg file). unfold v2_skip_place, place_bytes. rewrite <-!app_assoc.
  rewrite bind_assoc, read2_bind by (done || by rewrite zlen_le).
  rewrite unle_le_id by (apply wrap_range; lia). rewrite u32_small by (by split).
  destruct (Z.eqb_spec (zlen file) 0) as [E|E]; cbn [unless]; rewrite bind_assoc.
  - apply zlen_0 in E as ->. rewrite ret_bind, bind_assoc. cbn [app].
    rewrite read2_bind by (done || by rewrite zlen_le). by rewrite ret_bind, <-!app_assoc.
  - rewrite bind_assoc, read2_bind by done. rewrite ret_bind, bind_assoc.
    rewrite read2_bind by (done || by rewrite zlen_le). by rewrite ret_bind, <-!app_assoc.
Qed.
Lemma read_block2 data file line pre post : block_ok data file ->
  v2_read_data (zlen data) (reader2 c pre (block2 data file line ++ post))
  = (Some data, reader2 c (pre ++ block2 data file line) post).
Proof.
  intros [Hd Hl]. pose proof (zlen_nonneg data) as Hn.
  assert (zlen data <= CHECKPOINT_MAX_ALLOC) as Hd' by lia. pose proof (size_ge _ Hd') as Hs.
  unfold v2_read_data, block2. rewrite <-!app_assoc. rewrite read2_bind by (done || by rewrite zlen_le).
  rewrite skip_place by done. unfold CHECKPOINT_MAX_ALLOC in *.
  rewrite unle_le_id by (unfold in_width; pow2; lia).
  rewrite require_true.
  2: { apply negb_true_iff, orb_false_iff. rewrite Z.eqb_refl. split; [|done]. apply Z.ltb_ge. lia. }
  unfold coded. destruct (Z.ltb_spec (zlen data) RLE_THRESHOLD) as [Ht|Ht].
  - change ((0x00 :: data) ++ post) with ([0x00] ++ (data ++ post)). rewrite read2_bind by done.
    change (unle [0x00] =? 0x00) with true. cbv iota. rewrite read2 by done. by rewrite <-!app_assoc.
  - change ((0x01 :: ?x) ++ post) with ([0x01] ++ (x ++ post)). rewrite read2_bind by done.
    change (unle [0x01] =? 0x00) with false. change (unle [0x01] =? 0x01) with true. cbv iota.
    assert (5 * zlen (rle_bytes data) <= 12 * zlen data + 18) as Hb by (apply rle_bytes_bound; unfold RLE_COUNT_MAX; lia).
    pose proof (zlen_nonneg (rle_bytes data)).
    rewrite <-(app_assoc (le 8 _)), read2_bind by (done || by rewrite zlen_le). rewrite unle_le_id by (unfold in_width; pow2; lia).
    rewrite require_true by (apply negb_true_iff, Z.ltb_ge; lia). rewrite read2_bind by done.
    rewrite rle_roundtrip by (done || apply size_ge; unfold CHECKPOINT_MAX_ALLOC; lia). cbn [decoded]. by rewrite <-!app_assoc.
Qed.
Lemma read_block3 data pre post : zlen data < 2 ^ 32 -> zlen (pre ++ block3 data ++ post) < 2 ^ size_bits ->
  v3_read_data (zlen data) (reader3 c pre (block3 data ++ post)) = (Some data, reader3 c (pre ++ block3 data) post).
Proof.
  intros Hd Hs. pose proof (zlen_nonneg data). unfold v3_read_data, block3 in *. rewrite <-!app_assoc in *.
  rewrite !u32_small in Hs |- * by (by split).
  rewrite read3_bind by (done || by rewrite zlen_le). rewrite unle_le_id by (by split). rewrite Z.eqb_refl. cbn [negb].
  rewrite read3; [by rewrite <-!app_assoc|done|]. rewrite <-!app_assoc; exact Hs.
Qed.
End One.
End Blocks.

(** ** Files *)
Lemma pieces_concat fuel : forall l, (length l <= fuel)%nat -> concat (pieces fuel l) = l.
Proof.
  induction fuel as [|fuel IH]; intros l Hl; [by destruct l; [|cbn in Hl; lia]|].
  destruct l as [|x l]; [done|]. cbn [pieces concat]. rewrite IH; [unfold ztake, zdrop; by rewrite take_drop|].
  unfold zdrop, CHUNK. rewrite length_drop. cbn [length] in *. lia.
Qed.
Lemma ztake_app_more {A} n (a b : list A) : ztake n (a ++ b) = ztake n a ++ ztake (n - zlen a) b.
Proof. unfold ztake. rewrite firstn_app. do 2 f_equal. unfold zlen. lia. Qed.
Lemma ztake_neg {A} n (l : list A) : n <= 0 -> ztake n l = [].
Proof. intros. unfold ztake. by replace (Z.to_nat n) with 0%nat by lia. Qed.
Lemma ztake_all {A} n (l : list A) : zlen l <= n -> ztake n l = l.
Proof. intros. unfold ztake. apply take_ge. unfold zlen in *. lia. Qed.

Section Files.
Context `{!Abi} (Hsize : 32 <= size_bits) (host_file : list Z -> option (list Z)).
Definition contents (name : list Z) : list Z := if zlen name =? 0 then [] else default [] (host_file name).
Definition file2 (refs : bool) (name file : list Z) (line : Z) : list Z :=
  le 8 (4 + zlen name + 1 + (if refs then 0 else 8 + zlen (contents name))) ++ place_bytes file line ++
  le 4 (u32 (zlen name)) ++ name ++ [cbool (negb refs)] ++
  (if refs then [] else le 8 (zlen (contents name)) ++ contents name).
Definition embedded3 (name : list Z) : bool := negb (bool_decide (ztake 6 name = OPFS_PREFIX)) && negb (zlen name =? 0).
Definition file3 (name : list Z) : list Z :=
  le 4 (u32 (zlen name)) ++ name ++ [cbool (embedded3 name)] ++
  (if embedded3 name then le 8 (zlen (contents name)) ++ contents name else []).
(** A file that is there, of sizes that fit. *)
Definition file_ok (name file : list Z) : Prop :=
  (zlen name = 0 \/ is_Some (host_file name)) /\ zlen name < 2 ^ 32 /\ zlen (contents name) < 2 ^ 63 /\ zlen file < 2 ^ 32 /\
  c_string name = name.
Definition path_of (name : list Z) : option (list Z) := if zlen name =? 0 then None else Some name.

Section OneFile.
Context (c : checkpoint) (Hf : cp_faults c = []).
Lemma write_file2 refs name file line F : file_ok name file ->
  v2_write_file host_file refs (Some name) file line (writer2 c F) = (Some tt, writer2 c (F ++ file2 refs name file line)).
Proof.
  intros (Hn & _). unfold v2_write_file, file2. cbn [path_bytes default from_option id].
  assert ((if negb refs && negb (zlen name =? 0) then file_size host_file name else 0) = if refs then 0 else zlen (contents name)) as ->.
  { unfold file_size, contents. destruct refs; [done|]. destruct (zlen name =? 0); [done|]. cbn. by destruct (host_file name). }
  rewrite write2_bind by done. rewrite write_place by done. rewrite write2_bind by done.
  replace (4 + zlen name + 1 + (if negb refs then 8 + (if refs then 0 else zlen (contents name)) else 0))
    with (4 + zlen name + 1 + (if refs then 0 else 8 + zlen (contents name))) by (by destruct refs).
  assert (forall B (k : unit -> io checkpoint B) G, (unless (zlen name =? 0) (cp_write name) ≫= k) (writer2 c G) = k tt (writer2 c (G ++ name))) as Hw.
  { intros B k G. destruct (Z.eqb_spec (zlen name) 0) as [E|E]; cbn [unless]; [|by rewrite write2_bind].
    apply zlen_0 in E as ->. by rewrite ret_bind, app_nil_r. }
  rewrite Hw, write2_bind by done. destruct refs; cbn [negb unless].
  { unfold mret, io_ret. by rewrite <-!app_assoc. }
  rewrite write2_bind by done. destruct (Z.eqb_spec (zlen (contents name)) 0) as [E|E]; cbn [unless].
  { apply zlen_0 in E. rewrite E. unfold mret, io_ret. by rewrite app_nil_r, <-!app_assoc. }
  assert (host_file name = Some (contents name)) as ->.
  { unfold contents in *. destruct (Z.eqb_spec (zlen name) 0); [done|]. destruct Hn as [|[l Hl]]; [done|]. by rewrite Hl. }
  rewrite write2_pieces by done. unfold file_pieces. rewrite pieces_concat by lia. by rewrite <-!app_assoc.
Qed.

Lemma read_pieces_ok cap : 0 <= cap -> forall fuel d loaded pre post, zlen d <= CHUNK * Z.of_nat fuel ->
  read_pieces fuel (zlen d) cap loaded (reader2 c pre (d ++ post))
  = (loaded ++ ztake (cap - zlen loaded) d, reader2 c (pre ++ d) post).
Proof.
  intros Hcap. induction fuel as [|fuel IH]; intros d loaded pre post Hfu; pose proof (zlen_nonneg d);
    cbn [read_pieces]; destruct (Z.leb_spec (zlen d) 0) as [Hz|Hz]; try lia.
  1,2: by assert (d = []) as -> by (apply zlen_0; lia); unfold ztake; rewrite take_nil, !app_nil_r.
  set (n := if CHUNK <? zlen d then CHUNK else zlen d).
  assert (0 < n <= zlen d /\ (n = zlen d \/ n = CHUNK)) as [Hn Hn'] by (unfold n, CHUNK; destruct (Z.ltb_spec 8192 (zlen d)); lia).
  assert (d = ztake n d ++ zdrop n d) as Ed by (unfold ztake, zdrop; by rewrite take_drop).
  assert (zlen (ztake n d) = n) as Ht by (rewrite zlen_ztake by lia; lia).
  assert (zlen d - n = zlen (zdrop n d)) as Hr by (rewrite zlen_zdrop by lia; lia).
  replace (d ++ post) with (ztake n d ++ zdrop n d ++ post) by (by rewrite app_assoc, <-Ed). unfold flagged.
  rewrite (read2 c Hf n (ztake n d) pre) by done. rewrite Hr, IH.
  - rewrite <-!app_assoc, <-Ed. f_equal. f_equal.
    replace (ztake (cap - zlen loaded) d) with (ztake (cap - zlen loaded) (ztake n d ++ zdrop n d)) by (by rewrite <-Ed).
    rewrite ztake_app_more, Ht. f_equal.
    rewrite zlen_app. destruct (Z.le_gt_cases n (cap - zlen loaded)).
    + rewrite (ztake_all _ (ztake n d)), Ht by lia. f_equal. lia.
    + pose proof (zlen_nonneg loaded). destruct (Z.le_gt_cases (cap - zlen loaded) 0).
      * rewrite (ztake_neg _ (ztake n d)) by lia. rewrite zlen_nil, !ztake_neg by lia. done.
      * rewrite zlen_ztake by lia. rewrite !ztake_neg by lia. done.
  - rewrite <-Hr. unfold CHUNK in *. lia.
Qed.

Lemma flagged_ok {A} (m : io checkpoint A) s a s' : m s = (Some a, s') -> flagged m s = (Some a, s').
Proof. intros E. unfold flagged. by rewrite E. Qed.
Lemma referenced_ok name cap : c_string name = name -> zlen name = 0 \/ is_Some (host_file name) -> 0 <= cap ->
  referenced host_file (path_of name) cap = Some (ztake cap (contents name)).
Proof.
  intros Hs Hn Hc. unfold referenced, path_of, contents. destruct (Z.eqb_spec (zlen name) 0) as [E|E].
  - unfold ztake. by rewrite take_nil.
  - destruct Hn as [|[l Hl]]; [done|]. rewrite Hs, Hl. destruct (Z.eqb_spec (zlen name) 0); [done|]. cbn [orb].
    destruct (Z.eqb_spec cap 0) as [->|]; [by rewrite ztake_neg|done].
Qed.
Lemma read_file2 refs name file line cap pre post : file_ok name file -> 0 <= cap ->
  cp_error c = false -> cp_writing c = false -> cp_buf c = None ->
  checkpoint_read_file_loc host_file cap true (reader2 c pre (file2 refs name file line ++ post))
  = ((ztake cap (contents name), path_of name), reader2 c (pre ++ file2 refs name file line) post).
Proof.
  intros (Hn & Hl & Hc & Hp & Hcs0) Hcap He Hw Hb. pose proof (zlen_nonneg name). pose proof (zlen_nonneg (contents name)).
  unfold checkpoint_read_file_loc. change (cp_error (reader2 c pre ?x)) with (cp_error c).
  change (cp_writing (reader2 c pre ?x)) with (cp_writing c). change (cp_buf (reader2 c pre ?x)) with (cp_buf c).
  rewrite He, Hw, Hb. cbn [orb]. unfold file2. rewrite <-!app_assoc.
  assert (forall rest, v2_read_name (reader2 c pre (le 8 (4 + zlen name + 1 + (if refs then 0 else 8 + zlen (contents name)))
      ++ place_bytes file line ++ le 4 (u32 (zlen name)) ++ name ++ rest))
    = (Some (path_of name), reader2 c ((((pre ++ le 8 (4 + zlen name + 1 + (if refs then 0 else 8 + zlen (contents name))))
      ++ place_bytes file line) ++ le 4 (u32 (zlen name))) ++ name) rest)) as Hname.
  { intros rest. unfold v2_read_name. rewrite read2_bind by (done || by rewrite zlen_le). rewrite skip_place by done.
    rewrite read2_bind by (done || by rewrite zlen_le). rewrite u32_small, unle_le_id by (by split).
    unfold name_of, path_of. destruct (Z.eqb_spec (zlen name) 0) as [E|E].
    - apply zlen_0 in E as ->. by rewrite app_nil_r.
    - by rewrite read2_bind. }
  rewrite (flagged_ok _ _ _ _ (Hname _)). unfold v2_read_content.
  rewrite (flagged_ok _ _ _ _ (read2 c Hf 1 [cbool (negb refs)] _ _ eq_refl)), unle_cbool.
  destruct refs; cbn [negb].
  - rewrite referenced_ok by done. cbn [default from_option id]. by rewrite app_nil_r, <-!app_assoc.
  - rewrite <-(app_assoc (le 8 _)), (flagged_ok _ _ _ _ (read2 c Hf 8 (le 8 (zlen (contents name))) _ _ eq_refl)).
    rewrite unle_le_id by (unfold in_width; pow2; lia). rewrite read_pieces_ok; [|done|].
    + rewrite zlen_nil, Z.sub_0_r. cbn [app]. by rewrite <-!app_assoc.
    + pose proof (Z.div_mod (zlen (contents name)) CHUNK ltac:(done)). pose proof (Z.mod_pos_bound (zlen (contents name)) CHUNK ltac:(done)).
      assert (0 <= zlen (contents name) / CHUNK) by (apply Z.div_pos; done). lia.
Qed.

(** The quick format. *)
Lemma fold_append ps : forall c' b, cp_buf c' = Some b ->
  fold_left (fun c d => buf_append d c) ps c' = set_cp_buf (Some (b ++ concat ps)) c'.
Proof.
  induction ps as [|d ps IH]; intros c' b Hb; cbn [fold_left concat].
  - rewrite app_nil_r, <-Hb. by destruct c'.
  - unfold buf_append at 2. rewrite Hb, (IH _ (b ++ d)) by done. by rewrite app_assoc.
Qed.
Lemma append_some c' b d : cp_buf c' = Some b -> buf_append d c' = set_cp_buf (Some (b ++ d)) c'.
Proof. intros E. unfold buf_append. by rewrite E. Qed.
Lemma write_file3 name file b : file_ok name file -> cp_buf c = Some b ->
  v3_write_file host_file (Some name) c = set_cp_buf (Some (b ++ file3 name)) c.
Proof.
  intros (Hn & _) Hb. unfold v3_write_file, file3. cbn [path_bytes default from_option id].
  fold (embedded3 name). rewrite (append_some c b) by done.
  assert (forall G d, buf_append d (set_cp_buf (Some G) c) = set_cp_buf (Some (G ++ d)) c) as Ha by done.
  assert (forall G, (if zlen name =? 0 then set_cp_buf (Some G) c else buf_append name (set_cp_buf (Some G) c)) = set_cp_buf (Some (G ++ name)) c) as ->.
  { intros G. destruct (Z.eqb_spec (zlen name) 0) as [E|]; [|done]. apply zlen_0 in E as ->. by rewrite app_nil_r. }
  rewrite Ha. destruct (embedded3 name) eqn:E; [|by rewrite app_nil_r, <-!app_assoc].
  apply andb_true_iff in E as [_ E]. apply negb_true_iff, Z.eqb_neq in E.
  destruct Hn as [|[l Hl]]; [done|].
  assert (file_size host_file name = zlen (contents name) /\ contents name = l) as [-> Hcl].
  { unfold file_size, contents. rewrite Hl. by destruct (Z.eqb_spec (zlen name) 0). }
  rewrite Ha, Hl, Hcl. pose proof (zlen_nonneg l). destruct (Z.ltb_spec 0 (zlen l)).
  - erewrite fold_append by reflexivity. unfold file_pieces. rewrite pieces_concat by lia. by rewrite <-!app_assoc.
  - assert (l = []) as -> by (apply zlen_0; lia). by rewrite app_nil_r, <-!app_assoc.
Qed.
Lemma read_file3 name file cap pre post : file_ok name file -> 0 <= cap ->
  cp_error c = false -> cp_writing c = false -> zlen (pre ++ file3 name ++ post) < 2 ^ size_bits ->
  checkpoint_read_file_loc host_file cap true (reader3 c pre (file3 name ++ post))
  = ((ztake cap (contents name), path_of name), reader3 c (pre ++ file3 name) post).
Proof.
  intros (Hn & Hl & Hc & Hp & Hcs0) Hcap He Hw Hs. pose proof (zlen_nonneg name). pose proof (zlen_nonneg (contents name)).
  pose proof (zlen_nonneg pre). pose proof (zlen_nonneg post).
  unfold checkpoint_read_file_loc. change (cp_error (reader3 c pre ?x)) with (cp_error c).
  change (cp_writing (reader3 c pre ?x)) with (cp_writing c). change (cp_buf (reader3 c pre ?x)) with (Some (pre ++ x)).
  rewrite He, Hw. cbn [orb]. unfold file3 in *. rewrite <-!app_assoc in *. rewrite u32_small in * by (by split).
  set (tail3 := if embedded3 name then _ else _) in *.
  assert ((name_len ← buf_read 4; name_of (unle name_len) buf_read)
      (reader3 c pre (le 4 (zlen name) ++ name ++ [cbool (embedded3 name)] ++ tail3 ++ post))
    = (Some (path_of name), reader3 c ((pre ++ le 4 (zlen name)) ++ name) ([cbool (embedded3 name)] ++ tail3 ++ post))) as ->.
  { rewrite read3_bind by (done || by rewrite zlen_le). rewrite unle_le_id by (by split).
    unfold name_of, path_of. destruct (Z.eqb_spec (zlen name) 0) as [E|E].
    - apply zlen_0 in E as ->. by rewrite app_nil_r.
    - rewrite read3_bind; [done|done|]. by rewrite <-!app_assoc. }
  unfold v3_read_content. rewrite read3_bind, unle_cbool; [|done|by rewrite <-!app_assoc].
  unfold tail3 in *. clear tail3. destruct (embedded3 name) eqn:Ee.
  2: { rewrite referenced_ok by done. unfold mret, io_ret. cbn [app default from_option id]. by rewrite <-!app_assoc. }
  rewrite <-(app_assoc (le 8 _)) in *.
  assert (0 <= zlen (contents name) < 2 ^ size_bits) as Hcs by (rewrite !zlen_app, !zlen_le, zlen_bool in Hs; lia).
  rewrite read3_bind; [|by rewrite zlen_le|rewrite <-!app_assoc; exact Hs].
  rewrite unle_le_id by (unfold in_width; pow2; lia). rewrite (usize_id (zlen (contents name))) by done.
  destruct (Z.eqb_spec (zlen (contents name)) 0) as [E0|E0].
  { apply zlen_0 in E0. rewrite E0. unfold mret, io_ret. unfold ztake. rewrite take_nil. cbn [app]. by rewrite app_nil_r, <-!app_assoc. }
  set (P := (((pre ++ le 4 (zlen name)) ++ name) ++ [cbool true]) ++ le 8 (zlen (contents name))).
  assert (forall a b, contents name = a ++ b -> zlen (P ++ a ++ b ++ post) < 2 ^ size_bits) as Hsz.
  { intros a b E. unfold P. rewrite (app_assoc a), <-E, <-!app_assoc. exact Hs. }
  assert (reader3 c (P ++ contents name) post
    = reader3 c (pre ++ le 4 (zlen name) ++ name ++ [cbool true] ++ le 8 (zlen (contents name)) ++ contents name) post) as <-
    by (unfold P; by rewrite <-!app_assoc).
  destruct (Z.eqb_spec cap 0) as [->|Hcap0].
  - rewrite upd_bind. change (cp_pos (reader3 c P (contents name ++ post))) with (zlen P).
    rewrite skip3 by (apply (Hsz (contents name) []); by rewrite app_nil_r). by rewrite ztake_neg.
  - set (n := if cap <? zlen (contents name) then cap else zlen (contents name)).
    assert (0 <= n <= zlen (contents name) /\ ztake n (contents name) = ztake cap (contents name)) as [Hn' Et].
    { unfold n. destruct (Z.ltb_spec cap (zlen (contents name))); split; try lia; [done|]. by rewrite !ztake_all by lia. }
    assert (contents name = ztake n (contents name) ++ zdrop n (contents name)) as Ed by (unfold ztake, zdrop; by rewrite take_drop).
    assert (zlen (ztake n (contents name)) = n) as Htn by (rewrite zlen_ztake by lia; lia).
    assert (zlen (contents name) - n = zlen (zdrop n (contents name))) as Hr by (rewrite zlen_zdrop by lia; lia).
    replace (contents name ++ post) with (ztake n (contents name) ++ zdrop n (contents name) ++ post) by (by rewrite app_assoc, <-Ed).
    rewrite read3_bind by (done || by apply Hsz). rewrite upd_bind, Hr.
    change (cp_pos (reader3 c ?x ?y)) with (zlen x). rewrite skip3 by (rewrite <-app_assoc; by apply Hsz).
    rewrite <-app_assoc, <-Ed, Et. done.
Qed.
End OneFile.
End Files.
