(* ===== verification/CheckpointTheorems.v ===== *)
(** * What a checkpoint file promises

    A whole checkpoint, in either format: written, closed, opened and read. *)
From S2P Require Import Prelude Stdio Rle Checkpoint CheckpointProofs.

(** What components put into a checkpoint, with the place in the sources they
    do it from; a file is read back into a buffer of [cap] bytes. *)
Inductive item :=
  | Block (data file : list Z) (line : Z)
  | File (name file : list Z) (line cap : Z).
Inductive got := GotBlock (d : option (list Z)) | GotFile (d : list Z) (path : option (list Z)).

Section Whole.
Context `{!Abi} (Hsize : 32 <= size_bits).
Context (build_id : list Z) (host_file : list Z -> option (list Z)) (Hid : zlen build_id = BUILD_ID_LEN).

Definition write_item (refs : bool) (c : checkpoint) (i : item) : checkpoint :=
  match i with
  | Block data file line => system_write_checkpoint_data_loc data file line c
  | File name file line _ => checkpoint_write_file_loc host_file refs (Some name) file line c
  end.
Definition read_item (i : item) (c : checkpoint) : got * checkpoint :=
  match i with
  | Block data _ _ => let '(d, c) := system_read_checkpoint_data_loc (zlen data) c in (GotBlock d, c)
  | File _ _ _ cap => let '((d, p), c) := checkpoint_read_file_loc host_file cap true c in (GotFile d p, c)
  end.
Fixpoint read_items (l : list item) (c : checkpoint) : list got * checkpoint :=
  match l with
  | [] => ([], c)
  | i :: l => let '(g, c) := read_item i c in let '(gs, c) := read_items l c in (g :: gs, c)
  end.
Definition expected (i : item) : got :=
  match i with
  | Block data _ _ => GotBlock (Some data)
  | File name _ _ cap => GotFile (ztake cap (contents host_file name)) (path_of name)
  end.
Definition item_ok (i : item) : Prop :=
  match i with
  | Block data file _ => block_ok data file
  | File name file _ cap => file_ok host_file name file /\ 0 <= cap
  end.
Definition bytes2 (refs : bool) (i : item) : list Z :=
  match i with
  | Block data file line => block2 data file line
  | File name file line _ => file2 host_file refs name file line
  end.
Definition bytes3 (i : item) : list Z :=
  match i with Block data _ _ => block3 data | File name _ _ _ => file3 host_file name end.

(** ** Writing *)
Lemma write_item2 refs c F i : cp_faults c = [] -> cp_error c = false -> cp_writing c = true -> cp_buf c = None -> item_ok i ->
  write_item refs (writer2 c F) i = writer2 c (F ++ bytes2 refs i).
Proof.
  intros Hf He Hw Hb Hi. destruct i as [data file line|name file line cap]; cbn [write_item bytes2 item_ok] in *;
    [unfold system_write_checkpoint_data_loc|unfold checkpoint_write_file_loc];
    change (cp_error (writer2 c F)) with (cp_error c); change (cp_writing (writer2 c F)) with (cp_writing c);
    change (cp_buf (writer2 c F)) with (cp_buf c); rewrite He, Hw, Hb; cbn [orb negb].
  - erewrite flagged_ok by (by apply write_block2). done.
  - erewrite flagged_ok by (apply write_file2; [done|apply Hi]). done.
Qed.
Lemma write_items2 refs c items : cp_faults c = [] -> cp_error c = false -> cp_writing c = true -> cp_buf c = None ->
  Forall item_ok items -> forall F, fold_left (write_item refs) items (writer2 c F) = writer2 c (F ++ concat (bytes2 refs <$> items)).
Proof.
  intros Hf He Hw Hb. induction 1 as [|i items Hi _ IH]; intros F; cbn [fold_left fmap list_fmap concat].
  - by rewrite app_nil_r.
  - by rewrite write_item2, IH, app_assoc.
Qed.
Lemma write_items3 refs items : Forall item_ok items -> forall c b, cp_error c = false -> cp_writing c = true -> cp_buf c = Some b ->
  fold_left (write_item refs) items c = set_cp_buf (Some (b ++ concat (bytes3 <$> items))) c.
Proof.
  induction 1 as [|i items Hi _ IH]; intros c b He Hw Hb; cbn [fold_left fmap list_fmap concat].
  { rewrite app_nil_r, <-Hb. by destruct c. }
  assert (write_item refs c i = set_cp_buf (Some (b ++ bytes3 i)) c) as ->.
  { destruct i as [data file line|name file line cap]; cbn [write_item bytes3 item_ok] in *;
      [unfold system_write_checkpoint_data_loc|unfold checkpoint_write_file_loc]; rewrite He, Hw, Hb; cbn [orb negb].
    - rewrite (append_some c b) by done. rewrite (append_some _ (b ++ le 4 (u32 (zlen data)))) by done.
      unfold block3. by rewrite app_assoc.
    - destruct Hi as [Hi _]. by erewrite write_file3. }
  rewrite (IH _ (b ++ bytes3 i)) by done. by rewrite app_assoc.
Qed.

(** ** Reading *)
Lemma read_item2 refs c i pre post : cp_faults c = [] -> cp_error c = false -> cp_writing c = false -> cp_buf c = None -> item_ok i ->
  read_item i (reader2 c pre (bytes2 refs i ++ post)) = (expected i, reader2 c (pre ++ bytes2 refs i) post).
Proof.
  intros Hf He Hw Hb Hi. destruct i as [data file line|name file line cap]; cbn [read_item bytes2 item_ok expected] in *.
  - unfold system_read_checkpoint_data_loc. change (cp_error (reader2 c pre ?x)) with (cp_error c).
    change (cp_writing (reader2 c pre ?x)) with (cp_writing c). change (cp_buf (reader2 c pre ?x)) with (cp_buf c).
    rewrite He, Hw, Hb. cbn [orb]. by erewrite flagged_ok by (by apply read_block2).
  - destruct Hi. by rewrite read_file2.
Qed.
Lemma read_items2 refs c items : cp_faults c = [] -> cp_error c = false -> cp_writing c = false -> cp_buf c = None -> Forall item_ok items ->
  forall pre, read_items items (reader2 c pre (concat (bytes2 refs <$> items)))
    = (expected <$> items, reader2 c (pre ++ concat (bytes2 refs <$> items)) []).
Proof.
  intros Hf He Hw Hb. induction 1 as [|i items Hi _ IH]; intros pre; cbn [read_items fmap list_fmap concat].
  - by rewrite app_nil_r.
  - by rewrite read_item2, IH, <-app_assoc.
Qed.
Lemma read_item3 c i pre post : cp_error c = false -> cp_writing c = false -> item_ok i ->
  zlen (pre ++ bytes3 i ++ post) < 2 ^ size_bits ->
  read_item i (reader3 c pre (bytes3 i ++ post)) = (expected i, reader3 c (pre ++ bytes3 i) post).
Proof.
  intros He Hw Hi Hs. destruct i as [data file line|name file line cap]; cbn [read_item bytes3 item_ok expected] in *.
  - unfold system_read_checkpoint_data_loc. change (cp_error (reader3 c pre ?x)) with (cp_error c).
    change (cp_writing (reader3 c pre ?x)) with (cp_writing c). change (cp_buf (reader3 c pre ?x)) with (Some (pre ++ x)).
    rewrite He, Hw. cbn [orb]. rewrite read_block3; [done| |done].
    destruct Hi as [Hd _]. unfold CHECKPOINT_MAX_ALLOC in Hd. pow2. lia.
  - destruct Hi. by erewrite read_file3.
Qed.
Lemma read_items3 c items : cp_error c = false -> cp_writing c = false -> Forall item_ok items ->
  forall pre, zlen (pre ++ concat (bytes3 <$> items)) < 2 ^ size_bits ->
  read_items items (reader3 c pre (concat (bytes3 <$> items)))
    = (expected <$> items, reader3 c (pre ++ concat (bytes3 <$> items)) []).
Proof.
  intros He Hw. induction 1 as [|i items Hi _ IH]; intros pre Hs; cbn [read_items fmap list_fmap concat] in *.
  - by rewrite app_nil_r.
  - rewrite read_item3 by done. rewrite IH by (by rewrite <-app_assoc). by rewrite <-app_assoc.
Qed.

(** ** The header *)
(** The field of the model: fifteen bytes of the name, padded with zeros. *)
Definition model_field (model : list Z) : list Z :=
  let id := ztake (MODEL_ID_LEN - 1) model in id ++ zeros (MODEL_ID_LEN - zlen id).
Lemma model_field_len model : zlen (model_field model) = MODEL_ID_LEN.
Proof.
  unfold model_field, MODEL_ID_LEN. pose proof (zlen_nonneg model). rewrite zlen_app, zlen_ztake, zlen_zeros by (rewrite ?zlen_ztake by lia; lia). lia.
Qed.
Lemma model_field_terminated model : ztake (MODEL_ID_LEN - 1) (model_field model) ++ [0] = model_field model.
Proof.
  unfold model_field, MODEL_ID_LEN. set (id := ztake (16 - 1) model). pose proof (zlen_nonneg model).
  assert (0 <= zlen id <= 15) as Hl by (unfold id; rewrite zlen_ztake by lia; lia).
  rewrite ztake_app_more, (ztake_all _ id) by lia. rewrite <-app_assoc. f_equal. unfold zeros, ztake.
  rewrite take_replicate. replace (Z.to_nat (16 - zlen id)) with (Z.to_nat (16 - 1 - zlen id) + 1)%nat by lia.
  rewrite replicate_add. f_equal. f_equal. lia.
Qed.
Definition header_bytes (magic model : list Z) (ram : Z) : list Z := magic ++ build_id ++ model_field model ++ le 4 ram.

(** The state a reader of each format starts in. *)
Definition opened (kind : checkpoint_kind) (buf : option (list Z)) (model : list Z) (ram : Z) : checkpoint :=
  mk_checkpoint (fopen_rb []) false false kind buf 0 (model_field model) ram false [].
Lemma open_read2 model ram rest : in_width 32 ram ->
  checkpoint_open_read build_id (header_bytes CHECKPOINT_MAGIC_V2 model ram ++ rest) []
  = (Some tt, reader2 (opened CHECKPOINT_KIND_CONSOLIDATED None model ram) (header_bytes CHECKPOINT_MAGIC_V2 model ram) rest).
Proof.
  intros Hr. unfold checkpoint_open_read, header_bytes. rewrite <-!app_assoc.
  cbv zeta. pose (c0 := mk_checkpoint (fopen_rb []) false false CHECKPOINT_KIND_CONSOLIDATED None 0 (zeros MODEL_ID_LEN) 0 false []).
  change (mk_checkpoint (fopen_rb ?x) _ _ _ _ _ _ _ _ _) with (reader2 c0 [] x).
  rewrite read2_bind by done. change (bool_decide (CHECKPOINT_MAGIC_V2 = CHECKPOINT_MAGIC_V3)) with false.
  change (bool_decide (CHECKPOINT_MAGIC_V2 = CHECKPOINT_MAGIC_V2)) with true. cbv iota.
  rewrite read2_bind by done. rewrite require_true by (by apply bool_decide_eq_true).
  rewrite read2_bind by (done || by rewrite model_field_len). rewrite read2_bind by (done || by rewrite zlen_le).
  unfold upd. rewrite model_field_terminated, unle_le_id by done. unfold reader2. cbn [cp_file set_cp_file]. cbn [app].
  by rewrite <-!app_assoc.
Qed.
Lemma open_read3 model ram payload : in_width 32 ram -> zlen payload <= CHECKPOINT_MAX_ALLOC ->
  exists c, checkpoint_open_read build_id
    (header_bytes CHECKPOINT_MAGIC_V3 model ram ++ le 8 (zlen payload) ++ le 8 (zlen payload) ++ payload) []
  = (Some tt, reader3 c [] payload) /\
  cp_error c = false /\ cp_writing c = false /\ cp_overrun c = false /\
  cp_kind c = CHECKPOINT_KIND_QUICK /\ cp_model_id c = model_field model /\ cp_ram_size_kb c = ram.
Proof.
  intros Hr Hp. pose proof (zlen_nonneg payload). unfold checkpoint_open_read, header_bytes. rewrite <-!app_assoc.
  cbv zeta. pose (c0 := mk_checkpoint (fopen_rb []) false false CHECKPOINT_KIND_CONSOLIDATED None 0 (zeros MODEL_ID_LEN) 0 false []).
  change (mk_checkpoint (fopen_rb ?x) _ _ _ _ _ _ _ _ _) with (reader2 c0 [] x).
  rewrite read2_bind by done. change (bool_decide (CHECKPOINT_MAGIC_V3 = CHECKPOINT_MAGIC_V3)) with true. cbv iota.
  rewrite bind_assoc, read2_bind by done. rewrite bind_assoc, require_true by (by apply bool_decide_eq_true).
  rewrite bind_assoc, read2_bind by (done || by rewrite model_field_len).
  rewrite bind_assoc, read2_bind by (done || by rewrite zlen_le). rewrite upd_bind, model_field_terminated, (unle_le_id 4) by done.
  set (P := (((([] ++ _) ++ _) ++ _) ++ _)).
  match goal with |- context [mk_checkpoint (cp_file (reader2 c0 P ?post)) _ _ _ _ _ _ _ _ _] =>
    set (c1 := mk_checkpoint (fopen_rb []) false false CHECKPOINT_KIND_CONSOLIDATED None 0 (model_field model) ram false []);
    change (mk_checkpoint (cp_file (reader2 c0 P post)) _ _ _ _ _ _ _ _ _) with (reader2 c1 P post) end.
  rewrite read2_bind by (done || by rewrite zlen_le). rewrite read2_bind by (done || by rewrite zlen_le).
  rewrite !(unle_le_id 8) by (unfold in_width, CHECKPOINT_MAX_ALLOC in *; pow2; cbn; lia).
  rewrite require_true by (apply negb_true_iff, orb_false_iff; split; apply Z.ltb_ge; done).
  set (Q := (P ++ _) ++ _). pose proof (read2 c1 eq_refl (zlen payload) payload Q [] eq_refl) as E. rewrite app_nil_r in E.
  rewrite (bind_Some _ _ _ _ _ E), Z.eqb_refl, ret_bind. unfold upd.
  eexists (mk_checkpoint _ false false CHECKPOINT_KIND_QUICK None 0 (model_field model) ram false []).
  split; [|done]. unfold reader3. cbn. reflexivity.
Qed.

(** ** Round trip *)
Definition write_checkpoint (kind : checkpoint_kind) (model : list Z) (ram : Z) (refs : bool) (items : list item) : checkpoint :=
  fold_left (write_item refs) items (checkpoint_open_write build_id kind model ram []).2.

Lemma ignore_write2 {B} c (Hf : cp_faults c = []) d F (k : unit -> io checkpoint B) :
  (ignore (cp_write d) ≫= k) (writer2 c F) = k tt (writer2 c (F ++ d)).
Proof. by erewrite ignore_bind by (by apply write2). Qed.
(** The payload of a quick checkpoint is limited by what its reader allocates. *)
Definition fits_kind (kind : checkpoint_kind) (items : list item) : Prop :=
  match kind with
  | CHECKPOINT_KIND_QUICK => zlen (concat (bytes3 <$> items)) <= CHECKPOINT_MAX_ALLOC
  | CHECKPOINT_KIND_CONSOLIDATED => True
  end.

Lemma written2 model ram refs items : Forall item_ok items ->
  exists c, write_checkpoint CHECKPOINT_KIND_CONSOLIDATED model ram refs items
    = writer2 c (header_bytes CHECKPOINT_MAGIC_V2 model ram ++ concat (bytes2 refs <$> items)) /\
    cp_error c = false /\ cp_buf c = None /\ cp_kind c = CHECKPOINT_KIND_CONSOLIDATED.
Proof.
  intros Hi. unfold write_checkpoint, checkpoint_open_write. cbv zeta. fold (model_field model).
  set (c0 := mk_checkpoint _ _ _ _ _ _ _ _ _ _). exists c0. split; [|done].
  change c0 with (writer2 c0 []) at 1. rewrite !write2_bind, write2 by done. cbn [snd app].
  rewrite write_items2 by done. unfold header_bytes. by rewrite <-!app_assoc.
Qed.
Lemma written_kind kind model ram refs : checkpoint_get_kind (write_checkpoint kind model ram refs []) = kind.
Proof. destruct kind; [done|]. by destruct (written2 model ram refs [] (list.Forall_nil_2 _)) as (c & -> & _ & _ & ?). Qed.
Lemma written3 model ram refs items : Forall item_ok items ->
  let c := write_checkpoint CHECKPOINT_KIND_QUICK model ram refs items in
  let payload := concat (bytes3 <$> items) in
  cp_error c = false /\
  checkpoint_close build_id c = header_bytes CHECKPOINT_MAGIC_V3 model ram ++ le 8 (zlen payload) ++ le 8 (zlen payload) ++ payload.
Proof.
  intros Hi. cbv zeta. unfold write_checkpoint, checkpoint_open_write. cbv zeta. fold (model_field model). cbn [snd].
  set (c0 := mk_checkpoint _ _ _ _ _ _ _ _ _ _). rewrite (write_items3 refs items Hi c0 []) by done. cbn [app].
  set (payload := concat _). set (c1 := set_cp_buf _ c0). split; [done|]. unfold checkpoint_close.
  change (cp_buf c1) with (Some payload). change (cp_writing c1 && negb (cp_error c1)) with true. cbv iota.
  change (cp_model_id c1) with (model_field model). change (cp_ram_size_kb c1) with ram.
  change c1 with (writer2 c1 []) at 1. rewrite !ignore_write2, write2 by done. cbn [snd].
  unfold writer2. cbn [cp_file set_cp_file fbytes app]. unfold header_bytes. by rewrite <-!app_assoc.
Qed.

Lemma checkpoint_whole kind model ram refs items :
  in_width 32 ram -> Forall item_ok items -> fits_kind kind items ->
  let c := write_checkpoint kind model ram refs items in
  cp_error c = false /\
  exists r r', checkpoint_open_read build_id (checkpoint_close build_id c) [] = (Some tt, r) /\
    checkpoint_get_kind r = kind /\ checkpoint_get_model_id r = model_field model /\ checkpoint_get_ram_size_kb r = ram /\
    read_items items r = (expected <$> items, r') /\ cp_error r' = false /\ cp_overrun r' = false.
Proof.
  intros Hr Hi Hk. cbv zeta. destruct kind.
  - destruct (written3 model ram refs items Hi) as [He Hc]. split; [done|]. rewrite Hc. cbn [fits_kind] in Hk.
    destruct (open_read3 model ram _ Hr Hk) as (c & -> & Hce & Hcw & Hco & Hck & Hcm & Hcr).
    do 2 eexists. split_and!; [done..|rewrite read_items3; [done..|]|done|done]. by apply size_ge.
  - destruct (written2 model ram refs items Hi) as (c & -> & He & Hb & _). split; [done|].
    assert (checkpoint_close build_id (writer2 c (header_bytes CHECKPOINT_MAGIC_V2 model ram ++ concat (bytes2 refs <$> items)))
      = header_bytes CHECKPOINT_MAGIC_V2 model ram ++ concat (bytes2 refs <$> items)) as ->.
    { unfold checkpoint_close. change (cp_buf (writer2 c ?x)) with (cp_buf c). by rewrite Hb. }
    rewrite open_read2 by done. do 2 eexists. split_and!; [done..|by rewrite read_items2|done|done].
Qed.

(** C22: a checkpoint reads back as it was written.  In either format, for any
    sequence of blocks and files that fit its counts: no error is raised while
    it is written; the file opens again with the same kind, machine model
    (fifteen bytes of its name) and RAM size; and reading the same sequence
    gives every block byte for byte, and of every file its path and its
    contents up to the size of the buffer, embedded or by reference. *)
Theorem checkpoint_file_roundtrip kind model ram refs items :
  in_width 32 ram -> Forall item_ok items -> fits_kind kind items ->
  let c := write_checkpoint kind model ram refs items in
  cp_error c = false /\
  exists r r', checkpoint_open_read build_id (checkpoint_close build_id c) [] = (Some tt, r) /\
    checkpoint_get_kind r = kind /\ checkpoint_get_model_id r = model_field model /\ checkpoint_get_ram_size_kb r = ram /\
    read_items items r = (expected <$> items, r') /\ cp_error r' = false /\ cp_overrun r' = false.
Proof. apply checkpoint_whole. Qed.

(** ** Any file at all *)
Lemma cp_read_inv n c d c' : cp_read n c = (Some d, c') ->
  read_at (fbytes (cp_file c)) (fpos (cp_file c)) n = Some d /\
  cp_file c' = mk_FILE (fbytes (cp_file c)) (fpos (cp_file c) + n) (fappend (cp_file c)) /\
  cp_error c' = cp_error c /\ cp_writing c' = cp_writing c /\ cp_kind c' = cp_kind c.
Proof.
  unfold cp_read, fread. destruct (cp_outcome c); [|done].
  destruct (read_at _ _ n) as [x|] eqn:E; [|done]. by intros [= <- <-].
Qed.
Lemma require_inv {S} b (s s' : S) u : require b s = (Some u, s') -> b = true /\ s' = s.
Proof. unfold require. destruct b; [|done]. by intros [= _ <-]. Qed.
Lemma read_at_prefix2 f a b x y : read_at f 0 a = Some x -> read_at f a b = Some y -> ztake (a + b) f = x ++ y.
Proof.
  intros Hx Hy. apply read_at_Some in Hx as (_ & Ha & Hl & -> & _). apply read_at_Some in Hy as (_ & Hb & Hl' & -> & _).
  change (zdrop 0 f) with f. unfold ztake, zdrop. rewrite Z2Nat.inj_add by done. by rewrite <-take_take_drop.
Qed.

Definition bytes_of (contents : list Z) (c : checkpoint) : Prop := fbytes (cp_file c) = contents /\ cp_overrun c = false.
Lemma keeps_read contents n : is_byte_list contents ->
  keeps (bytes_of contents) (cp_read n) (fun d => is_byte_list d /\ (0 <= n -> zlen d = n)).
Proof.
  intros Hb c [Hc Ho]. unfold cp_read, fread. destruct (cp_outcome c); [|done].
  destruct (read_at _ _ n) as [x|] eqn:E; cbn; [|done]. split; [done|]. intros a [= <-].
  apply read_at_Some in E as (_ & ? & _ & -> & ?). split; [|done]. rewrite Hc. by apply list.Forall_take, list.Forall_drop.
Qed.

Lemma keeps_decoded contents inp n : is_byte_list inp -> 0 <= n -> zlen inp + 2 ^ 32 <= 2 ^ size_bits -> n + 2 ^ 32 <= 2 ^ size_bits ->
  keeps (bytes_of contents) (decoded (rle_decode inp n)) (fun _ => True).
Proof.
  intros Hb Hn Hi Ho. pose proof (rle_decode_safe inp n Hb Hn Hi Ho). destruct (rle_decode inp n); [by apply keeps_ret|apply keeps_fail|done].
Qed.
Lemma unle_nonneg l : is_byte_list l -> 0 <= unle l.
Proof. intros Hl. by destruct (unle_range l Hl). Qed.
Ltac keep_step := eapply keeps_bind; [first [by apply keeps_read | apply keeps_require | by apply keeps_upd]|intros].
Lemma open_safe contents o : 33 <= size_bits -> is_byte_list contents ->
  cp_overrun (checkpoint_open_read build_id contents o).2 = false.
Proof.
  intros Hs Hb. assert (2 ^ 33 <= 2 ^ size_bits) as Hp by (apply Z.pow_le_mono_r; lia).
  unfold checkpoint_open_read. cbv zeta.
  match goal with |- cp_overrun (?m ?c).2 = false =>
    assert (keeps (bytes_of contents) m (fun _ => True)) as K; [|by apply (K c)] end.
  assert (forall A (k : list Z -> list Z -> io checkpoint A), (forall model ram, keeps (bytes_of contents) (k model ram) (fun _ => True)) ->
    keeps (bytes_of contents) (bid ← cp_read BUILD_ID_LEN; require (bool_decide (bid = build_id));;
      model ← cp_read MODEL_ID_LEN; ram ← cp_read 4; k model ram) (fun _ => True)) as Hh.
  { intros A k Hk. do 4 keep_step. apply Hk. }
  keep_step. destruct (bool_decide (_ = CHECKPOINT_MAGIC_V3)).
  2: { destruct (bool_decide (_ = CHECKPOINT_MAGIC_V2)); [|apply keeps_fail]. apply Hh. intros. by apply keeps_upd. }
  eapply keeps_bind; [apply Hh; intros; by apply keeps_upd|intros].
  eapply keeps_bind; [by apply keeps_read|intros un [Hu _]]. eapply keeps_bind; [by apply keeps_read|intros cm [Hcm _]].
  pose proof (unle_nonneg _ Hu). pose proof (unle_nonneg _ Hcm).
  eapply keeps_bind; [apply keeps_require|intros ? Hr]; cbv beta in Hr. rewrite negb_true_iff, orb_false_iff, !Z.ltb_ge in Hr.
  eapply keeps_bind; [by apply keeps_read|intros cb [Hcb Hl]]. unfold CHECKPOINT_MAX_ALLOC in Hr. change (2 ^ 33) with 8589934592 in Hp.
  apply (keeps_bind _ _ _ (fun _ => True)); [|intros; by apply keeps_upd]. destruct (_ =? _); [by apply keeps_ret|].
  apply keeps_decoded; [done|lia|change (2 ^ 32) with 4294967296; lia..].
Qed.

(** C24: whatever bytes a file holds and whatever errors reading it meets, it is
    opened as a checkpoint only if it starts with one of the two signatures and
    the identifier of this very build, and its kind is that of the signature;
    and on a platform whose size_t is wider than the counts of the format,
    opening it never writes behind a buffer. *)
Theorem open_read_checks contents o : let '(ok, r) := checkpoint_open_read build_id contents o in
  (is_Some ok -> exists magic, ztake (CHECKPOINT_MAGIC_LEN + BUILD_ID_LEN) contents = magic ++ build_id /\
    magic = match checkpoint_get_kind r with CHECKPOINT_KIND_QUICK => CHECKPOINT_MAGIC_V3 | _ => CHECKPOINT_MAGIC_V2 end /\
    checkpoint_has_error r = false) /\
  (33 <= size_bits -> is_byte_list contents -> cp_overrun r = false).
Proof.
  destruct (checkpoint_open_read build_id contents o) as [ok r] eqn:E. split.
  - intros [[] ->]. unfold checkpoint_open_read in E. cbv zeta in E. set (c0 := mk_checkpoint _ _ _ _ _ _ _ _ _ _) in E.
    apply bind_inv in E as (magic & c1 & E1 & E). apply cp_read_inv in E1 as (R1 & F1 & _ & _ & K1). cbn [cp_file c0 fopen_rb fbytes fpos fappend] in R1, F1.
    exists magic. destruct (bool_decide_reflect (magic = CHECKPOINT_MAGIC_V3)) as [Em|Em].
    + apply bind_inv in E as (u & c2 & E2 & E). apply bind_inv in E2 as (bid & c3 & E3 & E2).
      apply cp_read_inv in E3 as (R3 & _). rewrite F1 in R3. apply bind_inv in E2 as (u' & c4 & E4 & _).
      apply require_inv in E4 as [Hb _]. apply bool_decide_eq_true in Hb as ->.
      repeat (apply bind_inv in E as (? & ? & _ & E)). injection E as <-. split; [by apply read_at_prefix2|]. by rewrite Em.
    + destruct (bool_decide_reflect (magic = CHECKPOINT_MAGIC_V2)) as [Em2|]; [|done].
      apply bind_inv in E as (bid & c3 & E3 & E). apply cp_read_inv in E3 as (R3 & _ & _ & _ & K3). rewrite F1 in R3.
      apply bind_inv in E as (u' & c4 & E4 & E). apply require_inv in E4 as [Hb ->]. apply bool_decide_eq_true in Hb as ->.
      apply bind_inv in E as (model & c5 & E5 & E). apply cp_read_inv in E5 as (_ & _ & _ & _ & K5).
      apply bind_inv in E as (ram' & c6 & E6 & E). apply cp_read_inv in E6 as (_ & _ & _ & _ & K6).
      injection E as <-. split; [by apply read_at_prefix2|]. unfold checkpoint_get_kind. cbn [cp_kind].
      by rewrite K6, K5, K3, K1.
  - intros Hs Hb. pose proof (open_safe contents o Hs Hb) as Ho. by rewrite E in Ho.
Qed.
End Whole.
