(* ===== verification/Storage.v ===== *)
(** * Delta images

    Model of src/core/storage/storage.c: a disk image is a base file that is
    never written, a delta file with the blocks written since, and a journal
    with the previous contents of the blocks that were overwritten after the
    last checkpoint.  Every FILE operation may fail by the outcome the system
    gives it ([faults]); memory allocation is taken to succeed, and so are the
    flushes of stdio. *)
From S2P Require Import Prelude Stdio.

Definition DELTA_MAGIC : list Z := [0x47; 0x53; 0x44; 0x4C]. (* GSDL *)
Definition DELTA_MAGIC_SIZE : Z := 4.
Definition DELTA_VERSION : Z := 1.
Definition DELTA_HEADER_SIZE : Z := 24.
Definition STORAGE_BLOCK_SIZE : Z := 512.
Definition STORAGE_MAX_BLOCK_SIZE : Z := 1024.

(** storage_t; journal_lbas is the index with its count, its capacity is not
    observable. *)
Record storage := mk_storage {
  base_fp : option FILE;
  delta_fp : FILE;
  journal_fp : FILE;
  bitmap : list Z;
  committed_bitmap : list Z;
  block_count : Z;
  block_size : Z;
  bitmap_bytes : Z;
  base_data_offset : Z;
  bitmap_offset : Z;
  data_offset : Z;
  journal_lbas : list Z;
  bitmap_dirty : bool;
  faults : list io_outcome;
}.
Definition storage_eta (s : storage) : storage :=
  mk_storage (base_fp s) (delta_fp s) (journal_fp s) (bitmap s) (committed_bitmap s) (block_count s) (block_size s)
    (bitmap_bytes s) (base_data_offset s) (bitmap_offset s) (data_offset s) (journal_lbas s) (bitmap_dirty s) (faults s).
Ltac storage_set proj x s := field_set storage_eta proj x s.
Definition set_base_fp (x : option FILE) (s : storage) : storage := ltac:(storage_set base_fp x s).
Definition set_delta_fp (x : FILE) (s : storage) : storage := ltac:(storage_set delta_fp x s).
Definition set_journal_fp (x : FILE) (s : storage) : storage := ltac:(storage_set journal_fp x s).
Definition set_bitmap (x : list Z) (s : storage) : storage := ltac:(storage_set bitmap x s).
Definition set_committed_bitmap (x : list Z) (s : storage) : storage := ltac:(storage_set committed_bitmap x s).
Definition set_journal_lbas (x : list Z) (s : storage) : storage := ltac:(storage_set journal_lbas x s).
Definition set_bitmap_dirty (x : bool) (s : storage) : storage := ltac:(storage_set bitmap_dirty x s).
Definition set_faults (x : list io_outcome) (s : storage) : storage := ltac:(storage_set faults x s).

Definition JOURNAL_ENTRY_SIZE (s : storage) : Z := 4 + block_size s.
Definition journal_count (s : storage) : Z := zlen (journal_lbas s).

(** ** Bitmaps *)
Definition bitmap_test (bm : list Z) (bit : Z) : bool :=
  truthy (Z.land (nth (Z.to_nat (Z.shiftr bit 3)) bm 0) (Z.shiftl 1 (Z.land bit 7))).
Definition bitmap_set (bm : list Z) (bit : Z) : list Z :=
  let i := Z.to_nat (Z.shiftr bit 3) in
  <[i := Z.lor (nth i bm 0) (u8 (Z.shiftl 1 (Z.land bit 7)))]> bm.

Section Engine.
Context `{!Abi}.

(** ** The transfers of the three files *)
Definition outcome_now (s : storage) : io_outcome := match faults s with o :: _ => o | [] => Done end.
Definition next_fault (s : storage) : storage := set_faults (tail (faults s)) s.

Definition delta_seek (off : Z) : io storage unit := upd (fun s => set_delta_fp (fseek_set off (delta_fp s)) s).
Definition delta_read (n : Z) : io storage (list Z) := fun s =>
  let '(d, f) := fread (outcome_now s) n (delta_fp s) in (d, set_delta_fp f (next_fault s)).
Definition delta_write (d : list Z) : io storage unit := fun s =>
  let '(ok, f) := fwrite (outcome_now s) d (delta_fp s) in
  (if ok then Some tt else None, set_delta_fp f (next_fault s)).
Definition journal_seek (off : Z) : io storage unit := upd (fun s => set_journal_fp (fseek_set off (journal_fp s)) s).
Definition journal_read (n : Z) : io storage (list Z) := fun s =>
  let '(d, f) := fread (outcome_now s) n (journal_fp s) in (d, set_journal_fp f (next_fault s)).
Definition journal_write (d : list Z) : io storage unit := fun s =>
  let '(ok, f) := fwrite (outcome_now s) d (journal_fp s) in
  (if ok then Some tt else None, set_journal_fp f (next_fault s)).
Definition journal_truncate : io storage unit := fun s =>
  let '(ok, f) := ftruncate0 (outcome_now s) (journal_fp s) in
  (if ok then Some tt else None, set_journal_fp f (next_fault s)).

(** ** The journal *)
Definition journal_has_lba (s : storage) (lba : Z) : bool := existsb (Z.eqb lba) (journal_lbas s).
Definition journal_index_add (lba : Z) : io storage unit :=
  upd (fun s => set_journal_lbas (journal_lbas s ++ [lba]) s).
Definition journal_append (lba : Z) (data : list Z) : io storage unit :=
  journal_write (le 4 lba);;
  journal_write data;;
  journal_index_add lba.

Definition load_entry : io storage unit :=
  lba ← journal_read 4;
  upd (fun s => set_journal_fp (fseek_cur (block_size s) (journal_fp s)) s);;
  journal_index_add (unle lba).
Definition journal_load_index : io storage unit :=
  upd (set_journal_lbas []);;
  size ← asks (fun s => zlen (fbytes (journal_fp s)));
  if size <=? 0 then mret tt
  else
    journal_seek 0;;
    entries ← asks (fun s => size / JOURNAL_ENTRY_SIZE s);
    repeat_io (Z.to_nat entries) load_entry;;
    upd (fun s => set_journal_fp (fseek_end (journal_fp s)) s).

(** ** The delta file *)
Definition delta_write_header : io storage unit :=
  delta_seek 0;;
  delta_write DELTA_MAGIC;;
  delta_write (le 4 DELTA_VERSION);;
  n ← asks block_count; delta_write (le 8 n);;
  b ← asks block_size; delta_write (le 4 b);;
  delta_write (le 4 0).
Definition delta_read_header : io storage unit :=
  delta_seek 0;;
  magic ← delta_read DELTA_MAGIC_SIZE;
  require (bool_decide (magic = DELTA_MAGIC));;
  version ← delta_read 4;
  require (unle version =? DELTA_VERSION);;
  count ← delta_read 8; n ← asks block_count;
  require (unle count =? n);;
  size ← delta_read 4; b ← asks block_size;
  require (unle size =? b);;
  upd (fun s => set_delta_fp (fseek_cur 4 (delta_fp s)) s).
Definition delta_flush_bitmaps : io storage unit :=
  off ← asks bitmap_offset; delta_seek off;;
  b ← asks bitmap; delta_write b;;
  c ← asks committed_bitmap; delta_write c.
Definition delta_read_bitmaps : io storage unit :=
  off ← asks bitmap_offset; delta_seek off;;
  n ← asks bitmap_bytes;
  b ← delta_read n; upd (set_bitmap b);;
  c ← delta_read n; upd (set_committed_bitmap c).

(** ** Lifecycle *)
Record storage_config := mk_config {
  cfg_block_count : Z;
  cfg_block_size : Z;
  cfg_base_data_offset : Z;
}.
(** What the paths of the configuration open: the base if it can be opened, the
    delta file or why not, whether a delta file can be created, the journal. *)
Inductive fopen_result := Opened (l : list Z) | NoEntry | Refused.
Record host_files := mk_host {
  host_base : option (list Z);
  host_delta : fopen_result;
  host_can_create : bool;
  host_journal : option (list Z);
}.

Definition config_ok (c : storage_config) : bool :=
  negb ((cfg_block_size c <? STORAGE_BLOCK_SIZE) || (STORAGE_MAX_BLOCK_SIZE <? cfg_block_size c)
        || truthy (cfg_block_size c mod 4))
  && negb (cfg_block_count c =? 0) && negb (2 ^ 32 - 1 <? cfg_block_count c).

Definition fresh (c : storage_config) (h : host_files) (o : list io_outcome) : storage :=
  let bytes := (cfg_block_count c + 7) / 8 in
  mk_storage (fopen_rb <$> host_base h) (fopen_rb []) (fopen_ab [])
    (zeros bytes) (zeros bytes) (cfg_block_count c) (cfg_block_size c) bytes (cfg_base_data_offset c)
    DELTA_HEADER_SIZE (DELTA_HEADER_SIZE + 2 * bytes) [] false o.

Definition storage_open (h : host_files) : io storage unit :=
  match host_delta h with
  | Opened l => upd (set_delta_fp (fopen_rb l));; delta_read_header;; delta_read_bitmaps
  | NoEntry => require (host_can_create h);; delta_write_header;; delta_flush_bitmaps
  | Refused => fail
  end;;
  match host_journal h with
  | Some l => upd (set_journal_fp (fopen_ab l))
  | None => fail
  end;;
  ignore journal_load_index.
Definition storage_new (c : storage_config) (h : host_files) (o : list io_outcome) : option unit * storage :=
  if config_ok c then storage_open h (fresh c h o) else (None, fresh c h o).

(** ** Block I/O *)
Definition block_pos (s : storage) (lba : Z) : Z := usize (data_offset s + usize (lba * block_size s)).
(** The checks of an offset, and the block it names. *)
Definition block_of (offset : Z) : io storage Z :=
  bs ← asks block_size;
  require (offset mod bs =? 0);;
  n ← asks block_count;
  require (negb (n <=? offset / bs));;
  mret (u32 (offset / bs)).

(** The buffer after the call, [None] if it was not touched. *)
Definition storage_read_block (offset : Z) (s : storage) : (bool * option (list Z)) * storage :=
  match block_of offset s with
  | (None, s) => ((false, None), s)
  | (Some lba, s) =>
      let blank := zeros (block_size s) in
      if bitmap_test (bitmap s) lba then
        match (delta_seek (block_pos s lba);; delta_read (block_size s)) s with
        | (Some d, s) => ((true, Some d), s)
        | (None, s) => ((false, Some blank), s)
        end
      else
        match base_fp s with
        | Some f =>
            let f := fseek_set (usize (base_data_offset s + usize (lba * block_size s))) f in
            let '(d, f) := fread (outcome_now s) (block_size s) f in
            ((true, Some (default blank d)), set_base_fp (Some f) (next_fault s))
        | None => ((true, Some blank), s)
        end
  end.

Definition capture_preimage (lba : Z) : io storage unit :=
  s ← asks id;
  unless (negb (bitmap_test (committed_bitmap s) lba && negb (journal_has_lba s lba)))
    (delta_seek (block_pos s lba);;
     old ← delta_read (block_size s);
     journal_append lba old).
Definition storage_write_block (offset : Z) (buffer : list Z) : io storage unit :=
  lba ← block_of offset;
  capture_preimage lba;;
  pos ← asks (fun s => block_pos s lba);
  delta_seek pos;;
  delta_write buffer;;
  upd (fun s => set_bitmap_dirty true (set_bitmap (bitmap_set (bitmap s) lba) s)).

(** ** Rollback *)
Definition replay_entry : io storage unit :=
  lba ← journal_read 4;
  bs ← asks block_size;
  data ← journal_read bs;
  pos ← asks (fun s => block_pos s (unle lba));
  delta_seek pos;;
  delta_write data.
(** The truncation shared by the callers that keep the index if it fails. *)
Definition reset_journal : io storage unit :=
  journal_truncate;;
  journal_seek 0;;
  upd (set_journal_lbas []).
Definition storage_apply_rollback : io storage unit :=
  n ← asks journal_count;
  if n =? 0 then mret tt
  else
    journal_seek 0;;
    repeat_io (Z.to_nat n) replay_entry;;
    upd (fun s => set_bitmap (committed_bitmap s) s);;
    delta_flush_bitmaps;;
    reset_journal.
Definition storage_clear_rollback : io storage unit :=
  upd (fun s => set_committed_bitmap (bitmap s) s);;
  s ← asks id;
  unless (negb (bitmap_dirty s || (0 <? journal_count s)))
    (ignore delta_flush_bitmaps;;
     upd (set_bitmap_dirty false);;
     unless (negb (0 <? journal_count s))
       (ignore journal_truncate;; journal_seek 0;; upd (set_journal_lbas []))).

(** ** Streaming

    The callback is a parameter: its context, and whether it succeeded. *)
Section Streaming.
Context {C : Type}.

Fixpoint save_blocks (write_cb : C -> list Z -> bool * C) (block : Z) (n : nat) (ctx : C) (s : storage)
    : bool * C * storage :=
  match n with
  | O => (true, ctx, s)
  | S n =>
      match storage_read_block (usize (block * block_size s)) s with
      | ((true, Some buffer), s) =>
          match write_cb ctx buffer with
          | (true, ctx) => save_blocks write_cb (block + 1) n ctx s
          | (false, ctx) => (false, ctx, s)
          end
      | (_, s) => (false, ctx, s)
      end
  end.
Definition storage_save_state (write_cb : C -> list Z -> bool * C) (ctx : C) (s : storage) : bool * C * storage :=
  save_blocks write_cb 0 (Z.to_nat (block_count s)) ctx s.

(** read_cb with read_exact: the bytes if as many were read as asked for. *)
Definition load_block (block : Z) (buffer : list Z) : io storage unit :=
  off ← asks (fun s => usize (data_offset s + usize (block * block_size s)));
  delta_seek off;;
  delta_write buffer;;
  upd (fun s => set_bitmap (bitmap_set (bitmap s) (u32 block)) s).
Fixpoint load_blocks (read_cb : C -> Z -> option (list Z) * C) (block : Z) (n : nat) (ctx : C) (s : storage)
    : bool * C * storage :=
  match n with
  | O => (true, ctx, s)
  | S n =>
      match read_cb ctx (block_size s) with
      | (None, ctx) => (false, ctx, s)
      | (Some buffer, ctx) =>
          match load_block block buffer s with
          | (Some _, s) => load_blocks read_cb (block + 1) n ctx s
          | (None, s) => (false, ctx, s)
          end
      end
  end.
Definition commit_loaded : io storage unit :=
  upd (fun s => set_committed_bitmap (bitmap s) s);;
  ignore delta_flush_bitmaps;;
  ignore journal_truncate;;
  journal_seek 0;;
  upd (set_journal_lbas []).
Definition storage_load_state (read_cb : C -> Z -> option (list Z) * C) (ctx : C) (s : storage) : bool * C * storage :=
  match load_blocks read_cb 0 (Z.to_nat (block_count s)) ctx s with
  | (true, ctx, s) => (true, ctx, (commit_loaded s).2)
  | r => r
  end.
End Streaming.
End Engine.
