(* ===== verification/StorageProofs.v ===== *)
(** * The delta engine, operation by operation

    What each operation of storage.c does to the files when the system gives no
    error, the invariant of an open image, and that every operation keeps it. *)
From S2P Require Import Prelude Stdio Storage.

(** ** Bitmaps *)
Lemma land_7 i : Z.land i 7 = i mod 8.
Proof. apply (land_ones_mod i 3). lia. Qed.
Lemma bitmap_test_bit bm i : 0 <= i ->
  bitmap_test bm i = Z.testbit (nth (Z.to_nat (i / 8)) bm 0) (i mod 8).
Proof.
  intros Hi. unfold bitmap_test. rewrite land_7, Z.shiftr_div_pow2 by lia.
  change (2 ^ 3) with 8. rewrite Z.shiftl_1_l. apply truthy_land_pow2. apply Z.mod_pos_bound. lia.
Qed.
Lemma length_bitmap_set bm i : length (bitmap_set bm i) = length bm.
Proof. apply length_insert. Qed.
Lemma bitmap_test_set bm i j : 0 <= i < 8 * zlen bm -> 0 <= j ->
  bitmap_test (bitmap_set bm i) j = (i =? j) || bitmap_test bm j.
Proof.
  intros Hi Hj. rewrite !bitmap_test_bit by done. unfold bitmap_set.
  rewrite land_7, Z.shiftr_div_pow2, Z.shiftl_1_l by lia. change (2 ^ 3) with 8.
  pose proof (Z.mod_pos_bound i 8 ltac:(lia)) as Hm. pose proof (Z.mod_pos_bound j 8 ltac:(lia)) as Hm'.
  assert (0 <= i / 8 < zlen bm) as Hd by (split; [apply Z.div_pos|apply Z.div_lt_upper_bound]; lia).
  assert (0 <= j / 8) by (apply Z.div_pos; lia).
  destruct (decide (Z.to_nat (i / 8) = Z.to_nat (j / 8))) as [E|E].
  - rewrite <-E. rewrite nth_lookup, list_lookup_insert_eq by (unfold zlen in Hd; lia). cbn [default from_option id].
    rewrite Z.lor_spec. unfold u8. rewrite wrap_testbit, Z.pow2_bits_eqb by lia.
    destruct (Z.ltb_spec (j mod 8) 8); [|lia]. cbn [andb].
    rewrite orb_comm. f_equal. apply Z2Nat.inj in E; [|lia..].
    pose proof (Z.div_mod i 8). pose proof (Z.div_mod j 8).
    destruct (Z.eqb_spec (i mod 8) (j mod 8)), (Z.eqb_spec i j); subst; try done; lia.
  - rewrite (nth_lookup (<[_:=_]> _)), list_lookup_insert_ne, <-nth_lookup by done.
    destruct (Z.eqb_spec i j) as [->|]; done.
Qed.
Lemma bitmap_test_zeros n i : bitmap_test (zeros n) i = false.
Proof.
  unfold bitmap_test, zeros. assert (nth (Z.to_nat (Z.shiftr i 3)) (replicate (Z.to_nat n) 0) 0 = 0) as ->.
  { rewrite nth_lookup. destruct (_ !! _) as [x|] eqn:E; [|done]. by apply lookup_replicate in E as [-> _]. }
  by rewrite Z.land_0_l.
Qed.

(** ** Transfers without errors *)
Class AbiOk (A : Abi) : Prop := {
  long_pos : 8 < long_bits;
  long_size : long_bits <= size_bits;
}.
#[global] Instance lp64_ok : AbiOk lp64.
Proof. split; cbn; lia. Qed.
#[global] Instance wasm32_ok : AbiOk wasm32.
Proof. split; cbn; lia. Qed.

Definition pos_to (p : Z) (f : FILE) : FILE := mk_FILE (fbytes f) p (fappend f).
(** The same image with other file positions. *)
Definition reposition (b d j : Z) (s : storage) : storage :=
  set_base_fp (pos_to b <$> base_fp s) (set_delta_fp (pos_to d (delta_fp s)) (set_journal_fp (pos_to j (journal_fp s)) s)).
Definition moved (s s' : storage) : Prop := exists b d j, s' = reposition b d j s.

Lemma next_fault_none s : faults s = [] -> next_fault s = s.
Proof. intros E. unfold next_fault, set_faults. rewrite E. cbn. destruct s. cbn in *. by rewrite E. Qed.
Lemma outcome_done s : faults s = [] -> outcome_now s = Done.
Proof. intros E. unfold outcome_now. by rewrite E. Qed.

Section Transfers.
Context `{!Abi} `{!AbiOk _}.
Implicit Types s : storage.

(** A position that a long can hold. *)
Definition fits (p : Z) : Prop := 0 <= p < 2 ^ (long_bits - 1).
Lemma fseek_fits p f : fits p -> fseek_set p f = pos_to p f.
Proof. intros Hp. apply fseek_set_ok; [done|]. pose proof long_pos. lia. Qed.
Lemma usize_fits p : fits p -> usize p = p.
Proof.
  intros [Hp Hl]. apply wrap_small. split; [done|]. pose proof long_pos. pose proof long_size.
  eapply Z.lt_le_trans; [exact Hl|]. apply Z.pow_le_mono_r; lia.
Qed.
Lemma fits_0 : fits 0.
Proof. split; [lia|]. pose proof long_pos. apply Z.pow_pos_nonneg; lia. Qed.

Lemma delta_read_done s p n d : faults s = [] -> fits p ->
  read_at (fbytes (delta_fp s)) p n = Some d ->
  (delta_seek p;; delta_read n) s = (Some d, set_delta_fp (pos_to (p + n) (delta_fp s)) s).
Proof.
  intros Hf Hp Hr. unfold delta_seek, upd, delta_read. unfold mbind, io_bind. cbv beta iota.
  rewrite fseek_fits by done. unfold fread.
  assert (outcome_now (set_delta_fp (pos_to p (delta_fp s)) s) = Done) as -> by (by apply outcome_done).
  cbn [delta_fp set_delta_fp fbytes fpos pos_to]. rewrite Hr.
  rewrite next_fault_none by done. done.
Qed.
Lemma delta_write_done s p d : faults s = [] -> fits p -> fappend (delta_fp s) = false ->
  (delta_seek p;; delta_write d) s
  = (Some tt, set_delta_fp (mk_FILE (write_at (fbytes (delta_fp s)) p d) (p + zlen d) false) s).
Proof.
  intros Hf Hp Ha. unfold delta_seek, upd, delta_write. unfold mbind, io_bind. cbv beta iota.
  rewrite fseek_fits by done. unfold fwrite.
  assert (outcome_now (set_delta_fp (pos_to p (delta_fp s)) s) = Done) as -> by (by apply outcome_done).
  cbn [delta_fp set_delta_fp fbytes fpos fappend pos_to]. rewrite Ha, next_fault_none by done. done.
Qed.
Lemma delta_write_more s d : faults s = [] -> fappend (delta_fp s) = false ->
  delta_write d s
  = (Some tt, set_delta_fp (mk_FILE (write_at (fbytes (delta_fp s)) (fpos (delta_fp s)) d) (fpos (delta_fp s) + zlen d) false) s).
Proof.
  intros Hf Ha. unfold delta_write, fwrite. rewrite outcome_done, Ha, next_fault_none by done. done.
Qed.
Lemma delta_read_more s n d : faults s = [] -> read_at (fbytes (delta_fp s)) (fpos (delta_fp s)) n = Some d ->
  delta_read n s = (Some d, set_delta_fp (pos_to (fpos (delta_fp s) + n) (delta_fp s)) s).
Proof. intros Hf Hr. unfold delta_read, fread. by rewrite outcome_done, Hr, next_fault_none by done. Qed.
Lemma journal_read_more s n d : faults s = [] -> read_at (fbytes (journal_fp s)) (fpos (journal_fp s)) n = Some d ->
  journal_read n s = (Some d, set_journal_fp (pos_to (fpos (journal_fp s) + n) (journal_fp s)) s).
Proof. intros Hf Hr. unfold journal_read, fread. by rewrite outcome_done, Hr, next_fault_none by done. Qed.

(** An entry of the journal. *)
Definition entry_bytes (e : Z * list Z) : list Z := le 4 e.1 ++ e.2.
Definition journal_image (es : list (Z * list Z)) : list Z := concat (entry_bytes <$> es).

Lemma journal_append_done s lba d : faults s = [] -> fappend (journal_fp s) = true ->
  journal_append lba d s
  = (Some tt, set_journal_lbas (journal_lbas s ++ [lba])
       (set_journal_fp (mk_FILE (fbytes (journal_fp s) ++ entry_bytes (lba, d))
          (zlen (fbytes (journal_fp s)) + 4 + zlen d) true) s)).
Proof.
  intros Hf Ha. unfold journal_append, journal_index_add, upd, journal_write, fwrite. unfold mbind, io_bind. cbv beta iota.
  rewrite outcome_done, Ha, next_fault_none by done. cbv beta iota zeta.
  set (s1 := set_journal_fp _ s). assert (outcome_now s1 = Done) as -> by (by apply outcome_done).
  assert (next_fault s1 = s1) as -> by (by apply next_fault_none).
  unfold s1. cbn [journal_fp set_journal_fp fappend fbytes]. rewrite !write_at_end.
  unfold entry_bytes. cbn [fst snd]. rewrite <-app_assoc.
  do 2 f_equal. unfold set_journal_fp. cbn. do 2 f_equal. zlens. lia.
Qed.
Lemma journal_truncate_done s : faults s = [] ->
  journal_truncate s = (Some tt, set_journal_fp (mk_FILE [] (fpos (journal_fp s)) (fappend (journal_fp s))) s).
Proof. intros Hf. unfold journal_truncate, ftruncate0. by rewrite outcome_done, next_fault_none by done. Qed.
End Transfers.

(** ** Images *)
Section Image.
Context `{!Abi} `{!AbiOk _}.
Implicit Types (s : storage) (es : list (Z * list Z)).

Record geometry s : Prop := {
  geo_size : 512 <= block_size s <= 1024;
  geo_mod : block_size s mod 4 = 0;
  geo_count : 0 < block_count s < 2 ^ 32;
  geo_bytes : bitmap_bytes s = (block_count s + 7) / 8;
  geo_off : bitmap_offset s = DELTA_HEADER_SIZE;
  geo_data : data_offset s = DELTA_HEADER_SIZE + 2 * bitmap_bytes s;
  geo_fits : data_offset s + block_count s * block_size s <= 2 ^ (long_bits - 1);
  geo_base : 0 <= base_data_offset s;
  geo_base_fits : base_data_offset s + block_count s * block_size s <= 2 ^ (long_bits - 1);
}.

Definition in_image s (lba : Z) : Prop := 0 <= lba < block_count s.
Definition data_at s (lba : Z) : Z := data_offset s + lba * block_size s.
Definition dblock s (lba : Z) : option (list Z) := read_at (fbytes (delta_fp s)) (data_at s lba) (block_size s).
Definition base_block s (lba : Z) : list Z :=
  match base_fp s with
  | Some f => default (zeros (block_size s)) (read_at (fbytes f) (base_data_offset s + lba * block_size s) (block_size s))
  | None => zeros (block_size s)
  end.
(** The block the guest sees, and the block of the last checkpoint. *)
Definition content s (lba : Z) : list Z :=
  if bitmap_test (bitmap s) lba then default [] (dblock s lba) else base_block s lba.
Definition preimages es : gmap Z (list Z) := list_to_map es.
Definition saved_content s es (lba : Z) : list Z :=
  if bitmap_test (committed_bitmap s) lba then default (default [] (dblock s lba)) (preimages es !! lba)
  else base_block s lba.

Definition header_of (count size : Z) : list Z :=
  DELTA_MAGIC ++ le 4 DELTA_VERSION ++ le 8 count ++ le 4 size ++ le 4 0.
(** The part of the delta file in front of the blocks. *)
Definition head_of s (bm : list Z) : list Z := header_of (block_count s) (block_size s) ++ bm ++ bm.

(** Where the blocks are in the delta file. *)
Section Geometry.
Context s (Hg : geometry s).
Lemma geo_bytes_pos : 0 < bitmap_bytes s.
Proof. destruct Hg. rewrite geo_bytes0. apply Z.div_str_pos. lia. Qed.
Lemma data_at_front l : in_image s l -> 0 <= data_offset s <= data_at s l.
Proof. intros Hl. pose proof geo_bytes_pos. destruct Hg. unfold in_image, data_at, DELTA_HEADER_SIZE in *. nia. Qed.
(** Two blocks of the data area do not overlap. *)
Lemma data_at_apart l l' : l <> l' ->
  data_at s l + block_size s <= data_at s l' \/ data_at s l' + block_size s <= data_at s l.
Proof. intros Hne. destruct Hg. unfold data_at. assert (l < l' \/ l' < l) as [|] by lia; nia. Qed.
Lemma data_at_long l : in_image s l -> fits (data_at s l).
Proof. intros Hl. pose proof (data_at_front l Hl). destruct Hg. unfold in_image, fits, data_at in *. nia. Qed.
Lemma block_pos_ok l : in_image s l -> block_pos s l = data_at s l.
Proof.
  intros Hl. pose proof (data_at_long l Hl) as Hf. pose proof (data_at_front l Hl). unfold block_pos.
  destruct Hg. unfold in_image, data_at, fits in *.
  rewrite (usize_fits (l * block_size s)) by (unfold fits; nia). by apply usize_fits.
Qed.
End Geometry.

Record storage_ok s es : Prop := {
  so_geo : geometry s;
  so_faults : faults s = [];
  so_delta : fappend (delta_fp s) = false;
  so_append : fappend (journal_fp s) = true;
  so_bitmap : zlen (bitmap s) = bitmap_bytes s;
  so_committed : zlen (committed_bitmap s) = bitmap_bytes s;
  so_head : read_at (fbytes (delta_fp s)) 0 (data_offset s) = Some (head_of s (committed_bitmap s));
  so_clean : bitmap_dirty s = false -> bitmap s = committed_bitmap s;
  so_sub : forall lba, in_image s lba -> bitmap_test (committed_bitmap s) lba = true -> bitmap_test (bitmap s) lba = true;
  so_data : forall lba, in_image s lba -> bitmap_test (bitmap s) lba = true -> is_Some (dblock s lba);
  so_journal : fbytes (journal_fp s) = journal_image es;
  so_index : journal_lbas s = es.*1;
  so_nodup : base.NoDup es.*1;
  so_entries : Forall (fun e => in_image s e.1 /\ bitmap_test (committed_bitmap s) e.1 = true /\ zlen e.2 = block_size s) es;
}.

Lemma ok_moved s s' es : moved s s' -> storage_ok s es -> storage_ok s' es.
Proof. intros (b & d & j & ->) [[] ]. split; [by split|done..]. Qed.
Lemma moved_refl s : moved s s.
Proof.
  exists (from_option fpos 0 (base_fp s)), (fpos (delta_fp s)), (fpos (journal_fp s)).
  destruct s as [bf [] [] ]. unfold reposition, pos_to. cbn. by destruct bf as [[]|].
Qed.
Lemma moved_delta s p : moved s (set_delta_fp (pos_to p (delta_fp s)) s).
Proof.
  exists (from_option fpos 0 (base_fp s)), p, (fpos (journal_fp s)).
  destruct s as [bf [] [] ]. unfold reposition, pos_to, set_delta_fp. cbn. by destruct bf as [[]|].
Qed.
Lemma moved_base s f p : base_fp s = Some f -> moved s (set_base_fp (Some (pos_to p f)) s).
Proof.
  intros E. exists p, (fpos (delta_fp s)), (fpos (journal_fp s)).
  destruct s as [bf [] [] ]. cbn in E. subst bf. done.
Qed.

Section Ok.
Context s es (Hok : storage_ok s es).

Lemma bit_in_range lba : in_image s lba -> 0 <= lba < 8 * bitmap_bytes s.
Proof.
  intros Hl. unfold in_image in Hl. rewrite (geo_bytes _ (so_geo _ _ Hok)).
  pose proof (Z.div_mod (block_count s + 7) 8 ltac:(lia)). pose proof (Z.mod_pos_bound (block_count s + 7) 8 ltac:(lia)). lia.
Qed.
Lemma block_of_ok off : 0 <= off -> off mod block_size s = 0 -> off / block_size s < block_count s ->
  block_of off s = (Some (off / block_size s), s) /\ in_image s (off / block_size s).
Proof.
  intros Ho Hm Hl. destruct (so_geo _ _ Hok). assert (0 <= off / block_size s) by (apply Z.div_pos; lia). split; [|done].
  unfold block_of. rewrite asks_bind, require_true by lia.
  rewrite asks_bind, require_true by (apply negb_true_iff; lia). rewrite u32_small by (unfold in_width; lia). done.
Qed.
Lemma block_of_bad off : 0 <= off -> off mod block_size s <> 0 \/ block_count s <= off / block_size s ->
  block_of off s = (None, s).
Proof.
  intros Ho Hb. unfold block_of. rewrite asks_bind. destruct (Z.eqb_spec (off mod block_size s) 0) as [E|E].
  - rewrite require_true, asks_bind by done. destruct Hb as [|Hb]; [done|]. rewrite require_false; [done|].
    destruct (Z.leb_spec (block_count s) (off / block_size s)); [done|lia].
  - by rewrite require_false.
Qed.

Lemma read_block_ok off : 0 <= off -> off mod block_size s = 0 -> off / block_size s < block_count s ->
  exists s', storage_read_block off s = ((true, Some (content s (off / block_size s))), s') /\ moved s s'.
Proof.
  intros Ho Hm Hl. destruct (block_of_ok off Ho Hm Hl) as [E Hin]. unfold storage_read_block, content. rewrite E.
  set (lba := off / block_size s) in *. destruct (bitmap_test (bitmap s) lba) eqn:Hb.
  - destruct (so_data _ _ Hok lba Hin Hb) as [d Hd]. rewrite (block_pos_ok s (so_geo _ _ Hok)) by done.
    rewrite (delta_read_done s _ _ d); [|apply Hok|by apply (data_at_long s (so_geo _ _ Hok))|done].
    rewrite Hd. cbn [default from_option id]. eexists. split; [done|]. apply moved_delta.
  - unfold base_block. destruct (base_fp s) as [f|] eqn:Hf; [|exists s; split; [done|apply moved_refl]].
    destruct (so_geo _ _ Hok). assert (fits (base_data_offset s + lba * block_size s) /\ fits (lba * block_size s)) as [Hp Hp'].
    { unfold in_image, fits in *. nia. }
    rewrite (usize_fits (lba * _)), usize_fits, fseek_fits by done.
    rewrite outcome_done, next_fault_none by apply Hok. unfold fread. cbn [fbytes fpos fappend pos_to].
    destruct (read_at (fbytes f) _ _) as [d|] eqn:Er; cbn [default from_option id]; (eexists; split; [done|]); by apply moved_base.
Qed.

Lemma has_lba lba : journal_has_lba s lba = bool_decide (lba ∈ es.*1).
Proof.
  unfold journal_has_lba. rewrite (so_index _ _ Hok). apply Bool.eq_iff_eq_true.
  rewrite existsb_exists, bool_decide_eq_true, list_elem_of_In. split.
  - intros (x & Hx & E). apply Z.eqb_eq in E. by subst.
  - intros Hx. exists lba. by rewrite Z.eqb_refl.
Qed.
Lemma preimage_in lba : lba ∈ es.*1 -> is_Some (preimages es !! lba).
Proof.
  intros Hin. destruct (preimages es !! lba) eqn:E; [by eexists|]. by apply not_elem_of_list_to_map in E.
Qed.
Lemma write_dblock lba d l : in_image s lba -> in_image s l -> zlen d = block_size s ->
  l = lba \/ is_Some (dblock s l) ->
  read_at (write_at (fbytes (delta_fp s)) (data_at s lba) d) (data_at s l) (block_size s)
  = if l =? lba then Some d else dblock s l.
Proof.
  intros Hlba Hl Hd Hs. pose proof (data_at_front s (so_geo _ _ Hok) _ Hlba). pose proof (data_at_front s (so_geo _ _ Hok) _ Hl). destruct (so_geo _ _ Hok).
  destruct (Z.eqb_spec l lba) as [->|Hne].
  - rewrite <-Hd. apply read_write_same; lia.
  - destruct Hs as [|[x Hx]]; [done|]. pose proof (read_at_Some _ _ _ _ Hx) as (_ & _ & Hb & _).
    unfold dblock. apply read_write_other; [lia..|]. rewrite Hd. destruct (data_at_apart s (so_geo _ _ Hok) l lba Hne); lia.
Qed.
Lemma write_head lba d : in_image s lba ->
  read_at (write_at (fbytes (delta_fp s)) (data_at s lba) d) 0 (data_offset s) = Some (head_of s (committed_bitmap s)).
Proof.
  intros Hlba. pose proof (data_at_front s (so_geo _ _ Hok) _ Hlba). rewrite <-(so_head _ _ Hok).
  pose proof (read_at_Some _ _ _ _ (so_head _ _ Hok)) as (_ & _ & Hb & _). apply read_write_other; lia.
Qed.

(** A block that belongs to the last checkpoint is in the journal before it
    is overwritten. *)
Lemma capture_ok lba : in_image s lba -> exists p j lbas es',
  let s' := set_journal_lbas lbas (set_journal_fp j (set_delta_fp (pos_to p (delta_fp s)) s)) in
  capture_preimage lba s = (Some tt, s') /\ storage_ok s' es' /\
  (bitmap_test (committed_bitmap s) lba = true -> lba ∈ es'.*1) /\
  forall l, saved_content s' es' l = saved_content s es l.
Proof.
  intros Hl. unfold capture_preimage. rewrite asks_bind. cbn [id]. rewrite has_lba.
  destruct (bitmap_test (committed_bitmap s) lba && negb (bool_decide (lba ∈ es.*1))) eqn:Hc; cbn [negb unless].
  - rewrite andb_true_iff, negb_true_iff, bool_decide_eq_false in Hc. destruct Hc as [Hc Hn].
    destruct (so_data _ _ Hok lba Hl (so_sub _ _ Hok lba Hl Hc)) as [old Hold].
    rewrite (block_pos_ok s (so_geo _ _ Hok)) by done.
    exists (data_at s lba + block_size s), (mk_FILE (fbytes (journal_fp s) ++ entry_bytes (lba, old))
      (zlen (fbytes (journal_fp s)) + 4 + zlen old) true), (journal_lbas s ++ [lba]), (es ++ [(lba, old)]).
    rewrite <-bind_assoc, (bind_Some _ _ _ _ _ (delta_read_done s (data_at s lba) _ old (so_faults _ _ Hok) (data_at_long s (so_geo _ _ Hok) lba Hl) Hold)).
    rewrite journal_append_done by apply Hok. cbn zeta. split; [done|]. destruct Hok as [[] ].
    split; [split; try done|split].
    + cbn. rewrite so_journal0. unfold journal_image. rewrite fmap_app, concat_app. cbn. by rewrite app_nil_r.
    + cbn. by rewrite fmap_app, so_index0.
    + rewrite fmap_app. apply list.NoDup_app. split_and!; [done| |apply list.NoDup_singleton].
      intros x Hx Hx'. apply list_elem_of_singleton in Hx'. cbn in Hx'. by subst.
    + apply Forall_app. split; [done|]. apply Forall_singleton. split_and!; [done..|].
      by pose proof (read_at_Some _ _ _ _ Hold) as (_ & _ & _ & _ & ?).
    + intros _. rewrite fmap_app. set_solver.
    + intros l. unfold saved_content, preimages. cbn [committed_bitmap set_journal_lbas set_journal_fp set_delta_fp].
      rewrite list_to_map_snoc by done. destruct (bitmap_test (committed_bitmap s) l); [|done].
      destruct (decide (l = lba)) as [->|]; [rewrite lookup_insert_eq|by rewrite lookup_insert_ne].
      assert (list_to_map es !! lba = (None : option (list Z))) as -> by (by apply not_elem_of_list_to_map_1).
      cbn [default from_option id]. by rewrite Hold.
  - exists (fpos (delta_fp s)), (journal_fp s), (journal_lbas s), es.
    assert (set_journal_lbas (journal_lbas s) (set_journal_fp (journal_fp s)
      (set_delta_fp (pos_to (fpos (delta_fp s)) (delta_fp s)) s)) = s) as E by (by destruct s as [? [] ]).
    rewrite E. split_and!; [done|done| |done]. intros Hb. rewrite Hb in Hc. cbn in Hc.
    by apply negb_false_iff, bool_decide_eq_true in Hc.
Qed.
End Ok.
End Image.
