(* ===== verification/StorageOps.v ===== *)
(** * Writing, committing, rolling back and opening

    The operations of storage.c that change an image, and storage_new on the
    files they leave, on an image that is well formed and a system that gives no
    error. *)
From S2P Require Import Prelude Stdio Storage StorageProofs.

Section Ops.
Context `{!Abi} `{!AbiOk _}.
Implicit Types (s : storage) (es : list (Z * list Z)).

Definition same_geometry s s' : Prop :=
  block_count s' = block_count s /\ block_size s' = block_size s /\ base_data_offset s' = base_data_offset s /\
  (fbytes <$> base_fp s') = (fbytes <$> base_fp s).

(** ** Writes *)
Section Write.
Context s es (Hok : storage_ok s es).

Lemma put_block_ok lba buf : in_image s lba -> zlen buf = block_size s ->
  (bitmap_test (committed_bitmap s) lba = true -> lba ∈ es.*1) ->
  exists s', (pos ← asks (fun s => block_pos s lba); delta_seek pos;; delta_write buf;;
     upd (fun s => set_bitmap_dirty true (set_bitmap (bitmap_set (bitmap s) lba) s))) s = (Some tt, s') /\
  storage_ok s' es /\ same_geometry s s' /\ committed_bitmap s' = committed_bitmap s /\
  forall l, in_image s l -> content s' l = (if l =? lba then buf else content s l) /\ saved_content s' es l = saved_content s es l.
Proof.
  intros Hl Hb Hj. rewrite asks_bind, (block_pos_ok s (so_geo _ _ Hok)) by done.
  rewrite <-bind_assoc, (bind_Some _ _ _ _ _ (delta_write_done s (data_at s lba) buf (so_faults _ _ Hok)
    (data_at_long s (so_geo _ _ Hok) lba Hl) (so_delta _ _ Hok))).
  eexists. split; [done|].
  set (s' := set_bitmap_dirty _ _).
  assert (forall l, in_image s l -> bitmap_test (bitmap s') l = (lba =? l) || bitmap_test (bitmap s) l) as Hbm.
  { intros l [Hl0 _]. apply bitmap_test_set; [|done]. rewrite (so_bitmap _ _ Hok). by apply (bit_in_range s es Hok). }
  assert (forall l, in_image s l -> l = lba \/ is_Some (dblock s l) -> dblock s' l = if l =? lba then Some buf else dblock s l) as Hd.
  { intros l Hin Hs. by apply (write_dblock s es Hok lba buf l). }
  pose proof (write_head s es Hok lba buf Hl) as Hh.
  split; [|split; [done|split; [done|]]].
  - destruct Hok as [[] ]. split; try done.
    + cbn. unfold zlen. rewrite length_bitmap_set. apply so_bitmap.
    + intros l Hin Hc. rewrite Hbm by done. by rewrite (so_sub l), orb_true_r.
    + intros l Hin. rewrite Hbm by done. intros Hor. rewrite Hd; [|done|].
      * destruct (Z.eqb_spec l lba); [by eexists|]. apply so_data; [done|].
        destruct (Z.eqb_spec lba l); [congruence|done].
      * destruct (Z.eqb_spec lba l); [by left|right]. by apply so_data.
  - intros l Hin. split.
    + unfold content. rewrite Hbm by done. destruct (Z.eqb_spec lba l) as [<-|Hne]; cbn [orb].
      * rewrite Hd, Z.eqb_refl by (done || by left). done.
      * destruct (Z.eqb_spec l lba); [congruence|]. destruct (bitmap_test (bitmap s) l) eqn:E; [|done].
        rewrite Hd by (done || right; by apply Hok). by destruct (Z.eqb_spec l lba).
    + unfold saved_content. change (committed_bitmap s') with (committed_bitmap s).
      destruct (bitmap_test (committed_bitmap s) l) eqn:E; [|done].
      destruct (Z.eq_dec l lba) as [->|Hne].
      * destruct (preimage_in es lba (Hj E)) as [d ->]. done.
      * rewrite Hd by (done || right; by apply Hok, (so_sub _ _ Hok)). by destruct (Z.eqb_spec l lba).
Qed.

End Write.

Lemma write_block_ok s es off buf : storage_ok s es ->
  0 <= off -> off mod block_size s = 0 -> off / block_size s < block_count s -> zlen buf = block_size s ->
  exists s' es', storage_write_block off buf s = (Some tt, s') /\ storage_ok s' es' /\ same_geometry s s' /\
  committed_bitmap s' = committed_bitmap s /\ forall l, in_image s l ->
    content s' l = (if l =? off / block_size s then buf else content s l) /\ saved_content s' es' l = saved_content s es l.
Proof.
  intros Hok Ho Hm Hl Hb. destruct (block_of_ok s es Hok off Ho Hm Hl) as [E Hin]. unfold storage_write_block.
  rewrite (bind_Some _ _ _ _ _ E). destruct (capture_ok s es Hok _ Hin) as (p & j & lbas & es' & Ec & Hok' & Hj & Hs).
  rewrite (bind_Some _ _ _ _ _ Ec).
  destruct (put_block_ok _ es' Hok' _ buf Hin Hb Hj) as (s' & Ew & Hok2 & Hg & Hcb & Hc).
  exists s', es'. split_and!; [exact Ew|done|exact Hg|exact Hcb|]. intros l Hl'. specialize (Hs l). rewrite <-Hs. by apply Hc.
Qed.

(** ** The bitmaps on disk *)
Lemma read_at_prefix f n d : read_at f 0 n = Some d -> forall k, 0 <= k <= n -> ztake k f = ztake k d.
Proof.
  intros Hr k Hk. apply read_at_Some in Hr as (_ & Hn & Hl & -> & _). unfold ztake, zdrop. cbn. rewrite take_take. f_equal. lia.
Qed.
Lemma write_at_prefix f p w : 0 <= p <= zlen f -> zlen w <> 0 ->
  read_at (write_at f p w) 0 (p + zlen w) = Some (ztake p f ++ w).
Proof.
  intros Hp Hw. pose proof (zlen_nonneg w). rewrite read_at_in by (rewrite ?zlen_write_at by lia; lia). f_equal.
  unfold write_at. destruct (Z.eqb_spec (zlen w) 0); [done|]. unfold zeros.
  replace (Z.to_nat (p - zlen f)) with 0%nat by lia. rewrite app_nil_r. change (zdrop 0 ?x) with x.
  rewrite app_assoc. apply ztake_app. rewrite zlen_app, zlen_ztake by lia. lia.
Qed.
Lemma zlen_header n b : zlen (header_of n b) = DELTA_HEADER_SIZE.
Proof. unfold header_of. rewrite !zlen_app, !zlen_le. done. Qed.

(** What delta_flush_bitmaps needs of the image. *)
Record flushable s : Prop := {
  fl_geo : geometry s;
  fl_faults : faults s = [];
  fl_delta : fappend (delta_fp s) = false;
  fl_bitmap : zlen (bitmap s) = bitmap_bytes s;
  fl_committed : zlen (committed_bitmap s) = bitmap_bytes s;
  fl_header : read_at (fbytes (delta_fp s)) 0 DELTA_HEADER_SIZE = Some (header_of (block_count s) (block_size s));
}.
Lemma header_from_head f n b rest : read_at f 0 (DELTA_HEADER_SIZE + zlen rest) = Some (header_of n b ++ rest) ->
  read_at f 0 DELTA_HEADER_SIZE = Some (header_of n b).
Proof.
  intros Hr. pose proof (zlen_nonneg rest). pose proof (read_at_prefix _ _ _ Hr DELTA_HEADER_SIZE ltac:(unfold DELTA_HEADER_SIZE; lia)) as E.
  rewrite ztake_app in E by (by rewrite zlen_header). apply read_at_Some in Hr as (_ & _ & Hl & _).
  rewrite read_at_in by (unfold DELTA_HEADER_SIZE in *; lia). change (zdrop 0 f) with f. by rewrite E.
Qed.

Lemma flush_ok s : flushable s -> exists f,
  delta_flush_bitmaps s = (Some tt, set_delta_fp f s) /\ fappend f = false /\
  read_at (fbytes f) 0 (data_offset s) = Some (header_of (block_count s) (block_size s) ++ bitmap s ++ committed_bitmap s) /\
  forall p n, data_offset s <= p -> p + n <= zlen (fbytes (delta_fp s)) ->
    read_at (fbytes f) p n = read_at (fbytes (delta_fp s)) p n.
Proof.
  intros Hs. pose proof (geo_bytes_pos s (fl_geo _ Hs)) as Hpos. destruct Hs as [[] Hf Ha Hb Hc Hh].
  unfold delta_flush_bitmaps. rewrite asks_bind, geo_off.
  assert (fits DELTA_HEADER_SIZE) as Hfit by (unfold fits, DELTA_HEADER_SIZE in *; nia).
  change ((delta_seek DELTA_HEADER_SIZE;; b ← asks bitmap; delta_write b;; c ← asks committed_bitmap; delta_write c) s)
    with ((delta_seek DELTA_HEADER_SIZE;; (delta_write (bitmap s);; c ← asks committed_bitmap; delta_write c)) s).
  rewrite <-bind_assoc, (bind_Some _ _ _ _ _ (delta_write_done s _ (bitmap s) Hf Hfit Ha)). rewrite asks_bind.
  rewrite delta_write_more by done. eexists. split; [done|]. split; [done|].
  cbn [fbytes set_delta_fp delta_fp fpos committed_bitmap]. rewrite write_at_adjacent by done.
  set (w := bitmap s ++ committed_bitmap s).
  assert (zlen w = 2 * bitmap_bytes s) as Hw by (unfold w; rewrite zlen_app; lia).
  pose proof (read_at_Some _ _ _ _ Hh) as (_ & _ & Hl & Hd & _). change (zdrop 0 ?x) with x in Hd.
  split.
  - rewrite geo_data, <-Hw, Hd. apply write_at_prefix; [|lia]. split; [done|]. unfold DELTA_HEADER_SIZE in *; lia.
  - intros p n Hp Hn. unfold DELTA_HEADER_SIZE in *. apply read_write_other; lia.
Qed.

Lemma ok_flushable s es bm cm : storage_ok s es -> zlen bm = bitmap_bytes s -> zlen cm = bitmap_bytes s ->
  flushable (set_bitmap bm (set_committed_bitmap cm s)).
Proof.
  intros Hok Hb Hc. pose proof (so_geo _ _ Hok) as Hg. destruct Hok as [[] ]. split; try done.
  apply (header_from_head _ _ _ (committed_bitmap s ++ committed_bitmap s)). rewrite zlen_app, so_committed.
  etransitivity; [|exact so_head]. rewrite geo_data. f_equal. lia.
Qed.

(** ** Commits

    The state both commits and rollbacks end in: one bitmap, in memory and on
    disk, and an empty journal. *)
Lemma settled_ok s f j bm dirty : geometry s -> faults s = [] -> fappend f = false ->
  zlen bm = bitmap_bytes s -> fbytes j = [] -> fappend j = true ->
  read_at (fbytes f) 0 (data_offset s) = Some (head_of s bm) ->
  (forall l, in_image s l -> bitmap_test bm l = true -> is_Some (read_at (fbytes f) (data_at s l) (block_size s))) ->
  storage_ok (set_bitmap_dirty dirty (set_journal_lbas [] (set_journal_fp j (set_delta_fp f
    (set_bitmap bm (set_committed_bitmap bm s)))))) [].
Proof. intros [] ? ? ? Hj ? Hh Hd. split; try done. apply NoDup_nil_2. Qed.

Lemma journal_empty_iff s es : storage_ok s es -> (0 <? journal_count s) = false -> es = [].
Proof.
  intros Hok Hj. unfold journal_count in Hj. rewrite (so_index _ _ Hok) in Hj.
  destruct es; [done|]. cbn [fmap list_fmap] in Hj. rewrite zlen_cons in Hj.
  match type of Hj with (0 <? 1 + zlen ?l) = _ => pose proof (zlen_nonneg l) end. apply Z.ltb_ge in Hj. lia.
Qed.

Lemma clear_ok s es : storage_ok s es -> exists s',
  storage_clear_rollback s = (Some tt, s') /\ storage_ok s' [] /\ same_geometry s s' /\
  bitmap s' = bitmap s /\ committed_bitmap s' = bitmap s /\
  forall l, in_image s l -> content s' l = content s l /\ saved_content s' [] l = content s l.
Proof.
  intros Hok. unfold storage_clear_rollback. rewrite upd_bind, asks_bind. cbn [id].
  change (bitmap_dirty (set_committed_bitmap (bitmap s) s)) with (bitmap_dirty s).
  change (journal_count (set_committed_bitmap (bitmap s) s)) with (journal_count s).
  destruct (bitmap_dirty s || (0 <? journal_count s)) eqn:Hd; cbn [negb unless].
  2: { apply orb_false_iff in Hd as [Hd Hj]. pose proof (so_clean _ _ Hok Hd) as Hcl.
       assert (set_committed_bitmap (bitmap s) s = s) as -> by (destruct s; cbn in *; by subst).
       pose proof (journal_empty_iff s es Hok Hj) as ->. exists s. split_and!; try done.
       intros l Hl. split; [done|]. unfold saved_content, content. rewrite <-Hcl. done. }
  pose proof (ok_flushable s es (bitmap s) (bitmap s) Hok (so_bitmap _ _ Hok) (so_bitmap _ _ Hok)) as Hfl.
  destruct (flush_ok _ Hfl) as (f & Ef & Hfa & Hh & Hdat).
  assert (forall j dirty, fbytes j = [] -> fappend j = true ->
    storage_ok (set_bitmap_dirty dirty (set_journal_lbas [] (set_journal_fp j (set_delta_fp f
      (set_bitmap (bitmap s) (set_committed_bitmap (bitmap s) s)))))) [] /\
    forall l, in_image s l -> bitmap_test (bitmap s) l = true -> read_at (fbytes f) (data_at s l) (block_size s) = dblock s l) as Hend.
  { intros j dirty Hj Hja.
    assert (forall l, in_image s l -> bitmap_test (bitmap s) l = true -> read_at (fbytes f) (data_at s l) (block_size s) = dblock s l) as Hsame.
    { intros l Hl Hb. destruct (so_data _ _ Hok l Hl Hb) as [d Hdb]. pose proof (read_at_Some _ _ _ _ Hdb) as (_ & _ & Hend & _).
      apply Hdat; [|done]. by apply (data_at_front s (so_geo _ _ Hok)). }
    split; [|done]. apply settled_ok; try done; try apply Hok.
    intros l Hl Hb. rewrite Hsame by done. by apply Hok. }
  change (set_bitmap (bitmap s) (set_committed_bitmap (bitmap s) s)) with (set_committed_bitmap (bitmap s) s) in Ef.
  rewrite (ignore_bind _ _ _ _ _ Ef), upd_bind.
  destruct (0 <? journal_count s) eqn:Hj; cbn [negb unless].
  - erewrite ignore_bind by (apply journal_truncate_done; apply Hok). unfold journal_seek. rewrite upd_bind.
    destruct (Hend (fseek_set 0 (mk_FILE [] (fpos (journal_fp s)) (fappend (journal_fp s)))) false) as [Hok' Hsame].
    { rewrite fseek_fits by apply fits_0. done. }
    { rewrite fseek_fits by apply fits_0. apply Hok. }
    eexists. split_and!; [reflexivity|exact Hok'|done|done|done|].
    intros l Hl. unfold content, saved_content, dblock. cbn. unfold data_at in *. cbn.
    destruct (bitmap_test (bitmap s) l) eqn:E; [|done]. by rewrite Hsame.
  - pose proof (journal_empty_iff s es Hok Hj) as ->.
    destruct (Hend (journal_fp s) false) as [Hok' Hsame]; [by rewrite (so_journal _ _ Hok)|apply Hok|].
    eexists. split_and!; [reflexivity| |done|done|done|].
    + assert (journal_lbas s = []) as E by apply Hok. revert Hok'. unfold set_journal_lbas. cbn. rewrite <-E. done.
    + intros l Hl. unfold content, saved_content, dblock. cbn. unfold data_at in *. cbn.
      destruct (bitmap_test (bitmap s) l) eqn:E; [|done]. by rewrite Hsame.
Qed.

(** ** Rollback

    What a rollback needs: the blocks of the last checkpoint are in the journal
    or in the delta file.  Nothing is said of the other blocks of the delta
    file, nor of the bitmap in memory. *)
Record recoverable s es : Prop := {
  rc_geo : geometry s;
  rc_faults : faults s = [];
  rc_delta : fappend (delta_fp s) = false;
  rc_append : fappend (journal_fp s) = true;
  rc_committed : zlen (committed_bitmap s) = bitmap_bytes s;
  rc_head : read_at (fbytes (delta_fp s)) 0 (data_offset s) = Some (head_of s (committed_bitmap s));
  rc_data : forall lba, in_image s lba -> bitmap_test (committed_bitmap s) lba = true -> lba ∉ es.*1 -> is_Some (dblock s lba);
  rc_journal : fbytes (journal_fp s) = journal_image es;
  rc_index : journal_lbas s = es.*1;
  rc_nodup : base.NoDup es.*1;
  rc_entries : Forall (fun e => in_image s e.1 /\ bitmap_test (committed_bitmap s) e.1 = true /\ zlen e.2 = block_size s) es;
}.
Lemma ok_recoverable s es : storage_ok s es -> recoverable s es.
Proof. intros []. split; try done. intros. by apply so_data, so_sub. Qed.

Section Replay.
Context s (Hg : geometry s).
(** The delta file after the entries were written back. *)
Fixpoint replayed es (f : list Z) : list Z :=
  match es with [] => f | e :: es => replayed es (write_at f (data_at s e.1) e.2) end.
Definition entry_in (e : Z * list Z) : Prop := in_image s e.1 /\ zlen e.2 = block_size s.

Lemma replayed_head es f d : Forall entry_in es -> read_at f 0 (data_offset s) = Some d ->
  read_at (replayed es f) 0 (data_offset s) = Some d.
Proof.
  intros He. revert f. induction He as [|e es [Hi Hz] _ IH]; intros f Hr; [done|]. cbn [replayed]. apply IH.
  rewrite <-Hr. pose proof (data_at_front s Hg _ Hi). pose proof (read_at_Some _ _ _ _ Hr) as (_ & _ & Hb & _).
  apply read_write_other; lia.
Qed.
Lemma replayed_other es f l : Forall entry_in es -> in_image s l -> l ∉ es.*1 ->
  is_Some (read_at f (data_at s l) (block_size s)) ->
  read_at (replayed es f) (data_at s l) (block_size s) = read_at f (data_at s l) (block_size s).
Proof.
  intros He Hl. revert f. induction He as [|e es [Hi Hz] _ IH]; intros f Hn Hs; [done|]. cbn [replayed fmap list_fmap] in *.
  apply not_elem_of_cons in Hn as [Hne Hn]. pose proof (data_at_front s Hg _ Hl). pose proof (data_at_front s Hg _ Hi).
  assert (read_at (write_at f (data_at s e.1) e.2) (data_at s l) (block_size s) = read_at f (data_at s l) (block_size s)) as E.
  { destruct Hs as [d Hd]. pose proof (read_at_Some _ _ _ _ Hd) as (_ & _ & Hb & _).
    apply read_write_other; [lia..|]. rewrite Hz. by apply (data_at_apart s Hg). }
  rewrite IH by (rewrite ?E; done). done.
Qed.
Lemma replayed_entry es f l d : Forall entry_in es -> base.NoDup es.*1 -> preimages es !! l = Some d ->
  read_at (replayed es f) (data_at s l) (block_size s) = Some d.
Proof.
  intros He. revert f. induction He as [|[l' d'] es [Hi Hz] Hes IH]; intros f Hn Hp; [done|].
  cbn [replayed fmap list_fmap fst snd] in *. apply list.NoDup_cons in Hn as [Hnin Hn].
  unfold preimages in *. destruct (decide (l = l')) as [->|Hne].
  - rewrite list_to_map_cons, lookup_insert_eq in Hp. injection Hp as <-. destruct Hg. pose proof (data_at_front s Hg _ Hi).
    assert (read_at (write_at f (data_at s l') d') (data_at s l') (block_size s) = Some d') as E.
    { rewrite <-Hz. apply read_write_same; lia. }
    rewrite replayed_other; [done..|by rewrite E].
  - rewrite list_to_map_cons, lookup_insert_ne in Hp by done. by apply IH.
Qed.

Context (Hf : faults s = []).
Definition replay_state (J : list Z) (jp : Z) (D : list Z) (q : Z) : storage :=
  set_journal_fp (mk_FILE J jp true) (set_delta_fp (mk_FILE D q false) s).
Lemma replay_entry_ok pre l d post D q : in_image s l -> zlen d = block_size s ->
  let J := pre ++ entry_bytes (l, d) ++ post in
  replay_entry (replay_state J (zlen pre) D q)
  = (Some tt, replay_state J (zlen (pre ++ entry_bytes (l, d))) (write_at D (data_at s l) d) (data_at s l + zlen d)).
Proof.
  intros Hi Hz J. pose proof (data_at_long s Hg l Hi) as Hl. unfold replay_entry.
  assert (J = pre ++ le 4 l ++ d ++ post) as EJ by (unfold J, entry_bytes; cbn [fst snd]; by rewrite <-app_assoc).
  assert (read_at J (zlen pre) 4 = Some (le 4 l)) as E1 by (rewrite EJ; apply (read_at_app pre (le 4 l))).
  assert (read_at J (zlen pre + 4) (block_size s) = Some d) as E2.
  { rewrite EJ, app_assoc. replace (zlen pre + 4) with (zlen (pre ++ le 4 l)) by (by rewrite zlen_app, zlen_le).
    rewrite <-Hz. apply read_at_app. }
  rewrite (bind_Some _ _ _ _ _ (journal_read_more (replay_state J (zlen pre) D q) 4 _ Hf E1)), asks_bind.
  set (s1 := set_journal_fp _ _).
  rewrite (bind_Some _ _ _ _ _ (journal_read_more s1 (block_size s) _ Hf E2)), asks_bind.
  destruct Hg. unfold in_image in Hi. rewrite unle_le_id by (unfold in_width; pow2; lia).
  set (s2 := set_journal_fp _ s1). change (block_pos s2 l) with (block_pos s l). rewrite (block_pos_ok s Hg) by done.
  rewrite delta_write_done by done.
  assert (zlen (pre ++ entry_bytes (l, d)) = zlen pre + 4 + block_size s) as ->; [|reflexivity].
  unfold entry_bytes. rewrite !zlen_app, zlen_le. cbn [snd]. lia.
Qed.
Lemma replay_loop es : forall pre D q, Forall entry_in es ->
  let J := pre ++ journal_image es in
  exists q', repeat_io (length es) replay_entry (replay_state J (zlen pre) D q)
    = (Some tt, replay_state J (zlen J) (replayed es D) q').
Proof.
  induction es as [|[l d] es IH]; intros pre D q He J.
  { exists q. unfold J, journal_image. cbn. by rewrite app_nil_r. }
  apply list.Forall_cons in He as [[Hi Hz] He]. cbn [length repeat_io replayed fst snd] in *.
  assert (J = pre ++ entry_bytes (l, d) ++ journal_image es) as -> by done.
  erewrite bind_Some by (by apply replay_entry_ok). rewrite app_assoc. by apply IH.
Qed.
End Replay.

Lemma replayed_saved s es : recoverable s es -> forall l, in_image s l -> bitmap_test (committed_bitmap s) l = true ->
  read_at (replayed s es (fbytes (delta_fp s))) (data_at s l) (block_size s) = Some (saved_content s es l).
Proof.
  intros [] l Hl Hc. assert (Forall (entry_in s) es) as He by (eapply list.Forall_impl; [done|]; intros ? (? & ? & ?); done).
  unfold saved_content. rewrite Hc. destruct (preimages es !! l) as [d|] eqn:Hp; [by apply replayed_entry|].
  apply not_elem_of_list_to_map_2 in Hp. destruct (rc_data0 l Hl Hc Hp) as [x Hx]. unfold dblock in Hx.
  rewrite replayed_other by (done || by eexists). unfold dblock. by rewrite Hx.
Qed.

Lemma rollback_ok s es : recoverable s es -> es <> [] -> exists s',
  storage_apply_rollback s = (Some tt, s') /\ storage_ok s' [] /\ same_geometry s s' /\
  bitmap s' = committed_bitmap s /\ committed_bitmap s' = committed_bitmap s /\
  forall l, in_image s l -> content s' l = saved_content s es l /\ saved_content s' [] l = saved_content s es l.
Proof.
  intros Hrc Hne. pose proof Hrc as []. unfold storage_apply_rollback. rewrite asks_bind. unfold journal_count. rewrite rc_index0.
  destruct (Z.eqb_spec (zlen es.*1) 0) as [E|_].
  { apply zlen_0 in E. by destruct es. }
  assert (Forall (entry_in s) es) as He by (eapply list.Forall_impl; [done|]; intros ? (? & ? & ?); done).
  unfold journal_seek. rewrite upd_bind, fseek_fits by apply fits_0.
  assert (set_journal_fp (pos_to 0 (journal_fp s)) s = replay_state s (journal_image es) 0 (fbytes (delta_fp s)) (fpos (delta_fp s))) as ->.
  { unfold replay_state. rewrite <-rc_journal0, <-rc_append0, <-rc_delta0. by destruct s as [? [] [] ]. }
  assert (Z.to_nat (zlen es.*1) = length es) as -> by (unfold zlen; rewrite Nat2Z.id; apply length_fmap).
  destruct (replay_loop s rc_geo0 rc_faults0 es [] (fbytes (delta_fp s)) (fpos (delta_fp s)) He) as [q Hloop].
  cbn [app] in Hloop. rewrite zlen_nil in Hloop. rewrite (bind_Some _ _ _ _ _ Hloop), upd_bind.
  set (D := replayed s es (fbytes (delta_fp s))) in *. set (s1 := set_bitmap _ _).
  assert (read_at D 0 (data_offset s) = Some (head_of s (committed_bitmap s))) as Hh by (by apply replayed_head).
  assert (flushable s1) as Hfl.
  { pose proof rc_geo0 as Hg. destruct Hg. split; try done.
    apply (header_from_head _ _ _ (committed_bitmap s ++ committed_bitmap s)). rewrite zlen_app, rc_committed0.
    etransitivity; [|exact Hh]. f_equal. rewrite geo_data. lia. }
  destruct (flush_ok _ Hfl) as (f & Ef & Hfa & Hfh & Hfd). rewrite (bind_Some _ _ _ _ _ Ef). unfold reset_journal.
  rewrite (bind_Some _ _ _ _ _ (journal_truncate_done (set_delta_fp f s1) rc_faults0)). unfold journal_seek. rewrite upd_bind.
  assert (forall l, in_image s l -> bitmap_test (committed_bitmap s) l = true ->
    read_at (fbytes f) (data_at s l) (block_size s) = Some (saved_content s es l)) as Hblk.
  { intros l Hl Hc. pose proof (replayed_saved s es Hrc l Hl Hc) as Hx. rewrite <-Hx.
    apply Hfd; [by apply (data_at_front s rc_geo0)|]. by apply read_at_Some in Hx as (_ & _ & ? & _). }
  rewrite fseek_fits by apply fits_0.
  eexists. split_and!; [reflexivity| |done|done|done|].
  - apply (settled_ok s f (pos_to 0 (mk_FILE [] 0 true)) (committed_bitmap s) (bitmap_dirty s)); try done.
    intros l Hl Hc. rewrite Hblk by done. by eexists.
  - intros l Hl. match goal with |- content ?x l = _ /\ _ => set (s2 := x) end.
    assert (saved_content s2 [] l = content s2 l) as ->; [done|]. split; [|]; unfold content;
      change (bitmap_test (bitmap s2) l) with (bitmap_test (committed_bitmap s) l);
      (destruct (bitmap_test (committed_bitmap s) l) eqn:Hc; [|unfold saved_content; by rewrite Hc]);
      change (dblock s2 l) with (read_at (fbytes f) (data_at s l) (block_size s)); by rewrite Hblk.
Qed.
End Ops.

(** ** Creating and reopening an image

    storage_new on no delta file writes an empty image; on the files of an image
    it finds the geometry, the bitmaps and the journal they hold. *)
Section Open.
Context `{!Abi} `{!AbiOk _}.
Implicit Types (s : storage) (es : list (Z * list Z)).

Lemma read_at_sub f n a b c : read_at f 0 n = Some (a ++ b ++ c) -> read_at f (zlen a) (zlen b) = Some b.
Proof.
  intros Hr. apply read_at_Some in Hr as (_ & Hn & Hl & Hd & _). change (zdrop 0 f) with f in Hd.
  assert (f = a ++ b ++ (c ++ zdrop n f)) as ->; [|apply read_at_app].
  rewrite !app_assoc, <-(app_assoc a b c), Hd. unfold ztake, zdrop. by rewrite take_drop.
Qed.

(** ** The journal *)
Section Load.
Context s (Hf : faults s = []).
Definition load_state (J : list Z) (jp : Z) (lbas : list Z) : storage :=
  set_journal_lbas lbas (set_journal_fp (mk_FILE J jp true) s).
Lemma load_entry_ok pre l d post lbas : in_width 32 l -> zlen d = block_size s ->
  let J := pre ++ entry_bytes (l, d) ++ post in
  load_entry (load_state J (zlen pre) lbas) = (Some tt, load_state J (zlen (pre ++ entry_bytes (l, d))) (lbas ++ [l])).
Proof.
  intros Hi Hz J. unfold load_entry.
  assert (read_at J (zlen pre) 4 = Some (le 4 l)) as E1.
  { unfold J, entry_bytes. cbn [fst snd]. rewrite <-app_assoc. apply (read_at_app pre (le 4 l)). }
  rewrite (bind_Some _ _ _ _ _ (journal_read_more (load_state J (zlen pre) lbas) 4 _ Hf E1)), upd_bind.
  rewrite unle_le_id by done.
  assert (zlen (pre ++ entry_bytes (l, d)) = zlen pre + 4 + block_size s) as ->; [|reflexivity].
  unfold entry_bytes. rewrite !zlen_app, zlen_le. cbn [snd]. lia.
Qed.
Lemma load_loop es : forall pre lbas, Forall (fun e => in_width 32 e.1 /\ zlen e.2 = block_size s) es ->
  let J := pre ++ journal_image es in
  repeat_io (length es) load_entry (load_state J (zlen pre) lbas) = (Some tt, load_state J (zlen J) (lbas ++ es.*1)).
Proof.
  induction es as [|[l d] es IH]; intros pre lbas He J.
  { unfold J, journal_image. cbn. by rewrite !app_nil_r. }
  apply list.Forall_cons in He as [[Hi Hz] He]. cbn [length repeat_io fst snd] in *.
  assert (J = pre ++ entry_bytes (l, d) ++ journal_image es) as -> by done.
  erewrite bind_Some by (by apply load_entry_ok). rewrite app_assoc, IH by done.
  cbn [fmap list_fmap]. by rewrite <-!app_assoc.
Qed.
Lemma zlen_journal_image es : Forall (fun e => in_width 32 e.1 /\ zlen e.2 = block_size s) es ->
  zlen (journal_image es) = zlen es * JOURNAL_ENTRY_SIZE s.
Proof.
  unfold JOURNAL_ENTRY_SIZE. induction 1 as [|e es [_ Hz] _ IH]; [done|].
  change (journal_image (e :: es)) with (entry_bytes e ++ journal_image es).
  rewrite zlen_app, zlen_cons, IH. unfold entry_bytes. rewrite zlen_app, zlen_le. lia.
Qed.
Lemma load_index_ok es : 0 < block_size s -> journal_fp s = fopen_ab (journal_image es) ->
  Forall (fun e => in_width 32 e.1 /\ zlen e.2 = block_size s) es ->
  exists p, (ignore journal_load_index) s = (Some tt, load_state (journal_image es) p es.*1).
Proof.
  intros Hb Hj He. unfold ignore, journal_load_index. rewrite upd_bind, asks_bind.
  pose proof (zlen_journal_image es He) as Hl. pose proof (zlen_nonneg es). unfold JOURNAL_ENTRY_SIZE in Hl.
  change (fbytes (journal_fp (set_journal_lbas [] s))) with (fbytes (journal_fp s)). rewrite Hj. cbn [fbytes fopen_ab].
  destruct (Z.leb_spec (zlen (journal_image es)) 0) as [Hz|Hz].
  { assert (es = []) as -> by (apply zlen_0; nia). exists 0. unfold load_state. change (mk_FILE (journal_image []) 0 true) with (fopen_ab (journal_image [])). rewrite <-Hj. by destruct s. }
  unfold journal_seek. rewrite upd_bind, asks_bind. change (journal_fp (set_journal_lbas [] s)) with (journal_fp s).
  rewrite Hj, fseek_fits by apply fits_0. unfold JOURNAL_ENTRY_SIZE. cbn [block_size set_journal_fp set_journal_lbas].
  rewrite Hl, Z.div_mul by lia. unfold zlen at 1. rewrite Nat2Z.id.
  pose proof (load_loop es [] [] He) as Hloop. cbn [app] in Hloop. rewrite zlen_nil in Hloop.
  erewrite bind_Some by exact Hloop. eexists. reflexivity.
Qed.
End Load.

(** ** The delta file *)
Lemma reopen_head s bm : geometry s -> faults s = [] -> zlen bm = bitmap_bytes s ->
  fpos (delta_fp s) = 0 ->
  read_at (fbytes (delta_fp s)) 0 (data_offset s) = Some (head_of s bm) ->
  exists p, (delta_read_header;; delta_read_bitmaps) s
    = (Some tt, set_committed_bitmap bm (set_bitmap bm (set_delta_fp (pos_to p (delta_fp s)) s))).
Proof.
  intros Hg Hf Hb Hp Hr. pose proof (geo_bytes_pos s Hg) as Hpos. destruct Hg.
  unfold head_of, header_of in Hr. rewrite <-!app_assoc in Hr.
  set (D := fbytes (delta_fp s)) in *.
  assert (read_at D 0 DELTA_MAGIC_SIZE = Some DELTA_MAGIC) as R0 by (apply (read_at_sub D _ [] DELTA_MAGIC _ Hr)).
  assert (read_at D 4 4 = Some (le 4 DELTA_VERSION)) as R4 by (apply (read_at_sub D _ DELTA_MAGIC (le 4 DELTA_VERSION) _ Hr)).
  assert (read_at D 8 8 = Some (le 8 (block_count s))) as R8.
  { apply (read_at_sub D _ (DELTA_MAGIC ++ le 4 DELTA_VERSION) (le 8 (block_count s)) _ Hr). }
  assert (read_at D 16 4 = Some (le 4 (block_size s))) as R16.
  { apply (read_at_sub D _ (DELTA_MAGIC ++ le 4 DELTA_VERSION ++ le 8 (block_count s)) (le 4 (block_size s)) _ Hr). }
  set (hdr := DELTA_MAGIC ++ le 4 DELTA_VERSION ++ le 8 (block_count s) ++ le 4 (block_size s) ++ le 4 0).
  assert (zlen hdr = 24) as Hh by (unfold hdr; rewrite !zlen_app, !zlen_le; done).
  assert (read_at D 24 (bitmap_bytes s) = Some bm) as R24.
  { rewrite <-Hb, <-Hh. apply (read_at_sub D (data_offset s) hdr bm bm). unfold hdr. by rewrite <-!app_assoc. }
  assert (read_at D (24 + bitmap_bytes s) (bitmap_bytes s) = Some bm) as Rc.
  { rewrite <-Hb, <-Hh, <-zlen_app. apply (read_at_sub D (data_offset s) (hdr ++ bm) bm []).
    unfold hdr. rewrite app_nil_r, <-!app_assoc. done. }
  assert (fits DELTA_HEADER_SIZE) as H24 by (unfold fits, DELTA_HEADER_SIZE in *; nia).
  set (at_ := fun p => set_delta_fp (pos_to p (delta_fp s)) s).
  assert (forall p n d, read_at D p n = Some d -> delta_read n (at_ p) = (Some d, at_ (p + n))) as Hrd.
  { intros p n d E. by rewrite (delta_read_more (at_ p) n d). }
  exists (24 + bitmap_bytes s + bitmap_bytes s). unfold delta_read_header.
  assert (delta_seek 0 s = (Some tt, at_ 0)) as E0.
  { unfold delta_seek, upd. by rewrite fseek_fits by apply fits_0. }
  rewrite bind_assoc, (bind_Some _ _ _ _ _ E0). cbv beta.
  rewrite bind_assoc, (bind_Some _ _ _ _ _ (Hrd _ _ _ R0)). cbv beta.
  rewrite bind_assoc, require_true by done.
  rewrite bind_assoc, (bind_Some _ _ _ _ _ (Hrd _ _ _ R4)). cbv beta.
  rewrite bind_assoc, require_true by done.
  rewrite bind_assoc, (bind_Some _ _ _ _ _ (Hrd _ _ _ R8)). cbv beta.
  rewrite bind_assoc, asks_bind, bind_assoc, require_true by (rewrite unle_le_id; [by apply Z.eqb_refl|unfold in_width; pow2; cbn; lia]).
  rewrite bind_assoc, (bind_Some _ _ _ _ _ (Hrd _ _ _ R16)). cbv beta.
  rewrite bind_assoc, asks_bind, bind_assoc, require_true by (rewrite unle_le_id; [by apply Z.eqb_refl|unfold in_width; pow2; cbn; lia]).
  rewrite upd_bind. unfold delta_read_bitmaps. rewrite asks_bind.
  set (s1 := set_delta_fp _ _). assert (bitmap_offset s1 = DELTA_HEADER_SIZE) as -> by done.
  assert (delta_seek DELTA_HEADER_SIZE s1 = (Some tt, at_ 24)) as E1.
  { unfold delta_seek, upd. by rewrite fseek_fits. }
  rewrite (bind_Some _ _ _ _ _ E1), asks_bind, (bind_Some _ _ _ _ _ (Hrd _ _ _ R24)), upd_bind.
  rewrite (bind_Some _ _ _ _ _ (delta_read_more (set_bitmap bm (at_ (24 + bitmap_bytes s))) _ _ Hf Rc)). reflexivity.
Qed.

(** ** storage_new *)
Record config_valid (c : storage_config) : Prop := {
  cv_ok : config_ok c = true;
  cv_count : 0 <= cfg_block_count c;
  cv_base : 0 <= cfg_base_data_offset c;
  cv_fits : DELTA_HEADER_SIZE + 2 * ((cfg_block_count c + 7) / 8) + cfg_block_count c * cfg_block_size c <= 2 ^ (long_bits - 1);
  cv_base_fits : cfg_base_data_offset c + cfg_block_count c * cfg_block_size c <= 2 ^ (long_bits - 1);
}.
(** The configuration an image was opened with. *)
Definition config_of s : storage_config := mk_config (block_count s) (block_size s) (base_data_offset s).

Lemma config_ok_bounds c : config_ok c = true ->
  512 <= cfg_block_size c <= 1024 /\ cfg_block_size c mod 4 = 0 /\ cfg_block_count c <> 0 /\ cfg_block_count c < 2 ^ 32.
Proof.
  unfold config_ok, STORAGE_BLOCK_SIZE, STORAGE_MAX_BLOCK_SIZE.
  rewrite !andb_true_iff, !negb_true_iff, !orb_false_iff, !Z.ltb_ge, Z.eqb_neq. unfold truthy. rewrite negb_false_iff, Z.eqb_eq. pow2. lia.
Qed.
Lemma fresh_geometry c h o : config_valid c -> geometry (fresh c h o).
Proof.
  intros []. destruct (config_ok_bounds c cv_ok0) as (? & ? & ? & ?). split; cbn; try done; try lia.
Qed.
Lemma geometry_config s : geometry s -> config_valid (config_of s).
Proof.
  intros []. split; cbn; try lia.
  unfold config_ok, STORAGE_BLOCK_SIZE, STORAGE_MAX_BLOCK_SIZE. cbn [cfg_block_size cfg_block_count config_of].
    rewrite geo_mod. cbn [truthy Z.eqb negb]. rewrite !andb_true_iff, !negb_true_iff, !orb_false_iff, !Z.ltb_ge, Z.eqb_neq.
    pow2. lia.
Qed.

Definition reopened c h (D : list Z) (pd : Z) (bm : list Z) es (pj : Z) : storage :=
  load_state (set_committed_bitmap bm (set_bitmap bm (set_delta_fp (mk_FILE D pd false) (fresh c h [])))) (journal_image es) pj es.*1.
Lemma reopen_ok c h D bm es : config_valid c -> host_delta h = Opened D -> host_journal h = Some (journal_image es) ->
  zlen bm = (cfg_block_count c + 7) / 8 ->
  read_at D 0 (DELTA_HEADER_SIZE + 2 * ((cfg_block_count c + 7) / 8))
    = Some (header_of (cfg_block_count c) (cfg_block_size c) ++ bm ++ bm) ->
  Forall (fun e => in_width 32 e.1 /\ zlen e.2 = cfg_block_size c) es ->
  exists pd pj, storage_new c h [] = (Some tt, reopened c h D pd bm es pj).
Proof.
  intros Hc Hd Hj Hb Hr He. unfold storage_new. rewrite (cv_ok _ Hc). unfold storage_open. rewrite Hd, Hj.
  rewrite bind_assoc, upd_bind.
  set (s0 := set_delta_fp _ _). assert (geometry s0) as Hg by (pose proof (fresh_geometry c h [] Hc) as []; by split).
  destruct (reopen_head s0 bm Hg) as (pd & E); [done..|]. rewrite (bind_Some _ _ _ _ _ E), upd_bind.
  set (s1 := set_journal_fp _ _).
  assert (0 < block_size s1) as Hbs by (destruct (config_ok_bounds c (cv_ok _ Hc)); cbn; lia).
  destruct (load_index_ok s1 eq_refl es Hbs eq_refl He) as (pj & E2). rewrite E2. exists pd, pj. reflexivity.
Qed.

(** A new image reads as its base. *)
Lemma create_ok c h : config_valid c -> host_delta h = NoEntry -> host_can_create h = true -> host_journal h = Some [] ->
  exists s, storage_new c h [] = (Some tt, s) /\ storage_ok s [] /\
    config_of s = c /\ (fbytes <$> base_fp s) = host_base h /\
    forall l, content s l = base_block s l /\ saved_content s [] l = base_block s l.
Proof.
  intros Hc Hd Hcr Hj. unfold storage_new. rewrite (cv_ok _ Hc). unfold storage_open. rewrite Hd, Hj, Hcr.
  set (s0 := fresh c h []). pose proof (fresh_geometry c h [] Hc) as Hg. fold s0 in Hg.
  set (at_ := fun l => set_delta_fp (mk_FILE l (zlen l) false) s0).
  assert (forall l d, delta_write d (at_ l) = (Some tt, at_ (l ++ d))) as Hw.
  { intros l d. rewrite delta_write_more by done. unfold at_. cbn [delta_fp set_delta_fp fbytes fpos].
    by rewrite write_at_end, zlen_app. }
  assert (delta_write_header s0 = (Some tt, at_ (header_of (block_count s0) (block_size s0)))) as Eh.
  { unfold delta_write_header. assert (delta_seek 0 s0 = (Some tt, at_ [])) as E0.
    { unfold delta_seek, upd. rewrite fseek_fits by apply fits_0. done. }
    rewrite (bind_Some _ _ _ _ _ E0), (bind_Some _ _ _ _ _ (Hw _ _)), (bind_Some _ _ _ _ _ (Hw _ _)), asks_bind,
      (bind_Some _ _ _ _ _ (Hw _ _)), asks_bind, (bind_Some _ _ _ _ _ (Hw _ _)), Hw.
    unfold header_of. by rewrite <-!app_assoc. }
  rewrite bind_assoc, require_true by done. rewrite bind_assoc, (bind_Some _ _ _ _ _ Eh).
  set (hdr := header_of _ _). set (s1 := at_ hdr).
  assert (flushable s1) as Hfl.
  { pose proof (geo_bytes_pos s0 Hg) as Hp. split; try done.
    - destruct Hg. by split.
    - cbn. apply zlen_zeros. cbn in Hp. lia.
    - cbn. apply zlen_zeros. cbn in Hp. lia. }
  destruct (flush_ok s1 Hfl) as (f & Ef & Hfa & Hfh & _). rewrite (bind_Some _ _ _ _ _ Ef), upd_bind.
  set (s2 := set_journal_fp _ _).
  assert (0 < block_size s2) as Hbs by (destruct (config_ok_bounds c (cv_ok _ Hc)); cbn; lia).
  destruct (load_index_ok s2 eq_refl [] Hbs eq_refl (list.Forall_nil_2 _)) as (pj & E2). rewrite E2.
  eexists. split; [reflexivity|].
  set (bm := zeros (bitmap_bytes s0)).
  split_and!; [|by destruct c|by destruct h as [[] ]|].
  - pose proof (geo_bytes_pos s0 Hg) as Hp.
    apply (settled_ok s0 f (mk_FILE [] pj true) bm false); try done.
    + apply zlen_zeros. lia.
    + intros l _ Hl. unfold bm in Hl. by rewrite bitmap_test_zeros in Hl.
  - intros l. unfold content, saved_content. cbn [bitmap committed_bitmap].
    change (bitmap (load_state s2 (journal_image []) pj [].*1)) with bm.
    change (committed_bitmap (load_state s2 (journal_image []) pj [].*1)) with bm.
    unfold bm. by rewrite bitmap_test_zeros.
Qed.
End Open.
