(* ===== verification/StorageTheorems.v ===== *)
(** * What an image promises

    The specification of storage.c is an array of blocks with a saved copy; the
    engine implements it, and the saved copy survives a crash. *)
From S2P Require Import Prelude Stdio Storage StorageProofs StorageOps.

(** ** The specification *)
Record disk := mk_disk { current : Z -> list Z; saved : Z -> list Z }.
Inductive request := ReadBlock (off : Z) | WriteBlock (off : Z) (buf : list Z) | Commit.
Inductive reply := Data (b : list Z) | Ack | Rejected.

Definition names_block (count size off : Z) : bool := (off mod size =? 0) && (off / size <? count).
Definition disk_step (count size : Z) (r : request) (d : disk) : reply * disk :=
  match r with
  | ReadBlock off =>
      if names_block count size off then (Data (current d (off / size)), d) else (Rejected, d)
  | WriteBlock off buf =>
      if names_block count size off
      then (Ack, mk_disk (fun l => if l =? off / size then buf else current d l) (saved d)) else (Rejected, d)
  | Commit => (Ack, mk_disk (current d) (current d))
  end.
Definition request_ok (size : Z) (r : request) : Prop :=
  match r with
  | ReadBlock off => 0 <= off
  | WriteBlock off buf => 0 <= off /\ zlen buf = size
  | Commit => True
  end.
Fixpoint run {S} (step : request -> S -> reply * S) (rs : list request) (s : S) : list reply * S :=
  match rs with
  | [] => ([], s)
  | r :: rs => let '(a, s) := step r s in let '(l, s) := run step rs s in (a :: l, s)
  end.

Section Engine.
Context `{!Abi} `{!AbiOk _}.
Implicit Types (s : storage) (d : disk).

(** The calls of storage.c that answer a request. *)
Definition storage_step (r : request) (s : storage) : reply * storage :=
  match r with
  | ReadBlock off =>
      match storage_read_block off s with
      | ((true, Some b), s) => (Data b, s)
      | (_, s) => (Rejected, s)
      end
  | WriteBlock off buf =>
      match storage_write_block off buf s with (Some _, s) => (Ack, s) | (None, s) => (Rejected, s) end
  | Commit => match storage_clear_rollback s with (Some _, s) => (Ack, s) | (None, s) => (Rejected, s) end
  end.

Definition represents s d : Prop := exists es, storage_ok s es /\
  forall l, in_image s l -> content s l = current d l /\ saved_content s es l = saved d l.

Lemma same_geometry_refl s : same_geometry s s.
Proof. done. Qed.
Lemma same_geometry_trans s1 s2 s3 : same_geometry s1 s2 -> same_geometry s2 s3 -> same_geometry s1 s3.
Proof. intros (E1 & E2 & E3 & E4) (F1 & F2 & F3 & F4). repeat split; by etrans. Qed.

Lemma moved_geometry s s' : moved s s' -> same_geometry s s'.
Proof. intros (b & p & j & ->). repeat split. cbn. by destruct (base_fp s). Qed.

Lemma names_block_true s off : names_block (block_count s) (block_size s) off = true ->
  off mod block_size s = 0 /\ off / block_size s < block_count s.
Proof. unfold names_block. rewrite andb_true_iff, Z.eqb_eq, Z.ltb_lt. done. Qed.
Lemma names_block_false s off : names_block (block_count s) (block_size s) off = false ->
  off mod block_size s <> 0 \/ block_count s <= off / block_size s.
Proof. unfold names_block. rewrite andb_false_iff, Z.eqb_neq, Z.ltb_ge. done. Qed.

Lemma step_refines r s d : represents s d -> request_ok (block_size s) r ->
  exists a s' d', storage_step r s = (a, s') /\ disk_step (block_count s) (block_size s) r d = (a, d') /\
    represents s' d' /\ same_geometry s s'.
Proof.
  intros (es & Hok & Hrep) Hr. destruct r as [off|off buf|]; cbn [storage_step disk_step request_ok] in *.
  - destruct (names_block _ _ off) eqn:Hn.
    + apply names_block_true in Hn as [Hm Hl]. destruct (read_block_ok s es Hok off Hr Hm Hl) as (s' & E & Hmv).
      destruct (Hrep (off / block_size s)) as [Ec _]; [split; [apply Z.div_pos; [done|destruct (so_geo _ _ Hok); lia]|done]|].
      rewrite E, Ec. do 3 eexists. split_and!; [done..| |by apply moved_geometry].
      exists es. split; [by eapply ok_moved|]. destruct Hmv as (? & ? & ? & ->). intros l Hl'. rewrite <-!(proj1 (Hrep l Hl')).
      rewrite <-!(proj2 (Hrep l Hl')). unfold content, saved_content, base_block. cbn. by destruct (base_fp s).
    + apply names_block_false in Hn. unfold storage_read_block. rewrite block_of_bad by done.
      do 3 eexists. split_and!; [done..|by exists es|done].
  - destruct Hr as [Ho Hb]. destruct (names_block _ _ off) eqn:Hn.
    + apply names_block_true in Hn as [Hm Hl]. destruct (write_block_ok s es off buf Hok Ho Hm Hl Hb) as (s' & es' & E & Hok' & Hg & _ & Hc).
      rewrite E. do 3 eexists. split_and!; [done..| |done]. exists es'. split; [done|].
      intros l Hl'. assert (in_image s l) as Hi by (unfold in_image in *; by rewrite (proj1 Hg) in Hl').
      destruct (Hc l Hi) as [-> ->]. destruct (Hrep l Hi) as [-> ->]. done.
    + apply names_block_false in Hn. unfold storage_write_block. rewrite (bind_None _ _ _ s) by (by apply block_of_bad).
      do 3 eexists. split_and!; [done..|by exists es|done].
  - destruct (clear_ok s es Hok) as (s' & E & Hok' & Hg & _ & _ & Hc). rewrite E. do 3 eexists. split_and!; [done..| |done].
    exists []. split; [done|]. intros l Hl'. assert (in_image s l) as Hi by (unfold in_image in *; by rewrite (proj1 Hg) in Hl').
    destruct (Hc l Hi) as [-> ->]. by destruct (Hrep l Hi) as [-> _].
Qed.

Lemma run_refines rs : forall s d, represents s d -> Forall (request_ok (block_size s)) rs ->
  exists l s' d', run storage_step rs s = (l, s') /\ run (disk_step (block_count s) (block_size s)) rs d = (l, d') /\
    represents s' d' /\ same_geometry s s'.
Proof.
  induction rs as [|r rs IH]; intros s d Hs Hr.
  { exists [], s, d. done. }
  apply list.Forall_cons in Hr as [Hr Hrs]. cbn [run].
  destruct (step_refines r s d Hs Hr) as (a & s1 & d1 & -> & -> & H1 & Hg). destruct Hg as (Ec & Eb & Eo & Ef).
  destruct (IH s1 d1 H1) as (l & s2 & d2 & -> & E2 & H2 & Hg2); [by rewrite Eb|].
  rewrite Ec, Eb in E2. rewrite E2. do 3 eexists. split_and!; [done..|]. eapply same_geometry_trans; [|exact Hg2]. done.
Qed.

(** ** A new image *)

(** The block of the base file, zeros behind its end and without a base file. *)
Definition base_disk (c : storage_config) (base : option (list Z)) : disk :=
  let block l := match base with
    | Some f => default (zeros (cfg_block_size c)) (read_at f (cfg_base_data_offset c + l * cfg_block_size c) (cfg_block_size c))
    | None => zeros (cfg_block_size c)
    end in
  mk_disk block block.
(** No delta file and no journal exist yet. *)
Definition no_image (h : host_files) : Prop :=
  host_delta h = NoEntry /\ host_can_create h = true /\ host_journal h = Some [].
Definition session (c : storage_config) (h : host_files) (rs : list request) : list reply * storage :=
  run storage_step rs (storage_new c h []).2.

Lemma session_ok c h rs : config_valid c -> no_image h -> Forall (request_ok (cfg_block_size c)) rs ->
  exists l s d, storage_new c h [] = (Some tt, (storage_new c h []).2) /\ session c h rs = (l, s) /\
    run (disk_step (cfg_block_count c) (cfg_block_size c)) rs (base_disk c (host_base h)) = (l, d) /\
    represents s d /\ config_of s = c /\ (fbytes <$> base_fp s) = host_base h.
Proof.
  intros Hc (Hd & Hcr & Hj) Hr. destruct (create_ok c h Hc Hd Hcr Hj) as (s0 & E & Hok & Ec & Eb & Hcont).
  unfold session. rewrite E. cbn [snd].
  assert (represents s0 (base_disk c (host_base h))) as Hrep.
  { exists []. split; [done|]. intros l _. destruct (Hcont l) as [-> ->].
    assert (base_block s0 l = current (base_disk c (host_base h)) l) as ->; [|done].
    rewrite <-Ec, <-Eb. unfold base_block, base_disk. cbn. by destruct (base_fp s0). }
  destruct (run_refines rs s0 _ Hrep) as (l & s & d & E1 & E2 & H2 & Hg).
  { change (block_size s0) with (cfg_block_size (config_of s0)). by rewrite Ec. }
  change (block_size s0) with (cfg_block_size (config_of s0)) in E2.
  change (block_count s0) with (cfg_block_count (config_of s0)) in E2. rewrite Ec in E2.
  exists l, s, d. split_and!; try done.
  - rewrite <-Ec. destruct Hg as (F1 & F2 & F3 & F4). unfold config_of. by rewrite F1, F2, F3.
  - destruct Hg as (F1 & F2 & F3 & F4). by rewrite F4.
Qed.

(** C11: an image behaves as an array of blocks.  storage_new on a base file
    without delta file and journal succeeds, and whatever reads, writes and
    commits follow, every answer is that of the array that starts as the base
    (zeros behind its end): a read returns the block last written there, and an
    offset that is not that of a block is rejected without an effect. *)
Theorem storage_refines_disk c h rs : config_valid c -> no_image h -> Forall (request_ok (cfg_block_size c)) rs ->
  (storage_new c h []).1 = Some tt /\
  (session c h rs).1 = (run (disk_step (cfg_block_count c) (cfg_block_size c)) rs (base_disk c (host_base h))).1.
Proof.
  intros Hc Hh Hr. destruct (session_ok c h rs Hc Hh Hr) as (l & s & d & E & -> & -> & _). by rewrite E.
Qed.

(** ** Crashes

    What the disk may hold when the process dies: the journal, which is flushed
    entry by entry; the header and the bitmaps of the last flush; the blocks of
    the last checkpoint that were not overwritten since.  Any other block of the
    delta file may hold anything, its new contents, half of them or nothing. *)
Definition crash_image s (h : host_files) : Prop :=
  host_base h = (fbytes <$> base_fp s) /\ host_journal h = Some (fbytes (journal_fp s)) /\
  exists D, host_delta h = Opened D /\
    read_at D 0 (data_offset s) = read_at (fbytes (delta_fp s)) 0 (data_offset s) /\
    forall l, in_image s l -> bitmap_test (committed_bitmap s) l = true -> l ∉ journal_lbas s ->
      read_at D (data_at s l) (block_size s) = dblock s l.
(** Between two calls, or inside a write whose entry has reached the journal. *)
Definition interrupted s (m : storage) : Prop :=
  m = s \/ exists l, in_image s l /\ capture_preimage l s = (Some tt, m).

Lemma interrupted_ok s d m : represents s d -> interrupted s m -> represents m d /\ same_geometry s m.
Proof.
  intros Hs [->|(l & Hl & E)]; [done|]. destruct Hs as (es & Hok & Hrep).
  destruct (capture_ok s es Hok l Hl) as (p & j & lbas & es' & E' & Hok' & _ & Hsv). rewrite E in E'. injection E' as ->.
  split; [|done]. exists es'. split; [done|]. intros l' Hl'. specialize (Hsv l'). rewrite Hsv. by apply Hrep.
Qed.

Lemma reopen_recoverable m es h D : storage_ok m es -> crash_image m h -> host_delta h = Opened D -> exists s1,
  storage_new (config_of m) h [] = (Some tt, s1) /\ recoverable s1 es /\ same_geometry m s1 /\
  bitmap s1 = committed_bitmap m /\ committed_bitmap s1 = committed_bitmap m /\
  forall l, in_image m l -> saved_content s1 es l = saved_content m es l.
Proof.
  intros Hok (Hb & Hj & D' & Hd & Hh & Hblk) Hd'. rewrite Hd' in Hd. injection Hd as <-.
  pose proof (geometry_config m (so_geo _ _ Hok)) as Hc. pose proof (so_geo _ _ Hok) as Hg.
  rewrite (so_journal _ _ Hok) in Hj. rewrite (so_head _ _ Hok), (geo_data _ Hg), (geo_bytes _ Hg) in Hh.
  assert (Forall (fun e => in_width 32 e.1 /\ zlen e.2 = cfg_block_size (config_of m)) es) as He.
  { eapply list.Forall_impl; [apply Hok|]. intros e ([? ?] & _ & ?). destruct Hg. split; [|done]. unfold in_width. lia. }
  destruct (reopen_ok (config_of m) h D (committed_bitmap m) es Hc Hd' Hj) as (pd & pj & E); [|done..|].
  { rewrite (so_committed _ _ Hok). apply Hg. }
  eexists. split; [exact E|]. set (s1 := reopened _ _ _ _ _ _ _).
  rewrite (so_index _ _ Hok) in Hblk.
  assert (data_offset s1 = data_offset m) as Eo by (unfold s1; cbn; by rewrite (geo_data _ Hg), (geo_bytes _ Hg)).
  assert (forall l, dblock s1 l = read_at D (data_at m l) (block_size m)) as Hd1.
  { intros l. unfold dblock, data_at. by rewrite Eo. }
  assert (forall l, base_block s1 l = base_block m l) as Hb1.
  { intros l. unfold base_block, s1. cbn. rewrite Hb. by destruct (base_fp m). }
  split_and!; try done.
  - pose proof (fresh_geometry (config_of m) h [] Hc) as Hg1. split; try done.
    + destruct Hg1. by split.
    + cbn. rewrite (so_committed _ _ Hok). apply Hg.
    + intros l Hl Hcl Hn. rewrite Hd1, Hblk by done. by apply Hok, (so_sub _ _ Hok).
    + apply Hok.
    + apply Hok.
  - repeat split. unfold s1. cbn. rewrite Hb. by destruct (base_fp m).
  - intros l Hl. unfold saved_content. rewrite Hb1. change (committed_bitmap s1) with (committed_bitmap m).
    destruct (bitmap_test (committed_bitmap m) l) eqn:Hcl; [|done]. destruct (preimages es !! l) eqn:Hp; [done|].
    apply not_elem_of_list_to_map_2 in Hp. by rewrite Hd1, Hblk.
Qed.

(** A rollback of a recoverable image, with or without a journal. *)
Lemma rollback_any s es : recoverable s es -> bitmap s = committed_bitmap s \/ es <> [] -> exists s',
  storage_apply_rollback s = (Some tt, s') /\ storage_ok s' [] /\ same_geometry s s' /\
  forall l, in_image s l -> content s' l = saved_content s es l /\ saved_content s' [] l = saved_content s es l.
Proof.
  intros Hr Hd. destruct es as [|e es].
  2: { destruct (rollback_ok s (e :: es) Hr) as (s' & ? & ? & ? & _ & _ & ?); [done|]. by exists s'. }
  destruct Hd as [Hb|]; [|done]. destruct Hr as [Hg Hf Hda Hap Hcm Hhd Hdat Hjr Hix Hnd Hen]. exists s. unfold storage_apply_rollback. rewrite asks_bind.
  unfold journal_count. rewrite Hix. cbn. split_and!; try done.
  - split; try done; [by rewrite Hb|by rewrite Hb|]. intros l Hl. rewrite Hb. intros Hc. apply Hdat; [done..|]. apply not_elem_of_nil.
  - intros l Hl. unfold content, saved_content. rewrite Hb. done.
Qed.

(** C4: the last checkpoint survives a crash.  Let the process die between
    any two calls of a session, or inside a write after the old block reached
    the journal, with anything at all in those blocks of the delta file that are
    not part of the checkpoint or were overwritten since: then storage_new on
    the files left behind succeeds, storage_apply_rollback succeeds, and every
    block reads as at the last commit (as the base, if there was none). *)
Theorem crash_recovery c h rs m h' : config_valid c -> no_image h -> Forall (request_ok (cfg_block_size c)) rs ->
  interrupted (session c h rs).2 m -> crash_image m h' ->
  exists s1 s2, storage_new c h' [] = (Some tt, s1) /\ storage_apply_rollback s1 = (Some tt, s2) /\
  let last := saved (run (disk_step (cfg_block_count c) (cfg_block_size c)) rs (base_disk c (host_base h))).2 in
  forall l, 0 <= l < cfg_block_count c ->
    (storage_read_block (l * cfg_block_size c) s2).1 = (true, Some (last l)).
Proof.
  intros Hc Hh Hr Hm Hcr. destruct (session_ok c h rs Hc Hh Hr) as (rl & s & d & _ & Es & Ed & Hs & Ec & Eb).
  rewrite Es in Hm. rewrite Ed. cbn [snd] in *. destruct (interrupted_ok s d m Hs Hm) as ((es & Hok & Hrep) & Hg).
  assert (config_of m = c) as Em. { rewrite <-Ec. destruct Hg as (F1 & F2 & F3 & _). unfold config_of. by rewrite F1, F2, F3. }
  destruct (id Hcr) as (_ & _ & D & Hd & _).
  destruct (reopen_recoverable m es h' D Hok Hcr Hd) as (s1 & E1 & Hrc & Hg1 & Hb1 & Hc1 & Hs1). rewrite Em in E1.
  destruct (rollback_any s1 es Hrc) as (s2 & E2 & Hok2 & Hg2 & Hc2); [left; by rewrite Hb1, Hc1|].
  exists s1, s2. split_and!; [done..|]. intros l Hl.
  pose proof (same_geometry_trans _ _ _ Hg1 Hg2) as (F1 & F2 & _).
  assert (cfg_block_size c = block_size s2) as Eq by (by rewrite <-Em, F2).
  assert (in_image m l) as Hi by (rewrite <-Em in Hl; done).
  assert (0 < block_size s2) as Hpos by (destruct (so_geo _ _ Hok2); lia).
  destruct (read_block_ok s2 [] Hok2 (l * block_size s2)) as (s3 & E3 & _).
  { nia. } { by apply Z.mod_mul; lia. } { rewrite Z.div_mul by lia. rewrite F1. apply Hi. }
  rewrite Eq, E3. cbn [fst]. rewrite Z.div_mul by lia. do 2 f_equal.
  assert (in_image s1 l) as Hi1 by (destruct Hg1 as (G1 & _); unfold in_image; by rewrite G1).
  destruct (Hc2 l Hi1) as [-> _]. rewrite Hs1 by done. by apply Hrep.
Qed.

(** A rollback brings the last checkpoint back.  After any session, if
    some block of the checkpoint was overwritten since, storage_apply_rollback
    succeeds and every block reads as at the last commit. *)
Theorem rollback_correct c h rs : config_valid c -> no_image h -> Forall (request_ok (cfg_block_size c)) rs ->
  0 < journal_count (session c h rs).2 ->
  exists s2, storage_apply_rollback (session c h rs).2 = (Some tt, s2) /\
  let last := saved (run (disk_step (cfg_block_count c) (cfg_block_size c)) rs (base_disk c (host_base h))).2 in
  represents s2 (mk_disk last last).
Proof.
  intros Hc Hh Hr Hj. destruct (session_ok c h rs Hc Hh Hr) as (rl & s & d & _ & Es & Ed & (es & Hok & Hrep) & _).
  rewrite Es, Ed in *. cbn [snd] in *.
  destruct (rollback_any s es (ok_recoverable _ _ Hok)) as (s2 & E2 & Hok2 & Hg2 & Hc2).
  { right. intros ->. unfold journal_count in Hj. rewrite (so_index _ _ Hok) in Hj. change (0 < 0) in Hj. lia. }
  exists s2. split; [done|]. exists []. split; [done|]. intros l Hl.
  assert (in_image s l) as Hi by (destruct Hg2 as (G1 & _); unfold in_image in *; by rewrite G1 in Hl).
  destruct (Hc2 l Hi) as [-> ->]. by destruct (Hrep l Hi) as [_ ->].
Qed.
End Engine.
