(* ===== verification/StorageCkpt.v ===== *)
(** * Images in checkpoints

    storage_checkpoint and storage_restore_from_checkpoint of storage.c, on the
    checkpoint files of checkpoint.c: a quick checkpoint holds the bitmap, the
    blocks stay in the delta file; a consolidated one holds every block. *)
From S2P Require Import Prelude Stdio Rle Checkpoint Storage.

Definition STORAGE_SNAPSHOT_VERSION : Z := 2.

(** storage_snapshot_header_t, with the padding at its end. *)
Record snapshot_header := mk_snapshot {
  sn_version : Z;
  sn_has_data : Z;
  sn_block_count : Z;
  sn_block_size : Z;
}.
Definition snapshot_bytes (h : snapshot_header) : list Z :=
  le 4 (sn_version h) ++ [sn_has_data h; 0; 0; 0] ++ le 8 (sn_block_count h) ++ le 4 (sn_block_size h) ++ zeros 4.
Definition snapshot_of (b : list Z) : snapshot_header :=
  mk_snapshot (unle (ztake 4 b)) (nth 4 b 0) (unle (ztake 8 (zdrop 8 b))) (unle (ztake 4 (zdrop 16 b))).
Definition SNAPSHOT_SIZE : Z := 24.

Section Checkpointing.
Context `{!Abi}.
(** __FILE__ *)
Variable source : list Z.

Definition checkpoint_storage_write_cb (c : checkpoint) (data : list Z) : bool * checkpoint :=
  let c := system_write_checkpoint_data_loc data source 271 c in (negb (checkpoint_has_error c), c).
Definition checkpoint_storage_read_cb (c : checkpoint) (size : Z) : option (list Z) * checkpoint :=
  let '(d, c) := system_read_checkpoint_data_loc size c in
  (if checkpoint_has_error c then None else d, c).

(** [None]: no checkpoint, only a flush. *)
Definition storage_checkpoint (cp : option checkpoint) (s : storage) : bool * option checkpoint * storage :=
  match cp with
  | None => let '(r, s) := storage_clear_rollback s in (bool_decide (is_Some r), None, s)
  | Some c =>
      let has_data := match checkpoint_get_kind c with CHECKPOINT_KIND_CONSOLIDATED => 1 | _ => 0 end in
      let header := mk_snapshot STORAGE_SNAPSHOT_VERSION has_data (block_count s) (block_size s) in
      let c := system_write_checkpoint_data_loc (snapshot_bytes header) source 551 c in
      if checkpoint_has_error c then (false, Some c, s) else
      if truthy has_data then
        match storage_save_state checkpoint_storage_write_cb c s with
        | (true, c, s) => let '(r, s) := storage_clear_rollback s in (bool_decide (is_Some r), Some c, s)
        | (false, c, s) => (false, Some c, s)
        end
      else
        let c := system_write_checkpoint_data_loc (bitmap s) source 563 c in
        if checkpoint_has_error c then (false, Some c, s)
        else let '(r, s) := storage_clear_rollback s in (bool_decide (is_Some r), Some c, s)
  end.

(** A block is read into a buffer of STORAGE_MAX_BLOCK_SIZE bytes, whatever
    size the header gives. *)
Fixpoint skip_blocks (n : nat) (size : Z) (c : checkpoint) : bool * checkpoint :=
  match n with
  | O => (true, c)
  | S n =>
      let '(d, c) := system_read_checkpoint_data_loc size c in
      let c := match d with
               | Some _ => if STORAGE_MAX_BLOCK_SIZE <? size then set_cp_overrun true c else c
               | None => c
               end in
      if checkpoint_has_error c then (false, c) else skip_blocks n size c
  end.
Definition storage_skip_snapshot (h : snapshot_header) (c : checkpoint) : bool * checkpoint :=
  if truthy (sn_has_data h) then skip_blocks (Z.to_nat (sn_block_count h)) (sn_block_size h) c
  else
    let bm := usize ((sn_block_count h + 7) / 8) in
    let '(_, c) := system_read_checkpoint_data_loc bm c in (negb (checkpoint_has_error c), c).

(** After the bitmap of a quick checkpoint was read: commit it. *)
Definition adopt_bitmap (b : list Z) : io storage unit :=
  upd (set_bitmap b);;
  upd (fun s => set_committed_bitmap (bitmap s) s);;
  ignore delta_flush_bitmaps;;
  reset_journal.
Definition storage_restore_from_checkpoint (st : option storage) (c : checkpoint) : bool * checkpoint * option storage :=
  let '(b, c) := system_read_checkpoint_data_loc SNAPSHOT_SIZE c in
  if checkpoint_has_error c then (false, c, st) else
  let header := snapshot_of (default (zeros SNAPSHOT_SIZE) b) in
  if negb (sn_version header =? STORAGE_SNAPSHOT_VERSION) then (false, c, st) else
  match st with
  | None => let '(ok, c) := storage_skip_snapshot header c in (ok, c, None)
  | Some s =>
      if negb (sn_block_count header =? block_count s) || negb (sn_block_size header =? block_size s) then (false, c, st)
      else if truthy (sn_has_data header) then
        let '(ok, c, s) := storage_load_state checkpoint_storage_read_cb c s in (ok, c, Some s)
      else
        let s := if 0 <? journal_count s then (storage_apply_rollback s).2 else s in
        let '(bm, c) := system_read_checkpoint_data_loc (bitmap_bytes s) c in
        if checkpoint_has_error c then (false, c, Some s) else
        let '(r, s) := adopt_bitmap (default (bitmap s) bm) s in
        (bool_decide (is_Some r), c, Some s)
  end.
End Checkpointing.
