(* ===== verification/StorageCkptProofs.v ===== *)
(** * Round trips of images through checkpoints

    Snapshots of an image, and storage.c on checkpoint.c: what a checkpoint of an
    image brings back. *)
From S2P Require Import Prelude Stdio Rle Checkpoint CheckpointProofs CheckpointTheorems.
From S2P Require Import Storage StorageProofs StorageOps StorageTheorems StorageCkpt.

(** ** The snapshot header *)
Definition snapshot_ok (h : snapshot_header) : Prop :=
  in_width 32 (sn_version h) /\ in_width 64 (sn_block_count h) /\ in_width 32 (sn_block_size h).
Lemma zlen_snapshot h : zlen (snapshot_bytes h) = SNAPSHOT_SIZE.
Proof. unfold snapshot_bytes. by rewrite !zlen_app, !zlen_le. Qed.
Lemma snapshot_roundtrip h : snapshot_ok h -> snapshot_of (snapshot_bytes h) = h.
Proof.
  intros (Hv & Hc & Hs). destruct h as [v hd n b]. unfold snapshot_of, snapshot_bytes. cbn [sn_version sn_has_data sn_block_count sn_block_size] in *.
  rewrite (ztake_app 4) by done. rewrite unle_le_id by done. f_equal.
  - rewrite app_assoc, (zdrop_exact 8) by done. rewrite (ztake_app 8) by done. by rewrite unle_le_id.
  - rewrite app_assoc, app_assoc, (zdrop_exact 16) by done. rewrite (ztake_app 4) by done. by rewrite unle_le_id.
Qed.

(** ** Reading a sequence of blocks *)
Section Yields.
Context `{!Abi}.
Fixpoint yields (ds : list (list Z)) (c c' : checkpoint) : Prop :=
  match ds with
  | [] => c' = c
  | d :: ds => exists c1, system_read_checkpoint_data_loc (zlen d) c = (Some d, c1) /\ cp_error c1 = false /\ yields ds c1 c'
  end.
Definition block_items (source : list Z) (line : Z) (ds : list (list Z)) : list item := (fun d => Block d source line) <$> ds.
Definition item_data (i : item) : list Z := match i with Block d _ _ => d | File _ _ _ _ => [] end.
Lemma read_items_yields host items : Forall (fun i => exists d f l, i = Block d f l) items -> forall c c',
  read_items host items c = (expected host <$> items, c') -> cp_error c' = false -> yields (item_data <$> items) c c'.
Proof.
  induction 1 as [|i items (d & f & l & ->) Hall IH]; intros c c' Hr He; cbn [read_items fmap list_fmap yields item_data] in *.
  { by injection Hr as <-. }
  cbn [read_item] in Hr. destruct (system_read_checkpoint_data_loc (zlen d) c) as [x c1] eqn:E.
  destruct (read_items host items c1) as [gs c2] eqn:E2. injection Hr as -> Hgs ->. exists c1. split; [done|]. split; [|apply IH; [|done]].
  2: by rewrite E2, <-Hgs.
  destruct (cp_error c1) eqn:He1; [|done]. exfalso. destruct Hall as [|i items (d' & f' & l' & ->) _]; cbn [read_items] in E2.
  { injection E2 as <- <-. congruence. }
  cbn [read_item] in E2. unfold system_read_checkpoint_data_loc in E2. rewrite He1 in E2. cbn [orb] in E2.
  destruct (read_items host items _) as [gs' c3]. injection E2 as <- <-. done.
Qed.
End Yields.

(** ** Saving *)
Section Save.
Context `{!Abi} `{!AbiOk _} (Hsize : 32 <= size_bits).
Context (build_id : list Z) (host_file : list Z -> option (list Z)) (source : list Z).
Implicit Types (s : storage) (es : list (Z * list Z)).
#[local] Abbreviation wcp := (write_checkpoint build_id host_file).
Lemma write_item_block refs c d f l : system_write_checkpoint_data_loc d f l c = write_item host_file refs c (Block d f l).
Proof. done. Qed.

Definition image_blocks s (k : Z) (n : nat) : list item :=
  (fun l => Block (content s l) source 271) <$> seqZ k (Z.of_nat n).
Definition snapshot_items (kind : checkpoint_kind) s : list item :=
  let header has := Block (snapshot_bytes (mk_snapshot STORAGE_SNAPSHOT_VERSION has (block_count s) (block_size s))) source 551 in
  match kind with
  | CHECKPOINT_KIND_QUICK => [header 0; Block (bitmap s) source 563]
  | CHECKPOINT_KIND_CONSOLIDATED => header 1 :: image_blocks s 0 (Z.to_nat (block_count s))
  end.
Lemma wcp_snoc kind model ram refs items i : wcp kind model ram refs (items ++ [i]) = write_item host_file refs (wcp kind model ram refs items) i.
Proof. unfold write_checkpoint. by rewrite fold_left_app. Qed.
Lemma wcp_no_error kind model ram refs items : Forall (item_ok host_file) items -> cp_error (wcp kind model ram refs items) = false.
Proof.
  intros Hi. destruct kind.
  - apply (written3 build_id host_file model ram refs items Hi).
  - destruct (written2 build_id host_file model ram refs items Hi) as (c & E & He & _). by rewrite E.
Qed.
Lemma zlen_content s es l : storage_ok s es -> in_image s l -> zlen (content s l) = block_size s.
Proof.
  intros Hok Hl. destruct (so_geo _ _ Hok). unfold content. destruct (bitmap_test _ l) eqn:E.
  - destruct (so_data _ _ Hok l Hl E) as [d Hd]. rewrite Hd. by apply read_at_Some in Hd as (_ & _ & _ & _ & ?).
  - unfold base_block. destruct (base_fp s) as [f|]; [|apply zlen_zeros; lia].
    destruct (read_at _ _ _) as [d|] eqn:Hd; cbn; [by apply read_at_Some in Hd as (_ & _ & _ & _ & ?)|apply zlen_zeros; lia].
Qed.
Lemma content_moved s s' l : moved s s' -> content s' l = content s l.
Proof. intros (b & d & j & ->). unfold content, base_block. cbn. by destruct (base_fp s). Qed.

Lemma save_blocks_ok kind model ram refs n : zlen source < 2 ^ 32 -> forall s es k items, storage_ok s es -> 0 <= k ->
  k + Z.of_nat n <= block_count s -> Forall (item_ok host_file) items ->
  exists s', save_blocks (checkpoint_storage_write_cb source) k n (wcp kind model ram refs items) s
    = (true, wcp kind model ram refs (items ++ image_blocks s k n), s') /\ moved s s'.
Proof.
  intros Hsrc. induction n as [|n IH]; intros s es k items Hok Hk Hn Hi.
  { exists s. cbn. unfold image_blocks. cbn. rewrite app_nil_r. split; [done|apply moved_refl]. }
  cbn [save_blocks]. assert (in_image s k) as Hl by (unfold in_image; lia).
  assert (usize (k * block_size s) = k * block_size s) as ->.
  { apply usize_fits. pose proof (data_at_long s (so_geo _ _ Hok) k Hl). pose proof (data_at_front s (so_geo _ _ Hok) k Hl).
    destruct (so_geo _ _ Hok). unfold fits, data_at in *. nia. }
  assert (0 < block_size s) by (destruct (so_geo _ _ Hok); lia).
  destruct (read_block_ok s es Hok (k * block_size s)) as (s1 & E & Hm);
    [nia|apply Z.mod_mul; lia|rewrite Z.div_mul by lia; lia|]. rewrite Z.div_mul in E by lia. rewrite E.
  unfold checkpoint_storage_write_cb at 1. set (i := Block (content s k) source 271).
  assert (item_ok host_file i) as Hii.
  { split; [|done]. rewrite (zlen_content s es k Hok Hl). destruct (so_geo _ _ Hok). unfold CHECKPOINT_MAX_ALLOC. lia. }
  rewrite (write_item_block refs). fold i.
  rewrite <-wcp_snoc. unfold checkpoint_has_error.
  assert (Forall (item_ok host_file) (items ++ [i])) as Hall by (apply list.Forall_app; split; [done|by apply list.Forall_singleton]).
  rewrite wcp_no_error by done. cbn [negb]. pose proof (ok_moved _ _ _ Hm Hok) as Hok1.
  destruct (IH s1 es (k + 1) (items ++ [i]) Hok1) as (s2 & E2 & Hm2); [lia| |done|].
  { destruct Hm as (? & ? & ? & ->). change (block_count (reposition _ _ _ s)) with (block_count s). lia. }
  exists s2. split.
  - rewrite E2. do 2 f_equal. rewrite <-app_assoc. f_equal. f_equal. unfold image_blocks.
    replace (Z.of_nat (S n)) with (Z.succ (Z.of_nat n)) by lia. rewrite (seqZ_cons k (Z.succ _)) by lia.
    replace (Z.pred (Z.succ (Z.of_nat n))) with (Z.of_nat n) by lia. cbn [fmap list_fmap app]. f_equal.
    apply list_fmap_ext. intros _ l _. by rewrite (content_moved s s1).
  - destruct Hm as (b & d & j & ->), Hm2 as (b' & d' & j' & ->). exists b', d', j'.
    unfold reposition. cbn. by destruct (base_fp s).
Qed.

(** storage_checkpoint writes the snapshot of the image and commits. *)
Lemma checkpoint_ok kind model ram refs s es : storage_ok s es -> zlen source < 2 ^ 32 ->
  12 * bitmap_bytes s + 18 <= 5 * CHECKPOINT_MAX_ALLOC ->
  Forall (item_ok host_file) (snapshot_items kind s) /\ exists s',
  storage_checkpoint source (Some (wcp kind model ram refs [])) s
    = (true, Some (wcp kind model ram refs (snapshot_items kind s)), s') /\
  storage_ok s' [] /\ same_geometry s s' /\ bitmap s' = bitmap s /\ committed_bitmap s' = bitmap s /\
  forall l, in_image s l -> content s' l = content s l /\ saved_content s' [] l = content s l.
Proof.
  intros Hok Hsrc Hbm. assert (forall has, item_ok host_file (Block (snapshot_bytes (mk_snapshot STORAGE_SNAPSHOT_VERSION has (block_count s) (block_size s))) source 551)) as Hh.
  { intros has. split; [|done]. by rewrite zlen_snapshot. }
  assert (forall s1, moved s s1 -> exists s', (let '(r, s) := storage_clear_rollback s1 in (bool_decide (is_Some r), s)) = (true, s') /\
    storage_ok s' [] /\ same_geometry s s' /\ bitmap s' = bitmap s /\ committed_bitmap s' = bitmap s /\
    forall l, in_image s l -> content s' l = content s l /\ saved_content s' [] l = content s l) as Hclear.
  { intros s1 Hm. destruct (clear_ok s1 es (ok_moved _ _ _ Hm Hok)) as (s' & E & Hok' & Hg & Hb & Hcb & Hc). rewrite E.
    exists s'. split; [done|]. split; [done|]. pose proof (moved_geometry _ _ Hm) as Hg1.
    assert (bitmap s1 = bitmap s) as Eb by (by destruct Hm as (? & ? & ? & ->)).
    split_and!; [by eapply same_geometry_trans|by rewrite Hb|by rewrite Hcb|]. intros l Hl. rewrite <-(content_moved s s1 l Hm). apply Hc.
    destruct Hg1 as (G & _). unfold in_image. by rewrite G. }
  assert (Forall (item_ok host_file) (snapshot_items CHECKPOINT_KIND_QUICK s)) as Hq.
  { apply list.Forall_cons; split; [apply Hh|]. apply list.Forall_singleton. split; [|done]. by rewrite (so_bitmap _ _ Hok). }
  destruct kind; (split; [|unfold storage_checkpoint;
    rewrite written_kind;
    cbv iota zeta; rewrite (write_item_block refs);
    rewrite <-wcp_snoc; cbn [app]; unfold checkpoint_has_error; rewrite wcp_no_error by (by apply list.Forall_singleton); cbv iota]).
  - exact Hq.
  - change (truthy 0) with false. cbv iota. rewrite (write_item_block refs).
    rewrite <-wcp_snoc. cbn [app]. rewrite wcp_no_error.
    2: exact Hq.
    destruct (Hclear s (moved_refl s)) as (s' & E & Hrest). exists s'. split; [|done].
    destruct (storage_clear_rollback s) as [r s2]. injection E as E1 E2. by rewrite E1, E2.
  - constructor; [apply Hh|]. unfold image_blocks. apply list.Forall_fmap, list.Forall_forall. intros l Hl. apply elem_of_seqZ in Hl.
    assert (in_image s l) as Hin by (unfold in_image; lia). split; [|done]. rewrite (zlen_content s es l Hok Hin).
    destruct (so_geo _ _ Hok). unfold CHECKPOINT_MAX_ALLOC. lia.
  - change (truthy 1) with true. cbv iota. unfold storage_save_state.
    assert (0 < block_count s) as Hcnt by (destruct (so_geo _ _ Hok); lia).
    destruct (save_blocks_ok CHECKPOINT_KIND_CONSOLIDATED model ram refs (Z.to_nat (block_count s)) Hsrc s es 0
      [Block (snapshot_bytes (mk_snapshot STORAGE_SNAPSHOT_VERSION 1 (block_count s) (block_size s))) source 551] Hok) as (s1 & E1 & Hm);
      [lia..|by apply list.Forall_singleton|].
    rewrite E1. destruct (Hclear s1 Hm) as (s' & E & Hrest). exists s'. split; [|done].
    destruct (storage_clear_rollback s1) as [r s2]. injection E as E2 E3. by rewrite E2, E3.
Qed.
End Save.

(** ** Loading *)
Section Load.
Context `{!Abi} `{!AbiOk _}.
Implicit Types (s : storage) (es : list (Z * list Z)).

Lemma load_block_ok s k d : geometry s -> faults s = [] -> fappend (delta_fp s) = false -> in_image s k ->
  load_block k d s = (Some tt, set_bitmap (bitmap_set (bitmap s) k)
    (set_delta_fp (mk_FILE (write_at (fbytes (delta_fp s)) (data_at s k) d) (data_at s k + zlen d) false) s)).
Proof.
  intros Hg Hf Ha Hk. unfold load_block. rewrite asks_bind.
  change (usize (data_offset s + usize (k * block_size s))) with (block_pos s k). rewrite block_pos_ok by done.
  rewrite <-bind_assoc, (bind_Some _ _ _ _ _ (delta_write_done s (data_at s k) d Hf (data_at_long s Hg k Hk) Ha)).
  unfold upd. cbn [bitmap set_delta_fp]. rewrite u32_small; [done|]. destruct Hg. unfold in_image, in_width in *. lia.
Qed.

(** The blocks loaded from [k] on: the delta file and the bitmap. *)
Record loaded s (k : Z) (ds : list (list Z)) (f : FILE) (bm : list Z) : Prop := {
  ld_append : fappend f = false;
  ld_bitmap : zlen bm = zlen (bitmap s);
  ld_head : forall h, read_at (fbytes (delta_fp s)) 0 (data_offset s) = Some h -> read_at (fbytes f) 0 (data_offset s) = Some h;
  ld_bits : forall l, in_image s l -> bitmap_test bm l = bitmap_test (bitmap s) l || ((k <=? l) && (l <? k + zlen ds));
  ld_before : forall l, in_image s l -> l < k -> is_Some (dblock s l) -> read_at (fbytes f) (data_at s l) (block_size s) = dblock s l;
  ld_blocks : forall i d, ds !! i = Some d -> read_at (fbytes f) (data_at s (k + Z.of_nat i)) (block_size s) = Some d;
}.
Lemma load_blocks_ok ds : forall s k c c', yields ds c c' -> geometry s -> faults s = [] -> fappend (delta_fp s) = false ->
  zlen (bitmap s) = bitmap_bytes s -> 0 <= k -> k + zlen ds <= block_count s -> Forall (fun d => zlen d = block_size s) ds ->
  exists f bm, load_blocks checkpoint_storage_read_cb k (length ds) c s = (true, c', set_bitmap bm (set_delta_fp f s)) /\ loaded s k ds f bm.
Proof.
  induction ds as [|d ds IH]; intros s k c c' Hy Hg Hf Ha Hbm Hk Hn Hd; cbn [length load_blocks yields] in *.
  { exists (delta_fp s), (bitmap s). subst c'. split; [by destruct s|]. split; try done.
    intros l _. change (zlen (@nil (list Z))) with 0. destruct (Z.leb_spec k l), (Z.ltb_spec l (k + 0)); try lia; by rewrite orb_false_r. }
  destruct Hy as (c1 & E & He & Hy). apply list.Forall_cons in Hd as [Hd Hds]. rewrite zlen_cons in Hn. pose proof (zlen_nonneg ds).
  assert (in_image s k) as Hin by (unfold in_image; lia).
  unfold checkpoint_storage_read_cb at 1. rewrite <-Hd, E. unfold checkpoint_has_error. rewrite He.
  rewrite load_block_ok by done. set (bm1 := bitmap_set (bitmap s) k). set (D1 := write_at _ _ _). set (s1 := set_bitmap bm1 _).
  assert (geometry s1) as Hg1 by (destruct Hg; by split).
  destruct (IH s1 (k + 1) c1 c' Hy Hg1) as (f & bm & E2 & Hl); try done; [|lia|cbn; lia|].
  { cbn. unfold bm1, zlen. rewrite length_bitmap_set. exact Hbm. }
  exists f, bm. split; [exact E2|]. destruct Hl as [L1 L2 L3 L4 L5 L6].
  pose proof (data_at_front s Hg k Hin) as Hfr. assert (0 < block_size s) by (destruct Hg; lia).
  assert (8 * bitmap_bytes s >= block_count s) as Hbits.
  { destruct Hg. rewrite geo_bytes. pose proof (Z.div_mod (block_count s + 7) 8 ltac:(lia)). pose proof (Z.mod_pos_bound (block_count s + 7) 8 ltac:(lia)). lia. }
  assert (read_at D1 (data_at s k) (block_size s) = Some d) as Hk1 by (unfold D1; rewrite <-Hd; apply read_write_same; lia).
  split; try done.
  - rewrite L2. cbn. unfold bm1, zlen. by rewrite length_bitmap_set.
  - intros h Hh. apply L3. rewrite <-Hh. pose proof (read_at_Some _ _ _ _ Hh) as (_ & _ & ? & _).
    change (fbytes (delta_fp s1)) with D1. unfold D1. apply read_write_other; cbn; lia.
  - intros l Hl. rewrite L4 by done. change (bitmap s1) with bm1. unfold bm1. unfold in_image in *.
    rewrite bitmap_test_set by (rewrite ?Hbm; lia). rewrite zlen_cons.
    destruct (Z.eqb_spec k l), (Z.leb_spec k l), (Z.leb_spec (k + 1) l), (Z.ltb_spec l (k + 1 + zlen ds)), (Z.ltb_spec l (k + (1 + zlen ds)));
      try lia; by destruct (bitmap_test (bitmap s) l).
  - intros l Hl Hlk Hs. assert (dblock s1 l = dblock s l) as El.
    { destruct Hs as [x Hx]. pose proof (read_at_Some _ _ _ _ Hx) as (_ & _ & ? & _). pose proof (data_at_front s Hg l Hl).
      unfold dblock. change (fbytes (delta_fp s1)) with D1. unfold D1. apply read_write_other; cbn; [lia..|].
      rewrite Hd. change (data_at s1 l) with (data_at s l). apply (data_at_apart s Hg). lia. }
    change (data_at s l) with (data_at s1 l). change (block_size s) with (block_size s1). rewrite L5; [done|done|lia|by rewrite El].
  - intros i x Hi. destruct i as [|i]; cbn in Hi.
    + injection Hi as <-. rewrite Z.add_0_r. rewrite <-Hk1. change (data_at s k) with (data_at s1 k). change (block_size s) with (block_size s1).
      apply L5; [done|lia|]. exists d. exact Hk1.
    + replace (k + Z.of_nat (S i)) with (k + 1 + Z.of_nat i) by lia. by apply L6.
Qed.

(** A consolidated snapshot replaces every block. *)
Lemma load_state_ok s es ds c c' : storage_ok s es -> yields ds c c' -> zlen ds = block_count s ->
  Forall (fun d => zlen d = block_size s) ds ->
  exists s', storage_load_state checkpoint_storage_read_cb c s = (true, c', s') /\ storage_ok s' [] /\ same_geometry s s' /\
    bitmap s' = committed_bitmap s' /\ forall l, in_image s l -> ds !! Z.to_nat l = Some (content s' l).
Proof.
  intros Hok Hy Hn Hd. unfold storage_load_state.
  assert (Z.to_nat (block_count s) = length ds) as -> by (rewrite <-Hn; unfold zlen; lia).
  destruct (load_blocks_ok ds s 0 c c' Hy) as (f & bm & E & Hl); try apply Hok; [lia|lia|done|].
  rewrite E. destruct Hl as [L1 L2 L3 L4 L5 L6]. pose proof (so_geo _ _ Hok) as Hg. pose proof (geo_bytes_pos s Hg).
  set (s1 := set_bitmap bm (set_delta_fp f s)).
  assert (flushable (set_committed_bitmap bm s1)) as Hfl.
  { destruct Hg. split; try done.
    - apply Hok.
    - cbn. rewrite L2. apply Hok.
    - cbn. rewrite L2. apply Hok.
    - apply (header_from_head _ _ _ (committed_bitmap s ++ committed_bitmap s)). rewrite zlen_app, (so_committed _ _ Hok).
      etransitivity; [|apply (L3 _ (so_head _ _ Hok))]. f_equal. rewrite geo_data. lia. }
  destruct (flush_ok _ Hfl) as (f' & Ef & Hfa & Hfh & Hfd). unfold commit_loaded. rewrite upd_bind.
  change (bitmap s1) with bm. rewrite (ignore_bind _ _ _ _ _ Ef).
  erewrite ignore_bind by (apply journal_truncate_done; apply Hok). unfold journal_seek. rewrite upd_bind, fseek_fits by apply fits_0.
  assert (forall l, in_image s l -> exists d, ds !! Z.to_nat l = Some d /\ read_at (fbytes f') (data_at s l) (block_size s) = Some d) as Hblk.
  { intros l Hl. unfold in_image in Hl. destruct (lookup_lt_is_Some_2 ds (Z.to_nat l)) as [d Hdl]; [unfold zlen in Hn; lia|].
    exists d. split; [done|]. specialize (L6 _ _ Hdl). rewrite Z.add_0_l, Z2Nat.id in L6 by lia. rewrite <-L6.
    pose proof (read_at_Some _ _ _ _ L6) as (_ & _ & ? & _). apply Hfd; [by apply (data_at_front s Hg)|done]. }
  eexists. split; [reflexivity|]. cbn [snd].
  assert (zlen bm = bitmap_bytes s) as Hbl by (rewrite L2; apply Hok).
  split_and!; [apply (settled_ok s f' (pos_to 0 (mk_FILE [] (fpos (journal_fp s)) (fappend (journal_fp s)))) bm (bitmap_dirty s)); try done; try apply Hok|done|done|].
  - intros l Hl _. destruct (Hblk l Hl) as (d & _ & ->). by eexists.
  - intros l Hl. destruct (Hblk l Hl) as (d & -> & Hr). f_equal. unfold content.
    match goal with |- _ = if bitmap_test ?x l then _ else _ => change x with bm end.
    rewrite L4 by done. unfold in_image in Hl. destruct (Z.leb_spec 0 l), (Z.ltb_spec l (0 + zlen ds)); try lia.
    rewrite orb_true_r. match goal with |- _ = default [] (dblock ?x l) => change (dblock x l) with (read_at (fbytes f') (data_at s l) (block_size s)) end.
    by rewrite Hr.
Qed.

(** ** Going back to a quick checkpoint *)
Lemma adopt_ok s : storage_ok s [] -> exists s', adopt_bitmap (committed_bitmap s) s = (Some tt, s') /\
  storage_ok s' [] /\ same_geometry s s' /\ bitmap s' = committed_bitmap s' /\
  forall l, in_image s l -> content s' l = saved_content s [] l.
Proof.
  intros Hok. unfold adopt_bitmap. rewrite !upd_bind. set (bm := committed_bitmap s).
  change (bitmap (set_bitmap bm s)) with bm.
  pose proof (ok_flushable s [] bm bm Hok (so_committed _ _ Hok) (so_committed _ _ Hok)) as Hfl.
  destruct (flush_ok _ Hfl) as (f & Ef & Hfa & Hfh & Hfd).
  change (set_bitmap bm (set_committed_bitmap bm s)) with (set_committed_bitmap bm (set_bitmap bm s)) in Ef.
  rewrite (ignore_bind _ _ _ _ _ Ef). unfold reset_journal.
  erewrite bind_Some by (apply journal_truncate_done; apply Hok). unfold journal_seek. rewrite upd_bind, fseek_fits by apply fits_0.
  assert (forall l, in_image s l -> bitmap_test bm l = true -> read_at (fbytes f) (data_at s l) (block_size s) = dblock s l) as Hblk.
  { intros l Hl Hb. destruct (so_data _ _ Hok l Hl (so_sub _ _ Hok l Hl Hb)) as [d Hd]. pose proof (read_at_Some _ _ _ _ Hd) as (_ & _ & ? & _).
    apply Hfd; [by apply (data_at_front s (so_geo _ _ Hok))|done]. }
  eexists. split; [reflexivity|].
  split_and!; [apply (settled_ok s f (pos_to 0 (mk_FILE [] (fpos (journal_fp s)) (fappend (journal_fp s)))) bm (bitmap_dirty s)); try done; try apply Hok|done|done|].
  - intros l Hl Hb. rewrite Hblk by done. by apply Hok, (so_sub _ _ Hok).
  - intros l Hl. unfold content, saved_content. match goal with |- (if bitmap_test ?x l then _ else _) = _ => change x with bm end.
    change (committed_bitmap s) with bm. destruct (bitmap_test bm l) eqn:Hb; [|done].
    match goal with |- default [] (dblock ?x l) = _ => change (dblock x l) with (read_at (fbytes f) (data_at s l) (block_size s)) end.
    by rewrite Hblk.
Qed.

Definition header_for s (has : Z) : snapshot_header := mk_snapshot STORAGE_SNAPSHOT_VERSION has (block_count s) (block_size s).
Lemma header_for_ok s has : geometry s -> snapshot_ok (header_for s has).
Proof.
  intros []. unfold snapshot_ok, header_for, in_width. cbn [sn_version sn_block_count sn_block_size].
  unfold STORAGE_SNAPSHOT_VERSION. change (2 ^ 32) with 4294967296 in *. change (2 ^ 64) with 18446744073709551616. lia.
Qed.
(** The header of a snapshot of the same geometry is accepted. *)
Lemma restore_header s has c c1 : geometry s ->
  system_read_checkpoint_data_loc (zlen (snapshot_bytes (header_for s has))) c = (Some (snapshot_bytes (header_for s has)), c1) ->
  cp_error c1 = false ->
  storage_restore_from_checkpoint (Some s) c
  = if truthy has then let '(ok, c, s) := storage_load_state checkpoint_storage_read_cb c1 s in (ok, c, Some s)
    else
      let s := if 0 <? journal_count s then (storage_apply_rollback s).2 else s in
      let '(bm, c) := system_read_checkpoint_data_loc (bitmap_bytes s) c1 in
      if checkpoint_has_error c then (false, c, Some s) else
      let '(r, s) := adopt_bitmap (default (bitmap s) bm) s in
      (bool_decide (is_Some r), c, Some s).
Proof.
  intros Hg E He. unfold storage_restore_from_checkpoint. rewrite zlen_snapshot in E. rewrite E. unfold checkpoint_has_error at 1. rewrite He.
  cbn [default from_option id]. rewrite snapshot_roundtrip by (by apply header_for_ok).
  cbn [header_for sn_version sn_block_count sn_block_size sn_has_data]. rewrite !Z.eqb_refl. done.
Qed.
Lemma restore_quick_ok s es c c' : storage_ok s es ->
  yields [snapshot_bytes (header_for s 0); committed_bitmap s] c c' ->
  exists s', storage_restore_from_checkpoint (Some s) c = (true, c', Some s') /\ storage_ok s' [] /\ same_geometry s s' /\
    bitmap s' = committed_bitmap s' /\ forall l, in_image s l -> content s' l = saved_content s es l.
Proof.
  intros Hok (c1 & E1 & He1 & c2 & E2 & He2 & ->). rewrite (restore_header s 0 c c1 (so_geo _ _ Hok) E1 He1).
  change (truthy 0) with false. cbv iota zeta.
  assert (exists s1, (if 0 <? journal_count s then (storage_apply_rollback s).2 else s) = s1 /\ storage_ok s1 [] /\ same_geometry s s1 /\
    bitmap_bytes s1 = bitmap_bytes s /\ committed_bitmap s1 = committed_bitmap s /\
    forall l, in_image s l -> saved_content s1 [] l = saved_content s es l) as (s1 & -> & Hok1 & Hg1 & Hb1 & Hc1 & Hs1).
  { destruct (0 <? journal_count s) eqn:Hj.
    - destruct (rollback_ok s es (ok_recoverable _ _ Hok)) as (s1 & E & Hok1 & Hg1 & _ & Hc1 & Hs1).
      { intros ->. unfold journal_count in Hj. by rewrite (so_index _ _ Hok) in Hj. }
      exists s1. rewrite E. split_and!; try done.
      + destruct Hg1 as (G1 & _). by rewrite (geo_bytes _ (so_geo _ _ Hok1)), (geo_bytes _ (so_geo _ _ Hok)), G1.
      + intros l Hl. by apply Hs1.
    - pose proof (journal_empty_iff s es Hok Hj) as ->. by exists s. }
  rewrite Hb1, <-(so_committed _ _ Hok), E2. unfold checkpoint_has_error. rewrite He2. cbn [default from_option id]. rewrite <-Hc1.
  destruct (adopt_ok s1 Hok1) as (s2 & -> & Hok2 & Hg2 & Hb2 & Hs2). exists s2.
  split_and!; [done|done|by eapply same_geometry_trans|done|]. intros l Hl. rewrite <-Hs1 by done. apply Hs2.
  destruct Hg1 as (G & _). unfold in_image. by rewrite G.
Qed.
End Load.

(** ** Images and checkpoints together

    storage.c on checkpoint.c: what a checkpoint of an image brings back. *)
Section Together.
Context `{!Abi} `{!AbiOk _} (Hsize : 32 <= size_bits).
Context (build_id : list Z) (host_file : list Z -> option (list Z)) (Hid : zlen build_id = BUILD_ID_LEN).
Context (source : list Z) (Hsrc : zlen source < 2 ^ 32).
Implicit Types (s : storage) (d : disk).

Definition is_commit (r : request) : bool := match r with Commit => true | _ => false end.
Lemma run_uncommitted rs : forall s d, represents s d -> Forall (request_ok (block_size s)) rs -> existsb is_commit rs = false ->
  exists l s' d', run storage_step rs s = (l, s') /\ represents s' d' /\ same_geometry s s' /\
    saved d' = saved d /\ committed_bitmap s' = committed_bitmap s.
Proof.
  induction rs as [|r rs IH]; intros s d Hs Hr Hc.
  { by exists [], s, d. }
  apply list.Forall_cons in Hr as [Hr Hrs]. cbn [existsb] in Hc. apply orb_false_iff in Hc as [Hrc Hc]. cbn [run].
  destruct (step_refines r s d Hs Hr) as (a & s1 & d1 & E & E' & H1 & Hg). rewrite E.
  assert (saved d1 = saved d) as Es.
  { destruct r; cbn [disk_step] in E'; [..|done]; destruct (names_block _ _ _); by injection E' as <- <-. }
  assert (committed_bitmap s1 = committed_bitmap s) as Ec.
  { destruct Hs as (es & Hok & _). destruct r as [off|off buf|]; [| |done]; cbn [storage_step request_ok] in *.
    - destruct (names_block (block_count s) (block_size s) off) eqn:Hn.
      + apply names_block_true in Hn as [Hm Hl]. destruct (read_block_ok s es Hok off Hr Hm Hl) as (s' & Er & b & p & j & ->).
        rewrite Er in E. by injection E as _ <-.
      + apply names_block_false in Hn. unfold storage_read_block in E. rewrite block_of_bad in E by done. by injection E as _ <-.
    - destruct Hr as [Ho Hb]. destruct (names_block (block_count s) (block_size s) off) eqn:Hn.
      + apply names_block_true in Hn as [Hm Hl]. destruct (write_block_ok s es off buf Hok Ho Hm Hl Hb) as (s' & es' & Ew & _ & _ & Hcb & _).
        rewrite Ew in E. by injection E as _ <-.
      + apply names_block_false in Hn. unfold storage_write_block in E. rewrite (bind_None _ _ _ s) in E by (by apply block_of_bad).
        by injection E as _ <-. }
  destruct (IH s1 d1 H1) as (l & s2 & d2 & E2 & H2 & Hg2 & Es2 & Ec2); [by destruct Hg as (_ & -> & _)|done|]. rewrite E2.
  do 3 eexists. split_and!; [done|done|by eapply same_geometry_trans|by rewrite Es2|by rewrite Ec2].
Qed.

Lemma settled_saved s l : bitmap s = committed_bitmap s -> saved_content s [] l = content s l.
Proof. intros E. unfold saved_content, content. by rewrite E. Qed.
Lemma bitmap_bound n : n <= 2 ^ 29 -> (n + 7) / 8 <= 67108865.
Proof. intros Hn. change (2 ^ 29) with 536870912 in Hn. apply Z.div_le_upper_bound; lia. Qed.

(** The items of a snapshot read back as the blocks that were written. *)
Lemma snapshot_reads kind model ram refs s es : storage_ok s es -> block_count s <= 2 ^ 29 -> in_width 32 ram ->
  Forall (item_ok host_file) (snapshot_items source kind s) ->
  exists r r', checkpoint_open_read build_id
      (checkpoint_close build_id (write_checkpoint build_id host_file kind model ram refs (snapshot_items source kind s))) [] = (Some tt, r) /\
    yields (item_data <$> snapshot_items source kind s) r r'.
Proof.
  intros Hok Hn Hr Hi.
  assert (fits_kind host_file kind (snapshot_items source kind s)) as Hf.
  { destruct kind; [|done]. cbn [fits_kind snapshot_items fmap list_fmap concat bytes3]. unfold block3.
    rewrite !zlen_app, !zlen_le, zlen_snapshot, (so_bitmap _ _ Hok), zlen_nil, (geo_bytes _ (so_geo _ _ Hok)).
    pose proof (bitmap_bound _ Hn). unfold SNAPSHOT_SIZE, CHECKPOINT_MAX_ALLOC. lia. }
  destruct (checkpoint_whole Hsize build_id host_file Hid kind model ram refs (snapshot_items source kind s) Hr Hi Hf)
    as (_ & r & r' & E & _ & _ & _ & Er & Her & _). exists r, r'. split; [done|].
  apply (read_items_yields host_file); [|done..]. destruct kind; cbn [snapshot_items].
  - repeat constructor; eauto.
  - constructor; [eauto|]. unfold image_blocks. apply list.Forall_fmap, list.Forall_forall. intros l _. cbn. eauto.
Qed.

(** C14: a quick checkpoint brings the image back.  After any session, a quick
    checkpoint of the image succeeds; then, after any reads and writes that
    follow (no other checkpoint in between), opening the checkpoint file and
    restoring the image from it succeeds, and the image is the array of blocks
    it was when the checkpoint was taken. *)
Theorem quick_checkpoint_restores c h rs rs' model ram refs :
  config_valid c -> no_image h -> Forall (request_ok (cfg_block_size c)) (rs ++ rs') -> existsb is_commit rs' = false ->
  cfg_block_count c <= 2 ^ 29 -> in_width 32 ram ->
  let now := current (run (disk_step (cfg_block_count c) (cfg_block_size c)) rs (base_disk c (host_base h))).2 in
  exists cp s1 r r' s2,
    storage_checkpoint source (Some (write_checkpoint build_id host_file CHECKPOINT_KIND_QUICK model ram refs [])) (session c h rs).2
      = (true, Some cp, s1) /\
    checkpoint_open_read build_id (checkpoint_close build_id cp) [] = (Some tt, r) /\
    storage_restore_from_checkpoint (Some (run storage_step rs' s1).2) r = (true, r', Some s2) /\
    represents s2 (mk_disk now now).
Proof.
  intros Hc Hh Hr Hnc Hn Hram. apply list.Forall_app in Hr as [Hr Hr'].
  destruct (session_ok c h rs Hc Hh Hr) as (rl & s & d & _ & Es & Ed & (es & Hok & Hrep) & Ec & _). rewrite Es, Ed. cbn [snd]. cbv zeta.
  assert (block_count s <= 2 ^ 29) as Hn' by (by rewrite <-Ec in Hn).
  destruct (checkpoint_ok build_id host_file source CHECKPOINT_KIND_QUICK model ram refs s es Hok Hsrc) as (Hi & s1 & E1 & Hok1 & Hg1 & Hb1 & Hcb1 & Hc1).
  { rewrite (geo_bytes _ (so_geo _ _ Hok)). pose proof (bitmap_bound _ Hn'). unfold CHECKPOINT_MAX_ALLOC. lia. }
  destruct (snapshot_reads CHECKPOINT_KIND_QUICK model ram refs s es Hok Hn' Hram Hi) as (r & r' & E2 & Hy).
  assert (represents s1 (mk_disk (current d) (current d))) as Hr1.
  { exists []. split; [done|]. intros l Hl. assert (in_image s l) as Hl' by (destruct Hg1 as (G & _); unfold in_image in *; by rewrite G in Hl).
    destruct (Hc1 l Hl') as [-> ->]. by destruct (Hrep l Hl') as [-> _]. }
  destruct Hg1 as (G1 & G2 & G3 & G4).
  destruct (run_uncommitted rs' s1 _ Hr1) as (l' & s2 & d2 & E3 & (es2 & Hok2 & Hrep2) & Hg2 & Esv & Ecm); [by rewrite G2, <-(f_equal cfg_block_size Ec) in *|done|].
  destruct Hg2 as (K1 & K2 & _).
  assert (header_for s2 0 = mk_snapshot STORAGE_SNAPSHOT_VERSION 0 (block_count s) (block_size s)) as Eh by (unfold header_for; by rewrite K1, K2, G1, G2).
  destruct (restore_quick_ok s2 es2 r r' Hok2) as (s3 & E4 & Hok3 & Hg3 & Hb3 & Hc3); [by rewrite Eh, Ecm, Hcb1|].
  do 5 eexists. split_and!; [exact E1|exact E2|rewrite E3; exact E4|]. exists []. split; [done|]. intros l Hl.
  assert (in_image s2 l) as Hl2 by (destruct Hg3 as (G & _); unfold in_image in *; by rewrite G in Hl).
  rewrite settled_saved by done. rewrite (Hc3 l Hl2). destruct (Hrep2 l Hl2) as [_ ->]. by rewrite Esv.
Qed.

(** C23: a consolidated checkpoint carries the whole disk.  After any session,
    a consolidated checkpoint of the image succeeds, and restoring it into any
    image of the same geometry, whatever its base file and whatever was written
    to it, succeeds and gives the array of blocks the first image was. *)
Theorem consolidated_checkpoint_restores c h rs h' rs' model ram refs :
  config_valid c -> no_image h -> no_image h' -> Forall (request_ok (cfg_block_size c)) (rs ++ rs') ->
  cfg_block_count c <= 2 ^ 29 -> in_width 32 ram ->
  let now := current (run (disk_step (cfg_block_count c) (cfg_block_size c)) rs (base_disk c (host_base h))).2 in
  exists cp s1 r r' s2,
    storage_checkpoint source (Some (write_checkpoint build_id host_file CHECKPOINT_KIND_CONSOLIDATED model ram refs [])) (session c h rs).2
      = (true, Some cp, s1) /\
    checkpoint_open_read build_id (checkpoint_close build_id cp) [] = (Some tt, r) /\
    storage_restore_from_checkpoint (Some (session c h' rs').2) r = (true, r', Some s2) /\
    represents s2 (mk_disk now now).
Proof.
  intros Hc Hh Hh' Hr Hn Hram. apply list.Forall_app in Hr as [Hr Hr'].
  destruct (session_ok c h rs Hc Hh Hr) as (rl & s & d & _ & Es & Ed & (es & Hok & Hrep) & Ec & _). rewrite Es, Ed. cbn [snd]. cbv zeta.
  destruct (session_ok c h' rs' Hc Hh' Hr') as (rl' & t & d' & _ & Et & _ & (et & Hokt & _) & Ect & _). rewrite Et. cbn [snd].
  assert (block_count s <= 2 ^ 29) as Hn' by (by rewrite <-Ec in Hn).
  destruct (checkpoint_ok build_id host_file source CHECKPOINT_KIND_CONSOLIDATED model ram refs s es Hok Hsrc) as (Hi & s1 & E1 & _).
  { rewrite (geo_bytes _ (so_geo _ _ Hok)). pose proof (bitmap_bound _ Hn'). unfold CHECKPOINT_MAX_ALLOC. lia. }
  destruct (snapshot_reads CHECKPOINT_KIND_CONSOLIDATED model ram refs s es Hok Hn' Hram Hi) as (r & r' & E2 & Hy).
  cbn [snapshot_items fmap list_fmap item_data] in Hy. unfold image_blocks in Hy. rewrite <-list_fmap_compose in Hy. cbn in Hy.
  destruct Hy as (c1 & Eh & He1 & Hy).
  assert (block_count t = block_count s /\ block_size t = block_size s) as [Kc Kb].
  { rewrite <-Ect in Ec. by injection Ec. }
  destruct (so_geo _ _ Hok) as [Hsz _ Hcnt _ _ _ _ _ _].
  destruct (load_state_ok t et _ c1 r' Hokt Hy) as (s3 & E3 & Hok3 & Hg3 & Hb3 & Hc3).
  { unfold zlen. rewrite length_fmap, length_seqZ. lia. }
  { apply list.Forall_fmap, list.Forall_forall. intros l Hl. apply elem_of_seqZ in Hl. cbn. rewrite Kb.
    apply (zlen_content s es); [done|]. unfold in_image. lia. }
  do 5 eexists. split_and!; [exact E1|exact E2| |].
  { rewrite (restore_header t 1 r c1 (so_geo _ _ Hokt)); [|by unfold header_for; rewrite Kc, Kb|done]. change (truthy 1) with true. cbv iota. rewrite E3. done. }
  exists []. split; [done|]. intros l Hl. destruct Hg3 as (G & _). unfold in_image in Hl. rewrite G in Hl.
  rewrite settled_saved by done. cbn [current saved].
  assert (content s3 l = content s l) as ->.
  { specialize (Hc3 l Hl). rewrite list_lookup_fmap, lookup_seqZ_lt in Hc3 by lia. cbn [fmap option_fmap option_map] in Hc3.
    injection Hc3 as Hc3. rewrite Z.add_0_l, Z2Nat.id in Hc3 by lia. done. }
  assert (in_image s l) as Hin by (unfold in_image; lia). by destruct (Hrep l Hin) as [-> _].
Qed.
End Together.
