(* ===== verification/StorageExamples.v ===== *)
(** * Images and checkpoints on concrete files

    A disk of two blocks: witnesses of the theorems, and inputs on which the
    code departs from what its comments say. *)
From S2P Require Import Prelude Stdio Rle Checkpoint CheckpointProofs CheckpointTheorems.
From S2P Require Import Storage StorageProofs StorageOps StorageTheorems StorageCkpt StorageCkptProofs.

#[local] Existing Instance lp64.

Definition two_blocks : storage_config := mk_config 2 512 0.
Definition fill (x : Z) : list Z := replicate 512 x.
Definition base_file : list Z := fill 0x11 ++ fill 0x22.
Definition empty_host : host_files := mk_host (Some base_file) NoEntry true (Some []).
Definition build : list Z := replicate 20 0x41.
Definition no_files (path : list Z) : option (list Z) := None.

Lemma two_blocks_valid : config_valid two_blocks.
Proof. split; vm_compute; congruence. Qed.
Lemma empty_host_ok : no_image empty_host.
Proof. done. Qed.
(** Goals of arithmetic on numerals. *)
Ltac closed := vm_compute; repeat (split || intros ?); congruence.
Lemma wide_size : 32 <= size_bits.
Proof. closed. Qed.
Ltac requests := repeat first [apply list.Forall_cons; split; [first [done | vm_compute; by split]|] | apply list.Forall_nil_2].

(** Block 0 is written twice, with a commit in between. *)
Definition overwrite : list request := [WriteBlock 0 (fill 0xA0); Commit; WriteBlock 0 (fill 0xB0); WriteBlock 512 (fill 0xC0)].
Lemma overwrite_ok : Forall (request_ok 512) overwrite.
Proof. unfold overwrite. requests. Qed.

Lemma storage_refines_disk_witness :
  (session two_blocks empty_host (overwrite ++ [ReadBlock 0; ReadBlock 100; ReadBlock 1024])).1
  = [Ack; Ack; Ack; Ack; Data (fill 0xB0); Rejected; Rejected].
Proof.
  destruct (storage_refines_disk two_blocks empty_host (overwrite ++ [ReadBlock 0; ReadBlock 100; ReadBlock 1024])) as [_ ->];
    [apply two_blocks_valid|apply empty_host_ok|apply list.Forall_app; split; [apply overwrite_ok|requests]|].
  vm_compute. reflexivity.
Defined.

(** The process dies with garbage in both overwritten blocks. *)
Definition dying : storage := (session two_blocks empty_host overwrite).2.
Definition garbled : list Z := ztake (data_offset dying) (fbytes (delta_fp dying)) ++ fill 0xEE ++ fill 0xEE.
Definition left_behind : host_files := mk_host (Some base_file) (Opened garbled) true (Some (fbytes (journal_fp dying))).
Lemma dying_facts : block_count dying = 2 /\ journal_lbas dying = [0] /\ bitmap_test (committed_bitmap dying) 1 = false.
Proof. vm_compute. auto. Qed.
Lemma garbled_head : read_at garbled 0 (data_offset dying) = read_at (fbytes (delta_fp dying)) 0 (data_offset dying).
Proof. vm_compute. reflexivity. Qed.
Lemma dying_base : Some base_file = (fbytes <$> base_fp dying).
Proof. vm_compute. reflexivity. Qed.
Lemma spared_block dy cb l : block_count dy = 2 -> journal_lbas dy = [0] -> bitmap_test cb 1 = false ->
  in_image dy l -> bitmap_test cb l = true -> l ∉ journal_lbas dy -> False.
Proof.
  intros E Ej Eb Hl Hc Hn. unfold in_image in Hl. rewrite E in Hl. rewrite Ej in Hn.
  assert (l = 1) as -> by (destruct (Z.eq_dec l 0) as [->|]; [set_solver|lia]). congruence.
Qed.
Lemma left_behind_ok : crash_image dying left_behind.
Proof.
  destruct dying_facts as (E & Ej & Eb).
  split; [exact dying_base|]. split; [exact eq_refl|]. exists garbled.
  split; [exact eq_refl|]. split; [exact garbled_head|].
  intros l Hl Hc Hn. destruct (spared_block _ _ _ E Ej Eb Hl Hc Hn).
Qed.
Lemma crash_recovery_witness : exists s1 s2, storage_new two_blocks left_behind [] = (Some tt, s1) /\
  storage_apply_rollback s1 = (Some tt, s2) /\ (storage_read_block 0 s2).1 = (true, Some (fill 0xA0)).
Proof.
  destruct (crash_recovery two_blocks empty_host overwrite dying left_behind) as (s1 & s2 & E1 & E2 & Hr);
    [apply two_blocks_valid|apply empty_host_ok|apply overwrite_ok|by left|apply left_behind_ok|].
  exists s1, s2. split; [exact E1|]. split; [exact E2|]. specialize (Hr 0 ltac:(by split)). rewrite Z.mul_0_l in Hr. rewrite Hr.
  vm_compute. reflexivity.
Defined.
Lemma rollback_correct_witness : exists s2, storage_apply_rollback dying = (Some tt, s2) /\
  exists d, represents s2 d /\ current d 0 = fill 0xA0 /\ current d 1 = fill 0x22.
Proof.
  destruct (rollback_correct two_blocks empty_host overwrite) as (s2 & E & Hr);
    [apply two_blocks_valid|apply empty_host_ok|apply overwrite_ok|vm_compute; reflexivity|].
  exists s2. split; [exact E|]. eexists. split; [exact Hr|]. split; vm_compute; reflexivity.
Defined.

(** ** Checkpoints *)
Lemma checkpoint_file_roundtrip_witness :
  let items := [Block (fill 7) [0x61] 1; File [] [0x61] 2 10] in
  exists r r', checkpoint_open_read build (checkpoint_close build (write_checkpoint build no_files CHECKPOINT_KIND_CONSOLIDATED [0x70] 4096 false items)) [] = (Some tt, r) /\
    read_items no_files items r = ([GotBlock (Some (fill 7)); GotFile [] None], r') /\ cp_error r' = false.
Proof.
  cbv zeta.
  destruct (checkpoint_file_roundtrip wide_size build no_files eq_refl CHECKPOINT_KIND_CONSOLIDATED [0x70] 4096 false
    [Block (fill 7) [0x61] 1; File [] [0x61] 2 10]) as (_ & r & r' & E & _ & _ & _ & Er & He & _).
  { closed. }
  { apply list.Forall_cons; split; [closed|]. apply list.Forall_singleton.
    split; [|closed]. split; [by left|closed]. }
  { closed. }
  exists r, r'. split; [exact E|]. split; [|exact He]. rewrite Er. reflexivity.
Defined.
Lemma open_read_checks_witness : exists magic,
  ztake (CHECKPOINT_MAGIC_LEN + BUILD_ID_LEN) (header_bytes build CHECKPOINT_MAGIC_V2 [0x70] 4096) = magic ++ build /\ magic = CHECKPOINT_MAGIC_V2.
Proof.
  pose proof (open_read_checks wide_size build (header_bytes build CHECKPOINT_MAGIC_V2 [0x70] 4096) []) as Hc.
  destruct (checkpoint_open_read build (header_bytes build CHECKPOINT_MAGIC_V2 [0x70] 4096) []) as [ok r] eqn:E.
  destruct Hc as [Hc _]. assert (ok = Some tt /\ checkpoint_get_kind r = CHECKPOINT_KIND_CONSOLIDATED) as [-> Hk].
  { revert E. vm_compute. by intros [= <- <-]. }
  destruct (Hc ltac:(by eexists)) as (magic & Hm & Hmag & _). rewrite Hk in Hmag. by exists magic.
Defined.

Lemma quick_checkpoint_restores_witness : exists cp s1 r r' s2 d,
  storage_checkpoint [] (Some (write_checkpoint build no_files CHECKPOINT_KIND_QUICK [0x70] 4096 false [])) dying = (true, Some cp, s1) /\
  checkpoint_open_read build (checkpoint_close build cp) [] = (Some tt, r) /\
  storage_restore_from_checkpoint (Some (run storage_step [WriteBlock 0 (fill 1)] s1).2) r = (true, r', Some s2) /\
  represents s2 d /\ current d 0 = fill 0xB0 /\ current d 1 = fill 0xC0.
Proof.
  destruct (quick_checkpoint_restores wide_size build no_files eq_refl [] ltac:(closed)
    two_blocks empty_host overwrite [WriteBlock 0 (fill 1)] [0x70] 4096 false) as (cp & s1 & r & r' & s2 & E1 & E2 & E3 & Hr);
    [apply two_blocks_valid|apply empty_host_ok|apply list.Forall_app; split; [apply overwrite_ok|requests]|done|closed|closed|].
  exists cp, s1, r, r', s2. eexists.
  split; [exact E1|]. split; [exact E2|]. split; [exact E3|]. split; [exact Hr|]. split; vm_compute; reflexivity.
Defined.
Lemma consolidated_checkpoint_restores_witness : exists cp s1 r r' s2 d,
  storage_checkpoint [] (Some (write_checkpoint build no_files CHECKPOINT_KIND_CONSOLIDATED [0x70] 4096 false [])) dying = (true, Some cp, s1) /\
  checkpoint_open_read build (checkpoint_close build cp) [] = (Some tt, r) /\
  storage_restore_from_checkpoint (Some (session two_blocks (mk_host None NoEntry true (Some [])) []).2) r = (true, r', Some s2) /\
  represents s2 d /\ current d 0 = fill 0xB0 /\ current d 1 = fill 0xC0.
Proof.
  destruct (consolidated_checkpoint_restores wide_size build no_files eq_refl [] ltac:(closed)
    two_blocks empty_host overwrite (mk_host None NoEntry true (Some [])) [] [0x70] 4096 false) as (cp & s1 & r & r' & s2 & E1 & E2 & E3 & Hr);
    [apply two_blocks_valid|apply empty_host_ok|done|rewrite app_nil_r; apply overwrite_ok|closed|closed|].
  exists cp, s1, r, r', s2. eexists.
  split; [exact E1|]. split; [exact E2|]. split; [exact E3|]. split; [exact Hr|]. split; vm_compute; reflexivity.
Defined.

(** ** Departures from the comments

    Only a block that was new since the checkpoint was written: the journal is
    empty, and a rollback leaves the new block in place (storage.h: "sets
    current bitmap = committed bitmap"). *)
Definition after (o : list io_outcome) (h : host_files) (rs : list request) : storage := set_faults o (session two_blocks h rs).2.
Lemma rollback_keeps_new_blocks : let s := after [] empty_host [WriteBlock 0 (fill 0xA0)] in
  (storage_apply_rollback s).1 = Some tt /\
  (storage_read_block 0 (storage_apply_rollback s).2).1 = (true, Some (fill 0xA0)) /\
  bitmap_test (committed_bitmap s) 0 = false.
Proof. vm_compute. auto. Qed.

(** The journal ends in four bytes of an entry that was cut short by a crash.
    They are skipped by the index but not removed: the next entry is appended
    behind them, and a rollback restores block 0 shifted by four bytes. *)
Definition committed_once : storage := after [] empty_host [WriteBlock 0 (fill 0xA0); Commit].
Definition torn : host_files := mk_host (Some base_file) (Opened (fbytes (delta_fp committed_once))) true (Some [0; 0; 0; 0]).
Lemma torn_journal_shifts : let s := after [] torn [WriteBlock 0 (fill 0xB0)] in
  (storage_apply_rollback s).1 = Some tt /\
  (storage_read_block 0 (storage_apply_rollback s).2).1 = (true, Some (zeros 4 ++ replicate 508 0xA0)).
Proof. vm_compute. auto. Qed.

(** storage_clear_rollback does not look at the result of ftruncate: the two
    bitmaps are flushed, the journal stays, and the next start undoes a write
    that was committed. *)
Definition kept_journal : storage :=
  (storage_clear_rollback (after [Done; Done; Short 0] empty_host [WriteBlock 0 (fill 0xA0); Commit; WriteBlock 0 (fill 0xB0)])).2.
Definition next_start : host_files :=
  mk_host (Some base_file) (Opened (fbytes (delta_fp kept_journal))) true (Some (fbytes (journal_fp kept_journal))).
Lemma failed_truncate_undoes_commit :
  (storage_read_block 0 kept_journal).1 = (true, Some (fill 0xB0)) /\ journal_count kept_journal = 0 /\
  (storage_read_block 0 (storage_apply_rollback (after [] next_start [])).2).1 = (true, Some (fill 0xA0)).
Proof. vm_compute. auto. Qed.

(** With a long of 32 bits, the position of a block 2 GiB into the delta file
    is negative, fseek moves nothing, and the block is written where the last
    transfer ended. *)
Lemma far_block_stays (s : storage) (lba : Z) : let A := wasm32 in
  2 ^ 31 <= data_offset s + lba * block_size s < 2 ^ 32 -> in_width 32 (lba * block_size s) ->
  delta_seek (block_pos s lba) s = (Some tt, set_delta_fp (delta_fp s) s).
Proof.
  intros A Hp Hl. unfold delta_seek, upd, block_pos, usize. change (@size_bits A) with 32.
  rewrite (wrap_small 32 (lba * _)), wrap_small by (unfold in_width in *; lia).
  unfold fseek_set. change (@long_bits A) with 32. destruct (Z.ltb_spec (sx 32 (data_offset s + lba * block_size s)) 0) as [|H]; [done|].
  unfold sx in H. destruct (_ <? _) eqn:E; [apply Z.ltb_lt in E|]; unfold wrap in *; rewrite Z.mod_small in * by lia; change (2 ^ (32 - 1)) with (2 ^ 31) in *; lia.
Qed.

(** A snapshot for a drive that is gone is skipped through a buffer of 1024
    bytes, with the block size of its header: 2000 here. *)
Definition skipped : checkpoint :=
  let header := mk_snapshot STORAGE_SNAPSHOT_VERSION 1 1 2000 in
  write_checkpoint build no_files CHECKPOINT_KIND_CONSOLIDATED [0x70] 4096 false
    [Block (snapshot_bytes header) [] 0; Block (replicate 2000 7) [] 0].
Lemma skip_overruns : (storage_restore_from_checkpoint None (checkpoint_open_read build (checkpoint_close build skipped) []).2).1.1 = true /\
  cp_overrun (storage_restore_from_checkpoint None (checkpoint_open_read build (checkpoint_close build skipped) []).2).1.2 = true.
Proof. vm_compute. auto. Qed.
