(* ===== verification/Image.v ===== *)
(** * Disk images

    Model of src/core/storage/image.c: recognising a DiskCopy 4.2 file, opening
    an image over the delta storage, transfers of whole blocks that may run past
    the end, and the sector tags.  [Medium] is what a drive needs of an image;
    ImageProofs shows what this implementation promises through it.  Paths, the
    NDIF expansion of a base file and the ids of new instances are left out:
    [host_files] is what the paths open.  A failing GS_ASSERT reports and goes
    on, so it leaves no trace here. *)
From S2P Require Import Prelude Stdio Storage.

Definition DISKCOPY_HEADER_SIZE : Z := 0x54.

Inductive image_type := image_other | image_fd_ss | image_fd_ds | image_fd_hd | image_hd | image_cdrom.
Record image := mk_image {
  img_storage : option storage;
  raw_size : Z;
  img_block_size : Z;
  writable : bool;
  ghost_instance : bool;
  img_type : image_type;
  from_diskcopy : bool;
  tags : option (list Z);
  tag_bytes : Z;
  tag_count : Z;
}.
Definition image_eta (d : image) : image :=
  mk_image (img_storage d) (raw_size d) (img_block_size d) (writable d) (ghost_instance d) (img_type d)
    (from_diskcopy d) (tags d) (tag_bytes d) (tag_count d).
Ltac image_set proj x d := field_set image_eta proj x d.
Definition set_img_storage (x : option storage) (d : image) : image := ltac:(image_set img_storage x d).
Definition set_tags (x : option (list Z)) (d : image) : image := ltac:(image_set tags x d).
Definition set_tag_bytes (x : Z) (d : image) : image := ltac:(image_set tag_bytes x d).
Definition set_tag_count (x : Z) (d : image) : image := ltac:(image_set tag_count x d).

(** ** Format detection *)
Definition classify_image (raw : Z) : image_type :=
  if raw =? 400 * 1024 then image_fd_ss
  else if raw =? 800 * 1024 then image_fd_ds
  else if raw =? 1440 * 1024 then image_fd_hd
  else image_hd.

Definition read_be32 (p : list Z) : Z := unle (rev (ztake 4 p)).

(** The result of detect_diskcopy on a file that can be read: the size of the
    data, or that it is no DiskCopy file. *)
Definition detect_diskcopy (f : list Z) : option Z :=
  if zlen f <? DISKCOPY_HEADER_SIZE then None
  else
    let header := ztake DISKCOPY_HEADER_SIZE f in
    let magic := Z.lor (Z.shiftl (nth 0x52 header 0) 8) (nth 0x53 header 0) in
    if negb (magic =? 0x0100) then None
    else
      let data_size := read_be32 (zdrop 0x40 header) in
      let tag_size := read_be32 (zdrop 0x44 header) in
      if (data_size =? 0) || negb (data_size mod STORAGE_BLOCK_SIZE =? 0) then None
      else if zlen f <? DISKCOPY_HEADER_SIZE + data_size + tag_size then None
      else Some data_size.

(** The size of the image and whether it is framed, [None] on failure. *)
Definition probe_base_image (base : option (list Z)) (block_size : Z) : option (Z * bool) :=
  match base with
  | None => None
  | Some f =>
      let dc := detect_diskcopy f in
      let raw := default (zlen f) dc in
      if negb (raw mod block_size =? 0) then None else Some (raw, bool_decide (is_Some dc))
  end.
Definition geometry_block_size (b : Z) : Z := if truthy b then b else STORAGE_BLOCK_SIZE.

Section Images.
Context `{!Abi}.

Definition image_load_diskcopy_tags (f : list Z) (d : image) : image :=
  if zlen f <? DISKCOPY_HEADER_SIZE then d
  else
    let header := ztake DISKCOPY_HEADER_SIZE f in
    let data_size := read_be32 (zdrop 0x40 header) in
    let tag_size := read_be32 (zdrop 0x44 header) in
    let count := u32 (raw_size d / STORAGE_BLOCK_SIZE) in
    if (tag_size =? 0) || (count =? 0) || negb (tag_size mod count =? 0) then d
    else
      match read_at f (DISKCOPY_HEADER_SIZE + data_size) tag_size with
      | None => d
      | Some t => set_tag_count count (set_tag_bytes (tag_size / count) (set_tags (Some t) d))
      end.

Definition image_config (d : image) (is_diskcopy : bool) : storage_config :=
  mk_config (raw_size d / img_block_size d) (img_block_size d) (if is_diskcopy then DISKCOPY_HEADER_SIZE else 0).
Definition image_attach_storage (h : host_files) (o : list io_outcome) (is_diskcopy : bool) (d : image) : option image :=
  match storage_new (image_config d is_diskcopy) h o with
  | (Some tt, s) =>
      let d := set_img_storage (Some s) d in
      Some (if is_diskcopy then match host_base h with Some f => image_load_diskcopy_tags f d | None => d end else d)
  | (None, _) => None
  end.

(** The three openers of a base file differ in the paths and in two flags. *)
Definition open_base (writable ghost : bool) (geom : Z) (h : host_files) (o : list io_outcome) : option image :=
  let block_size := geometry_block_size geom in
  '(raw, dc) ← probe_base_image (host_base h) block_size;
  image_attach_storage h o dc (mk_image None raw block_size writable ghost (classify_image raw) dc None 0 0).
Definition image_open_readonly_with_geometry := open_base false true.
Definition image_create_with_geometry := open_base true false.
Definition image_open_with_geometry := open_base true false.
Definition image_create_blank (count geom : Z) (h : host_files) (o : list io_outcome) : option image :=
  let block_size := geometry_block_size geom in
  if count =? 0 then None
  else
    let raw := usize (usize count * block_size) in
    image_attach_storage (mk_host None (host_delta h) (host_can_create h) (host_journal h)) o false
      (mk_image None raw block_size true true image_hd false None 0 0).

(** ** Transfers *)
Definition disk_size (d : option image) : Z := match d with Some d => raw_size d | None => 0 end.

(** The whole blocks of a transfer that lie in the image, in bytes. *)
Definition backed_bytes (d : image) (offset size : Z) : Z :=
  let backed := if offset <? raw_size d then raw_size d - offset else 0 in
  let backed := if size <? backed then size else backed in
  backed - backed mod img_block_size d.

(** The loop of disk_read_data over [n] blocks; [buf] is the caller's buffer
    from its start to its end.  The loop ends early when a block cannot be read. *)
Fixpoint read_blocks (n : nat) (offset transferred bs : Z) (buf : list Z) (s : storage) : (Z * list Z) * storage :=
  match n with
  | O => ((zlen buf, buf), s)
  | S n =>
      match storage_read_block (usize (offset + transferred)) s with
      | ((rc, b), s) =>
          let buf := match b with Some b => write_at buf transferred b | None => buf end in
          if rc then read_blocks n offset (transferred + bs) bs buf s else ((transferred, buf), s)
      end
  end.
Definition disk_read_data (offset : Z) (buf : list Z) (d : image) : (Z * list Z) * image :=
  match img_storage d with
  | None => ((0, buf), d)
  | Some s =>
      if zlen buf =? 0 then ((0, buf), d)
      else
        let backed := backed_bytes d offset (zlen buf) in
        let buf := ztake backed buf ++ zeros (zlen buf - backed) in
        let '(r, s) := read_blocks (Z.to_nat (backed / img_block_size d)) offset 0 (img_block_size d) buf s in
        (r, set_img_storage (Some s) d)
  end.

Fixpoint write_blocks (n : nat) (offset transferred bs : Z) (buf : list Z) (s : storage) : Z * storage :=
  match n with
  | O => (zlen buf, s)
  | S n =>
      match storage_write_block (usize (offset + transferred)) (ztake bs (zdrop transferred buf)) s with
      | (Some tt, s) => write_blocks n offset (transferred + bs) bs buf s
      | (None, s) => (transferred, s)
      end
  end.
Definition disk_write_data (offset : Z) (buf : list Z) (d : image) : Z * image :=
  match img_storage d with
  | None => (0, d)
  | Some s =>
      if zlen buf =? 0 then (0, d)
      else
        let backed := backed_bytes d offset (zlen buf) in
        let '(n, s) := write_blocks (Z.to_nat (backed / img_block_size d)) offset 0 (img_block_size d) buf s in
        (n, set_img_storage (Some s) d)
  end.

(** ** Sector tags: the bytes copied to the caller, and the number of them *)
Definition disk_read_tag (sector size : Z) (d : image) : list Z :=
  match tags d with
  | None => []
  | Some t =>
      if tag_count d <=? sector then []
      else ztake (if size <? tag_bytes d then size else tag_bytes d) (zdrop (usize (sector * tag_bytes d)) t)
  end.
Definition disk_write_tag (sector : Z) (buf : list Z) (d : image) : Z * image :=
  match tags d with
  | None => (0, d)
  | Some t =>
      if tag_count d <=? sector then (0, d)
      else
        let n := if zlen buf <? tag_bytes d then zlen buf else tag_bytes d in
        (n, set_tags (Some (write_at t (usize (sector * tag_bytes d)) (ztake n buf))) d)
  end.
End Images.

(** ** What a drive needs of an image

    Offsets and buffers are in bytes; the buffer is the part of the caller's
    memory the transfer covers. *)
Class Medium (I : Type) := {
  medium_size : I -> Z;
  medium_read : Z -> list Z -> I -> (Z * list Z) * I;
  medium_write : Z -> list Z -> I -> Z * I;
}.
#[global] Instance image_medium `{!Abi} : Medium image := {|
  medium_size := fun d => disk_size (Some d);
  medium_read := disk_read_data;
  medium_write := disk_write_data;
|}.

(** A medium is an array of bytes that is read and written in units of 512; what
    lies behind its end reads as zeros and is not stored. *)
Definition read_padded (l : list Z) (off n : Z) : list Z :=
  let d := ztake n (zdrop off l) in d ++ zeros (n - zlen d).
Definition write_clipped (l : list Z) (off : Z) (d : list Z) : list Z :=
  if off <? zlen l then write_at l off (ztake (zlen l - off) d) else l.
Class MediumLaws (I : Type) `{!Medium I} := {
  medium_ok : I -> Prop;
  medium_bytes : I -> list Z;
  medium_size_ok d : medium_ok d -> medium_size d = zlen (medium_bytes d);
  medium_bound d : medium_ok d -> zlen (medium_bytes d) < 2 ^ 43;
  medium_unit d : medium_ok d -> zlen (medium_bytes d) mod 512 = 0;
  medium_read_ok d off buf : medium_ok d -> 0 <= off < 2 ^ 64 -> off mod 512 = 0 -> zlen buf mod 512 = 0 ->
    exists d', medium_read off buf d = ((zlen buf, read_padded (medium_bytes d) off (zlen buf)), d') /\
      medium_ok d' /\ medium_bytes d' = medium_bytes d;
  medium_write_ok d off buf : medium_ok d -> 0 <= off < 2 ^ 64 -> off mod 512 = 0 -> zlen buf mod 512 = 0 ->
    exists d', medium_write off buf d = (zlen buf, d') /\
      medium_ok d' /\ medium_bytes d' = write_clipped (medium_bytes d) off buf;
}.
