(* ===== verification/Formats.v ===== *)
(** * Host file formats

    Model of the parsers of src/core/storage that read files from outside:
    appledouble.c, macroman.c, adc.c, image_apm.c and image_apm_io.c here, the
    resource forks and NDIF images in Resources.  A buffer is the list of its bytes and a pointer into it is a view
    ([window]), every access is checked, and an access outside of a buffer is an
    outcome of its own, as is signed overflow.  A NULL buffer behaves as an empty
    one, where it does not it is an option.  Memory allocation is taken to
    succeed.  An object fits in ptrdiff_t, so an index within one plus a small
    constant does not wrap; sums and products of values read from a file are
    computed at the width the code gives them.  A byte shifted into the sign bit
    of an int, and a negative int shifted left, give the two's-complement
    value. *)
From stdpp Require Import strings.
From S2P Require Import Prelude Stdio Image.
Open Scope Z_scope.

(** ** Outcomes *)
Inductive error := EINVAL | ENOENT | EIO | Rejected | Because (msg : string).
Inductive defect := OutOfBounds | SignedOverflow | OutOfFuel.
Inductive out (A : Type) := Ok (a : A) | Err (e : error) | Bad (b : defect).
Arguments Ok {A} _.
Arguments Err {A} _.
Arguments Bad {A} _.
#[global] Instance out_ret : MRet out := fun A a => Ok a.
#[global] Instance out_bind : MBind out := fun A B k m =>
  match m with Ok a => k a | Err e => Err e | Bad b => Bad b end.
(** An early return when the test holds. *)
Definition refuse (b : bool) (e : error) : out unit := if b then Err e else Ok tt.
(** A call whose failure has one meaning to the caller. *)
Definition or_else {A} (m : out A) (e : error) : out A := match m with Err _ => Err e | r => r end.
(** [for (i = start; i < start + n; i++)] *)
Fixpoint for_ {A} (n : nat) (i : Z) (body : Z -> A -> out A) (a : A) : out A :=
  match n with O => Ok a | S n => a ← body i a; for_ n (i + 1) body a end.

(** Checked accesses. *)
Definition byte_at (l : list Z) (i : Z) : out Z :=
  if i <? 0 then Bad OutOfBounds else match l !! Z.to_nat i with Some b => Ok b | None => Bad OutOfBounds end.
Definition window (l : list Z) (o n : Z) : out (list Z) :=
  match read_at l o n with Some d => Ok d | None => Bad OutOfBounds end.
Definition poke (l : list Z) (o : Z) (d : list Z) : out (list Z) :=
  if (0 <=? o) && (o + zlen d <=? zlen l) then Ok (write_at l o d) else Bad OutOfBounds.
(** A byte behind those already written to a buffer of [cap] bytes. *)
Definition emit (cap : Z) (b : Z) (l : list Z) : out (list Z) :=
  if zlen l <? cap then Ok (l ++ [b]) else Bad OutOfBounds.

(** Big-endian integers. *)
Definition be (n : nat) (v : Z) : list Z := rev (le n v).
Definition unbe (l : list Z) : Z := unle (rev l).
Definition rd32 (l : list Z) (o : Z) : out Z := d ← window l o 4; Ok (unbe d).
Definition rd16 (l : list Z) (o : Z) : out Z := d ← window l o 2; Ok (unbe d).
Definition wr32 (l : list Z) (o v : Z) : out (list Z) := poke l o (be 4 v).
Definition wr16 (l : list Z) (o v : Z) : out (list Z) := poke l o (be 2 v).

(** C strings: the characters before the NUL. *)
Definition chars (s : string) : list Z := (fun c => Z.of_N (Ascii.N_of_ascii c)) <$> String.list_ascii_of_string s.
Fixpoint c_string (l : list Z) : list Z :=
  match l with [] => [] | c :: l => if c =? 0 then [] else c :: c_string l end.
Definition tolower (c : Z) : Z := if (65 <=? c) && (c <=? 90) then c + 32 else c.
Definition same_nocase (a b : list Z) : bool := bool_decide ((tolower <$> a) = (tolower <$> b)).

Section Formats.
Context `{!Abi}.

(** ** AppleDouble and AppleSingle *)
Definition APPLEDOUBLE_MAGIC : Z := 0x00051607.
Definition APPLESINGLE_MAGIC : Z := 0x00051600.
Definition APPLE_FORK_VERSION : Z := 0x00020000.
Definition AD_HDR_FIXED : Z := 26.
Definition AD_DESC_SIZE : Z := 12.
Definition AD_NENTRIES_OFF : Z := 24.
Definition AD_MAX_ENTRIES : Z := 32.
Definition AD_FINDER_INFO_SIZE : Z := 32.
Definition AD_ENTRY_DATA : Z := 1.
Definition AD_ENTRY_RSRC : Z := 2.
Definition AD_ENTRY_FINDER : Z := 9.

(** The length of an entry is its own field; [None] is the NULL pointer. *)
Record ad_entry := mk_entry { ad_id : Z; ad_bytes : option (list Z); ad_len : Z }.
Record ad_file := mk_ad_file {
  ad_magic : Z;
  ad_version : Z;
  ad_entries : list ad_entry;
  ad_rsrc : option (list Z) * Z;
  ad_finder : option (list Z) * Z;
  ad_data : option (list Z) * Z;
}.

Definition magic_ok (m : Z) : bool := (m =? APPLEDOUBLE_MAGIC) || (m =? APPLESINGLE_MAGIC).
Definition ad_desc (i : Z) : Z := AD_HDR_FIXED + i * AD_DESC_SIZE.
Definition header_valid (buf : list Z) : out Z :=
  refuse (zlen buf <? AD_HDR_FIXED) Rejected;;
  magic ← rd32 buf 0;
  refuse (negb (magic_ok magic)) Rejected;;
  version ← rd32 buf 4;
  refuse (negb (version =? APPLE_FORK_VERSION)) Rejected;;
  n ← rd16 buf AD_NENTRIES_OFF;
  refuse ((n =? 0) || (AD_MAX_ENTRIES <? n)) Rejected;;
  refuse (zlen buf <? usize (AD_HDR_FIXED + n * AD_DESC_SIZE)) Rejected;;
  for_ (Z.to_nat n) 0 (fun i _ =>
    id ← rd32 buf (ad_desc i);
    off ← rd32 buf (ad_desc i + 4);
    elen ← rd32 buf (ad_desc i + 8);
    refuse (id =? 0) Rejected;;
    refuse (zlen buf <? u64 (off + elen)) Rejected) tt;;
  Ok n.
Definition ad_detect (buf : list Z) : out bool :=
  match header_valid buf with Ok _ => Ok true | Err _ => Ok false | Bad b => Bad b end.

Definition ad_record (e : ad_entry) (f : ad_file) : ad_file :=
  let v := (ad_bytes e, ad_len e) in
  let es := ad_entries f ++ [e] in
  if ad_id e =? AD_ENTRY_DATA then mk_ad_file (ad_magic f) (ad_version f) es (ad_rsrc f) (ad_finder f) v
  else if ad_id e =? AD_ENTRY_RSRC then mk_ad_file (ad_magic f) (ad_version f) es v (ad_finder f) (ad_data f)
  else if ad_id e =? AD_ENTRY_FINDER then mk_ad_file (ad_magic f) (ad_version f) es (ad_rsrc f) v (ad_data f)
  else mk_ad_file (ad_magic f) (ad_version f) es (ad_rsrc f) (ad_finder f) (ad_data f).
Definition ad_parse (buf : list Z) : out ad_file :=
  n ← or_else (header_valid buf) EINVAL;
  magic ← rd32 buf 0;
  version ← rd32 buf 4;
  for_ (Z.to_nat n) 0 (fun i f =>
    id ← rd32 buf (ad_desc i);
    off ← rd32 buf (ad_desc i + 4);
    elen ← rd32 buf (ad_desc i + 8);
    bytes ← (if truthy elen then d ← window buf off elen; Ok (Some d) else Ok None);
    (if AD_MAX_ENTRIES <=? i then Bad OutOfBounds else Ok tt);;
    Ok (ad_record (mk_entry id bytes elen) f))
    (mk_ad_file magic version [] (None, 0) (None, 0) (None, 0)).

Definition ad_build (applesingle : bool) (entries : list ad_entry) : out (list Z) :=
  let n := zlen entries in
  refuse ((n =? 0) || (AD_MAX_ENTRIES <? n)) EINVAL;;
  refuse (existsb (fun e => (ad_id e =? 0) || (truthy (ad_len e) && bool_decide (ad_bytes e = None)) ||
    (negb applesingle && (ad_id e =? AD_ENTRY_DATA))) entries) EINVAL;;
  let hdr := usize (AD_HDR_FIXED + n * AD_DESC_SIZE) in
  let total := foldl (fun t e => usize (t + ad_len e)) hdr entries in
  let buf := zeros total in
  buf ← wr32 buf 0 (if applesingle then APPLESINGLE_MAGIC else APPLEDOUBLE_MAGIC);
  buf ← wr32 buf 4 APPLE_FORK_VERSION;
  buf ← wr16 buf AD_NENTRIES_OFF (u16 n);
  '(buf, _) ← for_ (length entries) 0 (fun i '(buf, payload) =>
    match entries !! Z.to_nat i with
    | None => Bad OutOfBounds
    | Some e =>
        buf ← wr32 buf (ad_desc i) (ad_id e);
        buf ← wr32 buf (ad_desc i + 4) (u32 payload);
        buf ← wr32 buf (ad_desc i + 8) (u32 (ad_len e));
        buf ← (if truthy (ad_len e) then d ← window (default [] (ad_bytes e)) 0 (ad_len e); poke buf payload d else Ok buf);
        Ok (buf, usize (payload + ad_len e))
    end) (buf, hdr);
  Ok buf.
Definition ad_build_sidecar (rsrc : list Z) (rsrc_len : Z) (finder : option (list Z)) : out (list Z) :=
  let entries := match finder with Some _ => [mk_entry AD_ENTRY_FINDER finder AD_FINDER_INFO_SIZE] | None => [] end ++
    (if truthy rsrc_len then [mk_entry AD_ENTRY_RSRC (Some rsrc) rsrc_len] else []) in
  refuse (zlen entries =? 0) EINVAL;;
  ad_build false entries.

(** ** MacRoman *)
Definition macroman_hi : list Z := [
  0x00C4; 0x00C5; 0x00C7; 0x00C9; 0x00D1; 0x00D6; 0x00DC; 0x00E1; 0x00E0; 0x00E2; 0x00E4; 0x00E3; 0x00E5; 0x00E7; 0x00E9; 0x00E8;
  0x00EA; 0x00EB; 0x00ED; 0x00EC; 0x00EE; 0x00EF; 0x00F1; 0x00F3; 0x00F2; 0x00F4; 0x00F6; 0x00F5; 0x00FA; 0x00F9; 0x00FB; 0x00FC;
  0x2020; 0x00B0; 0x00A2; 0x00A3; 0x00A7; 0x2022; 0x00B6; 0x00DF; 0x00AE; 0x00A9; 0x2122; 0x00B4; 0x00A8; 0x2260; 0x00C6; 0x00D8;
  0x221E; 0x00B1; 0x2264; 0x2265; 0x00A5; 0x00B5; 0x2202; 0x2211; 0x220F; 0x03C0; 0x222B; 0x00AA; 0x00BA; 0x03A9; 0x00E6; 0x00F8;
  0x00BF; 0x00A1; 0x00AC; 0x221A; 0x0192; 0x2248; 0x2206; 0x00AB; 0x00BB; 0x2026; 0x00A0; 0x00C0; 0x00C3; 0x00D5; 0x0152; 0x0153;
  0x2013; 0x2014; 0x201C; 0x201D; 0x2018; 0x2019; 0x00F7; 0x25CA; 0x00FF; 0x0178; 0x2044; 0x20AC; 0x2039; 0x203A; 0xFB01; 0xFB02;
  0x2021; 0x00B7; 0x201A; 0x201E; 0x2030; 0x00C2; 0x00CA; 0x00C1; 0x00CB; 0x00C8; 0x00CD; 0x00CE; 0x00CF; 0x00CC; 0x00D3; 0x00D4;
  0xF8FF; 0x00D2; 0x00DA; 0x00DB; 0x00D9; 0x0131; 0x02C6; 0x02DC; 0x00AF; 0x02D8; 0x02D9; 0x02DA; 0x00B8; 0x02DD; 0x02DB; 0x02C7].

(** The UTF-8 bytes of a code point, with the room each form asks for. *)
Fixpoint macroman_loop (src : list Z) (dst_cap : Z) (o : list Z) : out (list Z) :=
  match src with
  | [] => Ok o
  | c :: src =>
      if negb (zlen o + 1 <? dst_cap) then Ok o
      else
        cp ← (if c <? 0x80 then Ok c else byte_at macroman_hi (c - 0x80));
        if cp <? 0x80 then
          o ← emit dst_cap cp o;
          macroman_loop src dst_cap o
        else if cp <? 0x800 then
          if dst_cap <=? zlen o + 2 then Ok o
          else
            o ← emit dst_cap (u8 (Z.lor 0xC0 (Z.shiftr cp 6))) o;
            o ← emit dst_cap (u8 (Z.lor 0x80 (Z.land cp 0x3F))) o;
            macroman_loop src dst_cap o
        else if dst_cap <=? zlen o + 3 then Ok o
        else
          o ← emit dst_cap (u8 (Z.lor 0xE0 (Z.shiftr cp 12))) o;
          o ← emit dst_cap (u8 (Z.lor 0x80 (Z.land (Z.shiftr cp 6) 0x3F))) o;
          o ← emit dst_cap (u8 (Z.lor 0x80 (Z.land cp 0x3F))) o;
          macroman_loop src dst_cap o
  end.
(** What is written to [dst], the NUL included. *)
Definition macroman_to_utf8 (src : list Z) (dst_cap : Z) : out (list Z) :=
  if dst_cap =? 0 then Ok []
  else
    o ← macroman_loop src dst_cap [];
    emit dst_cap 0 o.

(** ** Apple Data Compression

    [out] is what has been written so far, [op] its length. *)
Fixpoint adc_literal (k : nat) (inp : list Z) (ip : Z) (out_cap : Z) (o : list Z) : out (list Z) :=
  match k with
  | O => Ok o
  | S k => b ← byte_at inp ip; o ← emit out_cap b o; adc_literal k inp (ip + 1) out_cap o
  end.
Fixpoint adc_match (k : nat) (src out_cap : Z) (o : list Z) : out (list Z) :=
  match k with
  | O => Ok o
  | S k =>
      if negb (zlen o <? out_cap) then Ok o
      else b ← byte_at o src; o ← emit out_cap b o; adc_match k (src + 1) out_cap o
  end.
Fixpoint adc_loop (fuel : nat) (inp : list Z) (ip out_cap : Z) (o : list Z) : out (list Z) :=
  if negb ((ip <? zlen inp) && (zlen o <? out_cap)) then Ok o
  else
    match fuel with
    | O => Bad OutOfFuel
    | S fuel =>
        tag ← byte_at inp ip;
        if truthy (Z.land tag 0x80) then
          let len := Z.land tag 0x7F + 1 in
          let ip := ip + 1 in
          let len := if zlen inp - ip <? len then zlen inp - ip else len in
          let len := if out_cap - zlen o <? len then out_cap - zlen o else len in
          o ← adc_literal (Z.to_nat len) inp ip out_cap o;
          adc_loop fuel inp (ip + len) out_cap o
        else if truthy (Z.land tag 0x40) then
          let len := Z.land tag 0x3F + 4 in
          if zlen inp - ip <? 3 then Ok o
          else
            hi ← byte_at inp (ip + 1);
            lo ← byte_at inp (ip + 2);
            let off := Z.lor (Z.shiftl hi 8) lo in
            let ip := ip + 3 in
            refuse (zlen o <? off + 1) Rejected;;
            o ← adc_match (Z.to_nat len) (zlen o - off - 1) out_cap o;
            adc_loop fuel inp ip out_cap o
        else
          let len := Z.land (Z.shiftr tag 2) 0x0F + 3 in
          if zlen inp - ip <? 2 then Ok o
          else
            lo ← byte_at inp (ip + 1);
            let off := Z.lor (Z.shiftl (Z.land tag 3) 8) lo in
            let ip := ip + 2 in
            refuse (zlen o <? off + 1) Rejected;;
            o ← adc_match (Z.to_nat len) (zlen o - off - 1) out_cap o;
            adc_loop fuel inp ip out_cap o
    end.
Definition adc_decompress (inp : list Z) (out_cap : Z) : out (list Z) := adc_loop (length inp) inp 0 out_cap [].

(** ** The Apple partition map *)
Definition APM_BLOCK_SIZE : Z := 512.
Definition APM_SIG_PM : Z := 0x504D.
Definition APM_MAX_PARTITIONS : Z := 256.
Inductive apm_fs_kind := APM_FS_UNKNOWN | APM_FS_HFS | APM_FS_UFS | APM_FS_PARTITION_MAP | APM_FS_DRIVER | APM_FS_FREE | APM_FS_PATCHES.
Record apm_partition := mk_partition {
  pm_index : Z;
  start_block : Z;
  size_blocks : Z;
  pm_name : list Z;
  pm_type : list Z;
  pm_status : Z;
  fs_kind : apm_fs_kind;
}.
Record apm_table := mk_table { map_block_count : Z; partitions : list apm_partition }.

(** The 33 bytes of a name: the NULs and spaces at its end are NULs. *)
Fixpoint strip (l : list Z) : list Z :=
  match l with
  | c :: l => if (c =? 0) || (c =? 32) then 0 :: strip l else c :: l
  | [] => []
  end.
Definition copy_apm_str (src : list Z) : list Z := rev (strip (rev src)) ++ [0].
Definition image_apm_probe_magic (block1 : list Z) : out bool :=
  sig ← rd16 block1 0;
  if negb (sig =? APM_SIG_PM) then Ok false
  else
    map_blocks ← rd32 block1 4;
    Ok (negb ((map_blocks =? 0) || (APM_MAX_PARTITIONS <? map_blocks))).
Definition image_apm_classify_type (t : list Z) : apm_fs_kind :=
  let t := c_string t in
  let named s := same_nocase t (chars s) in
  if named "Apple_HFS"%string || named "Apple_HFSX"%string then APM_FS_HFS
  else if named "Apple_UNIX_SVR2"%string then APM_FS_UFS
  else if named "Apple_partition_map"%string then APM_FS_PARTITION_MAP
  else if same_nocase (ztake 12 t) (chars "Apple_Driver"%string) then APM_FS_DRIVER
  else if named "Apple_Free"%string then APM_FS_FREE
  else if named "Apple_Patches"%string then APM_FS_PATCHES
  else APM_FS_UNKNOWN.

Definition image_apm_err_read : error := Because "short read on APM block".
Definition image_apm_err_sig : error := Because "APM signature missing on block 1".
Definition image_apm_err_count : error := Because "pmMapBlkCnt out of range (1..256)".
Fixpoint apm_entries (k : nat) (i : Z) (buf : list Z) (ps : list apm_partition) : out (list apm_partition) :=
  match k with
  | O => Ok ps
  | S k =>
      let offset := usize (u32 (i + 1) * APM_BLOCK_SIZE) in
      if zlen buf <? usize (offset + APM_BLOCK_SIZE) then Ok ps
      else
        block ← window buf offset APM_BLOCK_SIZE;
        sig ← rd16 block 0;
        if negb (sig =? APM_SIG_PM) then Ok ps
        else
          start ← rd32 block 0x08;
          size ← rd32 block 0x0C;
          status ← rd32 block 0x58;
          name ← window block 0x10 32;
          type ← window block 0x30 32;
          let type := copy_apm_str type in
          apm_entries k (i + 1) buf
            (ps ++ [mk_partition (i + 1) start size (copy_apm_str name) type status (image_apm_classify_type type)])
  end.
Definition image_apm_parse_buffer (buf : list Z) : out apm_table :=
  refuse (zlen buf <? 2 * APM_BLOCK_SIZE) image_apm_err_read;;
  entry1 ← window buf APM_BLOCK_SIZE APM_BLOCK_SIZE;
  ok ← image_apm_probe_magic entry1;
  refuse (negb ok) image_apm_err_sig;;
  n ← rd32 entry1 4;
  refuse ((n =? 0) || (APM_MAX_PARTITIONS <? n)) image_apm_err_count;;
  ps ← apm_entries (Z.to_nat n) 0 buf [];
  refuse (zlen ps =? 0) image_apm_err_sig;;
  Ok (mk_table n ps).
(** The table of the medium in a drive; the contents of the malloc'd buffer
    before it is read are [junk]. *)
Definition image_apm_parse {I} `{!Medium I} (junk : Z -> Z) (d : I) : out apm_table * I :=
  let scan_bytes := usize ((256 + 1) * APM_BLOCK_SIZE) in
  let img_size := medium_size d in
  let scan_bytes := if img_size <? scan_bytes then img_size else scan_bytes in
  if scan_bytes <? 2 * APM_BLOCK_SIZE then (Err image_apm_err_read, d)
  else
    let '((got, buf), d) := medium_read 0 (junk <$> seqZ 0 scan_bytes) d in
    (if negb (got =? scan_bytes) then Err image_apm_err_read else image_apm_parse_buffer buf, d).
End Formats.
