(* ===== verification/Resources.v ===== *)
(** * Resource forks, compressed resources and NDIF images

    Model of src/core/storage/rsrc_dcmp.c, resource_fork.c, image_ndif.c and of
    the part of image.c that expands an NDIF file, on the outcomes and the
    checked accesses of Formats.  The JSON description of a resource
    (rfork_info_format) is left out. *)
From stdpp Require Import strings.
From S2P Require Import Prelude Stdio Image Formats.
Open Scope Z_scope.

(** ** Constant tables of the decompressors *)
Definition g_const_words : list Z := [
  0x0000; 0x4EBA; 0x0008; 0x4E75; 0x000C; 0x4EAD; 0x2053; 0x2F0B; 0x6100; 0x0010; 0x7000; 0x2F00; 0x486E; 0x2050; 0x206E; 0x2F2E;
  0xFFFC; 0x48E7; 0x3F3C; 0x0004; 0xFFF8; 0x2F0C; 0x2006; 0x4EED; 0x4E56; 0x2068; 0x4E5E; 0x0001; 0x588F; 0x4FEF; 0x0002; 0x0018;
  0x6000; 0xFFFF; 0x508F; 0x4E90; 0x0006; 0x266E; 0x0014; 0xFFF4; 0x4CEE; 0x000A; 0x000E; 0x41EE; 0x4CDF; 0x48C0; 0xFFF0; 0x2D40;
  0x0012; 0x302E; 0x7001; 0x2F28; 0x2054; 0x6700; 0x0020; 0x001C; 0x205F; 0x1800; 0x266F; 0x4878; 0x0016; 0x41FA; 0x303C; 0x2840;
  0x7200; 0x286E; 0x200C; 0x6600; 0x206B; 0x2F07; 0x558F; 0x0028; 0xFFFE; 0xFFEC; 0x22D8; 0x200B; 0x000F; 0x598F; 0x2F3C; 0xFF00;
  0x0118; 0x81E1; 0x4A00; 0x4EB0; 0xFFE8; 0x48C7; 0x0003; 0x0022; 0x0007; 0x001A; 0x6706; 0x6708; 0x4EF9; 0x0024; 0x2078; 0x0800;
  0x6604; 0x002A; 0x4ED0; 0x3028; 0x265F; 0x6704; 0x0030; 0x43EE; 0x3F00; 0x201F; 0x001E; 0xFFF6; 0x202E; 0x42A7; 0x2007; 0xFFFA;
  0x6002; 0x3D40; 0x0C40; 0x6606; 0x0026; 0x2D48; 0x2F01; 0x70FF; 0x6004; 0x1880; 0x4A40; 0x0040; 0x002C; 0x2F08; 0x0011; 0xFFE4;
  0x2140; 0x2640; 0xFFF2; 0x426E; 0x4EB9; 0x3D7C; 0x0038; 0x000D; 0x6006; 0x422E; 0x203C; 0x670C; 0x2D68; 0x6608; 0x4A2E; 0x4AAE;
  0x002E; 0x4840; 0x225F; 0x2200; 0x670A; 0x3007; 0x4267; 0x0032; 0x2028; 0x0009; 0x487A; 0x0200; 0x2F2B; 0x0005; 0x226E; 0x6602;
  0xE580; 0x670E; 0x660A; 0x0050; 0x3E00; 0x660C; 0x2E00; 0xFFEE; 0x206D; 0x2040; 0xFFE0; 0x5340; 0x6008; 0x0480; 0x0068; 0x0B7C;
  0x4400; 0x41E8; 0x4841].

Definition g_greggy_static : list Z := [
  0x0000; 0x0008; 0x4EBA; 0x206E; 0x4E75; 0x000C; 0x0004; 0x7000; 0x0010; 0x0002; 0x486E; 0xFFFC; 0x6000; 0x0001; 0x48E7; 0x2F2E;
  0x4E56; 0x0006; 0x4E5E; 0x2F00; 0x6100; 0xFFF8; 0x2F0B; 0xFFFF; 0x0014; 0x000A; 0x0018; 0x205F; 0x000E; 0x2050; 0x3F3C; 0xFFF4;
  0x4CEE; 0x302E; 0x6700; 0x4CDF; 0x266E; 0x0012; 0x001C; 0x4267; 0xFFF0; 0x303C; 0x2F0C; 0x0003; 0x4ED0; 0x0020; 0x7001; 0x0016;
  0x2D40; 0x48C0; 0x2078; 0x7200; 0x588F; 0x6600; 0x4FEF; 0x42A7; 0x6706; 0xFFFA; 0x558F; 0x286E; 0x3F00; 0xFFFE; 0x2F3C; 0x6704;
  0x598F; 0x206B; 0x0024; 0x201F; 0x41FA; 0x81E1; 0x6604; 0x6708; 0x001A; 0x4EB9; 0x508F; 0x202E; 0x0007; 0x4EB0; 0xFFF2; 0x3D40;
  0x001E; 0x2068; 0x6606; 0xFFF6; 0x4EF9; 0x0800; 0x0C40; 0x3D7C; 0xFFEC; 0x0005; 0x203C; 0xFFE8; 0xDEFC; 0x4A2E; 0x0030; 0x0028;
  0x2F08; 0x200B; 0x6002; 0x426E; 0x2D48; 0x2053; 0x2040; 0x1800; 0x6004; 0x41EE; 0x2F28; 0x2F01; 0x670A; 0x4840; 0x2007; 0x6608;
  0x0118; 0x2F07; 0x3028; 0x3F2E; 0x302B; 0x226E; 0x2F2B; 0x002C; 0x670C; 0x225F; 0x6006; 0x00FF; 0x3007; 0xFFEE; 0x5340; 0x0040;
  0xFFE4; 0x4A40; 0x660A; 0x000F; 0x4EAD; 0x70FF; 0x22D8; 0x486B; 0x0022; 0x204B; 0x670E; 0x4AAE; 0x4E90; 0xFFE0; 0xFFC0; 0x002A;
  0x2740; 0x6702; 0x51C8; 0x02B6; 0x487A; 0x2278; 0xB06E; 0xFFE6; 0x0009; 0x322E; 0x3E00; 0x4841; 0xFFEA; 0x43EE; 0x4E71; 0x7400;
  0x2F2C; 0x206C; 0x003C; 0x0026; 0x0050; 0x1880; 0x301F; 0x2200; 0x660C; 0xFFDA; 0x0038; 0x6602; 0x302C; 0x200C; 0x2D6E; 0x4240;
  0xFFE2; 0xA9F0; 0xFF00; 0x377C; 0xE580; 0xFFDC; 0x4868; 0x594F; 0x0034; 0x3E1F; 0x6008; 0x2F06; 0xFFDE; 0x600A; 0x7002; 0x0032;
  0xFFCC; 0x0080; 0x2251; 0x101F; 0x317C; 0xA029; 0xFFD8; 0x5240; 0x0100; 0x6710; 0xA023; 0xFFCE; 0xFFD4; 0x2006; 0x4878; 0x002E;
  0x504F; 0x43FA; 0x6712; 0x7600; 0x41E8; 0x4A6E; 0x20D9; 0x005A; 0x7FFF; 0x51CA; 0x005C; 0x2E00; 0x0240; 0x48C7; 0x6714; 0x0C80;
  0x2E9F; 0xFFD6; 0x8000; 0x1000; 0x4842; 0x4A6B; 0xFFD2; 0x0048; 0x4A47; 0x4ED1; 0x206F; 0x0041; 0x600C; 0x2A78; 0x422E; 0x3200;
  0x6574; 0x6716; 0x0044; 0x486D; 0x2008; 0x486C; 0x0B7C; 0x2640; 0x0400; 0x0068; 0x206D; 0x000D; 0x2A40; 0x000B; 0x003E; 0x0220].

Definition macroman_hi_lookup : list Z := [
  0x00C4; 0x00C5; 0x00C7; 0x00C9; 0x00D1; 0x00D6; 0x00DC; 0x00E1; 0x00E0; 0x00E2; 0x00E4; 0x00E3; 0x00E5; 0x00E7; 0x00E9; 0x00E8;
  0x00EA; 0x00EB; 0x00ED; 0x00EC; 0x00EE; 0x00EF; 0x00F1; 0x00F3; 0x00F2; 0x00F4; 0x00F6; 0x00F5; 0x00FA; 0x00F9; 0x00FB; 0x00FC;
  0x2020; 0x00B0; 0x00A2; 0x00A3; 0x00A7; 0x2022; 0x00B6; 0x00DF; 0x00AE; 0x00A9; 0x2122; 0x00B4; 0x00A8; 0x2260; 0x00C6; 0x00D8;
  0x221E; 0x00B1; 0x2264; 0x2265; 0x00A5; 0x00B5; 0x2202; 0x2211; 0x220F; 0x03C0; 0x222B; 0x00AA; 0x00BA; 0x03A9; 0x00E6; 0x00F8;
  0x00BF; 0x00A1; 0x00AC; 0x221A; 0x0192; 0x2248; 0x2206; 0x00AB; 0x00BB; 0x2026; 0x00A0; 0x00C0; 0x00C3; 0x00D5; 0x0152; 0x0153;
  0x2013; 0x2014; 0x201C; 0x201D; 0x2018; 0x2019; 0x00F7; 0x25CA; 0x00FF; 0x0178; 0x2044; 0x20AC; 0x2039; 0x203A; 0xFB01; 0xFB02;
  0x2021; 0x00B7; 0x201A; 0x201E; 0x2030; 0x00C2; 0x00CA; 0x00C1; 0x00CB; 0x00C8; 0x00CD; 0x00CE; 0x00CF; 0x00CC; 0x00D3; 0x00D4;
  0xF8FF; 0x00D2; 0x00DA; 0x00DB; 0x00D9; 0x0131; 0x02C6; 0x02DC; 0x00AF; 0x02D8; 0x02D9; 0x02DA; 0x00B8; 0x02DD; 0x02DB; 0x02C7].

(** ** Cursors

    The input cursor [ic], the output cursor [oc] with the bytes written so far
    and the size of the block behind it, and the buffer of the variable table. *)
Record donn := mk_donn { ic_p : list Z; ic_off : Z; oc_alloc : Z; oc_cap : Z; oc_out : list Z; vt_buf : list Z }.
Definition set_ic_off (x : Z) (s : donn) : donn := mk_donn (ic_p s) x (oc_alloc s) (oc_cap s) (oc_out s) (vt_buf s).
Definition set_oc_out (x : list Z) (s : donn) : donn := mk_donn (ic_p s) (ic_off s) (oc_alloc s) (oc_cap s) x (vt_buf s).
Definition set_vt_buf (x : list Z) (s : donn) : donn := mk_donn (ic_p s) (ic_off s) (oc_alloc s) (oc_cap s) (oc_out s) x.
Definition dec (A : Type) : Type := donn -> out (A * donn).
#[global] Instance dec_ret : MRet dec := fun A a s => Ok (a, s).
#[global] Instance dec_bind : MBind dec := fun A B k m s =>
  match m s with Ok (a, s) => k a s | Err e => Err e | Bad b => Bad b end.
Definition lift {A} (m : out A) : dec A := fun s => a ← m; Ok (a, s).
(** Addition of int32_t. *)
Definition add32 (a b : Z) : dec Z := fun s =>
  if (- 2 ^ 31 <=? a + b) && (a + b <? 2 ^ 31) then Ok (a + b, s) else Bad SignedOverflow.
(** [n] iterations of a loop whose counter, an int32_t or a size_t, starts at [i]. *)
Fixpoint for32 {A} (n : nat) (i : Z) (body : Z -> A -> dec A) (a : A) : dec A :=
  match n with O => mret a | S n => a ← body i a; i ← add32 i 1; for32 n i body a end.
Fixpoint for_dec {A} (n : nat) (i : Z) (body : Z -> A -> dec A) (a : A) : dec A :=
  match n with O => mret a | S n => a ← body i a; for_dec n (i + 1) body a end.

Section Resources.
Context `{!Abi}.

Definition ic_get_u8 : dec Z := fun s =>
  if zlen (ic_p s) <=? ic_off s then Err Rejected
  else b ← byte_at (ic_p s) (ic_off s); Ok (b, set_ic_off (ic_off s + 1) s).
Definition ic_get_n (n : Z) : dec (list Z) := fun s =>
  if zlen (ic_p s) <? usize (ic_off s + n) then Err Rejected
  else d ← window (ic_p s) (ic_off s) n; Ok (d, set_ic_off (usize (ic_off s + n)) s).
Definition oc_put_u8 (b : Z) : dec unit := fun s =>
  if oc_cap s <=? zlen (oc_out s) then Err Rejected
  else o ← emit (oc_alloc s) b (oc_out s); Ok (tt, set_oc_out o s).
Definition oc_put_u16_be (v : Z) : dec unit := fun s =>
  if oc_cap s <? usize (zlen (oc_out s) + 2) then Err Rejected
  else
    o ← emit (oc_alloc s) (u8 (Z.shiftr v 8)) (oc_out s);
    o ← emit (oc_alloc s) (u8 v) o;
    Ok (tt, set_oc_out o s).
Definition oc_put_n (d : list Z) : dec unit := fun s =>
  if oc_cap s <? usize (zlen (oc_out s) + zlen d) then Err Rejected
  else if oc_alloc s <? zlen (oc_out s) + zlen d then Bad OutOfBounds
  else Ok (tt, set_oc_out (oc_out s ++ d) s).

(** GetEncodedValue *)
Definition get_encoded : dec Z :=
  b0 ← ic_get_u8;
  if b0 <? 0x80 then mret b0
  else if b0 =? 0xFF then p ← ic_get_n 4; mret (s32 (unbe p))
  else
    b1 ← ic_get_u8;
    let hi := s8 (b0 - 0xC0) in
    mret (s16 (Z.lor (Z.shiftl hi 8) b1)).

(** ** The variable table *)
Definition vt_init (size : Z) : out (list Z) :=
  let buf := zeros size in
  if size <? 4 then Ok buf else poke buf 0 [0; 4; u8 (Z.shiftr size 8); u8 size].
Definition vt_remember (vt data : list Z) : out (list Z) :=
  refuse (zlen vt <? 4) Rejected;;
  next_idx ← rd16 vt 0;
  refuse (zlen vt <? next_idx + 2) Rejected;;
  prev_off ← rd16 vt (next_idx - 2);
  refuse (prev_off <? zlen data) Rejected;;
  let new_off := u16 (prev_off - zlen data) in
  refuse (new_off <? next_idx + 2) Rejected;;
  vt ← wr16 vt next_idx new_off;
  vt ← wr16 vt 0 (u16 (next_idx + 2));
  poke vt new_off data.
Definition vt_fetch (vt : list Z) (idx : Z) : out (list Z) :=
  refuse (zlen vt <? 4) Rejected;;
  next_idx ← rd16 vt 0;
  let a_off := usize (2 + idx * 2) in
  let b_off := usize (a_off + 2) in
  refuse (next_idx <? usize (b_off + 2)) Rejected;;
  a ← rd16 vt a_off;
  b ← rd16 vt b_off;
  refuse ((a <? b) || (zlen vt <? a)) Rejected;;
  window vt b (a - b).
Definition remember (d : list Z) : dec unit := fun s => vt ← vt_remember (vt_buf s) d; Ok (tt, set_vt_buf vt s).
Definition fetch (idx : Z) : dec (list Z) := fun s => d ← vt_fetch (vt_buf s) idx; Ok (d, s).

(** ** Extensions *)
Definition do_jt_trans : dec unit :=
  seg ← get_encoded;
  count ← get_encoded;
  for32 (Z.to_nat count) 0 (fun _ offset =>
    delta ← get_encoded;
    d ← add32 delta (-6);
    offset ← add32 offset d;
    oc_put_u16_be 0x3F3C;;
    oc_put_u16_be (u16 seg);;
    oc_put_u16_be 0xA9F0;;
    oc_put_u16_be (u16 offset);;
    mret offset) 6;;
  oc_put_u16_be 0x3F3C;;
  oc_put_u16_be (u16 seg);;
  oc_put_u16_be 0xA9F0.
Definition do_entry_vector : dec unit :=
  branch ← get_encoded;
  delta_const ← get_encoded;
  count ← get_encoded;
  off ← get_encoded;
  for32 (Z.to_nat (count + 1)) 0 (fun i '(cur_branch, cur_off) =>
    oc_put_u16_be 0x6100;;
    oc_put_u16_be (u16 cur_branch);;
    oc_put_u16_be 0x4EED;;
    oc_put_u16_be (u16 cur_off);;
    cur_branch ← add32 cur_branch (-8);
    cur_off ← (if i <? count then (if truthy delta_const then add32 cur_off delta_const else get_encoded) else mret cur_off);
    mret (cur_branch, cur_off)) (branch, off);;
  mret tt.
Definition do_runlen (put : Z -> dec unit) : dec unit :=
  value ← get_encoded;
  count ← get_encoded;
  for32 (Z.to_nat (count + 1)) 0 (fun _ _ => put value) tt.
Definition do_runlen_byte : dec unit := do_runlen (fun v => oc_put_u8 (u8 v)).
Definition do_runlen_word : dec unit := do_runlen (fun v => oc_put_u16_be (u16 v)).
Definition do_diff (delta : dec Z) : dec unit :=
  value ← get_encoded;
  count ← get_encoded;
  oc_put_u16_be (u16 value);;
  for32 (Z.to_nat count) 0 (fun _ value =>
    d ← delta;
    value ← add32 value d;
    oc_put_u16_be (u16 value);;
    mret value) value;;
  mret tt.
Definition do_diff_word : dec unit := do_diff (db ← ic_get_u8; mret (s8 db)).
Definition do_diff_enc_word : dec unit := do_diff get_encoded.
Definition put_long (v : Z) : dec unit :=
  oc_put_u8 (u8 (Z.shiftr v 24));;
  oc_put_u8 (u8 (Z.shiftr v 16));;
  oc_put_u8 (u8 (Z.shiftr v 8));;
  oc_put_u8 (u8 v).
Definition do_diff_enc_long : dec unit :=
  value ← get_encoded;
  count ← get_encoded;
  put_long (u32 value);;
  for32 (Z.to_nat count) 0 (fun _ v32 =>
    d ← get_encoded;
    let v32 := u32 (v32 + u32 d) in
    put_long v32;;
    mret v32) (u32 value);;
  mret tt.
Definition do_extension : dec unit :=
  ext ← ic_get_u8;
  if ext =? 0 then do_jt_trans
  else if ext =? 1 then do_entry_vector
  else if ext =? 2 then do_runlen_byte
  else if ext =? 3 then do_runlen_word
  else if ext =? 4 then do_diff_word
  else if ext =? 5 then do_diff_enc_word
  else if ext =? 6 then do_diff_enc_long
  else lift (Err Rejected).

(** ** The DonnBits loop *)
Definition MAX_1BYTE_REUSE : Z := 40.
Definition reuse (idx : Z) : dec unit := d ← fetch idx; oc_put_n d.
(** One opcode other than the end of the stream. *)
Definition unpack_op (op : Z) : dec unit :=
  if (op =? 0x00) || (op =? 0x10) then
    n_words ← get_encoded;
    lift (refuse ((n_words <? 0) || (0x100000 <? n_words)) Rejected);;
    src ← ic_get_n (n_words * 2);
    (if op =? 0x10 then remember src else mret tt);;
    oc_put_n src
  else if op <=? 0x0F then
    src ← ic_get_n (op * 2);
    oc_put_n src
  else if op <=? 0x1F then
    src ← ic_get_n ((op - 0x10) * 2);
    remember src;;
    oc_put_n src
  else if op =? 0x20 then b ← ic_get_u8; reuse (b + MAX_1BYTE_REUSE)
  else if op =? 0x21 then b ← ic_get_u8; reuse (b + MAX_1BYTE_REUSE + 256)
  else if op =? 0x22 then
    hi ← ic_get_u8;
    lo ← ic_get_u8;
    reuse (Z.lor (Z.shiftl hi 8) lo + MAX_1BYTE_REUSE)
  else if op <=? 0x4A then reuse (op - 0x23)
  else if op <=? 0xFD then w ← lift (byte_at g_const_words (op - 0x4B)); oc_put_u16_be w
  else if op =? 0xFE then do_extension
  else lift (Err Rejected).
Fixpoint unpack_loop (fuel : nat) : dec unit :=
  match fuel with
  | O => lift (Bad OutOfFuel)
  | S fuel =>
      op ← ic_get_u8;
      if op =? 0xFF then mret tt
      else unpack_op op;; unpack_loop fuel
  end.

(** ** GreggyBits *)
Definition GREGGY_BYTE_TABLE_SAVED : Z := 1.
Definition GREGGY_BITMAPPED_DATA : Z := 2.
Definition table_word (table : list Z) : dec unit :=
  idx ← ic_get_u8;
  w ← lift (byte_at table idx);
  oc_put_u16_be w.
Definition literal_word : dec unit :=
  b0 ← ic_get_u8;
  b1 ← ic_get_u8;
  oc_put_u8 b0;;
  oc_put_u8 b1.
Definition copy_byte : dec unit := b ← ic_get_u8; oc_put_u8 b.
Definition bitmap_words (table : list Z) (n : nat) (bitmap : Z) : dec unit :=
  for_dec n 0 (fun _ bitmap =>
    (if truthy (Z.land bitmap 0x80) then table_word table else literal_word);;
    mret (u8 (Z.shiftl bitmap 1))) bitmap;;
  mret tt.
Definition dcmp2_decompress (actual_size byte_table_size_field compress_flags : Z) : dec unit :=
  table ← (if truthy (Z.land compress_flags GREGGY_BYTE_TABLE_SAVED) then
      let nwords := byte_table_size_field + 1 in
      let nwords := if 256 <? nwords then 256 else nwords in
      for_dec (Z.to_nat nwords) 0 (fun i t =>
        hi ← ic_get_u8;
        lo ← ic_get_u8;
        lift (poke t i [Z.lor (Z.shiftl hi 8) lo])) (zeros 256)
    else mret g_greggy_static);
  let total_words := actual_size / 2 in
  (if negb (truthy (Z.land compress_flags GREGGY_BITMAPPED_DATA)) then
    for_dec (Z.to_nat total_words) 0 (fun _ _ => table_word table) tt
  else
    for_dec (Z.to_nat (total_words / 8)) 0 (fun _ _ =>
      bitmap ← ic_get_u8;
      if bitmap =? 0 then for_dec 16 0 (fun _ _ => copy_byte) tt
      else bitmap_words table 8 bitmap) tt;;
    let last_run_words := total_words mod 8 in
    if 0 <? last_run_words then
      bitmap ← ic_get_u8;
      bitmap_words table (Z.to_nat last_run_words) bitmap
    else mret tt);;
  if truthy (Z.land actual_size 1) then copy_byte else mret tt.

(** ** The entry point *)
Definition RSRC_DCMP_MAGIC : Z := 0xA89F6572.
Definition rsrc_dcmp_is_compressed (l : list Z) : out bool :=
  if zlen l <? 4 then Ok false else m ← rd32 l 0; Ok (m =? RSRC_DCMP_MAGIC).
(** memset over the part of the block behind what was written, and what the
    caller sees of the block. *)
Definition finish (alloc actual_size : Z) (o : list Z) : out (list Z) :=
  if zlen o <? actual_size then
    if alloc <? actual_size then Bad OutOfBounds else Ok (o ++ zeros (actual_size - zlen o))
  else Ok (ztake actual_size o).
Definition at_least_1 (n : Z) : Z := if 0 <? n then n else 1.
Definition var_table_size (actual_size var_ratio : Z) : Z :=
  let vt_size := usize (actual_size * var_ratio) / 256 in
  let vt_size := if vt_size <? 4 then 4 else vt_size in
  if truthy (Z.land vt_size 1) then vt_size + 1 else vt_size.
Definition rsrc_dcmp_decompress (compressed : list Z) : out (list Z) :=
  let corrupt := Because "corrupt stream" in
  refuse (zlen compressed <? 18) (Because "truncated header");;
  magic ← rd32 compressed 0;
  refuse (negb (magic =? RSRC_DCMP_MAGIC)) (Because "not compressed");;
  hdr_len ← rd16 compressed 4;
  hdr_ver ← byte_at compressed 6;
  actual_size ← rd32 compressed 8;
  refuse ((hdr_len <? 18) || (zlen compressed <? hdr_len)) (Because "truncated header");;
  dcmp_id ← (if hdr_ver =? 8 then rd16 compressed 14
    else if hdr_ver =? 9 then rd16 compressed 12
    else Err (Because "unsupported version"));
  let dcmp_id := s16 dcmp_id in
  payload ← window compressed hdr_len (zlen compressed - hdr_len);
  if (dcmp_id =? 0) && (hdr_ver =? 8) then
    var_ratio ← byte_at compressed 12;
    overrun ← byte_at compressed 13;
    let out_cap := usize (actual_size + overrun) in
    let alloc := at_least_1 out_cap in
    vt ← vt_init (var_table_size actual_size var_ratio);
    '(_, s) ← or_else (unpack_loop (S (length payload)) (mk_donn payload 0 alloc out_cap [] vt)) corrupt;
    finish alloc actual_size (oc_out s)
  else if (dcmp_id =? 2) && (hdr_ver =? 9) then
    byte_table_size ← byte_at compressed 16;
    compress_flags ← byte_at compressed 17;
    let alloc := at_least_1 actual_size in
    '(_, s) ← or_else (dcmp2_decompress actual_size byte_table_size compress_flags (mk_donn payload 0 alloc actual_size [] [])) corrupt;
    finish alloc actual_size (oc_out s)
  else Err (Because "unsupported dcmp").

(** ** Resource forks

    A resource points into the fork; its name is the 64 bytes of [name_utf8] up
    to the NUL that ends it. *)
Record rfork_resource := mk_resource {
  rs_id : Z;
  rs_bytes : list Z;
  rs_attrs : Z;
  rs_name : list Z;
  rs_inflated : option (list Z);
}.
Record rfork_type := mk_type { cc : list Z; resources : list rfork_resource }.
Record rfork := mk_rfork { fork_attrs : Z; types : list rfork_type }.
Definition RFORK_ATTR_COMPRESSED : Z := 0x01.

Definition read_name (map : list Z) (name_list_off name_off cap : Z) : out (list Z) :=
  if name_off <? 0 then Ok [0]
  else
    let abs := usize (name_list_off + u16 name_off) in
    refuse (zlen map <=? abs) Rejected;;
    plen ← byte_at map abs;
    refuse (zlen map <? usize (abs + 1 + plen)) Rejected;;
    src ← window map (abs + 1) plen;
    macroman_to_utf8 src cap.
(** The bytes of a resource decompressed, where it is compressed and can be. *)
Definition inflate (attrs : Z) (bytes : list Z) : out (option (list Z)) :=
  if truthy (Z.land attrs RFORK_ATTR_COMPRESSED) then
    compressed ← rsrc_dcmp_is_compressed bytes;
    if (compressed : bool) then
      match rsrc_dcmp_decompress bytes with
      | Ok d => Ok (Some d)
      | Err _ => Ok None
      | Bad b => Bad b
      end
    else Ok None
  else Ok None.
(** The entry at [re] of a reference list. *)
Definition parse_ref (map data : list Z) (name_list_off re : Z) : out rfork_resource :=
  id ← rd16 map re;
  name_off ← rd16 map (re + 2);
  attrs ← byte_at map (re + 4);
  o ← window map (re + 5) 3;
  let do24 := unbe o in
  refuse (zlen data <? usize (do24 + 4)) (Because "resource data offset out of range");;
  rlen ← rd32 data do24;
  refuse (zlen data <? usize (do24 + 4 + rlen)) (Because "resource data length out of range");;
  bytes ← window data (do24 + 4) rlen;
  name ← or_else (read_name map name_list_off (s16 name_off) 64) (Because "name list out of range");
  inflated ← inflate attrs bytes;
  Ok (mk_resource (s16 id) bytes attrs name inflated).
(** The entry at [te] of the type table. *)
Definition parse_type (map data : list Z) (type_list_off name_list_off te : Z) : out rfork_type :=
  cc ← window map te 4;
  count_m1 ← rd16 map (te + 4);
  ref_off ← rd16 map (te + 6);
  let num_res := count_m1 + 1 in
  let ref_start := type_list_off + ref_off in
  refuse (zlen map <? ref_start + 12 * num_res) (Because "ref list out of range");;
  rs ← for_ (Z.to_nat num_res) 0 (fun r rs =>
    x ← parse_ref map data name_list_off (ref_start + 12 * r); Ok (rs ++ [x])) [];
  Ok (mk_type cc rs).
Definition rfork_parse (fork : list Z) : out rfork :=
  refuse (zlen fork <? 16) (Because "fork too small for header");;
  data_off ← rd32 fork 0;
  map_off ← rd32 fork 4;
  data_len ← rd32 fork 8;
  map_len ← rd32 fork 12;
  refuse (zlen fork <? u64 (data_off + data_len)) (Because "data area out of range");;
  refuse (zlen fork <? u64 (map_off + map_len)) (Because "map area out of range");;
  refuse (map_len <? 30) (Because "map area too small");;
  map ← window fork map_off map_len;
  data ← window fork data_off data_len;
  fork_attrs ← rd16 map 22;
  type_list_off ← rd16 map 24;
  name_list_off ← rd16 map 26;
  refuse (map_len <? u32 (type_list_off + 2)) (Because "type-list offset out of range");;
  refuse (map_len <? name_list_off) (Because "name-list offset out of range");;
  num_types_m1 ← rd16 map type_list_off;
  if num_types_m1 =? 0xFFFF then Ok (mk_rfork fork_attrs [])
  else
    let num_types := num_types_m1 + 1 in
    refuse (map_len <? type_list_off + 2 + 8 * num_types) (Because "type table out of range");;
    ts ← for_ (Z.to_nat num_types) 0 (fun t ts =>
      x ← parse_type map data type_list_off name_list_off (type_list_off + 2 + 8 * t); Ok (ts ++ [x])) [];
    Ok (mk_rfork fork_attrs ts).

(** The getters, on a fork that was parsed. *)
Definition rfork_num_types (rf : rfork) : Z := zlen (types rf).
Definition rfork_type_at (rf : rfork) (idx : nat) : option (list Z) := cc <$> types rf !! idx.
Definition find_type (rf : rfork) (type : list Z) : option rfork_type :=
  snd <$> list_find (fun t => cc t = type) (types rf).
Definition rfork_num_resources (rf : rfork) (type : list Z) : Z :=
  match find_type rf type with Some t => zlen (resources t) | None => 0 end.
Definition rfork_id_at (rf : rfork) (type : list Z) (idx : nat) : Z :=
  match find_type rf type with
  | Some t => match resources t !! idx with Some r => rs_id r | None => 0 end
  | None => 0
  end.
(** The bytes, the name and the attributes of a resource. *)
Definition rfork_lookup (rf : rfork) (type : list Z) (id : Z) : out (list Z * list Z * Z) :=
  match find_type rf type with
  | None => Err ENOENT
  | Some t =>
      match list_find (fun r => rs_id r = id) (resources t) with
      | None => Err ENOENT
      | Some (_, r) => Ok (default (rs_bytes r) (rs_inflated r), rs_name r, rs_attrs r)
      end
  end.

(** *** Types and ids as names of files *)
Definition rfork_type_to_path (type : list Z) (cap : Z) : out (list Z) := macroman_to_utf8 type cap.
(** One character of the string at [p], and where the next one starts. *)
Definition decode_char (s : list Z) (p : Z) : out (Z * Z) :=
  c ← byte_at s p;
  if c <? 0x80 then Ok (c, p + 1)
  else
    c1 ← (if (Z.land c 0xE0 =? 0xC0) || (Z.land c 0xF0 =? 0xE0) then byte_at s (p + 1) else Ok 0);
    let cont := Z.land c1 0xC0 =? 0x80 in
    if (Z.land c 0xE0 =? 0xC0) && cont then Ok (Z.lor (Z.shiftl (Z.land c 0x1F) 6) (Z.land c1 0x3F), p + 2)
    else if (Z.land c 0xF0 =? 0xE0) && cont then
      c2 ← byte_at s (p + 2);
      refuse (negb (Z.land c2 0xC0 =? 0x80)) EINVAL;;
      Ok (Z.lor (Z.lor (Z.shiftl (Z.land c 0x0F) 12) (Z.shiftl (Z.land c1 0x3F) 6)) (Z.land c2 0x3F), p + 3)
    else Err EINVAL.
Definition macroman_byte (cp : Z) : out Z :=
  if cp <? 0x80 then Ok cp
  else match list_find (fun x => x = cp) macroman_hi_lookup with
    | Some (i, _) => Ok (u8 (0x80 + Z.of_nat i))
    | None => Err EINVAL
    end.
Fixpoint type_chars (k : nat) (s : list Z) (p : Z) (o : list Z) : out (list Z * Z) :=
  c ← byte_at s p;
  match k with
  | O => Ok (o, p)
  | S k =>
      if c =? 0 then Ok (o, p)
      else
        '(cp, p) ← decode_char s p;
        b ← macroman_byte cp;
        type_chars k s p (o ++ [b])
  end.
(** [s] is the string with its NUL. *)
Definition rfork_type_from_path (s : list Z) : out (list Z) :=
  '(o, p) ← type_chars 4 s 0 [];
  c ← byte_at s p;
  refuse (negb (zlen o =? 4) || truthy c) EINVAL;;
  Ok o.

(** The decimal writing of printf, for integers of few digits, and strtol with
    base 10: the value, the characters behind it, and whether the value fits. *)
Fixpoint digits (k : nat) (n : Z) : list Z :=
  match k with
  | O => []
  | S k => (if n <? 10 then [] else digits k (n / 10)) ++ [48 + n mod 10]
  end.
Definition decimal (v : Z) : list Z := if v <? 0 then 45 :: digits 10 (- v) else digits 10 v.
Definition rfork_id_to_path (id cap : Z) : list Z := if cap =? 0 then [] else ztake (cap - 1) (decimal id) ++ [0].
Definition isspace (c : Z) : bool := (c =? 32) || ((9 <=? c) && (c <=? 13)).
Definition isdigit (c : Z) : bool := (48 <=? c) && (c <=? 57).
Fixpoint skip_spaces (s : list Z) : list Z :=
  match s with c :: s' => if isspace c then skip_spaces s' else s | [] => [] end.
Fixpoint scan_digits (n : Z) (s : list Z) : Z * list Z :=
  match s with c :: s' => if isdigit c then scan_digits (n * 10 + (c - 48)) s' else (n, s) | [] => (n, []) end.
Definition strtol10 (s : list Z) : Z * list Z * bool :=
  let t := skip_spaces s in
  let '(neg, t) := match t with 45 :: t' => (true, t') | 43 :: t' => (false, t') | _ => (false, t) end in
  let '(n, rest) := scan_digits 0 t in
  if zlen rest =? zlen t then (0, s, true)
  else
    let v := if neg then - n else n in
    (v, rest, (- 2 ^ (long_bits - 1) <=? v) && (v <? 2 ^ (long_bits - 1))).
(** The string without its NUL. *)
Definition rfork_id_from_path (s : list Z) : out Z :=
  refuse (zlen s =? 0) EINVAL;;
  let '(v, rest, fits) := strtol10 s in
  refuse (negb fits || truthy (zlen rest)) EINVAL;;
  refuse ((v <? -32768) || (32767 <? v)) EINVAL;;
  Ok v.

(** ** NDIF block maps *)
Definition NDIF_SECTOR_SIZE : Z := 512.
Definition NDIF_CHUNK_ZERO : Z := 0x00.
Definition NDIF_CHUNK_COPY : Z := 0x02.
Definition NDIF_CHUNK_ADC : Z := 0x83.
Definition NDIF_CHUNK_END : Z := 0xFF.
Definition BCEM_RESOURCE_ID : Z := 128.
Definition BCEM_HEADER_SIZE : Z := 0x80.
Definition BCEM_ENTRY_SIZE : Z := 12.
Definition BCEM_TYPE : list Z := [98; 99; 101; 109].
Record ndif_chunk := mk_chunk { ch_sector : Z; ch_count : Z; ch_type : Z; ch_offset : Z; ch_length : Z }.
Record ndif_map := mk_map { nd_sectors : Z; nd_crc : Z; volume_name : list Z; chunks : list ndif_chunk }.

Definition locate_bcem (fork : list Z) : out (list Z) :=
  rf ← or_else (rfork_parse fork) EINVAL;
  match rfork_lookup rf BCEM_TYPE BCEM_RESOURCE_ID with
  | Ok (b, _, _) => Ok b
  | _ =>
      refuse (rfork_num_resources rf BCEM_TYPE =? 0) ENOENT;;
      '(b, _, _) ← or_else (rfork_lookup rf BCEM_TYPE (rfork_id_at rf BCEM_TYPE 0)) ENOENT;
      Ok b
  end.
Definition ndif_detect (fork : list Z) : out bool :=
  if zlen fork <? 16 then Ok false
  else
    match locate_bcem fork with
    | Ok b => Ok (BCEM_HEADER_SIZE <=? zlen b)
    | Err _ => Ok false
    | Bad d => Bad d
    end.
(** The descriptor at [i] of the array, [None] at the terminator. *)
Definition parse_chunk (arr : list Z) (n_entries sectors data_offset i : Z) : out (option ndif_chunk) :=
  let e := i * BCEM_ENTRY_SIZE in
  word ← rd32 arr e;
  let type := u8 (Z.land word 0xFF) in
  if type =? NDIF_CHUNK_END then Ok None
  else
    let sector := Z.shiftr word 8 in
    next_sector ← (if u32 (i + 1) <? n_entries then nword ← rd32 arr ((i + 1) * BCEM_ENTRY_SIZE); Ok (Z.shiftr nword 8) else Ok sectors);
    offset ← rd32 arr (e + 4);
    length ← rd32 arr (e + 8);
    Ok (Some (mk_chunk sector (if sector <? next_sector then next_sector - sector else 0) type (u32 (offset + data_offset)) length)).
Fixpoint parse_chunks (k : nat) (i : Z) (arr : list Z) (n_entries sectors data_offset : Z) (cs : list ndif_chunk) : out (list ndif_chunk) :=
  match k with
  | O => Ok cs
  | S k =>
      c ← parse_chunk arr n_entries sectors data_offset i;
      match c with
      | None => Ok cs
      | Some c => parse_chunks k (i + 1) arr n_entries sectors data_offset (cs ++ [c])
      end
  end.
Definition ndif_parse (fork : list Z) : out ndif_map :=
  b ← locate_bcem fork;
  refuse (zlen b <? BCEM_HEADER_SIZE) EINVAL;;
  sectors ← rd32 b 0x44;
  data_offset ← rd32 b 0x4C;
  crc ← rd32 b 0x50;
  n_entries ← rd32 b 0x7C;
  refuse ((n_entries =? 0) || (zlen b - BCEM_HEADER_SIZE <? u64 (n_entries * BCEM_ENTRY_SIZE))) EINVAL;;
  nlen ← byte_at b 0x04;
  let nlen := if 63 <? nlen then 63 else nlen in
  name ← window b 0x05 nlen;
  arr ← window b BCEM_HEADER_SIZE (n_entries * BCEM_ENTRY_SIZE);
  cs ← parse_chunks (Z.to_nat n_entries) 0 arr n_entries sectors data_offset [];
  Ok (mk_map sectors crc (name ++ [0]) cs).

(** The bytes of [dst] after a chunk is decoded into it; a NULL [src] is [None]. *)
Definition ndif_decode_chunk (c : ndif_chunk) (src : option (list Z)) (dst : list Z) : out (list Z) :=
  let need := usize (ch_count c * NDIF_SECTOR_SIZE) in
  refuse (zlen dst <? need) EINVAL;;
  if ch_type c =? NDIF_CHUNK_ZERO then poke dst 0 (zeros need)
  else if ch_type c =? NDIF_CHUNK_COPY then
    match src with
    | None => Err EINVAL
    | Some src => refuse (zlen src <? need) EINVAL;; d ← window src 0 need; poke dst 0 d
    end
  else if ch_type c =? NDIF_CHUNK_ADC then
    match src with
    | None => Err EINVAL
    | Some src =>
        o ← or_else (adc_decompress src need) EINVAL;
        dst ← poke dst 0 o;
        if zlen o <? need then poke dst (zlen o) (zeros (need - zlen o)) else Ok dst
    end
  else Err EINVAL.

(** ** Expanding an NDIF file

    The data fork, the scratch file, and what the system makes of the
    transfers to come. *)
Record mat := mk_mat { mat_df : FILE; mat_out : FILE; mat_faults : list io_outcome }.
Definition mat_outcome (m : mat) : io_outcome * mat :=
  match mat_faults m with
  | [] => (Done, m)
  | o :: os => (o, mk_mat (mat_df m) (mat_out m) os)
  end.
(** fread(buf, 1, n, f): the bytes that arrived. *)
Definition fread_bytes (o : io_outcome) (n : Z) (f : FILE) : list Z * FILE :=
  let d := ztake (match o with Done => n | Short k => Z.min k n end) (zdrop (fpos f) (fbytes f)) in
  (d, mk_FILE (fbytes f) (fpos f + zlen d) (fappend f)).
(** One chunk; the new block of [n] bytes the heap gives out holds [junk n]. *)
Definition materialize_chunk (junk : Z -> list Z) (c : ndif_chunk) (m : mat) : out unit * mat :=
  if (ch_type c =? NDIF_CHUNK_ZERO) || (ch_count c =? 0) then (Ok tt, m)
  else
    let need := usize (ch_count c * 512) in
    if truthy (ch_length c) && (sx long_bits (ch_offset c) <? 0) then (Err EIO, m)
    else
      let '(src, m) := if truthy (ch_length c) then
          let '(o, m) := mat_outcome m in
          let '(d, df) := fread_bytes o (ch_length c) (fseek_set (ch_offset c) (mat_df m)) in
          (Some d, mk_mat df (mat_out m) (mat_faults m))
        else (None, m) in
      match ndif_decode_chunk c src (junk need) with
      | Err _ => (Err EINVAL, m)
      | Bad b => (Bad b, m)
      | Ok dst =>
          if 2 ^ (long_bits - 1) <=? ch_sector c * 512 then (Bad SignedOverflow, m)
          else
            let '(o, m) := mat_outcome m in
            let '(ok, f) := fwrite o dst (fseek_set (ch_sector c * 512) (mat_out m)) in
            (if (ok : bool) then Ok tt else Err EIO, mk_mat (mat_df m) f (mat_faults m))
      end.
Fixpoint materialize_chunks (junk : Z -> list Z) (cs : list ndif_chunk) (m : mat) : out unit * mat :=
  match cs with
  | [] => (Ok tt, m)
  | c :: cs =>
      match materialize_chunk junk c m with
      | (Ok tt, m) => materialize_chunks junk cs m
      | r => r
      end
  end.
(** The contents of the scratch file, where the expansion succeeds.  [None] as
    the data fork or as the scratch file is a fopen that fails. *)
Definition materialize_ndif_host (junk : Z -> list Z) (base scratch : option (list Z)) (map : ndif_map) (o : list io_outcome) : out (list Z) :=
  match base, scratch with
  | Some df, Some _ =>
      let m := mk_mat (fopen_rb df) (mk_FILE [] 0 false) o in
      match mat_outcome m with
      | (Short _, _) => Err EIO
      | (Done, m) =>
          let m := mk_mat (mat_df m) (mk_FILE (zeros (nd_sectors map * 512)) 0 false) (mat_faults m) in
          let '(r, m) := materialize_chunks junk (chunks map) m in
          r;;
          match (mat_outcome m).1 with Done => Ok (fbytes (mat_out m)) | Short _ => Err EIO end
      end
  | _, _ => Err EIO
  end.

(** The resource fork of a host file: the AppleDouble files beside it in order,
    then the raw one.  [None] is a file that cannot be read. *)
Record sidecars := mk_sidecars { dot_underscore : option (list Z); percent : option (list Z); dot_rsrc : option (list Z) }.
Definition sidecar_rsrc (raw : option (list Z)) : out (option (list Z)) :=
  match raw with
  | None => Ok None
  | Some raw =>
      detected ← ad_detect raw;
      if (detected : bool) then
        match ad_parse raw with
        | Ok f => Ok (match ad_rsrc f with (Some d, n) => if truthy n then Some d else None | (None, _) => None end)
        | Err _ => Ok None
        | Bad b => Bad b
        end
      else Ok None
  end.
Definition acquire_resource_fork (s : sidecars) : out (option (list Z)) :=
  r ← sidecar_rsrc (dot_underscore s);
  match r with
  | Some d => Ok (Some d)
  | None =>
      r ← sidecar_rsrc (percent s);
      match r with
      | Some d => Ok (Some d)
      | None => Ok (match dot_rsrc s with Some d => if 0 <? zlen d then Some d else None | None => None end)
      end
  end.
(** The contents of the file that is opened instead of [base]: the expanded
    image, the one found under its name in the scratch directory, or [base]. *)
Definition resolve_base_image (junk : Z -> list Z) (base : option (list Z)) (s : sidecars) (cached scratch : option (list Z)) (o : list io_outcome) : out (option (list Z)) :=
  rfork ← acquire_resource_fork s;
  match rfork with
  | None => Ok base
  | Some rfork =>
      detected ← ndif_detect rfork;
      if (detected : bool) then
        match ndif_parse rfork with
        | Bad b => Bad b
        | Err _ => Ok base
        | Ok map =>
            let expand := match materialize_ndif_host junk base scratch map o with
              | Ok f => Ok (Some f) | Err _ => Ok base | Bad b => Bad b end in
            match cached with
            | Some f => if zlen f =? nd_sectors map * 512 then Ok (Some f) else expand
            | None => expand
            end
        end
      else Ok base
  end.
End Resources.
