(* ===== verification/FormatsProofs.v ===== *)
(** * What the format parsers compute

    The rules of the outcome monad, and for every parser of Formats: it stays in
    its buffers whatever it is given, and on a well-formed input it returns what
    the format says. *)
From stdpp Require Import strings.
From S2P Require Import Prelude Stdio Rle StorageProofs Image Formats.
Open Scope Z_scope.

(** ** Outcomes that are as they should be

    [err] and [may] say which errors and which defects are allowed for. *)
Definition sat {A} (err : error -> Prop) (may : defect -> Prop) (P : A -> Prop) (m : out A) : Prop :=
  match m with Ok a => P a | Err e => err e | Bad b => may b end.
(** Errors are allowed, leaving a buffer or running on for ever is not. *)
Definition safe {A} : (A -> Prop) -> out A -> Prop := sat (fun _ => True) (fun _ => False).
(** It returns. *)
Definition yields {A} : (A -> Prop) -> out A -> Prop := sat (fun _ => False) (fun _ => False).
Definition peek (n : Z) (l : list Z) (o : Z) : Z := unbe (ztake n (zdrop o l)).

Section Sat.
Context {A B : Type} (err : error -> Prop) (may : defect -> Prop).
Implicit Types (P : A -> Prop) (Q : B -> Prop).
Lemma sat_bind P Q (m : out A) (k : A -> out B) : sat err may P m -> (forall a, P a -> sat err may Q (k a)) -> sat err may Q (m ≫= k).
Proof. destruct m; cbn; auto. Qed.
Lemma sat_mono P P' (m : out A) : sat err may P m -> (forall a, P a -> P' a) -> sat err may P' m.
Proof. destruct m; cbn; auto. Qed.
Lemma sat_refuse Q b e (k : unit -> out B) : (b = true -> err e) -> (b = false -> sat err may Q (k tt)) -> sat err may Q (refuse b e ≫= k).
Proof. destruct b; cbn; auto. Qed.
Lemma sat_ret P a : P a -> sat err may P (Ok a).
Proof. done. Qed.
Lemma sat_refuse_last (P : unit -> Prop) b e : (b = true -> err e) -> (b = false -> P tt) -> sat err may P (refuse b e).
Proof. destruct b; cbn; auto. Qed.
Lemma sat_or_else P (m : out A) e : err e -> sat (fun _ => True) may P m -> sat err may P (or_else m e).
Proof. destruct m; cbn; auto. Qed.
End Sat.
Lemma sat_weaken {A} err err' may P (m : out A) : (forall e, err e -> err' e) -> sat err may P m -> sat err' may P m.
Proof. destruct m; cbn; auto. Qed.
Lemma yields_ok {A} (P : A -> Prop) m : yields P m <-> exists a, m = Ok a /\ P a.
Proof. unfold yields. destruct m; cbn; (split; [try done; by eexists|by intros (? & [= <-] & ?)]). Qed.
Lemma sat_for_from {A} err may (I : Z -> A -> Prop) body : forall n i a, I i a ->
  (forall j b, i <= j < i + Z.of_nat n -> I j b -> sat err may (I (j + 1)) (body j b)) -> sat err may (I (i + Z.of_nat n)) (for_ n i body a).
Proof.
  induction n as [|n IH]; intros i a Ha Hb; [by rewrite Z.add_0_r|]. cbn [for_].
  replace (i + Z.of_nat (S n)) with (i + 1 + Z.of_nat n) by lia.
  apply (sat_bind _ _ (I (i + 1))); [apply Hb; [lia|done]|]. intros b Hb'. apply IH; [done|]. intros j c ?. apply Hb. lia.
Qed.
Lemma sat_for {A} err may (I : Z -> A -> Prop) body n a : 0 <= n -> I 0 a ->
  (forall j b, 0 <= j < n -> I j b -> sat err may (I (j + 1)) (body j b)) -> sat err may (I n) (for_ (Z.to_nat n) 0 body a).
Proof.
  intros Hn Ha Hb. rewrite <-(Z2Nat.id n) at 1 by done. apply sat_for_from; [done|]. intros j b Hj. apply Hb. lia.
Qed.
Lemma for_from {A} (f : Z -> A) body : forall n i,
  (forall j, i <= j < i + Z.of_nat n -> body j (f j) = Ok (f (j + 1))) -> for_ n i body (f i) = Ok (f (i + Z.of_nat n)).
Proof.
  induction n as [|n IH]; intros i H; [by rewrite Z.add_0_r|]. cbn [for_]. rewrite (H i) by lia. cbn.
  rewrite IH by (intros; apply H; lia). do 2 f_equal. lia.
Qed.
Lemma for_ok {A} (f : Z -> A) body n a : 0 <= n -> a = f 0 ->
  (forall j, 0 <= j < n -> body j (f j) = Ok (f (j + 1))) -> for_ (Z.to_nat n) 0 body a = Ok (f n).
Proof. intros Hn -> Hb. rewrite for_from by (intros; apply Hb; lia). do 2 f_equal. lia. Qed.
#[global] Opaque sat.


(** ** Checked accesses *)
Lemma unbe_range l : is_byte_list l -> in_width (8 * zlen l) (unbe l).
Proof.
  intros H. unfold unbe. replace (zlen l) with (zlen (rev l)) by (unfold zlen; by rewrite length_rev).
  apply unle_range, Forall_rev, H.
Qed.
Lemma unbe_be n v : in_width (8 * Z.of_nat n) v -> unbe (be n v) = v.
Proof. intros. unfold unbe, be. rewrite rev_involutive. by apply unle_le_id. Qed.
Lemma zlen_rev {A} (l : list A) : zlen (rev l) = zlen l.
Proof. unfold zlen. by rewrite length_rev. Qed.
Lemma zlen_be n v : zlen (be n v) = Z.of_nat n.
Proof. unfold be. by rewrite zlen_rev, zlen_le. Qed.
#[export] Hint Rewrite zlen_be @zlen_rev : zlen.
Lemma bytes_slice o n l : is_byte_list l -> is_byte_list (ztake n (zdrop o l)).
Proof. intros. by apply Forall_take, Forall_drop. Qed.
Lemma peek_range n l o : is_byte_list l -> 0 <= n -> 0 <= o -> o + n <= zlen l -> in_width (8 * n) (peek n l o).
Proof.
  intros Hl ? ? ?. unfold peek. replace n with (zlen (ztake n (zdrop o l))) at 1 by (zlens; lia).
  by apply unbe_range, bytes_slice.
Qed.
Lemma window_in l o n : 0 <= o -> 0 <= n -> o + n <= zlen l -> window l o n = Ok (ztake n (zdrop o l)).
Proof. intros. unfold window. by rewrite read_at_in. Qed.
Lemma rd32_in l o : 0 <= o -> o + 4 <= zlen l -> rd32 l o = Ok (peek 4 l o).
Proof. intros. unfold rd32. by rewrite window_in by lia. Qed.
Lemma rd16_in l o : 0 <= o -> o + 2 <= zlen l -> rd16 l o = Ok (peek 2 l o).
Proof. intros. unfold rd16. by rewrite window_in by lia. Qed.
Lemma byte_at_in l i : 0 <= i < zlen l -> exists b, l !! Z.to_nat i = Some b /\ byte_at l i = Ok b.
Proof.
  intros Hi. unfold byte_at, zlen in *. destruct (Z.ltb_spec i 0); [lia|].
  destruct (lookup_lt_is_Some_2 l (Z.to_nat i)) as [b E]; [lia|]. exists b. by rewrite E.
Qed.
Lemma slice_all {A} n (l : list A) : zlen l = n -> ztake n (zdrop 0 l) = l.
Proof. intros E. unfold ztake, zdrop, zlen in *. apply take_ge. cbn. lia. Qed.
Lemma poke_in l o d : 0 <= o -> o + zlen d <= zlen l -> poke l o d = Ok (write_at l o d).
Proof. intros. unfold poke. zprune. done. Qed.
Lemma zlen_write_inside l o d : 0 <= o -> o + zlen d <= zlen l -> zlen (write_at l o d) = zlen l.
Proof.
  intros. destruct (Z.eq_dec (zlen d) 0) as [E|E]; [unfold write_at; by rewrite E|]. rewrite zlen_write_at by done. lia.
Qed.
Lemma bytes_write l o d : is_byte_list l -> is_byte_list d -> is_byte_list (write_at l o d).
Proof.
  intros Hl Hd. unfold write_at. destruct (_ =? _); [done|]. apply Forall_app; split; [|apply Forall_app; split; [done|by apply Forall_drop]].
  apply Forall_take, Forall_app. split; [done|]. apply Forall_replicate. lia.
Qed.
Lemma bytes_be n v : is_byte_list (be n v).
Proof. apply Forall_rev, le_bytes. Qed.
Lemma bytes_zeros n : is_byte_list (zeros n).
Proof. apply Forall_replicate. lia. Qed.
#[export] Hint Resolve bytes_write bytes_be bytes_zeros bytes_slice : width.

(** The steps of a proof that a parser is safe: each access leaves its bound to
    be shown and its result in range. *)
Section Steps.
Context {B : Type} (err : error -> Prop) (may : defect -> Prop).
Implicit Types (Q : B -> Prop).
Lemma sat_window Q l o n (k : list Z -> out B) : 0 <= o /\ 0 <= n /\ o + n <= zlen l ->
  sat err may Q (k (ztake n (zdrop o l))) -> sat err may Q (window l o n ≫= k).
Proof. intros (? & ? & ?) HQ. by rewrite window_in. Qed.
Lemma sat_rd32 Q l o (k : Z -> out B) : is_byte_list l -> 0 <= o /\ o + 4 <= zlen l ->
  (0 <= peek 4 l o < 4294967296 -> sat err may Q (k (peek 4 l o))) -> sat err may Q (rd32 l o ≫= k).
Proof. intros Hl (? & ?) HQ. rewrite rd32_in by done. apply HQ. by apply (peek_range 4). Qed.
Lemma sat_rd16 Q l o (k : Z -> out B) : is_byte_list l -> 0 <= o /\ o + 2 <= zlen l ->
  (0 <= peek 2 l o < 65536 -> sat err may Q (k (peek 2 l o))) -> sat err may Q (rd16 l o ≫= k).
Proof. intros Hl (? & ?) HQ. rewrite rd16_in by done. apply HQ. by apply (peek_range 2). Qed.
Lemma sat_byte Q l i (k : Z -> out B) : is_byte_list l -> 0 <= i < zlen l ->
  (forall b, l !! Z.to_nat i = Some b -> 0 <= b < 256 -> sat err may Q (k b)) -> sat err may Q (byte_at l i ≫= k).
Proof.
  intros Hl Hi HQ. destruct (byte_at_in l i Hi) as (b & E & ->). apply HQ; [done|]. by apply (Forall_lookup_1 _ _ _ _ Hl E).
Qed.
Lemma sat_poke Q l o d (k : list Z -> out B) : 0 <= o /\ o + zlen d <= zlen l ->
  sat err may Q (k (write_at l o d)) -> sat err may Q (poke l o d ≫= k).
Proof. intros (? & ?) HQ. by rewrite poke_in. Qed.
Lemma sat_emit Q cap b o (k : list Z -> out B) : zlen o < cap -> sat err may Q (k (o ++ [b])) -> sat err may Q (emit cap b o ≫= k).
Proof. intros Ho HQ. unfold emit. by destruct (Z.ltb_spec (zlen o) cap); [|lia]. Qed.
End Steps.

Ltac ad_consts := unfold ad_desc, AD_HDR_FIXED, AD_NENTRIES_OFF, AD_MAX_ENTRIES, AD_DESC_SIZE in *.
Ltac sat_steps := repeat first
  [ apply sat_refuse; [done || lia|intros ?]
  | apply sat_rd32; [by auto with width|lia|intros ?]
  | apply sat_rd16; [by auto with width|lia|intros ?]
  | apply sat_window; [lia|]
  | apply sat_byte; [by auto with width|lia|intros ???] ].

(** Reads of what was written, and of the rest. *)
Lemma peek_read n l o : 0 <= n -> 0 <= o -> o + n <= zlen l -> read_at l o n = Some (ztake n (zdrop o l)).
Proof. intros. by apply read_at_in. Qed.
Lemma slice_same l o d : 0 <= o -> o + zlen d <= zlen l -> ztake (zlen d) (zdrop o (write_at l o d)) = d.
Proof.
  intros Ho Hl. pose proof (zlen_nonneg d). destruct (Z.eq_dec (zlen d) 0) as [E|E].
  { rewrite E. symmetry. by apply zlen_0. }
  pose proof (read_write_same l o d Ho E) as Hr. rewrite read_at_in in Hr by (rewrite ?zlen_write_inside; lia). by injection Hr.
Qed.
Lemma slice_other l o d p n : 0 <= o -> o + zlen d <= zlen l -> 0 <= p -> 0 <= n -> p + n <= zlen l ->
  p + n <= o \/ o + zlen d <= p -> ztake n (zdrop p (write_at l o d)) = ztake n (zdrop p l).
Proof.
  intros Ho Hd Hp Hn Hl Hx. pose proof (read_write_other l o d p n Ho Hp Hl Hx) as Hr.
  rewrite !read_at_in in Hr by (rewrite ?zlen_write_inside; lia). by injection Hr.
Qed.
Lemma peek_same n l o v : 0 <= o -> o + Z.of_nat n <= zlen l -> in_width (8 * Z.of_nat n) v ->
  peek (Z.of_nat n) (write_at l o (be n v)) o = v.
Proof.
  intros Ho Hl Hv. unfold peek. rewrite <-(zlen_be n v) at 1. rewrite slice_same by (rewrite ?zlen_be; lia). by apply unbe_be.
Qed.
Lemma peek_other n l o d p : 0 <= o -> o + zlen d <= zlen l -> 0 <= p -> 0 <= n -> p + n <= zlen l ->
  p + n <= o \/ o + zlen d <= p -> peek n (write_at l o d) p = peek n l p.
Proof. intros. unfold peek. by rewrite slice_other. Qed.

Section Formats.
Context `{!Abi} `{!AbiOk _}.

Lemma usize_512 x : 0 <= x < 512 -> usize x = x.
Proof.
  intros. apply wrap_small. split; [lia|]. pose proof long_pos. pose proof long_size.
  assert (2 ^ 9 <= 2 ^ size_bits) by (apply Z.pow_le_mono_r; lia). lia.
Qed.

(** ** AppleDouble headers *)
Definition ad_view (buf : list Z) (i : Z) : ad_entry :=
  let len := peek 4 buf (ad_desc i + 8) in
  mk_entry (peek 4 buf (ad_desc i)) (if len =? 0 then None else Some (ztake len (zdrop (peek 4 buf (ad_desc i + 4)) buf))) len.
Record ad_header (buf : list Z) (n : Z) : Prop := {
  adh_fixed : AD_HDR_FIXED <= zlen buf;
  adh_magic : magic_ok (peek 4 buf 0) = true;
  adh_version : peek 4 buf 4 = APPLE_FORK_VERSION;
  adh_n : n = peek 2 buf AD_NENTRIES_OFF;
  adh_count : 1 <= n <= AD_MAX_ENTRIES;
  adh_table : ad_desc n <= zlen buf;
  adh_entry i : 0 <= i < n -> peek 4 buf (ad_desc i) <> 0 /\ peek 4 buf (ad_desc i + 4) + peek 4 buf (ad_desc i + 8) <= zlen buf;
}.
Definition ad_file_of (buf : list Z) (n : Z) : ad_file :=
  foldl (fun f i => ad_record (ad_view buf i) f)
    (mk_ad_file (peek 4 buf 0) (peek 4 buf 4) [] (None, 0) (None, 0) (None, 0)) (seqZ 0 n).

Lemma u64_sum a b : 0 <= a < 4294967296 -> 0 <= b < 4294967296 -> u64 (a + b) = a + b.
Proof. intros. apply (wrap_small 64). split; [lia|]. change (2 ^ 64) with 18446744073709551616. lia. Qed.
Lemma header_valid_sound buf : is_byte_list buf -> safe (ad_header buf) (header_valid buf).
Proof.
  intros Hb. unfold header_valid. ad_consts. sat_steps.
  set (n := peek 2 buf 24) in *. rewrite usize_512 in * by lia.
  apply (sat_bind _ _ (fun _ => forall i, 0 <= i < n -> peek 4 buf (ad_desc i) <> 0 /\ peek 4 buf (ad_desc i + 4) + peek 4 buf (ad_desc i + 8) <= zlen buf)).
  - apply (sat_for _ _ (fun j _ => forall i, 0 <= i < j -> peek 4 buf (ad_desc i) <> 0 /\ peek 4 buf (ad_desc i + 4) + peek 4 buf (ad_desc i + 8) <= zlen buf)); [lia..|].
    intros j [] Hj IH. ad_consts. sat_steps. rewrite u64_sum by lia.
    apply sat_refuse_last; [done|]. intros Hl i Hi. destruct (Z.eq_dec i j) as [->|]; [lia|]. apply IH. lia.
  - intros _ He. apply sat_ret. split; ad_consts; try done; try lia. by destruct (magic_ok _).
Qed.
Lemma header_valid_ok buf n : is_byte_list buf -> ad_header buf n -> header_valid buf = Ok n.
Proof.
  intros Hb []. unfold header_valid. ad_consts.
  rewrite !rd32_in, rd16_in by lia. cbn. rewrite adh_magic0, adh_version0, <-adh_n0, Z.eqb_refl, usize_512 by lia. unfold refuse. zprune. cbn.
  rewrite (for_ok (fun _ => tt)); [done|lia|done|]. intros j Hj. destruct (adh_entry0 j) as [Hi He]; [lia|].
  assert (forall o, 0 <= o -> o + 4 <= zlen buf -> 0 <= peek 4 buf o < 4294967296) as Hr by (intros; by apply (peek_range 4)).
  rewrite !rd32_in by lia. cbn. pose proof (Hr (26 + j * 12 + 4)). pose proof (Hr (26 + j * 12 + 8)).
  rewrite u64_sum by lia. zprune. done.
Qed.
Lemma ad_parse_ok buf n : is_byte_list buf -> ad_header buf n -> ad_parse buf = Ok (ad_file_of buf n).
Proof.
  intros Hb Hh. pose proof Hh as []. unfold ad_parse. rewrite (header_valid_ok buf n) by done. cbn.
  ad_consts. rewrite !rd32_in by lia. cbn.
  apply (for_ok (fun i => ad_file_of buf i)); [lia|done|]. intros j Hj. destruct (adh_entry0 j) as [Hi He]; [lia|].
  assert (forall o, 0 <= o -> o + 4 <= zlen buf -> 0 <= peek 4 buf o < 4294967296) as Hr by (intros; by apply (peek_range 4)).
  pose proof (Hr (26 + j * 12 + 4)). pose proof (Hr (26 + j * 12 + 8)). rewrite !rd32_in by lia. cbn.
  unfold ad_file_of. replace (j + 1) with (Z.of_nat (S (Z.to_nat j))) by lia. rewrite seqZ_S, foldl_app, Z2Nat.id by lia. cbn.
  unfold ad_view at 2, ad_desc, AD_HDR_FIXED, AD_DESC_SIZE, truthy. zprune.
  all: rewrite ?window_in by lia; done.
Qed.

(** ** Building an AppleDouble file *)
Definition entry_ok (single : bool) (e : ad_entry) : Prop :=
  0 < ad_id e < 4294967296 /\ (single = false -> ad_id e <> AD_ENTRY_DATA) /\
  match ad_bytes e with Some d => is_byte_list d /\ ad_len e = zlen d /\ 0 < zlen d | None => ad_len e = 0 end.
Definition ad_offset (es : list ad_entry) (i : Z) : Z := foldl (fun t e => t + ad_len e) (ad_desc (zlen es)) (ztake i es).
Record ad_buildable (single : bool) (es : list ad_entry) : Prop := {
  adb_count : 1 <= zlen es <= AD_MAX_ENTRIES;
  adb_entries : Forall (entry_ok single) es;
  adb_total : ad_offset es (zlen es) < 4294967296;
}.

Section Build.
Context (single : bool) (es : list ad_entry) (Hes : ad_buildable single es) (Hsize : 32 <= size_bits).

Lemma entry_len e : entry_ok single e -> 0 <= ad_len e.
Proof. intros (? & ? & ?). destruct (ad_bytes e); lia. Qed.
Lemma offset_next i e : es !! Z.to_nat i = Some e -> 0 <= i -> ad_offset es (i + 1) = ad_offset es i + ad_len e.
Proof.
  intros E Hi. unfold ad_offset, ztake. rewrite Z2Nat.inj_add by lia. change (Z.to_nat 1) with 1%nat. rewrite Nat.add_1_r.
  rewrite (take_S_r _ _ _ E), foldl_app. done.
Qed.
Lemma offset_mono : forall n (i : nat), ad_offset es (Z.of_nat i) <= ad_offset es (Z.of_nat i + Z.of_nat n).
Proof.
  induction n as [|n IH]; intros i; [rewrite Z.add_0_r; lia|].
  destruct (decide (i + n < length es)%nat) as [Hl|Hl].
  - apply lookup_lt_is_Some in Hl as [e E]. replace (Z.of_nat i + Z.of_nat (S n)) with (Z.of_nat (i + n) + 1) by lia.
    rewrite (offset_next _ e) by (rewrite ?Nat2Z.id; done || lia). rewrite Nat2Z.inj_add.
    pose proof (Forall_lookup_1 _ _ _ _ (adb_entries _ _ Hes) E) as Hk%entry_len. specialize (IH i). lia.
  - etrans; [apply (IH i)|]. unfold ad_offset, ztake. by rewrite !(take_ge es) by lia.
Qed.
Lemma offset_le i j : 0 <= i <= j -> ad_offset es i <= ad_offset es j.
Proof.
  intros. pose proof (offset_mono (Z.to_nat (j - i)) (Z.to_nat i)) as Hm. rewrite !Z2Nat.id in Hm by lia.
  by replace (i + (j - i)) with j in Hm by lia.
Qed.

Definition ad_start : Z := if single then APPLESINGLE_MAGIC else APPLEDOUBLE_MAGIC.
(** The buffer after [i] entries. *)
Record ad_built (i : Z) (buf : list Z) : Prop := {
  bt_bytes : is_byte_list buf;
  bt_len : zlen buf = ad_offset es (zlen es);
  bt_magic : peek 4 buf 0 = ad_start;
  bt_version : peek 4 buf 4 = APPLE_FORK_VERSION;
  bt_n : peek 2 buf AD_NENTRIES_OFF = zlen es;
  bt_entry j e : 0 <= j < i -> es !! Z.to_nat j = Some e ->
    peek 4 buf (ad_desc j) = ad_id e /\ peek 4 buf (ad_desc j + 4) = ad_offset es j /\ peek 4 buf (ad_desc j + 8) = ad_len e /\
    ztake (ad_len e) (zdrop (ad_offset es j) buf) = default [] (ad_bytes e);
}.
Lemma offset_bounds i : 0 <= i <= zlen es ->
  ad_desc (zlen es) <= ad_offset es i /\ ad_offset es i <= ad_offset es (zlen es) /\ ad_offset es (zlen es) < 4294967296.
Proof. intros Hi. split_and!; [by apply (offset_le 0); lia|by apply offset_le; lia|apply Hes]. Qed.
Lemma entry_at i : 0 <= i < zlen es -> exists e, es !! Z.to_nat i = Some e /\ entry_ok single e.
Proof.
  intros Hi. destruct (lookup_lt_is_Some_2 es (Z.to_nat i)) as [e E]; [unfold zlen in Hi; lia|].
  exists e. split; [done|]. by apply (Forall_lookup_1 _ _ _ _ (adb_entries _ _ Hes) E).
Qed.
(** Writes to the free part of the buffer. *)
Lemma built_write i buf o d : 0 <= i < zlen es -> is_byte_list d ->
  (ad_desc i <= o /\ o + zlen d <= ad_desc (i + 1)) \/ (ad_offset es i <= o /\ o + zlen d <= ad_offset es (zlen es)) ->
  ad_built i buf -> ad_built i (write_at buf o d).
Proof.
  intros Hi Hd Ho []. pose proof (offset_bounds i). pose proof (zlen_nonneg d). ad_consts.
  assert (forall p n, 0 <= p -> 0 <= n -> p + n <= 26 + i * 12 \/ (26 + zlen es * 12 <= p /\ p + n <= ad_offset es i) ->
    ztake n (zdrop p (write_at buf o d)) = ztake n (zdrop p buf)) as Hs by (intros; apply slice_other; lia).
  assert (forall p n, 0 <= p -> 0 <= n -> p + n <= 26 + i * 12 -> peek n (write_at buf o d) p = peek n buf p) as Hp
    by (intros; unfold peek; rewrite Hs; [done|lia..]).
  split; ad_consts; rewrite ?Hp by lia; auto with width; [by rewrite zlen_write_inside by lia|].
  intros j e Hj E. destruct (bt_entry0 j e Hj E) as (? & ? & ? & ?). rewrite !Hp by lia. split_and!; try done.
  pose proof (offset_le 0 j). pose proof (offset_le (j + 1) i). pose proof (offset_next j e E). pose proof (offset_bounds j).
  destruct (entry_at j) as (e' & E' & He%entry_len); [lia|]. rewrite E in E'. injection E' as <-. ad_consts. rewrite Hs by lia. done.
Qed.

Lemma usize_32 x : 0 <= x < 4294967296 -> usize x = x.
Proof.
  intros. apply wrap_small. assert (2 ^ 32 <= 2 ^ size_bits) by (apply Z.pow_le_mono_r; lia).
  split; [lia|]. change (2 ^ 32) with 4294967296 in *. lia.
Qed.
Lemma total_ok : forall n : nat, (n <= length es)%nat ->
  foldl (fun t e => usize (t + ad_len e)) (ad_desc (zlen es)) (take n es) = ad_offset es (Z.of_nat n).
Proof.
  induction n as [|n IH]; intros Hn; [done|]. destruct (entry_at (Z.of_nat n)) as (e & E & He); [unfold zlen; lia|].
  pose proof (offset_next (Z.of_nat n) e E). rewrite Nat2Z.id in *. rewrite (take_S_r _ _ _ E), foldl_app, IH by lia. cbn.
  replace (Z.of_nat (S n)) with (Z.of_nat n + 1) by lia. pose proof (offset_bounds (Z.of_nat n + 1)). pose proof (offset_bounds (Z.of_nat n)). apply entry_len in He.
  unfold zlen in *. ad_consts. rewrite usize_32 by lia. lia.
Qed.
Lemma wr32_in buf o v : 0 <= o -> o + 4 <= zlen buf -> wr32 buf o v = Ok (write_at buf o (be 4 v)).
Proof. intros. unfold wr32. rewrite poke_in; by rewrite ?zlen_be. Qed.
Lemma wr16_in buf o v : 0 <= o -> o + 2 <= zlen buf -> wr16 buf o v = Ok (write_at buf o (be 2 v)).
Proof. intros. unfold wr16. rewrite poke_in; by rewrite ?zlen_be. Qed.

(** One turn of the loop of ad_build. *)
Lemma build_step i e buf : 0 <= i < zlen es -> es !! Z.to_nat i = Some e -> ad_built i buf ->
  yields (fun r => ad_built (i + 1) r.1 /\ r.2 = ad_offset es (i + 1))
    (buf ← wr32 buf (ad_desc i) (ad_id e);
     buf ← wr32 buf (ad_desc i + 4) (u32 (ad_offset es i));
     buf ← wr32 buf (ad_desc i + 8) (u32 (ad_len e));
     buf ← (if truthy (ad_len e) then d ← window (default [] (ad_bytes e)) 0 (ad_len e); poke buf (ad_offset es i) d else Ok buf);
     Ok (buf, usize (ad_offset es i + ad_len e))).
Proof.
  intros Hi E Hb. pose proof (offset_bounds i) as H0. pose proof (offset_bounds (i + 1)) as H1. pose proof (offset_next i e E) as Hn.
  pose proof (adb_count _ _ Hes). destruct (entry_at i Hi) as (e' & E' & He). rewrite E in E'. injection E' as <-. pose proof (entry_len e He) as Hl.
  destruct He as (Hid & _ & Hby). pose proof (bt_len _ _ Hb) as Hz. ad_consts.
  rewrite (u32_small (ad_len e)), (u32_small (ad_offset es i)), usize_32 by (unfold in_width; pow2; lia).
  assert (forall b o v, zlen b = zlen buf -> 26 + i * 12 <= o <= 26 + i * 12 + 8 -> wr32 b o v = Ok (write_at b o (be 4 v)) /\ zlen (write_at b o (be 4 v)) = zlen buf) as Hw.
  { intros b o v Eb Ho. rewrite wr32_in by lia. split; [done|]. rewrite zlen_write_inside; rewrite ?zlen_be; lia. }
  destruct (Hw buf (26 + i * 12) (ad_id e)) as [-> L1]; [lia..|]. set (b1 := write_at buf _ _) in *. cbn [mbind out_bind].
  destruct (Hw b1 (26 + i * 12 + 4) (ad_offset es i)) as [-> L2]; [lia..|]. set (b2 := write_at b1 _ _) in *. cbn [mbind out_bind].
  destruct (Hw b2 (26 + i * 12 + 8) (ad_len e)) as [-> L3]; [lia..|]. set (b3 := write_at b2 _ _) in *. cbn [mbind out_bind].
  set (d := default [] (ad_bytes e)). assert (zlen d = ad_len e /\ is_byte_list d) as [Hd Hdb].
  { unfold d. destruct (ad_bytes e); cbn; [by destruct Hby as (? & ? & ?)|]. rewrite Hby. by split; [|constructor]. }
  assert ((if truthy (ad_len e) then d ← window d 0 (ad_len e); poke b3 (ad_offset es i) d else Ok b3) = Ok (write_at b3 (ad_offset es i) d)) as ->.
  { unfold truthy. destruct (Z.eqb_spec (ad_len e) 0) as [E0|]; cbn.
    - unfold write_at. by rewrite Hd, E0.
    - rewrite window_in, slice_all by lia. apply poke_in; lia. }
  apply sat_ret. cbn [fst snd]. split; [|lia].
  assert (ad_built i b3) as Hb3.
  { unfold b3, b2, b1. repeat apply built_write; rewrite ?zlen_be; ad_consts; auto with width; lia. }
  assert (peek 4 b3 (26 + i * 12) = ad_id e /\ peek 4 b3 (26 + i * 12 + 4) = ad_offset es i /\ peek 4 b3 (26 + i * 12 + 8) = ad_len e) as (P1 & P2 & P3).
  { split_and!.
    - unfold b3. rewrite peek_other by (rewrite ?zlen_be; lia). unfold b2. rewrite peek_other by (rewrite ?zlen_be; lia).
      apply (peek_same 4); unfold in_width; pow2; lia.
    - unfold b3. rewrite peek_other by (rewrite ?zlen_be; lia). apply (peek_same 4); unfold in_width; pow2; lia.
    - apply (peek_same 4); unfold in_width; pow2; lia. }
  assert (ad_built i (write_at b3 (ad_offset es i) d)) as [] by (apply built_write; ad_consts; auto; lia).
  split; auto. intros j e' Hj E'. destruct (Z.eq_dec j i) as [->|]; [|apply bt_entry0; [lia|done]].
  rewrite E in E'. injection E' as <-. ad_consts. rewrite !peek_other by lia. split_and!; try done.
  rewrite <-Hd at 1. apply slice_same; [lia|fold d; lia].
Qed.

(** What ad_parse makes of entries. *)
Definition ad_file_with : ad_file :=
  foldl (fun f e => ad_record e f) (mk_ad_file ad_start APPLE_FORK_VERSION [] (None, 0) (None, 0) (None, 0)) es.
Lemma built_start : exists buf, zlen buf = ad_offset es (zlen es) /\
  (buf ← wr32 (zeros (ad_offset es (zlen es))) 0 ad_start; buf ← wr32 buf 4 APPLE_FORK_VERSION; wr16 buf AD_NENTRIES_OFF (u16 (zlen es))) = Ok buf /\
  ad_built 0 buf.
Proof.
  pose proof (offset_bounds 0) as H0. pose proof (adb_count _ _ Hes). set (total := ad_offset es (zlen es)) in *. ad_consts.
  assert (zlen (zeros total) = total) as L0 by (apply zlen_zeros; lia). set (b0 := zeros total) in *.
  rewrite wr32_in by lia. cbn [mbind out_bind]. set (b1 := write_at b0 _ _).
  assert (zlen b1 = total) as L1 by (unfold b1; rewrite zlen_write_inside; rewrite ?zlen_be; lia).
  rewrite wr32_in by lia. cbn [mbind out_bind]. set (b2 := write_at b1 _ _).
  assert (zlen b2 = total) as L2 by (unfold b2; rewrite zlen_write_inside; rewrite ?zlen_be; lia).
  rewrite wr16_in by lia. set (b3 := write_at b2 _ _).
  assert (zlen b3 = total) as L3 by (unfold b3; rewrite zlen_write_inside; rewrite ?zlen_be; lia).
  exists b3. split; [done|]. split; [done|]. split; ad_consts; try done.
  - unfold b3, b2, b1, b0. auto with width.
  - unfold b3. rewrite peek_other by (rewrite ?zlen_be; lia). unfold b2. rewrite peek_other by (rewrite ?zlen_be; lia).
    apply (peek_same 4); [lia..|]. unfold ad_start. by destruct single.
  - unfold b3. rewrite (wrap_small 16) by (unfold in_width; pow2; lia). apply (peek_same 2); unfold in_width; pow2; lia.
  - lia.
Qed.
Lemma built_header buf : ad_built (zlen es) buf -> ad_header buf (zlen es) /\ forall i e, 0 <= i < zlen es -> es !! Z.to_nat i = Some e -> ad_view buf i = e.
Proof.
  intros []. pose proof (adb_count _ _ Hes). pose proof (offset_bounds 0). split.
  - split; ad_consts; try done; try lia.
    + rewrite bt_magic0. unfold ad_start. by destruct single.
    + intros i Hi. destruct (entry_at i Hi) as (e & E & He). destruct (bt_entry0 i e Hi E) as (-> & -> & -> & _).
      pose proof (offset_next i e E). pose proof (offset_bounds (i + 1)). destruct He. lia.
  - intros i e Hi E. unfold ad_view. destruct (bt_entry0 i e Hi E) as (-> & -> & -> & Hd). destruct (entry_at i Hi) as (e' & E' & He).
    rewrite E in E'. injection E' as <-. destruct He as (_ & _ & Hby). destruct e as [id [d|] len]; cbn in *.
    + destruct (Z.eqb_spec len 0); [lia|]. by rewrite Hd.
    + by subst.
Qed.
Lemma ad_file_same buf : ad_built (zlen es) buf -> ad_file_of buf (zlen es) = ad_file_with.
Proof.
  intros Hb. destruct (built_header buf Hb) as [_ Hv]. destruct Hb. unfold ad_file_of, ad_file_with. rewrite bt_magic0, bt_version0.
  generalize (mk_ad_file ad_start APPLE_FORK_VERSION [] (None, 0) (None, 0) (None, 0)). intros f.
  assert (forall n : nat, (n <= length es)%nat ->
    foldl (fun f i => ad_record (ad_view buf i) f) f (seqZ 0 (Z.of_nat n)) = foldl (fun f e => ad_record e f) f (take n es)) as Hn.
  { induction n as [|n IH]; intros Hl; [done|]. destruct (entry_at (Z.of_nat n)) as (e & E & _); [unfold zlen; lia|].
    rewrite Nat2Z.id in E. rewrite seqZ_S, (take_S_r _ _ _ E), !foldl_app, IH by lia. cbn. rewrite (Hv _ e); [done|unfold zlen; lia|by rewrite Z.add_0_l, Nat2Z.id]. }
  unfold zlen. rewrite Hn by done. by rewrite take_ge.
Qed.
Lemma entries_accepted :
  existsb (fun e => (ad_id e =? 0) || (truthy (ad_len e) && bool_decide (ad_bytes e = None)) || (negb single && (ad_id e =? AD_ENTRY_DATA))) es = false.
Proof.
  destruct (existsb _ es) eqn:E; [|done]. apply existsb_exists in E as (e & Hin & He).
  pose proof (adb_entries _ _ Hes) as Hall. rewrite List.Forall_forall in Hall. apply Hall in Hin as (? & Hd & Hby).
  destruct (Z.eqb_spec (ad_id e) 0); [lia|]. unfold truthy in He. destruct (ad_bytes e); cbn in He.
  - rewrite andb_false_r in He. destruct single; cbn in He; [done|]. by apply Z.eqb_eq, Hd in He.
  - rewrite Hby in He. destruct single; cbn in He; [done|]. by apply Z.eqb_eq, Hd in He.
Qed.
Lemma ad_build_ok : exists buf, ad_build single es = Ok buf /\ is_byte_list buf /\ ad_parse buf = Ok ad_file_with.
Proof.
  pose proof (adb_count _ _ Hes) as Hc. pose proof (offset_bounds 0). unfold ad_build.
  destruct (_ || _) eqn:E1; [ad_consts; lia|]. cbn [refuse mbind out_bind].
  rewrite entries_accepted.
  cbn [refuse mbind out_bind]. rewrite (usize_512 (AD_HDR_FIXED + _)) by (ad_consts; lia).
  pose proof (total_ok (length es)) as Ht. rewrite firstn_all in Ht. change (AD_HDR_FIXED + zlen es * AD_DESC_SIZE) with (ad_desc (zlen es)).
  rewrite Ht by done. change (Z.of_nat (length es)) with (zlen es). fold ad_start.
  destruct built_start as (b0 & Hz & Hb0 & Hbuilt).
  destruct (wr32 (zeros (ad_offset es (zlen es))) 0 ad_start) as [b1| |]; [|done..]. cbn [mbind out_bind] in *.
  destruct (wr32 b1 4 APPLE_FORK_VERSION) as [b2| |]; [|done..]. cbn [mbind out_bind] in *. rewrite Hb0. cbn [mbind out_bind].
  match goal with |- context [for_ _ 0 ?body (b0, ?h)] => set (f := body);
    assert (yields (fun r => ad_built (zlen es) r.1) (for_ (Z.to_nat (zlen es)) 0 f (b0, h))) as Hf end.
  { eapply sat_mono; [apply (sat_for _ _ (fun i r => ad_built i r.1 /\ r.2 = ad_offset es i)); [lia|done|]|by intros r [? ?]].
    intros i [buf p] Hi [Hbi Hp]. cbn in Hbi, Hp. subst p. unfold f. destruct (entry_at i Hi) as (e & E & _). rewrite E. by apply build_step. }
  apply yields_ok in Hf as ([buf p] & Ef & Hbf). unfold zlen in Ef at 1. rewrite Nat2Z.id in Ef. rewrite Ef. cbn. exists buf. cbn in Hbf.
  split; [done|]. split; [apply Hbf|]. rewrite (ad_parse_ok _ (zlen es)); [by rewrite ad_file_same|apply Hbf|by apply built_header].
Qed.
End Build.

Lemma ad_parse_cases buf : is_byte_list buf ->
  (exists n, ad_header buf n /\ ad_parse buf = Ok (ad_file_of buf n)) \/ ad_parse buf = Err EINVAL.
Proof.
  intros Hb. pose proof (header_valid_sound buf Hb) as Hs. destruct (header_valid buf) as [n|e|b] eqn:E; [|right|done].
  - left. exists n. split; [done|]. by apply ad_parse_ok.
  - unfold ad_parse. by rewrite E.
Qed.

(** ** MacRoman *)
Lemma emit_in cap b o : zlen o < cap -> emit cap b o = Ok (o ++ [b]).
Proof. intros. unfold emit. by destruct (Z.ltb_spec (zlen o) cap); [|lia]. Qed.
Lemma macroman_hi_bytes : Forall (fun x => 0x80 <= x < 65536) macroman_hi.
Proof. unfold macroman_hi. repeat constructor; done. Qed.
Lemma hi_at c : 0x80 <= c < 256 -> exists cp, macroman_hi !! Z.to_nat (c - 0x80) = Some cp /\ byte_at macroman_hi (c - 0x80) = Ok cp /\ 0x80 <= cp < 65536.
Proof.
  intros Hc. destruct (byte_at_in macroman_hi (c - 0x80)) as (cp & E & E'); [change (zlen macroman_hi) with 128; lia|].
  exists cp. split_and!; try done; by apply (Forall_lookup_1 _ _ _ _ macroman_hi_bytes E).
Qed.
Lemma macroman_loop_safe cap : forall src o, is_byte_list src -> zlen o < cap -> yields (fun r => zlen r < cap) (macroman_loop src cap o).
Proof.
  induction src as [|c src IH]; intros o Hs Ho; [done|]. destruct (Forall_cons_1 _ _ _ Hs) as [Hc Hs']. clear Hs. rename Hs' into Hs. cbn [macroman_loop].
  destruct (Z.ltb_spec (zlen o + 1) cap); cbn [negb]; [|done].
  assert (exists cp, (if c <? 128 then Ok c else byte_at macroman_hi (c - 128)) = Ok cp) as [cp ->].
  { destruct (Z.ltb_spec c 128); [by eexists|]. destruct (hi_at c) as (cp & _ & -> & _); [lia|]. by eexists. }
  cbn [mbind out_bind]. destruct (cp <? 128); [|destruct (cp <? 2048)].
  - rewrite emit_in by done. apply IH; [done|]. zlens. lia.
  - destruct (Z.leb_spec cap (zlen o + 2)); [done|]. rewrite emit_in by done. cbn [mbind out_bind].
    rewrite emit_in by (zlens; lia). apply IH; [done|]. zlens. lia.
  - destruct (Z.leb_spec cap (zlen o + 3)); [done|]. rewrite emit_in by done. cbn [mbind out_bind].
    rewrite emit_in by (zlens; lia). cbn [mbind out_bind]. rewrite emit_in by (zlens; lia). apply IH; [done|]. zlens. lia.
Qed.
Lemma macroman_safe src cap : is_byte_list src -> 0 < cap ->
  yields (fun r => exists t, r = t ++ [0] /\ zlen r <= cap) (macroman_to_utf8 src cap).
Proof.
  intros Hs Hc. unfold macroman_to_utf8. destruct (Z.eqb_spec cap 0); [lia|].
  eapply sat_bind; [by apply macroman_loop_safe; [|rewrite zlen_nil; lia]|]. intros o Ho. cbn beta in Ho. rewrite emit_in by done. apply sat_ret.
  eexists. split; [done|]. zlens. lia.
Qed.
(** The characters of a type, where there is room for all of them. *)
Definition utf8 (cp : Z) : list Z :=
  if cp <? 0x80 then [cp]
  else if cp <? 0x800 then [u8 (Z.lor 0xC0 (Z.shiftr cp 6)); u8 (Z.lor 0x80 (Z.land cp 0x3F))]
  else [u8 (Z.lor 0xE0 (Z.shiftr cp 12)); u8 (Z.lor 0x80 (Z.land (Z.shiftr cp 6) 0x3F)); u8 (Z.lor 0x80 (Z.land cp 0x3F))].
Definition code_point (c : Z) : Z := if c <? 0x80 then c else nth (Z.to_nat (c - 0x80)) macroman_hi 0.
Lemma utf8_len cp : 1 <= zlen (utf8 cp) <= 3.
Proof. unfold utf8. destruct (cp <? _); [done|]. by destruct (cp <? _). Qed.
Lemma macroman_loop_ok cap : forall src o, is_byte_list src -> zlen o + 3 * zlen src < cap ->
  macroman_loop src cap o = Ok (o ++ concat ((fun c => utf8 (code_point c)) <$> src)).
Proof.
  induction src as [|c src IH]; intros o Hs Ho; [by rewrite app_nil_r|]. destruct (Forall_cons_1 _ _ _ Hs) as [Hc Hs']. clear Hs. rename Hs' into Hs. cbn [macroman_loop].
  rewrite zlen_cons in Ho. pose proof (zlen_nonneg src). destruct (Z.ltb_spec (zlen o + 1) cap); cbn [negb]; [|lia].
  assert ((if c <? 128 then Ok c else byte_at macroman_hi (c - 128)) = Ok (code_point c)) as ->.
  { unfold code_point. destruct (Z.ltb_spec c 128); [done|]. destruct (hi_at c) as (cp & E & -> & _); [lia|].
    f_equal. symmetry. apply nth_lookup_Some, E. }
  cbn [mbind out_bind fmap list_fmap concat]. unfold utf8 at 1. destruct (_ <? 128); [|destruct (_ <? 2048)].
  - rewrite emit_in by lia. cbn [mbind out_bind]. rewrite IH, <-app_assoc; [done..|]. zlens. lia.
  - destruct (Z.leb_spec cap (zlen o + 2)); [lia|]. rewrite emit_in by lia. cbn [mbind out_bind].
    rewrite emit_in by (zlens; lia). cbn [mbind out_bind]. rewrite IH, <-!app_assoc; [done..|]. zlens. lia.
  - destruct (Z.leb_spec cap (zlen o + 3)); [lia|]. rewrite emit_in by lia. cbn [mbind out_bind].
    rewrite emit_in by (zlens; lia). cbn [mbind out_bind]. rewrite emit_in by (zlens; lia). cbn [mbind out_bind].
    rewrite IH, <-!app_assoc; [done..|]. zlens. lia.
Qed.

(** ** Apple Data Compression

    The tokens of a stream and what they stand for. *)
Inductive adc_token := Plain (d : list Z) | Again (long : bool) (len off : Z).
Definition adc_bytes (t : adc_token) : list Z :=
  match t with
  | Plain d => Z.lor 0x80 (zlen d - 1) :: d
  | Again true len off => [Z.lor 0x40 (len - 4); Z.shiftr off 8; Z.land off 0xFF]
  | Again false len off => [Z.lor (Z.shiftl (len - 3) 2) (Z.shiftr off 8); Z.land off 0xFF]
  end.
(** [n] more bytes, each the one [back] before it. *)
Fixpoint again (n : nat) (back : Z) (o : list Z) : list Z :=
  match n with O => o | S n => again n back (o ++ [nth (Z.to_nat (zlen o - back)) o 0]) end.
Definition adc_token_out (o : list Z) (t : adc_token) : list Z :=
  match t with Plain d => o ++ d | Again _ len off => again (Z.to_nat len) (off + 1) o end.
Definition adc_expand (ts : list adc_token) (o : list Z) : list Z := foldl adc_token_out o ts.
Definition adc_token_ok (o : list Z) (t : adc_token) : Prop :=
  match t with
  | Plain d => is_byte_list d /\ 1 <= zlen d <= 128
  | Again long len off => 0 <= off < zlen o /\
      if long : bool then 4 <= len <= 67 /\ off < 65536 else 3 <= len <= 18 /\ off < 1024
  end.
Fixpoint adc_tokens_ok (ts : list adc_token) (o : list Z) : Prop :=
  match ts with [] => True | t :: ts => adc_token_ok o t /\ adc_tokens_ok ts (adc_token_out o t) end.

Lemma again_prefix : forall n back o, o `prefix_of` again n back o.
Proof.
  induction n as [|n IH]; intros back o; [done|]. cbn [again]. etrans; [|apply IH]. by apply prefix_app_r.
Qed.
Lemma token_prefix o t : o `prefix_of` adc_token_out o t.
Proof. destruct t; [by apply prefix_app_r|apply again_prefix]. Qed.
Lemma expand_prefix : forall ts o, o `prefix_of` adc_expand ts o.
Proof. induction ts as [|t ts IH]; intros o; [done|]. etrans; [apply token_prefix|apply IH]. Qed.
Lemma ztake_prefix {A} n (l1 l2 : list A) : l1 `prefix_of` l2 -> n <= zlen l1 -> ztake n l2 = ztake n l1.
Proof. intros [k ->] Hn. unfold ztake, zlen in *. by rewrite take_app_le by lia. Qed.
Lemma ztake_app_r {A} n (l1 l2 : list A) : zlen l1 <= n -> ztake n (l1 ++ l2) = l1 ++ ztake (n - zlen l1) l2.
Proof.
  intros Hn. unfold ztake, zlen in *. rewrite firstn_app, (take_ge l1) by lia. do 2 f_equal. lia.
Qed.
Lemma ztake_full {A} n (l : list A) : zlen l <= n -> ztake n l = l.
Proof. intros. unfold ztake, zlen in *. apply take_ge. lia. Qed.

Lemma adc_literal_ok inp cap : forall k ip o, 0 <= ip -> ip + Z.of_nat k <= zlen inp -> zlen o + Z.of_nat k <= cap ->
  adc_literal k inp ip cap o = Ok (o ++ ztake (Z.of_nat k) (zdrop ip inp)).
Proof.
  induction k as [|k IH]; intros ip o Hip Hin Ho; [by rewrite app_nil_r|]. cbn [adc_literal].
  destruct (byte_at_in inp ip) as (b & E & ->); [lia|]. cbn [mbind out_bind]. rewrite emit_in by lia. cbn [mbind out_bind].
  rewrite IH by (zlens; lia). rewrite <-app_assoc. do 2 f_equal. unfold ztake, zdrop. rewrite !Nat2Z.id, Z2Nat.inj_add by lia.
  rewrite (drop_S _ _ _ E). cbn. by rewrite Nat.add_1_r.
Qed.
Lemma adc_match_ok cap : forall k back o, zlen o <= cap -> 1 <= back <= zlen o ->
  adc_match k (zlen o - back) cap o = Ok (ztake cap (again k back o)).
Proof.
  induction k as [|k IH]; intros back o Ho Hb; [by cbn; rewrite ztake_full|]. cbn [adc_match].
  destruct (Z.ltb_spec (zlen o) cap); cbn [negb].
  - destruct (byte_at_in o (zlen o - back)) as (b & E & ->); [lia|]. cbn [mbind out_bind]. rewrite emit_in by lia. cbn [mbind out_bind again].
    rewrite (nth_lookup_Some _ _ 0 _ E). replace (zlen o - back + 1) with (zlen (o ++ [b]) - back) by (zlens; lia).
    apply IH; zlens; lia.
  - rewrite (ztake_prefix _ o) by (apply again_prefix || lia). by rewrite ztake_full by lia.
Qed.
(** Whatever the stream is. *)
Lemma zlen_cap {A} cap (l : list A) : 0 <= cap -> zlen (ztake cap l) <= cap.
Proof. intros. zlens. lia. Qed.
Lemma land_range x m : 0 <= x -> 0 <= m -> 0 <= Z.land x m <= m.
Proof.
  intros. split; [apply Z.land_nonneg; lia|]. destruct (Z.eq_dec m 0) as [->|]; [by rewrite Z.land_0_r|].
  destruct (Z.le_gt_cases (Z.land x m) m); [done|]. exfalso.
  assert (Z.ldiff (Z.land x m) m = 0) as E.
  { apply Z.bits_inj'. intros i Hi. rewrite Z.ldiff_spec, Z.land_spec, Z.bits_0. by destruct (Z.testbit x i), (Z.testbit m i). }
  apply Z.ldiff_le in E; lia.
Qed.
Lemma adc_loop_safe inp cap : is_byte_list inp -> forall fuel ip o, 0 <= ip -> zlen inp - ip <= Z.of_nat fuel -> zlen o <= cap ->
  safe (fun r => zlen r <= cap) (adc_loop fuel inp ip cap o).
Proof.
  intros Hi. induction fuel as [|fuel IH]; intros ip o Hip Hf Ho; cbn [adc_loop].
  { destruct (Z.ltb_spec ip (zlen inp)); [lia|]. done. }
  destruct (Z.ltb_spec ip (zlen inp)) as [Hin|]; [|done]. destruct (Z.ltb_spec (zlen o) cap) as [Hc|]; [|done]. cbn [andb negb].
  apply sat_byte; [done|lia|]. intros tag _ Ht. destruct (truthy _); [|destruct (truthy _)]; cbv zeta.
  - pose proof (land_range tag 0x7F). set (len := Z.land tag 0x7F + 1) in *.
    set (l1 := if zlen inp - (ip + 1) <? len then _ else _). set (l2 := if cap - zlen o <? l1 then _ else _).
    assert (0 <= l1 /\ ip + 1 + l1 <= zlen inp) as [? ?] by (unfold l1; zprune; lia). clearbody l1.
    assert (0 <= l2 <= l1 /\ zlen o + l2 <= cap) as (? & ?) by (unfold l2; zprune; lia).
    rewrite adc_literal_ok by lia. cbn [mbind out_bind]. apply IH; zlens; lia.
  - destruct (Z.ltb_spec (zlen inp - ip) 3); [done|]. sat_steps. pose proof (land_range tag 0x3F).
    match goal with |- context [adc_match _ (zlen o - ?off - 1)] => set (x := off) in * end.
    assert (0 <= x) by (apply Z.lor_nonneg; split; [apply Z.shiftl_nonneg|]; lia).
    rewrite <-Z.sub_add_distr, adc_match_ok by lia. cbn [mbind out_bind]. apply IH; [lia..|]. apply zlen_cap. pose proof (zlen_nonneg o). lia.
  - destruct (Z.ltb_spec (zlen inp - ip) 2); [done|]. sat_steps.
    match goal with |- context [adc_match _ (zlen o - ?off - 1)] => set (x := off) in * end.
    assert (0 <= x) by (apply Z.lor_nonneg; split; [apply Z.shiftl_nonneg, Z.land_nonneg|]; lia).
    rewrite <-Z.sub_add_distr, adc_match_ok by lia. cbn [mbind out_bind]. apply IH; [lia..|]. apply zlen_cap. pose proof (zlen_nonneg o). lia.
Qed.
Lemma adc_safe inp cap : is_byte_list inp -> 0 <= cap -> safe (fun r => zlen r <= cap) (adc_decompress inp cap).
Proof. intros Hi Hc. apply adc_loop_safe; [done|lia|unfold zlen; lia|done]. Qed.

(** The fields of a tag. *)
Lemma plain_tag l : 0 <= l < 128 -> truthy (Z.land (Z.lor 0x80 l) 0x80) = true /\ Z.land (Z.lor 0x80 l) 0x7F = l.
Proof.
  intros Hl. pose proof (forall_bits_width 7 (fun l => truthy (Z.land (Z.lor 0x80 l) 0x80) && (Z.land (Z.lor 0x80 l) 0x7F =? l)) l eq_refl Hl) as E.
  apply andb_true_iff in E as [? ?%Z.eqb_eq]. done.
Qed.
Lemma long_tag l : 0 <= l < 64 -> truthy (Z.land (Z.lor 0x40 l) 0x80) = false /\ truthy (Z.land (Z.lor 0x40 l) 0x40) = true /\
  Z.land (Z.lor 0x40 l) 0x3F = l.
Proof.
  intros Hl. pose proof (forall_bits_width 6 (fun l => negb (truthy (Z.land (Z.lor 0x40 l) 0x80)) && truthy (Z.land (Z.lor 0x40 l) 0x40) &&
    (Z.land (Z.lor 0x40 l) 0x3F =? l)) l eq_refl Hl) as E.
  apply andb_true_iff in E as [[?%negb_true_iff ?]%andb_true_iff ?%Z.eqb_eq]. done.
Qed.
Lemma short_tag l h : 0 <= l < 16 -> 0 <= h < 4 -> let tag := Z.lor (Z.shiftl l 2) h in
  truthy (Z.land tag 0x80) = false /\ truthy (Z.land tag 0x40) = false /\ Z.land (Z.shiftr tag 2) 0x0F = l /\ Z.land tag 3 = h.
Proof.
  intros Hl Hh tag. assert (tag = l * 4 + h) as E by (apply (lor_shiftl_add 2); [lia|unfold in_width; lia]).
  assert (0 <= tag < 64) as Ht by lia.
  pose proof (forall_bits_width 6 (fun t => negb (truthy (Z.land t 0x80)) && negb (truthy (Z.land t 0x40)) &&
    (Z.land (Z.shiftr t 2) 0x0F =? t / 4) && (Z.land t 3 =? t mod 4)) tag eq_refl Ht) as Ek.
  apply andb_true_iff in Ek as [[[?%negb_true_iff ?%negb_true_iff]%andb_true_iff Ed%Z.eqb_eq]%andb_true_iff Em%Z.eqb_eq].
  rewrite Ed, Em. split_and!; [done..|dlia|dlia].
Qed.
Lemma split_off off : 0 <= off -> Z.lor (Z.shiftl (Z.shiftr off 8) 8) (Z.land off 0xFF) = off.
Proof.
  intros. change 0xFF with (2 ^ 8 - 1). rewrite land_ones_mod by lia. rewrite lor_shiftl_add by (try lia; apply Z.mod_pos_bound; lia).
  rewrite Z.shiftr_div_pow2 by lia. dlia.
Qed.
Lemma byte_app (pre l : list Z) i : i = zlen pre -> byte_at (pre ++ l) i = byte_at l 0.
Proof.
  intros ->. unfold byte_at, zlen. destruct (Z.ltb_spec (Z.of_nat (length pre)) 0); [lia|]. by rewrite Nat2Z.id, lookup_app_r, Nat.sub_diag by lia.
Qed.
Lemma byte_after (pre l : list Z) x i : i = zlen pre + 1 -> byte_at (pre ++ x :: l) i = byte_at l 0.
Proof. intros ->. change (x :: l) with ([x] ++ l). rewrite app_assoc. apply byte_app. zlens. lia. Qed.
Lemma byte_after2 (pre l : list Z) x y i : i = zlen pre + 2 -> byte_at (pre ++ x :: y :: l) i = byte_at l 0.
Proof. intros ->. change (x :: y :: l) with ([x; y] ++ l). rewrite app_assoc. apply byte_app. zlens. lia. Qed.
Lemma adc_token_nonempty t e : adc_token_ok e t -> 1 <= zlen (adc_bytes t).
Proof. destruct t as [d|[] len off]; cbn; intros; zlens; lia. Qed.
Lemma adc_full fuel inp ip cap o : zlen o = cap -> adc_loop fuel inp ip cap o = Ok o.
Proof. intros <-. destruct fuel; cbn [adc_loop]; by rewrite Z.ltb_irrefl, andb_false_r. Qed.

(** One token: the loop has what it stands for, or the output is full. *)
Section Token.
Context (cap : Z) (pre rest e : list Z) (fuel : nat) (He : zlen e < cap).
Lemma adc_plain d : adc_token_ok e (Plain d) -> let inp := pre ++ adc_bytes (Plain d) ++ rest in
  adc_loop (S fuel) inp (zlen pre) cap e = adc_loop fuel inp (zlen pre + zlen (adc_bytes (Plain d))) cap (ztake cap (e ++ d)) \/
  adc_loop (S fuel) inp (zlen pre) cap e = Ok (ztake cap (e ++ d)) /\ cap <= zlen (e ++ d).
Proof.
  intros [Hd Hl] inp. cbn [adc_bytes] in *. pose proof (zlen_nonneg rest). pose proof (zlen_nonneg pre). pose proof (zlen_nonneg e).
  destruct (plain_tag (zlen d - 1)) as [E1 E2]; [lia|].
  assert (zlen inp = zlen pre + 1 + zlen d + zlen rest) as Hz by (unfold inp; zlens; lia).
  assert (zdrop (zlen pre + 1) inp = d ++ rest) as Hdrop.
  { unfold inp. change (Z.lor 128 (zlen d - 1) :: d) with ([Z.lor 128 (zlen d - 1)] ++ d). rewrite <-app_assoc, app_assoc. apply zdrop_exact. zlens. lia. }
  cbn [adc_loop]. destruct (Z.ltb_spec (zlen pre) (zlen inp)); [|lia]. destruct (Z.ltb_spec (zlen e) cap); [|lia]. cbn [andb negb].
  assert (byte_at inp (zlen pre) = Ok (Z.lor 0x80 (zlen d - 1))) as -> by (unfold inp; by rewrite byte_app). cbn [mbind out_bind].
  rewrite E1, E2. replace (zlen d - 1 + 1) with (zlen d) by lia. destruct (Z.ltb_spec (zlen inp - (zlen pre + 1)) (zlen d)); [lia|].
  destruct (Z.ltb_spec (cap - zlen e) (zlen d)).
  - right. rewrite adc_literal_ok by lia. cbn [mbind out_bind]. rewrite Z2Nat.id, Hdrop by lia.
    rewrite adc_full by (zlens; lia). split; [|zlens; lia]. f_equal. rewrite (ztake_app_r cap) by lia. f_equal.
    apply ztake_prefix; [by apply prefix_app_r|lia].
  - left. rewrite adc_literal_ok by lia. cbn [mbind out_bind]. rewrite Z2Nat.id, Hdrop by lia. rewrite (ztake_app (zlen d)) by done.
    rewrite (ztake_full cap (e ++ d)) by (zlens; lia). f_equal. zlens. lia.
Qed.
Lemma adc_again long len off : 0 <= len -> adc_token_ok e (Again long len off) -> let inp := pre ++ adc_bytes (Again long len off) ++ rest in
  adc_loop (S fuel) inp (zlen pre) cap e =
  adc_loop fuel inp (zlen pre + zlen (adc_bytes (Again long len off))) cap (ztake cap (again (Z.to_nat len) (off + 1) e)).
Proof.
  intros Hl0 [Ho Hl] inp. pose proof (zlen_nonneg rest). pose proof (zlen_nonneg pre).
  assert (zlen inp = zlen pre + zlen (adc_bytes (Again long len off)) + zlen rest) as Hz by (unfold inp; zlens; lia).
  assert (forall k, refuse (zlen e <? off + 1) Rejected ≫= k = k tt :> out (list Z)) as Hr by (intros; destruct (Z.ltb_spec (zlen e) (off + 1)); [lia|done]).
  cbn [adc_loop]. destruct (Z.ltb_spec (zlen pre) (zlen inp)) as [_|Hx]; [|destruct long; cbn in *; zlens; lia].
  destruct (Z.ltb_spec (zlen e) cap); [|lia]. cbn [andb negb]. destruct long; cbn [adc_bytes] in *.
  - destruct (long_tag (len - 4)) as (E1 & E2 & E3); [lia|].
    assert (byte_at inp (zlen pre) = Ok (Z.lor 0x40 (len - 4))) as -> by (unfold inp; by rewrite byte_app). cbn [mbind out_bind]. rewrite E1, E2, E3.
    change (zlen [_; _; _]) with 3 in *. destruct (Z.ltb_spec (zlen inp - zlen pre) 3); [lia|].
    assert (byte_at inp (zlen pre + 1) = Ok (Z.shiftr off 8)) as -> by (unfold inp; cbn [app]; by rewrite byte_after).
    assert (byte_at inp (zlen pre + 2) = Ok (Z.land off 255)) as -> by (unfold inp; cbn [app]; by rewrite byte_after2).
    cbn [mbind out_bind]. rewrite split_off by lia. rewrite Hr, <-Z.sub_add_distr, adc_match_ok by lia. cbn [mbind out_bind].
    by replace (len - 4 + 4) with len by lia.
  - destruct (short_tag (len - 3) (Z.shiftr off 8)) as (E1 & E2 & E3 & E4); [lia|rewrite Z.shiftr_div_pow2 by lia; dlia|].
    assert (byte_at inp (zlen pre) = Ok (Z.lor (Z.shiftl (len - 3) 2) (Z.shiftr off 8))) as -> by (unfold inp; by rewrite byte_app). cbn [mbind out_bind]. rewrite E1, E2, E3, E4.
    change (zlen [_; _]) with 2 in *. destruct (Z.ltb_spec (zlen inp - zlen pre) 2); [lia|].
    assert (byte_at inp (zlen pre + 1) = Ok (Z.land off 255)) as -> by (unfold inp; cbn [app]; by rewrite byte_after). cbn [mbind out_bind]. rewrite split_off by lia.
    rewrite Hr, <-Z.sub_add_distr, adc_match_ok by lia. cbn [mbind out_bind]. by replace (len - 3 + 3) with len by lia.
Qed.
End Token.
Lemma adc_loop_ok cap : 0 <= cap -> forall ts pre e fuel, adc_tokens_ok ts e ->
  let inp := pre ++ concat (adc_bytes <$> ts) in zlen inp - zlen pre <= Z.of_nat fuel ->
  adc_loop fuel inp (zlen pre) cap (ztake cap e) = Ok (ztake cap (adc_expand ts e)).
Proof.
  intros Hcap. induction ts as [|t ts IH]; intros pre e fuel Ht inp Hf.
  { unfold inp. cbn [fmap list_fmap concat]. rewrite app_nil_r. destruct fuel; cbn [adc_loop]; by rewrite Z.ltb_irrefl. }
  destruct Ht as [Ht Hts]. pose proof (adc_token_nonempty t e Ht). pose proof (zlen_nonneg (concat (adc_bytes <$> ts))).
  cbn [fmap list_fmap concat] in inp. unfold inp in Hf. rewrite !zlen_app in Hf. destruct fuel as [|fuel]; [lia|].
  change (adc_expand (t :: ts) e) with (adc_expand ts (adc_token_out e t)).
  destruct (Z.le_gt_cases cap (zlen e)) as [Hc|Hc].
  { rewrite adc_full by (zlens; lia). f_equal. symmetry. apply ztake_prefix; [|done]. apply (expand_prefix (t :: ts)). }
  rewrite (ztake_full cap e) by lia.
  specialize (IH (pre ++ adc_bytes t) (adc_token_out e t) fuel Hts). cbv zeta in IH. rewrite <-app_assoc in IH. fold inp in IH.
  specialize (IH ltac:(unfold inp; zlens; lia)). rewrite zlen_app in IH.
  destruct t as [d|long len off]; cbn [adc_token_out] in *.
  - destruct (adc_plain cap pre (concat (adc_bytes <$> ts)) e fuel Hc d Ht) as [Hs|[Hs Hl]]; fold inp in Hs; rewrite Hs; [done|].
    f_equal. symmetry. apply ztake_prefix; [apply expand_prefix|done].
  - rewrite <-IH. apply adc_again; [done| |done]. destruct Ht as [_ Ht]. destruct long; lia.
Qed.
Lemma adc_decodes ts cap : 0 <= cap -> adc_tokens_ok ts [] ->
  adc_decompress (concat (adc_bytes <$> ts)) cap = Ok (ztake cap (adc_expand ts [])).
Proof.
  intros Hc Ht. pose proof (adc_loop_ok cap Hc ts [] [] (length (concat (adc_bytes <$> ts))) Ht) as Hl. cbv zeta in Hl. cbn [app] in Hl.
  unfold adc_decompress. rewrite <-Hl by (unfold zlen; cbn; lia). f_equal. unfold ztake. by rewrite take_nil.
Qed.

(** ** The Apple partition map *)
Lemma zdrop_all {A} o (l : list A) : o = 0 -> zdrop o l = l.
Proof. by intros ->. Qed.
(** A field of a record that is written as its fields one after the other. *)
Ltac slice_at := rewrite ?zdrop_app by (zlens; lia); rewrite zdrop_all by (zlens; lia); rewrite ztake_app by (zlens; lia).
Lemma apm_probe_safe b : is_byte_list b -> zlen b = 512 -> yields (fun _ => True) (image_apm_probe_magic b).
Proof. intros Hb Hz. unfold image_apm_probe_magic. sat_steps. destruct (negb _); [done|]. by sat_steps. Qed.
(** The offsets of 257 blocks fit into size_t. *)
Section Apm.
Context (Hroom : 18 <= size_bits).
Lemma usize_18 x : 0 <= x < 262144 -> usize x = x.
Proof.
  intros. apply wrap_small. assert (2 ^ 18 <= 2 ^ size_bits) by (apply Z.pow_le_mono_r; lia). split; [lia|]. change (2 ^ 18) with 262144 in *. lia.
Qed.
Lemma apm_offset i : 0 <= i < 256 -> usize (u32 (i + 1) * APM_BLOCK_SIZE) = 512 * (i + 1) /\
  usize (512 * (i + 1) + APM_BLOCK_SIZE) = 512 * (i + 2).
Proof.
  intros Hi. unfold APM_BLOCK_SIZE. rewrite u32_small by (unfold in_width; pow2; lia). rewrite !usize_18 by lia. lia.
Qed.
Lemma apm_entries_safe buf : is_byte_list buf -> forall k i ps, 0 <= i -> i + Z.of_nat k <= 256 ->
  yields (fun r => zlen r <= zlen ps + Z.of_nat k) (apm_entries k i buf ps).
Proof.
  intros Hb. induction k as [|k IH]; intros i ps Hi Hk; [apply sat_ret; lia|]. cbn [apm_entries]. cbv zeta.
  destruct (apm_offset i) as [-> ->]; [lia|]. destruct (Z.ltb_spec (zlen buf) (512 * (i + 2))); [apply sat_ret; lia|].
  unfold APM_BLOCK_SIZE. sat_steps. set (b := ztake 512 _). assert (is_byte_list b) by (by apply bytes_slice).
  assert (zlen b = 512) by (unfold b; zlens; lia). sat_steps. destruct (negb _); [apply sat_ret; lia|]. sat_steps.
  eapply sat_mono; [apply IH; lia|]. intros r. zlens. lia.
Qed.
Lemma apm_parse_safe buf : is_byte_list buf -> safe (fun t => 1 <= zlen (partitions t) <= map_block_count t /\ map_block_count t <= 256) (image_apm_parse_buffer buf).
Proof.
  intros Hb. unfold image_apm_parse_buffer. unfold APM_BLOCK_SIZE. sat_steps. set (b := ztake 512 _).
  assert (is_byte_list b) by (by apply bytes_slice). assert (zlen b = 512) by (unfold b; zlens; lia).
  eapply sat_bind; [by eapply sat_weaken, apm_probe_safe|]. intros ok _. sat_steps. unfold APM_MAX_PARTITIONS in *.
  eapply sat_bind; [eapply sat_weaken, apm_entries_safe; [done..|lia]|]. intros ps Hp. cbn in Hp. rewrite zlen_nil in Hp.
  sat_steps. apply sat_ret. cbn. pose proof (zlen_nonneg ps). lia.
Qed.

(** A disk with a partition map, the block before the map included. *)
Record apm_entry := mk_apm { am_start : Z; am_size : Z; am_status : Z; am_name : list Z; am_type : list Z }.
Definition zero_padded (n : Z) (l : list Z) : list Z := l ++ zeros (n - zlen l).
Definition apm_block (n : Z) (e : apm_entry) : list Z :=
  be 2 APM_SIG_PM ++ be 2 0 ++ be 4 n ++ be 4 (am_start e) ++ be 4 (am_size e) ++ zero_padded 32 (am_name e) ++ zero_padded 32 (am_type e) ++
  zeros 8 ++ be 4 (am_status e) ++ zeros 420.
Definition apm_entry_ok (e : apm_entry) : Prop :=
  in_width 32 (am_start e) /\ in_width 32 (am_size e) /\ in_width 32 (am_status e) /\
  (forall l, l = am_name e \/ l = am_type e -> zlen l <= 32 /\ List.last l 33 <> 0 /\ List.last l 33 <> 32).
(** What a partition's type says is on it: target-filesystems.md's table of
    type names, in either case, where a disk driver's may go on. *)
Definition apm_kinds : list (string * apm_fs_kind) := [
  ("apple_hfs"%string, APM_FS_HFS); ("apple_hfsx"%string, APM_FS_HFS); ("apple_unix_svr2"%string, APM_FS_UFS);
  ("apple_partition_map"%string, APM_FS_PARTITION_MAP); ("apple_free"%string, APM_FS_FREE); ("apple_patches"%string, APM_FS_PATCHES)].
Definition kind_of (type : list Z) : apm_fs_kind :=
  let t := tolower <$> c_string type in
  if bool_decide (chars "apple_driver"%string `prefix_of` t) then APM_FS_DRIVER
  else default APM_FS_UNKNOWN (snd <$> List.find (fun k => bool_decide (t = chars k.1)) apm_kinds).
Definition apm_view (i : Z) (e : apm_entry) : apm_partition :=
  mk_partition i (am_start e) (am_size e) (zero_padded 33 (am_name e)) (zero_padded 33 (am_type e)) (am_status e) (kind_of (am_type e)).
Definition apm_disk (block0 : list Z) (es : list apm_entry) : list Z := block0 ++ concat (apm_block (zlen es) <$> es).
Definition apm_table_of (es : list apm_entry) : apm_table := mk_table (zlen es) (imap (fun i e => apm_view (Z.of_nat i + 1) e) es).

Lemma strip_zeros n l : strip (zeros n ++ l) = zeros n ++ strip l.
Proof. unfold zeros. induction (Z.to_nat n) as [|k IH]; [done|]. cbn. by rewrite IH. Qed.
Lemma rev_zeros n : rev (zeros n) = zeros n.
Proof. unfold zeros. rewrite rev_alt. apply (reverse_replicate (Z.to_nat n)). Qed.
Lemma copy_padded l : zlen l <= 32 -> List.last l 33 <> 0 -> List.last l 33 <> 32 -> copy_apm_str (zero_padded 32 l) = zero_padded 33 l.
Proof.
  intros Hl H0 H32. unfold copy_apm_str, zero_padded. rewrite rev_app_distr, rev_zeros, strip_zeros, rev_app_distr, rev_zeros.
  assert (strip (rev l) = rev l) as ->.
  { destruct l as [|x l _] using rev_ind; [done|]. rewrite last_last in H0, H32. rewrite rev_app_distr. cbn.
    destruct (Z.eqb_spec x 0), (Z.eqb_spec x 32); done. }
  rewrite rev_involutive, <-app_assoc. f_equal. unfold zeros. change [0] with (replicate 1 0). rewrite <-replicate_add. f_equal. lia.
Qed.
(** The terminator is not part of a type's text. *)
Lemma c_string_zeros l n : c_string (l ++ zeros n) = c_string l.
Proof.
  induction l as [|x l IH]; cbn [app c_string]; [|by rewrite IH].
  unfold zeros. by destruct (Z.to_nat n).
Qed.
Lemma prefix_take {A} (p l : list A) : p `prefix_of` l <-> take (length p) l = p.
Proof.
  split; [intros [more ->]; by rewrite take_app_length|]. intros E. exists (drop (length p) l). rewrite <-E at 1.
  symmetry. apply take_drop.
Qed.
Lemma classify_padded l n : image_apm_classify_type (zero_padded n l) = kind_of l.
Proof.
  unfold image_apm_classify_type, kind_of, zero_padded. rewrite c_string_zeros. unfold same_nocase, ztake.
  rewrite fmap_take. set (t := tolower <$> c_string l). cbv zeta. cbn [apm_kinds List.find fst].
  assert (bool_decide (take (Z.to_nat 12) t = tolower <$> chars "Apple_Driver"%string) = bool_decide (chars "apple_driver"%string `prefix_of` t)) as ->.
  { apply bool_decide_ext. rewrite prefix_take. done. }
  repeat match goal with |- context [bool_decide (t = tolower <$> chars ?k)] =>
    let v := eval vm_compute in (tolower <$> chars k) in change (tolower <$> chars k) with v end.
  repeat match goal with |- context [bool_decide (t = chars ?k)] =>
    let v := eval vm_compute in (chars k) in change (chars k) with v end.
  destruct (bool_decide_reflect (chars "apple_driver"%string `prefix_of` t)) as [[more ->]|_];
    [by repeat rewrite bool_decide_false by done|].
  by repeat case_bool_decide.
Qed.
Lemma zlen_padded n l : zlen l <= n -> zlen (zero_padded n l) = n.
Proof. intros. unfold zero_padded. pose proof (zlen_nonneg l). zlens. lia. Qed.

(** The fields of a block. *)
Section Block.
Context (n : Z) (e : apm_entry) (Hn : in_width 32 n) (He : apm_entry_ok e).
Lemma zlen_apm_block : zlen (apm_block n e) = 512.
Proof. destruct He as (_ & _ & _ & Hs). unfold apm_block. zlens. rewrite !zlen_padded by (apply Hs; auto). lia. Qed.
Lemma apm_fields : let b := apm_block n e in
  rd16 b 0 = Ok APM_SIG_PM /\ rd32 b 4 = Ok n /\ rd32 b 8 = Ok (am_start e) /\ rd32 b 12 = Ok (am_size e) /\ rd32 b 0x58 = Ok (am_status e) /\
  window b 0x10 32 = Ok (zero_padded 32 (am_name e)) /\ window b 0x30 32 = Ok (zero_padded 32 (am_type e)).
Proof.
  intros b. pose proof zlen_apm_block as Hz. fold b in Hz. destruct He as (? & ? & ? & Hs).
  assert (zlen (zero_padded 32 (am_name e)) = 32) as L1 by (apply zlen_padded, Hs; auto).
  assert (zlen (zero_padded 32 (am_type e)) = 32) as L2 by (apply zlen_padded, Hs; auto).
  rewrite rd16_in, !rd32_in, !window_in by lia. unfold peek.
  split_and!; match goal with |- Ok ?x = Ok ?y => assert (x = y) as ->; [|done] end; unfold b, apm_block; slice_at; try done; by apply (unbe_be 4).
Qed.
Lemma apm_probe : image_apm_probe_magic (apm_block n e) = Ok (negb ((n =? 0) || (APM_MAX_PARTITIONS <? n))).
Proof. destruct apm_fields as (E1 & E2 & _). unfold image_apm_probe_magic. by rewrite E1, E2. Qed.
End Block.
Lemma zlen_apm_blocks n es : Forall apm_entry_ok es -> zlen (concat (apm_block n <$> es)) = 512 * zlen es.
Proof. induction 1; [done|]. cbn [fmap list_fmap concat]. rewrite zlen_app, zlen_apm_block, zlen_cons by done. lia. Qed.
Lemma apm_entries_ok n tail : in_width 32 n -> forall es pre ps (i : nat), Forall apm_entry_ok es -> zlen pre = 512 * (Z.of_nat i + 1) ->
  Z.of_nat i + zlen es <= 256 ->
  apm_entries (length es) (Z.of_nat i) (pre ++ concat (apm_block n <$> es) ++ tail) ps =
  Ok (ps ++ imap (fun j e => apm_view (Z.of_nat (i + j) + 1) e) es).
Proof.
  intros Hn. induction es as [|e es IH]; intros pre ps i Hes Hp Hl; [cbn; by rewrite app_nil_r|].
  destruct (Forall_cons_1 _ _ _ Hes) as [He Hes']. rewrite zlen_cons in Hl. pose proof (zlen_nonneg es). pose proof (zlen_nonneg tail).
  cbn [length apm_entries fmap list_fmap concat]. cbv zeta. destruct (apm_offset (Z.of_nat i)) as [-> ->]; [lia|].
  rewrite <-app_assoc. set (buf := pre ++ _). assert (zlen buf = 512 * (Z.of_nat i + 1) + (512 * (1 + zlen es) + zlen tail)) as Hz.
  { unfold buf. rewrite !zlen_app, zlen_apm_block, zlen_apm_blocks by done. lia. }
  destruct (Z.ltb_spec (zlen buf) (512 * (Z.of_nat i + 2))); [lia|]. unfold APM_BLOCK_SIZE. rewrite window_in by lia.
  assert (ztake 512 (zdrop (512 * (Z.of_nat i + 1)) buf) = apm_block n e) as ->.
  { unfold buf. rewrite zdrop_exact by done. apply ztake_app. by rewrite zlen_apm_block. }
  destruct (apm_fields n e Hn He) as (E1 & _ & E3 & E4 & E5 & E6 & E7). cbn [mbind out_bind].
  rewrite E1, E3, E4, E5, E6, E7. cbn [mbind out_bind]. rewrite Z.eqb_refl. cbn [negb].
  pose proof (zlen_apm_block n e He) as Hzb. destruct He as (_ & _ & _ & Hs). rewrite !copy_padded by (apply Hs; auto). rewrite classify_padded.
  replace (Z.of_nat i + 1) with (Z.of_nat (S i)) by lia. unfold buf. rewrite (app_assoc pre).
  rewrite IH by (try done; rewrite ?zlen_app, ?Hzb; lia). rewrite <-app_assoc. cbn [imap]. do 2 f_equal. cbn. f_equal.
  - rewrite Nat.add_0_r. unfold apm_view. f_equal; lia.
  - apply imap_ext. intros j x _. cbn. by replace (i + S j)%nat with (S i + j)%nat by lia.
Qed.
Lemma apm_parse_ok block0 es tail : zlen block0 = 512 -> 1 <= zlen es <= APM_MAX_PARTITIONS -> Forall apm_entry_ok es ->
  image_apm_parse_buffer (apm_disk block0 es ++ tail) = Ok (apm_table_of es).
Proof.
  intros H0 Hc Hes. unfold APM_MAX_PARTITIONS in *. assert (in_width 32 (zlen es)) as Hw by (unfold in_width; pow2; lia).
  assert (exists e es', es = e :: es') as (e & es' & Ees). { destruct es as [|e es']; [rewrite zlen_nil in Hc; lia|]. by exists e, es'. }
  assert (apm_entry_ok e) as He by (subst; by inversion Hes).
  pose proof (zlen_apm_blocks (zlen es) es Hes) as Hb. pose proof (zlen_nonneg tail).
  unfold image_apm_parse_buffer, apm_disk, APM_BLOCK_SIZE. set (buf := (block0 ++ _) ++ tail).
  assert (zlen buf = 512 + 512 * zlen es + zlen tail) as Hz by (unfold buf; rewrite !zlen_app, Hb; lia).
  destruct (Z.ltb_spec (zlen buf) (2 * 512)); [lia|]. cbn [refuse mbind out_bind]. rewrite window_in by lia.
  assert (ztake 512 (zdrop 512 buf) = apm_block (zlen es) e) as ->.
  { unfold buf. rewrite <-app_assoc, zdrop_exact by done. rewrite Ees at 2. cbn [fmap list_fmap concat]. rewrite <-app_assoc. apply ztake_app.
    by rewrite zlen_apm_block. }
  cbn [mbind out_bind]. rewrite apm_probe by done. cbn [mbind out_bind]. destruct (apm_fields (zlen es) e Hw He) as (_ & E2 & _).
  rewrite E2. unfold APM_MAX_PARTITIONS. destruct (Z.eqb_spec (zlen es) 0); [lia|]. destruct (Z.ltb_spec 256 (zlen es)); [lia|].
  cbn [orb negb refuse mbind out_bind]. replace (Z.to_nat (zlen es)) with (length es) by (unfold zlen; lia). unfold buf. rewrite <-app_assoc.
  pose proof (apm_entries_ok (zlen es) tail Hw es block0 [] 0) as Hent. change (Z.of_nat 0) with 0 in Hent. rewrite Hent by (try done; lia). cbn [app mbind out_bind].
  unfold apm_table_of. assert (zlen (imap (fun j e => apm_view (Z.of_nat (0 + j) + 1) e) es) = zlen es) as -> by (unfold zlen; by rewrite length_imap).
  destruct (Z.eqb_spec (zlen es) 0); [lia|]. destruct (Z.ltb_spec 256 (zlen es)); [lia|]. done.
Qed.

(** The same through a drive. *)
Lemma apm_medium {I} `{MediumLaws I} junk (d : I) : medium_ok d -> 1024 <= zlen (medium_bytes d) -> exists d',
  image_apm_parse junk d = (image_apm_parse_buffer (ztake 131584 (medium_bytes d)), d') /\ medium_ok d' /\ medium_bytes d' = medium_bytes d.
Proof.
  intros Hok Hl. pose proof (medium_unit d Hok) as Hu. unfold image_apm_parse, APM_BLOCK_SIZE. rewrite medium_size_ok, usize_18 by (done || lia).
  change ((256 + 1) * 512) with 131584. set (n := if _ <? 131584 then _ else _).
  assert (n = Z.min 131584 (zlen (medium_bytes d))) as En by (unfold n; zprune; lia). clearbody n.
  destruct (Z.ltb_spec n (2 * 512)); [lia|]. set (buf := junk <$> _).
  assert (zlen buf = n) as Hz by (unfold buf, zlen; rewrite length_fmap, length_seqZ; lia).
  destruct (medium_read_ok d 0 buf Hok) as (d' & E & Hok' & Hd'); [lia|done|subst n; rewrite Hz; dlia|]. exists d'.
  rewrite E, Hz, Z.eqb_refl. cbn [negb]. split; [|done]. do 2 f_equal. unfold read_padded. rewrite zdrop_all by done.
  assert (ztake n (medium_bytes d) = ztake 131584 (medium_bytes d)) as ->.
  { unfold ztake, zlen in *. subst n. destruct (Z.min_spec 131584 (Z.of_nat (length (medium_bytes d)))) as [[? ->]|[? ->]]; [done|].
    rewrite !take_ge by lia. done. }
  assert (n - zlen (ztake 131584 (medium_bytes d)) = 0) as -> by (zlens; lia). by rewrite app_nil_r.
Qed.
(** C31: a partition map is read as it is written, with a size_t of at least
    18 bits.  Let a drive hold a disk whose first block is followed by a map of
    1 to 256 entries, each with any start, size and status and with a name and
    a type of at most 32 characters that do not end in a space or a NUL (such
    ends are stripped), and then by anything.  The parser finds exactly those
    entries, in order, with the kind the documentation's table of type names
    gives, in either case of the letters, and leaves the disk as it is. *)
Theorem partition_map_read {I} `{MediumLaws I} junk (d : I) block0 es tail : medium_ok d -> medium_bytes d = apm_disk block0 es ++ tail ->
  zlen block0 = 512 -> 1 <= zlen es <= APM_MAX_PARTITIONS -> Forall apm_entry_ok es ->
  exists d', image_apm_parse junk d = (Ok (apm_table_of es), d') /\ medium_ok d' /\ medium_bytes d' = medium_bytes d.
Proof.
  intros Hok Hd Hb0 Hc Hes. unfold APM_MAX_PARTITIONS in *.
  assert (zlen (apm_disk block0 es) = 512 + 512 * zlen es) as Hz by (unfold apm_disk; rewrite zlen_app, zlen_apm_blocks by done; lia).
  pose proof (zlen_nonneg tail). destruct (apm_medium junk d Hok) as (d' & -> & Hd'); [rewrite Hd, zlen_app; lia|].
  exists d'. split; [|done]. f_equal. rewrite Hd, ztake_app_r by lia. by apply apm_parse_ok.
Qed.
End Apm.
End Formats.
