(* ===== verification/ResourcesProofs.v ===== *)
(** * What the resource and NDIF parsers compute

    The variable table of the decompressor as the list of its strings, the
    decompressors and parsers inside their buffers, and the two names of a
    resource in a path. *)
From stdpp Require Import strings.
From S2P Require Import Prelude Stdio Rle StorageProofs Image Formats FormatsProofs Resources.
Open Scope Z_scope.

Section Resources.
Context `{!Abi} `{!AbiOk _}.

(** ** The variable table

    [vt_end vs i] is where the string [i - 1] starts and the string [i] ends. *)
Section Table.
Context (size : Z) (Hsize : 19 <= size_bits).
Implicit Types (vs : list (list Z)) (vt : list Z).
Definition vt_top : Z := size mod 65536.
Definition vt_end vs (i : nat) : Z := vt_top - zlen (concat (take i vs)).
Record vt_rep vt vs : Prop := {
  vr_len : zlen vt = size;
  vr_size : 4 <= size;
  vr_bytes : is_byte_list vt;
  vr_next : peek 2 vt 0 = 4 + 2 * zlen vs;
  vr_end (i : nat) : (i <= length vs)%nat -> peek 2 vt (2 + 2 * Z.of_nat i) = vt_end vs i;
  vr_room : vs = [] \/ 4 + 2 * zlen vs <= vt_end vs (length vs);
  vr_data (i : nat) v : vs !! i = Some v -> ztake (zlen v) (zdrop (vt_end vs (S i)) vt) = v;
}.

Lemma vt_end_0 vs : vt_end vs 0 = vt_top.
Proof. unfold vt_end. change (zlen (concat (take 0 vs))) with 0. lia. Qed.
Lemma vt_end_S vs i v : vs !! i = Some v -> vt_end vs (S i) = vt_end vs i - zlen v.
Proof. intros E. unfold vt_end. rewrite (take_S_r _ _ _ E), concat_app, zlen_app. cbn. rewrite app_nil_r. lia. Qed.
Lemma vt_end_mono vs i j : (i <= j)%nat -> vt_end vs j <= vt_end vs i.
Proof.
  intros Hij. unfold vt_end. replace j with (i + (j - i))%nat by lia. rewrite <-take_take_drop, concat_app, zlen_app.
  pose proof (zlen_nonneg (concat (take (j - i) (drop i vs)))). lia.
Qed.
Lemma vt_end_app vs d i : (i <= length vs)%nat -> vt_end (vs ++ [d]) i = vt_end vs i.
Proof. intros. unfold vt_end. by rewrite take_app_le. Qed.
Lemma vt_end_last vs d : vt_end (vs ++ [d]) (S (length vs)) = vt_end vs (length vs) - zlen d.
Proof. rewrite (vt_end_S _ _ d) by (by rewrite lookup_app_r, Nat.sub_diag by lia). by rewrite vt_end_app. Qed.
Lemma vt_bounds vt vs (i : nat) : vt_rep vt vs -> (i <= length vs)%nat -> 0 <= vt_end vs i <= size /\ vt_end vs i < 65536 /\ 4 + 2 * zlen vs <= size.
Proof.
  intros [] Hi. pose proof (vt_end_mono vs 0 i ltac:(lia)). pose proof (vt_end_mono vs i (length vs) Hi). rewrite vt_end_0 in *.
  pose proof (Z.mod_pos_bound size 65536). pose proof (Z.mod_le size 65536). unfold vt_top in *.
  pose proof (zlen_nonneg vs). destruct vr_room0 as [->|]; [|lia]. cbn in Hi. assert (i = 0)%nat as -> by lia. rewrite vt_end_0 in *. unfold vt_top, zlen in *. cbn in *. lia.
Qed.

Lemma vt_init_rep : 4 <= size -> exists vt, vt_init size = Ok vt /\ vt_rep vt [].
Proof.
  intros Hs. unfold vt_init. destruct (Z.ltb_spec size 4); [lia|]. assert (zlen (zeros size) = size) as Hz by (apply zlen_zeros; lia).
  change [0; 4; u8 (Z.shiftr size 8); u8 size] with (be 2 4 ++ [u8 (Z.shiftr size 8); u8 size]).
  assert (unbe [u8 (Z.shiftr size 8); u8 size] = vt_top) as Hu.
  { change ([u8 (Z.shiftr size 8); u8 size]) with (be 2 size). unfold unbe, be. rewrite rev_involutive, unle_le. done. }
  set (d := be 2 4 ++ _). assert (zlen d = 4) as Hd by done.
  rewrite poke_in by lia. eexists. split; [done|]. set (vt := write_at _ _ _).
  assert (ztake 4 (zdrop 0 vt) = d) as Ht by (unfold vt; rewrite <-Hd at 1; apply slice_same; lia).
  split; try done.
  - unfold vt. rewrite zlen_write_inside; lia.
  - unfold vt. apply bytes_write; [apply bytes_zeros|]. unfold d. apply Forall_app. split; [apply bytes_be|].
    pose proof (u8_range (Z.shiftr size 8)). pose proof (u8_range size). repeat constructor; lia.
  - intros [|i] Hi; [|cbn in Hi; lia]. rewrite vt_end_0, <-Hu. done.
  - by left.
Qed.

Lemma vt_next vt vs : vt_rep vt vs -> rd16 vt 0 = Ok (4 + 2 * zlen vs).
Proof. intros []. by rewrite rd16_in, vr_next0 by lia. Qed.
Lemma vt_rd vt vs (i : nat) o : vt_rep vt vs -> (i <= length vs)%nat -> o = 2 + 2 * Z.of_nat i -> rd16 vt o = Ok (vt_end vs i).
Proof.
  intros Hr Hi ->. pose proof (vt_bounds vt vs i Hr Hi). destruct Hr. rewrite rd16_in by (unfold zlen in *; lia). by rewrite vr_end0.
Qed.
Lemma vt_fetch_spec vt vs idx : vt_rep vt vs -> 0 <= idx < 131072 ->
  vt_fetch vt idx = match vs !! Z.to_nat idx with Some v => Ok v | None => Err Rejected end.
Proof.
  intros Hr Hi. unfold vt_fetch. assert (2 ^ 19 <= 2 ^ size_bits) by (apply Z.pow_le_mono_r; lia). change (2 ^ 19) with 524288 in *.
  assert (forall x, 0 <= x < 524288 -> usize x = x) as Hu by (intros; apply wrap_small; unfold in_width; lia).
  rewrite (Hu (2 + idx * 2)), (Hu (2 + idx * 2 + 2)), (Hu (2 + idx * 2 + 2 + 2)) by lia.
  rewrite (vt_next vt vs Hr). pose proof (vr_size _ _ Hr). rewrite (vr_len _ _ Hr). destruct (Z.ltb_spec size 4); [lia|]. cbn [refuse mbind out_bind].
  destruct (vs !! Z.to_nat idx) as [v|] eqn:E.
  - pose proof (lookup_lt_Some _ _ _ E). destruct (Z.ltb_spec (4 + 2 * zlen vs) (2 + idx * 2 + 2 + 2)); [unfold zlen in *; lia|].
    cbn [refuse mbind out_bind]. rewrite (vt_rd vt vs (Z.to_nat idx) (2 + idx * 2)), (vt_rd vt vs (S (Z.to_nat idx)) (2 + idx * 2 + 2)) by (done || lia). cbn [mbind out_bind].
    pose proof (vt_bounds vt vs (Z.to_nat idx) Hr ltac:(lia)). pose proof (vt_bounds vt vs (S (Z.to_nat idx)) Hr ltac:(lia)).
    pose proof (vt_end_S vs _ _ E) as Hs. pose proof (zlen_nonneg v). destruct (Z.ltb_spec (vt_end vs (Z.to_nat idx)) (vt_end vs (S (Z.to_nat idx)))); [lia|].
    destruct (Z.ltb_spec size (vt_end vs (Z.to_nat idx))); [lia|]. cbn [orb refuse mbind out_bind].
    replace (vt_end vs (Z.to_nat idx) - vt_end vs (S (Z.to_nat idx))) with (zlen v) by lia.
    rewrite window_in by (rewrite ?(vr_len _ _ Hr); lia). by rewrite (vr_data _ _ Hr _ _ E).
  - apply lookup_ge_None in E. destruct (Z.ltb_spec (4 + 2 * zlen vs) (2 + idx * 2 + 2 + 2)); [done|]. unfold zlen in *. lia.
Qed.
(** Room for another string and its entry of the list. *)
Definition vt_fits vs (d : list Z) : Prop := zlen d + 6 + 2 * zlen vs <= vt_end vs (length vs).
Lemma vt_remembered vt vs d : vt_rep vt vs -> is_byte_list d -> vt_fits vs d -> let new := vt_end vs (length vs) - zlen d in
  vt_rep (write_at (write_at (write_at vt (4 + 2 * zlen vs) (be 2 new)) 0 (be 2 (6 + 2 * zlen vs))) new d) (vs ++ [d]).
Proof.
  intros Hr Hd Hf new. unfold vt_fits in Hf. pose proof (vt_bounds vt vs (length vs) Hr ltac:(lia)) as (Hb1 & Hb2 & Hb3).
  pose proof (zlen_nonneg d). pose proof (zlen_nonneg vs). assert (zlen vt = size) as L0 by apply Hr. assert (new + zlen d = vt_end vs (length vs)) as Hn by (unfold new; lia).
  set (v1 := write_at vt _ _). assert (zlen v1 = size) as L1 by (unfold v1; rewrite zlen_write_inside; rewrite ?zlen_be; lia).
  set (v2 := write_at v1 _ _). assert (zlen v2 = size) as L2 by (unfold v2; rewrite zlen_write_inside; rewrite ?zlen_be; lia).
  set (v3 := write_at v2 _ _). assert (zlen v3 = size) as L3 by (unfold v3; rewrite zlen_write_inside; lia).
  assert (zlen (vs ++ [d]) = 1 + zlen vs) as Hl by (zlens; lia).
  assert (forall p n, 2 <= p -> 0 <= n -> (p + n <= 4 + 2 * zlen vs \/ vt_end vs (length vs) <= p /\ p + n <= size) -> ztake n (zdrop p v3) = ztake n (zdrop p vt)) as Hs.
  { intros p n Hp Hn0 Hpn. unfold v3. rewrite slice_other by lia. unfold v2. rewrite slice_other by (rewrite ?zlen_be; lia).
    unfold v1. by rewrite slice_other by (rewrite ?zlen_be; lia). }
  split; rewrite ?Hl.
  - done.
  - apply Hr.
  - apply bytes_write; [|done]. apply bytes_write; [|apply bytes_be]. apply bytes_write; [apply Hr|apply bytes_be].
  - unfold v3. rewrite peek_other by lia. etransitivity; [apply (peek_same 2); unfold in_width; pow2; lia|lia].
  - intros i Hi. rewrite length_app in Hi. cbn in Hi. destruct (decide (i = S (length vs))) as [->|].
    + rewrite vt_end_last. fold new. unfold v3. rewrite peek_other by (unfold zlen in *; lia). unfold v2. rewrite peek_other by (rewrite ?zlen_be; unfold zlen in *; lia).
      unfold v1. replace (2 + 2 * Z.of_nat (S (length vs))) with (4 + 2 * zlen vs) by (unfold zlen; lia). apply (peek_same 2); unfold in_width; pow2; lia.
    + rewrite vt_end_app by lia. rewrite <-(vr_end _ _ Hr) by lia. unfold peek. rewrite Hs by (unfold zlen; lia). done.
  - right. rewrite length_app, Nat.add_1_r, vt_end_last. fold new. lia.
  - intros i v E. destruct (decide (i = length vs)) as [->|Hi].
    + rewrite lookup_app_r, Nat.sub_diag in E by lia. injection E as <-. rewrite vt_end_last. fold new. unfold v3. apply slice_same; lia.
    + pose proof (lookup_lt_Some _ _ _ E) as Hlt. rewrite length_app in Hlt. cbn in Hlt. rewrite lookup_app_l in E by lia. rewrite vt_end_app by lia.
      rewrite <-(vr_data _ _ Hr i v E) at 2. pose proof (vt_end_mono vs (S i) (length vs) ltac:(lia)). pose proof (vt_end_S vs i v E).
      pose proof (vt_bounds vt vs i Hr ltac:(lia)). pose proof (zlen_nonneg v). apply Hs; lia.
Qed.
Lemma vt_remember_spec vt vs d : vt_rep vt vs -> is_byte_list d ->
  vt_fits vs d /\ (exists vt', vt_remember vt d = Ok vt' /\ vt_rep vt' (vs ++ [d])) \/ ~ vt_fits vs d /\ vt_remember vt d = Err Rejected.
Proof.
  intros Hr Hd. unfold vt_remember. pose proof (vt_bounds vt vs (length vs) Hr ltac:(lia)) as (Hb1 & Hb2 & Hb3). pose proof (zlen_nonneg d). pose proof (zlen_nonneg vs).
  rewrite (vt_next vt vs Hr). pose proof (vr_size _ _ Hr). rewrite (vr_len _ _ Hr). destruct (Z.ltb_spec size 4); [lia|]. cbn [refuse mbind out_bind].
  unfold vt_fits. destruct (Z.ltb_spec size (4 + 2 * zlen vs + 2)); [right; split; [lia|done]|]. cbn [refuse mbind out_bind].
  rewrite (vt_rd vt vs (length vs)) by (done || unfold zlen; lia). cbn [mbind out_bind]. set (e := vt_end vs (length vs)) in *.
  destruct (Z.ltb_spec e (zlen d)); [right; split; [lia|done]|]. cbn [refuse mbind out_bind].
  assert (u16 (e - zlen d) = e - zlen d) as -> by (apply (wrap_small 16); unfold in_width; pow2; lia). set (new := e - zlen d).
  destruct (Z.ltb_spec new (4 + 2 * zlen vs + 2)); [right; split; [unfold new in *; lia|done]|]. left. split; [unfold new in *; lia|]. cbn [refuse mbind out_bind].
  assert (u16 (4 + 2 * zlen vs + 2) = 6 + 2 * zlen vs) as -> by (unfold u16; rewrite wrap_small by (unfold in_width; pow2; unfold new in *; lia); lia).
  assert (zlen vt = size) as L0 by apply Hr. rewrite (wr16_in vt) by lia. cbn [mbind out_bind]. set (v1 := write_at vt _ _).
  assert (zlen v1 = size) as L1 by (unfold v1; rewrite zlen_write_inside; rewrite ?zlen_be; lia). rewrite (wr16_in v1) by lia. cbn [mbind out_bind]. set (v2 := write_at v1 _ _).
  assert (zlen v2 = size) as L2 by (unfold v2; rewrite zlen_write_inside; rewrite ?zlen_be; lia). rewrite poke_in by (unfold new in *; lia).
  eexists. split; [done|]. apply vt_remembered; [done..|]. unfold vt_fits. fold e. unfold new in *. lia.
Qed.
End Table.

(** ** The decompressors stay in their buffers

    [k] is a lower bound of the input position, [V] what is known of the
    variable table. *)
Definition overflows (b : defect) : Prop := b = SignedOverflow.
Definition octet (b : Z) : Prop := 0 <= b < 256.
Section Decoder.
Context (p : list Z) (alloc cap : Z) (V : list Z -> Prop).
Context (Hp : is_byte_list p) (Hplen : zlen p + 4194304 <= 2 ^ size_bits) (Hcap : cap <= alloc) (Hclen : cap + 4194304 <= 2 ^ size_bits).
Record dec_inv (k : Z) (s : donn) : Prop := {
  di_p : ic_p s = p;
  di_off : 0 <= k <= ic_off s;
  di_end : ic_off s <= zlen p;
  di_alloc : oc_alloc s = alloc;
  di_cap : oc_cap s = cap;
  di_room : zlen (oc_out s) <= cap;
  di_out : is_byte_list (oc_out s);
  di_vt : V (vt_buf s);
}.
Definition keeps_dec {A} (k : Z) (P : A -> Prop) (m : dec A) : Prop := forall s, dec_inv k s ->
  sat (fun _ => True) overflows (fun r => P r.1 /\ dec_inv k r.2) (m s).

Section Rules.
Context {A B : Type} (k : Z).
Implicit Types (P : A -> Prop) (Q : B -> Prop).
Lemma dec_bind_sat P Q (m : dec A) (f : A -> dec B) : keeps_dec k P m -> (forall a, P a -> keeps_dec k Q (f a)) -> keeps_dec k Q (m ≫= f).
Proof.
  intros Hm Hf s Hs. specialize (Hm s Hs). unfold mbind, dec_bind. destruct (m s) as [[a s']|e|b]; [|done|done].
  destruct Hm as [Ha Hs']. by apply Hf.
Qed.
Lemma dec_ret_sat P a : P a -> keeps_dec k P (mret a).
Proof. by intros Ha s Hs. Qed.
Lemma dec_lift_sat P (m : out A) : sat (fun _ => True) overflows P m -> keeps_dec k P (lift m).
Proof. intros Hm s Hs. unfold lift. by destruct m. Qed.
Lemma dec_if_sat P (b : bool) (m1 m2 : dec A) : keeps_dec k P m1 -> keeps_dec k P m2 -> keeps_dec k P (if b then m1 else m2).
Proof. by destruct b. Qed.
Lemma dec_weaken P P' (m : dec A) : keeps_dec k P m -> (forall a, P a -> P' a) -> keeps_dec k P' m.
Proof. intros Hm HP s Hs. eapply sat_mono; [by apply Hm|]. intros r [? ?]. auto. Qed.
End Rules.
Lemma add32_sat k a b : keeps_dec k (fun _ => True) (add32 a b).
Proof. intros s Hs. unfold add32. by destruct (_ && _). Qed.
Section Loops.
Context {A : Type} (k : Z) (P : A -> Prop).
Lemma for_dec_sat body : forall n i a, P a -> (forall j b, i <= j < i + Z.of_nat n -> P b -> keeps_dec k P (body j b)) -> keeps_dec k P (for_dec n i body a).
Proof.
  induction n as [|n IH]; intros i a Ha Hb; [by apply dec_ret_sat|]. cbn [for_dec]. eapply dec_bind_sat; [apply Hb; [lia|done]|].
  intros b Pb. apply IH; [done|]. intros j c Hj. apply Hb. lia.
Qed.
Lemma for32_sat body : forall n i a, P a -> (forall j b, P b -> keeps_dec k P (body j b)) -> keeps_dec k P (for32 n i body a).
Proof.
  induction n as [|n IH]; intros i a Ha Hb; [by apply dec_ret_sat|]. cbn [for32]. eapply dec_bind_sat; [by apply Hb|]. intros b Pb.
  eapply dec_bind_sat; [apply add32_sat|]. intros i' _. by apply IH.
Qed.
End Loops.

Lemma usize_room x : 0 <= x -> x <= zlen p + 4194303 \/ x <= cap + 4194303 -> usize x = x.
Proof. intros Hx Hr. apply wrap_small. unfold in_width. lia. Qed.
Lemma get_u8_at k s : dec_inv k s -> sat (fun _ => True) overflows (fun r => octet r.1 /\ dec_inv (ic_off s + 1) r.2) (ic_get_u8 s).
Proof.
  intros []. unfold ic_get_u8. rewrite di_p0. destruct (Z.leb_spec (zlen p) (ic_off s)); [done|].
  apply sat_byte; [done|lia|]. intros b _ Hb. apply sat_ret. split; [done|]. split; cbn; try done; lia.
Qed.
Lemma dec_inv_le k k' s : 0 <= k <= k' -> dec_inv k' s -> dec_inv k s.
Proof. intros Hk []. split; try done. lia. Qed.
Lemma get_u8_sat k : keeps_dec k octet ic_get_u8.
Proof.
  intros s Hs. eapply sat_mono; [by apply (get_u8_at k)|]. intros r [Hr Hi]. split; [done|]. destruct Hs. apply (dec_inv_le k (ic_off s + 1)); [lia|done].
Qed.
Lemma get_n_sat k n : 0 <= n <= 4194303 -> keeps_dec k (fun d => is_byte_list d /\ zlen d = n) (ic_get_n n).
Proof.
  intros Hn s []. unfold ic_get_n. rewrite di_p0, usize_room by lia. destruct (Z.ltb_spec (zlen p) (ic_off s + n)); [done|].
  apply sat_window; [lia|]. apply sat_ret. split; cbn.
  - split; [by apply bytes_slice|]. zlens. lia.
  - split; cbn; try done; lia.
Qed.
Lemma put_inv k s d : dec_inv k s -> is_byte_list d -> zlen (oc_out s) + zlen d <= cap -> dec_inv k (set_oc_out (oc_out s ++ d) s).
Proof. intros [] Hd Hl. split; cbn; try done. - by rewrite zlen_app. - by apply Forall_app. Qed.
Lemma put_u8_sat k b : octet b -> keeps_dec k (fun _ => True) (oc_put_u8 b).
Proof.
  intros Hb s Hs. unfold oc_put_u8. rewrite (di_cap _ _ Hs), (di_alloc _ _ Hs). destruct (Z.leb_spec cap (zlen (oc_out s))); [done|].
  rewrite emit_in by lia. apply sat_ret. split; [done|]. apply put_inv; [done|by constructor|]. rewrite zlen_cons, zlen_nil. lia.
Qed.
Lemma put_u16_sat k v : keeps_dec k (fun _ => True) (oc_put_u16_be v).
Proof.
  intros s Hs. unfold oc_put_u16_be. pose proof (di_room _ _ Hs). pose proof (zlen_nonneg (oc_out s)). rewrite (di_cap _ _ Hs), (di_alloc _ _ Hs), usize_room by lia.
  destruct (Z.ltb_spec cap (zlen (oc_out s) + 2)); [done|]. rewrite emit_in by lia. cbn [mbind out_bind]. rewrite emit_in by (zlens; lia).
  apply sat_ret. split; [done|]. rewrite <-app_assoc. apply put_inv; [done| |zlens; lia]. repeat constructor; apply u8_range.
Qed.
Lemma put_n_sat k d : is_byte_list d -> zlen d <= 4194303 -> keeps_dec k (fun _ => True) (oc_put_n d).
Proof.
  intros Hd Hl s Hs. unfold oc_put_n. pose proof (di_room _ _ Hs). pose proof (zlen_nonneg (oc_out s)). pose proof (zlen_nonneg d).
  rewrite (di_cap _ _ Hs), (di_alloc _ _ Hs), usize_room by lia. destruct (Z.ltb_spec cap (zlen (oc_out s) + zlen d)); [done|].
  destruct (Z.ltb_spec alloc (zlen (oc_out s) + zlen d)); [lia|]. apply sat_ret. split; [done|]. by apply put_inv.
Qed.
Lemma encoded_sat k : keeps_dec k (fun _ => True) get_encoded.
Proof.
  unfold get_encoded. eapply dec_bind_sat; [apply get_u8_sat|]. intros b0 _. apply dec_if_sat; [by apply dec_ret_sat|].
  apply dec_if_sat; (eapply dec_bind_sat; [apply get_n_sat || apply get_u8_sat; lia|]; intros; by apply dec_ret_sat).
Qed.

Ltac dec_call := first
  [ apply encoded_sat | apply put_u16_sat | apply add32_sat | apply get_u8_sat
  | apply put_u8_sat; first [done | apply u8_range]
  | apply dec_ret_sat; done ].
Ltac dec_steps := repeat first
  [ apply dec_if_sat
  | dec_call
  | eapply dec_weaken; [dec_call|by intros]
  | eapply dec_bind_sat; [dec_call|intros ? ?]
  | eapply dec_bind_sat; [apply (for32_sat _ (fun _ => True)); [done|intros ? ? _]|intros ? _]
  | apply (for32_sat _ (fun _ => True)); [done|intros ? ? _] ].

Lemma jt_sat k : keeps_dec k (fun _ => True) do_jt_trans.
Proof. unfold do_jt_trans. dec_steps. Qed.
Lemma entry_vector_sat k : keeps_dec k (fun _ => True) do_entry_vector.
Proof. unfold do_entry_vector. dec_steps. destruct b as [cur_branch cur_off]. dec_steps. eapply dec_bind_sat; [|intros; dec_steps]. dec_steps. Qed.
Lemma runlen_sat k put : (forall v, keeps_dec k (fun _ => True) (put v)) -> keeps_dec k (fun _ => True) (do_runlen put).
Proof. intros Hput. unfold do_runlen. dec_steps. apply Hput. Qed.
Lemma diff_sat k delta : keeps_dec k (fun _ => True) delta -> keeps_dec k (fun _ => True) (do_diff delta).
Proof. intros Hd. unfold do_diff. dec_steps. eapply dec_bind_sat; [done|intros ? _]. dec_steps. Qed.
Lemma put_long_sat k v : keeps_dec k (fun _ => True) (put_long v).
Proof. unfold put_long. dec_steps. Qed.
Lemma diff_long_sat k : keeps_dec k (fun _ => True) do_diff_enc_long.
Proof.
  unfold do_diff_enc_long. dec_steps. eapply dec_bind_sat; [apply put_long_sat|intros ? _]. dec_steps.
  eapply dec_bind_sat; [apply put_long_sat|intros ? _]. dec_steps.
Qed.
Lemma extension_sat k : keeps_dec k (fun _ => True) do_extension.
Proof.
  unfold do_extension. eapply dec_bind_sat; [dec_call|intros ext _]. repeat apply dec_if_sat.
  all: try apply jt_sat; try apply entry_vector_sat; try apply diff_long_sat; try (apply runlen_sat; intros); try apply diff_sat.
  all: dec_steps; by apply dec_lift_sat.
Qed.

(** The DonnBits loop, with what it needs of the variable table. *)
Section Unpack.
Context (Hrem : forall k d, is_byte_list d -> keeps_dec k (fun _ => True) (remember d)).
Context (Hfetch : forall k idx, 0 <= idx < 131072 -> keeps_dec k (fun d => is_byte_list d /\ zlen d <= 4194303) (fetch idx)).
Lemma reuse_sat k idx : 0 <= idx < 131072 -> keeps_dec k (fun _ => True) (reuse idx).
Proof. intros Hi. unfold reuse. eapply dec_bind_sat; [by apply Hfetch|]. intros d [? ?]. by apply put_n_sat. Qed.
Lemma word_range hi lo : octet hi -> octet lo -> 0 <= Z.lor (Z.shiftl hi 8) lo < 65536.
Proof. intros Hh Hl. unfold octet in *. rewrite lor_shiftl_add by (try lia; unfold in_width; lia). lia. Qed.
Lemma const_words_in op : 0x4A < op <= 0xFD -> exists w, byte_at g_const_words (op - 0x4B) = Ok w.
Proof. intros Hop. destruct (byte_at_in g_const_words (op - 0x4B)) as (w & _ & E); [change (zlen g_const_words) with 179; lia|]. by exists w. Qed.
Lemma unpack_op_sat k op : octet op -> keeps_dec k (fun _ => True) (unpack_op op).
Proof.
  intros Ho. unfold unpack_op, octet, MAX_1BYTE_REUSE in *.
  destruct (_ || _).
  { eapply dec_bind_sat; [apply encoded_sat|intros n _]. intros s Hs. unfold lift. destruct (_ || _) eqn:E; [done|]. cbn [refuse].
    revert s Hs. change (keeps_dec k (fun _ => True) (src ← ic_get_n (n * 2); (if op =? 16 then remember src else mret tt);; oc_put_n src)).
    eapply dec_bind_sat; [apply get_n_sat; lia|]. intros d [Hd Hz]. eapply dec_bind_sat; [apply (dec_if_sat _ (fun _ => True)); [by apply Hrem|by apply dec_ret_sat]|].
    intros _ _. apply put_n_sat; [done|lia]. }
  destruct (Z.leb_spec op 0x0F). { eapply dec_bind_sat; [apply get_n_sat; lia|]. intros d [Hd Hz]. apply put_n_sat; [done|lia]. }
  destruct (Z.leb_spec op 0x1F).
  { eapply dec_bind_sat; [apply get_n_sat; lia|]. intros d [Hd Hz]. eapply dec_bind_sat; [by apply Hrem|]. intros _ _. apply put_n_sat; [done|lia]. }
  destruct (Z.eqb_spec op 0x20). { eapply dec_bind_sat; [apply get_u8_sat|]. unfold octet. intros b Hb. apply reuse_sat. lia. }
  destruct (Z.eqb_spec op 0x21). { eapply dec_bind_sat; [apply get_u8_sat|]. unfold octet. intros b Hb. apply reuse_sat. lia. }
  destruct (Z.eqb_spec op 0x22).
  { eapply dec_bind_sat; [apply get_u8_sat|]. intros hi Hh. eapply dec_bind_sat; [apply get_u8_sat|]. intros lo Hl. pose proof (word_range hi lo Hh Hl). apply reuse_sat. lia. }
  destruct (Z.leb_spec op 0x4A); [apply reuse_sat; lia|].
  destruct (Z.leb_spec op 0xFD).
  { destruct (const_words_in op) as [w ->]; [lia|]. eapply dec_bind_sat; [by apply (dec_lift_sat _ (fun _ => True))|]. intros w' _. apply put_u16_sat. }
  apply dec_if_sat; [apply extension_sat|by apply dec_lift_sat].
Qed.
Lemma unpack_loop_sat : forall fuel k s, dec_inv k s -> zlen p - ic_off s < Z.of_nat fuel ->
  sat (fun _ => True) overflows (fun r => dec_inv k r.2) (unpack_loop fuel s).
Proof.
  induction fuel as [|fuel IH]; intros k s Hs Hf; [destruct Hs; lia|]. cbn [unpack_loop]. unfold mbind, dec_bind.
  pose proof (get_u8_at k s Hs) as Hg. destruct (ic_get_u8 s) as [[op s1]|e|b]; [|done|done]. destruct Hg as [Hop H1]. cbn [fst snd] in *.
  pose proof (di_off _ _ Hs). destruct (op =? 0xFF); [apply sat_ret; cbn; apply (dec_inv_le k (ic_off s + 1)); [lia|done]|].
  pose proof (unpack_op_sat _ op Hop s1 H1) as H2. destruct (unpack_op op s1) as [[[] s2]|e|b]; [|done|done]. destruct H2 as [_ H2]. cbn [fst snd] in *.
  apply IH; [apply (dec_inv_le k (ic_off s + 1)); [lia|done]|]. pose proof (di_off _ _ H2). lia.
Qed.
End Unpack.

(** GreggyBits *)
Lemma table_word_sat k table : zlen table = 256 -> keeps_dec k (fun _ => True) (table_word table).
Proof.
  intros Ht. unfold table_word. eapply dec_bind_sat; [apply get_u8_sat|]. unfold octet. intros idx Hi.
  destruct (byte_at_in table idx) as (w & _ & ->); [lia|]. eapply dec_bind_sat; [by apply (dec_lift_sat _ (fun _ => True))|]. intros w' _. apply put_u16_sat.
Qed.
Lemma literal_word_sat k : keeps_dec k (fun _ => True) literal_word.
Proof. unfold literal_word. dec_steps. Qed.
Lemma copy_byte_sat k : keeps_dec k (fun _ => True) copy_byte.
Proof. unfold copy_byte. dec_steps. Qed.
Lemma bitmap_words_sat k table n bitmap : zlen table = 256 -> keeps_dec k (fun _ => True) (bitmap_words table n bitmap).
Proof.
  intros Ht. unfold bitmap_words. eapply dec_bind_sat; [apply (for_dec_sat _ (fun _ => True)); [done|]|intros; dec_steps].
  intros j b _ _. eapply dec_bind_sat; [apply (dec_if_sat _ (fun _ => True)); [by apply table_word_sat|apply literal_word_sat]|]. intros _ _. dec_steps.
Qed.
Lemma dcmp2_sat k actual bts flags : 0 <= bts < 256 -> keeps_dec k (fun _ => True) (dcmp2_decompress actual bts flags).
Proof.
  intros Hb. unfold dcmp2_decompress. eapply (dec_bind_sat _ (fun t => zlen t = 256)).
  { apply dec_if_sat; [|by apply dec_ret_sat]. set (n := if _ <? _ then _ else _). assert (0 <= n <= 256) as Hn by (unfold n; zprune; lia). clearbody n.
    apply for_dec_sat; [done|]. intros i t Hi Ht. eapply dec_bind_sat; [apply get_u8_sat|intros hi _]. eapply dec_bind_sat; [apply get_u8_sat|intros lo _].
    apply dec_lift_sat. assert (zlen [Z.lor (Z.shiftl hi 8) lo] = 1) as Hz by done. rewrite poke_in by lia. apply sat_ret. rewrite zlen_write_inside; lia. }
  intros table Ht. cbv zeta. eapply (dec_bind_sat _ (fun _ => True)); [|intros _ _; apply dec_if_sat; [apply copy_byte_sat|by apply dec_ret_sat]].
  apply dec_if_sat; [apply (for_dec_sat _ (fun _ => True)); [done|intros; by apply table_word_sat]|].
  eapply (dec_bind_sat _ (fun _ => True)).
  - apply (for_dec_sat _ (fun _ => True)); [done|]. intros j a _ _. eapply dec_bind_sat; [apply get_u8_sat|intros bm _]. apply dec_if_sat; [|by apply bitmap_words_sat].
    apply (for_dec_sat _ (fun _ => True)); [done|]. intros. apply copy_byte_sat.
  - intros _ _. apply dec_if_sat; [|by apply dec_ret_sat]. eapply dec_bind_sat; [apply get_u8_sat|intros bm _]. by apply bitmap_words_sat.
Qed.
End Decoder.

(** The table of a stream. *)
Definition vt_good (size : Z) (vt : list Z) : Prop := exists vs, vt_rep size vt vs /\ Forall (fun v => is_byte_list v /\ zlen v < 65536) vs.
Lemma remember_good p alloc cap size k d : 19 <= size_bits -> is_byte_list d -> keeps_dec p alloc cap (vt_good size) k (fun _ => True) (remember d).
Proof.
  intros Hsz Hd s Hs. destruct (di_vt _ _ _ _ _ _ Hs) as (vs & Hr & Hv). unfold remember.
  pose proof (vt_bounds size (vt_buf s) vs (length vs) Hr ltac:(lia)). pose proof (zlen_nonneg vs).
  destruct (vt_remember_spec size (vt_buf s) vs d Hr Hd) as [(Hf & vt' & -> & Hr')|[_ ->]]; [|done]. apply sat_ret. split; [done|].
  destruct Hs. split; try done. exists (vs ++ [d]). split; [done|]. apply Forall_app. split; [done|]. constructor; [|constructor]. unfold vt_fits in Hf. split; [done|lia].
Qed.
Lemma fetch_good p alloc cap size k idx : 19 <= size_bits -> 0 <= idx < 131072 ->
  keeps_dec p alloc cap (vt_good size) k (fun d => is_byte_list d /\ zlen d <= 4194303) (fetch idx).
Proof.
  intros Hsz Hi s Hs. destruct (di_vt _ _ _ _ _ _ Hs) as (vs & Hr & Hv). unfold fetch. rewrite (vt_fetch_spec size Hsz _ vs) by done.
  destruct (vs !! Z.to_nat idx) as [v|] eqn:E; [|done]. apply sat_ret. destruct (Forall_lookup_1 _ _ _ _ Hv E). split; [|done]. split; [done|cbn; lia].
Qed.
Lemma finish_ok alloc actual o : is_byte_list o -> 0 <= actual <= alloc -> yields (fun d => is_byte_list d /\ zlen d = actual) (finish alloc actual o).
Proof.
  intros Ho Ha. unfold finish. pose proof (zlen_nonneg o). destruct (Z.ltb_spec (zlen o) actual).
  - destruct (Z.ltb_spec alloc actual); [lia|]. apply sat_ret. split; [apply Forall_app; split; [done|apply bytes_zeros]|]. zlens. lia.
  - apply sat_ret. split; [by apply Forall_take|]. zlens. lia.
Qed.
Lemma var_table_size_ge actual ratio : 4 <= var_table_size actual ratio.
Proof. unfold var_table_size. set (v := if _ <? 4 then 4 else _). assert (4 <= v) by (unfold v; zprune; lia). destruct (truthy _); lia. Qed.
Lemma dcmp_safe c : 33 <= size_bits -> is_byte_list c -> zlen c + 4194304 <= 2 ^ size_bits ->
  sat (fun _ => True) overflows is_byte_list (rsrc_dcmp_decompress c).
Proof.
  intros Hsz Hc Hl. unfold rsrc_dcmp_decompress. cbv zeta. sat_steps. set (hl := peek 2 c 4) in *. set (actual := peek 4 c 8) in *.
  assert (2 ^ 33 <= 2 ^ size_bits) by (apply Z.pow_le_mono_r; lia). change (2 ^ 33) with 8589934592 in *.
  eapply (sat_bind _ _ (fun _ => True)).
  { destruct (_ =? 8); [|destruct (_ =? 9); [|done]]; by rewrite rd16_in by lia. }
  intros id _. sat_steps. set (payload := ztake _ _). assert (is_byte_list payload) as Hpl by (by apply bytes_slice).
  assert (zlen payload <= zlen c) as Hz by (unfold payload; zlens; lia).
  assert (forall (r : out (unit * donn)) alloc cap e P, sat (fun _ => True) overflows (fun r => dec_inv payload alloc cap P 0 r.2) r -> actual <= alloc ->
    sat (fun _ => True) overflows is_byte_list ('(_, s) ← or_else r e; finish alloc actual (oc_out s))) as Hfin.
  { intros r alloc cap e P Hr Ha. eapply sat_bind; [by apply sat_or_else|]. intros [u s] Hs. cbn in Hs.
    pose proof (finish_ok alloc actual (oc_out s) (di_out _ _ _ _ _ _ Hs)) as Hf. apply yields_ok in Hf as (d & -> & Hd & _); [by apply sat_ret|lia]. }
  destruct (_ && _).
  - sat_steps. set (cap := usize _). assert (cap = actual + b1) as Ecap by (unfold cap; apply wrap_small; unfold in_width; lia). unfold at_least_1.
    destruct (vt_init_rep (var_table_size actual b0)) as (vt & -> & Hvt); [apply var_table_size_ge|]. cbn [mbind out_bind].
    set (alloc := if 0 <? cap then cap else 1). assert (cap <= alloc) by (unfold alloc; zprune; lia). clearbody alloc.
    eapply (Hfin _ alloc cap _ (vt_good (var_table_size actual b0))); [|lia].
    apply unpack_loop_sat; try done; try lia.
    + intros. apply remember_good; [lia|done].
    + intros. apply fetch_good; [lia|done].
    + split; cbn; try done; try (unfold zlen; cbn; lia); [constructor|]. exists []. by split; [|constructor].
    + cbn. unfold zlen. lia.
  - destruct (_ && _); [|done]. sat_steps. unfold at_least_1. set (alloc := if 0 <? actual then actual else 1). assert (actual <= alloc) by (unfold alloc; zprune; lia). clearbody alloc.
    eapply (Hfin _ alloc actual _ (fun _ => True)); [|lia]. eapply sat_mono; [apply (dcmp2_sat payload alloc actual (fun _ => True)); try done; try lia|by intros r [_ ?]].
    split; cbn; try done; try constructor; unfold zlen; cbn; lia.
Qed.

(** ** The parsers of forks and block maps

    On a platform with a 64-bit size_t, where the length fields of a file cannot
    make a sum wrap. *)
Definition good {A} : (A -> Prop) -> out A -> Prop := sat (fun _ => True) overflows.
Definition small_file (l : list Z) : Prop := is_byte_list l /\ zlen l + 4194304 <= 2 ^ size_bits.
Lemma good_yields {A} (P : A -> Prop) m : yields P m -> good P m.
Proof. by destruct m. Qed.
Lemma good_safe {A} (P : A -> Prop) m : safe P m -> good P m.
Proof. by destruct m. Qed.

Definition resource_ok (r : rfork_resource) : Prop := is_byte_list (rs_bytes r) /\ match rs_inflated r with Some d => is_byte_list d | None => True end.
Definition rfork_ok (rf : rfork) : Prop := Forall (fun t => Forall resource_ok (resources t)) (types rf).

Section Parsers.
Context (Hsz : 33 <= size_bits).
Lemma usize_33 x : 0 <= x < 8589934592 -> usize x = x.
Proof.
  intros. apply wrap_small. assert (2 ^ 33 <= 2 ^ size_bits) by (apply Z.pow_le_mono_r; lia). change (2 ^ 33) with 8589934592 in *. unfold in_width. lia.
Qed.
Lemma read_name_good map nl off : is_byte_list map -> 0 <= nl < 65536 -> good (fun _ => True) (read_name map nl off 64).
Proof.
  intros Hm Hn. unfold read_name. destruct (off <? 0); [done|]. cbv zeta. pose proof (u16_range off). rewrite usize_33 by lia.
  apply sat_refuse; [done|intros]. apply sat_byte; [done|lia|intros plen _ Hp]. rewrite usize_33 by lia. sat_steps.
  eapply sat_mono; [by apply good_yields, macroman_safe; [apply bytes_slice|]|done].
Qed.
Lemma inflate_good attrs d : is_byte_list d -> zlen d + 4194304 <= 2 ^ size_bits -> good (fun r => match r with Some d => is_byte_list d | None => True end) (inflate attrs d).
Proof.
  intros Hd Hl. unfold inflate. destruct (truthy _); [|done]. unfold rsrc_dcmp_is_compressed. destruct (Z.ltb_spec (zlen d) 4); [done|].
  rewrite rd32_in by lia. cbn [mbind out_bind]. destruct (_ =? _); [|done]. pose proof (dcmp_safe d Hsz Hd Hl) as Hs. by destruct (rsrc_dcmp_decompress d).
Qed.
Lemma parse_ref_good map data nl re : is_byte_list map -> small_file data -> 0 <= nl < 65536 -> 0 <= re -> re + 12 <= zlen map ->
  good resource_ok (parse_ref map data nl re).
Proof.
  intros Hm [Hd Hl] Hn Hr Hre. unfold parse_ref. cbv zeta. sat_steps. set (o := unbe _) in *.
  assert (0 <= o < 16777216) as Ho by (apply (peek_range 3); [done|lia..]).
  rewrite usize_33 in * by lia. sat_steps. rewrite usize_33 in * by lia. sat_steps.
  eapply sat_bind; [apply sat_or_else; [done|]; by apply read_name_good|]. intros name _.
  eapply sat_bind; [apply inflate_good; [by apply bytes_slice|]|intros i Hi; apply sat_ret; split; [by apply bytes_slice|done]].
  zlens. lia.
Qed.
Lemma parse_type_good map data tl nl te : is_byte_list map -> small_file data -> 0 <= nl < 65536 -> 0 <= tl < 65536 -> 0 <= te -> te + 8 <= zlen map ->
  good (fun t => Forall resource_ok (resources t)) (parse_type map data tl nl te).
Proof.
  intros Hm Hd Hn Ht Hte Hl. unfold parse_type. sat_steps. cbv zeta. sat_steps.
  eapply sat_bind; [apply (sat_for _ _ (fun _ => Forall resource_ok)); [lia|constructor|]|intros rs Hrs; by apply sat_ret].
  intros r rs Hr Hrs. eapply sat_bind; [apply parse_ref_good; try done; lia|]. intros x Hx. apply sat_ret. apply Forall_app. split; [done|]. by constructor.
Qed.
Lemma small_slice l o n : small_file l -> small_file (ztake n (zdrop o l)).
Proof.
  intros [? ?]. split; [by apply bytes_slice|]. unfold ztake, zdrop, zlen in *. rewrite length_take, length_drop. lia.
Qed.
Lemma rfork_parse_good fork : small_file fork -> good rfork_ok (rfork_parse fork).
Proof.
  intros Hf. pose proof Hf as [Hb Hl]. unfold rfork_parse. sat_steps. rewrite !u64_sum in * by lia. sat_steps.
  set (map := ztake (peek 4 fork 12) _). set (data := ztake (peek 4 fork 8) _).
  assert (small_file map) as [Hm Hml] by (by apply small_slice). assert (small_file data) as Hd by (by apply small_slice).
  assert (zlen map = peek 4 fork 12) as Hz by (unfold map; zlens; lia). rewrite <-Hz in *. sat_steps.
  pose proof (u32_small (peek 2 map 24 + 2)) as Hu. rewrite Hu in * by (unfold in_width; pow2; lia). sat_steps.
  destruct (_ =? 65535); [by apply sat_ret, Forall_nil|]. cbv zeta. sat_steps.
  eapply sat_bind; [apply (sat_for _ _ (fun _ => Forall (fun t => Forall resource_ok (resources t)))); [lia|constructor|]|intros ts Hts; by apply sat_ret].
  intros t ts Ht Hts. eapply sat_bind; [apply parse_type_good; try done; lia|]. intros x Hx. apply sat_ret. apply Forall_app. split; [done|]. by constructor.
Qed.

Lemma lookup_good rf type id : rfork_ok rf -> good (fun r => is_byte_list r.1.1) (rfork_lookup rf type id).
Proof.
  intros Hrf. unfold rfork_lookup, find_type. destruct (list_find _ (types rf)) as [[i t]|] eqn:E; [|done]. cbn.
  apply list_find_Some in E as (Ei & _ & _). pose proof (Forall_lookup_1 _ _ _ _ Hrf Ei) as Ht.
  destruct (list_find _ (resources t)) as [[j r]|] eqn:Er; [|done]. apply list_find_Some in Er as (Ej & _ & _).
  destruct (Forall_lookup_1 _ _ _ _ Ht Ej) as [Hb Hi]. apply sat_ret. cbn. by destruct (rs_inflated r).
Qed.
Lemma locate_bcem_good fork : small_file fork -> good is_byte_list (locate_bcem fork).
Proof.
  intros Hf. unfold locate_bcem. eapply sat_bind; [apply sat_or_else; [done|]; by apply rfork_parse_good|]. intros rf Hrf.
  pose proof (lookup_good rf BCEM_TYPE BCEM_RESOURCE_ID Hrf) as H1. destruct (rfork_lookup rf BCEM_TYPE BCEM_RESOURCE_ID) as [[[b n] a]|e|d]; [done| |].
  all: sat_steps; eapply sat_bind; [apply sat_or_else; [done|]; by apply lookup_good|]; intros [[b n] a] Hb; by apply sat_ret.
Qed.
Record chunk_ok (c : ndif_chunk) : Prop := {
  ck_sector : 0 <= ch_sector c < 16777216;
  ck_count : 0 <= ch_count c < 4294967296;
  ck_offset : 0 <= ch_offset c < 4294967296;
  ck_length : 0 <= ch_length c < 4294967296;
}.
Definition ndif_ok (m : ndif_map) : Prop := 0 <= nd_sectors m < 4294967296 /\ Forall chunk_ok (chunks m).
Lemma sector_range w : 0 <= w < 4294967296 -> 0 <= Z.shiftr w 8 < 16777216.
Proof. intros. rewrite Z.shiftr_div_pow2 by lia. dlia. Qed.
Lemma parse_chunk_good arr n sectors off i : is_byte_list arr -> zlen arr = n * 12 -> 0 <= i < n -> n < 4294967296 -> 0 <= sectors < 4294967296 ->
  good (fun c => match c with Some c => chunk_ok c | None => True end) (parse_chunk arr n sectors off i).
Proof.
  intros Ha Hz Hi Hn Hs. unfold parse_chunk, BCEM_ENTRY_SIZE. cbv zeta. sat_steps. destruct (_ =? NDIF_CHUNK_END); [done|].
  pose proof (sector_range (peek 4 arr (i * 12))) as Hsec. rewrite u32_small by (unfold in_width; pow2; lia).
  eapply (sat_bind _ _ (fun x => 0 <= x < 4294967296)).
  { destruct (Z.ltb_spec (i + 1) n); [|by apply sat_ret]. sat_steps. apply sat_ret. pose proof (sector_range (peek 4 arr ((i + 1) * 12))). lia. }
  intros next Hnext. sat_steps. apply sat_ret. split; cbn; try apply u32_range; try lia. zprune; lia.
Qed.
Lemma parse_chunks_good arr n sectors off : is_byte_list arr -> zlen arr = n * 12 -> n < 4294967296 -> 0 <= sectors < 4294967296 ->
  forall k i cs, 0 <= i -> i + Z.of_nat k <= n -> Forall chunk_ok cs -> good (Forall chunk_ok) (parse_chunks k i arr n sectors off cs).
Proof.
  intros Ha Hz Hn Hs. induction k as [|k IH]; intros i cs Hi Hk Hcs; [done|]. cbn [parse_chunks].
  eapply sat_bind; [apply parse_chunk_good; try done; lia|]. intros [c|] Hc; [|done]. apply IH; [lia..|]. apply Forall_app. split; [done|]. by constructor.
Qed.
Lemma ndif_parse_good fork : small_file fork -> good ndif_ok (ndif_parse fork).
Proof.
  intros Hf. unfold ndif_parse, BCEM_HEADER_SIZE, BCEM_ENTRY_SIZE. eapply sat_bind; [by apply locate_bcem_good|]. intros b Hb. cbv zeta. sat_steps.
  set (n := peek 4 b 124) in *. assert (u64 (n * 12) = n * 12) as Hu by (apply (wrap_small 64); unfold in_width; pow2; lia). rewrite Hu in *.
  set (nl := if 63 <? b0 then 63 else b0). assert (0 <= nl <= 63) by (unfold nl; zprune; lia). sat_steps.
  eapply sat_bind; [apply parse_chunks_good; try done; try lia|intros cs Hcs; apply sat_ret; by split].
  - by apply bytes_slice.
  - zlens. lia.
Qed.
Lemma ndif_detect_good fork : small_file fork -> good (fun _ => True) (ndif_detect fork).
Proof.
  intros Hf. unfold ndif_detect. destruct (_ <? _); [done|]. pose proof (locate_bcem_good fork Hf) as Hl. by destruct (locate_bcem fork).
Qed.
Lemma ad_rsrc_small buf n : small_file buf -> match (ad_rsrc (ad_file_of buf n)).1 with Some d => small_file d | None => True end.
Proof.
  intros Hb. unfold ad_file_of. set (f0 := mk_ad_file _ _ _ _ _ _). assert (match (ad_rsrc f0).1 with Some d => small_file d | None => True end) as H0 by done.
  clearbody f0. revert f0 H0. induction (seqZ 0 n) as [|i js IH]; intros f Hf; [done|]. cbn [foldl]. apply IH.
  unfold ad_record. destruct (_ =? AD_ENTRY_DATA); [done|]. destruct (_ =? AD_ENTRY_RSRC); [|by destruct (_ =? AD_ENTRY_FINDER)].
  cbn. destruct (_ =? 0); [done|]. by apply small_slice.
Qed.
Definition small_option (r : option (list Z)) : Prop := match r with Some d => small_file d | None => True end.
Lemma sidecar_good raw : small_option raw -> good small_option (sidecar_rsrc raw).
Proof.
  destruct raw as [buf|]; [|done]. intros Hs. cbn in Hs. unfold sidecar_rsrc, ad_detect. pose proof Hs as [Hb _].
  pose proof (header_valid_sound buf Hb) as Hh. destruct (header_valid buf) as [n|e|d] eqn:E; [|done|done].
  cbn [mbind out_bind]. destruct (ad_parse_cases buf Hb) as [(n' & _ & ->)| ->]; [|done].
  apply sat_ret. pose proof (ad_rsrc_small buf n' Hs) as Hr. destruct (ad_rsrc (ad_file_of buf n')) as [[d|] k]; [|done]. cbn in *. by destruct (truthy k).
Qed.
Record sidecars_ok (s : sidecars) : Prop := {
  so_dot : small_option (dot_underscore s);
  so_percent : small_option (percent s);
  so_rsrc : small_option (dot_rsrc s);
}.
Lemma acquire_good s : sidecars_ok s -> good small_option (acquire_resource_fork s).
Proof.
  intros []. unfold acquire_resource_fork. eapply sat_bind; [by apply sidecar_good|]. intros [d|] Hd; [by apply sat_ret|].
  eapply sat_bind; [by apply sidecar_good|]. intros [d|] Hd'; [by apply sat_ret|]. apply sat_ret. destruct (dot_rsrc s); [|done]. by destruct (_ <? _).
Qed.

(** Decoding a chunk fills the buffer it is given. *)
Lemma decode_chunk_safe c src dst : chunk_ok c -> match src with Some d => is_byte_list d | None => True end -> 
  safe (fun r => zlen r = zlen dst) (ndif_decode_chunk c src dst).
Proof.
  intros [] Hsrc. unfold ndif_decode_chunk, NDIF_SECTOR_SIZE. cbv zeta. set (need := usize _). assert (0 <= need) by (apply wrap_range; lia).
  apply sat_refuse; [done|intros E1]. destruct (_ =? NDIF_CHUNK_ZERO).
  { rewrite poke_in by (rewrite ?zlen_zeros; lia). apply sat_ret. rewrite zlen_write_inside; rewrite ?zlen_zeros; lia. }
  destruct (_ =? NDIF_CHUNK_COPY).
  { destruct src as [src|]; [|done]. sat_steps. assert (zlen (ztake need (zdrop 0 src)) = need) as Hz by (zlens; lia).
    rewrite poke_in by lia. apply sat_ret. rewrite zlen_write_inside; lia. }
  destruct (_ =? NDIF_CHUNK_ADC); [|done]. destruct src as [src|]; [|done].
  eapply sat_bind; [apply sat_or_else; [done|]; by apply adc_safe|]. intros o Ho. cbn beta in Ho. pose proof (zlen_nonneg o).
  rewrite poke_in by lia. cbn [mbind out_bind]. assert (zlen (write_at dst 0 o) = zlen dst) as Hz by (rewrite zlen_write_inside; lia).
  destruct (Z.ltb_spec (zlen o) need); [|by apply sat_ret]. rewrite poke_in by (rewrite ?zlen_zeros; lia). apply sat_ret.
  rewrite zlen_write_inside; rewrite ?zlen_zeros; lia.
Qed.
Section Expand.
Context (Hlong : 34 <= long_bits) (junk : Z -> list Z).
Lemma fread_bytes_ok o n f : is_byte_list (fbytes f) -> is_byte_list (fread_bytes o n f).1 /\ fbytes (fread_bytes o n f).2 = fbytes f.
Proof. intros Hf. split; [|done]. cbn. by apply bytes_slice. Qed.
Lemma mat_outcome_df m : mat_df (mat_outcome m).2 = mat_df m.
Proof. unfold mat_outcome. by destruct (mat_faults m). Qed.
Lemma materialize_chunk_good c m : chunk_ok c -> is_byte_list (fbytes (mat_df m)) ->
  good (fun _ => True) (materialize_chunk junk c m).1 /\ is_byte_list (fbytes (mat_df (materialize_chunk junk c m).2)).
Proof.
  intros Hc Hm. pose proof Hc as []. unfold materialize_chunk. cbv zeta. destruct (_ || _); [done|].
  destruct (_ && _); [done|]. set (src := if truthy (ch_length c) then _ else _).
  assert (match src.1 with Some d => is_byte_list d | None => True end /\ is_byte_list (fbytes (mat_df src.2))) as [Hs Hs2].
  { unfold src. destruct (truthy _); [|done]. destruct (mat_outcome m) as [o m'] eqn:E. pose proof (mat_outcome_df m) as Hdf. rewrite E in Hdf. cbn [snd] in Hdf.
    destruct (fread_bytes o (ch_length c) (fseek_set (ch_offset c) (mat_df m'))) as [d df] eqn:Ef.
    destruct (fread_bytes_ok o (ch_length c) (fseek_set (ch_offset c) (mat_df m'))) as [H1 H2].
    { rewrite Hdf. unfold fseek_set. by destruct (_ <? 0). }
    rewrite Ef in H1, H2. cbn in *. split; [done|]. rewrite H2, Hdf. unfold fseek_set. by destruct (_ <? 0). }
  destruct src as [src m1]. cbn [fst snd] in *. pose proof (decode_chunk_safe c src (junk (usize (ch_count c * 512))) Hc Hs) as Hd.
  destruct (ndif_decode_chunk _ _ _) as [dst|e|d]; [|done|done].
  assert (2 ^ 33 <= 2 ^ (long_bits - 1)) by (apply Z.pow_le_mono_r; lia). change (2 ^ 33) with 8589934592 in *.
  destruct (Z.leb_spec (2 ^ (long_bits - 1)) (ch_sector c * 512)); [lia|].
  destruct (mat_outcome m1) as [o m2] eqn:E. pose proof (mat_outcome_df m1) as Hdf. rewrite E in Hdf. cbn [snd] in Hdf.
  destruct (fwrite o dst (fseek_set (ch_sector c * 512) (mat_out m2))) as [ok f]. cbn. rewrite Hdf. by destruct ok.
Qed.
Lemma materialize_chunks_good : forall cs m, Forall chunk_ok cs -> is_byte_list (fbytes (mat_df m)) -> good (fun _ => True) (materialize_chunks junk cs m).1.
Proof.
  induction cs as [|c cs IH]; intros m Hcs Hm; [done|]. destruct (Forall_cons_1 _ _ _ Hcs) as [Hc Hcs']. cbn [materialize_chunks].
  destruct (materialize_chunk_good c m Hc Hm) as [Hg Hm']. destruct (materialize_chunk junk c m) as [[[]|e|b] m']; [|done|done]. by apply IH.
Qed.
Lemma materialize_good base scratch map o : small_option base -> ndif_ok map -> good (fun _ => True) (materialize_ndif_host junk base scratch map o).
Proof.
  intros Hb [_ Hm]. unfold materialize_ndif_host. destruct base as [df|]; [|done]. destruct scratch; [|done].
  destruct (mat_outcome _) as [[|] m] eqn:E; [|done].
  pose proof (mat_outcome_df (mk_mat (fopen_rb df) (mk_FILE [] 0 false) o)) as Hdf. rewrite E in Hdf. cbn [snd mat_df] in Hdf. cbv zeta.
  set (m' := mk_mat _ _ _). pose proof (materialize_chunks_good (chunks map) m' Hm) as Hg.
  destruct (materialize_chunks junk (chunks map) m') as [[[]|e|b] m2]; cbn in *.
  - destruct (mat_outcome m2).1; done.
  - done.
  - apply Hg. unfold m'. cbn. rewrite Hdf. by destruct Hb.
Qed.
(** Whatever the file that is opened and the files beside it hold. *)
Lemma resolve_good base s cached scratch o : small_option base -> sidecars_ok s ->
  good (fun _ => True) (resolve_base_image junk base s cached scratch o).
Proof.
  intros Hb Hs. unfold resolve_base_image. eapply sat_bind; [by apply acquire_good|]. intros [fork|] Hf; [|by apply sat_ret].
  eapply sat_bind; [by apply ndif_detect_good|]. intros [|] _; [|by apply sat_ret].
  pose proof (ndif_parse_good fork Hf) as Hp. destruct (ndif_parse fork) as [map|e|b]; [|done|done]. cbv zeta.
  pose proof (materialize_good base scratch map o Hb Hp) as Hm.
  assert (good (fun _ => True) (match materialize_ndif_host junk base scratch map o with Ok f => Ok (Some f) | Err _ => Ok base | Bad b => Bad b end)) as He
    by (by destruct (materialize_ndif_host junk base scratch map o)).
  destruct cached as [f|]; [|done]. by destruct (_ =? _).
Qed.
End Expand.
End Parsers.
End Resources.
