(* ===== verification/DonnBits.v ===== *)
(** * DonnBits streams

    A reference description of the streams of dcmp 0: what they are made of,
    their bytes and what they stand for; unpack_loop turns the bytes into what
    they stand for, whatever the operations and however strings are remembered
    and used again. *)
From stdpp Require Import strings.
From S2P Require Import Prelude Stdio Rle StorageProofs Image Formats FormatsProofs Resources ResourcesProofs.
Open Scope Z_scope.

Section Resources.
Context `{!Abi} `{!AbiOk _}.

(** ** A reference description of DonnBits streams

    What a stream is made of, its bytes, and the bytes it stands for; [vs] are
    the strings remembered so far. *)
Inductive donn_op :=
  | Literal (d : list Z)
  | Remember (d : list Z)
  | Reuse (i : Z)
  | Constant (op : Z)
  | RunByte (v n : Z)
  | RunWord (v n : Z)
  | DiffByteWord (v : Z) (ds : list Z)
  | DiffWord (v : Z) (ds : list Z)
  | DiffLong (v : Z) (ds : list Z)
  | JumpTable (seg : Z) (ds : list Z)
  | EntryVector (branch off : Z) (offs : list Z)
  | EntrySteps (branch delta off n : Z).
Fixpoint sums (v : Z) (ds : list Z) : list Z := v :: match ds with [] => [] | d :: ds => sums (v + d) ds end.
Definition words (vs : list Z) : list Z := concat ((fun v => be 2 (u16 v)) <$> vs).
Definition op_out (vs : list (list Z)) (o : donn_op) : list Z :=
  match o with
  | Literal d | Remember d => d
  | Reuse i => nth (Z.to_nat i) vs []
  | Constant op => words [nth (Z.to_nat (op - 0x4B)) g_const_words 0]
  | RunByte v n => replicate (Z.to_nat n) (u8 v)
  | RunWord v n => words (replicate (Z.to_nat n) v)
  | DiffByteWord v ds | DiffWord v ds => words (sums v ds)
  | DiffLong v ds => concat ((fun v => be 4 (u32 v)) <$> sums v ds)
  | JumpTable seg ds => concat ((fun o => words [0x3F3C; seg; 0xA9F0; o]) <$> drop 1 (sums 6 ((fun d => d - 6) <$> ds))) ++ words [0x3F3C; seg; 0xA9F0]
  | EntryVector branch off offs => concat (imap (fun i o => words [0x6100; branch - 8 * Z.of_nat i; 0x4EED; o]) (off :: offs))
  | EntrySteps branch delta off n => concat ((fun i => words [0x6100; branch - 8 * i; 0x4EED; off + delta * i]) <$> seqZ 0 (n + 1))
  end.
Definition op_vars (vs : list (list Z)) (o : donn_op) : list (list Z) := match o with Remember d => vs ++ [d] | _ => vs end.

Definition enc (v : Z) : list Z :=
  if (0 <=? v) && (v <? 128) then [v]
  else if (-16384 <=? v) && (v <? 16128) then [0xC0 + Z.shiftr v 8; v mod 256]
  else 0xFF :: be 4 (u32 v).
Definition is_short (d : list Z) : bool := (2 <=? zlen d) && (zlen d <=? 30).
Definition op_code (o : donn_op) : Z :=
  match o with
  | Literal d => if is_short d then zlen d / 2 else 0x00
  | Remember d => if is_short d then 0x10 + zlen d / 2 else 0x10
  | Reuse i => if i <? 40 then 0x23 + i else if i <? 296 then 0x20 else if i <? 552 then 0x21 else 0x22
  | Constant op => op
  | _ => 0xFE
  end.
Definition op_args (o : donn_op) : list Z :=
  match o with
  | Literal d | Remember d => (if is_short d then [] else enc (zlen d / 2)) ++ d
  | Reuse i => if i <? 40 then [] else if i <? 296 then [i - 40] else if i <? 552 then [i - 296] else [Z.shiftr (i - 40) 8; Z.land (i - 40) 0xFF]
  | Constant _ => []
  | JumpTable seg ds => 0 :: enc seg ++ enc (zlen ds) ++ concat (enc <$> ds)
  | EntryVector branch off offs => 1 :: enc branch ++ enc 0 ++ enc (zlen offs) ++ enc off ++ concat (enc <$> offs)
  | EntrySteps branch delta off n => 1 :: enc branch ++ enc delta ++ enc n ++ enc off
  | RunByte v n => 2 :: enc v ++ enc (n - 1)
  | RunWord v n => 3 :: enc v ++ enc (n - 1)
  | DiffByteWord v ds => 4 :: enc v ++ enc (zlen ds) ++ (u8 <$> ds)
  | DiffWord v ds => 5 :: enc v ++ enc (zlen ds) ++ concat (enc <$> ds)
  | DiffLong v ds => 6 :: enc v ++ enc (zlen ds) ++ concat (enc <$> ds)
  end.
Definition in_s32 (v : Z) : Prop := - 2 ^ 31 <= v < 2 ^ 31.
Definition string_ok (d : list Z) : Prop := is_byte_list d /\ zlen d mod 2 = 0 /\ zlen d <= 0x200000.
Definition op_ok (vs : list (list Z)) (o : donn_op) : Prop :=
  match o with
  | Literal d | Remember d => string_ok d
  | Reuse i => 0 <= i < zlen vs /\ i < 65576
  | Constant op => 0x4B <= op <= 0xFD
  | RunByte v n | RunWord v n => in_s32 v /\ 0 <= n < 2 ^ 31
  | DiffByteWord v ds => Forall in_s32 (sums v ds) /\ Forall (fun d => -128 <= d < 128) ds /\ zlen ds < 2 ^ 31
  | DiffWord v ds => Forall in_s32 (sums v ds) /\ Forall in_s32 ds /\ zlen ds < 2 ^ 31
  | DiffLong v ds => in_s32 v /\ Forall in_s32 ds /\ zlen ds < 2 ^ 31
  | JumpTable seg ds => in_s32 seg /\ Forall in_s32 ds /\ Forall (fun d => in_s32 (d - 6)) ds /\ Forall in_s32 (sums 6 ((fun d => d - 6) <$> ds)) /\ zlen ds < 2 ^ 31
  | EntryVector branch off offs => in_s32 branch /\ Forall in_s32 (off :: offs) /\ - 2 ^ 31 <= branch - 8 * (zlen offs + 1) /\ zlen offs < 2 ^ 31 - 1
  | EntrySteps branch delta off n => delta <> 0 /\ in_s32 delta /\ 0 <= n < 2 ^ 31 - 1 /\ in_s32 branch /\ - 2 ^ 31 <= branch - 8 * (n + 1) /\
      in_s32 off /\ in_s32 (off + delta * n)
  end.

Lemma sx_id n x : 0 < n -> - 2 ^ (n - 1) <= x < 2 ^ (n - 1) -> sx n x = x.
Proof.
  intros Hn Hx. assert (2 ^ n = 2 * 2 ^ (n - 1)) as E by (rewrite <-Z.pow_succ_r by lia; f_equal; lia). unfold sx, wrap.
  destruct (Z.le_gt_cases 0 x).
  - rewrite Z.mod_small by lia. destruct (Z.ltb_spec x (2 ^ (n - 1))); lia.
  - assert (x mod 2 ^ n = x + 2 ^ n) as -> by (symmetry; apply (Z.mod_unique_pos x (2 ^ n) (-1)); lia).
    destruct (Z.ltb_spec (x + 2 ^ n) (2 ^ (n - 1))); lia.
Qed.
Lemma encoded_pair v : -16384 <= v < 16128 -> s8 (0xC0 + Z.shiftr v 8 - 0xC0) = Z.shiftr v 8 /\ s16 (Z.lor (Z.shiftl (Z.shiftr v 8) 8) (v mod 256)) = v.
Proof.
  intros Hv. assert (-64 <= Z.shiftr v 8 <= 62) by (rewrite Z.shiftr_div_pow2 by lia; dlia). split.
  - replace (0xC0 + Z.shiftr v 8 - 0xC0) with (Z.shiftr v 8) by lia. apply (sx_id 8); [lia|]. pow2. change (2 ^ (8 - 1)) with 128. lia.
  - rewrite lor_shiftl_add by (try lia; apply Z.mod_pos_bound; lia). rewrite Z.shiftr_div_pow2 by lia.
    replace (v / 2 ^ 8 * 2 ^ 8 + v mod 256) with v by dlia. apply (sx_id 16); [lia|]. change (2 ^ (16 - 1)) with 32768. lia.
Qed.
Lemma encoded_long v : in_s32 v -> s32 (unbe (be 4 (u32 v))) = v.
Proof.
  intros Hv. rewrite unbe_be by (apply (wrap_range 32); lia). unfold s32, u32. rewrite sx_wrap by lia. apply sx_id; [lia|exact Hv].
Qed.

(** ** Decoding what was encoded

    [runs m bs a o]: on input that goes on with [bs], [m] consumes that, returns
    [a] and appends [o] to the output, if there is room. *)
Definition ahead (s : donn) (l : list Z) : Prop := zdrop (ic_off s) (ic_p s) = l.
Section Runs.
Context (p : list Z) (alloc cap : Z) (Hp : is_byte_list p) (Hplen : zlen p + 4194304 <= 2 ^ size_bits) (Hcap : cap <= alloc) (Hclen : cap + 4194304 <= 2 ^ size_bits).
Definition anything (_ : list Z) : Prop := True.
#[local] Abbreviation ok := (dec_inv p alloc cap anything 0).
Definition runs {A} (m : dec A) (bs : list Z) (a : A) (o : list Z) : Prop := forall s l, ok s -> ahead s (bs ++ l) -> zlen (oc_out s) + zlen o <= cap ->
  exists s', m s = Ok (a, s') /\ ok s' /\ ahead s' l /\ oc_out s' = oc_out s ++ o /\ vt_buf s' = vt_buf s.
Lemma runs_bind {A B} (m : dec A) (k : A -> dec B) bs bs' a b o o' : runs m bs a o -> runs (k a) bs' b o' -> runs (m ≫= k) (bs ++ bs') b (o ++ o').
Proof.
  intros Hm Hk s l Hs Ha Hr. rewrite <-app_assoc in Ha. rewrite zlen_app in Hr. pose proof (zlen_nonneg o').
  destruct (Hm s (bs' ++ l) Hs Ha) as (s1 & E1 & H1 & A1 & O1 & V1); [lia|].
  destruct (Hk s1 l H1 A1) as (s2 & E2 & H2 & A2 & O2 & V2); [rewrite O1, zlen_app; lia|].
  exists s2. unfold mbind, dec_bind. rewrite E1. split; [done|]. split; [done|]. split; [done|]. by rewrite O2, O1, V2, V1, app_assoc.
Qed.
Lemma runs_ret {A} (a : A) : runs (mret a) [] a [].
Proof. intros s l Hs Ha _. exists s. rewrite app_nil_r. done. Qed.
Lemma ahead_cons s b l : ok s -> ahead s (b :: l) -> ic_off s < zlen p /\ p !! Z.to_nat (ic_off s) = Some b /\ zdrop (ic_off s + 1) p = l.
Proof.
  intros [] Ha. unfold ahead in Ha. rewrite di_p in Ha. destruct (Z.le_gt_cases (zlen p) (ic_off s)).
  { unfold zdrop, zlen in *. rewrite drop_ge in Ha by lia. done. }
  destruct (byte_at_in p (ic_off s)) as (b' & E & _); [lia|]. unfold zdrop in *. rewrite (drop_S _ _ _ E) in Ha. injection Ha as -> Hl.
  split; [done|]. split; [done|]. rewrite Z2Nat.inj_add by lia. by rewrite Nat.add_1_r.
Qed.
Lemma runs_u8 b : runs ic_get_u8 [b] b [].
Proof.
  intros s l Hs Ha _. destruct (ahead_cons s b l Hs Ha) as (Hl & Eb & Hd). pose proof Hs as []. unfold ic_get_u8. rewrite di_p.
  destruct (Z.leb_spec (zlen p) (ic_off s)); [lia|]. unfold byte_at. destruct (Z.ltb_spec (ic_off s) 0); [lia|]. rewrite Eb. cbn [mbind out_bind].
  eexists. split; [done|]. rewrite app_nil_r. split; [split; cbn; try done; lia|]. unfold ahead. cbn. by rewrite di_p.
Qed.
Lemma runs_n d : zlen d <= 4194303 -> runs (ic_get_n (zlen d)) d d [].
Proof.
  intros Hd s l Hs Ha _. pose proof Hs as []. unfold ahead in Ha. rewrite di_p in Ha. pose proof (zlen_nonneg d). pose proof (zlen_nonneg l).
  assert (zlen p - ic_off s = zlen d + zlen l) as Hz.
  { pose proof (f_equal zlen Ha) as Hz. rewrite zlen_zdrop, zlen_app in Hz by lia. lia. }
  unfold ic_get_n. rewrite di_p, (usize_room p cap) by (done || lia). destruct (Z.ltb_spec (zlen p) (ic_off s + zlen d)); [lia|].
  rewrite window_in by lia. cbn [mbind out_bind]. rewrite Ha, ztake_app by done. eexists. split; [done|]. rewrite app_nil_r.
  split; [split; cbn; try done; lia|]. split; [|done]. unfold ahead. cbn. rewrite di_p, <-zdrop_zdrop, Ha by lia. by apply zdrop_exact.
Qed.
Lemma runs_lift {A} (m : out A) a : m = Ok a -> runs (lift m) [] a [].
Proof. intros ->. apply runs_ret. Qed.
Lemma runs_add32 a b : - 2 ^ 31 <= a + b < 2 ^ 31 -> runs (add32 a b) [] (a + b) [].
Proof. intros Hab s l Hs Ha _. exists s. unfold add32. zprune. rewrite app_nil_r. done. Qed.
Lemma out_ok s o : ok s -> is_byte_list o -> zlen (oc_out s) + zlen o <= cap -> ok (set_oc_out (oc_out s ++ o) s).
Proof. intros. by apply put_inv. Qed.
Lemma runs_put_u8 b : octet b -> runs (oc_put_u8 b) [] tt [b].
Proof.
  intros Hb s l Hs Ha Hr. change (zlen [b]) with 1 in Hr. unfold oc_put_u8. rewrite (di_cap _ _ _ _ _ _ Hs), (di_alloc _ _ _ _ _ _ Hs).
  destruct (Z.leb_spec cap (zlen (oc_out s))); [lia|]. rewrite emit_in by lia. eexists. split; [done|]. split; [|done].
  apply out_ok; [done|by constructor|done].
Qed.
Lemma runs_put_u16 v : runs (oc_put_u16_be v) [] tt (be 2 v).
Proof.
  intros s l Hs Ha Hr. rewrite zlen_be in Hr. change (Z.of_nat 2) with 2 in Hr. unfold oc_put_u16_be. rewrite (di_cap _ _ _ _ _ _ Hs), (di_alloc _ _ _ _ _ _ Hs).
  pose proof (zlen_nonneg (oc_out s)). rewrite (usize_room p cap) by (done || lia). destruct (Z.ltb_spec cap (zlen (oc_out s) + 2)); [lia|].
  rewrite emit_in by lia. cbn [mbind out_bind]. rewrite emit_in by (zlens; lia). cbn [mbind out_bind]. rewrite <-app_assoc. cbn [app].
  change [u8 (Z.shiftr v 8); u8 v] with (be 2 v). eexists. split; [done|]. split; [|done]. apply out_ok; [done|apply bytes_be|]. rewrite zlen_be. lia.
Qed.
Lemma runs_put_n d : is_byte_list d -> zlen d <= 4194303 -> runs (oc_put_n d) [] tt d.
Proof.
  intros Hd Hl s l Hs Ha Hr. unfold oc_put_n. rewrite (di_cap _ _ _ _ _ _ Hs), (di_alloc _ _ _ _ _ _ Hs). pose proof (zlen_nonneg (oc_out s)). pose proof (zlen_nonneg d).
  rewrite (usize_room p cap) by (done || lia). destruct (Z.ltb_spec cap (zlen (oc_out s) + zlen d)); [lia|]. destruct (Z.ltb_spec alloc (zlen (oc_out s) + zlen d)); [lia|].
  eexists. split; [done|]. split; [by apply out_ok|done].
Qed.
(** A loop over a list of items. *)
Lemma runs_for {A X} (body : Z -> A -> dec A) (bs : X -> list Z) (next : A -> X -> A) (o : A -> X -> list Z) (ok_at : A -> list X -> Prop) :
  (forall a x xs, ok_at a (x :: xs) -> ok_at (next a x) xs /\ forall i, runs (body i a) (bs x) (next a x) (o a x)) ->
  forall xs i a, ok_at a xs -> - 2 ^ 31 <= i -> i + zlen xs < 2 ^ 31 ->
  runs (for32 (length xs) i body a) (concat (bs <$> xs)) (foldl next a xs) (snd (foldl (fun '(a, r) x => (next a x, r ++ o a x)) (a, []) xs)).
Proof.
  intros Hstep. assert (forall xs a r, snd (foldl (fun '(a, r) x => (next a x, r ++ o a x)) (a, r) xs) = r ++ snd (foldl (fun '(a, r) x => (next a x, r ++ o a x)) (a, []) xs)) as Hacc.
  { induction xs as [|x xs IH]; intros a r; [by rewrite app_nil_r|]. cbn [foldl]. rewrite IH, (IH _ ([] ++ _)). by rewrite <-app_assoc. }
  induction xs as [|x xs IH]; intros i a Hok Hi Hl; [apply runs_ret|]. rewrite zlen_cons in Hl. pose proof (zlen_nonneg xs). destruct (Hstep a x xs Hok) as [Hok' Hb].
  cbn [length for32 fmap list_fmap concat foldl]. rewrite Hacc. eapply runs_bind; [apply Hb|].
  eapply (runs_bind (add32 i 1) _ [] _ (i + 1) _ []); [apply runs_add32; lia|]. apply IH; [done|lia..].
Qed.

Lemma runs_enc v : in_s32 v -> runs get_encoded (enc v) v [].
Proof.
  intros Hv. unfold enc, get_encoded, in_s32 in *. destruct (Z.leb_spec 0 v), (Z.ltb_spec v 128); cbn [andb].
  1: { apply (runs_bind _ _ [v] [] v _ [] []); [apply runs_u8|]. destruct (Z.ltb_spec v 128); [|lia]. apply runs_ret. }
  all: destruct (Z.leb_spec (-16384) v), (Z.ltb_spec v 16128); cbn [andb]; try (exfalso; lia).
  all: try (apply (runs_bind _ _ [_] [_] (0xC0 + Z.shiftr v 8) _ [] []); [apply runs_u8|];
    assert (-64 <= Z.shiftr v 8 <= 62) by (rewrite Z.shiftr_div_pow2 by lia; dlia);
    destruct (Z.ltb_spec (192 + Z.shiftr v 8) 128); [lia|]; destruct (Z.eqb_spec (192 + Z.shiftr v 8) 255); [lia|];
    apply (runs_bind _ _ [_] [] (v mod 256) _ [] []); [apply runs_u8|]; cbv zeta;
    destruct (encoded_pair v) as [-> ->]; [lia|]; apply runs_ret).
  all: apply (runs_bind _ _ [_] (be 4 (u32 v)) 0xFF _ [] []); [apply runs_u8|]; cbn [Z.ltb Z.eqb];
    apply (runs_bind _ _ (be 4 (u32 v)) [] (be 4 (u32 v)) _ [] []); [apply (runs_n (be 4 (u32 v))); rewrite zlen_be; lia|];
    rewrite encoded_long by done; apply runs_ret.
Qed.

(** One call after the other. *)
Lemma runs_then {A B} (m : dec A) (k : A -> dec B) bs bs' a b o o' bs2 o2 : runs m bs a o -> runs (k a) bs' b o' -> bs2 = bs ++ bs' -> o2 = o ++ o' ->
  runs (m ≫= k) bs2 b o2.
Proof. intros ? ? -> ->. by eapply runs_bind. Qed.
Lemma runs_word v : runs (oc_put_u16_be (u16 v)) [] tt (words [v]).
Proof. unfold words. cbn [fmap list_fmap concat]. rewrite app_nil_r. apply runs_put_u16. Qed.
Lemma words_app a b : words (a ++ b) = words a ++ words b.
Proof. unfold words. by rewrite fmap_app, concat_app. Qed.
Lemma sums_fold (g : Z -> list Z) : forall ds v, concat (g <$> sums v ds) = g v ++ snd (foldl (fun '(a, r) d => (a + d, r ++ g (a + d))) (v, []) ds).
Proof.
  assert (forall (ds : list Z) a r, snd (foldl (fun '(a, r) d => (a + d, r ++ g (a + d))) (a, r) ds) = r ++ snd (foldl (fun '(a, r) d => (a + d, r ++ g (a + d))) (a, []) ds)) as Hacc.
  { induction ds as [|d ds IH]; intros a r; [by rewrite app_nil_r|]. cbn [foldl]. rewrite IH, (IH _ ([] ++ _)). by rewrite <-app_assoc. }
  induction ds as [|d ds IH]; intros v; [done|]. cbn [sums fmap list_fmap concat foldl]. rewrite IH, (Hacc _ _ ([] ++ _)). done.
Qed.
Lemma sums_head v ds : Forall in_s32 (sums v ds) -> in_s32 v.
Proof. destruct ds; inversion 1; done. Qed.
Lemma count_ok {A} (l : list A) : zlen l < 2 ^ 31 -> in_s32 (zlen l).
Proof. pose proof (zlen_nonneg l). unfold in_s32. lia. Qed.
Lemma length_count {A} (l : list A) : length l = Z.to_nat (zlen l).
Proof. unfold zlen. lia. Qed.

Lemma runs_diff delta (f : Z -> list Z) v ds : Forall in_s32 (sums v ds) -> zlen ds < 2 ^ 31 -> Forall (fun d => runs delta (f d) d []) ds ->
  runs (do_diff delta) (enc v ++ enc (zlen ds) ++ concat (f <$> ds)) tt (words (sums v ds)).
Proof.
  intros Hs Hl Hd. unfold do_diff. eapply runs_then; [apply runs_enc, (sums_head v ds Hs)| |done|symmetry; apply app_nil_l].
  eapply runs_then; [by apply runs_enc, (count_ok ds)| |done|symmetry; apply app_nil_l].
  eapply runs_then; [apply runs_put_u16| |symmetry; apply app_nil_l|apply (sums_fold (fun v => be 2 (u16 v)))].
  rewrite <-length_count.
  eapply runs_then; [|apply runs_ret|by rewrite app_nil_r|by rewrite app_nil_r].
  apply (runs_for _ f Z.add (fun a x => be 2 (u16 (a + x))) (fun a xs => Forall in_s32 (sums a xs) /\ Forall (fun d => runs delta (f d) d []) xs)); [|done|done|lia].
  intros a x xs [Ha Hx]. cbn [sums] in Ha. destruct (Forall_cons_1 _ _ _ Ha) as [_ Ha']. destruct (Forall_cons_1 _ _ _ Hx) as [Hx1 Hx2]. split; [done|]. intros i.
  eapply runs_then; [apply Hx1| |by rewrite app_nil_r|symmetry; apply app_nil_l].
  eapply runs_then; [apply runs_add32, (sums_head _ xs Ha')| |done|symmetry; apply app_nil_l].
  eapply runs_then; [apply runs_put_u16|apply runs_ret|done|by rewrite app_nil_r].
Qed.
Lemma runs_runlen put v n o : in_s32 v -> 0 <= n < 2 ^ 31 -> runs (put v) [] tt o ->
  runs (do_runlen put) (enc v ++ enc (n - 1)) tt (concat (replicate (Z.to_nat n) o)).
Proof.
  intros Hv Hn Hput. unfold do_runlen. eapply runs_then; [by apply runs_enc| |done|symmetry; apply app_nil_l].
  eapply runs_then; [apply (runs_enc (n - 1)); unfold in_s32; lia| |by rewrite app_nil_r|symmetry; apply app_nil_l].
  replace (n - 1 + 1) with n by lia. assert (forall k i, -2 ^ 31 <= i -> i + Z.of_nat k < 2 ^ 31 -> runs (for32 k i (fun _ _ => put v) tt) [] tt (concat (replicate k o))) as Hk.
  { induction k as [|k IH]; intros i Hi Hk; [apply runs_ret|]. cbn [for32]. eapply runs_then; [apply Hput| |done|done].
    eapply runs_then; [apply runs_add32; lia|apply IH; lia|done|done]. }
  apply Hk; lia.
Qed.

Lemma put_long_be v : runs (put_long v) [] tt (be 4 v).
Proof.
  assert (be 4 v = [u8 (Z.shiftr v 24)] ++ [u8 (Z.shiftr v 16)] ++ [u8 (Z.shiftr v 8)] ++ [u8 v]) as ->.
  { unfold be. cbn. by rewrite !Z.shiftr_shiftr by lia. }
  unfold put_long. repeat (eapply runs_then; [apply runs_put_u8, u8_range| |done|reflexivity]). apply runs_put_u8, u8_range.
Qed.
Lemma u32_idem a b : u32 (u32 a + u32 b) = u32 (a + b).
Proof. unfold u32. by rewrite wrap_add_l, wrap_add_r. Qed.
Lemma runs_diff_long v ds : in_s32 v -> Forall in_s32 ds -> zlen ds < 2 ^ 31 ->
  runs do_diff_enc_long (enc v ++ enc (zlen ds) ++ concat (enc <$> ds)) tt (concat ((fun v => be 4 (u32 v)) <$> sums v ds)).
Proof.
  intros Hv Hd Hl. unfold do_diff_enc_long. eapply runs_then; [by apply runs_enc| |done|symmetry; apply app_nil_l].
  eapply runs_then; [by apply runs_enc, (count_ok ds)| |done|symmetry; apply app_nil_l].
  eapply runs_then; [apply put_long_be| |symmetry; apply app_nil_l|apply (sums_fold (fun v => be 4 (u32 v)))]. rewrite <-length_count.
  eapply runs_then; [|apply runs_ret|by rewrite app_nil_r|by rewrite app_nil_r].
  assert (forall a r, snd (foldl (fun '(a, r) d => (a + d, r ++ be 4 (u32 (a + d)))) (a, r) ds) =
    snd (foldl (fun '(a, r) d => (u32 (a + u32 d), r ++ be 4 (u32 (a + u32 d)))) (u32 a, r) ds)) as ->.
  { clear. induction ds as [|d ds IH]; intros a r; [done|]. cbn [foldl]. rewrite IH, u32_idem. done. }
  apply (runs_for _ enc (fun a d => u32 (a + u32 d)) (fun a d => be 4 (u32 (a + u32 d))) (fun _ xs => Forall in_s32 xs)); [|done|done|lia].
  intros a x xs Hx. destruct (Forall_cons_1 _ _ _ Hx) as [Hx1 Hx2]. split; [done|]. intros i.
  eapply runs_then; [by apply runs_enc| |by rewrite app_nil_r|symmetry; apply app_nil_l]. cbv zeta.
  eapply runs_then; [apply put_long_be|apply runs_ret|done|by rewrite app_nil_r].
Qed.
Lemma runs_words3 a b c : runs (oc_put_u16_be (u16 a);; oc_put_u16_be (u16 b);; oc_put_u16_be (u16 c)) [] tt (words [a; b; c]).
Proof. eapply runs_then; [apply runs_word| |done|apply (words_app [a])]. eapply runs_then; [apply runs_word|apply runs_word|done|apply (words_app [b])]. Qed.
Lemma runs_jump seg ds : op_ok [] (JumpTable seg ds) -> runs do_jt_trans (enc seg ++ enc (zlen ds) ++ concat (enc <$> ds)) tt (op_out [] (JumpTable seg ds)).
Proof.
  intros (Hs & Hd & Hd6 & Hsum & Hl). unfold do_jt_trans. eapply runs_then; [by apply runs_enc| |done|symmetry; apply app_nil_l].
  eapply runs_then; [by apply runs_enc, (count_ok ds)| |done|symmetry; apply app_nil_l]. rewrite <-length_count. cbn [op_out].
  eapply runs_then; [|apply (runs_words3 0x3F3C seg 0xA9F0)|by rewrite app_nil_r|reflexivity].
  set (xs := (fun d => d - 6) <$> ds) in *. assert (length ds = length xs) as -> by (unfold xs; by rewrite length_fmap).
  set (g := fun o => words [0x3F3C; seg; 0xA9F0; o]).
  assert (concat (enc <$> ds) = concat ((fun x => enc (x + 6)) <$> xs)) as ->.
  { unfold xs. rewrite <-list_fmap_compose. f_equal. apply list_fmap_ext. intros i d _. cbn. f_equal. lia. }
  assert (concat (g <$> drop 1 (sums 6 xs)) = snd (foldl (fun '(a, r) d => (a + d, r ++ g (a + d))) (6, []) xs)) as ->.
  { pose proof (sums_fold g xs 6) as Hf. destruct xs; [done|]. cbn [sums fmap list_fmap concat] in Hf. by apply app_inv_head in Hf. }
  apply (runs_for _ (fun x => enc (x + 6)) Z.add (fun a x => g (a + x)) (fun a xs => Forall in_s32 (sums a xs) /\ Forall (fun x => in_s32 x /\ in_s32 (x + 6)) xs)).
  - intros a x rest [Ha Hx]. cbn [sums] in Ha. destruct (Forall_cons_1 _ _ _ Ha) as [_ Ha']. destruct (Forall_cons_1 _ _ _ Hx) as [[Hx1 Hx6] Hx2]. split; [done|]. intros i.
    eapply runs_then; [by apply runs_enc| |by rewrite app_nil_r|symmetry; apply app_nil_l].
    eapply runs_then; [apply (runs_add32 (x + 6) (-6)); unfold in_s32 in *; lia| |done|symmetry; apply app_nil_l]. replace (x + 6 + -6) with x by lia.
    eapply runs_then; [apply runs_add32, (sums_head _ rest Ha')| |done|symmetry; apply app_nil_l].
    eapply runs_then; [apply (runs_word 0x3F3C)| |done|apply (words_app [_])]. eapply runs_then; [apply runs_word| |done|apply (words_app [_])].
    eapply runs_then; [apply (runs_word 0xA9F0)| |done|apply (words_app [_])]. eapply runs_then; [apply runs_word|apply runs_ret|done|by rewrite app_nil_r].
  - split; [done|]. unfold xs. apply Forall_fmap. apply Forall_forall. intros d Hin. rewrite Forall_forall in Hd, Hd6. cbn. split; [by apply Hd6|].
    replace (d - 6 + 6) with d by lia. by apply Hd.
  - done.
  - unfold xs, zlen in *. rewrite length_fmap. lia.
Qed.
(** The entries of a vector, the next offset coming from [nx]. *)
Section Entries.
Context (nx : Z -> dec Z) (f : Z -> list Z) (count : Z).
Definition entry_body (i : Z) '(cur_branch, cur_off) : dec (Z * Z) :=
  oc_put_u16_be 0x6100;;
  oc_put_u16_be (u16 cur_branch);;
  oc_put_u16_be 0x4EED;;
  oc_put_u16_be (u16 cur_off);;
  cur_branch ← add32 cur_branch (-8);
  cur_off ← (if i <? count then nx cur_off else mret cur_off);
  mret (cur_branch, cur_off).
Fixpoint chain (cur : Z) (offs : list Z) : Prop :=
  match offs with [] => True | o :: offs => runs (nx cur) (f o) o [] /\ chain o offs end.
Lemma runs_entries : forall offs i br off, chain off offs -> 0 <= i -> count = i + zlen offs -> count + 1 < 2 ^ 31 ->
  br < 2 ^ 31 -> - 2 ^ 31 <= br - 8 * (zlen offs + 1) -> exists r,
  runs (for32 (S (length offs)) i entry_body (br, off)) (concat (f <$> offs)) r
    (concat (imap (fun j o => words [0x6100; br - 8 * Z.of_nat j; 0x4EED; o]) (off :: offs))).
Proof.
  assert (forall i br off bs r, runs (if i <? count then nx off else mret off) bs r [] -> - 2 ^ 31 <= br - 8 -> br < 2 ^ 31 ->
    runs (entry_body i (br, off)) bs (br - 8, r) (words [0x6100; br; 0x4EED; off])) as Hb.
  { intros i br off bs r Hr Hlo Hhi. unfold entry_body. eapply runs_then; [apply (runs_word 0x6100)| |done|apply (words_app [_])].
    eapply runs_then; [apply runs_word| |done|apply (words_app [_])]. eapply runs_then; [apply (runs_word 0x4EED)| |done|apply (words_app [_])].
    eapply runs_then; [apply runs_word| |done|by rewrite app_nil_r]. eapply runs_then; [apply (runs_add32 br (-8)); lia| |done|done].
    eapply runs_then; [apply Hr|apply runs_ret|by rewrite app_nil_r|done]. }
  induction offs as [|o offs IH]; intros i br off Hc Hi Hn Hn2 Hbr Hlo.
  - exists (br - 8, off). change (zlen []) with 0 in *. cbn [length fmap list_fmap concat imap]. rewrite app_nil_r, Z.mul_0_r, Z.sub_0_r.
    cbn [for32]. eapply runs_then; [apply (Hb i br off [] off); [|lia..]| |done|by rewrite app_nil_r].
    + destruct (Z.ltb_spec i count); [lia|]. apply runs_ret.
    + eapply runs_then; [apply runs_add32; lia|apply runs_ret|done|done].
  - destruct Hc as [Ho Hc]. rewrite zlen_cons in Hn, Hlo. pose proof (zlen_nonneg offs). destruct (IH (i + 1) (br - 8) o Hc) as [r Hr]; [lia..|]. exists r.
    cbn [length]. change (for32 (S (S (length offs))) i entry_body (br, off)) with
      (a ← entry_body i (br, off); j ← add32 i 1; for32 (S (length offs)) j entry_body a).
    cbn [fmap list_fmap]. rewrite imap_cons. cbn [concat]. rewrite Z.mul_0_r, Z.sub_0_r.
    eapply runs_then; [apply (Hb i br off (f o) o); [|lia..]| |done|].
    + destruct (Z.ltb_spec i count); [apply Ho|lia].
    + eapply runs_then; [apply runs_add32; lia|apply Hr|done|symmetry; apply app_nil_l].
    + do 2 f_equal. apply imap_ext. intros j x _. unfold compose. by replace (br - 8 * Z.of_nat (S j)) with (br - 8 - 8 * Z.of_nat j) by lia.
Qed.
End Entries.

Lemma runs_entry_vector branch off offs : op_ok [] (EntryVector branch off offs) ->
  runs do_entry_vector (enc branch ++ enc 0 ++ enc (zlen offs) ++ enc off ++ concat (enc <$> offs)) tt (op_out [] (EntryVector branch off offs)).
Proof.
  intros (Hb & Ho & Hlo & Hl). destruct (Forall_cons_1 _ _ _ Ho) as [Ho1 Ho2]. pose proof (zlen_nonneg offs). unfold do_entry_vector.
  eapply runs_then; [by apply (runs_enc branch)| |done|symmetry; apply app_nil_l]. eapply runs_then; [apply (runs_enc 0); unfold in_s32; lia| |done|symmetry; apply app_nil_l].
  eapply runs_then; [apply runs_enc, (count_ok offs); lia| |done|symmetry; apply app_nil_l]. eapply runs_then; [by apply (runs_enc off)| |done|symmetry; apply app_nil_l].
  replace (Z.to_nat (zlen offs + 1)) with (S (length offs)) by (unfold zlen; lia).
  destruct (runs_entries (fun _ => get_encoded) enc (zlen offs) offs 0 branch off) as [r Hr]; try (unfold in_s32 in *; lia).
  { clear -Ho2 Hp Hplen Hcap Hclen. revert off. induction offs as [|o offs IH]; intros off; [done|]. destruct (Forall_cons_1 _ _ _ Ho2) as [? ?]. cbn [chain].
    split; [by apply runs_enc|by apply IH]. }
  eapply runs_then; [exact Hr|apply runs_ret|by rewrite app_nil_r|by rewrite app_nil_r].
Qed.
Lemma seqZ_imap {A B} (F : Z -> A -> B) (g : Z -> A) n : imap (fun j o => F (Z.of_nat j) o) (g <$> seqZ 0 n) = (fun i => F i (g i)) <$> seqZ 0 n.
Proof.
  apply list_eq. intros i. rewrite list_lookup_imap, !list_lookup_fmap. destruct (seqZ 0 n !! i) as [x|] eqn:E; [|done].
  apply lookup_seqZ in E as [-> _]. done.
Qed.
Lemma runs_entry_steps branch delta off n : op_ok [] (EntrySteps branch delta off n) ->
  runs do_entry_vector (enc branch ++ enc delta ++ enc n ++ enc off) tt (op_out [] (EntrySteps branch delta off n)).
Proof.
  intros (Hd & Hds & Hn & Hb & Hlo & Ho & Hon). unfold do_entry_vector.
  eapply runs_then; [by apply (runs_enc branch)| |done|symmetry; apply app_nil_l]. eapply runs_then; [by apply (runs_enc delta)| |done|symmetry; apply app_nil_l].
  eapply runs_then; [apply (runs_enc n); unfold in_s32; lia| |done|symmetry; apply app_nil_l].
  eapply runs_then; [by apply (runs_enc off)| |by rewrite app_nil_r|symmetry; apply app_nil_l].
  set (offs := (fun j => off + delta * j) <$> seqZ 1 n). assert (zlen offs = n) as Hz by (unfold offs, zlen; rewrite length_fmap, length_seqZ; lia).
  replace (Z.to_nat (n + 1)) with (S (length offs)) by (unfold zlen in Hz; lia).
  assert (off :: offs = (fun j => off + delta * j) <$> seqZ 0 (n + 1)) as Eo.
  { rewrite (seqZ_cons 0) by lia. cbn [fmap list_fmap]. f_equal; [lia|]. unfold offs. f_equal. f_equal; lia. }
  destruct (runs_entries (fun co => add32 co delta) (fun _ => []) n offs 0 branch off) as [r Hr]; try (unfold in_s32 in *; lia).
  { assert (forall k j, 0 <= j -> j + Z.of_nat k <= n -> chain (fun co => add32 co delta) (fun _ => []) (off + delta * j) ((fun j => off + delta * j) <$> seqZ (j + 1) (Z.of_nat k))) as Hch.
    { induction k as [|k IH]; intros j Hj Hk; [done|]. rewrite seqZ_cons by lia. cbn [fmap list_fmap chain].
      split; [|replace (Z.succ (j + 1)) with (j + 1 + 1) by lia; replace (Z.pred (Z.of_nat (S k))) with (Z.of_nat k) by lia; apply IH; lia].
      replace (off + delta * (j + 1)) with (off + delta * j + delta) by lia. apply runs_add32. unfold in_s32 in *. nia. }
    specialize (Hch (Z.to_nat n) 0). rewrite Z.mul_0_r, Z.add_0_r, Z2Nat.id in Hch by lia. apply Hch; lia. }
  assert (concat ((fun _ : Z => @nil Z) <$> offs) = []) as Ec by (clear; induction offs; done).
  assert (truthy delta = true) as Ht by (unfold truthy; by destruct (Z.eqb_spec delta 0)).
  eapply runs_then; [|apply runs_ret|by rewrite app_nil_r|by rewrite app_nil_r].
  cbn [op_out]. rewrite Eo, (seqZ_imap (fun i o => words [0x6100; branch - 8 * i; 0x4EED; o])) in Hr. rewrite Ht. exact Hr.
Qed.

Lemma short_code d : is_short d = true -> string_ok d -> 1 <= zlen d / 2 <= 15 /\ zlen d / 2 * 2 = zlen d.
Proof. unfold is_short. intros Hs (_ & He & _). apply andb_true_iff in Hs as [?%Z.leb_le ?%Z.leb_le]. split; dlia. Qed.
Definition is_extension (o : donn_op) : bool := match o with Literal _ | Remember _ | Reuse _ | Constant _ => false | _ => true end.
Lemma in_s32_8 d : -128 <= d < 128 -> s8 (u8 d) = d.
Proof. intros. unfold s8, u8. rewrite sx_wrap by lia. apply sx_id; [lia|]. change (2 ^ (8 - 1)) with 128. lia. Qed.
Lemma runs_extension o : is_extension o = true -> op_ok [] o -> runs do_extension (op_args o) tt (op_out [] o).
Proof.
  intros He Ho. unfold do_extension. destruct o; try done; cbn [op_args]; (eapply runs_then; [apply runs_u8| |reflexivity|symmetry; apply app_nil_l]); cbn [Z.eqb Pos.eqb].
  - destruct Ho as [Hv Hn]. cbn [op_out]. eapply (eq_rect _ (runs _ _ _)); [by apply (runs_runlen _ v n [u8 v]); [..|apply runs_put_u8, u8_range]|].
    clear. induction (Z.to_nat n) as [|k IH]; [done|]. cbn. by f_equal.
  - destruct Ho as [Hv Hn]. cbn [op_out]. eapply (eq_rect _ (runs _ _ _)); [by apply (runs_runlen _ v n (words [v])); [..|apply runs_word]|].
    clear. induction (Z.to_nat n) as [|k IH]; [done|]. cbn [replicate concat]. by rewrite IH, <-words_app.
  - destruct Ho as (Hs & Hd & Hl). cbn [op_out]. assert (u8 <$> ds = concat ((fun d => [u8 d]) <$> ds)) as ->.
    { clear. induction ds as [|d ds IH]; [done|]. cbn. by f_equal. }
    apply runs_diff; [done..|]. eapply Forall_impl; [|exact Hd]. intros d Hd1. cbn beta.
    eapply runs_then; [apply (runs_u8 (u8 d))| |by rewrite app_nil_r|done]. rewrite in_s32_8 by done. apply runs_ret.
  - destruct Ho as (Hs & Hd & Hl). apply runs_diff; [done..|]. eapply Forall_impl; [|exact Hd]. intros d Hd1. by apply runs_enc.
  - destruct Ho as (Hs & Hd & Hl). by apply runs_diff_long.
  - by apply runs_jump.
  - by apply runs_entry_vector.
  - by apply runs_entry_steps.
Qed.
(** The bytes that follow the opcode of a string. *)
Definition get_string : dec (list Z) :=
  n_words ← get_encoded;
  lift (refuse ((n_words <? 0) || (0x100000 <? n_words)) Rejected);;
  ic_get_n (n_words * 2).
Lemma unpack_string op s : op = 0x00 \/ op = 0x10 ->
  unpack_op op s = (src ← get_string; (if op =? 0x10 then remember src else mret tt);; oc_put_n src) s.
Proof.
  intros Hop. unfold unpack_op. replace ((op =? 0) || (op =? 16)) with true by lia. unfold get_string, mbind, dec_bind, lift.
  destruct (get_encoded s) as [[n s1]| |]; [|done..]. by destruct (refuse _ _).
Qed.
Lemma runs_string d : string_ok d -> runs get_string (enc (zlen d / 2) ++ d) d [].
Proof.
  intros (Hd & He & Hl). unfold get_string. pose proof (zlen_nonneg d). eapply runs_then; [apply (runs_enc (zlen d / 2)); unfold in_s32; dlia| |done|symmetry; apply app_nil_l].
  assert (refuse ((zlen d / 2 <? 0) || (0x100000 <? zlen d / 2)) Rejected = Ok tt) as ->.
  { destruct (Z.ltb_spec (zlen d / 2) 0), (Z.ltb_spec 0x100000 (zlen d / 2)); try done; exfalso; dlia. }
  eapply runs_then; [by apply runs_lift| |done|done]. replace (zlen d / 2 * 2) with (zlen d) by dlia. apply runs_n. lia.
Qed.
Lemma runs_at {A} (m : dec A) bs a o s l : runs m bs a o -> ok s -> ahead s (bs ++ l) -> zlen (oc_out s) + zlen o <= cap ->
  exists s', m s = Ok (a, s') /\ ok s' /\ ahead s' l /\ oc_out s' = oc_out s ++ o /\ vt_buf s' = vt_buf s.
Proof. intros Hm. apply Hm. Qed.

(** Every operation does what it stands for. *)
Section Op.
Context (size : Z) (Hsize : 19 <= size_bits).
Definition op_fits (vs : list (list Z)) (o : donn_op) : Prop := match o with Remember d => vt_fits size vs d | _ => True end.
Definition op_runs (vs : list (list Z)) (o : donn_op) : Prop := forall s l, ok s -> vt_rep size (vt_buf s) vs -> ahead s (op_args o ++ l) ->
  zlen (oc_out s) + zlen (op_out vs o) <= cap ->
  exists s', unpack_op (op_code o) s = Ok (tt, s') /\ ok s' /\ ahead s' l /\ oc_out s' = oc_out s ++ op_out vs o /\ vt_rep size (vt_buf s') (op_vars vs o).
Lemma runs_op vs o : op_vars vs o = vs -> runs (unpack_op (op_code o)) (op_args o) tt (op_out vs o) -> op_runs vs o.
Proof.
  intros Hv Hr s l Hs Ht Ha Hroom. destruct (Hr s l Hs Ha Hroom) as (s' & E & Hok & Hl & Ho & Hb). exists s'. rewrite Hv, Hb. done.
Qed.
Lemma literal_runs vs d : string_ok d -> op_runs vs (Literal d).
Proof.
  intros Hd. pose proof Hd as (Hb & He & Hl). apply runs_op; [done|]. cbn [op_code op_args op_out]. destruct (is_short d) eqn:E.
  - destruct (short_code d E Hd) as [H1 H2]. unfold unpack_op. destruct (Z.eqb_spec (zlen d / 2) 0); [lia|]. destruct (Z.eqb_spec (zlen d / 2) 16); [lia|]. cbn [orb].
    destruct (Z.leb_spec (zlen d / 2) 15); [|lia]. rewrite H2. eapply runs_then; [apply runs_n; lia|apply runs_put_n; [done|lia]|by rewrite app_nil_r|done].
  - assert (runs (src ← get_string; mret tt;; oc_put_n src) (enc (zlen d / 2) ++ d) tt d) as Hall.
    { eapply runs_then; [by apply (runs_string d)| |by rewrite app_nil_r|symmetry; apply app_nil_l].
      eapply runs_then; [apply runs_ret|apply (runs_put_n d Hb); lia|done|done]. }
    intros s l Hs Ha Hroom. rewrite unpack_string by auto. by apply Hall.
Qed.
Lemma remember_put vs d s l : string_ok d -> vt_fits size vs d -> ok s -> vt_rep size (vt_buf s) vs -> ahead s l -> zlen (oc_out s) + zlen d <= cap ->
  exists s', (remember d;; oc_put_n d) s = Ok (tt, s') /\ ok s' /\ ahead s' l /\ oc_out s' = oc_out s ++ d /\ vt_rep size (vt_buf s') (vs ++ [d]).
Proof.
  intros (Hd & _ & Hl) Hf Hs Ht Ha Hroom. destruct (vt_remember_spec size (vt_buf s) vs d Ht Hd) as [(_ & vt' & E & Hr)|[Hn _]]; [|done].
  assert (ok (set_vt_buf vt' s)) as Hok by (destruct Hs; by split).
  destruct (runs_put_n d Hd ltac:(lia) (set_vt_buf vt' s) l Hok Ha Hroom) as (s' & E' & Hs' & Hl' & Ho & Hv). exists s'.
  unfold mbind, dec_bind, remember. rewrite E. cbn [mbind out_bind]. rewrite E', Hv. done.
Qed.
Lemma remember_runs vs d : string_ok d -> vt_fits size vs d -> op_runs vs (Remember d).
Proof.
  intros Hd Hf s l Hs Ht Ha Hroom. pose proof Hd as (Hb & He & Hl). cbn [op_code op_args op_out op_vars] in *. destruct (is_short d) eqn:E.
  - destruct (short_code d E Hd) as [H1 H2]. destruct (runs_n d ltac:(lia) s l Hs Ha) as (s1 & E1 & Hs1 & Hl1 & Ho1 & Hv1).
    { change (zlen []) with 0. pose proof (zlen_nonneg d). lia. }
    rewrite app_nil_r in Ho1. destruct (remember_put vs d s1 l Hd Hf Hs1) as (s2 & E2 & Hs2 & Hl2 & Ho2 & Hv2); [by rewrite Hv1|done|by rewrite Ho1|].
    exists s2. rewrite Ho1 in Ho2. split; [|done]. unfold unpack_op. destruct (Z.eqb_spec (16 + zlen d / 2) 0); [lia|]. destruct (Z.eqb_spec (16 + zlen d / 2) 16); [lia|]. cbn [orb].
    destruct (Z.leb_spec (16 + zlen d / 2) 15); [lia|]. destruct (Z.leb_spec (16 + zlen d / 2) 31); [|lia].
    replace ((16 + zlen d / 2 - 16) * 2) with (zlen d) by lia. unfold mbind at 1, dec_bind at 1. by rewrite E1.
  - destruct (runs_string d Hd s l Hs Ha) as (s1 & E1 & Hs1 & Hl1 & Ho1 & Hv1).
    { change (zlen []) with 0. pose proof (zlen_nonneg d). lia. }
    rewrite app_nil_r in Ho1. destruct (remember_put vs d s1 l Hd Hf Hs1) as (s2 & E2 & Hs2 & Hl2 & Ho2 & Hv2); [by rewrite Hv1|done|by rewrite Ho1|].
    exists s2. rewrite Ho1 in Ho2. split; [|done]. rewrite unpack_string by auto. unfold mbind at 1, dec_bind at 1. by rewrite E1.
Qed.
Lemma stored_string vt vs i v : vt_rep size vt vs -> vs !! i = Some v -> is_byte_list v /\ zlen v < 65536.
Proof.
  intros Hr E. pose proof (vr_data _ _ _ Hr i v E) as Hd. pose proof (lookup_lt_Some _ _ _ E). split.
  - rewrite <-Hd. apply bytes_slice, Hr.
  - pose proof (vt_end_S size vs i v E). pose proof (vt_bounds size vt vs i Hr ltac:(lia)). pose proof (vt_bounds size vt vs (S i) Hr ltac:(lia)). lia.
Qed.
Lemma reuse_at vs i s l : 0 <= i < zlen vs -> i < 131072 -> ok s -> vt_rep size (vt_buf s) vs -> ahead s l -> zlen (oc_out s) + zlen (nth (Z.to_nat i) vs []) <= cap ->
  exists s', reuse i s = Ok (tt, s') /\ ok s' /\ ahead s' l /\ oc_out s' = oc_out s ++ nth (Z.to_nat i) vs [] /\ vt_rep size (vt_buf s') vs.
Proof.
  intros Hi Hi2 Hs Ht Ha Hroom. destruct (lookup_lt_is_Some_2 vs (Z.to_nat i)) as [v E]; [unfold zlen in Hi; lia|].
  rewrite (nth_lookup_Some _ _ _ _ E) in *. destruct (stored_string _ _ _ _ Ht E) as [Hb Hl].
  destruct (runs_put_n v Hb ltac:(lia) s l Hs Ha Hroom) as (s' & E' & Hs' & Hl' & Ho & Hv). exists s'. rewrite Hv. split; [|done].
  unfold reuse, fetch, mbind, dec_bind. rewrite (vt_fetch_spec size Hsize _ vs) by (done || lia). rewrite E. done.
Qed.
Lemma ahead_u8 s b l : ok s -> ahead s (b :: l) -> exists s', ic_get_u8 s = Ok (b, s') /\ ok s' /\ ahead s' l /\ oc_out s' = oc_out s /\ vt_buf s' = vt_buf s.
Proof.
  intros Hs Ha. destruct (runs_u8 b s l Hs Ha) as (s' & E & H1 & H2 & H3 & H4); [change (zlen []) with 0; pose proof (di_room _ _ _ _ _ _ Hs); lia|].
  rewrite app_nil_r in H3. by exists s'.
Qed.
Lemma reuse_runs vs i : 0 <= i < zlen vs -> i < 65576 -> op_runs vs (Reuse i).
Proof.
  intros Hi Hi2 s l Hs Ht Ha Hroom. cbn [op_code op_args op_out op_vars] in *. unfold unpack_op, MAX_1BYTE_REUSE.
  destruct (Z.ltb_spec i 40).
  { destruct (reuse_at vs i s l) as (s' & E & Hs'); try done; try lia. exists s'. split; [|done].
    replace ((35 + i =? 0) || (35 + i =? 16)) with false by lia. replace (35 + i <=? 15) with false by lia. replace (35 + i <=? 31) with false by lia.
    replace (35 + i =? 32) with false by lia. replace (35 + i =? 33) with false by lia. replace (35 + i =? 34) with false by lia. replace (35 + i <=? 74) with true by lia.
    by replace (35 + i - 35) with i by lia. }
  destruct (Z.ltb_spec i 296); [|destruct (Z.ltb_spec i 552)]; cbn [Z.eqb Z.leb Z.compare Pos.compare Pos.compare_cont Pos.eqb orb].
  - destruct (ahead_u8 s _ _ Hs Ha) as (s1 & E1 & Hs1 & Hl1 & Ho1 & Hv1). destruct (reuse_at vs i s1 l) as (s' & E & Hs'); try done; try lia; [by rewrite Hv1|by rewrite Ho1|].
    exists s'. rewrite Ho1 in Hs'. split; [|done]. unfold mbind, dec_bind. rewrite E1. by replace (i - 40 + 40) with i by lia.
  - destruct (ahead_u8 s _ _ Hs Ha) as (s1 & E1 & Hs1 & Hl1 & Ho1 & Hv1). destruct (reuse_at vs i s1 l) as (s' & E & Hs'); try done; try lia; [by rewrite Hv1|by rewrite Ho1|].
    exists s'. rewrite Ho1 in Hs'. split; [|done]. unfold mbind, dec_bind. rewrite E1. by replace (i - 296 + 40 + 256) with i by lia.
  - destruct (ahead_u8 s _ _ Hs Ha) as (s1 & E1 & Hs1 & Hl1 & Ho1 & Hv1). destruct (ahead_u8 s1 _ _ Hs1 Hl1) as (s2 & E2 & Hs2 & Hl2 & Ho2 & Hv2).
    destruct (reuse_at vs i s2 l) as (s' & E & Hs'); try done; try lia; [by rewrite Hv2, Hv1|by rewrite Ho2, Ho1|].
    exists s'. rewrite Ho2, Ho1 in Hs'. split; [|done]. unfold mbind, dec_bind. rewrite E1, E2, split_off by lia. by replace (i - 40 + 40) with i by lia.
Qed.
Lemma constant_runs vs op : 0x4B <= op <= 0xFD -> op_runs vs (Constant op).
Proof.
  intros Ho. apply runs_op; [done|]. cbn [op_code op_args op_out]. unfold unpack_op.
  replace ((op =? 0) || (op =? 16)) with false by lia. replace (op <=? 15) with false by lia. replace (op <=? 31) with false by lia.
  replace (op =? 32) with false by lia. replace (op =? 33) with false by lia. replace (op =? 34) with false by lia. replace (op <=? 74) with false by lia.
  replace (op <=? 253) with true by lia. destruct (byte_at_in g_const_words (op - 0x4B)) as (w & E & Ew); [change (zlen g_const_words) with 179; lia|].
  rewrite (nth_lookup_Some _ _ _ _ E). assert (0 <= w < 65536) as Hw.
  { assert (Forall (fun x => 0 <= x < 65536) g_const_words) as Hall by (unfold g_const_words; repeat constructor; done). exact (Forall_lookup_1 _ _ _ _ Hall E). }
  eapply runs_then; [by apply runs_lift| |done|done]. replace w with (u16 w) at 1 by (apply (wrap_small 16); unfold in_width; pow2; lia). apply runs_word.
Qed.
Lemma every_op_runs vs o : op_ok vs o -> op_fits vs o -> op_runs vs o.
Proof.
  intros Ho Hf. destruct (is_extension o) eqn:E.
  - assert (op_vars vs o = vs /\ op_code o = 0xFE /\ op_ok [] o /\ op_out vs o = op_out [] o) as (Hv & Hc & Ho' & Hout) by (by destruct o).
    apply runs_op; [done|]. rewrite Hc, Hout. by apply runs_extension.
  - destruct o; try done; [by apply literal_runs|by apply remember_runs|by apply reuse_runs; destruct Ho|by apply constant_runs].
Qed.
Fixpoint ops_ok (vs : list (list Z)) (ops : list donn_op) : Prop :=
  match ops with [] => True | o :: ops => op_ok vs o /\ op_fits vs o /\ ops_ok (op_vars vs o) ops end.
Fixpoint ops_out (vs : list (list Z)) (ops : list donn_op) : list Z :=
  match ops with [] => [] | o :: ops => op_out vs o ++ ops_out (op_vars vs o) ops end.
Definition op_bytes (o : donn_op) : list Z := op_code o :: op_args o.
Lemma op_code_not_end vs o : op_ok vs o -> op_code o <> 0xFF.
Proof.
  destruct o; cbn; intros Ho; try done; try lia.
  - destruct (is_short d) eqn:E; [|done]. destruct (short_code d E Ho). lia.
  - destruct (is_short d) eqn:E; [|done]. destruct (short_code d E Ho). lia.
  - zprune; lia.
Qed.
Lemma unpack_loop_runs tail : forall ops vs fuel s, (length ops < fuel)%nat -> ops_ok vs ops -> ok s -> vt_rep size (vt_buf s) vs ->
  ahead s (concat (op_bytes <$> ops) ++ 0xFF :: tail) -> zlen (oc_out s) + zlen (ops_out vs ops) <= cap ->
  exists s', unpack_loop fuel s = Ok (tt, s') /\ oc_out s' = oc_out s ++ ops_out vs ops.
Proof.
  induction ops as [|o ops IH]; intros vs fuel s Hf Hops Hs Ht Ha Hroom; (destruct fuel as [|fuel]; [lia|]); cbn [unpack_loop].
  - destruct (ahead_u8 s _ _ Hs Ha) as (s1 & E1 & Hs1 & Hl1 & Ho1 & Hv1). exists s1. unfold mbind, dec_bind. rewrite E1, Z.eqb_refl, Ho1. cbn [ops_out]. by rewrite app_nil_r.
  - destruct Hops as (Ho & Hfit & Hops). cbn [fmap list_fmap concat op_bytes ops_out] in *. unfold op_bytes at 1 in Ha. rewrite <-app_assoc in Ha. cbn [app] in Ha. rewrite zlen_app in Hroom.
    pose proof (zlen_nonneg (ops_out (op_vars vs o) ops)).
    destruct (ahead_u8 s _ _ Hs Ha) as (s1 & E1 & Hs1 & Hl1 & Ho1 & Hv1).
    destruct (every_op_runs vs o Ho Hfit s1 _ Hs1 ltac:(by rewrite Hv1) Hl1 ltac:(rewrite Ho1; lia)) as (s2 & E2 & Hs2 & Hl2 & Ho2 & Ht2).
    destruct (IH (op_vars vs o) fuel s2) as (s' & E' & Ho'); try done; [cbn in Hf; lia|rewrite Ho2, Ho1, zlen_app; lia|].
    exists s'. pose proof (op_code_not_end vs o Ho). unfold mbind, dec_bind. rewrite E1. destruct (Z.eqb_spec (op_code o) 0xFF); [done|]. rewrite E2, E', Ho', Ho2, Ho1. by rewrite app_assoc.
Qed.
End Op.
End Runs.

(** ** Whole resources *)
Lemma bytes_enc v : in_s32 v -> is_byte_list (enc v).
Proof.
  intros Hv. unfold enc. destruct ((0 <=? v) && (v <? 128)) eqn:E1; [repeat constructor; lia|].
  destruct ((-16384 <=? v) && (v <? 16128)) eqn:E2; [|constructor; [lia|apply bytes_be]].
  assert (-64 <= Z.shiftr v 8 <= 62) by (rewrite Z.shiftr_div_pow2 by lia; dlia). pose proof (Z.mod_pos_bound v 256). repeat constructor; lia.
Qed.
Lemma bytes_encs l : Forall in_s32 l -> is_byte_list (concat (enc <$> l)).
Proof. induction 1; [constructor|]. cbn [fmap list_fmap concat]. apply Forall_app. split; [by apply bytes_enc|done]. Qed.
Lemma bytes_op vs o : op_ok vs o -> is_byte_list (op_bytes o).
Proof.
  assert (forall a b : list Z, is_byte_list a -> is_byte_list b -> is_byte_list (a ++ b)) as Happ by (intros; by apply Forall_app).
  assert (forall b (l : list Z), 0 <= b < 256 -> is_byte_list l -> is_byte_list (b :: l)) as Hcons by (intros; by constructor).
  assert (forall d, string_ok d -> in_s32 (zlen d / 2)) as Hhalf by (intros d (_ & _ & ?); pose proof (zlen_nonneg d); unfold in_s32; dlia).
  pose proof bytes_enc as Henc. pose proof bytes_encs as Hencs. pose proof (@count_ok Z) as Hcount. intros Ho. unfold op_bytes. destruct o; cbn in *.
  - pose proof Ho as [? _]. destruct (is_short d) eqn:E; [destruct (short_code d E Ho); apply Hcons; [lia|done]|apply Hcons; [lia|by auto]].
  - pose proof Ho as [? _]. destruct (is_short d) eqn:E; [destruct (short_code d E Ho); apply Hcons; [lia|done]|apply Hcons; [lia|by auto]].
  - pose proof (land_range (i - 40) 255). repeat case_match; repeat constructor; try lia; rewrite ?Z.shiftr_div_pow2 by lia; dlia.
  - by repeat constructor; lia.
  - destruct Ho. apply Hcons, Hcons; [lia..|]. apply Happ; auto. apply Henc. unfold in_s32. lia.
  - destruct Ho. apply Hcons, Hcons; [lia..|]. apply Happ; auto. apply Henc. unfold in_s32. lia.
  - destruct Ho as (Hs & Hd & Hl). apply sums_head in Hs. apply Hcons, Hcons; [lia..|]. repeat apply Happ; auto. apply Forall_fmap, Forall_forall. intros x _. apply u8_range.
  - destruct Ho as (Hs & Hd & Hl). apply sums_head in Hs. apply Hcons, Hcons; [lia..|]. repeat apply Happ; auto.
  - destruct Ho as (Hs & Hd & Hl). apply Hcons, Hcons; [lia..|]. repeat apply Happ; auto.
  - destruct Ho as (Hs & Hd & _ & _ & Hl). apply Hcons, Hcons; [lia..|]. repeat apply Happ; auto.
  - destruct Ho as (Hs & Hd & _ & Hl). destruct (Forall_cons_1 _ _ _ Hd). repeat first [apply Happ | apply Hcons; [lia|]]; auto; apply Henc; pose proof (zlen_nonneg offs); unfold in_s32; lia.
  - destruct Ho as (_ & Hd & Hn & Hb & _ & Hoff & _). apply Hcons, Hcons; [lia..|]. repeat apply Happ; auto. apply Henc. unfold in_s32. lia.
Qed.

(** A resource compressed with dcmp 0: the header, the stream and its end. *)
Record donn_header := mk_donn_header { dh_attrs : Z; dh_size : Z; dh_ratio : Z; dh_overrun : Z; dh_ctable : Z }.
Definition donn_header_ok (h : donn_header) : Prop := octet (dh_attrs h) /\ in_width 32 (dh_size h) /\ octet (dh_ratio h) /\ octet (dh_overrun h) /\ in_width 16 (dh_ctable h).
Definition donn_head (h : donn_header) : list Z :=
  be 4 RSRC_DCMP_MAGIC ++ be 2 18 ++ [8; dh_attrs h] ++ be 4 (dh_size h) ++ [dh_ratio h; dh_overrun h] ++ be 2 0 ++ be 2 (dh_ctable h).
Definition donn_resource (h : donn_header) (ops : list donn_op) (tail : list Z) : list Z :=
  donn_head h ++ concat (op_bytes <$> ops) ++ 0xFF :: tail.
Definition donn_contents (n : Z) (o : list Z) : list Z := ztake n o ++ zeros (n - zlen o).

Lemma bytes_ops size : forall ops vs, ops_ok size vs ops -> is_byte_list (concat (op_bytes <$> ops)).
Proof.
  induction ops as [|o ops IH]; intros vs; [constructor|]. intros (Ho & _ & Hops). cbn [fmap list_fmap concat]. apply Forall_app. split; [by eapply bytes_op|by eapply IH].
Qed.
Lemma head_fields h rest : donn_header_ok h -> let c := donn_head h ++ rest in
  rd32 c 0 = Ok RSRC_DCMP_MAGIC /\ rd16 c 4 = Ok 18 /\ byte_at c 6 = Ok 8 /\ rd32 c 8 = Ok (dh_size h) /\ byte_at c 12 = Ok (dh_ratio h) /\
  byte_at c 13 = Ok (dh_overrun h) /\ rd16 c 14 = Ok 0 /\ zlen c = 18 + zlen rest /\ window c 18 (zlen rest) = Ok rest.
Proof.
  intros (H1 & H2 & H3 & H4 & H5) c. assert (zlen c = 18 + zlen rest) as Hz by (unfold c, donn_head; rewrite !zlen_app; done).
  pose proof (zlen_nonneg rest). rewrite !rd32_in, !rd16_in, window_in by lia.
  assert (ztake (zlen rest) (zdrop 18 c) = rest) as -> by (unfold c; rewrite zdrop_exact by done; by apply ztake_full).
  split_and!; try done.
  assert (peek 4 c 8 = dh_size h) as ->; [|done]. unfold peek, c, donn_head. rewrite <-!app_assoc.
  rewrite (zdrop_app 8), (zdrop_app (8 - _)), (zdrop_exact (8 - _ - _)) by done. rewrite ztake_app by done. by apply (unbe_be 4).
Qed.
(** C13: a resource compressed with DonnBits decompresses to what it stands for.
    Let size_t have at least 33 bits and the resource leave 4 MB of its range.
    For every header and every sequence of operations (literals, strings that
    are remembered and reused, constant words, runs, differences, jump tables
    and entry vectors) whose values are in the ranges that the format gives
    them, whose strings fit the variable table, and whose output has at most
    the size of the header plus its overrun (more is rejected as a corrupt
    stream), the decompressor accepts the resource, whatever follows the end of
    the stream, and returns exactly the number of bytes of the header: the
    output of the operations in order, filled up with zeros, or without the
    bytes of the overrun.  (With a size_t of 32 bits size plus overrun can wrap:
    capacity_wraps.) *)
Theorem donn_decodes h ops tail : 33 <= size_bits -> zlen (donn_resource h ops tail) + 4194304 <= 2 ^ size_bits ->
  donn_header_ok h -> is_byte_list tail -> ops_ok (var_table_size (dh_size h) (dh_ratio h)) [] ops ->
  zlen (ops_out [] ops) <= dh_size h + dh_overrun h ->
  rsrc_dcmp_decompress (donn_resource h ops tail) = Ok (donn_contents (dh_size h) (ops_out [] ops)).
Proof.
  intros Hsz Hl Hh Ht Hops Hout. unfold donn_resource in *. set (rest := concat _ ++ _) in *. pose proof (zlen_nonneg rest).
  assert (2 ^ 33 <= 2 ^ size_bits) as Hp33 by (apply Z.pow_le_mono_r; lia). change (2 ^ 33) with 8589934592 in Hp33.
  destruct (head_fields h rest Hh) as (E1 & E2 & E3 & E4 & E5 & E6 & E7 & Hz & E8). set (c := donn_head h ++ rest) in *. rewrite Hz in Hl.
  destruct Hh as (_ & [Ha1 Ha2] & Hr & Hov & _). unfold octet in *. change (2 ^ 32) with 4294967296 in *.
  unfold rsrc_dcmp_decompress. rewrite Hz. destruct (Z.ltb_spec (18 + zlen rest) 18); [lia|]. cbn [refuse mbind out_bind]. rewrite E1. cbn [mbind out_bind]. rewrite Z.eqb_refl.
  cbn [negb refuse mbind out_bind]. rewrite E2, E3, E4. cbn [mbind out_bind]. destruct (Z.ltb_spec (18 + zlen rest) 18); [lia|]. cbn [Z.ltb Z.compare Pos.compare Pos.compare_cont orb refuse mbind out_bind Z.eqb Pos.eqb].
  rewrite E7. cbn [mbind out_bind]. replace (18 + zlen rest - 18) with (zlen rest) by lia. rewrite E8. cbn [mbind out_bind].
  change (s16 0 =? 0) with true. cbn [andb]. rewrite E5, E6. cbn [mbind out_bind].
  set (cap := usize _). assert (cap = dh_size h + dh_overrun h) as Ecap by (unfold cap; apply wrap_small; unfold in_width; lia). clearbody cap.
  set (size := var_table_size _ _) in *. destruct (vt_init_rep size) as (vt & -> & Hvt); [apply var_table_size_ge|]. cbn [mbind out_bind].
  assert (cap <= at_least_1 cap) as Hcap by (unfold at_least_1; zprune; lia). set (alloc := at_least_1 cap) in *.
  assert (is_byte_list rest) as Hrest by (unfold rest; apply Forall_app; split; [by eapply bytes_ops|constructor; [lia|done]]).
  set (s := mk_donn rest 0 alloc cap [] vt). change (zlen []) with 0 in *.
  destruct (unpack_loop_runs rest alloc cap ltac:(lia) Hcap ltac:(lia) size ltac:(lia) tail ops [] (S (length rest)) s) as (s' & -> & Ho); try done.
  - unfold rest. rewrite length_app. cbn. assert (length ops <= length (concat (op_bytes <$> ops)))%nat; [|lia].
    clear. induction ops as [|o ops IH]; [done|]. cbn. rewrite length_app. lia.
  - unfold s. split; cbn; try done; try lia; [change (zlen []) with 0; lia|by constructor].
  - change (oc_out s) with (@nil Z). change (zlen []) with 0. lia.
  - cbn [or_else mbind out_bind]. rewrite Ho. change (oc_out s) with (@nil Z). cbn [app]. unfold finish, donn_contents. set (o := ops_out [] ops) in *.
    destruct (Z.ltb_spec (zlen o) (dh_size h)).
    + destruct (Z.ltb_spec alloc (dh_size h)); [lia|]. by rewrite ztake_full by lia.
    + unfold zeros. replace (Z.to_nat (dh_size h - zlen o)) with 0%nat by lia. cbn [replicate]. by rewrite app_nil_r.
Qed.
End Resources.
