(* ===== verification/ImageProofs.v ===== *)
(** * Images are arrays of bytes

    An image over a well-formed storage meets [MediumLaws]: its bytes are the
    blocks the storage shows, one after the other. *)
From S2P Require Import Prelude Stdio Storage StorageProofs StorageOps Image.

(** ** Blocks of equal size *)
Section Blocks.
Context (b : Z) (Hb : 0 < b).
Implicit Types (ls : list (list Z)).
Definition equal_blocks ls : Prop := Forall (fun l => zlen l = b) ls.

Lemma zlen_concat ls : equal_blocks ls -> zlen (concat ls) = b * zlen ls.
Proof. induction 1 as [|l ls E _ IH]; cbn [concat]; [unfold zlen; simpl; lia|]. rewrite zlen_app, zlen_cons, IH, E. lia. Qed.
Lemma zdrop_concat ls i : equal_blocks ls -> zdrop (b * Z.of_nat i) (concat ls) = concat (drop i ls).
Proof.
  revert ls. induction i as [|i IH]; intros ls H.
  - rewrite Z.mul_0_r. done.
  - destruct H as [|l ls E H]; [by unfold zdrop; cbn [concat drop]; rewrite drop_nil|]. cbn [concat drop]. rewrite zdrop_app by nia.
    replace (b * Z.of_nat (S i) - zlen l) with (b * Z.of_nat i) by lia. by apply IH.
Qed.
Lemma ztake_concat ls i : equal_blocks ls -> ztake (b * Z.of_nat i) (concat ls) = concat (take i ls).
Proof.
  intros H. rewrite <-(take_drop i ls) at 1. rewrite concat_app. unfold ztake.
  destruct (decide (i <= length ls)%nat) as [Hi|Hi].
  - apply (ztake_app (b * Z.of_nat i)). rewrite zlen_concat by by apply Forall_take. unfold zlen. rewrite length_take. nia.
  - rewrite (drop_ge ls), (take_ge ls), app_nil_r by lia. apply take_ge.
    pose proof (zlen_concat ls H). unfold zlen in *. nia.
Qed.
Lemma concat_insert ls i l : equal_blocks ls -> zlen l = b -> (i < length ls)%nat ->
  concat (<[i := l]> ls) = write_at (concat ls) (b * Z.of_nat i) l.
Proof.
  intros H E Hi. rewrite (insert_take_drop ls i l Hi). rewrite concat_app. cbn [concat].
  unfold write_at. destruct (Z.eqb_spec (zlen l) 0); [lia|].
  replace (b * Z.of_nat i - zlen (concat ls)) with (- (zlen (concat ls) - b * Z.of_nat i)) by lia.
  assert (zeros (- (zlen (concat ls) - b * Z.of_nat i)) = []) as ->.
  { rewrite zlen_concat by done. unfold zeros. rewrite Z2Nat.nonpos; [done|]. unfold zlen. nia. }
  rewrite app_nil_r, ztake_concat by done. f_equal. f_equal.
  replace (b * Z.of_nat i + zlen l) with (b * Z.of_nat (S i)) by lia. by rewrite zdrop_concat.
Qed.
End Blocks.

Section Proofs.
Context `{!Abi} `{!AbiOk _}.
Implicit Types (s : storage) (d : image).

Definition blocks s : list (list Z) := content s <$> seqZ 0 (block_count s).
Definition image_bytes d : list Z := match img_storage d with Some s => concat (blocks s) | None => [] end.
Record image_over s d : Prop := {
  io_storage : img_storage d = Some s;
  io_ok : exists es, storage_ok s es;
  io_unit : img_block_size d = 512;
  io_block : block_size s = 512;
  io_raw : raw_size d = block_count s * 512;
}.
Definition image_ok d : Prop := exists s, image_over s d.

Lemma zlen_block_content s es l : storage_ok s es -> in_image s l -> zlen (content s l) = block_size s.
Proof.
  intros Hok Hl. destruct (so_geo _ _ Hok). unfold content. destruct (bitmap_test (bitmap s) l) eqn:E.
  - destruct (so_data _ _ Hok l Hl E) as [x Hx]. rewrite Hx. by apply read_at_Some in Hx as (_ & _ & _ & _ & ?).
  - unfold base_block. destruct (base_fp s) as [f|]; [|apply zlen_zeros; lia].
    destruct (read_at (fbytes f) _ _) eqn:Er; [|apply zlen_zeros; lia].
    by apply read_at_Some in Er as (_ & _ & _ & _ & ?).
Qed.
Lemma zlen_blocks s : 0 <= block_count s -> zlen (blocks s) = block_count s.
Proof. intros. unfold blocks, zlen. rewrite length_fmap, length_seqZ. lia. Qed.
Lemma blocks_equal s es : storage_ok s es -> block_size s = 512 -> equal_blocks 512 (blocks s).
Proof.
  intros Hok E. apply Forall_fmap, list.Forall_forall. intros l Hl%elem_of_seqZ. cbn. rewrite <-E. apply (zlen_block_content s es); [done|]. unfold in_image. lia.
Qed.
Lemma lookup_blocks s (i : nat) : Z.of_nat i < block_count s -> blocks s !! i = Some (content s (Z.of_nat i)).
Proof. intros. unfold blocks. rewrite list.list_lookup_fmap, lookup_seqZ_lt by lia. cbn. by rewrite Z.add_0_l. Qed.
#[local] Instance moved_trans : Transitive moved.
Proof.
  intros s1 s2 s3 (p & q & r & ->) (p' & q' & r' & ->). exists p', q', r'.
  unfold reposition, pos_to. cbn. by destruct (base_fp s1).
Qed.
Lemma moved_blocks s s' : moved s s' -> blocks s' = blocks s /\ block_count s' = block_count s /\ block_size s' = block_size s.
Proof. intros (p & q & r & ->). split; [|done]. unfold blocks. apply list_fmap_ext. intros. unfold content, base_block. cbn. by destruct (base_fp s). Qed.

(** ** Reading *)
Section Read.
Context s es (Hok : storage_ok s es) (H512 : block_size s = 512).

Lemma read_step (i : nat) : Z.of_nat i < block_count s -> exists s',
  storage_read_block (usize (512 * Z.of_nat i)) s = ((true, Some (content s (Z.of_nat i))), s') /\ moved s s'.
Proof.
  intros Hi. destruct (so_geo _ _ Hok). rewrite H512 in *.
  rewrite usize_fits by (unfold fits; lia). replace (512 * Z.of_nat i) with (Z.of_nat i * 512) by lia.
  destruct (read_block_ok s es Hok (Z.of_nat i * 512)) as (s' & E & Hm); rewrite ?H512 in *.
  - lia.
  - apply Z.mod_mul. lia.
  - rewrite Z.div_mul; lia.
  - rewrite Z.div_mul in E by lia. by exists s'.
Qed.
End Read.

Lemma read_blocks_ok n : forall s es (i k : nat) buf, storage_ok s es -> block_size s = 512 ->
  Z.of_nat (i + k + n) <= block_count s -> 512 * Z.of_nat (k + n) <= zlen buf ->
  exists s', read_blocks n (512 * Z.of_nat i) (512 * Z.of_nat k) 512 buf s =
    ((zlen buf, ztake (512 * Z.of_nat k) buf ++ concat (take n (drop (i + k) (blocks s))) ++ zdrop (512 * Z.of_nat (k + n)) buf), s') /\
    moved s s'.
Proof.
  induction n as [|n IH]; intros s es i k buf Hok Hb Hn Hbuf; cbn [read_blocks].
  - exists s. split; [|apply moved_refl]. rewrite (Nat.add_0_r k), take_0. cbn [concat app]. unfold ztake, zdrop. by rewrite take_drop.
  - replace (512 * Z.of_nat i + 512 * Z.of_nat k) with (512 * Z.of_nat (i + k)) by lia.
    destruct (read_step s es Hok Hb (i + k)) as (s1 & E1 & Hm1); [lia|]. rewrite E1.
    set (c := content s (Z.of_nat (i + k))). assert (zlen c = 512) as Hc.
    { rewrite <-Hb. apply (zlen_block_content s es); [done|]. unfold in_image. lia. }
    destruct (moved_blocks _ _ Hm1) as (Eb & Ec & Es).
    replace (512 * Z.of_nat k + 512) with (512 * Z.of_nat (S k)) by lia.
    destruct (IH s1 es i (S k) (write_at buf (512 * Z.of_nat k) c)) as (s2 & E2 & Hm2).
    + by apply (ok_moved s).
    + by rewrite Es.
    + lia.
    + rewrite zlen_write_at by lia. lia.
    + exists s2. split; [|by etrans]. rewrite E2, Eb. rewrite zlen_write_at by lia.
      rewrite (drop_S (blocks s) c (i + k)) by (apply lookup_blocks; lia). rewrite firstn_cons. cbn [concat].
      replace (Z.max (zlen buf) (512 * Z.of_nat k + zlen c)) with (zlen buf) by lia. f_equal. f_equal.
      unfold write_at. destruct (Z.eqb_spec (zlen c) 0); [lia|].
      assert (zeros (512 * Z.of_nat k - zlen buf) = []) as -> by (unfold zeros; rewrite Z2Nat.nonpos; [done|lia]).
      rewrite app_nil_r. set (a := ztake (512 * Z.of_nat k) buf).
      assert (zlen a = 512 * Z.of_nat k) as Ha by (unfold a; rewrite zlen_ztake; lia).
      rewrite (app_assoc a c (zdrop _ _)), (ztake_app _ (a ++ c)) by (rewrite zlen_app; lia).
      rewrite (zdrop_app _ (a ++ c)) by (rewrite zlen_app; lia). rewrite <-!app_assoc. f_equal. f_equal.
      replace (i + S k)%nat with (S (i + k)) by lia. f_equal.
      rewrite zdrop_zdrop by (rewrite ?zlen_app; lia).
      f_equal. rewrite zlen_app. lia.
Qed.
(** ** Writing *)
Lemma write_step s es (i : nat) buf : storage_ok s es -> block_size s = 512 ->
  Z.of_nat i < block_count s -> zlen buf = 512 ->
  exists s' es', storage_write_block (usize (512 * Z.of_nat i)) buf s = (Some tt, s') /\ storage_ok s' es' /\
    block_size s' = 512 /\ block_count s' = block_count s /\ blocks s' = <[i := buf]> (blocks s).
Proof.
  intros Hok Hb Hi Hbuf. destruct (so_geo _ _ Hok). rewrite Hb in *.
  rewrite usize_fits by (unfold fits; lia). replace (512 * Z.of_nat i) with (Z.of_nat i * 512) by lia.
  destruct (write_block_ok s es (Z.of_nat i * 512) buf Hok) as (s' & es' & E & Hok' & (G1 & G2 & _) & _ & Hc); rewrite ?Hb in *.
  - lia.
  - apply Z.mod_mul. lia.
  - rewrite Z.div_mul; lia.
  - done.
  - rewrite Z.div_mul in Hc by lia. exists s', es'. split_and!; try done.
    apply list_eq. intros j. unfold blocks. rewrite G1.
    destruct (decide (Z.of_nat j < block_count s)) as [Hj|Hj].
    + rewrite list.list_lookup_fmap, lookup_seqZ_lt by lia. cbn.
      destruct (Hc (0 + Z.of_nat j)) as [-> _]; [unfold in_image; lia|].
      rewrite list_lookup_insert. destruct (Z.eqb_spec (0 + Z.of_nat j) (Z.of_nat i)).
      * replace j with i by lia. rewrite decide_True; [done|]. rewrite length_fmap, length_seqZ. lia.
      * rewrite decide_False by lia. rewrite list.list_lookup_fmap, lookup_seqZ_lt by lia. done.
    + rewrite !lookup_ge_None_2; [done| |]; rewrite ?length_insert, length_fmap, length_seqZ; lia.
Qed.

Lemma write_blocks_ok n : forall s es (i k : nat) buf, storage_ok s es -> block_size s = 512 ->
  Z.of_nat (i + k + n) <= block_count s -> 512 * Z.of_nat (k + n) <= zlen buf ->
  exists s' es', write_blocks n (512 * Z.of_nat i) (512 * Z.of_nat k) 512 buf s = (zlen buf, s') /\ storage_ok s' es' /\
    block_size s' = 512 /\ block_count s' = block_count s /\
    concat (blocks s') = write_at (concat (blocks s)) (512 * Z.of_nat (i + k)) (ztake (512 * Z.of_nat n) (zdrop (512 * Z.of_nat k) buf)).
Proof.
  induction n as [|n IH]; intros s es i k buf Hok Hb Hn Hbuf; cbn [write_blocks].
  - exists s, es. split_and!; try done.
  - replace (512 * Z.of_nat i + 512 * Z.of_nat k) with (512 * Z.of_nat (i + k)) by lia.
    set (x := ztake 512 (zdrop (512 * Z.of_nat k) buf)).
    assert (zlen x = 512) as Hx by (unfold x; rewrite zlen_ztake, zlen_zdrop; lia).
    destruct (write_step s es (i + k) x Hok Hb) as (s1 & es1 & E1 & Hok1 & Hb1 & Hc1 & Hbl); [lia|done|]. rewrite E1.
    replace (512 * Z.of_nat k + 512) with (512 * Z.of_nat (S k)) by lia.
    destruct (IH s1 es1 i (S k) buf Hok1 Hb1) as (s2 & es2 & E2 & Hok2 & Hb2 & Hc2 & Hbl2); [lia..|].
    exists s2, es2. split_and!; try done; [lia|]. rewrite Hbl2, Hbl.
    pose proof (so_geo _ _ Hok) as []. pose proof (zlen_blocks s ltac:(lia)) as Hz. unfold zlen in Hz.
    rewrite (concat_insert 512) by (lia || by apply (blocks_equal s es)).
    replace (512 * Z.of_nat (i + S k)) with (512 * Z.of_nat (i + k) + zlen x) by lia.
    rewrite write_at_adjacent by lia. f_equal. unfold x, ztake, zdrop.
    replace (Z.to_nat (512 * Z.of_nat (S n))) with (Z.to_nat 512 + Z.to_nat (512 * Z.of_nat n))%nat by lia.
    replace (Z.to_nat (512 * Z.of_nat (S k))) with (Z.to_nat (512 * Z.of_nat k) + Z.to_nat 512)%nat by lia.
    rewrite <-drop_drop. generalize (drop (Z.to_nat (512 * Z.of_nat k)) buf). intros l. by rewrite take_take_drop.
Qed.

(** ** The laws *)
Lemma units x : 0 <= x -> x mod 512 = 0 -> exists n : nat, x = 512 * Z.of_nat n.
Proof. intros Hx Hm. exists (Z.to_nat (x / 512)). rewrite Z2Nat.id by (apply Z.div_pos; lia). by apply Z.div_exact. Qed.

(** The part of a transfer that lies in an image of [c] blocks. *)
Lemma backed_units d (c i m : nat) : img_block_size d = 512 -> raw_size d = 512 * Z.of_nat c ->
  backed_bytes d (512 * Z.of_nat i) (512 * Z.of_nat m) = 512 * Z.of_nat (min m (c - i)).
Proof.
  intros Hu Hr. unfold backed_bytes. rewrite Hu, Hr.
  assert ((if 512 * Z.of_nat m <? (if 512 * Z.of_nat i <? 512 * Z.of_nat c then 512 * Z.of_nat c - 512 * Z.of_nat i else 0)
    then 512 * Z.of_nat m else if 512 * Z.of_nat i <? 512 * Z.of_nat c then 512 * Z.of_nat c - 512 * Z.of_nat i else 0)
    = 512 * Z.of_nat (min m (c - i))) as ->.
  { zbool; lia. }
  rewrite (Z.mul_comm 512), Z.mod_mul by lia. lia.
Qed.

Section Laws.
Context s es d (Hd : img_storage d = Some s) (Hok : storage_ok s es) (Hu : img_block_size d = 512)
  (Hb : block_size s = 512) (Hr : raw_size d = block_count s * 512).
Local Abbreviation bytes := (concat (blocks s)).

Lemma over_len : zlen bytes = raw_size d.
Proof. pose proof (so_geo _ _ Hok) as []. rewrite (zlen_concat 512), zlen_blocks by (lia || by apply (blocks_equal s es)). lia. Qed.
Lemma over_count : exists c : nat, block_count s = Z.of_nat c /\ raw_size d = 512 * Z.of_nat c.
Proof. pose proof (so_geo _ _ Hok) as []. exists (Z.to_nat (block_count s)). lia. Qed.

Lemma read_over (i m : nat) buf : zlen buf = 512 * Z.of_nat m ->
  exists s', disk_read_data (512 * Z.of_nat i) buf d =
    ((zlen buf, read_padded bytes (512 * Z.of_nat i) (zlen buf)), set_img_storage (Some s') d) /\ moved s s'.
Proof.
  intros Hm. destruct over_count as (c & Ec & Er). unfold disk_read_data. rewrite Hd.
  destruct (Z.eqb_spec (zlen buf) 0) as [H0|H0].
  { apply zlen_0 in H0 as ->. exists s. split; [by destruct d; cbn in *; subst|apply moved_refl]. } pose proof (backed_units d c i m Hu Er) as Hk. rewrite <-Hm in Hk. cbn zeta. rewrite Hk, Hu.
  set (n := min m (c - i)). rewrite (Z.mul_comm 512 (Z.of_nat n)), Z.div_mul, Nat2Z.id by lia.
  set (buf' := ztake _ buf ++ _). assert (zlen buf' = zlen buf) as Hl.
  { unfold buf'. rewrite zlen_app, zlen_ztake, zlen_zeros by lia. lia. }
  destruct n as [|n'] eqn:En.
  - exists s. split; [|apply moved_refl]. cbn [read_blocks]. rewrite Hl. f_equal. f_equal. unfold buf', read_padded.
    assert (zdrop (512 * Z.of_nat i) bytes = []) as ->.
    { rewrite (zdrop_concat 512) by (lia || by apply (blocks_equal s es)). rewrite drop_ge; [done|].
      pose proof (zlen_blocks s ltac:(lia)). unfold zlen in *. lia. }
    unfold ztake. rewrite take_nil. rewrite Z.mul_0_l, take_0. reflexivity.
  - rewrite <-En in *. destruct (read_blocks_ok n s es i 0 buf' Hok Hb) as (s' & E & Hmv); [lia|lia|].
    exists s'. rewrite Z.mul_0_r in E. rewrite E. split; [|done]. rewrite Hl. f_equal. f_equal.
    cbn [ztake Z.to_nat take app]. unfold ztake. rewrite take_0. cbn [app]. rewrite !Nat.add_0_r, Nat.add_0_l.
    unfold read_padded, buf'. rewrite (zdrop_concat 512) by (lia || by apply (blocks_equal s es)).
    assert (equal_blocks 512 (drop i (blocks s))) as Hbe by (by apply Forall_drop, (blocks_equal s es)).
    rewrite Hm, (ztake_concat 512) by (lia || done). pose proof (zlen_blocks s ltac:(lia)) as Hz. unfold zlen in Hz.
    assert (take m (drop i (blocks s)) = take n (drop i (blocks s))) as ->.
    { unfold n. destruct (decide (m <= c - i)%nat); [by rewrite Nat.min_l by lia|].
      rewrite !take_ge; [done|rewrite length_drop; lia..]. }
    f_equal. rewrite zdrop_exact by (unfold ztake, zlen; rewrite length_take; unfold zlen in Hm; lia).
    rewrite (zlen_concat 512) by (by apply Forall_take). unfold zlen. rewrite length_take, length_drop. f_equal. lia.
Qed.

Lemma write_over (i m : nat) buf : zlen buf = 512 * Z.of_nat m ->
  exists s' es', disk_write_data (512 * Z.of_nat i) buf d = (zlen buf, set_img_storage (Some s') d) /\ storage_ok s' es' /\
    block_size s' = 512 /\ block_count s' = block_count s /\
    concat (blocks s') = write_clipped bytes (512 * Z.of_nat i) buf.
Proof.
  intros Hm. destruct over_count as (c & Ec & Er). unfold disk_write_data. rewrite Hd.
  destruct (Z.eqb_spec (zlen buf) 0) as [H0|H0].
  { apply zlen_0 in H0 as ->. exists s, es. unfold write_clipped, ztake. rewrite take_nil.
    split_and!; try done; [by destruct d; cbn in *; subst|]. by destruct (_ <? _). } pose proof (backed_units d c i m Hu Er) as Hk. rewrite <-Hm in Hk. cbn zeta. rewrite Hk, Hu.
  set (n := min m (c - i)). rewrite (Z.mul_comm 512 (Z.of_nat n)), Z.div_mul, Nat2Z.id by lia.
  unfold write_clipped. rewrite over_len, Er. zbool.
  - destruct (write_blocks_ok n s es i 0 buf Hok Hb) as (s' & es' & E & Hok' & Hb' & Hc' & Hw); [lia..|].
    exists s', es'. rewrite Z.mul_0_r in E. rewrite E. split_and!; try done. rewrite Hw, Nat.add_0_r. f_equal.
    cbn [Z.of_nat Z.mul]. unfold zdrop. rewrite drop_0. unfold ztake. destruct (decide (m <= c - i)%nat).
    + rewrite !take_ge; [done|unfold zlen in Hm; lia..].
    + f_equal. lia.
  - assert (n = 0%nat) as -> by lia. cbn [write_blocks]. by exists s, es.
Qed.
End Laws.

#[global, program] Instance image_laws : MediumLaws image := {|
  medium_ok := image_ok;
  medium_bytes := image_bytes;
|}.
Next Obligation.
  intros d (s & [Hd [es Hok] Hu Hb Hr]). unfold image_bytes. rewrite Hd. cbn. by rewrite (over_len s es d).
Qed.
Next Obligation.
  intros d (s & [Hd [es Hok] Hu Hb Hr]). unfold image_bytes. rewrite Hd, (over_len s es d), Hr by done.
  pose proof (so_geo _ _ Hok) as []. pow2. lia.
Qed.
Next Obligation.
  intros d (s & [Hd [es Hok] Hu Hb Hr]). unfold image_bytes. rewrite Hd, (over_len s es d), Hr by done.
  apply Z.mod_mul. lia.
Qed.
Next Obligation.
  intros d off buf (s & [Hd [es Hok] Hu Hb Hr]) [Ho _] Hm Hz. unfold image_bytes. rewrite Hd.
  destruct (units off Ho Hm) as [i ->]. destruct (units (zlen buf) (zlen_nonneg buf) Hz) as [m Em].
  destruct (read_over s es d Hd Hok Hu Hb Hr i m buf Em) as (s' & E & Hmv).
  exists (set_img_storage (Some s') d). destruct (moved_blocks _ _ Hmv) as (E1 & E2 & E3). cbn. split_and!; [done| |by rewrite E1].
  exists s'. split; cbn; try done; [|congruence..]. exists es. by apply (ok_moved s).
Qed.
Next Obligation.
  intros d off buf (s & [Hd [es Hok] Hu Hb Hr]) [Ho _] Hm Hz. unfold image_bytes. rewrite Hd.
  destruct (units off Ho Hm) as [i ->]. destruct (units (zlen buf) (zlen_nonneg buf) Hz) as [m Em].
  destruct (write_over s es d Hd Hok Hu Hb Hr i m buf Em) as (s' & es' & E & Hok' & Hb' & Hc' & Hw).
  exists (set_img_storage (Some s') d). cbn. split_and!; [done| |done].
  exists s'. split; cbn; try done; [|congruence]. by exists es'.
Qed.
End Proofs.
