(* ===== verification/Scsi.v ===== *)
(** * The SCSI bus

    Model of src/core/peripherals/scsi.c and scsi_cdrom.c: an NCR 5380 with its
    registers at A4-A6, the bus phases, the commands of hard disks and CD-ROM
    drives, and the entry points of a bus-mastering DMA engine.

    The images behind the devices are a [Medium] each, one image per slot.  The
    pins go to VIA 2 or to a callback of the machine: what is driven is recorded
    in [signals].  Whether asserts are compiled in is [Build]: the production
    builds define NDEBUG.  A computation that cannot go on says why ([stop]).
    Memory allocation is taken to succeed; [junk] are the bytes of new memory. *)
From S2P Require Import Prelude Stdio Image.

(** ** Constants of scsi_internal.h *)
Definition ICR_DB : Z := 0x01.
Definition ICR_ATN : Z := 0x02.
Definition ICR_SEL : Z := 0x04.
Definition ICR_BSY : Z := 0x08.
Definition ICR_ACK : Z := 0x10.
Definition ICR_LA : Z := 0x20.
Definition ICR_AIP : Z := 0x40.
Definition ICR_RST : Z := 0x80.
Definition MR_ARBITRATE : Z := 0x01.
Definition MR_DMA : Z := 0x02.
Definition MR_TARGET : Z := 0x40.
Definition CSR_SEL : Z := 0x02.
Definition CSR_IO : Z := 0x04.
Definition CSR_CD : Z := 0x08.
Definition CSR_MSG : Z := 0x10.
Definition CSR_REQ : Z := 0x20.
Definition CSR_BSY : Z := 0x40.
Definition CSR_RST : Z := 0x80.
Definition BSR_ACK : Z := 0x01.
Definition BSR_ATN : Z := 0x02.
Definition BSR_PM : Z := 0x08.
Definition BSR_INT : Z := 0x10.
Definition BSR_DR : Z := 0x40.
Definition BSR_EDMA : Z := 0x80.

Definition CMD_TEST_UNIT_READY : Z := 0x00.
Definition CMD_REZERO_UNIT : Z := 0x01.
Definition CMD_REQUEST_SENSE : Z := 0x03.
Definition CMD_FORMAT_UNIT : Z := 0x04.
Definition CMD_READ : Z := 0x08.
Definition CMD_WRITE : Z := 0x0A.
Definition CMD_SEEK_6 : Z := 0x0B.
Definition CMD_INQUIRY : Z := 0x12.
Definition CMD_MODE_SELECT : Z := 0x15.
Definition CMD_MODE_SENSE : Z := 0x1A.
Definition CMD_START_STOP_UNIT : Z := 0x1B.
Definition CMD_PREVENT_ALLOW : Z := 0x1E.
Definition CMD_READ_CAPACITY : Z := 0x25.
Definition CMD_READ_10 : Z := 0x28.
Definition CMD_WRITE_10 : Z := 0x2A.
Definition CMD_SEEK_10 : Z := 0x2B.
Definition CMD_VERIFY : Z := 0x2F.
Definition CMD_READ_SUB_CHANNEL : Z := 0x42.
Definition CMD_READ_TOC : Z := 0x43.
Definition CMD_READ_HEADER : Z := 0x44.
Definition CMD_PLAY_AUDIO_10 : Z := 0x45.
Definition CMD_PLAY_AUDIO_MSF : Z := 0x47.
Definition CMD_PAUSE_RESUME : Z := 0x4B.
Definition CMD_SONY_READ_TOC : Z := 0xC1.
Definition CMD_SONY_PLAYBACK_STATUS : Z := 0xC4.
Definition CMD_SONY_PLAYBACK_CTRL : Z := 0xC9.

Definition MSG_CMD_COMPLETE : Z := 0x00.
Definition STATUS_GOOD : Z := 0x00.
Definition STATUS_CHECK_CONDITION : Z := 0x02.
Definition SENSE_NO_SENSE : Z := 0x00.
Definition SENSE_NOT_READY : Z := 0x02.
Definition SENSE_ILLEGAL_REQUEST : Z := 0x05.
Definition SENSE_UNIT_ATTENTION : Z := 0x06.
Definition SENSE_DATA_PROTECT : Z := 0x07.
Definition ASC_INVALID_OPCODE : Z := 0x20.
Definition ASC_LBA_OUT_OF_RANGE : Z := 0x21.
Definition ASC_WRITE_PROTECTED : Z := 0x27.
Definition ASC_NOT_READY_TO_READY : Z := 0x28.
Definition ASC_MEDIUM_NOT_PRESENT : Z := 0x3A.
Definition ASC_INCOMPATIBLE_MEDIUM : Z := 0x30.

Definition BLOCK_SIZE : Z := 512.
Definition BUF_LIMIT : Z := BLOCK_SIZE * 256.
Definition MAX_CMD_SIZE : Z := 10.
Definition SCSI_PDMA_SEL : Z := 0x200.
Definition SCSI_BLIND_SEL : Z := 0x400.
Definition INT_MAX : Z := 2 ^ 31 - 1.

(** ** State *)
Inductive scsi_phase :=
  | scsi_bus_free | scsi_arbitration | scsi_selection | scsi_reselection | scsi_command
  | scsi_data_in | scsi_data_out | scsi_status | scsi_message_in | scsi_message_out.
#[global] Instance scsi_phase_eq : EqDecision scsi_phase.
Proof. solve_decision. Defined.
Inductive scsi_device_type := scsi_dev_none | scsi_dev_hd | scsi_dev_cdrom.
#[global] Instance scsi_device_type_eq : EqDecision scsi_device_type.
Proof. solve_decision. Defined.

Record sense_data := mk_sense { key : Z; asc : Z; ascq : Z }.
Record device (I : Type) := mk_device {
  vendor_id : list Z;
  product_id : list Z;
  revision : list Z;
  dev_image : option I;
  dev_type : scsi_device_type;
  read_only : bool;
  dev_block_size : Z;
  unit_attention : bool;
  medium_present : bool;
  prevent_removal : bool;
  sense : sense_data;
}.
Arguments mk_device {I}.
Arguments vendor_id {I} _.
Arguments product_id {I} _.
Arguments revision {I} _.
Arguments dev_image {I} _.
Arguments dev_type {I} _.
Arguments read_only {I} _.
Arguments dev_block_size {I} _.
Arguments unit_attention {I} _.
Arguments medium_present {I} _.
Arguments prevent_removal {I} _.
Arguments sense {I} _.

(** What is driven on the interrupt outputs. *)
Inductive signal := ViaInput (port c : Z) (level : bool) | IrqCallback (irq drq : bool).

Record bus_state := mk_bus { phase : scsi_phase; saved_phase : scsi_phase; initiator : Z; target : Z }.
Record registers := mk_regs { cdr : Z; odr : Z; icr : Z; mr : Z; tcr : Z; csr : Z; ser : Z; bsr : Z }.
Record command := mk_command { opcode : Z; lun : Z; lba : Z; tl : Z }.
(** [data] has the capacity as its length. *)
Record buffer := mk_buffer { data : list Z; bmax : Z; bsize : Z; bpos : Z }.
(** The wiring: is there a VIA, a callback, a scheduler. *)
Record wiring := mk_wiring { has_via : bool; has_callback : bool; has_scheduler : bool }.
(** The rest of struct scsi.  [drq_event]: a drq_service event is queued. *)
Record control := mk_control {
  irq_active : bool;
  drq_active : bool;
  drq_evt_registered : bool;
  drq_event : bool;
  drq_pulse_last_size : Z;
  end_of_dma : bool;
  dma_write_armed : bool;
  primer_byte : Z;
  primer_pc : Z;
  primer_held : bool;
  dma_out_engine_started : bool;
  loopback : bool;
  cdr_pipeline : list Z;
  cdr_idx : Z;
  signals : list signal;
}.
Record scsi (I : Type) := mk_scsi {
  bus : bus_state;
  reg : registers;
  cmd : command;
  devices : list (device I);
  buf : buffer;
  wires : wiring;
  ctl : control;
}.
Arguments mk_scsi {I}.
Arguments bus {I} _.
Arguments reg {I} _.
Arguments cmd {I} _.
Arguments devices {I} _.
Arguments buf {I} _.
Arguments wires {I} _.
Arguments ctl {I} _.

(** Record updates. *)
Definition device_eta {I} (d : device I) : device I :=
  mk_device (vendor_id d) (product_id d) (revision d) (dev_image d) (dev_type d) (read_only d) (dev_block_size d)
    (unit_attention d) (medium_present d) (prevent_removal d) (sense d).
Definition control_eta (c : control) : control :=
  mk_control (irq_active c) (drq_active c) (drq_evt_registered c) (drq_event c) (drq_pulse_last_size c) (end_of_dma c)
    (dma_write_armed c) (primer_byte c) (primer_pc c) (primer_held c) (dma_out_engine_started c) (loopback c)
    (cdr_pipeline c) (cdr_idx c) (signals c).
Definition bus_eta (b : bus_state) : bus_state := mk_bus (phase b) (saved_phase b) (initiator b) (target b).
Definition regs_eta (r : registers) : registers :=
  mk_regs (cdr r) (odr r) (icr r) (mr r) (tcr r) (csr r) (ser r) (bsr r).
Definition command_eta (c : command) : command := mk_command (opcode c) (lun c) (lba c) (tl c).
Definition buffer_eta (b : buffer) : buffer := mk_buffer (data b) (bmax b) (bsize b) (bpos b).

Section Updates.
Context {I : Type}.
Implicit Types (s : scsi I) (d : device I).
Definition on_bus (f : bus_state -> bus_state) s := mk_scsi (f (bus s)) (reg s) (cmd s) (devices s) (buf s) (wires s) (ctl s).
Definition on_reg (f : registers -> registers) s := mk_scsi (bus s) (f (reg s)) (cmd s) (devices s) (buf s) (wires s) (ctl s).
Definition on_cmd (f : command -> command) s := mk_scsi (bus s) (reg s) (f (cmd s)) (devices s) (buf s) (wires s) (ctl s).
Definition on_devices (f : list (device I) -> list (device I)) s :=
  mk_scsi (bus s) (reg s) (cmd s) (f (devices s)) (buf s) (wires s) (ctl s).
Definition on_buf (f : buffer -> buffer) s := mk_scsi (bus s) (reg s) (cmd s) (devices s) (f (buf s)) (wires s) (ctl s).
Definition on_ctl (f : control -> control) s := mk_scsi (bus s) (reg s) (cmd s) (devices s) (buf s) (wires s) (f (ctl s)).

Definition set_phase x s := on_bus (fun b => ltac:(field_set bus_eta phase x b)) s.
Definition set_saved_phase x s := on_bus (fun b => ltac:(field_set bus_eta saved_phase x b)) s.
Definition set_initiator x s := on_bus (fun b => ltac:(field_set bus_eta initiator x b)) s.
Definition set_target x s := on_bus (fun b => ltac:(field_set bus_eta target x b)) s.
Definition set_cdr x s := on_reg (fun r => ltac:(field_set regs_eta cdr x r)) s.
Definition set_odr x s := on_reg (fun r => ltac:(field_set regs_eta odr x r)) s.
Definition set_icr x s := on_reg (fun r => ltac:(field_set regs_eta icr x r)) s.
Definition set_mr x s := on_reg (fun r => ltac:(field_set regs_eta mr x r)) s.
Definition set_tcr x s := on_reg (fun r => ltac:(field_set regs_eta tcr x r)) s.
Definition set_csr x s := on_reg (fun r => ltac:(field_set regs_eta csr x r)) s.
Definition set_ser x s := on_reg (fun r => ltac:(field_set regs_eta ser x r)) s.
Definition set_bsr x s := on_reg (fun r => ltac:(field_set regs_eta bsr x r)) s.
Definition set_opcode x s := on_cmd (fun c => ltac:(field_set command_eta opcode x c)) s.
Definition set_lun x s := on_cmd (fun c => ltac:(field_set command_eta lun x c)) s.
Definition set_lba x s := on_cmd (fun c => ltac:(field_set command_eta lba x c)) s.
Definition set_tl x s := on_cmd (fun c => ltac:(field_set command_eta tl x c)) s.
Definition set_data x s := on_buf (fun b => ltac:(field_set buffer_eta data x b)) s.
Definition set_bmax x s := on_buf (fun b => ltac:(field_set buffer_eta bmax x b)) s.
Definition set_bsize x s := on_buf (fun b => ltac:(field_set buffer_eta bsize x b)) s.
Definition set_bpos x s := on_buf (fun b => ltac:(field_set buffer_eta bpos x b)) s.
Definition set_irq_active x s := on_ctl (fun c => ltac:(field_set control_eta irq_active x c)) s.
Definition set_drq_active x s := on_ctl (fun c => ltac:(field_set control_eta drq_active x c)) s.
Definition set_drq_evt_registered x s := on_ctl (fun c => ltac:(field_set control_eta drq_evt_registered x c)) s.
Definition set_drq_event x s := on_ctl (fun c => ltac:(field_set control_eta drq_event x c)) s.
Definition set_drq_pulse_last_size x s := on_ctl (fun c => ltac:(field_set control_eta drq_pulse_last_size x c)) s.
Definition set_end_of_dma x s := on_ctl (fun c => ltac:(field_set control_eta end_of_dma x c)) s.
Definition set_dma_write_armed x s := on_ctl (fun c => ltac:(field_set control_eta dma_write_armed x c)) s.
Definition set_primer_byte x s := on_ctl (fun c => ltac:(field_set control_eta primer_byte x c)) s.
Definition set_primer_pc x s := on_ctl (fun c => ltac:(field_set control_eta primer_pc x c)) s.
Definition set_primer_held x s := on_ctl (fun c => ltac:(field_set control_eta primer_held x c)) s.
Definition set_dma_out_engine_started x s := on_ctl (fun c => ltac:(field_set control_eta dma_out_engine_started x c)) s.
Definition set_loopback x s := on_ctl (fun c => ltac:(field_set control_eta loopback x c)) s.
Definition set_cdr_pipeline x s := on_ctl (fun c => ltac:(field_set control_eta cdr_pipeline x c)) s.
Definition set_cdr_idx x s := on_ctl (fun c => ltac:(field_set control_eta cdr_idx x c)) s.
Definition emit x s := on_ctl (fun c => ltac:(field_set control_eta signals (signals c ++ [x]) c)) s.

Definition set_vendor_id x d := ltac:(field_set (@device_eta I) (@vendor_id I) x d).
Definition set_product_id x d := ltac:(field_set (@device_eta I) (@product_id I) x d).
Definition set_revision x d := ltac:(field_set (@device_eta I) (@revision I) x d).
Definition set_dev_image x d := ltac:(field_set (@device_eta I) (@dev_image I) x d).
Definition set_dev_type x d := ltac:(field_set (@device_eta I) (@dev_type I) x d).
Definition set_read_only x d := ltac:(field_set (@device_eta I) (@read_only I) x d).
Definition set_dev_block_size x d := ltac:(field_set (@device_eta I) (@dev_block_size I) x d).
Definition set_unit_attention x d := ltac:(field_set (@device_eta I) (@unit_attention I) x d).
Definition set_medium_present x d := ltac:(field_set (@device_eta I) (@medium_present I) x d).
Definition set_prevent_removal x d := ltac:(field_set (@device_eta I) (@prevent_removal I) x d).
Definition set_sense x d := ltac:(field_set (@device_eta I) (@sense I) x d).
End Updates.

(** ** Computations on the controller *)
Inductive stop := Assertion | OutOfBounds | NullImage | DivisionByZero.
Inductive result (S A : Type) := Ok (a : A) (s : S) | Stop (w : stop).
Arguments Ok {S A} _ _.
Arguments Stop {S A} _.
Definition chip (I A : Type) : Type := scsi I -> result (scsi I) A.
#[global] Instance chip_ret I : MRet (chip I) := fun A a s => Ok a s.
#[global] Instance chip_bind I : MBind (chip I) := fun A B f m s =>
  match m s with Ok a s => f a s | Stop w => Stop w end.

(** Are asserts compiled in. *)
Class Build := { asserts : bool }.

(** The count of trailing zeros, 32 for zero. *)
Fixpoint ctz (p : positive) : Z := match p with xO p => 1 + ctz p | _ => 0 end.
Definition platform_ntz32 (mask : Z) : Z := match mask with Zpos p => ctz p | _ => 32 end.

Definition bit (x m : Z) : bool := truthy (Z.land x m).
(** [~m] in a byte. *)
Definition clear (x m : Z) : Z := Z.land x (Z.lxor 0xFF m).

Section Chip.
Context {I : Type} `{!Medium I} `{!Abi} `{!Build} (junk : Z -> Z).
Implicit Types (s : scsi I).

Definition ask {A} (f : scsi I -> A) : chip I A := fun s => Ok (f s) s.
Definition put (f : scsi I -> scsi I) : chip I unit := fun s => Ok tt (f s).
Definition halt {A} (w : stop) : chip I A := fun _ => Stop w.
Definition assert_ (b : scsi I -> bool) : chip I unit := fun s => if asserts && negb (b s) then Stop Assertion else Ok tt s.
Definition if_ (b : bool) (m : chip I unit) : chip I unit := if b then m else mret tt.

Definition in_phase (p : scsi_phase) s : bool := bool_decide (phase (bus s) = p).
Definition in_phases (ps : list scsi_phase) s : bool := bool_decide (phase (bus s) ∈ ps).
Definition blank_device : device I :=
  mk_device (zeros 9) (zeros 17) (zeros 5) None scsi_dev_none false 0 false false false (mk_sense 0 0 0).
Definition device_at (i : Z) s : device I := nth (Z.to_nat i) (devices s) blank_device.
Definition on_device (i : Z) (f : device I -> device I) : scsi I -> scsi I := on_devices (alter f (Z.to_nat i)).
(** [scsi->bus.target & 7] *)
Definition target_id s : Z := Z.land (target (bus s)) 7.
Definition the_device s : device I := device_at (target_id s) s.

(** Accesses of the staging buffer, an array of uint8_t. *)
Definition get_data (i : Z) : chip I Z := fun s =>
  if (0 <=? i) && (i <? zlen (data (buf s))) then Ok (u8 (nth (Z.to_nat i) (data (buf s)) 0)) s else Stop OutOfBounds.
Definition put_data (i : Z) (l : list Z) : chip I unit := fun s =>
  if (0 <=? i) && (i + zlen l <=? zlen (data (buf s))) then Ok tt (set_data (write_at (data (buf s)) i l) s)
  else Stop OutOfBounds.

Definition cmd_size (opcode : Z) : Z := if opcode <? 0x20 then 6 else 10.

Definition compute_loopback_cdr s : Z :=
  let r := reg s in
  let put (b : bool) (m val : Z) := if b then Z.lor val m else val in
  let val := put (bit (icr r) ICR_DB || bit (mr r) MR_TARGET) (odr r) 0 in
  let val := put (bit (icr r) ICR_ATN) 0x40 val in
  let val := put (bit (icr r) ICR_ACK) 0x20 val in
  let val := put (bit (icr r) ICR_BSY) 0x04 val in
  let val := put (bit (icr r) ICR_SEL) 0x10 val in
  if bit (mr r) MR_TARGET then
    let val := put (bit (tcr r) 0x01) 0x80 val in
    let val := put (bit (tcr r) 0x02) 0x02 val in
    let val := put (bit (tcr r) 0x04) 0x08 val in
    put (bit (tcr r) 0x08) 0x01 val
  else val.

Definition scsi_phase_match s : bool :=
  let r := reg s in
  let c :=
    if loopback (ctl s) && bit (mr r) MR_TARGET then
      let c := if bit (tcr r) 0x01 then Z.lor (csr r) CSR_IO else csr r in
      let c := if bit (tcr r) 0x02 then Z.lor c CSR_CD else c in
      if bit (tcr r) 0x04 then Z.lor c CSR_MSG else c
    else csr r in
  Z.land (Z.shiftr c 2) 7 =? Z.land (tcr r) 7.

(** ** The interrupt outputs *)
Definition scsi_update_irq s : scsi I :=
  let irq := bit (mr (reg s)) MR_DMA && (negb (scsi_phase_match s) || end_of_dma (ctl s)) in
  if Bool.eqb irq (irq_active (ctl s)) then s
  else
    let s := set_irq_active irq s in
    let s := if irq then set_bsr (Z.lor (bsr (reg s)) BSR_INT) s else s in
    let s := if has_via (wires s) then emit (ViaInput 1 1 (negb irq)) s else s in
    if has_callback (wires s) then emit (IrqCallback irq (drq_active (ctl s))) s else s.

Definition scsi_update_drq s : scsi I :=
  let drq := bit (bsr (reg s)) BSR_DR in
  if Bool.eqb drq (drq_active (ctl s)) then s
  else
    let s := set_drq_active drq s in
    let s := if has_via (wires s) then emit (ViaInput 0 1 (negb drq)) s else s in
    if has_callback (wires s) then emit (IrqCallback (irq_active (ctl s)) drq) s else s.

(** The event of the scheduler; taking it off the queue is the caller's. *)
Definition scsi_drq_service s : scsi I :=
  if negb (bit (mr (reg s)) MR_DMA) || negb (in_phase scsi_data_in s) || (bsize (buf s) =? 0) then s
  else if negb (bsize (buf s) =? drq_pulse_last_size (ctl s)) then s
  else
    let s := scsi_update_drq (set_bsr (clear (bsr (reg s)) BSR_DR) s) in
    scsi_update_drq (set_bsr (Z.lor (bsr (reg s)) BSR_DR) s).

Definition scsi_schedule_drq_service s : scsi I :=
  if negb (has_scheduler (wires s)) then s
  else set_drq_event true (set_drq_pulse_last_size (bsize (buf s)) (set_drq_evt_registered true s)).
Definition scsi_cancel_drq_service s : scsi I :=
  if has_scheduler (wires s) then set_drq_event false s else s.

(** ** The buffer *)

(** [n] bytes of new memory at the indices from [i] on. *)
Fixpoint new_bytes (i : Z) (n : nat) : list Z :=
  match n with O => [] | S n => junk i :: new_bytes (i + 1) n end.
Definition scsi_buf_ensure (bytes : Z) s : scsi I :=
  let cap := zlen (data (buf s)) in
  if bytes <=? cap then s
  else set_data (data (buf s) ++ new_bytes cap (Z.to_nat (bytes - cap))) s.

Definition next_byte : chip I Z :=
  assert_ (fun s => 0 <? bsize (buf s));;
  p ← ask (fun s => bpos (buf s));
  b ← get_data p;
  put (set_bpos (p + 1));;
  put (fun s => set_bsize (bsize (buf s) - 1) s);;
  mret b.

(** ** Phases *)
Definition phase_free s : scsi I :=
  let s := set_end_of_dma false (set_csr 0 (set_phase scsi_bus_free s)) in
  scsi_update_irq (scsi_update_drq (scsi_cancel_drq_service s)).
Definition phase_arbitration : chip I unit :=
  assert_ (in_phase scsi_bus_free);;
  put (set_phase scsi_arbitration).
Definition phase_selection : chip I unit :=
  assert_ (in_phases [scsi_arbitration; scsi_bus_free]);;
  put (set_phase scsi_selection).
Definition phase_command : chip I unit :=
  assert_ (in_phase scsi_selection);;
  put (set_csr (CSR_CD + CSR_REQ + CSR_BSY));;
  put (set_bmax MAX_CMD_SIZE);;
  put (set_bsize 0);;
  put (set_phase scsi_command);;
  put scsi_update_irq.
Definition phase_data_in (bytes : Z) : chip I unit :=
  assert_ (in_phase scsi_command);;
  put (set_phase scsi_data_in);;
  put (set_csr (CSR_IO + CSR_REQ + CSR_BSY));;
  put (scsi_buf_ensure (usize bytes));;
  put (fun s => set_bsize (usize bytes) (set_bmax (usize bytes) s));;
  put (set_bpos 0).
Definition phase_data_out (bytes : Z) : chip I unit :=
  assert_ (in_phase scsi_command);;
  put (set_phase scsi_data_out);;
  put (set_csr (CSR_REQ + CSR_BSY));;
  put (scsi_buf_ensure (usize bytes));;
  put (set_bmax (usize bytes));;
  put (set_bsize 0);;
  put (set_primer_held false);;
  put (set_dma_out_engine_started false).
Definition phase_message_out s : scsi I :=
  let s := set_phase scsi_message_out (set_saved_phase (phase (bus s)) s) in
  scsi_update_irq (set_csr (CSR_MSG + CSR_CD + CSR_REQ + CSR_BSY) s).
Definition phase_status (st : Z) : chip I unit :=
  assert_ (in_phases [scsi_command; scsi_data_in; scsi_data_out; scsi_message_out]);;
  was_data_in ← ask (in_phase scsi_data_in);
  put (set_phase scsi_status);;
  put (set_csr (CSR_IO + CSR_CD + CSR_REQ + CSR_BSY));;
  put (set_cdr st);;
  dma ← ask (fun s => bit (mr (reg s)) MR_DMA);
  if_ dma (put (set_end_of_dma true));;
  if_ (negb (was_data_in && dma)) (put scsi_update_irq).
Definition phase_message_in (message : Z) : chip I unit :=
  assert_ (in_phase scsi_status);;
  put (set_phase scsi_message_in);;
  put (set_csr (CSR_IO + CSR_CD + CSR_MSG + CSR_REQ + CSR_BSY));;
  put (set_cdr message);;
  put scsi_update_irq.

Definition scsi_set_sense (t k a q : Z) : scsi I -> scsi I := on_device (Z.land t 7) (set_sense (mk_sense k a q)).
Definition scsi_check_condition (k a q : Z) : chip I unit :=
  put (fun s => scsi_set_sense (target (bus s)) k a q s);;
  phase_status STATUS_CHECK_CONDITION.
Definition illegal_opcode : chip I unit := scsi_check_condition SENSE_ILLEGAL_REQUEST ASC_INVALID_OPCODE 0.

Definition image_size (d : device I) : Z := match dev_image d with Some i => medium_size i | None => 0 end.

(** The big-endian bytes of a 32-bit value. *)
Definition be32 (v : Z) : list Z := [u8 (Z.shiftr v 24); u8 (Z.shiftr v 16); u8 (Z.shiftr v 8); u8 v].
Definition divide (n d : Z) : chip I Z := if d =? 0 then halt DivisionByZero else mret (n / d).

(** ** CD-ROM drives (scsi_cdrom.c) *)
Definition build_page_01 : list Z := [0x01; 0x06; 0x00; 0x01; 0x00; 0x00; 0x00; 0x00].
Definition build_page_02 : list Z := [0x02; 0x0E] ++ zeros 14.
Definition build_page_08 : list Z := [0x08; 0x0A] ++ zeros 10.
Definition build_page_09 : list Z := [0x09; 0x0E] ++ zeros 6 ++ [0x01; 0xFF; 0x02; 0xFF] ++ zeros 4.
(** APPLE COMPUTER, INC and three spaces *)
Definition apple_vendor : list Z :=
  [0x41; 0x50; 0x50; 0x4C; 0x45; 0x20; 0x43; 0x4F; 0x4D; 0x50; 0x55; 0x54; 0x45; 0x52; 0x2C; 0x20; 0x49; 0x4E; 0x43].
Definition build_page_30 (page_control : Z) : list Z :=
  [0x30; 0x1E] ++ (if page_control =? 1 then zeros 30 else apple_vendor ++ [0x20; 0x20; 0x20] ++ zeros 8).

Definition mode_pages (page_code page_control : Z) : list Z :=
  if page_code =? 0x01 then build_page_01
  else if page_code =? 0x02 then build_page_02
  else if page_code =? 0x08 then build_page_08
  else if page_code =? 0x09 then build_page_09
  else if page_code =? 0x30 then build_page_30 page_control
  else if page_code =? 0x3F then
    build_page_01 ++ build_page_02 ++ build_page_08 ++ build_page_09 ++ build_page_30 page_control
  else [].

Definition scsi_cdrom_mode_sense : chip I unit :=
  d ← ask the_device;
  alloc_len ← get_data 4;
  flags ← get_data 2;
  put_data 0 (zeros BUF_LIMIT);;
  let page_code := Z.land flags 0x3F in
  let page_control := Z.land (Z.shiftr flags 6) 0x03 in
  let blk_sz := dev_block_size d in
  blocks ← match dev_image d with Some _ => divide (image_size d) blk_sz | None => mret 0 end;
  let blocks := u32 blocks in
  put_data 3 [8; 0; u8 (Z.shiftr blocks 16); u8 (Z.shiftr blocks 8); u8 blocks; 0;
              u8 (Z.shiftr blk_sz 16); u8 (Z.shiftr blk_sz 8); u8 blk_sz];;
  let pages := mode_pages page_code page_control in
  put_data 12 pages;;
  let pos := 12 + zlen pages in
  put_data 0 [if 255 <? pos - 1 then 255 else pos - 1];;
  phase_data_in (if (0 <? alloc_len) && (alloc_len <? pos) then alloc_len else pos).

Definition scsi_cdrom_mode_select : chip I unit :=
  len ← ask (fun s => bsize (buf s));
  if len <? 4 then phase_status STATUS_GOOD
  else
    bd_len ← get_data 3;
    (if (8 <=? bd_len) && (12 <=? len) then
       b5 ← get_data 9; b6 ← get_data 10; b7 ← get_data 11;
       let block_len := Z.lor (Z.lor (Z.shiftl b5 16) (Z.shiftl b6 8)) b7 in
       if_ ((block_len =? 512) || (block_len =? 2048))
         (put (fun s => on_device (target_id s) (set_dev_block_size block_len) s))
     else mret tt);;
    phase_status STATUS_GOOD.

Definition scsi_cdrom_request_sense : chip I unit :=
  alloc ← get_data 4;
  let alloc := if alloc =? 0 then 18 else alloc in
  let len := if alloc <? 18 then alloc else 18 in
  phase_data_in len;;
  put_data 0 (zeros len);;
  d ← ask the_device;
  put_data 0 [0x70];;
  put_data 2 [key (sense d)];;
  put_data 7 [0x0A];;
  if_ (12 <? len) (put_data 12 [asc (sense d)]);;
  if_ (13 <? len) (put_data 13 [ascq (sense d)]);;
  put (fun s => on_device (target_id s) (set_sense (mk_sense 0 0 0)) s);;
  put (fun s => on_device (target_id s) (set_unit_attention false) s).

(** The shared end of the handlers that answer with a fixed block: an
    allocation length that is not zero limits it. *)
Definition answer (resp : list Z) : chip I unit :=
  hi ← get_data 7; lo ← get_data 8;
  let alloc_len := u16 (Z.lor (Z.shiftl hi 8) lo) in
  let len := if (0 <? alloc_len) && (alloc_len <? zlen resp) then alloc_len else zlen resp in
  phase_data_in len;;
  put_data 0 (ztake len resp).
Definition scsi_cdrom_read_toc : chip I unit :=
  d ← ask the_device;
  total ← match dev_image d with Some _ => divide (image_size d) (dev_block_size d) | None => mret 0 end;
  answer ([0x00; 0x12; 0x01; 0x01; 0x00; 0x14; 0x01; 0x00] ++ zeros 4 ++ [0x00; 0x14; 0xAA; 0x00] ++ be32 (u32 total)).
Definition scsi_cdrom_read_sub_channel : chip I unit := answer [0x00; 0x15; 0x00; 0x00].
Definition scsi_cdrom_read_header : chip I unit :=
  a ← get_data 2; b ← get_data 3; c ← get_data 4; d ← get_data 5;
  answer [0x01; 0; 0; 0; a; b; c; d].

Definition scsi_cdrom_start_stop_unit : chip I unit :=
  flags ← get_data 4;
  d ← ask the_device;
  let eject := negb (bit flags 0x01) && bit flags 0x02 in
  if eject && prevent_removal d then scsi_check_condition SENSE_ILLEGAL_REQUEST ASC_MEDIUM_NOT_PRESENT 0
  else
    if_ eject (
      put (fun s => on_device (target_id s) (fun d => set_unit_attention true (set_dev_image None (set_medium_present false d))) s);;
      put (fun s => scsi_set_sense (target_id s) SENSE_UNIT_ATTENTION ASC_MEDIUM_NOT_PRESENT 0 s));;
    phase_status STATUS_GOOD.
Definition scsi_cdrom_prevent_allow : chip I unit :=
  flags ← get_data 4;
  put (fun s => on_device (target_id s) (set_prevent_removal (bit flags 0x01)) s);;
  phase_status STATUS_GOOD.

(** ** Commands *)

(** The data phase of READ and WRITE, and for READ the transfer from the image
    after the check of its bounds. *)
Definition read_transfer : chip I unit :=
  c ← ask cmd; blk_sz ← ask (fun s => dev_block_size (the_device s));
  phase_data_in (tl c * blk_sz);;
  let byte_off := usize (usize (lba c) * blk_sz) in
  let byte_cnt := usize (usize (tl c) * blk_sz) in
  d ← ask the_device;
  match dev_image d with
  | None => halt NullImage
  | Some i =>
      if medium_size i <? usize (byte_off + byte_cnt) then
        scsi_check_condition SENSE_ILLEGAL_REQUEST ASC_LBA_OUT_OF_RANGE 0
      else
        l ← ask (fun s => data (buf s));
        (if zlen l <? byte_cnt then halt OutOfBounds else mret tt);;
        let '((n, l'), i) := medium_read byte_off (ztake byte_cnt l) i in
        put (fun s => on_device (target_id s) (set_dev_image (Some i)) s);;
        put_data 0 l';;
        assert_ (fun _ => n =? byte_cnt)
  end.
Definition write_transfer : chip I unit :=
  c ← ask cmd; blk_sz ← ask (fun s => dev_block_size (the_device s));
  phase_data_out (blk_sz * tl c).
Definition transfer (write : bool) : chip I unit := if write then write_transfer else read_transfer.

Definition cmd_rw6 (write : bool) : chip I unit :=
  b1 ← get_data 1; b2 ← get_data 2; b3 ← get_data 3; b4 ← get_data 4; b5 ← get_data 5;
  put (set_lun (Z.shiftr b1 5));;
  put (set_lba (Z.lor (Z.lor (Z.shiftl (Z.land b1 0x1F) 16) (Z.shiftl b2 8)) b3));;
  put (set_tl (u16 (Z.land (b4 - 1) 0xFF + 1)));;
  c ← ask cmd; d ← ask the_device;
  if negb (Z.land b5 0x3 =? 0) || negb (lun c =? 0) then illegal_opcode
  else if write && read_only d then scsi_check_condition SENSE_DATA_PROTECT ASC_WRITE_PROTECTED 0
  else if BUF_LIMIT <? usize (usize (tl c) * dev_block_size d) then illegal_opcode
  else transfer write.

Definition cmd_rw10 (write : bool) : chip I unit :=
  b2 ← get_data 2; b3 ← get_data 3; b4 ← get_data 4; b5 ← get_data 5; b7 ← get_data 7; b8 ← get_data 8;
  put (set_lba (s32 (Z.lor (Z.lor (Z.lor (Z.shiftl b2 24) (Z.shiftl b3 16)) (Z.shiftl b4 8)) b5)));;
  put (set_tl (Z.lor (Z.shiftl b7 8) b8));;
  c ← ask cmd; d ← ask the_device;
  if write && read_only d then scsi_check_condition SENSE_DATA_PROTECT ASC_WRITE_PROTECTED 0
  else if tl c =? 0 then phase_status STATUS_GOOD
  else transfer write.

Definition cmd_inquiry : chip I unit :=
  b4 ← get_data 4;
  put (set_tl (if b4 =? 0 then 36 else b4));;
  n ← ask (fun s => tl (cmd s));
  phase_data_in n;;
  put_data 0 (zeros n);;
  d ← ask the_device;
  put_data 0 (if bool_decide (dev_type d = scsi_dev_cdrom) then [0x05; 0x80; 0x01; 0x01; 0x31] else [0x00; 0x00; 0x01; 0x01; 0x31]);;
  if_ (36 <=? n) (
    put_data 8 (ztake 8 (vendor_id d));;
    put_data 16 (ztake 16 (product_id d));;
    put_data 32 (ztake 4 (revision d))).

Definition cmd_mode_select : chip I unit :=
  param_len ← get_data 4;
  if param_len =? 0 then phase_status STATUS_GOOD else phase_data_out param_len.

(** The header and block descriptor of a hard disk's MODE SENSE. *)
Definition hd_mode_header (total blocks : Z) : list Z :=
  [u8 (total - 1); 0; 0; 8; 0; u8 (Z.shiftr blocks 16); u8 (Z.shiftr blocks 8); u8 blocks; 0; 0x00; 0x02; 0x00].
Definition cmd_mode_sense : chip I unit :=
  d ← ask the_device;
  if bool_decide (dev_type d = scsi_dev_cdrom) then scsi_cdrom_mode_sense
  else
    b2 ← get_data 2;
    let blocks := u32 (image_size d / 512) in
    if Z.land b2 0x3F =? 0x30 then
      phase_data_in 34;;
      put_data 0 (zeros 34);;
      put_data 0 (hd_mode_header 34 blocks);;
      put_data 12 ([0x30; 20] ++ apple_vendor ++ [0x2E])
    else
      phase_data_in 12;;
      put_data 0 (zeros 12);;
      put_data 0 (hd_mode_header 12 blocks).

Definition cmd_read_capacity : chip I unit :=
  d ← ask the_device;
  sz ← divide (image_size d) (dev_block_size d);
  phase_data_in 8;;
  put_data 0 (be32 (u32 (u32 sz - 1)));;
  put_data 4 (be32 (u32 (dev_block_size d))).

(** A command of CD-ROM drives only. *)
Definition cdrom_only (m other : chip I unit) : chip I unit :=
  d ← ask the_device; if bool_decide (dev_type d = scsi_dev_cdrom) then m else other.

Definition run_cmd : chip I unit :=
  op ← get_data 0;
  put (set_opcode op);;
  d ← ask the_device;
  if unit_attention d && negb (op =? CMD_INQUIRY) && negb (op =? CMD_REQUEST_SENSE) then
    put (fun s => on_device (target_id s) (set_unit_attention false) s);;
    scsi_check_condition SENSE_UNIT_ATTENTION ASC_NOT_READY_TO_READY 0
  else if op =? CMD_TEST_UNIT_READY then
    if bool_decide (dev_type d = scsi_dev_cdrom) && negb (medium_present d)
    then scsi_check_condition SENSE_NOT_READY ASC_MEDIUM_NOT_PRESENT 0
    else phase_status STATUS_GOOD
  else if op =? CMD_REZERO_UNIT then phase_status STATUS_GOOD
  else if op =? CMD_REQUEST_SENSE then scsi_cdrom_request_sense
  else if op =? CMD_FORMAT_UNIT then
    if read_only d then scsi_check_condition SENSE_DATA_PROTECT ASC_WRITE_PROTECTED 0 else phase_status STATUS_GOOD
  else if (op =? CMD_READ) || (op =? CMD_WRITE) then cmd_rw6 (op =? CMD_WRITE)
  else if (op =? CMD_READ_10) || (op =? CMD_WRITE_10) then cmd_rw10 (op =? CMD_WRITE_10)
  else if (op =? CMD_SEEK_6) || (op =? CMD_SEEK_10) then phase_status STATUS_GOOD
  else if op =? CMD_INQUIRY then cmd_inquiry
  else if op =? CMD_MODE_SELECT then cmd_mode_select
  else if op =? CMD_MODE_SENSE then cmd_mode_sense
  else if op =? CMD_START_STOP_UNIT then cdrom_only scsi_cdrom_start_stop_unit (phase_status STATUS_GOOD)
  else if op =? CMD_PREVENT_ALLOW then cdrom_only scsi_cdrom_prevent_allow (phase_status STATUS_GOOD)
  else if op =? CMD_READ_CAPACITY then cmd_read_capacity
  else if op =? CMD_VERIFY then phase_status STATUS_GOOD
  else if op =? CMD_READ_TOC then cdrom_only scsi_cdrom_read_toc illegal_opcode
  else if op =? CMD_READ_SUB_CHANNEL then cdrom_only scsi_cdrom_read_sub_channel illegal_opcode
  else if op =? CMD_READ_HEADER then cdrom_only scsi_cdrom_read_header illegal_opcode
  else if (op =? CMD_PLAY_AUDIO_10) || (op =? CMD_PLAY_AUDIO_MSF) || (op =? CMD_PAUSE_RESUME) then
    scsi_check_condition SENSE_ILLEGAL_REQUEST ASC_INCOMPATIBLE_MEDIUM 0
  else if op =? CMD_SONY_READ_TOC then cdrom_only scsi_cdrom_read_toc illegal_opcode
  else if (CMD_SONY_PLAYBACK_STATUS <=? op) && (op <=? CMD_SONY_PLAYBACK_CTRL) then
    scsi_check_condition SENSE_ILLEGAL_REQUEST ASC_INCOMPATIBLE_MEDIUM 0
  else illegal_opcode.

Definition command_complete : chip I unit :=
  d ← ask the_device; c ← ask cmd;
  let blk_sz := dev_block_size d in
  if (opcode c =? CMD_WRITE) || (opcode c =? CMD_WRITE_10) then
    assert_ (fun s => usize (tl c * blk_sz) =? bsize (buf s));;
    assert_ (fun _ => usize (usize (usize (lba c) + tl c) * blk_sz) <=? image_size d);;
    (let byte_cnt := usize (usize (tl c) * blk_sz) in
     match dev_image d with
     | None => mret tt
     | Some i =>
         l ← ask (fun s => data (buf s));
         (if zlen l <? byte_cnt then halt OutOfBounds else mret tt);;
         let '(_, i) := medium_write (usize (usize (lba c) * blk_sz)) (ztake byte_cnt l) i in
         put (fun s => on_device (target_id s) (set_dev_image (Some i)) s)
     end);;
    put (fun s => set_bmax 0 (set_bsize 0 s));;
    phase_status STATUS_GOOD
  else if (opcode c =? CMD_MODE_SELECT) && bool_decide (dev_type d = scsi_dev_cdrom) then scsi_cdrom_mode_select
  else phase_status STATUS_GOOD.

(** ** Reset *)
Definition scsi_reset s : scsi I :=
  let s := set_phase scsi_bus_free s in
  let s := on_reg (fun r => mk_regs 0 0 (icr r) 0 0 0 (ser r) 0) s in
  let s := set_primer_held false (set_dma_write_armed false (set_end_of_dma false (set_bsize 0 s))) in
  let s := set_bsr (Z.lor (bsr (reg s)) BSR_INT) s in
  let s := set_cdr_idx 0 (set_cdr_pipeline [0; 0; 0] s) in
  scsi_update_irq (scsi_update_drq s).
Definition scsi_reset_pin s : scsi I :=
  let s := scsi_reset s in
  scsi_update_irq (set_bsr (clear (bsr (reg s)) BSR_INT) s).

(** ** The initiator command register *)
Definition bits_set (val old : Z) : Z := Z.land val (Z.lxor val old).
Definition bits_cleared (val old : Z) : Z := Z.land (Z.lxor 0xFF val) (Z.lxor val old).

(** BSY is released while SEL is asserted: the end of selection. *)
Definition end_selection : chip I unit :=
  assert_ (in_phase scsi_selection);;
  put (fun s => if 8 <=? initiator (bus s) then set_initiator 7 s else s);;
  put (fun s => set_target (platform_ntz32 (Z.land (odr (reg s)) (Z.lnot (Z.shiftl 1 (initiator (bus s)))))) s);;
  d ← ask the_device;
  match dev_image d with None => put phase_free | Some _ => phase_command end.

Definition append_byte (b : Z) : chip I unit :=
  assert_ (fun s => bsize (buf s) <? bmax (buf s));;
  n ← ask (fun s => bsize (buf s));
  put_data n [b];;
  put (set_bsize (n + 1)).

Definition raise_req : chip I unit := put (fun s => set_csr (Z.lor (csr (reg s)) CSR_REQ) s).

Definition ack_cleared : chip I unit :=
  p ← ask (fun s => phase (bus s)); b ← ask buf;
  match p with
  | scsi_command =>
      op ← get_data 0;
      assert_ (fun _ => bsize b <=? cmd_size op);;
      if bsize b =? cmd_size op then run_cmd else raise_req
  | scsi_status => phase_message_in MSG_CMD_COMPLETE
  | scsi_message_in => put phase_free
  | scsi_message_out =>
      msg ← ask (fun s => odr (reg s));
      if 0x80 <=? msg then phase_status STATUS_GOOD
      else if (msg =? 0x06) || (msg =? 0x0C) then put phase_free
      else phase_status STATUS_GOOD
  | scsi_data_in => if bsize b =? 0 then phase_status STATUS_GOOD else raise_req
  | scsi_data_out => if bsize b =? bmax b then command_complete else raise_req
  | _ => mret tt
  end.
Definition ack_asserted : chip I unit :=
  p ← ask (fun s => phase (bus s));
  (match p with
   | scsi_command | scsi_data_out => o ← ask (fun s => odr (reg s)); append_byte o
   | _ => mret tt
   end);;
  put (fun s => set_csr (clear (csr (reg s)) CSR_REQ) s).

Definition write_icr (val : Z) : chip I unit :=
  old ← ask (fun s => icr (reg s)); loop ← ask (fun s => loopback (ctl s));
  let set := bits_set val old in
  let cleared := bits_cleared val old in
  put (set_icr val);;
  if (loop : bool) then
    if_ (bit set ICR_RST) (put scsi_reset);;
    if_ (bit cleared ICR_RST) (put scsi_reset;; put (set_icr 0))
  else if bit set ICR_RST then put scsi_reset
  else
    if_ (bit cleared ICR_BSY && bit val ICR_SEL) end_selection;;
    if_ (bit cleared ICR_ACK) ack_cleared;;
    if_ (bit set ICR_ACK) ack_asserted;;
    if_ (bit set ICR_SEL) phase_selection;;
    req ← ask (fun s => bit (csr (reg s)) CSR_REQ);
    if_ (bit set ICR_ATN && negb req)
      (put (fun s => if in_phases [scsi_data_in; scsi_data_out; scsi_status; scsi_message_in] s
                     then phase_message_out s else s)).

(** ** The mode register *)
Definition start_arbitration : chip I unit :=
  phase_arbitration;;
  put (fun s => set_icr (Z.lor (icr (reg s)) ICR_AIP) s);;
  put (fun s => set_icr (clear (icr (reg s)) ICR_LA) s);;
  put (fun s => set_cdr (odr (reg s)) s);;
  put (fun s => set_initiator (platform_ntz32 (odr (reg s))) s);;
  put (fun s => set_csr (Z.lor (csr (reg s)) CSR_BSY) s).
Definition dma_off : chip I unit :=
  put (fun s => set_bsr (clear (bsr (reg s)) BSR_DR) s);;
  put (set_end_of_dma false);;
  put (set_dma_write_armed false);;
  drained ← ask (fun s => in_phase scsi_data_in s && (bsize (buf s) =? 0));
  if_ drained (phase_status STATUS_GOOD);;
  put scsi_update_drq;;
  put scsi_update_irq.
Definition request_data s : scsi I := set_bsr (Z.lor (bsr (reg s)) BSR_DR) s.
Definition dma_on : chip I unit :=
  put (set_dma_write_armed false);;
  assert_ (in_phases [scsi_command; scsi_data_in; scsi_data_out; scsi_status; scsi_message_in]);;
  put (fun s => if in_phase scsi_data_in s && negb (bsize (buf s) =? 0) then scsi_schedule_drq_service (request_data s) else s);;
  put (fun s => if in_phases [scsi_data_out; scsi_command] s && (bsize (buf s) <? bmax (buf s)) then request_data s else s);;
  put (fun s => if in_phase scsi_status s && scsi_phase_match s then request_data s else s);;
  put scsi_update_drq;;
  put scsi_update_irq.
Definition write_mr (val : Z) : chip I unit :=
  old ← ask (fun s => mr (reg s)); loop ← ask (fun s => loopback (ctl s));
  put (set_mr val);;
  if (loop : bool) then mret tt
  else
    if_ (bit (bits_set val old) MR_ARBITRATE) start_arbitration;;
    if bit (bits_cleared val old) MR_DMA then dma_off
    else if_ (bit (bits_set val old) MR_DMA) dma_on.

(** ** Register reads *)
Definition read_cdr : chip I Z :=
  s ← ask id;
  if loopback (ctl s) then mret (nth (Z.to_nat ((cdr_idx (ctl s) + 1) mod 3)) (cdr_pipeline (ctl s)) 0)
  else if in_phase scsi_data_in s then
    (if negb (bsize (buf s) =? 0) then
       b ← next_byte;
       put (set_cdr b);;
       if_ (bit (mr (reg s)) MR_DMA) (put (fun s => set_csr (clear (csr (reg s)) CSR_REQ) s))
     else phase_status STATUS_GOOD);;
    ask (fun s => cdr (reg s))
  else if in_phase scsi_status s && bit (mr (reg s)) MR_DMA && scsi_phase_match s then
    phase_message_in MSG_CMD_COMPLETE;;
    mret (cdr (reg s))
  else mret (cdr (reg s)).

Definition loopback_csr s : Z :=
  let r := reg s in
  let put (b : bool) (m val : Z) := if b then Z.lor val m else val in
  let val := put (bit (icr r) ICR_BSY) CSR_BSY (csr r) in
  let val := put (bit (icr r) ICR_SEL) CSR_SEL val in
  let val := put (bit (icr r) ICR_RST) CSR_RST val in
  if bit (mr r) MR_TARGET then
    let val := put (bit (tcr r) 0x01) CSR_IO val in
    let val := put (bit (tcr r) 0x02) CSR_CD val in
    let val := put (bit (tcr r) 0x04) CSR_MSG val in
    put (bit (tcr r) 0x08) CSR_REQ val
  else val.
Definition read_csr : chip I Z :=
  drained ← ask (fun s => in_phase scsi_data_in s && (bsize (buf s) =? 0));
  if_ drained (phase_status STATUS_GOOD);;
  ask (fun s => if loopback (ctl s) then loopback_csr s else csr (reg s)).
Definition read_bsr s : Z :=
  let r := reg s in
  let v := bsr r in
  let v := if loopback (ctl s) && bit (icr r) ICR_ACK then Z.lor v BSR_ACK else v in
  let v := if loopback (ctl s) && bit (icr r) ICR_ATN then Z.lor v BSR_ATN else v in
  let v := if scsi_phase_match s then Z.lor v BSR_PM else v in
  if end_of_dma (ctl s) then Z.lor v BSR_EDMA else v.
Definition read_reset : chip I Z :=
  put (fun s => set_bsr (clear (bsr (reg s)) 0x34) s);;
  put (set_end_of_dma false);;
  put scsi_update_irq;;
  mret 0xFF.

Definition register_of (addr : Z) : Z := Z.land (Z.shiftr addr 4) 7.
Definition read_uint8 (addr : Z) : chip I Z :=
  let r := register_of addr in
  if (r =? 0) || (r =? 6) then read_cdr
  else if r =? 1 then ask (fun s => icr (reg s))
  else if r =? 2 then ask (fun s => mr (reg s))
  else if r =? 3 then ask (fun s => tcr (reg s))
  else if r =? 4 then read_csr
  else if r =? 5 then ask read_bsr
  else read_reset.
Definition read_uint16 (addr : Z) : chip I Z := mret 0xFFFF.
Definition read_uint32 (addr : Z) : chip I Z := mret 0xFFFFFFFF.

(** ** Bytes that arrive with a handshake *)

(** The primer gate: is the byte to be appended now.  [pc] is the program
    counter of the CPU. *)
Definition primer_gate (pc value : Z) : chip I bool :=
  c ← ask ctl; b ← ask buf;
  if negb (primer_held c) && (bsize b =? 0) then
    put (set_primer_byte value);; put (set_primer_pc pc);; put (set_primer_held true);;
    mret false
  else if primer_held c then
    put (set_primer_held false);;
    if_ (negb ((primer_byte c =? 0) && negb (primer_pc c =? pc))) (append_byte (primer_byte c));;
    mret true
  else mret true.
Definition scsi_odr_auto_handshake_byte (pc value : Z) (apply_primer_gate : bool) : chip I unit :=
  put (set_odr value);;
  s ← ask id;
  if negb (in_phases [scsi_data_out; scsi_command] s) then mret tt
  else if bit (mr (reg s)) MR_DMA && negb (dma_write_armed (ctl s)) then mret tt
  else
    go ← (if apply_primer_gate && in_phase scsi_data_out s then primer_gate pc value else mret true);
    if_ go (
      append_byte value;;
      command ← ask (in_phase scsi_command); b ← ask buf;
      if (command : bool) then
        op ← get_data 0;
        if_ (bsize b =? cmd_size op) run_cmd
      else if_ (bsize b =? bmax b) command_complete).

(** ** Register writes *)
Definition write_uint8 (pc addr value : Z) : chip I unit :=
  put (fun s => if loopback (ctl s) then
      let i := cdr_idx (ctl s) in
      set_cdr_idx ((i + 1) mod 3) (set_cdr_pipeline (<[Z.to_nat i := compute_loopback_cdr s]> (cdr_pipeline (ctl s))) s)
    else s);;
  let r := register_of addr in
  if r =? 0 then
    if bit addr SCSI_PDMA_SEL then scsi_odr_auto_handshake_byte pc value (bit addr SCSI_BLIND_SEL)
    else put (set_odr value)
  else if r =? 1 then write_icr value
  else if r =? 2 then write_mr value
  else if r =? 3 then
    put (set_tcr value);;
    data_in ← ask (in_phase scsi_data_in);
    if_ (data_in && (Z.land value 7 =? 3)) (phase_status STATUS_GOOD);;
    put scsi_update_irq
  else if r =? 4 then put (set_ser value)
  else if r =? 5 then
    put request_data;;
    put (set_dma_write_armed true);;
    put scsi_update_drq
  else mret tt.
Definition write_uint16 (addr value : Z) : chip I unit := mret tt.
Definition write_uint32 (addr value : Z) : chip I unit := mret tt.

(** ** Devices *)

(** snprintf with "%-ns" into n + 1 bytes. *)
Definition padded (n : Z) (l : list Z) : list Z := ztake n (l ++ replicate (Z.to_nat (n - zlen l)) 0x20) ++ [0].
Definition scsi_add_device (id : Z) (vendor product : list Z) (rev : option (list Z)) (img : option I)
    (type : scsi_device_type) (bs : Z) (ro : bool) : scsi I -> scsi I :=
  on_device id (fun d =>
    let d := set_dev_block_size bs (set_dev_type type (set_dev_image img d)) in
    let d := set_prevent_removal false (set_medium_present (bool_decide (is_Some img)) (set_read_only ro d)) in
    let d := set_sense (mk_sense 0 0 0) d in
    let d := set_product_id (padded 16 product) (set_vendor_id (padded 8 vendor) d) in
    let d := set_revision (match rev with
      | Some r => write_at (revision d) 0 (ztake 4 r ++ [0])
      | None => write_at (revision d) 0 [0x20; 0x20; 0x20; 0x20] end) d in
    if bool_decide (type = scsi_dev_cdrom) && bool_decide (is_Some img) then set_unit_attention true d else d).

Definition scsi_init (w : wiring) : scsi I :=
  mk_scsi (mk_bus scsi_bus_free scsi_bus_free INT_MAX 0) (mk_regs 0 0 0 0 0 0 0 0) (mk_command 0 0 0 0)
    (replicate 8 blank_device) (mk_buffer (new_bytes 0 (Z.to_nat BUF_LIMIT)) MAX_CMD_SIZE 0 0) w
    (mk_control false false false false 0 false false 0 0 false false false [0; 0; 0] 0 []).

(** 1 if a medium was ejected, 0 if there was none, -1 for a bad id. *)
Definition scsi_eject_device (id : Z) s : Z * scsi I :=
  if (id <? 0) || (6 <? id) then (-1, s)
  else
    let d := device_at id s in
    if negb (bool_decide (is_Some (dev_image d))) && negb (medium_present d) then (0, s)
    else (1, scsi_set_sense id SENSE_UNIT_ATTENTION ASC_MEDIUM_NOT_PRESENT 0
               (on_device id (fun d => set_unit_attention true (set_dev_image None (set_medium_present false d))) s)).

(** ** A bus-mastering DMA engine *)
Definition scsi_hsken_data_out_byte (pc byte : Z) : chip I unit := scsi_odr_auto_handshake_byte pc byte false.
Definition scsi_pop_data_in_byte : chip I (option Z) :=
  s ← ask id;
  if negb (in_phase scsi_data_in s) then mret None
  else if bsize (buf s) =? 0 then mret None
  else
    b ← next_byte;
    put (fun s => if bit (mr (reg s)) MR_DMA then
        if 0 <? bsize (buf s) then set_csr (Z.lor (csr (reg s)) CSR_REQ) s else set_csr (clear (csr (reg s)) CSR_REQ) s
      else s);;
    empty ← ask (fun s => bsize (buf s) =? 0);
    if_ empty (phase_status STATUS_GOOD);;
    mret (Some b).
Definition scsi_push_data_out_byte (pc byte : Z) : chip I unit :=
  put (fun s => if in_phase scsi_data_out s && negb (dma_out_engine_started (ctl s))
                then set_bsize 0 (set_dma_out_engine_started true s) else s);;
  put (set_dma_write_armed true);;
  scsi_odr_auto_handshake_byte pc byte false.
Definition scsi_signal_eop s : scsi I :=
  scsi_update_irq (set_tcr (Z.lor (tcr (reg s)) 0x80) (set_end_of_dma true s)).
Definition scsi_set_irq_callback s : scsi I :=
  emit (IrqCallback (irq_active (ctl s)) (drq_active (ctl s)))
    (mk_scsi (bus s) (reg s) (cmd s) (devices s) (buf s) (mk_wiring (has_via (wires s)) true (has_scheduler (wires s))) (ctl s)).
(** Only whether there is a VIA is seen by the controller. *)
Definition scsi_set_via (via : bool) s : scsi I :=
  mk_scsi (bus s) (reg s) (cmd s) (devices s) (buf s) (mk_wiring via (has_callback (wires s)) (has_scheduler (wires s))) (ctl s).
Definition scsi_set_loopback (enable : bool) s : scsi I := set_loopback enable s.
End Chip.
