(* ===== verification/ScsiProofs.v ===== *)
(** * The controller keeps to its memory

    The invariant of the staging buffer and of the devices, and that every entry
    point of scsi.c keeps it: with the asserts compiled in, no sequence of
    register accesses, DMA transfers, events, resets and ejections makes the
    controller access memory it does not own or an image that is gone. *)
From S2P Require Import Prelude Stdio Image Scsi.

(** ** Reasoning about computations: with asserts, a computation ends in a
    state of [Q] or at an assertion. *)
Definition wp {I A} (m : chip I A) (Q : A -> scsi I -> Prop) (s : scsi I) : Prop :=
  match m s with Ok a s' => Q a s' | Stop w => w = Assertion end.

Section Wp.
Context {I : Type} `{!Build}.
Implicit Types (s : scsi I).
Lemma wpc_bind {A B} (m : chip I A) (k : A -> chip I B) Q s : wp m (fun a => wp (k a) Q) s -> wp (m ≫= k) Q s.
Proof. unfold wp, mbind, chip_bind. by destruct (m s). Qed.
Lemma wpc_ret {A} (a : A) (Q : A -> scsi I -> Prop) s : Q a s -> wp (mret a) Q s.
Proof. done. Qed.
Lemma wpc_ask {A} (f : scsi I -> A) Q s : Q (f s) s -> wp (ask f) Q s.
Proof. done. Qed.
Lemma wpc_put f (Q : unit -> scsi I -> Prop) s : Q tt (f s) -> wp (put f) Q s.
Proof. done. Qed.
Lemma wpc_assert b (Q : unit -> scsi I -> Prop) s : asserts = true -> (b s = true -> Q tt s) -> wp (assert_ b) Q s.
Proof. unfold wp, assert_. intros -> HQ. cbn. destruct (b s); cbn; auto. Qed.
Lemma wpc_if b m (Q : unit -> scsi I -> Prop) s : (b = true -> wp m Q s) -> (b = false -> Q tt s) -> wp (if_ b m) Q s.
Proof. unfold if_. destruct b; intros; [by auto|apply wpc_ret; auto]. Qed.
Lemma wpc_mono {A} (m : chip I A) (P Q : A -> scsi I -> Prop) s : (forall a s, P a s -> Q a s) -> wp m P s -> wp m Q s.
Proof. unfold wp. destruct (m s); auto. Qed.
Lemma wpc_get_data i (Q : Z -> scsi I -> Prop) s : 0 <= i < zlen (data (buf s)) ->
  Q (u8 (nth (Z.to_nat i) (data (buf s)) 0)) s -> wp (get_data i) Q s.
Proof. intros Hi HQ. unfold wp, get_data. zprune. done. Qed.
Lemma wpc_put_data i l (Q : unit -> scsi I -> Prop) s : 0 <= i -> i + zlen l <= zlen (data (buf s)) ->
  Q tt (set_data (write_at (data (buf s)) i l) s) -> wp (put_data i l) Q s.
Proof. intros Hi Hl HQ. unfold wp, put_data. zprune. done. Qed.
Lemma wpc_divide n d (Q : Z -> scsi I -> Prop) s : d <> 0 -> Q (n / d) s -> wp (divide n d) Q s.
Proof. intros Hd HQ. unfold wp, divide. zprune. done. Qed.
End Wp.

Lemma zlen_write_in f p d : 0 <= p -> p + zlen d <= zlen f -> zlen (write_at f p d) = zlen f.
Proof.
  intros. unfold write_at. destruct (Z.eqb_spec (zlen d) 0); [done|]. pose proof (zlen_nonneg d).
  rewrite !zlen_app, zlen_ztake, zlen_zdrop by lia. rewrite zlen_app.
  assert (zlen (zeros (p - zlen f)) = 0) as -> by (unfold zeros; rewrite Z2Nat.nonpos by lia; done). lia.
Qed.

Ltac in_buf :=
  unfold zlen, zeros, hd_mode_header, be32, apple_vendor; rewrite ?length_replicate; cbn [length app];
  unfold BUF_LIMIT, BLOCK_SIZE; lia.

Lemma zlen_read_padded l off n : 0 <= n -> zlen (read_padded l off n) = n.
Proof.
  intros Hn. unfold read_padded. rewrite zlen_app, zlen_zeros; [lia|]. rewrite zlen_ztake by done. lia.
Qed.

(** ** The invariant *)
Section Invariant.
Context {I : Type} `{!Medium I} `{!MediumLaws I} `{!Abi} `{!Build} (junk : Z -> Z).
Implicit Types (s : scsi I) (d : device I).

(** Blocks are 512 or 2048 bytes long, and images are sound. *)
Definition device_ok d : Prop :=
  match dev_image d with Some i => medium_ok i /\ (dev_block_size d = 512 \/ dev_block_size d = 2048) | None => True end.
Record core_ok s : Prop := {
  co_cap : BUF_LIMIT <= zlen (data (buf s));
  co_eight : length (devices s) = 8%nat;
  co_devices : Forall device_ok (devices s);
}.
(** What a phase asks of the buffer and the target. *)
Definition phase_ok s : Prop :=
  let b := buf s in
  match phase (bus s) with
  | scsi_data_in => 0 <= bpos b /\ 0 <= bsize b /\ bpos b + bsize b <= zlen (data b)
  | scsi_data_out => 0 <= bsize b <= bmax b /\ bmax b <= zlen (data b)
  | scsi_command => 0 <= bsize b <= bmax b /\ bmax b <= zlen (data b) /\
      (is_Some (dev_image (the_device s)) \/ unit_attention (the_device s) = true)
  | _ => True
  end.
Definition scsi_ok s : Prop := core_ok s /\ phase_ok s.

(** Registers, command fields, wiring and control do not matter. *)
Definition same_core s s' : Prop :=
  (phase (bus s') = phase (bus s) /\ target (bus s') = target (bus s)) /\ buf s' = buf s /\ devices s' = devices s.
#[global] Instance same_core_preorder : PreOrder same_core.
Proof. unfold same_core. split; [by intros s|]. intros s1 s2 s3 ([-> ->] & -> & ->) ([-> ->] & -> & ->). done. Qed.
Lemma ok_same s s' : same_core s s' -> scsi_ok s -> scsi_ok s'.
Proof.
  intros ([E1 E4] & E2 & E3) [[] Hp]. unfold scsi_ok, phase_ok, the_device, target_id, device_at in *. rewrite E1, E2, E3, E4. split; [|done].
  split; by rewrite ?E2, ?E3.
Qed.
Lemma core_same s s' : same_core s s' -> core_ok s -> core_ok s'.
Proof. intros (E1 & E2 & E3) []. split; by rewrite ?E2, ?E3. Qed.

Lemma update_irq_same s : same_core s (scsi_update_irq s).
Proof. unfold scsi_update_irq. destruct (Bool.eqb _ _); [done|]. by destruct (_ && _), (has_via _), (has_callback _). Qed.
Lemma update_drq_same s : same_core s (scsi_update_drq s).
Proof. unfold scsi_update_drq. destruct (Bool.eqb _ _); [done|]. by destruct (has_via _), (has_callback _). Qed.

(** A phase that asks nothing. *)
Definition calm s : Prop := match phase (bus s) with scsi_data_in | scsi_data_out | scsi_command => False | _ => True end.
Lemma calm_ok s : core_ok s -> calm s -> scsi_ok s.
Proof. unfold calm, scsi_ok, phase_ok. intros Hc Hp. split; [done|]. by destruct (phase (bus s)). Qed.

Lemma core_on_device s i f : core_ok s -> (forall d, device_ok d -> device_ok (f d)) -> core_ok (on_device i f s).
Proof.
  intros [? ? Hd] Hf. split; [done|by cbn; rewrite length_alter|]. cbn. apply Forall_alter; [done|]. intros x _. apply Hf.
Qed.
Lemma ok_on_device s i f : scsi_ok s -> phase (bus s) <> scsi_command -> (forall d, device_ok d -> device_ok (f d)) ->
  scsi_ok (on_device i f s).
Proof.
  intros [Hc Hp] Hn Hf. split; [by apply core_on_device|]. unfold phase_ok in *. cbn. by destruct (phase (bus s)).
Qed.
Lemma device_at_same i f s : 0 <= i -> (Z.to_nat i < length (devices s))%nat -> device_at i (on_device i f s) = f (device_at i s).
Proof.
  intros Hi Hl. unfold device_at, on_device. cbn. rewrite !nth_lookup, list_lookup_alter.
  rewrite decide_True by done. by destruct (lookup_lt_is_Some_2 (devices s) (Z.to_nat i) Hl) as [d ->].
Qed.
Lemma device_at_other i j f s : 0 <= i -> 0 <= j -> i <> j -> device_at j (on_device i f s) = device_at j s.
Proof.
  intros Hi Hj Hne. unfold device_at, on_device. cbn. rewrite !nth_lookup, list_lookup_alter.
  rewrite decide_False by lia. done.
Qed.
Lemma target_range s : 0 <= target_id s < 8.
Proof. unfold target_id. change 7 with (Z.ones 3). rewrite Z.land_ones by lia. apply Z.mod_pos_bound. done. Qed.
(** The same for the target alone. *)
Lemma core_on_target s f : core_ok s -> device_ok (f (the_device s)) -> core_ok (on_device (target_id s) f s).
Proof.
  intros [? ? Hd] Hf. split; [done|by cbn; rewrite length_alter|]. cbn. apply Forall_alter; [done|]. intros x Hx _.
  unfold the_device, device_at in Hf. by rewrite (nth_lookup_Some _ _ _ _ Hx) in Hf.
Qed.
Lemma ok_on_target s f : scsi_ok s -> phase (bus s) <> scsi_command -> device_ok (f (the_device s)) ->
  scsi_ok (on_device (target_id s) f s).
Proof.
  intros [Hc Hp] Hn Hf. split; [by apply core_on_target|]. unfold phase_ok in *. cbn. by destruct (phase (bus s)).
Qed.
Lemma the_device_ok s : core_ok s -> device_ok (the_device s).
Proof.
  intros [_ _ Hd]. unfold the_device, device_at. destruct (nth_in_or_default (Z.to_nat (target_id s)) (devices s) blank_device) as [Hin|E].
  - rewrite List.Forall_forall in Hd. by apply Hd.
  - by rewrite E.
Qed.

Lemma wpc_peek i (Q : Z -> scsi I -> Prop) s : core_ok s -> 0 <= i < BUF_LIMIT -> (forall v, 0 <= v < 256 -> Q v s) -> wp (get_data i) Q s.
Proof. intros [Hcap _ _] Hi HQ. apply wpc_get_data; [lia|]. apply HQ, u8_range. Qed.
(** One access of the buffer in a sequence. *)
Ltac peek := apply wpc_bind, wpc_peek; [assumption|in_buf|let v := fresh "v" in intros v ?].
(** Filling the buffer changes nothing but its bytes. *)
Lemma wpc_fill i l (Q : unit -> scsi I -> Prop) s : core_ok s -> 0 <= i -> i + zlen l <= zlen (data (buf s)) ->
  (forall x, zlen x = zlen (data (buf s)) -> core_ok (set_data x s) -> Q tt (set_data x s)) -> wp (put_data i l) Q s.
Proof.
  intros [Hcap H8 Hd] Hi Hl HQ. apply wpc_put_data; [lia..|]. pose proof (zlen_write_in _ _ _ Hi Hl) as E. apply HQ; [done|].
  split; cbn; [lia|done..].
Qed.
Lemma in_cap s n : core_ok s -> n <= BUF_LIMIT -> n <= zlen (data (buf s)).
Proof. intros [] Hn. lia. Qed.
Lemma ok_set_data s x : zlen x = zlen (data (buf s)) -> scsi_ok s -> scsi_ok (set_data x s).
Proof.
  intros E [[] Hp]. split; [split; cbn; [lia|done..]|]. unfold phase_ok in *. cbn. rewrite E. by destruct (phase (bus s)).
Qed.
Lemma wpc_fill_room i l (Q : unit -> scsi I -> Prop) s : scsi_ok s -> 0 <= i -> i + zlen l <= zlen (data (buf s)) ->
  (forall x, zlen x = zlen (data (buf s)) -> scsi_ok (set_data x s) -> Q tt (set_data x s)) -> wp (put_data i l) Q s.
Proof.
  intros Hok Hi Hl HQ. apply wpc_fill; [apply Hok|done..|]. intros x E _. apply HQ; [done|by apply ok_set_data].
Qed.
Lemma wpc_fill_ok i l (Q : unit -> scsi I -> Prop) s : scsi_ok s -> 0 <= i -> i + zlen l <= BUF_LIMIT ->
  (forall x, zlen x = zlen (data (buf s)) -> scsi_ok (set_data x s) -> Q tt (set_data x s)) -> wp (put_data i l) Q s.
Proof.
  intros Hok Hi Hl HQ. pose proof (co_cap _ (proj1 Hok)). apply wpc_fill_room; [done..|lia|done].
Qed.

Context (Hasserts : asserts = true) (Hsize : 32 <= size_bits <= 64).

Lemma zlen_new_bytes i n : zlen (new_bytes junk i n) = Z.of_nat n.
Proof. revert i. induction n as [|n IH]; intros i; [done|]. cbn [new_bytes]. rewrite zlen_cons, IH. lia. Qed.
Lemma ensure_grows s n : zlen (data (buf s)) <= zlen (data (buf (scsi_buf_ensure junk n s))) /\
  n <= zlen (data (buf (scsi_buf_ensure junk n s))).
Proof.
  unfold scsi_buf_ensure. destruct (Z.leb_spec n (zlen (data (buf s)))); [lia|]. cbn.
  rewrite zlen_app, zlen_new_bytes. lia.
Qed.
Lemma usize_nonneg x : 0 <= usize x.
Proof. unfold usize. apply wrap_range. lia. Qed.

Lemma wpc_status st (Q : unit -> scsi I -> Prop) s : core_ok s ->
  (forall s', core_ok s' -> calm s' -> Q tt s') -> wp (phase_status st) Q s.
Proof.
  intros Hc HQ. unfold phase_status. apply wpc_bind, wpc_assert; [done|]. intros _.
  apply wpc_bind, wpc_ask, wpc_bind, wpc_put, wpc_bind, wpc_put, wpc_bind, wpc_put, wpc_bind, wpc_ask, wpc_bind.
  set (s1 := set_cdr _ _). assert (core_ok s1 /\ calm s1) as [H1 H2] by (split; [by destruct Hc|done]).
  apply wpc_if; intros _; [apply wpc_put|]; (apply wpc_if; intros _; [apply wpc_put|]); apply HQ;
    try (eapply core_same; [apply update_irq_same|]); try done; try (by destruct H1).
  all: unfold calm; by rewrite (proj1 (proj1 (update_irq_same _))).
Qed.
Lemma wpc_status_ok st s : core_ok s -> wp (phase_status st) (fun _ => scsi_ok) s.
Proof. intros Hc. apply wpc_status; [done|]. intros. by apply calm_ok. Qed.
Lemma wpc_check k a q s : core_ok s -> wp (scsi_check_condition k a q) (fun _ => scsi_ok) s.
Proof.
  intros Hc. unfold scsi_check_condition. apply wpc_bind, wpc_put, wpc_status_ok.
  apply core_on_device; [done|]. by intros [].
Qed.
Lemma wpc_message_in m s : core_ok s -> wp (phase_message_in m) (fun _ => scsi_ok) s.
Proof.
  intros Hc. unfold phase_message_in. apply wpc_bind, wpc_assert; [done|]. intros _. apply wpc_bind, wpc_put, wpc_bind, wpc_put, wpc_bind, wpc_put, wpc_put.
  eapply ok_same; [apply update_irq_same|]. apply calm_ok; [by destruct Hc|done].
Qed.
Lemma cancel_same s : same_core s (scsi_cancel_drq_service s).
Proof. unfold scsi_cancel_drq_service. by destruct (has_scheduler _). Qed.
Lemma free_ok s : core_ok s -> scsi_ok (phase_free s).
Proof.
  intros Hc. unfold phase_free. eapply ok_same; [apply update_irq_same|]. eapply ok_same; [apply update_drq_same|].
  eapply ok_same; [apply cancel_same|]. apply calm_ok; [by destruct Hc|done].
Qed.
Lemma message_out_ok s : core_ok s -> scsi_ok (phase_message_out s).
Proof.
  intros Hc. unfold phase_message_out. eapply ok_same; [apply update_irq_same|]. apply calm_ok; [by destruct Hc|done].
Qed.
Lemma reset_ok s : core_ok s -> scsi_ok (scsi_reset s).
Proof.
  intros Hc. unfold scsi_reset. eapply ok_same; [apply update_irq_same|]. eapply ok_same; [apply update_drq_same|].
  apply calm_ok; [by destruct Hc|done].
Qed.

Record filling (n : Z) s s' : Prop := {
  fi_ok : scsi_ok s';
  fi_phase : phase (bus s') = scsi_data_in;
  fi_target : target (bus s') = target (bus s);
  fi_devices : devices s' = devices s;
  fi_cmd : cmd s' = cmd s;
  fi_room : usize n <= zlen (data (buf s'));
}.
Lemma ensure_data n s : scsi_buf_ensure junk n s = set_data (data (buf (scsi_buf_ensure junk n s))) s.
Proof. unfold scsi_buf_ensure. destruct (_ <=? _); [|done]. by destruct s as [? ? ? ? [] ]. Qed.
Lemma wpc_data_in n (Q : unit -> scsi I -> Prop) s : core_ok s -> (forall s', filling n s s' -> Q tt s') ->
  wp (phase_data_in junk n) Q s.
Proof.
  intros Hc HQ. unfold phase_data_in. apply wpc_bind, wpc_assert; [done|]. intros _.
  apply wpc_bind, wpc_put, wpc_bind, wpc_put, wpc_bind, wpc_put, wpc_bind, wpc_put, wpc_put. apply HQ.
  set (s1 := set_csr _ _). pose proof (ensure_grows s1 (usize n)) as [H1 H2]. rewrite ensure_data.
  set (x := data (buf (scsi_buf_ensure junk (usize n) s1))) in *. clearbody x. pose proof (usize_nonneg n). destruct Hc. subst s1. cbn in H1. split; cbn; try done.
  split; [split; cbn; [lia|done..]|]. unfold phase_ok. cbn. lia.
Qed.
Lemma wpc_data_out n s : core_ok s -> wp (phase_data_out junk n) (fun _ => scsi_ok) s.
Proof.
  intros Hc. unfold phase_data_out. apply wpc_bind, wpc_assert; [done|]. intros _.
  apply wpc_bind, wpc_put, wpc_bind, wpc_put, wpc_bind, wpc_put, wpc_bind, wpc_put, wpc_bind, wpc_put, wpc_bind, wpc_put, wpc_put.
  set (s1 := set_csr _ _). pose proof (ensure_grows s1 (usize n)) as [H1 H2]. rewrite ensure_data.
  set (x := data (buf (scsi_buf_ensure junk (usize n) s1))) in *. clearbody x. pose proof (usize_nonneg n). destruct Hc. subst s1. cbn in H1.
  split; [split; cbn; [lia|done..]|]. unfold phase_ok. cbn. lia.
Qed.

(** ** CD-ROM drives *)

(** The number of blocks of a device. *)
Lemma wpc_count d (Q : Z -> scsi I -> Prop) s : device_ok d -> (forall b, Q b s) ->
  wp (match dev_image d with Some _ => divide (image_size d) (dev_block_size d) | None => mret 0 : chip I Z end) Q s.
Proof.
  unfold device_ok. intros Hd HQ. destruct (dev_image d); [|by apply wpc_ret]. apply wpc_divide; [lia|done].
Qed.
Lemma wpc_fills i l (k : unit -> chip I unit) (P : scsi I -> Prop) s : scsi_ok s -> phase (bus s) = scsi_data_in -> 0 <= i -> i + zlen l <= BUF_LIMIT ->
  (forall s', scsi_ok s' -> phase (bus s') = scsi_data_in -> wp (k tt) (fun _ => P) s') -> wp (put_data i l ≫= k) (fun _ => P) s.
Proof. intros Hok Hp Hi Hl HQ. apply wpc_bind, wpc_fill_ok; [done..|]. intros x _ Hx. by apply HQ. Qed.
Lemma wpc_fills_if b i l (k : unit -> chip I unit) (P : scsi I -> Prop) s : scsi_ok s -> phase (bus s) = scsi_data_in -> 0 <= i -> i + zlen l <= BUF_LIMIT ->
  (forall s', scsi_ok s' -> phase (bus s') = scsi_data_in -> wp (k tt) (fun _ => P) s') -> wp (if_ b (put_data i l) ≫= k) (fun _ => P) s.
Proof. intros Hok Hp Hi Hl HQ. destruct b; [by apply wpc_fills|]. apply wpc_bind, wpc_ret. by apply HQ. Qed.
Lemma wpc_fill_last i l s : scsi_ok s -> 0 <= i -> i + zlen l <= BUF_LIMIT -> wp (put_data i l) (fun _ => scsi_ok) s.
Proof. intros Hok Hi Hl. by apply wpc_fill_ok. Qed.

Lemma answer_ok resp s : core_ok s -> zlen resp <= BUF_LIMIT -> wp (answer junk resp) (fun _ => scsi_ok) s.
Proof.
  intros Hc Hr. unfold answer. peek. peek. match goal with |- context [phase_data_in _ ?x] => set (len := x) end.
  assert (0 <= len <= zlen resp) as Hl.
  { subst len. pose proof (zlen_nonneg resp). pose proof (u16_range (Z.lor (Z.shiftl v 8) v0)). destruct (Z.ltb_spec 0 (u16 (Z.lor (Z.shiftl v 8) v0))); cbn [andb]; zbool; lia. }
  apply wpc_bind, wpc_data_in; [done|]. intros s' []. apply wpc_fill_last; [done|lia|]. rewrite zlen_ztake by lia. lia.
Qed.
Lemma zlen_pages c p : zlen (mode_pages c p) <= 84.
Proof.
  unfold mode_pages. repeat (destruct (_ =? _); [by vm_compute; (destruct p as [|[]|]; done)|]).
  destruct (c =? 63); [|done]. unfold build_page_30. by destruct (p =? 1).
Qed.
Lemma cdrom_mode_sense_ok s : core_ok s -> wp (scsi_cdrom_mode_sense junk) (fun _ => scsi_ok) s.
Proof.
  intros Hc. unfold scsi_cdrom_mode_sense. apply wpc_bind, wpc_ask. peek. peek.
  apply wpc_bind, wpc_fill; [done|lia|rewrite zlen_zeros by done; pose proof (co_cap _ Hc); lia|]. intros x Ex Hx.
  apply wpc_bind, wpc_count; [by apply the_device_ok|]. intros b.
  apply wpc_bind, wpc_fill; [done|lia|apply in_cap; [done|in_buf]|]. intros y Ey Hy.
  pose proof (zlen_pages (Z.land v0 63) (Z.land (Z.shiftr v0 6) 3)).
  apply wpc_bind, wpc_fill; [done|lia|apply in_cap; [done|unfold BUF_LIMIT, BLOCK_SIZE; lia]|]. intros z Ez Hz.
  apply wpc_bind, wpc_fill; [done|lia|apply in_cap; [done|in_buf]|]. intros w Ew Hw.
  apply wpc_data_in; [done|]. by intros s' [].
Qed.
Lemma cdrom_mode_select_ok s : core_ok s -> wp scsi_cdrom_mode_select (fun _ => scsi_ok) s.
Proof.
  intros Hc. unfold scsi_cdrom_mode_select. apply wpc_bind, wpc_ask. destruct (_ <? 4); [by apply wpc_status_ok|]. peek.
  destruct (_ && _); [|by apply wpc_bind, wpc_ret, wpc_status_ok]. apply wpc_bind. peek. peek. peek.
  set (l := Z.lor _ _). apply wpc_if; [|intros _; by apply wpc_status_ok]. intros Hl. apply wpc_put, wpc_status_ok.
  apply core_on_device; [done|]. intros d. unfold device_ok. cbn. destruct (dev_image d); [|done]. intros [? _]. split; [done|].
  apply orb_true_iff in Hl. rewrite !Z.eqb_eq in Hl. done.
Qed.
Lemma request_sense_ok s : core_ok s -> wp (scsi_cdrom_request_sense junk) (fun _ => scsi_ok) s.
Proof.
  intros Hc. unfold scsi_cdrom_request_sense. peek. match goal with |- context [phase_data_in _ ?x] => set (len := x) end.
  assert (len <= 18) as Hl by (subst len; zbool; lia).
  apply wpc_bind, wpc_data_in; [done|]. intros s1 [Hok Hp _ _ _ _].
  apply wpc_fills; [done..|lia| |].
  { unfold zlen, zeros. rewrite length_replicate. unfold BUF_LIMIT, BLOCK_SIZE. lia. }
  clear s Hc s1 Hok Hp. intros s Hok Hp. apply wpc_bind, wpc_ask. set (d := the_device s). clearbody d.
  do 3 (apply wpc_fills; [done..|lia|in_buf|]; clear s Hok Hp; intros s Hok Hp).
  do 2 (apply wpc_fills_if; [done..|lia|in_buf|]; clear s Hok Hp; intros s Hok Hp).
  apply wpc_bind, wpc_put, wpc_put. apply ok_on_device; [apply ok_on_device; [done|by rewrite Hp|]|cbn; by rewrite Hp|]; by intros [].
Qed.
Lemma start_stop_ok s : core_ok s -> wp scsi_cdrom_start_stop_unit (fun _ => scsi_ok) s.
Proof.
  intros Hc. unfold scsi_cdrom_start_stop_unit. peek. apply wpc_bind, wpc_ask. destruct (_ && prevent_removal _); [by apply wpc_check|].
  apply wpc_bind, wpc_if; intros _; [|by apply wpc_status_ok]. apply wpc_bind, wpc_put, wpc_put, wpc_status_ok.
  apply core_on_device; [apply core_on_device; [done|]|]; by intros [].
Qed.
Lemma prevent_allow_ok s : core_ok s -> wp scsi_cdrom_prevent_allow (fun _ => scsi_ok) s.
Proof.
  intros Hc. unfold scsi_cdrom_prevent_allow. peek. apply wpc_bind, wpc_put, wpc_status_ok. apply core_on_device; [done|]. by intros [].
Qed.
Lemma read_toc_ok s : core_ok s -> wp (scsi_cdrom_read_toc junk) (fun _ => scsi_ok) s.
Proof.
  intros Hc. unfold scsi_cdrom_read_toc. apply wpc_bind, wpc_ask, wpc_bind, wpc_count; [by apply the_device_ok|]. intros b.
  by apply answer_ok.
Qed.
Lemma read_header_ok s : core_ok s -> wp (scsi_cdrom_read_header junk) (fun _ => scsi_ok) s.
Proof. intros Hc. unfold scsi_cdrom_read_header. do 4 peek. by apply answer_ok. Qed.

(** ** Commands *)
Lemma usize_unit x : x mod 512 = 0 -> usize x mod 512 = 0.
Proof.
  intros Hx. unfold usize, wrap. rewrite Z.mod_mod_divide; [done|].
  exists (2 ^ (size_bits - 9)). change 512 with (2 ^ 9). rewrite <-Z.pow_add_r by lia. f_equal. lia.
Qed.
Lemma usize_lt x : usize x < 2 ^ 64.
Proof.
  assert (2 ^ size_bits <= 2 ^ 64) by (apply Z.pow_le_mono_r; lia). unfold usize.
  eapply Z.lt_le_trans; [apply wrap_range; lia|done].
Qed.
Lemma usize_mul_l x y : usize (usize x * y) = usize (x * y).
Proof. unfold usize, wrap. apply Zmult_mod_idemp_l. Qed.

Lemma read_transfer_ok s : core_ok s -> is_Some (dev_image (the_device s)) -> wp (read_transfer junk) (fun _ => scsi_ok) s.
Proof.
  intros Hc [i Hi]. unfold read_transfer. apply wpc_bind, wpc_ask, wpc_bind, wpc_ask, wpc_bind, wpc_data_in; [done|].
  intros s' [Hok Hp Ht Hd _ Hroom]. assert (the_device s' = the_device s) as Ed.
  { unfold the_device, device_at, target_id. by rewrite Ht, Hd. }
  apply wpc_bind, wpc_ask. rewrite Ed, Hi. pose proof (the_device_ok _ Hc) as Hdev. unfold device_ok in Hdev. rewrite Hi in Hdev.
  destruct Hdev as [Him Hbs]. set (bs := dev_block_size (the_device s)) in *.
  assert (bs mod 512 = 0) as Hu by (destruct Hbs as [-> | ->]; done).
  assert (forall x, usize (x * bs) mod 512 = 0) as Hmul.
  { intros x. apply usize_unit. by rewrite <-Zmult_mod_idemp_r, Hu, Z.mul_0_r. }
  rewrite <-usize_mul_l in Hroom. set (cnt := usize (usize (tl (cmd s)) * bs)) in *.
  destruct (_ <? _); [by apply wpc_check; apply Hok|].
  apply wpc_bind, wpc_ask. destruct (Z.ltb_spec (zlen (data (buf s'))) cnt); [lia|]. apply wpc_bind, wpc_ret.
  assert (zlen (ztake cnt (data (buf s'))) = cnt) as El by (rewrite zlen_ztake; [lia|apply usize_nonneg]).
  destruct (medium_read_ok i (usize (usize (lba (cmd s)) * bs)) (ztake cnt (data (buf s')))) as (i' & -> & Hi' & _);
    [done|split; [apply usize_nonneg|apply usize_lt]|apply Hmul|rewrite El; apply Hmul|].
  apply wpc_bind, wpc_put.
  apply wpc_bind, wpc_fill_room.
  - apply ok_on_target; [done|by rewrite Hp|]. by rewrite Ed.
  - lia.
  - rewrite El, zlen_read_padded by apply usize_nonneg. cbn. lia.
  - intros x _ Hx. by apply wpc_assert.
Qed.
Lemma write_transfer_ok s : core_ok s -> wp (write_transfer junk) (fun _ => scsi_ok) s.
Proof. intros Hc. unfold write_transfer. apply wpc_bind, wpc_ask, wpc_bind, wpc_ask. by apply wpc_data_out. Qed.
Lemma transfer_ok w s : core_ok s -> is_Some (dev_image (the_device s)) -> wp (transfer junk w) (fun _ => scsi_ok) s.
Proof. intros Hc Hi. destruct w; [by apply write_transfer_ok|by apply read_transfer_ok]. Qed.

Lemma same_device s s' : same_core s s' -> the_device s' = the_device s.
Proof. intros ([_ E1] & _ & E3). unfold the_device, device_at, target_id. by rewrite E1, E3. Qed.
(** Peeling a sequence of updates that the invariant does not see. *)
Lemma wpc_puts f (k : unit -> chip I unit) (Q : unit -> scsi I -> Prop) s : (forall s, same_core s (f s)) -> core_ok s -> is_Some (dev_image (the_device s)) ->
  (forall s', core_ok s' -> is_Some (dev_image (the_device s')) -> wp (k tt) Q s') -> wp (put f ≫= k) Q s.
Proof.
  intros Hf Hc Hi HQ. apply wpc_bind, wpc_put, HQ; [by apply (core_same s)|]. by rewrite (same_device s).
Qed.
Lemma rw6_ok w s : core_ok s -> is_Some (dev_image (the_device s)) -> wp (cmd_rw6 junk w) (fun _ => scsi_ok) s.
Proof.
  intros Hc Hi. unfold cmd_rw6. do 5 peek. do 3 (apply wpc_puts; [done..|]; clear s Hc Hi; intros s Hc Hi).
  apply wpc_bind, wpc_ask, wpc_bind, wpc_ask.
  destruct (_ || _); [by apply wpc_check|]. destruct (_ && _); [by apply wpc_check|].
  destruct (_ <? _); [by apply wpc_check|by apply transfer_ok].
Qed.
Lemma rw10_ok w s : core_ok s -> is_Some (dev_image (the_device s)) -> wp (cmd_rw10 junk w) (fun _ => scsi_ok) s.
Proof.
  intros Hc Hi. unfold cmd_rw10. do 6 peek. do 2 (apply wpc_puts; [done..|]; clear s Hc Hi; intros s Hc Hi).
  apply wpc_bind, wpc_ask, wpc_bind, wpc_ask.
  destruct (_ && _); [by apply wpc_check|]. destruct (_ =? _); [by apply wpc_status_ok|by apply transfer_ok].
Qed.
Lemma zlen_ztake_le n (l : list Z) : zlen (ztake n l) <= Z.max 0 n.
Proof. unfold zlen, ztake. rewrite length_take. lia. Qed.
Lemma small_usize x : 0 <= x < 256 -> usize x = x.
Proof. intros Hx. apply wrap_small. split; [lia|]. apply Z.lt_le_trans with (2 ^ 32); [pow2; lia|]. apply Z.pow_le_mono_r; lia. Qed.
Lemma inquiry_ok s : core_ok s -> wp (cmd_inquiry junk) (fun _ => scsi_ok) s.
Proof.
  intros Hc. unfold cmd_inquiry. peek. apply wpc_bind, wpc_put, wpc_bind, wpc_ask.
  apply wpc_bind, wpc_data_in; [by apply (core_same s)|]. intros s1 [Hok Hp _ _ _ _]. cbn [set_tl cmd on_cmd tl].
  set (n := if v =? 0 then 36 else v). assert (0 <= n < 256) by (subst n; zbool; lia).
  apply wpc_fills; [done..|lia|rewrite zlen_zeros by lia; unfold BUF_LIMIT, BLOCK_SIZE; lia|].
  clear s1 Hok Hp. intros s1 Hok Hp. apply wpc_bind, wpc_ask.
  apply wpc_fills; [done..|lia|destruct (bool_decide _); in_buf|]. intros s2 Hok2 Hp2.
  apply wpc_if; [intros _|done].
  apply wpc_fills; [done..|lia| |]. { pose proof (zlen_ztake_le 8 (vendor_id (the_device s1))). unfold BUF_LIMIT, BLOCK_SIZE. lia. }
  intros s3 Hok3 Hp3. apply wpc_fills; [done..|lia| |]. { pose proof (zlen_ztake_le 16 (product_id (the_device s1))). unfold BUF_LIMIT, BLOCK_SIZE. lia. }
  intros s4 Hok4 Hp4. apply wpc_fill_last; [done|lia|]. pose proof (zlen_ztake_le 4 (revision (the_device s1))). unfold BUF_LIMIT, BLOCK_SIZE. lia.
Qed.
Lemma mode_select_ok s : core_ok s -> wp (cmd_mode_select junk) (fun _ => scsi_ok) s.
Proof. intros Hc. unfold cmd_mode_select. peek. destruct (_ =? _); [by apply wpc_status_ok|by apply wpc_data_out]. Qed.
Lemma mode_sense_ok s : core_ok s -> wp (cmd_mode_sense junk) (fun _ => scsi_ok) s.
Proof.
  intros Hc. unfold cmd_mode_sense. apply wpc_bind, wpc_ask. destruct (bool_decide _); [by apply cdrom_mode_sense_ok|]. peek.
  destruct (_ =? _); (apply wpc_bind, wpc_data_in; [done|]; intros s1 [Hok Hp _ _ _ _]);
    repeat (apply wpc_fills; [done..|lia|in_buf|]; clear s1 Hok Hp; intros s1 Hok Hp);
    (apply wpc_fill_last; [done|lia|in_buf]).
Qed.
Lemma read_capacity_ok s : core_ok s -> is_Some (dev_image (the_device s)) -> wp (cmd_read_capacity junk) (fun _ => scsi_ok) s.
Proof.
  intros Hc [i Hi]. unfold cmd_read_capacity. apply wpc_bind, wpc_ask, wpc_bind, wpc_divide.
  { pose proof (the_device_ok _ Hc) as Hd. unfold device_ok in Hd. rewrite Hi in Hd. lia. }
  apply wpc_bind, wpc_data_in; [done|]. intros s1 [Hok Hp _ _ _ _]. apply wpc_fills; [done..|lia|in_buf|].
  intros s2 Hok2 Hp2. apply wpc_fill_last; [done|lia|in_buf].
Qed.
Lemma cdrom_only_ok m other s : core_ok s -> wp m (fun _ => scsi_ok) s -> wp other (fun _ => scsi_ok) s ->
  wp (cdrom_only m other) (fun _ => scsi_ok) s.
Proof. intros Hc Hm Ho. unfold cdrom_only. apply wpc_bind, wpc_ask. by destruct (bool_decide _). Qed.
Lemma illegal_ok s : core_ok s -> wp illegal_opcode (fun _ => scsi_ok) s.
Proof. apply wpc_check. Qed.
Lemma sub_channel_ok s : core_ok s -> wp (scsi_cdrom_read_sub_channel junk) (fun _ => scsi_ok) s.
Proof. intros Hc. by apply answer_ok. Qed.
Create HintDb commands.
#[local] Hint Resolve wpc_status_ok wpc_check illegal_ok sub_channel_ok request_sense_ok rw6_ok rw10_ok inquiry_ok mode_select_ok mode_sense_ok
  read_capacity_ok cdrom_only_ok start_stop_ok prevent_allow_ok read_toc_ok read_header_ok : commands.

Lemma run_cmd_ok s : core_ok s -> is_Some (dev_image (the_device s)) \/ unit_attention (the_device s) = true ->
  wp (run_cmd junk) (fun _ => scsi_ok) s.
Proof.
  intros Hc Hi. unfold run_cmd. peek. apply wpc_bind, wpc_put, wpc_bind, wpc_ask. cbn beta.
  set (s1 := set_opcode v s). assert (core_ok s1) as Hc1 by (by apply (core_same s)).
  change (the_device s) with (the_device s1) in Hi. clearbody s1. clear s Hc.
  destruct (_ && _) eqn:Eua.
  { apply wpc_bind, wpc_put, wpc_check. apply core_on_device; [done|]. by intros []. }
  assert (v = CMD_INQUIRY \/ v = CMD_REQUEST_SENSE \/ is_Some (dev_image (the_device s1))) as Him.
  { destruct Hi as [Hi|Hu]; [by right; right|]. rewrite Hu in Eua. cbn [andb] in Eua.
    destruct (Z.eqb_spec v CMD_INQUIRY); [by left|]. destruct (Z.eqb_spec v CMD_REQUEST_SENSE); [by right; left|done]. }
  clear Eua Hi. destruct Him as [-> | [-> | Hi] ]; [by apply inquiry_ok|by apply request_sense_ok|].
  repeat (match goal with |- wp (if ?c then _ else _) _ _ => destruct c end; try (solve [auto with commands])).
Qed.

Lemma command_complete_ok s : core_ok s -> bsize (buf s) <= zlen (data (buf s)) -> wp command_complete (fun _ => scsi_ok) s.
Proof.
  intros Hc Hr. unfold command_complete. apply wpc_bind, wpc_ask, wpc_bind, wpc_ask. cbn zeta.
  destruct (_ || _); [|destruct (_ && _); [by apply cdrom_mode_select_ok|by apply wpc_status_ok] ].
  apply wpc_bind, wpc_assert; [done|]. intros Hsz%Z.eqb_eq. apply wpc_bind, wpc_assert; [done|]. intros _.
  apply wpc_bind. eapply (wpc_mono _ (fun _ => core_ok)).
  { intros _ s' []. apply wpc_bind, wpc_put, wpc_status_ok. by split. }
  pose proof (the_device_ok _ Hc) as Hdev. unfold device_ok in Hdev.
  destruct (dev_image (the_device s)) as [i|] eqn:Hi; [|done]. destruct Hdev as [Him Hbs].
  rewrite (usize_mul_l (tl (cmd s))). set (bs := dev_block_size (the_device s)) in *.
  assert (bs mod 512 = 0) as Hu by (destruct Hbs as [-> | ->]; done).
  assert (forall x, usize (x * bs) mod 512 = 0) as Hmul.
  { intros x. apply usize_unit. by rewrite <-Zmult_mod_idemp_r, Hu, Z.mul_0_r. }
  apply wpc_bind, wpc_ask. rewrite Hsz. destruct (Z.ltb_spec (zlen (data (buf s))) (bsize (buf s))); [lia|]. apply wpc_bind, wpc_ret.
  assert (zlen (ztake (bsize (buf s)) (data (buf s))) = bsize (buf s)) as El.
  { pose proof (usize_nonneg (tl (cmd s) * bs)). rewrite zlen_ztake; lia. }
  destruct (medium_write_ok i (usize (usize (lba (cmd s)) * bs)) (ztake (bsize (buf s)) (data (buf s)))) as (i' & -> & Hi' & _);
    [done|split; [apply usize_nonneg|apply usize_lt]|apply Hmul|rewrite El, <-Hsz; apply Hmul|].
  apply wpc_put, core_on_target; [done|]. by split.
Qed.

(** ** Registers *)
Lemma wpc_append b (Q : unit -> scsi I -> Prop) s : core_ok s -> bmax (buf s) <= zlen (data (buf s)) -> 0 <= bsize (buf s) ->
  (forall x, zlen x = zlen (data (buf s)) -> bsize (buf s) < bmax (buf s) ->
    Q tt (set_bsize (bsize (buf s) + 1) (set_data x s))) -> wp (append_byte b) Q s.
Proof.
  intros Hc Hm Hs HQ. unfold append_byte. apply wpc_bind, wpc_assert; [done|]. intros Hlt%Z.ltb_lt.
  apply wpc_bind, wpc_ask, wpc_bind, wpc_fill; [done|done|rewrite zlen_cons, zlen_nil; lia|]. intros x Ex _. apply wpc_put. by apply HQ.
Qed.
Lemma appended_ok s x : scsi_ok s -> phase (bus s) = scsi_command \/ phase (bus s) = scsi_data_out ->
  zlen x = zlen (data (buf s)) -> bsize (buf s) < bmax (buf s) -> scsi_ok (set_bsize (bsize (buf s) + 1) (set_data x s)).
Proof.
  intros [[] Hp] Hph E Hlt. split; [split; cbn; [lia|done..]|]. unfold phase_ok in *. cbn. rewrite E.
  destruct Hph as [Eph|Eph]; rewrite Eph in *; [|lia]. destruct Hp as (? & ? & Hd). split_and!; [lia..|done].
Qed.
Lemma set_csr_same x s : same_core s (set_csr x s).
Proof. done. Qed.
Lemma ok_ext s s' : bus s' = bus s -> buf s' = buf s -> devices s' = devices s -> scsi_ok s -> scsi_ok s'.
Proof. intros E. intros. apply (ok_same s); [|done]. unfold same_core. by rewrite E. Qed.

Lemma end_selection_ok s : scsi_ok s -> wp end_selection (fun _ => scsi_ok) s.
Proof.
  intros [Hc _]. unfold end_selection. apply wpc_bind, wpc_assert; [done|]. intros Hsel%bool_decide_eq_true. apply wpc_bind, wpc_put, wpc_bind, wpc_put, wpc_bind, wpc_ask.
  match goal with |- context [the_device ?x] => set (s1 := x) end.
  assert (core_ok s1) as H1 by (subst s1; destruct Hc, (8 <=? _); done). clearbody s1.
  destruct (dev_image (the_device s1)) eqn:Hi; [|by apply wpc_put, free_ok].
  unfold phase_command. apply wpc_bind, wpc_assert; [done|]. intros _.
  apply wpc_bind, wpc_put, wpc_bind, wpc_put, wpc_bind, wpc_put, wpc_bind, wpc_put, wpc_put.
  eapply ok_same; [apply update_irq_same|]. destruct H1. split; [by split|]. unfold phase_ok. cbn.
  unfold MAX_CMD_SIZE, BUF_LIMIT, BLOCK_SIZE in *. split_and!; [lia..|]. left. exists i. exact Hi.
Qed.
Lemma raise_ok s : scsi_ok s -> wp raise_req (fun _ => scsi_ok) s.
Proof. intros Hok. by apply wpc_put, (ok_ext s). Qed.
Lemma ack_cleared_ok s : scsi_ok s -> wp (ack_cleared junk) (fun _ => scsi_ok) s.
Proof.
  intros Hok. pose proof Hok as [Hc Hp]. unfold ack_cleared. apply wpc_bind, wpc_ask, wpc_bind, wpc_ask. unfold phase_ok in Hp.
  destruct (phase (bus s)) eqn:Eph; try done.
  - apply wpc_bind, wpc_peek; [done|in_buf|]. intros op _. apply wpc_bind, wpc_assert; [done|]. intros _.
    destruct (_ =? _); [apply run_cmd_ok; [done|apply Hp]|by apply raise_ok].
  - destruct (_ =? _); [by apply wpc_status_ok|by apply raise_ok].
  - destruct (_ =? _); [apply command_complete_ok; [done|lia]|by apply raise_ok].
  - by apply wpc_message_in.
  - by apply wpc_put, free_ok.
  - apply wpc_bind, wpc_ask. destruct (_ <=? _); [by apply wpc_status_ok|]. destruct (_ || _); [by apply wpc_put, free_ok|by apply wpc_status_ok].
Qed.
Lemma ack_asserted_ok s : scsi_ok s -> wp ack_asserted (fun _ => scsi_ok) s.
Proof.
  intros Hok. pose proof Hok as [Hc Hp]. unfold ack_asserted. apply wpc_bind, wpc_ask, wpc_bind. unfold phase_ok in Hp.
  eapply (wpc_mono _ (fun _ => scsi_ok)); [by intros _ s' Hs'; apply wpc_put, (ok_ext s')|].
  destruct (phase (bus s)) eqn:Eph; try done; apply wpc_bind, wpc_ask, wpc_append; try done; try lia;
    intros x Ex Hlt; apply appended_ok; auto.
Qed.

(** A sequence whose parts keep the invariant keeps it. *)
Definition keeps_ok {A} (m : chip I A) : Prop := forall s, scsi_ok s -> wp m (fun _ => scsi_ok) s.
Lemma bind_keeps {A B} (m : chip I A) (k : A -> chip I B) : keeps_ok m -> (forall a, keeps_ok (k a)) -> keeps_ok (m ≫= k).
Proof. intros Hm Hk s Hs. apply wpc_bind. eapply wpc_mono; [|by apply Hm]. intros a s' Hs'. by apply Hk. Qed.
Lemma ret_keeps {A} (a : A) : keeps_ok (mret a).
Proof. by intros s. Qed.
Lemma ask_keeps {A} (f : scsi I -> A) : keeps_ok (ask f).
Proof. by intros s. Qed.
Lemma put_keeps f : (forall s, scsi_ok s -> scsi_ok (f s)) -> keeps_ok (put f).
Proof. intros Hf s Hs. by apply wpc_put, Hf. Qed.
Lemma put_same_keeps f : (forall s, same_core s (f s)) -> keeps_ok (put f).
Proof. intros Hf. apply put_keeps. intros s. by apply ok_same. Qed.
Lemma if_keeps b m : keeps_ok m -> keeps_ok (if_ b m).
Proof. destruct b; [done|intros _; apply ret_keeps]. Qed.
Lemma assert_keeps b : keeps_ok (assert_ b).
Proof. intros s Hs. by apply wpc_assert. Qed.
Lemma status_keeps st : keeps_ok (phase_status st).
Proof. intros s [Hc _]. by apply wpc_status_ok. Qed.
Lemma message_keeps m : keeps_ok (phase_message_in m).
Proof. intros s [Hc _]. by apply wpc_message_in. Qed.
Lemma reset_keeps : keeps_ok (put scsi_reset).
Proof. apply put_keeps. intros s [Hc _]. by apply reset_ok. Qed.
Lemma selection_keeps : keeps_ok phase_selection.
Proof.
  intros s [Hc _]. unfold phase_selection. apply wpc_bind, wpc_assert; [done|]. intros _. apply wpc_put, calm_ok; [by destruct Hc|done].
Qed.
Lemma arbitration_keeps : keeps_ok phase_arbitration.
Proof.
  intros s [Hc _]. unfold phase_arbitration. apply wpc_bind, wpc_assert; [done|]. intros _. apply wpc_put, calm_ok; [by destruct Hc|done].
Qed.
(** Walks through a sequence; what is left are the updates of the state. *)
Ltac keeps := repeat (intros; lazymatch goal with
  | |- keeps_ok (_ ≫= _) => apply bind_keeps
  | |- keeps_ok (mret _) => apply ret_keeps
  | |- keeps_ok (ask _) => apply ask_keeps
  | |- keeps_ok (assert_ _) => apply assert_keeps
  | |- keeps_ok (if_ _ _) => apply if_keeps
  | |- keeps_ok (phase_status _) => apply status_keeps
  | |- keeps_ok (phase_message_in _) => apply message_keeps
  | |- keeps_ok (put scsi_reset) => apply reset_keeps
  | |- keeps_ok (put scsi_update_irq) => apply put_same_keeps; exact update_irq_same
  | |- keeps_ok (put scsi_update_drq) => apply put_same_keeps; exact update_drq_same
  | |- keeps_ok (put (set_csr _)) => apply put_same_keeps; done
  | |- keeps_ok phase_selection => apply selection_keeps
  | |- keeps_ok phase_arbitration => apply arbitration_keeps
  | |- keeps_ok end_selection => exact end_selection_ok
  | |- keeps_ok (ack_cleared _) => exact ack_cleared_ok
  | |- keeps_ok ack_asserted => exact ack_asserted_ok
  | |- keeps_ok (if ?b then _ else _) => destruct b
  | _ => idtac
  end).

Lemma free_keeps : keeps_ok (put phase_free).
Proof. apply put_keeps. intros s [Hc _]. by apply free_ok. Qed.
Lemma write_icr_ok v : keeps_ok (write_icr junk v).
Proof.
  unfold write_icr. apply bind_keeps; [apply ask_keeps|]. intros old. apply bind_keeps; [apply ask_keeps|]. intros l. cbn zeta.
  apply bind_keeps; [by apply put_same_keeps|]. intros _.
  destruct l; [keeps; by apply put_same_keeps|]. destruct (bit _ ICR_RST); [keeps|]. keeps.
  apply put_keeps. intros s Hs. destruct (in_phases _ s); [apply message_out_ok, Hs|done].
Qed.
Lemma write_mr_ok v : keeps_ok (write_mr v).
Proof.
  unfold write_mr. apply bind_keeps; [apply ask_keeps|]. intros old. apply bind_keeps; [apply ask_keeps|]. intros l.
  apply bind_keeps; [by apply put_same_keeps|]. intros _. destruct l; [keeps|]. apply bind_keeps.
  - apply if_keeps. unfold start_arbitration. keeps; by apply put_same_keeps.
  - intros _. destruct (bit _ MR_DMA); [unfold dma_off; keeps; by apply put_same_keeps|]. apply if_keeps. unfold dma_on. keeps.
    all: try by apply put_same_keeps.
    all: apply put_same_keeps; intros s; unfold scsi_schedule_drq_service; by repeat destruct (_ && _) || destruct (negb _).
Qed.

(** The phases in which the initiator sends. *)
Definition sending s : Prop := scsi_ok s /\ (phase (bus s) = scsi_command \/ phase (bus s) = scsi_data_out).
Lemma sending_room s : sending s -> bmax (buf s) <= zlen (data (buf s)) /\ 0 <= bsize (buf s) <= bmax (buf s).
Proof. intros [[_ Hp] [E|E] ]; unfold phase_ok in Hp; rewrite E in Hp; lia. Qed.
Lemma sending_same s s' : same_core s s' -> sending s -> sending s'.
Proof. intros Hs [Hok Hph]. split; [by apply (ok_same s)|]. by rewrite (proj1 (proj1 Hs)). Qed.
Lemma wpc_send b s : sending s -> wp (append_byte b) (fun _ => sending) s.
Proof.
  intros Hs. pose proof (sending_room s Hs). apply wpc_append; [apply Hs|lia..|]. intros x Ex Hlt.
  split; [|apply Hs]. apply appended_ok; [apply Hs|apply Hs|done|done].
Qed.
Lemma primer_gate_ok pc v s : sending s -> wp (primer_gate pc v) (fun _ => sending) s.
Proof.
  intros Hs. unfold primer_gate. apply wpc_bind, wpc_ask, wpc_bind, wpc_ask.
  destruct (_ && _).
  - apply wpc_bind, wpc_put, wpc_bind, wpc_put, wpc_bind, wpc_put, wpc_ret. by apply (sending_same s).
  - destruct (primer_held _); [|by apply wpc_ret]. apply wpc_bind, wpc_put. assert (sending (set_primer_held false s)) by by apply (sending_same s).
    apply wpc_bind, wpc_if; intros _; [|by apply wpc_ret]. apply (wpc_mono _ (fun _ => sending)); [|by apply wpc_send]. intros _ s' Hs'. by apply wpc_ret.
Qed.
Lemma handshake_ok pc v g : keeps_ok (scsi_odr_auto_handshake_byte junk pc v g).
Proof.
  intros s Hs. unfold scsi_odr_auto_handshake_byte. apply wpc_bind, wpc_put, wpc_bind, wpc_ask. unfold id.
  set (s1 := set_odr v s). assert (scsi_ok s1) as H1 by by apply (ok_same s). clearbody s1. clear s Hs.
  unfold in_phases. destruct (bool_decide_reflect (phase (bus s1) ∈ [scsi_data_out; scsi_command])) as [Hin|]; [|done]. cbn [negb].
  assert (sending s1) as Hs. { split; [done|]. apply elem_of_cons in Hin as [?|Hin%list_elem_of_singleton]; auto. } clear H1 Hin.
  destruct (_ && _); [apply wpc_ret, Hs|]. apply wpc_bind. eapply (wpc_mono _ (fun _ => sending)).
  2:{ destruct (_ && _); [by apply primer_gate_ok|by apply wpc_ret]. }
  clear s1 Hs. intros go s Hs. apply wpc_if; [|intros _; apply Hs]. intros _. apply wpc_bind.
  apply (wpc_mono _ (fun _ => sending)); [|by apply wpc_send]. clear s Hs. intros _ s Hs. pose proof (sending_room s Hs). destruct Hs as [Hok Hph]. pose proof Hok as [Hc Hp].
  apply wpc_bind, wpc_ask, wpc_bind, wpc_ask. unfold in_phase. destruct (bool_decide_reflect (phase (bus s) = scsi_command)) as [E|E].
  - apply wpc_bind, wpc_peek; [done|in_buf|]. intros op _. apply wpc_if; [|done]. intros _. unfold phase_ok in Hp. rewrite E in Hp.
    apply run_cmd_ok; [done|apply Hp].
  - apply wpc_if; [|done]. intros _. apply command_complete_ok; [done|lia].
Qed.

Lemma pop_ok s b k : scsi_ok s -> phase (bus s) = scsi_data_in -> bsize (buf s) <> 0 ->
  (forall v s', scsi_ok s' -> phase (bus s') = scsi_data_in -> wp (k v) (fun _ : b => scsi_ok) s') ->
  wp (next_byte ≫= k) (fun _ => scsi_ok) s.
Proof.
  intros [[] Hp] E Hn HQ. unfold phase_ok in Hp. rewrite E in Hp. apply wpc_bind. unfold next_byte.
  apply wpc_bind, wpc_assert; [done|]. intros _. apply wpc_bind, wpc_ask, wpc_bind, wpc_get_data; [lia|].
  apply wpc_bind, wpc_put, wpc_bind, wpc_put, wpc_ret. apply HQ; [|done].
  split; [by split|]. unfold phase_ok. cbn. rewrite E. lia.
Qed.
Lemma read_cdr_ok : keeps_ok read_cdr.
Proof.
  intros s Hs. unfold read_cdr. apply wpc_bind, wpc_ask. unfold id. destruct (loopback _); [done|].
  unfold in_phase. destruct (bool_decide_reflect (phase (bus s) = scsi_data_in)) as [E|E].
  - apply wpc_bind. eapply (wpc_mono _ (fun _ => scsi_ok)); [by intros _ s' Hs'; apply wpc_ask|].
    destruct (Z.eqb_spec (bsize (buf s)) 0); cbn [negb]; [by apply status_keeps|].
    apply pop_ok; [done..|]. intros v s' Hs' _. apply wpc_bind, wpc_put.
    apply wpc_if; [intros _; apply wpc_put|intros _]; by apply (ok_same s').
  - destruct (_ && _); [|done]. apply wpc_bind. eapply (wpc_mono _ (fun _ => scsi_ok)); [by intros _ s' Hs'; apply wpc_ret|]. by apply message_keeps.
Qed.
Lemma read_uint8_ok a : keeps_ok (read_uint8 a).
Proof.
  unfold read_uint8. cbn zeta. destruct (_ || _); [apply read_cdr_ok|].
  do 3 (destruct (_ =? _); [apply ask_keeps|]). destruct (_ =? _); [unfold read_csr; keeps|].
  destruct (_ =? _); [apply ask_keeps|]. unfold read_reset. keeps; by apply put_same_keeps.
Qed.
Lemma write_uint8_ok pc a v : keeps_ok (write_uint8 junk pc a v).
Proof.
  unfold write_uint8. cbn zeta. apply bind_keeps; [apply put_same_keeps; intros s; by destruct (loopback _)|]. intros _.
  destruct (_ =? _); [destruct (bit _ _); [apply handshake_ok|by apply put_same_keeps]|].
  destruct (_ =? _); [apply write_icr_ok|]. destruct (_ =? _); [apply write_mr_ok|].
  destruct (_ =? _); [keeps; by apply put_same_keeps|]. destruct (_ =? _); [by apply put_same_keeps|].
  destruct (_ =? _); [|apply ret_keeps]. keeps; by apply put_same_keeps.
Qed.
Lemma pop_data_in_ok : keeps_ok scsi_pop_data_in_byte.
Proof.
  intros s Hs. unfold scsi_pop_data_in_byte. apply wpc_bind, wpc_ask. unfold id, in_phase.
  destruct (bool_decide_reflect (phase (bus s) = scsi_data_in)) as [E|E]; [|done]. cbn [negb].
  destruct (Z.eqb_spec (bsize (buf s)) 0); [done|]. apply pop_ok; [done..|]. intros v s' Hs' _.
  apply wpc_bind, wpc_put. match goal with |- wp _ _ ?x => assert (scsi_ok x) as H1 end.
  { apply (ok_same s'); [|done]. cbn beta. destruct (bit _ _); [by destruct (Z.ltb _ _)|done]. }
  apply wpc_bind, wpc_ask, wpc_bind. eapply (wpc_mono _ (fun _ => scsi_ok)); [by intros _ x Hx; apply wpc_ret|].
  apply wpc_if; [intros _; by apply status_keeps|done].
Qed.
Lemma push_data_out_ok pc b : keeps_ok (scsi_push_data_out_byte junk pc b).
Proof.
  intros s Hs. unfold scsi_push_data_out_byte. apply wpc_bind, wpc_put, wpc_bind, wpc_put, handshake_ok.
  match goal with |- scsi_ok (set_dma_write_armed _ ?x) => apply (ok_same x); [done|] end.
  unfold in_phase. destruct (bool_decide_reflect (phase (bus s) = scsi_data_out)) as [E|E]; [|done].
  destruct (dma_out_engine_started _); [done|]. cbn [andb negb]. destruct Hs as [[] Hp]. split; [by split|].
  unfold phase_ok in *. cbn. rewrite E in *. lia.
Qed.
End Invariant.

(** ** What the bus promises

    The accesses of the guest, of a DMA engine, of the scheduler and of the user,
    in any order and number. *)
Section Accesses.
Context {I : Type} `{!Medium I} `{!Abi} `{!Build} (junk : Z -> Z).
Implicit Types (s : scsi I).

Inductive access :=
  | ReadByte (addr : Z) | ReadWord (addr : Z) | ReadLong (addr : Z)
  | WriteByte (pc addr value : Z) | WriteWord (addr value : Z) | WriteLong (addr value : Z)
  | DrqEvent                      (* the scheduler runs a queued drq_service *)
  | ResetPin
  | Handshaken (pc byte : Z) | PopByte | PushByte (pc byte : Z) | EndOfProcess
  | Loopback (enable : bool)
  | Eject (id : Z)
  | Attach (id : Z) (vendor product : list Z) (rev : option (list Z)) (img : I) (type : scsi_device_type) (bs : Z) (ro : bool).

(** What an access returns, 0 where there is nothing. *)
Definition perform (a : access) : chip I Z :=
  match a with
  | ReadByte addr => read_uint8 addr
  | ReadWord addr => read_uint16 addr
  | ReadLong addr => read_uint32 addr
  | WriteByte pc addr v => write_uint8 junk pc addr v;; mret 0
  | WriteWord addr v => write_uint16 addr v;; mret 0
  | WriteLong addr v => write_uint32 addr v;; mret 0
  | DrqEvent => put (fun s => if drq_event (ctl s) then scsi_drq_service (set_drq_event false s) else s);; mret 0
  | ResetPin => put scsi_reset_pin;; mret 0
  | Handshaken pc b => scsi_hsken_data_out_byte junk pc b;; mret 0
  | PopByte => b ← scsi_pop_data_in_byte; mret (default 0 b)
  | PushByte pc b => scsi_push_data_out_byte junk pc b;; mret 0
  | EndOfProcess => put scsi_signal_eop;; mret 0
  | Loopback b => put (scsi_set_loopback b);; mret 0
  | Eject id => r ← ask (fun s => (scsi_eject_device id s).1); put (fun s => (scsi_eject_device id s).2);; mret r
  | Attach id v p r i t bs ro => put (scsi_add_device id v p r (Some i) t bs ro);; mret 0
  end.
Fixpoint run (l : list access) : chip I (list Z) :=
  match l with [] => mret [] | a :: l => v ← perform a; vs ← run l; mret (v :: vs) end.

Definition access_ok `{!MediumLaws I} (a : access) : Prop :=
  match a with
  | Attach id _ _ _ i _ bs _ => 0 <= id < 7 /\ medium_ok i /\ (bs = 512 \/ bs = 2048)
  | _ => True
  end.

Context `{!MediumLaws I} (Hasserts : asserts = true) (Hsize : 32 <= size_bits <= 64).

(** Updates of one slot that keep it sound, and keep the target of a pending
    command usable. *)
Lemma ok_on_slot s i f : scsi_ok s -> 0 <= i < 8 -> (forall d, device_ok d -> device_ok (f d)) ->
  (forall d, is_Some (dev_image d) \/ unit_attention d = true -> is_Some (dev_image (f d)) \/ unit_attention (f d) = true) ->
  scsi_ok (on_device i f s).
Proof.
  intros [Hc Hp] Hi Hf Hg. split; [by apply core_on_device|]. unfold phase_ok in *.
  change (bus (on_device i f s)) with (bus s). change (buf (on_device i f s)) with (buf s).
  destruct (phase (bus s)); try done. destruct Hp as (? & ? & Hd). split_and!; [lia..|].
  unfold the_device in *. change (target_id (on_device i f s)) with (target_id s). pose proof (target_range s).
  destruct (decide (i = target_id s)) as [->|Hne].
  - rewrite device_at_same; [auto|lia|]. rewrite (co_eight _ Hc). lia.
  - by rewrite device_at_other by lia.
Qed.
Lemma eject_ok id s : scsi_ok s -> scsi_ok (scsi_eject_device id s).2.
Proof.
  intros Hs. unfold scsi_eject_device. destruct (_ || _) eqn:E; [done|]. rewrite orb_false_iff, !Z.ltb_ge in E.
  destruct (_ && _); [done|]. cbn [snd]. unfold scsi_set_sense. apply ok_on_slot; [apply ok_on_slot| | |]; try done; try lia.
  - intros d _. by right.
  - pose proof (Z.land_nonneg id 7). change 7 with (Z.ones 3). rewrite Z.land_ones by lia. apply Z.mod_pos_bound. done.
Qed.
Lemma attach_ok id v p r i t bs ro s : scsi_ok s -> 0 <= id < 7 -> medium_ok i -> bs = 512 \/ bs = 2048 ->
  scsi_ok (scsi_add_device id v p r (Some i) t bs ro s).
Proof.
  intros Hs Hid Hi Hbs. unfold scsi_add_device. apply ok_on_slot; [done|lia| |].
  - intros d _. unfold device_ok. by destruct (_ && _).
  - intros d _. left. by destruct (_ && _); exists i.
Qed.
Lemma drq_service_same s : same_core s (scsi_drq_service s).
Proof.
  unfold scsi_drq_service. destruct (_ || _); [done|]. destruct (negb _); [done|].
  etrans; [|apply update_drq_same]. etrans; [|done]. by etrans; [|apply update_drq_same].
Qed.
Lemma perform_ok a : access_ok a -> keeps_ok (perform a).
Proof.
  intros Ha. destruct a; cbn [perform].
  all: lazymatch goal with
    | |- keeps_ok (ask _ ≫= _) => idtac
    | |- keeps_ok (_ ≫= _) => apply bind_keeps; [|intros; by apply ret_keeps]
    | _ => idtac end.
  - by apply read_uint8_ok.
  - by apply ret_keeps.
  - by apply ret_keeps.
  - by apply write_uint8_ok.
  - by apply ret_keeps.
  - by apply ret_keeps.
  - apply put_same_keeps. intros s. destruct (drq_event _); [|done]. by etrans; [|apply drq_service_same].
  - apply put_keeps. intros s [Hc _]. unfold scsi_reset_pin. pose proof (reset_ok s Hc) as Hr.
    revert Hr. generalize (scsi_reset s). clear s Hc. intros s Hr. eapply ok_same; [apply update_irq_same|]. by apply (ok_same s).
  - by apply handshake_ok.
  - by apply pop_data_in_ok.
  - by apply push_data_out_ok.
  - apply put_same_keeps. intros s. unfold scsi_signal_eop. by etrans; [|apply update_irq_same].
  - by apply put_same_keeps.
  - apply bind_keeps; [apply ask_keeps|]. intros r. apply bind_keeps; [|intros; by apply ret_keeps]. apply put_keeps. intros s. apply eject_ok.
  - apply put_keeps. intros s Hs. destruct Ha as (? & ? & ?). by apply attach_ok.
Qed.
Lemma run_ok l : Forall access_ok l -> keeps_ok (run l).
Proof.
  induction 1 as [|a l Ha _ IH]; [by apply ret_keeps|]. cbn [run]. apply bind_keeps; [by apply perform_ok|]. intros v.
  apply bind_keeps; [done|]. intros vs. by apply ret_keeps.
Qed.
Lemma init_ok w : scsi_ok (scsi_init junk w).
Proof.
  apply calm_ok; [|done]. split; [|done|].
  - cbn [scsi_init buf data]. rewrite zlen_new_bytes, Z2Nat.id by (unfold BUF_LIMIT, BLOCK_SIZE; lia). lia.
  - cbn [scsi_init devices]. apply Forall_replicate. done.
Qed.

(** C5: the controller keeps to its memory.  In a build with asserts, whatever
    the guest reads and writes, whatever a DMA engine transfers, whenever the
    queued event runs, the chip is reset, a medium is ejected or a drive is
    attached: the run ends in a sound state or at a failed assertion, and never
    with an access outside the staging buffer, of an image that is gone, or a
    division by a block size of zero. *)
Theorem scsi_safe w l : Forall access_ok l ->
  match run l (scsi_init junk w) with
  | Ok _ s => scsi_ok s
  | Stop why => why = Assertion
  end.
Proof. intros Hl. apply (run_ok l Hl), init_ok. Qed.
End Accesses.
