(* ===== verification/ScsiDriver.v ===== *)
(** * Talking to a SCSI disk

    What a hard disk promises to its host ([drive], [serve]), and the accesses by
    which a host has a command executed: arbitration, selection and a handshake
    per byte through the registers of the controller, as drivers of the time do
    it by programmed I/O ([transact]).  ScsiDriverProofs shows that the second
    implements the first. *)
From S2P Require Import Prelude Stdio Image Scsi.

(** ** The host *)
Section Driver.
Context {I : Type} `{!Medium I} `{!Abi} `{!Build} (junk : Z -> Z) (pc : Z).

Definition wr (r v : Z) : chip I unit := write_uint8 junk pc (16 * r) v.
Definition rd (r : Z) : chip I Z := read_uint8 (16 * r).

(** The host has ID 7: it wins the bus and selects [t]. *)
Definition select (t : Z) : chip I unit :=
  wr 0 0x80;; wr 2 0x01;;
  wr 0 (Z.lor 0x80 (Z.shiftl 1 t));;
  wr 1 (ICR_SEL + ICR_BSY + ICR_DB);;
  wr 2 0;;
  wr 1 (ICR_SEL + ICR_DB);;
  wr 1 0.
(** One byte to the target, one byte from it. *)
Definition send_byte (b : Z) : chip I unit := wr 0 b;; wr 1 (ICR_ACK + ICR_DB);; wr 1 0.
Fixpoint send_bytes (l : list Z) : chip I unit :=
  match l with [] => mret tt | b :: l => send_byte b;; send_bytes l end.
Definition receive_byte : chip I Z := b ← rd 0; wr 1 ICR_ACK;; wr 1 0;; mret b.
Fixpoint receive_bytes (n : nat) : chip I (list Z) :=
  match n with O => mret [] | S n => b ← receive_byte; l ← receive_bytes n; mret (b :: l) end.
(** The phase the target asks for, by C/D and I/O. *)
Definition asked_phase : chip I Z := c ← rd 4; mret (Z.land c (CSR_MSG + CSR_CD + CSR_IO)).

(** A whole command: [cdb] to the target [t]; [out] if the target takes data,
    [n] bytes if it has data; then the status and the message byte. *)
Definition transact (t : Z) (cdb out : list Z) (n : nat) : chip I (list Z * Z * Z) :=
  select t;;
  send_bytes cdb;;
  p ← asked_phase;
  l ← (if p =? CSR_IO then receive_bytes n
       else if p =? 0 then send_bytes out;; mret []
       else mret []);
  st ← receive_byte;
  msg ← receive_byte;
  mret (l, st, msg).
End Driver.

(** ** The disk *)
Record drive := mk_drive { contents : list Z; drive_sense : sense_data; attention : bool }.
Inductive request :=
  | TestUnitReady | RequestSense | ReadCapacity
  | Read6 (lba n : Z) | Read10 (lba n : Z)
  | Write6 (lba : Z) (d : list Z) | Write10 (lba : Z) (d : list Z).
#[global] Instance request_eq : EqDecision request.
Proof. solve_decision. Defined.

Definition no_sense : sense_data := mk_sense 0 0 0.
Definition set_contents (l : list Z) (d : drive) : drive := mk_drive l (drive_sense d) (attention d).
Definition failed (k a : Z) (d : drive) : (list Z * Z) * drive :=
  (([], STATUS_CHECK_CONDITION), mk_drive (contents d) (mk_sense k a 0) false).
(** Extended sense data. *)
Definition sense_bytes (s : sense_data) : list Z :=
  [0x70; 0; key s; 0; 0; 0; 0; 0x0A; 0; 0; 0; 0; asc s; ascq s; 0; 0; 0; 0].
Definition serve_read (lba n : Z) (d : drive) : (list Z * Z) * drive :=
  if (lba + n) * BLOCK_SIZE <=? zlen (contents d)
  then ((ztake (n * BLOCK_SIZE) (zdrop (lba * BLOCK_SIZE) (contents d)), STATUS_GOOD), d)
  else failed SENSE_ILLEGAL_REQUEST ASC_LBA_OUT_OF_RANGE d.
Definition serve_write (lba : Z) (l : list Z) (d : drive) : (list Z * Z) * drive :=
  (([], STATUS_GOOD), set_contents (write_at (contents d) (lba * BLOCK_SIZE) l) d).
(** The data the host gets and the status. *)
Definition serve (r : request) (d : drive) : (list Z * Z) * drive :=
  match r with
  | RequestSense => ((sense_bytes (drive_sense d), STATUS_GOOD), mk_drive (contents d) no_sense false)
  | _ =>
      if attention d then failed SENSE_UNIT_ATTENTION ASC_NOT_READY_TO_READY d
      else
        match r with
        | Read6 lba n | Read10 lba n => serve_read lba n d
        | Write6 lba l | Write10 lba l => serve_write lba l d
        | ReadCapacity => ((be32 (zlen (contents d) / BLOCK_SIZE - 1) ++ be32 BLOCK_SIZE, STATUS_GOOD), d)
        | _ => (([], STATUS_GOOD), d)
        end
  end.

(** How the host asks for it. *)
Definition cdb6 (op lba n : Z) : list Z := [op; Z.shiftr lba 16; u8 (Z.shiftr lba 8); u8 lba; u8 n; 0].
Definition cdb10 (op lba n : Z) : list Z := [op; 0] ++ be32 lba ++ [0; u8 (Z.shiftr n 8); u8 n; 0].
Definition blocks_of (l : list Z) : Z := zlen l / BLOCK_SIZE.
Definition cdb (r : request) : list Z :=
  match r with
  | TestUnitReady => [CMD_TEST_UNIT_READY; 0; 0; 0; 0; 0]
  | RequestSense => [CMD_REQUEST_SENSE; 0; 0; 0; 18; 0]
  | ReadCapacity => [CMD_READ_CAPACITY; 0; 0; 0; 0; 0; 0; 0; 0; 0]
  | Read6 lba n => cdb6 CMD_READ lba n
  | Read10 lba n => cdb10 CMD_READ_10 lba n
  | Write6 lba l => cdb6 CMD_WRITE lba (blocks_of l)
  | Write10 lba l => cdb10 CMD_WRITE_10 lba (blocks_of l)
  end.
Definition data_out (r : request) : list Z := match r with Write6 _ l | Write10 _ l => l | _ => [] end.
Definition data_in_length (r : request) : Z :=
  match r with RequestSense => 18 | ReadCapacity => 8 | Read6 _ n | Read10 _ n => n * BLOCK_SIZE | _ => 0 end.

(** Requests the encoding has room for.  A read may lie outside the disk; a
    write must not (the controller asserts it), and block addresses beyond what
    size_t can count in bytes are left out. *)
Definition byte_list (l : list Z) : Prop := Forall (fun b => 0 <= b < 256) l.
Definition request_ok `{!Abi} (size : Z) (r : request) : Prop :=
  match r with
  | Read6 lba n => 0 <= lba < 2 ^ 21 /\ 0 < n <= 256
  | Read10 lba n => 0 <= lba < 2 ^ 31 /\ 0 < n < 2 ^ 16 /\ (lba + n) * BLOCK_SIZE < 2 ^ size_bits
  | Write6 lba l => 0 <= lba < 2 ^ 21 /\ 0 < blocks_of l <= 256 /\ zlen l mod BLOCK_SIZE = 0 /\ byte_list l /\
      lba * BLOCK_SIZE + zlen l <= size
  | Write10 lba l => 0 <= lba < 2 ^ 31 /\ 0 < blocks_of l < 2 ^ 16 /\ zlen l mod BLOCK_SIZE = 0 /\ byte_list l /\
      lba * BLOCK_SIZE + zlen l <= size
  | _ => True
  end.
Fixpoint serve_all (rs : list request) (d : drive) : list (list Z * Z) * drive :=
  match rs with
  | [] => ([], d)
  | r :: rs => let '(a, d) := serve r d in let '(l, d) := serve_all rs d in (a :: l, d)
  end.

Section Requests.
Context {I : Type} `{!Medium I} `{!Abi} `{!Build} (junk : Z -> Z) (pc t : Z).
Definition request_on_bus (r : request) : chip I (list Z * Z) :=
  '(l, st, msg) ← transact junk pc t (cdb r) (data_out r) (Z.to_nat (data_in_length r));
  mret (l, st).
Fixpoint requests_on_bus (rs : list request) : chip I (list (list Z * Z)) :=
  match rs with [] => mret [] | r :: rs => a ← request_on_bus r; l ← requests_on_bus rs; mret (a :: l) end.
End Requests.
