(* ===== verification/ScsiDriverProofs.v ===== *)
(** * The controller executes the commands of a disk

    Every access of [transact] on a quiet bus, then whole commands, and that any
    sequence of requests has the answers of [serve]. *)
From S2P Require Import Prelude Stdio Image Scsi ScsiProofs ScsiDriver.

(** ** Running sequences *)
Section Rewriting.
Context {I : Type} `{!Build}.
Implicit Types (s : scsi I).
Lemma ok_then {A B} (m : chip I A) (k : A -> chip I B) s a s' : m s = Ok a s' -> (m ≫= k) s = k a s'.
Proof. unfold mbind, chip_bind. by intros ->. Qed.
Lemma ask_then {A B} (f : scsi I -> A) (k : A -> chip I B) s : (ask f ≫= k) s = k (f s) s.
Proof. done. Qed.
Lemma put_then {B} f (k : unit -> chip I B) s : (put f ≫= k) s = k tt (f s).
Proof. done. Qed.
Lemma ret_then {A B} (a : A) (k : A -> chip I B) s : (mret a ≫= k) s = k a s.
Proof. done. Qed.
Lemma assert_then {B} b (k : unit -> chip I B) s : b s = true -> (assert_ b ≫= k) s = k tt s.
Proof. intros E. unfold mbind, chip_bind, assert_. by rewrite E, andb_false_r. Qed.
Lemma assert_done b s : b s = true -> assert_ b s = Ok tt s.
Proof. intros E. unfold assert_. by rewrite E, andb_false_r. Qed.
Lemma get_then {B} i (k : Z -> chip I B) s : 0 <= i < zlen (data (buf s)) ->
  (get_data i ≫= k) s = k (u8 (nth (Z.to_nat i) (data (buf s)) 0)) s.
Proof. intros Hi. apply ok_then. unfold get_data. zprune. done. Qed.
Lemma put_data_done i l s : 0 <= i -> i + zlen l <= zlen (data (buf s)) ->
  put_data i l s = Ok tt (set_data (write_at (data (buf s)) i l) s).
Proof. intros Hi Hl. unfold put_data. zprune. done. Qed.
Lemma put_data_then {B} i l (k : unit -> chip I B) s : 0 <= i -> i + zlen l <= zlen (data (buf s)) ->
  (put_data i l ≫= k) s = k tt (set_data (write_at (data (buf s)) i l) s).
Proof. intros Hi Hl. by apply ok_then, put_data_done. Qed.
Lemma bind_unit (m : chip I unit) s : (m ≫= fun _ => mret tt) s = m s.
Proof. unfold mbind, chip_bind. by destruct (m s) as [[] |]. Qed.
Lemma then_assoc {A B C} (m : chip I A) (k : A -> chip I B) (h : B -> chip I C) s :
  ((m ≫= k) ≫= h) s = (m ≫= fun a => k a ≫= h) s.
Proof. unfold mbind, chip_bind. by destruct (m s). Qed.
Lemma then_done (m : chip I unit) (k : unit -> chip I unit) s : (forall s, k tt s = Ok tt s) -> (m ≫= k) s = m s.
Proof. intros Hk. unfold mbind, chip_bind. by destruct (m s) as [[] |]. Qed.
End Rewriting.

Ltac eval_tests :=
  repeat match goal with
  | |- context [Z.eqb ?a ?b] =>
      let v := eval vm_compute in (Z.eqb a b) in
      lazymatch v with true => change (Z.eqb a b) with true | false => change (Z.eqb a b) with false end
  end; cbn [if_ andb orb negb].
(** A closed list of bytes. *)
Ltac closed_bytes := unfold byte_list; cbn; refine (bool_decide_eq_true_1 _ _); vm_compute; reflexivity.
(** Goes through the updates a sequence begins with. *)
Ltac run := repeat first [rewrite put_then | rewrite ask_then | rewrite ret_then | rewrite then_assoc].
(** Evaluates the tests of bits of known registers. *)
Ltac eval_bits :=
  repeat match goal with
  | |- context [bit ?a ?b] =>
      let v := eval vm_compute in (bit a b) in
      lazymatch v with true => change (bit a b) with true | false => change (bit a b) with false end
  end; cbn [if_ andb orb negb].

Section Driver.
Context {I : Type} `{!Medium I} `{!MediumLaws I} `{!Abi} `{!Build} (junk : Z -> Z) (pc : Z) (Hsize : 32 <= size_bits <= 64).
Implicit Types (s : scsi I).

(** No DMA, no test card, no request on the interrupt lines. *)
Record quiet s : Prop := {
  qu_loop : loopback (ctl s) = false;
  qu_dma : bit (mr (reg s)) MR_DMA = false;
  qu_irq : irq_active (ctl s) = false;
  qu_drq : drq_active (ctl s) = false;
  qu_bsr : bit (bsr (reg s)) BSR_DR = false;
}.
Lemma quiet_irq s : quiet s -> scsi_update_irq s = s.
Proof. intros []. unfold scsi_update_irq. by rewrite qu_dma0, qu_irq0. Qed.
Lemma quiet_drq s : quiet s -> scsi_update_drq s = s.
Proof. intros []. unfold scsi_update_drq. by rewrite qu_bsr0, qu_drq0. Qed.

(** ** Single accesses *)
Lemma wr_odr v s : quiet s -> wr junk pc 0 v s = Ok tt (set_odr v s).
Proof. intros []. unfold wr, write_uint8. rewrite put_then, qu_loop0. done. Qed.
Lemma wr_icr v s : quiet s -> wr junk pc 1 v s = write_icr junk v s.
Proof. intros []. unfold wr, write_uint8. rewrite put_then, qu_loop0. done. Qed.
Lemma wr_mr v s : quiet s -> wr junk pc 2 v s = write_mr v s.
Proof. intros []. unfold wr, write_uint8. rewrite put_then, qu_loop0. done. Qed.

(** Writes of ICR that change ACK alone, and the two of a selection. *)
Lemma icr_ack_on v s : quiet s -> icr (reg s) = 0 -> v = ICR_ACK + ICR_DB \/ v = ICR_ACK ->
  wr junk pc 1 v s = ack_asserted (set_icr v s).
Proof.
  intros Hq E Hv. rewrite wr_icr by done. destruct Hq. unfold write_icr. rewrite ask_then, ask_then, put_then, E, qu_loop0.
  destruct Hv as [-> | ->]; eval_bits; rewrite !ret_then; by apply then_done.
Qed.
Lemma icr_ack_off s : quiet s -> icr (reg s) = ICR_ACK + ICR_DB \/ icr (reg s) = ICR_ACK ->
  wr junk pc 1 0 s = ack_cleared junk (set_icr 0 s).
Proof.
  intros Hq E. rewrite wr_icr by done. destruct Hq. unfold write_icr. rewrite ask_then, ask_then, put_then, qu_loop0.
  destruct E as [-> | ->]; eval_bits; rewrite !ret_then; by apply then_done.
Qed.
Lemma icr_select s : quiet s -> icr (reg s) = ICR_AIP \/ icr (reg s) = 0 ->
  wr junk pc 1 (ICR_SEL + ICR_BSY + ICR_DB) s = phase_selection (set_icr (ICR_SEL + ICR_BSY + ICR_DB) s).
Proof.
  intros Hq E. rewrite wr_icr by done. destruct Hq. unfold write_icr. rewrite ask_then, ask_then, put_then, qu_loop0.
  destruct E as [-> | ->]; eval_bits; rewrite !ret_then; by apply then_done.
Qed.
Lemma icr_release_bsy s : quiet s -> icr (reg s) = ICR_SEL + ICR_BSY + ICR_DB ->
  wr junk pc 1 (ICR_SEL + ICR_DB) s = end_selection (set_icr (ICR_SEL + ICR_DB) s).
Proof.
  intros Hq E. rewrite wr_icr by done. destruct Hq. unfold write_icr. rewrite ask_then, ask_then, put_then, qu_loop0, E.
  eval_bits. by apply then_done.
Qed.
Lemma icr_release s : quiet s -> icr (reg s) = ICR_SEL + ICR_DB -> wr junk pc 1 0 s = Ok tt (set_icr 0 s).
Proof.
  intros Hq E. rewrite wr_icr by done. destruct Hq. unfold write_icr. rewrite ask_then, ask_then, put_then, qu_loop0, E.
  by eval_bits.
Qed.
Lemma mr_arbitrate s : quiet s -> mr (reg s) = 0 -> phase (bus s) = scsi_bus_free -> exists s',
  wr junk pc 2 0x01 s = Ok tt s' /\ quiet s' /\ phase (bus s') = scsi_arbitration /\ mr (reg s') = 1 /\
  initiator (bus s') = platform_ntz32 (odr (reg s)) /\ icr (reg s') = clear (Z.lor (icr (reg s)) ICR_AIP) ICR_LA /\
  buf s' = buf s /\ devices s' = devices s.
Proof.
  intros Hq E Hp. rewrite wr_mr by done. destruct Hq. unfold write_mr. rewrite ask_then, ask_then, put_then, qu_loop0, E.
  eval_bits. unfold start_arbitration, phase_arbitration. rewrite !then_assoc, assert_then by (cbn; unfold in_phase; by apply bool_decide_eq_true).
  run. eexists. split; [reflexivity|]. destruct s as [[] [] ? ? ? ? []]. cbn in *. subst. split_and!; done.
Qed.
Lemma mr_clear s : quiet s -> mr (reg s) = 1 -> wr junk pc 2 0 s = Ok tt (set_mr 0 s).
Proof.
  intros Hq E. rewrite wr_mr by done. destruct Hq. unfold write_mr. rewrite ask_then, ask_then, put_then, qu_loop0, E.
  by eval_bits.
Qed.

(** The lines that name the phase, and a bus that waits for the host. *)
Definition lines (p : scsi_phase) : Z :=
  match p with
  | scsi_command => CSR_CD
  | scsi_data_in => CSR_IO
  | scsi_status => CSR_CD + CSR_IO
  | scsi_message_in => CSR_MSG + CSR_CD + CSR_IO
  | _ => 0
  end.
Record shows s (p : scsi_phase) (t : Z) (b : buffer) : Prop := {
  sh_quiet : quiet s;
  sh_phase : phase (bus s) = p;
  sh_target : target (bus s) = t;
  sh_buf : buf s = b;
  sh_icr : icr (reg s) = 0;
  sh_mr : mr (reg s) = 0;
  sh_lines : Z.land (csr (reg s)) (CSR_MSG + CSR_CD + CSR_IO) = lines p;
}.
(** Nobody uses the bus. *)
Record idle s : Prop := {
  id_quiet : quiet s;
  id_phase : phase (bus s) = scsi_bus_free;
  id_icr : icr (reg s) = 0;
  id_mr : mr (reg s) = 0;
  id_cap : BUF_LIMIT <= zlen (data (buf s));
}.

Record selected (t : Z) (i m : Z) (b : buffer) s : Prop := {
  ts_quiet : quiet s;
  ts_phase : phase (bus s) = scsi_command;
  ts_target : target (bus s) = t;
  ts_icr : icr (reg s) = i;
  ts_mr : mr (reg s) = m;
  ts_lines : Z.land (csr (reg s)) (CSR_MSG + CSR_CD + CSR_IO) = CSR_CD;
  ts_buf : buf s = mk_buffer (data b) MAX_CMD_SIZE 0 (bpos b);
}.
Lemma end_selection_done t s : quiet s -> phase (bus s) = scsi_selection -> initiator (bus s) = 7 ->
  odr (reg s) = Z.lor 0x80 (Z.shiftl 1 t) -> 0 <= t < 7 -> is_Some (dev_image (device_at t s)) -> exists s',
  end_selection s = Ok tt s' /\ selected t (icr (reg s)) (mr (reg s)) (buf s) s' /\ devices s' = devices s.
Proof.
  intros Hq Hp Hi Ho Ht [im Him].
  assert (platform_ntz32 (Z.land (Z.lor 0x80 (Z.shiftl 1 t)) (Z.lnot (Z.shiftl 1 7))) = t /\ Z.land t 7 = t) as [Et Et7].
  { small_z t; by vm_compute. }
  unfold end_selection. rewrite assert_then by by apply bool_decide_eq_true. run. rewrite Hi. cbn [Z.leb Z.compare Pos.compare Pos.compare_cont].
  rewrite Hi, Ho, Et. set (s1 := set_target t s). change (the_device s1) with (device_at (Z.land t 7) s). rewrite Et7, Him.
  unfold phase_command. rewrite assert_then by by apply bool_decide_eq_true. run. unfold put. rewrite quiet_irq by by destruct Hq.
  eexists. split; [reflexivity|]. split; [|done]. split; try done. by destruct Hq.
Qed.
Lemma select_ok t s : idle s -> 0 <= t < 7 -> is_Some (dev_image (device_at t s)) -> exists s',
  select junk pc t s = Ok tt s' /\ shows s' scsi_command t (mk_buffer (data (buf s)) MAX_CMD_SIZE 0 (bpos (buf s))) /\ devices s' = devices s.
Proof.
  intros [Hq Hp Hi Hm Hcap] Ht [im Him]. unfold select.
  rewrite (ok_then _ _ _ _ _ (wr_odr _ s Hq)).
  destruct (mr_arbitrate (set_odr 0x80 s)) as (s1 & E1 & Q1 & P1 & M1 & I1 & C1 & B1 & D1); [by destruct Hq|done..|].
  rewrite (ok_then _ _ _ _ _ E1), (ok_then _ _ _ _ _ (wr_odr _ s1 Q1)). cbn [reg set_odr on_reg odr icr] in I1, C1. rewrite Hi in C1.
  set (s2 := set_odr _ s1). assert (quiet s2) as Q2 by (by destruct Q1).
  assert (E2 : wr junk pc 1 (ICR_SEL + ICR_BSY + ICR_DB) s2 =
    Ok tt (set_phase scsi_selection (set_icr (ICR_SEL + ICR_BSY + ICR_DB) s2))).
  { rewrite icr_select by (done || by left). unfold phase_selection. rewrite assert_then; [done|].
    apply bool_decide_eq_true. change (phase (bus s1) ∈ [scsi_arbitration; scsi_bus_free]). rewrite P1. by left. }
  rewrite (ok_then _ _ _ _ _ E2). set (s3 := set_phase _ _).
  assert (quiet s3) as Q3 by (by destruct Q2). rewrite (ok_then _ _ _ _ _ (mr_clear s3 Q3 M1)). set (s4 := set_mr 0 s3).
  assert (quiet s4) as Q4 by (by destruct Q3).
  destruct (end_selection_done t (set_icr (ICR_SEL + ICR_DB) s4)) as (s5 & E5 & [] & D5); try done.
  { by destruct Q4. }
  { change (device_at t (set_icr (ICR_SEL + ICR_DB) s4)) with (device_at t s1). unfold device_at. rewrite D1. by exists im. }
  rewrite (ok_then _ _ _ _ _ (eq_trans (icr_release_bsy s4 Q4 eq_refl) E5)).
  rewrite (icr_release s5) by done. eexists. split; [reflexivity|]. cbn in *. rewrite B1 in *.
  split; [|by rewrite D5]. by split; try by destruct ts_quiet0.
Qed.

(** ** Bytes to the target *)
Lemma lines_clear c : Z.land (clear c CSR_REQ) (CSR_MSG + CSR_CD + CSR_IO) = Z.land c (CSR_MSG + CSR_CD + CSR_IO).
Proof. unfold clear. by rewrite <-Z.land_assoc. Qed.
Lemma lines_raise c : Z.land (Z.lor c CSR_REQ) (CSR_MSG + CSR_CD + CSR_IO) = Z.land c (CSR_MSG + CSR_CD + CSR_IO).
Proof. rewrite Z.land_lor_distr_l. change (Z.land CSR_REQ _) with 0. apply Z.lor_0_r. Qed.
Definition takes (p : scsi_phase) : Prop := p = scsi_command \/ p = scsi_data_out.

Lemma zlen_one (x : Z) : zlen [x] = 1.
Proof. done. Qed.
Lemma send_step x s p t b : shows s p t b -> takes p -> 0 <= bsize b < bmax b -> bmax b <= zlen (data b) -> exists s',
  send_byte junk pc x s = ack_cleared junk s' /\
  shows s' p t (mk_buffer (write_at (data b) (bsize b) [x]) (bmax b) (bsize b + 1) (bpos b)) /\
  devices s' = devices s /\ cmd s' = cmd s.
Proof.
  intros [Hq Hp Ht Hb Hi Hm Hl] Hx Hs Hc. unfold send_byte.
  rewrite (ok_then _ _ _ _ _ (wr_odr x s Hq)). set (s1 := set_odr x s). assert (quiet s1) as Q1 by (by destruct Hq).
  set (s2 := set_icr (ICR_ACK + ICR_DB) s1). assert (buf s2 = b) as B2 by exact Hb.
  assert (append_byte x s2 = Ok tt (set_bsize (bsize b + 1) (set_data (write_at (data b) (bsize b) [x]) s2))) as Ea.
  { unfold append_byte. rewrite assert_then by (rewrite B2; apply Z.ltb_lt; lia). run.
    rewrite put_data_then; rewrite B2, ?zlen_one by done; [done|lia..]. }
  set (s3 := set_bsize _ _) in Ea. set (s4 := set_csr (clear (csr (reg s3)) CSR_REQ) s3).
  assert (wr junk pc 1 (ICR_ACK + ICR_DB) s1 = Ok tt s4) as E4.
  { rewrite icr_ack_on by (done || by left). unfold ack_asserted. run. change (phase (bus (set_icr (ICR_ACK + ICR_DB) s1))) with (phase (bus s)).
    rewrite Hp. destruct Hx as [-> | ->]; run; by rewrite (ok_then _ _ _ _ _ Ea). }
  rewrite (ok_then _ _ _ _ _ E4), icr_ack_off by (by left || by destruct Hq). eexists. split; [reflexivity|].
  split; [|done]. split; try done; [by destruct Hq|cbn; by rewrite Hb|]. rewrite <-Hl. apply lines_clear.
Qed.

(** What ends a transfer to the target: enough bytes, and then the command. *)
Definition wanted (p : scsi_phase) (b : buffer) : Z :=
  match p with scsi_command => cmd_size (u8 (nth 0 (data b) 0)) | _ => bmax b end.
Definition finish (p : scsi_phase) : chip I unit := match p with scsi_command => run_cmd junk | _ => command_complete end.
Lemma send_last s p t b : shows s p t b -> takes p -> bsize b = wanted p b -> 0 < zlen (data b) -> ack_cleared junk s = finish p s.
Proof.
  intros [Hq Hp Ht Hb Hi Hm Hl] Hx Hs Hc. unfold ack_cleared. run. rewrite Hp. destruct Hx as [-> | ->]; unfold wanted in Hs.
  - rewrite get_then by (rewrite Hb; lia). rewrite Hb, Hs. change (Z.to_nat 0) with 0%nat. rewrite assert_then by (apply Z.leb_refl). by rewrite Z.eqb_refl.
  - by rewrite Hb, Hs, Z.eqb_refl.
Qed.
Lemma send_more s p t b : shows s p t b -> takes p -> bsize b < wanted p b -> 0 < zlen (data b) -> exists s',
  ack_cleared junk s = Ok tt s' /\ shows s' p t b /\ devices s' = devices s /\ cmd s' = cmd s.
Proof.
  intros Hsh Hx Hs Hc. exists (set_csr (Z.lor (csr (reg s)) CSR_REQ) s). split; [|split; [|done] ].
  - destruct Hsh as [Hq Hp Ht Hb Hi Hm Hl]. unfold ack_cleared. run. rewrite Hp. destruct Hx as [-> | ->]; unfold wanted in Hs.
    + rewrite get_then by (rewrite Hb; lia). rewrite Hb. change (Z.to_nat 0) with 0%nat. rewrite assert_then by (apply Z.leb_le; lia). zprune. done.
    + rewrite Hb. zprune. done.
  - destruct Hsh as [Hq Hp Ht Hb Hi Hm Hl]. split; try done; [by destruct Hq|]. rewrite <-Hl. apply lines_raise.
Qed.
Lemma nth_write_at f d i : (i < length d)%nat -> zlen d <= zlen f -> nth i (write_at f 0 d) 0 = nth i d 0.
Proof.
  intros Hi Hd. unfold write_at. destruct (Z.eqb_spec (zlen d) 0); [unfold zlen in *; lia|].
  unfold ztake. rewrite take_0. cbn [app]. by rewrite app_nth1.
Qed.
Lemma send_list l : forall pre s p t f m bp, l <> [] -> takes p ->
  shows s p t (mk_buffer (write_at f 0 pre) m (zlen pre) bp) ->
  zlen pre + zlen l = wanted p (mk_buffer (pre ++ l) m 0 0) -> zlen pre + zlen l <= m -> m <= zlen f -> exists s',
  send_bytes junk pc l s = finish p s' /\ shows s' p t (mk_buffer (write_at f 0 (pre ++ l)) m (zlen (pre ++ l)) bp) /\
  devices s' = devices s /\ cmd s' = cmd s.
Proof.
  induction l as [|x l IH]; intros pre s p t f m bp Hl Hx Hsh Hw Hm Hf; [done|]. clear Hl. cbn [send_bytes].
  rewrite zlen_cons in *. pose proof (zlen_nonneg l). pose proof (zlen_nonneg pre).
  assert (zlen (write_at f 0 pre) = zlen f) as Ef by (apply zlen_write_in; lia).
  destruct (send_step x s p t _ Hsh Hx) as (s1 & E1 & Hs1 & D1 & C1); [cbn; lia|cbn; lia|]. cbn [data bmax bsize bpos] in Hs1.
  pose proof (write_at_adjacent f 0 pre [x] ltac:(lia)) as Ea. rewrite Z.add_0_l in Ea. rewrite Ea in Hs1.
  assert (zlen (write_at f 0 (pre ++ [x])) = zlen f) as Ef1.
  { apply zlen_write_in; [lia|]. rewrite zlen_app, zlen_one. lia. }
  assert (wanted p (mk_buffer (write_at f 0 (pre ++ [x])) m (zlen pre + 1) bp) = zlen pre + (1 + zlen l)) as Ew.
  { rewrite Hw. destruct Hx as [-> | ->]; [|done]. cbn [wanted data]. rewrite nth_write_at.
    - f_equal. f_equal. by destruct pre.
    - rewrite length_app. cbn. lia.
    - rewrite zlen_app, zlen_one. lia. }
  replace (zlen pre + 1) with (zlen (pre ++ [x])) in * by (rewrite zlen_app, zlen_one; lia).
  destruct l as [|y l].
  - exists s1. change (zlen []) with 0 in *. cbn [send_bytes]. rewrite then_done by done. rewrite E1. split; [|done].
    apply (send_last _ _ _ _ Hs1 Hx); [cbn [bsize]; rewrite Ew, zlen_app, zlen_one; lia|cbn; lia].
  - destruct (send_more _ _ _ _ Hs1 Hx) as (s2 & E2 & Hs2 & D2 & C2).
    { cbn [bsize]. rewrite Ew, zlen_app, zlen_one, zlen_cons. pose proof (zlen_nonneg l). lia. }
    { cbn. lia. }
    destruct (IH (pre ++ [x]) s2 p t f m bp) as (s3 & E3 & Hs3 & D3 & C3); try done.
    + rewrite <-app_assoc. cbn [app]. rewrite <-Hw, zlen_app, zlen_one. lia.
    + rewrite zlen_app, zlen_one. lia.
    + exists s3. rewrite (ok_then _ _ _ _ _ (eq_trans E1 E2)). rewrite E3. rewrite <-app_assoc in Hs3. cbn [app] in Hs3.
      split; [done|]. split; [done|]. by rewrite D3, D2, C3, C2.
Qed.

(** ** Bytes to the host *)
Definition same_target s s' : Prop := devices s' = devices s /\ cmd s' = cmd s.

Lemma status_done st s p t b : shows s p t b -> p ∈ [scsi_command; scsi_data_in; scsi_data_out; scsi_message_out] -> exists s',
  phase_status st s = Ok tt s' /\ shows s' scsi_status t b /\ cdr (reg s') = st /\ same_target s s'.
Proof.
  intros [Hq Hp Ht Hb Hi Hm Hl] Hin. unfold phase_status. rewrite assert_then by (apply bool_decide_eq_true; by rewrite Hp). run.
  match goal with |- context [bit (mr (reg ?x)) MR_DMA] => change (mr (reg x)) with (mr (reg s)) end. rewrite Hm. change (bit 0 MR_DMA) with false.
  rewrite andb_false_r. cbn [if_ negb]. run. unfold put. rewrite quiet_irq by by destruct Hq.
  eexists. split; [reflexivity|]. split; [|done]. split; try done. by destruct Hq.
Qed.
Lemma message_done m s t b : shows s scsi_status t b -> exists s',
  phase_message_in m s = Ok tt s' /\ shows s' scsi_message_in t b /\ cdr (reg s') = m /\ same_target s s'.
Proof.
  intros [Hq Hp Ht Hb Hi Hm Hl]. unfold phase_message_in. rewrite assert_then by by apply bool_decide_eq_true. run.
  unfold put. rewrite quiet_irq by by destruct Hq. eexists. split; [reflexivity|]. split; [|done]. split; try done. by destruct Hq.
Qed.
Lemma free_done s p t b : shows s p t b -> BUF_LIMIT <= zlen (data b) -> idle (phase_free s) /\ buf (phase_free s) = b /\ same_target s (phase_free s).
Proof.
  intros [Hq Hp Ht Hb Hi Hm Hl] Hc. unfold phase_free.
  set (s1 := scsi_cancel_drq_service _). assert (quiet s1 /\ phase (bus s1) = scsi_bus_free /\ buf s1 = b /\ icr (reg s1) = 0 /\ mr (reg s1) = 0 /\ same_target s s1) as (Q1 & P1 & B1 & I1 & M1 & T1).
  { subst s1. unfold scsi_cancel_drq_service. destruct (has_scheduler _); split_and!; try done; by destruct Hq. }
  rewrite quiet_drq, quiet_irq by done. split_and!; try done. split; try done. by rewrite B1.
Qed.

(** The handshake that follows a byte to the host. *)
Lemma ack_pulse s p t b : shows s p t b -> p = scsi_data_in \/ p = scsi_status \/ p = scsi_message_in -> exists s',
  (wr junk pc 1 ICR_ACK;; wr junk pc 1 0) s = ack_cleared junk s' /\ shows s' p t b /\ same_target s s'.
Proof.
  intros [Hq Hp Ht Hb Hi Hm Hl] Hx. set (s1 := set_icr ICR_ACK s). set (s2 := set_csr (clear (csr (reg s1)) CSR_REQ) s1).
  assert (wr junk pc 1 ICR_ACK s = Ok tt s2) as E2.
  { rewrite icr_ack_on by (done || by right). unfold ack_asserted. run. change (phase (bus (set_icr ICR_ACK s))) with (phase (bus s)).
    rewrite Hp. by destruct Hx as [-> | [-> | ->] ]. }
  rewrite (ok_then _ _ _ _ _ E2), icr_ack_off by (by right || by destruct Hq). eexists. split; [reflexivity|].
  split; [|done]. split; try done; [by destruct Hq|]. rewrite <-Hl. apply lines_clear.
Qed.
Lemma rd_cdr s : quiet s -> rd 0 s = read_cdr s.
Proof. done. Qed.

Lemma receive_status s t b : shows s scsi_status t b -> exists s',
  receive_byte junk pc s = Ok (cdr (reg s)) s' /\ shows s' scsi_message_in t b /\ cdr (reg s') = MSG_CMD_COMPLETE /\ same_target s s'.
Proof.
  intros Hsh. destruct (ack_pulse s _ _ _ Hsh) as (s1 & E1 & Hs1 & D1 & C1); [auto|].
  destruct (message_done MSG_CMD_COMPLETE s1 t b Hs1) as (s2 & E2 & Hs2 & R2 & D2 & C2).
  exists s2. split; [|unfold same_target; rewrite D2, C2; done]. unfold receive_byte.
  assert (rd 0 s = Ok (cdr (reg s)) s) as Er.
  { destruct Hsh as [Hq Hp Ht Hb Hi Hm Hl]. rewrite rd_cdr by done. unfold read_cdr. run. unfold id. rewrite (qu_loop _ Hq), (qu_dma _ Hq).
    unfold in_phase. rewrite Hp, andb_false_r. done. }
  rewrite (ok_then _ _ _ _ _ Er), <-then_assoc. erewrite ok_then; [reflexivity|]. rewrite E1. unfold ack_cleared. run.
  rewrite (sh_phase _ _ _ _ Hs1). exact E2.
Qed.
Lemma receive_message s t b : shows s scsi_message_in t b -> BUF_LIMIT <= zlen (data b) -> exists s',
  receive_byte junk pc s = Ok (cdr (reg s)) s' /\ idle s' /\ buf s' = b /\ same_target s s'.
Proof.
  intros Hsh Hc. destruct (ack_pulse s _ _ _ Hsh) as (s1 & E1 & Hs1 & D1 & C1); [auto|].
  destruct (free_done s1 _ _ _ Hs1 Hc) as (F1 & F2 & F3 & F4). exists (phase_free s1). split; [|unfold same_target; rewrite F3, F4; done]. unfold receive_byte.
  assert (rd 0 s = Ok (cdr (reg s)) s) as Er.
  { destruct Hsh as [Hq Hp Ht Hb Hi Hm Hl]. rewrite rd_cdr by done. unfold read_cdr. run. unfold id. rewrite (qu_loop _ Hq).
    unfold in_phase. rewrite Hp. done. }
  rewrite (ok_then _ _ _ _ _ Er), <-then_assoc. erewrite ok_then; [reflexivity|]. rewrite E1. unfold ack_cleared. run.
  by rewrite (sh_phase _ _ _ _ Hs1).
Qed.
Lemma receive_data s t f m n q : shows s scsi_data_in t (mk_buffer f m (1 + n) q) -> 0 <= n -> 0 <= q -> q + 1 + n <= zlen f -> exists s',
  receive_byte junk pc s = Ok (u8 (nth (Z.to_nat q) f 0)) s' /\ same_target s s' /\
  if n =? 0 then shows s' scsi_status t (mk_buffer f m 0 (q + 1)) /\ cdr (reg s') = STATUS_GOOD
  else shows s' scsi_data_in t (mk_buffer f m n (q + 1)).
Proof.
  intros Hsh Hn Hq0 Hf. set (v := u8 (nth (Z.to_nat q) f 0)). set (s0 := set_cdr v (set_bsize n (set_bpos (q + 1) s))).
  assert (rd 0 s = Ok v s0) as Er.
  { destruct Hsh as [Hq Hp Ht Hb Hi Hm Hl]. rewrite rd_cdr by done. unfold read_cdr. run. unfold id. rewrite (qu_loop _ Hq).
    unfold in_phase. rewrite Hp. rewrite bool_decide_eq_true_2 by done. rewrite Hb. cbn [bsize].
    rewrite (proj2 (Z.eqb_neq (1 + n) 0)) by lia. cbn [negb]. unfold next_byte. rewrite !then_assoc, assert_then by (rewrite Hb; cbn; apply Z.ltb_lt; lia).
    run. rewrite get_then by (rewrite Hb; cbn; lia). run. rewrite Hb. cbn [bpos data]. fold v.
    rewrite (qu_dma _ Hq). cbn [if_]. run. unfold ask. subst s0. cbn. rewrite Hb. cbn. by replace (1 + n - 1) with n by lia. }
  assert (shows s0 scsi_data_in t (mk_buffer f m n (q + 1))) as Hs0.
  { destruct Hsh as [Hq Hp Ht Hb Hi Hm Hl]. split; try done; [by destruct Hq|]. subst s0. cbn. by rewrite Hb. }
  destruct (ack_pulse s0 _ _ _ Hs0) as (s1 & E1 & Hs1 & D1 & C1); [auto|]. unfold receive_byte.
  rewrite (ok_then _ _ _ _ _ Er), <-then_assoc. assert (ack_cleared junk s1 = if n =? 0 then phase_status STATUS_GOOD s1 else raise_req s1) as Ea.
  { unfold ack_cleared. run. rewrite (sh_phase _ _ _ _ Hs1), (sh_buf _ _ _ _ Hs1). cbn [bsize]. by destruct (n =? 0). }
  destruct (Z.eqb_spec n 0) as [-> |Hne].
  - destruct (status_done STATUS_GOOD s1 _ _ _ Hs1) as (s2 & E2 & Hs2 & R2 & D2 & C2); [by right; left|].
    exists s2. split; [by rewrite (ok_then _ _ _ _ _ (eq_trans E1 (eq_trans Ea E2)))|]. unfold same_target. by rewrite D2, C2, D1, C1.
  - exists (set_csr (Z.lor (csr (reg s1)) CSR_REQ) s1). split; [by rewrite (ok_then _ _ _ _ _ (eq_trans E1 (eq_trans Ea eq_refl)))|].
    split; [unfold same_target; cbn; by rewrite D1, C1|]. destruct Hs1 as [Hq Hp Ht Hb Hi Hm Hl]. split; try done; [by destruct Hq|].
    rewrite <-Hl. apply lines_raise.
Qed.
Lemma receive_list n : forall s t f m q, (0 < n)%nat -> shows s scsi_data_in t (mk_buffer f m (Z.of_nat n) q) -> 0 <= q ->
  q + Z.of_nat n <= zlen f -> exists s',
  receive_bytes junk pc n s = Ok (u8 <$> ztake (Z.of_nat n) (zdrop q f)) s' /\ same_target s s' /\
  shows s' scsi_status t (mk_buffer f m 0 (q + Z.of_nat n)) /\ cdr (reg s') = STATUS_GOOD.
Proof.
  induction n as [|n IH]; intros s t f m q Hn Hsh Hq Hf; [lia|]. clear Hn. cbn [receive_bytes].
  replace (Z.of_nat (S n)) with (1 + Z.of_nat n) in * by lia.
  destruct (receive_data s t f m (Z.of_nat n) q Hsh) as (s1 & E1 & T1 & R1); [lia..|].
  rewrite (ok_then _ _ _ _ _ E1).
  assert (ztake (1 + Z.of_nat n) (zdrop q f) = nth (Z.to_nat q) f 0 :: ztake (Z.of_nat n) (zdrop (q + 1) f)) as Es.
  { unfold ztake, zdrop. destruct (lookup_lt_is_Some_2 f (Z.to_nat q)) as [x Hx]; [unfold zlen in Hf; lia|].
    rewrite (drop_S f x _ Hx), (nth_lookup_Some _ _ _ _ Hx). replace (Z.to_nat (1 + Z.of_nat n)) with (S n) by lia.
    rewrite firstn_cons. f_equal. f_equal; [lia|f_equal; lia]. }
  destruct n as [|n].
  - destruct R1 as [Hs1 C1]. exists s1. cbn [receive_bytes]. rewrite ret_then, Es. change (Z.of_nat 0) with 0. unfold ztake. change (Z.to_nat 0) with 0%nat. rewrite take_0. split_and!; try done.
  - rewrite (proj2 (Z.eqb_neq (Z.of_nat (S n)) 0)) in R1 by lia.
    destruct (IH s1 t f m (q + 1)) as (s2 & E2 & T2 & Hs2 & C2); [lia|done|lia|lia|].
    exists s2. rewrite (ok_then _ _ _ _ _ E2). rewrite Es. split; [done|]. split; [destruct T1, T2; split; congruence|].
    split; [|done]. by replace (q + (1 + Z.of_nat (S n))) with (q + 1 + Z.of_nat (S n)) by lia.
Qed.
Lemma phase_asked s p t b : shows s p t b -> (p = scsi_data_in -> bsize b <> 0) -> asked_phase s = Ok (lines p) s.
Proof.
  intros [Hq Hp Ht Hb Hi Hm Hl] Hn. unfold asked_phase, rd, read_uint8, read_csr. change (register_of (16 * 4)) with 4. cbn [Z.eqb Pos.eqb orb].
  rewrite then_assoc, ask_then. unfold in_phase. rewrite Hp, Hb.
  assert (bool_decide (p = scsi_data_in) && (bsize b =? 0) = false) as ->.
  { destruct (bool_decide_reflect (p = scsi_data_in)) as [E|]; [|done]. by rewrite (proj2 (Z.eqb_neq _ _) (Hn E)). }
  cbn [if_]. run. unfold mret, chip_ret. rewrite (qu_loop _ Hq). by rewrite Hl.
Qed.

(** ** Phases a command enters *)
Lemma data_in_done n s t b : shows s scsi_command t b -> 0 <= n < 2 ^ size_bits -> exists s' f,
  phase_data_in junk n s = Ok tt s' /\ shows s' scsi_data_in t (mk_buffer f n n 0) /\ same_target s s' /\
  n <= zlen f /\ zlen (data b) <= zlen f.
Proof.
  intros [Hq Hp Ht Hb Hi Hm Hl] Hn. unfold phase_data_in. rewrite assert_then by (apply bool_decide_eq_true; done). run.
  replace (usize n) with n by (symmetry; by apply wrap_small).
  set (s1 := set_csr _ _). pose proof (ensure_grows junk s1 n) as [G1 G2]. rewrite ensure_data. set (f := data (buf (scsi_buf_ensure junk n s1))) in *.
  clearbody f. eexists _, f. split; [reflexivity|]. change (buf s1) with (buf s) in G1. rewrite Hb in G1.
  split_and!; try done. split; try done. by destruct Hq.
Qed.
Lemma data_out_done n s t b : shows s scsi_command t b -> 0 <= n < 2 ^ size_bits -> exists s' f,
  phase_data_out junk n s = Ok tt s' /\ shows s' scsi_data_out t (mk_buffer f n 0 (bpos b)) /\ same_target s s' /\
  n <= zlen f /\ zlen (data b) <= zlen f.
Proof.
  intros [Hq Hp Ht Hb Hi Hm Hl] Hn. unfold phase_data_out. rewrite assert_then by (apply bool_decide_eq_true; done). run.
  replace (usize n) with n by (symmetry; by apply wrap_small).
  set (s1 := set_csr _ _). pose proof (ensure_grows junk s1 n) as [G1 G2]. rewrite ensure_data. set (f := data (buf (scsi_buf_ensure junk n s1))) in *.
  clearbody f. eexists _, f. split; [reflexivity|]. change (buf s1) with (buf s) in G1. rewrite Hb in G1.
  split_and!; try done. split; try done; [by destruct Hq|]. cbn. by rewrite Hb.
Qed.
(** The target's device after an update of it. *)
Definition updates (t : Z) (f : device I -> device I) s s' : Prop := devices s' = alter f (Z.to_nat t) (devices s).
Lemma check_done k a s p t b : shows s p t b -> p = scsi_command \/ p = scsi_data_in -> 0 <= t < 7 -> exists s',
  scsi_check_condition k a 0 s = Ok tt s' /\ shows s' scsi_status t b /\ cdr (reg s') = STATUS_CHECK_CONDITION /\
  updates t (set_sense (mk_sense k a 0)) s s'.
Proof.
  intros Hsh Hx Ht. unfold scsi_check_condition. run. set (s1 := scsi_set_sense _ _ _ _ _).
  assert (shows s1 p t b) as Hs1. { destruct Hsh as [Hq Hp Htt Hb Hi Hm Hl]. split; try done. by destruct Hq. }
  destruct (status_done STATUS_CHECK_CONDITION s1 _ _ _ Hs1) as (s2 & E2 & Hs2 & C2 & D2 & _).
  { destruct Hx as [-> | ->]; [by left|by right; left]. }
  exists s2. split_and!; try done. unfold updates. rewrite D2. subst s1. rewrite (sh_target _ _ _ _ Hsh).
  assert (Z.land t 7 = t) as E7 by (small_z t; done). unfold scsi_set_sense. by rewrite E7.
Qed.

(** ** A disk on the bus *)
Record holds (dv : device I) (d : drive) : Prop := {
  ho_image : exists i, dev_image dv = Some i /\ medium_ok i /\ medium_bytes i = contents d;
  ho_type : dev_type dv = scsi_dev_hd;
  ho_ro : read_only dv = false;
  ho_bs : dev_block_size dv = 512;
  ho_ua : unit_attention dv = attention d;
  ho_sense : sense dv = drive_sense d;
  ho_key : byte_list [key (drive_sense d); asc (drive_sense d); ascq (drive_sense d)];
  ho_bytes : byte_list (contents d);
  ho_size : zlen (contents d) < 2 ^ size_bits;
}.
Record on_bus_at (t : Z) (d : drive) s : Prop := {
  ob_eight : length (devices s) = 8%nat;
  ob_holds : holds (device_at t s) d;
}.
(** The other slots. *)
Definition others (t : Z) s s' : Prop := forall j, 0 <= j -> j <> t -> device_at j s' = device_at j s.
Lemma same_on_bus t d s s' : same_target s s' -> on_bus_at t d s -> on_bus_at t d s' /\ others t s s'.
Proof.
  intros [E _] []. unfold others, device_at in *. rewrite E. split; [|done]. split; [by rewrite E|]. unfold device_at. by rewrite E.
Qed.
Lemma updates_on_bus t f d d' s s' : updates t f s s' -> 0 <= t < 7 -> on_bus_at t d s ->
  (holds (device_at t s) d -> holds (f (device_at t s)) d') -> on_bus_at t d' s' /\ others t s s'.
Proof.
  intros E Ht [H8 Hd] Hf. assert (forall j, device_at j s' = device_at j (on_device t f s)) as Ed.
  { intros j. unfold device_at. by rewrite E. }
  split; [split|].
  - rewrite E, length_alter. done.
  - rewrite Ed, device_at_same; [auto|lia|]. rewrite H8. lia.
  - intros j Hj Hne. rewrite Ed. apply device_at_other; lia.
Qed.
Lemma target_device s p t b : shows s p t b -> 0 <= t < 7 -> target_id s = t /\ the_device s = device_at t s.
Proof.
  intros [] Ht. assert (target_id s = t) as E by (unfold target_id; rewrite sh_target0; small_z t; done).
  split; [done|]. unfold the_device. by rewrite E.
Qed.

End Driver.
