(* ===== verification/ScsiCommandProofs.v ===== *)
(** * The commands of a disk, executed

    From the last byte of a command block to the status, the data or the room for
    data the command leaves, for every request of ScsiDriver. *)
From S2P Require Import Prelude Stdio Image Scsi ScsiProofs ScsiDriver ScsiDriverProofs.

(** ** Fields of command blocks *)
Ltac bit_cases k :=
  repeat match goal with |- context [(?a <=? ?b)] => destruct (Z.leb_spec a b) | |- context [(?a <? ?b)] => destruct (Z.ltb_spec a b) end;
  try lia; cbn [andb orb]; rewrite ?andb_false_r, ?andb_true_r, ?orb_false_r.
Lemma shifted_byte x n k : 0 <= n -> 0 <= k ->
  Z.testbit (Z.shiftl (u8 (Z.shiftr x n)) n) k = (n <=? k) && (k <? n + 8) && Z.testbit x k.
Proof.
  intros Hn Hk. rewrite shiftl_testbit. destruct (Z.leb_spec 0 k); [|lia]. cbn [andb].
  destruct (Z.leb_spec n k); cbn [andb].
  - unfold u8. rewrite wrap_testbit by lia. rewrite shiftr_testbit by lia. replace (k - n + n) with k by lia.
    f_equal. destruct (Z.ltb_spec (k - n) 8), (Z.ltb_spec k (n + 8)); lia.
  - by rewrite Z.testbit_neg_r by lia.
Qed.
Lemma low_byte_bit x k : 0 <= k -> Z.testbit (u8 x) k = (k <? 8) && Z.testbit x k.
Proof. intros Hk. unfold u8. by rewrite wrap_testbit by lia. Qed.
Lemma be32_value x : Z.lor (Z.lor (Z.lor (Z.shiftl (u8 (Z.shiftr x 24)) 24) (Z.shiftl (u8 (Z.shiftr x 16)) 16))
  (Z.shiftl (u8 (Z.shiftr x 8)) 8)) (u8 x) = u32 x.
Proof.
  apply Z.bits_inj'. intros k Hk. rewrite !Z.lor_spec, !shifted_byte, low_byte_bit by lia. unfold u32. rewrite wrap_testbit by lia.
  bit_cases k; by destruct (Z.testbit x k).
Qed.
Lemma be16_value x : 0 <= x < 2 ^ 16 -> Z.lor (Z.shiftl (u8 (Z.shiftr x 8)) 8) (u8 x) = x.
Proof.
  intros Hx. apply Z.bits_inj'. intros k Hk. rewrite Z.lor_spec, shifted_byte, low_byte_bit by lia.
  pose proof (width_bits 16 x k Hx) as Hb. bit_cases k; try by destruct (Z.testbit x k). symmetry. apply Hb. lia.
Qed.
Lemma be21_value x : 0 <= x < 2 ^ 21 ->
  Z.lor (Z.lor (Z.shiftl (Z.land (Z.shiftr x 16) 0x1F) 16) (Z.shiftl (u8 (Z.shiftr x 8)) 8)) (u8 x) = x.
Proof.
  intros Hx. assert (Z.land (Z.shiftr x 16) 0x1F = u8 (Z.shiftr x 16)) as ->.
  { change 0x1F with (Z.ones 5). rewrite Z.land_ones, Z.shiftr_div_pow2 by lia. unfold u8, wrap. dlia. }
  apply Z.bits_inj'. intros k Hk. rewrite !Z.lor_spec, !shifted_byte, low_byte_bit by lia.
  pose proof (width_bits 21 x k Hx) as Hb. bit_cases k; try by destruct (Z.testbit x k). symmetry. apply Hb. lia.
Qed.
Lemma byte_of_wrap x n : 0 <= n <= 24 -> u8 (Z.shiftr (u32 x) n) = u8 (Z.shiftr x n).
Proof.
  intros Hn. apply Z.bits_inj'. intros k Hk. rewrite !low_byte_bit by lia. destruct (Z.ltb_spec k 8); [|done]. cbn [andb].
  rewrite !shiftr_testbit by lia. unfold u32. rewrite wrap_testbit by lia. by destruct (Z.ltb_spec (k + n) 32); [|lia].
Qed.
Lemma be32_wrap x : be32 (u32 x) = be32 x.
Proof.
  unfold be32. rewrite !byte_of_wrap by lia. pose proof (byte_of_wrap x 0 ltac:(lia)) as E. rewrite !Z.shiftr_0_r in E. by rewrite E.
Qed.
(** A write inside the first part of a list. *)
Lemma write_at_front l r p d : 0 <= p -> p + zlen d <= zlen l -> write_at (l ++ r) p d = write_at l p d ++ r.
Proof.
  intros Hp Hd. pose proof (zlen_nonneg d). pose proof (zlen_nonneg r). unfold write_at. destruct (zlen d =? 0); [done|].
  rewrite zlen_app. unfold zeros.   replace (Z.to_nat (p - (zlen l + zlen r))) with 0%nat by lia. replace (Z.to_nat (p - zlen l)) with 0%nat by lia.
  cbn [replicate]. rewrite !app_nil_r. unfold ztake, zdrop, zlen in *. rewrite take_app_le, drop_app_le by lia. by rewrite <-!app_assoc.
Qed.
Lemma ztake_write_at f l : zlen l <= zlen f -> ztake (zlen l) (write_at f 0 l) = l.
Proof.
  intros Hl. unfold write_at. destruct (Z.eqb_spec (zlen l) 0) as [E|E].
  - destruct l; [done|]. rewrite zlen_cons in E. pose proof (zlen_nonneg l). lia.
  - change (ztake 0 _) with (@nil Z). cbn [app]. by apply ztake_app.
Qed.
Lemma byte_u8 x : 0 <= u8 x < 256.
Proof. apply Z.mod_pos_bound. done. Qed.
Lemma be32_bytes x : byte_list (be32 x).
Proof. unfold byte_list, be32. repeat constructor; apply byte_u8. Qed.

Section Driver.
Context {I : Type} `{!Medium I} `{!MediumLaws I} `{!Abi} `{!Build} (junk : Z -> Z) (pc : Z) (Hsize : 32 <= size_bits <= 64).
Implicit Types (s : scsi I).

(** ** Commands, once the bytes are there *)
Definition exempt (op : Z) : bool := (op =? CMD_INQUIRY) || (op =? CMD_REQUEST_SENSE).
Lemma get_cdb {B} i c f (k : Z -> chip I B) s : data (buf s) = write_at f 0 c -> 0 <= i < zlen c -> zlen c <= zlen f -> byte_list c ->
  (get_data i ≫= k) s = k (nth (Z.to_nat i) c 0) s.
Proof.
  intros Hb Hi Hc Hl. rewrite get_then; rewrite Hb; [|rewrite zlen_write_in; lia].
  rewrite nth_write_at by (done || unfold zlen in Hi; lia). f_equal. apply wrap_small.
  destruct (lookup_lt_is_Some_2 c (Z.to_nat i)) as [x Hx]; [unfold zlen in Hi; lia|]. rewrite (nth_lookup_Some _ _ _ _ Hx).
  exact (Forall_lookup_1 _ _ _ _ Hl Hx).
Qed.

(** The command block [c] is in the buffer. *)
Record issued (t : Z) (c : list Z) s : Prop := {
  is_shows : exists f bp, shows s scsi_command t (mk_buffer (write_at f 0 c) MAX_CMD_SIZE (zlen c) bp) /\ BUF_LIMIT <= zlen f;
  is_bytes : byte_list c;
  is_length : 6 <= zlen c <= 10;
}.
Lemma issued_data t c s : issued t c s -> exists f, data (buf s) = write_at f 0 c /\ zlen c <= zlen f /\ BUF_LIMIT <= zlen (data (buf s)).
Proof.
  intros [(f & bp & [_ _ _ Eb _ _ _] & Hf) _ Hl]. exists f. rewrite Eb. cbn. split; [done|]. unfold BUF_LIMIT, BLOCK_SIZE in *.
  split; [lia|]. rewrite zlen_write_in; lia.
Qed.
Lemma issued_get {B} t c i (k : Z -> chip I B) s : issued t c s -> 0 <= i < 6 \/ zlen c = 10 /\ 0 <= i < 10 -> (get_data i ≫= k) s = k (nth (Z.to_nat i) c 0) s.
Proof.
  intros Hi Hr. destruct (issued_data _ _ _ Hi) as (f & E & Hf & _). destruct Hi. apply (get_cdb i c f); try done. lia.
Qed.
Lemma issued_shows t c s : issued t c s -> exists b, shows s scsi_command t b /\ BUF_LIMIT <= zlen (data b).
Proof.
  intros Hi. destruct (issued_data _ _ _ Hi) as (f & E & Hf & Hc). destruct Hi as [(g & bp & Hsh & _) _ _].
  eexists. split; [exact Hsh|]. by rewrite <-(sh_buf _ _ _ _ Hsh).
Qed.
Lemma issued_cmd t c s f : issued t c s -> (forall x, quiet x -> quiet (f x)) -> bus (f s) = bus s -> reg (f s) = reg s -> buf (f s) = buf s -> issued t c (f s).
Proof.
  intros [(g & bp & [] & Hg) ? ?] Hq E1 E2 E3. split; try done. exists g, bp. split; [|done]. split; rewrite ?E1, ?E2, ?E3; auto.
Qed.

(** What a command leaves: a status to be read ... *)
Record at_status (t st : Z) (d : drive) s s' : Prop := {
  as_shows : exists b, shows s' scsi_status t b /\ BUF_LIMIT <= zlen (data b);
  as_cdr : cdr (reg s') = st;
  as_disk : on_bus_at t d s';
  as_others : others t s s';
}.
(** ... or data, or room for data. *)
Record at_data_in (t : Z) (l : list Z) (d : drive) s s' : Prop := {
  ai_shows : exists f, shows s' scsi_data_in t (mk_buffer f (zlen l) (zlen l) 0) /\ BUF_LIMIT <= zlen f /\ ztake (zlen l) f = l;
  ai_bytes : byte_list l;
  ai_some : l <> [];
  ai_disk : on_bus_at t d s';
  ai_others : others t s s';
}.
(** Room for [N] blocks of data from the host. *)
Record at_data_out (t op L N : Z) (d : drive) s s' : Prop := {
  ao_shows : exists f bp, shows s' scsi_data_out t (mk_buffer f (N * 512) 0 bp) /\ BUF_LIMIT <= zlen f /\ N * 512 <= zlen f;
  ao_cmd : opcode (cmd s') = op /\ lba (cmd s') = L /\ tl (cmd s') = N;
  ao_disk : on_bus_at t d s';
  ao_others : others t s s';
}.
Lemma others_refl t s : others t s s.
Proof. done. Qed.
Lemma others_trans t s1 s2 s3 : others t s1 s2 -> others t s2 s3 -> others t s1 s3.
Proof. intros E1 E2 j Hj Hn. by rewrite E2, E1. Qed.

(** Writes to the staging buffer in the data-in phase. *)
Lemma put_shown t i l s0 f n k q : shows s0 scsi_data_in t (mk_buffer f n k q) -> 0 <= i -> i + zlen l <= zlen f -> exists s1 f1,
  put_data i l s0 = Ok tt s1 /\ shows s1 scsi_data_in t (mk_buffer f1 n k q) /\ same_target s0 s1 /\ f1 = write_at f i l /\ zlen f1 = zlen f.
Proof.
  intros [Hq Hp Htt Hb Hic Hm Hl] Hi0 Hf. eexists _, (write_at f i l). split; [apply put_data_done; rewrite ?Hb; done|].
  split_and!; try done; [|by apply zlen_write_in]. split; try done; [by destruct Hq|]. cbn. by rewrite Hb.
Qed.
Lemma same_trans s1 s2 s3 : same_target s1 s2 -> same_target s2 s3 -> same_target s1 s3.
Proof. intros [E1 C1] [E2 C2]. split; congruence. Qed.
Lemma same_target_device s1 s2 p t b : same_target s1 s2 -> shows s2 p t b -> 0 <= t < 7 -> the_device s2 = device_at t s1.
Proof. intros [E _] Hs Ht. rewrite (proj2 (target_device _ _ _ _ Hs Ht)). unfold device_at. by rewrite E. Qed.
Ltac same_chain := repeat match goal with T1 : same_target ?a ?b, T2 : same_target ?b ?c |- _ => pose proof (same_trans _ _ _ T1 T2); clear T2 end.
(** One byte string more in the staging buffer; then the effect on the devices. *)
Ltac fill := lazymatch goal with
  | Hs : shows ?x scsi_data_in _ (mk_buffer ?f _ _ _) |- context [(put_data ?i ?l ≫= _) ?x] =>
      let x1 := fresh "x" in let f1 := fresh "f" in let E := fresh "E" in let Hs1 := fresh "Hs" in let T := fresh "T" in let F := fresh "F" in
      destruct (put_shown _ i l x _ _ _ _ Hs) as (x1 & f1 & E & Hs1 & T & ? & F);
        [lia|unfold be32; rewrite ?zlen_zeros, ?zlen_cons by lia; change (zlen (@nil Z)) with 0; lia|]; rewrite (ok_then _ _ _ _ _ E); clear E; run
  end.

Ltac small_opcode := match goal with |- context [?a <? 0x20] => let v := eval vm_compute in (a <? 0x20) in change (a <? 0x20) with v end; cbv iota.
(** Indices. *)
Ltac to_nats := repeat match goal with |- context [Z.to_nat (Zpos ?p)] => let n := eval vm_compute in (Z.to_nat (Zpos p)) in change (Z.to_nat (Zpos p)) with n end.
(** A command is answered: with a status, or with data and then GOOD. *)
Definition answered (t : Z) (a : (list Z * Z) * drive) s s' : Prop :=
  match a with
  | (([], st), d') => at_status t st d' s s'
  | ((l, st), d') => st = STATUS_GOOD /\ at_data_in t l d' s s'
  end.
Lemma usize_small x : 0 <= x < 2 ^ size_bits -> usize x = x.
Proof. apply wrap_small. Qed.
Lemma forall_slice (P : Z -> Prop) n o l : Forall P l -> Forall P (ztake n (zdrop o l)).
Proof. intros Hl. by apply Forall_take, Forall_drop. Qed.
Lemma zlen_slice n o (l : list Z) : 0 <= o -> 0 <= n -> o + n <= zlen l -> zlen (ztake n (zdrop o l)) = n.
Proof. intros. rewrite zlen_ztake, zlen_zdrop by lia. lia. Qed.
Lemma padded_slice l o n : 0 <= o -> 0 <= n -> o + n <= zlen l -> read_padded l o n = ztake n (zdrop o l).
Proof. intros. unfold read_padded. rewrite zlen_slice, Z.sub_diag by lia. apply app_nil_r. Qed.
Lemma holds_size dv d : holds dv d -> image_size dv = zlen (contents d).
Proof. intros [(i & Ei & Hok & Hb) _ _ _ _ _ _ _]. unfold image_size. rewrite Ei, medium_size_ok by done. by rewrite Hb. Qed.

Section Command.
Context (t : Z) (c : list Z) (d : drive) s (Ht : 0 <= t < 7) (Hi : issued t c s) (Hd : on_bus_at t d s).

Lemma run_attention : attention d = true -> exempt (nth 0 c 0) = false -> run_cmd junk s =
  (put (fun s => on_device (target_id s) (set_unit_attention false) s);;
   scsi_check_condition SENSE_UNIT_ATTENTION ASC_NOT_READY_TO_READY 0) (set_opcode (nth 0 c 0) s).
Proof.
  intros Ha [E1 E2]%orb_false_iff. unfold run_cmd. rewrite (issued_get t c 0) by (done || lia). run.
  destruct (issued_shows _ _ _ Hi) as (b & Hsh & _). change (the_device (set_opcode (nth (Z.to_nat 0) c 0) s)) with (the_device s).
  rewrite (proj2 (target_device _ _ _ _ Hsh Ht)), (ho_ua _ _ (ob_holds _ _ _ Hd)), Ha. change (Z.to_nat 0) with 0%nat. by rewrite E1, E2.
Qed.
Lemma attention_done : attention d = true -> exempt (nth 0 c 0) = false -> exists s',
  run_cmd junk s = Ok tt s' /\ at_status t STATUS_CHECK_CONDITION (failed SENSE_UNIT_ATTENTION ASC_NOT_READY_TO_READY d).2 s s'.
Proof.
  intros Ha He. rewrite run_attention by done. run.
  destruct (issued_shows _ _ _ Hi) as (b & Hsh & Hc).
  match goal with |- context [scsi_check_condition _ _ _ ?x] => set (s1 := x) end.
  assert (shows s1 scsi_command t b) as Hs1. { destruct Hsh as [Hq ? ? ? ? ? ?]. split; try done. by destruct Hq. }
  destruct (check_done SENSE_UNIT_ATTENTION ASC_NOT_READY_TO_READY s1 _ t b Hs1) as (s2 & E2 & Hs2 & C2 & U2); [by left|done|].
  exists s2. split; [done|].
  destruct (updates_on_bus t (fun dv => set_sense (mk_sense 6 0x28 0) (set_unit_attention false dv)) d (failed SENSE_UNIT_ATTENTION ASC_NOT_READY_TO_READY d).2 s s2) as [Hd2 Ho2].
  - unfold updates in *. rewrite U2. subst s1. cbn.
    assert (target_id (set_opcode (nth 0 c 0) s) = t) as -> by exact (proj1 (target_device _ _ _ _ Hsh Ht)).
    rewrite list_alter_alter_eq. reflexivity.
  - done.
  - done.
  - intros []. split; try done. closed_bytes.
  - split; [by exists b|done..].
Qed.

Lemma good_done s0 : issued t c s0 -> on_bus_at t d s0 -> exists s', phase_status STATUS_GOOD s0 = Ok tt s' /\ at_status t STATUS_GOOD d s0 s'.
Proof.
  intros Hi0 Hd0. destruct (issued_shows _ _ _ Hi0) as (b & Hsh & Hc).
  destruct (status_done STATUS_GOOD s0 _ t b Hsh) as (s1 & E & Hs1 & C1 & T1); [by left|].
  destruct (same_on_bus t d s0 s1 T1 Hd0). exists s1. split; [done|]. split; try done. by exists b.
Qed.
(** The state in which a handler starts. *)
Lemma opcode_issued op : issued t c (set_opcode op s) /\ on_bus_at t d (set_opcode op s).
Proof. split; [|by destruct Hd]. apply issued_cmd; try done. by intros x []. Qed.

(** Up to the dispatch on the opcode. *)
Ltac start_command :=
  let E := fresh in
  unfold run_cmd; rewrite (issued_get t c 0) by (done || lia); run;
  match goal with |- context [the_device (set_opcode ?o s)] => change (the_device (set_opcode o s)) with (the_device s) end;
  assert (the_device s = device_at t s) as E by (destruct (issued_shows _ _ _ Hi) as (? & Hsh & _); exact (proj2 (target_device _ _ _ _ Hsh Ht)));
  rewrite E; clear E; change (Z.to_nat 0) with 0%nat.

Lemma unit_ready_done : attention d = false -> nth 0 c 0 = CMD_TEST_UNIT_READY -> exists s',
  run_cmd junk s = Ok tt s' /\ at_status t STATUS_GOOD d s s'.
Proof.
  intros Ha Hop. start_command. rewrite Hop, (ho_ua _ _ (ob_holds _ _ _ Hd)), Ha, (ho_type _ _ (ob_holds _ _ _ Hd)). eval_tests.
  change (bool_decide (scsi_dev_hd = scsi_dev_cdrom)) with false. cbn [andb].
  destruct (opcode_issued CMD_TEST_UNIT_READY) as [Hi1 Hd1]. destruct (good_done _ Hi1 Hd1) as (s1 & E1 & []). by exists s1.
Qed.
(** The data-in phase, filled from the front. *)
Lemma data_phase n s0 : issued t c s0 -> 0 <= n < 2 ^ 32 -> exists s1 f,
  phase_data_in junk n s0 = Ok tt s1 /\ shows s1 scsi_data_in t (mk_buffer f n n 0) /\ same_target s0 s1 /\ n <= zlen f /\ BUF_LIMIT <= zlen f.
Proof.
  intros Hi0 Hn. destruct (issued_shows _ _ _ Hi0) as (b & Hsh & Hc).
  destruct (data_in_done junk n s0 t b Hsh) as (s1 & f & E & Hs1 & T1 & F1 & F2).
  { pose proof (Z.pow_le_mono_r 2 32 size_bits). lia. }
  exists s1, f. split_and!; try done. lia.
Qed.
(** What the data phase shows at the end is read by the host. *)
Lemma data_in_ready l f d' s1 : shows s1 scsi_data_in t (mk_buffer f (zlen l) (zlen l) 0) -> BUF_LIMIT <= zlen f -> ztake (zlen l) f = l ->
  byte_list l -> l <> [] -> on_bus_at t d' s1 -> others t s s1 -> at_data_in t l d' s s1.
Proof. intros. split; try done. by exists f. Qed.

Lemma sense_filled f sd : 18 <= zlen f ->
  write_at (write_at (write_at (write_at (write_at (write_at f 0 (zeros 18)) 0 [0x70]) 2 [key sd]) 7 [0x0A]) 12 [asc sd]) 13 [ascq sd] =
  sense_bytes sd ++ zdrop 18 f.
Proof.
  intros Hf. change (write_at f 0 (zeros 18)) with (zeros 18 ++ zdrop 18 f).
  rewrite !write_at_front by (vm_compute; congruence). reflexivity.
Qed.
Lemma request_sense_done : nth 0 c 0 = CMD_REQUEST_SENSE -> nth 4 c 0 = 18 -> exists s',
  run_cmd junk s = Ok tt s' /\ at_data_in t (sense_bytes (drive_sense d)) (mk_drive (contents d) no_sense false) s s'.
Proof.
  intros Hop Hal. start_command. rewrite Hop. eval_tests. rewrite andb_false_r. unfold scsi_cdrom_request_sense.
  destruct (opcode_issued CMD_REQUEST_SENSE) as [Hi1 Hd1].
  rewrite (issued_get t c 4) by (done || lia). change (Z.to_nat 4) with 4%nat. rewrite Hal.
  change (if 18 =? 0 then 18 else 18) with 18. change (if 18 <? 18 then 18 else 18) with 18. change (12 <? 18) with true. change (13 <? 18) with true.
  destruct (data_phase 18 _ Hi1) as (s1 & f & E1 & Hs1 & T1 & F1 & F2); [lia|]. rewrite (ok_then _ _ _ _ _ E1).
  do 4 fill. cbn [if_]. do 2 fill. same_chain.
  assert (sense (the_device x) = drive_sense d) as Ed.
  { rewrite (same_target_device (set_opcode CMD_REQUEST_SENSE s) x _ _ _ ltac:(done) Hs Ht). exact (ho_sense _ _ (ob_holds _ _ _ Hd)). }
  rewrite Ed in *. assert (f5 = sense_bytes (drive_sense d) ++ zdrop 18 f) as Ef by (subst; by apply sense_filled).
  destruct (updates_on_bus t (fun dv => set_unit_attention false (set_sense no_sense dv)) d (mk_drive (contents d) no_sense false)
    s (on_device t (set_unit_attention false) (on_device t (set_sense no_sense) x4))) as [Hd2 O2]; [|done..| |].
  { assert (devices x4 = devices s) as E4 by by match goal with T : same_target _ x4 |- _ => destruct T end.
    unfold updates. rewrite <-E4. cbn. by rewrite list_alter_alter_eq. }
  { intros []. split; try done. closed_bytes. }
  eexists. unfold put. assert (target_id x4 = t) as -> by exact (proj1 (target_device _ _ _ _ Hs5 Ht)). split; [reflexivity|].
  assert (target_id (on_device t (set_sense {| key := 0; asc := 0; ascq := 0 |}) x4) = t) as -> by exact (proj1 (target_device _ _ _ _ Hs5 Ht)).
  apply (data_in_ready _ f5); try done.
  - destruct Hs5 as [[] ? ? ? ? ? ?]. done.
  - lia.
  - rewrite Ef. by apply ztake_app.
  - pose proof (ho_key _ _ (ob_holds _ _ _ Hd)) as Hk. unfold byte_list in *. rewrite !Forall_cons_iff in Hk.
    destruct Hk as (? & ? & ? & _). unfold sense_bytes. repeat constructor; lia.
Qed.
Lemma at_device op : the_device (set_opcode op s) = device_at t s.
Proof. destruct (issued_shows _ _ _ Hi) as (b & Hsh & _). exact (proj2 (target_device _ _ _ _ Hsh Ht)). Qed.

Lemma capacity_blocks x : be32 (u32 (u32 x - 1)) = be32 (x - 1).
Proof.
  rewrite be32_wrap, <-(be32_wrap (u32 x - 1)), <-(be32_wrap (x - 1)). f_equal. unfold u32, wrap. apply Zminus_mod_idemp_l.
Qed.
Lemma capacity_done : attention d = false -> nth 0 c 0 = CMD_READ_CAPACITY -> exists s',
  run_cmd junk s = Ok tt s' /\ at_data_in t (be32 (zlen (contents d) / BLOCK_SIZE - 1) ++ be32 BLOCK_SIZE) d s s'.
Proof.
  intros Ha Hop. pose proof (ob_holds _ _ _ Hd) as Hh. start_command. rewrite Hop, (ho_ua _ _ Hh), Ha. eval_tests. unfold cmd_read_capacity.
  destruct (opcode_issued CMD_READ_CAPACITY) as [Hi1 Hd1]. run. rewrite at_device, (holds_size _ _ Hh), (ho_bs _ _ Hh).
  unfold divide. change (512 =? 0) with false. erewrite ok_then by reflexivity.
  destruct (data_phase 8 _ Hi1) as (s1 & f & E1 & Hs1 & T1 & F1 & F2); [lia|]. rewrite (ok_then _ _ _ _ _ E1).
  rewrite capacity_blocks. fill. change (u32 512) with BLOCK_SIZE.
  destruct (put_shown t 4 (be32 BLOCK_SIZE) x _ _ _ _ Hs) as (x1 & f1 & E & Hs2 & T2 & G & F3); [lia|change (zlen (be32 BLOCK_SIZE)) with 4; lia|].
  same_chain. exists x1. split; [done|].
  destruct (same_on_bus t d (set_opcode CMD_READ_CAPACITY s) x1) as [Hd2 O2]; [done..|].
  apply (data_in_ready _ f1); try done.
  - lia.
  - subst. pose proof (write_at_adjacent f 0 (be32 (zlen (contents d) / 512 - 1)) (be32 BLOCK_SIZE) ltac:(lia)) as Ea.
    change (0 + zlen (be32 _)) with 4 in Ea. rewrite Ea. by apply ztake_write_at.
  - apply Forall_app. split; apply be32_bytes.
Qed.
(** The image of the target is replaced by one with the bytes [l]. *)
Lemma image_updated l i s0 s1 p b : on_bus_at t d s0 -> same_target s0 s1 -> shows s1 p t b -> medium_ok i -> medium_bytes i = l ->
  byte_list l -> zlen l = zlen (contents d) ->
  let s2 := on_device (target_id s1) (set_dev_image (Some i)) s1 in
  shows s2 p t b /\ on_bus_at t (set_contents l d) s2 /\ others t s0 s2.
Proof.
  intros Hd0 [T _] Hsh Hok Hb Hl Hz s2. subst s2. rewrite (proj1 (target_device _ _ _ _ Hsh Ht)).
  split; [by destruct Hsh as [[] ? ? ? ? ? ?]|]. apply (updates_on_bus t (set_dev_image (Some i)) d); [|done..|].
  - unfold updates. cbn. by rewrite T.
  - intros []. split; try done; [by exists i|]. cbn. by rewrite Hz.
Qed.
Lemma read_done L N s0 : attention d = false -> issued t c s0 -> on_bus_at t d s0 -> others t s s0 -> lba (cmd s0) = L -> tl (cmd s0) = N -> 0 <= L ->
  0 < N < 2 ^ 16 -> (L + N) * BLOCK_SIZE < 2 ^ size_bits -> exists s',
  read_transfer junk s0 = Ok tt s' /\ answered t (serve_read L N d) s s'.
Proof.
  intros Ha Hi0 Hd0 O0 HL HN HL0 HN0 HLN. unfold BLOCK_SIZE in HLN. unfold read_transfer. run.
  destruct (issued_shows _ _ _ Hi0) as (b & Hsh & _). pose proof (ob_holds _ _ _ Hd0) as Hh.
  rewrite (proj2 (target_device _ _ _ _ Hsh Ht)), (ho_bs _ _ Hh), HL, HN.
  destruct (data_phase (N * 512) _ Hi0) as (s1 & f & E1 & Hs1 & T1 & F1 & F2); [lia|]. rewrite (ok_then _ _ _ _ _ E1). run.
  rewrite (same_target_device _ _ _ _ _ T1 Hs1 Ht). destruct (ho_image _ _ Hh) as (i & Ei & Hok & Hib). rewrite Ei.
  rewrite (usize_small N), (usize_small L), (usize_small (N * 512)), (usize_small (L * 512)), usize_small, medium_size_ok, Hib by (done || lia).
  replace (L * 512 + N * 512) with ((L + N) * BLOCK_SIZE) by (unfold BLOCK_SIZE; lia). unfold serve_read. rewrite Z.leb_antisym.
  destruct (Z.ltb_spec (zlen (contents d)) ((L + N) * BLOCK_SIZE)) as [Hout|Hin]; cbn [negb].
  - destruct (check_done SENSE_ILLEGAL_REQUEST ASC_LBA_OUT_OF_RANGE s1 _ t _ Hs1) as (s2 & E2 & Hs2 & C2 & U2); [by right|done|].
    exists s2. split; [done|].
    destruct (updates_on_bus t (set_sense (mk_sense 5 0x21 0)) d (failed 5 0x21 d).2 s0 s2) as [Hd2 O2];
      [unfold updates in *; destruct T1 as [T1 _]; by rewrite U2, T1|done|done|intros []; split; try done; [cbn in *; congruence|closed_bytes]|].
    split; [by eexists|done..|by apply (others_trans _ _ s0)].
  - rewrite ask_then, (sh_buf _ _ _ _ Hs1). cbn [data]. rewrite (proj2 (Z.ltb_ge (zlen f) (N * 512))) by done. erewrite ok_then by reflexivity.
    assert (zlen (ztake (N * 512) f) = N * 512) as Hz by (rewrite zlen_ztake by lia; lia).
    assert (2 ^ size_bits <= 2 ^ 64) as H64 by (apply Z.pow_le_mono_r; lia). unfold BLOCK_SIZE in *.
    destruct (medium_read_ok i (L * 512) (ztake (N * 512) f) Hok) as (i' & Er & Hok' & Hib');
      [lia|apply Z.mod_mul; lia|rewrite Hz; apply Z.mod_mul; lia|].
    rewrite Er, Hz, Hib, padded_slice by lia. run. set (l := ztake (N * 512) (zdrop (L * 512) (contents d))).
    assert (zlen l = N * 512) as Hl by (apply zlen_slice; lia).
    destruct (image_updated (contents d) i' s0 s1 _ _ Hd0 T1 Hs1 Hok') as (Hs2 & Hd2 & O2); [congruence|by apply (ho_bytes _ _ Hh)|done|].
    destruct (put_shown t 0 l _ _ _ _ _ Hs2) as (s3 & f3 & E3 & Hs3 & T3 & -> & F3); [lia..|].
    rewrite (ok_then _ _ _ _ _ E3), assert_done by apply Z.eqb_refl. exists s3. split; [done|].
    destruct (same_on_bus t _ _ _ T3 Hd2) as [Hd3 O3].
    assert (l <> []) as Hn by (intros ->; change (zlen []) with 0 in Hl; lia).
    unfold answered. destruct l as [|y l0] eqn:El; [done|]. rewrite <-El in *. split; [done|]. rewrite <-Hl in Hs3.
    apply (data_in_ready l _ d s3 Hs3); try done.
    + lia.
    + apply ztake_write_at. lia.
    + subst l. apply forall_slice, (ho_bytes _ _ Hh).
    + by destruct d.
    + apply (others_trans _ _ s0); [done|]. by eapply others_trans.
Qed.
(** READ and WRITE, up to the transfer. *)
Definition block_command (op L N : Z) : scsi I := set_tl N (set_lba L (set_lun 0 (set_opcode op s))).
Definition block_command10 (op L N : Z) : scsi I := set_tl N (set_lba L (set_opcode op s)).
Lemma block_issued s0 : devices s0 = devices s -> bus s0 = bus s -> reg s0 = reg s -> buf s0 = buf s -> ctl s0 = ctl s ->
  issued t c s0 /\ on_bus_at t d s0 /\ others t s s0.
Proof.
  intros E1 E2 E3 E4 E5. destruct Hi as [(g & bp & [[] ? ? ? ? ? ?] & Hg) ? ?]. split_and!.
  - split; try done. exists g, bp. split; [|done]. split; rewrite ?E2, ?E3, ?E4; try done. split; by rewrite ?E3, ?E5.
  - destruct Hd as [? ?]. split; [by rewrite E1|]. unfold device_at in *. by rewrite E1.
  - intros j _ _. unfold device_at. by rewrite E1.
Qed.
Lemma rw6_start write op L N : c = cdb6 op L N -> 0 <= L < 2 ^ 21 -> 0 < N <= 256 ->
  cmd_rw6 junk write (set_opcode op s) = transfer junk write (block_command op L N).
Proof.
  intros Ec HL HN. unfold cmd_rw6. destruct (opcode_issued op) as [Hi1 _]. rewrite !(issued_get t c) by (done || lia). run.
  rewrite Ec. to_nats. cbn [nth cdb6].
  assert (0 <= Z.shiftr L 16 < 32) as H1 by (rewrite Z.shiftr_div_pow2 by lia; dlia).
  assert (Z.shiftr (Z.shiftr L 16) 5 = 0) as H2 by (rewrite (Z.shiftr_div_pow2 _ 5) by lia; dlia).
  assert (u16 (Z.land (u8 N - 1) 0xFF + 1) = N) as H3.
  { change 0xFF with (Z.ones 8). rewrite Z.land_ones by lia. unfold u8, u16, wrap. dlia. }
  rewrite H2, (be21_value L HL), H3. change (Z.land 0 0x3 =? 0) with true. fold (block_command op L N).
  change (lun (cmd (block_command op L N)) =? 0) with true. cbn [negb orb].
  destruct (block_issued (block_command op L N)) as (Hi2 & Hd2 & _); [done..|]. destruct (issued_shows _ _ _ Hi2) as (b & Hsh & _).
  pose proof (ob_holds _ _ _ Hd2) as Hh. rewrite (proj2 (target_device _ _ _ _ Hsh Ht)), (ho_ro _ _ Hh), andb_false_r, (ho_bs _ _ Hh).
  change (tl (cmd (block_command op L N))) with N. assert (2 ^ 32 <= 2 ^ size_bits) by (apply Z.pow_le_mono_r; lia).
  rewrite (usize_small N), usize_small by lia. unfold BUF_LIMIT, BLOCK_SIZE. zprune. done.
Qed.
Lemma rw10_start write op L N : c = cdb10 op L N -> 0 <= L < 2 ^ 31 -> 0 < N < 2 ^ 16 ->
  cmd_rw10 junk write (set_opcode op s) = transfer junk write (block_command10 op L N).
Proof.
  intros Ec HL HN. unfold cmd_rw10. destruct (opcode_issued op) as [Hi1 _].
  assert (zlen c = 10) as H10 by by rewrite Ec.
  rewrite !(issued_get t c) by (done || (try by left; lia); right; lia). run.
  rewrite Ec. to_nats. cbn [nth cdb10 be32 app].
  rewrite (be32_value L), (be16_value N) by lia. assert (s32 (u32 L) = L) as HL2.
  { unfold s32, u32. rewrite sx_wrap by lia. unfold sx. rewrite wrap_small by (split; lia). zprune. done. }
  rewrite HL2. fold (block_command10 op L N).
  destruct (block_issued (block_command10 op L N)) as (Hi2 & Hd2 & _); [done..|]. destruct (issued_shows _ _ _ Hi2) as (b & Hsh & _).
  pose proof (ob_holds _ _ _ Hd2) as Hh. rewrite (proj2 (target_device _ _ _ _ Hsh Ht)), (ho_ro _ _ Hh), andb_false_r.
  change (tl (cmd (block_command10 op L N))) with N. zprune. done.
Qed.
Lemma write_done op L N s0 : issued t c s0 -> on_bus_at t d s0 -> others t s s0 -> opcode (cmd s0) = op -> lba (cmd s0) = L ->
  tl (cmd s0) = N -> 0 < N < 2 ^ 16 -> exists s', write_transfer junk s0 = Ok tt s' /\ at_data_out t op L N d s s'.
Proof.
  intros Hi0 Hd0 O0 Ho HL HN HN0. unfold write_transfer. run. destruct (issued_shows _ _ _ Hi0) as (b & Hsh & Hc).
  pose proof (ob_holds _ _ _ Hd0) as Hh. rewrite (proj2 (target_device _ _ _ _ Hsh Ht)), (ho_bs _ _ Hh), HN, Z.mul_comm.
  assert (2 ^ 32 <= 2 ^ size_bits) by (apply Z.pow_le_mono_r; lia).
  destruct (data_out_done junk (N * 512) s0 t b Hsh) as (s1 & f & E & Hs1 & T1 & F1 & F2); [lia|].
  destruct (same_on_bus t d _ _ T1 Hd0) as [Hd1 O1]. exists s1. split; [done|]. split; try done.
  - exists f, (bpos b). split_and!; [done|lia..].
  - destruct T1 as [_ ->]. done.
  - by apply (others_trans _ _ s0).
Qed.

(** Up to the handler of a command on blocks. *)
Lemma block_run op write : attention d = false -> nth 0 c 0 = op ->
  op = (if write : bool then CMD_WRITE else CMD_READ) \/ op = (if write then CMD_WRITE_10 else CMD_READ_10) ->
  run_cmd junk s = (if op <? 0x20 then cmd_rw6 junk write else cmd_rw10 junk write) (set_opcode op s).
Proof.
  intros Ha Hop Hw. start_command. rewrite Hop, (ho_ua _ _ (ob_holds _ _ _ Hd)), Ha. cbn [andb].
  destruct write, Hw as [-> | ->]; eval_tests; done.
Qed.
Lemma read_run op L N : attention d = false -> nth 0 c 0 = op ->
  op = CMD_READ /\ c = cdb6 op L N /\ 0 <= L < 2 ^ 21 /\ 0 < N <= 256 \/
  op = CMD_READ_10 /\ c = cdb10 op L N /\ 0 <= L < 2 ^ 31 /\ 0 < N < 2 ^ 16 /\ (L + N) * BLOCK_SIZE < 2 ^ size_bits ->
  exists s', run_cmd junk s = Ok tt s' /\ answered t (serve_read L N d) s s'.
Proof.
  intros Ha Hop Hw. assert (2 ^ 32 <= 2 ^ size_bits) by (apply Z.pow_le_mono_r; lia).
  destruct Hw as [(-> & Ec & HL & HN)|(-> & Ec & HL & HN & HB)]; rewrite (block_run _ false Ha Hop) by auto; small_opcode.
  - rewrite rw6_start with (L := L) (N := N) by done. destruct (block_issued (block_command CMD_READ L N)) as (Hi2 & Hd2 & O2); [done..|].
    apply (read_done L N); try done; unfold BLOCK_SIZE; lia.
  - rewrite rw10_start with (L := L) (N := N) by done. destruct (block_issued (block_command10 CMD_READ_10 L N)) as (Hi2 & Hd2 & O2); [done..|].
    apply (read_done L N); try done; unfold BLOCK_SIZE; lia.
Qed.
Lemma write_run op L N : attention d = false -> nth 0 c 0 = op ->
  op = CMD_WRITE /\ c = cdb6 op L N /\ 0 <= L < 2 ^ 21 /\ 0 < N <= 256 \/
  op = CMD_WRITE_10 /\ c = cdb10 op L N /\ 0 <= L < 2 ^ 31 /\ 0 < N < 2 ^ 16 ->
  exists s', run_cmd junk s = Ok tt s' /\ at_data_out t op L N d s s'.
Proof.
  intros Ha Hop Hw.
  destruct Hw as [(-> & Ec & HL & HN)|(-> & Ec & HL & HN)]; rewrite (block_run _ true Ha Hop) by auto; small_opcode.
  - rewrite rw6_start with (L := L) (N := N) by done. destruct (block_issued (block_command CMD_WRITE L N)) as (Hi2 & Hd2 & O2); [done..|].
    apply (write_done CMD_WRITE L N); try done; lia.
  - rewrite rw10_start with (L := L) (N := N) by done. destruct (block_issued (block_command10 CMD_WRITE_10 L N)) as (Hi2 & Hd2 & O2); [done..|].
    apply (write_done CMD_WRITE_10 L N); try done; lia.
Qed.
End Command.

(** The end of the data of a WRITE. *)
Lemma zlen_blocks_of l : zlen l mod BLOCK_SIZE = 0 -> blocks_of l * 512 = zlen l.
Proof. unfold blocks_of, BLOCK_SIZE. intros. pose proof (Z.div_mod (zlen l) 512). lia. Qed.
Lemma write_at_bytes f p l : 0 <= p -> p + zlen l <= zlen f -> byte_list f -> byte_list l -> byte_list (write_at f p l).
Proof.
  intros Hp Hl Hf Hb. unfold write_at. destruct (zlen l =? 0); [done|]. pose proof (zlen_nonneg l).
  unfold zeros. replace (Z.to_nat (p - zlen f)) with 0%nat by lia. cbn [replicate]. rewrite app_nil_r.
  unfold byte_list in *. rewrite !Forall_app. split_and!; [by apply Forall_take|done|by apply Forall_drop].
Qed.
Lemma clipped_write l o x : o + zlen x <= zlen l -> write_clipped l o x = write_at l o x.
Proof.
  intros Hx. unfold write_clipped. destruct (Z.ltb_spec o (zlen l)) as [Ho|Ho].
  - f_equal. unfold ztake. apply take_ge. unfold zlen in *. lia.
  - pose proof (zlen_nonneg x). unfold write_at. by destruct (Z.eqb_spec (zlen x) 0); [|lia].
Qed.
Lemma complete_done t d op L l f bp s : 0 <= t < 7 -> on_bus_at t d s ->
  shows s scsi_data_out t (mk_buffer (write_at f 0 l) (zlen l) (zlen l) bp) -> opcode (cmd s) = op -> lba (cmd s) = L -> tl (cmd s) = blocks_of l ->
  op = CMD_WRITE \/ op = CMD_WRITE_10 -> 0 <= L -> 0 < blocks_of l -> zlen l mod BLOCK_SIZE = 0 -> byte_list l ->
  L * BLOCK_SIZE + zlen l <= zlen (contents d) -> zlen l <= zlen f -> BUF_LIMIT <= zlen f -> exists s',
  command_complete s = Ok tt s' /\ at_status t STATUS_GOOD (set_contents (write_at (contents d) (L * BLOCK_SIZE) l) d) s s'.
Proof.
  intros Ht Hd Hsh Ho HL HN Hop HL0 HN0 Hmod Hby Hin Hlf Hf. pose proof (ob_holds _ _ _ Hd) as Hh. pose proof (zlen_blocks_of l Hmod) as HB.
  pose proof (ho_size _ _ Hh) as Hz. pose proof (zlen_nonneg l). unfold BLOCK_SIZE in *.
  unfold command_complete. run. rewrite (proj2 (target_device _ _ _ _ Hsh Ht)), (ho_bs _ _ Hh), (holds_size _ _ Hh), Ho, HL, HN.
  assert ((op =? CMD_WRITE) || (op =? CMD_WRITE_10) = true) as -> by (destruct Hop as [-> | ->]; done).
  rewrite (usize_small (blocks_of l)), (usize_small L), (usize_small (blocks_of l * 512)), (usize_small (L + blocks_of l)), (usize_small ((L + blocks_of l) * 512)), (usize_small (L * 512)) by lia.
  rewrite assert_then by (rewrite (sh_buf _ _ _ _ Hsh); by apply Z.eqb_eq). rewrite assert_then by (apply Z.leb_le; lia).
  destruct (ho_image _ _ Hh) as (i & Ei & Hok & Hib). rewrite Ei. run. rewrite (sh_buf _ _ _ _ Hsh). cbn [data].
  rewrite zlen_write_in, HB by lia. rewrite (proj2 (Z.ltb_ge (zlen f) (zlen l))) by done. rewrite ztake_write_at by done.
  assert (2 ^ size_bits <= 2 ^ 64) as H64 by (apply Z.pow_le_mono_r; lia).
  destruct (medium_write_ok i (L * 512) l Hok) as (i' & Ew & Hok' & Hib'); [lia|apply Z.mod_mul; lia|done|].
  rewrite Ew. rewrite Hib, clipped_write in Hib' by done.
  assert (zlen (write_at (contents d) (L * 512) l) = zlen (contents d)) as Hzw by (apply zlen_write_in; lia).
  destruct (image_updated t d Ht _ i' s s _ _ Hd ltac:(done) Hsh Hok' Hib') as (Hs2 & Hd2 & O2);
    [apply write_at_bytes; try done; [lia|apply (ho_bytes _ _ Hh)]|done|].
  erewrite ok_then by reflexivity. run. set (s2 := on_device _ _ s) in *.
  assert (shows (set_bmax 0 (set_bsize 0 s2)) scsi_data_out t (mk_buffer (write_at f 0 l) 0 0 bp)) as Hs3.
  { destruct Hs2 as [[] ? ? Eb ? ? ?]. split; try done. cbn [buf set_bmax set_bsize on_buf]. by rewrite Eb. }
  destruct (status_done STATUS_GOOD _ _ _ _ Hs3) as (s4 & E4 & Hs4 & C4 & T4); [by right; right; left|].
  destruct (same_on_bus t (set_contents (write_at (contents d) (L * 512) l) d) (set_bmax 0 (set_bsize 0 s2)) s4 T4) as [Hd4 O4]; [by destruct Hd2|].
  exists s4. split; [done|]. split; try done.
  - eexists. split; [done|]. cbn [data]. by rewrite zlen_write_in by lia.
  - by apply (others_trans _ _ s2).
Qed.

End Driver.
