(* ===== verification/ScsiDriverTheorems.v ===== *)
(** * A disk on the bus does what a disk does

    Whole commands, from arbitration to the message byte, and the theorem that any
    sequence of them has the answers of the abstract disk. *)
From S2P Require Import Prelude Stdio Image Scsi ScsiProofs ScsiDriver ScsiDriverProofs ScsiCommandProofs.

Section Bus.
Context {I : Type} `{!Medium I} `{!MediumLaws I} `{!Abi} `{!Build} (junk : Z -> Z) (pc : Z) (Hsize : 32 <= size_bits <= 64).
Context (t : Z) (Ht : 0 <= t < 7).
Implicit Types (s : scsi I).

(** ** What the command block of a request sets off *)
Definition executed (r : request) (d : drive) s s' : Prop :=
  match r with
  | Write6 L l | Write10 L l =>
      if attention d then answered t (serve r d) s s' else at_data_out t (nth 0 (cdb r) 0) L (blocks_of l) d s s'
  | _ => answered t (serve r d) s s'
  end.
Lemma command_attention r d s : issued t (cdb r) s -> on_bus_at t d s -> attention d = true -> r <> RequestSense -> exists s',
  run_cmd junk s = Ok tt s' /\ executed r d s s'.
Proof.
  intros Hi Hd Ha Hr. destruct (attention_done junk t (cdb r) d s Ht Hi Hd Ha) as (s' & E & H'); [by destruct r|].
  exists s'. split; [done|]. unfold executed, serve. rewrite Ha. by destruct r.
Qed.
Lemma command_done r d s : issued t (cdb r) s -> on_bus_at t d s -> request_ok (zlen (contents d)) r -> exists s',
  run_cmd junk s = Ok tt s' /\ executed r d s s'.
Proof.
  intros Hi Hd Hr. destruct (decide (r = RequestSense)) as [->|Hne].
  { destruct (request_sense_done junk Hsize t _ d s Ht Hi Hd eq_refl eq_refl) as (s' & E & H'). by exists s'. }
  destruct (attention d) eqn:Ha; [by apply command_attention|]. unfold executed, serve. rewrite Ha.
  destruct r as [| | |L N|L N|L l|L l]; try done; cbn [request_ok] in Hr.
  - exact (unit_ready_done junk t _ d s Ht Hi Hd Ha eq_refl).
  - destruct (capacity_done junk Hsize t _ d s Ht Hi Hd Ha eq_refl) as (s' & E & H'). by exists s'.
  - apply (read_run junk Hsize t _ d s Ht Hi Hd CMD_READ L N Ha eq_refl). left. tauto.
  - apply (read_run junk Hsize t _ d s Ht Hi Hd CMD_READ_10 L N Ha eq_refl). right. tauto.
  - apply (write_run junk Hsize t _ d s Ht Hi Hd CMD_WRITE L (blocks_of l) Ha eq_refl). left. tauto.
  - apply (write_run junk Hsize t _ d s Ht Hi Hd CMD_WRITE_10 L (blocks_of l) Ha eq_refl). right. tauto.
Qed.

(** ** From the status to the free bus *)
Lemma closing {A} (x : A) st d s s' : at_status t st d s s' -> exists s'',
  (st ← receive_byte junk pc; msg ← receive_byte junk pc; mret (x, st, msg)) s' = Ok (x, st, MSG_CMD_COMPLETE) s'' /\
  idle s'' /\ on_bus_at t d s'' /\ others t s s''.
Proof.
  intros [(b & Hsh & Hc) Hst Hd Ho]. destruct (receive_status junk pc s' t b Hsh) as (s1 & E1 & Hs1 & C1 & T1).
  destruct (receive_message junk pc s1 t b Hs1 Hc) as (s2 & E2 & I2 & _ & T2). exists s2.
  rewrite (ok_then _ _ _ _ _ E1), (ok_then _ _ _ _ _ E2), C1, Hst. split; [done|]. split; [done|].
  destruct (same_on_bus t d s' s2 (same_trans _ _ _ T1 T2) Hd) as [Hd2 O2]. split; [done|]. by apply (others_trans _ _ s').
Qed.

(** ** A whole command *)
Lemma six_bytes a b x y z e : byte_list [a; b; x; y; z; e] <-> 0 <= a < 256 /\ 0 <= b < 256 /\ 0 <= x < 256 /\ 0 <= y < 256 /\ 0 <= z < 256 /\ 0 <= e < 256.
Proof. unfold byte_list. rewrite !Forall_cons_iff. pose proof (Forall_nil (fun b => 0 <= b < 256)). tauto. Qed.
Lemma cdb6_bytes op L n : 0 <= op < 256 -> 0 <= L < 2 ^ 21 -> byte_list (cdb6 op L n).
Proof.
  intros Ho HL. unfold cdb6. rewrite six_bytes. pose proof (byte_u8 n). pose proof (byte_u8 L). pose proof (byte_u8 (Z.shiftr L 8)).
  rewrite Z.shiftr_div_pow2 by lia. split_and!; try lia; dlia.
Qed.
Lemma cdb10_bytes op L n : 0 <= op < 256 -> byte_list (cdb10 op L n).
Proof.
  intros Ho. unfold cdb10. pose proof (be32_bytes L) as HL. unfold byte_list in *. rewrite !Forall_app, !Forall_cons_iff.
  pose proof (byte_u8 n). pose proof (byte_u8 (Z.shiftr n 8)). pose proof (Forall_nil (fun b => 0 <= b < 256)). split_and!; done || lia.
Qed.
Lemma cdb_shape size r : request_ok size r -> byte_list (cdb r) /\ zlen (cdb r) = cmd_size (u8 (nth 0 (cdb r) 0)) /\ 6 <= zlen (cdb r) <= 10.
Proof.
  intros Hr. split; [|by destruct r].
  destruct r; cbn [request_ok] in Hr; [closed_bytes|closed_bytes|closed_bytes|apply cdb6_bytes|apply cdb10_bytes|apply cdb6_bytes|apply cdb10_bytes]; done || tauto.
Qed.
Lemma command_issued size r s : request_ok size r -> idle s -> is_Some (dev_image (device_at t s)) -> exists s',
  (select junk pc t;; send_bytes junk pc (cdb r)) s = run_cmd junk s' /\ issued t (cdb r) s' /\ devices s' = devices s.
Proof.
  intros Hr Hid Him. destruct (select_ok junk pc t s Hid Ht Him) as (s1 & E1 & Hs1 & D1).
  destruct (cdb_shape size r Hr) as (Hby & Hw & Hlen). pose proof (id_cap _ Hid) as Hcap. unfold BUF_LIMIT, BLOCK_SIZE in Hcap.
  destruct (send_list junk pc (cdb r) [] s1 scsi_command t (data (buf s)) MAX_CMD_SIZE (bpos (buf s))) as (s2 & E2 & Hs2 & D2 & _); try done.
  - by destruct r.
  - by left.
  - unfold MAX_CMD_SIZE. change (zlen []) with 0. lia.
  - unfold MAX_CMD_SIZE. lia.
  - exists s2. rewrite (ok_then _ _ _ _ _ E1), E2. split; [done|]. split; [|by rewrite D2]. split; [|done..].
    exists (data (buf s)), (bpos (buf s)). done.
Qed.

Lemma byte_list_u8 l : byte_list l -> u8 <$> l = l.
Proof. induction 1 as [|x l Hx _ IH]; [done|]. rewrite fmap_cons, IH. f_equal. by apply wrap_small. Qed.
(** The data phase, and what follows it. *)
Definition finishes (r : request) (a : (list Z * Z) * drive) s s0 : Prop := exists s',
  (p ← asked_phase;
   l ← (if p =? CSR_IO then receive_bytes junk pc (Z.to_nat (data_in_length r))
        else if p =? 0 then send_bytes junk pc (data_out r);; mret [] else mret []);
   st ← receive_byte junk pc; msg ← receive_byte junk pc; mret (l, st, msg)) s = Ok (a.1.1, a.1.2, MSG_CMD_COMPLETE) s' /\
  idle s' /\ on_bus_at t a.2 s' /\ others t s0 s'.
Lemma status_finishes r st d s0 s : at_status t st d s0 s -> finishes r (([], st), d) s s0.
Proof.
  intros Hs. destruct (as_shows _ _ _ _ _ Hs) as (b & Hsh & _). unfold finishes.
  rewrite (ok_then _ _ _ _ _ (phase_asked _ _ _ _ Hsh ltac:(done))). exact (closing (@nil Z) st d s0 s Hs).
Qed.
Lemma data_in_finishes r l d s0 s : at_data_in t l d s0 s -> data_in_length r = zlen l -> finishes r ((l, STATUS_GOOD), d) s s0.
Proof.
  intros [(f & Hsh & Hf & Hl) Hby Hne Hd Ho] Hn. pose proof (zlen_nonneg l). assert (0 < zlen l) by (destruct l; [done|]; rewrite zlen_cons; pose proof (zlen_nonneg l); lia).
  unfold finishes. rewrite (ok_then _ _ _ _ _ (phase_asked _ _ _ _ Hsh ltac:(cbn; lia))). change (lines scsi_data_in =? CSR_IO) with true. cbv iota.
  assert (zlen l <= zlen f) as Hlf by (rewrite <-Hl at 1; unfold zlen, ztake; rewrite length_take; lia).
  destruct (receive_list junk pc (Z.to_nat (zlen l)) s t f (zlen l) 0) as (s1 & E1 & T1 & Hs1 & C1); rewrite ?Z2Nat.id by lia; try done; try lia.
  rewrite Z2Nat.id in E1 by lia. change (zdrop 0 f) with f in E1. rewrite Hl in E1.
  rewrite Hn, (ok_then _ _ _ _ _ E1).
  rewrite (byte_list_u8 l Hby).
  destruct (same_on_bus t d s s1 T1 Hd) as [Hd1 O1]. apply (closing l STATUS_GOOD d s0 s1). split; try done.
  - by eexists.
  - by apply (others_trans _ _ s).
Qed.
Lemma finishes_status r x l st d s s0 s1 : send_bytes junk pc (data_out r) s = Ok tt s1 -> shows s scsi_data_out t x ->
  at_status t st d s s1 -> others t s0 s -> l = [] -> finishes r ((l, st), d) s s0.
Proof.
  intros Es Hsh H1 O0 ->. unfold finishes. rewrite (ok_then _ _ _ _ _ (phase_asked _ _ _ _ Hsh ltac:(done))).
  change (lines scsi_data_out =? CSR_IO) with false. change (lines scsi_data_out =? 0) with true. cbv iota.
  rewrite then_assoc, (ok_then _ _ _ _ _ Es). apply (closing (@nil Z) st d s0 s1). destruct H1. split; try done. by apply (others_trans _ _ s).
Qed.
Lemma data_out_finishes r op L l d s0 s : at_data_out t op L (blocks_of l) d s0 s -> data_out r = l -> op = CMD_WRITE \/ op = CMD_WRITE_10 ->
  0 <= L -> 0 < blocks_of l -> zlen l mod BLOCK_SIZE = 0 -> byte_list l -> L * BLOCK_SIZE + zlen l <= zlen (contents d) ->
  finishes r (serve_write L l d) s s0.
Proof.
  intros [(f & bp & Hsh & Hf & Hlf) (Ho & HL & HN) Hd O0] Hr Hop HL0 HN0 Hmod Hby Hin. rewrite zlen_blocks_of in Hsh, Hlf by done.
  destruct (send_list junk pc l [] s scsi_data_out t f (zlen l) bp) as (s1 & E1 & Hs1 & D1 & C1); try done; [by intros ->|by right|].
  cbn [finish] in E1. change ([] ++ l) with l in Hs1.
  assert (same_target s s1) as T1 by done. destruct (same_on_bus t d s s1 T1 Hd) as [Hd1 O1].
  destruct (complete_done Hsize t d op L l f bp s1 Ht Hd1 Hs1) as (s2 & E2 & H2); try congruence.
  apply (finishes_status r (mk_buffer f (zlen l) 0 bp) [] _ _ s s0 s2); rewrite ?Hr, ?E1; try done.
  destruct H2. split; try done. by apply (others_trans _ _ s1).
Qed.

Lemma serve_length r d : request_ok (zlen (contents d)) r -> forall l st d', serve r d = ((l, st), d') -> l <> [] -> data_in_length r = zlen l.
Proof.
  intros Hr l st d'. unfold serve, failed, serve_read, serve_write. destruct r as [| | |L N|L N|L x|L x], (attention d); cbn [request_ok] in Hr; try congruence.
  all: try by intros [= <- <- <-].
  all: destruct (Z.leb_spec ((L + N) * BLOCK_SIZE) (zlen (contents d))); [|unfold failed; congruence]; intros [= <- <- <-] _; cbn [data_in_length].
  all: unfold BLOCK_SIZE in *; rewrite zlen_slice; lia.
Qed.
Lemma executed_finishes r d s s0 : executed r d s0 s -> request_ok (zlen (contents d)) r -> finishes r (serve r d) s s0.
Proof.
  intros He Hr. unfold executed in He.
  assert (answered t (serve r d) s0 s -> (forall l st d', serve r d = ((l, st), d') -> l <> [] -> data_in_length r = zlen l) -> finishes r (serve r d) s s0) as Hans.
  { unfold answered. destruct (serve r d) as [[l st] d']. intros Ha Hl. destruct l as [|x l]; [by apply status_finishes|].
    destruct Ha as [-> Ha]. apply data_in_finishes; [done|]. by apply (Hl (x :: l) STATUS_GOOD d'). }
  pose proof (serve_length r d Hr) as Hlen.
  assert (attention d = true -> is_Some (data_out r !! 0%nat) -> exists d', serve r d = (([], STATUS_CHECK_CONDITION), d')) as Hatt.
  { unfold serve, failed. intros -> [x Hx]. destruct r; try done; by eexists. }
  destruct r as [| | |L N|L N|L l|L l]; try by apply Hans.
  all: destruct (attention d) eqn:Ha; [by apply Hans|]; cbn [request_ok] in Hr.
  all: replace (serve _ d) with (serve_write L l d) by (unfold serve; by rewrite Ha).
  - apply (data_out_finishes (Write6 L l) CMD_WRITE L l d s0 s He); tauto.
  - apply (data_out_finishes (Write10 L l) CMD_WRITE_10 L l d s0 s He); tauto.
Qed.

Lemma request_done r d s : idle s -> on_bus_at t d s -> request_ok (zlen (contents d)) r -> exists s',
  request_on_bus junk pc t r s = Ok (serve r d).1 s' /\ idle s' /\ on_bus_at t (serve r d).2 s' /\ others t s s'.
Proof.
  intros Hid Hd Hr. destruct (ho_image _ _ (ob_holds _ _ _ Hd)) as (i & Ei & _).
  destruct (command_issued _ r s Hr Hid ltac:(by exists i)) as (s1 & E1 & Hi1 & D1).
  assert (on_bus_at t d s1 /\ others t s s1) as [Hd1 O1].
  { destruct Hd. unfold others, device_at in *. rewrite D1. split; [|done]. split; [by rewrite D1|]. unfold device_at. by rewrite D1. }
  destruct (command_done r d s1 Hi1 Hd1 Hr) as (s2 & E2 & H2).
  destruct (executed_finishes r d s2 s1 H2 Hr) as (s3 & E3 & I3 & Hd3 & O3).
  exists s3. split_and!; try done; [|by apply (others_trans _ _ s1)].
  unfold request_on_bus. erewrite ok_then; [|unfold transact; rewrite <-then_assoc, (ok_then _ _ _ _ _ (eq_trans E1 E2)); exact E3].
  by destruct (serve r d).1.
Qed.

(** The requests fit the disk; writes do not change its size. *)
Lemma serve_size r d : request_ok (zlen (contents d)) r -> zlen (contents (serve r d).2) = zlen (contents d).
Proof.
  intros Hr. unfold serve, failed, serve_read, serve_write. destruct r as [| | |L N|L N|L x|L x], (attention d); cbn [request_ok] in Hr; try done.
  all: try by destruct (_ <=? _).
  all: unfold BLOCK_SIZE in *; cbn; apply zlen_write_in; lia.
Qed.

Lemma requests_done rs : forall d s, idle s -> on_bus_at t d s -> Forall (request_ok (zlen (contents d))) rs -> exists s',
  requests_on_bus junk pc t rs s = Ok (serve_all rs d).1 s' /\ idle s' /\ on_bus_at t (serve_all rs d).2 s' /\ others t s s'.
Proof.
  induction rs as [|r rs IH]; intros d s Hid Hd Hrs; [by exists s|]. inversion_clear Hrs as [|? ? Hr Hrest].
  destruct (request_done r d s Hid Hd Hr) as (s1 & E1 & I1 & Hd1 & O1). cbn [requests_on_bus serve_all].
  pose proof (serve_size r d Hr) as Hz. destruct (serve r d) as [a d1]. cbn [fst snd] in *.
  destruct (IH d1 s1 I1 Hd1) as (s2 & E2 & I2 & Hd2 & O2); [by rewrite Hz|]. destruct (serve_all rs d1) as [l d2].
  exists s2. rewrite (ok_then _ _ _ _ _ E1), (ok_then _ _ _ _ _ E2). split_and!; try done. by apply (others_trans _ _ s1).
Qed.

(** C17: the controller and its drive implement a disk.  Let the bus be idle
    (free, no DMA mode, no request or interrupt pending, not in loopback) and a
    sound medium be attached as a writable hard disk of 512-byte blocks at ID
    [t] below 7.  Then for every sequence of TEST UNIT READY, REQUEST SENSE, READ
    CAPACITY, READ and WRITE requests that are admissible ([request_ok]: READ(6)
    and WRITE(6) of 1 to 256 blocks at an address below 2^21, READ(10) and
    WRITE(10) of 1 to 65535 blocks at an address below 2^31; a write lies inside
    the disk; a READ(10) may lie outside the disk, as long as the end of its
    range in bytes fits size_t) a host that arbitrates, selects and handshakes
    byte by byte through the registers gets exactly the data and the status
    bytes of [serve_all]: the data last written, CHECK CONDITION and the sense
    data for a read outside the disk, the unit attention once.  No assertion
    fails, no access leaves the buffer, the bus is free again, the medium holds
    what the abstract disk holds, and no other drive is touched.  The requests
    left out misbehave: long_write_asserts (a write past the end fails an
    assertion) and far_read_succeeds (a READ(10) at block 2^32 - 1 returns zeros
    with status GOOD). *)
Theorem scsi_refines_drive rs d s : idle s -> on_bus_at t d s -> Forall (request_ok (zlen (contents d))) rs -> exists s',
  requests_on_bus junk pc t rs s = Ok (serve_all rs d).1 s' /\ idle s' /\ on_bus_at t (serve_all rs d).2 s' /\ others t s s'.
Proof. apply requests_done. Qed.
End Bus.
