(* ===== verification/ScsiImage.v ===== *)
(** * An image file on the SCSI bus

    The chain of a Macintosh hard disk: the commands of a host, the controller,
    the image, the delta storage and the host's file, put together.  The file is
    raw or has a DiskCopy 4.2 header. *)
From S2P Require Import Prelude Stdio Storage StorageProofs StorageOps Image ImageProofs.
From S2P Require Import Scsi ScsiProofs ScsiDriver ScsiDriverProofs ScsiCommandProofs ScsiDriverTheorems.

(** The bytes of the disk in a file. *)
Definition disk_bytes (f : list Z) : list Z :=
  match detect_diskcopy f with Some n => ztake n (zdrop DISKCOPY_HEADER_SIZE f) | None => f end.

Lemma concat_slices f o : forall n, 0 <= o -> o + 512 * Z.of_nat n <= zlen f ->
  concat ((fun i => ztake 512 (zdrop (o + i * 512) f)) <$> seqZ 0 (Z.of_nat n) : list (list Z)) = ztake (512 * Z.of_nat n) (zdrop o f).
Proof.
  induction n as [|n IH]; intros Ho Hn; [done|]. rewrite Nat2Z.inj_succ, <-Z.add_1_r in *.
  rewrite seqZ_app, fmap_app, concat_app, IH by lia. change (seqZ (0 + Z.of_nat n) 1) with [0 + Z.of_nat n].
  cbn [fmap list_fmap concat]. rewrite app_nil_r. replace (512 * (Z.of_nat n + 1)) with (512 * Z.of_nat n + 512) by lia.
  unfold ztake, zdrop. rewrite !Z2Nat.inj_add, <-take_take_drop, drop_drop by lia. f_equal. f_equal. f_equal. lia.
Qed.

Section Files.
Context `{!Abi} `{!AbiOk _}.

Lemma diskcopy_fits f n : byte_list f -> detect_diskcopy f = Some n -> 0 < n /\ n mod 512 = 0 /\ DISKCOPY_HEADER_SIZE + n <= zlen f.
Proof.
  intros Hf. unfold detect_diskcopy. destruct (_ <? _); [done|]. set (h := ztake _ f). destruct (negb _); [done|].
  assert (forall k, 0 <= read_be32 (zdrop k h)) as Hbe.
  { intros k. unfold read_be32. apply unle_range, Forall_rev, Forall_take, Forall_drop, Forall_take, Hf. }
  destruct (_ || _) eqn:E1; [done|]. destruct (_ <? _) eqn:E2; [done|]. intros [= <-].
  pose proof (Hbe 0x40). pose proof (Hbe 0x44). rewrite orb_false_iff, negb_false_iff, Z.eqb_neq, Z.eqb_eq in E1.
  unfold STORAGE_BLOCK_SIZE in *. rewrite Z.ltb_ge in E2. lia.
Qed.
Lemma disk_bytes_sizes f : byte_list f -> zlen f mod 512 = 0 \/ is_Some (detect_diskcopy f) ->
  let raw := default (zlen f) (detect_diskcopy f) in
  let off := if bool_decide (is_Some (detect_diskcopy f)) then DISKCOPY_HEADER_SIZE else 0 in
  raw mod 512 = 0 /\ 0 <= raw /\ 0 <= off /\ off + raw <= zlen f /\ disk_bytes f = ztake raw (zdrop off f) /\ zlen (disk_bytes f) = raw.
Proof.
  intros Hf Hd. unfold disk_bytes. destruct (detect_diskcopy f) as [n|] eqn:E; cbn.
  - destruct (diskcopy_fits f n Hf E) as (? & ? & ?). unfold DISKCOPY_HEADER_SIZE in *. split_and!; try done; try lia. apply zlen_slice; lia.
  - pose proof (zlen_nonneg f). destruct Hd as [Hd|[? ?]]; [|done]. assert (f = ztake (zlen f) (zdrop 0 f)) by (unfold ztake, zdrop, zlen; rewrite Nat2Z.id; symmetry; by apply take_ge).
    split_and!; try done; lia.
Qed.

(** ** Opening the file *)
Lemma tags_same f d : img_storage (image_load_diskcopy_tags f d) = img_storage d /\
  raw_size (image_load_diskcopy_tags f d) = raw_size d /\ img_block_size (image_load_diskcopy_tags f d) = img_block_size d.
Proof. unfold image_load_diskcopy_tags. destruct (_ <? _); [done|]. destruct (_ || _); [done|]. by destruct (read_at _ _ _). Qed.

Record fits_host (f : list Z) : Prop := {
  fh_bytes : byte_list f;
  fh_whole : zlen f mod 512 = 0 \/ is_Some (detect_diskcopy f);
  fh_some : 0 < zlen (disk_bytes f) < 2 ^ 41;
  fh_long : 2 * zlen f + 4096 <= 2 ^ (long_bits - 1);
}.
Lemma open_config f : fits_host f ->
  let raw := default (zlen f) (detect_diskcopy f) in
  let off := if bool_decide (is_Some (detect_diskcopy f)) then DISKCOPY_HEADER_SIZE else 0 in
  config_valid (mk_config (raw / 512) 512 off).
Proof.
  intros [Hf Hw Hs Hl] raw off. destruct (disk_bytes_sizes f Hf Hw) as (H1 & H2 & H3 & H4 & _ & H5). fold raw off in H1, H2, H3, H4, H5.
  rewrite H5 in Hs. clearbody raw off. split; cbn [cfg_block_size cfg_block_count cfg_base_data_offset]; unfold DELTA_HEADER_SIZE.
  - unfold config_ok. cbn [cfg_block_size cfg_block_count]. assert (0 < raw / 512 < 2 ^ 32) by dlia.
    rewrite (proj2 (Z.eqb_neq (raw / 512) 0)), (proj2 (Z.ltb_ge (2 ^ 32 - 1) (raw / 512))) by lia. done.
  - dlia.
  - lia.
  - dlia.
  - dlia.
Qed.
(** The blocks of a storage that is still empty are the base file's. *)
Lemma fresh_blocks s es f off n : storage_ok s es -> config_of s = mk_config n 512 off -> (fbytes <$> base_fp s) = Some f ->
  (forall l, content s l = base_block s l) -> 0 <= off -> 0 <= n -> off + n * 512 <= zlen f ->
  concat (blocks s) = ztake (n * 512) (zdrop off f).
Proof.
  intros Hok [= En Eb Eo] Hf Hc Ho Hn Hl. unfold blocks. rewrite En.
  assert (content s <$> seqZ 0 n = (fun i => ztake 512 (zdrop (off + i * 512) f)) <$> seqZ 0 n) as ->.
  { apply list_fmap_ext. intros k x Hk. apply lookup_seqZ in Hk as [-> Hk]. rewrite Hc. unfold base_block.
    destruct (base_fp s) as [F|]; [|done]. injection Hf as ->. rewrite Eo, Eb, read_at_in by lia. done. }
  rewrite <-(Z2Nat.id n) by lia. rewrite concat_slices by lia. f_equal. lia.
Qed.
Lemma image_opened h f : host_base h = Some f -> host_delta h = NoEntry -> host_can_create h = true -> host_journal h = Some [] -> fits_host f ->
  exists d, image_open_with_geometry 0 h [] = Some d /\ image_ok d /\ image_bytes d = disk_bytes f.
Proof.
  intros Hb Hd Hc Hj Hf. destruct (disk_bytes_sizes f (fh_bytes _ Hf) (fh_whole _ Hf)) as (H1 & H2 & H3 & H4 & -> & _).
  pose proof (open_config f Hf) as Hcv. unfold image_open_with_geometry, open_base, probe_base_image. rewrite Hb.
  change (geometry_block_size 0) with 512. rewrite (proj2 (Z.eqb_eq _ _) H1). cbn [negb mbind option_bind]. unfold image_attach_storage, image_config. rewrite Hb.
  cbn [raw_size img_block_size]. revert H1 H2 H3 H4 Hcv. generalize (default (zlen f) (detect_diskcopy f)), (bool_decide (is_Some (detect_diskcopy f))).
  intros raw dc H1 H2 H3 H4 Hcv. cbv zeta in Hcv.
  destruct (create_ok _ h Hcv Hd Hc Hj) as (s & -> & Hok & Ec & Ebase & Hcont). rewrite Hb in Ebase.
  eexists. split; [reflexivity|]. set (d0 := set_img_storage (Some s) _).
  set (d := if dc then _ else _). assert (img_storage d = Some s /\ raw_size d = raw /\ img_block_size d = 512) as (E1 & E2 & E3).
  { subst d. destruct dc; [|done]. by destruct (tags_same f d0) as (-> & -> & ->). }
  pose proof Ec as [= En Eb Eo]. split.
  - exists s. split; try done; [by exists []|]. rewrite E2, En. dlia.
  - unfold image_bytes. rewrite E1. rewrite (fresh_blocks s [] f _ _ Hok Ec Ebase); [f_equal; dlia|intros; apply Hcont|done|dlia|dlia].
Qed.
End Files.

(** ** The drive on the bus *)
Section Bus.
Context `{!Abi} `{!AbiOk _} `{!Build} (junk : Z -> Z) (pc : Z) (Hsize : 32 <= size_bits <= 64).

Definition hard_disk (t : Z) (vendor product : list Z) (rev : option (list Z)) (d : image) (w : wiring) : scsi image :=
  scsi_add_device t vendor product rev (Some d) scsi_dev_hd 512 false (scsi_init junk w).
Lemma hard_disk_idle t v p r d w : idle (hard_disk t v p r d w).
Proof. split; [done..|]. cbn [hard_disk scsi_add_device on_device on_devices buf scsi_init data]. rewrite zlen_new_bytes. unfold BUF_LIMIT, BLOCK_SIZE. lia. Qed.
Lemma disk_bytes_fit f : fits_host f -> byte_list (disk_bytes f) /\ zlen (disk_bytes f) < 2 ^ size_bits.
Proof.
  intros Hf. destruct (disk_bytes_sizes f (fh_bytes _ Hf) (fh_whole _ Hf)) as (_ & _ & H1 & H2 & E & Hz). split.
  - rewrite E. apply Forall_take, Forall_drop, (fh_bytes _ Hf).
  - pose proof (fh_long _ Hf). pose proof long_size. pose proof long_pos. assert (2 ^ (long_bits - 1) <= 2 ^ size_bits) by (apply Z.pow_le_mono_r; lia). lia.
Qed.
Lemma hard_disk_on_bus t v p r d w f : 0 <= t < 7 -> fits_host f -> image_ok d -> image_bytes d = disk_bytes f ->
  on_bus_at t (mk_drive (disk_bytes f) no_sense false) (hard_disk t v p r d w).
Proof.
  intros Ht Hf Hok Hb. destruct (disk_bytes_fit f Hf). split; [unfold hard_disk, scsi_add_device; cbn [on_device on_devices devices]; by rewrite length_alter|].
  unfold hard_disk, scsi_add_device. rewrite device_at_same by (cbn; lia). cbn [andb bool_decide].
  split; try done; [by exists d|by small_z t|closed_bytes].
Qed.

(** C3: from the file to the wire.  Let a raw file of whole 512-byte blocks or a
    DiskCopy file (not empty, below 2 TB, and such that twice its length plus a
    page fits the host's long) have no delta file yet and an empty journal, and
    let the host be able to create them and no transfer fail.  Then it is
    opened, attached as a hard disk to a fresh controller at an ID below 7, and
    every sequence of admissible requests (as in scsi_refines_drive: the counts
    and addresses that the commands have room for, READ(10) only of blocks below
    2^31 whose byte range does not wrap in size_t, and writes only inside the
    disk: outside of these, long_write_asserts and far_read_succeeds show what
    happens) that a host makes of it over the bus is answered as by a disk that
    holds the bytes of the file (without the DiskCopy header); writes go to the
    delta file, and at the end the image has the contents of that disk. *)
Theorem disk_file_served h f w t v p r rs : host_base h = Some f -> host_delta h = NoEntry -> host_can_create h = true ->
  host_journal h = Some [] -> fits_host f -> 0 <= t < 7 -> Forall (request_ok (zlen (disk_bytes f))) rs ->
  let '(answers, d') := serve_all rs (mk_drive (disk_bytes f) no_sense false) in
  exists d s', image_open_with_geometry 0 h [] = Some d /\
    requests_on_bus junk pc t rs (hard_disk t v p r d w) = Ok answers s' /\ idle s' /\
    exists i, dev_image (device_at t s') = Some i /\ image_bytes i = contents d'.
Proof.
  intros Hb Hd Hc Hj Hf Ht Hrs. destruct (image_opened h f Hb Hd Hc Hj Hf) as (d & E & Hok & Hbytes).
  destruct (requests_done junk pc Hsize t Ht rs _ _ (hard_disk_idle t v p r d w) (hard_disk_on_bus t v p r d w f Ht Hf Hok Hbytes) Hrs)
    as (s' & E' & Hi & Hon & _).
  destruct (serve_all rs _) as [answers d']. exists d, s'. split_and!; try done.
  destruct (ho_image _ _ (ob_holds _ _ _ Hon)) as (i & Ei & _ & Hi'). by exists i.
Qed.
End Bus.
