(* ===== verification/ScsiExamples.v ===== *)
(** * The SCSI bus on concrete inputs

    A medium in memory, witnesses of the theorems, and runs on which the
    controller departs from what its comments say. *)
From S2P Require Import Prelude Stdio Storage Image ImageProofs Scsi ScsiProofs.
From S2P Require Import ScsiDriver ScsiDriverProofs ScsiCommandProofs ScsiDriverTheorems ScsiImage.

#[local] Existing Instance lp64.

(** ** A medium that is an array of bytes *)
#[local] Instance flat : Medium (list Z) := {|
  medium_size := zlen;
  medium_read := fun off buf l => ((zlen buf, if zlen l <=? off then zeros (zlen buf) else read_padded l off (zlen buf)), l);
  medium_write := fun off buf l => (zlen buf, write_clipped l off buf);
|}.
Lemma zlen_clipped l off d : 0 <= off -> zlen (write_clipped l off d) = zlen l.
Proof.
  intros Ho. unfold write_clipped. destruct (Z.ltb_spec off (zlen l)); [|done].
  apply zlen_write_in; [done|]. rewrite zlen_ztake by lia. lia.
Qed.
#[local, program] Instance flat_laws : MediumLaws (list Z) := {|
  medium_ok := fun l => zlen l < 2 ^ 43 /\ zlen l mod 512 = 0;
  medium_bytes := fun l => l;
|}.
Next Obligation. done. Qed.
Next Obligation. by intros d []. Qed.
Next Obligation. by intros d []. Qed.
Next Obligation.
  intros d off buf Hok Ho Hm Hz. exists d. split; [|done]. cbn [medium_read flat]. destruct (Z.leb_spec (zlen d) off); [|reflexivity].
  unfold read_padded. assert (zdrop off d = []) as -> by (apply drop_ge; unfold zlen in *; lia).
  unfold ztake. rewrite take_nil. by rewrite Z.sub_0_r.
Qed.
Next Obligation.
  intros d off buf [H1 H2] Ho Hm Hz. exists (write_clipped d off buf). split; [done|]. split; [|done]. by rewrite zlen_clipped by lia.
Qed.

Definition block (x : Z) : list Z := replicate 512 x.
Definition two_blocks : list Z := block 0x11 ++ block 0x22.
Definition no_junk (i : Z) : Z := 0.
Definition wires_plus : wiring := mk_wiring true false true.

(** ** Builds with asserts *)
Section Debug.
#[local] Instance debug : Build := {| asserts := true |}.

(** A host selects drive 3 and reads a block by the DMA entry points; the medium
    is ejected and the chip reset in the middle. *)
Definition alias (v : Z) : @access (list Z) := WriteByte 0 0x200 v.
Definition reg_write (r v : Z) : @access (list Z) := WriteByte 0 (16 * r) v.
Definition selection : list (@access (list Z)) :=
  [Attach 3 [0x41] [0x42] None two_blocks scsi_dev_hd 512 false;
   reg_write 0 0x80; reg_write 2 0x01; reg_write 0 0x88; reg_write 1 (ICR_SEL + ICR_BSY + ICR_DB); reg_write 2 0;
   reg_write 1 (ICR_SEL + ICR_DB); reg_write 1 0].
Definition interrupted_read : list (@access (list Z)) :=
  selection ++ (alias <$> [CMD_READ; 0; 0; 1; 1; 0]) ++ [PopByte; PopByte; Eject 3; PopByte; ResetPin; PopByte].
Lemma scsi_safe_witness : Forall access_ok interrupted_read /\
  match run no_junk interrupted_read (scsi_init no_junk wires_plus) with
  | Ok vs s => zdrop 14 vs = [0x22; 0x22; 1; 0x22; 0; 0] /\ scsi_ok s
  | Stop why => False
  end.
Proof.
  assert (Forall access_ok interrupted_read) as Ha.
  { unfold interrupted_read, selection. repeat (apply list.Forall_cons; split; [done || (split; [done|]; split; [done|by left])|]). done. }
  split; [done|].
  pose proof (scsi_safe no_junk eq_refl ltac:(done) wires_plus interrupted_read Ha) as Hs.
  assert (match run no_junk interrupted_read (scsi_init no_junk wires_plus) with Ok vs _ => zdrop 14 vs = [0x22; 0x22; 1; 0x22; 0; 0] | Stop _ => False end) as Hv
    by (vm_compute; reflexivity).
  destruct (run _ _ _) as [vs s|why]; [by split|done].
Defined.

(** The guest reaches an assertion with one access. *)
Example dma_on_free_bus : run no_junk [reg_write 2 MR_DMA] (scsi_init no_junk wires_plus) = Stop Assertion.
Proof. vm_compute. reflexivity. Qed.
End Debug.

(** ** Transfers over the end of a disk *)
Definition at_phase (p : scsi_phase) (c : command) (b : buffer) : scsi (list Z) :=
  mk_scsi (mk_bus p scsi_bus_free 7 5) (mk_regs 0 0 0 0 0 0 0 0) c
    (replicate 5 blank_device ++ [set_dev_image (Some two_blocks) (set_dev_type scsi_dev_hd (set_dev_block_size 512 blank_device))])
    b wires_plus (ctl (@scsi_init (list Z) no_junk wires_plus)).
(** The last byte of a WRITE of two blocks at block 1, of two. *)
Definition long_write : scsi (list Z) :=
  at_phase scsi_data_out (mk_command CMD_WRITE 0 1 2) (mk_buffer (block 7 ++ block 8) 1024 1024 0).
(** READ(10) of one block at block 0xFFFFFFFF. *)
Definition far_read : scsi (list Z) :=
  at_phase scsi_command (mk_command 0 0 0 0) (mk_buffer (cdb10 CMD_READ_10 0xFFFFFFFF 1 ++ zeros 600) MAX_CMD_SIZE 10 0).
Section Ends.
#[local] Instance debug_ends : Build := {| asserts := true |}.
Example long_write_asserts : command_complete long_write = Stop Assertion.
Proof. vm_compute. reflexivity. Qed.
Example far_read_succeeds : match run_cmd no_junk far_read with
  | Ok _ s => phase (bus s) = scsi_data_in /\ ztake 512 (data (buf s)) = zeros 512
  | Stop _ => False end.
Proof. vm_compute. auto. Qed.
End Ends.
Section EndsReleased.
#[local] Instance release_ends : Build := {| asserts := false |}.
Example long_write_dropped : match command_complete long_write with
  | Ok _ s => phase (bus s) = scsi_status /\ cdr (reg s) = STATUS_GOOD /\ dev_image (device_at 5 s) = Some (block 0x11 ++ block 7)
  | Stop _ => False end.
Proof. vm_compute. auto. Qed.
End EndsReleased.

(** ** A session with a disk *)
Section Session.
#[local] Instance session_build : Build := {| asserts := true |}.
Definition drive0 : drive := mk_drive two_blocks no_sense true.
Definition drive0_device : device (list Z) :=
  set_unit_attention true (set_dev_image (Some two_blocks) (set_dev_type scsi_dev_hd (set_dev_block_size 512 blank_device))).
Definition bus0 : scsi (list Z) := on_device 5 (fun _ => drive0_device) (scsi_init no_junk wires_plus).
Definition requests0 : list request :=
  [TestUnitReady; RequestSense; Write10 1 (block 7); Read6 0 2; Read10 1 2; RequestSense; ReadCapacity].
Definition answers0 : list (list Z * Z) :=
  [([], 2); (sense_bytes (mk_sense 6 0x28 0), 0); ([], 0); (block 0x11 ++ block 7, 0); ([], 2);
   (sense_bytes (mk_sense 5 0x21 0), 0); ([0; 0; 0; 1; 0; 0; 2; 0], 0)].

Lemma bus0_idle : idle bus0.
Proof. split; [done..|]. cbn [bus0 on_device on_devices buf scsi_init data]. rewrite zlen_new_bytes. unfold BUF_LIMIT, BLOCK_SIZE. lia. Qed.
Lemma two_blocks_bytes : byte_list two_blocks.
Proof. unfold two_blocks. apply Forall_app. split; apply Forall_replicate; lia. Qed.
Lemma bus0_holds : on_bus_at 5 drive0 bus0.
Proof.
  split; [done|]. change (device_at 5 bus0) with drive0_device. split; try done; [by exists two_blocks|closed_bytes|apply two_blocks_bytes].
Qed.
Lemma requests0_ok size : 1024 <= size -> Forall (request_ok size) requests0.
Proof.
  intros Hs. unfold requests0. assert (zlen (block 7) = 512) as Hz by done. assert (byte_list (block 7)) by (apply Forall_replicate; lia).
  assert (blocks_of (block 7) = 1) as Hb by done.
  repeat (apply list.Forall_cons; split; [cbn [request_ok]; rewrite ?Hb, ?Hz; unfold BLOCK_SIZE; change size_bits with 64; done || (split_and!; done || lia)|]).
  done.
Qed.
Lemma scsi_refines_drive_witness : Forall (request_ok 1024) requests0 /\ exists s',
  requests_on_bus no_junk 0 5 requests0 bus0 = Ok answers0 s' /\ idle s' /\
  on_bus_at 5 (mk_drive (block 0x11 ++ block 7) no_sense false) s' /\ others 5 bus0 s'.
Proof.
  split; [by apply requests0_ok|].
  destruct (scsi_refines_drive no_junk 0 ltac:(done) 5 ltac:(done) requests0 drive0 bus0 bus0_idle bus0_holds) as (s' & E & H'); [by apply requests0_ok|].
  assert (serve_all requests0 drive0 = (answers0, mk_drive (block 0x11 ++ block 7) no_sense false)) as Es by (vm_compute; reflexivity).
  rewrite Es in E, H'. exists s'. exact (conj E H').
Defined.

(** The same from a file on the host, here with a DiskCopy header. *)
Definition diskcopy_file : list Z :=
  zeros 0x40 ++ be32 1024 ++ be32 0 ++ zeros 10 ++ [0x01; 0x00] ++ two_blocks.
Definition file_host : host_files := mk_host (Some diskcopy_file) NoEntry true (Some []).
Lemma diskcopy_fits_host : fits_host diskcopy_file.
Proof.
  split; [closed_bytes|by right; eexists; vm_compute|..]; vm_compute; repeat (split || intros ?); congruence.
Qed.
Lemma disk_file_served_witness : fits_host diskcopy_file /\ exists d s',
  image_open_with_geometry 0 file_host [] = Some d /\
  requests_on_bus no_junk 0 2 (tail requests0) (hard_disk no_junk 2 [0x41] [0x42] None d wires_plus) =
    Ok ((sense_bytes no_sense, 0) :: drop 2 answers0) s' /\ idle s' /\
  exists i, dev_image (device_at 2 s') = Some i /\ image_bytes i = block 0x11 ++ block 7.
Proof.
  split; [apply diskcopy_fits_host|].
  assert (Forall (request_ok (zlen (disk_bytes diskcopy_file))) (tail requests0)) as Hr.
  { assert (zlen (disk_bytes diskcopy_file) = 1024) as -> by (vm_compute; reflexivity). pose proof (requests0_ok 1024 ltac:(lia)) as Hr. by inversion Hr. }
  pose proof (disk_file_served no_junk 0 ltac:(done) file_host diskcopy_file wires_plus 2 [0x41] [0x42] None (tail requests0)
    eq_refl eq_refl eq_refl eq_refl diskcopy_fits_host ltac:(done) Hr) as Hw.
  assert (serve_all (tail requests0) (mk_drive (disk_bytes diskcopy_file) no_sense false) =
    ((sense_bytes no_sense, 0) :: drop 2 answers0, mk_drive (block 0x11 ++ block 7) no_sense false)) as Es by (vm_compute; reflexivity).
  rewrite Es in Hw. exact Hw.
Defined.
End Session.

(** ** Builds without asserts *)
Section Release.
#[local] Instance release : Build := {| asserts := false |}.

(** A command phase that has more bytes than a command. *)
Record flooded (s : scsi (list Z)) : Prop := {
  fl_loop : loopback (ctl s) = false;
  fl_dma : bit (mr (reg s)) MR_DMA = false;
  fl_phase : phase (bus s) = scsi_command;
  fl_size : 10 < bsize (buf s);
}.
Lemma flood_step v s : flooded s -> bsize (buf s) <= zlen (data (buf s)) ->
  if bsize (buf s) =? zlen (data (buf s)) then write_uint8 no_junk 0 0x200 v s = Stop OutOfBounds
  else exists s', write_uint8 no_junk 0 0x200 v s = Ok tt s' /\ flooded s' /\
    bsize (buf s') = bsize (buf s) + 1 /\ zlen (data (buf s')) = zlen (data (buf s)).
Proof.
  intros [Hl Hd Hp Hs] Hb. unfold write_uint8. rewrite put_then, Hl. change (register_of 0x200) with 0. change (bit 0x200 SCSI_PDMA_SEL) with true.
  change (bit 0x200 SCSI_BLIND_SEL) with false. cbn [Z.eqb]. unfold scsi_odr_auto_handshake_byte. rewrite put_then, ask_then. unfold id.
  set (s1 := set_odr v s). change (in_phases [scsi_data_out; scsi_command] s1) with (in_phases [scsi_data_out; scsi_command] s).
  assert (in_phases [scsi_data_out; scsi_command] s = true) as -> by (unfold in_phases; rewrite Hp; done).
  change (mr (reg s1)) with (mr (reg s)). rewrite Hd. cbn [negb andb]. rewrite ret_then. cbn [if_].
  assert (append_byte v s1 = (put_data (bsize (buf s)) [v];; put (set_bsize (bsize (buf s) + 1))) s1) as Ea by done.
  destruct (Z.eqb_spec (bsize (buf s)) (zlen (data (buf s)))) as [E|E].
  - assert (append_byte v s1 = Stop OutOfBounds) as Ho.
    { rewrite Ea. unfold mbind, chip_bind, put_data. change (data (buf s1)) with (data (buf s)). rewrite E, zlen_one.
      pose proof (zlen_nonneg (data (buf s))). zprune. done. }
    unfold mbind, chip_bind. by rewrite Ho.
  - rewrite put_data_then in Ea by (change (data (buf s1)) with (data (buf s)); rewrite ?zlen_one; lia).
    set (s2 := set_data _ s1) in Ea. assert (zlen (data (buf s2)) = zlen (data (buf s))) as Hz.
    { apply zlen_write_in; [lia|]. change (data (buf s1)) with (data (buf s)). rewrite zlen_one. lia. }
    exists (set_bsize (bsize (buf s) + 1) s2). rewrite (ok_then _ _ _ _ _ Ea), ask_then, ask_then.
    change (in_phase scsi_command (set_bsize (bsize (buf s) + 1) s2)) with (in_phase scsi_command s).
    assert (in_phase scsi_command s = true) as -> by (apply bool_decide_eq_true; done).
    rewrite get_then by (change (data (buf (set_bsize (bsize (buf s) + 1) s2))) with (data (buf s2)); lia).
    change (bsize (buf (set_bsize (bsize (buf s) + 1) s2))) with (bsize (buf s) + 1).
    rewrite (proj2 (Z.eqb_neq (bsize (buf s) + 1) _)) by (unfold cmd_size; destruct (_ <? _); lia).
    split; [done|]. split; [|done]. split; try done. cbn. lia.
Qed.
Lemma run_app_stop l l' s vs s' w : run no_junk l s = Ok vs s' -> run no_junk l' s' = Stop w -> run no_junk (l ++ l') s = Stop w.
Proof.
  revert s vs. induction l as [|a l IH]; intros s vs E E'; [by injection E as <- ->|]. cbn [app run] in *. unfold mbind, chip_bind in *.
  destruct (perform no_junk a s) as [v s1|]; [|done]. destruct (run no_junk l s1) as [vs' s2|] eqn:E1; [|done]. injection E as <- ->.
  by rewrite (IH s1 vs' E1 E').
Qed.
Lemma flood_ends n : forall s, flooded s -> bsize (buf s) + Z.of_nat n = zlen (data (buf s)) ->
  run no_junk (replicate (S n) (alias 0)) s = Stop OutOfBounds.
Proof.
  induction n as [|n IH]; intros s Hf Hn; pose proof (flood_step 0 s Hf ltac:(lia)) as Hw.
  - rewrite Z.add_0_r in Hn. rewrite Hn, Z.eqb_refl in Hw. cbn [replicate run perform alias]. unfold mbind, chip_bind. by rewrite Hw.
  - rewrite (proj2 (Z.eqb_neq (bsize (buf s)) (zlen (data (buf s))))) in Hw by lia. destruct Hw as (s' & E & Hf' & H1 & H2).
    change (replicate (S (S n)) (alias 0)) with ([alias 0] ++ replicate (S n) (alias 0)).
    apply (run_app_stop _ _ _ [0] s'); [|apply IH; [done|lia]]. cbn [run perform alias]. by rewrite then_assoc, (ok_then _ _ _ _ _ E).
Qed.

(** In a build without asserts the guest can write past the staging buffer: a
    command phase in which a byte arrives by the handshake of ICR just when the
    command is complete, and more by the pseudo-DMA window, never reaches the
    test for equality again, and nothing else bounds the index. *)
Definition flood : list (@access (list Z)) :=
  selection ++ (alias <$> [0; 0; 0; 0; 0]) ++ [reg_write 0 0; reg_write 1 (ICR_ACK + ICR_DB)] ++ replicate 6 (alias 0).
Lemma flood_accesses n : Forall access_ok (flood ++ replicate n (alias 0)).
Proof.
  apply Forall_app. split; [|by apply Forall_replicate]. unfold flood, selection.
  apply list.Forall_cons. split; [split; [done|]; split; [done|by left]|]. by repeat (apply list.Forall_cons; split; [done|]).
Qed.
Example release_overflow : exists l, Forall access_ok l /\ run no_junk l (scsi_init no_junk wires_plus) = Stop OutOfBounds.
Proof.
  assert (match run no_junk flood (scsi_init no_junk wires_plus) with
    | Ok _ s => loopback (ctl s) = false /\ bit (mr (reg s)) MR_DMA = false /\ phase (bus s) = scsi_command /\ bsize (buf s) = 12 /\
        zlen (data (buf s)) = 131072
    | Stop _ => False end) as Hs by (vm_compute; auto).
  destruct (run no_junk flood (scsi_init no_junk wires_plus)) as [vs s|] eqn:E; [|exact (False_ind _ Hs)]. destruct Hs as (H1 & H2 & H3 & H4 & H5).
  destruct (Z_of_nat_complete 131060 ltac:(lia)) as [n Hn].
  exists (flood ++ replicate (S n) (alias 0)). split; [apply flood_accesses|].
  apply (run_app_stop _ _ _ vs s _ E), flood_ends; [split; [exact H1|exact H2|exact H3|lia]|]. rewrite H4, H5. lia.
Qed.
End Release.
