(* ===== verification/FormatsTheorems.v ===== *)
(** * Host files: what opening them promises

    Resource forks and NDIF block maps as their formats lay them out byte by
    byte, the expansion of NDIF images, the theorems about the format parsers,
    their witnesses, and inputs on which the code does not do what it means
    to. *)
From stdpp Require Import strings.
From S2P Require Import Prelude Stdio Rle StorageProofs Image ScsiExamples Formats Resources FormatsProofs ResourcesProofs DonnBits.
Open Scope Z_scope.

(** ** Resource forks as Inside Macintosh lays them out

    [holds l o d]: the bytes [d] stand at [o] in [l]. *)
Definition holds (l : list Z) (o : Z) (d : list Z) : Prop := exists pre post, l = pre ++ d ++ post /\ o = zlen pre.

Lemma holds_window l o d n : holds l o d -> n = zlen d -> window l o n = Ok d.
Proof. intros (pre & post & -> & ->) ->. unfold window. by rewrite read_at_app. Qed.
Lemma holds_range l o d : holds l o d -> 0 <= o /\ o + zlen d <= zlen l.
Proof. intros (pre & post & -> & ->). rewrite !zlen_app. pose proof (zlen_nonneg pre). pose proof (zlen_nonneg post). lia. Qed.
Lemma holds_app l o a b : holds l o (a ++ b) -> holds l o a /\ holds l (o + zlen a) b.
Proof.
  intros (pre & post & -> & ->). split.
  - exists pre, (b ++ post). by rewrite <-app_assoc.
  - exists (pre ++ a), post. rewrite zlen_app. by rewrite <-!app_assoc.
Qed.
Lemma holds_inside l o n p d : holds l (o + p) d -> 0 <= o -> 0 <= p -> p + zlen d <= n ->
  holds (ztake n (zdrop o l)) p d.
Proof.
  intros (pre & post & -> & E) Ho Hp Hn. exists (zdrop o pre), (ztake (n - p - zlen d) post).
  pose proof (zlen_nonneg d). unfold ztake, zdrop, zlen in *. rewrite length_drop. split; [|lia].
  rewrite drop_app_le by lia. rewrite take_app, length_drop, take_ge by (rewrite length_drop; lia). f_equal.
  rewrite take_app, take_ge by lia. do 2 f_equal. lia.
Qed.
Lemma holds_rd32 l o v : holds l o (be 4 v) -> in_width 32 v -> rd32 l o = Ok v.
Proof. intros H Hv. unfold rd32. rewrite (holds_window _ _ (be 4 v)) by (done || by rewrite zlen_be). cbn [mbind out_bind]. by rewrite unbe_be. Qed.
Lemma holds_rd16 l o v : holds l o (be 2 v) -> in_width 16 v -> rd16 l o = Ok v.
Proof. intros H Hv. unfold rd16. rewrite (holds_window _ _ (be 2 v)) by (done || by rewrite zlen_be). cbn [mbind out_bind]. by rewrite unbe_be. Qed.
Lemma holds_byte l o b : holds l o [b] -> byte_at l o = Ok b.
Proof.
  intros (pre & post & -> & ->). unfold byte_at. pose proof (zlen_nonneg pre). destruct (Z.ltb_spec (zlen pre) 0); [lia|].
  rewrite lookup_app_r by (unfold zlen; lia). unfold zlen. by rewrite Nat2Z.id, Nat.sub_diag.
Qed.

(** A resource: id, attributes, bytes. *)
Record resource := mk_res { res_id : Z; res_attrs : Z; res_data : list Z }.

(** An entry of a reference list at [re] of the map, with its name (an offset
    with the sign bit is no name) and its data. *)
Record resource_at (map data : list Z) (names re : Z) (r : resource) : Prop := {
  ra_id : -32768 <= res_id r < 32768;
  ra_attrs : 0 <= res_attrs r < 256 /\ Z.testbit (res_attrs r) 0 = false;
  ra_entry : exists name_off off handle, holds map re (be 2 (u16 (res_id r)) ++ be 2 name_off ++ [res_attrs r] ++ be 3 off ++ handle) /\
    zlen handle = 4 /\ 0 <= name_off < 65536 /\ 0 <= off < 2 ^ 24 /\
    (name_off < 32768 -> exists n name, holds map (names + name_off) (n :: name) /\ n = zlen name) /\
    holds data off (be 4 (zlen (res_data r)) ++ res_data r) /\ zlen (res_data r) < 2 ^ 32;
}.
(** An entry of the type list at [te], and its reference list. *)
Record type_at (map data : list Z) (type_list names te : Z) (t : list Z * list resource) : Prop := {
  ta_entry : exists refs, holds map te (t.1 ++ be 2 (zlen t.2 - 1) ++ be 2 refs) /\ zlen t.1 = 4 /\
    0 <= refs < 65536 /\ type_list + refs + 12 * zlen t.2 <= zlen map /\
    forall i r, t.2 !! i = Some r -> resource_at map data names (type_list + refs + 12 * Z.of_nat i) r;
  ta_count : 0 < zlen t.2 <= 65536;
}.
(** The header, the data area and the map.  No resource is compressed. *)
Record fork_of (ts : list (list Z * list resource)) (fork : list Z) : Prop := {
  fo_layout : exists data_off map_off data_len map_len attrs type_list names,
    holds fork 0 (be 4 data_off ++ be 4 map_off ++ be 4 data_len ++ be 4 map_len) /\
    Forall (in_width 32) [data_off; map_off; data_len; map_len] /\ 30 <= map_len /\
    data_off + data_len <= zlen fork /\ map_off + map_len <= zlen fork /\
    (let data := ztake data_len (zdrop data_off fork) in
     let map := ztake map_len (zdrop map_off fork) in
     holds map 22 (be 2 attrs ++ be 2 type_list ++ be 2 names) /\ Forall (in_width 16) [attrs; type_list; names] /\
     names <= map_len /\ holds map type_list (be 2 (u16 (zlen ts - 1))) /\
     type_list + 2 + 8 * zlen ts <= map_len /\
     forall i t, ts !! i = Some t -> type_at map data type_list names (type_list + 2 + 8 * Z.of_nat i) t);
  fo_count : zlen ts <= 65535;
  fo_small : is_byte_list fork;
}.

(** What the parser makes of a resource and of a type. *)
Definition parsed_as (x : rfork_resource) (r : resource) : Prop :=
  rs_id x = res_id r /\ rs_bytes x = res_data r /\ rs_attrs x = res_attrs r /\ rs_inflated x = None.
Definition type_as (x : rfork_type) (t : list Z * list resource) : Prop :=
  cc x = t.1 /\ Forall2 parsed_as (resources x) t.2.

(** A loop that parses one element at a time. *)
Lemma for_collect {A B} (P : A -> B -> Prop) (body : Z -> out A) (l : list B) : forall (start : Z) (acc : list A) (l0 : list B),
  Forall2 P acc l0 -> (forall i b, l !! i = Some b -> exists a, body (start + Z.of_nat i) = Ok a /\ P a b) ->
  exists xs, for_ (length l) start (fun i acc => x ← body i; Ok (acc ++ [x])) acc = Ok xs /\ Forall2 P xs (l0 ++ l).
Proof.
  induction l as [|b l IH]; intros start acc l0 Hacc Hb.
  { exists acc. by rewrite app_nil_r. }
  destruct (Hb 0%nat b eq_refl) as (a & E & Ha). rewrite Z.add_0_r in E. cbn [length for_]. rewrite E. cbn [mbind out_bind].
  destruct (IH (start + 1) (acc ++ [a]) (l0 ++ [b])) as (xs & -> & Hxs).
  - apply Forall2_app; [done|by constructor].
  - intros i b' Hi. destruct (Hb (S i) b' Hi) as (a' & E' & Ha'). exists a'.
    by replace (start + 1 + Z.of_nat i) with (start + Z.of_nat (S i)) by lia.
  - exists xs. split; [done|]. by rewrite <-app_assoc in Hxs.
Qed.

Section Forks.
Context `{!Abi} `{!AbiOk _} (Hsz : 33 <= size_bits).
Lemma read_name_at map names off : is_byte_list map -> 0 <= names < 65536 -> 0 <= off < 65536 ->
  (off < 32768 -> exists n name, holds map (names + off) (n :: name) /\ n = zlen name) ->
  exists s, read_name map names (s16 off) 64 = Ok s.
Proof.
  intros Hm Hn Ho Hname. unfold read_name. destruct (Z.ltb_spec (s16 off) 0) as [|Hs]; [by eexists|].
  assert (off < 32768 /\ u16 (s16 off) = off) as [Hlt Eu].
  { clear -Ho Hs. unfold s16, sx, u16 in *. assert (wrap 16 off = off) as E by (apply wrap_small; by unfold in_width).
    rewrite E in *. change (2 ^ (16 - 1)) with 32768 in *. change (2 ^ 16) with 65536 in *. destruct (Z.ltb_spec off 32768); [by rewrite E|lia]. }
  destruct (Hname Hlt) as (n & name & Hh & ->). pose proof (holds_range _ _ _ Hh) as [_ Hr]. rewrite zlen_cons in Hr.
  pose proof (zlen_nonneg name). apply (holds_app _ _ [zlen name] name) in Hh as [Hh1 Hh2]. change (zlen [zlen name]) with 1 in Hh2.
  cbv zeta. rewrite Eu, usize_33 by lia. destruct (Z.leb_spec (zlen map) (names + off)); [lia|]. cbn [refuse mbind out_bind].
  rewrite (holds_byte _ _ _ Hh1). cbn [mbind out_bind].
  assert (zlen name < 256) as Hz.
  { destruct Hh1 as (pre & post & -> & _). unfold is_byte_list in Hm. rewrite !Forall_app in Hm. destruct Hm as (_ & Hm & _). inversion_clear Hm. lia. }
  rewrite usize_33 by lia. destruct (Z.ltb_spec (zlen map) (names + off + 1 + zlen name)); [lia|]. cbn [refuse mbind out_bind].
  rewrite (holds_window _ _ _ _ Hh2) by done. cbn [mbind out_bind].
  assert (is_byte_list name) as Hb.
  { destruct Hh2 as (pre & post & -> & _). unfold is_byte_list in *. rewrite !Forall_app in Hm. tauto. }
  pose proof (macroman_safe name 64 Hb ltac:(lia)) as Hs'. destruct (macroman_to_utf8 name 64); [by eexists|done..].
Qed.
Lemma s16_small x : -32768 <= x < 32768 -> sx 16 x = x.
Proof.
  intros Hx. unfold sx, wrap. change (2 ^ 16) with 65536. change (2 ^ (16 - 1)) with 32768. zprune; dlia.
Qed.
Lemma parse_ref_at map data names re r : is_byte_list map -> 0 <= names < 65536 ->
  resource_at map data names re r -> exists x, parse_ref map data names re = Ok x /\ parsed_as x r.
Proof.
  intros Hm Hn [Hid [Hat Hbit] (name_off & off & handle & Hh & Hhl & Hno & Ho & Hname & Hd & Hdl)].
  apply holds_app in Hh as [H1 Hh]. rewrite zlen_be in Hh. apply holds_app in Hh as [H2 Hh]. rewrite zlen_be in Hh.
  apply holds_app in Hh as [H3 Hh]. apply holds_app in Hh as [H4 _]. change (zlen [res_attrs r]) with 1 in H4.
  change (Z.of_nat 2) with 2 in *. replace (re + 2 + 2) with (re + 4) in * by lia. replace (re + 4 + 1) with (re + 5) in H4 by lia.
  unfold parse_ref. rewrite (holds_rd16 _ _ _ H1) by apply u16_range. cbn [mbind out_bind].
  rewrite (holds_rd16 _ _ _ H2) by done. cbn [mbind out_bind]. rewrite (holds_byte _ _ _ H3). cbn [mbind out_bind].
  rewrite (holds_window _ _ _ 3 H4) by (by rewrite zlen_be). cbn [mbind out_bind]. rewrite unbe_be by done. cbv zeta.
  pose proof (holds_range _ _ _ Hd) as [_ Hr]. rewrite zlen_app, zlen_be in Hr. pose proof (zlen_nonneg (res_data r)).
  change (2 ^ 24) with 16777216 in *. change (2 ^ 32) with 4294967296 in *. change (Z.of_nat 4) with 4 in *.
  apply holds_app in Hd as [D1 D2]. rewrite zlen_be in D2. change (Z.of_nat 4) with 4 in *.
  rewrite !usize_33 by lia. destruct (Z.ltb_spec (zlen data) (off + 4)); [lia|]. cbn [refuse mbind out_bind].
  rewrite (holds_rd32 _ _ _ D1) by (unfold in_width; pow2; lia). cbn [mbind out_bind]. rewrite usize_33 by lia.
  destruct (Z.ltb_spec (zlen data) (off + 4 + zlen (res_data r))); [lia|]. cbn [refuse mbind out_bind].
  rewrite (holds_window _ _ _ _ D2) by done. cbn [mbind out_bind].
  destruct (read_name_at map names name_off Hm Hn Hno Hname) as [s ->]. cbn [or_else mbind out_bind].
  assert (truthy (Z.land (res_attrs r) RFORK_ATTR_COMPRESSED) = false) as E.
  { unfold RFORK_ATTR_COMPRESSED. by rewrite truthy_land_1. }
  unfold inflate. rewrite E. cbn [mbind out_bind]. eexists. split; [done|]. split; [|done]. cbn.
  unfold s16, u16. rewrite sx_wrap by lia. by apply s16_small.
Qed.
Lemma parse_type_at map data type_list names te t : is_byte_list map -> 0 <= names < 65536 ->
  type_at map data type_list names te t ->
  exists x, parse_type map data type_list names te = Ok x /\ type_as x t.
Proof.
  intros Hm Hn [(refs & Hh & Hcc & Hrefs & Hfit & Hrs) Hc].
  apply holds_app in Hh as [H1 Hh]. rewrite Hcc in Hh. apply holds_app in Hh as [H2 H3]. rewrite zlen_be in H3.
  replace (te + 4 + Z.of_nat 2) with (te + 6) in H3 by lia.
  unfold parse_type. rewrite (holds_window _ _ _ 4 H1) by done. cbn [mbind out_bind].
  rewrite (holds_rd16 _ _ _ H2) by (unfold in_width; pow2; lia). cbn [mbind out_bind].
  rewrite (holds_rd16 _ _ _ H3) by done. cbn [mbind out_bind]. cbv zeta. replace (zlen t.2 - 1 + 1) with (zlen t.2) by lia.
  destruct (Z.ltb_spec (zlen map) (type_list + refs + 12 * zlen t.2)); [lia|]. cbn [refuse mbind out_bind].
  assert (Z.to_nat (zlen t.2) = length t.2) as -> by (unfold zlen; lia).
  destruct (for_collect parsed_as (fun r => parse_ref map data names (type_list + refs + 12 * r)) t.2 0 [] [])
    as (xs & E & Hxs); [constructor| |].
  - intros i r Hi. rewrite Z.add_0_l. apply parse_ref_at; [done..|]. by apply Hrs.
  - rewrite E. cbn [mbind out_bind]. by eexists.
Qed.

(** The parser finds the types and resources of the fork, in order. *)
Lemma rfork_parse_of ts fork : fork_of ts fork -> exists rf, rfork_parse fork = Ok rf /\ Forall2 type_as (types rf) ts.
Proof.
  intros [(d & m & dl & ml & attrs & tl & nl & Hh & Hw & Hml & Hd & Hmm & Hmap) Hcount Hb].
  cbv zeta in Hmap. set (data := ztake dl (zdrop d fork)) in *. set (map := ztake ml (zdrop m fork)) in *.
  destruct Hmap as (Hm22 & Hw16 & Hnl & Htl & Hfit & Hts).
  rewrite !List.Forall_cons_iff in Hw. rewrite !List.Forall_cons_iff in Hw16. destruct Hw as (? & ? & ? & ? & _). destruct Hw16 as (? & ? & ? & _).
  pose proof (holds_range _ _ _ Hh) as [_ Hr]. rewrite !zlen_app, !zlen_be in Hr. change (Z.of_nat 4) with 4 in Hr.
  repeat (apply holds_app in Hh as [? Hh]; rewrite zlen_be in Hh). change (Z.of_nat 4) with 4 in *.
  repeat (apply holds_app in Hm22 as [? Hm22]; rewrite zlen_be in Hm22). change (Z.of_nat 2) with 2 in *.
  pose proof (zlen_nonneg ts).
  assert (zlen map = ml) as Hz by (unfold map; unfold in_width in *; zlens; lia).
  assert (is_byte_list map) as Hbm by (by apply bytes_slice).
  unfold rfork_parse. destruct (Z.ltb_spec (zlen fork) 16); [lia|]. cbn [refuse mbind out_bind].
  rewrite (holds_rd32 fork 0 d), (holds_rd32 fork 4 m), (holds_rd32 fork 8 dl), (holds_rd32 fork 12 ml) by done.
  cbn [mbind out_bind]. assert (forall a b, in_width 32 a -> in_width 32 b -> u64 (a + b) = a + b) as Hu.
  { intros a b ? ?. apply (wrap_small 64). unfold in_width in *. pow2. lia. }
  rewrite !Hu by done. destruct (Z.ltb_spec (zlen fork) (d + dl)); [lia|]. destruct (Z.ltb_spec (zlen fork) (m + ml)); [lia|].
  destruct (Z.ltb_spec ml 30); [lia|]. cbn [refuse mbind out_bind].
  unfold in_width in *. change (2 ^ 32) with 4294967296 in *. change (2 ^ 16) with 65536 in *.
  rewrite !window_in by lia. fold map data. cbn [mbind out_bind].
  rewrite (holds_rd16 map 22 attrs), (holds_rd16 map 24 tl), (holds_rd16 map 26 nl) by done. cbn [mbind out_bind].
  rewrite u32_small by (unfold in_width; pow2; lia). destruct (Z.ltb_spec ml (tl + 2)); [lia|].
  destruct (Z.ltb_spec ml nl); [lia|]. cbn [refuse mbind out_bind].
  rewrite (holds_rd16 _ _ _ Htl) by apply u16_range. cbn [mbind out_bind].
  destruct ts as [|t0 ts'].
  { change (u16 (zlen [] - 1) =? 65535) with true. eexists. split; [done|]. constructor. }
  assert (zlen (t0 :: ts') = 1 + zlen ts') as Hl by apply zlen_cons. pose proof (zlen_nonneg ts').
  set (ts := t0 :: ts') in *. assert (u16 (zlen ts - 1) = zlen ts - 1) as -> by (apply (wrap_small 16); unfold in_width; pow2; lia).
  destruct (Z.eqb_spec (zlen ts - 1) 65535); [lia|]. cbv zeta. replace (zlen ts - 1 + 1) with (zlen ts) by lia.
  destruct (Z.ltb_spec ml (tl + 2 + 8 * zlen ts)); [lia|]. cbn [refuse mbind out_bind].
  assert (Z.to_nat (zlen ts) = length ts) as -> by (unfold zlen; lia).
  destruct (for_collect type_as (fun t => parse_type map data tl nl (tl + 2 + 8 * t)) ts 0 [] []) as (xs & E & Hxs); [constructor| |].
  - intros i t Hi. rewrite Z.add_0_l. apply parse_type_at; [done..|]. by apply Hts.
  - rewrite E. cbn [mbind out_bind]. by eexists.
Qed.

(** The resource of a type and an id: the first one. *)
Definition find_resource (ts : list (list Z * list resource)) (ty : list Z) (id : Z) : option resource :=
  t ← snd <$> list_find (fun t => t.1 = ty) ts;
  snd <$> list_find (fun r => res_id r = id) t.2.
Lemma find_related {A C} (R : A -> C -> Prop) (P : A -> Prop) (Q : C -> Prop)
    `{!forall x, Decision (P x), !forall y, Decision (Q y)} xs ys :
  Forall2 R xs ys -> (forall x y, R x y -> P x <-> Q y) ->
  match snd <$> list_find P xs, snd <$> list_find Q ys with
  | Some x, Some y => R x y
  | None, None => True
  | _, _ => False
  end.
Proof.
  intros Hxy Heq. induction Hxy as [|x y xs ys Hx _ IH]; [done|]. cbn [list_find].
  pose proof (Heq x y Hx). destruct (decide (P x)), (decide (Q y)); try tauto; cbn; try done.
  by destruct (list_find P xs) as [[]|], (list_find Q ys) as [[]|].
Qed.
Lemma find_type_of rf ts ty : Forall2 type_as (types rf) ts ->
  match find_type rf ty, snd <$> list_find (fun t => t.1 = ty) ts with
  | Some x, Some t => type_as x t
  | None, None => True
  | _, _ => False
  end.
Proof. intros Hts. apply (find_related type_as); [done|]. by intros x t [-> _]. Qed.
Lemma lookup_of rf ts ty id r : Forall2 type_as (types rf) ts -> find_resource ts ty id = Some r ->
  exists name, rfork_lookup rf ty id = Ok (res_data r, name, res_attrs r).
Proof.
  intros Hts E. unfold find_resource in E. unfold rfork_lookup. pose proof (find_type_of rf ts ty Hts) as Ht.
  destruct (snd <$> list_find (fun t => t.1 = ty) ts) as [t|]; [|done]. destruct (find_type rf ty) as [x|]; [|done].
  cbn [mbind option_bind] in E. destruct Ht as [_ Hr].
  pose proof (find_related parsed_as (fun r => rs_id r = id) (fun r => res_id r = id) _ _ Hr) as Hf. rewrite E in Hf.
  destruct (list_find _ (resources x)) as [[i y]|]; cbn in Hf; [|destruct Hf; by intros ?? [-> _]].
  destruct Hf as (_ & -> & -> & ->); [by intros ?? [-> _]|]. by eexists.
Qed.
Lemma lookup_none rf ts ty id : Forall2 type_as (types rf) ts -> find_resource ts ty id = None -> rfork_lookup rf ty id = Err ENOENT.
Proof.
  intros Hts E. unfold find_resource in E. unfold rfork_lookup. pose proof (find_type_of rf ts ty Hts) as Ht.
  destruct (snd <$> list_find (fun t => t.1 = ty) ts) as [t|], (find_type rf ty) as [x|]; try done.
  cbn [mbind option_bind] in E. destruct Ht as [_ Hr].
  pose proof (find_related parsed_as (fun r => rs_id r = id) (fun r => res_id r = id) _ _ Hr) as Hf. rewrite E in Hf.
  destruct (list_find _ (resources x)) as [[i y]|]; cbn in Hf; [|done]. destruct Hf. by intros ?? [-> _].
Qed.

(** The block map of an NDIF image: the resource [bcem] 128, or else the first
    one of its type. *)
Definition block_map_of (ts : list (list Z * list resource)) : option (list Z) :=
  match find_resource ts BCEM_TYPE BCEM_RESOURCE_ID with
  | Some r => Some (res_data r)
  | None => t ← snd <$> list_find (fun t => t.1 = BCEM_TYPE) ts; res_data <$> head t.2
  end.
Lemma locate_bcem_of ts fork b : fork_of ts fork -> block_map_of ts = Some b -> locate_bcem fork = Ok b.
Proof.
  intros Hf Hb. destruct (rfork_parse_of ts fork Hf) as (rf & E & Hts). unfold locate_bcem. rewrite E. cbn [or_else mbind out_bind].
  unfold block_map_of in Hb. destruct (find_resource ts BCEM_TYPE BCEM_RESOURCE_ID) as [r|] eqn:Er.
  { injection Hb as <-. by destruct (lookup_of rf ts _ _ r Hts Er) as [name ->]. }
  rewrite (lookup_none rf ts _ _ Hts Er). pose proof (find_type_of rf ts BCEM_TYPE Hts) as Ht.
  destruct (snd <$> list_find (fun t => t.1 = BCEM_TYPE) ts) as [t|] eqn:Et; [|done]. cbn [mbind option_bind] in Hb.
  destruct t as [ty [|r rs]]; [done|]. injection Hb as <-. destruct (find_type rf BCEM_TYPE) as [x|] eqn:Ex; [|done].
  destruct Ht as [_ Hr]. unfold rfork_num_resources, rfork_id_at. rewrite Ex. cbn [snd] in Hr.
  destruct (resources x) as [|y ys] eqn:Ey; [by inversion Hr|]. rewrite zlen_cons. pose proof (zlen_nonneg ys).
  destruct (Z.eqb_spec (1 + zlen ys) 0); [lia|]. cbn [refuse mbind out_bind lookup list_lookup].
  destruct (lookup_of rf ts BCEM_TYPE (rs_id y) r Hts) as [name ->]; [|done].
  unfold find_resource. rewrite Et. cbn [mbind option_bind list_find snd]. inversion Hr as [|? ? ? ? Hy]; subst.
  destruct Hy as [-> _]. by destruct (decide (res_id r = res_id r)).
Qed.
End Forks.

(** ** Block maps as the NDIF format lays them out *)
Record map_entry := mk_map_entry { en_sector : Z; en_type : Z; en_offset : Z; en_length : Z }.
Record block_map := mk_block_map { bm_sectors : Z; bm_data_offset : Z; bm_entries : list map_entry }.
Record map_entry_ok (e : map_entry) : Prop := {
  eo_sector : in_width 24 (en_sector e);
  eo_type : in_width 8 (en_type e);
  eo_offset : in_width 32 (en_offset e);
  eo_length : in_width 32 (en_length e);
}.
Definition entry_bytes (e : map_entry) : list Z :=
  be 3 (en_sector e) ++ [en_type e] ++ be 4 (en_offset e) ++ be 4 (en_length e).
(** A header of 128 bytes (with the number of sectors at $44, the offset of the
    chunks in the data fork at $4C and the number of entries at $7C), the
    entries, and anything behind them. *)
Record is_block_map (bm : block_map) (b : list Z) : Prop := {
  ib_bytes : exists head gap crc rest tail,
    b = head ++ be 4 (bm_sectors bm) ++ gap ++ be 4 (bm_data_offset bm) ++ crc ++ rest ++
        be 4 (zlen (bm_entries bm)) ++ concat (entry_bytes <$> bm_entries bm) ++ tail /\
    zlen head = 0x44 /\ zlen gap = 4 /\ zlen crc = 4 /\ zlen rest = 0x28 /\ is_byte_list head;
  ib_sectors : in_width 32 (bm_sectors bm);
  ib_data : in_width 32 (bm_data_offset bm);
  ib_count : 0 < zlen (bm_entries bm) < 2 ^ 32;
  ib_entries : Forall map_entry_ok (bm_entries bm);
}.
(** The chunks: an entry of type $FF ends the list; a chunk reaches to the
    sector of the next entry, the last one to the end of the disk; its data
    start at its offset behind the data offset of the header. *)
Fixpoint chunks_of (sectors data_offset : Z) (es : list map_entry) : list ndif_chunk :=
  match es with
  | [] => []
  | e :: es =>
      if en_type e =? 0xFF then []
      else
        let next := match es with e' :: _ => en_sector e' | [] => sectors end in
        mk_chunk (en_sector e) (Z.max 0 (next - en_sector e)) (en_type e) ((en_offset e + data_offset) mod 2 ^ 32) (en_length e)
        :: chunks_of sectors data_offset es
  end.

Lemma be_snoc n v t : 0 <= t < 256 -> be n v ++ [t] = be (S n) (v * 256 + t).
Proof.
  intros Ht. unfold be. cbn [le rev]. f_equal; [|f_equal].
  - do 2 f_equal. rewrite Z.shiftr_div_pow2 by lia. dlia.
  - unfold u8, wrap. dlia.
Qed.
Lemma zlen_entry e : zlen (entry_bytes e) = 12.
Proof. unfold entry_bytes. by rewrite !zlen_app, !zlen_be. Qed.
Lemma zlen_entries es : zlen (concat (entry_bytes <$> es)) = 12 * zlen es.
Proof. induction es as [|e es IH]; [done|]. rewrite fmap_cons. cbn [concat]. rewrite zlen_app, zlen_cons, IH, zlen_entry. lia. Qed.
Lemma entry_holds es i e : es !! i = Some e -> holds (concat (entry_bytes <$> es)) (Z.of_nat i * 12) (entry_bytes e).
Proof.
  intros Hi. exists (concat (entry_bytes <$> take i es)), (concat (entry_bytes <$> drop (S i) es)). split.
  - rewrite <-(take_drop_middle es i e Hi) at 1. by rewrite fmap_app, fmap_cons, concat_app.
  - pose proof (lookup_lt_Some _ _ _ Hi). rewrite zlen_entries. unfold zlen. rewrite length_take. lia.
Qed.
Lemma entry_reads es i e : es !! i = Some e -> map_entry_ok e -> let arr := concat (entry_bytes <$> es) in
  rd32 arr (Z.of_nat i * 12) = Ok (en_sector e * 256 + en_type e) /\
  rd32 arr (Z.of_nat i * 12 + 4) = Ok (en_offset e) /\ rd32 arr (Z.of_nat i * 12 + 8) = Ok (en_length e).
Proof.
  intros Hi [Hs Ht Ho Hl] arr. pose proof (entry_holds es i e Hi) as H. unfold entry_bytes in H.
  rewrite app_assoc, be_snoc in H by done. apply holds_app in H as [H1 H]. rewrite zlen_be in H.
  apply holds_app in H as [H2 H3]. rewrite zlen_be in H3. change (Z.of_nat 4) with 4 in *.
  replace (Z.of_nat i * 12 + 4 + 4) with (Z.of_nat i * 12 + 8) in H3 by lia.
  split_and!; apply holds_rd32; try done. unfold in_width in *. pow2. lia.
Qed.

Section Maps.
Context `{!Abi} `{!AbiOk _}.
Lemma parse_chunks_of es sectors off : Forall map_entry_ok es -> zlen es < 2 ^ 32 -> forall k i cs,
  (i + k = length es)%nat ->
  parse_chunks k (Z.of_nat i) (concat (entry_bytes <$> es)) (zlen es) sectors off cs =
    Ok (cs ++ chunks_of sectors off (drop i es)).
Proof.
  intros Hok Hz. induction k as [|k IH]; intros i cs Hk.
  { cbn [parse_chunks]. by rewrite drop_ge, app_nil_r by lia. }
  destruct (lookup_lt_is_Some_2 es i ltac:(lia)) as [e He]. rewrite (drop_S _ _ _ He). cbn [parse_chunks chunks_of].
  pose proof (Forall_lookup_1 _ _ _ _ Hok He) as Hoke. destruct (entry_reads es i e He Hoke) as (E1 & E2 & E3).
  destruct Hoke as [Hs Ht Ho Hl]. unfold in_width in *. unfold parse_chunk, BCEM_ENTRY_SIZE. rewrite E1. cbn [mbind out_bind].
  assert (u8 (Z.land (en_sector e * 256 + en_type e) 0xFF) = en_type e) as ->.
  { rewrite (land_ones_mod _ 8) by lia. unfold u8, wrap. change (2 ^ 8) with 256 in *. dlia. }
  unfold NDIF_CHUNK_END. destruct (_ =? 255); [by rewrite app_nil_r|].
  assert (Z.shiftr (en_sector e * 256 + en_type e) 8 = en_sector e) as ->.
  { rewrite Z.shiftr_div_pow2 by lia. change (2 ^ 8) with 256 in *. dlia. }
  unfold zlen in Hz. change (2 ^ 32) with 4294967296 in *. rewrite u32_small by (unfold in_width; pow2; lia).
  assert (forall nx : Z, (nx = match drop (S i) es with e' :: _ => en_sector e' | [] => sectors end) ->
    (if Z.of_nat i + 1 <? zlen es then nword ← rd32 (concat (entry_bytes <$> es)) ((Z.of_nat i + 1) * 12); Ok (Z.shiftr nword 8)
     else Ok sectors) = Ok nx) as Hnext.
  { intros nx ->. unfold zlen. destruct (Z.ltb_spec (Z.of_nat i + 1) (Z.of_nat (length es))).
    - destruct (lookup_lt_is_Some_2 es (S i) ltac:(lia)) as [e' He']. rewrite (drop_S _ _ _ He').
      pose proof (Forall_lookup_1 _ _ _ _ Hok He') as Hoke'. destruct (entry_reads es (S i) e' He' Hoke') as (E' & _).
      replace ((Z.of_nat i + 1) * 12) with (Z.of_nat (S i) * 12) by lia. rewrite E'. cbn [mbind out_bind]. f_equal.
      destruct Hoke' as [_ Ht' _ _]. unfold in_width in Ht'. rewrite Z.shiftr_div_pow2 by lia. change (2 ^ 8) with 256 in *. dlia.
    - by rewrite drop_ge by lia. }
  rewrite (Hnext _ eq_refl). cbn [mbind out_bind]. rewrite E2. cbn [mbind out_bind]. rewrite E3. cbn [mbind out_bind].
  replace (Z.of_nat i + 1) with (Z.of_nat (S i)) by lia. rewrite IH by lia. rewrite <-app_assoc. do 3 f_equal. cbn [app].
  f_equal. f_equal. zprune; lia.
Qed.
Lemma ndif_parse_of fork b bm : locate_bcem fork = Ok b -> is_block_map bm b ->
  exists map, ndif_parse fork = Ok map /\ nd_sectors map = bm_sectors bm /\
    chunks map = chunks_of (bm_sectors bm) (bm_data_offset bm) (bm_entries bm).
Proof.
  intros Hl [(hd & gap & crc & rest & tail & Eb & Hh & Hg & Hc & Hr & Hbh) Hs Hd Hn He].
  assert (holds b 0 b) as Hb by (exists [], []; by rewrite app_nil_r).
  assert (zlen b = 128 + 12 * zlen (bm_entries bm) + zlen tail) as Hz.
  { rewrite Eb, !zlen_app, !zlen_be, zlen_entries. lia. }
  rewrite Eb in Hb at 2. pose proof (zlen_nonneg tail). change (2 ^ 32) with 4294967296 in *.
  apply holds_app in Hb as [_ Hb]. rewrite Hh in Hb. apply holds_app in Hb as [B1 Hb]. rewrite zlen_be in Hb.
  apply holds_app in Hb as [_ Hb]. rewrite Hg in Hb. apply holds_app in Hb as [B2 Hb]. rewrite zlen_be in Hb.
  apply holds_app in Hb as [_ Hb]. rewrite Hc in Hb. apply holds_app in Hb as [_ Hb]. rewrite Hr in Hb.
  apply holds_app in Hb as [B3 Hb]. rewrite zlen_be in Hb. apply holds_app in Hb as [B4 _].
  unfold ndif_parse. rewrite Hl. cbn [mbind out_bind]. unfold BCEM_HEADER_SIZE, BCEM_ENTRY_SIZE.
  destruct (Z.ltb_spec (zlen b) 128); [lia|]. cbn [refuse mbind out_bind].
  rewrite (holds_rd32 b 0x44 _ B1 Hs). cbn [mbind out_bind]. rewrite (holds_rd32 b 0x4C _ B2 Hd). cbn [mbind out_bind].
  rewrite (rd32_in b 0x50) by lia. cbn [mbind out_bind].
  rewrite (holds_rd32 b 0x7C _ B3) by (unfold in_width; pow2; lia). cbn [mbind out_bind].
  assert (u64 (zlen (bm_entries bm) * 12) = zlen (bm_entries bm) * 12) as ->.
  { apply (wrap_small 64). unfold in_width. pow2. lia. }
  destruct (Z.eqb_spec (zlen (bm_entries bm)) 0); [lia|].
  destruct (Z.ltb_spec (zlen b - 128) (zlen (bm_entries bm) * 12)); [lia|]. cbn [orb refuse mbind out_bind].
  destruct (byte_at_in b 4) as (nl & Enl & ->); [lia|]. cbn [mbind out_bind]. cbv zeta.
  assert (0 <= nl < 256) as Hnl.
  { rewrite Eb in Enl. rewrite lookup_app_l in Enl by (unfold zlen in Hh; lia). by apply (Forall_lookup_1 _ _ _ _ Hbh Enl). }
  rewrite (window_in b 5) by (zprune; lia). cbn [mbind out_bind].
  rewrite (holds_window b 0x80 _ _ B4) by (rewrite zlen_entries; lia). cbn [mbind out_bind].
  assert (Z.to_nat (zlen (bm_entries bm)) = length (bm_entries bm)) as -> by (unfold zlen; lia).
  rewrite (parse_chunks_of (bm_entries bm) (bm_sectors bm) (bm_data_offset bm) He ltac:(change (2 ^ 32) with 4294967296; lia) _ 0 []) by lia.
  cbn [mbind out_bind]. by eexists.
Qed.
End Maps.

(** ** Images in chunks *)
Section Chunks.
Context `{!Abi} `{!AbiOk _} (Hlong : 34 <= long_bits) (Hsize : 42 <= size_bits) (junk : Z -> list Z) (Hjunk : forall n, 0 <= n -> zlen (junk n) = n).
Context (df disk : list Z).
(** The sectors of a chunk, and the bytes the data fork has for it. *)
Definition chunk_zone (c : ndif_chunk) : list Z := ztake (ch_count c * 512) (zdrop (ch_sector c * 512) disk).
Definition chunk_bytes (c : ndif_chunk) : list Z := ztake (ch_length c) (zdrop (ch_offset c) df).
Inductive chunk_stored (c : ndif_chunk) : Prop :=
  | stored_nothing : ch_count c = 0 -> chunk_stored c
  | stored_zeros : ch_type c = NDIF_CHUNK_ZERO -> chunk_zone c = zeros (ch_count c * 512) -> chunk_stored c
  | stored_raw extra : ch_type c = NDIF_CHUNK_COPY -> chunk_bytes c = chunk_zone c ++ extra -> chunk_stored c
  | stored_adc ts : ch_type c = NDIF_CHUNK_ADC -> 0 < ch_length c -> adc_tokens_ok ts [] -> chunk_bytes c = concat (adc_bytes <$> ts) ->
      adc_expand ts [] = chunk_zone c -> chunk_stored c.
Definition chunk_fits (c : ndif_chunk) : Prop := (ch_sector c + ch_count c) * 512 <= zlen disk.
Definition chunk_covers (i : Z) (c : ndif_chunk) : Prop := ch_sector c * 512 <= i < (ch_sector c + ch_count c) * 512.
Definition agrees (l : list Z) (i : Z) : Prop := l !! Z.to_nat i = disk !! Z.to_nat i.
Definition all_done (m : mat) : Prop := Forall (eq Done) (mat_faults m).

Lemma zone_length c : chunk_ok c -> chunk_fits c -> zlen (chunk_zone c) = ch_count c * 512.
Proof. intros [] Hf. unfold chunk_zone, chunk_fits in *. zlens. lia. Qed.
Lemma zone_lookup c i : chunk_ok c -> chunk_covers i c -> chunk_zone c !! Z.to_nat (i - ch_sector c * 512) = disk !! Z.to_nat i.
Proof.
  intros [] Hc. unfold chunk_covers, chunk_zone, ztake, zdrop in *. rewrite lookup_take_lt, lookup_drop by lia. f_equal. lia.
Qed.
Lemma outcome_is_done m : all_done m -> exists m', mat_outcome m = (Done, m') /\ all_done m' /\ mat_df m' = mat_df m /\ mat_out m' = mat_out m.
Proof.
  destruct m as [d f [|o os]]; intros Hm; [by eexists|]. unfold mat_outcome. cbn. inversion_clear Hm. subst. by eexists.
Qed.
Lemma need_fits c : chunk_ok c -> usize (ch_count c * 512) = ch_count c * 512.
Proof.
  intros []. apply wrap_small. assert (2 ^ 42 <= 2 ^ size_bits) by (apply Z.pow_le_mono_r; lia). change (2 ^ 42) with 4398046511104 in *. unfold in_width. lia.
Qed.
(** A chunk is decoded to its sectors. *)
Lemma decode_zone c : chunk_ok c -> chunk_fits c -> chunk_stored c -> 0 < ch_count c -> ch_type c <> NDIF_CHUNK_ZERO ->
  0 < ch_length c /\ ndif_decode_chunk c (Some (chunk_bytes c)) (junk (ch_count c * 512)) = Ok (chunk_zone c).
Proof.
  intros Hc Hf Hs H0 Ht. pose proof (zone_length c Hc Hf) as Hz. unfold ndif_decode_chunk, NDIF_SECTOR_SIZE. rewrite need_fits by done. cbv zeta.
  set (dst := junk _). assert (zlen dst = ch_count c * 512) as Hd by (apply Hjunk; lia). rewrite Hd, Z.ltb_irrefl. cbn [refuse mbind out_bind].
  assert (forall d, zlen d = ch_count c * 512 -> poke dst 0 d = Ok d) as Hpoke.
  { intros d Hl. rewrite poke_in by lia. f_equal. rewrite <-(slice_same dst 0 d) at 2 by lia. symmetry. rewrite zdrop_all by done. apply ztake_full. rewrite zlen_write_inside; lia. }
  destruct (Z.eqb_spec (ch_type c) NDIF_CHUNK_ZERO); [done|]. destruct Hs as [|?|extra E Eb|ts E Hl Hts Eb Ex]; [lia|done|rewrite E|rewrite E]; cbn [Z.eqb Pos.eqb NDIF_CHUNK_COPY NDIF_CHUNK_ADC].
  - assert (zlen (chunk_bytes c) = ch_count c * 512 + zlen extra) as Hb by (rewrite Eb, zlen_app; lia). pose proof (zlen_nonneg extra).
    split; [destruct Hc; unfold chunk_bytes in Hb; zlens; lia|]. destruct (Z.ltb_spec (zlen (chunk_bytes c)) (ch_count c * 512)); [lia|]. cbn [refuse mbind out_bind].
    rewrite window_in, zdrop_all, Eb, ztake_app by (done || lia). cbn [mbind out_bind]. by apply Hpoke.
  - split; [done|]. rewrite Eb, adc_decodes, Ex, ztake_full by (done || lia). cbn [or_else mbind out_bind]. rewrite Hpoke by done. cbn [mbind out_bind]. by rewrite Hz, Z.ltb_irrefl.
Qed.
Definition chunk_result (c : ndif_chunk) (l : list Z) : list Z :=
  if (ch_type c =? NDIF_CHUNK_ZERO) || (ch_count c =? 0) then l else write_at l (ch_sector c * 512) (chunk_zone c).
Lemma chunk_expanded c m : chunk_ok c -> chunk_fits c -> chunk_stored c -> all_done m -> fbytes (mat_df m) = df -> fappend (mat_out m) = false ->
  exists m', materialize_chunk junk c m = (Ok tt, m') /\ all_done m' /\ fbytes (mat_df m') = df /\ fappend (mat_out m') = false /\
    fbytes (mat_out m') = chunk_result c (fbytes (mat_out m)).
Proof.
  intros Hc Hf Hs Hm Hdf Ha. unfold materialize_chunk, chunk_result. destruct (_ || _) eqn:E; [by eexists|]. apply orb_false_iff in E as [Et%Z.eqb_neq En%Z.eqb_neq].
  pose proof Hc as [S N O L]. rewrite need_fits by done. destruct (decode_zone c Hc Hf Hs ltac:(lia) Et) as [Hl Hd]. cbv zeta.
  assert (2 ^ 33 <= 2 ^ (long_bits - 1)) by (apply Z.pow_le_mono_r; lia). change (2 ^ 33) with 8589934592 in *.
  assert (truthy (ch_length c) = true) as -> by (unfold truthy; destruct (Z.eqb_spec (ch_length c) 0); [lia|done]).
  assert (sx long_bits (ch_offset c) = ch_offset c) as -> by (apply sx_id; lia). destruct (Z.ltb_spec (ch_offset c) 0); [lia|]. cbn [andb].
  destruct (outcome_is_done m Hm) as (m1 & -> & Hm1 & D1 & O1). rewrite D1, fseek_set_ok by lia. unfold fread_bytes. cbn [fbytes fpos fappend]. rewrite Hdf.
  change (ztake _ (zdrop _ df)) with (chunk_bytes c). rewrite Hd. destruct (Z.leb_spec (2 ^ (long_bits - 1)) (ch_sector c * 512)); [lia|].
  set (m2 := mk_mat _ _ _). destruct (outcome_is_done m2 Hm1) as (m3 & -> & Hm3 & D3 & O3). unfold fwrite. rewrite fseek_set_ok by lia.
  rewrite O3. cbn [mat_out m2 fbytes fpos fappend]. rewrite O1, Ha. eexists. split; [done|]. split; [done|]. split; [|done]. cbn. rewrite D3. done.
Qed.
Lemma result_agrees c l i : chunk_ok c -> chunk_fits c -> zlen l = zlen disk -> 0 <= i < zlen disk -> zlen (chunk_result c l) = zlen disk /\
  (agrees l i \/ ch_type c <> NDIF_CHUNK_ZERO /\ chunk_covers i c -> agrees (chunk_result c l) i).
Proof.
  intros Hc Hf Hl Hi. unfold chunk_result. destruct (_ || _) eqn:E.
  - split; [done|]. intros [|[Ht Hk]]; [done|]. apply orb_true_iff in E as [?%Z.eqb_eq|?%Z.eqb_eq]; [done|]. unfold chunk_covers in *. lia.
  - pose proof (zone_length c Hc Hf) as Hz. pose proof Hc as []. unfold chunk_fits in *. split; [rewrite zlen_write_inside; lia|]. intros Hag.
    unfold agrees. destruct (decide (chunk_covers i c)) as [Hk|Hk]; unfold chunk_covers in *.
    + rewrite <-(zone_lookup c) by done. rewrite <-(slice_same l (ch_sector c * 512) (chunk_zone c)) at 2 by lia.
      unfold ztake, zdrop. rewrite Hz, lookup_take_lt, lookup_drop by lia. f_equal. lia.
    + rewrite write_at_lookup by (lia || rewrite ?Hz; lia). by destruct Hag as [|[]].
Qed.
Lemma chunks_expanded : forall cs m, Forall chunk_ok cs -> Forall chunk_fits cs -> Forall chunk_stored cs -> all_done m -> fbytes (mat_df m) = df ->
  fappend (mat_out m) = false -> zlen (fbytes (mat_out m)) = zlen disk ->
  exists m', materialize_chunks junk cs m = (Ok tt, m') /\ all_done m' /\ zlen (fbytes (mat_out m')) = zlen disk /\
    forall i, 0 <= i < zlen disk -> agrees (fbytes (mat_out m)) i \/ Exists (fun c => ch_type c <> NDIF_CHUNK_ZERO /\ chunk_covers i c) cs -> agrees (fbytes (mat_out m')) i.
Proof.
  induction cs as [|c cs IH]; intros m Hok Hfit Hst Hm Hdf Ha Hl.
  { exists m. split_and!; try done. intros i _ [?|Hx]; [done|]. inversion Hx. }
  inversion_clear Hok as [|? ? Hc Hcs]. inversion_clear Hfit as [|? ? Hf Hfs]. inversion_clear Hst as [|? ? Hs Hss].
  destruct (chunk_expanded c m) as (m1 & E1 & Hm1 & D1 & A1 & O1); try done. cbn [materialize_chunks]. rewrite E1.
  pose proof (fun i => result_agrees c (fbytes (mat_out m)) i Hc Hf Hl) as Hr. rewrite <-O1 in Hr.
  destruct (IH m1) as (m' & E & Hm' & Hl' & Hag); try done.
  { destruct (Z.eq_dec (zlen disk) 0) as [E0|]; [|by apply (Hr 0); pose proof (zlen_nonneg disk); lia].
    rewrite O1. unfold chunk_result. destruct (_ || _) eqn:E; [done|]. apply orb_false_iff in E as [_ ?%Z.eqb_neq]. destruct Hc. unfold chunk_fits in *. lia. }
  exists m'. split; [done|]. split; [done|]. split; [done|]. intros i Hi Hx. apply Hag; [done|].
  destruct (Hr i Hi) as [_ Hri]. destruct Hx as [?|Hx]; [by auto|]. inversion_clear Hx; auto.
Qed.
(** Every sector that is not in a chunk holds zeros. *)
Definition covered (cs : list ndif_chunk) : Prop := forall i, 0 <= i < zlen disk -> disk !! Z.to_nat i = Some 0 \/ Exists (chunk_covers i) cs.
Lemma expanded map x o : ndif_ok map -> Forall chunk_fits (chunks map) -> Forall chunk_stored (chunks map) -> covered (chunks map) ->
  zlen disk = nd_sectors map * 512 -> Forall (eq Done) o -> materialize_ndif_host junk (Some df) (Some x) map o = Ok disk.
Proof.
  intros [Hn Hok] Hfit Hst Hcov Hl Ho. unfold materialize_ndif_host. destruct (outcome_is_done (mk_mat (fopen_rb df) (mk_FILE [] 0 false) o) Ho) as (m1 & -> & Hm1 & D1 & _).
  cbv zeta. set (m2 := mk_mat _ _ _). destruct (chunks_expanded (chunks map) m2) as (m' & -> & Hm' & Hl' & Hag); try done.
  { cbn. by rewrite D1. } { cbn. rewrite zlen_zeros; lia. }
  cbn [mbind out_bind]. destruct (outcome_is_done m' Hm') as (m3 & -> & _ & _ & O3). cbn [fst]. f_equal. apply list_eq. intros i.
  destruct (decide (i < length disk)%nat) as [Hi|Hi]; [|rewrite !lookup_ge_None_2; [done|unfold zlen in *; lia..]].
  rewrite <-(Nat2Z.id i). apply Hag; [unfold zlen; lia|].
  assert (0 <= Z.of_nat i < zlen disk) as Hi' by (unfold zlen; lia).
  assert (disk !! Z.to_nat (Z.of_nat i) = Some 0 -> agrees (fbytes (mat_out m2)) (Z.of_nat i)) as Hzero.
  { intros E. unfold agrees. rewrite E. cbn. unfold zeros. apply lookup_replicate_2. unfold zlen in *. lia. }
  destruct (Hcov (Z.of_nat i) Hi') as [E|Hx]; [by auto|]. apply Exists_exists in Hx as (c & Hin & Hk). rewrite Forall_forall in Hok, Hfit, Hst.
  destruct (decide (ch_type c = NDIF_CHUNK_ZERO)) as [Et|Et]; [left; apply Hzero|right; apply Exists_exists; eauto].
  rewrite <-(zone_lookup c) by auto. pose proof Hk as Hk2. unfold chunk_covers in Hk2. destruct (Hok c Hin).
  destruct (Hst c Hin) as [|_ ->|? E2|? E2]; [lia| |by rewrite Et in E2..]. unfold zeros. apply lookup_replicate_2. lia.
Qed.
End Chunks.

Section Theorems.
Context `{!Abi} `{!AbiOk _}.

(** Looking for a fork, and for a block map in it, has no way to fail. *)
Lemma acquire_never_fails s e : acquire_resource_fork s <> Err e.
Proof.
  assert (forall raw e, sidecar_rsrc raw <> Err e) as Hs.
  { intros [raw|] e'; [|done]. unfold sidecar_rsrc, ad_detect. destruct (header_valid raw); [|done..]. cbn. by destruct (ad_parse raw). }
  unfold acquire_resource_fork. pose proof (Hs (dot_underscore s)). destruct (sidecar_rsrc (dot_underscore s)) as [[?|]|?|?]; [done| |naive_solver|done]. cbn.
  pose proof (Hs (percent s)). destruct (sidecar_rsrc (percent s)) as [[?|]|?|?]; naive_solver.
Qed.
Lemma resolve_never_fails junk base s cached scratch o e : resolve_base_image junk base s cached scratch o <> Err e.
Proof.
  unfold resolve_base_image. pose proof (acquire_never_fails s). destruct (acquire_resource_fork s) as [[fork|]|?|?]; [|done|naive_solver|done]. cbn.
  unfold ndif_detect. destruct (_ <? _); [done|]. destruct (locate_bcem fork) as [b|?|?]; [|done..]. cbn. destruct (_ <=? _); [|done].
  destruct (ndif_parse fork) as [map|?|?]; [|done..]. destruct cached as [f|]; [destruct (_ =? _); [done|]|]; by destruct (materialize_ndif_host _ _ _ _ _).
Qed.

(** C6: opening an image is safe whatever lies beside it.  Let the image and its
    three possible sidecars hold any bytes at all, let any file be found under
    the name of the expansion, and let any transfer fail: on a platform with
    64-bit long and size_t, detecting and parsing the AppleDouble header, the
    resource fork, the compressed resources in it and the NDIF block map, and
    expanding the chunks, always ends, never reads or writes outside of a
    buffer, and always has a file to go on with.  The one thing that can go wrong
    is an overflow of int32_t in the differences of a compressed resource. *)
Theorem base_image_safe junk base s cached scratch o : 33 <= size_bits -> 34 <= long_bits -> small_option base -> sidecars_ok s ->
  (exists file, resolve_base_image junk base s cached scratch o = Ok file) \/
  resolve_base_image junk base s cached scratch o = Bad SignedOverflow.
Proof.
  intros Hs Hl Hb Hside. pose proof (resolve_good Hs Hl junk base s cached scratch o Hb Hside) as Hg. pose proof (resolve_never_fails junk base s cached scratch o) as He.
  destruct (resolve_base_image junk base s cached scratch o) as [f|e|b]; [left; by eexists|by destruct (He e)|right; by rewrite Hg].
Qed.

(** C27: a resource fork is read as it is laid out, with a size_t of at least 33
    bits.  Let a file be laid out as Inside Macintosh describes (the offsets
    and lengths of the data area and of the map, which has at least 30 bytes,
    both inside the file; in the map a list of at most 65535 types, each with
    1 to 65536 references; for each reference its id, its attributes without
    the compressed bit, a name in the name list or none, and its data behind
    their length).  The parser finds exactly these types and resources, in
    order, with their ids, attributes and bytes; and looking up a type and an
    id gives the bytes and the attributes of the first such resource of the
    first such type, or ENOENT where there is none.  (Which text a name gives
    is not claimed.) *)
Theorem resource_fork_read ts fork : 33 <= size_bits -> fork_of ts fork -> exists rf, rfork_parse fork = Ok rf /\
  Forall2 type_as (types rf) ts /\
  forall ty id,
    match find_resource ts ty id with
    | Some r => exists name, rfork_lookup rf ty id = Ok (res_data r, name, res_attrs r)
    | None => rfork_lookup rf ty id = Err ENOENT
    end.
Proof.
  intros Hsz Hf. destruct (rfork_parse_of Hsz ts fork Hf) as (rf & E & Hts). exists rf. split; [done|]. split; [done|].
  intros ty id. destruct (find_resource ts ty id) as [r|] eqn:Er; [by apply (lookup_of rf ts)|by apply (lookup_none rf ts)].
Qed.

Lemma detect_parsed fork map : ndif_parse fork = Ok map -> ndif_detect fork = Ok true.
Proof.
  unfold ndif_parse, ndif_detect. destruct (locate_bcem fork) as [b|?|?] eqn:E; [|done..]. cbn [mbind out_bind]. destruct (Z.ltb_spec (zlen b) BCEM_HEADER_SIZE); [done|]. intros _.
  destruct (Z.ltb_spec (zlen fork) 16) as [Hs|Hs].
  - unfold locate_bcem, rfork_parse in E. apply Z.ltb_lt in Hs. by rewrite Hs in E.
  - by destruct (Z.leb_spec BCEM_HEADER_SIZE (zlen b)); [|lia].
Qed.
(** C12: an NDIF image expands to its disk.  Let the first sidecar of the image
    with a resource fork carry a fork laid out as Inside Macintosh says
    ([fork_of]: any order of the parts, none of its resources compressed), whose
    resource [bcem] 128, or else first resource [bcem], is a block map
    ([is_block_map]).  Let every chunk the map describes (the sectors up to the
    next entry, the bytes at its offset behind the data offset) lie within the
    disk and hold its sectors (zeros; the bytes themselves; or a stream of Apple
    Data Compression that stands for them), and let the disk be zero where there
    is no chunk.  If the file found in the scratch directory under the name of
    the expansion, if any, has not the size of the disk (one of that size is
    taken for the expansion), a scratch file can be written and no transfer
    fails, the file that is opened instead of the image has exactly the sectors
    of the disk; on a platform whose size_t has at least 42 bits and whose long
    has at least 34. *)
Theorem ndif_image_expands junk df disk s ts fork b bm cached x o :
  42 <= size_bits -> 34 <= long_bits -> (forall n, 0 <= n -> zlen (junk n) = n) ->
  acquire_resource_fork s = Ok (Some fork) -> small_file fork ->
  fork_of ts fork -> block_map_of ts = Some b -> is_block_map bm b ->
  let cs := chunks_of (bm_sectors bm) (bm_data_offset bm) (bm_entries bm) in
  zlen disk = bm_sectors bm * 512 -> Forall (chunk_fits disk) cs -> Forall (chunk_stored df disk) cs -> covered disk cs ->
  (forall f, cached = Some f -> zlen f <> zlen disk) -> Forall (eq Done) o ->
  resolve_base_image junk (Some df) s cached (Some x) o = Ok (Some disk).
Proof.
  intros Hs Hl Hj Ha Hsmall Hf Hb Hbm cs Hz Hfit Hst Hcov Hca Ho. assert (33 <= size_bits) as H33 by lia.
  destruct (ndif_parse_of fork b bm (locate_bcem_of H33 ts fork b Hf Hb) Hbm) as (map & Hp & En & Ec).
  fold cs in Ec. rewrite <-Ec in *. rewrite <-En in Hz.
  unfold resolve_base_image. rewrite Ha. cbn [mbind out_bind]. rewrite (detect_parsed fork map), Hp by done. cbn [mbind out_bind].
  pose proof (ndif_parse_good H33 fork Hsmall) as Hg. rewrite Hp in Hg. rewrite (expanded Hl Hs junk Hj df disk map x o) by done.
  destruct cached as [f|]; [|done]. destruct (Z.eqb_spec (zlen f) (nd_sectors map * 512)); [|done].
  destruct (Hca f eq_refl). lia.
Qed.

(** The last entry with an id: its bytes and their number. *)
Definition last_with (id : Z) (es : list ad_entry) : option (list Z) * Z :=
  match snd <$> list_find (fun e => ad_id e = id) (rev es) with Some e => (ad_bytes e, ad_len e) | None => (None, 0) end.
Lemma ad_file_with_is single es : let f := ad_file_with single es in
  ad_magic f = ad_start single /\ ad_version f = APPLE_FORK_VERSION /\ ad_entries f = es /\
  ad_data f = last_with 1 es /\ ad_rsrc f = last_with 2 es /\ ad_finder f = last_with 9 es.
Proof.
  cbv zeta. induction es as [|e es IH] using rev_ind; [done|]. unfold ad_file_with in *. rewrite foldl_app. cbn [foldl].
  set (f := foldl _ _ _) in *. destruct IH as (E1 & E2 & E3 & E4 & E5 & E6).
  assert (forall id, last_with id (es ++ [e]) = if decide (ad_id e = id) then (ad_bytes e, ad_len e) else last_with id es) as Hl.
  { intros id. unfold last_with. rewrite rev_unit. cbn [list_find]. destruct (decide _); [done|].
    by destruct (list_find _ (rev es)) as [[]|]. }
  rewrite !Hl. unfold ad_record, AD_ENTRY_DATA, AD_ENTRY_RSRC, AD_ENTRY_FINDER.
  destruct (Z.eqb_spec (ad_id e) 1); [|destruct (Z.eqb_spec (ad_id e) 2); [|destruct (Z.eqb_spec (ad_id e) 9)]];
    cbn [ad_magic ad_version ad_entries ad_data ad_rsrc ad_finder];
    repeat (destruct (decide _); [try lia|try lia]); split_and!; congruence || done.
Qed.
(** C25: what is built is parsed back.  For any list of 1 to 32 entries with
    identifiers other than zero, whose lengths are those of their bytes (no
    bytes for an empty one), and a total below 4 GB (without a data fork, id 1,
    in an AppleDouble file), where size_t has at least 32 bits, the builder
    returns a file, the detector accepts it, and the parser gives back the magic
    number of AppleSingle or AppleDouble, version 2, every entry in order, as the
    data fork the bytes of the last entry with id 1, as the resource fork those
    of the last with id 2, and as the Finder information those of the last with
    id 9 (nothing where there is none). *)
Theorem appledouble_roundtrip single es : 32 <= size_bits -> ad_buildable single es -> exists buf f,
  ad_build single es = Ok buf /\ ad_detect buf = Ok true /\ ad_parse buf = Ok f /\
  ad_magic f = (if single then 0x00051600 else 0x00051607) /\ ad_version f = 0x00020000 /\ ad_entries f = es /\
  ad_data f = last_with 1 es /\ ad_rsrc f = last_with 2 es /\ ad_finder f = last_with 9 es.
Proof.
  intros Hs Hes. destruct (ad_build_ok single es Hes Hs) as (buf & E & Hb & Hp). exists buf, (ad_file_with single es). split; [done|].
  split; [|split; [done|apply ad_file_with_is]].
  unfold ad_detect. pose proof (header_valid_sound buf Hb) as Hv. unfold ad_parse in Hp. by destruct (header_valid buf) as [n|?|?].
Qed.
(** The sidecar of a file that is copied out leads back to its resource fork. *)
Lemma sidecar_found rsrc finder : 32 <= size_bits -> is_byte_list rsrc -> 0 < zlen rsrc < 4294967000 ->
  match finder with Some d => is_byte_list d /\ zlen d = AD_FINDER_INFO_SIZE | None => True end ->
  exists buf, ad_build_sidecar rsrc (zlen rsrc) finder = Ok buf /\ sidecar_rsrc (Some buf) = Ok (Some rsrc).
Proof.
  intros Hs Hr Hl Hf. unfold ad_build_sidecar, truthy. destruct (Z.eqb_spec (zlen rsrc) 0); [lia|]. cbn [negb].
  set (es := _ ++ _). assert (ad_buildable false es) as Hes.
  { assert (entry_ok false (mk_entry AD_ENTRY_RSRC (Some rsrc) (zlen rsrc))) as H1 by (unfold entry_ok; cbn; unfold AD_ENTRY_RSRC, AD_ENTRY_FINDER, AD_ENTRY_DATA in *; ad_consts; split_and!; first [done|lia]).
    unfold es. destruct finder as [d|].
    - assert (entry_ok false (mk_entry AD_ENTRY_FINDER (Some d) AD_FINDER_INFO_SIZE)) as H2 by (destruct Hf; unfold entry_ok; cbn; unfold AD_FINDER_INFO_SIZE in *; unfold AD_ENTRY_RSRC, AD_ENTRY_FINDER, AD_ENTRY_DATA in *; ad_consts; split_and!; first [done|lia]).
      split; [done|by repeat apply Forall_cons|unfold ad_offset; rewrite ztake_full by lia; cbn [app foldl ad_len]; zlens; ad_consts; unfold AD_FINDER_INFO_SIZE; lia].
    - split; [done|by repeat apply Forall_cons|unfold ad_offset; rewrite ztake_full by lia; cbn [app foldl ad_len]; zlens; ad_consts; lia]. }
  destruct (ad_build_ok false es Hes Hs) as (buf & E & Hb & Hp). exists buf. destruct (Z.eqb_spec (zlen es) 0) as [E0|]; [by destruct Hes as [[? ?] _ _]; lia|]. cbn [refuse mbind out_bind].
  split; [done|]. unfold sidecar_rsrc, ad_detect. pose proof Hp as Hp'. unfold ad_parse in Hp'. pose proof (header_valid_sound buf Hb). destruct (header_valid buf) as [n'|?|?]; [|done..]. cbn [mbind out_bind]. rewrite Hp.
  unfold es. destruct finder as [d|]; cbn; unfold truthy; by destruct (Z.eqb_spec (zlen rsrc) 0).
Qed.
End Theorems.

(** ** Types and ids as names of files *)
Definition type_text (t : list Z) : list Z := concat ((fun c => utf8 (code_point c)) <$> t).
Definition char_ok (c : Z) : bool :=
  let u := utf8 (code_point c) in
  match decode_char u 0 with
  | Ok (cp, q) => (q =? zlen u) && match macroman_byte cp with Ok b => b =? c | _ => false end && ((c =? 0) || truthy (nth 0 u 0))
  | _ => false
  end.
Lemma byte_in (pre l rest : list Z) i b : byte_at l i = Ok b -> byte_at (pre ++ l ++ rest) (zlen pre + i) = Ok b.
Proof.
  unfold byte_at. destruct (Z.ltb_spec i 0); [done|]. destruct (l !! Z.to_nat i) as [x|] eqn:E; [|done]. intros [= ->]. pose proof (zlen_nonneg pre).
  destruct (Z.ltb_spec (zlen pre + i) 0); [lia|]. rewrite lookup_app_r by (unfold zlen; lia).
  replace (Z.to_nat (zlen pre + i) - length pre)%nat with (Z.to_nat i) by (unfold zlen; lia). by rewrite (lookup_app_l_Some _ _ _ _ E).
Qed.
Lemma decode_in (pre l rest : list Z) cp q : decode_char l 0 = Ok (cp, q) -> decode_char (pre ++ l ++ rest) (zlen pre) = Ok (cp, zlen pre + q).
Proof.
  unfold decode_char. destruct (byte_at l 0) as [c| |] eqn:E0; [|done..]. rewrite <-(Z.add_0_r (zlen pre)), (byte_in _ _ _ _ _ E0). cbn [mbind out_bind].
  rewrite <-!Z.add_assoc, !Z.add_0_l. destruct (c <? 128); [by intros [= <- <-]|].
  destruct (_ || _); [destruct (byte_at l 1) as [c1| |] eqn:E1; [rewrite (byte_in _ _ _ _ _ E1)|done..]|]; cbn [mbind out_bind];
    (destruct (_ && _); [by intros [= <- <-]|]); (destruct (_ && _); [|done]);
    (destruct (byte_at l 2) as [c2| |] eqn:E2; [rewrite (byte_in _ _ _ _ _ E2)|done..]); cbn [mbind out_bind]; (destruct (refuse _ _) as [[]| |]; [|done..]); by intros [= <- <-].
Qed.
Lemma every_char_ok c : 0 <= c < 256 -> char_ok c = true.
Proof. intros Hc. apply (forall_bits_width 8); [vm_compute; reflexivity|done]. Qed.
Lemma type_chars_ok : forall t pre o, Forall (fun c => 0 < c < 256) t ->
  type_chars (length t) (pre ++ type_text t ++ [0]) (zlen pre) o = Ok (o ++ t, zlen pre + zlen (type_text t)).
Proof.
  induction t as [|c t IH]; intros pre o Ht.
  { cbn [type_chars length]. rewrite (byte_app pre) by done. cbn. by rewrite app_nil_r, Z.add_0_r. }
  inversion_clear Ht as [|? ? Hc Ht']. unfold type_text. cbn [fmap list_fmap concat length type_chars]. fold (type_text t). set (u := utf8 _). pose proof (every_char_ok c ltac:(lia)) as Hk. unfold char_ok in Hk. fold u in Hk. cbv zeta in Hk.
  destruct (decode_char u 0) as [[cp q]| |] eqn:Ed; [|done..]. apply andb_true_iff in Hk as [[->%Z.eqb_eq Hm]%andb_true_iff Hn].
  rewrite <-app_assoc. rewrite (decode_in pre u _ cp _ Ed). assert (byte_at u 0 = Ok (nth 0 u 0)) as Hb by (unfold decode_char in Ed; by destruct u).
  rewrite <-(Z.add_0_r (zlen pre)) at 1. rewrite (byte_in pre u _ 0 _ Hb). cbn [mbind out_bind]. unfold truthy in Hn. destruct (Z.eqb_spec c 0); [lia|]. cbn [orb] in Hn. apply negb_true_iff in Hn. rewrite Hn.
  destruct (macroman_byte cp) as [b| |]; [|done..]. apply Z.eqb_eq in Hm as ->. cbn [mbind out_bind].
  rewrite app_assoc, <-zlen_app, IH by done. rewrite <-app_assoc, !zlen_app. do 2 f_equal. cbn [app]. lia.
Qed.
(** A type without NULs is its path again, whatever MacRoman characters it has. *)
Lemma type_path_roundtrip t : zlen t = 4 -> Forall (fun c => 0 < c < 256) t ->
  exists path, rfork_type_to_path t 13 = Ok (path ++ [0]) /\ rfork_type_from_path (path ++ [0]) = Ok t.
Proof.
  intros Hl Ht. assert (is_byte_list t) as Hb by (refine (List.Forall_impl _ _ Ht); cbn; lia). exists (type_text t).
  assert (zlen (type_text t) <= 12) as Hlen.
  { unfold zlen in Hl. do 5 (destruct t as [|? t]; [try (cbn in Hl; lia)|]). { unfold type_text. cbn [fmap list_fmap concat]. zlens. pose proof (utf8_len (code_point z)). pose proof (utf8_len (code_point z0)). pose proof (utf8_len (code_point z1)). pose proof (utf8_len (code_point z2)). lia. } cbn in Hl. lia. }
  split.
  - unfold rfork_type_to_path, macroman_to_utf8. cbn [Z.eqb Pos.eqb]. rewrite macroman_loop_ok by (zlens; done || lia). cbn [mbind out_bind app]. by rewrite emit_in by (fold (type_text t); lia).
  - unfold rfork_type_from_path. pose proof (type_chars_ok t [] [] Ht) as Hc. cbn [app] in Hc. change (zlen []) with 0 in Hc. replace (length t) with 4%nat in Hc by (unfold zlen in Hl; lia). rewrite Hc. cbn [mbind out_bind].
    rewrite byte_app by lia. cbn [byte_at mbind out_bind]. cbn. by rewrite Hl.
Qed.
(** So is every id. *)
Lemma id_path_roundtrip {A : Abi} v : A = lp64 \/ A = wasm32 -> -32768 <= v < 32768 -> rfork_id_from_path (removelast (rfork_id_to_path v 8)) = Ok v.
Proof.
  intros HA Hv. set (f := fun (A : Abi) v => match @rfork_id_from_path A (removelast (rfork_id_to_path (v - 32768) 8)) with Ok w => w =? v - 32768 | _ => false end).
  assert (f A (v + 32768) = true) as Hf.
  { apply (forall_bits_width 16 (f A)); [destruct HA as [-> | ->]; vm_compute; reflexivity|unfold in_width; cbn; lia]. }
  unfold f in Hf. replace (v + 32768 - 32768) with v in Hf by lia. destruct (rfork_id_from_path _) as [w| |]; [|done..]. by apply Z.eqb_eq in Hf as ->.
Qed.

(** ** On concrete inputs *)
#[local] Existing Instance lp64.

(** A resource fork of one resource of type [bcem]. *)
Definition one_resource (attrs : Z) (data : list Z) : list Z :=
  let body := be 4 (zlen data) ++ data in
  be 4 16 ++ be 4 (16 + zlen body) ++ be 4 (zlen body) ++ be 4 50 ++ body ++
  zeros 24 ++ be 2 28 ++ be 2 50 ++ be 2 0 ++ BCEM_TYPE ++ be 2 0 ++ be 2 10 ++ be 2 128 ++ be 2 0xFFFF ++ [attrs] ++ be 3 0 ++ zeros 4.
(** A disk of four sectors: one stored as it is, one of zeros, two compressed. *)
Definition repeats : list adc_token := Plain [1; 2; 3; 4] :: replicate 15 (Again true 67 3) ++ [Again false 15 3].
Definition small_disk : list Z := replicate 512 0x11 ++ zeros 512 ++ concat (replicate 256 [1; 2; 3; 4]).
Definition small_fork : list Z := replicate 512 0x11 ++ concat (adc_bytes <$> repeats).
Definition small_map : list Z :=
  let chunk sector type offset length := be 3 sector ++ [type] ++ be 4 offset ++ be 4 length in
  zeros 4 ++ [3; 97; 98; 99] ++ zeros 60 ++ be 4 4 ++ zeros 4 ++ be 4 0 ++ be 4 0xCAFE ++ zeros 40 ++ be 4 4 ++
  chunk 0 NDIF_CHUNK_COPY 0 512 ++ chunk 1 NDIF_CHUNK_ZERO 0 0 ++ chunk 2 NDIF_CHUNK_ADC 512 (zlen small_fork - 512) ++ chunk 4 NDIF_CHUNK_END 0 0.
Definition small_sidecar : list Z :=
  match ad_build_sidecar (one_resource 0 small_map) (zlen (one_resource 0 small_map)) (Some (zeros 32)) with Ok b => b | _ => [] end.
Definition beside : sidecars := mk_sidecars (Some small_sidecar) None None.
Definition small_block_map : block_map := mk_block_map 4 0
  [mk_map_entry 0 NDIF_CHUNK_COPY 0 512; mk_map_entry 1 NDIF_CHUNK_ZERO 0 0;
   mk_map_entry 2 NDIF_CHUNK_ADC 512 (zlen small_fork - 512); mk_map_entry 4 NDIF_CHUNK_END 0 0].
Definition fresh (n : Z) : list Z := replicate (Z.to_nat n) 0xA5.

Lemma bytes_checked l : forallb (fun b => (0 <=? b) && (b <? 256)) l = true -> is_byte_list l.
Proof. intros H. apply List.Forall_forall. intros b Hb. rewrite forallb_forall in H. specialize (H b Hb). lia. Qed.
Lemma small_checked l : forallb (fun b => (0 <=? b) && (b <? 256)) l && (zlen l <? 2 ^ 60) = true -> small_file l.
Proof.
  intros [? Hl%Z.ltb_lt]%andb_true_iff. split; [by apply bytes_checked|]. change size_bits with 64. change (2 ^ 60) with 1152921504606846976 in Hl. change (2 ^ 64) with 18446744073709551616. lia.
Qed.
Lemma small_chunks : chunks_of 4 0 (bm_entries small_block_map) = [mk_chunk 0 1 2 0 512; mk_chunk 1 1 0 0 0; mk_chunk 2 2 0x83 512 52].
Proof. vm_compute. reflexivity. Qed.
Lemma holds_checked l o d : (0 <=? o) && (o + zlen d <=? zlen l) && bool_decide (ztake (zlen d) (zdrop o l) = d) = true -> holds l o d.
Proof.
  intros [[Ho%Z.leb_le Hl%Z.leb_le]%andb_true_iff Hd%bool_decide_eq_true]%andb_true_iff.
  exists (ztake o l), (zdrop (zlen d) (zdrop o l)). split.
  - rewrite <-Hd at 1. unfold ztake, zdrop. by rewrite !take_drop.
  - pose proof (zlen_nonneg d). unfold ztake, zlen in *. rewrite length_take. lia.
Qed.
(** The fork of one resource is a fork of Inside Macintosh. *)
Lemma small_fork_of : fork_of [(BCEM_TYPE, [mk_res 128 0 small_map])] (one_resource 0 small_map).
Proof.
  split; [|vm_compute; congruence|apply bytes_checked; vm_compute; reflexivity].
  exists 16, (20 + zlen small_map), (4 + zlen small_map), 50, 0, 28, 50.
  split_and!; [apply holds_checked; vm_compute; reflexivity|repeat constructor; vm_compute; congruence|vm_compute; congruence..|].
  cbv zeta. split_and!; [apply holds_checked; vm_compute; reflexivity|repeat constructor; vm_compute; congruence|vm_compute; congruence|
    apply holds_checked; vm_compute; reflexivity|vm_compute; congruence|].
  intros [|i] t [= <-]. split; [|vm_compute; split; congruence]. exists 10.
  split_and!; [apply holds_checked; vm_compute; reflexivity|vm_compute; congruence..|].
  intros [|i] r [= <-]. split; [vm_compute; split; congruence|vm_compute; split_and!; congruence|].
  exists 0xFFFF, 0, (zeros 4). split_and!; try (vm_compute; congruence); try (apply holds_checked; vm_compute; reflexivity).
Qed.
Lemma resource_fork_read_witness : exists rf, @rfork_parse lp64 (one_resource 0 small_map) = Ok rf /\
  (exists name, rfork_lookup rf BCEM_TYPE 128 = Ok (small_map, name, 0)) /\ rfork_lookup rf BCEM_TYPE 129 = Err ENOENT.
Proof.
  destruct (@resource_fork_read lp64 [(BCEM_TYPE, [mk_res 128 0 small_map])] (one_resource 0 small_map)) as (rf & E & _ & Hl).
  - vm_compute. discriminate.
  - exact small_fork_of.
  - exists rf. split; [exact E|]. split; [exact (Hl BCEM_TYPE 128)|exact (Hl BCEM_TYPE 129)].
Defined.
Lemma small_map_is : is_block_map small_block_map small_map.
Proof.
  split; [|vm_compute; split; congruence..|repeat constructor; vm_compute; congruence].
  exists (zeros 4 ++ [3; 97; 98; 99] ++ zeros 60), (zeros 4), (be 4 0xCAFE), (zeros 40), [].
  split_and!; try (vm_compute; reflexivity). apply bytes_checked. vm_compute. reflexivity.
Qed.
Lemma repeats_ok : adc_tokens_ok repeats [].
Proof.
  assert (forall n o, 4 <= zlen o -> adc_tokens_ok (replicate n (Again true 67 3) ++ [Again false 15 3]) o) as Hn.
  { induction n as [|n IH]; intros o Ho; cbn [replicate app adc_tokens_ok adc_token_ok]; (split; [lia|]); [done|]. apply IH.
    change (adc_token_out o (Again true 67 3)) with (again (Z.to_nat 67) 4 o). pose proof (prefix_length _ _ (again_prefix (Z.to_nat 67) 4 o)). unfold zlen in *. lia. }
  split; [split; [by apply bytes_checked|done]|]. by apply Hn.
Qed.
Lemma ndif_image_expands_witness : resolve_base_image fresh (Some small_fork) beside None (Some []) [Done; Done] = Ok (Some small_disk).
Proof.
  apply (ndif_image_expands fresh small_fork small_disk beside [(BCEM_TYPE, [mk_res 128 0 small_map])]
    (one_resource 0 small_map) small_map small_block_map).
  - vm_compute. done.
  - vm_compute. done.
  - intros n Hn. unfold fresh, zlen. rewrite length_replicate. lia.
  - vm_compute. reflexivity.
  - apply small_checked. vm_compute. reflexivity.
  - exact small_fork_of.
  - reflexivity.
  - exact small_map_is.
  - vm_compute. reflexivity.
  - change (bm_sectors small_block_map) with 4. change (bm_data_offset small_block_map) with 0.
    rewrite small_chunks. repeat constructor; vm_compute; done.
  - change (bm_sectors small_block_map) with 4. change (bm_data_offset small_block_map) with 0.
    rewrite small_chunks. constructor; [|constructor; [|constructor; [|constructor]]].
    + apply (stored_raw _ _ _ []); vm_compute; reflexivity.
    + apply stored_zeros; vm_compute; reflexivity.
    + apply (stored_adc _ _ _ repeats); [reflexivity|done|exact repeats_ok|vm_compute; reflexivity..].
  - change (bm_sectors small_block_map) with 4. change (bm_data_offset small_block_map) with 0.
    rewrite small_chunks. intros i Hi. assert (zlen small_disk = 2048) as Hz by (vm_compute; reflexivity). rewrite Hz in Hi. right. unfold chunk_covers. rewrite !Exists_cons. cbn. lia.
  - done.
  - by repeat constructor.
Defined.

(** A compressed resource, a word whose difference to the next does not fit, and
    the fork that has it: opening an image beside it runs into the overflow. *)
Definition donn_head0 (size overrun : Z) : list Z := donn_head (mk_donn_header 1 size 0 overrun 0).
Definition steep : list Z := donn_head0 4 0 ++ [0xFE; 5] ++ enc (2 ^ 31 - 1) ++ enc 1 ++ enc 1 ++ [0xFF].
Example diff_overflows : rsrc_dcmp_decompress steep = Bad SignedOverflow.
Proof. vm_compute. reflexivity. Qed.
Lemma base_image_safe_witness : let s := mk_sidecars (Some [1; 2; 3]) None (Some (one_resource 1 steep)) in
  (exists file, resolve_base_image fresh (Some []) s None (Some []) [] = Ok file) \/ resolve_base_image fresh (Some []) s None (Some []) [] = Bad SignedOverflow.
Proof.
  intros s. apply base_image_safe; [vm_compute; done|vm_compute; done|apply small_checked; vm_compute; reflexivity|].
  split; [apply small_checked; vm_compute; reflexivity|done|apply small_checked; vm_compute; reflexivity].
Defined.

(** Every operation of a DonnBits stream once. *)
Definition all_operations : list donn_op := [
  Literal [1; 2]; Literal (replicate 40 7); Remember [3; 4]; Remember (replicate 32 9); Reuse 1; Reuse 0; Constant 0x4B; Constant 0xFD;
  RunByte 5 3; RunWord (-2) 2; DiffByteWord 100 [-1; 127]; DiffWord (-300) [200; -70000]; DiffLong 70000 [-1; 2147483647];
  JumpTable 2 [8; 300]; EntryVector (-8) 40 [50; 20000]; EntrySteps 64 (-6) 2 12].
Lemma s32_checked l : forallb (fun v => (-2147483648 <=? v) && (v <? 2147483648)) l = true -> Forall in_s32 l.
Proof. intros H. apply List.Forall_forall. intros v Hv. rewrite forallb_forall in H. specialize (H v Hv). unfold in_s32. change (2 ^ 31) with 2147483648. lia. Qed.
Ltac check_range :=
  match goal with
  | |- _ /\ _ => split
  | |- True => exact I
  | |- is_byte_list _ => apply bytes_checked; vm_compute; reflexivity
  | |- Forall in_s32 _ => apply s32_checked; vm_compute; reflexivity
  | |- Forall _ _ => constructor
  | |- in_s32 _ => unfold in_s32
  | |- _ <> _ => discriminate
  | |- _ = _ => vm_compute; reflexivity
  | |- _ <= _ => vm_compute; discriminate
  | |- _ < _ => vm_compute; reflexivity
  end.
Definition header200 : donn_header := mk_donn_header 1 300 128 16 0.
Lemma donn_decodes_witness : rsrc_dcmp_decompress (donn_resource header200 all_operations [0xAA]) = Ok (donn_contents 300 (ops_out [] all_operations)).
Proof.
  apply (donn_decodes header200 all_operations [0xAA]).
  - done.
  - vm_compute. done.
  - repeat split; done.
  - by apply bytes_checked.
  - cbn [all_operations ops_ok op_ok op_fits op_vars app]. unfold string_ok, vt_fits. repeat check_range.
  - vm_compute. discriminate.
Defined.
Example all_operations_decoded : zlen (ops_out [] all_operations) = 295.
Proof. vm_compute. reflexivity. Qed.

Definition two_entries : list ad_entry := [mk_entry AD_ENTRY_FINDER (Some (zeros 32)) 32; mk_entry 3 (Some [65; 66]) 2; mk_entry AD_ENTRY_RSRC None 0].
Lemma appledouble_roundtrip_witness : ad_buildable false two_entries /\ exists buf f,
  ad_build false two_entries = Ok buf /\ ad_detect buf = Ok true /\ ad_parse buf = Ok f /\
  ad_magic f = 0x00051607 /\ ad_version f = 0x00020000 /\ ad_entries f = two_entries /\
  ad_data f = last_with 1 two_entries /\ ad_rsrc f = last_with 2 two_entries /\ ad_finder f = last_with 9 two_entries.
Proof.
  assert (ad_buildable false two_entries) as H.
  { split; [done| |vm_compute; done]. repeat constructor; try done; by apply bytes_checked. }
  split; [exact H|]. apply (appledouble_roundtrip false two_entries); [done|exact H].
Defined.

Definition two_partitions : list apm_entry := [
  mk_apm 1 63 0 (chars "Apple"%string) (chars "Apple_partition_map"%string);
  mk_apm 64 100 0x33 (chars "MacOS"%string) (chars "apple_hfs"%string)].
Definition partitioned : list Z := apm_disk (zeros 512) two_partitions ++ zeros 512.
Lemma partition_map_read_witness : exists d', @image_apm_parse lp64 _ flat no_junk partitioned = (Ok (apm_table_of two_partitions), d') /\
  @medium_ok _ flat flat_laws d' /\ @medium_bytes _ flat flat_laws d' = partitioned.
Proof.
  apply (@partition_map_read lp64 ltac:(vm_compute; done) (list Z) flat flat_laws no_junk partitioned (zeros 512) two_partitions (zeros 512)).
  - split; vm_compute; done.
  - reflexivity.
  - reflexivity.
  - split; vm_compute; discriminate.
  - unfold two_partitions. constructor; [|constructor; [|constructor]].
    all: split; [by split|split; [by split|split; [by split|]]]; intros l [-> | ->]; vm_compute; repeat split; discriminate.
Defined.
Example kinds_found : fs_kind <$> partitions (apm_table_of two_partitions) = [APM_FS_PARTITION_MAP; APM_FS_HFS].
Proof. vm_compute. reflexivity. Qed.

(** ** Where the code departs from what it means to do *)

(** With a 32-bit size_t, the capacity of the output wraps: a resource that
    declares 4 GB and ends at once gets a block of 254 bytes, and the rest of the
    4 GB is cleared behind it. *)
Example capacity_wraps : @rsrc_dcmp_decompress wasm32 (donn_head0 (2 ^ 32 - 1) 255 ++ [0xFF]) = Bad OutOfBounds.
Proof. vm_compute. reflexivity. Qed.
(** With a 32-bit size_t, the check of a resource's length wraps as well: a
    resource of almost 4 GB is found in a fork of 70 bytes. *)
Definition endless : list Z := be 4 16 ++ be 4 20 ++ be 4 4 ++ be 4 50 ++ be 4 (2 ^ 32 - 4) ++
  zeros 24 ++ be 2 28 ++ be 2 50 ++ be 2 0 ++ BCEM_TYPE ++ be 2 0 ++ be 2 10 ++ be 2 128 ++ be 2 0xFFFF ++ [0] ++ be 3 0 ++ zeros 4.
Example length_wraps : zlen endless = 70 /\ @rfork_parse wasm32 endless = Bad OutOfBounds /\
  rfork_parse endless = Err (Because "resource data length out of range").
Proof. vm_compute. done. Qed.
(** A compressed chunk that cannot be read to its end expands to something else,
    and the expansion counts as done. *)
Example short_read_accepted : resolve_base_image fresh (Some small_fork) beside None (Some []) [Done; Done; Done; Short 5] =
  Ok (Some (replicate 512 0x11 ++ zeros 512 ++ [1; 2; 3; 4] ++ zeros 1020)).
Proof. vm_compute. reflexivity. Qed.
(** An id may be preceded by what strtol skips. *)
Example id_with_junk : rfork_id_from_path (chars " 128"%string) = Ok 128 /\ rfork_id_from_path (chars "+128"%string) = Ok 128.
Proof. vm_compute. done. Qed.
(** GreggyBits, which the comments say is not there. *)
Example greggy_works : rsrc_dcmp_decompress (be 4 RSRC_DCMP_MAGIC ++ be 2 18 ++ [9; 1] ++ be 4 3 ++ be 2 2 ++ be 2 0 ++ [0; 0] ++ [4; 65]) = Ok [0x4E; 0x75; 65].
Proof. vm_compute. reflexivity. Qed.
